(* ===== verification/_CoqProject ===== *)
-Q . S2P
Prelude.v
Strconv.v
Uint128.v
NetipAddr.v
NetipPrefix.v
NetipText.v
NetipRoundtrip.v
NetipProps.v
Threads.v
FdMutex.v
FdMutexInv.v
FdMutexProps.v
Netpoll.v
NetpollProps.v
NetpollTimers.v
NetpollWait.v
NetpollWaitInv.v
NetpollWaitProps.v
TimerHeap.v
Timers.v
TimersInv.v
TimersOps.v
TimersProps.v
TimerCheck.v
TimerCheckInv.v
TimerCheckProps.v
FdUnix.v
FdUnixSpec.v
FdUnixIO.v
FdUnixBulk.v
FdUnixOps.v
FdUnixEnd.v
FdUnixClose.v
FdUnixProps.v
NetHost.v
NetHostProps.v
NetIP.v
NetIPProps.v
NetCIDRProps.v
SortOps.v
SortSpec.v
SortStable.v
SortQuick.v
SortProps.v
AddrSelect.v
AddrSelectProps.v
DnsNames.v
DnsNamesProps.v
NetFile.v
NetFileProps.v
DnsConfig.v
DnsConfigProps.v
HostsFile.v
HostsFileProps.v
NssConf.v
LookupOrderProps.v
Stateful.v
DnsWire.v
DnsRecords.v
DnsParser.v
DnsWireProps.v
DnsRecordsProps.v
DnsMessageProps.v
DnsParserProps.v
DnsBuilderProps.v
DnsExchange.v
DnsExchangeProps.v
Resolver.v
ResolverProps.v
Ports.v
PortsProps.v
Lookups.v
LookupsProps.v
Resolve.v
ResolveProps.v
Dial.v
DialProps.v
Sockaddr.v
SockaddrProps.v
