(* ===== verification/Prelude.v ===== *)
(** * The networking core of the Go SDK under 02_go_sdk/go/src

    The repository holds small socket programs and the Go SDK they are studied
    with.  This development models the part of the SDK that carries a network
    connection from its textual address to a goroutine waiting for the kernel:
    the address types of net/netip and package net, the number routines they print
    and parse with, the operations of internal/poll on a file descriptor and the lock that
    guards it, the runtime's network poller, and the timers that fire its
    deadlines; and the part of package net that decides how a name is resolved.  Paths below are
    relative to 02_go_sdk/go/src.

    ** How the parts interact

    net/netip calls strconv, internal/itoa, internal/bytealg and cmp; nothing
    there keeps state.  Package net reads and writes through internal/poll's
    [FD]: each operation locks the descriptor ([fdMutex]), asks the poller
    whether it may go on, makes the system call, repeats it while the kernel
    says so, and gives the lock back; the last user of a closed descriptor
    destroys it.  A read that would block calls the poller
    (runtime/netpoll.go) to park the goroutine in one of the two semaphores of
    the descriptor's [pollDesc], from which the kernel's event
    (runtime/netpoll_epoll.go), a deadline or the closing of the descriptor wakes
    it.  A deadline is a runtime timer (runtime/time.go); the scheduler runs the
    timers that are ready (checkTimers, runtime/proc.go) and sleeps in the poller
    until the next one.

    ** Files and what they model

    - Prelude: byte and string literals, integers at their width ([u8] .. [u64],
      [i32], [i64] wrap around), Go's error values, the result type [res]
      (a value, an error, a panic), index and slice expressions with their
      bounds checks, [safe] (the calculus of "never panics"), and the hints.
    - Threads: sums over the list of goroutines ([total]), the counting argument
      the concurrent models and the timers share.
    - Strconv: strconv/itoa.go, strconv/atoi.go, internal/itoa,
      the byte searches of internal/bytealg and cmp.Compare.
    - Uint128, NetipAddr, NetipPrefix, NetipText: net/netip/uint128.go,
      leaf_alts.go and netip.go ([Addr], [AddrPort], [Prefix]; text and binary
      forms).  A method [T.M] is [T_M].  NetipRoundtrip holds the
      lemmas on printing and parsing, NetipProps the properties.
    - NetHost: net/parse.go, net/mac.go, net/port.go and the host and port
      functions of net/ipsock.go; NetHostProps their properties.
      NetIP: net/ip.go, the addresses, masks and networks as slices; NetIPProps
      and NetCIDRProps compare them with net/netip's [Addr] and [Prefix].
    - SortOps: package sort (zsortinterface.go, sort.go, search.go) over any type
      with the three methods of sort.Interface, the class [Interface].  SortSpec:
      the classes [StrictWeak] (what Less must be) and [Sortable] (the methods
      act on a list of elements), the binary search and insertion sort;
      SortStable: the in-place merge; SortQuick: partitions, the heap, pdqsort;
      SortProps: the properties, the slices, and that collections that
      correspond are sorted alike.
    - AddrSelect: net/addrselect.go, which sorts four slices together by Stable;
      AddrSelectProps: the rules of RFC 6724 on 128-bit numbers ([rank]), that
      the code computes them, and the property.
    - DnsNames: net/dnsclient.go, names and records, over a source of random
      numbers.  DnsNamesProps: the grammar [domain_name], reverse lookups,
      the orders of SRV and MX records.
    - NetFile: the type [file] of net/parse.go and io.ReadFull, over the class
      [Reader]; [RegularFile] is what is relied on of a file, and NetFileProps
      shows that the loops over readLine are loops over the lines of its text
      ([file_lines]), up to the first line that does not fit the 64 kB buffer,
      at which they stop.  DnsConfigProps has the fields of a line.
    - DnsConfig: net/dnsconfig.go, net/dnsconfig_unix.go (resolv.conf), and of
      net/dnsclient_unix.go the cached configuration and the names to ask for.
      DnsConfigProps: their properties.
    - HostsFile: net/hosts.go, the hosts file and its cache; HostsFileProps
      compares them with the list of the file's entries.
    - NssConf: net/nss.go (nsswitch.conf), foreachField, and net/conf.go (the
      choice of a resolver); LookupOrderProps: their properties.
    - DnsWire, DnsRecords, DnsParser: the messages of
      vendor/golang.org/x/net/dns/dnsmessage/message.go, in the order of its
      parts: integers, headers and names; records and their bodies; the Parser,
      Message and the Builder, whose methods are computations that keep their
      state when they fail (Stateful: the monad and [runs], its calculus).  The
      methods of the source's types are prefixed by the type where names clash.
      DnsWireProps, DnsRecordsProps: an encoder is what a packing function
      appends ([packs]), and [spec] says that it is read back; DnsMessageProps:
      messages; DnsParserProps: the parser on any bytes; DnsBuilderProps.
    - DnsExchange: net/dnsclient_unix.go up to tryOneName: requests, responses,
      a server asked, the servers in turn.  The class [Net] is what is outside:
      dialing, the bytes that arrive, random numbers, the setting netedns0.
      DnsExchangeProps: its properties, over any [Net] that sends bytes
      ([NetLaws]).
    - Resolver: lookup and the goLookup functions of net/dnsclient_unix.go and
      net/lookup.go, computations on the world, the configuration and the cache
      of the hosts file; [Host] has the file, the sources srcAddrs finds and the
      order in which concurrent queries are answered.  ResolverProps: the
      invariant [looking_ok] of that state, kept by every lookup ([follows]).
    - Ports: the services and protocols of net/lookup.go, net/port_unix.go and
      net/lookup_unix.go, a [directory] read from its files once; PortsProps.
    - Lookups: the lookups of net/lookup.go and net/lookup_unix.go, which choose
      between the C library, the class [Cgo], and Resolver's functions, and check
      the names they are given; LookupsProps.
    - Resolve: from a network and an address to endpoints (net/ipsock.go,
      net/dial.go, the Resolve functions of net/tcpsock.go and its fellows),
      computations on the state of Lookups and the directory of Ports, each part
      on its own ([on_lookups], [on_ports]); ResolveProps: its calculus
      ([resolves]) and the property.
    - Dial: net/dial.go.  [dialSerial] is a computation that records its calls, over
      the class [Dialing] of what is outside (clock, context, sockets); the race of
      dialParallel is [race_step], what each select may do next, and [run_race] any
      order of these; [dial_addrs] gives the addresses from Resolve.  DialProps.
    - Sockaddr: the conversions to and from the kernel's socket addresses
      (net/ipsock_posix.go, net/tcpsock_posix.go and its fellows, syscall on
      linux/amd64), over the cache of net/interface.go, whose host is the class
      [Interfaces]; SockaddrProps: over hosts whose interfaces do not change.
    - FdMutex: internal/poll/fd_mutex.go.  One turn of each compare-and-swap
      loop is a function of the word; [tstep] is what a goroutine does next, one
      atomic operation at a time, and [reachable] any interleaving of any number
      of goroutines using the operations in pairs.  FdMutexInv is the invariant,
      FdMutexProps the properties; [word] is the record the 64-bit word encodes.
    - FdUnix: internal/poll's operations on Linux (fd_unix.go, fd_unixjs.go,
      fd_posix.go, fd_poll_runtime.go, fd.go, writev.go, sendfile_linux.go,
      sock_cloexec.go, the socket options).  What they call is a class, [Env]:
      the lock, the poller, the kernel and the functions RawRead and the like
      are given, answering as other goroutines and the kernel make them.  An
      operation is a computation on the descriptor and the environment's state
      that records its calls.  FdUnixSpec: the class [Kernel] of what is relied
      on of the environment, and [wp], the rules to reason about a run by.
      FdUnixIO, FdUnixBulk: writing, reading, Writev and SendFile.
      FdUnixOps: all operations as one type [fdop], each under its lock;
      FdUnixEnd: each returns; FdUnixClose: the class [LockTurns], that the lock is
      FdMutex's word moved by FdMutex's turns, from which what closing relies on
      ([ClosingLock]) is proved, and [world], an environment made of those turns
      and Netpoll's functions for one goroutine, which satisfies the classes and
      in which the examples run.  FdUnixProps: the properties.
    - Netpoll: runtime/netpoll.go and netpoll_epoll.go, each function under the
      descriptor's lock as one step on [pollDesc].  A timer is here what the
      poller sees of one, armed with a function and a sequence number.
      NetpollProps: the published word, reuse, the cache;
      NetpollTimers: deadlines set, expired and changed in any order, with the
      callbacks of old timers arriving late.
    - NetpollWait: the same file at the grain of one atomic operation, any
      number of goroutines waiting, the lock-protected operations and the
      kernel's events interleaved.  NetpollWaitInv is the invariant,
      NetpollWaitProps the properties, among them that the interleaved steps
      compose to the functions of Netpoll.
    - TimerHeap: the 4-ary heap (siftupTimer, siftdownTimer).  Timers: the
      operations of runtime/time.go on the timers of one processor, the record
      [proc] (fields of type p of runtime2.go, the timers there are, the calls of
      wakeNetPoller made).  TimersInv: the invariant [wf] and the map [active]
      from timers to what they are set to do, which the statuses and the stale
      entries of the heap encode.  TimersOps, TimersProps: each operation
      against [wf] and [active].  TimerCheck: clearDeletedTimers, checkTimers of
      runtime/proc.go and the functions that combine the wake-up times of
      several processors; TimerCheckInv: their lemmas;
      TimerCheckProps: the properties.

    ** What the theorems show

    - The fd lock: the word implements the record of its fields, exclusion among
      readers and among writers, no panic while fewer than 2^20 goroutines use it
      (the source's bound), the descriptor destroyed once and only after the last
      use, a sleeper always owed its turn, closing is for good.
    - Descriptors: Write, Pwrite, Writev and SendFile report exactly what the
      kernel took, in order, each byte once and at its offset; Read and ReadFrom
      give what they were given, with its sender; interruptions and refusals to
      block never surface as errors; every operation returns (Writev on a kernel
      that writes something when it succeeds: its test for a call that moved
      nothing is on the total, [Writev_spins]) and holds its lock around all it
      does; after Close nothing but the refusal of the lock happens.
    - Waiting: no throw and no lost or doubled wake-up under any interleaving; a
      parked goroutine is in its semaphore or someone is about to make it ready;
      closing and expiry always find their waiter; netpollWaiters is exact.
    - Timers: the lazily maintained heap implements a map from timers to tasks;
      the loops end; checkTimers runs what is due, in order, and leaves nothing
      due; the times the scheduler sleeps by are never late, and a new earlier
      time is announced.
    - Deadlines, reuse and events: stale callbacks and events change nothing, and
      what publishInfo publishes is what the checks read (with the 16-bit field
      netpoll.go takes for 20 bits, see NetpollProps).
    - Addresses: parsing inverts printing for addresses, pairs and prefixes, in
      text and in binary; the text is canonical; no input makes a parser panic;
      order, successor, membership, overlap, masking and the address classes
      against the numbers and sets they stand for.  The older types of package
      net agree with them: the address by its text, bytes, classes and equality,
      the network by what it contains and prints; hosts, ports and hardware
      addresses are read in exactly their documented forms.
    - Sorting: Sort and Stable end on every collection whose Less is a strict
      weak order and leave it sorted, Stable in the one order that keeps ties;
      the order of RFC 6724, restated from the RFC, is such an order and what
      addrselect.go sorts by, and destinations stay with their sources.
    - Names: the name of a reverse lookup is the address's bytes or nibbles, last
      first; the names reverse lookups and the search path give are domain names
      (a suffix of resolv.conf taken as it is); SRV records are drawn by their weights within ascending priorities.
    - DNS messages: a message that is packed, with names of ten labels at most, is
      unpacked as it was; the Builder
      makes the message that AppendPack makes; unpacking any bytes, and any calls
      of the parser in any order, end without a panic and give well-formed values.
    - Configuration: whatever resolv.conf holds, the client gets a configuration
      it can use, with the servers the file names; the hosts file and its cache
      answer as the entries of the text last read, which is no older than five
      seconds or the file's last change; the order of lookups never leaves the Go
      resolver when it is forced, and on Linux chooses it otherwise exactly where
      every setting is understood.
    - Resolution: a request reads back as what it means; a response is accepted
      only if it answers the request; the servers are asked in turn until one
      settles the name; the names of the search path are tried in turn; what a lookup
      returns is in a response to a request for one of them sent to a server of
      the configuration, or in the hosts file or its cache, and otherwise there
      is an error about the name.  The names handed out are domain names; a port is in
      range; an endpoint is of the kind and family of its network and, to be
      dialed, of the local address's.
    - Dialing: the addresses are tried in turn within their shares of the time; the
      race of two dials ends, and leaves no connection open but the one it
      returns; a socket's family has a form of both its addresses, and what the
      kernel is handed reads back.
    - Numbers: parsing and printing are inverse, the fast paths agree with the
      reference, and errors are reported exactly when the value does not fit.

    ** Bounds and fuel

    Integers are [Z] with their wrap-around written out where the source relies
    on a width.  Loops that are not structural take fuel, and each has a lemma
    that its fuel is enough: nine turns of parseIPv6's loop, whose index grows by
    two ([parseIPv6_loop_safe]); 64 digits in formatBits; in the timers one turn
    more than there are timers for cleantimers and runtimer, the square of that
    for adjusttimers (after a removal the loop goes back), one round more than
    there are timers for checkTimers; a loop over a file's lines takes one turn
    more than the file has bytes, and one over the fields or sources of a line
    as many as the line has bytes; the loop over a name in a message takes eleven
    turns for each byte of the message and one byte more (ten pointers at most
    may be followed), one over a section one more than the section's count, one
    over the texts or options of a record as many as its length (the loops of the
    resolver over the records of a response take as many as its section's).  Running out of fuel, or a wait for another
    goroutine that the model has no step for, is [Panic []], which no panic of
    the source is; the theorems say that it does not happen.

    ** Not modelled

    The system calls and the kernel (arguments of the model: the events epoll
    reports, the errors of epoll_ctl), the other platforms' pollers (kqueue,
    IOCP, AIX, Solaris, wasm), pollWaitCanceled (Windows); memory reclamation of
    the poll cache's blocks; the semaphores of the runtime, which are taken by
    their documented behaviour (a count, one sleeper woken per release);
    splice and copy_file_range; what other goroutines do to the blocking mode of a
    descriptor while an operation on it runs; moveTimers (a processor's timers given to another when the world is stopped)
    and the wrappers package time links to; the float, quoting and boolean parts
    of strconv; the printing methods of dnsmessage; the rest of package net (the C library's answers, which are a class;
    contexts, traces and the sharing of one lookup between callers; listening,
    and the sockets themselves) and
    of the SDK: compiler, linker, scheduler proper, garbage collector, cryptography.
    The C exercises of 01, 03 and 04 (socket clients and servers, a user-space
    protocol stack) are another language's code and are left aside. *)
From Stdlib Require Export ZArith Lia Bool.
From Stdlib Require Strings.Byte.
From stdpp Require Export base list option numbers.
#[global] Open Scope Z_scope.

(** ** Literals

    A Go byte is its value, a [Z] in [0, 256); a Go string or byte slice is
    the list of its bytes.  ["a"%byte] is the character constant ['a'] and
    ["abc"%go] the string constant, both read directly as numerals, so that
    [lia] and the evaluator see the values. *)
Declare Scope gochar_scope.
Delimit Scope gochar_scope with byte.
Declare Scope gostr_scope.
Delimit Scope gostr_scope with go.

Abbreviation bytes := (list Z).

Definition parse_char (l : list Byte.byte) : option Z :=
  match l with [b] => Some (Z.of_N (Byte.to_N b)) | _ => None end.
Definition print_char (_ : Z) : option (list Byte.byte) := None.
String Notation Z parse_char print_char : gochar_scope.

Inductive lit : Set := lit_nil | lit_cons (c : Z) (l : lit).
Fixpoint parse_lit (l : list Byte.byte) : lit :=
  match l with
  | [] => lit_nil
  | b :: l => lit_cons (Z.of_N (Byte.to_N b)) (parse_lit l)
  end.
Definition print_lit (_ : lit) : option (list Byte.byte) := None.
#[warnings="-via-type-mismatch"]
String Notation list parse_lit print_lit
  (via lit mapping [[nil] => lit_nil, [cons] => lit_cons]) : gostr_scope.

(** ** Fixed-width integers: conversions wrap around *)
Definition u8 (x : Z) : Z := x mod 2 ^ 8.
Definition u16 (x : Z) : Z := x mod 2 ^ 16.
Definition u32 (x : Z) : Z := x mod 2 ^ 32.
Definition u64 (x : Z) : Z := x mod 2 ^ 64.
(** [int64(x)] for any integer [x]: two's complement. *)
Definition i64 (x : Z) : Z := (x + 2 ^ 63) mod 2 ^ 64 - 2 ^ 63.
Definition i32 (x : Z) : Z := (x + 2 ^ 31) mod 2 ^ 32 - 2 ^ 31.
(** [^uint64(0)], [^x], [x << n] and [x &^ y] on uint64. *)
Definition max64 : Z := 2 ^ 64 - 1.
Definition not64 (x : Z) : Z := max64 - x.
Definition shl64 (x n : Z) : Z := u64 (Z.shiftl x n).
Definition andnot (x y : Z) : Z := Z.ldiff x y.

(** ** Errors, panics

    The text of an error is kept as the concatenation the source writes:
    literal pieces and applications of [strconv.Quote], whose Unicode tables
    are not modelled; no code modelled here inspects an error's text. *)
Inductive etok : Set :=
| Lit (s : bytes)
| Quote (s : bytes).
Abbreviation emsg := (list etok).

Inductive error : Set :=
| ErrorString (m : emsg)                                (* errors.New *)
| ParseAddrError (in_ : bytes) (msg : emsg) (at_ : bytes) (* net/netip *)
| NumError (Func Num : bytes) (Err : error)             (* strconv *)
| AddrError (Err Addr : bytes)                          (* net *)
| ParseError (Type_ Text : bytes)                       (* net *)
| DNSError (Err Name Server : bytes) (IsTimeout IsTemporary IsNotFound : bool) (* net *)
| nestedError (s : bytes) (err : error)                 (* dnsmessage *)
| Var (name text : bytes)     (* errors.New held in a variable, where texts do not tell errors apart *)
| Foreign (text : bytes) (Error Timeout Temporary OpError : bool). (* of code left aside: what its callers ask of it *)

Definition New (s : bytes) : error := ErrorString [Lit s].

(** What a call does: it returns a value, it returns an error, or it panics. *)
Inductive res (A : Type) : Type :=
| Ok (a : A)
| Err (e : error)
| Panic (m : emsg).
Arguments Ok {A} a.
Arguments Err {A} e.
Arguments Panic {A} m.

#[global] Instance res_ret : MRet res := @Ok.
#[global] Instance res_bind : MBind res := λ A B k m,
  match m with Ok a => k a | Err e => Err e | Panic p => Panic p end.
#[global] Instance res_fmap : FMap res := λ A B f m,
  match m with Ok a => Ok (f a) | Err e => Err e | Panic p => Panic p end.

(** Indexing: [s[i]] and [s[i] = v] panic out of range. *)
Definition index_panic : emsg := [Lit "index out of range"%go].
Definition at_ {A} (s : list A) (i : Z) : res A :=
  if i <? 0 then Panic index_panic
  else match s !! Z.to_nat i with Some c => Ok c | None => Panic index_panic end.
Definition set_at {A} (s : list A) (i : Z) (v : A) : res (list A) :=
  if (0 <=? i) && (i <? Z.of_nat (length s))
  then Ok (<[Z.to_nat i := v]> s) else Panic index_panic.
(** [s[i:]], [s[:i]] and [s[i:j]]; out of range they panic too. *)
Definition slice_panic : emsg := [Lit "slice bounds out of range"%go].
Definition slice {A} (s : list A) (i j : Z) : res (list A) :=
  if (0 <=? i) && (i <=? j) && (j <=? Z.of_nat (length s))
  then Ok (drop (Z.to_nat i) (take (Z.to_nat j) s)) else Panic slice_panic.
Definition len {A} (s : list A) : Z := Z.of_nat (length s).
Definition from {A} (s : list A) (i : Z) : res (list A) := slice s i (len s).
Definition upto {A} (s : list A) (i : Z) : res (list A) := slice s 0 i.

(** ** Well-formed data *)
Definition is_u8 (x : Z) : Prop := 0 <= x < 2 ^ 8.
Definition is_u16 (x : Z) : Prop := 0 <= x < 2 ^ 16.
Definition is_u32 (x : Z) : Prop := 0 <= x < 2 ^ 32.
Definition is_u64 (x : Z) : Prop := 0 <= x < 2 ^ 64.
Definition is_bytes (s : bytes) : Prop := Forall is_u8 s.

(** String comparison with [<]: lexicographic on bytes. *)
Fixpoint bytes_compare (a b : bytes) : comparison :=
  match a, b with
  | [], [] => Eq
  | [], _ :: _ => Lt
  | _ :: _, [] => Gt
  | x :: a, y :: b =>
      match x ?= y with Eq => bytes_compare a b | c => c end
  end.
Definition bytes_ltb (a b : bytes) : bool :=
  match bytes_compare a b with Lt => true | _ => false end.

Fixpoint beq (a b : bytes) : bool :=
  match a, b with
  | [], [] => true
  | x :: a, y :: b => (x =? y) && beq a b
  | _, _ => false
  end.

#[global] Instance etok_eq_dec : EqDecision etok.
Proof. solve_decision. Defined.
#[global] Instance error_eq_dec : EqDecision error.
Proof.
  intros e1. induction e1 as [m|a m b|f n e IH|e a|t x|e n s p q r|s e IH|n t|t p q r u];
    intros [m'|a' m' b'|f' n' e'|e' a'|t' x'|e' n' s' p' q' r'|s' e'|n' t'|t' p' q' r' u'];
    try (right; discriminate).
  - destruct (decide (m = m')); [left|right]; congruence.
  - destruct (decide ((a, m, b) = (a', m', b'))); [left|right]; congruence.
  - destruct (decide ((f, n) = (f', n'))), (IH e'); [left|right..]; congruence.
  - destruct (decide ((e, a) = (e', a'))); [left|right]; congruence.
  - destruct (decide ((t, x) = (t', x'))); [left|right]; congruence.
  - destruct (decide ((e, n, s, p, q, r) = (e', n', s', p', q', r'))); [left|right]; congruence.
  - destruct (decide (s = s')), (IH e'); [left|right..]; congruence.
  - destruct (decide ((n, t) = (n', t'))); [left|right]; congruence.
  - destruct (decide ((t, p, q, r, u) = (t', p', q', r', u'))); [left|right]; congruence.
Defined.
#[global] Instance res_eq_dec {A} `{EqDecision A} : EqDecision (res A).
Proof. solve_decision. Defined.

(** Arithmetic with the width constants evaluated, so that division by them is
    by a numeral. *)
Ltac eval_pow :=
  repeat match goal with
  | |- context [2 ^ ?n] =>
      let v := eval vm_compute in (2 ^ n) in
      lazymatch v with Zpos _ => change (2 ^ n) with v end
  | H : context [2 ^ ?n] |- _ =>
      let v := eval vm_compute in (2 ^ n) in
      lazymatch v with Zpos _ => change (2 ^ n) with v in H end
  end.
Ltac zwlia :=
  unfold is_u8, is_u16, is_u32, is_u64, u8, u16, u32, u64, max64 in *;
  eval_pow; Z.to_euclidean_division_equations; lia.

(** ** Ranges of the machine operations *)
Lemma u8_range x : is_u8 (u8 x).
Proof. apply Z.mod_pos_bound; lia. Qed.
Lemma u16_range x : is_u16 (u16 x).
Proof. apply Z.mod_pos_bound; lia. Qed.
Lemma u32_range x : is_u32 (u32 x).
Proof. apply Z.mod_pos_bound; lia. Qed.
Lemma u64_range x : is_u64 (u64 x).
Proof. apply Z.mod_pos_bound; lia. Qed.
Lemma u8_id x : is_u8 x → u8 x = x.
Proof. apply Z.mod_small. Qed.
Lemma u16_id x : is_u16 x → u16 x = x.
Proof. apply Z.mod_small. Qed.
Lemma u32_id x : is_u32 x → u32 x = x.
Proof. apply Z.mod_small. Qed.
Lemma u64_id x : is_u64 x → u64 x = x.
Proof. apply Z.mod_small. Qed.
Lemma i64_id x : - 2 ^ 63 <= x < 2 ^ 63 → i64 x = x.
Proof. intros. unfold i64. rewrite Z.mod_small; lia. Qed.

Lemma land_nonneg x y : 0 <= x → 0 <= Z.land x y.
Proof. intros. apply Z.land_nonneg; auto. Qed.

(** A number below [2^n] has no bit from [n] on, and conversely. *)
Lemma testbit_high x n i : 0 <= x < 2 ^ n → n <= i → Z.testbit x i = false.
Proof.
  intros Hx Hi. destruct (decide (x = 0)) as [->|]; [apply Z.testbit_0_l|].
  apply Z.bits_above_log2; [lia|].
  assert (0 <= n) by (destruct (decide (0 <= n)); [done|rewrite Z.pow_neg_r in Hx; lia]).
  apply Z.log2_lt_pow2; [lia|]. pose proof (Z.pow_le_mono_r 2 n i). lia.
Qed.
Lemma bits_bound x n :
  0 <= n → 0 <= x → (∀ i, n <= i → Z.testbit x i = false) → x < 2 ^ n.
Proof.
  intros Hn Hx H. destruct (decide (x = 0)) as [->|]; [lia|].
  apply Z.log2_lt_pow2; [lia|]. apply Z.nle_gt. intros Hle.
  specialize (H _ Hle). rewrite Z.bit_log2 in H; [done|lia].
Qed.
Lemma land_range n x y : 0 <= n → 0 <= x < 2 ^ n → 0 <= y → 0 <= Z.land x y < 2 ^ n.
Proof.
  intros Hn Hx Hy. split; [apply Z.land_nonneg; lia|].
  apply bits_bound; [done|apply Z.land_nonneg; lia|].
  intros i Hi. rewrite Z.land_spec, (testbit_high x n) by done. done.
Qed.
Lemma lor_range n x y : 0 <= n → 0 <= x < 2 ^ n → 0 <= y < 2 ^ n → 0 <= Z.lor x y < 2 ^ n.
Proof.
  intros Hn Hx Hy. split; [apply Z.lor_nonneg; lia|].
  apply bits_bound; [done|apply Z.lor_nonneg; lia|].
  intros i Hi. rewrite Z.lor_spec, (testbit_high x n), (testbit_high y n) by done. done.
Qed.
Lemma lxor_range n x y : 0 <= n → 0 <= x < 2 ^ n → 0 <= y < 2 ^ n → 0 <= Z.lxor x y < 2 ^ n.
Proof.
  intros Hn Hx Hy. split; [apply Z.lxor_nonneg; lia|].
  apply bits_bound; [done|apply Z.lxor_nonneg; lia|].
  intros i Hi. rewrite Z.lxor_spec, (testbit_high x n), (testbit_high y n) by done. done.
Qed.
Lemma shiftr_range n x k : 0 <= k → 0 <= x < 2 ^ n → 0 <= Z.shiftr x k < 2 ^ n.
Proof.
  intros Hk Hx. rewrite Z.shiftr_div_pow2 by done.
  split; [apply Z.div_pos; lia|].
  apply Z.div_lt_upper_bound; [lia|]. nia.
Qed.
Lemma not64_range x : is_u64 x → is_u64 (not64 x).
Proof. unfold is_u64, not64, max64. lia. Qed.
Lemma not64_spec x i :
  is_u64 x → 0 <= i → Z.testbit (not64 x) i = (i <? 64) && negb (Z.testbit x i).
Proof.
  intros Hx Hi. destruct (Z.ltb_spec i 64); cycle 1.
  { apply (testbit_high _ 64); [by apply not64_range|done]. }
  replace (not64 x) with (Z.lnot x mod 2 ^ 64).
  { rewrite Z.mod_pow2_bits_low, Z.lnot_spec by lia. done. }
  unfold not64, max64, Z.lnot, is_u64 in *. symmetry.
  apply (Z.mod_unique _ _ (-1)); lia.
Qed.
Lemma u64_spec x i : 0 <= i → Z.testbit (u64 x) i = (i <? 64) && Z.testbit x i.
Proof.
  intros Hi. unfold u64. destruct (Z.ltb_spec i 64).
  - by rewrite Z.mod_pow2_bits_low.
  - by rewrite Z.mod_pow2_bits_high by lia.
Qed.
Lemma max64_spec i : 0 <= i → Z.testbit max64 i = (i <? 64).
Proof.
  intros Hi. change max64 with (Z.ones 64). destruct (Z.ltb_spec i 64).
  - apply Z.ones_spec_low; lia.
  - apply Z.ones_spec_high; lia.
Qed.

(** Shifting and masking as division and remainder. *)
Lemma land_ones_mod x n : 0 <= n → Z.land x (2 ^ n - 1) = x mod 2 ^ n.
Proof. intros. rewrite <- Z.land_ones, Z.ones_equiv by done. done. Qed.

(** Disjoint bits add up. *)
Lemma lor_add x y : Z.land x y = 0 → Z.lor x y = x + y.
Proof.
  intros H. rewrite <- Z.lxor_lor by done. symmetry. by apply Z.add_nocarry_lxor.
Qed.
Lemma lor_shift_add x y n :
  0 <= n → 0 <= y < 2 ^ n → Z.lor (Z.shiftl x n) y = x * 2 ^ n + y.
Proof.
  intros Hn Hy. rewrite lor_add; [by rewrite Z.shiftl_mul_pow2|].
  apply Z.bits_inj'. intros i Hi. rewrite Z.land_spec, Z.bits_0.
  destruct (decide (i < n)).
  - by rewrite Z.shiftl_spec_low.
  - rewrite (testbit_high y n) by lia. by rewrite andb_false_r.
Qed.

Create Rewrite HintDb zbits.
#[global] Hint Rewrite Z.land_spec Z.lor_spec Z.lxor_spec Z.ldiff_spec
  Z.testbit_0_l : zbits.
#[global] Hint Rewrite Z.shiftr_spec u64_spec max64_spec using lia : zbits.

Create HintDb gorange.
#[export] Hint Resolve u8_range u16_range u32_range u64_range not64_range : gorange.

(** ** Lists *)
Lemma at_app_len {A} (l1 l2 : list A) x :
  at_ (l1 ++ x :: l2) (len l1) = Ok x.
Proof.
  unfold at_, len. destruct (Z.ltb_spec (Z.of_nat (length l1)) 0); [lia|].
  rewrite Nat2Z.id, list_lookup_middle; done.
Qed.
Lemma at_lookup {A} (l : list A) i x :
  0 <= i → l !! Z.to_nat i = Some x → at_ l i = Ok x.
Proof. intros Hi Hl. unfold at_. destruct (Z.ltb_spec i 0); [lia|]. by rewrite Hl. Qed.
Lemma set_at_ok {A} (l : list A) i v :
  0 <= i < len l → set_at l i v = Ok (<[Z.to_nat i := v]> l).
Proof.
  intros Hi. unfold set_at, len in *.
  rewrite (proj2 (Z.leb_le 0 i)), (proj2 (Z.ltb_lt _ _)) by lia. done.
Qed.
Lemma slice_ok {A} (l : list A) i j :
  0 <= i <= j → j <= len l →
  slice l i j = Ok (drop (Z.to_nat i) (take (Z.to_nat j) l)).
Proof.
  intros Hi Hj. unfold slice, len in *.
  rewrite (proj2 (Z.leb_le 0 i)), (proj2 (Z.leb_le i j)), (proj2 (Z.leb_le j _)) by lia.
  done.
Qed.
Lemma len_app {A} (l1 l2 : list A) : len (l1 ++ l2) = len l1 + len l2.
Proof. unfold len. rewrite length_app. lia. Qed.
Lemma len_cons {A} (x : A) l : len (x :: l) = len l + 1.
Proof. unfold len. simpl. lia. Qed.
Lemma len_nonneg {A} (l : list A) : 0 <= len l.
Proof. unfold len. lia. Qed.
Lemma len_pos_list {A} (l : list A) : l ≠ [] → 0 < len l.
Proof. destruct l; [done|]. intros _. unfold len. simpl. lia. Qed.
Lemma slice_mid {A} (l1 l2 l3 : list A) i j : i = len l1 → j = len l1 + len l2 → slice (l1 ++ l2 ++ l3) i j = Ok l2.
Proof.
  intros -> ->. pose proof (len_nonneg l1). pose proof (len_nonneg l2). pose proof (len_nonneg l3). unfold slice.
  replace (Z.of_nat (length (l1 ++ l2 ++ l3))) with (len l1 + (len l2 + len l3)) by (unfold len; rewrite !length_app; lia).
  destruct (_ && _) eqn:E; [|lia]. f_equal. rewrite app_assoc.
  replace (Z.to_nat (len l1 + len l2)) with (length (l1 ++ l2)) by (unfold len; rewrite length_app; lia).
  rewrite take_app_length. unfold len. rewrite Nat2Z.id. apply drop_app_length.
Qed.
Lemma from_app {A} (l1 l2 : list A) i : i = len l1 → from (l1 ++ l2) i = Ok l2.
Proof. intros ->. unfold from. pose proof (slice_mid l1 l2 [] (len l1) (len l1 + len l2) eq_refl eq_refl) as H. by rewrite !app_nil_r, <- len_app in H. Qed.
Lemma upto_app {A} (l1 l2 : list A) i : i = len l1 → upto (l1 ++ l2) i = Ok l1.
Proof. intros ->. apply (slice_mid [] l1 l2); done. Qed.
Lemma at_last {A} (t : list A) c : at_ (t ++ [c]) (len (t ++ [c]) - 1) = Ok c.
Proof. rewrite len_app. change (len [c]) with 1. replace (len t + 1 - 1) with (len t) by lia. apply at_app_len. Qed.

Lemma beq_eq a b : beq a b = true ↔ a = b.
Proof.
  revert b. induction a as [|x a IH]; intros [|y b]; simpl; try done.
  rewrite andb_true_iff, Z.eqb_eq, IH. intuition congruence.
Qed.
Lemma beq_refl a : beq a a = true.
Proof. by apply beq_eq. Qed.
Lemma bytes_compare_eq a b : bytes_compare a b = Eq ↔ a = b.
Proof.
  revert b. induction a as [|x a IH]; intros [|y b]; simpl; try done.
  destruct (Z.compare_spec x y) as [->|H|H]; rewrite ?IH; split; try congruence; intros [= ]; lia.
Qed.
Lemma bytes_compare_antisym a b : bytes_compare b a = CompOpp (bytes_compare a b).
Proof.
  revert b. induction a as [|x a IH]; intros [|y b]; simpl; try done.
  rewrite (Z.compare_antisym x y). destruct (x ?= y); simpl; auto.
Qed.

(** ** What a call may return

    [safe P r]: [r] is not a panic, and a value it returns satisfies [P]. *)
Definition safe {A} (P : A → Prop) (r : res A) : Prop :=
  match r with Ok a => P a | Err _ => True | Panic _ => False end.

Lemma safe_bind {A B} (P : A → Prop) (Q : B → Prop) (r : res A) (k : A → res B) :
  safe P r → (∀ a, P a → safe Q (k a)) → safe Q (x ← r; k x).
Proof. destruct r; simpl; auto. Qed.
Lemma safe_mono {A} (P Q : A → Prop) (r : res A) :
  safe P r → (∀ a, P a → Q a) → safe Q r.
Proof. destruct r; simpl; auto. Qed.
Lemma safe_if {A} (Q : A → Prop) (b : bool) (r1 r2 : res A) :
  (b = true → safe Q r1) → (b = false → safe Q r2) → safe Q (if b then r1 else r2).
Proof. destruct b; auto. Qed.
Lemma safe_at {A} (l : list A) i : 0 <= i < len l → safe (λ x, l !! Z.to_nat i = Some x) (at_ l i).
Proof.
  intros Hi. unfold at_, len in *. rewrite (proj2 (Z.ltb_ge i 0)) by lia.
  destruct (l !! Z.to_nat i) eqn:E; [done|]. apply lookup_ge_None in E. lia.
Qed.
Lemma safe_set_at {A} (l : list A) i v :
  0 <= i < len l → safe (λ l', l' = <[Z.to_nat i := v]> l) (set_at l i v).
Proof. intros. by rewrite set_at_ok. Qed.
Lemma safe_slice {A} (l : list A) i j : 0 <= i <= j → j <= len l →
  safe (λ l', l' = drop (Z.to_nat i) (take (Z.to_nat j) l)) (slice l i j).
Proof. intros. by rewrite slice_ok. Qed.
Lemma safe_from {A} (l : list A) i : 0 <= i <= len l →
  safe (λ l', l' = drop (Z.to_nat i) l) (from l i).
Proof.
  intros. unfold from. rewrite slice_ok by lia. simpl. f_equal.
  unfold len. by rewrite Nat2Z.id, firstn_all.
Qed.
Lemma safe_upto {A} (l : list A) i : 0 <= i <= len l →
  safe (λ l', l' = take (Z.to_nat i) l) (upto l i).
Proof. intros. unfold upto. by rewrite slice_ok by lia. Qed.
Lemma safe_iff {A} (Q : A → Prop) (r : res A) :
  safe Q r ↔ (∃ a, r = Ok a ∧ Q a) ∨ (∃ e, r = Err e).
Proof.
  destruct r as [a|e|m]; simpl; split; intros H; eauto; try naive_solver.
Qed.

Lemma len_insert {A} (l : list A) i v : len (<[i:=v]> l) = len l.
Proof. unfold len. by rewrite length_insert. Qed.
Lemma is_bytes_insert l i v : is_bytes l → is_u8 v → is_bytes (<[i:=v]> l).
Proof. unfold is_bytes. intros. by apply Forall_insert. Qed.
Lemma is_bytes_lookup l i v : is_bytes l → l !! i = Some v → is_u8 v.
Proof. unfold is_bytes. intros H E. by eapply Forall_lookup_1 in E. Qed.
Lemma is_bytes_drop l n : is_bytes l → is_bytes (drop n l).
Proof. apply Forall_drop. Qed.
Lemma is_bytes_take l n : is_bytes l → is_bytes (take n l).
Proof. apply Forall_take. Qed.
Lemma len_drop {A} (l : list A) n : 0 <= n <= len l → len (drop (Z.to_nat n) l) = len l - n.
Proof. unfold len. rewrite length_drop. lia. Qed.
#[export] Hint Resolve is_bytes_insert is_bytes_drop is_bytes_take : gorange.

(** ** Fields of a machine word *)
Lemma ldiff_land x y : Z.ldiff x y = x - Z.land x y.
Proof.
  pose proof (Z.lor_ldiff_and x y) as E. rewrite lor_add in E; [lia|].
  apply Z.bits_inj'. intros i Hi. rewrite !Z.land_spec, Z.ldiff_spec, Z.bits_0.
  by destruct (Z.testbit x i), (Z.testbit y i).
Qed.
Lemma lor_land x y : Z.lor x y = x + y - Z.land x y.
Proof. pose proof (Z.add_lor_land x y). lia. Qed.
(** The field of [n] bits at position [k]. *)
Lemma land_field x n k m : 0 <= n → 0 <= k → m = (2 ^ n - 1) * 2 ^ k →
  Z.land x m = x / 2 ^ k mod 2 ^ n * 2 ^ k.
Proof.
  intros Hn Hk ->. rewrite <- land_ones_mod by done.
  rewrite <- (Z.shiftr_div_pow2 x), <- !Z.shiftl_mul_pow2 by done.
  apply Z.bits_inj'. intros i Hi. rewrite Z.land_spec.
  destruct (decide (i < k)).
  { rewrite !(Z.shiftl_spec_low _ k i) by done. by rewrite andb_false_r. }
  rewrite !Z.shiftl_spec, Z.land_spec, Z.shiftr_spec by lia. do 2 f_equal. lia.
Qed.
