(* ===== verification/Strconv.v ===== *)
(** * strconv, internal/itoa, internal/bytealg, cmp

    The number and byte-search routines of the standard library that the
    networking packages call: [IndexByteString], [LastIndexByteString]
    (internal/bytealg), [Compare] on integers (cmp), [Itoa], [Uitoa]
    (internal/itoa), [FormatUint], [FormatInt], [AppendUint],
    [ParseUint], [ParseInt], [Atoi] (strconv).  The host is 64-bit
    ([intSize = 64], [host32bit = false]).

    A local byte array that is filled from its end ([i--; a[i] = c]) is the
    list [a[i:]] of the bytes written so far; [push] fails, as the store
    would, when the array is full. *)
From S2P Require Import Prelude.

(** ** internal/bytealg *)
Fixpoint index_loop (s : bytes) (c i : Z) : Z :=
  match s with
  | [] => -1
  | x :: s => if x =? c then i else index_loop s c (i + 1)
  end.
Definition IndexByteString (s : bytes) (c : Z) : Z := index_loop s c 0.

Fixpoint last_index_loop (s : bytes) (c : Z) (n : nat) : Z :=
  match n with
  | O => -1
  | S i => if nth i s 0 =? c then Z.of_nat i else last_index_loop s c i
  end.
Definition LastIndexByteString (s : bytes) (c : Z) : Z :=
  last_index_loop s c (length s).

(** ** cmp.Compare at an integer type *)
Definition cmp_Compare (x y : Z) : Z :=
  if x <? y then -1 else if x >? y then 1 else 0.

(** ** internal/itoa *)
Definition push (cap : Z) (c : Z) (a : bytes) : res bytes :=
  if len a <? cap then Ok (c :: a) else Panic index_panic.

Fixpoint Uitoa_loop (fuel : nat) (val : Z) (buf : bytes) : res bytes :=
  match fuel with
  | O => Panic []
  | S fuel =>
      if val >=? 10 then
        let q := val / 10 in
        buf ← push 20 ("0"%byte + val - q * 10) buf;
        Uitoa_loop fuel q buf
      else push 20 ("0"%byte + val) buf
  end.
Definition Uitoa (val : Z) : res bytes :=
  if val =? 0 then Ok "0"%go else Uitoa_loop 20 val [].
Definition Itoa (val : Z) : res bytes :=
  if val <? 0 then s ← Uitoa (u64 (- val)); Ok ("-"%go ++ s)
  else Uitoa (u64 val).

(** ** strconv: formatting *)
Definition nSmalls : Z := 100.
Definition smallsString : bytes := (
  "00010203040506070809" ++
  "10111213141516171819" ++
  "20212223242526272829" ++
  "30313233343536373839" ++
  "40414243444546474849" ++
  "50515253545556575859" ++
  "60616263646566676869" ++
  "70717273747576777879" ++
  "80818283848586878889" ++
  "90919293949596979899")%go.
Definition digits : bytes := "0123456789abcdefghijklmnopqrstuvwxyz"%go.

Definition small (i : Z) : res bytes :=
  if i <? 10 then slice digits i (i + 1)
  else slice smallsString (i * 2) (i * 2 + 2).

Definition isPowerOfTwo (x : Z) : bool := Z.land x (x - 1) =? 0.

(** [bits.TrailingZeros(uint(base))] at the bases the power-of-two branch
    admits. *)
Definition TrailingZeros (x : Z) : Z :=
  if x =? 0 then 64
  else match filter (λ k, Z.testbit x (Z.of_nat k) = true) (seq 0 64) with
       | k :: _ => Z.of_nat k
       | [] => 64
       end.

(** base 10: two digits at a time. *)
Fixpoint formatBits_dec (fuel : nat) (us : Z) (a : bytes) : res bytes :=
  match fuel with
  | O => Panic []
  | S fuel =>
      if us >=? 100 then
        let k := us mod 100 * 2 in
        let us := us / 100 in
        c1 ← at_ smallsString (k + 1);
        a ← push 65 c1 a;
        c0 ← at_ smallsString k;
        a ← push 65 c0 a;
        formatBits_dec fuel us a
      else
        let k := us * 2 in
        c1 ← at_ smallsString (k + 1);
        a ← push 65 c1 a;
        if us >=? 10 then c0 ← at_ smallsString k; push 65 c0 a
        else Ok a
  end.

(** bases 2, 4, 8, 16, 32: shifts and masks. *)
Fixpoint formatBits_pow2 (fuel : nat) (u b m shift : Z) (a : bytes) : res bytes :=
  match fuel with
  | O => Panic []
  | S fuel =>
      if u >=? b then
        c ← at_ digits (Z.land u m);
        a ← push 65 c a;
        formatBits_pow2 fuel (Z.shiftr u shift) b m shift a
      else c ← at_ digits u; push 65 c a
  end.

(** any other base. *)
Fixpoint formatBits_gen (fuel : nat) (u b : Z) (a : bytes) : res bytes :=
  match fuel with
  | O => Panic []
  | S fuel =>
      if u >=? b then
        let q := u / b in
        c ← at_ digits (u - q * b);
        a ← push 65 c a;
        formatBits_gen fuel q b a
      else c ← at_ digits u; push 65 c a
  end.

(** The bytes [a[i:]] of the local array at the end of formatBits, which it
    then appends to [dst] or returns as a string. *)
Definition formatBits (u base : Z) (neg : bool) : res bytes :=
  if (base <? 2) || (base >? len digits)
  then Panic [Lit "strconv: illegal AppendInt/FormatInt base"%go]
  else
    let u := if neg then u64 (- u) else u in
    a ← (if base =? 10 then formatBits_dec 65 u []
         else if isPowerOfTwo base then
           let shift := Z.land (TrailingZeros base) 7 in
           formatBits_pow2 65 u base (base - 1) shift []
         else formatBits_gen 65 u base []);
    if neg then push 65 "-"%byte a else Ok a.

Definition FormatUint (i base : Z) : res bytes :=
  if (i <? nSmalls) && (base =? 10) then small i else formatBits i base false.
Definition FormatInt (i base : Z) : res bytes :=
  if (0 <=? i) && (i <? nSmalls) && (base =? 10) then small i
  else formatBits (u64 i) base (i <? 0).
Definition AppendUint (dst : bytes) (i base : Z) : res bytes :=
  if (i <? nSmalls) && (base =? 10) then s ← small i; Ok (dst ++ s)
  else d ← formatBits i base false; Ok (dst ++ d).
Definition AppendInt (dst : bytes) (i base : Z) : res bytes :=
  if (0 <=? i) && (i <? nSmalls) && (base =? 10) then s ← small i; Ok (dst ++ s)
  else d ← formatBits (u64 i) base (i <? 0); Ok (dst ++ d).
Definition strconv_Itoa (i : Z) : res bytes := FormatInt i 10.

(** ** strconv: parsing *)
Definition lower (c : Z) : Z := Z.lor c ("x"%byte - "X"%byte).

Definition ErrRange : error := New "value out of range"%go.
Definition ErrSyntax : error := New "invalid syntax"%go.

Definition syntaxError (fn str : bytes) : error := NumError fn str ErrSyntax.
Definition rangeError (fn str : bytes) : error := NumError fn str ErrRange.
(** The number in the text is [strconv.Itoa]'s, which always returns. *)
Definition itoa_text (i : Z) : bytes :=
  match strconv_Itoa i with Ok s => s | _ => [] end.
Definition baseError (fn str : bytes) (base : Z) : error :=
  NumError fn str (ErrorString [Lit "invalid base "%go; Lit (itoa_text base)]).
Definition bitSizeError (fn str : bytes) (bitSize : Z) : error :=
  NumError fn str (ErrorString [Lit "invalid bit size "%go; Lit (itoa_text bitSize)]).

Definition intSize : Z := 64.
Definition fnParseUint : bytes := "ParseUint"%go.
Definition fnParseInt : bytes := "ParseInt"%go.
Definition fnAtoi : bytes := "Atoi"%go.

(** underscoreOK's loop, from index [i] on; [saw] is the class of the last
    character. *)
Fixpoint underscoreOK_loop (hex : bool) (s : bytes) (saw : Z) : bool :=
  match s with
  | [] => negb (saw =? "_"%byte)
  | c :: s =>
      if ("0"%byte <=? c) && (c <=? "9"%byte)
         || hex && ("a"%byte <=? lower c) && (lower c <=? "f"%byte)
      then underscoreOK_loop hex s "0"%byte
      else if c =? "_"%byte then
        if negb (saw =? "0"%byte) then false
        else underscoreOK_loop hex s "_"%byte
      else if saw =? "_"%byte then false
      else underscoreOK_loop hex s "!"%byte
  end.
Definition underscoreOK (s : bytes) : bool :=
  let s := if (1 <=? len s) && ((nth 0 s 0 =? "-"%byte) || (nth 0 s 0 =? "+"%byte))
           then drop 1 s else s in
  let l1 := lower (nth 1 s 0) in
  if (2 <=? len s) && (nth 0 s 0 =? "0"%byte)
     && ((l1 =? "b"%byte) || (l1 =? "o"%byte) || (l1 =? "x"%byte))
  then underscoreOK_loop (l1 =? "x"%byte) (drop 2 s) "0"%byte
  else underscoreOK_loop false s "^"%byte.

(** The base switch of ParseUint: the base to use and the digits left, or
    [None] for an invalid base. *)
Definition ParseUint_base (s : bytes) (base : Z) : option (Z * bytes) :=
  if (2 <=? base) && (base <=? 36) then Some (base, s)
  else if base =? 0 then
    if nth 0 s 0 =? "0"%byte then
      if (3 <=? len s) && (lower (nth 1 s 0) =? "b"%byte) then Some (2, drop 2 s)
      else if (3 <=? len s) && (lower (nth 1 s 0) =? "o"%byte) then Some (8, drop 2 s)
      else if (3 <=? len s) && (lower (nth 1 s 0) =? "x"%byte) then Some (16, drop 2 s)
      else Some (8, drop 1 s)
    else Some (10, s)
  else None.

(** The digit loop of ParseUint: [inl] is a return from inside the loop. *)
Fixpoint ParseUint_loop (s0 : bytes) (base0 : bool) (base cutoff maxVal : Z)
    (s : bytes) (underscores : bool) (n : Z) : (Z * error) + (Z * bool) :=
  match s with
  | [] => inr (n, underscores)
  | c :: s =>
      if (c =? "_"%byte) && base0
      then ParseUint_loop s0 base0 base cutoff maxVal s true n
      else
        let digit d :=
          if d >=? u8 base then inl (0, syntaxError fnParseUint s0)
          else if n >=? cutoff then inl (maxVal, rangeError fnParseUint s0)
          else
            let n := u64 (n * base) in
            let n1 := u64 (n + d) in
            if (n1 <? n) || (n1 >? maxVal)
            then inl (maxVal, rangeError fnParseUint s0)
            else ParseUint_loop s0 base0 base cutoff maxVal s underscores n1 in
        if ("0"%byte <=? c) && (c <=? "9"%byte) then digit (c - "0"%byte)
        else if ("a"%byte <=? lower c) && (lower c <=? "z"%byte)
        then digit (u8 (lower c - "a"%byte + 10))
        else inl (0, syntaxError fnParseUint s0)
  end.

Definition ParseUint (s : bytes) (base bitSize : Z) : Z * option error :=
  match s with
  | [] => (0, Some (syntaxError fnParseUint s))
  | _ =>
      match ParseUint_base s base with
      | None => (0, Some (baseError fnParseUint s base))
      | Some (b, s1) =>
          if negb (bitSize =? 0) && ((bitSize <? 0) || (bitSize >? 64))
          then (0, Some (bitSizeError fnParseUint s bitSize))
          else
            let bitSize := if bitSize =? 0 then intSize else bitSize in
            let cutoff := max64 / b + 1 in
            let maxVal := u64 (shl64 1 bitSize - 1) in
            match ParseUint_loop s (base =? 0) b cutoff maxVal s1 false 0 with
            | inl (v, e) => (v, Some e)
            | inr (n, underscores) =>
                if underscores && negb (underscoreOK s)
                then (0, Some (syntaxError fnParseUint s))
                else (n, None)
            end
      end
  end.

Definition ParseInt (s : bytes) (base bitSize : Z) : Z * option error :=
  match s with
  | [] => (0, Some (syntaxError fnParseInt s))
  | c :: rest =>
      let neg := c =? "-"%byte in
      let s1 := if (c =? "+"%byte) || neg then rest else s in
      let '(un, err) := ParseUint s1 base bitSize in
      let after :=
        let bitSize := if bitSize =? 0 then intSize else bitSize in
        let cutoff := u64 (shl64 1 (bitSize - 1)) in
        if negb neg && (un >=? cutoff)
        then (i64 (cutoff - 1), Some (rangeError fnParseInt s))
        else if neg && (un >? cutoff)
        then (i64 (- i64 cutoff), Some (rangeError fnParseInt s))
        else
          let n := i64 un in
          ((if neg then i64 (- n) else n), None) in
      match err with
      | Some (NumError _ _ e) =>
          if decide (e = ErrRange) then after
          else (0, Some (NumError fnParseInt s e))
      | Some e => (0, Some e)
      | None => after
      end
  end.

(** Atoi's fast path over the digits. *)
Fixpoint Atoi_loop (s : bytes) (n : Z) : option Z :=
  match s with
  | [] => Some n
  | ch :: s =>
      let ch := u8 (ch - "0"%byte) in
      if ch >? 9 then None else Atoi_loop s (i64 (n * 10 + ch))
  end.
Definition Atoi (s : bytes) : Z * option error :=
  if (0 <? len s) && (len s <? 19) then
    let signed := (nth 0 s 0 =? "-"%byte) || (nth 0 s 0 =? "+"%byte) in
    let s1 := if signed then drop 1 s else s in
    if signed && (len s1 <? 1) then (0, Some (syntaxError fnAtoi s))
    else
      match Atoi_loop s1 0 with
      | None => (0, Some (syntaxError fnAtoi s))
      | Some n => ((if nth 0 s 0 =? "-"%byte then i64 (- n) else n), None)
      end
  else
    match ParseInt s 10 0 with
    | (i, Some (NumError _ num e)) => (i, Some (NumError fnAtoi num e))
    | r => r
    end.

(** ** The digits of a number: the specification of formatting

    [repr b u s]: [s] is [u] in base [b], most significant digit first,
    without superfluous zeros. *)
Definition digit (d : Z) : Z := nth (Z.to_nat d) digits 0.
Inductive repr (b : Z) : Z → bytes → Prop :=
| repr_one u : 0 <= u < b → repr b u [digit u]
| repr_more u s : b <= u → repr b (u / b) s → repr b u (s ++ [digit (u mod b)]).

Lemma repr_nonneg b u s : 2 <= b → repr b u s → 0 <= u.
Proof. intros Hb H. inversion H; subst; lia. Qed.
Lemma repr_unique b u s s' : repr b u s → repr b u s' → s = s'.
Proof.
  intros H. revert s'. induction H as [u Hu|u s Hu H IH]; intros s' H'; inversion H'; subst;
    try lia; [done|]. by rewrite (IH s0).
Qed.
Lemma digit_lookup d : 0 <= d < 36 → at_ digits d = Ok (digit d).
Proof.
  intros. apply at_lookup; [lia|]. unfold digit.
  destruct (nth_lookup_or_length digits (Z.to_nat d) 0) as [E|E]; [done|].
  simpl in E. lia.
Qed.
Lemma push_ok c a n : len a + 1 <= n → push n c a = Ok (c :: a).
Proof. intros. unfold push. by rewrite (proj2 (Z.ltb_lt _ _)) by lia. Qed.

(** The general algorithm: [n] digits are enough for [u < b ^ n]. *)
Lemma formatBits_gen_spec n : ∀ fuel b u a, 2 <= b <= 36 → 0 <= u < b ^ Z.of_nat (S n) →
  (n < fuel)%nat → len a + Z.of_nat (S n) <= 65 →
  ∃ s, formatBits_gen fuel u b a = Ok (s ++ a) ∧ repr b u s ∧ (length s <= S n)%nat.
Proof.
  induction n as [|n IH]; intros fuel b u a Hb Hu Hf Ha; (destruct fuel as [|fuel]; [lia|]);
    cbn [formatBits_gen]; rewrite Z.geb_leb; destruct (Z.leb_spec b u) as [Hbu|Hbu].
  - rewrite Z.pow_1_r in Hu. lia.
  - rewrite digit_lookup by lia. cbn [mbind res_bind]. rewrite push_ok by lia.
    exists [digit u]. split; [done|]. split; [apply repr_one; lia|simpl; lia].
  - assert (u - u / b * b = u mod b) as E by (rewrite Z.mod_eq by lia; lia).
    pose proof (Z.mod_pos_bound u b ltac:(lia)).
    rewrite E, digit_lookup by lia. cbn [mbind res_bind]. rewrite push_ok by lia.
    cbn [mbind res_bind].
    destruct (IH fuel b (u / b) (digit (u mod b) :: a)) as (s&Hs&Hr&Hl); [done| |lia| |].
    + split; [apply Z.div_pos; lia|]. apply Z.div_lt_upper_bound; [lia|].
      rewrite <- Z.pow_succ_r by lia. replace (Z.succ (Z.of_nat (S n))) with (Z.of_nat (S (S n))) by lia. lia.
    + rewrite len_cons. lia.
    + exists (s ++ [digit (u mod b)]). rewrite Hs, <- app_assoc. split; [done|].
      split; [by apply repr_more|]. rewrite length_app. simpl. lia.
  - rewrite digit_lookup by lia. cbn [mbind res_bind]. rewrite push_ok by lia.
    exists [digit u]. split; [done|]. split; [apply repr_one; lia|simpl; lia].
Qed.
(** The power-of-two algorithm takes the same steps. *)
Lemma formatBits_pow2_gen fuel b k u a : b = 2 ^ k → 0 <= k → 0 <= u →
  formatBits_pow2 fuel u b (b - 1) k a = formatBits_gen fuel u b a.
Proof.
  intros -> Hk. revert u a. induction fuel as [|fuel IH]; intros u a Hu; [done|].
  cbn [formatBits_pow2 formatBits_gen]. destruct (u >=? 2 ^ k); [|done].
  rewrite land_ones_mod, Z.shiftr_div_pow2 by done.
  replace (u - u / 2 ^ k * 2 ^ k) with (u mod 2 ^ k)
    by (rewrite Z.mod_eq by (apply Z.pow_nonzero; lia); lia).
  destruct (at_ digits (u mod 2 ^ k)) as [c| |]; [|done..]. cbn [mbind res_bind].
  destruct (push 65 c a) as [a'| |]; [|done..]. cbn [mbind res_bind].
  apply IH. apply Z.div_pos; lia.
Qed.
(** The two-digit table. *)
Lemma smallsString_spec k : 0 <= k < 100 →
  at_ smallsString (k * 2) = Ok (digit (k / 10)) ∧
  at_ smallsString (k * 2 + 1) = Ok (digit (k mod 10)).
Proof.
  intros Hk.
  assert (H : forallb (λ n, let k := Z.of_nat n in
     bool_decide (at_ smallsString (k * 2) = Ok (digit (k / 10)) ∧
                  at_ smallsString (k * 2 + 1) = Ok (digit (k mod 10)))) (seq 0 100) = true)
    by (vm_compute; reflexivity).
  rewrite forallb_forall in H. specialize (H (Z.to_nat k)).
  rewrite in_seq, Z2Nat.id in H by lia. cbv zeta in H.
  apply bool_decide_eq_true in H; [done|lia].
Qed.
(** The base-10 algorithm. *)
Lemma formatBits_dec_spec n : ∀ fuel u a, 0 <= u < 100 ^ Z.of_nat (S n) →
  (n < fuel)%nat → len a + 2 * Z.of_nat (S n) <= 65 →
  ∃ s, formatBits_dec fuel u a = Ok (s ++ a) ∧ repr 10 u s.
Proof.
  assert (small : ∀ fuel u a, 0 <= u < 100 → len a + 2 <= 65 →
    ∃ s, formatBits_dec (S fuel) u a = Ok (s ++ a) ∧ repr 10 u s).
  { intros fuel u a Hu Ha. cbn [formatBits_dec]. rewrite !Z.geb_leb.
    rewrite (proj2 (Z.leb_gt 100 u)) by lia.
    destruct (smallsString_spec u Hu) as [-> ->]. cbn [mbind res_bind].
    rewrite push_ok by lia. cbn [mbind res_bind].
    destruct (Z.leb_spec 10 u).
    - rewrite push_ok by (rewrite len_cons; lia).
      exists [digit (u / 10); digit (u mod 10)]. split; [done|].
      apply (repr_more 10 u [digit (u / 10)]); [done|]. apply repr_one. zwlia.
    - exists [digit (u mod 10)]. split; [done|].
      rewrite Z.mod_small by lia. apply repr_one. lia. }
  induction n as [|n IH]; intros fuel u a Hu Hf Ha; (destruct fuel as [|fuel]; [lia|]).
  { apply small; [|lia]. change (100 ^ Z.of_nat 1) with 100 in Hu. done. }
  destruct (Z.lt_ge_cases u 100) as [H100|H100]; [apply small; lia|].
  cbn [formatBits_dec]. rewrite Z.geb_leb, (proj2 (Z.leb_le 100 u)) by lia.
  destruct (smallsString_spec (u mod 100)) as [-> ->]; [zwlia|].
  cbn [mbind res_bind]. rewrite push_ok by lia. cbn [mbind res_bind].
  rewrite push_ok by (rewrite len_cons; lia). cbn [mbind res_bind].
  destruct (IH fuel (u / 100) (digit (u mod 100 / 10) :: digit (u mod 100 mod 10) :: a))
    as (s&Hs&Hr); [|lia|rewrite !len_cons; lia|].
  { split; [apply Z.div_pos; lia|]. apply Z.div_lt_upper_bound; [lia|].
    rewrite <- Z.pow_succ_r by lia. replace (Z.succ (Z.of_nat (S n))) with (Z.of_nat (S (S n))) by lia. lia. }
  exists ((s ++ [digit (u mod 100 / 10)]) ++ [digit (u mod 100 mod 10)]).
  rewrite Hs, <- !app_assoc. split; [done|].
  replace (u mod 100 mod 10) with (u mod 10) by zwlia. rewrite app_assoc.
  apply repr_more; [lia|].
  replace (u mod 100 / 10) with (u / 10 mod 10) by zwlia.
  apply repr_more; [zwlia|]. by rewrite Z.div_div by lia.
Qed.

Lemma pow2_bases b : 2 <= b <= 36 → isPowerOfTwo b = true →
  b = 2 ^ Z.land (TrailingZeros b) 7 ∧ 0 <= Z.land (TrailingZeros b) 7.
Proof.
  intros Hb.
  assert (H : forallb (λ n, let b := Z.of_nat n in implb (isPowerOfTwo b)
     ((b =? 2 ^ Z.land (TrailingZeros b) 7) && (0 <=? Z.land (TrailingZeros b) 7)))
     (seq 2 35) = true) by (vm_compute; reflexivity).
  rewrite forallb_forall in H. specialize (H (Z.to_nat b)).
  rewrite in_seq, Z2Nat.id in H by lia. cbv zeta in H. intros Hp.
  specialize (H ltac:(lia)). rewrite Hp in H. simpl in H.
  apply andb_true_iff in H. lia.
Qed.
Lemma pow_base_64 b : 2 <= b → 2 ^ 64 <= b ^ 64.
Proof. intros. apply Z.pow_le_mono_l. lia. Qed.

(** Whatever the base, the digits are the representation of the number. *)
Lemma formatBits_spec u base (neg : bool) : 0 <= u < 2 ^ 64 → 2 <= base <= 36 →
  let v := if neg then u64 (- u) else u in
  ∃ s, formatBits u base neg = Ok (if neg then "-"%byte :: s else s) ∧ repr base v s.
Proof.
  intros Hu Hb v. unfold formatBits. change (len digits) with 36.
  rewrite Z.gtb_ltb, (proj2 (Z.ltb_ge base 2)), (proj2 (Z.ltb_ge 36 base)) by lia.
  cbn [orb]. fold v.
  assert (Hv : 0 <= v < 2 ^ 64).
  { unfold v. destruct neg; [apply u64_range|done]. }
  assert (Hgen : ∃ s, formatBits_gen 65 v base [] = Ok s ∧ repr base v s ∧ (length s <= 64)%nat).
  { pose proof (pow_base_64 base ltac:(lia)).
    destruct (formatBits_gen_spec 63 65 base v []) as (s&Hs&Hr&Hl);
      [done|change (Z.of_nat 64) with 64; lia|lia|unfold len; simpl; lia|].
    rewrite app_nil_r in Hs. by exists s. }
  assert (Ha : ∃ s, (if base =? 10 then formatBits_dec 65 v []
     else if isPowerOfTwo base then
       formatBits_pow2 65 v base (base - 1) (Z.land (TrailingZeros base) 7) []
     else formatBits_gen 65 v base []) = Ok s ∧ repr base v s ∧ (length s <= 64)%nat).
  { destruct (Z.eqb_spec base 10) as [->|].
    - destruct (formatBits_dec_spec 31 65 v []) as (s&Hs&Hr);
        [change (Z.of_nat 32) with 32; lia|lia|unfold len; simpl; lia|].
      rewrite app_nil_r in Hs. destruct Hgen as (s'&_&Hr'&Hl').
      exists s. rewrite (repr_unique _ _ _ _ Hr Hr') in *. done.
    - destruct (isPowerOfTwo base) eqn:Hp; [|done].
      destruct (pow2_bases base Hb Hp) as [E E0].
      rewrite (formatBits_pow2_gen 65 base _ v [] E E0) by lia. exact Hgen. }
  destruct Ha as (s&Hs&Hr&Hl). cbv zeta. rewrite Hs. cbn [mbind res_bind].
  exists s. split; [|done]. destruct neg; [|done].
  rewrite push_ok; [done|]. unfold len. lia.
Qed.
Lemma small_spec i : 0 <= i < 100 → ∃ s, small i = Ok s ∧ repr 10 i s.
Proof.
  intros Hi. unfold small. destruct (Z.ltb_spec i 10).
  - exists [digit i]. split; [|apply repr_one; lia].
    rewrite slice_ok by (change (len digits) with 36; lia).
    assert (i = 0 ∨ i = 1 ∨ i = 2 ∨ i = 3 ∨ i = 4 ∨ i = 5 ∨ i = 6 ∨ i = 7 ∨ i = 8 ∨ i = 9) as Hc by lia.
    repeat (destruct Hc as [Hc|Hc]); subst i; reflexivity.
  - exists [digit (i / 10); digit (i mod 10)]. split.
    + assert (H' : forallb (λ n, let i := Z.of_nat n in
        bool_decide (slice smallsString (i * 2) (i * 2 + 2) = Ok [digit (i / 10); digit (i mod 10)]))
        (seq 0 100) = true) by (vm_compute; reflexivity).
      rewrite forallb_forall in H'. specialize (H' (Z.to_nat i)).
      rewrite in_seq, Z2Nat.id in H' by lia. cbv zeta in H'.
      apply bool_decide_eq_true in H'; [done|lia].
    + apply (repr_more 10 i [digit (i / 10)]); [lia|]. apply repr_one. zwlia.
Qed.
Lemma FormatUint_repr i base : 0 <= i < 2 ^ 64 → 2 <= base <= 36 →
  ∃ s, FormatUint i base = Ok s ∧ repr base i s.
Proof.
  intros Hi Hb. unfold FormatUint, nSmalls.
  destruct (Z.ltb_spec i 100), (Z.eqb_spec base 10) as [->|]; cbn [andb];
    try (apply small_spec; lia); apply (formatBits_spec i _ false); lia.
Qed.
Lemma AppendUint_repr dst i base : 0 <= i < 2 ^ 64 → 2 <= base <= 36 →
  ∃ s, AppendUint dst i base = Ok (dst ++ s) ∧ repr base i s.
Proof.
  intros Hi Hb. destruct (FormatUint_repr i base Hi Hb) as (s&Hs&Hr). exists s.
  split; [|done]. unfold FormatUint, AppendUint in *.
  destruct (_ && _); rewrite Hs; done.
Qed.
Lemma FormatInt_repr i base : - 2 ^ 63 <= i < 2 ^ 63 → 2 <= base <= 36 →
  ∃ s, FormatInt i base = Ok (if i <? 0 then "-"%byte :: s else s) ∧ repr base (Z.abs i) s.
Proof.
  intros Hi Hb. unfold FormatInt, nSmalls.
  destruct (Z.leb_spec 0 i), (Z.ltb_spec i 100), (Z.eqb_spec base 10) as [->|]; cbn [andb];
    try (rewrite (proj2 (Z.ltb_ge i 0)), Z.abs_eq by lia; apply small_spec; lia);
    (destruct (formatBits_spec (u64 i) base (i <? 0) (u64_range i) Hb) as (s&Hs&Hr)
     || destruct (formatBits_spec (u64 i) 10 (i <? 0) (u64_range i) Hb) as (s&Hs&Hr));
    exists s; (split; [done|]);
    (destruct (Z.ltb_spec i 0); [|rewrite u64_id in Hr by (unfold is_u64; lia); by rewrite Z.abs_eq]);
    (replace (Z.abs i) with (u64 (- u64 i)) by zwlia); done.
Qed.

(** ** Digit strings and their value: the specification of parsing *)
Definition digit_value (c : Z) : option Z :=
  if ("0"%byte <=? c) && (c <=? "9"%byte) then Some (c - "0"%byte)
  else if ("a"%byte <=? lower c) && (lower c <=? "z"%byte)
  then Some (lower c - "a"%byte + 10)
  else None.
(** [s] is written with the digits [ds] of base [base]. *)
Definition digits_of (base : Z) (s : bytes) (ds : list Z) : Prop :=
  Forall2 (λ c d, digit_value c = Some d ∧ d < base) s ds.
Definition horner (base n : Z) (ds : list Z) : Z :=
  fold_left (λ n d, n * base + d) ds n.

Lemma digit_value_range c d : digit_value c = Some d → 0 <= d < 36.
Proof.
  unfold digit_value.
  destruct (Z.leb_spec "0"%byte c), (Z.leb_spec c "9"%byte); cbn [andb];
    try (intros [= <-]; lia);
    destruct (Z.leb_spec "a"%byte (lower c)), (Z.leb_spec (lower c) "z"%byte); cbn [andb];
    intros [= <-]; lia.
Qed.
Lemma digit_value_digit d : 0 <= d < 36 → digit_value (digit d) = Some d.
Proof.
  intros Hd.
  assert (H : forallb (λ n, bool_decide (digit_value (digit (Z.of_nat n)) = Some (Z.of_nat n)))
    (seq 0 36) = true) by (vm_compute; reflexivity).
  rewrite forallb_forall in H. specialize (H (Z.to_nat d)).
  rewrite in_seq, Z2Nat.id in H by lia. apply bool_decide_eq_true in H; [done|lia].
Qed.
Lemma horner_app base n ds ds' : horner base n (ds ++ ds') = horner base (horner base n ds) ds'.
Proof. apply fold_left_app. Qed.
Lemma horner_ge base n ds : 1 <= base → 0 <= n → Forall (λ d, 0 <= d) ds → n <= horner base n ds.
Proof.
  intros Hb Hn H. revert n Hn. induction H as [|d ds Hd H IH]; intros n Hn; [simpl; lia|].
  unfold horner in *. simpl. specialize (IH (n * base + d)). nia.
Qed.
Lemma digits_of_nonneg base s ds : digits_of base s ds → Forall (λ d, 0 <= d) ds.
Proof.
  induction 1 as [|c d s ds [Hd _] _ IH]; constructor; [|done].
  apply digit_value_range in Hd. lia.
Qed.
(** Printed digits are digits of the base, of the printed value. *)
Lemma repr_digits b u s : 2 <= b <= 36 → repr b u s →
  ∃ ds, digits_of b s ds ∧ horner b 0 ds = u ∧ s ≠ [].
Proof.
  intros Hb. induction 1 as [u Hu|u s Hu H (ds&Hds&Hh&Hn)].
  - exists [u]. split; [|split; [simpl; unfold horner; simpl; lia|done]].
    constructor; [|constructor]. split; [apply digit_value_digit; lia|lia].
  - pose proof (Z.mod_pos_bound u b ltac:(lia)).
    exists (ds ++ [u mod b]). split; [|split].
    + apply Forall2_app; [done|]. constructor; [|constructor].
      split; [apply digit_value_digit; lia|lia].
    + rewrite horner_app, Hh. unfold horner. simpl. rewrite Z.mod_eq by lia. lia.
    + by intros [_ ?]%app_eq_nil.
Qed.

(** One digit of ParseUint's loop. *)
Lemma ParseUint_loop_digit s0 base cutoff maxVal c s us n d :
  digit_value c = Some d →
  ParseUint_loop s0 false base cutoff maxVal (c :: s) us n =
    if d >=? u8 base then inl (0, syntaxError fnParseUint s0)
    else if n >=? cutoff then inl (maxVal, rangeError fnParseUint s0)
    else
      let n := u64 (n * base) in
      let n1 := u64 (n + d) in
      if (n1 <? n) || (n1 >? maxVal) then inl (maxVal, rangeError fnParseUint s0)
      else ParseUint_loop s0 false base cutoff maxVal s us n1.
Proof.
  intros Hd. pose proof (digit_value_range c d Hd) as Hr. unfold digit_value in Hd.
  cbn [ParseUint_loop]. rewrite andb_false_r.
  destruct (("0"%byte <=? c) && (c <=? "9"%byte)); [by injection Hd as <-|].
  destruct (("a"%byte <=? lower c) && (lower c <=? "z"%byte)); [|done].
  injection Hd as Hd. rewrite Hd, u8_id by (unfold is_u8; lia). done.
Qed.
Lemma ParseUint_loop_bad s0 base cutoff maxVal c s us n :
  digit_value c = None →
  ParseUint_loop s0 false base cutoff maxVal (c :: s) us n
  = inl (0, syntaxError fnParseUint s0).
Proof.
  intros Hd. unfold digit_value in Hd. cbn [ParseUint_loop]. rewrite andb_false_r.
  destruct (("0"%byte <=? c) && (c <=? "9"%byte)); [done|].
  by destruct (("a"%byte <=? lower c) && (lower c <=? "z"%byte)).
Qed.
(** The overflow tests are exact: the digit is accepted exactly when the new
    value fits. *)
Lemma ParseUint_overflow base bits n d : 2 <= base <= 36 → 1 <= bits <= 64 →
  0 <= n <= 2 ^ bits - 1 → 0 <= d < base →
  (if n >=? max64 / base + 1 then false
   else let m := u64 (n * base) in let n1 := u64 (m + d) in
        negb ((n1 <? m) || (n1 >? 2 ^ bits - 1))) = (n * base + d <=? 2 ^ bits - 1) ∧
  (n * base + d <= 2 ^ bits - 1 → u64 (u64 (n * base) + d) = n * base + d).
Proof.
  intros Hb Hbits Hn Hd.
  assert (H64 : 2 ^ bits <= 2 ^ 64) by (apply Z.pow_le_mono_r; lia).
  rewrite Z.geb_leb. destruct (Z.leb_spec (max64 / base + 1) n) as [Hc|Hc].
  - assert (max64 < n * base).
    { pose proof (Z.mul_succ_div_gt max64 base ltac:(lia)). nia. }
    unfold max64 in *. split; [symmetry; apply Z.leb_gt; lia|lia].
  - assert (n * base <= max64).
    { pose proof (Z.mul_div_le max64 base ltac:(lia)). nia. }
    unfold max64 in *. rewrite (u64_id (n * base)) by (unfold is_u64; nia).
    cbv zeta. rewrite Z.gtb_ltb.
    destruct (Z.lt_ge_cases (n * base + d) (2 ^ 64)) as [Hlt|Hge].
    + rewrite (u64_id (n * base + d)) by (unfold is_u64; nia). split; [|done].
      rewrite (proj2 (Z.ltb_ge (n * base + d) (n * base))) by lia. cbn [orb].
      destruct (Z.ltb_spec (2 ^ bits - 1) (n * base + d)), (Z.leb_spec (n * base + d) (2 ^ bits - 1));
        try done; lia.
    + assert (E : u64 (n * base + d) = n * base + d - 2 ^ 64).
      { unfold u64. symmetry. apply (Z.mod_unique _ _ 1); lia. }
      rewrite E. rewrite (proj2 (Z.ltb_lt _ _)) by lia. cbn [orb negb].
      split; [symmetry; apply Z.leb_gt; lia|lia].
Qed.
Lemma ParseUint_loop_valid s0 base bits s ds us n : 2 <= base <= 36 → 1 <= bits <= 64 →
  0 <= n <= 2 ^ bits - 1 → digits_of base s ds →
  ParseUint_loop s0 false base (max64 / base + 1) (2 ^ bits - 1) s us n =
    if horner base n ds <=? 2 ^ bits - 1 then inr (horner base n ds, us)
    else inl (2 ^ bits - 1, rangeError fnParseUint s0).
Proof.
  intros Hb Hbits Hn H. revert n Hn. induction H as [|c d s ds [Hd Hdb] H IH]; intros n Hn.
  { simpl. by rewrite (proj2 (Z.leb_le _ _)) by lia. }
  pose proof (digit_value_range c d Hd) as Hdr.
  rewrite (ParseUint_loop_digit _ _ _ _ _ _ _ _ d Hd).
  rewrite u8_id by (unfold is_u8; lia). rewrite (Z.geb_leb d), (proj2 (Z.leb_gt base d)) by lia.
  destruct (ParseUint_overflow base bits n d Hb Hbits Hn ltac:(lia)) as [Hov Hval].
  change (horner base n (d :: ds)) with (horner base (n * base + d) ds).
  destruct (n >=? max64 / base + 1); cbv zeta in *.
  - symmetry in Hov. apply Z.leb_gt in Hov.
    pose proof (horner_ge base (n * base + d) ds ltac:(lia) ltac:(nia)
      (digits_of_nonneg base s ds H)).
    by rewrite (proj2 (Z.leb_gt _ _)) by lia.
  - destruct (_ || _); cbn [negb] in Hov; symmetry in Hov.
    + apply Z.leb_gt in Hov.
      pose proof (horner_ge base (n * base + d) ds ltac:(lia) ltac:(nia)
        (digits_of_nonneg base s ds H)).
      by rewrite (proj2 (Z.leb_gt _ _)) by lia.
    + apply Z.leb_le in Hov. rewrite Hval by done. apply IH. nia.
Qed.
Lemma ParseUint_loop_inr s0 base cutoff maxVal s us n r : 2 <= base <= 36 →
  ParseUint_loop s0 false base cutoff maxVal s us n = inr r → ∃ ds, digits_of base s ds.
Proof.
  intros Hb. revert n us. induction s as [|c s IH]; intros n us H; [exists []; constructor|].
  destruct (digit_value c) as [d|] eqn:Hd.
  - rewrite (ParseUint_loop_digit _ _ _ _ _ _ _ _ d Hd) in H.
    rewrite u8_id, Z.geb_leb in H by (unfold is_u8; lia).
    destruct (Z.leb_spec base d); [done|]. destruct (n >=? cutoff); [done|].
    cbv zeta in H. destruct (_ || _); [done|]. apply IH in H as [ds Hds].
    exists (d :: ds). by constructor.
  - by rewrite ParseUint_loop_bad in H.
Qed.

Lemma maxVal_eq bits : 1 <= bits <= 64 → u64 (shl64 1 bits - 1) = 2 ^ bits - 1.
Proof.
  intros Hb. unfold shl64. rewrite Z.shiftl_mul_pow2, Z.mul_1_l by lia.
  destruct (decide (bits = 64)) as [->|]; [reflexivity|].
  assert (1 <= 2 ^ bits <= 2 ^ 63) by (split; [apply (Z.pow_le_mono_r 2 0); lia|apply Z.pow_le_mono_r; lia]).
  rewrite (u64_id (2 ^ bits)) by (unfold is_u64; lia). apply u64_id. unfold is_u64. lia.
Qed.
(** The bit size ParseUint works with. *)
Definition eff_bits (bitSize : Z) : Z := if bitSize =? 0 then 64 else bitSize.
Lemma ParseUint_unfold s base bitSize : s ≠ [] → 2 <= base <= 36 → 0 <= bitSize <= 64 →
  ParseUint s base bitSize =
    match ParseUint_loop s false base (max64 / base + 1) (2 ^ eff_bits bitSize - 1) s false 0 with
    | inl (v, e) => (v, Some e)
    | inr (n, us) => if us && negb (underscoreOK s)
                     then (0, Some (syntaxError fnParseUint s)) else (n, None)
    end.
Proof.
  intros Hs Hb Hbits. unfold ParseUint, ParseUint_base.
  rewrite !(proj2 (Z.leb_le _ _)) by lia. cbn [andb].
  rewrite (proj2 (Z.ltb_ge bitSize 0)), Z.gtb_ltb, (proj2 (Z.ltb_ge 64 bitSize)) by lia.
  rewrite andb_false_r. rewrite (proj2 (Z.eqb_neq base 0)) by lia.
  fold (eff_bits bitSize). unfold intSize. fold (eff_bits bitSize).
  rewrite maxVal_eq by (unfold eff_bits; destruct (Z.eqb_spec bitSize 0); lia).
  by destruct s.
Qed.
Lemma ParseUint_valid s ds base bitSize : 2 <= base <= 36 → 0 <= bitSize <= 64 →
  s ≠ [] → digits_of base s ds →
  ParseUint s base bitSize =
    if horner base 0 ds <? 2 ^ eff_bits bitSize then (horner base 0 ds, None)
    else (2 ^ eff_bits bitSize - 1, Some (rangeError fnParseUint s)).
Proof.
  intros Hb Hbits Hs Hds. rewrite ParseUint_unfold by done.
  assert (1 <= eff_bits bitSize <= 64) by (unfold eff_bits; destruct (Z.eqb_spec bitSize 0); lia).
  pose proof (Z.pow_le_mono_r 2 0 (eff_bits bitSize)).
  rewrite (ParseUint_loop_valid s base (eff_bits bitSize) s ds) by (done || lia).
  destruct (Z.leb_spec (horner base 0 ds) (2 ^ eff_bits bitSize - 1)),
    (Z.ltb_spec (horner base 0 ds) (2 ^ eff_bits bitSize)); try done; lia.
Qed.
(** It succeeds exactly on the digit strings whose value fits. *)
Lemma ParseUint_success s base bitSize n : 2 <= base <= 36 → 0 <= bitSize <= 64 →
  ParseUint s base bitSize = (n, None) ↔
  s ≠ [] ∧ ∃ ds, digits_of base s ds ∧ horner base 0 ds = n ∧ n < 2 ^ eff_bits bitSize.
Proof.
  intros Hb Hbits. split.
  - intros H. assert (Hs : s ≠ []) by (by intros ->). split; [done|].
    assert (∃ ds, digits_of base s ds) as [ds Hds].
    { rewrite ParseUint_unfold in H by done.
      destruct (ParseUint_loop _ _ _ _ _ _ _ _) as [[v e]|r] eqn:E; [done|].
      by apply ParseUint_loop_inr in E. }
    rewrite (ParseUint_valid s ds) in H by done.
    destruct (Z.ltb_spec (horner base 0 ds) (2 ^ eff_bits bitSize)); [|done].
    injection H as <-. by exists ds.
  - intros (Hs&ds&Hds&<-&Hlt). rewrite (ParseUint_valid s ds) by done.
    by rewrite (proj2 (Z.ltb_lt _ _)).
Qed.
(** Printed numbers are parsed back. *)
Lemma ParseUint_repr b u s bitSize : 2 <= b <= 36 → 0 <= bitSize <= 64 →
  repr b u s → u < 2 ^ eff_bits bitSize → ParseUint s b bitSize = (u, None).
Proof.
  intros Hb Hbits Hr Hu. destruct (repr_digits b u s Hb Hr) as (ds&Hds&Hh&Hs).
  apply ParseUint_success; [done|done|]. split; [done|]. by exists ds.
Qed.

(** *** Itoa *)
Lemma Uitoa_loop_repr n : ∀ fuel u a, 0 <= u < 10 ^ Z.of_nat (S n) → (n < fuel)%nat →
  len a + Z.of_nat (S n) <= 20 →
  ∃ s, Uitoa_loop fuel u a = Ok (s ++ a) ∧ repr 10 u s.
Proof.
  assert (Hd : ∀ k, 0 <= k < 10 → "0"%byte + k = digit k).
  { intros k Hk. assert (k = 0 ∨ k = 1 ∨ k = 2 ∨ k = 3 ∨ k = 4 ∨ k = 5 ∨ k = 6 ∨ k = 7
      ∨ k = 8 ∨ k = 9) as Hc by lia. by repeat (destruct Hc as [->|Hc]); [..|subst]. }
  induction n as [|n IH]; intros fuel u a Hu Hf Ha; (destruct fuel as [|fuel]; [lia|]);
    cbn [Uitoa_loop]; rewrite Z.geb_leb; destruct (Z.leb_spec 10 u).
  - change (10 ^ Z.of_nat 1) with 10 in Hu. lia.
  - rewrite push_ok, Hd by lia. exists [digit u]. split; [done|]. apply repr_one. lia.
  - replace ("0"%byte + u - u / 10 * 10) with ("0"%byte + u mod 10) by zwlia.
    rewrite push_ok, Hd by (try apply Z.mod_pos_bound; lia). cbn [mbind res_bind].
    destruct (IH fuel (u / 10) (digit (u mod 10) :: a)) as (s&Hs&Hr); [|lia|rewrite len_cons; lia|].
    { split; [apply Z.div_pos; lia|]. apply Z.div_lt_upper_bound; [lia|].
      rewrite <- Z.pow_succ_r by lia. replace (Z.succ (Z.of_nat (S n))) with (Z.of_nat (S (S n))) by lia. lia. }
    exists (s ++ [digit (u mod 10)]). rewrite Hs, <- app_assoc. split; [done|]. by apply repr_more.
  - rewrite push_ok, Hd by lia. exists [digit u]. split; [done|]. apply repr_one. lia.
Qed.
Lemma Uitoa_repr u : 0 <= u < 2 ^ 64 → ∃ s, Uitoa u = Ok s ∧ repr 10 u s.
Proof.
  intros Hu. unfold Uitoa. destruct (Z.eqb_spec u 0) as [->|].
  { exists "0"%go. split; [done|]. apply (repr_one 10 0). lia. }
  destruct (Uitoa_loop_repr 19 20 u []) as (s&Hs&Hr);
    [change (10 ^ Z.of_nat 20) with (10 ^ 20); lia|lia|unfold len; simpl; lia|].
  rewrite app_nil_r in Hs. by exists s.
Qed.

(** *** Signed numbers *)
Lemma digits_no_sign base s ds : digits_of base s ds →
  match s with c :: _ => c ≠ "-"%byte ∧ c ≠ "+"%byte ∧ c ≠ "_"%byte | [] => True end.
Proof.
  destruct 1 as [|c d s ds [Hd _] _]; [done|]. repeat split; intros ->; discriminate.
Qed.
(** ParseInt once the sign is off: [un] is the magnitude. *)
Lemma ParseInt_fit s c rest base un : s = c :: rest →
  let neg := c =? "-"%byte in
  ParseUint (if (c =? "+"%byte) || neg then rest else s) base 64 = (un, None) →
  0 <= un < 2 ^ 64 → (if neg then un <= 2 ^ 63 else un < 2 ^ 63) →
  ParseInt s base 64 = (if neg then - un else un, None).
Proof.
  intros -> neg Hu Hr Hfit. unfold ParseInt. fold neg. rewrite Hu.
  change (64 =? 0) with false. cbv iota.
  change (u64 (shl64 1 (64 - 1))) with (2 ^ 63).
  rewrite Z.geb_leb, Z.gtb_ltb. destruct neg; cbn [negb andb].
  - rewrite (proj2 (Z.ltb_ge _ _)) by lia. f_equal.
    destruct (decide (un = 2 ^ 63)) as [->|]; [reflexivity|]. by rewrite (i64_id un), i64_id by lia.
  - rewrite (proj2 (Z.leb_gt _ _)) by lia. rewrite i64_id by lia. done.
Qed.
Lemma ParseInt_repr i base s : - 2 ^ 63 <= i < 2 ^ 63 → 2 <= base <= 36 →
  repr base (Z.abs i) s →
  ParseInt (if i <? 0 then "-"%byte :: s else s) base 64 = (i, None).
Proof.
  intros Hi Hb Hr.
  pose proof (ParseUint_repr base (Z.abs i) s 64 Hb ltac:(lia) Hr) as Hu.
  change (eff_bits 64) with 64 in Hu. specialize (Hu ltac:(lia)).
  destruct (Z.ltb_spec i 0).
  - rewrite (ParseInt_fit ("-"%byte :: s) "-"%byte s base (Z.abs i)); try done; simpl; try lia.
    f_equal. lia.
  - destruct (repr_digits base _ s Hb Hr) as (ds&Hds&_&Hs).
    destruct s as [|c s]; [done|]. pose proof (digits_no_sign base _ _ Hds) as (H1&H2&_).
    assert (E : (c =? "-"%byte) = false) by (by apply Z.eqb_neq).
    pose proof (ParseInt_fit (c :: s) c s base (Z.abs i) eq_refl) as HP.
    rewrite E, (proj2 (Z.eqb_neq c "+"%byte)) in HP by done. cbv zeta iota in HP.
    cbn [orb] in HP. rewrite HP by (done || lia). f_equal. lia.
Qed.

(** *** Atoi's fast path *)
Lemma u8_sub_zero c : is_u8 c →
  (u8 (c - "0"%byte) >? 9) = negb (("0"%byte <=? c) && (c <=? "9"%byte)).
Proof.
  intros Hc. rewrite Z.gtb_ltb.
  destruct (Z.leb_spec "0"%byte c), (Z.leb_spec c "9"%byte); cbn [andb negb];
    first [apply Z.ltb_lt | apply Z.ltb_ge]; zwlia.
Qed.
(** The loop of Atoi and the loop of ParseUint on up to 18 digits: both
    give the value, or both stop at a byte that is not a decimal digit. *)
Lemma Atoi_loop_ParseUint s0 s n us k : is_bytes s → 0 <= n < 10 ^ Z.of_nat k →
  (k + length s <= 18)%nat →
  match Atoi_loop s n with
  | Some m => ParseUint_loop s0 false 10 (max64 / 10 + 1) (2 ^ 64 - 1) s us n = inr (m, us)
              ∧ 0 <= m < 10 ^ 18
  | None => ParseUint_loop s0 false 10 (max64 / 10 + 1) (2 ^ 64 - 1) s us n
            = inl (0, syntaxError fnParseUint s0)
  end.
Proof.
  revert n k. induction s as [|c s IH]; intros n k Hs Hn Hk; simpl in Hk.
  { simpl. split; [done|]. pose proof (Z.pow_le_mono_r 10 (Z.of_nat k) 18). lia. }
  apply list.Forall_cons in Hs as [Hc Hs]. cbn [Atoi_loop].
  assert (H18 : 10 ^ Z.of_nat (S k) <= 10 ^ 18) by (apply Z.pow_le_mono_r; lia).
  rewrite Nat2Z.inj_succ, Z.pow_succ_r in H18 by lia.
  rewrite u8_sub_zero by done.
  destruct (("0"%byte <=? c) && (c <=? "9"%byte)) eqn:Hd; cbn [negb].
  - assert (Hdv : digit_value c = Some (c - "0"%byte)) by (unfold digit_value; by rewrite Hd).
    apply andb_true_iff in Hd as [?%Z.leb_le ?%Z.leb_le].
    rewrite u8_id by (unfold is_u8; lia). rewrite i64_id by lia.
    rewrite (ParseUint_loop_digit _ _ _ _ _ _ _ _ _ Hdv).
    change (u8 10) with 10. rewrite Z.geb_leb, (proj2 (Z.leb_gt 10 _)) by lia.
    change (max64 / 10 + 1) with 1844674407370955162.
    rewrite Z.geb_leb, (proj2 (Z.leb_gt _ n)) by lia. cbv zeta.
    rewrite !u64_id by (unfold is_u64; rewrite ?u64_id by (unfold is_u64; lia); lia).
    rewrite Z.gtb_ltb, !(proj2 (Z.ltb_ge _ _)) by lia. cbn [orb].
    apply (IH _ (S k)); [done| |lia]. rewrite Nat2Z.inj_succ, Z.pow_succ_r by lia. lia.
  - destruct (digit_value c) as [d|] eqn:Hdv; [|by rewrite ParseUint_loop_bad].
    rewrite (ParseUint_loop_digit _ _ _ _ _ _ _ _ _ Hdv). change (u8 10) with 10.
    unfold digit_value in Hdv. rewrite Hd in Hdv.
    destruct (Z.leb_spec "a"%byte (lower c)), (Z.leb_spec (lower c) "z"%byte); cbn [andb] in Hdv;
      try done. injection Hdv as <-.
    by rewrite Z.geb_leb, (proj2 (Z.leb_le 10 _)) by lia.
Qed.
Lemma Atoi_loop_Uint s : is_bytes s → s ≠ [] → (length s <= 18)%nat →
  ParseUint s 10 0 = match Atoi_loop s 0 with
                     | Some m => (m, None)
                     | None => (0, Some (syntaxError fnParseUint s))
                     end ∧
  match Atoi_loop s 0 with Some m => 0 <= m < 10 ^ 18 | None => True end.
Proof.
  intros Hb Hs Hl. rewrite ParseUint_unfold by (done || lia). change (eff_bits 0) with 64.
  pose proof (Atoi_loop_ParseUint s s 0 false 0 Hb ltac:(simpl; lia) ltac:(lia)) as H.
  destruct (Atoi_loop s 0) as [m|]; [destruct H as [-> ?]|rewrite H]; done.
Qed.

(** The error of ParseInt under Atoi's name. *)
Definition as_Atoi (r : Z * option error) : Z * option error :=
  match r with
  | (i, Some (NumError _ num e)) => (i, Some (NumError fnAtoi num e))
  | r => r
  end.
Lemma ParseInt_small s c rest m : s = c :: rest →
  let neg := c =? "-"%byte in
  ParseUint (if (c =? "+"%byte) || neg then rest else s) 10 0 = (m, None) →
  0 <= m < 10 ^ 18 → ParseInt s 10 0 = (if neg then - m else m, None).
Proof.
  intros -> neg Hu Hm. unfold ParseInt. fold neg. rewrite Hu.
  change (0 =? 0) with true. cbv iota. change (u64 (shl64 1 (intSize - 1))) with (2 ^ 63).
  rewrite Z.geb_leb, Z.gtb_ltb. destruct neg; cbn [negb andb].
  - rewrite (proj2 (Z.ltb_ge _ _)) by lia. by rewrite (i64_id m), i64_id by lia.
  - rewrite (proj2 (Z.leb_gt _ _)) by lia. by rewrite i64_id by lia.
Qed.
Lemma ParseInt_syntax s c rest t : s = c :: rest →
  ParseUint (if (c =? "+"%byte) || (c =? "-"%byte) then rest else s) 10 0
  = (0, Some (NumError fnParseUint t ErrSyntax)) →
  ParseInt s 10 0 = (0, Some (NumError fnParseInt s ErrSyntax)).
Proof. intros -> Hu. unfold ParseInt. by rewrite Hu. Qed.
Lemma Atoi_fast_path s : is_bytes s → 0 < len s < 19 → Atoi s = as_Atoi (ParseInt s 10 0).
Proof.
  intros Hb Hl. unfold Atoi. rewrite !(proj2 (Z.ltb_lt _ _)) by lia. cbn [andb].
  destruct s as [|c rest]; [unfold len in Hl; simpl in Hl; lia|]. cbn [nth].
  rewrite len_cons in Hl. unfold len in Hl.
  set (s := c :: rest). rewrite (orb_comm (c =? "-"%byte)).
  set (signed := (c =? "+"%byte) || (c =? "-"%byte)).
  assert (Hs1 : is_bytes (if signed then drop 1 s else s)).
  { destruct signed; [|done]. by inversion Hb. }
  destruct (decide (signed = true ∧ rest = [])) as [[Es ->]|Hne].
  { rewrite (ParseInt_syntax s c [] [] eq_refl); [by rewrite Es|].
    fold signed. by rewrite Es. }
  assert (Hn1 : (if signed then drop 1 s else s) ≠ []).
  { destruct signed; [|done]. simpl. naive_solver. }
  replace (signed && (len (if signed then drop 1 s else s) <? 1)) with false; cycle 1.
  { symmetry. apply andb_false_iff. right. apply Z.ltb_ge.
    pose proof (len_pos_list (if signed then drop 1 s else s) Hn1). lia. }
  destruct (Atoi_loop_Uint (if signed then drop 1 s else s) Hs1 Hn1) as [HU Hm].
  { unfold s. destruct signed; rewrite ?length_drop; simpl; lia. }
  destruct (Atoi_loop (if signed then drop 1 s else s) 0) as [m|].
  - erewrite (ParseInt_small s c rest m); [|done|exact HU|done].
    unfold as_Atoi. destruct (c =? "-"%byte); [|done]. by rewrite i64_id by lia.
  - erewrite (ParseInt_syntax s c rest); [|done|exact HU]. done.
Qed.

(** ** strconv: the properties

    Formatting writes the one representation without leading zeros, parsing
    reads it back, overflow is reported exactly when the value does not fit,
    and Atoi's fast path computes what ParseInt does. *)

(** FormatInt and ParseInt are inverse in every base: for any int64 and any
    base from 2 to 36, the text parses back to the number. *)
Theorem ParseInt_FormatInt i base : - 2 ^ 63 <= i < 2 ^ 63 → 2 <= base <= 36 →
  ∃ s, FormatInt i base = Ok s ∧ ParseInt s base 64 = (i, None).
Proof.
  intros Hi Hb. destruct (FormatInt_repr i base Hi Hb) as (s&E&Hr).
  exists (if i <? 0 then "-"%byte :: s else s). split; [exact E|]. by apply ParseInt_repr.
Qed.
Lemma ParseInt_FormatInt_witness :
  FormatInt (- 2 ^ 63) 36 = Ok "-1y2p0ij32e8e8"%go ∧
  ∃ s, FormatInt (- 2 ^ 63) 36 = Ok s ∧ ParseInt s 36 64 = (- 2 ^ 63, None).
Proof. split; [vm_compute; reflexivity|]. apply (ParseInt_FormatInt (- 2 ^ 63) 36); lia. Defined.

(** The three digit loops of formatBits (two decimal digits at a time,
    shift and mask, general division), the small-number table and itoa.Uitoa
    write the one positional representation of the number, with digits below
    the base and no leading zero. *)
Theorem FormatUint_canonical i base : 0 <= i < 2 ^ 64 → 2 <= base <= 36 →
  ∃ s, FormatUint i base = Ok s ∧ repr base i s ∧ (∀ s', repr base i s' → s' = s) ∧
    (∀ dst, AppendUint dst i base = Ok (dst ++ s)) ∧
    (base = 10 → Uitoa i = Ok s) ∧ (i < 2 ^ 63 → FormatInt i base = Ok s).
Proof.
  intros Hi Hb. destruct (FormatUint_repr i base Hi Hb) as (s&E&Hr). exists s.
  assert (Hu : ∀ s', repr base i s' → s' = s) by (intros s' H; exact (repr_unique _ _ _ _ H Hr)).
  repeat split; try done.
  - intros dst. destruct (AppendUint_repr dst i base Hi Hb) as (s'&E'&Hr'). by rewrite E', (Hu _ Hr').
  - intros ->. destruct (Uitoa_repr i Hi) as (s'&E'&Hr'). by rewrite E', (Hu _ Hr').
  - intros H63. destruct (FormatInt_repr i base) as (s'&E'&Hr'); [lia|done|].
    rewrite Z.abs_eq in Hr' by lia. rewrite (proj2 (Z.ltb_ge i 0)) in E' by lia.
    by rewrite E', (Hu _ Hr').
Qed.
Lemma FormatUint_canonical_witness :
  FormatUint 65535 16 = Ok "ffff"%go ∧
  ∃ s, FormatUint 65535 16 = Ok s ∧ repr 16 65535 s ∧ (∀ s', repr 16 65535 s' → s' = s).
Proof.
  split; [vm_compute; reflexivity|].
  destruct (FormatUint_canonical 65535 16) as (s&E&Hr&Hu&_); [lia|lia|].
  exists s. exact (conj E (conj Hr Hu)).
Defined.

(** ParseUint succeeds exactly on the non-empty digit strings of the base
    whose value fits the bit size, and returns that value; on a digit string
    whose value does not fit it returns the largest value of the size and a
    range error. *)
Theorem ParseUint_spec s base bitSize : 2 <= base <= 36 → 0 <= bitSize <= 64 →
  (∀ n, ParseUint s base bitSize = (n, None) ↔
    s ≠ [] ∧ ∃ ds, digits_of base s ds ∧ horner base 0 ds = n ∧ n < 2 ^ eff_bits bitSize) ∧
  (∀ ds, s ≠ [] → digits_of base s ds → 2 ^ eff_bits bitSize <= horner base 0 ds →
    ParseUint s base bitSize = (2 ^ eff_bits bitSize - 1, Some (rangeError fnParseUint s))).
Proof.
  intros Hb Hbits. split; [intros n; by apply ParseUint_success|].
  intros ds Hs Hds Hge. rewrite (ParseUint_valid s ds) by done.
  by rewrite (proj2 (Z.ltb_ge _ _)) by done.
Qed.
Lemma ParseUint_spec_witness :
  ParseUint "256"%go 10 8 = (255, Some (rangeError fnParseUint "256"%go)) ∧
  (ParseUint "255"%go 10 8 = (255, None) ↔
    "255"%go ≠ [] ∧ ∃ ds, digits_of 10 "255"%go ds ∧ horner 10 0 ds = 255 ∧ 255 < 2 ^ eff_bits 8).
Proof.
  split; [vm_compute; reflexivity|].
  destruct (ParseUint_spec "255"%go 10 8) as [H _]; [lia|lia|]. exact (H 255).
Defined.

(** Atoi is ParseInt(s, 10, 0) with its own name in the error: the fast path
    for short strings computes the same values and the same errors. *)
Theorem Atoi_ParseInt s : is_bytes s → Atoi s = as_Atoi (ParseInt s 10 0).
Proof.
  intros Hs. destruct (decide (0 < len s < 19)) as [Hl|Hl]; [by apply Atoi_fast_path|].
  unfold Atoi, as_Atoi.
  replace ((0 <? len s) && (len s <? 19)) with false;
    [by destruct (ParseInt s 10 0) as [i [[]|]]|].
  symmetry. apply andb_false_iff. rewrite !Z.ltb_ge. lia.
Qed.
Lemma Atoi_ParseInt_witness :
  Atoi "+12_3"%go = (0, Some (syntaxError fnAtoi "+12_3"%go)) ∧
  Atoi "+12_3"%go = as_Atoi (ParseInt "+12_3"%go 10 0).
Proof.
  split; [vm_compute; reflexivity|]. apply Atoi_ParseInt.
  unfold is_bytes. repeat (apply list.Forall_cons; split; [split; [intros H; discriminate H|reflexivity]|]).
  apply list.Forall_nil. exact I.
Defined.
