(* ===== verification/Uint128.v ===== *)
(** * net/netip/uint128.go and math/bits.Add64, Sub64

    A 128-bit unsigned integer as two uint64 halves, and its meaning [val]. *)
From S2P Require Import Prelude.

(** ** math/bits *)
Definition Add64 (x y carry : Z) : Z * Z :=
  let sum := u64 (x + y + carry) in
  let carryOut := Z.shiftr (Z.lor (Z.land x y) (andnot (Z.lor x y) sum)) 63 in
  (sum, carryOut).
Definition Sub64 (x y borrow : Z) : Z * Z :=
  let diff := u64 (x - y - borrow) in
  let borrowOut :=
    Z.shiftr (Z.lor (Z.land (not64 x) y) (Z.land (not64 (Z.lxor x y)) diff)) 63 in
  (diff, borrowOut).

(** ** uint128 *)
Record uint128 : Set := U128 { hi : Z; lo : Z }.
#[global] Instance uint128_eq_dec : EqDecision uint128.
Proof. solve_decision. Defined.

Definition shift_panic : emsg := [Lit "negative shift amount"%go].
(** [n] is a signed int: a negative shift count panics. *)
Definition mask6 (n : Z) : res uint128 :=
  if (n <? 0) || (128 - n <? 0) then Panic shift_panic
  else Ok (U128 (not64 (Z.shiftr max64 n)) (shl64 max64 (128 - n))).
Definition uint128_isZero (u : uint128) : bool := Z.lor (hi u) (lo u) =? 0.
Definition uint128_and (u m : uint128) : uint128 :=
  U128 (Z.land (hi u) (hi m)) (Z.land (lo u) (lo m)).
Definition uint128_xor (u m : uint128) : uint128 :=
  U128 (Z.lxor (hi u) (hi m)) (Z.lxor (lo u) (lo m)).
Definition uint128_or (u m : uint128) : uint128 :=
  U128 (Z.lor (hi u) (hi m)) (Z.lor (lo u) (lo m)).
Definition uint128_not (u : uint128) : uint128 :=
  U128 (not64 (hi u)) (not64 (lo u)).
Definition subOne (u : uint128) : uint128 :=
  let '(lo', borrow) := Sub64 (lo u) 1 0 in U128 (u64 (hi u - borrow)) lo'.
Definition addOne (u : uint128) : uint128 :=
  let '(lo', carry) := Add64 (lo u) 1 0 in U128 (u64 (hi u + carry)) lo'.
Definition halves (u : uint128) : list Z := [hi u; lo u].
Definition bitsSetFrom (u : uint128) (bit : Z) : res uint128 :=
  m ← mask6 bit; Ok (uint128_or u (uint128_not m)).
Definition bitsClearedFrom (u : uint128) (bit : Z) : res uint128 :=
  m ← mask6 bit; Ok (uint128_and u m).

(** ** Meaning and well-formedness *)
Definition wf128 (u : uint128) : Prop := is_u64 (hi u) ∧ is_u64 (lo u).
Definition val (u : uint128) : Z := hi u * 2 ^ 64 + lo u.
Definition of_val (x : Z) : uint128 := U128 (x / 2 ^ 64) (x mod 2 ^ 64).

(** ** Lemmas *)
Lemma val_range u : wf128 u → 0 <= val u < 2 ^ 128.
Proof. unfold wf128, val, is_u64. lia. Qed.
Lemma val_inj u v : wf128 u → wf128 v → val u = val v → u = v.
Proof.
  destruct u as [a b], v as [c d]. unfold wf128, val, is_u64. simpl. intros ?? H.
  assert (a = c ∧ b = d) as [-> ->]; [lia|done].
Qed.
Lemma of_val_val u : wf128 u → of_val (val u) = u.
Proof.
  destruct u as [a b]. unfold wf128, val, of_val, is_u64. simpl. intros [??].
  f_equal; [|rewrite Z.add_comm, Z.mod_add by lia; by apply Z.mod_small].
  rewrite Z.div_add_l, Z.div_small by lia. lia.
Qed.
Lemma val_of_val x : val (of_val x) = x.
Proof. unfold val, of_val. simpl. pose proof (Z.div_mod x (2 ^ 64)). lia. Qed.
Lemma of_val_wf x : 0 <= x < 2 ^ 128 → wf128 (of_val x).
Proof.
  intros. unfold of_val, wf128, is_u64. simpl. split.
  - split; [apply Z.div_pos; lia|]. apply Z.div_lt_upper_bound; lia.
  - apply Z.mod_pos_bound; lia.
Qed.
Lemma val_spec u i :
  wf128 u → 0 <= i →
  Z.testbit (val u) i = if i <? 64 then Z.testbit (lo u) i else Z.testbit (hi u) (i - 64).
Proof.
  intros [Hh Hl] Hi. unfold val. rewrite <- lor_shift_add by (try lia; done).
  rewrite Z.lor_spec. destruct (Z.ltb_spec i 64).
  - by rewrite Z.shiftl_spec_low.
  - rewrite Z.shiftl_spec, (testbit_high (lo u) 64) by (try lia; done).
    by rewrite orb_false_r.
Qed.

Lemma and_wf u m : wf128 u → wf128 m → wf128 (uint128_and u m).
Proof. intros [??] [??]; split; apply land_range; unfold is_u64 in *; lia. Qed.
Lemma or_wf u m : wf128 u → wf128 m → wf128 (uint128_or u m).
Proof. intros [??] [??]; split; apply lor_range; unfold is_u64 in *; lia. Qed.
Lemma xor_wf u m : wf128 u → wf128 m → wf128 (uint128_xor u m).
Proof. intros [??] [??]; split; apply lxor_range; unfold is_u64 in *; lia. Qed.
Lemma not_wf u : wf128 u → wf128 (uint128_not u).
Proof. intros [??]; split; by apply not64_range. Qed.
#[export] Hint Resolve and_wf or_wf xor_wf not_wf of_val_wf : gorange.

(** The bitwise operations act bitwise on the value. *)
Lemma val_bitwise f g u m :
  (∀ x y i, 0 <= i → Z.testbit (g x y) i = f (Z.testbit x i) (Z.testbit y i)) →
  wf128 u → wf128 m → wf128 (U128 (g (hi u) (hi m)) (g (lo u) (lo m))) →
  val (U128 (g (hi u) (hi m)) (g (lo u) (lo m))) = g (val u) (val m).
Proof.
  intros Hg Hu Hm Hw. apply Z.bits_inj'. intros i Hi.
  rewrite val_spec, Hg, !val_spec by done. simpl.
  destruct (Z.ltb_spec i 64); apply Hg; lia.
Qed.
Lemma val_and u m : wf128 u → wf128 m → val (uint128_and u m) = Z.land (val u) (val m).
Proof.
  intros. apply (val_bitwise andb); auto with gorange.
  - intros. apply Z.land_spec.
  - by apply and_wf.
Qed.
Lemma val_or u m : wf128 u → wf128 m → val (uint128_or u m) = Z.lor (val u) (val m).
Proof.
  intros. apply (val_bitwise orb); auto with gorange.
  - intros. apply Z.lor_spec.
  - by apply or_wf.
Qed.
Lemma val_xor u m : wf128 u → wf128 m → val (uint128_xor u m) = Z.lxor (val u) (val m).
Proof.
  intros. apply (val_bitwise xorb); auto with gorange.
  - intros. apply Z.lxor_spec.
  - by apply xor_wf.
Qed.
Lemma val_not u : wf128 u → val (uint128_not u) = 2 ^ 128 - 1 - val u.
Proof. unfold uint128_not, val, not64, max64. simpl. lia. Qed.
Lemma isZero_val u : wf128 u → uint128_isZero u = (val u =? 0).
Proof.
  intros [[??] [??]]. unfold uint128_isZero, val.
  destruct (Z.eqb_spec (Z.lor (hi u) (lo u)) 0) as [E|E], (Z.eqb_spec (hi u * 2 ^ 64 + lo u) 0);
    try done.
  - apply Z.lor_eq_0_iff in E. lia.
  - exfalso. apply E. apply Z.lor_eq_0_iff. lia.
Qed.

(** The carry and borrow bits computed by math/bits. *)
Lemma Add64_one x : is_u64 x → Add64 x 1 0 = (u64 (x + 1), if x =? max64 then 1 else 0).
Proof.
  unfold is_u64, Add64, max64. intros Hx. rewrite Z.add_0_r. f_equal.
  rewrite Z.shiftr_lor, Z.shiftr_land, Z.shiftr_ldiff, Z.shiftr_lor.
  replace (Z.shiftr 1 63) with 0 by reflexivity.
  rewrite Z.land_0_r, Z.lor_0_l, Z.lor_0_r, !Z.shiftr_div_pow2 by lia.
  destruct (Z.eqb_spec x (2 ^ 64 - 1)) as [->|].
  { reflexivity. }
  assert (u64 (x + 1) = x + 1) as -> by (apply u64_id; unfold is_u64; lia).
  assert (x / 2 ^ 63 = 0 ∨ x / 2 ^ 63 = 1) as [H|H] by zwlia; rewrite H.
  - apply Z.ldiff_0_l.
  - assert ((x + 1) / 2 ^ 63 = 1) as -> by zwlia. reflexivity.
Qed.
Lemma Sub64_one x : is_u64 x → Sub64 x 1 0 = (u64 (x - 1), if x =? 0 then 1 else 0).
Proof.
  unfold is_u64, Sub64, max64. intros Hx. rewrite Z.sub_0_r. f_equal.
  destruct (Z.eqb_spec x 0) as [->|].
  { reflexivity. }
  rewrite Z.shiftr_lor, !Z.shiftr_land.
  replace (Z.shiftr 1 63) with 0 by reflexivity.
  rewrite Z.land_0_r, Z.lor_0_l.
  assert (u64 (x - 1) = x - 1) as -> by (apply u64_id; unfold is_u64; lia).
  apply Z.bits_inj'. intros i Hi. rewrite Z.testbit_0_l, Z.land_spec, !Z.shiftr_spec by lia.
  destruct (Z.eqb_spec i 0) as [->|]; cycle 1.
  { rewrite (testbit_high (x - 1) 64) by lia. by rewrite andb_false_r. }
  rewrite not64_spec by (try lia; apply (lxor_range 64); lia).
  rewrite Z.lxor_spec. change (Z.testbit 1 (0 + 63)) with false. rewrite xorb_false_r.
  change (0 + 63) with 63. rewrite !Z.testbit_eqb by lia. simpl (63 <? 64). eval_pow.
  destruct (Z.eqb_spec (x / 9223372036854775808 mod 2) 1),
    (Z.eqb_spec ((x - 1) / 9223372036854775808 mod 2) 1); try done.
  exfalso. zwlia.
Qed.

Lemma addOne_wf u : wf128 u → wf128 (addOne u).
Proof.
  intros [Hh Hl]. unfold addOne. rewrite Add64_one by done. split; apply u64_range.
Qed.
Lemma subOne_wf u : wf128 u → wf128 (subOne u).
Proof.
  intros [Hh Hl]. unfold subOne. rewrite Sub64_one by done. split; apply u64_range.
Qed.
Lemma val_addOne u : wf128 u → val (addOne u) = (val u + 1) mod 2 ^ 128.
Proof.
  intros [Hh Hl]. unfold addOne. rewrite Add64_one by done.
  unfold val. simpl. destruct (Z.eqb_spec (lo u) max64); zwlia.
Qed.
Lemma val_subOne u : wf128 u → val (subOne u) = (val u - 1) mod 2 ^ 128.
Proof.
  intros [Hh Hl]. unfold subOne. rewrite Sub64_one by done.
  unfold val. simpl. destruct (Z.eqb_spec (lo u) 0); zwlia.
Qed.

(** *** mask6 *)
Lemma mask6_range n : 0 <= n <= 128 →
  mask6 n = Ok (U128 (not64 (Z.shiftr max64 n)) (shl64 max64 (128 - n))).
Proof.
  intros. unfold mask6.
  by rewrite (proj2 (Z.ltb_ge n 0)), (proj2 (Z.ltb_ge (128 - n) 0)) by lia.
Qed.
Lemma max64_shiftr n : 0 <= n → is_u64 (Z.shiftr max64 n).
Proof. intros. apply (shiftr_range 64); [done|]. unfold max64. lia. Qed.
Lemma mask6_wf n m : mask6 n = Ok m → wf128 m.
Proof.
  unfold mask6. destruct ((n <? 0) || (128 - n <? 0)) eqn:E; [done|]. intros [= <-].
  apply orb_false_iff in E as [?%Z.ltb_ge ?%Z.ltb_ge].
  split; simpl; [|apply u64_range]. apply not64_range, max64_shiftr. lia.
Qed.
Lemma mask6_spec n m i : mask6 n = Ok m → 0 <= i →
  Z.testbit (val m) i = (128 - n <=? i) && (i <? 128).
Proof.
  intros Hm Hi. pose proof (mask6_wf _ _ Hm) as Hw. rewrite val_spec by done.
  unfold mask6 in Hm. destruct ((n <? 0) || (128 - n <? 0)) eqn:E; [done|].
  injection Hm as <-. apply orb_false_iff in E as [?%Z.ltb_ge ?%Z.ltb_ge]. simpl.
  destruct (Z.ltb_spec i 64).
  - unfold shl64. rewrite u64_spec by done. destruct (Z.leb_spec (128 - n) i).
    + rewrite Z.shiftl_spec_high, max64_spec by lia.
      rewrite !(proj2 (Z.ltb_lt _ _)) by lia. done.
    + rewrite Z.shiftl_spec_low by lia. by rewrite andb_false_r.
  - rewrite not64_spec by (try apply max64_shiftr; lia).
    rewrite Z.shiftr_spec, max64_spec by lia.
    destruct (Z.ltb_spec (i - 64) 64), (Z.ltb_spec (i - 64 + n) 64),
      (Z.leb_spec (128 - n) i), (Z.ltb_spec i 128); try done; lia.
Qed.

(** Keeping the top [n] bits, arithmetically. *)
Lemma val_and_mask u n m : wf128 u → mask6 n = Ok m →
  val (uint128_and u m) = val u / 2 ^ (128 - n) * 2 ^ (128 - n).
Proof.
  intros Hu Hm. pose proof (mask6_wf _ _ Hm). rewrite val_and by done.
  assert (0 <= 128 - n).
  { unfold mask6 in Hm. destruct (Z.ltb_spec (128 - n) 0); [|done].
    by rewrite orb_true_r in Hm. }
  rewrite <- Z.shiftr_div_pow2, <- Z.shiftl_mul_pow2 by done.
  apply Z.bits_inj'. intros i Hi. rewrite Z.land_spec, (mask6_spec n m) by done.
  destruct (Z.leb_spec (128 - n) i).
  - rewrite Z.shiftl_spec, Z.shiftr_spec by lia. replace (i - (128 - n) + (128 - n)) with i by lia.
    destruct (Z.ltb_spec i 128); simpl; [by rewrite andb_true_r|].
    rewrite (testbit_high (val u) 128) by (try lia; by apply val_range). done.
  - rewrite Z.shiftl_spec_low by done. apply andb_false_r.
Qed.

(** Two values agree under the mask when their top [n] bits are the same. *)
Lemma xor_mask_zero u v n m : wf128 u → wf128 v → mask6 n = Ok m →
  uint128_isZero (uint128_and (uint128_xor u v) m)
  = (val u / 2 ^ (128 - n) =? val v / 2 ^ (128 - n)).
Proof.
  intros Hu Hv Hm. pose proof (mask6_wf _ _ Hm).
  rewrite isZero_val by auto with gorange.
  rewrite (val_and_mask _ n) by auto with gorange. rewrite val_xor by done.
  assert (0 <= 128 - n).
  { unfold mask6 in Hm. destruct (Z.ltb_spec (128 - n) 0); [|done].
    by rewrite orb_true_r in Hm. }
  rewrite <- !Z.shiftr_div_pow2, Z.shiftr_lxor by done.
  set (a := Z.shiftr (val u) _). set (b := Z.shiftr (val v) _).
  pose proof (Z.pow_pos_nonneg 2 (128 - n)).
  destruct (Z.eqb_spec a b) as [->|Hne].
  { by rewrite Z.lxor_nilpotent. }
  apply Z.eqb_neq. intros E. apply Hne. apply Z.lxor_eq.
  apply Z.mul_eq_0 in E. lia.
Qed.
