(* ===== verification/NetipAddr.v ===== *)
(** * net/netip/netip.go: addresses

    [Addr], its constructors, accessors and predicates, the order, and the
    successor and predecessor.  A fixed-size byte array is a list of its
    length.  The interned zone pointer [z] is [zname s] for the interned
    string [s]: two interned values are the same pointer exactly when the
    strings are equal, and the sentinels [z0], [z4], [z6noz] are distinct
    from them and from each other. *)
From S2P Require Import Prelude Uint128.

Inductive zone : Set := z0 | z4 | z6noz | zname (s : bytes).
#[global] Instance zone_eq_dec : EqDecision zone.
Proof. solve_decision. Defined.

Record Addr : Set := MkAddr { addr : uint128; z : zone }.
#[global] Instance Addr_eq_dec : EqDecision Addr.
Proof. solve_decision. Defined.

(** ** leaf_alts.go *)
Definition beUint64 (b : bytes) : Z :=
  let b i := nth i b 0 in
  Z.lor (Z.lor (Z.lor (Z.lor (Z.lor (Z.lor (Z.lor
    (b 7%nat) (shl64 (b 6%nat) 8)) (shl64 (b 5%nat) 16)) (shl64 (b 4%nat) 24))
    (shl64 (b 3%nat) 32)) (shl64 (b 2%nat) 40)) (shl64 (b 1%nat) 48))
    (shl64 (b 0%nat) 56).
(** [bePutUint64], [bePutUint32] and [lePutUint16] store these bytes at the
    front of their argument. *)
Definition bePutUint64 (v : Z) : bytes :=
  [u8 (Z.shiftr v 56); u8 (Z.shiftr v 48); u8 (Z.shiftr v 40); u8 (Z.shiftr v 32);
   u8 (Z.shiftr v 24); u8 (Z.shiftr v 16); u8 (Z.shiftr v 8); u8 v].
Definition bePutUint32 (v : Z) : bytes :=
  [u8 (Z.shiftr v 24); u8 (Z.shiftr v 16); u8 (Z.shiftr v 8); u8 v].
Definition leUint16 (b : bytes) : Z :=
  Z.lor (nth 0 b 0) (u16 (Z.shiftl (nth 1 b 0) 8)).
Definition lePutUint16 (v : Z) : bytes := [u8 v; u8 (Z.shiftr v 8)].

(** ** Constructors *)
Definition zeroAddr : Addr := MkAddr (U128 0 0) z0.   (* Addr{} *)

Definition AddrFrom4 (a : bytes) : Addr :=
  let a i := nth i a 0 in
  MkAddr (U128 0 (Z.lor (Z.lor (Z.lor (Z.lor 0xffff00000000
    (shl64 (a 0%nat) 24)) (shl64 (a 1%nat) 16)) (shl64 (a 2%nat) 8)) (a 3%nat))) z4.
Definition AddrFrom16 (a : bytes) : Addr :=
  MkAddr (U128 (beUint64 (take 8 a)) (beUint64 (drop 8 a))) z6noz.
Definition AddrFromSlice (slice : bytes) : Addr * bool :=
  if len slice =? 4 then (AddrFrom4 slice, true)
  else if len slice =? 16 then (AddrFrom16 slice, true)
  else (zeroAddr, false).

Definition IPv6LinkLocalAllNodes : Addr :=
  AddrFrom16 [0xff; 0x02; 0;0;0;0;0;0;0;0;0;0;0;0;0; 0x01].
Definition IPv6LinkLocalAllRouters : Addr :=
  AddrFrom16 [0xff; 0x02; 0;0;0;0;0;0;0;0;0;0;0;0;0; 0x02].
Definition IPv6Loopback : Addr := AddrFrom16 [0;0;0;0;0;0;0;0;0;0;0;0;0;0;0;1].
Definition IPv6Unspecified : Addr := MkAddr (U128 0 0) z6noz.
Definition IPv4Unspecified : Addr := AddrFrom4 [0;0;0;0].

(** ** Accessors *)
Definition v4 (ip : Addr) (i : Z) : Z :=
  u8 (Z.shiftr (lo (addr ip)) (u8 (u8 (3 - i) * 8))).
Definition v6 (ip : Addr) (i : Z) : Z :=
  u8 (Z.shiftr (nth (Z.to_nat ((i / 8) mod 2)) (halves (addr ip)) 0)
       (u8 (u8 (7 - i mod 8) * 8))).
Definition v6u16 (ip : Addr) (i : Z) : Z :=
  u16 (Z.shiftr (nth (Z.to_nat ((i / 4) mod 2)) (halves (addr ip)) 0)
        (u8 (u8 (3 - i mod 4) * 16))).

Definition Addr_isZero (ip : Addr) : bool := bool_decide (z ip = z0).
Definition Addr_IsValid (ip : Addr) : bool := negb (bool_decide (z ip = z0)).
Definition Addr_BitLen (ip : Addr) : Z :=
  match z ip with z0 => 0 | z4 => 32 | _ => 128 end.
(** The sentinels carry no string. *)
Definition Addr_Zone (ip : Addr) : bytes :=
  match z ip with zname s => s | _ => [] end.
Definition Addr_Is4 (ip : Addr) : bool := bool_decide (z ip = z4).
Definition Addr_Is6 (ip : Addr) : bool :=
  negb (bool_decide (z ip = z0)) && negb (bool_decide (z ip = z4)).
Definition Addr_Is4In6 (ip : Addr) : bool :=
  Addr_Is6 ip && (hi (addr ip) =? 0) && (Z.shiftr (lo (addr ip)) 32 =? 0xffff).

Definition Addr_Compare (ip ip2 : Addr) : Z :=
  let f1 := Addr_BitLen ip in
  let f2 := Addr_BitLen ip2 in
  if f1 <? f2 then -1
  else if f1 >? f2 then 1
  else
    let hi1 := hi (addr ip) in
    let hi2 := hi (addr ip2) in
    if hi1 <? hi2 then -1
    else if hi1 >? hi2 then 1
    else
      let lo1 := lo (addr ip) in
      let lo2 := lo (addr ip2) in
      if lo1 <? lo2 then -1
      else if lo1 >? lo2 then 1
      else if Addr_Is6 ip then
        let za := Addr_Zone ip in
        let zb := Addr_Zone ip2 in
        if bytes_ltb za zb then -1
        else if bytes_ltb zb za then 1
        else 0
      else 0.
Definition Addr_Less (ip ip2 : Addr) : bool := Addr_Compare ip ip2 =? -1.

(** ** Zones *)
Definition Addr_Unmap (ip : Addr) : Addr :=
  if Addr_Is4In6 ip then MkAddr (addr ip) z4 else ip.
Definition Addr_WithZone (ip : Addr) (zone : bytes) : Addr :=
  if negb (Addr_Is6 ip) then ip
  else if beq zone [] then MkAddr (addr ip) z6noz
  else MkAddr (addr ip) (zname zone).
Definition withoutZone (ip : Addr) : Addr :=
  if negb (Addr_Is6 ip) then ip else MkAddr (addr ip) z6noz.
Definition hasZone (ip : Addr) : bool :=
  negb (bool_decide (z ip = z0)) && negb (bool_decide (z ip = z4))
  && negb (bool_decide (z ip = z6noz)).

(** ** Address classes *)
Definition Addr_IsLinkLocalUnicast (ip : Addr) : bool :=
  let ip := if Addr_Is4In6 ip then Addr_Unmap ip else ip in
  if Addr_Is4 ip then (v4 ip 0 =? 169) && (v4 ip 1 =? 254)
  else if Addr_Is6 ip then Z.land (v6u16 ip 0) 0xffc0 =? 0xfe80
  else false.
Definition Addr_IsLoopback (ip : Addr) : bool :=
  let ip := if Addr_Is4In6 ip then Addr_Unmap ip else ip in
  if Addr_Is4 ip then v4 ip 0 =? 127
  else if Addr_Is6 ip then (hi (addr ip) =? 0) && (lo (addr ip) =? 1)
  else false.
Definition Addr_IsMulticast (ip : Addr) : bool :=
  let ip := if Addr_Is4In6 ip then Addr_Unmap ip else ip in
  if Addr_Is4 ip then Z.land (v4 ip 0) 0xf0 =? 0xe0
  else if Addr_Is6 ip then Z.shiftr (hi (addr ip)) (64 - 8) =? 0xff
  else false.
Definition Addr_IsInterfaceLocalMulticast (ip : Addr) : bool :=
  if Addr_Is6 ip && negb (Addr_Is4In6 ip)
  then Z.land (v6u16 ip 0) 0xff0f =? 0xff01
  else false.
Definition Addr_IsLinkLocalMulticast (ip : Addr) : bool :=
  let ip := if Addr_Is4In6 ip then Addr_Unmap ip else ip in
  if Addr_Is4 ip then (v4 ip 0 =? 224) && (v4 ip 1 =? 0) && (v4 ip 2 =? 0)
  else if Addr_Is6 ip then Z.land (v6u16 ip 0) 0xff0f =? 0xff02
  else false.
Definition Addr_IsGlobalUnicast (ip : Addr) : bool :=
  if bool_decide (z ip = z0) then false
  else
    let ip := if Addr_Is4In6 ip then Addr_Unmap ip else ip in
    if Addr_Is4 ip
       && (bool_decide (ip = IPv4Unspecified)
           || bool_decide (ip = AddrFrom4 [255; 255; 255; 255]))
    then false
    else negb (bool_decide (ip = IPv6Unspecified))
         && negb (Addr_IsLoopback ip) && negb (Addr_IsMulticast ip)
         && negb (Addr_IsLinkLocalUnicast ip).
Definition Addr_IsPrivate (ip : Addr) : bool :=
  let ip := if Addr_Is4In6 ip then Addr_Unmap ip else ip in
  if Addr_Is4 ip then
    (v4 ip 0 =? 10)
    || (v4 ip 0 =? 172) && (Z.land (v4 ip 1) 0xf0 =? 16)
    || (v4 ip 0 =? 192) && (v4 ip 1 =? 168)
  else if Addr_Is6 ip then Z.land (v6 ip 0) 0xfe =? 0xfc
  else false.
Definition Addr_IsUnspecified (ip : Addr) : bool :=
  bool_decide (ip = IPv4Unspecified) || bool_decide (ip = IPv6Unspecified).

(** ** Byte representations *)
Definition As16 (ip : Addr) : bytes :=
  bePutUint64 (hi (addr ip)) ++ bePutUint64 (lo (addr ip)).
Definition As4 (ip : Addr) : res bytes :=
  if bool_decide (z ip = z4) || Addr_Is4In6 ip
  then Ok (bePutUint32 (u32 (lo (addr ip))))
  else if bool_decide (z ip = z0)
  then Panic [Lit "As4 called on IP zero value"%go]
  else Panic [Lit "As4 called on IPv6 address"%go].
Definition AsSlice (ip : Addr) : bytes :=
  match z ip with
  | z0 => []
  | z4 => bePutUint32 (u32 (lo (addr ip)))
  | _ => bePutUint64 (hi (addr ip)) ++ bePutUint64 (lo (addr ip))
  end.

(** ** Successor and predecessor *)
Definition Addr_Next (ip : Addr) : Addr :=
  let ip := MkAddr (addOne (addr ip)) (z ip) in
  if Addr_Is4 ip then
    if u32 (lo (addr ip)) =? 0 then zeroAddr else ip
  else
    if uint128_isZero (addr ip) then zeroAddr else ip.
Definition Addr_Prev (ip : Addr) : Addr :=
  if Addr_Is4 ip then
    if u32 (lo (addr ip)) =? 0 then zeroAddr
    else MkAddr (subOne (addr ip)) (z ip)
  else
    if uint128_isZero (addr ip) then zeroAddr
    else MkAddr (subOne (addr ip)) (z ip).

(** ** Well-formedness: the values the package can build

    The halves are uint64s, an IPv4 address is stored IPv4-mapped, a zone
    name is not empty, and the zero [Addr] is the only invalid one. *)
Definition wf_addr (ip : Addr) : Prop :=
  wf128 (addr ip) ∧
  match z ip with
  | z0 => addr ip = U128 0 0
  | z4 => hi (addr ip) = 0 ∧ Z.shiftr (lo (addr ip)) 32 = 0xffff
  | z6noz => True
  | zname s => s ≠ []
  end.
(** The number an address stands for within its family. *)
Definition addr_val (ip : Addr) : Z :=
  match z ip with z4 => u32 (lo (addr ip)) | _ => val (addr ip) end.

(** ** Lemmas: big-endian bytes *)
Lemma shl64_byte b k : is_u8 b → 0 <= k <= 56 → shl64 b k = b * 2 ^ k.
Proof.
  intros Hb Hk. unfold shl64. rewrite Z.shiftl_mul_pow2 by lia. apply u64_id.
  assert (0 < 2 ^ k <= 2 ^ 56)
    by (split; [apply Z.pow_pos_nonneg; lia|apply Z.pow_le_mono_r; lia]).
  unfold is_u8, is_u64 in *. nia.
Qed.
Lemma lor_high_low x y n : 0 <= n → 0 <= y < 2 ^ n → Z.lor (x * 2 ^ n) y = x * 2 ^ n + y.
Proof. intros. rewrite <- lor_shift_add by done. by rewrite Z.shiftl_mul_pow2. Qed.
Lemma lor_low_high x b k : 0 <= k <= 56 → 0 <= x < 2 ^ k → is_u8 b →
  Z.lor x (shl64 b k) = x + b * 2 ^ k.
Proof.
  intros Hk Hx Hb. rewrite shl64_byte, Z.lor_comm, lor_high_low by (done || lia). lia.
Qed.

Definition bytes8 (b0 b1 b2 b3 b4 b5 b6 b7 : Z) : Z :=
  b0 * 2 ^ 56 + b1 * 2 ^ 48 + b2 * 2 ^ 40 + b3 * 2 ^ 32
  + b4 * 2 ^ 24 + b5 * 2 ^ 16 + b6 * 2 ^ 8 + b7.
Lemma beUint64_bytes8 b0 b1 b2 b3 b4 b5 b6 b7 :
  is_bytes [b0; b1; b2; b3; b4; b5; b6; b7] →
  beUint64 [b0; b1; b2; b3; b4; b5; b6; b7] = bytes8 b0 b1 b2 b3 b4 b5 b6 b7.
Proof.
  unfold is_bytes. rewrite !list.Forall_cons. intros (?&?&?&?&?&?&?&?&_).
  unfold beUint64, bytes8. cbn [nth].
  repeat match goal with
  | |- context [Z.lor ?x (shl64 ?b ?k)] =>
      lazymatch x with context [Z.lor] => fail | _ => idtac end;
      rewrite (lor_low_high x b k) by (first [assumption | zwlia])
  end.
  ring.
Qed.
Lemma bePutUint64_bytes8 b0 b1 b2 b3 b4 b5 b6 b7 :
  is_bytes [b0; b1; b2; b3; b4; b5; b6; b7] →
  bePutUint64 (bytes8 b0 b1 b2 b3 b4 b5 b6 b7) = [b0; b1; b2; b3; b4; b5; b6; b7].
Proof.
  unfold is_bytes. rewrite !list.Forall_cons. intros (?&?&?&?&?&?&?&?&_).
  unfold bePutUint64, bytes8. rewrite !Z.shiftr_div_pow2 by lia.
  repeat f_equal; zwlia.
Qed.
Lemma bePutUint64_bytes v : is_bytes (bePutUint64 v).
Proof. unfold is_bytes, bePutUint64. repeat (constructor; auto with gorange). Qed.
Lemma bePutUint64_split v : is_u64 v →
  ∃ b0 b1 b2 b3 b4 b5 b6 b7, is_bytes [b0; b1; b2; b3; b4; b5; b6; b7] ∧
    v = bytes8 b0 b1 b2 b3 b4 b5 b6 b7.
Proof.
  intros Hv. exists (u8 (v / 2 ^ 56)), (u8 (v / 2 ^ 48)), (u8 (v / 2 ^ 40)), (u8 (v / 2 ^ 32)),
    (u8 (v / 2 ^ 24)), (u8 (v / 2 ^ 16)), (u8 (v / 2 ^ 8)), (u8 v). split.
  - unfold is_bytes. repeat (constructor; auto with gorange).
  - unfold bytes8. zwlia.
Qed.
Lemma beUint64_put v : is_u64 v → beUint64 (bePutUint64 v) = v.
Proof.
  intros Hv. destruct (bePutUint64_split v Hv) as (b0&b1&b2&b3&b4&b5&b6&b7&Hb&->).
  by rewrite bePutUint64_bytes8, beUint64_bytes8.
Qed.
Lemma beUint64_range b : length b = 8%nat → is_bytes b → is_u64 (beUint64 b).
Proof.
  intros Hl Hb. do 9 (destruct b as [|? b]; try done).
  rewrite beUint64_bytes8 by done. unfold is_bytes in Hb. rewrite !list.Forall_cons in Hb.
  unfold bytes8. destruct Hb as (?&?&?&?&?&?&?&?&_). zwlia.
Qed.
Lemma bePutUint64_be b : length b = 8%nat → is_bytes b → bePutUint64 (beUint64 b) = b.
Proof.
  intros Hl Hb. do 9 (destruct b as [|? b]; try done).
  by rewrite beUint64_bytes8, bePutUint64_bytes8.
Qed.

(** *** IPv4 *)
Definition v4_lo (a0 a1 a2 a3 : Z) : Z :=
  0xffff * 2 ^ 32 + (a0 * 2 ^ 24 + a1 * 2 ^ 16 + a2 * 2 ^ 8 + a3).
Lemma AddrFrom4_eq a0 a1 a2 a3 : is_bytes [a0; a1; a2; a3] →
  AddrFrom4 [a0; a1; a2; a3] = MkAddr (U128 0 (v4_lo a0 a1 a2 a3)) z4.
Proof.
  unfold is_bytes. rewrite !list.Forall_cons. intros (?&?&?&?&_).
  unfold AddrFrom4. cbn [nth]. rewrite !shl64_byte by (done || lia).
  do 2 f_equal. change 0xffff00000000 with (0xffff * 2 ^ 32).
  rewrite lor_high_low by zwlia.
  replace (65535 * 2 ^ 32 + a0 * 2 ^ 24) with ((65535 * 2 ^ 8 + a0) * 2 ^ 24) by ring.
  rewrite lor_high_low by zwlia.
  replace ((65535 * 2 ^ 8 + a0) * 2 ^ 24 + a1 * 2 ^ 16)
    with ((65535 * 2 ^ 16 + a0 * 2 ^ 8 + a1) * 2 ^ 16) by ring.
  rewrite lor_high_low by zwlia.
  replace ((65535 * 2 ^ 16 + a0 * 2 ^ 8 + a1) * 2 ^ 16 + a2 * 2 ^ 8)
    with ((65535 * 2 ^ 24 + a0 * 2 ^ 16 + a1 * 2 ^ 8 + a2) * 2 ^ 8) by ring.
  rewrite lor_high_low by zwlia. unfold v4_lo. ring.
Qed.
Lemma v4_lo_split x : is_u64 x → Z.shiftr x 32 = 0xffff →
  ∃ a0 a1 a2 a3, is_bytes [a0; a1; a2; a3] ∧ x = v4_lo a0 a1 a2 a3.
Proof.
  rewrite Z.shiftr_div_pow2 by lia. intros Hx Hs.
  exists (u8 (x / 2 ^ 24)), (u8 (x / 2 ^ 16)), (u8 (x / 2 ^ 8)), (u8 x). split.
  - unfold is_bytes. repeat (constructor; auto with gorange).
  - unfold v4_lo. zwlia.
Qed.
Lemma v4_lo_wf a0 a1 a2 a3 : is_bytes [a0; a1; a2; a3] →
  is_u64 (v4_lo a0 a1 a2 a3) ∧ Z.shiftr (v4_lo a0 a1 a2 a3) 32 = 0xffff
  ∧ u32 (v4_lo a0 a1 a2 a3) = a0 * 2 ^ 24 + a1 * 2 ^ 16 + a2 * 2 ^ 8 + a3.
Proof.
  unfold is_bytes. rewrite !list.Forall_cons. intros (?&?&?&?&_).
  rewrite Z.shiftr_div_pow2 by lia. unfold v4_lo. repeat split; zwlia.
Qed.
Lemma v4_v4_lo h zz a0 a1 a2 a3 : is_bytes [a0; a1; a2; a3] →
  v4 (MkAddr (U128 h (v4_lo a0 a1 a2 a3)) zz) 0 = a0
  ∧ v4 (MkAddr (U128 h (v4_lo a0 a1 a2 a3)) zz) 1 = a1
  ∧ v4 (MkAddr (U128 h (v4_lo a0 a1 a2 a3)) zz) 2 = a2
  ∧ v4 (MkAddr (U128 h (v4_lo a0 a1 a2 a3)) zz) 3 = a3.
Proof.
  unfold is_bytes. rewrite !list.Forall_cons. intros (?&?&?&?&_).
  unfold v4. simpl (addr _). simpl (lo _).
  change (u8 (u8 (3 - 0) * 8)) with 24. change (u8 (u8 (3 - 1) * 8)) with 16.
  change (u8 (u8 (3 - 2) * 8)) with 8. change (u8 (u8 (3 - 3) * 8)) with 0.
  rewrite !Z.shiftr_div_pow2 by lia. unfold v4_lo. repeat split; zwlia.
Qed.
Lemma AddrFrom4_wf a : length a = 4%nat → is_bytes a → wf_addr (AddrFrom4 a).
Proof.
  intros Hl Ha. do 5 (destruct a as [|? a]; try done).
  rewrite AddrFrom4_eq by done. destruct (v4_lo_wf _ _ _ _ Ha) as (?&?&?).
  split; simpl; [|done]. split; simpl; [|done]. unfold is_u64. lia.
Qed.
(** Every well-formed IPv4 address is [AddrFrom4] of four bytes. *)
Lemma z4_AddrFrom4 ip : wf_addr ip → z ip = z4 →
  ∃ a0 a1 a2 a3, is_bytes [a0; a1; a2; a3] ∧
    ip = MkAddr (U128 0 (v4_lo a0 a1 a2 a3)) z4 ∧ ip = AddrFrom4 [a0; a1; a2; a3].
Proof.
  destruct ip as [[h l] zz]. intros [[_ Hl] Hz] E. simpl in *. subst zz.
  destruct Hz as [-> Hz]. destruct (v4_lo_split l Hl Hz) as (a0&a1&a2&a3&Ha&->).
  exists a0, a1, a2, a3. by rewrite AddrFrom4_eq.
Qed.

(** *** IPv6: sixteen bytes, eight words *)
Lemma AddrFrom16_wf a : length a = 16%nat → is_bytes a → wf_addr (AddrFrom16 a).
Proof.
  intros Hl Ha. split; [|done]. split; simpl; apply beUint64_range.
  - rewrite length_take. lia.
  - by apply Forall_take.
  - rewrite length_drop. lia.
  - by apply Forall_drop.
Qed.
Lemma As16_AddrFrom16 a : length a = 16%nat → is_bytes a → As16 (AddrFrom16 a) = a.
Proof.
  intros Hl Ha. unfold As16, AddrFrom16. cbn [addr hi lo].
  rewrite !bePutUint64_be.
  - apply take_drop.
  - rewrite length_drop. lia.
  - by apply Forall_drop.
  - rewrite length_take. lia.
  - by apply Forall_take.
Qed.
Lemma AddrFrom16_As16 ip : wf128 (addr ip) → AddrFrom16 (As16 ip) = MkAddr (addr ip) z6noz.
Proof.
  destruct ip as [[h l] zz]. intros [Hh Hl]. simpl in *. unfold AddrFrom16, As16. cbn [addr hi lo].
  change (take 8 (bePutUint64 h ++ bePutUint64 l)) with (bePutUint64 h).
  change (drop 8 (bePutUint64 h ++ bePutUint64 l)) with (bePutUint64 l).
  by rewrite !beUint64_put.
Qed.
Lemma As16_bytes ip : is_bytes (As16 ip).
Proof. apply list.Forall_app. split; apply bePutUint64_bytes. Qed.

(** The big-endian bytes of a list of 16-bit words. *)
Definition word_bytes (ws : list Z) : bytes :=
  concat (map (λ w, [u8 (Z.shiftr w 8); u8 w]) ws).
Definition words (ip : Addr) : list Z := map (v6u16 ip) [0; 1; 2; 3; 4; 5; 6; 7].
Lemma v6u16_range ip i : is_u16 (v6u16 ip i).
Proof. apply u16_range. Qed.
Lemma u8_u16 x : u8 (u16 x) = u8 x.
Proof. zwlia. Qed.
Lemma u8_u16_hi x k : 0 <= k → u8 (u16 (x / 2 ^ k) / 2 ^ 8) = u8 (x / 2 ^ (k + 8)).
Proof.
  intros. rewrite Z.pow_add_r, <- Z.div_div by lia. generalize (x / 2 ^ k). intros y. zwlia.
Qed.
Lemma words_As16 ip : wf128 (addr ip) → word_bytes (words ip) = As16 ip.
Proof.
  destruct ip as [[h l] zz]. intros [Hh Hl]. simpl in *.
  unfold word_bytes, words, As16, bePutUint64, v6u16. simpl.
  change (u8 (u8 (3 - 0 mod 4) * 16)) with 48. change (u8 (u8 (3 - 1 mod 4) * 16)) with 32.
  change (u8 (u8 (3 - 2 mod 4) * 16)) with 16. change (u8 (u8 (3 - 3 mod 4) * 16)) with 0.
  change (u8 (u8 (3 - 4 mod 4) * 16)) with 48. change (u8 (u8 (3 - 5 mod 4) * 16)) with 32.
  change (u8 (u8 (3 - 6 mod 4) * 16)) with 16. change (u8 (u8 (3 - 7 mod 4) * 16)) with 0.
  rewrite !Z.shiftr_div_pow2, !u8_u16, !u8_u16_hi, !Z.div_1_r by lia. done.
Qed.

(** ** Lemmas: the order *)
Lemma bytes_compare_refl a : bytes_compare a a = Eq.
Proof. by apply bytes_compare_eq. Qed.
Lemma bytes_compare_trans a b c :
  bytes_compare a b = Lt → bytes_compare b c = Lt → bytes_compare a c = Lt.
Proof.
  revert b c. induction a as [|x a IH]; intros [|y b] [|w c]; simpl; try done.
  destruct (Z.compare_spec x y), (Z.compare_spec y w), (Z.compare_spec x w);
    try done; try lia; eauto.
Qed.

(** [Addr_Compare] is the lexicographic order on bit length, value, zone. *)
Definition key_compare (a b : Addr) : comparison :=
  match Addr_BitLen a ?= Addr_BitLen b with
  | Eq =>
      match val (addr a) ?= val (addr b) with
      | Eq => bytes_compare (Addr_Zone a) (Addr_Zone b)
      | c => c
      end
  | c => c
  end.
Definition sign (c : comparison) : Z := match c with Lt => -1 | Eq => 0 | Gt => 1 end.

Lemma Addr_Compare_key a b :
  wf128 (addr a) → wf128 (addr b) → Addr_Compare a b = sign (key_compare a b).
Proof.
  destruct a as [[ha la] za], b as [[hb lb] zb].
  intros [Hha Hla] [Hhb Hlb]. unfold is_u64 in *. simpl in *.
  unfold Addr_Compare, key_compare, val. cbn [addr hi lo].
  destruct (Z.compare_spec (Addr_BitLen (MkAddr (U128 ha la) za))
              (Addr_BitLen (MkAddr (U128 hb lb) zb))) as [E|E|E];
    rewrite ?Z.gtb_ltb; cycle 1.
  { by rewrite (proj2 (Z.ltb_lt _ _) E). }
  { rewrite (proj2 (Z.ltb_ge _ _)) by lia. by rewrite (proj2 (Z.ltb_lt _ _) E). }
  rewrite E, Z.ltb_irrefl.
  destruct (Z.ltb_spec ha hb); [by rewrite (proj2 (Z.compare_lt_iff _ _)) by lia|].
  destruct (Z.ltb_spec hb ha); [by rewrite (proj2 (Z.compare_gt_iff _ _)) by lia|].
  destruct (Z.ltb_spec la lb); [by rewrite (proj2 (Z.compare_lt_iff _ _)) by lia|].
  destruct (Z.ltb_spec lb la); [by rewrite (proj2 (Z.compare_gt_iff _ _)) by lia|].
  rewrite (proj2 (Z.compare_eq_iff _ _)) by lia.
  unfold bytes_ltb. rewrite (bytes_compare_antisym (Addr_Zone (MkAddr (U128 ha la) za))).
  destruct za, zb; try discriminate E; try reflexivity; cbn -[bytes_compare];
    by match goal with |- context [bytes_compare ?x ?y] => destruct (bytes_compare x y) end.
Qed.

Lemma key_compare_eq a b : wf_addr a → wf_addr b → key_compare a b = Eq ↔ a = b.
Proof.
  intros [Ha Hza] [Hb Hzb]. split; cycle 1.
  { intros ->. unfold key_compare. by rewrite !Z.compare_refl, bytes_compare_refl. }
  unfold key_compare.
  destruct (Z.compare_spec (Addr_BitLen a) (Addr_BitLen b)) as [E| |]; try done.
  destruct (Z.compare_spec (val (addr a)) (val (addr b))) as [Ev| |]; try done.
  intros Hz%bytes_compare_eq. apply val_inj in Ev; [|done..].
  destruct a as [u za], b as [v zb]. simpl in *. subst v. f_equal.
  unfold Addr_BitLen, Addr_Zone in *. destruct za, zb; simpl in *; congruence || done.
Qed.
Lemma key_compare_antisym a b : key_compare b a = CompOpp (key_compare a b).
Proof.
  unfold key_compare.
  rewrite (Z.compare_antisym (Addr_BitLen a)), (Z.compare_antisym (val (addr a))).
  destruct (Addr_BitLen a ?= _); simpl; [|done..].
  destruct (val (addr a) ?= _); simpl; [|done..]. apply bytes_compare_antisym.
Qed.
Lemma key_compare_trans a b c :
  key_compare a b = Lt → key_compare b c = Lt → key_compare a c = Lt.
Proof.
  unfold key_compare.
  destruct (Z.compare_spec (Addr_BitLen a) (Addr_BitLen b)),
    (Z.compare_spec (Addr_BitLen b) (Addr_BitLen c)),
    (Z.compare_spec (Addr_BitLen a) (Addr_BitLen c)); try done; try lia.
  destruct (Z.compare_spec (val (addr a)) (val (addr b))),
    (Z.compare_spec (val (addr b)) (val (addr c))),
    (Z.compare_spec (val (addr a)) (val (addr c))); try done; try lia.
  apply bytes_compare_trans.
Qed.
Lemma sign_opp c : sign (CompOpp c) = - sign c.
Proof. by destruct c. Qed.

(** ** Lemmas: families *)
Lemma Addr_Is6_spec ip : Addr_Is6 ip = true ↔ z ip ≠ z0 ∧ z ip ≠ z4.
Proof.
  unfold Addr_Is6. rewrite andb_true_iff, !negb_true_iff, !bool_decide_eq_false. done.
Qed.
Lemma Is6_z6noz u : Addr_Is6 (MkAddr u z6noz) = true.
Proof. done. Qed.
Lemma Is4In6_spec ip : Addr_Is4In6 ip = true ↔
  z ip ≠ z0 ∧ z ip ≠ z4 ∧ hi (addr ip) = 0 ∧ Z.shiftr (lo (addr ip)) 32 = 0xffff.
Proof.
  unfold Addr_Is4In6. rewrite !andb_true_iff, Addr_Is6_spec, !Z.eqb_eq. tauto.
Qed.
Lemma wf_Unmap ip : wf_addr ip → wf_addr (Addr_Unmap ip).
Proof.
  unfold Addr_Unmap. intros Hw. destruct (Addr_Is4In6 ip) eqn:E; [|exact Hw].
  apply Is4In6_spec in E as (_&_&E). split; [apply Hw|exact E].
Qed.
Lemma wf_WithZone ip s : wf_addr ip → wf_addr (Addr_WithZone ip s).
Proof.
  unfold Addr_WithZone. intros Hw. destruct (Addr_Is6 ip); [simpl|exact Hw].
  destruct (beq s []) eqn:E; (split; [apply Hw|]); [exact I|]. intros ->. discriminate.
Qed.
Lemma wf_withoutZone ip : wf_addr ip → wf_addr (withoutZone ip).
Proof.
  unfold withoutZone. intros Hw. destruct (Addr_Is6 ip); [|exact Hw].
  split; [apply Hw|exact I].
Qed.

(** ** Lemmas: successor *)
Definition family_max (ip : Addr) : Z :=
  match z ip with z4 => 2 ^ 32 - 1 | _ => 2 ^ 128 - 1 end.
Lemma addr_val_range ip : wf_addr ip → 0 <= addr_val ip <= family_max ip.
Proof.
  intros [Hw _]. pose proof (val_range _ Hw). unfold addr_val, family_max.
  destruct (z ip); try lia. pose proof (u32_range (lo (addr ip))). zwlia.
Qed.
Lemma z4_lo_val ip : wf_addr ip → z ip = z4 → lo (addr ip) = 0xffff * 2 ^ 32 + addr_val ip.
Proof.
  destruct ip as [[h l] zz]. intros [[_ Hl] Hz] E. cbn [z] in E, Hz. subst zz.
  destruct Hz as [_ Hz]. unfold addr_val, u32. cbn [addr z lo hi] in *. rewrite Z.shiftr_div_pow2 in Hz by lia.
  rewrite (Z.div_mod l (2 ^ 32)) at 1 by lia. rewrite Hz. lia.
Qed.
Lemma addr_val_inj a b : wf_addr a → wf_addr b → z a = z b → addr_val a = addr_val b → a = b.
Proof.
  intros Ha Hb E Hv. destruct (decide (z a = z4)) as [E4|E4].
  - pose proof (z4_lo_val a Ha E4) as La. pose proof (z4_lo_val b Hb) as Lb.
    rewrite <- E in Lb. specialize (Lb E4). rewrite Hv, <- Lb in La.
    destruct a as [[ha la] za], b as [[hb lb] zb], Ha as [_ Ha], Hb as [_ Hb].
    cbn [z addr hi lo] in *. subst. destruct Ha as [-> _], Hb as [-> _]. done.
  - assert (Ev : val (addr a) = val (addr b)).
    { unfold addr_val in Hv. rewrite <- E in Hv. by destruct (z a). }
    apply val_inj in Ev; [|apply Ha|apply Hb].
    destruct a, b. simpl in *. congruence.
Qed.
Lemma Next_step ip : wf_addr ip → z ip ≠ z0 →
  Addr_Next ip =
    if addr_val ip =? family_max ip then zeroAddr
    else MkAddr (of_val (val (addr ip) + 1)) (z ip).
Proof.
  intros Hw Hz. pose proof (addr_val_range _ Hw). unfold Addr_Next.
  set (n := addOne (addr ip)).
  assert (Hn : wf128 n) by (apply addOne_wf; apply Hw).
  assert (Hv : val n = (val (addr ip) + 1) mod 2 ^ 128) by (apply val_addOne; apply Hw).
  pose proof (val_range _ (proj1 Hw)) as Hr.
  unfold Addr_Is4. cbn [z addr].
  destruct (decide (z ip = z4)) as [E|E].
  - rewrite bool_decide_true by done.
    pose proof (z4_lo_val ip Hw E) as Hl. destruct Hw as [Hwa Hwz]. rewrite E in Hwz.
    destruct Hwz as [Hh _]. unfold family_max. rewrite E.
    assert (n = of_val (val (addr ip) + 1)) as Hn'.
    { rewrite <- (of_val_val n Hn), Hv. f_equal. unfold family_max in *. rewrite E in *.
      unfold val in *. rewrite Hh, Hl in *. zwlia. }
    rewrite Hn'. unfold of_val. cbn [lo].
    unfold family_max in *. rewrite E in *. unfold val in *. rewrite Hh, Hl in *.
    destruct (Z.eqb_spec (addr_val ip) (2 ^ 32 - 1)) as [Ev|Ev];
      destruct (Z.eqb_spec (u32 ((0 * 2 ^ 64 + (65535 * 2 ^ 32 + addr_val ip) + 1) mod 2 ^ 64)) 0);
      try done; exfalso; zwlia.
  - rewrite bool_decide_false by done. rewrite isZero_val by done. rewrite Hv.
    assert (addr_val ip = val (addr ip)) as ->.
    { unfold addr_val. by destruct (z ip). }
    assert (family_max ip = 2 ^ 128 - 1) as ->.
    { unfold family_max. by destruct (z ip). }
    destruct (Z.eqb_spec (val (addr ip)) (2 ^ 128 - 1)) as [Ev|Ev].
    + rewrite Ev. done.
    + rewrite Z.mod_small by lia. rewrite (proj2 (Z.eqb_neq _ _)) by lia.
      f_equal. rewrite <- (of_val_val n Hn), Hv, Z.mod_small by lia. done.
Qed.
(** An IPv4 value in its IPv4-mapped representation. *)
Lemma mapped_of_val v : 0 <= v < 2 ^ 32 →
  of_val (0xffff * 2 ^ 32 + v) = U128 0 (0xffff * 2 ^ 32 + v) ∧
  is_u64 (0xffff * 2 ^ 32 + v) ∧
  Z.shiftr (0xffff * 2 ^ 32 + v) 32 = 0xffff ∧ u32 (0xffff * 2 ^ 32 + v) = v.
Proof.
  intros. unfold of_val. rewrite Z.shiftr_div_pow2 by lia. repeat split; [|zwlia..].
  f_equal; zwlia.
Qed.
Lemma z4_val ip : wf_addr ip → z ip = z4 → val (addr ip) = 0xffff * 2 ^ 32 + addr_val ip.
Proof.
  intros Hw E. unfold val. rewrite (z4_lo_val ip Hw E). destruct Hw as [_ Hw].
  rewrite E in Hw. destruct Hw as [-> _]. lia.
Qed.
Lemma not_z4_val ip : z ip ≠ z4 → addr_val ip = val (addr ip).
Proof. intros E. unfold addr_val. by destruct (z ip). Qed.
Lemma Next_wf ip : wf_addr ip → z ip ≠ z0 → addr_val ip ≠ family_max ip →
  wf_addr (Addr_Next ip) ∧ z (Addr_Next ip) = z ip ∧
  addr_val (Addr_Next ip) = addr_val ip + 1.
Proof.
  intros Hw Hz Hne. pose proof (addr_val_range _ Hw) as Hr. rewrite Next_step by done.
  rewrite (proj2 (Z.eqb_neq _ _)) by done. cbn [z].
  pose proof (val_range _ (proj1 Hw)) as Hv. unfold family_max in *.
  destruct (decide (z ip = z4)) as [E|E].
  - rewrite (z4_val ip Hw E), E in *.
    destruct (mapped_of_val (addr_val ip + 1)) as (E1&E2&E3&E4); [lia|].
    rewrite <- Z.add_assoc, E1. split; [|split; [done|exact E4]].
    split; [|split; [done|exact E3]]. split; [unfold is_u64; simpl; lia|exact E2].
  - rewrite (not_z4_val ip E) in *.
    assert (val (addr ip) < 2 ^ 128 - 1) by (destruct (z ip); try done; lia).
    assert (wf128 (of_val (val (addr ip) + 1))) by (apply of_val_wf; lia).
    split; [|split]; [|done|]; unfold wf_addr, addr_val; cbn [z addr].
    + split; [done|]. destruct Hw as [_ Hw]. destruct (z ip); done.
    + destruct (z ip); try done; apply val_of_val.
Qed.
