(* ===== verification/NetipPrefix.v ===== *)
(** * net/netip/netip.go: AddrPort and Prefix

    The address-and-port pair, CIDR prefixes and the operations on them that
    do not go through text; the theorems on [Contains] and [Overlaps]. *)
From S2P Require Import Prelude Strconv Uint128 NetipAddr.

(** ** AddrPort *)
Record AddrPort : Set := MkAddrPort { ap_ip : Addr; ap_port : Z }.
#[global] Instance AddrPort_eq_dec : EqDecision AddrPort.
Proof. solve_decision. Defined.
Definition zeroAddrPort : AddrPort := MkAddrPort zeroAddr 0.
Definition AddrPortFrom (ip : Addr) (port : Z) : AddrPort := MkAddrPort ip port.
Definition AddrPort_Addr (p : AddrPort) : Addr := ap_ip p.
Definition AddrPort_Port (p : AddrPort) : Z := ap_port p.
Definition AddrPort_IsValid (p : AddrPort) : bool := Addr_IsValid (ap_ip p).
Definition AddrPort_Compare (p p2 : AddrPort) : Z :=
  let c := Addr_Compare (AddrPort_Addr p) (AddrPort_Addr p2) in
  if negb (c =? 0) then c else cmp_Compare (AddrPort_Port p) (AddrPort_Port p2).

(** ** Prefix *)
Record Prefix : Set := MkPrefix { p_ip : Addr; bitsPlusOne : Z }.
#[global] Instance Prefix_eq_dec : EqDecision Prefix.
Proof. solve_decision. Defined.
Definition zeroPrefix : Prefix := MkPrefix zeroAddr 0.   (* Prefix{} *)

Definition PrefixFrom (ip : Addr) (bits : Z) : Prefix :=
  let bitsPlusOne :=
    if negb (Addr_isZero ip) && (bits >=? 0) && (bits <=? Addr_BitLen ip)
    then u8 (u8 bits + 1) else 0 in
  MkPrefix (withoutZone ip) bitsPlusOne.
Definition Prefix_Addr (p : Prefix) : Addr := p_ip p.
Definition Prefix_Bits (p : Prefix) : Z := bitsPlusOne p - 1.
Definition Prefix_IsValid (p : Prefix) : bool := bitsPlusOne p >? 0.
Definition Prefix_isZero (p : Prefix) : bool := bool_decide (p = zeroPrefix).
Definition Prefix_IsSingleIP (p : Prefix) : bool :=
  Prefix_IsValid p && (Prefix_Bits p =? Addr_BitLen (p_ip p)).
Definition Prefix_compare (p p2 : Prefix) : Z :=
  let c := cmp_Compare (Addr_BitLen (Prefix_Addr p)) (Addr_BitLen (Prefix_Addr p2)) in
  if negb (c =? 0) then c
  else
    let c := cmp_Compare (Prefix_Bits p) (Prefix_Bits p2) in
    if negb (c =? 0) then c
    else Addr_Compare (Prefix_Addr p) (Prefix_Addr p2).

(** [ip.Prefix(b)]. *)
Definition too_large (b : Z) (family : bytes) : res Prefix :=
  s ← Itoa b;
  Err (ErrorString [Lit "prefix length "%go; Lit s; Lit " too large for "%go; Lit family]).
Definition Addr_Prefix (ip : Addr) (b : Z) : res Prefix :=
  if b <? 0 then Err (New "negative Prefix bits"%go)
  else
    match z ip with
    | z0 => Ok zeroPrefix
    | z4 =>
        if b >? 32 then too_large b "IPv4"%go
        else
          m ← mask6 (b + 96);
          Ok (PrefixFrom (MkAddr (uint128_and (addr ip) m) (z ip)) b)
    | _ =>
        if b >? 128 then too_large b "IPv6"%go
        else
          m ← mask6 b;
          Ok (PrefixFrom (MkAddr (uint128_and (addr ip) m) (z ip)) b)
    end.

(** [m, _ := p.ip.Prefix(p.Bits())]: on an error [m] is the zero Prefix. *)
Definition Masked (p : Prefix) : res Prefix :=
  match Addr_Prefix (p_ip p) (Prefix_Bits p) with
  | Err _ => Ok zeroPrefix
  | r => r
  end.

Definition Prefix_Contains (p : Prefix) (ip : Addr) : res bool :=
  if negb (Prefix_IsValid p) || hasZone ip then Ok false
  else
    let f1 := Addr_BitLen (p_ip p) in
    let f2 := Addr_BitLen ip in
    if (f1 =? 0) || (f2 =? 0) || negb (f1 =? f2) then Ok false
    else if Addr_Is4 ip then
      Ok (u32 (Z.shiftr (Z.lxor (lo (addr ip)) (lo (addr (p_ip p))))
                 (Z.land (32 - Prefix_Bits p) 63)) =? 0)
    else
      m ← mask6 (Prefix_Bits p);
      Ok (uint128_isZero (uint128_and (uint128_xor (addr ip) (addr (p_ip p))) m)).

Definition Prefix_Overlaps (p o : Prefix) : res bool :=
  if negb (Prefix_IsValid p) || negb (Prefix_IsValid o) then Ok false
  else if bool_decide (p = o) then Ok true
  else if negb (Bool.eqb (Addr_Is4 (p_ip p)) (Addr_Is4 (p_ip o))) then Ok false
  else
    let pb := Prefix_Bits p in
    let ob := Prefix_Bits o in
    let minBits := if pb <? ob then pb else ob in
    if minBits =? 0 then Ok true
    else
      match Addr_Prefix (p_ip p) minBits with
      | Err _ => Ok false
      | Panic s => Panic s
      | Ok p =>
          match Addr_Prefix (p_ip o) minBits with
          | Err _ => Ok false
          | Panic s => Panic s
          | Ok o => Ok (bool_decide (p_ip p = p_ip o))
          end
      end.

(** ** Well-formedness and the abstract reading

    A prefix the package can build: its address has no zone, the length fits
    the family, and a valid prefix has a valid address. *)
Definition wf_prefix (p : Prefix) : Prop :=
  wf_addr (p_ip p) ∧ hasZone (p_ip p) = false ∧
  0 <= bitsPlusOne p <= Addr_BitLen (p_ip p) + 1 ∧
  (z (p_ip p) = z0 → bitsPlusOne p = 0).

(** The network part: the top [bits] bits of an address of [w] bits. *)
Definition net (w bits x : Z) : Z := x / 2 ^ (w - bits).

(** What a CIDR prefix denotes: the zoneless addresses of its family that
    share its first [Bits] bits. *)
Definition in_prefix (p : Prefix) (ip : Addr) : Prop :=
  Prefix_IsValid p = true ∧ hasZone ip = false ∧ z ip ≠ z0 ∧
  Addr_BitLen ip = Addr_BitLen (p_ip p) ∧
  net (Addr_BitLen ip) (Prefix_Bits p) (addr_val ip)
  = net (Addr_BitLen ip) (Prefix_Bits p) (addr_val (p_ip p)).

(** ** Lemmas *)
Lemma hasZone_spec ip : hasZone ip = false ↔ ∀ s, z ip ≠ zname s.
Proof. unfold hasZone. destruct (z ip); simpl; naive_solver. Qed.
Lemma zoneless ip : hasZone ip = false → z ip = z0 ∨ z ip = z4 ∨ z ip = z6noz.
Proof. unfold hasZone. destruct (z ip); simpl; naive_solver. Qed.
Lemma BitLen_range ip : 0 <= Addr_BitLen ip <= 128.
Proof. unfold Addr_BitLen. destruct (z ip); lia. Qed.
Lemma BitLen_zero ip : Addr_BitLen ip = 0 ↔ z ip = z0.
Proof. unfold Addr_BitLen. destruct (z ip); naive_solver lia. Qed.
Lemma BitLen_zone a b : hasZone a = false → hasZone b = false →
  Addr_BitLen a = Addr_BitLen b ↔ z a = z b.
Proof.
  intros Ha%zoneless Hb%zoneless. unfold Addr_BitLen.
  destruct Ha as [-> | [-> | ->]], Hb as [-> | [-> | ->]]; split; congruence.
Qed.
Lemma withoutZone_z ip : z ip ≠ z0 → z ip ≠ z4 → withoutZone ip = MkAddr (addr ip) z6noz.
Proof.
  intros. unfold withoutZone. rewrite (proj2 (Addr_Is6_spec ip)) by done. done.
Qed.
Lemma withoutZone_id ip : hasZone ip = false → withoutZone ip = ip.
Proof.
  destruct ip as [u zz]. intros [E|[E|E]]%zoneless; cbn [z] in E; by subst zz.
Qed.
Lemma withoutZone_facts ip : hasZone (withoutZone ip) = false ∧
  Addr_BitLen (withoutZone ip) = Addr_BitLen ip ∧ addr (withoutZone ip) = addr ip ∧
  (z (withoutZone ip) = z0 ↔ z ip = z0).
Proof. destruct ip as [u []]; done. Qed.

Lemma PrefixFrom_wf ip b : wf_addr ip → wf_prefix (PrefixFrom ip b).
Proof.
  intros Hw. destruct (withoutZone_facts ip) as (H1&H2&H3&H4).
  unfold wf_prefix, PrefixFrom. cbn [p_ip bitsPlusOne].
  split; [by apply wf_withoutZone|]. split; [done|]. rewrite H2, H4.
  pose proof (BitLen_range ip). unfold Addr_isZero.
  destruct (bool_decide_reflect (z ip = z0)) as [E|E]; simpl; [lia|].
  rewrite Z.geb_leb. destruct (Z.leb_spec 0 b), (Z.leb_spec b (Addr_BitLen ip)); simpl;
    (split; [|done]); [|lia..].
  rewrite !u8_id by (unfold is_u8; rewrite ?u8_id by (unfold is_u8; lia); lia). lia.
Qed.
Lemma PrefixFrom_bits ip b : z ip ≠ z0 → 0 <= b <= Addr_BitLen ip →
  bitsPlusOne (PrefixFrom ip b) = b + 1.
Proof.
  intros Hz Hb. pose proof (BitLen_range ip). unfold PrefixFrom, Addr_isZero. cbn [bitsPlusOne].
  rewrite bool_decide_false by done. rewrite Z.geb_leb.
  rewrite !(proj2 (Z.leb_le _ _)) by lia. simpl.
  rewrite !u8_id by (unfold is_u8; rewrite ?u8_id by (unfold is_u8; lia); lia). lia.
Qed.

(** The result of [ip.Prefix(b)] when the length fits: the host bits are
    cleared and the zone is dropped. *)
Definition masked_val (w b x : Z) : Z := x / 2 ^ (w - b) * 2 ^ (w - b).
Lemma masked_val_range w b x : 0 <= b <= w → 0 <= x < 2 ^ w → 0 <= masked_val w b x <= x.
Proof.
  intros Hb Hx. unfold masked_val. pose proof (Z.pow_pos_nonneg 2 (w - b)).
  assert (0 <= x / 2 ^ (w - b)) by (apply Z.div_pos; lia).
  pose proof (Z.mul_div_le x (2 ^ (w - b))). lia.
Qed.
Lemma Addr_Prefix_ok ip b : wf_addr ip → z ip ≠ z0 → 0 <= b <= Addr_BitLen ip →
  ∃ q, Addr_Prefix ip b = Ok (MkPrefix q (b + 1)) ∧ wf_addr q ∧
    z q = z (withoutZone ip) ∧
    addr_val q = masked_val (Addr_BitLen ip) b (addr_val ip).
Proof.
  intros Hw Hz Hb. unfold Addr_Prefix. rewrite (proj2 (Z.ltb_ge b 0)) by lia.
  destruct (decide (z ip = z4)) as [E|E].
  - assert (HB : Addr_BitLen ip = 32) by (unfold Addr_BitLen; by rewrite E).
    rewrite HB in *. rewrite E. rewrite Z.gtb_ltb, (proj2 (Z.ltb_ge 32 b)) by lia.
    pose proof (mask6_range (b + 96)) as Hm. rewrite Hm by lia.
    set (m := U128 _ _) in *. cbn [mbind res_bind].
    specialize (Hm ltac:(lia)).
    pose proof (val_and_mask (addr ip) _ _ (proj1 Hw) Hm) as Hv.
    pose proof (and_wf (addr ip) m (proj1 Hw) (mask6_wf _ _ Hm)) as Hwq.
    rewrite (z4_val ip Hw E) in Hv. replace (128 - (b + 96)) with (32 - b) in Hv by lia.
    pose proof (addr_val_range ip Hw) as Hr. unfold family_max in Hr. rewrite E in Hr.
    set (q := uint128_and (addr ip) m) in *.
    assert (Hq : q = U128 0 (65535 * 2 ^ 32 + masked_val 32 b (addr_val ip))).
    { pose proof (masked_val_range 32 b (addr_val ip) Hb ltac:(lia)).
      destruct (mapped_of_val (masked_val 32 b (addr_val ip))) as [Hq _]; [lia|].
      rewrite <- (of_val_val q Hwq), <- Hq. f_equal. rewrite Hv.
      replace (65535 * 2 ^ 32) with (65535 * 2 ^ b * 2 ^ (32 - b)) at 1
        by (rewrite <- Z.mul_assoc, <- Z.pow_add_r by lia; f_equal; f_equal; lia).
      rewrite Z.div_add_l by (apply Z.pow_nonzero; lia). unfold masked_val.
      replace (65535 * 2 ^ 32) with (65535 * 2 ^ b * 2 ^ (32 - b))
        by (rewrite <- Z.mul_assoc, <- Z.pow_add_r by lia; f_equal; f_equal; lia).
      ring. }
    pose proof (masked_val_range 32 b (addr_val ip) Hb ltac:(lia)).
    destruct (mapped_of_val (masked_val 32 b (addr_val ip))) as (_&Q2&Q3&Q4); [lia|].
    exists (MkAddr q z4). rewrite Hq in *. split.
    { f_equal. pose proof (PrefixFrom_bits (MkAddr q z4) b ltac:(done)) as HP.
      rewrite Hq in HP. rewrite <- HP by (unfold Addr_BitLen; cbn [z]; lia). done. }
    split; [split; [done|split; [done|exact Q3]]|].
    split; [|exact Q4].
    rewrite withoutZone_id; [done|]. apply hasZone_spec. rewrite E. done.
  - assert (HB : Addr_BitLen ip = 128) by (unfold Addr_BitLen; by destruct (z ip)).
    rewrite HB in *.
    pose proof (mask6_range b Hb) as Hm. set (m := U128 _ _) in *.
    pose proof (val_and_mask (addr ip) _ _ (proj1 Hw) Hm) as Hv.
    pose proof (and_wf (addr ip) m (proj1 Hw) (mask6_wf _ _ Hm)) as Hwq.
    set (q := uint128_and (addr ip) m) in *.
    exists (MkAddr q z6noz). split; [|split; [by split|split]].
    + transitivity (Ok (PrefixFrom (MkAddr q (z ip)) b)).
      { destruct (z ip) eqn:Ez; try done;
          rewrite Z.gtb_ltb, (proj2 (Z.ltb_ge 128 b)) by lia; by rewrite Hm. }
      f_equal. rewrite <- (PrefixFrom_bits (MkAddr q (z ip)) b) by
        (try done; unfold Addr_BitLen in *; cbn [z]; destruct (z ip); done || lia).
      unfold PrefixFrom. cbn [p_ip bitsPlusOne]. by rewrite withoutZone_z.
    + by rewrite withoutZone_z.
    + rewrite (not_z4_val ip E). unfold addr_val. cbn [z addr]. exact Hv.
Qed.

(** *** Contains *)
Lemma net_masked w b x : 0 <= b <= w → net w b (masked_val w b x) = net w b x.
Proof.
  intros. unfold net, masked_val. apply Z.div_mul. apply Z.pow_nonzero; lia.
Qed.
Lemma masked_net_eq w b x y : 0 <= b <= w →
  masked_val w b x = masked_val w b y ↔ net w b x = net w b y.
Proof.
  intros. split; [intros E; by rewrite <- (net_masked w b x), E, net_masked by done|].
  unfold net, masked_val. by intros ->.
Qed.
(** Agreeing on more bits implies agreeing on fewer. *)
Lemma net_mono w b b' x y : 0 <= b <= b' → b' <= w →
  net w b' x = net w b' y → net w b x = net w b y.
Proof.
  unfold net. intros Hb Hb' E.
  replace (w - b) with ((w - b') + (b' - b)) by lia.
  rewrite Z.pow_add_r, <- !Z.div_div by lia. by rewrite E.
Qed.
Lemma net_zero w x y : 0 <= w → 0 <= x < 2 ^ w → 0 <= y < 2 ^ w → net w 0 x = net w 0 y.
Proof. intros. unfold net. rewrite Z.sub_0_r, !Z.div_small by lia. done. Qed.
Lemma addr_val_bound ip : wf_addr ip → z ip ≠ z0 → 0 <= addr_val ip < 2 ^ Addr_BitLen ip.
Proof.
  intros Hw Hz. pose proof (addr_val_range ip Hw) as Hr.
  unfold family_max, Addr_BitLen in *. destruct (z ip); done || lia.
Qed.

(** The IPv4 test: xor, shift, truncate. *)
Lemma contains4 x y k : 0 <= x < 2 ^ 32 → 0 <= y < 2 ^ 32 → 0 <= k →
  (u32 (Z.shiftr (Z.lxor (0xffff * 2 ^ 32 + x) (0xffff * 2 ^ 32 + y)) k) =? 0)
  = (x / 2 ^ k =? y / 2 ^ k).
Proof.
  intros Hx Hy Hk.
  assert (E : Z.lxor (0xffff * 2 ^ 32 + x) (0xffff * 2 ^ 32 + y) = Z.lxor x y).
  { rewrite <- !(lor_high_low 0xffff) by lia. apply Z.bits_inj'. intros i Hi.
    rewrite !Z.lxor_spec, !Z.lor_spec.
    destruct (decide (i < 32)).
    - by rewrite <- Z.shiftl_mul_pow2, Z.shiftl_spec_low by lia.
    - rewrite (testbit_high x 32), (testbit_high y 32) by lia.
      by destruct (Z.testbit (0xffff * 2 ^ 32) i). }
  rewrite E. pose proof (lxor_range 32 x y ltac:(lia) Hx Hy).
  pose proof (shiftr_range 32 _ k Hk H).
  rewrite u32_id by done. rewrite Z.shiftr_lxor, <- !Z.shiftr_div_pow2 by done.
  destruct (Z.eqb_spec (Z.shiftr x k) (Z.shiftr y k)) as [->|Hne].
  - by rewrite Z.lxor_nilpotent.
  - apply Z.eqb_neq. intros E'. by apply Hne, Z.lxor_eq.
Qed.

Lemma wf_prefix_bits p : wf_prefix p → Prefix_IsValid p = true →
  z (p_ip p) ≠ z0 ∧ 0 <= Prefix_Bits p <= Addr_BitLen (p_ip p).
Proof.
  intros (Hw&Hz&Hb&H0). unfold Prefix_IsValid, Prefix_Bits. rewrite Z.gtb_ltb, Z.ltb_lt.
  intros. split; [|lia]. intros E. specialize (H0 E). lia.
Qed.

Lemma contains_same_family p ip : wf_prefix p → wf_addr ip →
  Prefix_IsValid p = true → hasZone ip = false → z ip = z (p_ip p) →
  Prefix_Contains p ip =
    Ok (net (Addr_BitLen ip) (Prefix_Bits p) (addr_val ip)
        =? net (Addr_BitLen ip) (Prefix_Bits p) (addr_val (p_ip p))).
Proof.
  intros Hp Hip Hv Hz E. destruct (wf_prefix_bits p Hp Hv) as [Hn Hb].
  unfold Prefix_Contains. rewrite Hv, Hz. cbn [negb orb].
  assert (EB : Addr_BitLen (p_ip p) = Addr_BitLen ip) by (unfold Addr_BitLen; by rewrite E).
  rewrite EB in *. rewrite Z.eqb_refl.
  assert (Addr_BitLen ip ≠ 0) by (rewrite BitLen_zero, E; done).
  rewrite (proj2 (Z.eqb_neq (Addr_BitLen ip) 0)) by done. cbn [negb orb].
  unfold Addr_Is4. destruct (decide (z ip = z4)) as [E4|E4].
  - rewrite bool_decide_true by done.
    rewrite (z4_lo_val ip Hip E4), (z4_lo_val (p_ip p) (proj1 Hp)) by congruence.
    assert (HB : Addr_BitLen ip = 32) by (unfold Addr_BitLen; by rewrite E4).
    rewrite HB in *.
    pose proof (addr_val_bound ip Hip ltac:(congruence)) as H1. rewrite HB in H1.
    pose proof (addr_val_bound (p_ip p) (proj1 Hp) Hn) as H2. rewrite EB in H2.
    change 63 with (2 ^ 6 - 1). rewrite land_ones_mod, Z.mod_small by lia.
    rewrite contains4 by lia. done.
  - rewrite bool_decide_false by done.
    assert (HB : Addr_BitLen ip = 128).
    { unfold Addr_BitLen. rewrite <- E in Hn. by destruct (z ip). }
    rewrite HB in *. rewrite mask6_range by done.
    pose proof (mask6_range (Prefix_Bits p) Hb) as Hm. cbn [mbind res_bind]. f_equal.
    rewrite (xor_mask_zero _ _ _ _ (proj1 Hip) (proj1 (proj1 Hp)) Hm).
    rewrite !not_z4_val by congruence. done.
Qed.
Lemma contains_in_prefix p ip : wf_prefix p → wf_addr ip →
  ∃ b, Prefix_Contains p ip = Ok b ∧ (b = true ↔ in_prefix p ip).
Proof.
  intros Hp Hip. pose proof Hp as (Hw&Hz&_).
  destruct (Prefix_IsValid p) eqn:Hv; cycle 1.
  { exists false. unfold Prefix_Contains, in_prefix. rewrite Hv. naive_solver. }
  destruct (hasZone ip) eqn:Hzi; cycle 1.
  - destruct (decide (z ip = z (p_ip p))) as [E|E].
    + rewrite contains_same_family by done. eexists. split; [done|].
      rewrite Z.eqb_eq. unfold in_prefix.
      destruct (wf_prefix_bits p Hp Hv) as [Hn _].
      split; [intros En|intros (_&_&_&_&En); exact En].
      repeat split; try done; [congruence|]. by apply BitLen_zone.
    + exists false. assert (EB : Addr_BitLen (p_ip p) ≠ Addr_BitLen ip).
      { rewrite (BitLen_zone _ _ Hz Hzi). congruence. }
      unfold Prefix_Contains, in_prefix. rewrite Hv, Hzi. cbn [negb orb].
      rewrite (proj2 (Z.eqb_neq (Addr_BitLen (p_ip p)) (Addr_BitLen ip))) by done.
      cbn [negb]. rewrite orb_true_r. split; [done|]. split; [done|].
      intros (_&_&_&EB'&_). congruence.
  - exists false. unfold Prefix_Contains, in_prefix. rewrite Hv, Hzi. naive_solver.
Qed.

(** *** Overlaps *)
Lemma in_prefix_self p : wf_prefix p → Prefix_IsValid p = true → in_prefix p (p_ip p).
Proof.
  intros Hp Hv. destruct (wf_prefix_bits p Hp Hv). destruct Hp as (_&Hz&_).
  by repeat split.
Qed.

Lemma overlaps_net p o : wf_prefix p → wf_prefix o →
  Prefix_IsValid p = true → Prefix_IsValid o = true →
  let w := Addr_BitLen (p_ip p) in
  let m := Z.min (Prefix_Bits p) (Prefix_Bits o) in
  ∃ b, Prefix_Overlaps p o = Ok b ∧
    (b = true ↔ z (p_ip p) = z (p_ip o) ∧
      net w m (addr_val (p_ip p)) = net w m (addr_val (p_ip o))).
Proof.
  intros Hp Ho Hvp Hvo w m. destruct (wf_prefix_bits p Hp Hvp) as [Hnp Hbp].
  destruct (wf_prefix_bits o Ho Hvo) as [Hno Hbo].
  pose proof Hp as (Hwp&Hzp&_). pose proof Ho as (Hwo&Hzo&_).
  unfold Prefix_Overlaps. rewrite Hvp, Hvo. cbn [negb orb].
  destruct (bool_decide_reflect (p = o)) as [->|Hne]; [by exists true|].
  destruct (Bool.eqb (Addr_Is4 (p_ip p)) (Addr_Is4 (p_ip o))) eqn:E4; cbn [negb]; cycle 1.
  { exists false. split; [done|]. split; [done|]. intros [E _].
    unfold Addr_Is4 in E4. rewrite E, Bool.eqb_reflx in E4. done. }
  assert (Ez : z (p_ip p) = z (p_ip o)).
  { apply Bool.eqb_prop in E4. unfold Addr_Is4 in E4.
    destruct (zoneless _ Hzp) as [H|[H|H]], (zoneless _ Hzo) as [H'|[H'|H']];
      rewrite H, H' in *; try done; by vm_compute in E4. }
  assert (EB : Addr_BitLen (p_ip o) = w) by (unfold w, Addr_BitLen; by rewrite Ez).
  rewrite EB in *.
  replace (if Prefix_Bits p <? Prefix_Bits o then Prefix_Bits p else Prefix_Bits o) with m
    by (unfold m; destruct (Z.ltb_spec (Prefix_Bits p) (Prefix_Bits o)); lia).
  assert (0 <= m <= w) by (unfold m, w in *; lia).
  destruct (Z.eqb_spec m 0) as [Em|Em].
  { exists true. split; [done|]. split; [intros _|done]. split; [done|]. rewrite Em.
    apply net_zero; [unfold w; apply BitLen_range|by apply addr_val_bound|].
    rewrite <- EB. by apply addr_val_bound. }
  destruct (Addr_Prefix_ok (p_ip p) m Hwp Hnp) as (q&->&Hwq&Hzq&Hvq); [done|].
  destruct (Addr_Prefix_ok (p_ip o) m Hwo Hno) as (r&->&Hwr&Hzr&Hvr); [lia|].
  cbn [p_ip]. eexists. split; [done|]. rewrite bool_decide_eq_true.
  rewrite (withoutZone_id _ Hzp) in Hzq. rewrite (withoutZone_id _ Hzo) in Hzr.
  rewrite EB in Hvr. fold w in Hvq.
  rewrite <- (masked_net_eq w m) by done. rewrite <- Hvq, <- Hvr. split.
  - intros ->. done.
  - intros [_ E]. apply addr_val_inj; [done|done|congruence|done].
Qed.
Lemma overlaps_common p o : wf_prefix p → wf_prefix o →
  ∃ b, Prefix_Overlaps p o = Ok b ∧
    (b = true ↔ ∃ ip, wf_addr ip ∧ in_prefix p ip ∧ in_prefix o ip).
Proof.
  intros Hp Ho.
  destruct (Prefix_IsValid p) eqn:Hvp; cycle 1.
  { exists false. unfold Prefix_Overlaps. rewrite Hvp. split; [done|].
    split; [done|]. intros (ip&_&(E&_)&_). congruence. }
  destruct (Prefix_IsValid o) eqn:Hvo; cycle 1.
  { exists false. unfold Prefix_Overlaps. rewrite Hvp, Hvo. split; [done|].
    split; [done|]. intros (ip&_&_&(E&_)). congruence. }
  destruct (overlaps_net p o Hp Ho Hvp Hvo) as (b&Hb&Hiff).
  exists b. split; [done|]. rewrite Hiff. clear b Hb Hiff.
  destruct (wf_prefix_bits p Hp Hvp) as [Hnp Hbp].
  destruct (wf_prefix_bits o Ho Hvo) as [Hno Hbo].
  pose proof Hp as (Hwp&Hzp&_). pose proof Ho as (Hwo&Hzo&_).
  set (w := Addr_BitLen (p_ip p)) in *. split.
  - intros [Ez En].
    assert (EB : Addr_BitLen (p_ip o) = w) by (unfold w, Addr_BitLen; by rewrite Ez).
    destruct (decide (Prefix_Bits p <= Prefix_Bits o)).
    + exists (p_ip o). split; [done|]. split; [|by apply in_prefix_self].
      rewrite Z.min_l in En by done. by repeat split; [..|rewrite EB].
    + exists (p_ip p). split; [done|]. split; [by apply in_prefix_self|].
      rewrite Z.min_r in En by lia. by repeat split.
  - intros (ip&Hip&(_&Hzi&Hni&EB1&E1)&(_&_&_&EB2&E2)).
    assert (Ez1 : z ip = z (p_ip p)) by (by apply BitLen_zone).
    assert (Ez2 : z ip = z (p_ip o)) by (by apply BitLen_zone).
    split; [congruence|]. rewrite EB1 in *. fold w in E1, E2. rewrite <- EB2 in Hbo.
    set (m := Z.min _ _).
    transitivity (net w m (addr_val ip)).
    + symmetry. apply (net_mono w m (Prefix_Bits p)); unfold m; [lia..|exact E1].
    + apply (net_mono w m (Prefix_Bits o)); unfold m; [lia..|exact E2].
Qed.
