(* ===== verification/NetipText.v ===== *)
(** * net/netip/netip.go: text and binary forms

    Parsing and printing of [Addr], [AddrPort] and [Prefix], and their
    binary marshalling.  An index into a string or array that the source
    leaves to Go's bounds check is [at_]/[set_at] here and can panic; a
    buffer the source preallocates is the list of the bytes appended.

    A method with a pointer receiver that can leave it unchanged takes the
    old value and returns the new one with the outcome. *)
From S2P Require Import Prelude Strconv Uint128 NetipAddr NetipPrefix.

(** ** ParseAddr *)
(** The loop of parseIPv4 from index [i] on: [rest] is [s[i:]]. *)
Fixpoint parseIPv4_loop (s rest : bytes) (i : Z) (fields : list Z)
    (val pos digLen : Z) : res (list Z * Z * Z) :=
  match rest with
  | [] => Ok (fields, val, pos)
  | c :: rest' =>
      if (c >=? "0"%byte) && (c <=? "9"%byte) then
        if (digLen =? 1) && (val =? 0) then
          Err (ParseAddrError s [Lit "IPv4 field has octet with leading zero"%go] [])
        else
          let val := val * 10 + c - "0"%byte in
          if val >? 255 then
            Err (ParseAddrError s [Lit "IPv4 field has value >255"%go] [])
          else parseIPv4_loop s rest' (i + 1) fields val pos (digLen + 1)
      else if c =? "."%byte then
        empty ← (if (i =? 0) || (i =? len s - 1) then Ok true
                 else p ← at_ s (i - 1); Ok (p =? "."%byte));
        if empty : bool then
          Err (ParseAddrError s [Lit "IPv4 field must have at least one digit"%go] rest)
        else if pos =? 3 then
          Err (ParseAddrError s [Lit "IPv4 address too long"%go] [])
        else
          fields ← set_at fields pos (u8 val);
          parseIPv4_loop s rest' (i + 1) fields 0 (pos + 1) 0
      else Err (ParseAddrError s [Lit "unexpected character"%go] rest)
  end.
Definition parseIPv4 (s : bytes) : res Addr :=
  '(fields, val, pos) ← parseIPv4_loop s s 0 [0; 0; 0; 0] 0 0 0;
  if pos <? 3 then Err (ParseAddrError s [Lit "IPv4 address too short"%go] [])
  else
    fields ← set_at fields 3 (u8 val);
    Ok (AddrFrom4 fields).

(** [err.Error()] of a parse failure. *)
Fixpoint Error_text (e : error) : emsg :=
  match e with
  | ParseAddrError i m a =>
      [Lit "ParseAddr("%go; Quote i; Lit "): "%go] ++ m ++
      match a with [] => [] | _ => [Lit " (at "%go; Quote a; Lit ")"%go] end
  | ErrorString m => m
  | NumError f n e' =>
      [Lit "strconv."%go; Lit f; Lit ": parsing "%go; Quote n; Lit ": "%go]
      ++ Error_text e'
  | AddrError e a => match a with [] => [Lit e] | _ => [Lit "address "%go; Lit a; Lit ": "%go; Lit e] end
  | ParseError t x => [Lit "invalid "%go; Lit t; Lit ": "%go; Lit x]
  | DNSError e n s _ _ _ =>
      [Lit "lookup "%go; Lit n] ++ match s with [] => [] | _ => [Lit " on "%go; Lit s] end ++ [Lit ": "%go; Lit e]
  | nestedError s e' => [Lit s; Lit ": "%go] ++ Error_text e'
  | Var _ t => [Lit t]
  | Foreign t _ _ _ _ => [Lit t]
  end.

(** The hex digits at the front of [s]: their number and value, or [None]
    when the value exceeds 16 bits. *)
Fixpoint parseIPv6_hex (s : bytes) (off acc : Z) : option (Z * Z) :=
  match s with
  | [] => Some (off, acc)
  | c :: s =>
      let continue acc :=
        if acc >? 0xffff then None else parseIPv6_hex s (off + 1) acc in
      if (c >=? "0"%byte) && (c <=? "9"%byte)
      then continue (u32 (u32 (Z.shiftl acc 4) + (c - "0"%byte)))
      else if (c >=? "a"%byte) && (c <=? "f"%byte)
      then continue (u32 (u32 (Z.shiftl acc 4) + (c - "a"%byte + 10)))
      else if (c >=? "A"%byte) && (c <=? "F"%byte)
      then continue (u32 (u32 (Z.shiftl acc 4) + (c - "A"%byte + 10)))
      else Some (off, acc)
  end.

(** The variables of parseIPv6's main loop. *)
Record p6 : Set := P6 { p6_i : Z; p6_ellipsis : Z; p6_ip : bytes; p6_s : bytes }.
Inductive flow : Set := Break (st : p6) | Continue (st : p6).

(** One iteration of the main loop. *)
Definition parseIPv6_body (in_ : bytes) (st : p6) : res flow :=
  let '(P6 i ellipsis ip s) := st in
  let fail msg := Err (ParseAddrError in_ [Lit msg] s) in
  match parseIPv6_hex s 0 0 with
  | None => fail "IPv6 field has value >=2^16"%go
  | Some (off, acc) =>
      if off =? 0 then
        fail "each colon-separated field must have at least one digit"%go
      else
        dot ← (if off <? len s then c ← at_ s off; Ok (c =? "."%byte) else Ok false);
        if dot : bool then
          if (ellipsis <? 0) && negb (i =? 12) then
            fail "embedded IPv4 address must replace the final 2 fields of the address"%go
          else if i + 4 >? 16 then
            fail "too many hex fields to fit an embedded IPv4 at the end of the address"%go
          else
            match parseIPv4 s with
            | Panic p => Panic p
            | Err err => Err (ParseAddrError in_ (Error_text err) s)
            | Ok ip4 =>
                ip ← set_at ip i (v4 ip4 0);
                ip ← set_at ip (i + 1) (v4 ip4 1);
                ip ← set_at ip (i + 2) (v4 ip4 2);
                ip ← set_at ip (i + 3) (v4 ip4 3);
                Ok (Break (P6 (i + 4) ellipsis ip []))
            end
        else
          ip ← set_at ip i (u8 (Z.shiftr acc 8));
          ip ← set_at ip (i + 1) (u8 acc);
          let i := i + 2 in
          s ← from s off;
          if len s =? 0 then Ok (Break (P6 i ellipsis ip s))
          else
            let fail msg := Err (ParseAddrError in_ [Lit msg] s) in
            c ← at_ s 0;
            if negb (c =? ":"%byte) then fail "unexpected character, want colon"%go
            else if len s =? 1 then
              fail "colon must be followed by more characters"%go
            else
              s ← from s 1;
              let fail msg := Err (ParseAddrError in_ [Lit msg] s) in
              c ← at_ s 0;
              if c =? ":"%byte then
                if ellipsis >=? 0 then fail "multiple :: in address"%go
                else
                  s ← from s 1;
                  if len s =? 0 then Ok (Break (P6 i i ip s))
                  else Ok (Continue (P6 i i ip s))
              else Ok (Continue (P6 i ellipsis ip s))
  end.

(** [for i < 16]: the index grows by two at each turn, so nine turns are
    enough (NetipRoundtrip.parseIPv6_loop_safe: it never runs out). *)
Fixpoint parseIPv6_loop (fuel : nat) (in_ : bytes) (st : p6) : res p6 :=
  match fuel with
  | O => Panic []
  | S fuel =>
      if p6_i st <? 16 then
        f ← parseIPv6_body in_ st;
        match f with
        | Break st => Ok st
        | Continue st => parseIPv6_loop fuel in_ st
        end
      else Ok st
  end.

(** [for j := i - 1; j >= ellipsis; j-- { ip[j+n] = ip[j] }], [count] turns. *)
Fixpoint expand_move (count : nat) (ip : bytes) (j n : Z) : res bytes :=
  match count with
  | O => Ok ip
  | S count =>
      b ← at_ ip j;
      ip ← set_at ip (j + n) b;
      expand_move count ip (j - 1) n
  end.
(** [for j := ellipsis + n - 1; j >= ellipsis; j-- { ip[j] = 0 }]. *)
Fixpoint expand_zero (count : nat) (ip : bytes) (j : Z) : res bytes :=
  match count with
  | O => Ok ip
  | S count => ip ← set_at ip j 0; expand_zero count ip (j - 1)
  end.

(** parseIPv6 after its main loop: the whole string must be used, and a
    missing part is filled at the ellipsis. *)
Definition parseIPv6_finish (in_ zone : bytes) (st : p6) : res Addr :=
  let '(P6 i ellipsis ip s) := st in
  if negb (len s =? 0) then
    Err (ParseAddrError in_ [Lit "trailing garbage after address"%go] s)
  else if i <? 16 then
    if ellipsis <? 0 then
      Err (ParseAddrError in_ [Lit "address string too short"%go] [])
    else
      let n := 16 - i in
      ip ← expand_move (Z.to_nat (i - ellipsis)) ip (i - 1) n;
      ip ← expand_zero (Z.to_nat n) ip (ellipsis + n - 1);
      Ok (Addr_WithZone (AddrFrom16 ip) zone)
  else if ellipsis >=? 0 then
    Err (ParseAddrError in_
      [Lit "the :: must expand to at least one field of zeros"%go] [])
  else Ok (Addr_WithZone (AddrFrom16 ip) zone).
(** parseIPv6 after the zone has been split off. *)
Definition parseIPv6_addr (in_ s zone : bytes) : res Addr :=
  lead ← (if len s >=? 2 then
            c0 ← at_ s 0; c1 ← at_ s 1; Ok ((c0 =? ":"%byte) && (c1 =? ":"%byte))
          else Ok false);
  s1 ← (if lead : bool then from s 2 else Ok s);
  if lead && (len s1 =? 0) then Ok (Addr_WithZone IPv6Unspecified zone)
  else
    st ← parseIPv6_loop 9 in_ (P6 0 (if lead then 0 else -1) (replicate 16 0) s1);
    parseIPv6_finish in_ zone st.
Definition parseIPv6 (in_ : bytes) : res Addr :=
  let i := IndexByteString in_ "%"%byte in
  if negb (i =? -1) then
    s ← upto in_ i;
    zone ← from in_ (i + 1);
    if beq zone [] then
      Err (ParseAddrError in_ [Lit "zone must be a non-empty string"%go] [])
    else parseIPv6_addr in_ s zone
  else parseIPv6_addr in_ in_ [].

Fixpoint ParseAddr_loop (s rest : bytes) : res Addr :=
  match rest with
  | [] => Err (ParseAddrError s [Lit "unable to parse IP"%go] [])
  | c :: rest =>
      if c =? "."%byte then parseIPv4 s
      else if c =? ":"%byte then parseIPv6 s
      else if c =? "%"%byte then
        Err (ParseAddrError s [Lit "missing IPv6 address"%go] [])
      else ParseAddr_loop s rest
  end.
Definition ParseAddr (s : bytes) : res Addr := ParseAddr_loop s s.

(** ** String and friends *)
Definition hexdigits : bytes := "0123456789abcdef"%go.
(** [digits[k]]; [k] is below 16 in every use. *)
Definition digit_at (k : Z) : Z := nth (Z.to_nat k) hexdigits 0.

Definition appendDecimal (b : bytes) (x : Z) : bytes :=
  let b := if x >=? 100 then b ++ [digit_at (x / 100)] else b in
  let b := if x >=? 10 then b ++ [digit_at (x / 10 mod 10)] else b in
  b ++ [digit_at (x mod 10)].
Definition appendHex (b : bytes) (x : Z) : bytes :=
  let b := if x >=? 0x1000 then b ++ [digit_at (Z.shiftr x 12)] else b in
  let b := if x >=? 0x100 then b ++ [digit_at (Z.land (Z.shiftr x 8) 0xf)] else b in
  let b := if x >=? 0x10 then b ++ [digit_at (Z.land (Z.shiftr x 4) 0xf)] else b in
  b ++ [digit_at (Z.land x 0xf)].
Definition appendHexPad (b : bytes) (x : Z) : bytes :=
  b ++ [digit_at (Z.shiftr x 12); digit_at (Z.land (Z.shiftr x 8) 0xf);
        digit_at (Z.land (Z.shiftr x 4) 0xf); digit_at (Z.land x 0xf)].

Definition appendTo4 (ip : Addr) (ret : bytes) : bytes :=
  let ret := appendDecimal ret (v4 ip 0) in
  let ret := ret ++ "."%go in
  let ret := appendDecimal ret (v4 ip 1) in
  let ret := ret ++ "."%go in
  let ret := appendDecimal ret (v4 ip 2) in
  let ret := ret ++ "."%go in
  appendDecimal ret (v4 ip 3).
Definition string4 (ip : Addr) : bytes := appendTo4 ip [].

(** [for j < 8 && ip.v6u16(j) == 0 { j++ }], from [j]. *)
Fixpoint zero_run (fuel : nat) (ip : Addr) (j : Z) : Z :=
  match fuel with
  | O => j
  | S fuel => if (j <? 8) && (v6u16 ip j =? 0) then zero_run fuel ip (u8 (j + 1)) else j
  end.
(** The first loop of appendTo6: the longest run of at least two zero words. *)
Fixpoint longest_run (fuel : nat) (ip : Addr) (i zeroStart zeroEnd : Z) : Z * Z :=
  match fuel with
  | O => (zeroStart, zeroEnd)
  | S fuel =>
      if i <? 8 then
        let j := zero_run 8 ip i in
        let l := u8 (j - i) in
        if (l >=? 2) && (l >? u8 (zeroEnd - zeroStart))
        then longest_run fuel ip (u8 (i + 1)) i j
        else longest_run fuel ip (u8 (i + 1)) zeroStart zeroEnd
      else (zeroStart, zeroEnd)
  end.
(** The second loop of appendTo6. *)
Fixpoint emit6 (fuel : nat) (ip : Addr) (i zeroStart zeroEnd : Z) (ret : bytes) : bytes :=
  match fuel with
  | O => ret
  | S fuel =>
      if i <? 8 then
        if i =? zeroStart then
          let ret := ret ++ "::"%go in
          let i := zeroEnd in
          if i >=? 8 then ret
          else emit6 fuel ip (u8 (i + 1)) zeroStart zeroEnd (appendHex ret (v6u16 ip i))
        else
          let ret := if i >? 0 then ret ++ ":"%go else ret in
          emit6 fuel ip (u8 (i + 1)) zeroStart zeroEnd (appendHex ret (v6u16 ip i))
      else ret
  end.
Definition appendTo6 (ip : Addr) (ret : bytes) : bytes :=
  let '(zeroStart, zeroEnd) := longest_run 8 ip 0 255 255 in
  let ret := emit6 8 ip 0 zeroStart zeroEnd ret in
  if negb (bool_decide (z ip = z6noz)) then (ret ++ "%"%go) ++ Addr_Zone ip else ret.
Definition string6 (ip : Addr) : bytes := appendTo6 ip [].

Definition Addr_String (ip : Addr) : bytes :=
  match z ip with
  | z0 => "invalid IP"%go
  | z4 => string4 ip
  | _ =>
      if Addr_Is4In6 ip then
        let z := Addr_Zone ip in
        if negb (beq z [])
        then (("::ffff:"%go ++ string4 (Addr_Unmap ip)) ++ "%"%go) ++ z
        else "::ffff:"%go ++ string4 (Addr_Unmap ip)
      else string6 ip
  end.
Definition Addr_AppendTo (ip : Addr) (b : bytes) : bytes :=
  match z ip with
  | z0 => b
  | z4 => appendTo4 ip b
  | _ =>
      if Addr_Is4In6 ip then
        let b := b ++ "::ffff:"%go in
        let b := appendTo4 (Addr_Unmap ip) b in
        let z := Addr_Zone ip in
        if negb (beq z []) then (b ++ "%"%go) ++ z else b
      else appendTo6 ip b
  end.

Fixpoint expanded_loop (fuel : nat) (ip : Addr) (i : Z) (ret : bytes) : bytes :=
  match fuel with
  | O => ret
  | S fuel =>
      if i <? 8 then
        let ret := if i >? 0 then ret ++ ":"%go else ret in
        expanded_loop fuel ip (u8 (i + 1)) (appendHexPad ret (v6u16 ip i))
      else ret
  end.
Definition StringExpanded (ip : Addr) : bytes :=
  match z ip with
  | z0 | z4 => Addr_String ip
  | _ =>
      let ret := expanded_loop 8 ip 0 [] in
      if negb (bool_decide (z ip = z6noz)) then (ret ++ "%"%go) ++ Addr_Zone ip else ret
  end.

Definition Addr_MarshalText (ip : Addr) : bytes :=
  match z ip with
  | z0 => []
  | z4 => appendTo4 ip []
  | _ =>
      if Addr_Is4In6 ip then
        let b := appendTo4 (Addr_Unmap ip) "::ffff:"%go in
        let z := Addr_Zone ip in
        if negb (beq z []) then (b ++ "%"%go) ++ z else b
      else appendTo6 ip []
  end.
(** The assignment [*ip, err = ParseAddr(...)] stores the zero Addr when the
    parse fails. *)
Definition Addr_UnmarshalText (ip : Addr) (text : bytes) : Addr * res unit :=
  match text with
  | [] => (zeroAddr, Ok tt)
  | _ =>
      match ParseAddr text with
      | Ok a => (a, Ok tt)
      | Err e => (zeroAddr, Err e)
      | Panic p => (ip, Panic p)
      end
  end.

(** ** Binary marshalling of Addr *)
Definition marshalBinaryWithTrailingBytes (ip : Addr) (trailingBytes : nat) : bytes :=
  match z ip with
  | z0 => replicate trailingBytes 0
  | z4 => bePutUint32 (u32 (lo (addr ip))) ++ replicate trailingBytes 0
  | _ =>
      (bePutUint64 (hi (addr ip)) ++ bePutUint64 (lo (addr ip)) ++ Addr_Zone ip)
      ++ replicate trailingBytes 0
  end.
Definition Addr_MarshalBinary (ip : Addr) : bytes := marshalBinaryWithTrailingBytes ip 0.
Definition Addr_UnmarshalBinary (ip : Addr) (b : bytes) : Addr * res unit :=
  let n := len b in
  if n =? 0 then (zeroAddr, Ok tt)
  else if n =? 4 then (AddrFrom4 b, Ok tt)
  else if n =? 16 then (AddrFrom16 b, Ok tt)
  else if n >? 16 then
    (Addr_WithZone (AddrFrom16 (take 16 b)) (drop 16 b), Ok tt)
  else (ip, Err (New "unexpected slice size"%go)).

(** ** AddrPort *)
Definition splitAddrPort (s : bytes) : res (bytes * bytes * bool) :=
  let i := LastIndexByteString s ":"%byte in
  if i =? -1 then Err (New "not an ip:port"%go)
  else
    ip ← upto s i;
    port ← from s (i + 1);
    if len ip =? 0 then Err (New "no IP"%go)
    else if len port =? 0 then Err (New "no port"%go)
    else
      c ← at_ ip 0;
      if c =? "["%byte then
        closed ← (if len ip <? 2 then Ok false
                  else l ← at_ ip (len ip - 1); Ok (l =? "]"%byte));
        if negb closed then Err (New "missing ]"%go)
        else ip ← slice ip 1 (len ip - 1); Ok (ip, port, true)
      else Ok (ip, port, false).

Definition ParseAddrPort (s : bytes) : res AddrPort :=
  '(ip, port, v6) ← splitAddrPort s;
  match ParseUint port 10 16 with
  | (_, Some _) =>
      Err (ErrorString [Lit "invalid port "%go; Quote port; Lit " parsing "%go; Quote s])
  | (port16, None) =>
      a ← ParseAddr ip;
      if v6 && Addr_Is4 a then
        Err (ErrorString [Lit "invalid ip:port "%go; Quote s;
          Lit ", square brackets can only be used with IPv6 addresses"%go])
      else if negb v6 && Addr_Is6 a then
        Err (ErrorString [Lit "invalid ip:port "%go; Quote s;
          Lit ", IPv6 addresses must be surrounded by square brackets"%go])
      else Ok (MkAddrPort a (u16 port16))
  end.

Definition AddrPort_String (p : AddrPort) : res bytes :=
  match z (ap_ip p) with
  | z0 => Ok "invalid AddrPort"%go
  | z4 =>
      let buf := appendTo4 (ap_ip p) [] in
      let buf := buf ++ ":"%go in
      AppendUint buf (ap_port p) 10
  | _ =>
      port ← Uitoa (ap_port p);
      Ok ((("["%go ++ Addr_String (ap_ip p)) ++ "]:"%go) ++ port)
  end.
Definition AddrPort_AppendTo (p : AddrPort) (b : bytes) : res bytes :=
  let finish b := AppendUint (b ++ ":"%go) (ap_port p) 10 in
  match z (ap_ip p) with
  | z0 => Ok b
  | z4 => finish (appendTo4 (ap_ip p) b)
  | _ =>
      let b :=
        if Addr_Is4In6 (ap_ip p) then
          let b := b ++ "[::ffff:"%go in
          let b := appendTo4 (Addr_Unmap (ap_ip p)) b in
          let z := Addr_Zone (ap_ip p) in
          if negb (beq z []) then (b ++ "%"%go) ++ z else b
        else appendTo6 (ap_ip p) (b ++ "["%go) in
      finish (b ++ "]"%go)
  end.
Definition AddrPort_MarshalText (p : AddrPort) : res bytes := AddrPort_AppendTo p [].
Definition AddrPort_UnmarshalText (p : AddrPort) (text : bytes) : AddrPort * res unit :=
  match text with
  | [] => (zeroAddrPort, Ok tt)
  | _ =>
      match ParseAddrPort text with
      | Ok a => (a, Ok tt)
      | Err e => (zeroAddrPort, Err e)
      | Panic s => (p, Panic s)
      end
  end.
Definition AddrPort_MarshalBinary (p : AddrPort) : bytes :=
  let b := marshalBinaryWithTrailingBytes (AddrPort_Addr p) 2 in
  take (length b - 2) b ++ lePutUint16 (AddrPort_Port p).
Definition AddrPort_UnmarshalBinary (p : AddrPort) (b : bytes) : AddrPort * res unit :=
  if len b <? 2 then (p, Err (New "unexpected slice size"%go))
  else
    match Addr_UnmarshalBinary zeroAddr (take (length b - 2) b) with
    | (addr, Ok _) => (AddrPortFrom addr (leUint16 (drop (length b - 2) b)), Ok tt)
    | (_, e) => (p, e)
    end.

(** ** Prefix *)
Definition parsePrefix_error (s : bytes) (m : emsg) : error :=
  ErrorString ([Lit "netip.ParsePrefix("%go; Quote s; Lit "): "%go] ++ m).
Definition ParsePrefix (s : bytes) : res Prefix :=
  let i := LastIndexByteString s "/"%byte in
  if i <? 0 then Err (parsePrefix_error s [Lit "no '/'"%go])
  else
    a ← upto s i;
    match ParseAddr a with
    | Panic p => Panic p
    | Err err => Err (parsePrefix_error s (Error_text err))
    | Ok ip =>
        if Addr_Is6 ip && negb (bool_decide (z ip = z6noz)) then
          Err (parsePrefix_error s [Lit "IPv6 zones cannot be present in a prefix"%go])
        else
          bitsStr ← from s (i + 1);
          let bad := Err (parsePrefix_error s
                       [Lit "bad bits after slash: "%go; Quote bitsStr]) in
          lead ← (if len bitsStr >? 1
                  then c ← at_ bitsStr 0; Ok ((c <? "1"%byte) || (c >? "9"%byte))
                  else Ok false);
          if lead : bool then bad
          else
            match Atoi bitsStr with
            | (_, Some _) => bad
            | (bits, None) =>
                let maxBits := if Addr_Is6 ip then 128 else 32 in
                if (bits <? 0) || (bits >? maxBits) then
                  Err (parsePrefix_error s [Lit "prefix length out of range"%go])
                else Ok (PrefixFrom ip bits)
            end
    end.

Definition Prefix_AppendTo (p : Prefix) (b : bytes) : bytes :=
  if Prefix_isZero p then b
  else if negb (Prefix_IsValid p) then b ++ "invalid Prefix"%go
  else
    let b :=
      if bool_decide (z (p_ip p) = z4) then appendTo4 (p_ip p) b
      else if Addr_Is4In6 (p_ip p) then
        appendTo4 (Addr_Unmap (p_ip p)) (b ++ "::ffff:"%go)
      else appendTo6 (p_ip p) b in
    let b := b ++ "/"%go in
    appendDecimal b (u8 (Prefix_Bits p)).
Definition Prefix_MarshalText (p : Prefix) : bytes := Prefix_AppendTo p [].
Definition Prefix_UnmarshalText (p : Prefix) (text : bytes) : Prefix * res unit :=
  match text with
  | [] => (zeroPrefix, Ok tt)
  | _ =>
      match ParsePrefix text with
      | Ok a => (a, Ok tt)
      | Err e => (zeroPrefix, Err e)
      | Panic s => (p, Panic s)
      end
  end.
Definition Prefix_MarshalBinary (p : Prefix) : bytes :=
  let b := marshalBinaryWithTrailingBytes (withoutZone (Prefix_Addr p)) 1 in
  <[(length b - 1)%nat := u8 (Prefix_Bits p)]> b.
Definition Prefix_UnmarshalBinary (p : Prefix) (b : bytes) : Prefix * res unit :=
  if len b <? 1 then (p, Err (New "unexpected slice size"%go))
  else
    match Addr_UnmarshalBinary zeroAddr (take (length b - 1) b) with
    | (addr, Ok _) => (PrefixFrom addr (nth (length b - 1) b 0), Ok tt)
    | (_, e) => (p, e)
    end.
Definition Prefix_String (p : Prefix) : res bytes :=
  if negb (Prefix_IsValid p) then Ok "invalid Prefix"%go
  else
    bits ← Itoa (Prefix_Bits p);
    Ok ((Addr_String (p_ip p) ++ "/"%go) ++ bits).
