(* ===== verification/NetipRoundtrip.v ===== *)
(** * net/netip: what is printed is parsed back

    Printing and parsing of the number fields, the main loop of parseIPv6 on
    printed words, the zero run chosen by appendTo6, and the round trips of
    the text and binary forms of [Addr], [AddrPort] and [Prefix]. *)
From S2P Require Import Prelude Strconv Uint128 NetipAddr NetipPrefix NetipText.

(** ** Decimal fields *)
Definition dec (x : Z) : bytes := appendDecimal [] x.
Definition hex (x : Z) : bytes := appendHex [] x.

Lemma appendDecimal_app b x : appendDecimal b x = b ++ dec x.
Proof.
  unfold dec, appendDecimal. destruct (x >=? 100), (x >=? 10);
    rewrite ?app_nil_l, <- ?app_assoc; done.
Qed.
Lemma appendHex_app b x : appendHex b x = b ++ hex x.
Proof.
  unfold hex, appendHex. destruct (x >=? 0x1000), (x >=? 0x100), (x >=? 0x10);
    rewrite ?app_nil_l, <- ?app_assoc; done.
Qed.
(** The sixteen digits, case by case. *)
Lemma below_16 k : 0 <= k < 16 → k = 0 ∨ k = 1 ∨ k = 2 ∨ k = 3 ∨ k = 4 ∨ k = 5 ∨ k = 6
  ∨ k = 7 ∨ k = 8 ∨ k = 9 ∨ k = 10 ∨ k = 11 ∨ k = 12 ∨ k = 13 ∨ k = 14 ∨ k = 15.
Proof. lia. Qed.
Ltac digit_cases k :=
  let H := fresh in
  pose proof (below_16 k ltac:(lia)) as H;
  repeat (destruct H as [H|H]); rewrite H in *; clear H.
Lemma digit_at_dec k : 0 <= k < 10 → digit_at k = "0"%byte + k.
Proof. intros. digit_cases k; try reflexivity; lia. Qed.

(** The shape of [dec x]: some leading digits and the last one. *)
Lemma dec_last x : 0 <= x < 256 → ∃ l, dec x = l ++ [digit_at (x mod 10)].
Proof. intros. unfold dec, appendDecimal. eexists. reflexivity. Qed.
Lemma dec_nonempty x : dec x ≠ [].
Proof. unfold dec, appendDecimal. intros E%(f_equal length). rewrite length_app in E. simpl in E. lia. Qed.

(** One digit of the loop of parseIPv4. *)
Lemma v4_digit s rest i f v pos dl k :
  0 <= k < 10 → ¬ (dl = 1 ∧ v = 0) → v * 10 + k <= 255 →
  parseIPv4_loop s (digit_at k :: rest) i f v pos dl
  = parseIPv4_loop s rest (i + 1) f (v * 10 + k) pos (dl + 1).
Proof.
  intros Hk Hz Hv. rewrite digit_at_dec by done. cbn [parseIPv4_loop].
  rewrite Z.geb_leb, !(proj2 (Z.leb_le _ _)) by lia. cbn [andb].
  replace ((dl =? 1) && (v =? 0)) with false
    by (destruct (Z.eqb_spec dl 1), (Z.eqb_spec v 0); simpl; try done; exfalso; auto).
  replace (v * 10 + (48 + k) - 48) with (v * 10 + k) by lia.
  rewrite Z.gtb_ltb, (proj2 (Z.ltb_ge _ _)) by lia. done.
Qed.
(** A whole decimal field. *)
Lemma v4_field s rest i f pos x : 0 <= x < 256 →
  parseIPv4_loop s (dec x ++ rest) i f 0 pos 0
  = parseIPv4_loop s rest (i + len (dec x)) f x pos (len (dec x)).
Proof.
  intros Hx. unfold dec, appendDecimal. rewrite !Z.geb_leb.
  destruct (Z.leb_spec 100 x), (Z.leb_spec 10 x); try lia; cbn [app];
    unfold len; simpl length; rewrite !v4_digit by zwlia; f_equal; zwlia.
Qed.
(** A dot after a digit. *)
Lemma v4_dot s pre d rest f v pos dl :
  s = pre ++ d :: "."%byte :: rest → d ≠ "."%byte → rest ≠ [] →
  0 <= pos < 3 → len f = 4 →
  parseIPv4_loop s ("."%byte :: rest) (len pre + 1) f v pos dl
  = parseIPv4_loop s rest (len pre + 2) (<[Z.to_nat pos := u8 v]> f) 0 (pos + 1) 0.
Proof.
  intros Hs Hd Hr Hp Hf. cbn [parseIPv4_loop].
  change (("."%byte >=? "0"%byte) && ("."%byte <=? "9"%byte)) with false. cbv iota.
  rewrite Z.eqb_refl. pose proof (len_nonneg pre).
  rewrite (proj2 (Z.eqb_neq (len pre + 1) 0)) by lia.
  assert (len s = len pre + 2 + len rest) as Hl.
  { rewrite Hs, len_app, !len_cons. lia. }
  assert (0 < len rest) by (unfold len; destruct rest; simpl; [done|lia]).
  rewrite (proj2 (Z.eqb_neq (len pre + 1) (len s - 1))) by lia. cbn [orb].
  replace (len pre + 1 - 1) with (len pre) by lia.
  rewrite Hs at 1. rewrite at_app_len. cbn [mbind res_bind].
  rewrite (proj2 (Z.eqb_neq d "."%byte)) by done.
  rewrite (proj2 (Z.eqb_neq pos 3)) by lia.
  rewrite set_at_ok by lia. cbn [mbind res_bind]. f_equal. lia.
Qed.

(** ** Dotted quads *)
Definition dotted (a0 a1 a2 a3 : Z) : bytes :=
  dec a0 ++ "."%byte :: dec a1 ++ "."%byte :: dec a2 ++ "."%byte :: dec a3.
Lemma string4_dotted h zz a0 a1 a2 a3 b : is_bytes [a0; a1; a2; a3] →
  appendTo4 (MkAddr (U128 h (v4_lo a0 a1 a2 a3)) zz) b = b ++ dotted a0 a1 a2 a3.
Proof.
  intros Ha. destruct (v4_v4_lo h zz _ _ _ _ Ha) as (E0&E1&E2&E3).
  unfold appendTo4. rewrite E0, E1, E2, E3, !appendDecimal_app.
  unfold dotted. rewrite <- !app_assoc. done.
Qed.
(** Field [x] at offset [len pre], then a dot. *)
Lemma v4_field_dot s pre rest f pos x :
  s = pre ++ dec x ++ "."%byte :: rest → rest ≠ [] → 0 <= x < 256 →
  0 <= pos < 3 → len f = 4 →
  parseIPv4_loop s (dec x ++ "."%byte :: rest) (len pre) f 0 pos 0
  = parseIPv4_loop s rest (len (pre ++ dec x) + 1)
      (<[Z.to_nat pos := x]> f) 0 (pos + 1) 0.
Proof.
  intros Hs Hr Hx Hp Hf. rewrite v4_field by done.
  destruct (dec_last x Hx) as [l El]. rewrite El in Hs |- *.
  assert (Hd : digit_at (x mod 10) ≠ "."%byte) by (rewrite digit_at_dec; zwlia).
  pose proof (v4_dot s (pre ++ l) (digit_at (x mod 10)) rest f x pos
    (len (l ++ [digit_at (x mod 10)]))) as Hdot.
  rewrite u8_id in Hdot by (unfold is_u8; lia).
  replace (len pre + len (l ++ [digit_at (x mod 10)])) with (len (pre ++ l) + 1)
    by (rewrite !len_app; unfold len; simpl; lia).
  rewrite Hdot; try done.
  - f_equal. rewrite !len_app. unfold len. simpl. lia.
  - rewrite Hs, <- !app_assoc. done.
Qed.
Lemma parseIPv4_dotted a0 a1 a2 a3 : is_bytes [a0; a1; a2; a3] →
  parseIPv4 (dotted a0 a1 a2 a3) = Ok (AddrFrom4 [a0; a1; a2; a3]).
Proof.
  unfold is_bytes. rewrite !list.Forall_cons. intros (H0&H1&H2&H3&_).
  unfold is_u8 in *. unfold parseIPv4.
  set (s := dotted a0 a1 a2 a3). pose (t0 := dec a0 ++ ["."%byte]).
  pose (t1 := t0 ++ dec a1 ++ ["."%byte]). pose (t2 := t1 ++ dec a2 ++ ["."%byte]).
  assert (app_ne : ∀ x (l : bytes), dec x ++ l ≠ []).
  { intros x l E. by apply app_eq_nil in E as [?%dec_nonempty _]. }
  change (parseIPv4_loop s s) with (parseIPv4_loop s (dotted a0 a1 a2 a3)).
  unfold dotted.
  pose proof (v4_field_dot s [] (dec a1 ++ "."%byte :: dec a2 ++ "."%byte :: dec a3)
    [0; 0; 0; 0] 0 a0) as Hf. change (len []) with 0 in Hf.
  rewrite Hf by (done || apply app_ne). clear Hf.
  replace (len ([] ++ dec a0) + 1) with (len t0) by (unfold t0; rewrite len_app; done).
  rewrite (v4_field_dot s t0 _ _ 1 a1)
    by (done || apply app_ne || (unfold s, dotted, t0; by rewrite <- !app_assoc)).
  replace (len (t0 ++ dec a1) + 1) with (len t1)
    by (unfold t1; rewrite !len_app; unfold len; simpl; lia).
  rewrite (v4_field_dot s t1 _ _ 2 a2)
    by (done || apply dec_nonempty || (unfold s, dotted, t1, t0; by rewrite <- !app_assoc)).
  replace (dec a3) with (dec a3 ++ []) by apply app_nil_r.
  rewrite v4_field by done. cbn [parseIPv4_loop mbind res_bind].
  rewrite set_at_ok by done. cbn [mbind res_bind].
  rewrite u8_id by done. done.
Qed.

(** ** Hexadecimal words *)
Lemma digit_at_not k c : 0 <= k < 16 → c = ":"%byte ∨ c = "."%byte ∨ c = "%"%byte ∨ c = "/"%byte →
  digit_at k ≠ c.
Proof.
  intros Hk Hc. digit_cases k; destruct Hc as [-> |[-> |[-> | ->]]]; discriminate.
Qed.

(** Evaluate the range tests of a constant character. *)
Ltac decide_bools :=
  repeat match goal with
  | |- context [if (?x >=? ?y) && (?x <=? ?w) then _ else _] =>
      let b := constr:((x >=? y) && (x <=? w)) in
      let v := eval vm_compute in b in
      lazymatch v with
      | true => change b with true | false => change b with false
      end; cbv iota
  end.
Lemma hex_step k s off acc : 0 <= k < 16 → 0 <= acc < 2 ^ 28 → acc * 16 + k <= 0xffff →
  parseIPv6_hex (digit_at k :: s) off acc = parseIPv6_hex s (off + 1) (acc * 16 + k).
Proof.
  intros Hk Ha Hv. assert (E : Z.shiftl acc 4 = acc * 16) by (rewrite Z.shiftl_mul_pow2; lia).
  digit_cases k;
    match goal with |- context [digit_at ?n] =>
      let d := eval vm_compute in (digit_at n) in change (digit_at n) with d end;
    cbn [parseIPv6_hex]; decide_bools; rewrite E, !(u32_id (acc * 16)) by (unfold is_u32; lia);
    match goal with |- context [u32 (acc * 16 + ?d)] =>
      let v := eval vm_compute in d in change d with v end;
    rewrite u32_id by (unfold is_u32; lia);
    rewrite Z.gtb_ltb, (proj2 (Z.ltb_ge _ _)) by lia; reflexivity.
Qed.
(** The digits stop at the end or at a byte that is not a hex digit. *)
Definition hex_stop (rest : bytes) : Prop :=
  match rest with [] => True | c :: _ => c = ":"%byte ∨ c = "."%byte end.
Lemma hex_stop_eq rest off acc : hex_stop rest → parseIPv6_hex rest off acc = Some (off, acc).
Proof. destruct rest as [|c rest]; [done|]. by intros [-> | ->]. Qed.

Lemma nibble x n : 0 <= n → Z.land (Z.shiftr x n) 0xf = x / 2 ^ n mod 16.
Proof.
  intros. change 0xf with (2 ^ 4 - 1). rewrite land_ones_mod, Z.shiftr_div_pow2 by lia. done.
Qed.
Lemma nibble0 x : Z.land x 0xf = x mod 16.
Proof. change 0xf with (2 ^ 4 - 1). by rewrite land_ones_mod. Qed.

Lemma hex_word w rest : is_u16 w → hex_stop rest →
  parseIPv6_hex (hex w ++ rest) 0 0 = Some (len (hex w), w).
Proof.
  unfold is_u16. intros Hw Hr. unfold hex, appendHex. rewrite !nibble, nibble0 by lia.
  rewrite Z.shiftr_div_pow2 by lia. rewrite !Z.geb_leb.
  destruct (Z.leb_spec 0x1000 w), (Z.leb_spec 0x100 w), (Z.leb_spec 0x10 w); try lia;
    cbn [app]; unfold len; simpl length;
    rewrite !hex_step by zwlia; rewrite hex_stop_eq by done; f_equal; f_equal; zwlia.
Qed.
Lemma hex_len_pos w : 0 < len (hex w).
Proof. unfold hex, appendHex, len. rewrite length_app. simpl. lia. Qed.
Lemma hex_chars w c : is_u16 w → In c (hex w) → ∃ k, 0 <= k < 16 ∧ c = digit_at k.
Proof.
  unfold is_u16. intros Hw. unfold hex, appendHex. rewrite !nibble, nibble0 by lia.
  rewrite Z.shiftr_div_pow2 by lia. rewrite !Z.geb_leb.
  destruct (Z.leb_spec 0x1000 w), (Z.leb_spec 0x100 w), (Z.leb_spec 0x10 w); try lia;
    cbn [app In]; intros Hin; repeat (destruct Hin as [<-|Hin]); try done;
    eexists; (split; [|reflexivity]); zwlia.
Qed.
Lemma hex_head w : ∃ k l, 0 <= k < 16 ∧ hex w = digit_at k :: l ∨ ¬ is_u16 w.
Proof.
  destruct (decide (0 <= w < 2 ^ 16)) as [Hw|Hw]; [|exists 0, []; by right].
  assert (hex w ≠ []) by (intros E; pose proof (hex_len_pos w); rewrite E in *; done).
  destruct (hex w) as [|c l] eqn:E; [done|].
  destruct (hex_chars w c) as (k&Hk&->); [exact Hw|rewrite E; by left|].
  exists k, l. by left.
Qed.

(** ** The main loop of parseIPv6 on printed words *)
Fixpoint join6 (ws : list Z) : bytes :=
  match ws with
  | [] => []
  | [w] => hex w
  | w :: ws => hex w ++ ":"%byte :: join6 ws
  end.
(** The array after the words [ws] have been stored. *)
Definition fill (ws : list Z) : bytes :=
  word_bytes ws ++ replicate (16 - 2 * length ws) 0.
Lemma word_bytes_len ws : length (word_bytes ws) = (2 * length ws)%nat.
Proof. induction ws as [|w ws IH]; [done|]. unfold word_bytes in *. simpl in *. lia. Qed.
Lemma word_bytes_app a b : word_bytes (a ++ b) = word_bytes a ++ word_bytes b.
Proof. unfold word_bytes. by rewrite map_app, concat_app. Qed.
Lemma fill_len ws : (length ws <= 8)%nat → length (fill ws) = 16%nat.
Proof. intros. unfold fill. rewrite length_app, length_replicate, word_bytes_len. lia. Qed.

Lemma set_at_app (l : bytes) x y v : set_at (l ++ x :: y) (len l) v = Ok (l ++ v :: y).
Proof.
  rewrite set_at_ok by (rewrite len_app, len_cons; pose proof (len_nonneg l);
    pose proof (len_nonneg y); lia).
  unfold len. rewrite Nat2Z.id, insert_app_r_alt, Nat.sub_diag by lia. done.
Qed.
Lemma fill_store ws w : (length ws < 8)%nat →
  (ip ← set_at (fill ws) (2 * len ws) (u8 (Z.shiftr w 8));
   set_at ip (2 * len ws + 1) (u8 w)) = Ok (fill (ws ++ [w])).
Proof.
  intros Hl. unfold fill. rewrite length_app. simpl length.
  replace (16 - 2 * length ws)%nat with (S (S (16 - 2 * (length ws + 1)))) by lia.
  cbn [replicate].
  assert (E : 2 * len ws = len (word_bytes ws)) by (unfold len; rewrite word_bytes_len; lia).
  rewrite E, set_at_app. cbn [mbind res_bind].
  set (r := replicate _ 0).
  replace (word_bytes ws ++ u8 (Z.shiftr w 8) :: 0 :: r)
    with ((word_bytes ws ++ [u8 (Z.shiftr w 8)]) ++ 0 :: r) by (by rewrite <- app_assoc).
  replace (len (word_bytes ws) + 1) with (len (word_bytes ws ++ [u8 (Z.shiftr w 8)]))
    by (rewrite len_app; done).
  rewrite set_at_app. rewrite word_bytes_app, <- !app_assoc. done.
Qed.
(** Binding the two stores as the loop body does. *)
Lemma fill_store_bind {B} ws w (k : bytes → res B) : (length ws < 8)%nat →
  (ip ← set_at (fill ws) (2 * len ws) (u8 (Z.shiftr w 8));
   ip ← set_at ip (2 * len ws + 1) (u8 w); k ip) = k (fill (ws ++ [w])).
Proof.
  intros Hl. pose proof (fill_store ws w Hl) as E.
  destruct (set_at (fill ws) _ _) as [ip| |]; try done. simpl in *. by rewrite E.
Qed.

Lemma from_len (a b : bytes) : from (a ++ b) (len a) = Ok b.
Proof.
  unfold from. pose proof (len_nonneg a). pose proof (len_nonneg b).
  rewrite slice_ok by (rewrite ?len_app; lia).
  unfold len. rewrite !Nat2Z.id, firstn_all, drop_app_length. done.
Qed.
Lemma len_snoc {A} (l : list A) x : len (l ++ [x]) = len l + 1.
Proof. by rewrite len_app. Qed.
Lemma len_pos (s : bytes) : s ≠ [] → 0 < len s.
Proof. destruct s; [done|]. intros _. rewrite len_cons. pose proof (len_nonneg s). lia. Qed.

(** The state after [ws] words, the ellipsis at word [e] (-1 for none). *)
Definition st6 (ws : list Z) (e : Z) (s : bytes) : p6 :=
  P6 (2 * len ws) e (fill ws) s.

(** The common part of an iteration: a word, then what follows it. *)
Lemma body_word in_ ws w e rest : is_u16 w → (length ws < 8)%nat →
  match rest with [] => True | c :: _ => c = ":"%byte end →
  parseIPv6_body in_ (st6 ws e (hex w ++ rest)) =
    if len rest =? 0 then Ok (Break (st6 (ws ++ [w]) e []))
    else if len rest =? 1 then
      Err (ParseAddrError in_ [Lit "colon must be followed by more characters"%go] rest)
    else
      let s := drop 1 rest in
      match s with
      | c :: t =>
          if c =? ":"%byte then
            if e >=? 0 then Err (ParseAddrError in_ [Lit "multiple :: in address"%go] s)
            else if len t =? 0 then Ok (Break (st6 (ws ++ [w]) (2 * len (ws ++ [w])) t))
            else Ok (Continue (st6 (ws ++ [w]) (2 * len (ws ++ [w])) t))
          else Ok (Continue (st6 (ws ++ [w]) e s))
      | [] => Panic index_panic
      end.
Proof.
  intros Hw Hl Hr. unfold parseIPv6_body, st6.
  rewrite hex_word; [|done|destruct rest; [done|by left]].
  pose proof (hex_len_pos w). rewrite (proj2 (Z.eqb_neq _ 0)) by lia.
  assert (Hdot : (if len (hex w) <? len (hex w ++ rest)
                  then c ← at_ (hex w ++ rest) (len (hex w)); Ok (c =? "."%byte)
                  else Ok false) = Ok false).
  { destruct rest as [|c rest]; [rewrite app_nil_r, Z.ltb_irrefl; done|]. subst c.
    rewrite at_app_len. cbn [mbind res_bind]. by destruct (_ <? _). }
  rewrite Hdot. cbn [mbind res_bind]. cbv iota.
  rewrite (fill_store_bind ws w) by done.
  rewrite from_len. cbn [mbind res_bind].
  replace (2 * len ws + 2) with (2 * len (ws ++ [w])) by (rewrite len_snoc; lia).
  destruct rest as [|c rest]; [done|]. subst c.
  assert ((len (":"%byte :: rest) =? 0) = false) as -> by
    (apply Z.eqb_neq; rewrite len_cons; pose proof (len_nonneg rest); lia).
  change (at_ (":"%byte :: rest) 0) with (Ok ":"%byte).
  cbn [mbind res_bind]. rewrite Z.eqb_refl. cbn [negb].
  destruct (len (":"%byte :: rest) =? 1) eqn:E1; [done|].
  pose proof (from_len [":"%byte] rest) as Hf. simpl app in Hf. change (len [":"%byte]) with 1 in Hf.
  rewrite Hf. cbn [mbind res_bind]. cbv zeta.
  change (drop 1 (":"%byte :: rest)) with rest.
  destruct rest as [|c rest]; [discriminate E1|].
  change (at_ (c :: rest) 0) with (Ok c).
  cbn [mbind res_bind]. destruct (c =? ":"%byte); [|done].
  destruct (e >=? 0); [done|].
  pose proof (from_len [c] rest) as Hf'. simpl app in Hf'. change (len [c]) with 1 in Hf'.
  rewrite Hf'. cbn [mbind res_bind]. done.
Qed.

(** The text after a word never starts with a colon. *)
Definition no_colon (s : bytes) : Prop := ∃ c t, s = c :: t ∧ c ≠ ":"%byte.
Lemma join6_head w ws : is_u16 w → no_colon (join6 (w :: ws)).
Proof.
  intros Hw. destruct (hex_head w) as (k&l&[[Hk E]|E]); [|done].
  assert (digit_at k ≠ ":"%byte) by (apply digit_at_not; auto).
  destruct ws; simpl; rewrite E; do 2 eexists; (split; [reflexivity|done]).
Qed.
Lemma body_colon in_ ws w e s : is_u16 w → (length ws < 8)%nat → no_colon s →
  parseIPv6_body in_ (st6 ws e (hex w ++ ":"%byte :: s)) = Ok (Continue (st6 (ws ++ [w]) e s)).
Proof.
  intros Hw Hl (c&t&->&Hc). rewrite body_word by done. rewrite !len_cons.
  pose proof (len_nonneg t).
  rewrite !(proj2 (Z.eqb_neq _ _)) by lia. change (drop 1 _) with (c :: t). cbv zeta iota.
  by rewrite (proj2 (Z.eqb_neq c _)).
Qed.
Lemma body_double in_ ws w e s : is_u16 w → (length ws < 8)%nat → e < 0 →
  parseIPv6_body in_ (st6 ws e (hex w ++ ":"%byte :: ":"%byte :: s)) =
    let st := st6 (ws ++ [w]) (2 * len (ws ++ [w])) s in
    Ok (match s with [] => Break st | _ => Continue st end).
Proof.
  intros Hw Hl He. rewrite body_word by done. rewrite !len_cons. pose proof (len_nonneg s).
  rewrite !(proj2 (Z.eqb_neq _ _)) by lia. change (drop 1 _) with (":"%byte :: s). cbv zeta iota.
  rewrite Z.eqb_refl. rewrite Z.geb_leb, (proj2 (Z.leb_gt _ _)) by lia.
  destruct s as [|c s]; [done|]. rewrite len_cons. pose proof (len_nonneg s).
  by rewrite (proj2 (Z.eqb_neq _ _)) by lia.
Qed.

Lemma loop_step fuel in_ ws e s : (length ws < 8)%nat →
  parseIPv6_loop (S fuel) in_ (st6 ws e s) =
    (f ← parseIPv6_body in_ (st6 ws e s);
     match f with Break st => Ok st | Continue st => parseIPv6_loop fuel in_ st end).
Proof.
  intros Hl. cbn [parseIPv6_loop st6 p6_i]. unfold len.
  by rewrite (proj2 (Z.ltb_lt _ _)) by lia.
Qed.

(** Words separated by single colons, up to the end of the string. *)
Lemma loop_join in_ ws done e fuel : Forall is_u16 ws → ws ≠ [] →
  (length done + length ws <= 8)%nat → (length ws <= fuel)%nat →
  parseIPv6_loop fuel in_ (st6 done e (join6 ws)) = Ok (st6 (done ++ ws) e []).
Proof.
  revert done fuel. induction ws as [|w ws IH]; intros done fuel Hf Hn Hl Hfuel; [congruence|].
  apply list.Forall_cons in Hf as [Hw Hf]. destruct fuel as [|fuel]; simpl in Hl, Hfuel; [lia|].
  rewrite loop_step by lia. destruct ws as [|w' ws].
  - simpl join6. rewrite <- (app_nil_r (hex w)), body_word by (reflexivity || lia || easy). done.
  - change (join6 (w :: w' :: ws)) with (hex w ++ ":"%byte :: join6 (w' :: ws)).
    rewrite body_colon; [|easy|simpl in *; lia|].
    + cbn [mbind res_bind]. rewrite IH; [|easy|easy|rewrite length_app; simpl in *; lia|simpl in *; lia].
      by rewrite <- app_assoc.
    + apply join6_head. by inversion Hf.
Qed.
(** Words, then the ellipsis. *)
Lemma loop_double in_ ws done e s fuel : Forall is_u16 ws → ws ≠ [] → e < 0 →
  (length done + length ws <= 8)%nat →
  parseIPv6_loop (length ws + fuel) in_ (st6 done e (join6 ws ++ ":"%byte :: ":"%byte :: s)) =
    let st := st6 (done ++ ws) (2 * len (done ++ ws)) s in
    match s with [] => Ok st | _ => parseIPv6_loop fuel in_ st end.
Proof.
  revert done. induction ws as [|w ws IH]; intros done Hf Hn He Hl; [congruence|].
  apply list.Forall_cons in Hf as [Hw Hf]. simpl in Hl.
  change (length (w :: ws) + fuel)%nat with (S (length ws + fuel)).
  rewrite loop_step by lia. destruct ws as [|w' ws].
  - simpl join6. rewrite body_double; [|easy|lia|easy]. by destruct s.
  - change (join6 (w :: w' :: ws)) with (hex w ++ ":"%byte :: join6 (w' :: ws)).
    rewrite <- app_assoc. cbn [app]. rewrite body_colon; [|easy|simpl in *; lia|].
    + cbn [mbind res_bind]. rewrite IH; [|easy|easy|easy|rewrite length_app; simpl in *; lia].
      by rewrite <- app_assoc.
    + destruct (join6_head w' ws) as (c&t&E&Hc); [by inversion Hf|].
      rewrite E. by exists c, (t ++ ":"%byte :: ":"%byte :: s).
Qed.

(** ** The expansion of the ellipsis *)
(** Both copy loops succeed whenever their indices are in range. *)
Lemma expand_move_ok count ip j n : 0 <= n → (count = 0%nat ∨ 0 <= j - Z.of_nat count + 1) →
  j + n < len ip → ∃ ip', expand_move count ip j n = Ok ip' ∧ length ip' = length ip.
Proof.
  revert ip j. induction count as [|count IH]; intros ip j Hn Hj Hjn; [by exists ip|].
  cbn [expand_move]. assert (0 <= j) by lia. unfold len in Hjn.
  destruct (lookup_lt_is_Some_2 ip (Z.to_nat j)) as [b Hb]; [lia|].
  rewrite (at_lookup ip j b) by done. cbn [mbind res_bind].
  rewrite set_at_ok by (unfold len; lia). cbn [mbind res_bind].
  destruct (IH (<[Z.to_nat (j + n) := b]> ip) (j - 1)) as (ip'&E&El); [lia..| |].
  - unfold len. rewrite length_insert. lia.
  - exists ip'. by rewrite El, length_insert.
Qed.
Lemma expand_zero_ok count ip j : (count = 0%nat ∨ 0 <= j - Z.of_nat count + 1) →
  j < len ip → ∃ ip', expand_zero count ip j = Ok ip' ∧ length ip' = length ip.
Proof.
  revert ip j. induction count as [|count IH]; intros ip j Hj Hjn; [by exists ip|].
  cbn [expand_zero]. rewrite set_at_ok by lia. cbn [mbind res_bind].
  destruct (IH (<[Z.to_nat j := 0]> ip) (j - 1)) as (ip'&E&El); [lia| |].
  - unfold len in *. rewrite length_insert. lia.
  - exists ip'. by rewrite El, length_insert.
Qed.
(** On [pre] and [post] words they insert the missing zero words. *)
Lemma expand_words (pre post : list Z) : (length pre + length post <= 7)%nat →
  let i := 2 * len (pre ++ post) in
  let e := 2 * len pre in
  let n := 16 - i in
  (ip ← expand_move (Z.to_nat (i - e)) (fill (pre ++ post)) (i - 1) n;
   expand_zero (Z.to_nat n) ip (e + n - 1))
  = Ok (word_bytes (pre ++ replicate (8 - length pre - length post) 0 ++ post)).
Proof.
  intros Hl. do 8 (destruct pre as [|? pre]; [
    do 8 (destruct post as [|? post]; [first [reflexivity|simpl in Hl; lia]|]);
    simpl in Hl; lia|]).
  simpl in Hl. lia.
Qed.

(** ** The zero run and the printed form *)
(** A run of zero words: at least two of them, inside the address. *)
Definition zero_words (ip : Addr) (a b : Z) : Prop :=
  0 <= a ∧ a + 2 <= b ∧ b <= 8 ∧ ∀ k, a <= k < b → v6u16 ip k = 0.
Lemma zero_run_spec fuel ip j : 0 <= j <= 8 → 8 - j <= Z.of_nat fuel →
  let e := zero_run fuel ip j in
  j <= e <= 8 ∧ (∀ k, j <= k < e → v6u16 ip k = 0) ∧ (e < 8 → v6u16 ip e ≠ 0).
Proof.
  revert j. induction fuel as [|fuel IH]; intros j Hj Hf; cbn [zero_run]; [repeat split; lia|].
  destruct (Z.ltb_spec j 8) as [Hj8|]; cbn [andb]; [|repeat split; lia].
  destruct (Z.eqb_spec (v6u16 ip j) 0) as [E|E]; [|repeat split; try lia; done].
  rewrite u8_id by (unfold is_u8; lia).
  destruct (IH (j + 1)) as (H1&H2&H3); [lia..|]. split; [lia|]. split; [|done].
  intros k Hk. destruct (decide (k = j)) as [->|]; [done|apply H2; lia].
Qed.
Definition run_ok (ip : Addr) (zs ze : Z) : Prop :=
  (zs = 255 ∧ ze = 255) ∨ zero_words ip zs ze.
(** The first loop keeps a zero run (or none), and ends with one that is at
    least as long as every other and starts first among the longest. *)
Definition run_best (ip : Addr) (i zs ze : Z) : Prop :=
  run_ok ip zs ze ∧
  ∀ a b, a < i → zero_words ip a b → b - a <= ze - zs ∧ (b - a = ze - zs → zs <= a).
Lemma longest_run_spec fuel ip i zs ze : 0 <= i <= 8 → 8 - i <= Z.of_nat fuel →
  run_best ip i zs ze → (zs = 255 ∨ zs < i) →
  let '(zs', ze') := longest_run fuel ip i zs ze in run_best ip 8 zs' ze'.
Proof.
  revert i zs ze. induction fuel as [|fuel IH]; intros i zs ze Hi Hf Hb Hzs; cbn [longest_run].
  { replace 8 with i by lia. done. }
  destruct (Z.ltb_spec i 8); [|by replace 8 with i by lia].
  destruct (zero_run_spec 8 ip i) as (H1&H2&H3); [lia..|].
  set (j := zero_run 8 ip i) in *.
  assert (Hrange : 0 <= ze - zs <= 8) by (destruct Hb as [[[-> ->]|(?&?&?&_)] _]; lia).
  assert (Hnone : zs = 255 → ze - zs = 0)
    by (destruct Hb as [[[-> ->]|(?&?&?&_)] _]; lia).
  rewrite (u8_id (i + 1)), (u8_id (j - i)), (u8_id (ze - zs)) by (unfold is_u8; lia).
  rewrite Z.geb_leb, Z.gtb_ltb.
  (* a run starting at [i] is within [i, j) *)
  assert (Hat : ∀ b, zero_words ip i b → b <= j).
  { intros b (_&Hb1&Hb2&Hb3). destruct (Z.le_gt_cases b j); [done|].
    exfalso. apply H3; [lia|]. apply Hb3. lia. }
  destruct (Z.leb_spec 2 (j - i)), (Z.ltb_spec (ze - zs) (j - i)); cbn [andb];
    (apply IH; [lia|lia| |try lia]); destruct Hb as [Hok Hmax].
  - split; [right; repeat split; try lia; exact H2|].
    intros a b Ha Hz. destruct (decide (a = i)) as [->|].
    + specialize (Hat b Hz). split; lia.
    + destruct (Hmax a b ltac:(lia) Hz). split; lia.
  - split; [done|]. intros a b Ha Hz. destruct (decide (a = i)) as [->|]; [|apply Hmax; [lia|done]].
    specialize (Hat b Hz). split; lia.
  - split; [done|]. intros a b Ha Hz. destruct (decide (a = i)) as [->|]; [|apply Hmax; [lia|done]].
    specialize (Hat b Hz). destruct Hz as (_&?&_). lia.
  - split; [done|]. intros a b Ha Hz. destruct (decide (a = i)) as [->|]; [|apply Hmax; [lia|done]].
    specialize (Hat b Hz). destruct Hz as (_&?&_). lia.
Qed.
Lemma longest_run_best ip :
  let '(zs, ze) := longest_run 8 ip 0 255 255 in run_best ip 8 zs ze.
Proof.
  apply longest_run_spec; [lia|lia| |by left].
  split; [by left|]. intros a b Ha (?&_). lia.
Qed.

(** The address part of appendTo6. *)
Definition body6 (ip : Addr) : bytes :=
  let '(zs, ze) := longest_run 8 ip 0 255 255 in emit6 8 ip 0 zs ze [].
Lemma emit6_app fuel ip i zs ze ret :
  emit6 fuel ip i zs ze ret = ret ++ emit6 fuel ip i zs ze [].
Proof.
  revert i ret. induction fuel as [|fuel IH]; intros i ret; cbn [emit6]; [by rewrite app_nil_r|].
  destruct (i <? 8); [|by rewrite app_nil_r].
  destruct (i =? zs).
  - destruct (ze >=? 8); [done|]. rewrite IH, (IH _ (appendHex ([] ++ _) _)), !appendHex_app.
    by rewrite <- !app_assoc.
  - rewrite IH, (IH _ (appendHex (if i >? 0 then _ else _) _)), !appendHex_app.
    destruct (i >? 0); by rewrite <- !app_assoc.
Qed.
Lemma appendTo6_body ip ret : appendTo6 ip ret =
  ret ++ body6 ip ++ (if bool_decide (z ip = z6noz) then [] else "%"%byte :: Addr_Zone ip).
Proof.
  unfold appendTo6, body6. destruct (longest_run _ _ _ _ _) as [zs ze].
  rewrite emit6_app. destruct (bool_decide (z ip = z6noz)); simpl negb; cbv iota.
  - by rewrite app_nil_r.
  - by rewrite <- !app_assoc.
Qed.
Ltac emit_compute :=
  cbv -[appendHex v6u16 app hex]; rewrite ?appendHex_app; cbn [app];
  repeat (rewrite <- app_assoc; cbn [app]); reflexivity.
Lemma emit6_plain ip : emit6 8 ip 0 255 255 [] = join6 (words ip).
Proof. unfold words. cbn [map join6]. emit_compute. Qed.
Lemma emit6_run ip zs ze : 0 <= zs → zs + 2 <= ze → ze <= 8 →
  emit6 8 ip 0 zs ze [] = join6 (take (Z.to_nat zs) (words ip)) ++
    ":"%byte :: ":"%byte :: join6 (drop (Z.to_nat ze) (words ip)).
Proof.
  intros H0 H1 H2. unfold words. cbn [map].
  assert (zs = 0 ∨ zs = 1 ∨ zs = 2 ∨ zs = 3 ∨ zs = 4 ∨ zs = 5 ∨ zs = 6) as Hz by lia.
  assert (ze = 2 ∨ ze = 3 ∨ ze = 4 ∨ ze = 5 ∨ ze = 6 ∨ ze = 7 ∨ ze = 8) as He by lia.
  repeat (destruct Hz as [Hz|Hz]); subst zs;
    repeat (destruct He as [He|He]); subst ze; try lia;
    cbn [take drop Z.to_nat Pos.to_nat Pos.iter_op Nat.add join6]; emit_compute.
Qed.

(** ** Finding bytes *)
Lemma index_loop_none s c i : ¬ In c s → index_loop s c i = -1.
Proof.
  revert i. induction s as [|x s IH]; intros i Hn; [done|]. simpl in *.
  rewrite (proj2 (Z.eqb_neq x c)) by naive_solver. apply IH. naive_solver.
Qed.
Lemma index_loop_first a b c i : ¬ In c a → index_loop (a ++ c :: b) c i = i + len a.
Proof.
  revert i. induction a as [|x a IH]; intros i Hn; simpl in *.
  - rewrite Z.eqb_refl. unfold len. simpl. lia.
  - rewrite (proj2 (Z.eqb_neq x c)) by naive_solver. rewrite IH by naive_solver.
    rewrite len_cons. lia.
Qed.
Lemma upto_len (a b : bytes) : upto (a ++ b) (len a) = Ok a.
Proof.
  unfold upto. pose proof (len_nonneg a). pose proof (len_nonneg b).
  rewrite slice_ok by (rewrite ?len_app; lia).
  unfold len. by rewrite Nat2Z.id, take_app_length.
Qed.
Lemma from_app_cons (a : bytes) c b : from (a ++ c :: b) (len a + 1) = Ok b.
Proof.
  replace (a ++ c :: b) with ((a ++ [c]) ++ b) by (by rewrite <- app_assoc).
  rewrite <- len_snoc with (x := c). apply from_len.
Qed.
(** The zone suffix: nothing, or a percent sign and the zone. *)
Definition zone_suffix (zone : bytes) : bytes :=
  match zone with [] => [] | _ => "%"%byte :: zone end.
Lemma parseIPv6_split body zone : ¬ In "%"%byte body →
  parseIPv6 (body ++ zone_suffix zone)
  = parseIPv6_addr (body ++ zone_suffix zone) body zone.
Proof.
  intros Hn. unfold parseIPv6, IndexByteString. destruct zone as [|c zone].
  - simpl zone_suffix. rewrite app_nil_r, index_loop_none by done. done.
  - simpl zone_suffix. rewrite index_loop_first, Z.add_0_l by done.
    pose proof (len_nonneg body). rewrite (proj2 (Z.eqb_neq (len body) (-1))) by lia.
    cbn [negb]. rewrite upto_len. cbn [mbind res_bind].
    rewrite from_app_cons. done.
Qed.

(** ParseAddr looks at the first of the three separators. *)
Definition plain_char (c : Z) : Prop :=
  c ≠ "."%byte ∧ c ≠ ":"%byte ∧ c ≠ "%"%byte.
Lemma ParseAddr_scan s l c rest : Forall plain_char l →
  ParseAddr_loop s (l ++ c :: rest) =
    if c =? "."%byte then parseIPv4 s
    else if c =? ":"%byte then parseIPv6 s
    else if c =? "%"%byte then
      Err (ParseAddrError s [Lit "missing IPv6 address"%go] [])
    else ParseAddr_loop s rest.
Proof.
  induction 1 as [|x l (H1&H2&H3) _ IH]; [done|]. simpl.
  by rewrite !(proj2 (Z.eqb_neq x _)) by done.
Qed.
Lemma digit_at_plain k : 0 <= k < 16 → plain_char (digit_at k).
Proof. intros. repeat split; apply digit_at_not; auto. Qed.
Lemma hex_plain w : is_u16 w → Forall plain_char (hex w).
Proof.
  intros Hw. apply List.Forall_forall. intros c Hc.
  destruct (hex_chars w c Hw Hc) as (k&Hk&->). by apply digit_at_plain.
Qed.
Lemma dec_plain x : 0 <= x < 256 → Forall plain_char (dec x).
Proof.
  intros Hx. unfold dec, appendDecimal. rewrite !Z.geb_leb.
  destruct (Z.leb_spec 100 x), (Z.leb_spec 10 x); cbn [app];
    repeat (constructor; [apply digit_at_plain; zwlia|]); constructor.
Qed.
Lemma join6_no_pct ws : Forall is_u16 ws → ¬ In "%"%byte (join6 ws).
Proof.
  assert (Hh : ∀ w, is_u16 w → ¬ In "%"%byte (hex w)).
  { intros w Hw Hin. pose proof (hex_plain w Hw) as Hp.
    rewrite List.Forall_forall in Hp. by apply Hp in Hin as (_&_&?). }
  induction 1 as [|w ws Hw Hws IH]; [naive_solver|]. destruct ws as [|w' ws].
  - by apply Hh.
  - change (join6 (w :: w' :: ws)) with (hex w ++ ":"%byte :: join6 (w' :: ws)).
    intros [Hin|[Hin|Hin]]%in_app_iff; [by apply (Hh w)|discriminate|by apply IH].
Qed.
Lemma words_u16 ip : Forall is_u16 (words ip).
Proof. unfold words. cbn [map]. repeat (constructor; [apply v6u16_range|]). constructor. Qed.

(** The two shapes of the printed address part. *)
Lemma body6_cases ip :
  body6 ip = join6 (words ip) ∨
  ∃ pre post, body6 ip = join6 pre ++ ":"%byte :: ":"%byte :: join6 post ∧
    Forall is_u16 pre ∧ Forall is_u16 post ∧ (length pre + length post <= 6)%nat ∧
    words ip = pre ++ replicate (8 - length pre - length post) 0 ++ post.
Proof.
  unfold body6. pose proof (longest_run_best ip) as H.
  destruct (longest_run 8 ip 0 255 255) as [zs ze].
  destruct H as [[[-> ->]|(H0&H1&H2&H3)] _].
  { left. apply emit6_plain. }
  right. exists (take (Z.to_nat zs) (words ip)), (drop (Z.to_nat ze) (words ip)).
  rewrite emit6_run by done.
  assert (Hl : length (words ip) = 8%nat) by done.
  rewrite length_take, length_drop, Hl.
  split; [done|]. split; [apply Forall_take, words_u16|].
  split; [apply Forall_drop, words_u16|]. split; [lia|].
  apply list_eq. intros k.
  destruct (decide (k < Z.to_nat zs)%nat) as [Hk|Hk].
  { rewrite lookup_app_l by (rewrite length_take; lia). by rewrite lookup_take_lt. }
  rewrite lookup_app_r, length_take, Hl by (rewrite length_take; lia).
  destruct (decide (k < Z.to_nat ze)%nat) as [Hk'|Hk'].
  - rewrite lookup_app_l by (rewrite length_replicate; lia).
    rewrite lookup_replicate_2 by lia.
    unfold words. rewrite list_lookup_fmap.
    assert (Hk8 : [0; 1; 2; 3; 4; 5; 6; 7] !! k = Some (Z.of_nat k))
      by (do 8 (destruct k as [|k]; [done|]); lia).
    rewrite Hk8. simpl. rewrite H3 by lia. done.
  - rewrite lookup_app_r, length_replicate by (rewrite length_replicate; lia).
    rewrite lookup_drop. f_equal. lia.
Qed.

(** ** Parsing what appendTo6 and appendTo4 print *)
Lemma finish_expand in_ zone pre post : (length pre + length post <= 7)%nat →
  parseIPv6_finish in_ zone (st6 (pre ++ post) (2 * len pre) []) =
    Ok (Addr_WithZone (AddrFrom16 (word_bytes
          (pre ++ replicate (8 - length pre - length post) 0 ++ post))) zone).
Proof.
  intros Hl. unfold parseIPv6_finish, st6. pose proof (len_nonneg pre).
  change (len (@nil Z) =? 0) with true. cbn [negb].
  assert (2 * len (pre ++ post) < 16) by (unfold len; rewrite length_app; lia).
  rewrite (proj2 (Z.ltb_lt _ 16)), (proj2 (Z.ltb_ge _ 0)) by lia.
  pose proof (expand_words pre post Hl) as E. cbv zeta in E |- *.
  destruct (expand_move _ _ _ _) as [ip| |]; try done. cbn [mbind res_bind] in *.
  by rewrite E.
Qed.
Lemma lead_false in_ s zone : no_colon s → 2 <= len s →
  parseIPv6_addr in_ s zone =
    (st ← parseIPv6_loop 9 in_ (st6 [] (-1) s); parseIPv6_finish in_ zone st).
Proof.
  intros (c&t&->&Hc) Hl. unfold parseIPv6_addr. rewrite Z.geb_leb, (proj2 (Z.leb_le _ _)) by done.
  destruct t as [|d t]; [rewrite len_cons in Hl; unfold len in Hl; simpl in Hl; lia|].
  change (at_ (c :: d :: t) 0) with (Ok c). change (at_ (c :: d :: t) 1) with (Ok d).
  cbn [mbind res_bind]. rewrite (proj2 (Z.eqb_neq c _)) by done. done.
Qed.
Lemma lead_true in_ s zone : s ≠ [] →
  parseIPv6_addr in_ (":"%byte :: ":"%byte :: s) zone =
    (st ← parseIPv6_loop 9 in_ (st6 [] 0 s); parseIPv6_finish in_ zone st).
Proof.
  intros Hs. unfold parseIPv6_addr. rewrite !len_cons. pose proof (len_pos s Hs).
  rewrite Z.geb_leb, (proj2 (Z.leb_le _ _)) by lia.
  change (at_ (":"%byte :: ":"%byte :: s) 0) with (Ok ":"%byte).
  change (at_ (":"%byte :: ":"%byte :: s) 1) with (Ok ":"%byte).
  cbn [mbind res_bind]. rewrite Z.eqb_refl. cbn [andb].
  change (":"%byte :: ":"%byte :: s) with ([":"%byte; ":"%byte] ++ s).
  change 2 with (len [":"%byte; ":"%byte]). rewrite from_len. cbn [mbind res_bind].
  rewrite (proj2 (Z.eqb_neq _ 0)) by lia. done.
Qed.
Lemma join6_ne w ws : is_u16 w → join6 (w :: ws) ≠ [].
Proof. intros Hw. destruct (join6_head w ws Hw) as (c&t&->&_). done. Qed.
Lemma join6_len2 pre s : pre ≠ [] → Forall is_u16 pre →
  2 <= len (join6 pre ++ ":"%byte :: ":"%byte :: s).
Proof. intros. rewrite len_app, !len_cons. pose proof (len_nonneg (join6 pre)). pose proof (len_nonneg s). lia. Qed.

Lemma parse_body6 ip in_ zone :
  parseIPv6_addr in_ (body6 ip) zone
  = Ok (Addr_WithZone (AddrFrom16 (word_bytes (words ip))) zone).
Proof.
  destruct (body6_cases ip) as [->|(pre&post&->&Hpre&Hpost&Hl&->)].
  - pose proof (words_u16 ip) as Hw. assert (Hlen : length (words ip) = 8%nat) by done.
    rewrite lead_false; [|by apply join6_head; inversion Hw|].
    + rewrite loop_join by (done || (rewrite Hlen; simpl; lia)). cbn [mbind res_bind app].
      unfold parseIPv6_finish, st6, len. rewrite Hlen. simpl Z.mul.
      unfold fill. rewrite Hlen. simpl replicate. by rewrite app_nil_r.
    + unfold words. cbn [map join6]. rewrite len_app, len_cons.
      pose proof (hex_len_pos (v6u16 ip 0)).
      match goal with |- context [len (hex (v6u16 ip 1) ++ ?l)] =>
        rewrite (len_app (hex (v6u16 ip 1)) l); pose proof (len_nonneg l) end.
      pose proof (hex_len_pos (v6u16 ip 1)). lia.
  - destruct pre as [|p pre].
    + destruct post as [|q post]; [done|].
      change (join6 [] ++ ":"%byte :: ":"%byte :: join6 (q :: post)) with (":"%byte :: ":"%byte :: join6 (q :: post)).
      rewrite lead_true by (apply join6_ne; by inversion Hpost).
      simpl in Hl. rewrite loop_join by (done || (simpl; lia)). cbn [mbind res_bind app].
      apply (finish_expand in_ zone [] (q :: post)). simpl. lia.
    + destruct (join6_head p pre) as (c&t&E&Hc); [by inversion Hpre|].
      rewrite lead_false; [|rewrite E; by exists c, (t ++ ":"%byte :: ":"%byte :: join6 post)|
        by apply join6_len2].
      replace 9%nat with (length (p :: pre) + (9 - length (p :: pre)))%nat by lia.
      rewrite loop_double by (done || (simpl in *; lia)). cbv zeta.
      change ([] ++ p :: pre) with (p :: pre).
      rewrite <- (finish_expand in_ zone (p :: pre) post) by lia.
      destruct post as [|q post]; [by rewrite app_nil_r|].
      assert (join6 (q :: post) ≠ []) by (apply join6_ne; by inversion Hpost).
      transitivity (parseIPv6_loop (9 - length (p :: pre)) in_
        (st6 (p :: pre) (2 * len (p :: pre)) (join6 (q :: post)))
        ≫= parseIPv6_finish in_ zone); [by destruct (join6 (q :: post))|].
      rewrite loop_join by (done || (simpl in *; lia)). done.
Qed.

(** The embedded dotted quad of an IPv4-mapped address. *)
Lemma hex_dec x rest : 0 <= x < 256 →
  ∃ v, parseIPv6_hex (dec x ++ "."%byte :: rest) 0 0 = Some (len (dec x), v).
Proof.
  intros Hx. unfold dec, appendDecimal. rewrite !Z.geb_leb.
  destruct (Z.leb_spec 100 x), (Z.leb_spec 10 x); try lia; cbn [app];
    unfold len; simpl length; eexists;
    (repeat rewrite hex_step by zwlia); rewrite hex_stop_eq by (by right); reflexivity.
Qed.
Lemma body_embedded in_ a0 a1 a2 a3 : is_bytes [a0; a1; a2; a3] →
  parseIPv6_body in_ (st6 [0xffff] 0 (dotted a0 a1 a2 a3)) =
    Ok (Break (P6 6 0 (255 :: 255 :: a0 :: a1 :: a2 :: a3 :: replicate 10 0) [])).
Proof.
  intros Ha. pose proof Ha as Hb. unfold is_bytes in Hb. rewrite !list.Forall_cons in Hb.
  destruct Hb as (H0&_&_&_&_). unfold is_u8 in H0.
  unfold parseIPv6_body, st6. set (s := dotted a0 a1 a2 a3).
  destruct (hex_dec a0 (dec a1 ++ "."%byte :: dec a2 ++ "."%byte :: dec a3) H0) as [v Hv].
  unfold s at 1, dotted. rewrite Hv.
  assert (0 < len (dec a0)) by (apply len_pos, dec_nonempty).
  rewrite (proj2 (Z.eqb_neq _ 0)) by lia.
  assert (Hd : (if len (dec a0) <? len s then c ← at_ s (len (dec a0)); Ok (c =? "."%byte)
                else Ok false) = Ok true).
  { unfold s, dotted. rewrite at_app_len. cbn [mbind res_bind].
    rewrite (proj2 (Z.ltb_lt _ _)); [done|]. rewrite len_app, len_cons.
    pose proof (len_nonneg (dec a1 ++ "."%byte :: dec a2 ++ "."%byte :: dec a3)). lia. }
  rewrite Hd. cbn [mbind res_bind]. cbv iota.
  unfold s. rewrite parseIPv4_dotted by done. rewrite AddrFrom4_eq by done.
  destruct (v4_v4_lo 0 z4 _ _ _ _ Ha) as (->&->&->&->). reflexivity.
Qed.
Lemma parse_mapped in_ zone a0 a1 a2 a3 : is_bytes [a0; a1; a2; a3] →
  parseIPv6_addr in_ ("::ffff:"%go ++ dotted a0 a1 a2 a3) zone =
    Ok (Addr_WithZone (MkAddr (U128 0 (v4_lo a0 a1 a2 a3)) z6noz) zone).
Proof.
  intros Ha. pose proof Ha as Hb. unfold is_bytes in Hb. rewrite !list.Forall_cons in Hb.
  destruct Hb as (H0&H1&H2&H3&_).
  change ("::ffff:"%go ++ dotted a0 a1 a2 a3)
    with (":"%byte :: ":"%byte :: hex 0xffff ++ ":"%byte :: dotted a0 a1 a2 a3).
  rewrite lead_true by done. rewrite loop_step by (simpl; lia).
  assert (Hnc : no_colon (dotted a0 a1 a2 a3)).
  { unfold dotted. pose proof (dec_plain a0 H0) as Hp.
    destruct (dec a0) as [|c l] eqn:E; [by apply dec_nonempty in E|].
    apply list.Forall_cons in Hp as [(?&?&?) _]. by do 2 eexists. }
  rewrite body_colon by (done || unfold is_u16; simpl; lia). cbn [mbind res_bind app].
  rewrite loop_step by (simpl; lia). rewrite body_embedded by done. cbn [mbind res_bind].
  transitivity (Ok (Addr_WithZone (AddrFrom16
    [0;0;0;0;0;0;0;0;0;0; 255; 255; a0; a1; a2; a3]) zone)); [reflexivity|].
  unfold AddrFrom16. cbn [take drop]. rewrite !beUint64_bytes8; cycle 1.
  { unfold is_bytes, is_u8 in *. repeat (constructor; [lia|]). constructor. }
  { unfold is_bytes, is_u8 in *. repeat (constructor; [lia|]). constructor. }
  do 3 f_equal. unfold bytes8, v4_lo. f_equal; ring.
Qed.

(** ** The text of an address *)
(** What String, AppendTo and MarshalText print for a valid address. *)
Definition addr_text (ip : Addr) : bytes :=
  (if Addr_Is4 ip then string4 ip
   else if Addr_Is4In6 ip then "::ffff:"%go ++ string4 (Addr_Unmap ip)
   else body6 ip) ++ zone_suffix (Addr_Zone ip).
Lemma appendTo4_app ip b : appendTo4 ip b = b ++ string4 ip.
Proof. unfold string4, appendTo4. rewrite !appendDecimal_app. by rewrite <- !app_assoc. Qed.
Lemma zone_suffix_z6 ip : wf_addr ip → Addr_Is6 ip = true →
  (if bool_decide (z ip = z6noz) then [] else "%"%byte :: Addr_Zone ip)
  = zone_suffix (Addr_Zone ip).
Proof.
  intros [_ Hw] [H0 H4]%Addr_Is6_spec. unfold Addr_Zone.
  destruct (z ip) as [| | |s]; try done. simpl. by destruct s.
Qed.
Lemma appendTo6_text ip b : wf_addr ip → Addr_Is6 ip = true →
  appendTo6 ip b = b ++ body6 ip ++ zone_suffix (Addr_Zone ip).
Proof. intros Hw H6. by rewrite appendTo6_body, zone_suffix_z6. Qed.
Lemma zone_suffix_if (b zone : bytes) :
  (if negb (beq zone []) then (b ++ "%"%go) ++ zone else b) = b ++ zone_suffix zone.
Proof. destruct zone; simpl; [by rewrite app_nil_r|by rewrite <- app_assoc]. Qed.

Lemma Is6_cases ip : z ip ≠ z0 → (Addr_Is4 ip = true ∧ z ip = z4) ∨
  (Addr_Is4 ip = false ∧ Addr_Is6 ip = true).
Proof.
  intros H0. unfold Addr_Is4, Addr_Is6.
  destruct (bool_decide_reflect (z ip = z4)); [by left|right].
  by rewrite bool_decide_false.
Qed.
Lemma Addr_AppendTo_text ip b : wf_addr ip → z ip ≠ z0 → Addr_AppendTo ip b = b ++ addr_text ip.
Proof.
  intros Hw H0. unfold Addr_AppendTo, addr_text.
  destruct (Is6_cases ip H0) as [[E4 Ez]|[E4 E6]]; rewrite E4.
  - rewrite Ez, appendTo4_app. unfold Addr_Zone. rewrite Ez. simpl. by rewrite app_nil_r.
  - transitivity (if Addr_Is4In6 ip then
        (appendTo4 (Addr_Unmap ip) (b ++ "::ffff:"%go)) ++ zone_suffix (Addr_Zone ip)
      else appendTo6 ip b).
    { rewrite <- zone_suffix_if. apply Addr_Is6_spec in E6 as [??]. by destruct (z ip). }
    destruct (Addr_Is4In6 ip); [|by apply appendTo6_text].
    rewrite appendTo4_app, <- !app_assoc. done.
Qed.
Lemma Addr_String_text ip : wf_addr ip → z ip ≠ z0 → Addr_String ip = addr_text ip.
Proof.
  intros Hw H0. rewrite <- (app_nil_l (addr_text ip)), <- Addr_AppendTo_text by done.
  unfold Addr_String, Addr_AppendTo, string4, string6.
  destruct (z ip) eqn:E; try done; destruct (Addr_Is4In6 ip); try done;
    cbv zeta; rewrite (appendTo4_app _ ([] ++ _)); unfold string4; rewrite ?app_assoc; done.
Qed.
Lemma Addr_MarshalText_text ip : wf_addr ip → z ip ≠ z0 → Addr_MarshalText ip = addr_text ip.
Proof.
  intros Hw H0. rewrite <- (app_nil_l (addr_text ip)), <- Addr_AppendTo_text by done. done.
Qed.

(** An IPv4-mapped address is its four bytes. *)
Lemma Is4In6_split ip : wf_addr ip → Addr_Is4In6 ip = true → ∃ a0 a1 a2 a3,
  is_bytes [a0; a1; a2; a3] ∧ addr ip = U128 0 (v4_lo a0 a1 a2 a3).
Proof.
  intros [[_ Hl] _] (H0&H4&Hh&Hs)%Is4In6_spec.
  destruct (v4_lo_split _ Hl Hs) as (a0&a1&a2&a3&Ha&E). exists a0, a1, a2, a3.
  split; [done|]. destruct ip as [[h l] zz]. simpl in *. by subst.
Qed.
Lemma Unmap_4in6 ip : Addr_Is4In6 ip = true → Addr_Unmap ip = MkAddr (addr ip) z4.
Proof. intros E. unfold Addr_Unmap. by rewrite E. Qed.

Lemma WithZone_back ip : wf_addr ip → Addr_Is6 ip = true →
  Addr_WithZone (MkAddr (addr ip) z6noz) (Addr_Zone ip) = ip.
Proof.
  destruct ip as [u zz]. intros [_ Hw] [H0 H4]%Addr_Is6_spec. cbn [z addr] in *.
  unfold Addr_WithZone, Addr_Zone. rewrite Is6_z6noz. cbn [z addr negb].
  destruct zz as [| | |s]; try done. by destruct s.
Qed.

(** The address part of an IPv6 text has a colon and no percent sign. *)
Lemma body6_chars ip : ¬ In "%"%byte (body6 ip) ∧
  ∃ l rest, body6 ip = l ++ ":"%byte :: rest ∧ Forall plain_char l.
Proof.
  destruct (body6_cases ip) as [->|(pre&post&->&Hpre&Hpost&_)].
  - split; [apply join6_no_pct, words_u16|].
    unfold words. cbn [map join6]. eexists _, _. split; [reflexivity|].
    apply hex_plain, v6u16_range.
  - split.
    + intros [Hin|[Hin|[Hin|Hin]]]%in_app_iff; try discriminate;
        [by apply (join6_no_pct pre)|by apply (join6_no_pct post)].
    + destruct pre as [|p [|p' pre]].
      * by exists [], (":"%byte :: join6 post).
      * exists (hex p), (":"%byte :: join6 post). split; [done|].
        apply hex_plain. by inversion Hpre.
      * exists (hex p), (join6 (p' :: pre) ++ ":"%byte :: ":"%byte :: join6 post).
        change (join6 (p :: p' :: pre)) with (hex p ++ ":"%byte :: join6 (p' :: pre)).
        rewrite <- app_assoc. split; [done|]. apply hex_plain. by inversion Hpre.
Qed.
Lemma dotted_no_pct a0 a1 a2 a3 : is_bytes [a0; a1; a2; a3] → ¬ In "%"%byte (dotted a0 a1 a2 a3).
Proof.
  unfold is_bytes. rewrite !list.Forall_cons. intros (H0&H1&H2&H3&_).
  assert (Hd : ∀ x, is_u8 x → ¬ In "%"%byte (dec x)).
  { intros x Hx Hin. pose proof (dec_plain x Hx) as Hp. rewrite List.Forall_forall in Hp.
    by apply Hp in Hin as (_&_&?). }
  unfold dotted. intros Hin.
  repeat first [apply in_app_iff in Hin as [Hin|Hin]; [eapply Hd; [|exact Hin]; assumption|]
               |destruct Hin as [Hin|Hin]; [discriminate|]].
  exact (Hd _ H3 Hin).
Qed.

Lemma ParseAddr_text ip : wf_addr ip → z ip ≠ z0 → ParseAddr (addr_text ip) = Ok ip.
Proof.
  intros Hw H0. unfold addr_text. destruct (Is6_cases ip H0) as [[E4 Ez]|[E4 E6]]; rewrite E4.
  - destruct (z4_AddrFrom4 ip Hw Ez) as (a0&a1&a2&a3&Ha&E&E').
    unfold Addr_Zone. rewrite Ez. simpl zone_suffix. rewrite app_nil_r.
    rewrite E at 1. unfold string4. rewrite string4_dotted by done. cbn [app].
    unfold ParseAddr, dotted at 2. pose proof Ha as Hb. unfold is_bytes in Hb.
    rewrite !list.Forall_cons in Hb. destruct Hb as (Hb&_).
    rewrite ParseAddr_scan by (by apply dec_plain). cbn.
    rewrite parseIPv4_dotted by done. by rewrite E'.
  - destruct (Addr_Is4In6 ip) eqn:E46.
    + destruct (Is4In6_split ip Hw E46) as (a0&a1&a2&a3&Ha&E).
      rewrite (Unmap_4in6 ip E46), E. unfold string4. rewrite string4_dotted by done. cbn [app].
      transitivity (parseIPv6 (("::ffff:"%go ++ dotted a0 a1 a2 a3) ++ zone_suffix (Addr_Zone ip)));
        [done|].
      rewrite parseIPv6_split, parse_mapped, <- E, WithZone_back; try done.
      rewrite in_app_iff. intros [Hin|Hin]; [|by apply dotted_no_pct in Hin].
      simpl in Hin. intuition discriminate.
    + destruct (body6_chars ip) as (Hp&l&rest&Hl&Hplain).
      transitivity (parseIPv6 (body6 ip ++ zone_suffix (Addr_Zone ip))).
      { unfold ParseAddr. rewrite Hl at 2. rewrite <- app_assoc. cbn [app].
        by rewrite ParseAddr_scan. }
      rewrite parseIPv6_split, parse_body6, words_As16, AddrFrom16_As16, WithZone_back;
        try done; apply Hw.
Qed.

(** ** net/netip: the parsers on arbitrary input

    [ParseAddr], [ParseAddrPort] and [ParsePrefix] never panic, whatever the
    bytes they are given, and what they accept is well formed.  The main
    loops' index arithmetic stays inside their arrays. *)

(** ** parseIPv4 *)
Definition v4_state (st : list Z * Z * Z) : Prop :=
  let '(fields, val, pos) := st in
  is_bytes fields ∧ len fields = 4 ∧ 0 <= val <= 255 ∧ 0 <= pos <= 3.

Lemma parseIPv4_loop_safe s pre rest fields val pos digLen :
  s = pre ++ rest → v4_state (fields, val, pos) →
  safe v4_state (parseIPv4_loop s rest (len pre) fields val pos digLen).
Proof.
  revert pre fields val pos digLen.
  induction rest as [|c rest IH]; intros pre fields val pos digLen Hs Hst; [done|].
  destruct Hst as (Hf&Hl&Hv&Hp).
  assert (Hs' : s = (pre ++ [c]) ++ rest) by (by rewrite <- app_assoc).
  assert (Hi : len pre + 1 = len (pre ++ [c])) by (by rewrite len_app).
  cbn [parseIPv4_loop]. rewrite Hi. apply safe_if; intros Hd.
  - apply safe_if; intros _; [done|]. cbv zeta. apply safe_if; intros Hv'; [done|].
    apply IH; [done|]. repeat split; try done; lia.
  - apply safe_if; intros _; [|done].
    eapply (safe_bind (λ _, True)).
    { apply safe_if; intros Hb; [done|]. eapply safe_bind; [apply safe_at|done].
      pose proof (len_nonneg pre). subst s. rewrite len_app, len_cons.
      pose proof (len_nonneg rest). lia. }
    intros [|] _; [done|]. apply safe_if; intros Hp3; [done|].
    eapply safe_bind; [apply safe_set_at; lia|]. intros f ->.
    apply IH; [done|]. repeat split; try lia; [|by rewrite len_insert].
    auto with gorange.
Qed.

Lemma parseIPv4_safe s : safe (λ ip, wf_addr ip ∧ z ip = z4) (parseIPv4 s).
Proof.
  unfold parseIPv4. eapply safe_bind.
  { apply (parseIPv4_loop_safe s []); [done|]. repeat split; try done; try lia.
    unfold is_bytes. repeat constructor; lia. }
  intros [[f v] p] (Hf&Hl&Hv&Hp). apply safe_if; intros _; [done|].
  eapply safe_bind; [apply safe_set_at; lia|]. intros f' ->. simpl. split; [|done].
  apply AddrFrom4_wf; [|auto with gorange].
  rewrite length_insert. unfold len in Hl. lia.
Qed.

(** ** parseIPv6 *)
Lemma parseIPv6_hex_bound s off acc o a :
  parseIPv6_hex s off acc = Some (o, a) → off <= o <= off + len s.
Proof.
  revert off acc. induction s as [|c s IH]; intros off acc.
  - intros [= <- <-]. unfold len. simpl. lia.
  - cbn [parseIPv6_hex]. rewrite len_cons. pose proof (len_nonneg s).
    repeat case_match; try done; intros E; try (apply IH in E; lia).
    injection E as <- <-. lia.
Qed.

(** The variables of the main loop: the index is even and in the array, the
    ellipsis before it. *)
Definition p6_state (st : p6) : Prop :=
  is_bytes (p6_ip st) ∧ len (p6_ip st) = 16 ∧ 0 <= p6_i st <= 16 ∧
  p6_i st mod 2 = 0 ∧ -1 <= p6_ellipsis st <= p6_i st.
Definition flow_state (i : Z) (f : flow) : Prop :=
  match f with
  | Break st => p6_state st
  | Continue st => p6_state st ∧ p6_i st = i + 2
  end.

(** Storing a byte keeps the array an array of 16 bytes. *)
Lemma safe_store {B} (Q : B → Prop) ip i v (k : bytes → res B) :
  is_bytes ip → len ip = 16 → 0 <= i < 16 → is_u8 v →
  (∀ ip, is_bytes ip → len ip = 16 → safe Q (k ip)) →
  safe Q (ip ← set_at ip i v; k ip).
Proof.
  intros Hb Hl Hi Hv Hk. eapply safe_bind; [apply safe_set_at; lia|].
  intros ip' ->. apply Hk; [auto with gorange|by rewrite len_insert].
Qed.

Lemma parseIPv6_body_safe in_ st :
  p6_state st → p6_i st < 16 → safe (flow_state (p6_i st)) (parseIPv6_body in_ st).
Proof.
  destruct st as [i e ip s]. intros (Hb&Hl&Hi&He&Hel) Hlt. cbn [p6_i p6_ip p6_ellipsis] in *.
  assert (Hi2 : i + 2 <= 16) by (Z.to_euclidean_division_equations; lia).
  unfold parseIPv6_body. destruct (parseIPv6_hex s 0 0) as [[off acc]|] eqn:Eh; [|done].
  apply parseIPv6_hex_bound in Eh. apply safe_if; intros _; [done|].
  eapply (safe_bind (λ _, True)).
  { apply safe_if; intros H; [|done]. eapply safe_bind; [apply safe_at; lia|done]. }
  intros [|] _.
  - apply safe_if; intros _; [done|]. apply safe_if; intros H4; [done|].
    pose proof (parseIPv4_safe s) as H. destruct (parseIPv4 s) as [ip4|err|p]; [|done|done].
    do 4 (apply safe_store; [done|done|lia|apply u8_range|]; clear ip Hb Hl; intros ip Hb Hl).
    repeat split; cbn [p6_i p6_ip p6_ellipsis]; try done; try lia.
    rewrite Z.add_mod, He by lia. done.
  - do 2 (apply safe_store; [done|done|lia|apply u8_range|]; clear ip Hb Hl; intros ip Hb Hl).
    assert (Hst : ∀ e s, -1 <= e <= i + 2 → p6_state (P6 (i + 2) e ip s)).
    { intros. repeat split; cbn [p6_i p6_ip p6_ellipsis]; try done; try lia.
      rewrite Z.add_mod, He by lia. done. }
    assert (Hst' : p6_state (P6 (i + 2) (i + 2) ip []) ∧ True) by (split; [apply Hst; lia|done]).
    eapply safe_bind; [apply safe_from; lia|]. intros s1 ->.
    pose proof (len_nonneg (drop (Z.to_nat off) s)).
    apply safe_if; intros H0; [apply Hst; lia|].
    eapply safe_bind; [apply safe_at; lia|]. intros c _.
    apply safe_if; intros _; [done|]. apply safe_if; intros H1; [done|].
    eapply safe_bind; [apply safe_from; lia|]. intros s2 ->.
    assert (0 < len (drop (Z.to_nat 1) (drop (Z.to_nat off) s))) by (rewrite len_drop; lia).
    eapply safe_bind; [apply safe_at; lia|]. intros c' _.
    apply safe_if; intros _; [|split; [apply Hst; lia|done]].
    apply safe_if; intros _; [done|].
    eapply safe_bind; [apply safe_from; lia|]. intros s3 ->.
    apply safe_if; intros _; [apply Hst; lia|split; [apply Hst; lia|done]].
Qed.

(** The loop ends: the index grows by two at each turn, so nine turns always
    suffice. *)
Lemma parseIPv6_loop_safe fuel in_ st :
  p6_state st → 16 - p6_i st < 2 * Z.of_nat fuel → safe p6_state (parseIPv6_loop fuel in_ st).
Proof.
  revert st. induction fuel as [|fuel IH]; intros st Hst Hf.
  { destruct Hst as (?&?&?&?). lia. }
  cbn [parseIPv6_loop]. apply safe_if; intros Hlt; [|done].
  eapply safe_bind; [apply parseIPv6_body_safe; [done|lia]|].
  intros [st'|st'] Hst'; [exact Hst'|]. destruct Hst' as [Hst' Hi].
  apply IH; [done|lia].
Qed.

Lemma expand_move_safe count ip j n : is_bytes ip → 0 <= n →
  (count = 0%nat ∨ 0 <= j - Z.of_nat count + 1) → j + n < len ip →
  safe (λ ip', is_bytes ip' ∧ len ip' = len ip) (expand_move count ip j n).
Proof.
  revert ip j. induction count as [|count IH]; intros ip j Hb Hn Hj Hjn; [done|].
  cbn [expand_move]. eapply safe_bind; [apply safe_at; lia|]. intros b Eb.
  eapply safe_bind; [apply safe_set_at; lia|]. intros ip' ->.
  eapply safe_mono; [apply IH|]; rewrite ?len_insert; try lia; [|done].
  apply is_bytes_insert; [done|]. exact (is_bytes_lookup _ _ _ Hb Eb).
Qed.
Lemma expand_zero_safe count ip j : is_bytes ip →
  (count = 0%nat ∨ 0 <= j - Z.of_nat count + 1) → j < len ip →
  safe (λ ip', is_bytes ip' ∧ len ip' = len ip) (expand_zero count ip j).
Proof.
  revert ip j. induction count as [|count IH]; intros ip j Hb Hj Hjn; [done|].
  cbn [expand_zero]. eapply safe_bind; [apply safe_set_at; lia|]. intros ip' ->.
  eapply safe_mono; [apply IH|]; rewrite ?len_insert; try lia; [|done].
  apply is_bytes_insert; [done|]. unfold is_u8. lia.
Qed.

(** What parsing an IPv6 text returns. *)
Definition v6_result (ip : Addr) : Prop := wf_addr ip ∧ Addr_Is6 ip = true.
Lemma WithZone_v6 a zone : wf_addr a → z a = z6noz → v6_result (Addr_WithZone a zone).
Proof.
  intros Hw Hz. split; [by apply wf_WithZone|]. unfold Addr_WithZone.
  assert (E : Addr_Is6 a = true) by (unfold Addr_Is6; by rewrite Hz).
  rewrite E. simpl. by destruct (beq zone []).
Qed.
Lemma AddrFrom16_v6 ip zone : is_bytes ip → len ip = 16 →
  v6_result (Addr_WithZone (AddrFrom16 ip) zone).
Proof.
  intros Hb Hl. apply WithZone_v6; [|done].
  apply AddrFrom16_wf; [unfold len in Hl; lia|done].
Qed.

Lemma parseIPv6_finish_safe in_ zone st : p6_state st → safe v6_result (parseIPv6_finish in_ zone st).
Proof.
  destruct st as [i e ip s]. intros (Hb&Hl&Hi&He&Hel). cbn [p6_i p6_ip p6_ellipsis] in *.
  unfold parseIPv6_finish. apply safe_if; intros _; [done|].
  apply safe_if; intros Hi16.
  - apply safe_if; intros Hneg; [done|]. cbv zeta.
    eapply safe_bind; [apply expand_move_safe; [done|lia|lia|lia]|].
    intros ip1 [Hb1 Hl1]. rewrite Hl in Hl1.
    eapply safe_bind; [apply expand_zero_safe; [done|lia|lia]|].
    intros ip2 [Hb2 Hl2]. apply AddrFrom16_v6; [done|lia].
  - apply safe_if; intros _; [done|]. by apply AddrFrom16_v6.
Qed.
Lemma parseIPv6_addr_safe in_ s zone : safe v6_result (parseIPv6_addr in_ s zone).
Proof.
  unfold parseIPv6_addr. eapply (safe_bind (λ b, b = true → 2 <= len s)).
  { apply safe_if; intros H; [|done].
    do 2 (eapply safe_bind; [apply safe_at; lia|]; intros ? _). simpl. lia. }
  intros lead Hlead. eapply (safe_bind (λ _, True)).
  { destruct lead; [|done]. eapply safe_mono; [apply safe_from|done].
    specialize (Hlead eq_refl). lia. }
  intros s1 _. apply safe_if; intros _.
  - apply WithZone_v6; [|done]. repeat split; unfold is_u64; simpl; lia.
  - eapply safe_bind; [apply parseIPv6_loop_safe|intros st Hst; by apply parseIPv6_finish_safe].
    + repeat split; cbn [p6_i p6_ip p6_ellipsis]; try done; try (destruct lead; lia).
      unfold is_bytes. apply Forall_replicate. unfold is_u8. lia.
    + cbn [p6_i]. lia.
Qed.

Lemma index_loop_bound s c i : index_loop s c i = -1 ∨ i <= index_loop s c i < i + len s.
Proof.
  revert i. induction s as [|x s IH]; intros i; [by left|]. cbn [index_loop].
  rewrite len_cons. pose proof (len_nonneg s). destruct (x =? c); [right; lia|].
  destruct (IH (i + 1)); [by left|right; lia].
Qed.
Lemma parseIPv6_safe in_ : safe v6_result (parseIPv6 in_).
Proof.
  unfold parseIPv6, IndexByteString. pose proof (index_loop_bound in_ "%"%byte 0) as Hb.
  cbv zeta. apply safe_if; intros Hi; [|apply parseIPv6_addr_safe].
  assert (Hr : 0 <= index_loop in_ "%"%byte 0 < len in_) by lia.
  eapply safe_bind; [apply safe_upto; lia|]. intros s _.
  eapply safe_bind; [apply safe_from; lia|]. intros zone _.
  apply safe_if; intros _; [done|apply parseIPv6_addr_safe].
Qed.

Lemma ParseAddr_loop_safe s rest :
  safe (λ ip, wf_addr ip ∧ Addr_IsValid ip = true) (ParseAddr_loop s rest).
Proof.
  induction rest as [|c rest IH]; [done|]. cbn [ParseAddr_loop].
  apply safe_if; intros _.
  { eapply safe_mono; [apply parseIPv4_safe|]. intros ip [Hw Hz]. split; [done|].
    unfold Addr_IsValid. by rewrite Hz. }
  apply safe_if; intros _.
  { eapply safe_mono; [apply parseIPv6_safe|]. intros ip [Hw [Hz _]%Addr_Is6_spec].
    split; [done|]. unfold Addr_IsValid. by rewrite bool_decide_false. }
  by apply safe_if.
Qed.
