(* ===== verification/NetipProps.v ===== *)
(** * net/netip: the properties

    The round trips between addresses, address-port pairs and prefixes and
    their text and binary forms, the behaviour of the parsers on every input,
    the order, and the meaning of prefixes as sets of addresses. *)
From S2P Require Import Prelude Strconv Uint128 NetipAddr NetipPrefix NetipText NetipRoundtrip.

(** ** Digits *)
Lemma repr_chars b u s : 2 <= b <= 36 → repr b u s →
  Forall (λ c, ∃ k, 0 <= k < b ∧ c = digit k) s.
Proof.
  intros Hb. induction 1 as [u Hu|u s Hu H IH].
  - repeat constructor. by exists u.
  - apply list.Forall_app. split; [done|]. repeat constructor. exists (u mod b).
    split; [|done]. apply Z.mod_pos_bound. lia.
Qed.
(** No leading zero. *)
Lemma repr_head b u s : 2 <= b <= 36 → repr b u s →
  ∃ k t, s = digit k :: t ∧ 0 <= k < b ∧ (t = [] ∨ 1 <= k).
Proof.
  intros Hb. induction 1 as [u Hu|u s Hu H (k&t&->&Hk&Ht)].
  - exists u, []. auto.
  - exists k, (t ++ [digit (u mod b)]). split; [done|]. split; [done|]. right.
    destruct Ht as [->|]; [|done]. inversion H as [v Hv E1 E2|v s' Hv H' E1 E2].
    + assert (E : digit (u / b) = digit k) by congruence.
      assert (1 <= u / b) by (apply Z.div_le_lower_bound; lia).
      destruct (decide (k = 0)) as [->|]; [|lia]. exfalso.
      assert (Hc : ∀ x, 0 <= x < 36 → digit x = digit 0 → x = 0).
      { clear. intros x Hx. unfold digit.
        assert (x = Z.of_nat (Z.to_nat x)) as -> by lia.
        assert (Hn : (Z.to_nat x < 36)%nat) by lia. revert Hn. generalize (Z.to_nat x). clear.
        intros n Hn. rewrite Nat2Z.id. change (Z.to_nat 0) with 0%nat.
        do 36 (destruct n as [|n]; [cbn; intros; (reflexivity || discriminate)|]). lia. }
      apply Hc in E; [lia|]. split; [lia|].
      assert (u / b < b) by lia. lia.
    + exfalso. destruct s' as [|? s']; [inversion H'; simplify_list_eq; destruct s; done|].
      apply (f_equal length) in E2. rewrite length_app in E2. simpl in E2. lia.
Qed.
Lemma digit_dec k : 0 <= k < 10 → digit k = "0"%byte + k.
Proof. intros. digit_cases k; try reflexivity; lia. Qed.
Lemma repr_dec_not u s c : repr 10 u s → ¬ ("0"%byte <= c <= "9"%byte) → ¬ In c s.
Proof.
  intros Hr Hc Hin. pose proof (repr_chars 10 u s ltac:(lia) Hr) as Hf.
  rewrite List.Forall_forall in Hf. apply Hf in Hin as (k&Hk&->).
  rewrite digit_dec in Hc by done. lia.
Qed.
Lemma dec_repr x : 0 <= x < 256 → repr 10 x (dec x).
Proof.
  intros Hx. assert (Hd : ∀ k, 0 <= k < 10 → digit_at k = digit k).
  { intros k Hk. by rewrite digit_at_dec, digit_dec. }
  assert (Hm : 0 <= x mod 10 < 10) by (apply Z.mod_pos_bound; lia).
  assert (H1 : x < 10 → repr 10 x [digit_at (x mod 10)]).
  { intros. rewrite Z.mod_small, Hd by lia. constructor. lia. }
  unfold dec, appendDecimal. rewrite !Z.geb_leb.
  destruct (Z.leb_spec 100 x), (Z.leb_spec 10 x); try lia; cbn [app]; [| |by apply H1].
  - rewrite (Hd (x mod 10)), (Hd (x / 10 mod 10)) by (done || (apply Z.mod_pos_bound; lia)).
    apply (repr_more 10 x [_; _]); [lia|].
    apply (repr_more 10 (x / 10) [_]); [apply Z.div_le_lower_bound; lia|].
    rewrite Z.div_div by lia. change (10 * 10) with 100.
    rewrite Hd by (split; [apply Z.div_pos; lia|apply Z.div_lt_upper_bound; lia]).
    constructor. split; [apply Z.div_pos; lia|apply Z.div_lt_upper_bound; lia].
  - rewrite (Hd (x mod 10)) by done.
    apply (repr_more 10 x [_]); [lia|].
    assert (0 <= x / 10 < 10) by (split; [apply Z.div_pos; lia|apply Z.div_lt_upper_bound; lia]).
    rewrite Z.mod_small, Hd by done. by constructor.
Qed.

(** ** The last separator *)
Lemma last_index_app pre c post : ¬ In c post →
  LastIndexByteString (pre ++ c :: post) c = len pre.
Proof.
  intros Hn. unfold LastIndexByteString. induction post as [|x post IH] using rev_ind.
  - rewrite length_app. simpl. rewrite Nat.add_1_r. simpl. rewrite app_nth2, Nat.sub_diag by lia.
    simpl. by rewrite Z.eqb_refl.
  - rewrite in_app_iff in Hn.
    replace (length (pre ++ c :: post ++ [x])) with (S (length (pre ++ c :: post)))
      by (rewrite !length_app; simpl; rewrite length_app; simpl; lia).
    cbn [last_index_loop].
    replace (pre ++ c :: post ++ [x]) with ((pre ++ c :: post) ++ [x]) by (by rewrite <- app_assoc).
    rewrite app_nth2, Nat.sub_diag by lia. cbn [nth].
    rewrite (proj2 (Z.eqb_neq x c)) by (intros ->; apply Hn; right; by left).
    rewrite <- IH by tauto. clear.
    assert (H : ∀ n l, (n <= length l)%nat →
      last_index_loop (l ++ [x]) c n = last_index_loop l c n).
    { induction n as [|n IHn]; intros l Hl; [done|]. cbn [last_index_loop].
      rewrite app_nth1 by lia. by rewrite IHn by lia. }
    by apply H.
Qed.
Lemma last_index_bound s c : LastIndexByteString s c = -1 ∨
  0 <= LastIndexByteString s c < len s.
Proof.
  unfold LastIndexByteString, len. generalize (length s) as n.
  induction n as [|n IH]; [by left|]. cbn [last_index_loop].
  destruct (_ =? c); [right; lia|]. destruct IH; [by left|right; lia].
Qed.

(** ** Address and port *)
Definition wf_addrport (p : AddrPort) : Prop := wf_addr (ap_ip p) ∧ is_u16 (ap_port p).

(** The text of a valid pair; [s] is its port in decimal. *)
Definition addrport_text (p : AddrPort) (s : bytes) : bytes :=
  (if Addr_Is4 (ap_ip p) then addr_text (ap_ip p)
   else "["%byte :: addr_text (ap_ip p) ++ "]"%go) ++ ":"%byte :: s.

Lemma AddrPort_AppendTo_text p b : wf_addrport p → z (ap_ip p) ≠ z0 →
  ∃ s, repr 10 (ap_port p) s ∧ AddrPort_AppendTo p b = Ok (b ++ addrport_text p s).
Proof.
  intros [Hw Hp] H0. unfold is_u16 in Hp.
  assert (Ha : ∀ b, Addr_AppendTo (ap_ip p) b = b ++ addr_text (ap_ip p)).
  { intros. by apply Addr_AppendTo_text. }
  assert (Hf : ∀ b, ∃ s, repr 10 (ap_port p) s ∧
    AppendUint (b ++ ":"%go) (ap_port p) 10 = Ok (b ++ ":"%byte :: s)).
  { intros b'. destruct (AppendUint_repr (b' ++ ":"%go) (ap_port p) 10) as (s&->&Hr);
      [lia|lia|]. exists s. split; [done|]. by rewrite <- app_assoc. }
  unfold AddrPort_AppendTo, addrport_text.
  destruct (Is6_cases _ H0) as [[E4 Ez]|[E4 E6]]; rewrite E4.
  - rewrite Ez. destruct (Hf (appendTo4 (ap_ip p) b)) as (s&Hs&->). exists s.
    split; [done|]. specialize (Ha b). unfold Addr_AppendTo in Ha. rewrite Ez in Ha.
    by rewrite Ha, <- app_assoc.
  - set (b1 := if Addr_Is4In6 (ap_ip p) then _ else _).
    assert (E : b1 = (b ++ "["%go) ++ addr_text (ap_ip p)).
    { rewrite <- Ha. subst b1. apply Addr_Is6_spec in E6 as [??]. unfold Addr_AppendTo.
      change "[::ffff:"%go with ("["%go ++ "::ffff:"%go). rewrite (app_assoc b).
      by destruct (z (ap_ip p)). }
    rewrite E. destruct (Hf (((b ++ "["%go) ++ addr_text (ap_ip p)) ++ "]"%go)) as (s&Hs&Hf').
    exists s. split; [done|].
    apply Addr_Is6_spec in E6 as [??]. destruct (z (ap_ip p)); try done;
      rewrite Hf', <- !app_assoc; cbn [app]; by rewrite <- app_assoc.
Qed.
Lemma AddrPort_String_text p : wf_addrport p → z (ap_ip p) ≠ z0 →
  AddrPort_String p = AddrPort_MarshalText p.
Proof.
  intros Hwp H0. destruct (AddrPort_AppendTo_text p [] Hwp H0) as (s&Hs&E).
  unfold AddrPort_MarshalText. rewrite E. clear E. destruct Hwp as [Hw Hp].
  unfold AddrPort_String, addrport_text.
  destruct (Uitoa_repr (ap_port p)) as (s'&Hs'&Hr); [unfold is_u16 in Hp; lia|].
  rewrite (repr_unique _ _ _ _ Hr Hs) in Hs'. rewrite Hs'.
  destruct (Is6_cases _ H0) as [[E4 Ez]|[E4 E6]]; rewrite E4.
  - rewrite Ez. destruct (AppendUint_repr (appendTo4 (ap_ip p) [] ++ ":"%go) (ap_port p) 10)
      as (s2&->&Hr2); [unfold is_u16 in Hp; lia|lia|].
    rewrite (repr_unique _ _ _ _ Hr2 Hs). pose proof (Addr_AppendTo_text (ap_ip p) [] Hw H0) as Ha.
    unfold Addr_AppendTo in Ha. rewrite Ez in Ha. rewrite Ha. by rewrite <- app_assoc.
  - rewrite Addr_String_text by done.
    apply Addr_Is6_spec in E6 as [??]. by destruct (z (ap_ip p)); try done;
      cbn [mbind res_bind app]; rewrite <- !app_assoc.
Qed.

(** A valid address's text is not empty, and an IPv4 one starts with a digit. *)
Lemma addr_text_ne ip : wf_addr ip → z ip ≠ z0 → addr_text ip ≠ [].
Proof.
  intros Hw H0 E. pose proof (ParseAddr_text ip Hw H0) as H. by rewrite E in H.
Qed.
Lemma addr_text_digit ip : wf_addr ip → z ip = z4 →
  ∃ c t, addr_text ip = c :: t ∧ "0"%byte <= c <= "9"%byte.
Proof.
  intros Hw Hz. destruct (z4_AddrFrom4 ip Hw Hz) as (a0&a1&a2&a3&Ha&E&_).
  unfold addr_text, Addr_Is4, Addr_Zone. rewrite Hz. simpl. rewrite app_nil_r.
  rewrite E. unfold string4. rewrite string4_dotted by done. unfold dotted.
  unfold is_bytes in Ha. rewrite !list.Forall_cons in Ha. destruct Ha as (Ha&_).
  destruct (repr_head 10 _ _ ltac:(lia) (dec_repr a0 Ha)) as (k&t&->&Hk&_).
  simpl. eexists _, _. split; [reflexivity|]. rewrite digit_dec; lia.
Qed.

Lemma splitAddrPort_text p s : wf_addrport p → z (ap_ip p) ≠ z0 →
  repr 10 (ap_port p) s →
  splitAddrPort (addrport_text p s) = Ok (addr_text (ap_ip p), s, negb (Addr_Is4 (ap_ip p))).
Proof.
  intros [Hw Hp] H0 Hr. pose proof (addr_text_ne _ Hw H0) as Hne.
  destruct (repr_head 10 _ s ltac:(lia) Hr) as (k&t&Es&_&_).
  unfold splitAddrPort, addrport_text.
  set (a := if Addr_Is4 (ap_ip p) then _ else _).
  assert (Hc : ¬ In ":"%byte s) by (apply (repr_dec_not _ _ _ Hr); lia).
  rewrite last_index_app by done. pose proof (len_nonneg a).
  rewrite (proj2 (Z.eqb_neq (len a) (-1))) by lia.
  rewrite upto_len. cbn [mbind res_bind]. rewrite from_app_cons. cbn [mbind res_bind].
  assert (Hla : 0 < len a) by (apply len_pos_list; subst a; by destruct (Addr_Is4 _)).
  rewrite (proj2 (Z.eqb_neq (len a) 0)), (proj2 (Z.eqb_neq (len s) 0))
    by (rewrite ?Es, ?len_cons; pose proof (len_nonneg t); lia).
  destruct (Is6_cases _ H0) as [[E4 Ez]|[E4 E6]]; subst a; rewrite E4 in *.
  - destruct (addr_text_digit _ Hw Ez) as (c&t'&E&Hd). rewrite E.
    change (at_ (c :: t') 0) with (Ok c). cbn [mbind res_bind].
    rewrite (proj2 (Z.eqb_neq c _)) by lia. done.
  - set (x := addr_text (ap_ip p)) in *. pose proof (len_pos_list x Hne).
    change (at_ ("["%byte :: x ++ "]"%go) 0) with (Ok "["%byte). cbn [mbind res_bind].
    change ("["%byte =? "["%byte) with true. cbv iota.
    assert (Hl : len ("["%byte :: x ++ "]"%go) = len x + 2)
      by (rewrite len_cons, len_app; change (len "]"%go) with 1; lia).
    rewrite Hl, (proj2 (Z.ltb_ge _ 2)) by lia.
    change ("["%byte :: x ++ "]"%go) with (("["%byte :: x) ++ "]"%go).
    replace (len x + 2 - 1) with (len ("["%byte :: x)) by (rewrite len_cons; lia).
    rewrite at_app_len. cbn [mbind res_bind].
    change ("]"%byte =? "]"%byte) with true. cbv iota. cbn [negb].
    rewrite slice_ok; [|rewrite len_cons; lia|rewrite len_app; change (len "]"%go) with 1; lia].
    cbn [mbind res_bind]. unfold len. rewrite Nat2Z.id, take_app_length. done.
Qed.

Lemma ParseAddrPort_text p s : wf_addrport p → z (ap_ip p) ≠ z0 → repr 10 (ap_port p) s →
  ParseAddrPort (addrport_text p s) = Ok p.
Proof.
  intros Hwp H0 Hr. pose proof Hwp as [Hw Hp]. unfold ParseAddrPort.
  rewrite splitAddrPort_text by done. cbn [mbind res_bind].
  rewrite (ParseUint_repr 10 (ap_port p)) by (assumption || lia || apply Hp).
  rewrite ParseAddr_text by done. cbn [mbind res_bind]. rewrite u16_id by done.
  destruct p as [ip port]. cbn [ap_ip ap_port] in *.
  destruct (Is6_cases _ H0) as [[E4 Ez]|[E4 E6]]; rewrite ?E4, ?E6; [|done].
  unfold Addr_Is6. by rewrite Ez.
Qed.

(** ** Prefixes *)
Definition prefix_text (p : Prefix) : bytes :=
  addr_text (p_ip p) ++ "/"%byte :: dec (Prefix_Bits p).

Lemma valid_prefix_facts p : wf_prefix p → Prefix_IsValid p = true →
  z (p_ip p) ≠ z0 ∧ Addr_Zone (p_ip p) = [] ∧ 0 <= Prefix_Bits p <= 128 ∧
  is_u8 (Prefix_Bits p) ∧ u8 (Prefix_Bits p) = Prefix_Bits p.
Proof.
  intros Hp Hv. destruct (wf_prefix_bits p Hp Hv) as [Hz Hb].
  pose proof (BitLen_range (p_ip p)). destruct Hp as (_&Hn&_).
  assert (Hu : is_u8 (Prefix_Bits p)) by (unfold is_u8; lia).
  rewrite (u8_id _ Hu). repeat split; try lia; try done.
  destruct (zoneless _ Hn) as [E|[E|E]]; unfold Addr_Zone; by rewrite E.
Qed.

Lemma Prefix_AppendTo_text p b : wf_prefix p → Prefix_IsValid p = true →
  Prefix_AppendTo p b = b ++ prefix_text p.
Proof.
  intros Hp Hv. destruct (valid_prefix_facts p Hp Hv) as (Hz&Hzone&Hb&Hu&Eu).
  unfold Prefix_AppendTo, prefix_text. rewrite Hv.
  assert (E : Prefix_isZero p = false).
  { apply bool_decide_eq_false. intros ->. done. }
  rewrite E. cbn [negb]. rewrite appendDecimal_app, Eu.
  pose proof (Addr_AppendTo_text (p_ip p) b (proj1 Hp) Hz) as Ha.
  set (b1 := if bool_decide (z (p_ip p) = z4) then _ else _).
  assert (Eb : b1 = b ++ addr_text (p_ip p)).
  { rewrite <- Ha. subst b1. unfold Addr_AppendTo. rewrite Hzone. cbn [beq negb].
    by destruct (z (p_ip p)). }
  rewrite Eb, <- !app_assoc. done.
Qed.
Lemma repr_dec x s : 0 <= x < 256 → repr 10 x s → s = dec x.
Proof. intros Hx Hr. exact (repr_unique _ _ _ _ Hr (dec_repr x Hx)). Qed.
Lemma Prefix_String_text p : wf_prefix p → Prefix_IsValid p = true →
  Prefix_String p = Ok (prefix_text p).
Proof.
  intros Hp Hv. destruct (valid_prefix_facts p Hp Hv) as (Hz&Hzone&Hb&Hu&Eu).
  unfold Prefix_String, prefix_text. rewrite Hv. cbn [negb].
  rewrite (Addr_String_text (p_ip p) (proj1 Hp) Hz).
  unfold Itoa. rewrite (proj2 (Z.ltb_ge _ 0)), u64_id by (unfold is_u64; lia).
  destruct (Uitoa_repr (Prefix_Bits p)) as (s&->&Hr); [lia|].
  cbn [mbind res_bind]. rewrite (repr_dec (Prefix_Bits p) s), <- app_assoc by (done || lia). done.
Qed.

Lemma dec_atoi x : 0 <= x < 256 → Atoi (dec x) = (x, None).
Proof.
  intros Hx. pose proof (dec_repr x Hx) as Hr.
  assert (Hl : 0 < len (dec x) < 19).
  { unfold dec, appendDecimal. destruct (x >=? 100), (x >=? 10); unfold len; simpl; lia. }
  assert (Hb : is_bytes (dec x)).
  { pose proof (repr_chars 10 _ _ ltac:(lia) Hr) as Hf. unfold is_bytes.
    eapply list.Forall_impl; [exact Hf|]. intros c (k&Hk&->). rewrite digit_dec by done.
    unfold is_u8. lia. }
  rewrite Atoi_fast_path by done.
  destruct (repr_head 10 _ _ ltac:(lia) Hr) as (k&t&Es&Hk&_).
  rewrite digit_dec in Es by done.
  rewrite (ParseInt_small (dec x) ("0"%byte + k) t x Es).
  - by rewrite (proj2 (Z.eqb_neq _ "-"%byte)) by lia.
  - rewrite (proj2 (Z.eqb_neq _ "-"%byte)), (proj2 (Z.eqb_neq _ "+"%byte)) by lia.
    apply (ParseUint_repr 10 x); [lia|lia|done|]. change (eff_bits 0) with 64. lia.
  - lia.
Qed.

Lemma ParsePrefix_text p : wf_prefix p → Prefix_IsValid p = true →
  ParsePrefix (prefix_text p) = Ok p.
Proof.
  intros Hp Hv. destruct (valid_prefix_facts p Hp Hv) as (Hz&Hzone&Hb&Hu&Eu).
  unfold ParsePrefix, prefix_text. set (a := addr_text (p_ip p)).
  pose proof (dec_repr (Prefix_Bits p) Hu) as Hr. pose proof (len_nonneg a).
  rewrite last_index_app by (apply (repr_dec_not _ _ _ Hr); lia).
  rewrite (proj2 (Z.ltb_ge (len a) 0)) by lia. rewrite upto_len. cbn [mbind res_bind].
  unfold a. rewrite (ParseAddr_text _ (proj1 Hp) Hz). fold a.
  assert (Hn : Addr_Is6 (p_ip p) && negb (bool_decide (z (p_ip p) = z6noz)) = false).
  { destruct Hp as (_&Hn&_). destruct (zoneless _ Hn) as [E|[E|E]]; unfold Addr_Is6; by rewrite E. }
  rewrite Hn, from_app_cons. cbn [mbind res_bind].
  destruct (repr_head 10 _ _ ltac:(lia) Hr) as (k&t&Es&Hk&Ht).
  rewrite dec_atoi by lia. rewrite Es, len_cons, digit_dec by done.
  change (at_ (("0"%byte + k) :: t) 0) with (Ok ("0"%byte + k)).
  assert (El : (if len t + 1 >? 1
     then c ← Ok ("0"%byte + k); Ok ((c <? "1"%byte) || (c >? "9"%byte)) else Ok false) = Ok false).
  { destruct (len t + 1 >? 1) eqn:E; [|done]. cbn [mbind res_bind].
    destruct Ht as [->|Ht]; [done|].
    rewrite (proj2 (Z.ltb_ge _ _)), Z.gtb_ltb, (proj2 (Z.ltb_ge _ _)) by lia. done. }
  rewrite El. cbn [mbind res_bind].
  destruct (wf_prefix_bits p Hp Hv) as [_ Hb'].
  assert (Em : (if Addr_Is6 (p_ip p) then 128 else 32) = Addr_BitLen (p_ip p)).
  { unfold Addr_Is6, Addr_BitLen. destruct (z (p_ip p)); done. }
  rewrite Em, (proj2 (Z.ltb_ge _ 0)), Z.gtb_ltb, (proj2 (Z.ltb_ge _ (Prefix_Bits p))) by lia.
  cbn [orb]. f_equal. destruct p as [ip b1]. unfold PrefixFrom, Prefix_Bits in *.
  cbn [p_ip bitsPlusOne] in *.
  pose proof (PrefixFrom_bits ip (b1 - 1) Hz Hb') as E. unfold PrefixFrom in E.
  cbn [bitsPlusOne] in E. rewrite E, withoutZone_id by apply Hp. f_equal. lia.
Qed.

(** ** Stepping within a family *)
Lemma shift_wf ip d : wf_addr ip → z ip ≠ z0 → 0 <= addr_val ip + d <= family_max ip →
  let q := MkAddr (of_val (val (addr ip) + d)) (z ip) in
  wf_addr q ∧ addr_val q = addr_val ip + d.
Proof.
  intros Hw Hz Hd. unfold family_max in *. cbv zeta.
  destruct (decide (z ip = z4)) as [E|E].
  - rewrite (z4_val ip Hw E), E in *. destruct (mapped_of_val (addr_val ip + d)) as (E1&E2&E3&E4); [lia|].
    rewrite <- Z.add_assoc, E1. split; [|exact E4].
    split; [|split; [done|exact E3]]. split; [unfold is_u64; simpl; lia|exact E2].
  - rewrite (not_z4_val ip E) in *.
    assert (wf128 (of_val (val (addr ip) + d))) by (apply of_val_wf; destruct (z ip); try done; lia).
    split.
    + split; [done|]. cbn [z]. destruct Hw as [_ Hw]. by destruct (z ip).
    + rewrite not_z4_val by done. apply val_of_val.
Qed.
Lemma Prev_step ip : wf_addr ip → z ip ≠ z0 →
  Addr_Prev ip = if addr_val ip =? 0 then zeroAddr
                 else MkAddr (of_val (val (addr ip) - 1)) (z ip).
Proof.
  intros Hw Hz. pose proof Hw as [Hwa _]. pose proof (val_range _ Hwa) as Hr.
  assert (Hs : val (addr ip) ≠ 0 → subOne (addr ip) = of_val (val (addr ip) - 1)).
  { intros Hn. rewrite <- (of_val_val (subOne (addr ip))) by (by apply subOne_wf).
    rewrite val_subOne, Z.mod_small by (done || lia). done. }
  unfold Addr_Prev, Addr_Is4. destruct (decide (z ip = z4)) as [E|E].
  - rewrite bool_decide_true by done. change (u32 (lo (addr ip))) with (u32 (lo (addr ip))).
    assert (Ea : addr_val ip = u32 (lo (addr ip))) by (unfold addr_val; by rewrite E).
    rewrite <- Ea. destruct (Z.eqb_spec (addr_val ip) 0); [done|].
    rewrite Hs; [done|]. rewrite (z4_val ip Hw E). pose proof (addr_val_range ip Hw). lia.
  - rewrite bool_decide_false, isZero_val, (not_z4_val ip E) by done.
    destruct (Z.eqb_spec (val (addr ip)) 0); [done|]. by rewrite Hs.
Qed.
Lemma Next_Prev_shift ip d q : wf_addr ip → q = MkAddr (of_val (val (addr ip) + d)) (z ip) →
  wf_addr q → z q ≠ z0 → val (addr q) = val (addr ip) + d ∧
  MkAddr (of_val (val (addr q) - d)) (z q) = ip.
Proof.
  intros Hw -> Hq Hz. cbn [addr z]. rewrite val_of_val. split; [done|].
  rewrite Z.add_simpl_r, of_val_val by apply Hw. by destruct ip.
Qed.

(** ** Address classes as blocks of addresses *)
Lemma land_high n k x : 0 <= k <= n → 0 <= x < 2 ^ n →
  Z.land x (2 ^ n - 2 ^ k) = x / 2 ^ k * 2 ^ k.
Proof.
  intros Hk Hx. rewrite <- Z.shiftr_div_pow2, <- Z.shiftl_mul_pow2 by lia.
  apply Z.bits_inj'. intros i Hi. rewrite Z.land_spec.
  replace (2 ^ n - 2 ^ k) with (Z.shiftl (Z.ones (n - k)) k).
  2: { rewrite Z.shiftl_mul_pow2, Z.ones_equiv, Z.mul_pred_l, <- Z.pow_add_r by lia.
       f_equal. f_equal. lia. }
  destruct (decide (i < k)).
  { rewrite !(Z.shiftl_spec_low _ k i) by done. by rewrite andb_false_r. }
  rewrite !Z.shiftl_spec, Z.shiftr_spec by lia. replace (i - k + k) with i by lia.
  destruct (decide (i < n)).
  - rewrite Z.ones_spec_low by lia. by rewrite andb_true_r.
  - rewrite (testbit_high x n) by lia. done.
Qed.
(** The bytes and words of an address as digits of its number. *)
Lemma v4_val ip i : wf_addr ip → z ip = z4 → 0 <= i <= 3 →
  v4 ip i = addr_val ip / 2 ^ (8 * (3 - i)) mod 2 ^ 8.
Proof.
  intros Hw Hz Hi. unfold v4, addr_val. rewrite Hz. 
  assert (i = 0 ∨ i = 1 ∨ i = 2 ∨ i = 3) as [-> |[-> |[-> | ->]]] by lia;
  rewrite Z.shiftr_div_pow2 by done; unfold u8 at 1.
  all: match goal with |- context [u8 (u8 ?a * ?b)] => 
    let v := eval vm_compute in (u8 (u8 a * b)) in change (u8 (u8 a * b)) with v end.
  all: match goal with |- context [8 * ?a] => 
    let v := eval vm_compute in (8 * a) in change (8 * a) with v end; zwlia.
Qed.
Lemma hi_val ip k : wf_addr ip → z ip ≠ z4 → 0 <= k → 
  hi (addr ip) / 2 ^ k = addr_val ip / 2 ^ (64 + k).
Proof.
  intros [[_ Hl] _] Hz Hk. rewrite not_z4_val by done. unfold val, is_u64 in *.
  rewrite Z.pow_add_r, <- Z.div_div, Z.div_add_l by lia. rewrite (Z.div_small (lo _)) by lia.
  by rewrite Z.add_0_r.
Qed.

(** Membership in any of some blocks, a zone and an IPv4-mapped form aside. *)
Definition in_blocks (l : list Prefix) (ip : Addr) : bool :=
  existsb (λ p, bool_decide (Prefix_Contains p (withoutZone (Addr_Unmap ip)) = Ok true)) l.

Lemma contains_other p ip : Addr_BitLen (p_ip p) ≠ Addr_BitLen ip →
  Prefix_Contains p ip = Ok false.
Proof.
  intros Hn. unfold Prefix_Contains.
  destruct (negb (Prefix_IsValid p) || hasZone ip); [done|].
  rewrite (proj2 (Z.eqb_neq (Addr_BitLen (p_ip p)) (Addr_BitLen ip))) by done.
  cbn [negb]. by rewrite orb_true_r.
Qed.
Lemma ok_true (b : bool) : bool_decide (Ok b = Ok true) = b.
Proof. by destruct b. Qed.
(** A block of IPv4, and of IPv6, addresses. *)
Lemma block4 a0 a1 a2 a3 b c ip :
  let p := PrefixFrom (AddrFrom4 [a0; a1; a2; a3]) b in
  is_bytes [a0; a1; a2; a3] → 0 <= b <= 32 →
  net 32 b (addr_val (p_ip p)) = c → wf_addr ip → hasZone ip = false →
  bool_decide (Prefix_Contains p ip = Ok true)
  = Addr_Is4 ip && (addr_val ip / 2 ^ (32 - b) =? c).
Proof.
  intros p Ha Hb Hc Hw Hz.
  assert (Hwa : wf_addr (AddrFrom4 [a0; a1; a2; a3])) by (by apply AddrFrom4_wf).
  assert (Hp : wf_prefix p) by (by apply PrefixFrom_wf).
  assert (Hbits : bitsPlusOne p = b + 1) by (apply PrefixFrom_bits; done).
  assert (Hzp : z (p_ip p) = z4) by done. unfold Addr_Is4.
  destruct (decide (z ip = z4)) as [E|E].
  - rewrite contains_same_family; [|done..| |done|by rewrite Hzp].
    + rewrite ok_true, bool_decide_true by done. cbn [andb].
      replace (Addr_BitLen ip) with 32 by (unfold Addr_BitLen; by rewrite E).
      unfold Prefix_Bits. rewrite Hbits, Z.add_simpl_r, Hc. done.
    + unfold Prefix_IsValid. rewrite Hbits, Z.gtb_ltb. apply Z.ltb_lt. lia.
  - rewrite contains_other, (bool_decide_false (z ip = z4)) by
      (done || (unfold Addr_BitLen; rewrite Hzp; by destruct (z ip))). done.
Qed.
Lemma block6 a b c ip : let p := PrefixFrom a b in
  wf_addr a → z a = z6noz → 0 <= b <= 128 →
  net 128 b (addr_val a) = c → wf_addr ip → hasZone ip = false →
  bool_decide (Prefix_Contains p ip = Ok true)
  = Addr_Is6 ip && (addr_val ip / 2 ^ (128 - b) =? c).
Proof.
  intros p Hwa Ha Hb Hc Hw Hz.
  assert (Hp : wf_prefix p) by (by apply PrefixFrom_wf).
  assert (Hbits : bitsPlusOne p = b + 1).
  { apply PrefixFrom_bits; [by rewrite Ha|unfold Addr_BitLen; by rewrite Ha]. }
  assert (Hpip : p_ip p = a).
  { unfold p, PrefixFrom. cbn [p_ip]. apply withoutZone_id. unfold hasZone. by rewrite Ha. }
  destruct (decide (z ip = z6noz)) as [E|E].
  - rewrite contains_same_family; [|done..| |done|by rewrite Hpip, Ha].
    + rewrite ok_true. unfold Addr_Is6. rewrite E. cbn [andb negb bool_decide].
      replace (Addr_BitLen ip) with 128 by (unfold Addr_BitLen; by rewrite E).
      unfold Prefix_Bits. rewrite Hbits, Hpip, Z.add_simpl_r, Hc. done.
    + unfold Prefix_IsValid. rewrite Hbits, Z.gtb_ltb. apply Z.ltb_lt. lia.
  - apply zoneless in Hz. rewrite contains_other.
    + unfold Addr_Is6. destruct Hz as [E'|[E'|E']]; rewrite E'; done.
    + unfold Addr_BitLen. rewrite Hpip, Ha. destruct Hz as [E'|[E'|E']]; by rewrite E'.
Qed.


(** The address a class predicate looks at, and what it reads there. *)
Definition class_view (ip : Addr) : Addr := withoutZone (Addr_Unmap ip).
Lemma class_view_spec ip : wf_addr ip →
  let q := class_view ip in let u := Addr_Unmap ip in
  wf_addr q ∧ hasZone q = false ∧ addr q = addr u ∧ Addr_Is4 q = Addr_Is4 u ∧
  Addr_Is6 q = Addr_Is6 u.
Proof.
  intros Hw q u. split; [by apply wf_withoutZone, wf_Unmap|].
  split; [apply withoutZone_facts|]. unfold q, class_view. fold u.
  unfold withoutZone. destruct (Addr_Is6 u) eqn:E; [|done]. cbn [negb addr]. 
  split; [done|]. split; [|done]. unfold Addr_Is4. apply Addr_Is6_spec in E as [_ E].
  by rewrite (bool_decide_false (z u = z4)).
Qed.
Lemma Unmap_if ip : (if Addr_Is4In6 ip then Addr_Unmap ip else ip) = Addr_Unmap ip.
Proof. unfold Addr_Unmap. by destruct (Addr_Is4In6 ip). Qed.

Lemma v4_0 q : wf_addr q → Addr_Is4 q = true → v4 q 0 = addr_val q / 2 ^ 24.
Proof.
  intros Hw H4%bool_decide_eq_true. rewrite v4_val by (done || lia).
  change (8 * (3 - 0)) with 24. pose proof (addr_val_bound q Hw) as Hb.
  unfold Addr_BitLen in Hb. rewrite H4 in Hb. specialize (Hb ltac:(done)).
  apply Z.mod_small. split; [apply Z.div_pos; lia|apply Z.div_lt_upper_bound; lia].
Qed.
Lemma v6u16_0 q : wf_addr q → Addr_Is6 q = true → v6u16 q 0 = addr_val q / 2 ^ 112.
Proof.
  intros Hw [_ H4]%Addr_Is6_spec. pose proof Hw as [[Hh _] _].
  unfold v6u16. change (Z.to_nat ((0 / 4) mod 2)) with 0%nat.
  change (u8 (u8 (3 - 0 mod 4) * 16)) with 48. cbn [halves nth].
  rewrite Z.shiftr_div_pow2, u16_id, hi_val by
    (done || lia || (unfold is_u16, is_u64 in *; split; [apply Z.div_pos; lia|apply Z.div_lt_upper_bound; lia])).
  done.
Qed.

(** Each class on a zoneless address, as arithmetic on its number. *)
Lemma loopback_val q : wf_addr q → Addr_Is4 q = false → Addr_Is6 q = true →
  (hi (addr q) =? 0) && (lo (addr q) =? 1) = (addr_val q / 2 ^ 0 =? 1).
Proof.
  intros [[Hh Hl] _] _ [_ H4]%Addr_Is6_spec. rewrite not_z4_val by done.
  unfold val, is_u64 in *. rewrite Z.pow_0_r, Z.div_1_r.
  destruct (Z.eqb_spec (hi (addr q)) 0), (Z.eqb_spec (lo (addr q)) 1),
    (Z.eqb_spec (hi (addr q) * 2 ^ 64 + lo (addr q)) 1); (reflexivity || nia || lia).
Qed.
Lemma eqb_iff (a b c d : Z) : (a = b ↔ c = d) → (a =? b) = (c =? d).
Proof. intros H. destruct (Z.eqb_spec a b), (Z.eqb_spec c d); tauto. Qed.
Lemma andb_eqb_iff (a b c d e f : Z) : (a = b ∧ c = d ↔ e = f) → (a =? b) && (c =? d) = (e =? f).
Proof. intros H. destruct (Z.eqb_spec a b), (Z.eqb_spec c d), (Z.eqb_spec e f); tauto. Qed.

Ltac block_side :=
  first [assumption | lia | reflexivity
        | (unfold is_bytes, is_u8; repeat (apply list.Forall_cons; split; [lia|]);
           apply list.Forall_nil; exact I)
        | (vm_compute; reflexivity)
        | (split; [|exact I]; vm_compute; repeat split; intros H; discriminate H)].
Ltac class_start ip Hw :=
  let Hq := fresh "Hq" in let Hz := fresh "Hz" in let Ea := fresh "Ea" in
  let E4 := fresh "E4" in let E6 := fresh "E6" in
  unfold in_blocks; cbn [existsb]; fold (class_view ip);
  destruct (class_view_spec ip Hw) as (Hq&Hz&Ea&E4&E6);
  cbv zeta; rewrite Unmap_if; unfold v4, v6, v6u16; rewrite <- Ea, <- E4, <- E6;
  revert Hq Hz; clear; generalize (class_view ip); intros q Hq Hz.

Lemma loopback_blocks ip : wf_addr ip →
  Addr_IsLoopback ip =
    in_blocks [PrefixFrom (AddrFrom4 [127; 0; 0; 0]) 8; PrefixFrom IPv6Loopback 128] ip.
Proof.
  intros Hw. unfold Addr_IsLoopback. class_start ip Hw. fold (v4 q 0).
  rewrite (block4 127 0 0 0 8 127) by block_side.
  rewrite (block6 IPv6Loopback 128 1) by block_side. rewrite orb_false_r.
  destruct (Addr_Is4 q) eqn:E4.
  - rewrite (v4_0 q) by done. unfold Addr_Is6. apply bool_decide_eq_true in E4. rewrite E4.
    cbn. by rewrite orb_false_r.
  - cbn [andb orb]. destruct (Addr_Is6 q) eqn:E6; [|done]. by rewrite loopback_val.
Qed.
Lemma Is4_not6 q : Addr_Is4 q = true → Addr_Is6 q = false.
Proof. intros E%bool_decide_eq_true. unfold Addr_Is6. by rewrite E. Qed.
Lemma v4_1 q : wf_addr q → Addr_Is4 q = true → v4 q 1 = addr_val q / 2 ^ 16 mod 2 ^ 8.
Proof. intros Hw H4%bool_decide_eq_true. by rewrite v4_val by (done || lia). Qed.
Lemma Is4_bound q : wf_addr q → Addr_Is4 q = true → 0 <= addr_val q < 2 ^ 32.
Proof.
  intros Hw H4%bool_decide_eq_true. pose proof (addr_val_bound q Hw) as Hb.
  unfold Addr_BitLen in Hb. rewrite H4 in Hb. by apply Hb.
Qed.
Lemma Is6_top q k : wf_addr q → Addr_Is6 q = true → 0 <= k <= 64 →
  Z.shiftr (hi (addr q)) (64 - k) = addr_val q / 2 ^ (128 - k).
Proof.
  intros Hw [_ H4]%Addr_Is6_spec Hk. rewrite Z.shiftr_div_pow2, hi_val by (done || lia).
  f_equal. f_equal. lia.
Qed.
Lemma v6_0 q : wf_addr q → Addr_Is6 q = true → v6 q 0 = addr_val q / 2 ^ 120.
Proof.
  intros Hw H6. pose proof Hw as [[Hh _] _].
  change 120 with (128 - 8). rewrite <- (Is6_top q 8) by (done || lia).
  unfold v6. change (Z.to_nat ((0 / 8) mod 2)) with 0%nat.
  change (u8 (u8 (7 - 0 mod 8) * 8)) with 56. cbn [halves nth]. apply u8_id.
  rewrite Z.shiftr_div_pow2 by lia. unfold is_u8, is_u64 in *.
  split; [apply Z.div_pos; lia|apply Z.div_lt_upper_bound; lia].
Qed.
(** The first [j] bits of [a / 2 ^ m]. *)
Lemma block_bits a m j c w : 0 <= m → 0 <= j <= w → 0 <= a / 2 ^ m < 2 ^ w →
  (Z.land (a / 2 ^ m) (2 ^ w - 2 ^ j) =? c * 2 ^ j) = (a / 2 ^ (m + j) =? c).
Proof.
  intros Hm Hj Ha. rewrite land_high by lia. rewrite Z.pow_add_r, <- Z.div_div by lia.
  apply eqb_iff. assert (0 < 2 ^ j) by (apply Z.pow_pos_nonneg; lia). nia.
Qed.
Lemma div_range a m n : 0 <= m → 0 <= n → 0 <= a < 2 ^ (m + n) → 0 <= a / 2 ^ m < 2 ^ n.
Proof.
  intros Hm Hn Ha. rewrite Z.pow_add_r in Ha by lia. assert (0 < 2 ^ m) by (apply Z.pow_pos_nonneg; lia).
  split; [apply Z.div_pos; lia|apply Z.div_lt_upper_bound; lia].
Qed.
Lemma Is6_bound q : wf_addr q → 0 <= addr_val q < 2 ^ 128.
Proof.
  intros Hw. pose proof (addr_val_range q Hw). unfold family_max in *. destruct (z q); lia.
Qed.

Lemma linklocal_blocks ip : wf_addr ip →
  Addr_IsLinkLocalUnicast ip =
    in_blocks [PrefixFrom (AddrFrom4 [169; 254; 0; 0]) 16;
               PrefixFrom (MkAddr (U128 (0xfe80 * 2 ^ 48) 0) z6noz) 10] ip.
Proof.
  intros Hw. unfold Addr_IsLinkLocalUnicast. class_start ip Hw.
  fold (v4 q 0) (v4 q 1) (v6u16 q 0).
  rewrite (block4 169 254 0 0 16 (169 * 2 ^ 8 + 254)) by block_side.
  rewrite (block6 _ 10 0x3fa) by block_side. rewrite orb_false_r.
  destruct (Addr_Is4 q) eqn:E4.
  - rewrite (Is4_not6 q E4), v4_0, v4_1 by done. cbn [andb orb]. rewrite orb_false_r.
    pose proof (Is4_bound q Hq E4). apply andb_eqb_iff. change (32 - 16) with 16. zwlia.
  - cbn [andb orb]. destruct (Addr_Is6 q) eqn:E6; [|done]. rewrite v6u16_0 by done.
    apply (block_bits (addr_val q) 112 6 0x3fa 16); [lia|lia|].
    pose proof (Is6_bound q Hq). by apply div_range.
Qed.
Lemma multicast_blocks ip : wf_addr ip →
  Addr_IsMulticast ip =
    in_blocks [PrefixFrom (AddrFrom4 [224; 0; 0; 0]) 4;
               PrefixFrom (MkAddr (U128 (0xff00 * 2 ^ 48) 0) z6noz) 8] ip.
Proof.
  intros Hw. unfold Addr_IsMulticast. class_start ip Hw.
  fold (v4 q 0).
  rewrite (block4 224 0 0 0 4 14) by block_side.
  rewrite (block6 _ 8 0xff) by block_side. rewrite orb_false_r.
  destruct (Addr_Is4 q) eqn:E4.
  - rewrite (Is4_not6 q E4), v4_0 by done. cbn [andb orb]. rewrite orb_false_r.
    pose proof (Is4_bound q Hq E4).
    apply (block_bits (addr_val q) 24 4 14 8); [lia|lia|]. by apply div_range.
  - cbn [andb orb]. destruct (Addr_Is6 q) eqn:E6; [|done].
    by rewrite (Is6_top q 8) by (done || lia).
Qed.
Lemma private_blocks ip : wf_addr ip →
  Addr_IsPrivate ip =
    in_blocks [PrefixFrom (AddrFrom4 [10; 0; 0; 0]) 8; PrefixFrom (AddrFrom4 [172; 16; 0; 0]) 12;
               PrefixFrom (AddrFrom4 [192; 168; 0; 0]) 16;
               PrefixFrom (MkAddr (U128 (0xfc00 * 2 ^ 48) 0) z6noz) 7] ip.
Proof.
  intros Hw. unfold Addr_IsPrivate. class_start ip Hw.
  fold (v4 q 0) (v4 q 1) (v6 q 0).
  rewrite (block4 10 0 0 0 8 10), (block4 172 16 0 0 12 (172 * 2 ^ 4 + 1)),
    (block4 192 168 0 0 16 (192 * 2 ^ 8 + 168)) by block_side.
  rewrite (block6 _ 7 126) by block_side. rewrite orb_false_r.
  destruct (Addr_Is4 q) eqn:E4.
  - rewrite (Is4_not6 q E4), v4_0, v4_1 by done. cbn [andb orb]. rewrite orb_false_r.
    pose proof (Is4_bound q Hq E4) as Hb. rewrite <- orb_assoc. f_equal. f_equal.
    + assert (Hm : 0 <= addr_val q / 2 ^ 16 mod 2 ^ 8 < 2 ^ 8) by (apply Z.mod_pos_bound; lia).
      change 0xf0 with (2 ^ 8 - 2 ^ 4). rewrite land_high by lia.
      apply andb_eqb_iff. change (32 - 12) with 20. zwlia.
    + apply andb_eqb_iff. change (32 - 16) with 16. zwlia.
  - cbn [andb orb]. destruct (Addr_Is6 q) eqn:E6; [|done]. rewrite v6_0 by done.
    apply (block_bits (addr_val q) 120 1 126 8); [lia|lia|].
    pose proof (Is6_bound q Hq). by apply div_range.
Qed.

(** ** Text *)
Lemma valid_z ip : Addr_IsValid ip = true ↔ z ip ≠ z0.
Proof. unfold Addr_IsValid. by rewrite negb_true_iff, bool_decide_eq_false. Qed.

Lemma UnmarshalText_ok old t ip : ParseAddr t = Ok ip → Addr_UnmarshalText old t = (ip, Ok tt).
Proof. intros E. unfold Addr_UnmarshalText. rewrite E. by destruct t. Qed.

(** C30: Printing a valid address and parsing the text gives the address back,
    zone included, whichever of String, AppendTo and MarshalText printed it;
    the three agree. *)
Theorem ParseAddr_String ip : wf_addr ip → Addr_IsValid ip = true →
  ParseAddr (Addr_String ip) = Ok ip ∧
  (∀ b, Addr_AppendTo ip b = b ++ Addr_String ip) ∧
  Addr_MarshalText ip = Addr_String ip ∧
  ∀ old, Addr_UnmarshalText old (Addr_MarshalText ip) = (ip, Ok tt).
Proof.
  intros Hw Hz%valid_z. rewrite Addr_String_text, Addr_MarshalText_text by done.
  split; [by apply ParseAddr_text|]. split; [intros; by apply Addr_AppendTo_text|].
  split; [done|]. intros old. by apply UnmarshalText_ok, ParseAddr_text.
Qed.
Definition sample6 : Addr := MkAddr (U128 0x20010db800000000 0x68) (zname "eth0"%go).
Lemma sample6_wf : wf_addr sample6.
Proof. split; [vm_compute; repeat split; intros H; discriminate H|discriminate]. Defined.
Lemma ParseAddr_String_witness :
  Addr_String sample6 = "2001:db8::68%eth0"%go ∧
  ParseAddr "2001:db8::68%eth0"%go = Ok sample6.
Proof.
  split; [reflexivity|].
  destruct (ParseAddr_String sample6 sample6_wf ltac:(reflexivity)) as [H _]. exact H.
Defined.

(** ParseAddr on any bytes. *)
Lemma ParseAddr_any s :
  (∃ ip, ParseAddr s = Ok ip ∧ wf_addr ip ∧ Addr_IsValid ip = true) ∨
  ∃ e, ParseAddr s = Err e.
Proof.
  pose proof (ParseAddr_loop_safe s s) as H. fold (ParseAddr s) in H.
  by apply safe_iff in H.
Qed.

(** The text of an IPv6 address is canonical: the words are hexadecimal
    without leading zeros, and the longest run of at least two zero words, the
    first of the longest ones, is written "::". *)
Theorem String_canonical ip : wf_addr ip → Addr_Is6 ip = true →
  Addr_Is4In6 ip = false → Addr_Zone ip = [] →
  (Addr_String ip = join6 (words ip) ∧ ∀ a b, ¬ zero_words ip a b) ∨
  ∃ zs ze, zero_words ip zs ze ∧
    (∀ a b, zero_words ip a b → b - a <= ze - zs ∧ (b - a = ze - zs → zs <= a)) ∧
    Addr_String ip = join6 (take (Z.to_nat zs) (words ip)) ++ "::"%go ++
                     join6 (drop (Z.to_nat ze) (words ip)).
Proof.
  intros Hw H6 H46 Hz. pose proof (proj1 (Addr_Is6_spec ip) H6) as [H0 H4].
  rewrite Addr_String_text by done. unfold addr_text, Addr_Is4.
  rewrite bool_decide_false, H46, Hz by done. simpl zone_suffix. rewrite app_nil_r.
  unfold body6. pose proof (longest_run_best ip) as Hb.
  destruct (longest_run 8 ip 0 255 255) as [zs ze]. destruct Hb as [Hok Hmax].
  destruct Hok as [[-> ->]|Hzw].
  - left. split; [apply emit6_plain|]. intros a b Hab.
    destruct (Hmax a b ltac:(destruct Hab; lia) Hab). destruct Hab. lia.
  - right. exists zs, ze. split; [done|]. split.
    + intros a b Hab. apply Hmax; [destruct Hab; lia|done].
    + destruct Hzw as (?&?&?&_). by rewrite emit6_run.
Qed.
Definition sample_runs : Addr := AddrFrom16 [0x20;1; 0;0; 0;0; 0;1; 0;0; 0;0; 0;0; 0;0x68].
Lemma String_canonical_witness : Addr_String sample_runs = "2001:0:0:1::68"%go ∧
  ((Addr_String sample_runs = join6 (words sample_runs) ∧ ∀ a b, ¬ zero_words sample_runs a b) ∨
  ∃ zs ze, zero_words sample_runs zs ze ∧
    (∀ a b, zero_words sample_runs a b → b - a <= ze - zs ∧ (b - a = ze - zs → zs <= a)) ∧
    Addr_String sample_runs = join6 (take (Z.to_nat zs) (words sample_runs)) ++ "::"%go ++
                     join6 (drop (Z.to_nat ze) (words sample_runs))).
Proof.
  split; [vm_compute; reflexivity|].
  apply (String_canonical sample_runs); [|vm_compute; reflexivity..].
  split; [vm_compute; repeat split; intros H; discriminate H|exact I].
Defined.

(** Printing a valid address-port pair and parsing the text gives the pair
    back; String and MarshalText agree. *)
Theorem ParseAddrPort_String p : wf_addrport p → AddrPort_IsValid p = true →
  ∃ s, AddrPort_String p = Ok s ∧ AddrPort_MarshalText p = Ok s ∧
       ParseAddrPort s = Ok p ∧ ∀ old, AddrPort_UnmarshalText old s = (p, Ok tt).
Proof.
  intros Hw Hz%valid_z. destruct (AddrPort_AppendTo_text p [] Hw Hz) as (s&Hs&E).
  exists (addrport_text p s). rewrite AddrPort_String_text by done.
  pose proof (ParseAddrPort_text p s Hw Hz Hs) as Hp.
  repeat split; [exact E|exact E|exact Hp|]. intros old. unfold AddrPort_UnmarshalText.
  rewrite Hp. unfold addrport_text. by destruct (Addr_Is4 _), (addr_text (ap_ip p)).
Qed.
Lemma ParseAddrPort_String_witness :
  ∃ s, AddrPort_String (MkAddrPort sample6 8080) = Ok s ∧
       AddrPort_MarshalText (MkAddrPort sample6 8080) = Ok s ∧
       ParseAddrPort s = Ok (MkAddrPort sample6 8080) ∧
       ∀ old, AddrPort_UnmarshalText old s = (MkAddrPort sample6 8080, Ok tt).
Proof.
  apply (ParseAddrPort_String (MkAddrPort sample6 8080)); [|reflexivity].
  split; [exact sample6_wf|]. vm_compute. split; [intros H; discriminate H|reflexivity].
Defined.

(** Printing a valid prefix and parsing the text gives the prefix back;
    String, AppendTo and MarshalText agree. *)
Theorem ParsePrefix_String p : wf_prefix p → Prefix_IsValid p = true →
  ∃ s, Prefix_String p = Ok s ∧ (∀ b, Prefix_AppendTo p b = b ++ s) ∧
       Prefix_MarshalText p = s ∧ ParsePrefix s = Ok p ∧
       ∀ old, Prefix_UnmarshalText old s = (p, Ok tt).
Proof.
  intros Hp Hv. exists (prefix_text p). pose proof (ParsePrefix_text p Hp Hv) as E.
  split; [by apply Prefix_String_text|]. split; [intros; by apply Prefix_AppendTo_text|].
  split; [by apply (Prefix_AppendTo_text p [])|]. split; [done|]. intros old.
  unfold Prefix_UnmarshalText. rewrite E. unfold prefix_text. by destruct (addr_text (p_ip p)).
Qed.
Definition sample_net : Prefix := PrefixFrom (AddrFrom4 [10; 1; 0; 0]) 16.
Lemma sample_net_wf : wf_prefix sample_net.
Proof.
  repeat split; vm_compute; try (intros H; discriminate H); reflexivity.
Defined.
Lemma ParsePrefix_String_witness :
  ∃ s, Prefix_String sample_net = Ok s ∧ (∀ b, Prefix_AppendTo sample_net b = b ++ s) ∧
       Prefix_MarshalText sample_net = s ∧ ParsePrefix s = Ok sample_net ∧
       ∀ old, Prefix_UnmarshalText old s = (sample_net, Ok tt).
Proof. exact (ParsePrefix_String sample_net sample_net_wf ltac:(reflexivity)). Defined.

(** Printing a valid address-port pair or prefix and parsing the text gives
    the value back, from every printer and by every parser: String, AppendTo and
    MarshalText agree, and so do Parse and UnmarshalText whatever the receiver
    held. *)
Theorem pairs_and_prefixes_text a p :
  wf_addrport a → AddrPort_IsValid a = true → wf_prefix p → Prefix_IsValid p = true →
  (∃ s, AddrPort_String a = Ok s ∧ AddrPort_MarshalText a = Ok s ∧
        ParseAddrPort s = Ok a ∧ ∀ old, AddrPort_UnmarshalText old s = (a, Ok tt)) ∧
  (∃ s, Prefix_String p = Ok s ∧ (∀ b, Prefix_AppendTo p b = b ++ s) ∧ Prefix_MarshalText p = s ∧
        ParsePrefix s = Ok p ∧ ∀ old, Prefix_UnmarshalText old s = (p, Ok tt)).
Proof. intros Ha Hav Hp Hpv. split; [by apply ParseAddrPort_String|by apply ParsePrefix_String]. Qed.
Lemma pairs_and_prefixes_text_witness :
  AddrPort_IsValid (MkAddrPort sample6 8080) = true ∧ Prefix_IsValid sample_net = true ∧
  ∃ s, AddrPort_String (MkAddrPort sample6 8080) = Ok s ∧ ParseAddrPort s = Ok (MkAddrPort sample6 8080).
Proof.
  split; [reflexivity|]. split; [reflexivity|].
  destruct (pairs_and_prefixes_text (MkAddrPort sample6 8080) sample_net) as [(s&E1&_&E2&_) _];
    [split; [exact sample6_wf|vm_compute; split; [intros H; discriminate H|reflexivity]]|reflexivity|exact sample_net_wf|reflexivity|]. exact (ex_intro _ s (conj E1 E2)).
Defined.

Lemma splitAddrPort_safe s : safe (λ _, True) (splitAddrPort s).
Proof.
  unfold splitAddrPort. pose proof (last_index_bound s ":"%byte) as Hb.
  apply safe_if; intros Hi; [done|].
  eapply safe_bind; [apply safe_upto; lia|]. intros ip Hip.
  eapply safe_bind; [apply safe_from; lia|]. intros port _.
  pose proof (len_nonneg ip).
  apply safe_if; intros Hl; [done|]. apply safe_if; intros _; [done|].
  eapply safe_bind; [apply safe_at; lia|]. intros c _.
  apply safe_if; intros _; [|done].
  eapply (safe_bind (λ b, b = true → 2 <= len ip)).
  { apply safe_if; intros H2; [done|]. eapply safe_bind; [apply safe_at; lia|].
    intros l _. simpl. lia. }
  intros closed Hc. apply safe_if; intros Hn; [done|].
  destruct closed; [|done]. specialize (Hc eq_refl).
  eapply safe_bind; [apply safe_slice; lia|done].
Qed.

(** On any bytes whatever ParseAddr, ParseAddrPort and ParsePrefix report an
    error or return a well-formed valid address, pair or prefix; they never
    panic and their loops end. *)
Theorem parsers_any s :
  ((∃ ip, ParseAddr s = Ok ip ∧ wf_addr ip ∧ Addr_IsValid ip = true) ∨
   ∃ e, ParseAddr s = Err e) ∧
  ((∃ p, ParseAddrPort s = Ok p ∧ wf_addrport p ∧ AddrPort_IsValid p = true) ∨
   ∃ e, ParseAddrPort s = Err e) ∧
  ((∃ p, ParsePrefix s = Ok p ∧ wf_prefix p ∧ Prefix_IsValid p = true) ∨
   ∃ e, ParsePrefix s = Err e).
Proof.
  split; [apply ParseAddr_any|].
  split; [apply (safe_iff (λ p, wf_addrport p ∧ AddrPort_IsValid p = true))
         |apply (safe_iff (λ p, wf_prefix p ∧ Prefix_IsValid p = true))].
  - unfold ParseAddrPort. eapply safe_bind; [apply splitAddrPort_safe|].
    intros [[ip port] v6] _. destruct (ParseUint port 10 16) as [port16 [e|]]; [done|].
    eapply safe_bind; [apply ParseAddr_loop_safe|]. intros a [Hw Hv].
    apply safe_if; intros _; [done|]. apply safe_if; intros _; [done|].
    split; [split; [done|apply u16_range]|done].
  - unfold ParsePrefix. pose proof (last_index_bound s "/"%byte) as Hb.
    apply safe_if; intros Hi; [done|].
    eapply safe_bind; [apply safe_upto; lia|]. intros a _.
    pose proof (ParseAddr_loop_safe a a) as Ha. fold (ParseAddr a) in Ha.
    destruct (ParseAddr a) as [ip|e|m]; [|done|done]. destruct Ha as [Hw Hv%valid_z].
    apply safe_if; intros Hn; [done|].
    eapply safe_bind; [apply safe_from; lia|]. intros bits _.
    eapply (safe_bind (λ _, True)).
    { apply safe_if; intros Hl; [|done]. eapply safe_bind; [apply safe_at; lia|done]. }
    intros [|] _; [done|]. destruct (Atoi bits) as [n [e|]]; [done|].
    apply safe_if; intros Hr; [done|]. split; [by apply PrefixFrom_wf|].
    unfold Prefix_IsValid. rewrite PrefixFrom_bits; [lia|done|].
    apply orb_false_iff in Hr as [H1 H2]. unfold Addr_Is6 in H2. unfold Addr_BitLen.
    destruct (z ip); simpl in *; try done; lia.
Qed.

(** ** Binary forms *)
Lemma bePutUint32_z4 ip : wf_addr ip → z ip = z4 →
  AddrFrom4 (bePutUint32 (u32 (lo (addr ip)))) = ip.
Proof.
  intros Hw Hz. destruct (z4_AddrFrom4 ip Hw Hz) as (a0&a1&a2&a3&Ha&E&E').
  rewrite E' at 2. f_equal. rewrite E. cbn [addr lo].
  unfold is_bytes in Ha. rewrite !list.Forall_cons in Ha. destruct Ha as (H0&H1&H2&H3&_).
  unfold bePutUint32. rewrite !Z.shiftr_div_pow2 by lia. unfold v4_lo.
  repeat f_equal; zwlia.
Qed.
Lemma UnmarshalBinary_Marshal old ip : wf_addr ip →
  Addr_UnmarshalBinary old (Addr_MarshalBinary ip) = (ip, Ok tt).
Proof.
  intros Hw. unfold Addr_MarshalBinary, marshalBinaryWithTrailingBytes, Addr_UnmarshalBinary.
  destruct (z ip) eqn:Ez.
  - destruct ip as [u zz]. cbn [z] in Ez. subst zz. destruct Hw as [_ Hw]. simpl in Hw. by subst.
  - rewrite app_nil_r. change (len (bePutUint32 _)) with 4. cbn [Z.eqb].
    by rewrite bePutUint32_z4.
  - assert (E : AddrFrom16 (As16 ip) = ip).
    { rewrite AddrFrom16_As16 by apply Hw. destruct ip. cbn in *. by subst. }
    unfold Addr_Zone. rewrite Ez, !app_nil_r. fold (As16 ip).
    change (len (As16 ip)) with 16. cbn [Z.eqb]. by rewrite E.
  - unfold Addr_Zone. rewrite Ez, !app_nil_r, app_assoc. fold (As16 ip).
    assert (Hs : 0 < len s) by (apply len_pos_list; destruct Hw as [_ Hw]; by rewrite Ez in Hw).
    rewrite len_app. change (len (As16 ip)) with 16.
    rewrite !(proj2 (Z.eqb_neq _ _)), Z.gtb_ltb, (proj2 (Z.ltb_lt _ _)) by lia.
    change 16%nat with (length (As16 ip)). rewrite take_app_length, drop_app_length.
    rewrite AddrFrom16_As16 by apply Hw. unfold Addr_WithZone. rewrite Is6_z6noz.
    cbn [negb addr]. destruct s; [done|]. cbn [beq]. f_equal. destruct ip. cbn in *. by subst.
Qed.
Lemma marshal_trailing ip n : marshalBinaryWithTrailingBytes ip n =
  Addr_MarshalBinary ip ++ replicate n 0.
Proof.
  unfold Addr_MarshalBinary, marshalBinaryWithTrailingBytes.
  destruct (z ip); rewrite ?app_nil_r; done.
Qed.
Lemma take_trailing {A} (l t : list A) n : length t = n → take (length (l ++ t) - n) (l ++ t) = l.
Proof. intros <-. rewrite length_app, Nat.add_sub. apply take_app_length. Qed.

(** The binary forms round-trip: for every well-formed address (the zero
    one and zones included), address-port pair and prefix. *)
Theorem UnmarshalBinary_MarshalBinary :
  (∀ old ip, wf_addr ip → Addr_UnmarshalBinary old (Addr_MarshalBinary ip) = (ip, Ok tt)) ∧
  (∀ old p, wf_addrport p →
     AddrPort_UnmarshalBinary old (AddrPort_MarshalBinary p) = (p, Ok tt)) ∧
  (∀ old p, wf_prefix p → Prefix_IsValid p = true →
     Prefix_UnmarshalBinary old (Prefix_MarshalBinary p) = (p, Ok tt)).
Proof.
  split; [exact UnmarshalBinary_Marshal|]. split.
  - intros old [ip port] [Hw Hp]. cbn [ap_ip ap_port] in *.
    unfold AddrPort_MarshalBinary, AddrPort_UnmarshalBinary, AddrPort_Addr, AddrPort_Port.
    cbn [ap_ip ap_port]. rewrite marshal_trailing, take_trailing by done.
    set (m := Addr_MarshalBinary ip). pose proof (len_nonneg m).
    rewrite len_app. change (len (lePutUint16 port)) with 2.
    rewrite (proj2 (Z.ltb_ge _ _)) by lia. rewrite take_trailing by done.
    unfold m. rewrite UnmarshalBinary_Marshal by done. fold m. unfold AddrPortFrom.
    rewrite length_app, Nat.add_sub, drop_app_length. repeat f_equal.
    unfold leUint16, lePutUint16. cbn [nth]. unfold is_u16 in Hp.
    rewrite Z.shiftr_div_pow2, Z.shiftl_mul_pow2 by lia.
    assert (E : u16 (u8 (port / 2 ^ 8) * 2 ^ 8) = port / 2 ^ 8 * 2 ^ 8) by zwlia.
    rewrite E, Z.lor_comm, lor_high_low by (lia || apply u8_range). zwlia.
  - intros old p Hp Hv. destruct (valid_prefix_facts p Hp Hv) as (Hz&_&Hb&Hu&Eu).
    unfold Prefix_MarshalBinary, Prefix_UnmarshalBinary, Prefix_Addr.
    rewrite withoutZone_id by apply Hp. rewrite marshal_trailing, Eu.
    set (m := Addr_MarshalBinary (p_ip p)). pose proof (len_nonneg m).
    rewrite length_app. cbn [replicate length]. rewrite Nat.add_sub.
    rewrite <- (Nat.add_0_r (length m)), insert_app_r. cbn [insert list_insert].
    rewrite len_app. change (len [Prefix_Bits p]) with 1.
    rewrite (proj2 (Z.ltb_ge _ _)) by lia. rewrite take_trailing by done.
    unfold m. rewrite UnmarshalBinary_Marshal by apply Hp. fold m.
    rewrite length_app. cbn [length]. rewrite Nat.add_sub, app_nth2, Nat.sub_diag by lia.
    cbn [nth]. f_equal. destruct (wf_prefix_bits p Hp Hv) as [_ Hb'].
    pose proof (PrefixFrom_bits (p_ip p) (Prefix_Bits p) Hz Hb') as E.
    destruct p as [ip b1]. unfold PrefixFrom, Prefix_Bits in *. cbn [p_ip bitsPlusOne] in *.
    rewrite E, withoutZone_id by apply Hp. f_equal. lia.
Qed.
Lemma UnmarshalBinary_MarshalBinary_witness :
  Addr_UnmarshalBinary zeroAddr (Addr_MarshalBinary sample6) = (sample6, Ok tt) ∧
  Prefix_UnmarshalBinary zeroPrefix (Prefix_MarshalBinary sample_net) = (sample_net, Ok tt).
Proof.
  destruct UnmarshalBinary_MarshalBinary as (H1&_&H3). split.
  - exact (H1 zeroAddr sample6 sample6_wf).
  - exact (H3 zeroPrefix sample_net sample_net_wf eq_refl).
Defined.

(** ** Order *)
(** Compare is a total order on the package's addresses whose equality is
    equality of addresses, and Less is its strict part. *)
Theorem Compare_total_order a b c : wf_addr a → wf_addr b → wf_addr c →
  (Addr_Compare a b = -1 ∨ Addr_Compare a b = 0 ∨ Addr_Compare a b = 1) ∧
  (Addr_Compare a b = 0 ↔ a = b) ∧
  Addr_Compare b a = - Addr_Compare a b ∧
  (Addr_Less a b = true → Addr_Less b c = true → Addr_Less a c = true) ∧
  (Addr_Less a b = false ∧ Addr_Less b a = false ↔ a = b).
Proof.
  intros Ha Hb Hc. unfold Addr_Less.
  rewrite !Addr_Compare_key by (apply Ha || apply Hb || apply Hc).
  rewrite (key_compare_antisym a b).
  pose proof (key_compare_eq a b Ha Hb) as He. pose proof (key_compare_trans a b c) as Ht.
  destruct (key_compare a b), (key_compare b c); simpl;
    try (specialize (Ht eq_refl eq_refl); rewrite Ht); simpl;
    repeat split; try done; try tauto; intros; try lia; try (by apply He); intuition discriminate.
Qed.
Lemma Compare_total_order_witness :
  Addr_Compare (AddrFrom4 [10;0;0;1]) IPv6Loopback = -1 ∧
  (Addr_Compare (AddrFrom4 [10;0;0;1]) IPv6Loopback = 0 ↔ AddrFrom4 [10;0;0;1] = IPv6Loopback).
Proof.
  split; [vm_compute; reflexivity|].
  assert (H4 : wf_addr (AddrFrom4 [10;0;0;1])).
  { split; vm_compute; repeat split; intros H; discriminate H. }
  assert (H6 : wf_addr IPv6Loopback).
  { split; vm_compute; repeat split; intros H; discriminate H. }
  destruct (Compare_total_order _ _ _ H4 H6 H6) as (_&H&_). exact H.
Defined.

(** Next and Prev step through the addresses of a family (and zone) in
    order and are inverse; at the last, respectively first, address of the
    family they return the zero Addr. *)
Theorem Next_Prev ip : wf_addr ip → Addr_IsValid ip = true →
  (if addr_val ip =? family_max ip then Addr_Next ip = zeroAddr
   else wf_addr (Addr_Next ip) ∧ z (Addr_Next ip) = z ip ∧
        addr_val (Addr_Next ip) = addr_val ip + 1 ∧
        Addr_Less ip (Addr_Next ip) = true ∧ Addr_Prev (Addr_Next ip) = ip) ∧
  (if addr_val ip =? 0 then Addr_Prev ip = zeroAddr
   else wf_addr (Addr_Prev ip) ∧ z (Addr_Prev ip) = z ip ∧
        addr_val (Addr_Prev ip) = addr_val ip - 1 ∧ Addr_Next (Addr_Prev ip) = ip).
Proof.
  intros Hw Hz%valid_z. pose proof (addr_val_range ip Hw) as Hr. split.
  - destruct (Z.eqb_spec (addr_val ip) (family_max ip)) as [E|E].
    { rewrite Next_step, E, Z.eqb_refl by done. done. }
    destruct (Next_wf ip Hw Hz E) as (Hn&Ez&Ev).
    split; [exact Hn|]. split; [exact Ez|]. split; [exact Ev|]. split.
    + unfold Addr_Less. rewrite Addr_Compare_key by (apply Hw || apply Hn).
      assert (El : key_compare ip (Addr_Next ip) = Lt); [|by rewrite El].
      unfold key_compare. replace (Addr_BitLen (Addr_Next ip)) with (Addr_BitLen ip)
        by (unfold Addr_BitLen; by rewrite Ez).
      rewrite Z.compare_refl.
      assert (Hlt : val (addr ip) < val (addr (Addr_Next ip))).
      { destruct (decide (z ip = z4)) as [E4|E4].
        - rewrite !z4_val by (done || congruence). lia.
        - rewrite <- !not_z4_val by congruence. lia. }
      by rewrite (proj2 (Z.compare_lt_iff _ _)) by done.
    + assert (Ez' : z (Addr_Next ip) ≠ z0) by congruence.
      rewrite Prev_step by done. rewrite (proj2 (Z.eqb_neq _ _)) by lia.
      apply Next_Prev_shift; [done| |done|done]. rewrite Next_step by done.
      by rewrite (proj2 (Z.eqb_neq _ _)) by done.
  - rewrite Prev_step by done. destruct (Z.eqb_spec (addr_val ip) 0) as [E|E]; [done|].
    destruct (shift_wf ip (-1)) as [Hp Hv]; [done|done|lia|].
    replace (val (addr ip) + -1) with (val (addr ip) - 1) in * by lia. set (q := MkAddr _ _) in *.
    split; [done|]. split; [done|]. split; [exact Hv|].
    rewrite Next_step by done.
    assert (Ef : family_max q = family_max ip) by done.
    rewrite Ef, Hv, (proj2 (Z.eqb_neq _ _)) by lia.
    destruct (Next_Prev_shift ip (-1) q) as [_ E1]; [done| |done|done|].
    { reflexivity. }
    replace (val (addr q) - -1) with (val (addr q) + 1) in E1 by lia. exact E1.
Qed.
Lemma Next_Prev_witness :
  let ip := AddrFrom4 [10;0;0;255] in
  Addr_Next ip = AddrFrom4 [10;0;1;0] ∧ Addr_Prev (Addr_Next ip) = ip.
Proof.
  cbv zeta. set (ip := AddrFrom4 [10;0;0;255]). split; [vm_compute; reflexivity|].
  assert (H4 : wf_addr ip) by (split; vm_compute; repeat split; intros H; discriminate H).
  destruct (Next_Prev ip H4 eq_refl) as [H _]. exact (proj2 (proj2 (proj2 (proj2 H)))).
Defined.

(** ** Prefixes as sets of addresses *)
(** C31: A prefix denotes a set of addresses: Contains decides whether an address
    is in it, and Overlaps whether two prefixes have an address in common. *)
Theorem prefixes_are_sets p o ip : wf_prefix p → wf_prefix o → wf_addr ip →
  (∃ b, Prefix_Contains p ip = Ok b ∧ (b = true ↔ in_prefix p ip)) ∧
  (∃ b, Prefix_Overlaps p o = Ok b ∧ (b = true ↔ ∃ ip, wf_addr ip ∧ in_prefix p ip ∧ in_prefix o ip)).
Proof. intros Hp Ho Hi. split; [exact (contains_in_prefix p ip Hp Hi)|exact (overlaps_common p o Hp Ho)]. Qed.
Lemma prefixes_are_sets_witness :
  Prefix_Contains sample_net (AddrFrom4 [10;1;2;3]) = Ok true ∧
  Prefix_Overlaps sample_net (PrefixFrom (AddrFrom4 [10;0;0;0]) 8) = Ok true ∧
  (∃ b, Prefix_Contains sample_net (AddrFrom4 [10;1;2;3]) = Ok b ∧ (b = true ↔ in_prefix sample_net (AddrFrom4 [10;1;2;3]))) ∧
  (∃ b, Prefix_Overlaps sample_net (PrefixFrom (AddrFrom4 [10;0;0;0]) 8) = Ok b ∧
    (b = true ↔ ∃ ip, wf_addr ip ∧ in_prefix sample_net ip ∧ in_prefix (PrefixFrom (AddrFrom4 [10;0;0;0]) 8) ip)).
Proof.
  split; [vm_compute; reflexivity|]. split; [vm_compute; reflexivity|].
  refine (prefixes_are_sets sample_net (PrefixFrom (AddrFrom4 [10;0;0;0]) 8) (AddrFrom4 [10;1;2;3]) sample_net_wf _ _);
    repeat split; vm_compute; try (intros H; discriminate H); reflexivity.
Defined.

Lemma Addr_Prefix_neg ip b : b < 0 → ∃ e, Addr_Prefix ip b = Err e.
Proof.
  intros Hb. unfold Addr_Prefix. rewrite (proj2 (Z.ltb_lt b 0)) by lia. eauto.
Qed.
Lemma Masked_valid p : wf_prefix p → Prefix_IsValid p = true →
  ∃ q, Masked p = Ok (MkPrefix q (bitsPlusOne p)) ∧ wf_addr q ∧ z q = z (p_ip p) ∧
    addr_val q = masked_val (Addr_BitLen (p_ip p)) (Prefix_Bits p) (addr_val (p_ip p)).
Proof.
  intros Hp Hv. destruct (wf_prefix_bits p Hp Hv) as [Hz Hb].
  destruct (Addr_Prefix_ok (p_ip p) (Prefix_Bits p) (proj1 Hp) Hz Hb) as (q&E&Hq&Ezq&Evq).
  exists q. unfold Masked. rewrite E. rewrite withoutZone_id in Ezq by apply Hp.
  split; [|done]. f_equal. f_equal. unfold Prefix_Bits. lia.
Qed.
Lemma masked_val_idem w b x : 0 <= b <= w → masked_val w b (masked_val w b x) = masked_val w b x.
Proof. intros Hb. unfold masked_val at 1. change (masked_val w b x / 2 ^ (w - b)) with (net w b (masked_val w b x)).
  by rewrite net_masked. Qed.

(** Masked never fails: an invalid prefix becomes the zero Prefix; a valid
    one keeps its length and the addresses it denotes, its own address becomes
    the least of them, and masking again changes nothing. *)
Theorem Masked_spec p : wf_prefix p →
  (Prefix_IsValid p = false → Masked p = Ok zeroPrefix) ∧
  (Prefix_IsValid p = true →
   ∃ q, Masked p = Ok q ∧ wf_prefix q ∧ Prefix_Bits q = Prefix_Bits p ∧
     (∀ ip, in_prefix q ip ↔ in_prefix p ip) ∧
     (∀ ip, wf_addr ip → in_prefix p ip → addr_val (p_ip q) <= addr_val ip) ∧
     Masked q = Ok q).
Proof.
  intros Hp. split; intros Hv.
  { unfold Masked. destruct (Addr_Prefix_neg (p_ip p) (Prefix_Bits p)) as [e ->]; [|done].
    unfold Prefix_IsValid in Hv. unfold Prefix_Bits. lia. }
  destruct (Masked_valid p Hp Hv) as (q&E&Hq&Ez&Ev).
  destruct (wf_prefix_bits p Hp Hv) as [Hz Hb].
  set (m := MkPrefix q (bitsPlusOne p)) in *.
  assert (EB : Addr_BitLen q = Addr_BitLen (p_ip p)) by (unfold Addr_BitLen; by rewrite Ez).
  assert (Hm : wf_prefix m).
  { destruct Hp as (_&Hn&Hb1&H0). split; [exact Hq|]. split.
    { apply hasZone_spec. intros s. cbn [m p_ip]. rewrite Ez. by apply hasZone_spec. }
    cbn [m p_ip bitsPlusOne]. rewrite EB, Ez. done. }
  exists m. split; [exact E|]. split; [exact Hm|]. split; [done|]. split; [|split].
  - intros ip. unfold in_prefix. change (Prefix_IsValid m) with (Prefix_IsValid p).
    change (Prefix_Bits m) with (Prefix_Bits p). cbn [m p_ip]. rewrite EB, Ev.
    split; intros (H1&H2&H3&H4&H5); (repeat split; [done..|]); rewrite H4 in *;
      rewrite net_masked in * by done; done.
  - intros ip Hip (_&_&_&EB'&En). cbn [m p_ip]. rewrite Ev. rewrite EB' in En.
    apply masked_net_eq in En; [|done]. rewrite <- En.
    apply masked_val_range; [done|]. rewrite <- EB'.
    apply addr_val_bound; [done|]. rewrite <- (BitLen_zero ip), EB', BitLen_zero. done.
  - destruct (Masked_valid m Hm Hv) as (q'&E'&Hq'&Ez'&Ev'). rewrite E'.
    change (bitsPlusOne m) with (bitsPlusOne p). unfold m. repeat f_equal.
    apply addr_val_inj; [done|done|done|]. rewrite Ev'. cbn [m p_ip].
    change (Prefix_Bits m) with (Prefix_Bits p). rewrite EB, Ev. by apply masked_val_idem.
Qed.
Lemma Masked_spec_witness :
  Masked (PrefixFrom (AddrFrom4 [10;1;2;3]) 16) = Ok sample_net ∧
  ∃ q, Masked (PrefixFrom (AddrFrom4 [10;1;2;3]) 16) = Ok q ∧ wf_prefix q ∧
     Prefix_Bits q = 16 ∧ Masked q = Ok q.
Proof.
  split; [vm_compute; reflexivity|].
  assert (Hp : wf_prefix (PrefixFrom (AddrFrom4 [10;1;2;3]) 16)).
  { repeat split; vm_compute; try (intros H; discriminate H); reflexivity. }
  destruct (proj2 (Masked_spec _ Hp) eq_refl) as (q&E&Hq&Hb&_&_&Hm).
  exists q. exact (conj E (conj Hq (conj Hb Hm))).
Defined.

(** IsLoopback, IsLinkLocalUnicast, IsMulticast and IsPrivate are
    membership in the reserved blocks, for IPv4, IPv6 and IPv4-mapped
    addresses, with or without a zone. *)
Theorem address_classes ip : wf_addr ip →
  let b4 a0 a1 a2 a3 b := PrefixFrom (AddrFrom4 [a0; a1; a2; a3]) b in
  let b6 w b := PrefixFrom (MkAddr (U128 (w * 2 ^ 48) 0) z6noz) b in
  Addr_IsLoopback ip = in_blocks [b4 127 0 0 0 8; PrefixFrom IPv6Loopback 128] ip ∧
  Addr_IsLinkLocalUnicast ip = in_blocks [b4 169 254 0 0 16; b6 0xfe80 10] ip ∧
  Addr_IsMulticast ip = in_blocks [b4 224 0 0 0 4; b6 0xff00 8] ip ∧
  Addr_IsPrivate ip =
    in_blocks [b4 10 0 0 0 8; b4 172 16 0 0 12; b4 192 168 0 0 16; b6 0xfc00 7] ip.
Proof.
  intros Hw b4 b6. split; [by apply loopback_blocks|].
  split; [by apply linklocal_blocks|]. split; [by apply multicast_blocks|by apply private_blocks].
Qed.
Lemma address_classes_witness :
  Addr_IsPrivate (AddrFrom4 [172;31;0;1]) = true ∧
  Addr_IsPrivate (AddrFrom4 [172;31;0;1]) =
    in_blocks [PrefixFrom (AddrFrom4 [10;0;0;0]) 8; PrefixFrom (AddrFrom4 [172;16;0;0]) 12;
      PrefixFrom (AddrFrom4 [192;168;0;0]) 16;
      PrefixFrom (MkAddr (U128 (0xfc00 * 2 ^ 48) 0) z6noz) 7] (AddrFrom4 [172;31;0;1]).
Proof.
  split; [vm_compute; reflexivity|].
  assert (H4 : wf_addr (AddrFrom4 [172;31;0;1])).
  { split; vm_compute; repeat split; intros H; discriminate H. }
  destruct (address_classes _ H4) as (_&_&_&H). exact H.
Defined.

(** ** Two places where a comment says otherwise *)
(** An invalid prefix is not always before a valid one: the address families
    are compared first. *)
Lemma compare_invalid_last :
  let invalid := PrefixFrom IPv6Unspecified 200 in
  let valid := PrefixFrom IPv4Unspecified 8 in
  Prefix_IsValid invalid = false ∧ Prefix_IsValid valid = true ∧ Prefix_compare invalid valid = 1.
Proof. vm_compute. auto. Qed.
(** The zero address has no successor, yet Next does not return the zero address. *)
Lemma Next_of_zero : Addr_Next zeroAddr ≠ zeroAddr ∧ Addr_IsValid (Addr_Next zeroAddr) = false.
Proof. split; [discriminate|reflexivity]. Qed.
