(* ===== verification/Threads.v ===== *)
(** * Interleaved threads: sums of what each contributes

    The concurrent models keep their threads in a list and state their
    invariants as equations between the shared state and sums over that list.
    A step replaces one element; these lemmas say what happens to a sum. *)
From S2P Require Import Prelude.

Section Total.
Context {P : Type}.
Implicit Types (f : P → Z) (l : list P) (p q : P).

Fixpoint total f l : Z :=
  match l with [] => 0 | p :: l => f p + total f l end.

Lemma total_insert f l i p p' : l !! i = Some p →
  total f (<[i := p']> l) = total f l - f p + f p'.
Proof.
  revert i. induction l as [|q l IH]; intros [|i] E; simplify_eq/=; [lia|].
  rewrite (IH i E). lia.
Qed.
Lemma total_app f l k : total f (l ++ k) = total f l + total f k.
Proof. induction l as [|p l IH]; cbn; [done|]. rewrite IH. lia. Qed.
Lemma total_replicate f n p : f p = 0 → total f (replicate n p) = 0.
Proof. intros E. induction n; simpl; lia. Qed.
Lemma total_nonneg f l : (∀ p, 0 <= f p) → 0 <= total f l.
Proof. intros Hf. induction l as [|p l IH]; simpl; [lia|]. specialize (Hf p). lia. Qed.
Lemma total_ge f l i p : (∀ p, 0 <= f p) → l !! i = Some p → f p <= total f l.
Proof.
  intros Hf. revert i. induction l as [|q l IH]; intros [|i] E; simplify_eq/=.
  - pose proof (total_nonneg f l Hf). lia.
  - specialize (IH i E). specialize (Hf q). lia.
Qed.
(** A thread that does not count leaves room for one. *)
Lemma total_room f l i p : (∀ p, 0 <= f p <= 1) → l !! i = Some p →
  total f l <= Z.of_nat (length l) - 1 + f p.
Proof.
  intros Hf. revert i. induction l as [|q l IH]; intros [|i] E; simplify_eq/=.
  - assert (total f l <= Z.of_nat (length l)).
    { clear -Hf. induction l as [|q l IH]; simpl; [lia|]. specialize (Hf q). lia. }
    lia.
  - specialize (IH i E). specialize (Hf q). lia.
Qed.
(** Two different threads that count make at least two. *)
Lemma total_two f l i j p q : (∀ p, 0 <= f p) → l !! i = Some p → l !! j = Some q → i ≠ j →
  f p + f q <= total f l.
Proof.
  intros Hf. revert i j. induction l as [|x l IH]; intros [|i] [|j] Hi Hj Hij; simplify_eq/=.
  - pose proof (total_ge f l j q Hf Hj). lia.
  - pose proof (total_ge f l i p Hf Hi). lia.
  - specialize (IH i j Hi Hj ltac:(congruence)). specialize (Hf x). lia.
Qed.
Lemma total_pos f l : 0 < total f l → ∃ i p, l !! i = Some p ∧ 0 < f p.
Proof.
  induction l as [|p l IH]; simpl; [lia|]. intros H. destruct (Z.lt_ge_cases 0 (f p)).
  - by exists 0%nat, p.
  - destruct IH as (i&q&Hi&Hq); [lia|]. by exists (S i), q.
Qed.
Lemma total_zero f l : (∀ i p, l !! i = Some p → f p = 0) → total f l = 0.
Proof.
  induction l as [|p l IH]; intros H; [done|]. simpl.
  rewrite (H 0%nat p) by done. rewrite IH; [done|]. intros i q Hi. by apply (H (S i)).
Qed.
(** The rest of the sum, when one thread's share is known. *)
Lemma total_others f l i p : (∀ p, 0 <= f p) → l !! i = Some p → 0 <= total f l - f p.
Proof. intros Hf Hi. pose proof (total_ge f l i p Hf Hi). lia. Qed.
End Total.

Lemma b2z_01 b : 0 <= Z.b2z b <= 1.
Proof. destruct b; simpl; lia. Qed.
