(* ===== verification/FdMutex.v ===== *)
(** * internal/poll/fd_mutex.go: the lock word of a file descriptor

    [fdMutex] packs a closed flag, a read lock, a write lock and three 20-bit
    counters (references, read waiters, write waiters) in one uint64 that is
    updated by compare-and-swap.  Each method is a loop: load the word, decide,
    swap, retry when the word has changed meanwhile.

    This file holds the loop bodies, bit by bit as in the source, the threads
    that run them interleaved at their atomic operations, and the reading of
    the word as a record.  The invariants are in FdMutexInv. *)
From S2P Require Import Prelude.
From stdpp Require Import relations.
#[local] Open Scope Z_scope.

(** ** Constants and state *)
Definition mutexClosed : Z := Z.shiftl 1 0.
Definition mutexRLock : Z := Z.shiftl 1 1.
Definition mutexWLock : Z := Z.shiftl 1 2.
Definition mutexRef : Z := Z.shiftl 1 3.
Definition mutexRefMask : Z := Z.shiftl (Z.shiftl 1 20 - 1) 3.
Definition mutexRWait : Z := Z.shiftl 1 23.
Definition mutexRMask : Z := Z.shiftl (Z.shiftl 1 20 - 1) 23.
Definition mutexWWait : Z := Z.shiftl 1 43.
Definition mutexWMask : Z := Z.shiftl (Z.shiftl 1 20 - 1) 43.

Definition overflowMsg : emsg :=
  [Lit "too many concurrent operations on a single file or socket (max 1048575)"%go].
Definition inconsistent : emsg := [Lit "inconsistent poll.fdMutex"%go].

Record fdMutex : Set := MkMutex { state : Z; rsema : Z; wsema : Z }.

(** ** The loop bodies

    What one turn of a method's loop does with the word it loaded: return,
    panic, or try to swap in a new word. *)
Inductive turn : Set :=
| TRet (ok : bool)
| TPanic (m : emsg)
| TCas (new : Z).

Definition incref_turn (old : Z) : turn :=
  if negb (Z.land old mutexClosed =? 0) then TRet false
  else
    let new := u64 (old + mutexRef) in
    if Z.land new mutexRefMask =? 0 then TPanic overflowMsg else TCas new.

Definition increfAndClose_turn (old : Z) : turn :=
  if negb (Z.land old mutexClosed =? 0) then TRet false
  else
    let new := u64 (Z.lor old mutexClosed + mutexRef) in
    if Z.land new mutexRefMask =? 0 then TPanic overflowMsg
    else TCas (andnot new (Z.lor mutexRMask mutexWMask)).

Definition decref_turn (old : Z) : turn :=
  if Z.land old mutexRefMask =? 0 then TPanic inconsistent
  else TCas (u64 (old - mutexRef)).
(** [new&(mutexClosed|mutexRefMask) == mutexClosed]. *)
Definition last_ref (new : Z) : bool :=
  Z.land new (Z.lor mutexClosed mutexRefMask) =? mutexClosed.

Definition mutexBit (read : bool) : Z := if read then mutexRLock else mutexWLock.
Definition mutexWait (read : bool) : Z := if read then mutexRWait else mutexWWait.
Definition mutexMask (read : bool) : Z := if read then mutexRMask else mutexWMask.

Definition rwlock_turn (read : bool) (old : Z) : turn :=
  if negb (Z.land old mutexClosed =? 0) then TRet false
  else if Z.land old (mutexBit read) =? 0 then
    let new := u64 (Z.lor old (mutexBit read) + mutexRef) in
    if Z.land new mutexRefMask =? 0 then TPanic overflowMsg else TCas new
  else
    let new := u64 (old + mutexWait read) in
    if Z.land new (mutexMask read) =? 0 then TPanic overflowMsg else TCas new.

Definition rwunlock_turn (read : bool) (old : Z) : turn :=
  if (Z.land old (mutexBit read) =? 0) || (Z.land old mutexRefMask =? 0)
  then TPanic inconsistent
  else
    let new := u64 (andnot old (mutexBit read) - mutexRef) in
    let new := if negb (Z.land old (mutexMask read) =? 0)
               then u64 (new - mutexWait read) else new in
    TCas new.

(** ** Semaphores

    [mutexSema read] is the semaphore a waiter sleeps on.  Semacquire waits for
    the count to be positive and takes one; Semrelease adds one. *)
Definition Semacquire (read : bool) (m : fdMutex) : option fdMutex :=
  let '(MkMutex st rs ws) := m in
  if read then (if rs >? 0 then Some (MkMutex st (rs - 1) ws) else None)
  else (if ws >? 0 then Some (MkMutex st rs (ws - 1)) else None).
Definition Semrelease (read : bool) (m : fdMutex) : fdMutex :=
  let '(MkMutex st rs ws) := m in
  if read then MkMutex st (u32 (rs + 1)) ws else MkMutex st rs (u32 (ws + 1)).

(** ** Threads

    An operation on a descriptor is one of four kinds: reads and writes hold
    the read or write lock, miscellaneous ones hold a reference, Close closes
    and holds a reference.  Each acquires, works, and releases; the one whose
    release returns true destroys the descriptor. *)
Inductive kind : Set := KRead | KWrite | KMisc | KClose.
#[global] Instance kind_eq_dec : EqDecision kind.
Proof. solve_decision. Defined.

(** [readLock], [writeLock], [incref], and [increfAndClose] of FD.Close. *)
Definition acquire_turn (k : kind) (old : Z) : turn :=
  match k with
  | KRead => rwlock_turn true old
  | KWrite => rwlock_turn false old
  | KMisc => incref_turn old
  | KClose => increfAndClose_turn old
  end.
(** [readUnlock], [writeUnlock], [decref]. *)
Definition release_turn (k : kind) (old : Z) : turn :=
  match k with
  | KRead => rwunlock_turn true old
  | KWrite => rwunlock_turn false old
  | KMisc | KClose => decref_turn old
  end.

(** Where a thread is, with the local variables that are live there. *)
Inductive pc : Set :=
| Idle
| AcqLoad (k : kind)                    (* at the load of the acquire loop *)
| AcqCas (k : kind) (old new : Z)       (* at its compare-and-swap *)
| Sleep (read : bool)                   (* in Semacquire(mutexSema) *)
| WakeR (old : Z)                       (* increfAndClose: waking the readers *)
| WakeW (old : Z)                       (* increfAndClose: waking the writers *)
| Hold (k : kind)                       (* between acquire and release *)
| RelLoad (k : kind)                    (* at the load of the release loop *)
| RelCas (k : kind) (old new : Z)       (* at its compare-and-swap *)
| RelSem (read : bool) (new : Z)        (* rwunlock: at Semrelease *)
| Destroy                               (* the release returned true *)
| Crashed (m : emsg).                   (* panicked *)

(** What follows a successful compare-and-swap. *)
Definition after_acquire (k : kind) (old : Z) : pc :=
  match k with
  | KRead => if Z.land old (mutexBit true) =? 0 then Hold KRead else Sleep true
  | KWrite => if Z.land old (mutexBit false) =? 0 then Hold KWrite else Sleep false
  | KMisc => Hold KMisc
  | KClose => WakeR old
  end.
(** The result of a release: destroy, or done. *)
Definition released (new : Z) : pc := if last_ref new then Destroy else Idle.
Definition after_release (k : kind) (old new : Z) : pc :=
  match k with
  | KRead => if negb (Z.land old (mutexMask true) =? 0) then RelSem true new else released new
  | KWrite => if negb (Z.land old (mutexMask false) =? 0) then RelSem false new else released new
  | KMisc | KClose => released new
  end.

(** The shared state: the mutex, and how often [FD.destroy] has run. *)
Record shared : Set := MkShared { mu : fdMutex; destroyed : nat }.
Definition set_mu (s : shared) (m : fdMutex) : shared := MkShared m (destroyed s).
Definition set_word (s : shared) (w : Z) : shared :=
  set_mu s (MkMutex w (rsema (mu s)) (wsema (mu s))).

(** One atomic step of a thread; [k] is the operation an idle thread starts.
    [None]: the thread is blocked. *)
Definition tstep (k : kind) (p : pc) (s : shared) : option (pc * shared) :=
  let w := state (mu s) in
  match p with
  | Idle => Some (AcqLoad k, s)
  | AcqLoad k =>
      match acquire_turn k w with
      | TRet true => Some (Hold k, s)
      | TRet false => Some (Idle, s)
      | TPanic m => Some (Crashed m, s)
      | TCas new => Some (AcqCas k w new, s)
      end
  | AcqCas k old new =>
      if w =? old then Some (after_acquire k old, set_word s new)
      else Some (AcqLoad k, s)
  | Sleep read =>
      match Semacquire read (mu s) with
      | Some m => Some (AcqLoad (if read then KRead else KWrite), set_mu s m)
      | None => None
      end
  | WakeR old =>
      if negb (Z.land old mutexRMask =? 0)
      then Some (WakeR (u64 (old - mutexRWait)), set_mu s (Semrelease true (mu s)))
      else Some (WakeW old, s)
  | WakeW old =>
      if negb (Z.land old mutexWMask =? 0)
      then Some (WakeW (u64 (old - mutexWWait)), set_mu s (Semrelease false (mu s)))
      else Some (Hold KClose, s)
  | Hold k => Some (RelLoad k, s)
  | RelLoad k =>
      match release_turn k w with
      | TRet _ => Some (Idle, s)
      | TPanic m => Some (Crashed m, s)
      | TCas new => Some (RelCas k w new, s)
      end
  | RelCas k old new =>
      if w =? old then Some (after_release k old new, set_word s new)
      else Some (RelLoad k, s)
  | RelSem read new => Some (released new, set_mu s (Semrelease read (mu s)))
  | Destroy => Some (Idle, MkShared (mu s) (S (destroyed s)))
  | Crashed _ => None
  end.

(** ** The system: any number of threads on one descriptor *)
Record sys : Set := MkSys { sh : shared; pcs : list pc }.
Inductive step (s : sys) : sys → Prop :=
| Step i k p p' sh' :
    pcs s !! i = Some p → tstep k p (sh s) = Some (p', sh') →
    step s (MkSys sh' (<[i := p']> (pcs s))).
Definition init (n : nat) : sys :=
  MkSys (MkShared (MkMutex 0 0 0) 0) (replicate n Idle).
Definition reachable (n : nat) (s : sys) : Prop := rtc step (init n) s.

(** A schedule, for running the system: which thread moves, and what it starts
    when it is idle. *)
Fixpoint run (sched : list (nat * kind)) (s : sys) : option sys :=
  match sched with
  | [] => Some s
  | (i, k) :: sched =>
      match pcs s !! i with
      | None => None
      | Some p =>
          match tstep k p (sh s) with
          | None => None
          | Some (p', sh') => run sched (MkSys sh' (<[i := p']> (pcs s)))
          end
      end
  end.

(** ** The word as a record *)
Record word : Set := MkWord
  { closed : bool; rlock : bool; wlock : bool; refs : Z; rwait : Z; wwait : Z }.
Definition enc (x : word) : Z :=
  Z.b2z (closed x) + 2 * Z.b2z (rlock x) + 4 * Z.b2z (wlock x) + 2 ^ 3 * refs x +
  2 ^ 23 * rwait x + 2 ^ 43 * wwait x.
Definition wf_word (x : word) : Prop :=
  0 <= refs x < 2 ^ 20 ∧ 0 <= rwait x < 2 ^ 20 ∧ 0 <= wwait x < 2 ^ 20.

Definition lock (read : bool) (x : word) : bool := if read then rlock x else wlock x.
Definition wait (read : bool) (x : word) : Z := if read then rwait x else wwait x.
Definition set_lock (read b : bool) (x : word) : word :=
  if read then MkWord (closed x) b (wlock x) (refs x) (rwait x) (wwait x)
  else MkWord (closed x) (rlock x) b (refs x) (rwait x) (wwait x).
Definition add_refs (n : Z) (x : word) : word :=
  MkWord (closed x) (rlock x) (wlock x) (refs x + n) (rwait x) (wwait x).
Definition add_wait (read : bool) (n : Z) (x : word) : word :=
  if read then MkWord (closed x) (rlock x) (wlock x) (refs x) (rwait x + n) (wwait x)
  else MkWord (closed x) (rlock x) (wlock x) (refs x) (rwait x) (wwait x + n).
Definition close (x : word) : word := MkWord true (rlock x) (wlock x) (refs x) 0 0.

(** What each loop body does to the record. *)
Inductive aturn : Set := ARet (ok : bool) | APanic (m : emsg) | ACas (new : word).
Definition enc_turn (t : aturn) : turn :=
  match t with ARet b => TRet b | APanic m => TPanic m | ACas x => TCas (enc x) end.

Definition maxOps : Z := 2 ^ 20 - 1.
Definition a_incref (x : word) : aturn :=
  if closed x then ARet false
  else if refs x =? maxOps then APanic overflowMsg else ACas (add_refs 1 x).
Definition a_increfAndClose (x : word) : aturn :=
  if closed x then ARet false
  else if refs x =? maxOps then APanic overflowMsg else ACas (close (add_refs 1 x)).
Definition a_decref (x : word) : aturn :=
  if refs x =? 0 then APanic inconsistent else ACas (add_refs (-1) x).
Definition a_rwlock (read : bool) (x : word) : aturn :=
  if closed x then ARet false
  else if negb (lock read x) then
    if refs x =? maxOps then APanic overflowMsg
    else ACas (add_refs 1 (set_lock read true x))
  else if wait read x =? maxOps then APanic overflowMsg else ACas (add_wait read 1 x).
Definition a_rwunlock (read : bool) (x : word) : aturn :=
  if negb (lock read x) || (refs x =? 0) then APanic inconsistent
  else
    let x' := add_refs (-1) (set_lock read false x) in
    ACas (if wait read x =? 0 then x' else add_wait read (-1) x').
Definition a_acquire (k : kind) (x : word) : aturn :=
  match k with
  | KRead => a_rwlock true x
  | KWrite => a_rwlock false x
  | KMisc => a_incref x
  | KClose => a_increfAndClose x
  end.
Definition a_release (k : kind) (x : word) : aturn :=
  match k with
  | KRead => a_rwunlock true x
  | KWrite => a_rwunlock false x
  | KMisc | KClose => a_decref x
  end.

(** ** The word and the record agree *)
Lemma enc_range x : wf_word x → is_u64 (enc x) ∧ 0 <= enc x < 2 ^ 63.
Proof.
  unfold wf_word, is_u64, enc. intros (?&?&?). destruct (closed x), (rlock x), (wlock x); simpl Z.b2z; lia.
Qed.
Lemma enc_fields x : wf_word x →
  enc x mod 2 = Z.b2z (closed x) ∧ enc x / 2 mod 2 = Z.b2z (rlock x) ∧
  enc x / 4 mod 2 = Z.b2z (wlock x) ∧ enc x / 2 ^ 3 mod 2 ^ 20 = refs x ∧
  enc x / 2 ^ 23 mod 2 ^ 20 = rwait x ∧ enc x / 2 ^ 43 mod 2 ^ 20 = wwait x.
Proof.
  unfold wf_word, enc. intros (?&?&?).
  destruct (closed x), (rlock x), (wlock x); cbn [Z.b2z]; repeat split; zwlia.
Qed.

Ltac field_of n k :=
  match goal with |- context [Z.land ?w ?m] => rewrite (land_field w n k m ltac:(lia) ltac:(lia) eq_refl) end.
Lemma land_closed x : wf_word x → Z.land (enc x) mutexClosed = Z.b2z (closed x).
Proof.
  intros Hw. destruct (enc_fields x Hw) as (E&_). field_of 1 0.
  change (2 ^ 0) with 1. change (2 ^ 1) with 2. rewrite Z.div_1_r, E. lia.
Qed.
Lemma land_bit read x : wf_word x →
  Z.land (enc x) (mutexBit read) = Z.b2z (lock read x) * mutexBit read.
Proof.
  intros Hw. destruct (enc_fields x Hw) as (_&Er&Ew&_). destruct read; unfold mutexBit, lock.
  - field_of 1 1. change (2 ^ 1) with 2. by rewrite Er.
  - field_of 1 2. change (2 ^ 1) with 2. change (2 ^ 2) with 4. by rewrite Ew.
Qed.
Lemma land_refs x : wf_word x → Z.land (enc x) mutexRefMask = refs x * 2 ^ 3.
Proof. intros Hw. destruct (enc_fields x Hw) as (_&_&_&E&_). field_of 20 3. by rewrite E. Qed.
Lemma land_wait read x : wf_word x →
  Z.land (enc x) (mutexMask read) = wait read x * mutexWait read.
Proof.
  intros Hw. destruct (enc_fields x Hw) as (_&_&_&_&Er&Ew). destruct read; unfold mutexMask, wait.
  - field_of 20 23. by rewrite Er.
  - field_of 20 43. by rewrite Ew.
Qed.
(** The tests of the source, on the record. *)
Lemma test_closed x : wf_word x → (Z.land (enc x) mutexClosed =? 0) = negb (closed x).
Proof. intros Hw. rewrite land_closed by done. by destruct (closed x). Qed.
Lemma test_bit read x : wf_word x → (Z.land (enc x) (mutexBit read) =? 0) = negb (lock read x).
Proof. intros Hw. rewrite land_bit by done. by destruct read, (lock _ x). Qed.
Lemma test_refs x : wf_word x → (Z.land (enc x) mutexRefMask =? 0) = (refs x =? 0).
Proof. intros Hw. rewrite land_refs by done. destruct (Z.eqb_spec (refs x) 0); lia. Qed.
Lemma test_wait read x : wf_word x → (Z.land (enc x) (mutexMask read) =? 0) = (wait read x =? 0).
Proof.
  intros Hw. rewrite land_wait by done.
  assert (0 < mutexWait read) by (by destruct read). destruct (Z.eqb_spec (wait read x) 0); nia.
Qed.
Lemma test_last x : wf_word x → last_ref (enc x) = closed x && (refs x =? 0).
Proof.
  intros Hw. unfold last_ref.
  assert (E : Z.land (enc x) (Z.lor mutexClosed mutexRefMask)
            = Z.b2z (closed x) + refs x * 2 ^ 3).
  { rewrite <- land_closed, <- land_refs, <- lor_add by
      (done || (rewrite <- Z.land_assoc, (Z.land_comm mutexClosed), <- Z.land_assoc;
                change (Z.land mutexRefMask mutexClosed) with 0; by rewrite !Z.land_0_r)).
    apply Z.land_lor_distr_r. }
  rewrite E. change mutexClosed with 1.
  destruct (closed x), (Z.eqb_spec (refs x) 0); cbn [Z.b2z andb]; lia.
Qed.

(** Adding a reference overflows into the next field exactly at the maximum. *)
Lemma add_ref x : wf_word x →
  u64 (enc x + mutexRef) = enc x + 2 ^ 3 ∧
  (Z.land (enc x + 2 ^ 3) mutexRefMask =? 0) = (refs x =? maxOps) ∧
  enc x + 2 ^ 3 = enc (add_refs 1 x).
Proof.
  intros Hw. destruct (enc_range x Hw) as [_ Hr]. unfold maxOps. split; [|split].
  - apply u64_id. unfold is_u64. change mutexRef with (2 ^ 3). lia.
  - field_of 20 3. destruct (enc_fields x Hw) as (_&_&_&E&_).
    replace ((enc x + 2 ^ 3) / 2 ^ 3 mod 2 ^ 20) with ((refs x + 1) mod 2 ^ 20)
      by (rewrite <- E; zwlia).
    destruct Hw as (?&_). destruct (Z.eqb_spec (refs x) (2 ^ 20 - 1)) as [->|]; [done|].
    rewrite Z.mod_small by lia. lia.
  - unfold enc, add_refs. cbn [closed rlock wlock refs rwait wwait]. lia.
Qed.
Lemma add_waiter read x : wf_word x →
  u64 (enc x + mutexWait read) = enc x + mutexWait read ∧
  (Z.land (enc x + mutexWait read) (mutexMask read) =? 0) = (wait read x =? maxOps) ∧
  enc x + mutexWait read = enc (add_wait read 1 x).
Proof.
  intros Hw. destruct (enc_range x Hw) as [_ Hr]. unfold maxOps.
  destruct (enc_fields x Hw) as (_&_&_&_&Er&Ew). destruct Hw as (_&?&?).
  destruct read; (split; [apply u64_id; unfold is_u64;
    match goal with |- context [mutexWait ?b] =>
      let v := eval vm_compute in (mutexWait b) in change (mutexWait b) with v end; lia|]);
    (split; [|unfold enc, add_wait, mutexWait, mutexRWait, mutexWWait;
      cbn [closed rlock wlock refs rwait wwait]; rewrite Z.shiftl_mul_pow2; lia]);
    unfold mutexWait, mutexMask, wait.
  - field_of 20 23. change mutexRWait with (2 ^ 23).
    replace ((enc x + 2 ^ 23) / 2 ^ 23 mod 2 ^ 20) with ((rwait x + 1) mod 2 ^ 20)
      by (rewrite <- Er; zwlia).
    destruct (Z.eqb_spec (rwait x) (2 ^ 20 - 1)) as [->|]; [done|].
    rewrite Z.mod_small by lia. lia.
  - field_of 20 43. change mutexWWait with (2 ^ 43).
    replace ((enc x + 2 ^ 43) / 2 ^ 43 mod 2 ^ 20) with ((wwait x + 1) mod 2 ^ 20)
      by (rewrite <- Ew; zwlia).
    destruct (Z.eqb_spec (wwait x) (2 ^ 20 - 1)) as [->|]; [done|].
    rewrite Z.mod_small by lia. lia.
Qed.
(** Setting and clearing flags. *)
Lemma set_closed_word x : wf_word x → closed x = false →
  Z.lor (enc x) mutexClosed = enc (MkWord true (rlock x) (wlock x) (refs x) (rwait x) (wwait x)).
Proof.
  intros Hw Hc. rewrite lor_land, land_closed, Hc by done. unfold enc. rewrite Hc.
  change mutexClosed with 1. cbn [closed rlock wlock refs rwait wwait Z.b2z]. lia.
Qed.
Lemma set_lock_word read x : wf_word x → lock read x = false →
  Z.lor (enc x) (mutexBit read) = enc (set_lock read true x).
Proof.
  intros Hw Hl. rewrite lor_land, land_bit, Hl by done.
  destruct read; unfold lock in Hl; unfold enc, set_lock; rewrite Hl; unfold mutexBit;
    [change mutexRLock with 2|change mutexWLock with 4];
    cbn [closed rlock wlock refs rwait wwait Z.b2z]; lia.
Qed.
Lemma clear_lock_word read x : wf_word x → lock read x = true →
  andnot (enc x) (mutexBit read) = enc (set_lock read false x).
Proof.
  intros Hw Hl. unfold andnot. rewrite ldiff_land, land_bit, Hl by done.
  destruct read; unfold lock in Hl; unfold enc, set_lock; rewrite Hl; unfold mutexBit;
    [change mutexRLock with 2|change mutexWLock with 4];
    cbn [closed rlock wlock refs rwait wwait Z.b2z]; lia.
Qed.
Lemma clear_waits x : wf_word x →
  andnot (enc x) (Z.lor mutexRMask mutexWMask)
  = enc (MkWord (closed x) (rlock x) (wlock x) (refs x) 0 0).
Proof.
  intros Hw. unfold andnot.
  replace (Z.ldiff (enc x) (Z.lor mutexRMask mutexWMask))
    with (Z.ldiff (Z.ldiff (enc x) mutexRMask) mutexWMask) by apply Z.ldiff_ldiff_l.
  rewrite (ldiff_land (enc x) mutexRMask), (land_wait true x Hw : Z.land _ mutexRMask = _).
  assert (E : enc x - wait true x * mutexWait true
            = enc (MkWord (closed x) (rlock x) (wlock x) (refs x) 0 (wwait x))).
  { unfold enc, wait. change (mutexWait true) with (2 ^ 23).
    cbn [closed rlock wlock refs rwait wwait]. lia. }
  rewrite E, ldiff_land.
  assert (Hw' : wf_word (MkWord (closed x) (rlock x) (wlock x) (refs x) 0 (wwait x))).
  { destruct Hw as (?&?&?). repeat split; cbn; lia. }
  rewrite (land_wait false _ Hw' : Z.land _ mutexWMask = _). unfold enc, wait.
  change (mutexWait false) with (2 ^ 43). cbn [closed rlock wlock refs rwait wwait]. lia.
Qed.

(** ** The loop bodies are the record operations *)
Lemma incref_turn_enc x : wf_word x → incref_turn (enc x) = enc_turn (a_incref x).
Proof.
  intros Hw. unfold incref_turn, a_incref. rewrite test_closed, negb_involutive by done.
  destruct (closed x); [done|]. destruct (add_ref x Hw) as (->&->&E).
  destruct (refs x =? maxOps); [done|]. cbn [enc_turn]. by rewrite E.
Qed.
Lemma increfAndClose_turn_enc x : wf_word x →
  increfAndClose_turn (enc x) = enc_turn (a_increfAndClose x).
Proof.
  intros Hw. unfold increfAndClose_turn, a_increfAndClose.
  rewrite test_closed, negb_involutive by done.
  destruct (closed x) eqn:Hc; [done|]. rewrite set_closed_word by done.
  set (y := MkWord true _ _ _ _ _). assert (Hy : wf_word y) by exact Hw.
  destruct (add_ref y Hy) as (->&->&E). change (refs y) with (refs x).
  destruct (Z.eqb_spec (refs x) maxOps) as [|Hn]; [done|]. cbn [enc_turn]. rewrite E.
  rewrite clear_waits; [done|]. unfold maxOps in Hn. destruct Hw as (?&?&?).
  repeat split; cbn [y add_refs refs rwait wwait]; lia.
Qed.
Lemma decref_turn_enc x : wf_word x → decref_turn (enc x) = enc_turn (a_decref x).
Proof.
  intros Hw. unfold decref_turn, a_decref. rewrite test_refs by done.
  destruct (Z.eqb_spec (refs x) 0); [done|]. cbn [enc_turn]. f_equal.
  destruct (enc_range x Hw) as [_ Hr]. change mutexRef with (2 ^ 3).
  assert (2 ^ 3 <= enc x).
  { unfold enc. destruct Hw as (?&?&?). destruct (closed x), (rlock x), (wlock x); cbn [Z.b2z]; lia. }
  rewrite u64_id by (unfold is_u64; lia). unfold enc, add_refs.
  cbn [closed rlock wlock refs rwait wwait]. lia.
Qed.
Lemma rwlock_turn_enc read x : wf_word x → rwlock_turn read (enc x) = enc_turn (a_rwlock read x).
Proof.
  intros Hw. unfold rwlock_turn, a_rwlock. rewrite test_closed, negb_involutive by done.
  destruct (closed x); [done|]. rewrite test_bit by done.
  destruct (lock read x) eqn:Hl; cbn [negb].
  - destruct (add_waiter read x Hw) as (->&->&E). destruct (wait read x =? maxOps); [done|].
    cbn [enc_turn]. by rewrite E.
  - rewrite set_lock_word by done. set (y := set_lock read true x).
    assert (Hy : wf_word y) by (by destruct read).
    destruct (add_ref y Hy) as (->&->&E). replace (refs y) with (refs x) by (by destruct read).
    destruct (refs x =? maxOps); [done|]. cbn [enc_turn]. by rewrite E.
Qed.
Lemma rwunlock_turn_enc read x : wf_word x →
  rwunlock_turn read (enc x) = enc_turn (a_rwunlock read x).
Proof.
  intros Hw. unfold rwunlock_turn, a_rwunlock. rewrite test_bit, test_refs, test_wait by done.
  destruct (lock read x) eqn:Hl; [|done]. cbn [negb orb].
  destruct (Z.eqb_spec (refs x) 0) as [|Hn]; [done|].
  rewrite clear_lock_word by done. set (y := set_lock read false x).
  assert (Hy : wf_word y) by (by destruct read).
  assert (Ey : refs y = refs x ∧ wait read y = wait read x) by (by destruct read).
  pose proof (decref_turn_enc y Hy) as Hd. unfold decref_turn, a_decref in Hd.
  rewrite test_refs, (proj1 Ey), (proj2 (Z.eqb_neq _ 0)) in Hd by done. injection Hd as ->.
  cbn [enc_turn]. f_equal. destruct (Z.eqb_spec (wait read x) 0) as [|Hw0]; [done|]. cbn [negb].
  assert (Hz : wf_word (add_refs (-1) y)).
  { destruct Hy as (?&?&?). split; [|done]. cbn [add_refs refs]. lia. }
  destruct (enc_range _ Hz) as [_ Hr]. destruct Hz as (?&?&?), Ey as [_ Ey].
  assert (E : enc (add_refs (-1) y) - mutexWait read = enc (add_wait read (-1) (add_refs (-1) y))).
  { destruct read; unfold enc, add_wait, mutexWait;
      [change mutexRWait with (2 ^ 23)|change mutexWWait with (2 ^ 43)];
      cbn [closed rlock wlock refs rwait wwait]; lia. }
  rewrite E, u64_id; [done|]. apply enc_range.
  destruct read; unfold add_wait, wait in *; (repeat split; cbn [refs rwait wwait add_refs] in *; lia).
Qed.
Lemma acquire_turn_enc k x : wf_word x → acquire_turn k (enc x) = enc_turn (a_acquire k x).
Proof.
  destruct k; [apply rwlock_turn_enc..|apply incref_turn_enc|apply increfAndClose_turn_enc].
Qed.
Lemma release_turn_enc k x : wf_word x → release_turn k (enc x) = enc_turn (a_release k x).
Proof. destruct k; [apply rwunlock_turn_enc..|apply decref_turn_enc|apply decref_turn_enc]. Qed.
