(* ===== verification/FdMutexInv.v ===== *)
(** * internal/poll/fd_mutex.go: invariants of the interleaved system

    Whatever the schedule of up to 2^20-1 threads, the word decodes to a record
    whose counters count threads: references are threads between acquire and
    release, each lock bit is its one holder, waiters are the sleeping threads
    not yet signalled.  The properties at the end follow from the invariant. *)
From stdpp Require Import relations.
From S2P Require Import Prelude Threads FdMutex.
#[local] Open Scope Z_scope.

(** ** What a thread contributes *)
Definition is_kind (read : bool) (k : kind) : bool :=
  match k with KRead => read | KWrite => negb read | _ => false end.
(** It holds a reference. *)
Definition owns_ref (p : pc) : Z :=
  match p with
  | Hold _ | RelLoad _ | RelCas _ _ _ | WakeR _ | WakeW _ => 1
  | _ => 0
  end.
(** It holds the read, or write, lock. *)
Definition owns_lock (read : bool) (p : pc) : Z :=
  match p with
  | Hold k | RelLoad k | RelCas k _ _ => Z.b2z (is_kind read k)
  | _ => 0
  end.
(** It sleeps on the semaphore. *)
Definition sleeping (read : bool) (p : pc) : Z :=
  match p with Sleep r => Z.b2z (Bool.eqb r read) | _ => 0 end.
(** The wake-ups it has still to give. *)
Definition wait_field (read : bool) (old : Z) : Z :=
  if read then old / 2 ^ 23 mod 2 ^ 20 else old / 2 ^ 43 mod 2 ^ 20.
Definition waking (read : bool) (p : pc) : Z :=
  match p with
  | RelSem r _ => Z.b2z (Bool.eqb r read)
  | WakeR old => wait_field read old
  | WakeW old => if read then 0 else wait_field false old
  | _ => 0
  end.
(** It is trying to take the lock. *)
Definition acquiring (read : bool) (p : pc) : Z :=
  match p with AcqLoad k | AcqCas k _ _ => Z.b2z (is_kind read k) | _ => 0 end.
(** It is going to destroy the descriptor. *)
Definition destroying (p : pc) : Z :=
  match p with Destroy => 1 | RelSem _ new => Z.b2z (last_ref new) | _ => 0 end.

(** The local variables are what the loop bodies computed. *)
Definition wf_pc (p : pc) : Prop :=
  match p with
  | AcqCas k old new => acquire_turn k old = TCas new
  | RelCas k old new => release_turn k old = TCas new
  | WakeR old => ∃ y, wf_word y ∧ old = enc y
  | WakeW old => ∃ y, wf_word y ∧ old = enc y
  | Crashed _ => False
  | _ => True
  end.

Definition sema (read : bool) (m : fdMutex) : Z := if read then rsema m else wsema m.

Record inv (n : nat) (s : sys) (x : word) : Prop := MkInv
  { inv_len : length (pcs s) = n;
    inv_pcs : Forall wf_pc (pcs s);
    inv_word : wf_word x ∧ state (mu (sh s)) = enc x;
    inv_refs : refs x = total owns_ref (pcs s);
    inv_lock read : Z.b2z (lock read x) = total (owns_lock read) (pcs s);
    inv_wait read : total (sleeping read) (pcs s) =
      wait read x + sema read (mu (sh s)) + total (waking read) (pcs s);
    inv_sema read : 0 <= sema read (mu (sh s));
    inv_closed : closed x = true → rwait x = 0 ∧ wwait x = 0;
    inv_destroy : Z.of_nat (destroyed (sh s)) + total destroying (pcs s) =
      Z.b2z (closed x && (refs x =? 0));
    inv_wakeup read : closed x = false → lock read x = false → 0 < wait read x →
      0 < sema read (mu (sh s)) + total (waking read) (pcs s) + total (acquiring read) (pcs s) }.

Lemma owns_ref_01 p : 0 <= owns_ref p <= 1.
Proof. destruct p; simpl; lia. Qed.
Lemma owns_lock_01 read p : 0 <= owns_lock read p <= 1.
Proof. destruct p; simpl; try lia; apply b2z_01. Qed.
Lemma sleeping_01 read p : 0 <= sleeping read p <= 1.
Proof. destruct p; simpl; try lia; apply b2z_01. Qed.
Lemma wait_field_nonneg read old : 0 <= wait_field read old < 2 ^ 20.
Proof. destruct read; apply Z.mod_pos_bound; lia. Qed.
Lemma waking_nonneg read p : 0 <= waking read p.
Proof.
  destruct p; cbn [waking]; try lia; try apply b2z_01; try destruct read; try lia;
    apply wait_field_nonneg.
Qed.
Lemma acquiring_nonneg read p : 0 <= acquiring read p.
Proof. destruct p; simpl; try lia; apply b2z_01. Qed.
Lemma wait_field_enc read x : wf_word x → wait_field read (enc x) = wait read x.
Proof. intros Hw. destruct (enc_fields x Hw) as (_&_&_&_&Er&Ew). by destruct read. Qed.

Lemma inv_init n : inv n (init n) (MkWord false false false 0 0 0).
Proof.
  constructor; simpl; try (intros []); rewrite ?total_replicate by done; simpl; try done.
  - apply length_replicate.
  - by apply Forall_replicate.
Qed.

(** ** One step

    Every measure of the new system is that of the old one, less what the
    thread contributed, plus what it contributes now. *)
Section Step.
Context (n : nat) (Hn : Z.of_nat n < 2 ^ 20).
Context (l : list pc) (i : nat) (p : pc) (Hp : l !! i = Some p).

(** A thread that owns nothing leaves room in the counters. *)
Lemma refs_room s x : inv n s x → pcs s = l → owns_ref p = 0 → refs x < maxOps.
Proof.
  intros Hi E Ho. pose proof (total_room owns_ref l i p owns_ref_01 Hp).
  pose proof (inv_refs _ _ _ Hi) as Hr. pose proof (inv_len _ _ _ Hi) as Hl.
  rewrite E in *. unfold maxOps. lia.
Qed.
Lemma wait_room read s x : inv n s x → pcs s = l → sleeping read p = 0 → wait read x < maxOps.
Proof.
  intros Hi E Ho. pose proof (total_room (sleeping read) l i p (sleeping_01 read) Hp).
  pose proof (inv_wait _ _ _ Hi read) as Hr. pose proof (inv_len _ _ _ Hi) as Hl.
  pose proof (inv_sema _ _ _ Hi read).
  pose proof (total_nonneg (waking read) l (waking_nonneg read)).
  rewrite E in *. unfold maxOps. lia.
Qed.
(** A semaphore never counts more than the sleeping threads. *)
Lemma sema_room read s x : inv n s x → pcs s = l → sema read (mu (sh s)) < 2 ^ 20.
Proof.
  intros Hi E. pose proof (total_room (sleeping read) l i p (sleeping_01 read) Hp).
  pose proof (sleeping_01 read p).
  pose proof (inv_wait _ _ _ Hi read) as Hr. pose proof (inv_len _ _ _ Hi) as Hl.
  pose proof (total_nonneg (waking read) l (waking_nonneg read)).
  destruct (inv_word _ _ _ Hi) as [(?&?&?) _].
  assert (0 <= wait read x) by (destruct read; simpl; lia). rewrite E in *. lia.
Qed.
(** An owner's reference and lock are counted. *)
Lemma owner_refs s x : inv n s x → pcs s = l → owns_ref p <= refs x.
Proof.
  intros Hi <-. rewrite (inv_refs _ _ _ Hi).
  apply (total_ge owns_ref (pcs s) i); [intros; apply owns_ref_01|done].
Qed.
Lemma owner_lock read s x : inv n s x → pcs s = l → owns_lock read p = 1 → lock read x = true.
Proof.
  intros Hi <- Ho. pose proof (inv_lock _ _ _ Hi read) as E.
  pose proof (total_ge (owns_lock read) (pcs s) i p) as H.
  specialize (H ltac:(intros; apply owns_lock_01) Hp). destruct (lock read x); [done|].
  simpl in E. lia.
Qed.
End Step.

Lemma inv_update n s x i p p' sh' x' : inv n s x → pcs s !! i = Some p → wf_pc p' →
  wf_word x' → state (mu sh') = enc x' →
  refs x' - refs x = owns_ref p' - owns_ref p →
  (∀ r, Z.b2z (lock r x') - Z.b2z (lock r x) = owns_lock r p' - owns_lock r p) →
  (∀ r, sleeping r p' - sleeping r p = (wait r x' - wait r x) +
     (sema r (mu sh') - sema r (mu (sh s))) + (waking r p' - waking r p)) →
  (∀ r, 0 <= sema r (mu sh')) →
  (closed x' = true → rwait x' = 0 ∧ wwait x' = 0) →
  Z.of_nat (destroyed sh') - Z.of_nat (destroyed (sh s)) + destroying p' - destroying p =
    Z.b2z (closed x' && (refs x' =? 0)) - Z.b2z (closed x && (refs x =? 0)) →
  (∀ r, closed x' = false → lock r x' = false → 0 < wait r x' →
     0 < sema r (mu sh') + (total (waking r) (pcs s) - waking r p + waking r p') +
         (total (acquiring r) (pcs s) - acquiring r p + acquiring r p')) →
  inv n (MkSys sh' (<[i := p']> (pcs s))) x'.
Proof.
  intros [H1 H2 H3 H4 H5 H6 H7 H8 H9 H10] Hp Hpc Hw Hst Hrefs Hlock Hwait Hsema Hcl Hd Hwk.
  constructor; cbn [sh pcs]; try done.
  - by rewrite length_insert.
  - by apply Forall_insert.
  - rewrite (total_insert _ _ _ _ _ Hp). lia.
  - intros r. rewrite (total_insert _ _ _ _ _ Hp). specialize (H5 r). specialize (Hlock r). lia.
  - intros r. rewrite !(total_insert _ _ _ _ _ Hp). specialize (H6 r). specialize (Hwait r). lia.
  - rewrite (total_insert _ _ _ _ _ Hp). lia.
  - intros r. rewrite !(total_insert _ _ _ _ _ Hp). auto.
Qed.
(** A step that leaves the shared state alone and moves no count. *)
Lemma inv_local n s x i p p' : inv n s x → pcs s !! i = Some p → wf_pc p' →
  owns_ref p' = owns_ref p → (∀ r, owns_lock r p' = owns_lock r p) →
  (∀ r, sleeping r p' = sleeping r p) → (∀ r, waking r p' = waking r p) →
  destroying p' = destroying p →
  (∀ r, acquiring r p <= acquiring r p' ∨ closed x = true ∨ lock r x = true) →
  inv n (MkSys (sh s) (<[i := p']> (pcs s))) x.
Proof.
  intros Hi Hp Hpc E1 E2 E3 E4 E5 E6. pose proof Hi as [H1 H2 H3 H4 H5 H6 H7 H8 H9 H10].
  eapply inv_update; try done; try (apply H3); try lia.
  - intros r. specialize (E2 r). lia.
  - intros r. specialize (E3 r). specialize (E4 r). lia.
  - intros r Hc Hl Hw. specialize (H10 r Hc Hl Hw). specialize (E4 r).
    destruct (E6 r) as [E|[E|E]]; [lia|congruence|congruence].
Qed.

Lemma inv_pc n s x i p : inv n s x → pcs s !! i = Some p → wf_pc p.
Proof. intros Hi Hp. by eapply Forall_lookup_1 in Hp; [|apply (inv_pcs _ _ _ Hi)]. Qed.
Lemma inv_enc n s x : inv n s x → wf_word x ∧ state (mu (sh s)) = enc x.
Proof. intros Hi. apply Hi. Qed.
Lemma enc_turn_cas t new : enc_turn t = TCas new → ∃ y, t = ACas y ∧ new = enc y.
Proof. destruct t; [done..|]. intros [= <-]. eauto. Qed.

(** ** The load steps: no panic *)
Lemma step_AcqLoad n s x i k p' sh' : Z.of_nat n < 2 ^ 20 → inv n s x →
  pcs s !! i = Some (AcqLoad k) → ∀ k', tstep k' (AcqLoad k) (sh s) = Some (p', sh') →
  inv n (MkSys sh' (<[i := p']> (pcs s))) x.
Proof.
  intros Hn Hi Hp k' Hs. destruct (inv_enc _ _ _ Hi) as [Hw Hst].
  cbn [tstep] in Hs. rewrite Hst, acquire_turn_enc in Hs by done.
  assert (Hr : refs x ≠ maxOps).
  { pose proof (refs_room n Hn (pcs s) i _ Hp s x Hi eq_refl eq_refl). lia. }
  assert (Hwt : ∀ r, wait r x ≠ maxOps).
  { intros r. pose proof (wait_room n Hn (pcs s) i _ Hp r s x Hi eq_refl eq_refl). lia. }
  assert (Ht : (a_acquire k x = ARet false ∧ closed x = true) ∨ ∃ y, a_acquire k x = ACas y).
  { destruct k; cbn [a_acquire]; unfold a_rwlock, a_incref, a_increfAndClose;
      destruct (closed x); eauto;
      rewrite ?(proj2 (Z.eqb_neq (refs x) maxOps)), ?(proj2 (Z.eqb_neq (wait _ x) maxOps)) by done;
      try (destruct (lock _ x)); eauto. }
  destruct Ht as [[E Hc]|[y E]]; rewrite E in Hs; cbn [enc_turn] in Hs; injection Hs as <- <-.
  - eapply inv_local; try done. auto.
  - eapply inv_local; try done; [|by left].
    cbn [wf_pc]. by rewrite acquire_turn_enc, E by done.
Qed.

(** Arithmetic on what a thread contributes, once its place is known. *)
Ltac measures :=
  cbn [owns_ref owns_lock sleeping waking acquiring destroying is_kind Z.b2z Bool.eqb negb] in *.

Lemma step_RelLoad n s x i k p' sh' : inv n s x →
  pcs s !! i = Some (RelLoad k) → ∀ k', tstep k' (RelLoad k) (sh s) = Some (p', sh') →
  inv n (MkSys sh' (<[i := p']> (pcs s))) x.
Proof.
  intros Hi Hp k' Hs. destruct (inv_enc _ _ _ Hi) as [Hw Hst].
  cbn [tstep] in Hs. rewrite Hst, release_turn_enc in Hs by done.
  pose proof (owner_refs n (pcs s) i _ Hp s x Hi eq_refl) as Ho. cbn [owns_ref] in Ho.
  assert (Ht : ∃ y, a_release k x = ACas y).
  { assert (Hz : (refs x =? 0) = false) by (apply Z.eqb_neq; lia).
    pose proof (λ r, owner_lock n (pcs s) i _ Hp r s x Hi eq_refl) as Hl.
    destruct k; cbn [a_release]; unfold a_rwunlock, a_decref; rewrite Hz; eauto;
      [rewrite (Hl true) by done|rewrite (Hl false) by done]; cbn [negb orb]; eauto. }
  destruct Ht as [y E]. rewrite E in Hs. cbn [enc_turn] in Hs. injection Hs as <- <-.
  eapply inv_local; try done; [|by left]. cbn [wf_pc]. by rewrite release_turn_enc, E by done.
Qed.

(** ** The compare-and-swap steps *)
Lemma wf_add_refs x d : wf_word x → 0 <= refs x + d < 2 ^ 20 → wf_word (add_refs d x).
Proof. intros (H1&H2&H3) H. exact (conj H (conj H2 H3)). Qed.
Lemma wf_add_wait x r d : wf_word x → 0 <= wait r x + d < 2 ^ 20 → wf_word (add_wait r d x).
Proof.
  intros (H1&H2&H3) H. destruct r; [exact (conj H1 (conj H H3))|exact (conj H1 (conj H2 H))].
Qed.

Lemma wf_range x : wf_word x → 0 <= refs x < 2 ^ 20 ∧ ∀ r, 0 <= wait r x < 2 ^ 20.
Proof. intros (?&?&?). split; [done|]. by intros []. Qed.
(** All the record operations and measures evaluated. *)
Ltac word_eval :=
  cbn [closed rlock wlock refs rwait wwait lock wait set_lock add_refs add_wait close
       owns_ref owns_lock sleeping waking acquiring destroying is_kind Z.b2z Bool.eqb negb andb
       set_word set_mu sema mu rsema wsema state destroyed sh pcs] in *.
(** A compare-and-swap that succeeded: the word, its counters and the thread
    that moved are known; what is left is arithmetic. *)
Ltac cas_done :=
  intros; repeat match goal with r : bool |- _ => destruct r end; word_eval;
  try discriminate; try congruence; try lia.

Lemma a_acquire_wf k x y : wf_word x → a_acquire k x = ACas y → wf_word y.
Proof.
  intros (W1&W2&W3) E. unfold wf_word, maxOps in *.
  destruct k; cbn [a_acquire] in E; unfold a_rwlock, a_incref, a_increfAndClose, maxOps in E;
    repeat (case_match; try discriminate E); injection E as <-; word_eval; lia.
Qed.
Lemma a_release_wf k x y : wf_word x → a_release k x = ACas y → wf_word y.
Proof.
  intros (W1&W2&W3) E. unfold wf_word in *.
  destruct k; cbn [a_release] in E; unfold a_rwunlock, a_decref in E;
    repeat (case_match; try discriminate E); injection E as <-; word_eval; lia.
Qed.
Lemma cas_acquire n s x i k y sh' : Z.of_nat n < 2 ^ 20 → inv n s x →
  pcs s !! i = Some (AcqCas k (enc x) (enc y)) → a_acquire k x = ACas y →
  sh' = set_word (sh s) (enc y) →
  inv n (MkSys sh' (<[i := after_acquire k (enc x)]> (pcs s))) y.
Proof.
  intros Hn Hi Hp E ->. destruct (inv_enc _ _ _ Hi) as [Hw Hst].
  pose proof (refs_room n Hn (pcs s) i _ Hp s x Hi eq_refl eq_refl) as Hr.
  pose proof (λ r, wait_room n Hn (pcs s) i _ Hp r s x Hi eq_refl eq_refl) as Hwt.
  pose proof (inv_sema _ _ _ Hi) as Hs. pose proof (inv_closed _ _ _ Hi) as Hc.
  pose proof (inv_wakeup _ _ _ Hi) as Hwk.
  pose proof (Hwt true) as Hw1. pose proof (Hwt false) as Hw2. clear Hwt.
  pose proof (Hs true) as Hs1. pose proof (Hs false) as Hs2. clear Hs.
  pose proof (Hwk true) as Hk1. pose proof (Hwk false) as Hk2. clear Hwk.
  assert (Hpc : wf_pc (after_acquire k (enc x))).
  { destruct k; cbn [after_acquire]; try (by destruct (_ =? 0)); try done. by exists x. }
  pose proof (a_acquire_wf k x y Hw E) as Hwy.
  assert (Ewf : ∀ r, wait_field r (enc x) = wait r x) by (intros r; by apply wait_field_enc).
  assert (Etest : ∀ r, (Z.land (enc x) (mutexBit r) =? 0) = negb (lock r x))
    by (intros r; by apply test_bit).
  pose proof (proj1 Hw) as Hrf.
  destruct x as [cl rl wl rf rw ww], (sh s) as [[st rs ws] d] eqn:Esh.
  word_eval. unfold maxOps in *.
  eapply inv_update; try done; rewrite ?Esh;
  destruct k; cbn [a_acquire after_acquire] in *;
    unfold a_rwlock, a_incref, a_increfAndClose, maxOps in E; rewrite ?Etest in *; word_eval;
    destruct cl; try discriminate E; try destruct rl; try destruct wl; word_eval;
    repeat (case_match; try discriminate E); try (injection E as <-); cas_done;
    try (rewrite !Ewf; word_eval; lia);
    try (destruct (Z.eqb_spec (rf + 1) 0); cbn [Z.b2z]; lia).
Qed.

Lemma cas_release n s x i k y sh' : inv n s x →
  pcs s !! i = Some (RelCas k (enc x) (enc y)) → a_release k x = ACas y →
  sh' = set_word (sh s) (enc y) →
  inv n (MkSys sh' (<[i := after_release k (enc x) (enc y)]> (pcs s))) y.
Proof.
  intros Hi Hp E ->. destruct (inv_enc _ _ _ Hi) as [Hw Hst].
  pose proof (owner_refs n (pcs s) i _ Hp s x Hi eq_refl) as Hr.
  pose proof (λ r, owner_lock n (pcs s) i _ Hp r s x Hi eq_refl) as Hl.
  pose proof (inv_sema _ _ _ Hi) as Hs. pose proof (inv_closed _ _ _ Hi) as Hc.
  pose proof (inv_wakeup _ _ _ Hi) as Hwk.
  pose proof (Hl true) as Hl1. pose proof (Hl false) as Hl2. clear Hl.
  pose proof (Hs true) as Hs1. pose proof (Hs false) as Hs2. clear Hs.
  pose proof (Hwk true) as Hk1. pose proof (Hwk false) as Hk2. clear Hwk.
  pose proof (total_nonneg (waking true) (pcs s) (waking_nonneg true)) as Ht1.
  pose proof (total_nonneg (waking false) (pcs s) (waking_nonneg false)) as Ht2.
  pose proof (total_nonneg (acquiring true) (pcs s) (acquiring_nonneg true)) as Hq1.
  pose proof (total_nonneg (acquiring false) (pcs s) (acquiring_nonneg false)) as Hq2.
  pose proof (a_release_wf k x y Hw E) as Hwy.
  assert (Hpc : wf_pc (after_release k (enc x) (enc y))).
  { unfold after_release, released. by repeat case_match. }
  assert (Etest : ∀ r, (Z.land (enc x) (mutexMask r) =? 0) = (wait r x =? 0))
    by (intros r; by apply test_wait).
  assert (Elast : last_ref (enc y) = closed y && (refs y =? 0)) by (by apply test_last).
  pose proof Hw as (Hrf&Hrw&Hww).
  destruct x as [cl rl wl rf rw ww], (sh s) as [[st rs ws] d] eqn:Esh.
  word_eval.
  eapply inv_update; try done; rewrite ?Esh;
  destruct k; cbn [a_release after_release] in *; unfold released;
    unfold a_rwunlock, a_decref in E; rewrite ?Etest in *; word_eval;
    try rewrite Hl1 in * by done; try rewrite Hl2 in * by done; word_eval;
    repeat (case_match; try discriminate E); try (injection E as <-); cas_done;
    try (rewrite Elast; word_eval; lia);
    rewrite Elast in *; destruct (Z.eqb_spec (rf + -1) 0), (Z.eqb_spec rf 0); cbn [Z.b2z];
    (discriminate || lia).
Qed.

(** ** The semaphore steps *)
Lemma sema_Semrelease r r' m : 0 <= sema r m → sema r m < 2 ^ 20 →
  sema r' (Semrelease r m) = sema r' m + (if Bool.eqb r r' then 1 else 0) ∧
  state (Semrelease r m) = state m.
Proof.
  destruct m as [st rs ws]. intros H1 H2.
  destruct r, r'; simpl in *; rewrite ?u32_id by (unfold is_u32; lia); split; lia.
Qed.
Lemma sema_Semacquire r m m' : Semacquire r m = Some m' →
  state m' = state m ∧ 0 <= sema r m' ∧
  ∀ r', sema r' m' = sema r' m - (if Bool.eqb r r' then 1 else 0).
Proof.
  destruct m as [st rs ws]. destruct r; simpl; case_match; try done; intros [= <-]; simpl;
    (split; [done|]); (split; [lia|]); intros []; simpl; lia.
Qed.

(** A step that changes a semaphore and no word. *)
Lemma inv_sema_step n s x i p p' m' d' : inv n s x → pcs s !! i = Some p → wf_pc p' →
  state m' = state (mu (sh s)) → owns_ref p' = owns_ref p →
  (∀ r, owns_lock r p' = owns_lock r p) →
  (∀ r, sleeping r p' - sleeping r p =
     (sema r m' - sema r (mu (sh s))) + (waking r p' - waking r p)) →
  (∀ r, 0 <= sema r m') →
  Z.of_nat d' + destroying p' = Z.of_nat (destroyed (sh s)) + destroying p →
  (∀ r, sema r (mu (sh s)) + waking r p + acquiring r p <=
        sema r m' + waking r p' + acquiring r p') →
  inv n (MkSys (MkShared m' d') (<[i := p']> (pcs s))) x.
Proof.
  intros Hi Hp Hpc Hst E1 E2 E3 E4 E5 E6. destruct (inv_enc _ _ _ Hi) as [Hw Hs].
  eapply inv_update; try done; cbn [mu destroyed]; try congruence; try lia.
  - intros r. specialize (E2 r). lia.
  - intros r. specialize (E3 r). lia.
  - apply (inv_closed _ _ _ Hi).
  - intros r Hc Hl Hwt. pose proof (inv_wakeup _ _ _ Hi r Hc Hl Hwt). specialize (E6 r). lia.
Qed.

Lemma wake_word r y : wf_word y → (Z.land (enc y) (mutexMask r) =? 0) = false →
  wf_word (add_wait r (-1) y) ∧ u64 (enc y - mutexWait r) = enc (add_wait r (-1) y).
Proof.
  intros Hw Ht. rewrite test_wait in Ht by done. apply Z.eqb_neq in Ht.
  assert (Hy : wf_word (add_wait r (-1) y)).
  { apply wf_add_wait; [done|]. destruct (wf_range y Hw) as [_ H]. specialize (H r). lia. }
  split; [done|]. assert (E : enc y - mutexWait r = enc (add_wait r (-1) y)).
  { destruct r; unfold enc, mutexWait; [change mutexRWait with (2 ^ 23)|change mutexWWait with (2 ^ 43)];
      word_eval; lia. }
  rewrite E. apply u64_id, enc_range, Hy.
Qed.

Lemma released_measures new :
  owns_ref (released new) = 0 ∧ (∀ r, owns_lock r (released new) = 0) ∧
  (∀ r, sleeping r (released new) = 0) ∧ (∀ r, waking r (released new) = 0) ∧
  (∀ r, acquiring r (released new) = 0) ∧ destroying (released new) = Z.b2z (last_ref new) ∧
  wf_pc (released new).
Proof. unfold released. by destruct (last_ref new). Qed.

Lemma step_RelSem n s x i r new : Z.of_nat n < 2 ^ 20 → inv n s x →
  pcs s !! i = Some (RelSem r new) →
  inv n (MkSys (set_mu (sh s) (Semrelease r (mu (sh s)))) (<[i := released new]> (pcs s))) x.
Proof.
  intros Hn Hi Hp. destruct (released_measures new) as (E1&E2&E3&E4&E5&E6&E7).
  pose proof (λ r', sema_Semrelease r r' (mu (sh s)) (inv_sema _ _ _ Hi r)
    (sema_room n Hn (pcs s) i _ Hp r s x Hi eq_refl)) as Hs.
  eapply inv_sema_step; try done.
  - apply (Hs r).
  - intros r'. rewrite (proj1 (Hs r')), E3, E4. measures. destruct r, r'; simpl; lia.
  - intros r'. rewrite (proj1 (Hs r')). pose proof (inv_sema _ _ _ Hi r').
    destruct (Bool.eqb r r'); lia.
  - by rewrite E6.
  - intros r'. rewrite (proj1 (Hs r')), E4, E5. measures. destruct r, r'; simpl; lia.
Qed.
Lemma step_Sleep n s x i r m' : inv n s x → pcs s !! i = Some (Sleep r) →
  Semacquire r (mu (sh s)) = Some m' →
  inv n (MkSys (set_mu (sh s) m') (<[i := AcqLoad (if r then KRead else KWrite)]> (pcs s))) x.
Proof.
  intros Hi Hp (Hst&Hpos&Hs)%sema_Semacquire. 
  eapply inv_sema_step; try done.
  - intros r'. rewrite Hs. measures. destruct r, r'; simpl; lia.
  - intros r'. destruct (decide (r' = r)) as [->|Hr]; [done|]. rewrite Hs.
    pose proof (inv_sema _ _ _ Hi r'). destruct r, r'; simpl in *; try done; lia.
  - intros r'. rewrite Hs. measures. destruct r, r'; simpl; lia.
Qed.
(** One more waiter woken by the closing thread. *)
Lemma step_wake n s x i (r : bool) y p' : Z.of_nat n < 2 ^ 20 → inv n s x → wf_word y →
  (Z.land (enc y) (mutexMask r) =? 0) = false →
  pcs s !! i = Some (if r then WakeR (enc y) else WakeW (enc y)) →
  p' = (if r then WakeR (u64 (enc y - mutexWait r)) else WakeW (u64 (enc y - mutexWait r))) →
  inv n (MkSys (set_mu (sh s) (Semrelease r (mu (sh s)))) (<[i := p']> (pcs s))) x.
Proof.
  intros Hn Hi Hy Ht Hp ->. destruct (wake_word r y Hy Ht) as [Hy' ->].
  pose proof (λ r', sema_Semrelease r r' (mu (sh s)) (inv_sema _ _ _ Hi r)
    (sema_room n Hn (pcs s) i _ Hp r s x Hi eq_refl)) as Hs.
  eapply inv_sema_step; [exact Hi|exact Hp|..].
  - destruct r; by eexists.
  - apply (Hs r).
  - by destruct r.
  - by destruct r.
  - intros r'. rewrite (proj1 (Hs r')).
    destruct r, r'; measures; rewrite ?wait_field_enc by done; word_eval; lia.
  - intros r'. rewrite (proj1 (Hs r')). pose proof (inv_sema _ _ _ Hi r').
    destruct (Bool.eqb r r'); lia.
  - by destruct r.
  - intros r'. rewrite (proj1 (Hs r')).
    destruct r, r'; measures; rewrite ?wait_field_enc by done; word_eval; lia.
Qed.
(** A waking loop that is done. *)
Lemma mask_zero r y : wf_word y → (Z.land (enc y) (mutexMask r) =? 0) = true →
  wait_field r (enc y) = 0.
Proof.
  intros Hy Ht. rewrite test_wait, Z.eqb_eq in Ht by done. by rewrite wait_field_enc.
Qed.

Lemma step_inv n s s' x : Z.of_nat n < 2 ^ 20 → inv n s x → step s s' → ∃ x', inv n s' x'.
Proof.
  intros Hn Hi Hs. destruct Hs as [i k p p' sh' Hp Hs].
  pose proof (inv_pc _ _ _ _ _ Hi Hp) as Hpc. destruct (inv_enc _ _ _ Hi) as [Hw Hst].
  destruct p; cbn [tstep] in Hs.
  - injection Hs as <- <-. exists x. eapply inv_local; try done. intros r. left. measures. apply b2z_01.
  - exists x. by apply (step_AcqLoad n s x i _ p' sh' Hn Hi Hp k).
  - destruct (Z.eqb_spec (state (mu (sh s))) old) as [<-|]; injection Hs as <- <-.
    + rewrite Hst in *. cbn [wf_pc] in Hpc. rewrite acquire_turn_enc in Hpc by done.
      apply enc_turn_cas in Hpc as (y&Ey&->). exists y. by eapply cas_acquire.
    + exists x. eapply inv_local; try done. by left.
  - destruct (Semacquire read (mu (sh s))) as [m'|] eqn:Em; [|done]. injection Hs as <- <-.
    exists x. by eapply step_Sleep.
  - cbn [wf_pc] in Hpc. destruct Hpc as (y&Hy&->). exists x.
    change mutexRMask with (mutexMask true) in Hs.
    destruct (Z.land (enc y) (mutexMask true) =? 0) eqn:Ht; injection Hs as <- <-.
    + eapply inv_local; try done; [by exists y| |by left].
      intros []; cbn [waking]; [by rewrite mask_zero|done].
    + by eapply (step_wake n s x i true y).
  - cbn [wf_pc] in Hpc. destruct Hpc as (y&Hy&->). exists x.
    change mutexWMask with (mutexMask false) in Hs.
    destruct (Z.land (enc y) (mutexMask false) =? 0) eqn:Ht; injection Hs as <- <-.
    + eapply inv_local; try done; [|by left].
      intros []; cbn [waking]; [done|by rewrite mask_zero].
    + by eapply (step_wake n s x i false y).
  - injection Hs as <- <-. exists x. eapply inv_local; try done. by left.
  - exists x. by apply (step_RelLoad n s x i _ p' sh' Hi Hp k).
  - destruct (Z.eqb_spec (state (mu (sh s))) old) as [<-|]; injection Hs as <- <-.
    + rewrite Hst in *. cbn [wf_pc] in Hpc. rewrite release_turn_enc in Hpc by done.
      apply enc_turn_cas in Hpc as (y&Ey&->). exists y. by eapply cas_release.
    + exists x. eapply inv_local; try done. by left.
  - injection Hs as <- <-. exists x. by eapply step_RelSem.
  - injection Hs as <- <-. exists x. eapply inv_sema_step; try done.
    + intros r. measures. lia.
    + apply (inv_sema _ _ _ Hi).
    + measures. lia.
  - done.
Qed.
Lemma reachable_inv n s : Z.of_nat n < 2 ^ 20 → reachable n s → ∃ x, inv n s x.
Proof.
  intros Hn Hr. unfold reachable in Hr.
  assert (H : ∀ s0, rtc step s0 s → (∃ x, inv n s0 x) → ∃ x, inv n s x).
  { clear Hr. intros s0 Hr. induction Hr as [s0|s0 s1 s2 Hs _ IH]; [done|].
    intros [x Hx]. apply IH. by eapply step_inv. }
  apply (H _ Hr). eexists. apply inv_init.
Qed.
