(* ===== verification/FdMutexProps.v ===== *)
(** * internal/poll/fd_mutex.go: the properties *)
From stdpp Require Import relations.
From S2P Require Import Prelude Threads FdMutex FdMutexInv.
#[local] Open Scope Z_scope.

(** C1: One turn of each method's loop, on the packed word, is the operation on
    the record it encodes: closed flag, two locks, three counters; the result
    is a well-formed record again, and distinct records have distinct words. *)
Theorem word_refines_record x : wf_word x →
  (∀ k, acquire_turn k (enc x) = enc_turn (a_acquire k x) ∧
        release_turn k (enc x) = enc_turn (a_release k x)) ∧
  (∀ k y, a_acquire k x = ACas y ∨ a_release k x = ACas y → wf_word y) ∧
  (∀ y, wf_word y → enc x = enc y → x = y) ∧
  last_ref (enc x) = closed x && (refs x =? 0).
Proof.
  intros Hw. split; [intros k; split; [by apply acquire_turn_enc|by apply release_turn_enc]|].
  split; [intros k y [E|E]; [by eapply a_acquire_wf|by eapply a_release_wf]|].
  split; [|by apply test_last]. intros y Hy E.
  destruct (enc_fields x Hw) as (A1&A2&A3&A4&A5&A6), (enc_fields y Hy) as (B1&B2&B3&B4&B5&B6).
  rewrite E in *. destruct x, y. cbn in *. f_equal; try congruence;
    match goal with |- ?a = ?b => destruct a, b; cbn in *; congruence end.
Qed.
Lemma word_refines_record_witness :
  let x := MkWord false true false 1 2 0 in
  enc (MkWord false false false 0 1 0) = 0x800000 ∧
  release_turn KRead (enc x) = TCas (enc (MkWord false false false 0 1 0)).
Proof.
  cbv zeta. split; [reflexivity|].
  assert (Hw : wf_word (MkWord false true false 1 2 0)) by (repeat split; cbn; lia).
  destruct (word_refines_record _ Hw) as (H&_). exact (proj2 (H KRead)).
Defined.

(** C2: Mutual exclusion: in every reachable state at most one thread holds the
    read lock and at most one the write lock. *)
Theorem mutual_exclusion n s read i j p q : Z.of_nat n < 2 ^ 20 → reachable n s →
  pcs s !! i = Some p → pcs s !! j = Some q →
  owns_lock read p = 1 → owns_lock read q = 1 → i = j.
Proof.
  intros Hn Hr Hi Hj Hp Hq. destruct (reachable_inv n s Hn Hr) as [x Hx].
  destruct (decide (i = j)) as [|Hij]; [done|].
  pose proof (total_two (owns_lock read) (pcs s) i j p q
    ltac:(intros; apply owns_lock_01) Hi Hj Hij).
  rewrite <- (inv_lock _ _ _ Hx read) in H. pose proof (b2z_01 (lock read x)). lia.
Qed.

(** A schedule: thread 0 takes the read lock, thread 1 queues behind it, thread
    2 closes the descriptor. *)
Definition sample_schedule : list (nat * kind) :=
  [(0, KRead); (0, KRead); (0, KRead); (1, KRead); (1, KRead); (1, KRead)]%nat.
Lemma run_reachable n sched s : run sched (init n) = Some s → reachable n s.
Proof.
  unfold reachable. generalize (init n). induction sched as [|[i k] sched IH]; intros s0 E.
  - simplify_eq/=. done.
  - cbn [run] in E. destruct (pcs s0 !! i) as [p|] eqn:Hp; [|done].
    destruct (tstep k p (sh s0)) as [[p' sh']|] eqn:Ht; [|done].
    eapply rtc_l; [|by apply IH]. by econstructor.
Qed.
Definition sample_sys : sys :=
  MkSys (MkShared (MkMutex (enc (MkWord false true false 1 1 0)) 0 0) 0)
        [Hold KRead; Sleep true; Idle].
Lemma sample_run : run sample_schedule (init 3) = Some sample_sys.
Proof. vm_compute. reflexivity. Defined.
Lemma mutual_exclusion_witness :
  reachable 3 sample_sys ∧ (∀ j q, pcs sample_sys !! j = Some q → owns_lock true q = 1 → 0%nat = j).
Proof.
  split; [exact (run_reachable 3 _ _ sample_run)|]. intros j q Hj Hq.
  apply (mutual_exclusion 3 sample_sys true 0 j (Hold KRead) q);
    [reflexivity|exact (run_reachable 3 _ _ sample_run)|reflexivity|exact Hj|reflexivity|exact Hq].
Defined.

(** The number of threads matters: [j] threads that hold a reference. *)
Lemma increfs n j : (j <= n)%nat → Z.of_nat j < 2 ^ 20 →
  reachable n (MkSys (MkShared (MkMutex (8 * Z.of_nat j) 0 0) 0)
                     (replicate j (Hold KMisc) ++ replicate (n - j) Idle)).
Proof.
  induction j as [|j IH]; intros Hjn Hj.
  { rewrite Nat.sub_0_r. apply rtc_refl. }
  unfold reachable. etrans; [apply IH; lia|].
  replace (n - j)%nat with (S (n - S j)) by lia. cbn [replicate].
  set (l := replicate j (Hold KMisc)). set (r := replicate (n - S j) Idle).
  assert (Hat : ∀ p, (l ++ p :: r) !! j = Some p).
  { intros p. by rewrite <- (length_replicate j (Hold KMisc)) at 1; apply list_lookup_middle. }
  assert (Hins : ∀ p q, <[j:=q]> (l ++ p :: r) = l ++ q :: r).
  { intros p q. rewrite <- (length_replicate j (Hold KMisc)) at 1.
    pose proof (insert_app_r l (p :: r) 0 q) as Ei. rewrite Nat.add_0_r in Ei. exact Ei. }
  set (x := MkWord false false false (Z.of_nat j) 0 0).
  assert (Ew : 8 * Z.of_nat j = enc x) by (unfold enc; cbn; lia).
  assert (Hw : wf_word x) by (unfold wf_word; cbn; lia).
  assert (Et : acquire_turn KMisc (8 * Z.of_nat j) = TCas (8 * Z.of_nat (S j))).
  { rewrite Ew, acquire_turn_enc by done. cbn [a_acquire]. unfold a_incref, maxOps. cbn [closed refs x].
    rewrite (proj2 (Z.eqb_neq _ _)) by lia. cbn [enc_turn]. f_equal. unfold enc. cbn. lia. }
  eapply rtc_l; [apply (Step _ j KMisc Idle); [apply Hat|done]|]. cbn [pcs sh]. rewrite Hins.
  eapply rtc_l; [apply (Step _ j KMisc (AcqLoad KMisc)); [apply Hat|]|].
  { cbn [tstep sh mu state]. rewrite Et. reflexivity. }
  cbn [pcs sh]. rewrite Hins.
  eapply rtc_l; [apply (Step _ j KMisc (AcqCas KMisc (8 * Z.of_nat j) (8 * Z.of_nat (S j)))); [apply Hat|]|].
  { cbn [tstep sh mu state]. rewrite Z.eqb_refl. reflexivity. }
  cbn [pcs sh]. rewrite Hins. unfold l, r. cbn [after_acquire].
  rewrite cons_middle, app_assoc, <- replicate_S_end. apply rtc_refl.
Qed.
Lemma too_many n : 2 ^ 20 <= Z.of_nat n →
  ∃ s i, reachable n s ∧ pcs s !! i = Some (Crashed overflowMsg).
Proof.
  intros Hn. set (j := Z.to_nat maxOps). assert (Ej : Z.of_nat j = maxOps) by (by apply Z2Nat.id).
  assert (Hj : (j < n)%nat) by (unfold maxOps in Ej; lia).
  pose proof (increfs n j ltac:(lia) ltac:(rewrite Ej; done)) as Hr. rewrite Ej in Hr.
  set (s := MkSys _ _) in Hr.
  assert (Hi : pcs s !! j = Some Idle).
  { cbn [pcs s]. rewrite lookup_app_r by (by rewrite length_replicate).
    rewrite length_replicate, Nat.sub_diag. by replace (n - j)%nat with (S (n - S j)) by lia. }
  assert (Hlt : (j < length (pcs s))%nat) by (by eapply lookup_lt_Some).
  eexists _, j. split.
  - eapply rtc_r; [eapply rtc_r; [exact Hr|]|].
    + by apply (Step _ j KMisc Idle).
    + apply (Step _ j KMisc (AcqLoad KMisc)); [by apply list_lookup_insert_eq|reflexivity].
  - cbn [pcs]. apply list_lookup_insert_eq. by rewrite length_insert.
Qed.

(** C3: With fewer than 2^20 threads on a descriptor no operation ever panics:
    neither "too many concurrent operations" nor "inconsistent poll.fdMutex" is
    reached.  The bound is the best there is: with 2^20 threads or more the
    overflow panic is reached. *)
Theorem never_panics n :
  (Z.of_nat n < 2 ^ 20 → ∀ s i m, reachable n s → pcs s !! i ≠ Some (Crashed m)) ∧
  (2 ^ 20 <= Z.of_nat n → ∃ s i, reachable n s ∧ pcs s !! i = Some (Crashed overflowMsg)).
Proof.
  split; [|apply too_many]. intros Hn s i m Hr Hi. destruct (reachable_inv n s Hn Hr) as [x Hx].
  by apply (inv_pc _ _ _ _ _ Hx) in Hi.
Qed.
Lemma never_panics_witness : pcs sample_sys !! 1%nat ≠ Some (Crashed inconsistent).
Proof.
  apply (proj1 (never_panics 3) eq_refl sample_sys). exact (run_reachable 3 _ _ sample_run).
Defined.

(** Whether the descriptor has been closed. *)
Definition is_closed (s : sys) : bool := negb (Z.land (state (mu (sh s))) mutexClosed =? 0).
Lemma is_closed_word n s x : inv n s x → is_closed s = closed x.
Proof.
  intros Hi. destruct (inv_enc _ _ _ Hi) as [Hw Hst]. unfold is_closed.
  by rewrite Hst, test_closed, negb_involutive.
Qed.
Definition quiet (p : pc) : Prop := p = Idle.

(** C4: The descriptor is destroyed at most once, never while a thread is
    between acquiring and releasing it and never before it is closed; once it
    is closed and all threads are done it has been destroyed. *)
Theorem destroyed_once n s : Z.of_nat n < 2 ^ 20 → reachable n s →
  (destroyed (sh s) <= 1)%nat ∧
  (destroyed (sh s) = 1%nat → is_closed s = true ∧ ∀ i p, pcs s !! i = Some p → owns_ref p = 0) ∧
  (is_closed s = true → Forall quiet (pcs s) → destroyed (sh s) = 1%nat).
Proof.
  intros Hn Hr. destruct (reachable_inv n s Hn Hr) as [x Hx].
  rewrite (is_closed_word n s x Hx). pose proof (inv_destroy _ _ _ Hx) as Hd.
  pose proof (total_nonneg destroying (pcs s)) as Ht.
  assert (Hdn : ∀ p, 0 <= destroying p) by (intros []; simpl; try lia; apply b2z_01).
  specialize (Ht Hdn). pose proof (b2z_01 (closed x && (refs x =? 0))).
  split; [lia|]. split.
  - intros E. destruct (closed x) eqn:Hc; [|simpl in Hd; lia]. split; [done|].
    destruct (Z.eqb_spec (refs x) 0) as [Hz|]; [|simpl in Hd; lia].
    intros i p Hp. pose proof (total_ge owns_ref (pcs s) i p (λ p, proj1 (owns_ref_01 p)) Hp).
    rewrite <- (inv_refs _ _ _ Hx) in *. pose proof (owns_ref_01 p). lia.
  - intros Hc Hq. assert (Hz : ∀ f, f Idle = 0 → total f (pcs s) = 0).
    { intros f Hf. apply total_zero. intros i p Hp.
      by rewrite (Forall_lookup_1 _ _ _ _ Hq Hp : p = Idle). }
    rewrite Hz in Hd by done. rewrite (inv_refs _ _ _ Hx), Hz, Hc in Hd by done. simpl in Hd. lia.
Qed.
Definition close_schedule : list (nat * kind) :=
  replicate 9 (0%nat, KClose).
Definition closed_sys : sys := MkSys (MkShared (MkMutex 1 0 0) 1) [Idle; Idle].
Lemma close_run : run close_schedule (init 2) = Some closed_sys.
Proof. vm_compute. reflexivity. Defined.
Lemma destroyed_once_witness : destroyed (sh closed_sys) = 1%nat.
Proof.
  apply (destroyed_once 2 closed_sys);
    [reflexivity|exact (run_reachable 2 _ _ close_run)|reflexivity|].
  repeat (apply Forall_cons; [reflexivity|]). apply Forall_nil.
Defined.

(** What a thread asleep on the semaphore [r] waits for: a permit it can take
    now, or a thread that can move and has still to give a permit, holds the
    lock (and gives a permit when it releases it), or is on its way to take the
    lock of the open descriptor. *)
Inductive owed (s : sys) (i : nat) (r : bool) : Prop :=
| OwedPermit q : tstep KMisc (Sleep r) (sh s) = Some q → owed s i r
| OwedBy j p q : j ≠ i → pcs s !! j = Some p → tstep KMisc p (sh s) = Some q →
    0 < waking r p ∨ owns_lock r p = 1 ∨ (acquiring r p = 1 ∧ is_closed s = false) → owed s i r.

Lemma owed_by n s x i r p0 f : inv n s x → pcs s !! i = Some p0 → f p0 = 0 →
  (∀ p, 0 < f p → p ≠ Idle ∧ ∀ r, p ≠ Sleep r) →
  (∀ p, 0 < f p → 0 < waking r p ∨ owns_lock r p = 1 ∨ (acquiring r p = 1 ∧ is_closed s = false)) →
  0 < total f (pcs s) → owed s i r.
Proof.
  intros Hx Hi H0 Hb Hf (j&p&Hj&Hp)%total_pos. pose proof (inv_pc _ _ _ _ _ Hx Hj) as Hpc.
  destruct (Hb p Hp) as [_ Hs].
  assert (∃ q, tstep KMisc p (sh s) = Some q) as [q Hq].
  { destruct p; cbn [tstep]; try (exfalso; exact (Hs _ eq_refl)); try (by destruct Hpc);
      repeat case_match; eexists; reflexivity. }
  apply (OwedBy s i r j p q); [|done|done|by apply Hf]. intros ->. assert (p = p0) as -> by congruence. lia.
Qed.

(** C5: No lost wake-up: a thread asleep on a semaphore finds a permit there, or
    another thread, which can move without a new operation being started, has
    still to give a permit, holds the lock the sleeper waits for, or is about
    to take it. *)
Theorem sleeper_never_stuck n s i r : Z.of_nat n < 2 ^ 20 → reachable n s →
  pcs s !! i = Some (Sleep r) → owed s i r.
Proof.
  intros Hn Hr Hi. destruct (reachable_inv n s Hn Hr) as [x Hx].
  pose proof (total_ge (sleeping r) (pcs s) i _ ltac:(intros; apply sleeping_01) Hi) as Hs.
  cbn [sleeping] in Hs. rewrite Bool.eqb_reflx in Hs. cbn [Z.b2z] in Hs.
  destruct (decide (0 < sema r (mu (sh s)))) as [Hp|Hp].
  { unfold sema in Hp. destruct s as [[[st rs ws] d] l]. cbn in Hp.
    assert (∃ q, tstep KMisc (Sleep r) (MkShared (MkMutex st rs ws) d) = Some q) as [q Hq];
      [|by apply (OwedPermit (MkSys _ l) i r q)].
    cbn. destruct r; rewrite Z.gtb_ltb, (proj2 (Z.ltb_lt _ _)) by done; by eexists. }
  destruct (decide (0 < total (waking r) (pcs s))) as [Hk|Hk].
  { apply (owed_by n s x i r (Sleep r) (waking r)); auto. by intros [] Hq; simpl in Hq; try lia. }
  destruct (decide (0 < total (owns_lock r) (pcs s))) as [Hl|Hl].
  { apply (owed_by n s x i r (Sleep r) (owns_lock r)); auto.
    - by intros [] Hq; simpl in Hq; try lia.
    - intros p Hq. right. left. pose proof (owns_lock_01 r p). lia. }
  pose proof (inv_wait _ _ _ Hx r) as Hw. pose proof (inv_lock _ _ _ Hx r) as Hlk.
  assert (Hwt : 0 < wait r x) by lia.
  destruct (closed x) eqn:Hc.
  { destruct (inv_closed _ _ _ Hx Hc). destruct r; simpl in Hwt; lia. }
  destruct (lock r x) eqn:Hlx; [simpl in Hlk; lia|].
  pose proof (inv_wakeup _ _ _ Hx r Hc Hlx Hwt).
  apply (owed_by n s x i r (Sleep r) (acquiring r)); auto; [by intros [] Hq; simpl in Hq; try lia| |lia].
  intros p Hq. right. right. pose proof (is_closed_word n s x Hx) as Ec. rewrite Hc in Ec.
  split; [|done]. destruct p; simpl in *; try lia; destruct (is_kind r k); simpl in *; lia.
Qed.
Lemma sleeper_never_stuck_witness : owed sample_sys 1 true.
Proof.
  apply (sleeper_never_stuck 3 sample_sys 1 true);
    [reflexivity|exact (run_reachable 3 _ _ sample_run)|reflexivity].
Defined.

Lemma acquire_closed k x : wf_word x → closed x = true → acquire_turn k (enc x) = TRet false.
Proof.
  intros Hw Hc. rewrite acquire_turn_enc by done.
  destruct k; cbn [a_acquire]; unfold a_rwlock, a_incref, a_increfAndClose; by rewrite Hc.
Qed.
Lemma release_closed k x y : a_release k x = ACas y → closed y = closed x.
Proof.
  intros E. destruct k; cbn [a_release] in E; unfold a_rwunlock, a_decref in E;
    repeat (case_match; try discriminate E); by injection E as <-.
Qed.
Lemma after_release_owns k old new : owns_ref (after_release k old new) = 0.
Proof. unfold after_release, released. by repeat case_match. Qed.

(** Closing is final: after it no thread acquires the descriptor in any
    way, and every thread asleep on it has a wake-up coming. *)
Theorem closed_is_final n s s' : Z.of_nat n < 2 ^ 20 → reachable n s → step s s' →
  is_closed s = true →
  is_closed s' = true ∧
  (∀ i p', pcs s' !! i = Some p' → pcs s !! i = Some p' ∨ owns_ref p' = 0 ∨
     ∃ p, pcs s !! i = Some p ∧ owns_ref p = 1) ∧
  ∀ r, total (sleeping r) (pcs s) = sema r (mu (sh s)) + total (waking r) (pcs s).
Proof.
  intros Hn Hr Hst Hc. destruct (reachable_inv n s Hn Hr) as [x Hx].
  rewrite (is_closed_word n s x Hx) in Hc. destruct (inv_enc _ _ _ Hx) as [Hw Hword].
  destruct (inv_closed _ _ _ Hx Hc) as [Hrw Hww].
  assert (Hsl : ∀ r, total (sleeping r) (pcs s) = sema r (mu (sh s)) + total (waking r) (pcs s)).
  { intros r. pose proof (inv_wait _ _ _ Hx r). destruct r; simpl in *; lia. }
  destruct Hst as [i k p p' sh' Hp Hs]. pose proof (inv_pc _ _ _ _ _ Hx Hp) as Hpc.
  assert (Hgoal : (∀ j q, <[i := p']> (pcs s) !! j = Some q → pcs s !! j = Some q ∨ owns_ref q = 0 ∨
     ∃ p, pcs s !! j = Some p ∧ owns_ref p = 1) ↔
     (owns_ref p' = 0 ∨ owns_ref p = 1 ∨ p' = p)).
  { pose proof (lookup_lt_Some _ _ _ Hp) as Hlt. split.
    - intros H. destruct (H i p') as [E|[E|(q&Eq&E)]]; [by apply list_lookup_insert_eq| | |];
        simplify_eq; auto.
    - intros H j q Hj. destruct (decide (i = j)) as [<-|].
      + rewrite list_lookup_insert_eq in Hj by done. simplify_eq.
        destruct H as [?|[?| ->]]; eauto.
      + rewrite list_lookup_insert_ne in Hj by done. auto. }
  unfold is_closed. cbn [pcs sh]. rewrite Hgoal.
  assert (Hsame : state (mu sh') = state (mu (sh s)) →
    negb (Z.land (state (mu sh')) mutexClosed =? 0) = true).
  { intros ->. rewrite Hword, test_closed by done. by rewrite Hc. }
  destruct p; cbn [tstep] in Hs.
  - injection Hs as <- <-. auto.
  - rewrite Hword, acquire_closed in Hs by done. injection Hs as <- <-. auto.
  - destruct (Z.eqb_spec (state (mu (sh s))) old) as [<-|]; injection Hs as <- <-; [|auto].
    cbn [wf_pc] in Hpc. by rewrite Hword, acquire_closed in Hpc by done.
  - destruct (Semacquire read (mu (sh s))) as [m'|] eqn:Em; [|done]. injection Hs as <- <-.
    apply sema_Semacquire in Em as [Em _]. split; [by apply Hsame|]. auto.
  - destruct (Z.land old mutexRMask =? 0); injection Hs as <- <-; auto.
    split; [|auto]. apply Hsame. by destruct (mu (sh s)).
  - destruct (Z.land old mutexWMask =? 0); injection Hs as <- <-; auto.
    split; [|auto]. apply Hsame. by destruct (mu (sh s)).
  - injection Hs as <- <-. auto.
  - assert (Hsh : sh' = sh s ∧ owns_ref (RelLoad k0) = 1) by (by repeat case_match; simplify_eq).
    destruct Hsh as [-> Ho]. auto.
  - destruct (Z.eqb_spec (state (mu (sh s))) old) as [<-|]; injection Hs as <- <-; [|auto].
    rewrite after_release_owns. split; [|auto].
    cbn [wf_pc] in Hpc. rewrite Hword, release_turn_enc in Hpc by done.
    apply enc_turn_cas in Hpc as (y&Ey&->). cbn.
    rewrite test_closed, (release_closed _ _ _ Ey), Hc by (by eapply a_release_wf). done.
  - injection Hs as <- <-. split; [apply Hsame; destruct (mu (sh s)); by destruct read|].
    split; [left; apply released_measures|done].
  - injection Hs as <- <-. auto.
  - done.
Qed.
Definition closing_sys : sys :=
  MkSys (MkShared (MkMutex (enc (MkWord true true false 2 0 0)) 0 0) 0)
        [Hold KRead; Sleep true; WakeR (enc (MkWord false true false 1 1 0))].
Lemma closing_run :
  run (sample_schedule ++ [(2, KClose); (2, KClose); (2, KClose)]%nat) (init 3) = Some closing_sys.
Proof. vm_compute. reflexivity. Defined.
Lemma closed_is_final_witness :
  total (sleeping true) (pcs closing_sys) = 1 ∧
  total (sleeping true) (pcs closing_sys) =
    sema true (mu (sh closing_sys)) + total (waking true) (pcs closing_sys).
Proof.
  split; [vm_compute; reflexivity|].
  assert (Hs : step closing_sys (MkSys (sh closing_sys) [RelLoad KRead; Sleep true;
    WakeR (enc (MkWord false true false 1 1 0))])).
  { exact (Step closing_sys 0 KMisc (Hold KRead) (RelLoad KRead) _ eq_refl eq_refl). }
  destruct (closed_is_final 3 closing_sys _ ltac:(reflexivity) (run_reachable 3 _ _ closing_run)
    Hs eq_refl) as (_&_&H). exact (H true).
Defined.
