(* ===== verification/Netpoll.v ===== *)
(** * runtime/netpoll.go, netpoll_epoll.go, tagptr_64bit.go: the network poller

    The poll descriptor [pollDesc]: its packed atomic summary [atomicInfo], the
    two semaphores [rg] and [wg] on which a reading and a writing goroutine
    park, the deadlines and their timers, and the sequence numbers that make
    stale timers and stale kernel events harmless.

    Here every operation is one function of the descriptor; those that run
    under [pd.lock] are atomic with respect to each other.  The interleaving of
    the lock-free parts (netpollblock, netpollunblock) is in NetpollWait.

    The kernel (EpollCtl, EpollWait) is the value the call returns, an argument
    of the operation that makes it. *)
From S2P Require Import Prelude.

Definition mode_r : Z := "r"%byte.
Definition mode_w : Z := "w"%byte.
Definition mode_rw : Z := mode_r + mode_w.

Definition pollNoError : Z := 0.
Definition pollErrClosing : Z := 1.
Definition pollErrTimeout : Z := 2.
Definition pollErrNotPollable : Z := 3.

(** A semaphore: [pdNil] is 0, [pdReady] 1, [pdWait] 2, any other value the
    pointer of the goroutine parked on it. *)
Inductive gstate : Set := pdNil | pdReady | pdWait | G (g : nat).
#[global] Instance gstate_eq_dec : EqDecision gstate.
Proof. solve_decision. Defined.

(** ** Timers

    What netpoll uses of a runtime timer: its function and sequence number, the
    time it is set for, and whether it is waiting in a heap to fire once. *)
Inductive tfun : Set := netpollDeadline | netpollReadDeadline | netpollWriteDeadline.
#[global] Instance tfun_eq_dec : EqDecision tfun.
Proof. solve_decision. Defined.
Record timer : Set := MkTimer { t_f : option tfun; t_seq : Z; t_when : Z; t_armed : bool }.
Definition zeroTimer : timer := MkTimer None 0 0 false.

Definition when_panic : emsg := [Lit "timer when must be positive"%go].
Definition modtimer (t : timer) (when : Z) (f : option tfun) (seq : Z) : res timer :=
  if when <=? 0 then Panic when_panic else Ok (MkTimer f seq when true).
Definition resettimer (t : timer) (when : Z) : res timer :=
  modtimer t when (t_f t) (t_seq t).
Definition deltimer (t : timer) : timer := MkTimer (t_f t) (t_seq t) (t_when t) false.
(** The timer goes off: it leaves the heap and its function is called with the
    sequence number it was set with. *)
Definition runOneTimer (t : timer) : option (option tfun * Z * timer) :=
  if t_armed t then Some (t_f t, t_seq t, MkTimer (t_f t) (t_seq t) (t_when t) false) else None.

(** ** The descriptor *)
Record pollDesc : Set := MkPD
  { fd : Z; fdseq : Z; atomicInfo : Z; rg : gstate; wg : gstate; closing : bool;
    rseq : Z; rt : timer; rd : Z; wseq : Z; wt : timer; wd : Z }.
Definition zeroPD : pollDesc :=
  MkPD 0 0 0 pdNil pdNil false 0 zeroTimer 0 0 zeroTimer 0.

Definition set_fd x pd := MkPD x (fdseq pd) (atomicInfo pd) (rg pd) (wg pd) (closing pd)
  (rseq pd) (rt pd) (rd pd) (wseq pd) (wt pd) (wd pd).
Definition set_fdseq x pd := MkPD (fd pd) x (atomicInfo pd) (rg pd) (wg pd) (closing pd)
  (rseq pd) (rt pd) (rd pd) (wseq pd) (wt pd) (wd pd).
Definition set_info x pd := MkPD (fd pd) (fdseq pd) x (rg pd) (wg pd) (closing pd)
  (rseq pd) (rt pd) (rd pd) (wseq pd) (wt pd) (wd pd).
Definition set_rg x pd := MkPD (fd pd) (fdseq pd) (atomicInfo pd) x (wg pd) (closing pd)
  (rseq pd) (rt pd) (rd pd) (wseq pd) (wt pd) (wd pd).
Definition set_wg x pd := MkPD (fd pd) (fdseq pd) (atomicInfo pd) (rg pd) x (closing pd)
  (rseq pd) (rt pd) (rd pd) (wseq pd) (wt pd) (wd pd).
Definition set_closing x pd := MkPD (fd pd) (fdseq pd) (atomicInfo pd) (rg pd) (wg pd) x
  (rseq pd) (rt pd) (rd pd) (wseq pd) (wt pd) (wd pd).
Definition set_rseq x pd := MkPD (fd pd) (fdseq pd) (atomicInfo pd) (rg pd) (wg pd) (closing pd)
  x (rt pd) (rd pd) (wseq pd) (wt pd) (wd pd).
Definition set_rt x pd := MkPD (fd pd) (fdseq pd) (atomicInfo pd) (rg pd) (wg pd) (closing pd)
  (rseq pd) x (rd pd) (wseq pd) (wt pd) (wd pd).
Definition set_rd x pd := MkPD (fd pd) (fdseq pd) (atomicInfo pd) (rg pd) (wg pd) (closing pd)
  (rseq pd) (rt pd) x (wseq pd) (wt pd) (wd pd).
Definition set_wseq x pd := MkPD (fd pd) (fdseq pd) (atomicInfo pd) (rg pd) (wg pd) (closing pd)
  (rseq pd) (rt pd) (rd pd) x (wt pd) (wd pd).
Definition set_wt x pd := MkPD (fd pd) (fdseq pd) (atomicInfo pd) (rg pd) (wg pd) (closing pd)
  (rseq pd) (rt pd) (rd pd) (wseq pd) x (wd pd).
Definition set_wd x pd := MkPD (fd pd) (fdseq pd) (atomicInfo pd) (rg pd) (wg pd) (closing pd)
  (rseq pd) (rt pd) (rd pd) (wseq pd) (wt pd) x.

(** [&pd.rg], or [&pd.wg] when the mode is 'w'. *)
Definition gpp (mode : Z) (pd : pollDesc) : gstate := if mode =? mode_w then wg pd else rg pd.
Definition set_gpp (mode : Z) (x : gstate) (pd : pollDesc) : pollDesc :=
  if mode =? mode_w then set_wg x pd else set_rg x pd.

(** ** pollInfo *)
Definition pollClosing : Z := Z.shiftl 1 0.
Definition pollEventErr : Z := Z.shiftl 1 1.
Definition pollExpiredReadDeadline : Z := Z.shiftl 1 2.
Definition pollExpiredWriteDeadline : Z := Z.shiftl 1 3.
(** The fifth constant of a [1 << iota] group: 16. *)
Definition pollFDSeq : Z := Z.shiftl 1 4.
Definition pollFDSeqBits : Z := 20.
Definition pollFDSeqMask : Z := Z.shiftl 1 pollFDSeqBits - 1.

Definition info_closing (i : Z) : bool := negb (Z.land i pollClosing =? 0).
Definition info_eventErr (i : Z) : bool := negb (Z.land i pollEventErr =? 0).
Definition info_expiredReadDeadline (i : Z) : bool :=
  negb (Z.land i pollExpiredReadDeadline =? 0).
Definition info_expiredWriteDeadline (i : Z) : bool :=
  negb (Z.land i pollExpiredWriteDeadline =? 0).

(** The bits publishInfo computes from the other fields. *)
Definition publish_bits (pd : pollDesc) : Z :=
  let info := 0 in
  let info := if closing pd then Z.lor info pollClosing else info in
  let info := if rd pd <? 0 then Z.lor info pollExpiredReadDeadline else info in
  let info := if wd pd <? 0 then Z.lor info pollExpiredWriteDeadline else info in
  Z.lor info (u32 (Z.shiftl (u32 (Z.land (fdseq pd) pollFDSeqMask)) pollFDSeq)).
(** [(x&pollEventErr)|info], the word swapped in. *)
Definition publish_word (x info : Z) : Z := Z.lor (Z.land x pollEventErr) info.
Definition publishInfo (pd : pollDesc) : pollDesc :=
  set_info (publish_word (atomicInfo pd) (publish_bits pd)) pd.

Definition setEventErr (b : bool) (seq : Z) (pd : pollDesc) : pollDesc :=
  let mSeq := u32 (Z.land seq pollFDSeqMask) in
  let x := atomicInfo pd in
  let xSeq := Z.land (Z.shiftr x pollFDSeq) pollFDSeqMask in
  if negb (seq =? 0) && negb (xSeq =? mSeq) then pd
  else if Bool.eqb (negb (Z.land x pollEventErr =? 0)) b then pd
  else set_info (Z.lxor x pollEventErr) pd.

Definition netpollcheckerr (info mode : Z) : Z :=
  if info_closing info then pollErrClosing
  else if (mode =? mode_r) && info_expiredReadDeadline info
          || (mode =? mode_w) && info_expiredWriteDeadline info then pollErrTimeout
  else if (mode =? mode_r) && info_eventErr info then pollErrNotPollable
  else pollNoError.

(** ** Waking *)
(** One turn of netpollunblock's loop on the value it loaded: return nil, or
    swap in a new value. *)
Definition unblock_turn (old : gstate) (ioready : bool) : option gstate :=
  match old with
  | pdReady => None
  | pdNil => if ioready then Some pdReady else None
  | _ => Some (if ioready then pdReady else pdNil)
  end.
(** The goroutine to wake, and the adjustment of netpollWaiters, when the value
    replaced is [old]. *)
Definition unblocked (old : gstate) : option nat * Z :=
  match old with G g => (Some g, -1) | _ => (None, 0) end.
Definition netpollunblock (pd : pollDesc) (mode : Z) (ioready : bool) (delta : Z)
    : pollDesc * option nat * Z :=
  let old := gpp mode pd in
  match unblock_turn old ioready with
  | None => (pd, None, delta)
  | Some new => let '(g, d) := unblocked old in (set_gpp mode new pd, g, delta + d)
  end.

(** The goroutines made ready, in order. *)
Definition ready_list (rg wg : option nat) : list nat :=
  match rg with Some g => [g] | None => [] end ++
  match wg with Some g => [g] | None => [] end.

Definition netpollready (toRun : list nat) (pd : pollDesc) (mode : Z)
    : list nat * pollDesc * Z :=
  let '(pd, rg, delta) :=
    if (mode =? mode_r) || (mode =? mode_rw)
    then netpollunblock pd mode_r true 0 else (pd, None, 0) in
  let '(pd, wg, delta) :=
    if (mode =? mode_w) || (mode =? mode_rw)
    then netpollunblock pd mode_w true delta else (pd, None, delta) in
  (* push is at the front of the list *)
  (rev (ready_list rg wg) ++ toRun, pd, delta).

(** ** Deadlines *)
(** What an operation under the lock leaves: the descriptor, the goroutines it
    makes ready, the adjustment of netpollWaiters. *)
Record outcome : Set := Outcome { o_pd : pollDesc; o_ready : list nat; o_delta : Z }.

Definition combo_of (pd : pollDesc) : bool := (rd pd >? 0) && (rd pd =? wd pd).
Definition deadline_of (d now : Z) : Z :=
  if d >? 0 then let d := i64 (d + now) in if d <=? 0 then 2 ^ 63 - 1 else d else d.

(** The read timer's part of poll_runtime_pollSetDeadline. *)
Definition set_read_timer (rd0 : Z) (combo0 combo : bool) (pd : pollDesc) : res pollDesc :=
  let rtf := if combo then netpollDeadline else netpollReadDeadline in
  match t_f (rt pd) with
  | None =>
      if rd pd >? 0 then
        t ← resettimer (MkTimer (Some rtf) (rseq pd) (t_when (rt pd)) (t_armed (rt pd))) (rd pd);
        Ok (set_rt t pd)
      else Ok pd
  | Some _ =>
      if negb (rd pd =? rd0) || negb (Bool.eqb combo combo0) then
        let pd := set_rseq (u64 (rseq pd + 1)) pd in
        if rd pd >? 0 then
          t ← modtimer (rt pd) (rd pd) (Some rtf) (rseq pd); Ok (set_rt t pd)
        else
          let t := deltimer (rt pd) in
          Ok (set_rt (MkTimer None (t_seq t) (t_when t) (t_armed t)) pd)
      else Ok pd
  end.
(** The write timer's part. *)
Definition set_write_timer (wd0 : Z) (combo0 combo : bool) (pd : pollDesc) : res pollDesc :=
  match t_f (wt pd) with
  | None =>
      if (wd pd >? 0) && negb combo then
        t ← resettimer (MkTimer (Some netpollWriteDeadline) (wseq pd) (t_when (wt pd))
                          (t_armed (wt pd))) (wd pd);
        Ok (set_wt t pd)
      else Ok pd
  | Some _ =>
      if negb (wd pd =? wd0) || negb (Bool.eqb combo combo0) then
        let pd := set_wseq (u64 (wseq pd + 1)) pd in
        if (wd pd >? 0) && negb combo then
          t ← modtimer (wt pd) (wd pd) (Some netpollWriteDeadline) (wseq pd); Ok (set_wt t pd)
        else
          let t := deltimer (wt pd) in
          Ok (set_wt (MkTimer None (t_seq t) (t_when t) (t_armed t)) pd)
      else Ok pd
  end.

Definition poll_runtime_pollSetDeadline (pd : pollDesc) (d mode now : Z) : res outcome :=
  if closing pd then Ok (Outcome pd [] 0)
  else
    let rd0 := rd pd in
    let wd0 := wd pd in
    let combo0 := combo_of pd in
    let d := deadline_of d now in
    let pd := if (mode =? mode_r) || (mode =? mode_rw) then set_rd d pd else pd in
    let pd := if (mode =? mode_w) || (mode =? mode_rw) then set_wd d pd else pd in
    let pd := publishInfo pd in
    let combo := combo_of pd in
    pd ← set_read_timer rd0 combo0 combo pd;
    pd ← set_write_timer wd0 combo0 combo pd;
    let '(pd, rg, delta) :=
      if rd pd <? 0 then netpollunblock pd mode_r false 0 else (pd, None, 0) in
    let '(pd, wg, delta) :=
      if wd pd <? 0 then netpollunblock pd mode_w false delta else (pd, None, delta) in
    Ok (Outcome pd (ready_list rg wg) delta).

(** Stop and forget a timer, when it is set. *)
Definition drop_timer (t : timer) : timer :=
  match t_f t with
  | Some _ => let t := deltimer t in MkTimer None (t_seq t) (t_when t) (t_armed t)
  | None => t
  end.

Definition poll_runtime_pollUnblock (pd : pollDesc) : res outcome :=
  if closing pd then Panic [Lit "runtime: unblock on closing polldesc"%go]
  else
    let pd := set_closing true pd in
    let pd := set_rseq (u64 (rseq pd + 1)) pd in
    let pd := set_wseq (u64 (wseq pd + 1)) pd in
    let pd := publishInfo pd in
    let '(pd, rg, delta) := netpollunblock pd mode_r false 0 in
    let '(pd, wg, delta) := netpollunblock pd mode_w false delta in
    let pd := set_rt (drop_timer (rt pd)) pd in
    let pd := set_wt (drop_timer (wt pd)) pd in
    Ok (Outcome pd (ready_list rg wg) delta).

Definition netpolldeadlineimpl (pd : pollDesc) (seq : Z) (read write : bool) : res outcome :=
  let currentSeq := if negb read then wseq pd else rseq pd in
  if negb (seq =? currentSeq) then Ok (Outcome pd [] 0)
  else
    let rnil := match t_f (rt pd) with None => true | Some _ => false end in
    if read && ((rd pd <=? 0) || rnil) then
      Panic [Lit "runtime: inconsistent read deadline"%go]
    else
      let '(pd, rg, delta) :=
        if read then netpollunblock (publishInfo (set_rd (-1) pd)) mode_r false 0
        else (pd, None, 0) in
      let wnil := match t_f (wt pd) with None => true | Some _ => false end in
      if write && ((wd pd <=? 0) || wnil && negb read) then
        Panic [Lit "runtime: inconsistent write deadline"%go]
      else
        let '(pd, wg, delta) :=
          if write then netpollunblock (publishInfo (set_wd (-1) pd)) mode_w false delta
          else (pd, None, delta) in
        Ok (Outcome pd (ready_list rg wg) delta).
(** The timer functions. *)
Definition run_tfun (f : tfun) (pd : pollDesc) (seq : Z) : res outcome :=
  match f with
  | netpollDeadline => netpolldeadlineimpl pd seq true true
  | netpollReadDeadline => netpolldeadlineimpl pd seq true false
  | netpollWriteDeadline => netpolldeadlineimpl pd seq false true
  end.

(** ** Open, close, reset *)
Definition taggedPointerBits : Z := 64 - 48 + 3.
Definition blocked (g : gstate) : bool :=
  match g with pdNil | pdReady => false | _ => true end.

(** The part of poll_runtime_pollOpen under the lock. *)
Definition pollOpen_locked (fd : Z) (pd : pollDesc) : res pollDesc :=
  if blocked (wg pd) then Panic [Lit "runtime: blocked write on free polldesc"%go]
  else if blocked (rg pd) then Panic [Lit "runtime: blocked read on free polldesc"%go]
  else
    let pd := set_fd fd pd in
    let pd := if fdseq pd =? 0 then set_fdseq 1 pd else pd in
    let pd := set_closing false pd in
    let pd := setEventErr false 0 pd in
    let pd := set_rseq (u64 (rseq pd + 1)) pd in
    let pd := set_rg pdNil pd in
    let pd := set_rd 0 pd in
    let pd := set_wseq (u64 (wseq pd + 1)) pd in
    let pd := set_wg pdNil pd in
    let pd := set_wd 0 pd in
    Ok (publishInfo pd).
(** The part of pollCache.free under the descriptor's lock. *)
Definition free_locked (pd : pollDesc) : pollDesc :=
  let fdseq := Z.land (u64 (fdseq pd + 1)) (Z.shiftl 1 taggedPointerBits - 1) in
  publishInfo (set_fdseq fdseq pd).
Definition pollClose_check (pd : pollDesc) : res unit :=
  if negb (closing pd) then Panic [Lit "runtime: close polldesc w/o unblock"%go]
  else if blocked (wg pd) then Panic [Lit "runtime: blocked write on closing polldesc"%go]
  else if blocked (rg pd) then Panic [Lit "runtime: blocked read on closing polldesc"%go]
  else Ok tt.

Definition poll_runtime_pollReset (pd : pollDesc) (mode : Z) : Z * pollDesc :=
  let errcode := netpollcheckerr (atomicInfo pd) mode in
  if negb (errcode =? pollNoError) then (errcode, pd)
  else if mode =? mode_r then (pollNoError, set_rg pdNil pd)
  else if mode =? mode_w then (pollNoError, set_wg pdNil pd)
  else (pollNoError, pd).

(** ** Tagged pointers (amd64) *)
Definition taggedPointerPack (ptr tag : Z) : Z :=
  Z.lor (u64 (Z.shiftl ptr (64 - 48))) (Z.land tag (Z.shiftl 1 taggedPointerBits - 1)).
(** [uintptr(int64(tp) >> tagBits << 3)]: an arithmetic shift. *)
Definition tp_pointer (tp : Z) : Z := u64 (Z.shiftl (Z.shiftr (i64 tp) taggedPointerBits) 3).
Definition tp_tag (tp : Z) : Z := Z.land tp (Z.shiftl 1 taggedPointerBits - 1).

(** ** The descriptor cache

    Descriptors live for ever in blocks the runtime allocates ([descs], an
    address is an index); [first] is the free list through [link].  [block] is
    the number of descriptors of a block, the page size over the size of a
    descriptor and at least one. *)
Record pollCache : Set := MkCache { descs : list pollDesc; first : list nat }.
Definition cache_alloc (block : nat) (c : pollCache) : nat * pollCache :=
  let c :=
    match first c with
    | [] => MkCache (descs c ++ replicate block zeroPD)
                    (rev (seq (length (descs c)) block))
    | _ => c
    end in
  match first c with
  | pd :: rest => (pd, MkCache (descs c) rest)
  | [] => (0%nat, c)      (* not reached: a block is not empty *)
  end.
Definition cache_free (i : nat) (c : pollCache) : pollCache :=
  MkCache (alter free_locked i (descs c)) (i :: first c).

(** [errno] is what netpollopen's EpollCtl returns. *)
Definition poll_runtime_pollOpen (block : nat) (fd errno : Z) (c : pollCache)
    : res (option nat * Z * pollCache) :=
  let '(i, c) := cache_alloc block c in
  pd ← pollOpen_locked fd (nth i (descs c) zeroPD);
  let c := MkCache (<[i := pd]> (descs c)) (first c) in
  if negb (errno =? 0) then Ok (None, errno, cache_free i c)
  else Ok (Some i, 0, c).
Definition poll_runtime_pollClose (i : nat) (c : pollCache) : res pollCache :=
  _ ← pollClose_check (nth i (descs c) zeroPD);
  Ok (cache_free i c).

(** ** Events from epoll *)
Definition EPOLLIN : Z := 0x1.
Definition EPOLLOUT : Z := 0x4.
Definition EPOLLERR : Z := 0x8.
Definition EPOLLHUP : Z := 0x10.
Definition EPOLLRDHUP : Z := 0x2000.

Definition event_mode (events : Z) : Z :=
  let mode := 0 in
  let mode :=
    if negb (Z.land events (Z.lor (Z.lor (Z.lor EPOLLIN EPOLLRDHUP) EPOLLHUP) EPOLLERR) =? 0)
    then mode + mode_r else mode in
  if negb (Z.land events (Z.lor (Z.lor EPOLLOUT EPOLLHUP) EPOLLERR) =? 0)
  then mode + mode_w else mode.
(** One event of netpoll's loop for the descriptor [pd] its data points at;
    [tag] is the tag of the data. *)
Definition netpoll_event (toRun : list nat) (delta : Z) (pd : pollDesc) (events tag : Z)
    : list nat * pollDesc * Z :=
  if events =? 0 then (toRun, pd, delta)
  else
    let mode := event_mode events in
    if negb (mode =? 0) && (fdseq pd =? tag) then
      let pd := setEventErr (events =? EPOLLERR) tag pd in
      let '(toRun, pd, d) := netpollready toRun pd mode in
      (toRun, pd, delta + d)
    else (toRun, pd, delta).
(** The data of an event: the address of netpollBreakRd, or a descriptor (its
    index) and the tag it was registered with. *)
Inductive evdata : Set := EvBreak | EvDesc (i : nat) (tag : Z).
(** [events[:n]] in order.  [ds] are the descriptors, [wake] is netpollWakeSig. *)
Fixpoint netpoll_loop (delay : Z) (toRun : list nat) (delta : Z) (ds : list pollDesc) (wake : Z)
    (evs : list (Z * evdata)) : res (list nat * Z * list pollDesc * Z) :=
  match evs with
  | [] => Ok (toRun, delta, ds, wake)
  | (events, data) :: evs =>
      if events =? 0 then netpoll_loop delay toRun delta ds wake evs
      else
        match data with
        | EvBreak =>
            if negb (events =? EPOLLIN) then
              Panic [Lit "runtime: netpoll: break fd ready for something unexpected"%go]
            else netpoll_loop delay toRun delta ds (if negb (delay =? 0) then 0 else wake) evs
        | EvDesc i tag =>
            let '(toRun, pd, delta) := netpoll_event toRun delta (nth i ds zeroPD) events tag in
            netpoll_loop delay toRun delta (<[i := pd]> ds) wake evs
        end
  end.
(** The wait of netpoll, in milliseconds. *)
Definition netpoll_waitms (delay : Z) : Z :=
  if delay <? 0 then -1
  else if delay =? 0 then 0
  else if delay <? 10 ^ 6 then 1
  else if delay <? 10 ^ 15 then i32 (Z.quot delay (10 ^ 6))
  else 10 ^ 9.
Definition EINTR : Z := 0x4.
(** netpoll.  [epoll] is what the successive EpollWait calls return: an errno,
    or the events; the call blocks when the list is at its end ([None]). *)
Fixpoint netpoll (inited : bool) (delay : Z) (ds : list pollDesc) (wake : Z)
    (epoll : list (Z + list (Z * evdata))) : option (res (list nat * Z * list pollDesc * Z)) :=
  if negb inited then Some (Ok ([], 0, ds, wake))
  else
    let waitms := netpoll_waitms delay in
    match epoll with
    | [] => None
    | inr evs :: _ => Some (netpoll_loop delay [] 0 ds wake evs)
    | inl errno :: epoll =>
        if negb (errno =? EINTR) then Some (Panic [Lit "runtime: netpoll failed"%go])
        else if waitms >? 0 then Some (Ok ([], 0, ds, wake))
        else netpoll inited delay ds wake epoll
    end.
