(* ===== verification/NetpollProps.v ===== *)
(** * runtime/netpoll.go: the packed summary, tags and single operations

    Lemmas on the bits of [atomicInfo], on tagged pointers, and on what the
    operations under the lock leave behind. *)
From S2P Require Import Prelude Netpoll.

(** ** Bits *)
Lemma bit_testbit k i : 0 <= k → Z.testbit (Z.shiftl 1 k) i = (i =? k).
Proof.
  intros Hk. rewrite Z.shiftl_1_l. destruct (Z.eqb_spec i k) as [->|Hn].
  - by rewrite Z.pow2_bits_true.
  - by rewrite Z.pow2_bits_false.
Qed.
Lemma land_bit_test i k : 0 <= k → negb (Z.land i (Z.shiftl 1 k) =? 0) = Z.testbit i k.
Proof.
  intros Hk. destruct (Z.testbit i k) eqn:E.
  - apply negb_true_iff, Z.eqb_neq. intros H.
    apply (f_equal (λ x, Z.testbit x k)) in H.
    by rewrite Z.land_spec, bit_testbit, Z.eqb_refl, E, Z.testbit_0_l in H.
  - apply negb_false_iff, Z.eqb_eq. apply Z.bits_inj'. intros j Hj.
    rewrite Z.land_spec, bit_testbit, Z.testbit_0_l by done.
    destruct (Z.eqb_spec j k) as [->|]; [by rewrite E|by rewrite andb_false_r].
Qed.
Lemma u32_spec x i : 0 <= i → Z.testbit (u32 x) i = (i <? 32) && Z.testbit x i.
Proof.
  intros Hi. unfold u32. destruct (Z.ltb_spec i 32).
  - by rewrite Z.mod_pow2_bits_low.
  - by rewrite Z.mod_pow2_bits_high by lia.
Qed.
Lemma mask_spec n i : 0 <= n → 0 <= i → Z.testbit (Z.shiftl 1 n - 1) i = (i <? n).
Proof.
  intros Hn Hi. rewrite Z.shiftl_1_l. replace (2 ^ n - 1) with (Z.ones n) by (rewrite Z.ones_equiv; lia).
  destruct (Z.ltb_spec i n); [apply Z.ones_spec_low; lia|apply Z.ones_spec_high; lia].
Qed.
Lemma info_bits i :
  info_closing i = Z.testbit i 0 ∧ info_eventErr i = Z.testbit i 1 ∧
  info_expiredReadDeadline i = Z.testbit i 2 ∧ info_expiredWriteDeadline i = Z.testbit i 3.
Proof. repeat split; by apply land_bit_test. Qed.

(** The sequence bits that survive: [pollFDSeq] is 16, so the shift leaves room
    for 16 bits of a uint32 only. *)
Lemma seq_bits s i : 0 <= i →
  Z.testbit (u32 (Z.shiftl (u32 (Z.land s pollFDSeqMask)) pollFDSeq)) i =
    (16 <=? i) && (i <? 32) && Z.testbit s (i - 16).
Proof.
  intros Hi. rewrite u32_spec by done. change pollFDSeq with 16.
  unfold pollFDSeqMask, pollFDSeqBits.
  destruct (Z.leb_spec 16 i); cbn [andb].
  - rewrite Z.shiftl_spec, u32_spec, Z.land_spec, mask_spec by (done || lia).
    destruct (Z.ltb_spec i 32); cbn [andb]; [|done].
    rewrite !(proj2 (Z.ltb_lt _ _)) by lia. by rewrite andb_true_r.
  - rewrite Z.shiftl_spec_low by done. by rewrite andb_false_r.
Qed.
Lemma publish_bits_spec pd i : 0 <= i →
  Z.testbit (publish_bits pd) i =
    (closing pd && (i =? 0)) || ((rd pd <? 0) && (i =? 2)) || ((wd pd <? 0) && (i =? 3)) ||
    ((16 <=? i) && (i <? 32) && Z.testbit (fdseq pd) (i - 16)).
Proof.
  intros Hi. unfold publish_bits, pollClosing, pollExpiredReadDeadline, pollExpiredWriteDeadline.
  cbv zeta. rewrite Z.lor_spec, seq_bits by done. f_equal.
  destruct (closing pd), (rd pd <? 0), (wd pd <? 0);
    rewrite ?Z.lor_0_l, ?Z.lor_spec, ?bit_testbit, ?Z.testbit_0_l by lia; cbn [andb orb];
    rewrite ?orb_false_r; done.
Qed.
Lemma publish_spec pd i : 0 <= i →
  Z.testbit (atomicInfo (publishInfo pd)) i =
    (Z.testbit (atomicInfo pd) 1 && (i =? 1)) || Z.testbit (publish_bits pd) i.
Proof.
  intros Hi. unfold publishInfo, publish_word, pollEventErr. cbn [atomicInfo set_info].
  rewrite Z.lor_spec, Z.land_spec, bit_testbit by lia. f_equal.
  destruct (Z.eqb_spec i 1) as [->|]; [done|]. by rewrite !andb_false_r.
Qed.

(** What netpollcheckerr should report, from the fields the summary stands for. *)
Definition checkerr_spec (closing expR expW eventErr : bool) (mode : Z) : Z :=
  if closing then pollErrClosing
  else if (mode =? mode_r) && expR || (mode =? mode_w) && expW then pollErrTimeout
  else if (mode =? mode_r) && eventErr then pollErrNotPollable
  else pollNoError.
Lemma publish_info pd :
  info_closing (atomicInfo (publishInfo pd)) = closing pd ∧
  info_eventErr (atomicInfo (publishInfo pd)) = info_eventErr (atomicInfo pd) ∧
  info_expiredReadDeadline (atomicInfo (publishInfo pd)) = (rd pd <? 0) ∧
  info_expiredWriteDeadline (atomicInfo (publishInfo pd)) = (wd pd <? 0).
Proof.
  destruct (info_bits (atomicInfo (publishInfo pd))) as (->&->&->&->).
  destruct (info_bits (atomicInfo pd)) as (_&->&_&_).
  rewrite !publish_spec, !publish_bits_spec by lia. simpl.
  by rewrite !andb_false_r, !andb_true_r, ?orb_false_r.
Qed.

(** The sequence field read back. *)
Lemma seq_field pd : 0 <= fdseq pd →
  Z.land (Z.shiftr (atomicInfo (publishInfo pd)) pollFDSeq) pollFDSeqMask = fdseq pd mod 2 ^ 16.
Proof.
  intros Hs. apply Z.bits_inj'. intros i Hi. change pollFDSeq with 16.
  unfold pollFDSeqMask, pollFDSeqBits.
  rewrite Z.land_spec, Z.shiftr_spec, publish_spec, publish_bits_spec, mask_spec
    by (done || lia).
  rewrite !(proj2 (Z.eqb_neq (i + 16) _)), !andb_false_r, (proj2 (Z.leb_le 16 _)) by lia.
  cbn [orb andb]. rewrite Z.add_simpl_r. destruct (Z.ltb_spec i 16).
  - rewrite !(proj2 (Z.ltb_lt _ _)), Z.mod_pow2_bits_low by lia. by rewrite andb_true_r.
  - rewrite (proj2 (Z.ltb_ge (i + 16) 32)), Z.mod_pow2_bits_high by lia. done.
Qed.
Lemma mask20 s : 0 <= s → u32 (Z.land s pollFDSeqMask) = s mod 2 ^ 20.
Proof.
  intros. change pollFDSeqMask with (2 ^ 20 - 1). rewrite land_ones_mod by lia.
  apply u32_id. unfold is_u32. zwlia.
Qed.
Lemma setEventErr_bit b pd : 
  let x := atomicInfo pd in
  info_eventErr (if Bool.eqb (negb (Z.land x pollEventErr =? 0)) b then x
                 else Z.lxor x pollEventErr) = b.
Proof.
  cbv zeta. destruct (info_bits (atomicInfo pd)) as (_&E&_&_). unfold info_eventErr in E.
  destruct (Bool.eqb_spec (negb (Z.land (atomicInfo pd) pollEventErr =? 0)) b) as [H|H]; [done|].
  destruct (info_bits (Z.lxor (atomicInfo pd) pollEventErr)) as (_&->&_&_).
  rewrite Z.lxor_spec. unfold pollEventErr at 1. rewrite bit_testbit, <- E by lia.
  destruct (negb _), b; done.
Qed.

(** ** runtime/netpoll.go: properties of the single operations *)

(** publishInfo makes the lock-free summary say exactly what the locked
    fields say: netpollcheckerr on it reports closing, an expired deadline of
    the mode asked about, or a pending event error, in that order. *)
Theorem checkerr_publishInfo pd mode :
  netpollcheckerr (atomicInfo (publishInfo pd)) mode =
    checkerr_spec (closing pd) (rd pd <? 0) (wd pd <? 0) (info_eventErr (atomicInfo pd)) mode.
Proof.
  destruct (publish_info pd) as (E1&E2&E3&E4). unfold netpollcheckerr, checkerr_spec.
  by rewrite E1, E2, E3, E4.
Qed.

(** C29: setEventErr with the descriptor's own sequence number takes effect only
    while that number, modulo 2^20, is below 2^16: the field is 16 bits wide,
    not 20, and from the 65536th reuse on event errors are dropped. *)
Theorem setEventErr_own_seq b pd : 0 <= fdseq pd →
  info_eventErr (atomicInfo (setEventErr b (fdseq pd) (publishInfo pd))) =
    if fdseq pd mod 2 ^ 20 <? 2 ^ 16 then b else info_eventErr (atomicInfo pd).
Proof.
  intros Hs. destruct (publish_info pd) as (_&E&_&_).
  unfold setEventErr. rewrite seq_field, mask20 by done.
  assert (Hiff : (fdseq pd mod 2 ^ 16 =? fdseq pd mod 2 ^ 20) = (fdseq pd mod 2 ^ 20 <? 2 ^ 16)).
  { destruct (Z.eqb_spec (fdseq pd mod 2 ^ 16) (fdseq pd mod 2 ^ 20)),
      (Z.ltb_spec (fdseq pd mod 2 ^ 20) (2 ^ 16)); try done; exfalso; zwlia. }
  rewrite Hiff. pose proof (setEventErr_bit b (publishInfo pd)) as Hb. cbv zeta in Hb.
  destruct (Z.eqb_spec (fdseq pd) 0) as [E0|E0]; cbn [negb andb].
  - rewrite E0. change (0 mod 2 ^ 20 <? 2 ^ 16) with true. cbv iota.
    by destruct (Bool.eqb _ b).
  - destruct (fdseq pd mod 2 ^ 20 <? 2 ^ 16); cbn [negb]; [|exact E].
    by destruct (Bool.eqb _ b).
Qed.
Definition reused (n : Z) : pollDesc := set_fdseq n zeroPD.
Lemma setEventErr_own_seq_witness :
  info_eventErr (atomicInfo (setEventErr true 65535 (publishInfo (reused 65535)))) = true ∧
  info_eventErr (atomicInfo (setEventErr true 65536 (publishInfo (reused 65536)))) = false.
Proof.
  split; [exact (setEventErr_own_seq true (reused 65535) ltac:(discriminate))
         |exact (setEventErr_own_seq true (reused 65536) ltac:(discriminate))].
Defined.

(** A tagged pointer gives back the pointer and the tag modulo 2^19, for
    8-byte aligned canonical addresses of either half of the address space. *)
Theorem taggedPointer_roundtrip ptr tag : 0 <= tag → ptr mod 8 = 0 →
  0 <= ptr < 2 ^ 47 ∨ 2 ^ 64 - 2 ^ 47 <= ptr < 2 ^ 64 →
  let tp := taggedPointerPack ptr tag in
  is_u64 tp ∧ tp_pointer tp = ptr ∧ tp_tag tp = tag mod 2 ^ taggedPointerBits.
Proof.
  intros Ht Ha Hp. change taggedPointerBits with 19. cbv zeta.
  assert (Hd : ∃ q, u64 (Z.shiftl ptr (64 - 48)) = q * 2 ^ 19 ∧ 0 <= q < 2 ^ 45 ∧
    (q * 2 ^ 19 < 2 ^ 63 ∧ ptr = q * 8 ∨
     2 ^ 63 <= q * 2 ^ 19 ∧ ptr = 2 ^ 64 - (2 ^ 45 - q) * 8)).
  { change (64 - 48) with 16. rewrite Z.shiftl_mul_pow2 by lia. destruct Hp as [Hp|Hp].
    - exists (ptr / 8). zwlia.
    - exists ((ptr - (2 ^ 64 - 2 ^ 48)) / 8). zwlia. }
  destruct Hd as (q&Eq&Hq&Hcase). unfold taggedPointerPack, tp_pointer, tp_tag. rewrite Eq.
  change taggedPointerBits with 19. change (Z.shiftl 1 19 - 1) with (2 ^ 19 - 1).
  rewrite !land_ones_mod by lia. assert (Htm : 0 <= tag mod 2 ^ 19 < 2 ^ 19) by (apply Z.mod_pos_bound; lia).
  revert Htm. generalize (tag mod 2 ^ 19). intros t Htm.
  rewrite <- Z.shiftl_mul_pow2, lor_shift_add by lia.
  unfold is_u64. split; [lia|]. split; [|zwlia].
  rewrite Z.shiftl_mul_pow2, Z.shiftr_div_pow2 by lia. unfold i64, u64.
  destruct Hcase as [[H1 ->]|[H1 ->]]; zwlia.
Qed.
Lemma taggedPointer_roundtrip_witness :
  tp_pointer (taggedPointerPack 0xffff800000001238 7) = 0xffff800000001238 ∧
  tp_tag (taggedPointerPack 0xffff800000001238 7) = 7.
Proof.
  destruct (taggedPointer_roundtrip 0xffff800000001238 7) as (_&H1&H2);
    [lia|reflexivity|lia|]. exact (conj H1 H2).
Defined.

(** ** Closing *)
Definition parked (g : gstate) : list nat := match g with G n => [n] | _ => [] end.

Lemma netpollunblock_spec pd m ioready delta : m = mode_r ∨ m = mode_w →
  ∃ pd' g d, netpollunblock pd m ioready delta = (pd', g, delta - d) ∧
    blocked (gpp m pd') = false ∧
    (match g with Some n => [n] | None => [] end) = parked (gpp m pd) ∧
    d = Z.of_nat (length (parked (gpp m pd))) ∧
    (∀ m', m' = mode_r ∨ m' = mode_w → m' ≠ m → gpp m' pd' = gpp m' pd) ∧
    atomicInfo pd' = atomicInfo pd ∧ fdseq pd' = fdseq pd ∧ closing pd' = closing pd ∧
    (ioready = true → gpp m pd' = pdReady) ∧
    rt pd' = rt pd ∧ wt pd' = wt pd.
Proof.
  intros Hm. unfold netpollunblock.
  destruct (gpp m pd) eqn:E, ioready; cbn [unblock_turn unblocked];
    first [eexists _, _, 1; split; [reflexivity|]
          |eexists _, _, 0; split; [rewrite Z.sub_0_r, ?Z.add_0_r; reflexivity|]];
    unfold set_gpp; destruct Hm as [-> | ->]; cbn [parked length];
    (split; [unfold gpp in *; cbn in *; rewrite ?E; done|]);
    (split; [done|]); (split; [done|]);
    (split; [intros m' [-> | ->] ?; done|]); done.
Qed.

(** Closing a descriptor: pollUnblock marks it closed for the lock-free
    check, wakes exactly the goroutines parked on it and accounts for them, and
    leaves it so that pollClose accepts it. *)
Theorem pollUnblock_spec pd : closing pd = false →
  ∃ o, poll_runtime_pollUnblock pd = Ok o ∧
    o_ready o = parked (rg pd) ++ parked (wg pd) ∧
    o_delta o = - Z.of_nat (length (o_ready o)) ∧
    (∀ mode, netpollcheckerr (atomicInfo (o_pd o)) mode = pollErrClosing) ∧
    pollClose_check (o_pd o) = Ok tt.
Proof.
  intros Hc. unfold poll_runtime_pollUnblock. rewrite Hc. cbv zeta.
  set (pd1 := publishInfo _).
  assert (Hi : info_closing (atomicInfo pd1) = true) by exact (proj1 (publish_info _)).
  assert (Hp : rg pd1 = rg pd ∧ wg pd1 = wg pd ∧ closing pd1 = true) by done.
  clearbody pd1. destruct Hp as (Er&Ew&Ec).
  destruct (netpollunblock_spec pd1 mode_r false 0 ltac:(by left))
    as (pd2&g2&d2&->&B2&P2&D2&O2&I2&_&C2&_).
  destruct (netpollunblock_spec pd2 mode_w false (0 - d2) ltac:(by right))
    as (pd3&g3&d3&->&B3&P3&D3&O3&I3&_&C3&_).
  assert (Ew2 : gpp mode_w pd2 = wg pd) by (rewrite O2; [exact Ew|by right|done]).
  assert (Br3 : blocked (gpp mode_r pd3) = false) by (rewrite O3; [exact B2|by left|done]).
  rewrite Ew2 in P3, D3. change (gpp mode_r pd1) with (rg pd1) in P2, D2. rewrite Er in P2, D2.
  eexists. split; [done|]. cbn [o_pd o_ready o_delta]. unfold ready_list. rewrite P2, P3.
  split; [done|]. split; [rewrite length_app; lia|]. split.
  - intros mode. unfold netpollcheckerr. cbn [set_wt set_rt atomicInfo].
    by rewrite I3, I2, Hi.
  - unfold pollClose_check. cbn [set_wt set_rt closing wg rg].
    change (gpp mode_r pd3) with (rg pd3) in Br3. change (gpp mode_w pd3) with (wg pd3) in B3.
    by rewrite C3, C2, Ec, Br3, B3.
Qed.
Lemma pollUnblock_spec_witness :
  ∃ o, poll_runtime_pollUnblock (set_rg (G 3) zeroPD) = Ok o ∧ o_ready o = [3%nat] ∧
       o_delta o = -1.
Proof.
  destruct (pollUnblock_spec (set_rg (G 3) zeroPD) eq_refl) as (o&E&H1&H2&_).
  exists o. split; [exact E|]. split; [exact H1|]. rewrite H2, H1. reflexivity.
Defined.

(** ** Stale events *)
Lemma free_fdseq pd : 0 <= fdseq pd < 2 ^ 19 →
  fdseq (free_locked pd) = if fdseq pd =? 2 ^ 19 - 1 then 0 else fdseq pd + 1.
Proof.
  intros H. unfold free_locked. cbn [publishInfo set_info set_fdseq fdseq].
  change (Z.shiftl 1 taggedPointerBits - 1) with (2 ^ 19 - 1).
  rewrite land_ones_mod, u64_id by (lia || (unfold is_u64; lia)).
  destruct (Z.eqb_spec (fdseq pd) (2 ^ 19 - 1)) as [->|]; [done|]. apply Z.mod_small. lia.
Qed.
Lemma open_fdseq fd pd pd' : pollOpen_locked fd pd = Ok pd' →
  fdseq pd' = if fdseq pd =? 0 then 1 else fdseq pd.
Proof.
  unfold pollOpen_locked. destruct (blocked _); [done|]. destruct (blocked _); [done|].
  cbv zeta. intros [= <-]. cbn [publishInfo set_info set_wd set_wg set_wseq set_rd set_rg set_rseq fdseq].
  assert (Hs : ∀ b q p, fdseq (setEventErr b q p) = fdseq p)
    by (intros; unfold setEventErr; by repeat case_match).
  rewrite Hs. cbn [set_closing fdseq set_fd].
  by destruct (Z.eqb_spec (fdseq pd) 0).
Qed.
Lemma netpoll_event_other toRun delta pd events tag : fdseq pd ≠ tag →
  netpoll_event toRun delta pd events tag = (toRun, pd, delta).
Proof.
  intros Hn. unfold netpoll_event. destruct (events =? 0); [done|].
  by rewrite (proj2 (Z.eqb_neq (fdseq pd) tag)), andb_false_r.
Qed.

(** A kernel event registered for an earlier use of a descriptor is
    harmless: once the descriptor has been freed, and also after it has been
    opened again, the event wakes nobody and changes nothing. *)
Theorem stale_event_ignored toRun delta pd events fd pd' : 1 <= fdseq pd < 2 ^ 19 →
  pollOpen_locked fd (free_locked pd) = Ok pd' →
  netpoll_event toRun delta (free_locked pd) events (fdseq pd) = (toRun, free_locked pd, delta) ∧
  netpoll_event toRun delta pd' events (fdseq pd) = (toRun, pd', delta).
Proof.
  intros Hs Ho. pose proof (free_fdseq pd ltac:(lia)) as Ef.
  apply open_fdseq in Ho. rewrite Ef in Ho.
  split; apply netpoll_event_other; rewrite ?Ef, ?Ho;
    destruct (Z.eqb_spec (fdseq pd) (2 ^ 19 - 1)); try lia;
    [change (0 =? 0) with true; cbv iota|rewrite (proj2 (Z.eqb_neq _ 0)) by lia]; lia.
Qed.
Lemma stale_event_ignored_witness :
  let pd := set_rg (G 5) (reused 7) in
  netpoll_event [] 0 pd EPOLLIN 7 = ([5%nat], set_rg pdReady pd, -1) ∧
  netpoll_event [] 0 (free_locked (set_rg pdNil pd)) EPOLLIN 7
    = ([], free_locked (set_rg pdNil pd), 0).
Proof.
  cbv zeta. split; [vm_compute; reflexivity|].
  set (pd := set_rg pdNil (set_rg (G 5) (reused 7))).
  assert (Ho : ∃ pd', pollOpen_locked 3 (free_locked pd) = Ok pd') by (eexists; vm_compute; reflexivity).
  destruct Ho as [pd' Ho].
  assert (Hs : 1 <= fdseq pd < 2 ^ 19) by (change (fdseq pd) with 7; lia).
  exact (proj1 (stale_event_ignored [] 0 pd EPOLLIN 3 pd' Hs Ho)).
Defined.

(** ** The descriptor cache *)
Definition wf_cache (c : pollCache) : Prop :=
  NoDup (first c) ∧ Forall (λ i, i < length (descs c))%nat (first c).
Definition in_use (c : pollCache) (i : nat) : Prop :=
  (i < length (descs c))%nat ∧ i ∉ first c.

Lemma cache_alloc_spec block c : (0 < block)%nat → wf_cache c →
  let '(i, c') := cache_alloc block c in
  wf_cache c' ∧ ¬ in_use c i ∧ in_use c' i ∧ (∀ j, in_use c j → in_use c' j) ∧
  (∀ j, in_use c' j → j ≠ i → in_use c j).
Proof.
  intros Hb [Hnd Hlt]. unfold cache_alloc. destruct (first c) as [|i rest] eqn:Ef.
  - cbn [first descs]. set (n := length (descs c)).
    assert (Hl : rev (seq n block) = (n + block - 1)%nat :: rev (seq n (block - 1))).
    { destruct block as [|b]; [lia|]. rewrite seq_S, rev_app_distr. simpl.
      rewrite Nat.sub_0_r. f_equal. lia. }
    rewrite Hl. cbn [first descs].
    assert (Hnd' : NoDup ((n + block - 1)%nat :: rev (seq n (block - 1)))).
    { rewrite <- Hl. rewrite <- Permutation_rev. apply NoDup_seq. }
    assert (Hin : ∀ j, j ∈ rev (seq n (block - 1)) ↔ (n <= j < n + (block - 1))%nat).
    { intros j. rewrite <- Permutation_rev, elem_of_seq. done. }
    unfold wf_cache, in_use. rewrite Ef. cbn [descs first]. rewrite length_app, length_replicate. fold n.
    split; [split; [by apply list.NoDup_cons in Hnd' as [_ ?]|]|].
    { apply list.Forall_forall. intros j Hj%Hin. lia. }
    split; [lia|]. split; [split; [lia|]; intros Hj%Hin; lia|]. split.
    + intros j [Hj _]. split; [lia|]. intros Hj'%Hin. lia.
    + intros j [Hj Hn] Hne. split; [|apply not_elem_of_nil].
      destruct (decide (j < n)%nat); [done|]. exfalso. apply Hn, Hin. lia.
  - rewrite Ef. unfold wf_cache, in_use. cbn [descs first]. rewrite Ef.
    apply list.NoDup_cons in Hnd as [Hn Hnd]. apply list.Forall_cons in Hlt as [Hi Hlt].
    split; [done|]. split; [intros [_ []]; apply elem_of_cons; by left|]. split; [done|].
    split; [intros j [Hj Hn'%not_elem_of_cons]; naive_solver|].
    intros j [Hj Hn'] Hne. split; [done|]. by apply not_elem_of_cons.
Qed.
Lemma cache_free_spec i c : wf_cache c → in_use c i →
  wf_cache (cache_free i c) ∧ (∀ j, in_use (cache_free i c) j ↔ in_use c j ∧ j ≠ i).
Proof.
  intros [Hnd Hlt] [Hi Hn]. unfold wf_cache, in_use, cache_free. cbn [descs first].
  rewrite length_alter. split.
  - split; [by apply list.NoDup_cons|]. by apply list.Forall_cons.
  - intros j. rewrite not_elem_of_cons. tauto.
Qed.

(** Nobody is parked on a free descriptor. *)
Definition free_quiet (c : pollCache) : Prop :=
  ∀ i, i ∈ first c → let pd := nth i (descs c) zeroPD in blocked (rg pd) = false ∧ blocked (wg pd) = false.
Lemma nth_lookup_lt (l : list pollDesc) i : (i < length l)%nat → l !! i = Some (nth i l zeroPD).
Proof. intros H. rewrite nth_lookup. destruct (l !! i) eqn:E; [done|]. apply lookup_ge_None in E. lia. Qed.
Lemma cache_alloc_descs block c : free_quiet c → let '(i, c') := cache_alloc block c in
  free_quiet c' ∧ (∀ j, (j < length (descs c))%nat → nth j (descs c') zeroPD = nth j (descs c) zeroPD) ∧
  ((0 < block)%nat → blocked (rg (nth i (descs c') zeroPD)) = false ∧
                     blocked (wg (nth i (descs c') zeroPD)) = false).
Proof.
  intros Hq. unfold cache_alloc. destruct (first c) as [|i rest] eqn:Ef.
  - cbn [first descs].
    assert (Hz : ∀ j, (length (descs c) <= j)%nat →
      nth j (descs c ++ replicate block zeroPD) zeroPD = zeroPD).
    { intros j Hj. rewrite app_nth2 by lia. generalize (j - length (descs c))%nat. clear.
      induction block as [|b IH]; intros [|n]; simpl; done. }
    assert (Hge : ∀ j, j ∈ rev (seq (length (descs c)) block) → (length (descs c) <= j)%nat).
    { intros j. rewrite <- Permutation_rev, elem_of_seq. lia. }
    destruct (rev (seq (length (descs c)) block)) as [|i rest] eqn:El.
    + split; [intros j Hj; by apply elem_of_nil in Hj|]. split.
      * intros j Hj. cbn [descs]. by rewrite app_nth1.
      * intros Hb. apply (f_equal length) in El. rewrite length_rev, length_seq in El. simpl in El. lia.
    + split; [|split].
      * intros j Hj. cbn [descs first] in *. rewrite Hz; [done|]. apply Hge, elem_of_cons. by right.
      * intros j Hj. cbn [descs]. by rewrite app_nth1.
      * intros _. cbn [descs]. rewrite Hz; [done|]. apply Hge, elem_of_cons. by left.
  - rewrite Ef. split; [|split; [done|]].
    + intros j Hj. apply Hq. rewrite Ef. apply elem_of_cons. by right.
    + intros _. apply Hq. rewrite Ef. apply elem_of_cons. by left.
Qed.
Lemma open_quiet fd pd pd' : pollOpen_locked fd pd = Ok pd' → rg pd' = pdNil ∧ wg pd' = pdNil.
Proof.
  unfold pollOpen_locked. destruct (blocked _); [done|]. destruct (blocked _); [done|].
  cbv zeta. by intros [= <-].
Qed.
Lemma cache_free_quiet i c : free_quiet c → (i < length (descs c))%nat →
  blocked (rg (nth i (descs c) zeroPD)) = false → blocked (wg (nth i (descs c) zeroPD)) = false →
  free_quiet (cache_free i c).
Proof.
  intros Hq Hi Hr Hw j Hj. unfold cache_free. cbn [descs first] in *.
  assert (E : nth j (alter free_locked i (descs c)) zeroPD =
    if decide (j = i) then free_locked (nth i (descs c) zeroPD) else nth j (descs c) zeroPD).
  { rewrite nth_lookup. destruct (decide (j = i)) as [->|Hn].
    - rewrite list_lookup_alter_eq, nth_lookup_lt by done. done.
    - rewrite list_lookup_alter_ne by done. by rewrite <- nth_lookup. }
  rewrite E. destruct (decide (j = i)) as [->|Hn]; [done|]. apply Hq.
  apply elem_of_cons in Hj as [?|?]; [done|done].
Qed.

(** The descriptor cache never hands out a descriptor that is in use, and
    opening and closing keep that so: pollOpen returns a descriptor nobody else
    has (or, when the kernel refuses it, none, and the cache is as before), no
    other open descriptor is touched, and pollClose gives back just its own. *)
Theorem pollCache_exclusive block fd errno c : (0 < block)%nat → wf_cache c → free_quiet c →
  (∃ r e c', poll_runtime_pollOpen block fd errno c = Ok (r, e, c') ∧ wf_cache c' ∧ free_quiet c' ∧
    (∀ j, in_use c j → nth j (descs c') zeroPD = nth j (descs c) zeroPD) ∧
    match r with
    | Some i => errno = 0 ∧ ¬ in_use c i ∧ (∀ j, in_use c' j ↔ in_use c j ∨ j = i)
    | None => e = errno ∧ errno ≠ 0 ∧ (∀ j, in_use c' j ↔ in_use c j)
    end) ∧
  (∀ i, in_use c i → pollClose_check (nth i (descs c) zeroPD) = Ok tt →
    ∃ c', poll_runtime_pollClose i c = Ok c' ∧ wf_cache c' ∧ free_quiet c' ∧
      (∀ j, in_use c' j ↔ in_use c j ∧ j ≠ i)).
Proof.
  intros Hb Hw Hq. split.
  - unfold poll_runtime_pollOpen. pose proof (cache_alloc_spec block c Hb Hw) as Ha.
    pose proof (cache_alloc_descs block c Hq) as Hd.
    destruct (cache_alloc block c) as [i c1]. destruct Ha as (Hw1&Hni&Hi&Hin&Hout).
    destruct Hd as (Hq1&Hsame&Hbl). destruct (Hbl Hb) as [Br Bw].
    assert (Ho : ∃ pd, pollOpen_locked fd (nth i (descs c1) zeroPD) = Ok pd).
    { unfold pollOpen_locked. rewrite Br, Bw. by eexists. }
    destruct Ho as [pd Ho]. rewrite Ho. cbn [mbind res_bind].
    destruct (open_quiet _ _ _ Ho) as [Rr Rw].
    set (c2 := MkCache (<[i:=pd]> (descs c1)) (first c1)).
    assert (Hlen : length (descs c2) = length (descs c1)) by (cbn; apply length_insert).
    assert (Hw2 : wf_cache c2) by (destruct Hw1; split; [done|]; by rewrite Hlen).
    assert (Hu2 : ∀ j, in_use c2 j ↔ in_use c1 j) by (intros j; unfold in_use; by rewrite Hlen).
    assert (Hn2 : ∀ j, j ≠ i → nth j (descs c2) zeroPD = nth j (descs c1) zeroPD).
    { intros j Hj. cbn [c2 descs]. by rewrite !nth_lookup, list_lookup_insert_ne. }
    assert (Hi2 : nth i (descs c2) zeroPD = pd).
    { cbn [c2 descs]. rewrite nth_lookup, list_lookup_insert_eq; [done|apply Hi]. }
    assert (Hq2 : free_quiet c2).
    { intros j Hj. rewrite Hn2; [by apply Hq1|]. intros ->. by apply Hi. }
    assert (Hkeep : ∀ j, in_use c j → nth j (descs c2) zeroPD = nth j (descs c) zeroPD).
    { intros j Hj. rewrite Hn2; [apply Hsame, Hj|]. intros ->. by apply Hni. }
    destruct (Z.eqb_spec errno 0) as [->|He]; cbn [negb].
    + eexists _, _, c2. split; [reflexivity|]. do 3 (split; [done|]). split; [done|]. split; [done|].
      intros j. rewrite Hu2. destruct (decide (j = i)) as [->|Hj]; [tauto|].
      split; [intros H; left; by apply Hout|intros [H| ->]; [by apply Hin|done]].
    + destruct (cache_free_spec i c2 Hw2) as [Hw3 Hu3]; [by apply Hu2|].
      eexists None, errno, (cache_free i c2). split; [done|]. split; [done|]. split.
      { apply cache_free_quiet; [done|rewrite Hlen; apply Hi|by rewrite Hi2, Rr|by rewrite Hi2, Rw]. }
      split.
      { intros j Hj. rewrite <- Hkeep by done. unfold cache_free. cbn [descs].
        rewrite !nth_lookup, list_lookup_alter_ne; [done|]. intros ->. by apply Hni. }
      split; [done|]. split; [done|]. intros j. rewrite Hu3, Hu2. split.
      * intros [H Hj]. by apply Hout.
      * intros H. split; [by apply Hin|]. intros ->. by apply Hni.
  - intros i Hi Hc. unfold poll_runtime_pollClose. rewrite Hc. cbn [mbind res_bind].
    eexists. split; [done|]. destruct (cache_free_spec i c Hw Hi) as [Hw3 Hu3].
    split; [done|]. split; [|done]. unfold pollClose_check in Hc.
    destruct (negb _); [done|]. destruct (blocked (wg _)) eqn:B1; [done|].
    destruct (blocked (rg _)) eqn:B2; [done|]. apply cache_free_quiet; [done|apply Hi|done|done].
Qed.
Lemma pollCache_exclusive_witness :
  ∃ r e c', poll_runtime_pollOpen 2 7 0 (MkCache [] []) = Ok (r, e, c') ∧ wf_cache c' ∧ r = Some 1%nat.
Proof.
  destruct (pollCache_exclusive 2 7 0 (MkCache [] [])) as [(r&e&c'&E&Hw&_) _].
  - lia.
  - split; [apply NoDup_nil_2|apply Forall_nil_2].
  - intros i Hi. by apply elem_of_nil in Hi.
  - exists r, e, c'. split; [exact E|]. split; [exact Hw|]. vm_compute in E. congruence.
Defined.
