(* ===== verification/NetpollTimers.v ===== *)
(** * runtime/netpoll.go: deadlines and their timers

    A timer that fires calls back later, when it gets the descriptor's lock; in
    between the deadline may have been changed, the descriptor closed and even
    reused.  Sequence numbers tell a stale callback from a current one.  The
    invariant says that at most one callback per direction is current and that
    it finds the deadline it was set for, so that the consistency checks of
    netpolldeadlineimpl never fail. *)
From stdpp Require Import sets.
From S2P Require Import Prelude Threads Netpoll NetpollProps.
#[local] Open Scope Z_scope.

(** ** The system: a descriptor and the callbacks on their way *)
Record tsys : Set := MkT { ts_pd : pollDesc; fired : list (tfun * Z) }.

Inductive tstep (s : tsys) : tsys → Prop :=
| TSetDeadline d mode now o :
    poll_runtime_pollSetDeadline (ts_pd s) d mode now = Ok o →
    tstep s (MkT (o_pd o) (fired s))
| TUnblock o :
    poll_runtime_pollUnblock (ts_pd s) = Ok o → tstep s (MkT (o_pd o) (fired s))
| TReuse fd pd :                    (* closed, freed, and opened again *)
    closing (ts_pd s) = true → pollOpen_locked fd (free_locked (ts_pd s)) = Ok pd →
    tstep s (MkT pd (fired s))
| TFireRead f seq t :
    runOneTimer (rt (ts_pd s)) = Some (Some f, seq, t) →
    tstep s (MkT (set_rt t (ts_pd s)) ((f, seq) :: fired s))
| TFireWrite f seq t :
    runOneTimer (wt (ts_pd s)) = Some (Some f, seq, t) →
    tstep s (MkT (set_wt t (ts_pd s)) ((f, seq) :: fired s))
| TCallback l1 l2 f seq o :
    fired s = l1 ++ (f, seq) :: l2 → run_tfun f (ts_pd s) seq = Ok o →
    tstep s (MkT (o_pd o) (l1 ++ l2)).

(** [treach k s]: reached from a fresh descriptor in [k] steps. *)
Inductive treach : nat → tsys → Prop :=
| treach_open fd pd : pollOpen_locked fd zeroPD = Ok pd → treach 0 (MkT pd [])
| treach_step k s s' : treach k s → tstep s s' → treach (S k) s'.

(** ** The invariant *)
Definition is_read (f : tfun) : bool := match f with netpollWriteDeadline => false | _ => true end.
(** The callback would be let through by the sequence check. *)
Definition cur_r (n : Z) (x : tfun * Z) : Z := Z.b2z (is_read (fst x) && (snd x =? n)).
Definition cur_w (n : Z) (x : tfun * Z) : Z := Z.b2z (negb (is_read (fst x)) && (snd x =? n)).
Definition rfun (combo : bool) : tfun := if combo then netpollDeadline else netpollReadDeadline.
(** What holds of one direction: its sequence number [n], timer [t], deadline
    [d], the function [g] its timer should have, and the callbacks on their way.
    [cur n x]: callback [x] is of this direction and current. *)
Record half (mine : tfun → bool) (k n : Z) (t : timer) (d : Z) (g : tfun) (ok : Prop)
    (l : list (tfun * Z)) : Prop := MkHalf
  { h_seq : 0 <= n <= k;
    h_old x : x ∈ l → mine (fst x) = true → snd x <= n;
    (* at most one current callback is on its way or can still come *)
    h_live : total (λ x, Z.b2z (mine (fst x) && (snd x =? n))) l + Z.b2z (t_armed t) <= 1;
    (* and if there is one, the deadline it is for is set *)
    h_set : 0 < total (λ x, Z.b2z (mine (fst x) && (snd x =? n))) l + Z.b2z (t_armed t) →
      0 < d ∧ t_f t = Some g ∧ ok;
    h_armed : t_armed t = true → t_seq t = n;
    h_fun f : (f, n) ∈ l → mine f = true → f = g }.

Definition rhalf k pd l : Prop :=
  half is_read k (rseq pd) (rt pd) (rd pd) (rfun (combo_of pd)) True l.
Definition is_write (f : tfun) : bool := negb (is_read f).
Definition whalf k pd l : Prop :=
  half is_write k (wseq pd) (wt pd) (wd pd) netpollWriteDeadline (combo_of pd = false) l.
Record tinv (k : Z) (pd : pollDesc) (l : list (tfun * Z)) : Prop := MkTInv
  { ti_r : rhalf k pd l; ti_w : whalf k pd l;
    ti_closing : closing pd = true → t_f (rt pd) = None ∧ t_f (wt pd) = None }.

(** The fields the invariant speaks of. *)
Definition tview (pd : pollDesc) := (rseq pd, rt pd, rd pd, (wseq pd, wt pd, wd pd), closing pd).
Lemma tinv_view k pd pd' l : tview pd' = tview pd → tinv k pd l → tinv k pd' l.
Proof.
  intros E [H1 H2 H3]. unfold rhalf, whalf, combo_of in *.
  assert (Er : rseq pd' = rseq pd ∧ rt pd' = rt pd ∧ rd pd' = rd pd ∧ wseq pd' = wseq pd ∧
    wt pd' = wt pd ∧ wd pd' = wd pd ∧ closing pd' = closing pd) by (unfold tview in E; naive_solver).
  destruct Er as (E1&E2&E3&E4&E5&E6&E7).
  constructor; unfold rhalf, whalf, combo_of; rewrite ?E1, ?E2, ?E3, ?E4, ?E5, ?E6, ?E7; done.
Qed.
Lemma view_publish pd : tview (publishInfo pd) = tview pd.
Proof. done. Qed.
Lemma view_seterr b q pd : tview (setEventErr b q pd) = tview pd.
Proof. unfold setEventErr. by repeat case_match. Qed.
Lemma view_unblock pd m b d : tview (netpollunblock pd m b d).1.1 = tview pd.
Proof.
  unfold netpollunblock, set_gpp. destruct (unblock_turn _ _); [|done].
  destruct (unblocked _). by destruct (m =? mode_w).
Qed.

Section Half.
Context (mine : tfun → bool).
#[local] Abbreviation cur n := (λ x : tfun * Z, Z.b2z (mine (fst x) && (snd x =? n))).

Lemma cur_nonneg n l : 0 <= total (cur n) l.
Proof. apply total_nonneg. intros. apply b2z_01. Qed.
(** Once the sequence number moves on, no callback on its way is current. *)
Lemma no_current n l : (∀ x, x ∈ l → mine (fst x) = true → snd x < n) → total (cur n) l = 0.
Proof.
  intros H. apply total_zero. intros i x Hi%list_elem_of_lookup_2.
  destruct (mine (fst x)) eqn:E; [|done].
  by rewrite (proj2 (Z.eqb_neq _ _)) by (specialize (H x Hi E); lia).
Qed.
Lemma total_perm (f : tfun * Z → Z) l1 x l2 : total f (l1 ++ x :: l2) = f x + total f (l1 ++ l2).
Proof. induction l1 as [|y l1 IH]; simpl; lia. Qed.

(** A timer without a function is at rest. *)
Lemma half_rest k n t d g ok l : half mine k n t d g ok l → t_f t = None →
  t_armed t = false ∧ total (cur n) l = 0.
Proof.
  intros [H1 H2 H3 H4 H5 H6] Hf. pose proof (cur_nonneg n l). pose proof (b2z_01 (t_armed t)).
  destruct (decide (0 < total (cur n) l + Z.b2z (t_armed t))) as [Hl|Hl].
  - destruct (H4 Hl) as (_&E&_). congruence.
  - destruct (t_armed t); simpl in *; lia.
Qed.
Lemma half_mono k k' n t d g ok l : k <= k' → half mine k n t d g ok l → half mine k' n t d g ok l.
Proof. intros Hk [H1 H2 H3 H4 H5 H6]. constructor; try done. lia. Qed.
Lemma no_current_in n l f : total (cur n) l = 0 → (f, n) ∈ l → mine f = true → False.
Proof.
  intros Ht Hin Hm. apply list_elem_of_lookup_1 in Hin as [i Hi].
  pose proof (total_ge (cur n) l i _ ltac:(intros; apply b2z_01) Hi) as H'.
  cbn beta in H'. simpl in H'. rewrite Hm, Z.eqb_refl in H'. simpl in H'. lia.
Qed.
(** A timer at rest is fine under any deadline. *)
Lemma half_quiet k n t d g ok l : 0 <= n <= k → t_armed t = false → total (cur n) l = 0 →
  (∀ x, x ∈ l → mine (fst x) = true → snd x <= n) → half mine k n t d g ok l.
Proof.
  intros Hn Ha Ht Hl. constructor; try done.
  - rewrite Ht, Ha. simpl. lia.
  - rewrite Ht, Ha. simpl. lia.
  - congruence.
  - intros f Hf Hm. by destruct (no_current_in n l f Ht Hf Hm).
Qed.
(** A timer just set: nothing current is on its way. *)
Lemma half_set k n t d g (ok : Prop) l : 0 <= n <= k → t_seq t = n → t_f t = Some g → 0 < d → ok →
  total (cur n) l = 0 → (∀ x, x ∈ l → mine (fst x) = true → snd x <= n) →
  half mine k n t d g ok l.
Proof.
  intros Hn Hs Hf Hd Hok Ht Hl. pose proof (b2z_01 (t_armed t)). constructor; try done.
  - rewrite Ht. lia.
  - intros f Hin Hm. by destruct (no_current_in n l f Ht Hin Hm).
Qed.
(** The sequence number moves on. *)
Lemma half_next k n t d g ok l x : half mine k n t d g ok l → x ∈ l → mine (fst x) = true → snd x < n + 1.
Proof. intros H Hx Hm. pose proof (h_old _ _ _ _ _ _ _ _ H x Hx Hm). lia. Qed.
End Half.

(** ** poll_runtime_pollSetDeadline *)
Lemma u64_next n k : 0 <= n <= k → k + 1 < 2 ^ 64 → u64 (n + 1) = n + 1.
Proof. intros. apply u64_id. unfold is_u64. lia. Qed.

Lemma set_read_timer_ok k rd0 combo0 pd l : k + 1 < 2 ^ 64 →
  half is_read k (rseq pd) (rt pd) rd0 (rfun combo0) True l →
  ∃ pd', set_read_timer rd0 combo0 (combo_of pd) pd = Ok pd' ∧ rhalf (k + 1) pd' l ∧
    tview pd' = (rseq pd', rt pd', rd pd, (wseq pd, wt pd, wd pd), closing pd).
Proof.
  intros Hk Hh. pose proof (h_seq _ _ _ _ _ _ _ _ Hh) as Hn.
  pose proof (h_old _ _ _ _ _ _ _ _ Hh) as Hold. unfold set_read_timer, rhalf.
  fold (rfun (combo_of pd)). destruct (t_f (rt pd)) as [f|] eqn:Ef.
  - destruct (negb (rd pd =? rd0) || negb (Bool.eqb (combo_of pd) combo0)) eqn:Ec.
    + assert (Hnext : total (λ x, Z.b2z (is_read (fst x) && (snd x =? rseq pd + 1))) l = 0).
      { apply no_current. intros x Hx Hm. specialize (Hold x Hx Hm). lia. }
      assert (Hold' : ∀ x, x ∈ l → is_read (fst x) = true → snd x <= rseq pd + 1).
      { intros x Hx Hm. specialize (Hold x Hx Hm). lia. }
      cbn [rd set_rseq rseq rt]. rewrite (u64_next _ k Hn Hk).
      destruct (Z.ltb_spec 0 (rd pd)) as [Hrd|Hrd]; rewrite Z.gtb_ltb.
      * rewrite (proj2 (Z.ltb_lt _ _)) by done. unfold modtimer.
        rewrite (proj2 (Z.leb_gt _ _)) by done. cbn [mbind res_bind].
        eexists. split; [reflexivity|]. split; [|done].
        apply half_set; try done. cbn. lia.
      * rewrite (proj2 (Z.ltb_ge _ _)) by done. eexists. split; [reflexivity|]. split; [|done].
        apply half_quiet; try done. cbn. lia.
    + apply orb_false_iff in Ec as [E1%negb_false_iff%Z.eqb_eq E2%negb_false_iff].
      apply Bool.eqb_prop in E2. exists pd. split; [done|]. split; [|done].
      rewrite E1, E2. apply half_mono with k; [lia|done].
  - destruct (half_rest is_read _ _ _ _ _ _ _ Hh Ef) as [Ha Ht].
    destruct (Z.ltb_spec 0 (rd pd)) as [Hrd|Hrd]; rewrite Z.gtb_ltb.
    + rewrite (proj2 (Z.ltb_lt _ _)) by done. unfold resettimer, modtimer.
      rewrite (proj2 (Z.leb_gt _ _)) by done. cbn [mbind res_bind].
      eexists. split; [reflexivity|]. split; [|done]. apply half_set; try done. cbn. lia.
    + rewrite (proj2 (Z.ltb_ge _ _)) by done. exists pd. split; [done|]. split; [|done].
      apply half_quiet; try done. lia.
Qed.
Lemma set_write_timer_ok k wd0 combo0 pd l : k + 1 < 2 ^ 64 →
  half is_write k (wseq pd) (wt pd) wd0 netpollWriteDeadline (combo0 = false) l →
  ∃ pd', set_write_timer wd0 combo0 (combo_of pd) pd = Ok pd' ∧ whalf (k + 1) pd' l ∧
    tview pd' = (rseq pd, rt pd, rd pd, (wseq pd', wt pd', wd pd), closing pd).
Proof.
  intros Hk Hh. pose proof (h_seq _ _ _ _ _ _ _ _ Hh) as Hn.
  pose proof (h_old _ _ _ _ _ _ _ _ Hh) as Hold. unfold set_write_timer, whalf.
  destruct (t_f (wt pd)) as [f|] eqn:Ef.
  - destruct (negb (wd pd =? wd0) || negb (Bool.eqb (combo_of pd) combo0)) eqn:Ec.
    + assert (Hnext : total (λ x, Z.b2z (is_write (fst x) && (snd x =? wseq pd + 1))) l = 0).
      { apply no_current. intros x Hx Hm. specialize (Hold x Hx Hm). lia. }
      assert (Hold' : ∀ x, x ∈ l → is_write (fst x) = true → snd x <= wseq pd + 1).
      { intros x Hx Hm. specialize (Hold x Hx Hm). lia. }
      cbn [wd set_wseq wseq wt]. rewrite (u64_next _ k Hn Hk).
      destruct ((wd pd >? 0) && negb (combo_of pd)) eqn:Hc.
      * apply andb_true_iff in Hc as [Hwd%Z.gtb_lt Hcf%negb_true_iff]. unfold modtimer.
        rewrite (proj2 (Z.leb_gt _ _)) by done. cbn [mbind res_bind].
        eexists. split; [reflexivity|]. split; [|done].
        apply half_set; try done. cbn. lia.
      * eexists. split; [reflexivity|]. split; [|done].
        apply half_quiet; try done. cbn. lia.
    + apply orb_false_iff in Ec as [E1%negb_false_iff%Z.eqb_eq E2%negb_false_iff].
      apply Bool.eqb_prop in E2. exists pd. split; [done|]. split; [|done].
      rewrite E1, E2. apply half_mono with k; [lia|done].
  - destruct (half_rest is_write _ _ _ _ _ _ _ Hh Ef) as [Ha Ht].
    destruct ((wd pd >? 0) && negb (combo_of pd)) eqn:Hc.
    + apply andb_true_iff in Hc as [Hwd%Z.gtb_lt Hcf%negb_true_iff]. unfold resettimer, modtimer.
      rewrite (proj2 (Z.leb_gt _ _)) by done. cbn [mbind res_bind].
      eexists. split; [reflexivity|]. split; [|done]. apply half_set; try done. cbn. lia.
    + exists pd. split; [done|]. split; [|done]. apply half_quiet; try done. lia.
Qed.

(** ** The operations keep the invariant and do not panic *)
Lemma half_remove mine k n t d g ok l1 x l2 :
  half mine k n t d g ok (l1 ++ x :: l2) → half mine k n t d g ok (l1 ++ l2).
Proof.
  intros [H1 H2 H3 H4 H5 H6]. rewrite total_perm in H3, H4.
  pose proof (b2z_01 (mine (fst x) && (snd x =? n))) as Hx.
  assert (Hin : ∀ y, y ∈ l1 ++ l2 → y ∈ l1 ++ x :: l2) by set_solver.
  constructor; try done; try lia; eauto.
  intros Hl. apply H4. lia.
Qed.
(** The current callback, taken from the list, was the only one. *)
Lemma half_current mine k n t d g ok l1 f l2 : mine f = true →
  half mine k n t d g ok (l1 ++ (f, n) :: l2) →
  0 < d ∧ t_f t = Some g ∧ ok ∧ f = g ∧ t_armed t = false ∧
  total (λ x, Z.b2z (mine (fst x) && (snd x =? n))) (l1 ++ l2) = 0.
Proof.
  intros Hm [H1 H2 H3 H4 H5 H6]. rewrite total_perm in H3, H4. cbn [fst snd] in H3, H4.
  rewrite Hm, Z.eqb_refl in H3, H4. cbn [andb Z.b2z] in H3, H4.
  pose proof (cur_nonneg mine n (l1 ++ l2)). pose proof (b2z_01 (t_armed t)).
  destruct H4 as (?&?&?); [lia|]. split; [done|]. split; [done|]. split; [done|].
  split; [apply H6; [set_solver|done]|]. destruct (t_armed t); simpl in *; split; (done || lia).
Qed.
Lemma half_weaken mine k n t d g (ok ok' : Prop) l : (ok → ok') →
  half mine k n t d g ok l → half mine k n t d g ok' l.
Proof. intros Hok [H1 H2 H3 H4 H5 H6]. constructor; try done. intros Hl. destruct (H4 Hl) as (?&?&?). auto. Qed.
Lemma half_fire mine k n t d g ok l f t' : mine f = true → t_armed t = true → t_f t = Some f →
  t' = MkTimer (t_f t) (t_seq t) (t_when t) false →
  half mine k n t d g ok l → half mine k n t' d g ok ((f, t_seq t) :: l).
Proof.
  intros Hm Ha Hf -> [H1 H2 H3 H4 H5 H6]. rewrite (H5 Ha), Ha in *.
  destruct H4 as (Hd&Hg&Hok); [pose proof (cur_nonneg mine n l); simpl; lia|].
  assert (E : f = g) by congruence. subst g.
  constructor; cbn [t_armed t_f t_seq]; cbn [total fst snd]; try done.
  - intros x [->|Hx]%elem_of_cons Hx'; [simpl; lia|auto].
  - rewrite Hm, Z.eqb_refl. simpl in *. lia.
  - intros f' [[= ->]|Hx]%elem_of_cons Hx'; [done|auto].
Qed.
Lemma half_fire_other mine k n t d g ok l x : mine (fst x) = false →
  half mine k n t d g ok l → half mine k n t d g ok (x :: l).
Proof.
  intros Hm [H1 H2 H3 H4 H5 H6]. constructor; cbn [total]; rewrite ?Hm; cbn [andb Z.b2z]; try done.
  - intros y [->|Hy]%elem_of_cons Hy'; [congruence|auto].
  - intros f [<-|Hy]%elem_of_cons Hy'; [simpl in Hm; congruence|auto].
Qed.
Lemma tinv_mono k k' pd l : k <= k' → tinv k pd l → tinv k' pd l.
Proof. intros Hk [H1 H2 H3]. constructor; [by apply half_mono with k..|done]. Qed.

Lemma SetDeadline_ok k pd l d mode now : k + 1 < 2 ^ 64 → tinv k pd l →
  ∃ o, poll_runtime_pollSetDeadline pd d mode now = Ok o ∧ tinv (k + 1) (o_pd o) l.
Proof.
  intros Hk Hi. unfold poll_runtime_pollSetDeadline. destruct (closing pd) eqn:Hc.
  { eexists. split; [done|]. apply tinv_mono with k; [lia|done]. }
  cbv zeta. set (pd1 := publishInfo _).
  assert (E1 : ∃ r w, tview pd1 = (rseq pd, rt pd, r, (wseq pd, wt pd, w), false)).
  { exists (rd pd1), (wd pd1). unfold pd1. rewrite <- Hc.
    destruct ((mode =? mode_r) || _), ((mode =? mode_w) || _); done. }
  destruct E1 as (r&w&E1). clearbody pd1. injection E1 as Ers Ert Erd Ews Ewt Ewd Ecl.
  destruct (set_read_timer_ok k (rd pd) (combo_of pd) pd1 l Hk) as (pd2&->&Hr2&E2).
  { rewrite Ers, Ert. apply Hi. }
  injection E2 as Erd2 Ews2 Ewt2 Ewd2 Ecl2. cbn [mbind res_bind].
  assert (Ec : combo_of pd1 = combo_of pd2) by (unfold combo_of; congruence). rewrite Ec.
  destruct (set_write_timer_ok k (wd pd) (combo_of pd) pd2 l Hk) as (pd3&->&Hw3&E3).
  { rewrite Ews2, Ewt2, Ews, Ewt. apply Hi. }
  injection E3 as Ers3 Ert3 Erd3 Ewd3 Ecl3. cbn [mbind res_bind].
  assert (H3 : tinv (k + 1) pd3 l).
  { constructor; [|done|congruence].
    unfold rhalf, combo_of in *. rewrite Ers3, Ert3, Erd3, Ewd3. done. }
  destruct (rd pd3 <? 0).
  - pose proof (view_unblock pd3 mode_r false 0) as V.
    destruct (netpollunblock pd3 mode_r false 0) as [[pd4 g4] d4]. cbn [fst] in V.
    assert (H4 : tinv (k + 1) pd4 l) by (by apply tinv_view with pd3).
    destruct (wd pd4 <? 0); [|by eexists].
    pose proof (view_unblock pd4 mode_w false d4) as V5.
    destruct (netpollunblock pd4 mode_w false d4) as [[pd5 g5] d5]. cbn [fst] in V5.
    eexists. split; [done|]. by apply tinv_view with pd4.
  - destruct (wd pd3 <? 0); [|by eexists].
    pose proof (view_unblock pd3 mode_w false 0) as V5.
    destruct (netpollunblock pd3 mode_w false 0) as [[pd5 g5] d5]. cbn [fst] in V5.
    eexists. split; [done|]. by apply tinv_view with pd3.
Qed.

(** A direction whose sequence number has moved on and whose timer is dropped. *)
Lemma half_dropped mine k n t t' d d' g g' ok ok' l : half mine k n t d g ok l →
  t_armed t' = false → half mine (k + 1) (n + 1) t' d' g' ok' l.
Proof.
  intros Hh Ha. pose proof (h_seq _ _ _ _ _ _ _ _ Hh).
  pose proof (h_old _ _ _ _ _ _ _ _ Hh) as Hold.
  apply half_quiet; [lia|done|apply no_current|];
    intros x Hx Hm; specialize (Hold x Hx Hm); lia.
Qed.
Lemma drop_timer_rest mine k n t d g ok l : half mine k n t d g ok l →
  t_armed (drop_timer t) = false ∧ t_f (drop_timer t) = None.
Proof.
  intros Hh. unfold drop_timer. destruct (t_f t) eqn:E; [done|].
  split; [by apply (half_rest mine _ _ _ _ _ _ _ Hh)|done].
Qed.
Lemma Unblock_ok k pd l : k + 1 < 2 ^ 64 → tinv k pd l → closing pd = false →
  ∃ o, poll_runtime_pollUnblock pd = Ok o ∧ tinv (k + 1) (o_pd o) l.
Proof.
  intros Hk [Hr Hw _] Hc. unfold poll_runtime_pollUnblock. rewrite Hc. cbv zeta.
  set (pd1 := publishInfo _).
  pose proof (h_seq _ _ _ _ _ _ _ _ Hr) as Hrs. pose proof (h_seq _ _ _ _ _ _ _ _ Hw) as Hws.
  assert (E1 : tview pd1 = (rseq pd + 1, rt pd, rd pd, (wseq pd + 1, wt pd, wd pd), true)).
  { unfold tview, pd1. cbn [publishInfo set_info set_wseq set_rseq set_closing rseq rt rd wseq wt wd closing].
    by rewrite !(u64_next _ k) by done. }
  clearbody pd1.
  pose proof (view_unblock pd1 mode_r false 0) as V.
  destruct (netpollunblock pd1 mode_r false 0) as [[pd2 g2] d2]. cbn [fst] in V.
  pose proof (view_unblock pd2 mode_w false d2) as V2.
  destruct (netpollunblock pd2 mode_w false d2) as [[pd3 g3] d3]. cbn [fst] in V2.
  rewrite V, E1 in V2. injection V2 as Ers Ert Erd Ews Ewt Ewd Ecl.
  eexists. split; [done|]. cbn [o_pd].
  destruct (drop_timer_rest _ _ _ _ _ _ _ _ Hr) as [Ha1 Hf1].
  destruct (drop_timer_rest _ _ _ _ _ _ _ _ Hw) as [Ha2 Hf2].
  constructor; unfold rhalf, whalf; cbn [set_wt set_rt rseq rt rd wseq wt wd closing];
    rewrite ?Ers, ?Ews, ?Ert, ?Ewt; [eapply half_dropped; eauto..|done].
Qed.
Lemma Reuse_ok k pd l fd pd' : k + 1 < 2 ^ 64 → tinv k pd l → closing pd = true →
  pollOpen_locked fd (free_locked pd) = Ok pd' → tinv (k + 1) pd' l.
Proof.
  intros Hk [Hr Hw Hcl] Hc E. destruct (Hcl Hc) as [Fr Fw].
  destruct (half_rest _ _ _ _ _ _ _ _ Hr Fr) as [Ar _].
  destruct (half_rest _ _ _ _ _ _ _ _ Hw Fw) as [Aw _].
  pose proof (h_seq _ _ _ _ _ _ _ _ Hr) as Hrs. pose proof (h_seq _ _ _ _ _ _ _ _ Hw) as Hws.
  assert (Ev : tview pd' = (rseq pd + 1, rt pd, 0, (wseq pd + 1, wt pd, 0), false)).
  { revert E. unfold pollOpen_locked. destruct (blocked _); [done|]. destruct (blocked _); [done|].
    cbv zeta. intros [= <-]. rewrite view_publish. set (q := set_closing false _).
    assert (V : tview (setEventErr false 0 q) = (rseq pd, rt pd, rd pd, (wseq pd, wt pd, wd pd), false)).
    { rewrite view_seterr. unfold q. by case_match. }
    injection V as V1 V2 V3 V4 V5 V6 V7. unfold tview.
    cbn [set_wd set_wg set_wseq set_rd set_rg set_rseq rseq rt rd wseq wt wd closing].
    by rewrite V1, V2, V4, V5, V7, !(u64_next _ k) by done. }
  injection Ev as Ers Ert Erd Ews Ewt Ewd Ecl.
  constructor; unfold rhalf, whalf; rewrite ?Ers, ?Ews, ?Ert, ?Ewt;
    [eapply half_dropped; eauto..|congruence].
Qed.

(** A read callback, alone or for both directions. *)
Lemma read_callback_ok k pd l1 l2 seq write : tinv k pd (l1 ++ (rfun write, seq) :: l2) →
  ∃ o, netpolldeadlineimpl pd seq true write = Ok o ∧ tinv k (o_pd o) (l1 ++ l2) ∧
    (seq = rseq pd → rd (o_pd o) = -1 ∧ (write = true → wd (o_pd o) = -1)) ∧
    (seq ≠ rseq pd → o_pd o = pd).
Proof.
  intros [Hr Hw Hcl]. unfold netpolldeadlineimpl. cbn [negb andb].
  destruct (Z.eqb_spec seq (rseq pd)) as [->|Hs]; cbn [negb]; cycle 1.
  { eexists. split; [done|]. split; [|done].
    constructor; [by eapply half_remove|by eapply half_remove|done]. }
  assert (Hm : is_read (rfun write) = true) by (by destruct write).
  pose proof (h_seq _ _ _ _ _ _ _ _ Hr) as Hrs.
  pose proof (h_old _ _ _ _ _ _ _ _ (half_remove _ _ _ _ _ _ _ _ _ _ Hr)) as Hold.
  destruct (half_current _ _ _ _ _ _ _ _ _ _ Hm Hr) as (Hd&Hf&_&Eg&Ha&Ht).
  assert (Ec : combo_of pd = write) by (by destruct (combo_of pd), write).
  rewrite Hf, (proj2 (Z.leb_gt _ _)) by done. cbn [orb].
  set (pd1 := publishInfo (set_rd (-1) pd)).
  assert (E1 : tview pd1 = (rseq pd, rt pd, -1, (wseq pd, wt pd, wd pd), closing pd)) by done.
  clearbody pd1. pose proof (view_unblock pd1 mode_r false 0) as V.
  destruct (netpollunblock pd1 mode_r false 0) as [[pd2 g2] d2]. cbn [fst] in V.
  rewrite E1 in V. clear pd1 E1. injection V as Ers Ert Erd Ews Ewt Ewd Ecl.
  assert (Hw2 : half is_write k (wseq pd) (wt pd) (wd pd) netpollWriteDeadline (write = false) (l1 ++ l2)).
  { apply half_remove in Hw. unfold whalf in Hw. by rewrite Ec in Hw. }
  destruct write; cbn [andb negb].
  - (* both directions: the write timer is at rest *)
    assert (Hwd : wd pd = rd pd).
    { unfold combo_of in Ec. apply andb_true_iff in Ec as [_ Ec%Z.eqb_eq]. done. }
    rewrite Ewd, (proj2 (Z.leb_gt _ _)), andb_false_r by lia. cbn [orb].
    set (pd3 := publishInfo (set_wd (-1) pd2)).
    assert (E3 : tview pd3 = (rseq pd, rt pd, -1, (wseq pd, wt pd, -1), closing pd)).
    { unfold tview, pd3. cbn. by rewrite Ers, Ert, Erd, Ews, Ewt, Ecl. }
    clearbody pd3. pose proof (view_unblock pd3 mode_w false d2) as V.
    destruct (netpollunblock pd3 mode_w false d2) as [[pd4 g4] d4]. cbn [fst] in V.
    rewrite E3 in V. clear Ers Ert Erd Ews Ewt Ewd Ecl. injection V as Ers Ert Erd Ews Ewt Ewd Ecl.
    eexists. split; [done|]. cbn [o_pd]. split; [|done].
    pose proof (h_seq _ _ _ _ _ _ _ _ Hw2). 
    pose proof (h_old _ _ _ _ _ _ _ _ Hw2) as Holdw.
    assert (Hq : t_armed (wt pd) = false ∧
      total (λ x, Z.b2z (is_write (fst x) && (snd x =? wseq pd))) (l1 ++ l2) = 0).
    { pose proof (cur_nonneg is_write (wseq pd) (l1 ++ l2)). pose proof (b2z_01 (t_armed (wt pd))).
      destruct (decide (0 < total (λ x, Z.b2z (is_write (fst x) && (snd x =? wseq pd))) (l1 ++ l2)
        + Z.b2z (t_armed (wt pd)))) as [Hl|Hl].
      - by destruct (h_set _ _ _ _ _ _ _ _ Hw2 Hl) as (_&_&?).
      - destruct (t_armed (wt pd)); simpl in *; lia. }
    destruct Hq as [Haw Htw].
    constructor; unfold rhalf, whalf; rewrite ?Ers, ?Ert, ?Ews, ?Ewt, ?Ecl; [|..|done];
      by apply half_quiet.
  - eexists. split; [done|]. cbn [o_pd]. split; [|done].
    assert (Ec2 : combo_of pd2 = false) by (unfold combo_of; by rewrite Erd).
    constructor; unfold rhalf, whalf; rewrite ?Ec2, ?Ers, ?Ert, ?Ews, ?Ewt, ?Ewd, ?Ecl; [|done..].
    by apply half_quiet.
Qed.
Lemma write_callback_ok k pd l1 l2 seq : tinv k pd (l1 ++ (netpollWriteDeadline, seq) :: l2) →
  ∃ o, netpolldeadlineimpl pd seq false true = Ok o ∧ tinv k (o_pd o) (l1 ++ l2) ∧
    (seq = wseq pd → wd (o_pd o) = -1) ∧ (seq ≠ wseq pd → o_pd o = pd).
Proof.
  intros [Hr Hw Hcl]. unfold netpolldeadlineimpl. cbn [negb andb].
  destruct (Z.eqb_spec seq (wseq pd)) as [->|Hs]; cbn [negb]; cycle 1.
  { eexists. split; [done|]. split; [|done].
    constructor; [by eapply half_remove|by eapply half_remove|done]. }
  pose proof (h_seq _ _ _ _ _ _ _ _ Hw) as Hws.
  pose proof (h_old _ _ _ _ _ _ _ _ (half_remove _ _ _ _ _ _ _ _ _ _ Hw)) as Hold.
  destruct (half_current is_write _ _ _ _ _ _ _ netpollWriteDeadline _ eq_refl Hw) as (Hd&Hf&Ec&_&Ha&Ht).
  rewrite Hf, (proj2 (Z.leb_gt _ _)) by done. cbn [orb andb].
  set (pd1 := publishInfo (set_wd (-1) pd)).
  assert (E1 : tview pd1 = (rseq pd, rt pd, rd pd, (wseq pd, wt pd, -1), closing pd)) by done.
  clearbody pd1. pose proof (view_unblock pd1 mode_w false 0) as V.
  destruct (netpollunblock pd1 mode_w false 0) as [[pd2 g2] d2]. cbn [fst] in V.
  rewrite E1 in V. injection V as Ers Ert Erd Ews Ewt Ewd Ecl.
  eexists. split; [done|]. cbn [o_pd]. split; [|done].
  assert (Ec2 : combo_of pd2 = false).
  { unfold combo_of. rewrite Erd, Ewd. destruct (Z.gtb_spec (rd pd) 0); [|done].
    by rewrite (proj2 (Z.eqb_neq _ _)) by lia. }
  constructor; unfold rhalf, whalf; rewrite ?Ec2, ?Ers, ?Ert, ?Erd, ?Ews, ?Ewt, ?Ecl; [|by apply half_quiet|done].
  apply half_remove in Hr. unfold rhalf in Hr. by rewrite Ec in Hr.
Qed.
Lemma callback_ok k pd l1 l2 f seq : tinv k pd (l1 ++ (f, seq) :: l2) →
  ∃ o, run_tfun f pd seq = Ok o ∧ tinv k (o_pd o) (l1 ++ l2).
Proof.
  intros Hi. destruct f; cbn [run_tfun].
  - destruct (read_callback_ok k pd l1 l2 seq true Hi) as (o&E&H&_). eauto.
  - destruct (read_callback_ok k pd l1 l2 seq false Hi) as (o&E&H&_). eauto.
  - destruct (write_callback_ok k pd l1 l2 seq Hi) as (o&E&H&_). eauto.
Qed.

Lemma fire_read_ok k pd l f seq t : tinv k pd l →
  runOneTimer (rt pd) = Some (Some f, seq, t) → tinv k (set_rt t pd) ((f, seq) :: l).
Proof.
  intros [Hr Hw Hcl] E. unfold runOneTimer in E. destruct (t_armed (rt pd)) eqn:Ha; [|done].
  injection E as Ef <- <-.
  destruct (h_set _ _ _ _ _ _ _ _ Hr) as (_&Hg&_).
  { rewrite Ha. pose proof (cur_nonneg is_read (rseq pd) l). simpl. lia. }
  assert (Hm : is_read f = true) by (assert (f = rfun (combo_of pd)) as -> by congruence; by destruct (combo_of pd)).
  constructor.
  - by apply half_fire.
  - apply half_fire_other; [|done]. unfold is_write. cbn. by rewrite Hm.
  - intros Hc. destruct (Hcl Hc). congruence.
Qed.
Lemma fire_write_ok k pd l f seq t : tinv k pd l →
  runOneTimer (wt pd) = Some (Some f, seq, t) → tinv k (set_wt t pd) ((f, seq) :: l).
Proof.
  intros [Hr Hw Hcl] E. unfold runOneTimer in E. destruct (t_armed (wt pd)) eqn:Ha; [|done].
  injection E as Ef <- <-.
  destruct (h_set _ _ _ _ _ _ _ _ Hw) as (_&Hg&_).
  { rewrite Ha. pose proof (cur_nonneg is_write (wseq pd) l). simpl. lia. }
  assert (f = netpollWriteDeadline) as -> by congruence.
  constructor.
  - by apply half_fire_other.
  - by apply half_fire.
  - intros Hc. destruct (Hcl Hc). congruence.
Qed.

Lemma treach_inv k s : Z.of_nat k + 1 < 2 ^ 64 → treach k s →
  tinv (Z.of_nat k + 1) (ts_pd s) (fired s).
Proof.
  intros Hk Hr. induction Hr as [fd pd E|k s s' Hr IH Hs].
  - cbn [ts_pd fired]. injection E as <-. constructor; [..|done];
      (apply half_quiet; [change (0 <= 1 <= 1); lia|done|done|intros x Hx; by apply elem_of_nil in Hx]).
  - specialize (IH ltac:(lia)).
    replace (Z.of_nat (S k) + 1) with (Z.of_nat k + 1 + 1) by lia.
    destruct Hs as [d mode now o E|o E|fd pd Hc E|f seq t E|f seq t E|l1 l2 f seq o El E]; cbn [ts_pd fired].
    + destruct (SetDeadline_ok (Z.of_nat k + 1) _ _ d mode now ltac:(lia) IH) as (o'&E'&H). congruence.
    + destruct (closing (ts_pd s)) eqn:Hc; [unfold poll_runtime_pollUnblock in E; by rewrite Hc in E|].
      destruct (Unblock_ok (Z.of_nat k + 1) _ _ ltac:(lia) IH Hc) as (o'&E'&H). congruence.
    + exact (Reuse_ok (Z.of_nat k + 1) _ _ fd pd ltac:(lia) IH Hc E).
    + apply tinv_mono with (Z.of_nat k + 1); [lia|]. by apply fire_read_ok.
    + apply tinv_mono with (Z.of_nat k + 1); [lia|]. by apply fire_write_ok.
    + apply tinv_mono with (Z.of_nat k + 1); [lia|]. rewrite El in IH.
      destruct (callback_ok _ _ _ _ _ _ IH) as (o'&E'&H). congruence.
Qed.

(** ** What setting a deadline leaves *)
(** The number a timer is set again under is no callback's on its way. *)
Lemma half_fresh mine k n t d g ok l f q : half mine k n t d g ok l → (f, q) ∈ l → mine f = true →
  q ≠ (match t_f t with Some _ => n + 1 | None => n end) ∧ q <= n.
Proof.
  intros Hh Hin Hm. pose proof (h_old _ _ _ _ _ _ _ _ Hh _ Hin Hm) as Hq. cbn in Hq. split; [|done].
  destruct (t_f t) as [x|] eqn:Ef; [lia|]. intros ->.
  destruct (half_rest _ _ _ _ _ _ _ _ Hh Ef) as [_ Ht]. by eapply no_current_in.
Qed.
Definition bumped (t : timer) (n : Z) : Z := match t_f t with Some _ => n + 1 | None => n end.
Lemma set_read_timer_reset k rd0 combo0 pd l pd' : k + 1 < 2 ^ 64 →
  half is_read k (rseq pd) (rt pd) rd0 (rfun combo0) True l →
  set_read_timer rd0 combo0 (combo_of pd) pd = Ok pd' →
  (rseq pd' = rseq pd ∨ rseq pd' = bumped (rt pd) (rseq pd)) ∧
  (rd pd ≠ rd0 ∨ combo_of pd ≠ combo0 →
    rseq pd' = bumped (rt pd) (rseq pd) ∧
    (0 < rd pd → rt pd' = MkTimer (Some (rfun (combo_of pd))) (rseq pd') (rd pd) true) ∧
    (rd pd <= 0 → t_armed (rt pd') = false)).
Proof.
  intros Hk Hh. pose proof (h_seq _ _ _ _ _ _ _ _ Hh) as Hn. unfold set_read_timer, bumped.
  fold (rfun (combo_of pd)). destruct (t_f (rt pd)) as [f|] eqn:Ef.
  - destruct (negb (rd pd =? rd0) || negb (Bool.eqb (combo_of pd) combo0)) eqn:Ec.
    + cbn [rd set_rseq rseq rt]. rewrite (u64_next _ k Hn Hk), Z.gtb_ltb.
      destruct (Z.ltb_spec 0 (rd pd)) as [Hrd|Hrd].
      * unfold modtimer. rewrite (proj2 (Z.leb_gt _ _)) by done. cbn [mbind res_bind]. intros [= <-].
        cbn. split; [by right|]. intros _. repeat split; lia || done.
      * intros [= <-]. cbn. split; [by right|]. intros _. repeat split; lia || done.
    + intros [= <-]. split; [by left|].
      apply orb_false_iff in Ec as [E1%negb_false_iff%Z.eqb_eq E2%negb_false_iff%Bool.eqb_prop]. tauto.
  - rewrite Z.gtb_ltb. destruct (Z.ltb_spec 0 (rd pd)) as [Hrd|Hrd].
    + unfold resettimer, modtimer. rewrite (proj2 (Z.leb_gt _ _)) by done. cbn [mbind res_bind]. intros [= <-].
      cbn. split; [by left|]. intros _. repeat split; lia || done.
    + intros [= <-]. split; [by left|]. intros _. split; [done|]. split; [lia|]. intros _.
      by apply (half_rest _ _ _ _ _ _ _ _ Hh).
Qed.
Lemma set_write_timer_reset k wd0 combo0 pd l pd' : k + 1 < 2 ^ 64 →
  half is_write k (wseq pd) (wt pd) wd0 netpollWriteDeadline (combo0 = false) l →
  set_write_timer wd0 combo0 (combo_of pd) pd = Ok pd' →
  wd pd ≠ wd0 →
    wseq pd' = bumped (wt pd) (wseq pd) ∧
    (0 < wd pd → combo_of pd = false → wt pd' = MkTimer (Some netpollWriteDeadline) (wseq pd') (wd pd) true) ∧
    (wd pd <= 0 → t_armed (wt pd') = false).
Proof.
  intros Hk Hh. pose proof (h_seq _ _ _ _ _ _ _ _ Hh) as Hn. unfold set_write_timer, bumped.
  intros E Hne. destruct (t_f (wt pd)) as [f|] eqn:Ef.
  - rewrite (proj2 (Z.eqb_neq _ _) Hne) in E. cbn [negb orb] in E.
    cbn [wd set_wseq wseq wt] in E. rewrite (u64_next _ k Hn Hk), Z.gtb_ltb in E.
    destruct (Z.ltb_spec 0 (wd pd)) as [Hwd|Hwd], (combo_of pd); cbn [andb negb] in E;
      try (injection E as <-; cbn; repeat split; lia || done).
    unfold modtimer in E. rewrite (proj2 (Z.leb_gt _ _)) in E by done. cbn [mbind res_bind] in E.
    injection E as <-. cbn. repeat split; lia || done.
  - rewrite Z.gtb_ltb in E. pose proof (half_rest _ _ _ _ _ _ _ _ Hh Ef) as [Ha _].
    destruct (Z.ltb_spec 0 (wd pd)) as [Hwd|Hwd], (combo_of pd); cbn [andb negb] in E;
      try (injection E as <-; repeat split; lia || done).
    unfold resettimer, modtimer in E. rewrite (proj2 (Z.leb_gt _ _)) in E by done. cbn [mbind res_bind] in E.
    injection E as <-. cbn. repeat split; lia || done.
Qed.

(** The deadlines after a call of pollSetDeadline. *)
Definition new_deadline (ours : bool) (d now old : Z) : Z := if ours then deadline_of d now else old.
Record deadlines_set (pd pd' : pollDesc) (d mode now : Z) (l : list (tfun * Z)) : Prop :=
  { ds_rd : rd pd' = new_deadline ((mode =? mode_r) || (mode =? mode_rw)) d now (rd pd);
    ds_wd : wd pd' = new_deadline ((mode =? mode_w) || (mode =? mode_rw)) d now (wd pd);
    (* a deadline that was changed has its timer, one for both if they are the same *)
    ds_rtimer : rd pd' ≠ rd pd → 0 < rd pd' →
      rt pd' = MkTimer (Some (if rd pd' =? wd pd' then netpollDeadline else netpollReadDeadline))
                       (rseq pd') (rd pd') true;
    ds_wtimer : wd pd' ≠ wd pd → 0 < wd pd' →
      if rd pd' =? wd pd' then rt pd' = MkTimer (Some netpollDeadline) (rseq pd') (wd pd') true
      else wt pd' = MkTimer (Some netpollWriteDeadline) (wseq pd') (wd pd') true;
    (* and one taken back has none *)
    ds_rstop : rd pd' ≠ rd pd → rd pd' <= 0 → t_armed (rt pd') = false;
    ds_wstop : wd pd' ≠ wd pd → wd pd' <= 0 → t_armed (wt pd') = false;
    (* no callback on its way for the old deadline counts any more *)
    ds_rstale f q : rd pd' ≠ rd pd → (f, q) ∈ l → is_read f = true → q ≠ rseq pd';
    ds_wstale f q : wd pd' ≠ wd pd → (f, q) ∈ l → f ≠ netpollReadDeadline →
      q ≠ (if is_read f then rseq pd' else wseq pd') }.
Lemma deadlines_set_view pd pd1 pd2 d mode now l : tview pd2 = tview pd1 →
  deadlines_set pd pd1 d mode now l → deadlines_set pd pd2 d mode now l.
Proof.
  intros E [H1 H2 H3 H4 H5 H6 H7 H8]. unfold tview in E. injection E as E1 E2 E3 E4 E5 E6 E7.
  split; rewrite ?E1, ?E2, ?E3, ?E4, ?E5, ?E6; done.
Qed.

Lemma timers_set k pd pd1 pd2 pd3 l d mode now : k + 1 < 2 ^ 64 → tinv k pd l →
  tview pd1 = (rseq pd, rt pd, new_deadline ((mode =? mode_r) || (mode =? mode_rw)) d now (rd pd),
    (wseq pd, wt pd, new_deadline ((mode =? mode_w) || (mode =? mode_rw)) d now (wd pd)), false) →
  set_read_timer (rd pd) (combo_of pd) (combo_of pd1) pd1 = Ok pd2 →
  tview pd2 = (rseq pd2, rt pd2, rd pd1, (wseq pd1, wt pd1, wd pd1), closing pd1) →
  set_write_timer (wd pd) (combo_of pd) (combo_of pd2) pd2 = Ok pd3 →
  tview pd3 = (rseq pd2, rt pd2, rd pd2, (wseq pd3, wt pd3, wd pd2), closing pd2) →
  deadlines_set pd pd3 d mode now l.
Proof.
  intros Hk [Hr Hw _] E1 Es2 E2 Es3 E3. unfold rhalf, whalf in *.
  injection E1 as Ers Ert Erd Ews Ewt Ewd Ecl. injection E2 as Erd2 Ews2 Ewt2 Ewd2 Ecl2.
  injection E3 as Ers3 Ert3 Erd3 Ewd3 Ecl3.
  assert (Hr1 : half is_read k (rseq pd1) (rt pd1) (rd pd) (rfun (combo_of pd)) True l) by (by rewrite Ers, Ert).
  destruct (set_read_timer_reset k _ _ pd1 l pd2 Hk Hr1 Es2) as [Rs Rr]. rewrite Ers, Ert in Rs, Rr.
  assert (Hw1 : half is_write k (wseq pd2) (wt pd2) (wd pd) netpollWriteDeadline (combo_of pd = false) l)
    by (by rewrite Ews2, Ewt2, Ews, Ewt).
  pose proof (set_write_timer_reset k _ _ pd2 l pd3 Hk Hw1 Es3) as Ww.
  assert (Ec : combo_of pd2 = combo_of pd1) by (unfold combo_of; congruence).
  assert (Ecm : ∀ x, 0 < x → x = rd pd1 ∨ x = wd pd1 → combo_of pd1 = (rd pd1 =? wd pd1)).
  { intros x Hx Hor. unfold combo_of. rewrite Z.gtb_ltb.
    destruct (Z.eqb_spec (rd pd1) (wd pd1)) as [Eq|]; [|by rewrite andb_false_r].
    rewrite (proj2 (Z.ltb_lt _ _)) by lia. done. }
  (* a write deadline that changed, with one timer for both before or after *)
  assert (Hrw : wd pd1 ≠ wd pd → combo_of pd1 = true ∨ combo_of pd = true →
    rd pd1 ≠ rd pd ∨ combo_of pd1 ≠ combo_of pd).
  { intros Hne Hor. destruct (combo_of pd1) eqn:C1, (combo_of pd) eqn:C0; try (by right); [|by destruct Hor].
    left. unfold combo_of in C1, C0. apply andb_true_iff in C1 as [_ C1%Z.eqb_eq], C0 as [_ C0%Z.eqb_eq]. lia. }
  split; rewrite ?Erd3, ?Ewd3, ?Erd2, ?Ewd2, ?Ers3, ?Ert3.
  - done.
  - done.
  - intros Hne Hpos. destruct (Rr (or_introl Hne)) as (_&Hrt&_). rewrite (Hrt Hpos), (Ecm (rd pd1)) by auto.
    by destruct (rd pd1 =? wd pd1).
  - intros Hne Hpos. pose proof (Ecm _ Hpos ltac:(by right)) as Ecc.
    destruct (Z.eqb_spec (rd pd1) (wd pd1)) as [Eq|Eq].
    + destruct (Rr (Hrw Hne (or_introl Ecc))) as (_&Hrt&_). rewrite Hrt, Ecc by lia. cbn. by rewrite Eq.
    + rewrite <- Ewd2. apply Ww; [by rewrite Ewd2|by rewrite Ewd2|by rewrite Ec].
  - intros Hne Hpos. by destruct (Rr (or_introl Hne)) as (_&_&Hrt); apply Hrt.
  - intros Hne Hpos. apply Ww; by rewrite Ewd2.
  - intros f q Hne Hin Hf. destruct (Rr (or_introl Hne)) as (->&_). by apply (half_fresh _ _ _ _ _ _ _ _ _ _ Hr Hin).
  - intros f q Hne Hin Hf. destruct (is_read f) eqn:Ef.
    + destruct (half_fresh _ _ _ _ _ _ _ _ _ _ Hr Hin Ef) as [Hq Hle]. fold (bumped (rt pd) (rseq pd)) in Hq.
      destruct (combo_of pd) eqn:C0.
      { destruct (Rr (Hrw Hne (or_intror eq_refl))) as (->&_). done. }
      destruct Rs as [->| ->]; [|done]. intros ->.
      pose proof (h_fun _ _ _ _ _ _ _ _ Hr f Hin Ef) as Hg. cbn in Hg. done.
    + assert (Hm : is_write f = true) by (unfold is_write; by rewrite Ef).
      destruct (Ww ltac:(by rewrite Ewd2)) as (->&_). rewrite Ews2, Ewt2, Ews, Ewt.
      by apply (half_fresh _ _ _ _ _ _ _ _ _ _ Hw Hin).
Qed.
Lemma SetDeadline_sets k pd l d mode now o : k + 1 < 2 ^ 64 → tinv k pd l → closing pd = false →
  poll_runtime_pollSetDeadline pd d mode now = Ok o → deadlines_set pd (o_pd o) d mode now l.
Proof.
  intros Hk Hi Hc. unfold poll_runtime_pollSetDeadline. rewrite Hc. cbv zeta. set (pd1 := publishInfo _).
  assert (E1 : tview pd1 = (rseq pd, rt pd, new_deadline ((mode =? mode_r) || (mode =? mode_rw)) d now (rd pd),
    (wseq pd, wt pd, new_deadline ((mode =? mode_w) || (mode =? mode_rw)) d now (wd pd)), false)).
  { unfold pd1. rewrite <- Hc. by destruct ((mode =? mode_r) || _), ((mode =? mode_w) || _). }
  clearbody pd1. pose proof E1 as E1'. injection E1' as Ers Ert Erd Ews Ewt Ewd Ecl.
  destruct (set_read_timer_ok k (rd pd) (combo_of pd) pd1 l Hk) as (pd2&Es2&_&E2).
  { rewrite Ers, Ert. apply Hi. }
  pose proof E2 as E2'. injection E2' as Erd2 Ews2 Ewt2 Ewd2 Ecl2.
  assert (Ec : combo_of pd1 = combo_of pd2) by (unfold combo_of; congruence).
  destruct (set_write_timer_ok k (wd pd) (combo_of pd) pd2 l Hk) as (pd3&Es3&_&E3).
  { rewrite Ews2, Ewt2, Ews, Ewt. apply Hi. }
  rewrite Es2. cbn [mbind res_bind]. rewrite Ec, Es3. cbn [mbind res_bind].
  assert (H3 : deadlines_set pd pd3 d mode now l) by (by eapply timers_set).
  intros E. eapply deadlines_set_view; [|exact H3].
  destruct (rd pd3 <? 0).
  - pose proof (view_unblock pd3 mode_r false 0) as V.
    destruct (netpollunblock pd3 mode_r false 0) as [[pd4 g4] d4]. cbn [fst] in V.
    destruct (wd pd4 <? 0); [|by injection E as <-].
    pose proof (view_unblock pd4 mode_w false d4) as V5.
    destruct (netpollunblock pd4 mode_w false d4) as [[pd5 g5] d5]. cbn [fst] in V5.
    injection E as <-. cbn. congruence.
  - destruct (wd pd3 <? 0); [|by injection E as <-].
    pose proof (view_unblock pd3 mode_w false 0) as V5.
    destruct (netpollunblock pd3 mode_w false 0) as [[pd5 g5] d5]. cbn [fst] in V5.
    injection E as <-. done.
Qed.

(** ** Properties *)
(** A descriptor with both deadlines set to the same time, whose timer fires;
    before the callback runs the read deadline is pushed back. *)
Definition opened : pollDesc := match pollOpen_locked 7 zeroPD with Ok pd => pd | _ => zeroPD end.
Definition outcome_of (r : res outcome) : outcome :=
  match r with Ok o => o | _ => Outcome zeroPD [] 0 end.
Definition set_both : outcome := outcome_of (poll_runtime_pollSetDeadline opened 100 mode_rw 1000).
Definition timer_of (r : option (option tfun * Z * timer)) : timer :=
  match r with Some (_, _, t) => t | None => zeroTimer end.
Definition timer_fired : pollDesc := set_rt (timer_of (runOneTimer (rt (o_pd set_both)))) (o_pd set_both).
Definition pushed_back : outcome :=
  outcome_of (poll_runtime_pollSetDeadline timer_fired 500 mode_r 1000).
Definition stale_sys : tsys := MkT (o_pd pushed_back) [(netpollDeadline, 1)].
Lemma stale_reach : treach 3 stale_sys.
Proof.
  assert (E0 : pollOpen_locked 7 zeroPD = Ok opened) by (vm_compute; reflexivity).
  assert (E1 : poll_runtime_pollSetDeadline opened 100 mode_rw 1000 = Ok set_both)
    by (vm_compute; reflexivity).
  assert (E2 : runOneTimer (rt (o_pd set_both)) =
    Some (Some netpollDeadline, 1, timer_of (runOneTimer (rt (o_pd set_both)))))
    by (vm_compute; reflexivity).
  assert (E3 : poll_runtime_pollSetDeadline timer_fired 500 mode_r 1000 = Ok pushed_back)
    by (vm_compute; reflexivity).
  pose proof (treach_open 7 opened E0) as H0.
  pose proof (treach_step 0 _ _ H0 (TSetDeadline (MkT opened []) 100 mode_rw 1000 set_both E1)) as H1.
  pose proof (treach_step 1 _ _ H1 (TFireRead (MkT (o_pd set_both) []) netpollDeadline 1 _ E2)) as H2.
  exact (treach_step 2 _ _ H2
    (TSetDeadline (MkT timer_fired [(netpollDeadline, 1)]) 500 mode_r 1000 pushed_back E3)).
Defined.
(** Closing a descriptor: no timer is left, and no callback on its way counts. *)
Lemma Unblock_stops k pd l o : k + 1 < 2 ^ 64 → tinv k pd l → closing pd = false →
  poll_runtime_pollUnblock pd = Ok o →
  closing (o_pd o) = true ∧ t_armed (rt (o_pd o)) = false ∧ t_armed (wt (o_pd o)) = false ∧
  ∀ f q, (f, q) ∈ l → q ≠ (if is_read f then rseq (o_pd o) else wseq (o_pd o)).
Proof.
  intros Hk [Hr Hw _] Hc. unfold poll_runtime_pollUnblock. rewrite Hc. cbv zeta.
  set (pd1 := publishInfo _).
  pose proof (h_seq _ _ _ _ _ _ _ _ Hr) as Hrs. pose proof (h_seq _ _ _ _ _ _ _ _ Hw) as Hws.
  assert (E1 : tview pd1 = (rseq pd + 1, rt pd, rd pd, (wseq pd + 1, wt pd, wd pd), true)).
  { unfold tview, pd1. cbn [publishInfo set_info set_wseq set_rseq set_closing rseq rt rd wseq wt wd closing].
    by rewrite !(u64_next _ k) by done. }
  clearbody pd1. pose proof (view_unblock pd1 mode_r false 0) as V.
  destruct (netpollunblock pd1 mode_r false 0) as [[pd2 g2] d2]. cbn [fst] in V.
  pose proof (view_unblock pd2 mode_w false d2) as V2.
  destruct (netpollunblock pd2 mode_w false d2) as [[pd3 g3] d3]. cbn [fst] in V2.
  rewrite V, E1 in V2. injection V2 as Ers Ert Erd Ews Ewt Ewd Ecl. intros [= <-].
  cbn [o_pd set_wt set_rt rseq rt rd wseq wt wd closing]. rewrite Ers, Ews, Ert, Ewt. split; [done|].
  split; [apply (drop_timer_rest _ _ _ _ _ _ _ _ Hr)|]. split; [apply (drop_timer_rest _ _ _ _ _ _ _ _ Hw)|].
  intros f q Hin. destruct (is_read f) eqn:Ef.
  - destruct (half_fresh _ _ _ _ _ _ _ _ _ _ Hr Hin Ef). lia.
  - assert (Hm : is_write f = true) by (unfold is_write; by rewrite Ef).
    destruct (half_fresh _ _ _ _ _ _ _ _ _ _ Hw Hin Hm). lia.
Qed.
(** A callback: a stale one changes nothing, a current one expires the
    deadlines it is for. *)
Lemma callback_runs k pd l f seq : tinv k pd l → (f, seq) ∈ l →
  let cur := if is_read f then rseq pd else wseq pd in
  ∃ o, run_tfun f pd seq = Ok o ∧
    (seq ≠ cur → o_pd o = pd) ∧
    (seq = cur → is_read f = true → rd (o_pd o) = -1) ∧
    (seq = cur → f ≠ netpollReadDeadline → wd (o_pd o) = -1).
Proof.
  intros Hi (l1&l2&El)%list_elem_of_split cur. rewrite El in Hi.
  unfold cur. destruct f; cbn [is_read run_tfun].
  - destruct (read_callback_ok _ _ _ _ seq true Hi) as (o&E&_&H1&H2). exists o.
    split; [done|]. split; [done|]. split; intros Es _; destruct (H1 Es) as [H3 H4]; auto.
  - destruct (read_callback_ok _ _ _ _ seq false Hi) as (o&E&_&H1&H2). exists o.
    split; [done|]. split; [done|]. split; intros Es; [by destruct (H1 Es)|by intros []].
  - destruct (write_callback_ok _ _ _ _ seq Hi) as (o&E&_&H1&H2). exists o.
    split; [done|]. split; [done|]. split; intros Es; [done|auto].
Qed.

(** C12: However deadlines are set, timers fire late, and the descriptor is
    closed and reused (fewer than 2^64 - 2 times in all): nothing of it panics.
    Setting a deadline sets what was asked for and leaves a timer for each one
    that changed, a single one where both are the same time; after it, and after
    closing, a callback of an earlier deadline that is still on its way finds a
    sequence number that is not its own, and such a callback changes nothing,
    while a current one expires the deadlines it is for. *)
Theorem deadlines_sound k s : Z.of_nat k + 2 < 2 ^ 64 → treach k s →
  let pd := ts_pd s in
  (∀ d mode now, ∃ o, poll_runtime_pollSetDeadline pd d mode now = Ok o ∧
     if closing pd then o_pd o = pd else deadlines_set pd (o_pd o) d mode now (fired s)) ∧
  (closing pd = false → ∃ o, poll_runtime_pollUnblock pd = Ok o ∧
     closing (o_pd o) = true ∧ t_armed (rt (o_pd o)) = false ∧ t_armed (wt (o_pd o)) = false ∧
     ∀ f q, (f, q) ∈ fired s → q ≠ (if is_read f then rseq (o_pd o) else wseq (o_pd o))) ∧
  (∀ f q, (f, q) ∈ fired s →
     let cur := if is_read f then rseq pd else wseq pd in
     ∃ o, run_tfun f pd q = Ok o ∧
       (q ≠ cur → o_pd o = pd) ∧
       (q = cur → is_read f = true → rd (o_pd o) = -1) ∧
       (q = cur → f ≠ netpollReadDeadline → wd (o_pd o) = -1)).
Proof.
  intros Hk Hr pd. pose proof (treach_inv k s ltac:(lia) Hr) as Hi. split; [|split].
  - intros d mode now.
    destruct (SetDeadline_ok (Z.of_nat k + 1) _ _ d mode now ltac:(lia) Hi) as (o&E&_). exists o. split; [done|].
    destruct (closing pd) eqn:Hc; [|by eapply (SetDeadline_sets (Z.of_nat k + 1)); [lia|..]].
    unfold poll_runtime_pollSetDeadline in E. fold pd in E. rewrite Hc in E. by injection E as <-.
  - intros Hc. destruct (Unblock_ok (Z.of_nat k + 1) _ _ ltac:(lia) Hi Hc) as (o&E&_). exists o.
    split; [done|]. by eapply (Unblock_stops (Z.of_nat k + 1)); [lia|..].
  - intros f q Hin. by eapply callback_runs.
Qed.
Lemma deadlines_sound_witness :
  rd (ts_pd stale_sys) = 1500 ∧ wd (ts_pd stale_sys) = 1100 ∧
  rt (ts_pd stale_sys) = MkTimer (Some netpollReadDeadline) 2 1500 true ∧
  ∃ o, run_tfun netpollDeadline (ts_pd stale_sys) 1 = Ok o ∧ o_pd o = ts_pd stale_sys.
Proof.
  split; [vm_compute; reflexivity|]. split; [vm_compute; reflexivity|]. split; [vm_compute; reflexivity|].
  destruct (deadlines_sound 3 stale_sys ltac:(lia) stale_reach) as (_&_&H).
  destruct (H netpollDeadline 1 ltac:(apply list_elem_of_singleton; reflexivity)) as (o&E&H1&_).
  exists o. split; [exact E|]. apply H1. vm_compute. discriminate.
Defined.
