(* ===== verification/NetpollWait.v ===== *)
(** * runtime/netpoll.go: waiting, waking and changing a descriptor, interleaved

    Any number of threads work on one descriptor: goroutines that wait for it
    (pollWait, netpollblock, netpollblockcommit) or reset it, pollers that
    deliver events without the lock (netpoll, netpollready), and threads that
    change it under [pd.lock] and then wake its waiters (pollSetDeadline,
    pollUnblock, netpolldeadlineimpl).  A step of a thread is one atomic
    operation of the source (a load, a compare-and-swap, a swap, an addition);
    what a thread does to fields only the lock's holder may touch is one step
    with its taking the lock.

    At most one goroutine waits or resets in a given mode: internal/poll's
    fdMutex sees to it (FdMutexProps.mutual_exclusion). *)
From S2P Require Import Prelude Threads Netpoll.

Definition option_list {A} (o : option A) : list A := match o with Some x => [x] | None => [] end.

(** ** Modes *)
Inductive dir : Set := R | W.
#[global] Instance dir_eq_dec : EqDecision dir.
Proof. solve_decision. Defined.
Definition mode_of (m : dir) : Z := match m with R => mode_r | W => mode_w end.
Definition sema (m : dir) (pd : pollDesc) : gstate := gpp (mode_of m) pd.
Definition set_sema (m : dir) (x : gstate) (pd : pollDesc) : pollDesc := set_gpp (mode_of m) x pd.
Definition checkerr (m : dir) (pd : pollDesc) : Z := netpollcheckerr (atomicInfo pd) (mode_of m).

(** ** What a thread that wakes others has left to do

    Each instruction carries the value its loop has loaded, if any. *)
Inductive instr : Set :=
| IPublish (x : option Z)                                  (* publishInfo *)
| IUnblock (m : dir) (ioready : bool) (old : option gstate) (* netpollunblock *)
| IEventErr (b : bool) (seq : Z) (x : option Z)            (* setEventErr *)
| IWriteDeadline (read : bool).    (* the write half of netpolldeadlineimpl *)

#[global] Instance instr_eq_dec : EqDecision instr.
Proof. solve_decision. Defined.

(** What one step of an instruction leaves: the instruction, when it is not
    done; the goroutine to wake and the adjustment of netpollWaiters. *)
Inductive iturn : Set :=
| ITurn (pd : pollDesc) (again : option instr) (g : option nat) (delta : Z)
| IPanic (msg : emsg).
Definition isdone (pd : pollDesc) : iturn := ITurn pd None None 0.
Definition instr_turn (i : instr) (pd : pollDesc) : iturn :=
  match i with
  | IPublish None => ITurn pd (Some (IPublish (Some (atomicInfo pd)))) None 0
  | IPublish (Some x) =>
      if atomicInfo pd =? x then isdone (set_info (publish_word x (publish_bits pd)) pd)
      else ITurn pd (Some (IPublish None)) None 0
  | IUnblock m ioready None =>
      let old := sema m pd in
      match unblock_turn old ioready with
      | None => isdone pd
      | Some _ => ITurn pd (Some (IUnblock m ioready (Some old))) None 0
      end
  | IUnblock m ioready (Some old) =>
      if decide (sema m pd = old) then
        match unblock_turn old ioready with
        | None => isdone pd           (* not reached: the loop would have ended *)
        | Some new => let '(g, d) := unblocked old in ITurn (set_sema m new pd) None g d
        end
      else ITurn pd (Some (IUnblock m ioready None)) None 0
  | IEventErr b seq None =>
      let x := atomicInfo pd in
      let xSeq := Z.land (Z.shiftr x pollFDSeq) pollFDSeqMask in
      if negb (seq =? 0) && negb (xSeq =? u32 (Z.land seq pollFDSeqMask)) then isdone pd
      else if Bool.eqb (negb (Z.land x pollEventErr =? 0)) b then isdone pd
      else ITurn pd (Some (IEventErr b seq (Some x))) None 0
  | IEventErr b seq (Some x) =>
      if atomicInfo pd =? x then isdone (set_info (Z.lxor x pollEventErr) pd)
      else ITurn pd (Some (IEventErr b seq None)) None 0
  | IWriteDeadline read =>
      let wnil := match t_f (wt pd) with None => true | Some _ => false end in
      if (wd pd <=? 0) || wnil && negb read then
        IPanic [Lit "runtime: inconsistent write deadline"%go]
      else isdone (set_wd (-1) pd)
  end.

(** ** Operations that wake *)
Inductive lockop : Set :=
| OpDeadline (d mode now : Z)          (* poll_runtime_pollSetDeadline *)
| OpUnblock                            (* poll_runtime_pollUnblock *)
| OpTimer (seq : Z) (read write : bool). (* netpolldeadlineimpl *)

#[global] Instance lockop_eq_dec : EqDecision lockop.
Proof. solve_decision. Defined.

Definition unblocks (m : dir) (b : bool) : list instr := if b then [IUnblock m false None] else [].
(** What the operation does to the fields under the lock, and what it has left
    to do before it releases it.  The timers, which only the lock's holder
    touches, are set here too. *)
Definition lock_body (op : lockop) (pd : pollDesc) : res (pollDesc * list instr) :=
  match op with
  | OpDeadline d mode now =>
      if closing pd then Ok (pd, [])
      else
        let rd0 := rd pd in
        let wd0 := wd pd in
        let combo0 := combo_of pd in
        let d := deadline_of d now in
        let pd := if (mode =? mode_r) || (mode =? mode_rw) then set_rd d pd else pd in
        let pd := if (mode =? mode_w) || (mode =? mode_rw) then set_wd d pd else pd in
        let combo := combo_of pd in
        pd ← set_read_timer rd0 combo0 combo pd;
        pd ← set_write_timer wd0 combo0 combo pd;
        Ok (pd, IPublish None :: unblocks R (rd pd <? 0) ++ unblocks W (wd pd <? 0))
  | OpUnblock =>
      if closing pd then Panic [Lit "runtime: unblock on closing polldesc"%go]
      else
        let pd := set_closing true pd in
        let pd := set_rseq (u64 (rseq pd + 1)) pd in
        let pd := set_wseq (u64 (wseq pd + 1)) pd in
        let pd := set_rt (drop_timer (rt pd)) pd in
        let pd := set_wt (drop_timer (wt pd)) pd in
        Ok (pd, IPublish None :: unblocks R true ++ unblocks W true)
  | OpTimer seq read write =>
      let currentSeq := if negb read then wseq pd else rseq pd in
      if negb (seq =? currentSeq) then Ok (pd, [])
      else if read then
        let rnil := match t_f (rt pd) with None => true | Some _ => false end in
        if (rd pd <=? 0) || rnil then Panic [Lit "runtime: inconsistent read deadline"%go]
        else
          Ok (set_rd (-1) pd,
              IPublish None :: unblocks R true ++
              if write then IWriteDeadline read :: IPublish None :: unblocks W true else [])
      else
        Ok (pd, if write then IWriteDeadline read :: IPublish None :: unblocks W true else [])
  end.
(** An event: the tag is compared, then the error bit set and the modes
    unblocked, without the lock. *)
Definition event_body (events tag : Z) (pd : pollDesc) : list instr :=
  let mode := event_mode events in
  if (events =? 0) || (mode =? 0) || negb (fdseq pd =? tag) then []
  else IEventErr (events =? EPOLLERR) tag None ::
       (if (mode =? mode_r) || (mode =? mode_rw) then [IUnblock R true None] else []) ++
       (if (mode =? mode_w) || (mode =? mode_rw) then [IUnblock W true None] else []).

(** ** Threads *)
Inductive pc : Set :=
| Idle
| Ret (errcode : Z)                   (* pollWait or pollReset has returned *)
(* poll_runtime_pollReset *)
| ResetCheck (m : dir) | ResetStore (m : dir)
(* poll_runtime_pollWait and netpollblock *)
| WaitCheck (m : dir)                 (* pollWait's first netpollcheckerr *)
| BlockReady (m : dir)                (* CompareAndSwap(pdReady, pdNil) *)
| BlockWait (m : dir)                 (* CompareAndSwap(pdNil, pdWait) *)
| BlockVerify (m : dir)               (* the check for a double wait *)
| BlockCheck (m : dir)                (* netpollcheckerr, after pdWait is set *)
| BlockCommit (m : dir)               (* gopark: netpollblockcommit's CAS *)
| Parked (m : dir)
| BlockSwap (m : dir)                 (* Swap(pdNil) *)
| WaitRecheck (m : dir)               (* netpollcheckerr in pollWait's loop *)
(* the operations that wake *)
| Locking (op : lockop)
| Polling (events tag : Z)
| Run (locked : bool) (l : list instr) (ready : list nat) (delta : Z)
| Wake (ready : list nat) (delta : Z). (* goready each, then netpollAdjustWaiters *)

#[global] Instance pc_eq_dec : EqDecision pc.
Proof. solve_decision. Defined.

(** A step: the thread has to wait, the runtime throws, or it goes on. *)
Inductive moved (A : Type) : Type := Blocked | Throw (msg : emsg) | Next (a : A).
Arguments Blocked {A}.
Arguments Throw {A} msg.
Arguments Next {A} a.

(** One step of a goroutine [g] that waits or resets: the descriptor, its next
    point, and what it adds to netpollWaiters later (netpollblockcommit runs on
    the system stack, and by the time it counts the goroutine the goroutine may
    already run again). *)
Definition wait_turn (g : nat) (p : pc) (pd : pollDesc) : moved (pollDesc * pc * Z) :=
  match p with
  | ResetCheck m =>
      let e := checkerr m pd in
      Next (pd, if negb (e =? pollNoError) then Ret e else ResetStore m, 0)
  | ResetStore m => Next (set_sema m pdNil pd, Ret pollNoError, 0)
  | WaitCheck m | WaitRecheck m =>
      let e := checkerr m pd in
      Next (pd, if negb (e =? pollNoError) then Ret e else BlockReady m, 0)
  | BlockReady m =>
      if decide (sema m pd = pdReady) then Next (set_sema m pdNil pd, Ret pollNoError, 0)
      else Next (pd, BlockWait m, 0)
  | BlockWait m =>
      if decide (sema m pd = pdNil) then Next (set_sema m pdWait pd, BlockCheck m, 0)
      else Next (pd, BlockVerify m, 0)
  | BlockVerify m =>
      let v := sema m pd in
      if bool_decide (v ≠ pdReady) && bool_decide (v ≠ pdNil)
      then Throw [Lit "runtime: double wait"%go] else Next (pd, BlockReady m, 0)
  | BlockCheck m =>
      Next (pd, if checkerr m pd =? pollNoError then BlockCommit m else BlockSwap m, 0)
  | BlockCommit m =>
      if decide (sema m pd = pdWait) then Next (set_sema m (G g) pd, Parked m, 1)
      else Next (pd, BlockSwap m, 0)
  | BlockSwap m =>
      match sema m pd with
      | G _ => Throw [Lit "runtime: corrupted polldesc"%go]
      | pdReady => Next (set_sema m pdNil pd, Ret pollNoError, 0)
      | _ => Next (set_sema m pdNil pd, WaitRecheck m, 0)
      end
  | _ => Blocked
  end.

(** ** The system *)
Record sys : Set := MkSys
  { pd : pollDesc;
    locked : bool;                    (* pd.lock *)
    netpollWaiters : Z;
    commits : Z;                      (* netpollblockcommit's additions to come *)
    pcs : list pc }.

Inductive op : Set :=
| OWait (m : dir) | OReset (m : dir) | OLock (op : lockop) | OEvent (events tag : Z).
(** A move: an idle thread starts an operation, a thread takes a step, or a
    committed goroutine is counted. *)
Inductive move : Set := Begin (i : nat) (o : op) | Tick (i : nat) | Count.

(** The thread is waiting or resetting in mode [m]. *)
Definition in_mode (m : dir) (p : pc) : bool :=
  match p with
  | ResetCheck m' | ResetStore m' | WaitCheck m' | BlockReady m' | BlockWait m' | BlockVerify m'
  | BlockCheck m' | BlockCommit m' | Parked m' | BlockSwap m' | WaitRecheck m' =>
      bool_decide (m = m')
  | _ => false
  end.
Definition mode_free (m : dir) (l : list pc) : bool := forallb (λ p, negb (in_mode m p)) l.

Definition set_pc (i : nat) (p : pc) (s : sys) : sys :=
  MkSys (pd s) (locked s) (netpollWaiters s) (commits s) (<[i := p]> (pcs s)).

Definition begin_op (i : nat) (o : op) (s : sys) : moved sys :=
  match o with
  | OWait m => if mode_free m (pcs s) then Next (set_pc i (WaitCheck m) s) else Blocked
  | OReset m => if mode_free m (pcs s) then Next (set_pc i (ResetCheck m) s) else Blocked
  | OLock op => Next (set_pc i (Locking op) s)
  | OEvent events tag => Next (set_pc i (Polling events tag) s)
  end.

Definition tick (i : nat) (p : pc) (s : sys) : moved sys :=
  match p with
  | Locking op =>
      if locked s then Blocked
      else
        match lock_body op (pd s) with
        | Ok (pd', l) =>
            Next (MkSys pd' true (netpollWaiters s) (commits s) (<[i := Run true l [] 0]> (pcs s)))
        | Panic msg => Throw msg
        | Err _ => Blocked             (* it returns no error *)
        end
  | Polling events tag => Next (set_pc i (Run false (event_body events tag (pd s)) [] 0) s)
  | Run held [] ready delta =>
      Next (MkSys (pd s) (if held then false else locked s) (netpollWaiters s) (commits s)
                  (<[i := Wake ready delta]> (pcs s)))
  | Run held (ins :: l) ready delta =>
      match instr_turn ins (pd s) with
      | IPanic msg => Throw msg
      | ITurn pd' again g d =>
          Next (MkSys pd' (locked s) (netpollWaiters s) (commits s)
                  (<[i := Run held (option_list again ++ l) (ready ++ option_list g) (delta + d)]>
                     (pcs s)))
      end
  | Wake (g :: ready) delta =>
      match pcs s !! g with
      | Some (Parked m) => Next (set_pc i (Wake ready delta) (set_pc g (BlockSwap m) s))
      | _ => Throw [Lit "bad g->status in ready"%go]
      end
  | Wake [] delta =>
      Next (MkSys (pd s) (locked s) (u32 (netpollWaiters s + delta)) (commits s)
                  (<[i := Idle]> (pcs s)))
  | _ =>
      match wait_turn i p (pd s) with
      | Next (pd', p', c) =>
          Next (MkSys pd' (locked s) (netpollWaiters s) (commits s + c) (<[i := p']> (pcs s)))
      | Throw msg => Throw msg
      | Blocked => Blocked
      end
  end.

Definition exec (mv : move) (s : sys) : moved sys :=
  match mv with
  | Begin i o =>
      match pcs s !! i with
      | Some Idle | Some (Ret _) => begin_op i o s
      | _ => Blocked
      end
  | Tick i => match pcs s !! i with Some p => tick i p s | None => Blocked end
  | Count =>
      if 0 <? commits s
      then Next (MkSys (pd s) (locked s) (u32 (netpollWaiters s + 1)) (commits s - 1) (pcs s))
      else Blocked
  end.
Fixpoint run (mvs : list move) (s : sys) : moved sys :=
  match mvs with
  | [] => Next s
  | mv :: mvs => match exec mv s with Next s' => run mvs s' | o => o end
  end.
(** From an open descriptor and [n] idle threads. *)
Definition init (pd : pollDesc) (n : nat) : sys := MkSys pd false 0 0 (replicate n Idle).
Inductive reach (pd0 : pollDesc) (n : nat) : sys → Prop :=
| reach_init : reach pd0 n (init pd0 n)
| reach_exec mv s s' : reach pd0 n s → exec mv s = Next s' → reach pd0 n s'.
Definition opened (pd : pollDesc) : Prop := ∃ fd pd0, pollOpen_locked fd pd0 = Ok pd.
