(* ===== verification/NetpollWaitInv.v ===== *)
(** * runtime/netpoll.go: the invariant of the interleaved poller

    Who may have put which value in a semaphore, who owes whom a wake-up, and
    how the published summary relates to the fields it stands for. *)
From S2P Require Import Prelude Threads Netpoll NetpollProps NetpollWait.

(** ** What the fields and the summary say of a mode *)
Definition field_err (m : dir) (pd : pollDesc) : bool :=
  closing pd || match m with R => rd pd <? 0 | W => wd pd <? 0 end.
Definition info_err (m : dir) (pd : pollDesc) : bool :=
  info_closing (atomicInfo pd) ||
  match m with
  | R => info_expiredReadDeadline (atomicInfo pd)
  | W => info_expiredWriteDeadline (atomicInfo pd)
  end.
Definition synced (pd : pollDesc) : Prop := ∀ m, info_err m pd = field_err m pd.

(** The lock's holder still has to wake the waiter of mode [m]. *)
Definition owed (m : dir) (l : list instr) : bool :=
  existsb (λ i, match i with IUnblock m' false _ => bool_decide (m = m') | _ => false end) l.
(** A deadline is expired only to be published and its waiter woken. *)
Fixpoint wf_crit (l : list instr) : bool :=
  match l with
  | [] => true
  | IWriteDeadline _ :: l' =>
      match l' with IPublish _ :: l'' => owed W l'' | _ => false end && wf_crit l'
  | _ :: l' => wf_crit l'
  end.
Definition crit_ok (l : list instr) (pd : pollDesc) : Prop :=
  wf_crit l = true ∧
  (synced pd ∨ ∃ x l', l = IPublish x :: l' ∧
    ∀ m, field_err m pd = true → info_err m pd = true ∨ owed m l' = true).
(** A poller only delivers readiness and event errors. *)
Definition poller_instr (i : instr) : bool :=
  match i with IUnblock _ true _ | IEventErr _ _ _ => true | _ => false end.

(** ** What a thread counts for *)
Definition waiting (m : dir) (p : pc) : Z := Z.b2z (in_mode m p).
Definition holds (p : pc) : Z := match p with Run true _ _ _ => 1 | _ => 0 end.
Definition pending (p : pc) : list nat :=
  match p with Run _ _ r _ => r | Wake r _ => r | _ => [] end.
Definition wakes (g : nat) (p : pc) : Z := total (λ x, Z.b2z (bool_decide (x = g))) (pending p).
Definition delta_of (p : pc) : Z := match p with Run _ _ _ d => d | Wake _ d => d | _ => 0 end.
Definition parked (p : option pc) : Z := match p with Some (Parked _) => 1 | _ => 0 end.
Definition isG (x : gstate) : Z := match x with G _ => 1 | _ => 0 end.
Definition isg (g : nat) (x : gstate) : Z := Z.b2z (bool_decide (x = G g)).
Definition may_wait (m : dir) (p : pc) : Prop := p = BlockCheck m ∨ p = BlockCommit m ∨ p = BlockSwap m.

(** The value of mode [m]'s semaphore has an owner. *)
Definition sema_ok (m : dir) (s : sys) : Prop :=
  match sema m (pd s) with
  | pdWait => ∃ i p, pcs s !! i = Some p ∧ may_wait m p
  | G g => pcs s !! g = Some (Parked m)
  | _ => True
  end.
(** The semaphore holds a goroutine, or is about to although the summary already
    tells an error: somebody is on the way to take it out. *)
Definition blocked_in (m : dir) (s : sys) : Prop :=
  isG (sema m (pd s)) = 1 ∨
  sema m (pd s) = pdWait ∧ ∃ i, pcs s !! i = Some (BlockCommit m).

Record inv (s : sys) : Prop :=
  { inv_mode m : total (waiting m) (pcs s) <= 1;
    inv_sema m : sema_ok m s;
    inv_wake g : total (wakes g) (pcs s) + isg g (sema R (pd s)) + isg g (sema W (pd s))
                 = parked (pcs s !! g);
    inv_count : netpollWaiters s =
      u32 (isG (sema R (pd s)) + isG (sema W (pd s)) - commits s - total delta_of (pcs s));
    inv_lock : total holds (pcs s) = Z.b2z (locked s);
    inv_sync : locked s = false → synced (pd s);
    inv_crit i l r d : pcs s !! i = Some (Run true l r d) → crit_ok l (pd s);
    inv_poll i l r d : pcs s !! i = Some (Run false l r d) → forallb poller_instr l = true;
    inv_owed m : info_err m (pd s) = true → blocked_in m s →
      ∃ j l r d, pcs s !! j = Some (Run true l r d) ∧ owed m l = true }.

(** ** Semaphores and the other fields *)
Lemma sema_set m m' x pd : sema m (set_sema m' x pd) = if decide (m = m') then x else sema m pd.
Proof. by destruct m, m'. Qed.
Lemma sema_set_eq m x pd : sema m (set_sema m x pd) = x.
Proof. by destruct m. Qed.
Lemma set_sema_field m m' x pd : field_err m (set_sema m' x pd) = field_err m pd.
Proof. by destruct m'. Qed.
Lemma set_sema_info m m' x pd : info_err m (set_sema m' x pd) = info_err m pd.
Proof. by destruct m'. Qed.
Lemma set_sema_synced m x pd : synced (set_sema m x pd) ↔ synced pd.
Proof. unfold synced. by setoid_rewrite set_sema_info; setoid_rewrite set_sema_field. Qed.
Lemma set_sema_crit l m x pd : crit_ok l (set_sema m x pd) ↔ crit_ok l pd.
Proof.
  unfold crit_ok. rewrite set_sema_synced.
  by setoid_rewrite set_sema_info; setoid_rewrite set_sema_field.
Qed.
Lemma checkerr_info m pd : checkerr m pd = pollNoError → info_err m pd = false.
Proof.
  unfold checkerr, netpollcheckerr, info_err. destruct (info_closing _); [done|].
  destruct m; cbn [mode_of]; [|rewrite andb_false_l, andb_false_l];
    change (mode_r =? mode_r) with true; change (mode_w =? mode_w) with true;
    change (mode_r =? mode_w) with false; cbn [andb orb].
  - rewrite orb_false_r. by destruct (info_expiredReadDeadline _).
  - by destruct (info_expiredWriteDeadline _).
Qed.
Lemma publish_synced pd :
  synced (set_info (publish_word (atomicInfo pd) (publish_bits pd)) pd).
Proof.
  destruct (publish_info pd) as (A&_&B&C). intros m. unfold info_err, field_err.
  change (set_info _ pd) with (publishInfo pd). rewrite A. by destruct m; rewrite ?B, ?C.
Qed.
Lemma lxor_eventErr_info m pd : info_err m (set_info (Z.lxor (atomicInfo pd) pollEventErr) pd) = info_err m pd.
Proof.
  unfold info_err. cbn [set_info atomicInfo].
  destruct (info_bits (Z.lxor (atomicInfo pd) pollEventErr)) as (->&_&->&->).
  destruct (info_bits (atomicInfo pd)) as (->&_&->&->).
  rewrite !Z.lxor_spec. unfold pollEventErr. rewrite !bit_testbit by lia.
  simpl. by rewrite !xorb_false_r.
Qed.

(** ** One waiter per mode *)
Lemma in_mode_unique s m i j p q : inv s → pcs s !! i = Some p → pcs s !! j = Some q →
  in_mode m p = true → in_mode m q = true → i = j.
Proof.
  intros Hs Hi Hj Hp Hq. destruct (decide (i = j)) as [|Hij]; [done|].
  pose proof (total_two (waiting m) (pcs s) i j p q ltac:(intros; apply b2z_01) Hi Hj Hij) as H.
  pose proof (inv_mode _ Hs m). unfold waiting in *. rewrite Hp, Hq in H. simpl in H. lia.
Qed.
Lemma may_wait_mode m p : may_wait m p → in_mode m p = true.
Proof. intros [->|[->| ->]]; cbn; by apply bool_decide_eq_true. Qed.
Lemma in_mode_parked m : in_mode m (Parked m) = true.
Proof. by apply bool_decide_eq_true. Qed.
(** When a thread in mode [m] is not parked, the semaphore holds no goroutine;
    when it holds [pdWait], the thread is one that may have put it there. *)
Lemma sema_of s m i p : inv s → pcs s !! i = Some p → in_mode m p = true →
  (∀ g, sema m (pd s) = G g → g = i ∧ p = Parked m) ∧ (sema m (pd s) = pdWait → may_wait m p).
Proof.
  intros Hs Hi Hp. pose proof (inv_sema _ Hs m) as Ho. unfold sema_ok in Ho.
  split; [intros g E|intros E]; rewrite E in Ho.
  - assert (g = i) as -> by (eapply in_mode_unique; [done..| apply in_mode_parked|done]).
    rewrite Hi in Ho. by simplify_eq.
  - destruct Ho as (j&q&Hj&Hq). assert (j = i) as ->
      by (eapply in_mode_unique; [done..| by apply may_wait_mode|done]).
    rewrite Hi in Hj. by simplify_eq.
Qed.
Lemma isG_no x : (∀ g, x ≠ G g) → isG x = 0 ∧ ∀ g, isg g x = 0.
Proof.
  intros H. split; [by destruct x; try done; edestruct H|].
  intros g. unfold isg. by rewrite bool_decide_eq_false_2.
Qed.
Lemma holds_nonneg p : 0 <= holds p.
Proof. unfold holds. by repeat case_match. Qed.
Lemma mode_free_total m l : mode_free m l = true → total (waiting m) l = 0.
Proof.
  unfold mode_free. rewrite forallb_forall. intros H. apply total_zero. intros i p Hi.
  unfold waiting. specialize (H p). rewrite <- list_elem_of_In in H.
  rewrite (negb_true_iff (in_mode m p)) in H. rewrite H; [done|]. by eapply list_elem_of_lookup_2.
Qed.

(** ** Steps that change only the caller's point

    [plain p]: the thread owes nothing and holds nothing. *)
Definition plain (p : pc) : Prop := ∀ g, wakes g p = 0 ∧ delta_of p = 0 ∧ holds p = 0.
Definition is_run (p : pc) : bool := match p with Run _ _ _ _ => true | _ => false end.
Lemma plain_wait m p : in_mode m p = true → plain p ∧ is_run p = false.
Proof. by destruct p. Qed.
(** Another thread's point is the same after a step of thread [i]. *)
Lemma lookup_other i (p : pc) (l : list pc) j q : <[i := p]> l !! j = Some q → q ≠ p → l !! j = Some q.
Proof.
  intros H Hn. destruct (decide (i = j)) as [<-|Hij].
  - apply list_lookup_insert_Some in H as [(_&?&_)|[? _]]; [by subst|done].
  - by rewrite list_lookup_insert_ne in H.
Qed.
Lemma lookup_insert_ne i (p : pc) (l : list pc) j q : l !! j = Some q → l !! i ≠ Some q → <[i := p]> l !! j = Some q.
Proof. intros H Hn. rewrite list_lookup_insert_ne; [done|]. by intros ->. Qed.
Lemma total_same (f : pc → Z) l i p p' : l !! i = Some p → f p' = f p →
  total f (<[i := p']> l) = total f l.
Proof. intros Hi E. rewrite (total_insert f l i p p' Hi). lia. Qed.

Section Moves.
Context (s : sys) (Hs : inv s) (i : nat) (p p' : pc) (Hi : pcs s !! i = Some p).

Lemma parked_same (H : ∀ m, p ≠ Parked m) (H' : ∀ m, p' ≠ Parked m) g :
  parked (<[i := p']> (pcs s) !! g) = parked (pcs s !! g).
Proof.
  destruct (decide (i = g)) as [<-|Hn].
  - rewrite list_lookup_insert_eq by (by eapply lookup_lt_Some). rewrite Hi.
    destruct p, p'; try done; exfalso; naive_solver.
  - by rewrite list_lookup_insert_ne.
Qed.

(** A thread that neither holds the lock nor owes anything, before and after,
    moves; the descriptor is changed at most in a semaphore. *)
Section Plain.
Context (Hp : plain p) (Hr : is_run p = false) (Hp' : plain p') (Hr' : is_run p' = false)
  (Hm : ∀ m, total (waiting m) (<[i := p']> (pcs s)) <= 1).
Let s' (pd' : pollDesc) (c : Z) : sys :=
  MkSys pd' (locked s) (netpollWaiters s) (commits s + c) (<[i := p']> (pcs s)).

Lemma run_same j l h r d : <[i := p']> (pcs s) !! j = Some (Run h l r d) ↔ pcs s !! j = Some (Run h l r d).
Proof.
  split; intros H.
  - eapply lookup_other; [done|]. intros <-. done.
  - apply lookup_insert_ne; [done|]. rewrite Hi. intros [= ->]. done.
Qed.
(** No semaphore gains or loses a goroutine. *)
Lemma plain_move pd' :
  (∀ m, p ≠ Parked m) → (∀ m, p' ≠ Parked m) →
  (∀ m, sema m pd' = sema m (pd s) ∨ isG (sema m (pd s)) = 0 ∧ (∀ g, isg g (sema m (pd s)) = 0) ∧
        isG (sema m pd') = 0 ∧ (∀ g, isg g (sema m pd') = 0)) →
  (∀ m, info_err m pd' = info_err m (pd s)) → (∀ m, field_err m pd' = field_err m (pd s)) →
  (∀ m, sema m pd' = pdWait → may_wait m p' ∨ sema m (pd s) = pdWait ∧ ¬ may_wait m p) →
  (∀ m, p' = BlockCommit m → info_err m (pd s) = false) →
  inv (s' pd' 0).
Proof.
  intros Hk Hk' He Hinf Hfld Hw Hc.
  assert (HG : ∀ m, isG (sema m pd') = isG (sema m (pd s)) ∧
            ∀ g, isg g (sema m pd') = isg g (sema m (pd s))).
  { intros m. destruct (He m) as [->|(A&B&C&D)]; [done|]. split; [congruence|]. intros g. by rewrite B, D. }
  assert (Hsy : synced pd' ↔ synced (pd s)) by (unfold synced; by setoid_rewrite Hinf; setoid_rewrite Hfld).
  split; cbn [s' pd locked netpollWaiters commits pcs].
  - done.
  - intros m. unfold sema_ok. cbn [s' pd pcs]. destruct (sema m pd') as [| | |g] eqn:E; try done.
    + destruct (Hw m E) as [Hw'|[Hw1 Hw2]].
      * exists i, p'. split; [|done]. apply list_lookup_insert_eq. by eapply lookup_lt_Some.
      * pose proof (inv_sema _ Hs m) as Ho. unfold sema_ok in Ho. rewrite Hw1 in Ho.
        destruct Ho as (j&q&Hj&Hq). exists j, q. split; [|done].
        apply lookup_insert_ne; [done|]. rewrite Hi. intros [= ->]. done.
    + destruct (He m) as [E'|(_&_&HH&_)]; [|by rewrite E in HH].
      pose proof (inv_sema _ Hs m) as Ho. unfold sema_ok in Ho. rewrite <- E', E in Ho.
      apply lookup_insert_ne; [done|]. rewrite Hi. intros [= ->]. by edestruct Hk.
  - intros g. rewrite (total_same _ _ i p), parked_same by (done || (rewrite (proj1 (Hp' g)); symmetry; apply Hp)).
    destruct (HG R) as [_ ->], (HG W) as [_ ->]. apply (inv_wake _ Hs).
  - rewrite (total_same delta_of _ i p), Z.add_0_r
      by (done || (rewrite (proj1 (proj2 (Hp' 0%nat))); symmetry; apply (Hp 0%nat))).
    destruct (HG R) as [-> _], (HG W) as [-> _]. apply (inv_count _ Hs).
  - rewrite (total_same holds _ i p)
      by (done || (rewrite (proj2 (proj2 (Hp' 0%nat))); symmetry; apply (Hp 0%nat))).
    apply (inv_lock _ Hs).
  - rewrite Hsy. apply (inv_sync _ Hs).
  - intros j l r d Hj%run_same. unfold crit_ok. rewrite Hsy. setoid_rewrite Hinf. setoid_rewrite Hfld.
    by apply (inv_crit _ Hs j l r d).
  - intros j l r d Hj%run_same. by apply (inv_poll _ Hs j l r d).
  - intros m. rewrite Hinf. intros Herr Hb.
    assert (Hb' : blocked_in m s).
    { destruct Hb as [Hb|[Hb1 [j Hj]]]; [left; cbn [s' pd] in Hb; by rewrite <- (proj1 (HG m))|].
      cbn [s' pd pcs] in Hb1, Hj. right.
      destruct (decide (p' = BlockCommit m)) as [->|Hn]; [by rewrite (Hc m eq_refl) in Herr|].
      assert (Hij : i ≠ j).
      { intros <-. rewrite list_lookup_insert_eq in Hj by (by eapply lookup_lt_Some). by simplify_eq. }
      destruct (Hw m Hb1) as [Hw'|[Hw' _]].
      - exfalso. assert (Hi' : <[i := p']> (pcs s) !! i = Some p')
          by (apply list_lookup_insert_eq; by eapply lookup_lt_Some).
        pose proof (total_two (waiting m) _ i j p' _ ltac:(intros; apply b2z_01) Hi' Hj Hij) as H2.
        specialize (Hm m). unfold waiting in H2, Hm. rewrite (may_wait_mode _ _ Hw') in H2.
        cbn in H2. rewrite bool_decide_eq_true_2 in H2 by done. cbn in H2. lia.
      - split; [done|]. exists j. by rewrite list_lookup_insert_ne in Hj. }
    destruct (inv_owed _ Hs m Herr Hb') as (j&l&r&d&Hj&Ho). exists j, l, r, d.
    split; [by apply run_same|done].
Qed.
End Plain.

(** A thread that delivers events or holds the lock moves: it may take
    goroutines out of the semaphores and change fields and summary. *)
Lemma not_in_mode (q : pc) : (∀ m, in_mode m q = false) →
  (∀ m, waiting m q = 0) ∧ (∀ m, q ≠ Parked m) ∧ (∀ m, ¬ may_wait m q).
Proof.
  intros H. split; [intros m; unfold waiting; by rewrite H|]. split.
  - intros m ->. specialize (H m). by rewrite in_mode_parked in H.
  - intros m Hq%may_wait_mode. by rewrite H in Hq.
Qed.
Lemma run_move pd' lk' k :
  (∀ m, in_mode m p = false) → (∀ m, in_mode m p' = false) →
  (∀ m, sema m pd' = sema m (pd s) ∨ sema m pd' = pdNil ∨ sema m pd' = pdReady) →
  (∀ g, wakes g p' + isg g (sema R pd') + isg g (sema W pd')
        = wakes g p + isg g (sema R (pd s)) + isg g (sema W (pd s))) →
  isG (sema R pd') + isG (sema W pd') - delta_of p'
    = isG (sema R (pd s)) + isG (sema W (pd s)) - delta_of p + k →
  holds p' - holds p = Z.b2z lk' - Z.b2z (locked s) →
  (lk' = false → synced pd') →
  (∀ l r d, p' = Run true l r d → crit_ok l pd') →
  (∀ l r d, p' = Run false l r d → forallb poller_instr l = true) →
  (holds p' = 1 ∨ ∀ m, info_err m pd' = info_err m (pd s) ∧ field_err m pd' = field_err m (pd s)) →
  (∀ m, info_err m pd' = true → isG (sema m pd') = 1 ∨ sema m pd' = pdWait →
    (∃ l r d, p' = Run true l r d ∧ owed m l = true) ∨
    info_err m (pd s) = true ∧ (∀ l r d, p = Run true l r d → owed m l = false)) →
  inv (MkSys pd' lk' (u32 (netpollWaiters s + k)) (commits s) (<[i := p']> (pcs s))).
Proof.
  intros Hm Hm' He Hwk Hdl Hh Hsy Hcr Hpo Hex How.
  destruct (not_in_mode p Hm) as (W0&K0&Y0), (not_in_mode p' Hm') as (W1&K1&Y1).
  pose proof (lookup_lt_Some _ _ _ Hi) as Hlt.
  split; cbn [pd locked netpollWaiters commits pcs].
  - intros m. rewrite (total_same (waiting m) _ i p) by (done || by rewrite W0, W1). apply (inv_mode _ Hs).
  - intros m. unfold sema_ok. cbn [pd pcs]. pose proof (inv_sema _ Hs m) as Ho. unfold sema_ok in Ho.
    destruct (He m) as [->|[-> | ->]]; [|done..]. destruct (sema m (pd s)) as [| | |g]; try done.
    + destruct Ho as (j&q&Hj&Hq). exists j, q. split; [|done]. apply lookup_insert_ne; [done|].
      rewrite Hi. intros [= ->]. by eapply Y0.
    + apply lookup_insert_ne; [done|]. rewrite Hi. intros [= ->]. by eapply K0.
  - intros g. rewrite (total_insert (wakes g) _ i p p' Hi), (parked_same K0 K1).
    pose proof (inv_wake _ Hs g). specialize (Hwk g). lia.
  - rewrite (total_insert delta_of _ i p), (inv_count _ Hs) by done. unfold u32.
    rewrite Zplus_mod_idemp_l. f_equal. lia.
  - rewrite (total_insert holds _ i p), (inv_lock _ Hs) by done. lia.
  - done.
  - intros j l r d Hj. destruct (decide (i = j)) as [<-|Hij].
    { rewrite list_lookup_insert_eq in Hj by done. simplify_eq. by eapply Hcr. }
    destruct Hex as [Hex|Hex].
    + exfalso. assert (Hi' : <[i := p']> (pcs s) !! i = Some p') by by apply list_lookup_insert_eq.
      pose proof (total_two holds _ i j _ _ holds_nonneg Hi' Hj Hij) as H2.
      rewrite (total_insert holds _ i p), (inv_lock _ Hs) in H2 by done. cbn in H2.
      destruct lk'; simpl in *; lia.
    + rewrite list_lookup_insert_ne in Hj by done. pose proof (inv_crit _ Hs j l r d Hj) as Hc.
      unfold crit_ok, synced in *. destruct Hc as [Hc1 [Hc2|(x&l'&E&Hc2)]]; (split; [done|]); [left|right].
      * intros m. by rewrite (proj1 (Hex m)), (proj2 (Hex m)).
      * exists x, l'. split; [done|]. intros m. rewrite (proj1 (Hex m)), (proj2 (Hex m)). apply Hc2.
  - intros j l r d Hj. destruct (decide (i = j)) as [<-|Hij].
    { rewrite list_lookup_insert_eq in Hj by done. simplify_eq. by eapply Hpo. }
    rewrite list_lookup_insert_ne in Hj by done. by eapply (inv_poll _ Hs).
  - intros m Herr Hb.
    assert (Hb0 : isG (sema m pd') = 1 ∨ sema m pd' = pdWait) by (destruct Hb as [?|[? _]]; tauto).
    destruct (How m Herr Hb0) as [(l&r&d&->&Ho)|[Herr0 Hno]].
    { exists i, l, r, d. split; [by apply list_lookup_insert_eq|done]. }
    assert (Hsm : sema m pd' = sema m (pd s)).
    { destruct (He m) as [?|[E|E]]; [done|rewrite E in Hb0; by destruct Hb0..]. }
    assert (Hb' : blocked_in m s).
    { unfold blocked_in in *. cbn [pd pcs] in Hb. rewrite Hsm in Hb. destruct Hb as [?|[? [j Hj]]]; [by left|].
      right. split; [done|]. exists j. apply lookup_other in Hj; [done|].
      intros E. eapply Y1. rewrite <- E. right; by left. }
    destruct (inv_owed _ Hs m Herr0 Hb') as (j&l&r&d&Hj&Ho). exists j, l, r, d. split; [|done].
    apply lookup_insert_ne; [done|]. rewrite Hi. intros [= ->]. by rewrite (Hno l r d eq_refl) in Ho.
Qed.
End Moves.

(** ** Parking and being made ready *)
Lemma parked_insert i (p : pc) (l : list pc) g : (i < length l)%nat →
  parked (<[i := p]> l !! g) = if decide (g = i) then parked (Some p) else parked (l !! g).
Proof.
  intros Hi. destruct (decide (g = i)) as [->|Hn].
  - by rewrite list_lookup_insert_eq.
  - by rewrite list_lookup_insert_ne.
Qed.
Lemma isg_sema g m x pd :
  isg g (sema R (set_sema m x pd)) + isg g (sema W (set_sema m x pd))
  = isg g (sema R pd) + isg g (sema W pd) - isg g (sema m pd) + isg g x.
Proof. rewrite !sema_set. destruct m; simpl; lia. Qed.
Lemma isG_sema m x pd :
  isG (sema R (set_sema m x pd)) + isG (sema W (set_sema m x pd))
  = isG (sema R pd) + isG (sema W pd) - isG (sema m pd) + isG x.
Proof. rewrite !sema_set. destruct m; simpl; lia. Qed.

Lemma commit_inv s i m : inv s → pcs s !! i = Some (BlockCommit m) → sema m (pd s) = pdWait →
  inv (MkSys (set_sema m (G i) (pd s)) (locked s) (netpollWaiters s) (commits s + 1)
             (<[i := Parked m]> (pcs s))).
Proof.
  intros Hs Hi Hw. pose proof (lookup_lt_Some _ _ _ Hi) as Hlt.
  split; cbn [pd locked netpollWaiters commits pcs].
  - intros m'. rewrite (total_same (waiting m') _ i (BlockCommit m)) by done. apply (inv_mode _ Hs).
  - intros m'. unfold sema_ok. cbn [pd pcs]. rewrite sema_set. destruct (decide (m' = m)) as [->|Hn].
    { by apply list_lookup_insert_eq. }
    pose proof (inv_sema _ Hs m') as Ho. unfold sema_ok in Ho.
    destruct (sema m' (pd s)) as [| | |g]; try done.
    + destruct Ho as (j&q&Hj&Hq). exists j, q. split; [|done]. apply lookup_insert_ne; [done|].
      rewrite Hi. intros [= <-]. destruct Hq as [?|[?|?]]; congruence.
    + apply lookup_insert_ne; [done|]. by rewrite Hi.
  - intros g. rewrite (total_same (wakes g) _ i (BlockCommit m)), parked_insert by done.
    pose proof (isg_sema g m (G i) (pd s)) as E. rewrite Hw in E. pose proof (inv_wake _ Hs g) as Hg.
    assert (isg g pdWait = 0) by done. destruct (decide (g = i)) as [->|Hn].
    + rewrite Hi in Hg. cbn [parked] in *. unfold isg in E at 6.
      rewrite bool_decide_eq_true_2 in E by done. simpl in E. lia.
    + unfold isg in E at 6. rewrite bool_decide_eq_false_2 in E by congruence. simpl in E. lia.
  - rewrite (total_same delta_of _ i (BlockCommit m)), (inv_count _ Hs) by done. f_equal.
    pose proof (isG_sema m (G i) (pd s)) as E. rewrite Hw in E. simpl in *. lia.
  - rewrite (total_same holds _ i (BlockCommit m)) by done. apply (inv_lock _ Hs).
  - rewrite set_sema_synced. apply (inv_sync _ Hs).
  - intros j l r d Hj%lookup_other; [|done]. apply set_sema_crit. by eapply (inv_crit _ Hs).
  - intros j l r d Hj%lookup_other; [|done]. by eapply (inv_poll _ Hs).
  - intros m'. rewrite set_sema_info. intros Herr Hb.
    destruct (inv_owed _ Hs m' Herr) as (j&l&r&d&Hj&Ho).
    + unfold blocked_in in *. cbn [pd pcs] in Hb. rewrite sema_set in Hb.
      destruct (decide (m' = m)) as [->|Hn]; [right; split; [done|by exists i]|].
      destruct Hb as [?|[? [j Hj]]]; [by left|right; split; [done|]]. exists j.
      by eapply lookup_other.
    + exists j, l, r, d. split; [|done]. apply lookup_insert_ne; [done|]. by rewrite Hi.
Qed.

Lemma wake_inv s i g ready delta m : inv s → pcs s !! i = Some (Wake (g :: ready) delta) →
  pcs s !! g = Some (Parked m) →
  inv (set_pc i (Wake ready delta) (set_pc g (BlockSwap m) s)).
Proof.
  intros Hs Hi Hg. pose proof (lookup_lt_Some _ _ _ Hi) as Hlt. pose proof (lookup_lt_Some _ _ _ Hg) as Hltg.
  assert (Hig : g ≠ i) by congruence.
  set (l1 := <[g := BlockSwap m]> (pcs s)).
  assert (Hi1 : l1 !! i = Some (Wake (g :: ready) delta)) by (unfold l1; by rewrite list_lookup_insert_ne).
  assert (Hlt1 : (i < length l1)%nat) by (unfold l1; by rewrite length_insert).
  assert (Hother : ∀ j q, (∀ r, q ≠ Wake r delta) → q ≠ BlockSwap m →
            <[i := Wake ready delta]> l1 !! j = Some q → pcs s !! j = Some q).
  { intros j q H1 H2 Hj. apply lookup_other in Hj; [|done]. by apply lookup_other in Hj. }
  assert (Hkeep : ∀ j q, q ≠ Wake (g :: ready) delta → q ≠ Parked m → pcs s !! j = Some q →
            <[i := Wake ready delta]> l1 !! j = Some q).
  { intros j q H1 H2 Hj. apply lookup_insert_ne; [|rewrite Hi1; congruence].
    apply lookup_insert_ne; [done|rewrite Hg; congruence]. }
  (* its wake-up is the only trace of it *)
  pose proof (inv_wake _ Hs g) as Hw. rewrite Hg in Hw. cbn [parked] in Hw.
  assert (Hge : 1 <= total (wakes g) (pcs s)).
  { pose proof (total_ge (wakes g) (pcs s) i _
      ltac:(intros; apply total_nonneg; intros; apply b2z_01) Hi) as H.
    unfold wakes in H at 1. cbn [pending total] in H. rewrite bool_decide_eq_true_2 in H by done.
    pose proof (total_nonneg (λ x, Z.b2z (bool_decide (x = g))) ready ltac:(intros; apply b2z_01)).
    simpl in H. lia. }
  assert (Hno : ∀ m', sema m' (pd s) ≠ G g).
  { intros m' E. assert (isg g (sema m' (pd s)) = 1) as E1
      by (unfold isg; rewrite bool_decide_eq_true_2; done).
    unfold isg in Hw. pose proof (b2z_01 (bool_decide (sema R (pd s) = G g))).
    pose proof (b2z_01 (bool_decide (sema W (pd s) = G g))). unfold isg in E1. destruct m'; lia. }
  split; cbn [set_pc pd locked netpollWaiters commits pcs]; fold l1.
  - intros m'. rewrite (total_same (waiting m') _ i _ _ Hi1) by done. unfold l1. rewrite (total_same (waiting m') _ g _ _ Hg) by done.
    apply (inv_mode _ Hs).
  - intros m'. unfold sema_ok. cbn [pd pcs set_pc]. fold l1. pose proof (inv_sema _ Hs m') as Ho.
    unfold sema_ok in Ho. specialize (Hno m'). destruct (sema m' (pd s)) as [| | |g']; try done.
    + destruct Ho as (j&q&Hj&Hq). exists j, q. split; [|done].
      apply Hkeep; [by destruct Hq as [->|[-> | ->]]..|done].
    + destruct (decide (g' = g)) as [->|]; [done|].
      rewrite list_lookup_insert_ne by congruence. unfold l1. by rewrite list_lookup_insert_ne by congruence.
  - intros g'. rewrite (total_insert (wakes g') _ i _ _ Hi1). unfold l1. rewrite (total_insert (wakes g') _ g _ _ Hg).
    fold l1. rewrite parked_insert by done. unfold l1. rewrite parked_insert by done.
    pose proof (inv_wake _ Hs g') as Hg'. unfold wakes at 2 3 4 5. cbn [pending total].
    destruct (decide (g' = i)) as [->|].
    { rewrite Hi in Hg'. rewrite bool_decide_eq_false_2 by done. simpl in *. lia. }
    destruct (decide (g' = g)) as [->|].
    + rewrite Hg in Hg'. rewrite bool_decide_eq_true_2 by done. simpl in *. lia.
    + rewrite bool_decide_eq_false_2 by done. simpl in *. lia.
  - rewrite (total_same delta_of _ i _ _ Hi1) by done. unfold l1. rewrite (total_same delta_of _ g _ _ Hg) by done.
    apply (inv_count _ Hs).
  - rewrite (total_same holds _ i _ _ Hi1) by done. unfold l1. rewrite (total_same holds _ g _ _ Hg) by done. apply (inv_lock _ Hs).
  - apply (inv_sync _ Hs).
  - intros j l r d Hj%Hother; [|done..]. by eapply (inv_crit _ Hs).
  - intros j l r d Hj%Hother; [|done..]. by eapply (inv_poll _ Hs).
  - intros m' Herr Hb. destruct (inv_owed _ Hs m' Herr) as (j&l&r&d&Hj&Ho).
    + destruct Hb as [?|[? [j Hj]]]; [by left|right]. split; [done|]. exists j. by apply Hother in Hj.
    + exists j, l, r, d. split; [by apply Hkeep|done].
Qed.

(** ** Waking and changing fields *)
Lemma wakes_run g h l r d : wakes g (Run h l r d) = total (λ x, Z.b2z (bool_decide (x = g))) r.
Proof. done. Qed.
Lemma wakes_one g old : total (λ x, Z.b2z (bool_decide (x = g))) (option_list (fst (unblocked old)))
  = isg g old.
Proof.
  unfold isg. destruct old as [| | |g']; simpl; try done. rewrite Z.add_0_r. f_equal.
  apply bool_decide_ext. split; congruence.
Qed.
Lemma delta_one old : snd (unblocked old) = - isG old.
Proof. by destruct old. Qed.
Lemma unblock_turn_free old io : unblock_turn old io = None → isG old = 0 ∧ old ≠ pdWait.
Proof. by destruct old, io. Qed.
Lemma unblock_turn_new old io new : unblock_turn old io = Some new → new = pdNil ∨ new = pdReady.
Proof. destruct old, io; simpl; intros [= <-]; auto. Qed.

(** What an instruction does to the descriptor, for the thread that executes it
    and for the semaphore it is about. *)
Record instr_effect (ins : instr) (pd0 pd' : pollDesc) (again : option instr) (g : option nat)
    (d : Z) : Prop := MkEffect
  { ef_sema m : sema m pd' = sema m pd0 ∨ sema m pd' = pdNil ∨ sema m pd' = pdReady;
    ef_wakes x : total (λ y, Z.b2z (bool_decide (y = x))) (option_list g)
      = isg x (sema R pd0) + isg x (sema W pd0) - isg x (sema R pd') - isg x (sema W pd');
    ef_delta : d = isG (sema R pd') + isG (sema W pd') - isG (sema R pd0) - isG (sema W pd0);
    ef_same : poller_instr ins = true →
      ∀ m, info_err m pd' = info_err m pd0 ∧ field_err m pd' = field_err m pd0;
    ef_poller : poller_instr ins = true → forallb poller_instr (option_list again) = true;
    (* it is done with its semaphore only when nobody is in it *)
    ef_owed m : owed m (option_list again) = false → owed m [ins] = true →
      isG (sema m pd') = 0 ∧ sema m pd' ≠ pdWait;
    ef_crit l : crit_ok (ins :: l) pd0 → crit_ok (option_list again ++ l) pd' ∧
      ∀ m, info_err m pd' = true → info_err m pd0 = true ∨ owed m l = true }.

Lemma effect_same ins pd again : (again = None → ∀ m, owed m [ins] = true →
    isG (sema m pd) = 0 ∧ sema m pd ≠ pdWait) →
  match again with
  | None => match ins with IUnblock _ _ _ | IEventErr _ _ _ => True | _ => False end
  | Some ins' =>
      (∀ m, owed m [ins'] = owed m [ins]) ∧ poller_instr ins' = poller_instr ins ∧
      (∀ l pd, crit_ok (ins :: l) pd → crit_ok (ins' :: l) pd)
  end → instr_effect ins pd pd again None 0.
Proof.
  intros Ho H. split; try (intros; simpl; lia).
  - by left.
  - done.
  - intros Hp. destruct again as [ins'|]; [|done]. destruct H as (_&H&_). cbn. by rewrite H, Hp.
  - intros m H1 H2. destruct again as [ins'|]; [|by apply Ho].
    destruct H as (H&_). cbn [option_list] in H1. by rewrite H, H2 in H1.
  - intros l Hc. split; [|by left]. destruct again as [ins'|]; [by apply H|].
    cbn [option_list app]. destruct Hc as [Hc [Hs|(x&l'&[= ->]&_)]]; [|done].
    split; [by destruct ins|by left].
Qed.
Lemma crit_ok_publish x y l pd : crit_ok (IPublish x :: l) pd → crit_ok (IPublish y :: l) pd.
Proof. intros [Hc [Hs|(z&l'&[= -> ->]&H)]]; (split; [exact Hc|]); [by left|right; eauto]. Qed.

Lemma publish_effect x pd again pd' g d :
  instr_turn (IPublish x) pd = ITurn pd' again g d → instr_effect (IPublish x) pd pd' again g d.
Proof.
  assert (Hr : ∀ y, instr_effect (IPublish x) pd pd (Some (IPublish y)) None 0).
  { intros y. apply effect_same; [done|]. split; [done|]. split; [done|]. intros l pd0. apply crit_ok_publish. }
  cbn [instr_turn]. destruct x as [x|]; [|intros [= <- <- <- <-]; apply Hr].
  destruct (Z.eqb_spec (atomicInfo pd) x) as [<-|]; [|intros [= <- <- <- <-]; apply Hr].
  unfold isdone. intros [= <- <- <- <-]. set (pd' := set_info _ pd). pose proof (publish_synced pd) as Hs'.
  assert (He : ∀ m, sema m pd' = sema m pd) by (by intros []).
  assert (Hf : ∀ m, field_err m pd' = field_err m pd) by (by intros []).
  fold pd' in Hs'. clearbody pd'. split; try done.
  - intros m. rewrite He. by left.
  - intros x. rewrite !He. simpl. lia.
  - rewrite !He. simpl. lia.
  - intros l [Hc H]. split; [split; [exact Hc|by left]|]. intros m. rewrite (Hs' m), Hf. intros Hm.
    destruct H as [H|(z&l'&[= _ <-]&H)]; [left; by rewrite (H m)|by apply H].
Qed.
Lemma unblock_effect m io old pd again pd' g d :
  instr_turn (IUnblock m io old) pd = ITurn pd' again g d →
  instr_effect (IUnblock m io old) pd pd' again g d.
Proof.
  assert (Hr : ∀ y, instr_effect (IUnblock m io old) pd pd (Some (IUnblock m io y)) None 0).
  { intros y. apply effect_same; [done|]. split; [done|]. split; [done|].
    intros l pd0 [Hc [Hs|(z&l'&[=]&_)]]. split; [exact Hc|by left]. }
  assert (Hd : unblock_turn (sema m pd) io = None → instr_effect (IUnblock m io old) pd pd None None 0).
  { intros Hn. apply effect_same; [|done]. intros _ m' Hm'. cbn in Hm'. destruct io; [done|].
    rewrite orb_false_r in Hm'. apply bool_decide_eq_true in Hm' as ->. by eapply unblock_turn_free. }
  cbn [instr_turn]. destruct old as [old|].
  - destruct (decide _) as [<-|]; [|intros [= <- <- <- <-]; apply Hr].
    destruct (unblock_turn _ _) as [new|] eqn:Et; [|intros [= <- <- <- <-]; by apply Hd].
    destruct (unblocked (sema m pd)) as [g' d'] eqn:Eu. intros [= <- <- <- <-]. clear Hr Hd.
    pose proof (λ x, wakes_one x (sema m pd)) as Hg. pose proof (delta_one (sema m pd)) as Hdl.
    rewrite Eu in Hg, Hdl. cbn [fst snd] in *. apply unblock_turn_new in Et.
    assert (Hn : isG new = 0 ∧ ∀ x, isg x new = 0) by (by destruct Et as [-> | ->]).
    split.
    + intros m'. rewrite sema_set. destruct (decide _); [by right|by left].
    + intros x. rewrite Hg. pose proof (isg_sema x m new pd). rewrite (proj2 Hn) in H. lia.
    + pose proof (isG_sema m new pd). lia.
    + intros _ m'. by rewrite set_sema_info, set_sema_field.
    + done.
    + intros m' _ Hm'. cbn in Hm'. destruct io; [done|]. rewrite orb_false_r in Hm'.
      apply bool_decide_eq_true in Hm' as ->. rewrite sema_set_eq. by destruct Et as [-> | ->].
    + intros l Hc. setoid_rewrite set_sema_info. split; [|by left]. apply set_sema_crit.
      destruct Hc as [Hc [Hs|(z&l'&[=]&_)]]. split; [exact Hc|by left].
  - destruct (unblock_turn _ _) as [new|] eqn:Et; intros [= <- <- <- <-]; [apply Hr|by apply Hd].
Qed.
Lemma event_effect b seq x pd again pd' g d :
  instr_turn (IEventErr b seq x) pd = ITurn pd' again g d →
  instr_effect (IEventErr b seq x) pd pd' again g d.
Proof.
  assert (Hr : ∀ y, instr_effect (IEventErr b seq x) pd pd (Some (IEventErr b seq y)) None 0).
  { intros y. apply effect_same; [done|]. split; [done|]. split; [done|].
    intros l pd0 [Hc [Hs|(z&l'&[=]&_)]]. split; [exact Hc|by left]. }
  assert (Hd : instr_effect (IEventErr b seq x) pd pd None None 0) by (by apply effect_same).
  cbn [instr_turn]. destruct x as [x|].
  - destruct (Z.eqb_spec (atomicInfo pd) x) as [<-|]; intros [= <- <- <- <-]; [|apply Hr].
    set (pd' := set_info _ pd). clear Hr Hd.
    assert (He : ∀ m, sema m pd' = sema m pd) by (by intros []).
    assert (Hf : ∀ m, field_err m pd' = field_err m pd) by (by intros []).
    assert (Hn : ∀ m, info_err m pd' = info_err m pd) by (intros m; apply lxor_eventErr_info).
    clearbody pd'. split; try done.
    + intros m. rewrite He. by left.
    + intros y. rewrite !He. simpl. lia.
    + rewrite !He. simpl. lia.
    + intros l [Hc [Hs|(z&l'&[=]&_)]]. split; [|intros m; rewrite Hn; by left].
      split; [exact Hc|left]. intros m. by rewrite Hn, Hf, Hs.
  - cbv zeta. destruct (_ && _); [intros [= <- <- <- <-]; apply Hd|].
    destruct (Bool.eqb _ _); intros [= <- <- <- <-]; [apply Hd|apply Hr].
Qed.
Lemma deadline_effect read pd again pd' g d :
  instr_turn (IWriteDeadline read) pd = ITurn pd' again g d →
  instr_effect (IWriteDeadline read) pd pd' again g d.
Proof.
  cbn [instr_turn]. destruct (_ || _); [done|]. unfold isdone. intros [= <- <- <- <-].
  split; try done.
  - intros m. left. by destruct m.
  - intros y. simpl. unfold sema, set_wd, gpp. simpl. lia.
  - unfold sema, set_wd, gpp. simpl. lia.
  - intros l [Hc [Hs|(z&l'&[=]&_)]]. split; [|intros m Hm; left; by destruct m].
    cbn [wf_crit] in Hc. apply andb_prop in Hc as [H1 H2]. split; [exact H2|]. right.
    destruct l as [|[x| | |] l']; try done. exists x, l'. split; [done|].
    intros [] Hm; [left|by right]. specialize (Hs R). unfold field_err in *. cbn in *. by rewrite <- Hs in Hm.
Qed.
Lemma instr_turn_effect ins pd pd' again g d :
  instr_turn ins pd = ITurn pd' again g d → instr_effect ins pd pd' again g d.
Proof.
  destruct ins; [apply publish_effect|apply unblock_effect|apply event_effect|apply deadline_effect].
Qed.

(** ** Taking the lock *)
Lemma set_read_timer_frame rd0 c0 c pd pd' : set_read_timer rd0 c0 c pd = Ok pd' →
  ∃ t n, pd' = set_rt t (set_rseq n pd).
Proof.
  unfold set_read_timer, resettimer, modtimer. intros H. destruct (t_f (rt pd)).
  - destruct (_ || _); [|injection H as <-; exists (rt pd), (rseq pd); by destruct pd].
    cbv zeta in H. destruct (_ >? _); [|injection H as <-; eauto].
    destruct (_ <=? _); [done|]. injection H as <-. eauto.
  - destruct (_ >? _); [|injection H as <-; exists (rt pd), (rseq pd); by destruct pd].
    destruct (_ <=? _); [done|]. injection H as <-. eexists _, (rseq pd). by destruct pd.
Qed.
Lemma set_write_timer_frame wd0 c0 c pd pd' : set_write_timer wd0 c0 c pd = Ok pd' →
  ∃ t n, pd' = set_wt t (set_wseq n pd).
Proof.
  unfold set_write_timer, resettimer, modtimer. intros H. destruct (t_f (wt pd)).
  - destruct (_ || _); [|injection H as <-; exists (wt pd), (wseq pd); by destruct pd].
    cbv zeta in H. destruct (_ && _); [|injection H as <-; eauto].
    destruct (_ <=? _); [done|]. injection H as <-. eauto.
  - destruct (_ && _); [|injection H as <-; exists (wt pd), (wseq pd); by destruct pd].
    destruct (_ <=? _); [done|]. injection H as <-. eexists _, (wseq pd). by destruct pd.
Qed.
Lemma lock_body_ok op pd pd' l : synced pd → lock_body op pd = Ok (pd', l) →
  (∀ m, sema m pd' = sema m pd) ∧ (∀ m, info_err m pd' = info_err m pd) ∧ crit_ok l pd'.
Proof.
  intros Hs. destruct op as [d mode now| |seq read write]; cbn [lock_body].
  - destruct (closing pd) eqn:Hc; [intros [= <- <-]; done || (split; [done|]; split; [done|]; by split; [|left])|].
    cbv zeta. set (pd1 := if (mode =? mode_w) || _ then _ else _).
    assert (H1 : (∀ m, sema m pd1 = sema m pd) ∧ (∀ m, info_err m pd1 = info_err m pd) ∧ closing pd1 = false).
    { unfold pd1. destruct (_ || _), (_ || _); (split; [by intros []|]; split; [by intros []|done]). }
    clearbody pd1. destruct H1 as (E1&E2&E3).
    destruct (set_read_timer _ _ _ _) as [pd2| |] eqn:H2; [|done..]. cbn [mbind res_bind].
    apply set_read_timer_frame in H2 as (t2&n2&->).
    destruct (set_write_timer _ _ _ _) as [pd3| |] eqn:H3; [|done..]. cbn [mbind res_bind].
    apply set_write_timer_frame in H3 as (t3&n3&->). intros [= <- <-].
    split; [intros m; rewrite <- E1; by destruct m|]. split; [intros m; rewrite <- E2; by destruct m|].
    set (b := rd _ <? 0). set (c := wd _ <? 0). split.
    + cbn. by destruct b, c.
    + right. do 2 eexists. split; [done|]. intros m Hm. right. unfold field_err in Hm.
      assert (Hm' : match m with R => b | W => c end = true).
      { destruct m; cbn in Hm; rewrite E3 in Hm; exact Hm. }
      destruct m; unfold owed; rewrite existsb_app; rewrite Hm'; cbn;
        rewrite ?bool_decide_eq_true_2 by done; by rewrite ?orb_true_r.
  - destruct (closing pd) eqn:Hc; [done|]. cbv zeta. intros [= <- <-].
    split; [by intros []|]. split; [by intros []|]. split; [done|right].
    do 2 eexists. split; [done|]. intros [] _; right; done.
  - cbv zeta. destruct (negb _); [intros [= <- <-]; split; [done|]; split; [done|]; by split; [|left]|].
    destruct read.
    + destruct (_ || _); [done|]. intros [= <- <-].
      split; [by intros []|]. split; [by intros []|]. split; [by destruct write|right].
      do 2 eexists. split; [done|]. intros [] Hm; [right; done|left]. specialize (Hs W).
      unfold field_err in *. cbn in *. by rewrite <- Hs in Hm.
    + intros [= <- <-]. split; [done|]. split; [done|]. split; [by destruct write|by left].
Qed.
Lemma event_body_poller events tag pd : forallb poller_instr (event_body events tag pd) = true.
Proof. unfold event_body. destruct (_ || _ || _); [done|]. by destruct (_ || _), (_ || _). Qed.

(** ** Every move keeps the invariant *)
Lemma waiters_u32 s : inv s → u32 (netpollWaiters s + 0) = netpollWaiters s.
Proof. intros Hs. rewrite Z.add_0_r, (inv_count _ Hs). apply u32_id, u32_range. Qed.
Lemma run_locked s i l r d : inv s → pcs s !! i = Some (Run true l r d) → locked s = true.
Proof.
  intros Hs Hi. pose proof (total_ge holds (pcs s) i _ holds_nonneg Hi) as H. cbn in H.
  rewrite (inv_lock _ Hs) in H. by destruct (locked s).
Qed.

Lemma instr_inv s i held ins l r d pd' again g dd : inv s →
  pcs s !! i = Some (Run held (ins :: l) r d) → instr_turn ins (pd s) = ITurn pd' again g dd →
  inv (MkSys pd' (locked s) (netpollWaiters s) (commits s)
         (<[i := Run held (option_list again ++ l) (r ++ option_list g) (d + dd)]> (pcs s))).
Proof.
  intros Hs Hi He%instr_turn_effect. rewrite <- (waiters_u32 s Hs).
  assert (Hcr : held = true → crit_ok (ins :: l) (pd s)) by (intros ->; by eapply (inv_crit _ Hs)).
  assert (Hpo : held = false → poller_instr ins = true ∧ forallb poller_instr l = true).
  { intros ->. pose proof (inv_poll _ Hs _ _ _ _ Hi) as H. cbn in H. by apply andb_prop in H. }
  eapply run_move; [exact Hs|exact Hi|done|done|apply (ef_sema _ _ _ _ _ _ He)|..].
  - intros x. rewrite !wakes_run, total_app, (ef_wakes _ _ _ _ _ _ He). lia.
  - cbn [delta_of]. rewrite (ef_delta _ _ _ _ _ _ He). lia.
  - destruct held; simpl; lia.
  - destruct held; [by rewrite (run_locked _ _ _ _ _ Hs Hi)|]. intros Hl m.
    destruct (Hpo eq_refl) as [Hp _]. destruct (ef_same _ _ _ _ _ _ He Hp m) as [-> ->].
    by apply (inv_sync _ Hs).
  - intros ? ? ? [= -> <- <- <-]. by apply (ef_crit _ _ _ _ _ _ He), Hcr.
  - intros ? ? ? [= -> <- <- <-]. destruct (Hpo eq_refl) as [Hp Hl]. rewrite forallb_app, Hl.
    by rewrite (ef_poller _ _ _ _ _ _ He Hp).
  - destruct held; [by left|right]. by apply (ef_same _ _ _ _ _ _ He), Hpo.
  - intros m Hm Hb. destruct held.
    + destruct (ef_crit _ _ _ _ _ _ He l (Hcr eq_refl)) as [_ Hc].
      destruct (owed m (option_list again ++ l)) eqn:Ho; [left; by repeat eexists|right].
      unfold owed in Ho. rewrite existsb_app in Ho. apply orb_false_elim in Ho as [Ho1 Ho2].
      destruct (Hc m Hm) as [Hi0|Ho]; [|unfold owed in Ho; by rewrite Ho in Ho2].
      split; [done|]. intros ? ? ? [= <- <- <-].
      assert (Hn : owed m [ins] = false).
      { destruct (owed m [ins]) eqn:E; [|done].
        destruct (ef_owed _ _ _ _ _ _ He m Ho1 E) as [HG HW]. destruct Hb; [lia|done]. }
      unfold owed in *. cbn in *. rewrite orb_false_r in Hn. by rewrite Hn.
    + right. split; [|done]. destruct (Hpo eq_refl) as [Hp _].
      by rewrite <- (proj1 (ef_same _ _ _ _ _ _ He Hp m)).
Qed.

Lemma lock_inv s i op pd' l : inv s → pcs s !! i = Some (Locking op) → locked s = false →
  lock_body op (pd s) = Ok (pd', l) →
  inv (MkSys pd' true (netpollWaiters s) (commits s) (<[i := Run true l [] 0]> (pcs s))).
Proof.
  intros Hs Hi Hl Hb. apply lock_body_ok in Hb as (E1&E2&Hc); [|by apply (inv_sync _ Hs)].
  rewrite <- (waiters_u32 s Hs). eapply run_move; [exact Hs|exact Hi|done|done|..].
  - intros m. by left.
  - intros g. rewrite !E1. done.
  - rewrite !E1. simpl. lia.
  - rewrite Hl. done.
  - done.
  - by intros ? ? ? [= <- <- <-].
  - done.
  - by left.
  - intros m Hm _. right. by rewrite <- E2.
Qed.

(** A thread between operations, or done with the lock. *)
Lemma quiet_inv s i p p' lk' k : inv s → pcs s !! i = Some p →
  (∀ m, in_mode m p = false) → (∀ m, in_mode m p' = false) →
  (∀ g, wakes g p' = wakes g p) → delta_of p' = delta_of p - k →
  holds p' - holds p = Z.b2z lk' - Z.b2z (locked s) → (lk' = false → synced (pd s)) →
  (∀ l r d, p = Run true l r d → l = []) →
  (∀ h l r d, p' = Run h l r d → h = false ∧ forallb poller_instr l = true) →
  inv (MkSys (pd s) lk' (u32 (netpollWaiters s + k)) (commits s) (<[i := p']> (pcs s))).
Proof.
  intros Hs Hi Hm Hm' Hw Hd Hh Hsy Hl Hr. eapply run_move; try done.
  - by left.
  - intros g. rewrite Hw. lia.
  - lia.
  - intros l r d E. by destruct (Hr _ _ _ _ E).
  - intros l r d E. by apply (Hr _ _ _ _ E).
  - by right.
  - intros m Hi' _. right. split; [done|]. intros l r d E. by rewrite (Hl _ _ _ E).
Qed.

Lemma begin_inv s i o p s' : inv s → pcs s !! i = Some p → p = Idle ∨ (∃ e, p = Ret e) →
  begin_op i o s = Next s' → inv s'.
Proof.
  intros Hs Hi Hp H.
  assert (Hp0 : plain p ∧ is_run p = false ∧ (∀ m, p ≠ Parked m) ∧ (∀ m, in_mode m p = false))
    by (by destruct Hp as [->|[e ->]]). destruct Hp0 as (P1&P2&P3&P4).
  assert (Hgo : ∀ p', plain p' → is_run p' = false → (∀ m, p' ≠ Parked m) →
    (∀ m, p' ≠ BlockCommit m) → (∀ m, in_mode m p' = true → mode_free m (pcs s) = true) →
    inv (set_pc i p' s)).
  { intros p' Q1 Q2 Q3 Q4 Q5. unfold set_pc. rewrite <- (Z.add_0_r (commits s)).
    eapply plain_move; try done.
    - intros m. rewrite (total_insert _ _ i p) by done. unfold waiting at 2 3. rewrite P4.
      destruct (in_mode m p') eqn:E; [|simpl; pose proof (inv_mode _ Hs m); lia].
      rewrite (mode_free_total m) by auto. simpl. lia.
    - by left.
    - intros m E. right. split; [done|]. intros Hm%may_wait_mode. by rewrite P4 in Hm.
    - intros m ->. by destruct (Q4 m). }
  destruct o as [m|m|op|ev tag]; cbn [begin_op] in H.
  - destruct (mode_free m (pcs s)) eqn:E; [|done]. injection H as <-. apply Hgo; try done.
    intros m' Hm. apply bool_decide_eq_true in Hm. by subst.
  - destruct (mode_free m (pcs s)) eqn:E; [|done]. injection H as <-. apply Hgo; try done.
    intros m' Hm. apply bool_decide_eq_true in Hm. by subst.
  - injection H as <-. by apply Hgo.
  - injection H as <-. by apply Hgo.
Qed.
Lemma count_inv s : inv s → inv (MkSys (pd s) (locked s) (u32 (netpollWaiters s + 1)) (commits s - 1) (pcs s)).
Proof.
  intros Hs. destruct Hs. split; try done. cbn [pd netpollWaiters commits pcs].
  rewrite inv_count0. unfold u32. rewrite Zplus_mod_idemp_l. f_equal. lia.
Qed.

Lemma in_mode_inj m m' p : in_mode m p = true → in_mode m' p = true → m' = m.
Proof. destruct p; cbn; try done; intros H1%bool_decide_eq_true H2%bool_decide_eq_true; congruence. Qed.
Lemma wait_move s i m p p' pd' : inv s → pcs s !! i = Some p →
  in_mode m p = true → (∀ m', p ≠ Parked m') → (∀ m', p' ≠ Parked m') →
  in_mode m p' = true ∨ (∃ e, p' = Ret e) →
  (pd' = pd s ∨ ∃ x, pd' = set_sema m x (pd s) ∧ ∀ g, x ≠ G g) →
  (sema m pd' = pdWait → may_wait m p') →
  (p' = BlockCommit m → info_err m (pd s) = false) →
  inv (MkSys pd' (locked s) (netpollWaiters s) (commits s + 0) (<[i := p']> (pcs s))).
Proof.
  intros Hs Hi Hp Hk Hk' Hp' Hpd Hw Hc. destruct (plain_wait _ _ Hp) as [P1 P2].
  assert (HP : plain p' ∧ is_run p' = false ∧ ∀ m', in_mode m' p' = true → m' = m).
  { destruct Hp' as [Hp'|[e ->]]; [|done]. destruct (plain_wait _ _ Hp').
    split; [done|]. split; [done|]. intros m'. by apply in_mode_inj. }
  destruct HP as (P3&P4&P5). destruct (sema_of s m i p Hs Hi Hp) as [HG _].
  assert (Hm : ∀ m', waiting m' p' <= waiting m' p).
  { intros m'. unfold waiting. destruct (in_mode m' p') eqn:E; [|simpl; apply b2z_01].
    rewrite (P5 _ E), Hp. simpl. lia. }
  assert (Hse : ∀ m', m' ≠ m → sema m' pd' = sema m' (pd s)).
  { intros m' Hn. destruct Hpd as [->|(x&->&_)]; [done|]. rewrite sema_set. by rewrite decide_False. }
  assert (Hf : ∀ m', info_err m' pd' = info_err m' (pd s) ∧ field_err m' pd' = field_err m' (pd s)).
  { intros m'. destruct Hpd as [->|(x&->&_)]; [done|]. by rewrite set_sema_info, set_sema_field. }
  eapply plain_move; try done.
  - intros m'. rewrite (total_insert _ _ i p) by done. specialize (Hm m').
    pose proof (inv_mode _ Hs m'). lia.
  - intros m'. destruct (decide (m' = m)) as [->|]; [|left; by apply Hse].
    destruct Hpd as [->|(x&->&Hx)]; [by left|right]. rewrite sema_set_eq.
    destruct (isG_no x Hx) as [X1 X2]. destruct (isG_no (sema m (pd s))) as [Y1 Y2]; [|done].
    intros g E. destruct (HG g E) as [_ ->]. by destruct (Hk m).
  - intros m'. apply Hf.
  - intros m'. apply Hf.
  - intros m' E. destruct (decide (m' = m)) as [->|Hn]; [left; by apply Hw|right].
    rewrite <- Hse by done. split; [done|]. intros Hq%may_wait_mode. apply Hn. by eapply in_mode_inj.
  - intros m' ->. assert (m' = m) as -> by (apply P5; by apply bool_decide_eq_true). by apply Hc.
Qed.

Ltac wmove m := eapply (wait_move _ _ m); try done;
  try (by (left; apply bool_decide_eq_true)); try (by (right; eexists)); try (by left);
  try (by (apply bool_decide_eq_true)); try (by (right; eexists; split)).
Lemma wait_inv s i p pd' p' c : inv s → pcs s !! i = Some p → wait_turn i p (pd s) = Next (pd', p', c) →
  inv (MkSys pd' (locked s) (netpollWaiters s) (commits s + c) (<[i := p']> (pcs s))).
Proof.
  intros Hs Hi H.
  assert (HW : ∀ m, in_mode m p = true → sema m (pd s) = pdWait → may_wait m p)
    by (intros m Hm; by apply (sema_of s m i p Hs Hi Hm)).
  assert (Hno : ∀ m, in_mode m p = true → ¬ may_wait m p → sema m (pd s) ≠ pdWait) by naive_solver.
  destruct p as [|e|m|m|m|m|m|m|m|m|m|m|m|op|ev tag|h l r d|r d]; cbn [wait_turn] in H; try done;
    specialize (HW m (bool_decide_eq_true_2 _ eq_refl)); specialize (Hno m (bool_decide_eq_true_2 _ eq_refl)).
  - destruct (negb _); injection H as <- <- <-; wmove m; intros E; exfalso; apply Hno; try done;
      by intros [|[|]].
  - injection H as <- <- <-. wmove m. by rewrite sema_set_eq.
  - destruct (negb _); injection H as <- <- <-; wmove m; intros E; exfalso; apply Hno; try done;
      by intros [|[|]].
  - destruct (decide _); injection H as <- <- <-; wmove m; rewrite ?sema_set_eq; try done.
    intros E; exfalso; apply Hno; try done; by intros [|[|]].
  - destruct (decide _); injection H as <- <- <-; wmove m; rewrite ?sema_set_eq; try done.
    intros E; exfalso; apply Hno; try done; by intros [|[|]].
  - destruct (_ && _); [done|]. injection H as <- <- <-. wmove m.
    intros E; exfalso; apply Hno; try done; by intros [|[|]].
  - injection H as <- <- <-. destruct (Z.eqb_spec (checkerr m (pd s)) pollNoError) as [E|E]; wmove m.
    + intros _. right; by left.
    + intros _. by apply checkerr_info.
    + intros _. right; by right.
  - destruct (decide _) as [E|E]; injection H as <- <- <-; [by apply commit_inv|]. by wmove m.
  - destruct (sema m (pd s)); try done; injection H as <- <- <-; wmove m; by rewrite sema_set_eq.
  - destruct (negb _); injection H as <- <- <-; wmove m; intros E; exfalso; apply Hno; try done;
      by intros [|[|]].
Qed.

Lemma tick_inv s i p s' : inv s → pcs s !! i = Some p → tick i p s = Next s' → inv s'.
Proof.
  intros Hs Hi H.
  assert (Hwait : match wait_turn i p (pd s) with
    | Next (pd', p', c) => Next (MkSys pd' (locked s) (netpollWaiters s) (commits s + c) (<[i := p']> (pcs s)))
    | Throw msg => Throw msg
    | Blocked => Blocked
    end = Next s' → inv s').
  { intros E. destruct (wait_turn i p (pd s)) as [| |[[pd' p'] c]] eqn:Ew; [done..|].
    injection E as <-. by eapply wait_inv. }
  destruct p as [|e|m|m|m|m|m|m|m|m|m|m|m|op|ev tag|h l r d|r d];
    try (by apply Hwait); clear Hwait; cbn [tick] in H.
  - destruct (locked s) eqn:Hl; [done|]. destruct (lock_body op (pd s)) as [[pd' l]| |] eqn:Hb; [|done..].
    injection H as <-. by eapply lock_inv.
  - injection H as <-. unfold set_pc. rewrite <- (waiters_u32 s Hs).
    eapply quiet_inv; try done; [simpl; lia|by apply (inv_sync _ Hs)|].
    intros h l r d [= <- <- <- <-]. split; [done|]. apply event_body_poller.
  - destruct l as [|ins l].
    + injection H as <-. rewrite <- (waiters_u32 s Hs). eapply quiet_inv; try done.
      * simpl. lia.
      * destruct h; [rewrite (run_locked _ _ _ _ _ Hs Hi)|]; simpl; lia.
      * destruct h; [|by apply (inv_sync _ Hs)]. intros _.
        by destruct (inv_crit _ Hs _ _ _ _ Hi) as [_ [?|(x&l'&[=]&_)]].
      * by intros l r' d' [= -> <- <- <-].
    + destruct (instr_turn ins (pd s)) as [pd' again g dd|] eqn:Ei; [|done]. injection H as <-.
      by eapply instr_inv.
  - destruct r as [|g r].
    + injection H as <-. eapply quiet_inv; try done; [simpl; lia|simpl; lia|by apply (inv_sync _ Hs)].
    + destruct (pcs s !! g) as [[]|] eqn:Hg; try done. injection H as <-. by eapply wake_inv.
Qed.
Lemma exec_inv mv s s' : inv s → exec mv s = Next s' → inv s'.
Proof.
  intros Hs H. destruct mv as [i o|i|]; cbn [exec] in H.
  - destruct (pcs s !! i) as [p|] eqn:Hi; [|done].
    destruct p; try done; eapply begin_inv; try done; [by left|right; by eexists].
  - destruct (pcs s !! i) as [p|] eqn:Hi; [|done]. by eapply tick_inv.
  - destruct (0 <? commits s); [|done]. injection H as <-. by apply count_inv.
Qed.

(** ** The initial state *)
Lemma open_synced fd pd0 pd' : pollOpen_locked fd pd0 = Ok pd' →
  synced pd' ∧ rg pd' = pdNil ∧ wg pd' = pdNil ∧ closing pd' = false.
Proof.
  unfold pollOpen_locked. destruct (blocked _); [done|]. destruct (blocked _); [done|]. cbv zeta.
  intros [= <-]. split; [|split; [done|split; [done|]]].
  - intros m. set (q := set_wd 0 _). pose proof (publish_synced q m) as H.
    change (set_info _ q) with (publishInfo q) in H. exact H.
  - assert (Hc : ∀ b n p, closing (setEventErr b n p) = closing p)
      by (intros; unfold setEventErr; by repeat case_match).
    cbn [publishInfo set_info set_wd set_wg set_wseq set_rd set_rg set_rseq closing]. by rewrite Hc.
Qed.
Lemma reach_inv pd0 n s : opened pd0 → reach pd0 n s → inv s.
Proof.
  intros (fd&pd'&Ho) Hr. induction Hr as [|mv s s' Hr IH E]; [|by eapply exec_inv].
  destruct (open_synced _ _ _ Ho) as (Hsy&Er&Ew&_).
  assert (Hn : ∀ i p, replicate n Idle !! i = Some p → p = Idle)
    by (intros i p H; by apply lookup_replicate in H as [-> _]).
  assert (E : ∀ m, sema m pd0 = pdNil) by (by intros []).
  split; cbn [init pd locked netpollWaiters commits pcs].
  - intros m. by rewrite total_replicate.
  - intros m. unfold sema_ok. cbn. by rewrite E.
  - intros g. rewrite !E, total_replicate by done. simpl.
    destruct (replicate n Idle !! g) as [p|] eqn:Hg; [|done]. by rewrite (Hn _ _ Hg).
  - rewrite !E, total_replicate by done. done.
  - by rewrite total_replicate.
  - done.
  - by intros i l r d H%Hn.
  - by intros i l r d H%Hn.
  - intros m _ [Hb|[Hb _]]; cbn in Hb; by rewrite E in Hb.
Qed.
