(* ===== verification/NetpollWaitProps.v ===== *)
(** * runtime/netpoll.go: the properties of waiting and waking *)
From S2P Require Import Prelude Threads Netpoll NetpollProps NetpollWait NetpollWaitInv.

(** ** No throw *)
(** The throws of the operations under the lock; NetpollTimers shows that the
    ones about deadlines and timers are not reached, and the one about closing
    twice is the caller's to exclude. *)
Definition locked_throws : list emsg :=
  [ [Lit "runtime: unblock on closing polldesc"%go];
    [Lit "runtime: inconsistent read deadline"%go];
    [Lit "runtime: inconsistent write deadline"%go];
    when_panic ].
Lemma set_read_timer_throw rd0 c0 c pd msg : set_read_timer rd0 c0 c pd = Panic msg → msg = when_panic.
Proof. unfold set_read_timer, resettimer, modtimer. repeat case_match; naive_solver. Qed.
Lemma set_write_timer_throw wd0 c0 c pd msg : set_write_timer wd0 c0 c pd = Panic msg → msg = when_panic.
Proof. unfold set_write_timer, resettimer, modtimer. repeat case_match; naive_solver. Qed.
Lemma lock_body_throw op pd msg : lock_body op pd = Panic msg → msg ∈ locked_throws.
Proof.
  assert (Hw : when_panic ∈ locked_throws) by (do 3 apply list_elem_of_further; apply list_elem_of_here).
  destruct op as [d mode now| |seq read write]; cbn [lock_body].
  - destruct (closing pd); [done|]. cbv zeta.
    destruct (set_read_timer _ _ _ _) as [pd2| |m] eqn:H2; cbn [mbind res_bind]; [|done|].
    + destruct (set_write_timer _ _ _ _) as [pd3| |m] eqn:H3; cbn [mbind res_bind]; [done..|].
      apply set_write_timer_throw in H3 as ->. by intros [= <-].
    + apply set_read_timer_throw in H2 as ->. by intros [= <-].
  - destruct (closing pd); [|done]. intros [= <-]. apply list_elem_of_here.
  - cbv zeta. destruct (negb _); [done|]. destruct read; [|done]. destruct (_ || _); [|done].
    intros [= <-]. apply list_elem_of_further, list_elem_of_here.
Qed.
Lemma instr_throw ins pd msg : instr_turn ins pd = IPanic msg → msg ∈ locked_throws.
Proof.
  destruct ins as [[x|]|m io [old|]|b q [x|]|read]; cbn [instr_turn]; unfold isdone; try done.
  - by destruct (_ =? _).
  - destruct (decide _); [|done]. destruct (unblock_turn _ _); [|done]. by destruct (unblocked old).
  - by destruct (unblock_turn _ _).
  - by destruct (_ =? _).
  - cbv zeta. destruct (_ && _); [done|]. by destruct (Bool.eqb _ _).
  - destruct (_ || _); [|done]. intros [= <-]. do 2 apply list_elem_of_further. apply list_elem_of_here.
Qed.
(** A thread that is to be made ready is parked. *)
Lemma wake_parked s i g r d : inv s → pcs s !! i = Some (Wake (g :: r) d) →
  ∃ m, pcs s !! g = Some (Parked m).
Proof.
  intros Hs Hi. pose proof (inv_wake _ Hs g) as Hw.
  pose proof (total_ge (wakes g) (pcs s) i _ ltac:(intros; apply total_nonneg; intros; apply b2z_01) Hi) as H.
  unfold wakes in H at 1. cbn [pending total] in H. rewrite bool_decide_eq_true_2 in H by done.
  pose proof (total_nonneg (λ x, Z.b2z (bool_decide (x = g))) r ltac:(intros; apply b2z_01)).
  unfold isg in Hw. pose proof (b2z_01 (bool_decide (sema R (pd s) = G g))).
  pose proof (b2z_01 (bool_decide (sema W (pd s) = G g))). simpl in H.
  destruct (pcs s !! g) as [[]|]; simpl in Hw; try lia. by eexists.
Qed.
Lemma wait_no_throw s i p msg : inv s → pcs s !! i = Some p → wait_turn i p (pd s) ≠ Throw msg.
Proof.
  intros Hs Hi H.
  assert (HS : ∀ m, in_mode m p = true → (∀ g, sema m (pd s) = G g → g = i ∧ p = Parked m) ∧
            (sema m (pd s) = pdWait → may_wait m p)) by (intros m; by apply sema_of).
  destruct p as [|e|m|m|m|m|m|m|m|m|m|m|m|op|ev tag|h l r d|r d]; cbn [wait_turn] in H; try done;
    try (by destruct (negb _)); try (by destruct (decide _));
    specialize (HS m (bool_decide_eq_true_2 _ eq_refl)) as [HG HW].
  - destruct (sema m (pd s)) as [| | |g]; try done; [|by destruct (HG g eq_refl)].
    destruct (HW eq_refl) as [|[|]]; done.
  - destruct (sema m (pd s)) as [| | |g]; try done. by destruct (HG g eq_refl).
Qed.

(** The semaphores never go wrong: no interleaving makes the runtime throw
    "double wait" or "corrupted polldesc", nor make ready a goroutine that is
    not parked; the only throws left are the consistency checks of the
    operations under the lock. *)
Theorem semaphores_never_throw pd0 n s mv msg : opened pd0 → reach pd0 n s →
  exec mv s = Throw msg → msg ∈ locked_throws.
Proof.
  intros Ho Hr%reach_inv; [|done]. destruct mv as [i o|i|]; cbn [exec].
  - destruct (pcs s !! i) as [p|]; [|done]. destruct p; try done; destruct o; cbn [begin_op];
      try done; by destruct (mode_free _ _).
  - destruct (pcs s !! i) as [p|] eqn:Hi; [|done]. intros H.
    pose proof (wait_no_throw s i p) as Hw.
    destruct p as [|e|m|m|m|m|m|m|m|m|m|m|m|op|ev tag|h l r d|r d]; cbn [tick] in H; try done;
      try (by (destruct (wait_turn _ _ _) as [|msg'|[[]]] eqn:E; [done| |done]; by edestruct Hw)).
    + destruct (locked s); [done|]. destruct (lock_body op (pd s)) as [[]| |] eqn:E; [done..|].
      injection H as ->. by eapply lock_body_throw.
    + destruct l as [|ins l]; [done|]. destruct (instr_turn ins (pd s)) eqn:E; [done|].
      injection H as ->. by eapply instr_throw.
    + destruct r as [|g r]; [done|]. destruct (wake_parked _ _ _ _ _ Hr Hi) as [m E]. by rewrite E in H.
  - by destruct (0 <? commits s).
Qed.

(** A schedule: goroutine 0 waits for reading and parks, thread 1 takes the lock
    to close the descriptor. *)
Definition fresh : pollDesc :=
  match pollOpen_locked 5 zeroPD with Ok pd => pd | _ => zeroPD end.
Lemma fresh_opened : opened fresh.
Proof. exists 5, zeroPD. reflexivity. Qed.
Definition park_moves : list move :=
  [Begin 0 (OWait R); Tick 0; Tick 0; Tick 0; Tick 0; Tick 0]%nat.
Definition close_moves : list move := park_moves ++ [Count; Begin 1 (OLock OpUnblock); Tick 1; Tick 1; Tick 1].
Definition get (o : moved sys) : sys := match o with Next s => s | _ => init zeroPD 0 end.
Definition parked_sys : sys := get (run park_moves (init fresh 2)).
Definition closing_sys : sys := get (run close_moves (init fresh 2)).
Lemma run_reach pd0 n mvs s s' : reach pd0 n s → run mvs s = Next s' → reach pd0 n s'.
Proof.
  revert s. induction mvs as [|mv mvs IH]; intros s Hr E; [by injection E as <-|].
  cbn [run] in E. destruct (exec mv s) as [| |s1] eqn:E1; [done..|].
  eapply IH; [|done]. by eapply reach_exec.
Qed.
Lemma parked_reach : reach fresh 2 parked_sys.
Proof. eapply (run_reach _ _ park_moves); [apply reach_init|vm_compute; reflexivity]. Qed.
Lemma closing_reach : reach fresh 2 closing_sys.
Proof. eapply (run_reach _ _ close_moves); [apply reach_init|vm_compute; reflexivity]. Qed.

Lemma semaphores_never_throw_witness :
  exec (Begin 1 (OLock OpUnblock)) closing_sys = Blocked ∧
  let s := get (run [Begin 1 (OLock OpUnblock)] (init (set_closing true fresh) 2)) in
  exec (Tick 1) s = Throw [Lit "runtime: unblock on closing polldesc"%go] ∧
  (exec (Tick 0) parked_sys = Throw [] → [] ∈ locked_throws).
Proof.
  split; [vm_compute; reflexivity|]. cbv zeta. split; [vm_compute; reflexivity|].
  exact (semaphores_never_throw _ _ _ _ _ fresh_opened parked_reach).
Defined.

(** ** No lost wake-up *)
Lemma wakes_zero g p : wakes g p = 0 ↔ g ∉ pending p.
Proof.
  unfold wakes. induction (pending p) as [|x l IH]; [split; [intros _ []%elem_of_nil|done]|].
  cbn [total]. rewrite not_elem_of_cons.
  pose proof (total_nonneg (λ y, Z.b2z (bool_decide (y = g))) l ltac:(intros; apply b2z_01)).
  destruct (decide (x = g)) as [->|Hn].
  - rewrite bool_decide_eq_true_2 by done. simpl. split; [lia|naive_solver].
  - rewrite bool_decide_eq_false_2 by done. simpl. rewrite IH. naive_solver.
Qed.
Lemma wakes_nonneg g p : 0 <= wakes g p.
Proof. apply total_nonneg. intros; apply b2z_01. Qed.
Lemma parked_isg s i m : inv s → pcs s !! i = Some (Parked m) →
  total (wakes i) (pcs s) + isg i (sema m (pd s)) = 1.
Proof.
  intros Hs Hi. pose proof (inv_wake _ Hs i) as Hw. rewrite Hi in Hw. cbn [parked] in Hw.
  assert (Hne : ∀ m', m' ≠ m → isg i (sema m' (pd s)) = 0).
  { intros m' Hn. unfold isg. rewrite bool_decide_eq_false_2; [done|]. intros E.
    pose proof (inv_sema _ Hs m') as Ho. unfold sema_ok in Ho. rewrite E, Hi in Ho. congruence. }
  destruct m; [rewrite (Hne W) in Hw by done|rewrite (Hne R) in Hw by done]; lia.
Qed.

Lemma parked_where s i m : inv s → pcs s !! i = Some (Parked m) →
  sema m (pd s) = G i ∧ (∀ j p, pcs s !! j = Some p → i ∉ pending p) ∨
  sema m (pd s) ≠ G i ∧ ∃ j p, pcs s !! j = Some p ∧ i ∈ pending p ∧
    ∀ j' p', pcs s !! j' = Some p' → i ∈ pending p' → j' = j.
Proof.
  intros Hs Hi. pose proof (parked_isg _ _ _ Hs Hi) as Hw.
  destruct (decide (sema m (pd s) = G i)) as [E|E]; [left|right]; (split; [done|]); unfold isg in Hw.
  - rewrite bool_decide_eq_true_2 in Hw by done. simpl in Hw. intros j p Hj. apply wakes_zero.
    pose proof (total_ge (wakes i) _ j p (wakes_nonneg i) Hj). pose proof (wakes_nonneg i p). lia.
  - rewrite bool_decide_eq_false_2 in Hw by done. simpl in Hw.
    destruct (total_pos (wakes i) (pcs s)) as (j&p&Hj&Hp); [lia|]. exists j, p. split; [done|].
    assert (Hin : ∀ q, i ∈ pending q → 1 <= wakes i q).
    { intros q Hq. pose proof (wakes_nonneg i q). destruct (decide (wakes i q = 0)) as [H0|]; [|lia].
      by apply wakes_zero in H0. }
    split. { destruct (decide (i ∈ pending p)) as [|Hn]; [done|]. apply wakes_zero in Hn. lia. }
    intros j' p' Hj' Hp'%Hin. destruct (decide (j = j')) as [|Hne]; [done|].
    pose proof (total_two (wakes i) _ j j' p p' (wakes_nonneg i) Hj Hj' Hne). lia.
Qed.

(** C10: No lost wake-up: a parked goroutine is either in its mode's semaphore,
    where the next event, expiry or close finds it, and then no thread is about
    to wake it; or it has been taken out and exactly one thread is about to
    make it ready. *)
Theorem parked_accounted pd0 n s i m : opened pd0 → reach pd0 n s →
  pcs s !! i = Some (Parked m) →
  sema m (pd s) = G i ∧ (∀ j p, pcs s !! j = Some p → i ∉ pending p) ∨
  sema m (pd s) ≠ G i ∧ ∃ j p, pcs s !! j = Some p ∧ i ∈ pending p ∧
    ∀ j' p', pcs s !! j' = Some p' → i ∈ pending p' → j' = j.
Proof. intros Ho Hr Hi. by apply parked_where; [apply (reach_inv pd0 n)|]. Qed.
Lemma parked_accounted_witness :
  pcs parked_sys !! 0%nat = Some (Parked R) ∧
  (sema R (pd parked_sys) = G 0 ∧ (∀ j p, pcs parked_sys !! j = Some p → 0%nat ∉ pending p) ∨
   sema R (pd parked_sys) ≠ G 0 ∧ ∃ j p, pcs parked_sys !! j = Some p ∧ 0%nat ∈ pending p ∧
     ∀ j' p', pcs parked_sys !! j' = Some p' → 0%nat ∈ pending p' → j' = j).
Proof.
  assert (Hp : pcs parked_sys !! 0%nat = Some (Parked R)) by (vm_compute; reflexivity).
  split; [exact Hp|]. exact (parked_accounted _ _ _ _ _ fresh_opened parked_reach Hp).
Defined.

(** A thread that is not waiting for another one. *)
Definition can_move (s : sys) (j : nat) : Prop := exec (Tick j) s ≠ Blocked.
Lemma run_moves s j h l r d : pcs s !! j = Some (Run h l r d) → can_move s j.
Proof.
  unfold can_move. cbn [exec]. intros ->. cbn [tick]. destruct l as [|ins l]; [done|].
  by destruct (instr_turn ins (pd s)).
Qed.
Lemma wake_moves s j r d : pcs s !! j = Some (Wake r d) → can_move s j.
Proof.
  unfold can_move. cbn [exec]. intros ->. cbn [tick]. destruct r as [|g r]; [done|].
  by destruct (pcs s !! g) as [[]|].
Qed.

(** The descriptor is closing, or the mode's deadline has expired: it was set in
    the past, or its timer has run.  The fields, not their published summary. *)
Definition over (m : dir) (pd : pollDesc) : Prop :=
  closing pd = true ∨ match m with R => rd pd | W => wd pd end < 0.
Lemma over_field m pd : over m pd → field_err m pd = true.
Proof.
  unfold over, field_err. intros [->|H]; [done|]. apply orb_true_iff. right. destruct m; by apply Z.ltb_lt.
Qed.

(** C11: Nobody stays parked on a descriptor that is closed or whose deadline has
    expired: from the moment the field is set - and also as long as the published
    summary says so - a thread that can move is on the way to wake the goroutine:
    either it holds the lock and has still to unblock the mode, or it has the
    goroutine in hand. *)
Theorem expired_or_closed_wakes pd0 n s i m : opened pd0 → reach pd0 n s →
  pcs s !! i = Some (Parked m) → over m (pd s) ∨ info_err m (pd s) = true →
  ∃ j p, pcs s !! j = Some p ∧ can_move s j ∧
    (i ∈ pending p ∨ ∃ l r d, p = Run true l r d ∧ owed m l = true).
Proof.
  intros Ho Hr Hi He. pose proof (reach_inv _ _ _ Ho Hr) as Hs.
  destruct (parked_where _ _ _ Hs Hi) as [[E _]|[_ (j&p&Hj&Hp&_)]].
  - destruct (info_err m (pd s)) eqn:Einf.
    { destruct (inv_owed _ Hs m Einf) as (j&l&r&d&Hj&Hl); [left; by rewrite E|].
      exists j, (Run true l r d). split; [done|]. split; [by eapply run_moves|right; eauto]. }
    destruct He as [He%over_field|]; [|done].
    (* not yet published: the holder of the lock is about to *)
    assert (Hns : ¬ synced (pd s)) by (intros Hy; specialize (Hy m); congruence).
    destruct (locked s) eqn:El; [|by destruct Hns; apply (inv_sync _ Hs)].
    pose proof (inv_lock _ Hs) as Hl. rewrite El in Hl.
    destruct (total_pos holds (pcs s)) as (j&p&Hj&Hp); [rewrite Hl; done|].
    destruct p as [| | | | | | | | | | | | | | |[] l r d|]; cbn [holds] in Hp; try lia.
    exists j, (Run true l r d). split; [done|]. split; [by eapply run_moves|]. right. exists l, r, d. split; [done|].
    destruct (inv_crit _ Hs j l r d Hj) as [_ [Hy|(x&l'&->&Hx)]]; [done|].
    destruct (Hx m He) as [H1|H1]; [congruence|exact H1].
  - exists j, p. split; [done|]. split; [|by left].
    destruct p; try (by apply elem_of_nil in Hp); [by eapply run_moves|by eapply wake_moves].
Qed.
Lemma expired_or_closed_wakes_witness :
  pcs closing_sys !! 0%nat = Some (Parked R) ∧ over R (pd closing_sys) ∧
  ∃ j p, pcs closing_sys !! j = Some p ∧ can_move closing_sys j ∧
    (0%nat ∈ pending p ∨ ∃ l r d, p = Run true l r d ∧ owed R l = true).
Proof.
  assert (Hp : pcs closing_sys !! 0%nat = Some (Parked R)) by (vm_compute; reflexivity).
  assert (He : over R (pd closing_sys)) by (left; vm_compute; reflexivity).
  split; [exact Hp|]. split; [exact He|].
  exact (expired_or_closed_wakes _ _ _ _ _ fresh_opened closing_reach Hp (or_introl He)).
Defined.

(** ** The count of waiters *)
Definition is_parked (m : dir) (p : pc) : bool :=
  match p with Parked m' => bool_decide (m = m') | _ => false end.
Definition anyone_parked (m : dir) (s : sys) : bool := existsb (is_parked m) (pcs s).
(** No operation that wakes is under way, and every committed goroutine has
    been counted. *)
Definition settled (s : sys) : Prop :=
  commits s = 0 ∧ ∀ i p, pcs s !! i = Some p → pending p = [] ∧ delta_of p = 0.
Lemma anyone_parked_true m s : anyone_parked m s = true ↔ ∃ i, pcs s !! i = Some (Parked m).
Proof.
  unfold anyone_parked. rewrite existsb_exists. split.
  - intros (p&Hp%list_elem_of_In&H). apply list_elem_of_lookup_1 in Hp as [i Hi].
    destruct p; try done. apply bool_decide_eq_true in H as ->. by exists i.
  - intros [i Hi]. exists (Parked m). split; [|by apply bool_decide_eq_true].
    apply list_elem_of_In. by eapply list_elem_of_lookup_2.
Qed.
Lemma settled_isG s m : inv s → settled s → isG (sema m (pd s)) = Z.b2z (anyone_parked m s).
Proof.
  intros Hs [_ Hq]. destruct (anyone_parked m s) eqn:E.
  - apply anyone_parked_true in E as [i Hi].
    destruct (parked_where s i m Hs Hi) as [[-> _]|[_ (j&p&Hj&Hp&_)]]; [done|].
    destruct (Hq j p Hj) as [E _]. rewrite E in Hp. by apply elem_of_nil in Hp.
  - destruct (sema m (pd s)) as [| | |g] eqn:Em; try done. exfalso.
    pose proof (inv_sema _ Hs m) as Ho. unfold sema_ok in Ho. rewrite Em in Ho.
    assert (anyone_parked m s = true) by (apply anyone_parked_true; by exists g). congruence.
Qed.

(** The count the scheduler relies on is right: whenever no wake-up is under
    way, netpollWaiters is the number of goroutines parked on the descriptor,
    at most one per mode. *)
Theorem waiters_accurate pd0 n s : opened pd0 → reach pd0 n s → settled s →
  netpollWaiters s = Z.b2z (anyone_parked R s) + Z.b2z (anyone_parked W s) ∧
  (∀ m i j, pcs s !! i = Some (Parked m) → pcs s !! j = Some (Parked m) → i = j).
Proof.
  intros Ho Hr Hq. pose proof (reach_inv _ _ _ Ho Hr) as Hs. split.
  - rewrite (inv_count _ Hs), !(settled_isG s _ Hs Hq). destruct Hq as [-> Hq].
    rewrite total_zero by (intros i p Hi; by apply (Hq i)).
    by destruct (anyone_parked R s), (anyone_parked W s).
  - intros m i j Hi Hj. eapply (in_mode_unique s m); [done..|apply in_mode_parked|apply in_mode_parked].
Qed.
Lemma waiters_accurate_witness :
  let s := get (run (park_moves ++ [Count]) (init fresh 2)) in
  settled s ∧ netpollWaiters s = 1 ∧
  (∀ m i j, pcs s !! i = Some (Parked m) → pcs s !! j = Some (Parked m) → i = j).
Proof.
  cbv zeta. set (s := get _).
  assert (Hr : reach fresh 2 s) by
    (eapply (run_reach _ _ (park_moves ++ [Count])); [apply reach_init|vm_compute; reflexivity]).
  assert (Hq : settled s).
  { split; [vm_compute; reflexivity|].
    assert (E : pcs s = [Parked R; Idle]) by (vm_compute; reflexivity). rewrite E.
    intros [|[|i]] p Hi; simplify_eq/=; done. }
  destruct (waiters_accurate _ _ _ fresh_opened Hr Hq) as [E H].
  split; [exact Hq|]. split; [|exact H]. rewrite E. vm_compute. reflexivity.
Defined.

(** A descriptor is closed only when nobody uses it, and then pollClose
    accepts it: with the lock free, the descriptor closing and no goroutine
    between the start and the end of a wait, both semaphores are free. *)
Theorem pollClose_accepts pd0 n s : opened pd0 → reach pd0 n s →
  closing (pd s) = true → mode_free R (pcs s) = true → mode_free W (pcs s) = true →
  pollClose_check (pd s) = Ok tt.
Proof.
  intros Ho Hr Hc HR HW. pose proof (reach_inv _ _ _ Ho Hr) as Hs.
  assert (Hf : ∀ m, mode_free m (pcs s) = true → blocked (sema m (pd s)) = false).
  { intros m Hm. unfold mode_free in Hm. rewrite forallb_forall in Hm.
    assert (Hn : ∀ i p, pcs s !! i = Some p → in_mode m p = false).
    { intros i p Hi. apply negb_true_iff, Hm, list_elem_of_In. by eapply list_elem_of_lookup_2. }
    pose proof (inv_sema _ Hs m) as Hso. unfold sema_ok in Hso.
    destruct (sema m (pd s)) as [| | |g]; try done.
    - destruct Hso as (i&p&Hi&Hp%may_wait_mode). by rewrite (Hn i p Hi) in Hp.
    - by rewrite <- (Hn g _ Hso), in_mode_parked. }
  unfold pollClose_check. rewrite Hc. pose proof (Hf R HR) as ER. pose proof (Hf W HW) as EW.
  change (sema R (pd s)) with (rg (pd s)) in ER. change (sema W (pd s)) with (wg (pd s)) in EW.
  by rewrite ER, EW.
Qed.
Definition closed_moves : list move :=
  park_moves ++ Count :: Begin 1 (OLock OpUnblock) :: repeat (Tick 1) 9 ++ [Tick 0; Tick 0]%nat.
Lemma pollClose_accepts_witness :
  let s := get (run closed_moves (init fresh 2)) in
  pcs s = [Ret pollErrClosing; Idle] ∧ netpollWaiters s = 0 ∧ pollClose_check (pd s) = Ok tt.
Proof.
  cbv zeta. set (s := get _). assert (Ep : pcs s = [Ret pollErrClosing; Idle]) by (vm_compute; reflexivity).
  split; [exact Ep|]. split; [vm_compute; reflexivity|].
  assert (Hr : reach fresh 2 s) by
    (eapply (run_reach _ _ closed_moves); [apply reach_init|vm_compute; reflexivity]).
  assert (Hc : closing (pd s) = true) by (vm_compute; reflexivity).
  apply (pollClose_accepts fresh 2 s fresh_opened Hr Hc); rewrite Ep; reflexivity.
Defined.

(** ** The operations under the lock, alone *)
(** Thread [i] runs by itself from [s] to [s']. *)
Definition solo (i : nat) (s s' : sys) : Prop := ∃ k, run (repeat (Tick i) k) s = Next s'.
Lemma run_app mvs mvs' s s' : run mvs s = Next s' → run (mvs ++ mvs') s = run mvs' s'.
Proof.
  revert s. induction mvs as [|mv mvs IH]; intros s E; [by injection E as <-|].
  cbn [run app] in *. destruct (exec mv s); [done..|]. by apply IH.
Qed.
Lemma solo_refl i s : solo i s s.
Proof. by exists 0%nat. Qed.
Lemma solo_trans i s1 s2 s3 : solo i s1 s2 → solo i s2 s3 → solo i s1 s3.
Proof.
  intros [k1 H1] [k2 H2]. exists (k1 + k2)%nat. rewrite repeat_app. by rewrite (run_app _ _ _ _ H1).
Qed.
Lemma solo_one i s s' : exec (Tick i) s = Next s' → solo i s s'.
Proof. intros E. exists 1%nat. cbn [repeat run]. by rewrite E. Qed.

Section Solo.
Context (i : nat) (lk : bool) (w c : Z) (ps : list pc) (Hi : (i < length ps)%nat).
Let at_ (pd : pollDesc) (p : pc) : sys := MkSys pd lk w c (<[i := p]> ps).
Implicit Types (pd : pollDesc) (l : list instr) (r : list nat) (d : Z).

Lemma solo_instr pd ins l r d pd' again g d' :
  instr_turn ins pd = ITurn pd' again g d' →
  solo i (at_ pd (Run true (ins :: l) r d))
         (at_ pd' (Run true (option_list again ++ l) (r ++ option_list g) (d + d'))).
Proof.
  intros E. apply solo_one. unfold at_, exec. cbn [pcs]. rewrite list_lookup_insert_eq by done.
  unfold tick. cbn [NetpollWait.pd locked netpollWaiters commits pcs]. rewrite E.
  by rewrite list_insert_insert_eq.
Qed.
Lemma solo_publish pd l r d :
  solo i (at_ pd (Run true (IPublish None :: l) r d)) (at_ (publishInfo pd) (Run true l r d)).
Proof.
  eapply solo_trans; [by apply solo_instr|]. cbn [option_list app]. rewrite app_nil_r, Z.add_0_r.
  eapply solo_trans.
  - apply solo_instr. cbn [instr_turn]. by rewrite Z.eqb_refl.
  - cbn [option_list app]. rewrite app_nil_r, Z.add_0_r. apply solo_refl.
Qed.
Lemma solo_unblock m io pd l r d : 
  solo i (at_ pd (Run true (IUnblock m io None :: l) r d))
    (let '(pd', g, d') := netpollunblock pd (mode_of m) io d in
     at_ pd' (Run true l (r ++ option_list g) d')).
Proof.
  unfold netpollunblock. change (gpp (mode_of m) pd) with (sema m pd). cbv zeta.
  destruct (unblock_turn (sema m pd) io) as [new|] eqn:Et.
  - destruct (unblocked (sema m pd)) as [g d'] eqn:Eu. eapply solo_trans.
    + apply solo_instr. cbn [instr_turn]. by rewrite Et.
    + cbn [option_list app]. rewrite app_nil_r, Z.add_0_r. eapply solo_trans.
      * apply solo_instr. cbn [instr_turn]. rewrite decide_True, Et, Eu by done. reflexivity.
      * apply solo_refl.
  - eapply solo_trans.
    + apply solo_instr. cbn [instr_turn]. by rewrite Et.
    + cbn [option_list app]. rewrite Z.add_0_r. apply solo_refl.
Qed.
Lemma solo_unblocks m b pd l r d : 
  solo i (at_ pd (Run true (unblocks m b ++ l) r d))
    (let '(pd', g, d') := if b then netpollunblock pd (mode_of m) false d else (pd, None, d) in
     at_ pd' (Run true l (r ++ option_list g) d')).
Proof.
  destruct b; [apply solo_unblock|]. cbn. rewrite app_nil_r. apply solo_refl.
Qed.
End Solo.

(** The same operation as one function of the descriptor (Netpoll). *)
Definition seq_op (op : lockop) (pd : pollDesc) : res Netpoll.outcome :=
  match op with
  | OpDeadline d mode now => poll_runtime_pollSetDeadline pd d mode now
  | OpUnblock => poll_runtime_pollUnblock pd
  | OpTimer seq read write => netpolldeadlineimpl pd seq read write
  end.
(** Publishing and the timers do not see each other. *)
Lemma set_read_timer_info x rd0 c0 c pd :
  set_read_timer rd0 c0 c (set_info x pd) = pd' ← set_read_timer rd0 c0 c pd; Ok (set_info x pd').
Proof.
  unfold set_read_timer, resettimer, modtimer. cbn [set_info rt rd rseq t_f set_rseq].
  destruct (t_f (rt pd)); [destruct (_ || _); [|done]|]; destruct (_ >? _); try done; by destruct (_ <=? _).
Qed.
Lemma set_write_timer_info x wd0 c0 c pd :
  set_write_timer wd0 c0 c (set_info x pd) = pd' ← set_write_timer wd0 c0 c pd; Ok (set_info x pd').
Proof.
  unfold set_write_timer, resettimer, modtimer. cbn [set_info wt wd wseq t_f set_wseq].
  destruct (t_f (wt pd)); [destruct (_ || _); [|done]|]; destruct (_ && _); try done; by destruct (_ <=? _).
Qed.
(** Waking does not see the timers. *)
Definition drop_timers (pd : pollDesc) : pollDesc :=
  set_wt (drop_timer (wt pd)) (set_rt (drop_timer (rt pd)) pd).
Lemma unblock_drop m io d pd : netpollunblock (drop_timers pd) (mode_of m) io d =
  let '(pd', g, d') := netpollunblock pd (mode_of m) io d in (drop_timers pd', g, d').
Proof.
  unfold netpollunblock. replace (gpp (mode_of m) (drop_timers pd)) with (gpp (mode_of m) pd) by (by destruct m).
  destruct (unblock_turn _ _); [|done]. destruct (unblocked _). by destruct m.
Qed.

Section Refine.
Context (s : sys) (i : nat) (op : lockop) (Hi : pcs s !! i = Some (Locking op)) (Hl : locked s = false).
Let Hlt : (i < length (pcs s))%nat := lookup_lt_Some _ _ _ Hi.
Let st (lk : bool) (pd : pollDesc) (p : pc) : sys :=
  MkSys pd lk (netpollWaiters s) (commits s) (<[i := p]> (pcs s)).

Lemma solo_lock pd l : lock_body op (NetpollWait.pd s) = Ok (pd, l) → solo i s (st true pd (Run true l [] 0)).
Proof. intros E. apply solo_one. cbn [exec]. rewrite Hi. cbn [tick]. by rewrite Hl, E. Qed.
Lemma solo_unlock pd r d : solo i (st true pd (Run true [] r d)) (st false pd (Wake r d)).
Proof.
  apply solo_one. unfold st, exec. cbn [pcs]. rewrite list_lookup_insert_eq by done.
  cbn [tick NetpollWait.pd netpollWaiters commits pcs]. by rewrite list_insert_insert_eq.
Qed.
(** Publish, wake the waiters of the modes told, unlock. *)
Lemma solo_wake (bR bW : bool) pd :
  solo i (st true pd (Run true (IPublish None :: unblocks R bR ++ unblocks W bW) [] 0))
    (let '(pd, g1, d) := if bR then netpollunblock (publishInfo pd) mode_r false 0
                         else (publishInfo pd, None, 0) in
     let '(pd, g2, d) := if bW then netpollunblock pd mode_w false d else (pd, None, d) in
     st false pd (Wake (ready_list g1 g2) d)).
Proof.
  eapply solo_trans; [apply (solo_publish i true _ _ (pcs s) Hlt)|].
  eapply solo_trans; [apply (solo_unblocks i true _ _ (pcs s) Hlt R)|]. cbn [mode_of].
  destruct (if bR then _ else _) as [[pd1 g1] d1]. rewrite <- (app_nil_r (unblocks W bW)).
  eapply solo_trans; [apply (solo_unblocks i true _ _ (pcs s) Hlt W)|]. cbn [mode_of].
  destruct (if bW then _ else _) as [[pd2 g2] d2]. apply solo_unlock.
Qed.
End Refine.

Lemma deadline_refines s i d mode now o : pcs s !! i = Some (Locking (OpDeadline d mode now)) →
  locked s = false → poll_runtime_pollSetDeadline (pd s) d mode now = Ok o →
  solo i s (MkSys (o_pd o) false (netpollWaiters s) (commits s)
                  (<[i := Wake (o_ready o) (o_delta o)]> (pcs s))).
Proof.
  intros Hi Hl. unfold poll_runtime_pollSetDeadline.
  pose proof (solo_lock s i _ Hi Hl) as HL. cbn [lock_body] in HL.
  destruct (closing (pd s)).
  { intros [= <-]. cbn [o_pd o_ready o_delta]. eapply solo_trans; [by apply HL|]. by eapply solo_unlock. }
  cbv zeta in *. set (pd1 := if (mode =? mode_w) || _ then _ else _) in *.
  change (publishInfo pd1) with (set_info (publish_word (atomicInfo pd1) (publish_bits pd1)) pd1).
  set (x := publish_word _ _). rewrite set_read_timer_info.
  change (combo_of (set_info x pd1)) with (combo_of pd1).
  destruct (set_read_timer _ _ _ pd1) as [pd2| |] eqn:E2; [|done..]. cbn [mbind res_bind] in *.
  rewrite set_write_timer_info.
  destruct (set_write_timer _ _ _ pd2) as [pd3| |] eqn:E3; [|done..]. cbn [mbind res_bind] in *.
  assert (Ex : publishInfo pd3 = set_info x pd3).
  { apply set_read_timer_frame in E2 as (t2&n2&->). by apply set_write_timer_frame in E3 as (t3&n3&->). }
  intros H. eapply solo_trans; [by apply HL|]. eapply solo_trans; [by eapply solo_wake|].
  rewrite Ex. cbn [set_info rd wd] in H |- *.
  destruct (if rd pd3 <? 0 then _ else _) as [[pd4 g4] d4] eqn:E4.
  assert (Hw : wd pd4 = wd pd3).
  { revert E4. unfold netpollunblock. destruct (rd pd3 <? 0); [|by intros [= <- _ _]].
    destruct (unblock_turn _ _); [|by intros [= <- _ _]]. destruct (unblocked _). by intros [= <- _ _]. }
  rewrite Hw in H. destruct (if wd pd3 <? 0 then _ else _) as [[pd5 g5] d5].
  injection H as <-. apply solo_refl.
Qed.
Lemma unblock_refines s i o : pcs s !! i = Some (Locking OpUnblock) → locked s = false →
  poll_runtime_pollUnblock (pd s) = Ok o →
  solo i s (MkSys (o_pd o) false (netpollWaiters s) (commits s)
                  (<[i := Wake (o_ready o) (o_delta o)]> (pcs s))).
Proof.
  intros Hi Hl. unfold poll_runtime_pollUnblock.
  pose proof (solo_lock s i _ Hi Hl) as HL. cbn [lock_body] in HL.
  destruct (closing (pd s)); [done|]. cbv zeta in *. intros H.
  eapply solo_trans; [by apply HL|]. eapply solo_trans; [by eapply (solo_wake s i _ Hi true true)|].
  set (pd1 := set_wseq _ _) in *. 
  match goal with |- context [publishInfo ?p] => change (publishInfo p) with (drop_timers (publishInfo pd1)) end.
  change mode_r with (mode_of R) in H |- *. change mode_w with (mode_of W) in H |- *.
  rewrite unblock_drop. destruct (netpollunblock (publishInfo pd1) _ _ _) as [[pd2 g2] d2].
  rewrite unblock_drop. destruct (netpollunblock pd2 _ _ _) as [[pd3 g3] d3].
  injection H as <-. apply solo_refl.
Qed.
(** The write half of netpolldeadlineimpl. *)
Lemma solo_write s i op read pd r d : pcs s !! i = Some (Locking op) →
  ((wd pd <=? 0) || match t_f (wt pd) with None => true | Some _ => false end && negb read) = false →
  solo i (MkSys pd true (netpollWaiters s) (commits s)
            (<[i := Run true (IWriteDeadline read :: IPublish None :: unblocks W true) r d]> (pcs s)))
    (let '(pd, g, d) := netpollunblock (publishInfo (set_wd (-1) pd)) mode_w false d in
     MkSys pd false (netpollWaiters s) (commits s) (<[i := Wake (r ++ option_list g) d]> (pcs s))).
Proof.
  intros Hi Hw. pose proof (lookup_lt_Some _ _ _ Hi) as Hlt.
  eapply solo_trans.
  { eapply (solo_instr i true _ _ (pcs s) Hlt). cbn [instr_turn]. rewrite Hw. reflexivity. }
  cbn [option_list app]. rewrite app_nil_r, Z.add_0_r.
  eapply solo_trans; [apply (solo_publish i true _ _ (pcs s) Hlt)|].
  eapply solo_trans; [apply (solo_unblock i true _ _ (pcs s) Hlt W)|]. cbn [mode_of].
  destruct (netpollunblock _ _ _ _) as [[pd' g] d']. by eapply solo_unlock.
Qed.
Lemma timer_refines s i seq read write o : pcs s !! i = Some (Locking (OpTimer seq read write)) →
  locked s = false → netpolldeadlineimpl (pd s) seq read write = Ok o →
  solo i s (MkSys (o_pd o) false (netpollWaiters s) (commits s)
                  (<[i := Wake (o_ready o) (o_delta o)]> (pcs s))).
Proof.
  intros Hi Hl. pose proof (lookup_lt_Some _ _ _ Hi) as Hlt. unfold netpolldeadlineimpl.
  pose proof (solo_lock s i _ Hi Hl) as HL. cbn [lock_body] in HL. cbv zeta in *.
  destruct (negb (seq =? _)).
  { intros [= <-]. eapply solo_trans; [by apply HL|]. by eapply solo_unlock. }
  destruct read; cbn [andb negb] in *.
  - destruct (_ || _); [done|]. intros H. eapply solo_trans; [by apply HL|].
    eapply solo_trans; [apply (solo_publish i true _ _ (pcs s) Hlt)|].
    eapply solo_trans; [apply (solo_unblocks i true _ _ (pcs s) Hlt R true)|]. cbn [mode_of].
    destruct (netpollunblock _ mode_r _ _) as [[pd1 g1] d1]. destruct write; cbn [andb] in H.
    + destruct (_ || _) eqn:Hw; [done|]. eapply solo_trans; [apply (solo_write s i _ true pd1 _ _ Hi Hw)|].
      destruct (netpollunblock _ mode_w _ _) as [[pd2 g2] d2]. injection H as <-. apply solo_refl.
    + injection H as <-. cbn [o_pd o_ready o_delta].
      replace (ready_list g1 None) with (option_list g1) by (unfold ready_list; by rewrite app_nil_r).
      by eapply solo_unlock.
  - destruct write; cbn [andb].
    + destruct (_ || _) eqn:Hw; [done|]. intros H. eapply solo_trans; [by apply HL|].
      eapply solo_trans; [apply (solo_write s i _ false (pd s) _ _ Hi Hw)|].
      destruct (netpollunblock _ mode_w _ _) as [[pd2 g2] d2]. injection H as <-. apply solo_refl.
    + intros [= <-]. eapply solo_trans; [by apply HL|]. by eapply solo_unlock.
Qed.

(** The interleaved steps are the source's operations: a thread that takes
    the lock for pollSetDeadline, pollUnblock or a timer callback and is left
    alone leaves the descriptor, the goroutines to make ready and the change of
    netpollWaiters exactly as the whole function does, and releases the lock. *)
Theorem locked_ops_refine s i op o : pcs s !! i = Some (Locking op) → locked s = false →
  seq_op op (pd s) = Ok o →
  ∃ k, run (repeat (Tick i) k) s =
    Next (MkSys (o_pd o) false (netpollWaiters s) (commits s)
                (<[i := Wake (o_ready o) (o_delta o)]> (pcs s))).
Proof.
  intros Hi Hl Ho. change (solo i s (MkSys (o_pd o) false (netpollWaiters s) (commits s)
                (<[i := Wake (o_ready o) (o_delta o)]> (pcs s)))).
  destruct op; [by eapply deadline_refines|by eapply unblock_refines|by eapply timer_refines].
Qed.
Lemma locked_ops_refine_witness :
  let s := get (run (park_moves ++ [Count; Begin 1 (OLock OpUnblock)]) (init fresh 2)) in
  ∃ o, seq_op OpUnblock (pd s) = Ok o ∧ o_ready o = [0%nat] ∧
  ∃ k, run (repeat (Tick 1) k) s =
    Next (MkSys (o_pd o) false (netpollWaiters s) (commits s)
                (<[1%nat := Wake (o_ready o) (o_delta o)]> (pcs s))).
Proof.
  cbv zeta. set (s := get _).
  assert (Ho : ∃ o, seq_op OpUnblock (pd s) = Ok o ∧ o_ready o = [0%nat])
    by (eexists; split; vm_compute; reflexivity).
  destruct Ho as (o&Ho&Hr). exists o. split; [exact Ho|]. split; [exact Hr|].
  apply (locked_ops_refine s 1 OpUnblock o); [vm_compute; reflexivity|vm_compute; reflexivity|exact Ho].
Defined.
