(* ===== verification/TimerHeap.v ===== *)
(** * runtime/time.go: the 4-ary heap of timers

    siftupTimer and siftdownTimer on a slice of timers, given when each is to
    fire; that they restore the heap order, keep the timers and leave the
    entries before the one they report alone.

    A timer is its address, a [nat]; [wh] reads the [when] field. *)
From S2P Require Import Prelude.

Definition badTimer : emsg := [Lit "timer data corruption"%go].
Definition parent (i : nat) : nat := ((i - 1) / 4)%nat.

Lemma delete_insert {A} (l : list A) k z : delete k (<[k := z]> l) = delete k l.
Proof. revert k. induction l as [|a l IH]; intros [|k]; try done. cbn. f_equal. apply IH. Qed.

Section Sift.
Context (wh : nat → Z).
Implicit Types (t : list nat) (i j c p tmp : nat) (w : Z).

(** [t[i]], for an index in range. *)
Definition ent t i : nat := nth i t 0%nat.
Definition key t i : Z := wh (ent t i).

Fixpoint siftup_loop (fuel : nat) t i w : list nat * nat :=
  match fuel with
  | O => (t, i)
  | S fuel =>
      if (0 <? i)%nat then
        let p := parent i in
        if w >=? key t p then (t, i) else siftup_loop fuel (<[i := ent t p]> t) p w
      else (t, i)
  end.
Definition siftupTimer t i : res (list nat * nat) :=
  if (length t <=? i)%nat then Panic badTimer
  else
    let when := key t i in
    if when <=? 0 then Panic badTimer
    else
      let tmp := ent t i in
      let '(t, i) := siftup_loop i t i when in
      Ok (if (tmp =? ent t i)%nat then t else <[i := tmp]> t, i).

(** The smallest of the children of [i], the first of which is [c]. *)
Definition min_child t c : Z * nat :=
  let n := length t in
  let c3 := (c + 2)%nat in
  let w := key t c in
  let '(w, c) :=
    if (c + 1 <? n)%nat && (key t (c + 1) <? w) then (key t (c + 1), c + 1)%nat else (w, c) in
  if (c3 <? n)%nat then
    let w3 := key t c3 in
    let '(w3, c3) :=
      if (c3 + 1 <? n)%nat && (key t (c3 + 1) <? w3) then (key t (c3 + 1), c3 + 1)%nat
      else (w3, c3) in
    if w3 <? w then (w3, c3) else (w, c)
  else (w, c).
Fixpoint siftdown_loop (fuel : nat) t i w : list nat * nat :=
  match fuel with
  | O => (t, i)
  | S fuel =>
      let c := (i * 4 + 1)%nat in
      if (length t <=? c)%nat then (t, i)
      else
        let '(wc, c) := min_child t c in
        if wc >=? w then (t, i) else siftdown_loop fuel (<[i := ent t c]> t) c w
  end.
Definition siftdownTimer t i : res (list nat) :=
  let n := length t in
  if (n <=? i)%nat then Panic badTimer
  else
    let when := key t i in
    if when <=? 0 then Panic badTimer
    else
      let tmp := ent t i in
      let '(t, i) := siftdown_loop n t i when in
      Ok (if (tmp =? ent t i)%nat then t else <[i := tmp]> t).

(** ** The heap order *)
Definition heap t : Prop := ∀ j, (0 < j < length t)%nat → key t (parent j) <= key t j.

Lemma parent_spec i : (0 < i → 4 * parent i + 1 <= i <= 4 * parent i + 4)%nat.
Proof.
  intros Hi. unfold parent. pose proof (Nat.div_mod_eq (i - 1) 4).
  pose proof (Nat.mod_upper_bound (i - 1) 4 ltac:(lia)). lia.
Qed.
Lemma parent_lt i : (0 < i → parent i < i)%nat.
Proof. intros H. pose proof (parent_spec i H). lia. Qed.
Lemma parent_eq i p : (0 < i)%nat → parent i = p ↔ (4 * p + 1 <= i <= 4 * p + 4)%nat.
Proof. intros H. pose proof (parent_spec i H). lia. Qed.

Lemma ent_insert t i x j : (i < length t)%nat →
  ent (<[i := x]> t) j = if decide (j = i) then x else ent t j.
Proof.
  intros Hi. unfold ent. rewrite !nth_lookup. destruct (decide (j = i)) as [->|Hn].
  - by rewrite list_lookup_insert_eq.
  - by rewrite list_lookup_insert_ne.
Qed.
Lemma key_insert t i x j : (i < length t)%nat →
  key (<[i := x]> t) j = if decide (j = i) then wh x else key t j.
Proof. intros Hi. unfold key. rewrite ent_insert by done. by destruct (decide _). Qed.
Lemma ent_lookup t i : (i < length t)%nat → t !! i = Some (ent t i).
Proof.
  intros Hi. unfold ent. rewrite nth_lookup. by destruct (lookup_lt_is_Some_2 t i Hi) as [x ->].
Qed.
(** Moving the hole: an entry is copied into it and leaves a hole behind. *)
Lemma swap_perm t i p x : (i < length t)%nat → (p < length t)%nat → i ≠ p →
  <[p := x]> (<[i := ent t p]> t) ≡ₚ <[i := x]> t.
Proof.
  intros Hi Hp Hip. set (y := ent t p).
  assert (HD : ∀ (k z : nat), (k < length t)%nat → ∀ l : list nat, length l = length t → <[k := z]> l ≡ₚ z :: delete k l).
  { intros k z Hk l Hl. rewrite (delete_Permutation (<[k := z]> l) k z)
      by (apply list_lookup_insert_eq; lia).
    by rewrite delete_insert. }
  rewrite (HD p x Hp) by (by rewrite length_insert). rewrite (HD i x Hi t) by done. constructor.
  apply (Permutation_cons_inv (a := y)). rewrite <- (HD i y Hi t) by done.
  symmetry. apply delete_Permutation. rewrite list_lookup_insert_ne by done. by apply ent_lookup.
Qed.

(** ** Sifting up *)
Definition hole t i w j : Z := if decide (j = i) then w else key t j.
Record up_inv t i w : Prop :=
  { up_lt : (i < length t)%nat;
    up_ord j : (0 < j < length t)%nat → j ≠ i → hole t i w (parent j) <= key t j;
    up_skip j : (0 < j < length t)%nat → parent j = i → (0 < i)%nat → key t (parent i) <= key t j }.
Lemma up_step t i w : up_inv t i w → (0 < i)%nat → w < key t (parent i) →
  up_inv (<[i := ent t (parent i)]> t) (parent i) w.
Proof.
  intros [Hlt Ho Hs] Hi Hw. pose proof (parent_lt i Hi) as Hp. unfold hole in Ho. split.
  - rewrite length_insert. lia.
  - intros j. rewrite length_insert. intros Hj Hn. unfold hole. rewrite !key_insert by done.
    fold (key t (parent i)). pose proof (parent_lt j (proj1 Hj)).
    destruct (decide (j = i)) as [->|Hji]; [by rewrite decide_True by done; lia|].
    specialize (Ho j Hj Hji). destruct (decide (parent j = parent i)) as [E|E].
    + rewrite decide_False in Ho by lia. rewrite E in Ho. lia.
    + destruct (decide (parent j = i)) as [E'|E']; [by apply Hs|done].
  - intros j. rewrite length_insert. intros Hj E Hpi. rewrite !key_insert by done.
    fold (key t (parent i)). pose proof (parent_lt _ Hpi). rewrite decide_False by lia.
    assert (H1 : key t (parent (parent i)) <= key t (parent i)).
    { specialize (Ho (parent i) ltac:(lia) ltac:(lia)). by rewrite decide_False in Ho by lia. }
    destruct (decide (j = i)) as [->|Hji]; [done|]. specialize (Ho j Hj Hji).
    rewrite E, decide_False in Ho by lia. lia.
Qed.
Lemma up_end t i w tmp : up_inv t i w → wh tmp = w → (i = 0%nat ∨ key t (parent i) <= w) →
  heap (<[i := tmp]> t).
Proof.
  intros [Hlt Ho Hs] Hw Hi j. rewrite length_insert. intros Hj. rewrite !key_insert, Hw by done.
  destruct (decide (j = i)) as [->|Hji]; [|by apply Ho].
  pose proof (parent_lt i ltac:(lia)). rewrite decide_False by lia. destruct Hi; [lia|done].
Qed.
Lemma siftup_loop_spec fuel t i w tmp : up_inv t i w → wh tmp = w → (i <= fuel)%nat →
  let '(t', i') := siftup_loop fuel t i w in
  heap (<[i' := tmp]> t') ∧ <[i' := tmp]> t' ≡ₚ <[i := tmp]> t ∧ (i' <= i)%nat ∧
  length t' = length t ∧ (∀ j, (j < i')%nat → ent t' j = ent t j) ∧
  ((0 < i)%nat → key t 0 <= w → (0 < i')%nat).
Proof.
  intros Hu Hw. revert t i Hu. induction fuel as [|fuel IH]; intros t i Hu Hf; cbn [siftup_loop].
  - split; [apply (up_end t i w); [done..|lia]|]. done.
  - destruct (Nat.ltb_spec 0 i) as [Hi|Hi]; [|split; [apply (up_end t i w); [done..|lia]|done]].
    pose proof (parent_lt i Hi) as Hp. pose proof (up_lt _ _ _ Hu) as Hlt.
    rewrite Z.geb_leb. destruct (Z.leb_spec (key t (parent i)) w) as [Hk|Hk].
    + split; [apply (up_end t i w); [done..|by right]|done].
    + specialize (IH _ _ (up_step t i w Hu Hi Hk) ltac:(lia)).
      destruct (siftup_loop _ _ _ _) as [t' i']. destruct IH as (H1&H2&H3&H4&H5&H6).
      rewrite length_insert in H4. split; [done|]. split; [|split; [lia|split; [done|split]]].
      * rewrite H2. apply swap_perm; lia.
      * intros j Hj. rewrite H5, ent_insert by done. by rewrite decide_False by lia.
      * intros _ H0. destruct (decide (parent i = 0%nat)) as [E|E]; [rewrite E in Hk; lia|].
        apply H6; [lia|]. rewrite key_insert, decide_False by lia. done.
Qed.
Lemma write_back t i tmp : (i < length t)%nat →
  (if (tmp =? ent t i)%nat then t else <[i := tmp]> t) = <[i := tmp]> t.
Proof.
  intros Hi. destruct (Nat.eqb_spec tmp (ent t i)) as [->|]; [|done].
  symmetry. apply list_insert_id. by apply ent_lookup.
Qed.
Lemma siftup_spec t i : up_inv t i (key t i) → 0 < key t i →
  ∃ t' i', siftupTimer t i = Ok (t', i') ∧ heap t' ∧ t' ≡ₚ t ∧ (i' <= i)%nat ∧
    (∀ j, (j < i')%nat → ent t' j = ent t j) ∧ ((0 < i)%nat → key t 0 <= key t i → (0 < i')%nat).
Proof.
  intros Hu Hk. pose proof (up_lt _ _ _ Hu) as Hlt. unfold siftupTimer.
  rewrite (proj2 (Nat.leb_gt _ _)), (proj2 (Z.leb_gt _ _)) by done. cbv zeta.
  pose proof (siftup_loop_spec i t i (key t i) (ent t i) Hu eq_refl (le_n i)) as H.
  destruct (siftup_loop _ _ _ _) as [t' i']. destruct H as (H1&H2&H3&H4&H5&H6).
  exists (<[i' := ent t i]> t'), i'. rewrite write_back by lia. split; [done|]. split; [done|].
  rewrite (list_insert_id t i) in H2 by (by apply ent_lookup). split; [done|]. split; [done|].
  split; [|done]. intros j Hj. rewrite ent_insert, decide_False by lia. by apply H5.
Qed.
(** An entry that is in order with its parent stays. *)
Lemma siftup_stay t i : (i < length t)%nat → 0 < key t i →
  ((0 < i)%nat → key t (parent i) <= key t i) → siftupTimer t i = Ok (t, i).
Proof.
  intros Hi Hk Hp. unfold siftupTimer. rewrite (proj2 (Nat.leb_gt _ _)), (proj2 (Z.leb_gt _ _)) by done.
  cbv zeta. assert (E : siftup_loop i t i (key t i) = (t, i)).
  { destruct i as [|i]; [done|]. cbn [siftup_loop]. rewrite Z.geb_leb, (proj2 (Z.leb_le _ _)); [done|].
    apply Hp. lia. }
  rewrite E. by rewrite write_back, list_insert_id by (done || by apply ent_lookup).
Qed.

(** ** Sifting down *)
Record down_inv t i w : Prop :=
  { dn_lt : (i < length t)%nat;
    dn_ord j : (0 < j < length t)%nat → j ≠ i → parent j ≠ i → key t (parent j) <= key t j;
    dn_up : (0 < i)%nat → key t (parent i) <= w;
    dn_skip j : (0 < j < length t)%nat → parent j = i → (0 < i)%nat → key t (parent i) <= key t j }.
Lemma min_child_spec t c : (c < length t)%nat → let '(w, d) := min_child t c in
  w = key t d ∧ (c <= d <= c + 3)%nat ∧ (d < length t)%nat ∧
  ∀ j, (c <= j <= c + 3)%nat → (j < length t)%nat → w <= key t j.
Proof.
  intros Hc. unfold min_child.
  destruct (if (c + 1 <? length t)%nat && _ then _ else _) as [w d] eqn:E.
  assert (H1 : w = key t d ∧ (c <= d <= c + 1)%nat ∧ (d < length t)%nat ∧
            ∀ j, (c <= j <= c + 1)%nat → (j < length t)%nat → w <= key t j).
  { destruct (Nat.ltb_spec (c + 1) (length t)) as [Hl|Hl]; cbn [andb] in E.
    - destruct (Z.ltb_spec (key t (c + 1)) (key t c)); injection E as <- <-;
        (split; [done|]; split; [lia|]; split; [lia|]); intros j Hj _;
        (destruct (decide (j = c)) as [->|]; [lia|]); replace j with (c + 1)%nat by lia; lia.
    - injection E as <- <-. split; [done|]. split; [lia|]. split; [lia|]. intros j Hj Hj'.
      replace j with c by lia. lia. }
  clear E. destruct H1 as (Ew&Hd&Hdl&Hm).
  destruct (Nat.ltb_spec (c + 2) (length t)) as [Hl|Hl]; cycle 1.
  { split; [done|]. split; [lia|]. split; [done|]. intros j Hj Hj'. apply Hm; lia. }
  destruct (if (c + 2 + 1 <? length t)%nat && _ then _ else _) as [w3 c3] eqn:E.
  assert (H3 : w3 = key t c3 ∧ (c + 2 <= c3 <= c + 3)%nat ∧ (c3 < length t)%nat ∧
            ∀ j, (c + 2 <= j <= c + 3)%nat → (j < length t)%nat → w3 <= key t j).
  { destruct (Nat.ltb_spec (c + 2 + 1) (length t)) as [Hl'|Hl']; cbn [andb] in E.
    - destruct (Z.ltb_spec (key t (c + 2 + 1)) (key t (c + 2))); injection E as <- <-;
        (split; [done|]; split; [lia|]; split; [lia|]); intros j Hj _;
        (destruct (decide (j = c + 2)%nat) as [->|]; [lia|]);
        replace j with (c + 2 + 1)%nat by lia; lia.
    - injection E as <- <-. split; [done|]. split; [lia|]. split; [lia|]. intros j Hj Hj'.
      replace j with (c + 2)%nat by lia. lia. }
  clear E. destruct H3 as (Ew3&Hd3&Hdl3&Hm3).
  assert (Hall : ∀ j, (c <= j <= c + 3)%nat → (j < length t)%nat → Z.min w w3 <= key t j).
  { intros j Hj Hj'. destruct (le_lt_dec j (c + 1)).
    - specialize (Hm j ltac:(lia) Hj'). lia.
    - specialize (Hm3 j ltac:(lia) Hj'). lia. }
  destruct (Z.ltb_spec w3 w); (split; [done|]; split; [lia|]; split; [done|]);
    intros j Hj Hj'; specialize (Hall j Hj Hj'); lia.
Qed.
Lemma down_step t i w c : down_inv t i w → (0 < c < length t)%nat → parent c = i →
  key t c <= w → (∀ j, (0 < j < length t)%nat → parent j = i → key t c <= key t j) →
  down_inv (<[i := ent t c]> t) c w.
Proof.
  intros [Hlt Ho Hu Hs] Hc Ec Hw Hmin. pose proof (parent_lt c ltac:(lia)) as Hic. rewrite Ec in Hic. split.
  - rewrite length_insert. lia.
  - intros j. rewrite length_insert. intros Hj Hn Hp. rewrite !key_insert by done. fold (key t c).
    pose proof (parent_lt j (proj1 Hj)). destruct (decide (j = i)) as [->|Hji].
    + rewrite decide_False by lia. apply Hs; [done|done|lia].
    + destruct (decide (parent j = i)) as [E|E]; [by apply Hmin|by apply Ho].
  - intros _. rewrite !key_insert by done. fold (key t c). rewrite decide_True by done. done.
  - intros j. rewrite length_insert. intros Hj E _. rewrite !key_insert by done. fold (key t c).
    pose proof (parent_lt j (proj1 Hj)). rewrite (decide_True (P := parent c = i)) by done.
    rewrite (decide_False (P := j = i)) by lia. rewrite <- E. apply Ho; lia.
Qed.
Lemma down_end t i w tmp : down_inv t i w → wh tmp = w →
  (∀ j, (0 < j < length t)%nat → parent j = i → w <= key t j) → heap (<[i := tmp]> t).
Proof.
  intros [Hlt Ho Hu Hs] Hw Hc j. rewrite length_insert. intros Hj. rewrite !key_insert, Hw by done.
  pose proof (parent_lt j (proj1 Hj)). destruct (decide (j = i)) as [->|Hji].
  - rewrite decide_False by lia. apply Hu. lia.
  - destruct (decide (parent j = i)) as [E|E]; [by apply Hc|by apply Ho].
Qed.
Lemma siftdown_loop_spec fuel t i w tmp : down_inv t i w → wh tmp = w → (length t <= fuel + i)%nat →
  let '(t', i') := siftdown_loop fuel t i w in
  heap (<[i' := tmp]> t') ∧ <[i' := tmp]> t' ≡ₚ <[i := tmp]> t ∧ (i <= i')%nat ∧
  (i' < length t')%nat ∧ length t' = length t ∧ ∀ j, (j < i)%nat → ent t' j = ent t j.
Proof.
  intros Hd Hw. revert t i Hd. induction fuel as [|fuel IH]; intros t i Hd Hf; cbn [siftdown_loop].
  { pose proof (dn_lt _ _ _ Hd). lia. }
  pose proof (dn_lt _ _ _ Hd) as Hlt. destruct (Nat.leb_spec (length t) (i * 4 + 1)) as [Hl|Hl].
  { split; [|done]. apply (down_end t i w); [done..|]. intros j Hj E.
    apply parent_eq in E; lia. }
  pose proof (min_child_spec t (i * 4 + 1) Hl) as Hm. destruct (min_child t _) as [wc c].
  destruct Hm as (->&Hc&Hcl&Hm).
  assert (Hmin : ∀ j, (0 < j < length t)%nat → parent j = i → key t c <= key t j).
  { intros j Hj E%parent_eq; [|lia]. apply Hm; lia. }
  rewrite Z.geb_leb. destruct (Z.leb_spec w (key t c)) as [Hk|Hk].
  { split; [|done]. apply (down_end t i w); [done..|]. intros j Hj E. specialize (Hmin j Hj E). lia. }
  assert (Ec : parent c = i) by (apply parent_eq; lia).
  specialize (IH (<[i := ent t c]> t) c (down_step t i w c Hd ltac:(lia) Ec ltac:(lia) Hmin)).
  rewrite length_insert in IH. specialize (IH ltac:(lia)).
  destruct (siftdown_loop _ _ _ _) as [t' i']. destruct IH as (H1&H2&H3&H4&H5&H6).
  split; [done|]. split; [rewrite H2; apply swap_perm; lia|]. split; [lia|]. split; [done|].
  split; [done|]. intros j Hj. rewrite H6, ent_insert, decide_False by lia. done.
Qed.
Lemma siftdown_spec t i : down_inv t i (key t i) → 0 < key t i →
  ∃ t', siftdownTimer t i = Ok t' ∧ heap t' ∧ t' ≡ₚ t ∧ ∀ j, (j < i)%nat → ent t' j = ent t j.
Proof.
  intros Hd Hk. pose proof (dn_lt _ _ _ Hd) as Hlt. unfold siftdownTimer.
  rewrite (proj2 (Nat.leb_gt _ _)), (proj2 (Z.leb_gt _ _)) by done. cbv zeta.
  pose proof (siftdown_loop_spec (length t) t i (key t i) (ent t i) Hd eq_refl ltac:(lia)) as H.
  destruct (siftdown_loop _ _ _ _) as [t' i']. destruct H as (H1&H2&H3&H4&H5&H6).
  exists (<[i' := ent t i]> t'). rewrite write_back by lia. split; [done|]. split; [done|].
  rewrite (list_insert_id t i) in H2 by (by apply ent_lookup). split; [done|].
  intros j Hj. rewrite ent_insert, decide_False by lia. by apply H6.
Qed.

(** ** Adding and removing an entry *)
Lemma heap_down t i : heap t → (i < length t)%nat → down_inv t i (key t i).
Proof.
  intros Hh Hi. split; [done|intros; by apply Hh|intros; apply Hh; lia|].
  intros j Hj <- H. pose proof (parent_lt j (proj1 Hj)).
  pose proof (Hh j Hj). pose proof (Hh (parent j) ltac:(lia)). lia.
Qed.
Lemma heap_root t j : heap t → (j < length t)%nat → key t 0 <= key t j.
Proof.
  intros Hh. induction (lt_wf j) as [j _ IH]. intros Hj. destruct (decide (j = 0)%nat) as [->|Hn]; [lia|].
  pose proof (parent_lt j ltac:(lia)). pose proof (Hh j ltac:(lia)).
  specialize (IH (parent j) ltac:(lia) ltac:(lia)). lia.
Qed.
Lemma ent_app_l t x j : (j < length t)%nat → ent (t ++ [x]) j = ent t j.
Proof. intros. unfold ent. by rewrite app_nth1. Qed.
Lemma heap_push t x : heap t → up_inv (t ++ [x]) (length t) (key (t ++ [x]) (length t)).
Proof.
  intros Hh. split; rewrite ?length_app; cbn [length].
  - lia.
  - intros j Hj Hn. unfold hole. pose proof (parent_lt j (proj1 Hj)).
    rewrite decide_False by lia. unfold key. rewrite !ent_app_l by lia. apply Hh. lia.
  - intros j Hj E. pose proof (parent_lt j (proj1 Hj)). lia.
Qed.
Lemma heap_prefix t n : heap t → heap (take n t).
Proof.
  intros Hh j. rewrite length_take. intros Hj. pose proof (parent_lt j (proj1 Hj)).
  assert (Ht : ∀ k, (k < n)%nat → ent (take n t) k = ent t k).
  { intros k Hk. unfold ent. rewrite !nth_lookup. by rewrite lookup_take_lt. }
  unfold key. rewrite !Ht by lia. apply Hh. lia.
Qed.
(** An entry in the middle is replaced by a larger or a smaller one. *)
Lemma heap_replace t i x : heap t → (i < length t)%nat →
  let t' := <[i := x]> t in
  down_inv t' i (wh x) ∨ up_inv t' i (wh x) ∧ (0 < i)%nat ∧ wh x < key t' (parent i).
Proof.
  intros Hh Hi. cbv zeta.
  assert (Hpar : ∀ j, (0 < j)%nat → parent j = i → (0 < i)%nat → key (<[i := x]> t) (parent i) = key t (parent i)).
  { intros j Hj <- H. pose proof (parent_lt _ H). rewrite key_insert, decide_False by lia. done. }
  assert (Hskip : ∀ j, (0 < j < length t)%nat → parent j = i → (0 < i)%nat →
            key t (parent i) <= key (<[i := x]> t) j).
  { intros j Hj E H. pose proof (parent_lt j (proj1 Hj)). rewrite key_insert, decide_False by lia.
    pose proof (Hh j Hj) as H1. rewrite E in H1. pose proof (Hh i ltac:(lia)). lia. }
  destruct (decide ((0 < i)%nat ∧ wh x < key t (parent i))) as [[Hi0 Hx]|Hx].
  - right. pose proof (parent_lt i ltac:(lia)).
    assert (E : key (<[i := x]> t) (parent i) = key t (parent i))
      by (rewrite key_insert, decide_False by lia; done).
    rewrite E. split; [|split; [lia|done]]. split; rewrite ?length_insert; [done|..].
    + intros j Hj Hn. unfold hole. pose proof (parent_lt j (proj1 Hj)). rewrite !key_insert by done.
      rewrite (decide_False (P := j = i)) by done. destruct (decide (parent j = i)) as [Ej|Ej]; [|by apply Hh].
      pose proof (Hh j Hj) as H1. rewrite Ej in H1. pose proof (Hh i ltac:(lia)). lia.
    + intros j Hj Ej H0. rewrite E. by apply Hskip.
  - left. split; rewrite ?length_insert; [done|..].
    + intros j Hj Hn Hp. rewrite !key_insert, !decide_False by done. by apply Hh.
    + intros H0. pose proof (parent_lt i H0). rewrite key_insert, decide_False by lia. lia.
    + intros j Hj E H0. rewrite (Hpar j) by (lia || done). by apply Hskip.
Qed.
(** Sifting up an entry only looks at the entries before it. *)
Lemma ent_app t r j : (j < length t)%nat → ent (t ++ r) j = ent t j.
Proof. intros. unfold ent. by rewrite app_nth1. Qed.
Lemma siftup_loop_app fuel r w : ∀ t i, (i < length t)%nat →
  siftup_loop fuel (t ++ r) i w = let '(t', i') := siftup_loop fuel t i w in (t' ++ r, i').
Proof.
  induction fuel as [|fuel IH]; intros t i Hi; cbn [siftup_loop]; [done|].
  destruct (Nat.ltb_spec 0 i) as [H0|]; [|done]. pose proof (parent_lt i H0).
  unfold key at 1. rewrite ent_app by lia. fold (key t (parent i)).
  destruct (w >=? key t (parent i)); [done|].
  rewrite insert_app_l by done. apply IH. rewrite length_insert. lia.
Qed.
Lemma siftup_loop_lt fuel w : ∀ t i, (i < length t)%nat →
  let r := siftup_loop fuel t i w in (snd r < length (fst r))%nat.
Proof.
  induction fuel as [|fuel IH]; intros t i Hi; cbn [siftup_loop]; [done|].
  destruct (Nat.ltb_spec 0 i) as [H0|]; [|done]. destruct (w >=? _); [done|].
  apply IH. rewrite length_insert. pose proof (parent_lt i H0). lia.
Qed.
Lemma siftup_app t r i t' i' : (i < length t)%nat → siftupTimer t i = Ok (t', i') →
  siftupTimer (t ++ r) i = Ok (t' ++ r, i').
Proof.
  intros Hi. unfold siftupTimer. rewrite length_app, !(proj2 (Nat.leb_gt _ _)) by lia.
  unfold key. rewrite ent_app by done. destruct (_ <=? 0); [done|].
  pose proof (siftup_loop_app i r (wh (ent t i)) t i Hi) as E.
  destruct (siftup_loop i t i (wh (ent t i))) as [u c] eqn:Eu. rewrite E.
  pose proof (siftup_loop_lt i (wh (ent t i)) t i Hi) as Hu. rewrite Eu in Hu. cbn [fst snd] in Hu.
  rewrite ent_app by done. intros [= <- <-]. destruct (_ =? _)%nat; [done|]. by rewrite insert_app_l.
Qed.
(** The first [i] entries are a heap and [x] is put after them. *)
Lemma siftup_prefix t i x : heap (take i t) → (i < length t)%nat → 0 < wh x →
  ∃ t' c, siftupTimer (<[i := x]> t) i = Ok (t', c) ∧ heap (take (S i) t') ∧
    Permutation (take (S i) t') (x :: take i t) ∧ drop (S i) t' = drop (S i) t ∧ length t' = length t.
Proof.
  intros Hh Hi Hx. assert (Hl : length (take i t) = i) by (rewrite length_take; lia).
  pose proof (heap_push _ x Hh) as Hp. rewrite Hl in Hp.
  assert (Hk : key (take i t ++ [x]) i = wh x) by (unfold key, ent; by rewrite nth_lookup, lookup_app_r, Hl, Nat.sub_diag by lia).
  destruct (siftup_spec _ _ Hp ltac:(by rewrite Hk)) as (t'&c&E&Hh'&Hperm&_).
  assert (Hl' : length t' = S i) by (rewrite Hperm, length_app, Hl; simpl; lia).
  exists (t' ++ drop (S i) t), c.
  assert (Et : <[i := x]> t = (take i t ++ [x]) ++ drop (S i) t).
  { rewrite <- app_assoc. by apply insert_take_drop. }
  rewrite Et. split; [apply siftup_app; [rewrite length_app, Hl; simpl; lia|done]|].
  rewrite take_app_length', drop_app_length' by done. split; [done|].
  split; [by rewrite Hperm, Permutation_app_comm|]. split; [done|].
  rewrite length_app, Hl', length_drop. lia.
Qed.
End Sift.
