(* ===== verification/Timers.v ===== *)
(** * runtime/time.go: the timers of a processor

    The operations on timers and on the heap a processor keeps them in.  A
    deleted or modified timer stays where it is in the heap, marked by its
    status, until the processor comes across it.

    Timers are addresses (a [nat], an index into [store]); one processor is
    modelled, every operation runs with [timersLock] held, so the statuses that
    last only while another operation is under way are not seen at its start;
    where the source would wait for such a status to change the model has
    [Panic []].  What a timer calls, [f] with its [arg], is a name. *)
From S2P Require Import Prelude TimerHeap.

Inductive tstatus : Set :=
| timerNoStatus | timerWaiting | timerRunning | timerDeleted | timerRemoving | timerRemoved
| timerModifying | timerModifiedEarlier | timerModifiedLater | timerMoving.
#[global] Instance tstatus_eq_dec : EqDecision tstatus.
Proof. solve_decision. Defined.
Definition maxWhen : Z := 2 ^ 63 - 1.

Record rtimer : Set := MkTimer
  { pp : bool;                       (* t.pp is the processor, or 0 *)
    when : Z; period : Z; func : nat; seqno : Z; nextwhen : Z; status : tstatus }.
Definition newTimer (when period : Z) (f : nat) (seq : Z) : rtimer :=
  MkTimer false when period f seq 0 timerNoStatus.

(** The processor, the timers there are, and the calls of wakeNetPoller made,
    the last first. *)
Record proc : Set := MkProc
  { store : list rtimer; timers : list nat; timer0When : Z; timerModifiedEarliest : Z;
    numTimers : Z; deletedTimers : Z; netpollInited : bool; woken : list Z }.

Definition get (h : nat) (s : proc) : rtimer := nth h (store s) (newTimer 0 0 0 0).
Definition wh (s : proc) (h : nat) : Z := when (get h s).
Definition st (s : proc) (h : nat) : tstatus := status (get h s).

Definition put (h : nat) (t : rtimer) (s : proc) : proc :=
  MkProc (<[h := t]> (store s)) (timers s) (timer0When s) (timerModifiedEarliest s) (numTimers s)
         (deletedTimers s) (netpollInited s) (woken s).
Definition set_pp (h : nat) (b : bool) (s : proc) : proc :=
  let t := get h s in put h (MkTimer b (when t) (period t) (func t) (seqno t) (nextwhen t) (status t)) s.
Definition set_when (h : nat) (w : Z) (s : proc) : proc :=
  let t := get h s in put h (MkTimer (pp t) w (period t) (func t) (seqno t) (nextwhen t) (status t)) s.
Definition set_nextwhen (h : nat) (w : Z) (s : proc) : proc :=
  let t := get h s in put h (MkTimer (pp t) (when t) (period t) (func t) (seqno t) w (status t)) s.
Definition set_status (h : nat) (x : tstatus) (s : proc) : proc :=
  let t := get h s in put h (MkTimer (pp t) (when t) (period t) (func t) (seqno t) (nextwhen t) x) s.
Definition set_timers (l : list nat) (s : proc) : proc :=
  MkProc (store s) l (timer0When s) (timerModifiedEarliest s) (numTimers s) (deletedTimers s)
         (netpollInited s) (woken s).
Definition set_timer0When (w : Z) (s : proc) : proc :=
  MkProc (store s) (timers s) w (timerModifiedEarliest s) (numTimers s) (deletedTimers s)
         (netpollInited s) (woken s).
Definition set_earliest (w : Z) (s : proc) : proc :=
  MkProc (store s) (timers s) (timer0When s) w (numTimers s) (deletedTimers s) (netpollInited s) (woken s).
Definition add_numTimers (n : Z) (s : proc) : proc :=
  MkProc (store s) (timers s) (timer0When s) (timerModifiedEarliest s) (u32 (numTimers s + n))
         (deletedTimers s) (netpollInited s) (woken s).
Definition add_deletedTimers (n : Z) (s : proc) : proc :=
  MkProc (store s) (timers s) (timer0When s) (timerModifiedEarliest s) (numTimers s)
         (u32 (deletedTimers s + n)) (netpollInited s) (woken s).
Definition netpollGenericInit (s : proc) : proc :=
  MkProc (store s) (timers s) (timer0When s) (timerModifiedEarliest s) (numTimers s)
         (deletedTimers s) true (woken s).
Definition wakeNetPoller (w : Z) (s : proc) : proc :=
  MkProc (store s) (timers s) (timer0When s) (timerModifiedEarliest s) (numTimers s)
         (deletedTimers s) (netpollInited s) (w :: woken s).

(** ** The heap of the processor *)
Definition updateTimer0When (s : proc) : proc :=
  match timers s with [] => set_timer0When 0 s | h :: _ => set_timer0When (wh s h) s end.
Definition updateTimerModifiedEarliest (nextwhen : Z) (s : proc) : proc :=
  let old := timerModifiedEarliest s in
  if negb (old =? 0) && (old <? nextwhen) then s else set_earliest nextwhen s.

Definition doaddtimer (h : nat) (s : proc) : res proc :=
  let s := if netpollInited s then s else netpollGenericInit s in
  if pp (get h s) then Panic [Lit "doaddtimer: P already set in timer"%go]
  else
    let s := set_pp h true s in
    let i := length (timers s) in
    r ← siftupTimer (wh s) (timers s ++ [h]) i;
    let s := set_timers (fst r) s in
    let s := if (h =? ent (timers s) 0)%nat then set_timer0When (wh s h) s else s in
    Ok (add_numTimers 1 s).

(** Without its last entry, which is [last]. *)
Definition dodel_num (s : proc) : proc :=
  let s := add_numTimers (-1) s in
  if numTimers s =? 0 then set_earliest 0 s else s.
Definition dodeltimer (i : nat) (s : proc) : res (proc * nat) :=
  let h := ent (timers s) i in
  if negb (pp (get h s)) then Panic [Lit "dodeltimer: wrong P"%go]
  else
    let s := set_pp h false s in
    let last := (length (timers s) - 1)%nat in
    let ts := if (i =? last)%nat then timers s else <[i := ent (timers s) last]> (timers s) in
    let ts := take last ts in
    r ← (if (i =? last)%nat then Ok (ts, i)
         else r ← siftupTimer (wh s) ts i; t ← siftdownTimer (wh s) (fst r) i; Ok (t, snd r));
    let s := set_timers (fst r) s in
    let s := if (i =? 0)%nat then updateTimer0When s else s in
    Ok (dodel_num s, snd r).
Definition dodeltimer0 (s : proc) : res proc :=
  let h := ent (timers s) 0 in
  if negb (pp (get h s)) then Panic [Lit "dodeltimer0: wrong P"%go]
  else
    let s := set_pp h false s in
    let last := (length (timers s) - 1)%nat in
    let ts := if (0 <? last)%nat then <[0%nat := ent (timers s) last]> (timers s) else timers s in
    let ts := take last ts in
    ts ← (if (0 <? last)%nat then siftdownTimer (wh s) ts 0 else Ok ts);
    Ok (dodel_num (updateTimer0When (set_timers ts s))).

(** A timer found modified at the top: moved to where its new time puts it. *)
Definition move0 (h : nat) (s : proc) : res proc :=
  let s := set_status h timerMoving s in
  let s := set_when h (nextwhen (get h s)) s in
  s ← dodeltimer0 s;
  s ← doaddtimer h s;
  Ok (set_status h timerWaiting s).
(** A timer found deleted at the top. *)
Definition remove0 (h : nat) (s : proc) : res proc :=
  let s := set_status h timerRemoving s in
  s ← dodeltimer0 s;
  Ok (add_deletedTimers (-1) (set_status h timerRemoved s)).

(** [preemptStop n]: somebody wants to preempt the goroutine, with [n] rounds of
    fuel left. *)
Fixpoint cleantimers (preemptStop : nat → bool) (fuel : nat) (s : proc) : res proc :=
  match fuel with
  | O => Panic []
  | S fuel =>
      match timers s with
      | [] => Ok s
      | h :: _ =>
          if preemptStop fuel then Ok s
          else if negb (pp (get h s)) then Panic [Lit "cleantimers: bad p"%go]
          else
            match st s h with
            | timerDeleted => s ← remove0 h s; cleantimers preemptStop fuel s
            | timerModifiedEarlier | timerModifiedLater =>
                s ← move0 h s; cleantimers preemptStop fuel s
            | _ => Ok s
            end
      end
  end.

(** ** Operations on a timer *)
Definition addtimer (preemptStop : nat → bool) (h : nat) (s : proc) : res proc :=
  if when (get h s) <=? 0 then Panic [Lit "timer when must be positive"%go]
  else if period (get h s) <? 0 then Panic [Lit "timer period must be non-negative"%go]
  else if negb (bool_decide (st s h = timerNoStatus)) then
    Panic [Lit "addtimer called with initialized timer"%go]
  else
    let s := set_status h timerWaiting s in
    let when := wh s h in
    s ← cleantimers preemptStop (S (length (timers s))) s;
    s ← doaddtimer h s;
    Ok (wakeNetPoller when s).

Definition deltimer (h : nat) (s : proc) : res (bool * proc) :=
  match st s h with
  | timerWaiting | timerModifiedLater | timerModifiedEarlier =>
      Ok (true, add_deletedTimers 1 (set_status h timerDeleted s))
  | timerDeleted | timerRemoving | timerRemoved | timerNoStatus => Ok (false, s)
  | timerRunning | timerMoving | timerModifying => Panic []
  end.

Definition modtimer (h : nat) (when' period' : Z) (f : nat) (seq : Z) (s : proc)
    : res (bool * proc) :=
  if when' <=? 0 then Panic [Lit "timer when must be positive"%go]
  else if period' <? 0 then Panic [Lit "timer period must be non-negative"%go]
  else
    r ← (match st s h with
        | timerWaiting | timerModifiedEarlier | timerModifiedLater => Ok (false, true, s)
        | timerNoStatus | timerRemoved => Ok (true, false, s)
        | timerDeleted => Ok (false, false, add_deletedTimers (-1) s)
        | timerRunning | timerRemoving | timerMoving | timerModifying => Panic []
        end);
    let '(wasRemoved, pending, s) := (r : bool * bool * proc) in
    let t := get h s in
    let s := put h (MkTimer (pp t) (when t) period' f seq (nextwhen t) timerModifying) s in
    if wasRemoved then
      let s := set_when h when' s in
      s ← doaddtimer h s;
      Ok (pending, wakeNetPoller when' (set_status h timerWaiting s))
    else
      let s := set_nextwhen h when' s in
      let earlier := when' <? wh s h in
      let s := if earlier then updateTimerModifiedEarliest when' s else s in
      let s := set_status h (if earlier then timerModifiedEarlier else timerModifiedLater) s in
      Ok (pending, if earlier then wakeNetPoller when' s else s).
Definition resettimer (h : nat) (when : Z) (s : proc) : res (bool * proc) :=
  let t := get h s in modtimer h when (period t) (func t) (seqno t) s.

(** ** The processor looks at its timers *)
Fixpoint adjust_loop (fuel : nat) (i : nat) (moved : list nat) (s : proc) : res (list nat * proc) :=
  match fuel with
  | O => Panic []
  | S fuel =>
      if (length (timers s) <=? i)%nat then Ok (moved, s)
      else
        let h := ent (timers s) i in
        if negb (pp (get h s)) then Panic [Lit "adjusttimers: bad p"%go]
        else
          match st s h with
          | timerDeleted =>
              r ← dodeltimer i (set_status h timerRemoving s);
              let '(s, changed) := r in
              adjust_loop fuel changed moved (add_deletedTimers (-1) (set_status h timerRemoved s))
          | timerModifiedEarlier | timerModifiedLater =>
              let s := set_status h timerMoving s in
              let s := set_when h (nextwhen (get h s)) s in
              r ← dodeltimer i s;
              let '(s, changed) := r in
              adjust_loop fuel changed (moved ++ [h]) s
          | timerWaiting => adjust_loop fuel (S i) moved s
          | timerModifying => adjust_loop fuel i moved s
          | _ => Panic badTimer
          end
  end.
Fixpoint addAdjustedTimers (moved : list nat) (s : proc) : res proc :=
  match moved with
  | [] => Ok s
  | h :: moved => s ← doaddtimer h s; addAdjustedTimers moved (set_status h timerWaiting s)
  end.
Definition adjust_fuel (s : proc) : nat := (S (length (timers s)) * S (length (timers s)))%nat.
Definition adjusttimers (now : Z) (s : proc) : res proc :=
  let first := timerModifiedEarliest s in
  if (first =? 0) || (first >? now) then Ok s
  else
    let s := set_earliest 0 s in
    r ← adjust_loop (adjust_fuel s) 0 [] s;
    let '(moved, s) := r in
    if (0 <? length moved)%nat then addAdjustedTimers moved s else Ok s.

(** The function a timer calls and its sequence number. *)
Definition callback : Set := nat * Z.
Definition runOneTimer (h : nat) (now : Z) (s : proc) : res (callback * proc) :=
  let t := get h s in
  let call := (func t, seqno t) in
  if period t >? 0 then
    let delta := i64 (when t - now) in
    let w := i64 (when t + i64 (period t * i64 (1 + Z.quot (i64 (- delta)) (period t)))) in
    let s := set_when h (if w <? 0 then maxWhen else w) s in
    ts ← siftdownTimer (wh s) (timers s) 0;
    Ok (call, updateTimer0When (set_status h timerWaiting (set_timers ts s)))
  else
    s ← dodeltimer0 s;
    Ok (call, set_status h timerNoStatus s).

(** runtimer: what it returns, the timer run with what it calls, if any. *)
Fixpoint runtimer (fuel : nat) (now : Z) (s : proc) : res (Z * option (nat * callback) * proc) :=
  match fuel with
  | O => Panic []
  | S fuel =>
      let h := ent (timers s) 0 in
      if negb (pp (get h s)) then Panic [Lit "runtimer: bad p"%go]
      else
        match st s h with
        | timerWaiting =>
            if wh s h >? now then Ok (wh s h, None, s)
            else
              r ← runOneTimer h now (set_status h timerRunning s);
              Ok (0, Some (h, fst r), snd r)
        | timerDeleted =>
            s ← remove0 h s;
            if (length (timers s) =? 0)%nat then Ok (-1, None, s) else runtimer fuel now s
        | timerModifiedEarlier | timerModifiedLater => s ← move0 h s; runtimer fuel now s
        | timerModifying => runtimer fuel now s
        | _ => Panic badTimer
        end
  end.

(** When the processor has to wake up for its timers, or 0. *)
Definition nobarrierWakeTime (s : proc) : Z :=
  let next := timer0When s in
  let nextAdj := timerModifiedEarliest s in
  if (next =? 0) || negb (nextAdj =? 0) && (nextAdj <? next) then nextAdj else next.
