(* ===== verification/TimersInv.v ===== *)
(** * runtime/time.go: the invariant of a processor's timers *)
From S2P Require Import Prelude Threads TimerHeap Timers.

(** ** Reading and writing timers *)
Lemma get_put h k t s : (h < length (store s))%nat →
  get k (put h t s) = if decide (k = h) then t else get k s.
Proof.
  intros Hh. unfold get, put. cbn [store]. rewrite !nth_lookup. destruct (decide (k = h)) as [->|Hn].
  - by rewrite list_lookup_insert_eq.
  - by rewrite list_lookup_insert_ne.
Qed.
Lemma put_timers h t s : timers (put h t s) = timers s.
Proof. done. Qed.
Lemma len_put h t s : length (store (put h t s)) = length (store s).
Proof. apply length_insert. Qed.

(** ** The heap part of the invariant *)
Record hwf (s : proc) : Prop :=
  { hw_nodup : NoDup (timers s);
    hw_pp h : pp (get h s) = true ↔ h ∈ timers s;
    hw_pos h : h ∈ timers s → (h < length (store s))%nat ∧ 0 < wh s h;
    hw_heap : heap (wh s) (timers s);
    hw_when0 : timer0When s = match timers s with [] => 0 | h :: _ => wh s h end;
    hw_num : numTimers s = u32 (Z.of_nat (length (timers s)));
    hw_small : Z.of_nat (length (store s)) < 2 ^ 32 }.

Lemma hwf_length s : hwf s → (length (timers s) <= length (store s))%nat.
Proof.
  intros Hs. rewrite <- (length_seq (length (store s)) 0).
  apply submseteq_length, NoDup_submseteq; [apply Hs|].
  intros h Hh. apply elem_of_seq. pose proof (proj1 (hw_pos _ Hs h Hh)). lia.
Qed.
Lemma hwf_num s : hwf s → numTimers s = Z.of_nat (length (timers s)).
Proof.
  intros Hs. rewrite (hw_num _ Hs). apply u32_id. pose proof (hwf_length s Hs).
  pose proof (hw_small _ Hs). unfold is_u32. lia.
Qed.
Lemma hwf_head s k : hwf s → head (timers s) = Some k → timer0When s = wh s k.
Proof. intros Hs Hk. rewrite (hw_when0 _ Hs). destruct (timers s); [done|]. by injection Hk as ->. Qed.
(** The heap only reads the times of its entries. *)
Lemma key_ext (w w' : nat → Z) t : (∀ h, h ∈ t → w h = w' h) →
  ∀ j, (j < length t)%nat → key w t j = key w' t j.
Proof. intros H j Hj. apply H. eapply list_elem_of_lookup_2. by apply ent_lookup. Qed.
Lemma heap_ext (w w' : nat → Z) t : (∀ h, h ∈ t → w h = w' h) → heap w t → heap w' t.
Proof.
  intros H Hh j Hj. pose proof (parent_lt j (proj1 Hj)). rewrite <- !(key_ext w w') by (done || lia).
  by apply Hh.
Qed.
Lemma down_ext (w w' : nat → Z) t i x : (∀ h, h ∈ t → w h = w' h) → down_inv w t i x → down_inv w' t i x.
Proof.
  intros H [Hl Ho Hu Hs]. split; [done|..].
  - intros j Hj Hn Hp. pose proof (parent_lt j (proj1 Hj)). rewrite <- !(key_ext w w') by (done || lia). by apply Ho.
  - intros H0. pose proof (parent_lt i H0). rewrite <- !(key_ext w w') by (done || lia). by apply Hu.
  - intros j Hj E H0. pose proof (parent_lt i H0). rewrite <- !(key_ext w w') by (done || lia). by apply Hs.
Qed.
Lemma up_ext (w w' : nat → Z) t i x : (∀ h, h ∈ t → w h = w' h) → up_inv w t i x → up_inv w' t i x.
Proof.
  intros H [Hl Ho Hs]. split; [done|..].
  - intros j Hj Hn. pose proof (parent_lt j (proj1 Hj)). specialize (Ho j Hj Hn). unfold hole in *.
    destruct (decide _); rewrite <- !(key_ext w w') by (done || lia); done.
  - intros j Hj E H0. pose proof (parent_lt i H0). rewrite <- !(key_ext w w') by (done || lia). by apply Hs.
Qed.

(** ** Adding *)
Definition with_pp (b : bool) (t : rtimer) : rtimer :=
  MkTimer b (when t) (period t) (func t) (seqno t) (nextwhen t) (status t).
(** The fields an operation on the heap leaves alone. *)
Definition same_rest (s s' : proc) : Prop :=
  deletedTimers s' = deletedTimers s ∧ woken s' = woken s ∧ length (store s') = length (store s).

Lemma doaddtimer_spec h s : hwf s → h ∉ timers s → (h < length (store s))%nat → 0 < wh s h →
  ∃ s', doaddtimer h s = Ok s' ∧ hwf s' ∧ timers s' ≡ₚ h :: timers s ∧
    (∀ k, get k s' = if decide (k = h) then with_pp true (get h s) else get k s) ∧
    same_rest s s' ∧ timerModifiedEarliest s' = timerModifiedEarliest s.
Proof.
  intros Hs Hh Hlt Hw. unfold doaddtimer.
  set (s1 := if netpollInited s then s else netpollGenericInit s).
  assert (E1 : store s1 = store s ∧ timers s1 = timers s ∧ timer0When s1 = timer0When s ∧
    numTimers s1 = numTimers s ∧ deletedTimers s1 = deletedTimers s ∧ woken s1 = woken s ∧
    timerModifiedEarliest s1 = timerModifiedEarliest s) by (unfold s1; by destruct (netpollInited s)).
  clearbody s1. destruct E1 as (Es&Et&E0&En&Ed&Ew&Ee).
  assert (Eg : ∀ k, get k s1 = get k s) by (intros k; unfold get; by rewrite Es).
  rewrite Eg. destruct (pp (get h s)) eqn:Hp; [by apply (hw_pp _ Hs) in Hp|].
  set (s2 := set_pp h true s1).
  assert (G2 : ∀ k, get k s2 = if decide (k = h) then with_pp true (get h s) else get k s).
  { intros k. unfold s2, set_pp. rewrite get_put, !Eg by (by rewrite Es). done. }
  assert (W2 : ∀ k, wh s2 k = wh s k) by (intros k; unfold wh; rewrite G2; by destruct (decide _) as [->|]).
  assert (T2 : timers s2 = timers s) by done. rewrite T2.
  assert (Hpush : up_inv (wh s2) (timers s ++ [h]) (length (timers s)) (key (wh s2) (timers s ++ [h]) (length (timers s)))).
  { apply heap_push. apply (heap_ext (wh s)); [by intros; rewrite W2|apply Hs]. }
  assert (Hkey : key (wh s2) (timers s ++ [h]) (length (timers s)) = wh s h).
  { unfold key, ent. rewrite nth_middle. apply W2. }
  destruct (siftup_spec _ _ _ Hpush ltac:(by rewrite Hkey)) as (ts&c&E&Hheap&Hperm&_).
  rewrite E. cbn [mbind res_bind fst]. eexists. split; [done|].
  set (s3 := set_timers ts s2). set (s4 := if (h =? ent (timers s3) 0)%nat then set_timer0When (wh s3 h) s3 else s3).
  assert (F : store s4 = store s2 ∧ timers s4 = ts ∧ numTimers s4 = numTimers s ∧
    deletedTimers s4 = deletedTimers s ∧ woken s4 = woken s ∧
    timerModifiedEarliest s4 = timerModifiedEarliest s).
  { unfold s4. destruct (_ =? _)%nat; done. }
  assert (F0 : timer0When s4 = match ts with [] => 0 | k :: _ => wh s k end).
  { unfold s4. change (timers s3) with ts. change (wh s3 h) with (wh s2 h). rewrite W2.
    destruct ts as [|k ts']; [by apply Permutation_nil_l in Hperm; destruct (timers s)|].
    change (ent (k :: ts') 0) with k. destruct (Nat.eqb_spec h k) as [->|Hn]; [done|].
    change (timer0When s3) with (timer0When s1). rewrite E0, (hw_when0 _ Hs).
    (* the first entry did not change *)
    destruct (timers s) as [|k0 l] eqn:El.
    { exfalso. apply Hn. apply Permutation_sym, Permutation_length_1_inv in Hperm. congruence. }
    assert (Hk : k ∈ k0 :: l).
    { assert (Hin : k ∈ k :: ts') by (by left). rewrite Hperm, elem_of_app, list_elem_of_singleton in Hin.
      by destruct Hin as [| ->]. }
    assert (Hle : wh s k0 <= wh s k).
    { apply list_elem_of_lookup_1 in Hk as [j Hj]. pose proof (hw_heap _ Hs) as Hh0. rewrite El in Hh0.
      pose proof (heap_root (wh s) (k0 :: l) j Hh0 (lookup_lt_Some _ _ _ Hj)) as H.
      unfold key in H. unfold ent at 2 in H. by rewrite nth_lookup, Hj in H. }
    assert (Hin0 : k0 ∈ k :: ts') by (rewrite Hperm; by left).
    apply list_elem_of_lookup_1 in Hin0 as [j Hj].
    pose proof (heap_root (wh s2) (k :: ts') j Hheap (lookup_lt_Some _ _ _ Hj)) as H.
    unfold key in H. unfold ent at 2 in H. rewrite nth_lookup, Hj, !W2 in H. cbn in H. lia. }
  clearbody s4. destruct F as (Fs&Ft&Fn&Fd&Fw&Fe).
  assert (Hperm' : ts ≡ₚ h :: timers s) by (rewrite Hperm; by rewrite Permutation_app_comm).
  assert (G4 : ∀ k, get k (add_numTimers 1 s4) = if decide (k = h) then with_pp true (get h s) else get k s).
  { intros k. rewrite <- G2. unfold get. cbn [add_numTimers store]. by rewrite Fs. }
  assert (W4 : ∀ k, wh (add_numTimers 1 s4) k = wh s k).
  { intros k. unfold wh. rewrite G4. by destruct (decide _) as [->|]. }
  assert (Hlen : length (store s4) = length (store s)) by (rewrite Fs; unfold s2, set_pp; by rewrite len_put, Es).
  split; [|split; [by rewrite <- Hperm', <- Ft|split; [done|split; [split; [exact Fd|split; [exact Fw|exact Hlen]]|exact Fe]]]].
  split; cbn [add_numTimers timers timer0When numTimers store]; rewrite ?Ft, ?Hlen.
  - rewrite Hperm'. apply list.NoDup_cons. split; [done|apply Hs].
  - intros k. rewrite G4, Hperm', elem_of_cons. destruct (decide (k = h)) as [->|Hn]; [naive_solver|].
    rewrite (hw_pp _ Hs). naive_solver.
  - intros k. rewrite Hperm', elem_of_cons, W4. intros [->|Hk]; [done|by apply (hw_pos _ Hs)].
  - apply (heap_ext (wh s2)); [|done]. intros k _. by rewrite W2, W4.
  - rewrite F0. destruct ts; [done|]. by rewrite W4.
  - rewrite Fn, (hw_num _ Hs), Hperm'. cbn [length]. unfold u32. rewrite Zplus_mod_idemp_l. f_equal. lia.
  - apply Hs.
Qed.

(** ** Removing *)
Lemma cut_last (t : list nat) x i : 
  let ts := t ++ [x] in
  let last := (length ts - 1)%nat in
  last = length t ∧ ent ts last = x ∧
  take last (if (i =? last)%nat then ts else <[i := x]> ts) = (if (i =? last)%nat then t else <[i := x]> t) ∧
  ((i <= length t)%nat → (if (i =? last)%nat then t else <[i := x]> t) ≡ₚ delete i ts).
Proof.
  cbv zeta. rewrite length_app, Nat.add_sub. split; [done|]. split; [apply nth_middle|].
  destruct (Nat.eqb_spec i (length t)) as [->|Hn].
  - split; [by rewrite take_app_length|]. intros _. by rewrite delete_middle, app_nil_r.
  - split.
    + destruct (decide (i < length t)%nat).
      * rewrite insert_app_l, take_app_length'; [done|by rewrite length_insert|done].
      * rewrite !list_insert_ge, take_app_length by (rewrite ?length_app; simpl; lia). done.
    + intros Hi. assert (Hi' : (i < length t)%nat) by lia. pose proof (ent_lookup t i Hi') as Hy.
      set (y := ent t i) in *. apply (Permutation_cons_inv (a := y)).
      rewrite <- (delete_Permutation (t ++ [x]) i y) by (by apply lookup_app_l_Some).
      rewrite (delete_Permutation (<[i:=x]> t) i x) by (by apply list_lookup_insert_eq).
      rewrite delete_insert, perm_swap, <- (delete_Permutation t i y) by done.
      by rewrite Permutation_app_comm.
Qed.
Lemma last_split (t : list nat) i : (i < length t)%nat → ∃ t0 x, t = t0 ++ [x].
Proof. intros Hi. destruct (exists_last (l := t)) as (t0&x&->); [by intros ->; simpl in Hi; lia|eauto]. Qed.

Lemma del_spec (l : list nat) i : NoDup l → (i < length l)%nat →
  (l ≡ₚ (ent l i :: delete i l)) ∧ (ent l i ∉ delete i l) ∧ NoDup (delete i l) ∧
  (∀ k, k ∈ delete i l ↔ k ∈ l ∧ k ≠ ent l i).
Proof.
  intros Hn Hi. pose proof (delete_Permutation l i _ (ent_lookup l i Hi)) as Hd.
  pose proof Hn as Hn'. rewrite Hd in Hn'. apply list.NoDup_cons in Hn' as [H1 H2].
  split; [done|]. split; [done|]. split; [done|]. intros k. rewrite Hd at 2. rewrite elem_of_cons.
  split; [|naive_solver]. intros Hk. split; [by right|]. by intros ->.
Qed.

Section Remove.
Context (s0 : proc) (Hs : hwf s0) (i : nat) (Hi : (i < length (timers s0))%nat).
Let h : nat := ent (timers s0) i.
(** [s] is [s0] with the timer that is to go changed in any way. *)
Context (s : proc) (t : rtimer) (Es : s = put h t s0) (Ht : pp t = true).

Lemma rm_in : h ∈ timers s0.
Proof. eapply list_elem_of_lookup_2. by apply ent_lookup. Qed.
Lemma rm_lt : (h < length (store s0))%nat.
Proof. apply (hw_pos _ Hs), rm_in. Qed.
Lemma rm_get k : get k (set_pp h false s) = if decide (k = h) then with_pp false t else get k s0.
Proof.
  subst s. unfold set_pp. rewrite get_put by (rewrite len_put; apply rm_lt).
  rewrite !get_put by apply rm_lt. rewrite (decide_True (P := h = h)) by done.
  by destruct (decide (k = h)).
Qed.
Lemma rm_wh k : k ≠ h → wh (set_pp h false s) k = wh s0 k.
Proof. intros Hn. unfold wh. rewrite rm_get. by rewrite decide_False. Qed.
(** The slice after the last entry has been moved to [i] and cut off. *)
Lemma rm_slice t0 x : timers s0 = t0 ++ [x] →
  let ts := if (i =? length t0)%nat then t0 else <[i := x]> t0 in
  (ts ≡ₚ (delete i (timers s0))) ∧ (h ∉ ts) ∧ (∀ k, k ∈ ts ↔ k ∈ timers s0 ∧ k ≠ h) ∧ NoDup ts ∧
  length ts = length t0.
Proof.
  intros E. cbv zeta. pose proof (cut_last t0 x i) as H. cbv zeta in H. rewrite <- E in H.
  destruct H as (El&_&_&Hp). rewrite El in Hp.
  assert (Hil : (i <= length t0)%nat) by (rewrite E, length_app in Hi; simpl in Hi; lia).
  specialize (Hp Hil). set (ts := if (i =? length t0)%nat then t0 else <[i:=x]> t0) in *.
  destruct (del_spec _ _ (hw_nodup _ Hs) Hi) as (_&H1&H2&H3).
  split; [done|]. split; [by rewrite Hp|]. split; [intros k; by rewrite Hp|]. split; [by rewrite Hp|].
  unfold ts. destruct (_ =? _)%nat; by rewrite ?length_insert.
Qed.

(** What the two forms of removal share: the slice [ts] put in place. *)
Lemma rm_finish ts (c : nat) : heap (wh (set_pp h false s)) ts → ts ≡ₚ delete i (timers s0) →
  (i = 0%nat ∨ ∀ k, head ts = Some k → head (timers s0) = Some k) →
  let s' := dodel_num (if (i =? 0)%nat then updateTimer0When (set_timers ts (set_pp h false s))
                       else set_timers ts (set_pp h false s)) in
  hwf s' ∧ timers s' = ts ∧
  (∀ k, get k s' = if decide (k = h) then with_pp false t else get k s0) ∧
  same_rest s0 s' ∧
  timerModifiedEarliest s' = if (length ts =? 0)%nat then 0 else timerModifiedEarliest s0.
Proof.
  intros Hh Hp H0. cbv zeta. set (s1 := set_pp h false s) in Hh |- *.
  assert (E1 : timers s1 = timers s0 ∧ timer0When s1 = timer0When s0 ∧ numTimers s1 = numTimers s0 ∧
    deletedTimers s1 = deletedTimers s0 ∧ woken s1 = woken s0 ∧
    timerModifiedEarliest s1 = timerModifiedEarliest s0 ∧ length (store s1) = length (store s0)).
  { unfold s1, set_pp. rewrite len_put, Es. by rewrite len_put. }
  destruct E1 as (Et&E0&En&Ed&Ew&Ee&El).
  set (s2 := if (i =? 0)%nat then updateTimer0When (set_timers ts s1) else set_timers ts s1).
  assert (E2 : store s2 = store s1 ∧ timers s2 = ts ∧ numTimers s2 = numTimers s1 ∧
    deletedTimers s2 = deletedTimers s1 ∧ woken s2 = woken s1 ∧
    timerModifiedEarliest s2 = timerModifiedEarliest s1).
  { unfold s2, updateTimer0When. cbn [set_timers timers]. by destruct (_ =? _)%nat, ts. }
  destruct (del_spec _ _ (hw_nodup _ Hs) Hi) as (Hd&Hn1&Hn2&Hin). fold h in Hd, Hn1, Hin.
  rewrite <- Hp in Hn1, Hn2. setoid_rewrite <- Hp in Hin.
  pose proof (rm_wh : ∀ k, k ≠ h → wh s1 k = wh s0 k) as W1.
  assert (W0 : timer0When s2 = match ts with [] => 0 | k :: _ => wh s1 k end).
  { unfold s2, updateTimer0When. cbn [set_timers timers]. destruct (Nat.eqb_spec i 0) as [->|Hi0].
    - by destruct ts.
    - destruct H0 as [?|H0]; [done|]. change (timer0When (set_timers ts s1)) with (timer0When s1). rewrite E0.
      destruct ts as [|k ts'].
      { exfalso. apply Permutation_length in Hd. cbn [length] in Hd. rewrite <- Hp in Hd. simpl in Hd. lia. }
      rewrite (hwf_head _ _ Hs (H0 k eq_refl)).
      symmetry. apply W1. intros ->. apply Hn1. by left. }
  assert (G2 : ∀ k, get k s2 = if decide (k = h) then with_pp false t else get k s0).
  { intros k. rewrite <- rm_get. fold s1. unfold get. by rewrite (proj1 E2). }
  assert (Wk : ∀ k, k ∈ ts → wh s2 k = wh s0 k).
  { intros k Hk. unfold wh. rewrite G2. rewrite decide_False; [done|]. by intros ->. }
  clearbody s2. destruct E2 as (Fs&Ft&Fn&Fd&Fw&Fe).
  set (n := Z.of_nat (length ts)).
  assert (Hlen : Z.of_nat (length (timers s0)) = n + 1).
  { unfold n. rewrite Hd. cbn [length]. rewrite <- Hp. lia. }
  assert (Hnum : u32 (numTimers s2 + -1) = n).
  { rewrite Fn, En, (hwf_num _ Hs), Hlen. replace (n + 1 + -1) with n by lia. apply u32_id.
    pose proof (hwf_length _ Hs). pose proof (hw_small _ Hs). unfold is_u32, n in *. lia. }
  unfold dodel_num. cbn [add_numTimers numTimers]. rewrite Hnum.
  set (s3 := if n =? 0 then _ else _).
  assert (E3 : store s3 = store s2 ∧ timers s3 = ts ∧ numTimers s3 = n ∧ timer0When s3 = timer0When s2 ∧
    deletedTimers s3 = deletedTimers s2 ∧ woken s3 = woken s2 ∧
    timerModifiedEarliest s3 = if (length ts =? 0)%nat then 0 else timerModifiedEarliest s0).
  { assert (Hz : (n =? 0) = (length ts =? 0)%nat).
    { unfold n. by destruct (Z.eqb_spec (Z.of_nat (length ts)) 0), (Nat.eqb_spec (length ts) 0); try lia. }
    unfold s3. rewrite Hz. destruct (length ts =? 0)%nat; repeat split; try done; try exact Hnum;
      cbn [add_numTimers timerModifiedEarliest]; congruence. }
  clearbody s3. destruct E3 as (Gs&Gt&Gn&G0&Gd&Gw&Ge).
  assert (Gg : ∀ k, get k s3 = get k s2) by (intros k; unfold get; by rewrite Gs).
  split; [|split; [done|]; split; [intros k; by rewrite Gg|]; split; [|done]; split; [congruence|];
           split; congruence].
  split; rewrite ?Gt.
  - done.
  - intros k. rewrite Gg, G2, Hin. destruct (decide (k = h)) as [->|Hk]; [naive_solver|].
    rewrite (hw_pp _ Hs). naive_solver.
  - intros k Hk. rewrite Gs, Fs, El. unfold wh. rewrite Gg. fold (wh s2 k). rewrite Wk by done. apply (hw_pos _ Hs).
    by apply Hin.
  - apply (heap_ext (wh s1)); [|done]. intros k Hk. unfold wh at 2. rewrite Gg. fold (wh s2 k).
    rewrite Wk by done. apply rm_wh. by intros ->.
  - rewrite G0, W0. destruct ts as [|k ts']; [done|]. unfold wh at 2. rewrite Gg. fold (wh s2 k).
    rewrite Wk by (by left). apply rm_wh. intros ->. apply Hn1. by left.
  - rewrite Gn. unfold n. symmetry. apply u32_id. pose proof (hwf_length _ Hs). pose proof (hw_small _ Hs).
    unfold is_u32, n in *. lia.
  - rewrite Gs, Fs, El. apply Hs.
Qed.

(** The slice is in order but for what was moved to [i], by the times that now
    hold. *)
Lemma rm_replaced t0 x : timers s0 = t0 ++ [x] → (i < length t0)%nat →
  let w := wh (set_pp h false s) in let ts := <[i := x]> t0 in
  0 < key w ts i ∧ ((0 < i)%nat → key w ts 0 <= key w ts i) ∧
  (down_inv w ts i (key w ts i) ∨ up_inv w ts i (key w ts i)).
Proof.
  intros E Hi0. cbv zeta. set (w := wh (set_pp h false s)). set (ts := <[i:=x]> t0).
  destruct (rm_slice t0 x E) as (Hp&Hh&Hin&Hn&Hl).
  rewrite (proj2 (Nat.eqb_neq i (length t0))) in Hp, Hh, Hin, Hn, Hl by lia. fold ts in Hp, Hh, Hin, Hn, Hl.
  assert (Hw : ∀ k, k ∈ ts → wh s0 k = w k) by (intros k Hk; symmetry; apply rm_wh; by intros ->).
  assert (Hx : x ∈ ts) by (apply list_elem_of_lookup; exists i; by apply list_lookup_insert_eq).
  assert (Hk : key w ts i = wh s0 x).
  { unfold key, ts. rewrite ent_insert by done. rewrite decide_True by done. by rewrite Hw. }
  assert (Hh0 : heap (wh s0) t0).
  { pose proof (heap_prefix (wh s0) (timers s0) (length t0) (hw_heap _ Hs)) as H.
    by rewrite E, take_app_length in H. }
  rewrite Hk. split; [apply (hw_pos _ Hs), Hin, Hx|]. split.
  - intros H0. rewrite <- (key_ext (wh s0) w) by (done || lia).
    assert (Hroot : key (wh s0) (timers s0) 0 <= key (wh s0) (timers s0) (length t0)).
    { apply heap_root; [apply Hs|]. rewrite E, length_app. simpl. lia. }
    unfold key in Hroot. rewrite E in Hroot. unfold ent at 2 in Hroot. rewrite nth_middle in Hroot.
    unfold key, ts. rewrite ent_insert, decide_False by lia. rewrite ent_app_l in Hroot by lia. done.
  - destruct (heap_replace (wh s0) t0 i x Hh0 Hi0) as [H|[H _]]; [left; by apply (down_ext (wh s0))|].
    right. by apply (up_ext (wh s0)).
Qed.

Lemma dodeltimer_spec : ∃ s' c, dodeltimer i s = Ok (s', c) ∧ hwf s' ∧
  timers s' ≡ₚ delete i (timers s0) ∧
  (∀ k, get k s' = if decide (k = h) then with_pp false t else get k s0) ∧ same_rest s0 s' ∧
  timerModifiedEarliest s' = (if (length (timers s') =? 0)%nat then 0 else timerModifiedEarliest s0) ∧
  (c <= i)%nat ∧ (∀ j, (j < c)%nat → ent (timers s') j = ent (timers s0) j).
Proof.
  pose proof rm_slice as HS. pose proof rm_replaced as HR. pose proof rm_finish as HF.
  destruct (last_split (timers s0) i Hi) as (t0&x&E). specialize (HS t0 x E). specialize (HR t0 x E).
  unfold dodeltimer. assert (Et : timers s = timers s0) by (by rewrite Es). rewrite Et. fold h.
  assert (Hpp : pp (get h s) = true) by (rewrite Es, get_put, decide_True by (done || apply rm_lt); done).
  rewrite Hpp. cbn [negb].
  set (s1 := set_pp h false s) in *. assert (Et1 : timers s1 = timers s0) by exact Et. rewrite Et1.
  pose proof (cut_last t0 x i) as HC. cbv zeta in HC. rewrite <- E in HC. destruct HC as (El&Ex&Ec&_).
  rewrite Ex, Ec, El. cbv zeta in HS. destruct HS as (Hp&Hh&Hin&Hn&Hl).
  assert (Hil : (i <= length t0)%nat) by (rewrite E, length_app in Hi; simpl in Hi; lia).
  assert (Hw : ∀ k, k ∈ (if (i =? length t0)%nat then t0 else <[i := x]> t0) → wh s0 k = wh s1 k)
    by (intros k Hk; symmetry; apply rm_wh; by intros ->).
  assert (Hpre : ∀ j, (j < i)%nat → ent (if (i =? length t0)%nat then t0 else <[i := x]> t0) j = ent (timers s0) j).
  { intros j Hj. rewrite E, ent_app_l by lia. destruct (Nat.eqb_spec i (length t0)) as [Ei|Ei]; [done|].
    rewrite ent_insert, decide_False by lia. done. }
  assert (Hgoal : ∀ ts c, heap (wh s1) ts → ts ≡ₚ delete i (timers s0) → (c <= i)%nat →
    ((0 < i)%nat → (0 < c)%nat) → (∀ j, (j < c)%nat → ent ts j = ent (timers s0) j) →
    let s' := dodel_num (if (i =? 0)%nat then updateTimer0When (set_timers ts s1) else set_timers ts s1) in
    hwf s' ∧ timers s' ≡ₚ delete i (timers s0) ∧
    (∀ k, get k s' = if decide (k = h) then with_pp false t else get k s0) ∧ same_rest s0 s' ∧
    timerModifiedEarliest s' = (if (length (timers s') =? 0)%nat then 0 else timerModifiedEarliest s0) ∧
    (c <= i)%nat ∧ (∀ j, (j < c)%nat → ent (timers s') j = ent (timers s0) j)).
  { intros ts c H1 H2 H3 H4 H5. cbv zeta. destruct (HF ts c H1 H2) as (A1&A2&A3&A4&A5).
    - destruct (decide (i = 0%nat)) as [|Hi0]; [by left|right]. intros k Hk.
      specialize (H5 0%nat ltac:(lia)). destruct ts as [|k' ts]; [done|]. injection Hk as ->.
      rewrite E in H5 |- *. destruct t0; [simpl in Hil; lia|]. unfold ent in H5. cbn in *. congruence.
    - rewrite A2. split; [done|]. split; [done|]. split; [done|]. split; [done|]. split; [done|].
      split; [done|]. done. }
  destruct (Nat.eqb_spec i (length t0)) as [Ei|Ei].
  - cbn [mbind res_bind fst snd]. do 2 eexists. split; [done|]. apply Hgoal; try done.
    apply (heap_ext (wh s0)); [done|].
    pose proof (heap_prefix (wh s0) (timers s0) (length t0) (hw_heap _ Hs)) as H.
    by rewrite E, take_app_length in H.
  - destruct (HR ltac:(lia)) as (Hk&H0&Hcase). set (ts := <[i := x]> t0) in *.
    assert (Hsift : ∃ t1 c, siftupTimer (wh s1) ts i = Ok (t1, c) ∧ down_inv (wh s1) t1 i (key (wh s1) t1 i) ∧
      0 < key (wh s1) t1 i ∧ t1 ≡ₚ ts ∧ (c <= i)%nat ∧ ((0 < i)%nat → (0 < c)%nat) ∧
      ∀ j, (j < c)%nat → ent t1 j = ent ts j).
    { destruct Hcase as [Hd|Hu].
      - exists ts, i. split; [apply siftup_stay; [lia|done|by apply Hd]|]. done.
      - destruct (siftup_spec _ _ _ Hu Hk) as (t1&c&E1&A1&A2&A3&A4&A5). exists t1, c. split; [done|].
        assert (Hl1 : (i < length t1)%nat) by (rewrite A2; lia).
        split; [by apply heap_down|]. split; [|split; [done|]; split; [done|]; split; [|done]; intros; apply A5; auto].
        unfold key. assert (Hin1 : ent t1 i ∈ ts)
          by (rewrite <- A2; eapply list_elem_of_lookup_2; by apply ent_lookup).
        rewrite <- Hw by done. by apply (hw_pos _ Hs), Hin. }
    destruct Hsift as (t1&c&E1&B1&B2&B3&B4&B5&B6). rewrite E1. cbn [mbind res_bind fst snd].
    destruct (siftdown_spec _ _ _ B1 B2) as (t2&E2&C1&C2&C3). rewrite E2. cbn [mbind res_bind fst snd].
    do 2 eexists. split; [done|]. apply Hgoal; try done.
    + by rewrite C2, B3.
    + intros j Hj. rewrite C3, B6 by lia. apply Hpre. lia.
Qed.
End Remove.

(** dodeltimer0 is dodeltimer at the top of the heap. *)
Lemma siftup_top w ts r : siftupTimer w ts 0 = Ok r → r = (ts, 0%nat).
Proof.
  unfold siftupTimer. destruct (Nat.leb_spec (length ts) 0) as [|Hl]; [done|]. destruct (_ <=? 0); [done|].
  cbn [siftup_loop]. rewrite write_back, list_insert_id by (done || by apply ent_lookup).
  by intros [= <-].
Qed.
Lemma dodeltimer0_at s s' c : dodeltimer 0 s = Ok (s', c) → dodeltimer0 s = Ok s'.
Proof.
  unfold dodeltimer, dodeltimer0. destruct (negb _); [done|]. cbv zeta.
  set (s1 := set_pp _ _ s). set (n := (length (timers s1) - 1)%nat).
  change (0 =? 0)%nat with true. cbv iota.
  destruct n as [|n]; cbn [Nat.eqb Nat.ltb Nat.leb].
  - cbn [mbind res_bind fst snd]. by intros [= <- _].
  - destruct (siftupTimer _ _ 0) as [r| |] eqn:E; [|done..]. apply siftup_top in E as ->.
    cbn [mbind res_bind fst snd]. destruct (siftdownTimer _ _ 0); [|done..].
    cbn [mbind res_bind fst snd]. by intros [= <- _].
Qed.

(** ** The whole invariant *)
Definition modified (x : tstatus) : Prop := x = timerModifiedEarlier ∨ x = timerModifiedLater.
(** A timer in the heap: its new time, if it has one, is positive, and on the
    side of its old time the status tells. *)
Definition live (t : rtimer) : Prop :=
  match status t with
  | timerWaiting | timerDeleted => True
  | timerModifiedEarlier => 0 < nextwhen t
  | timerModifiedLater => 0 < nextwhen t ∧ when t <= nextwhen t
  | _ => False
  end.
Definition idle (t : rtimer) : Prop := status t = timerNoStatus ∨ status t = timerRemoved.
Definition deleted (s : proc) (h : nat) : Z := Z.b2z (bool_decide (st s h = timerDeleted)).
Definition count_deleted (s : proc) : Z := total (deleted s) (timers s).
(** Timers that were made earlier are announced. *)
Definition announced (s : proc) : Prop := 0 <= timerModifiedEarliest s ∧
  ∀ h, h ∈ timers s → st s h = timerModifiedEarlier →
    timerModifiedEarliest s ≠ 0 ∧ timerModifiedEarliest s <= nextwhen (get h s).

(** [out]: the timers that are in nobody's heap for the moment. *)
Record wfo (out : list nat) (s : proc) : Prop :=
  { wf_heap : hwf s;
    wf_live h : h ∈ timers s → live (get h s);
    wf_idle h : h ∉ timers s → h ∉ out → idle (get h s);
    wf_deleted : deletedTimers s = u32 (count_deleted s);
    wf_period h : 0 <= period (get h s) }.
Definition wf (s : proc) : Prop := wfo [] s ∧ announced s.

(** What a timer is set to do: when (the time that counts), how often, what. *)
Record task : Set := Task { at_time : Z; every : Z; what : nat * Z }.
Definition active (s : proc) (h : nat) : option task :=
  let t := get h s in
  match status t with
  | timerWaiting => Some (Task (when t) (period t) (func t, seqno t))
  | timerModifiedEarlier | timerModifiedLater =>
      Some (Task (nextwhen t) (period t) (func t, seqno t))
  | _ => None
  end.

Lemma total_ext {A} (f g : A → Z) l : (∀ x, x ∈ l → f x = g x) → total f l = total g l.
Proof.
  induction l as [|x l IH]; intros H; [done|]. cbn. rewrite (H x) by (by left).
  rewrite IH; [done|]. intros y Hy. apply H. by right.
Qed.
#[global] Instance total_perm {A} (f : A → Z) : Proper (Permutation ==> eq) (total f).
Proof. intros l k H. induction H; cbn; lia. Qed.
Lemma deleted_get s s' h : get h s = get h s' → deleted s h = deleted s' h.
Proof. unfold deleted, st. by intros ->. Qed.
Lemma active_get s s' h : get h s = get h s' → active s h = active s' h.
Proof. unfold active. by intros ->. Qed.
Lemma active_idle s h : idle (get h s) → active s h = None.
Proof. unfold active. by intros [-> | ->]. Qed.

(** Only the timer [h] of the heap changes, and not its place. *)
Lemma put_hwf h t s : hwf s → (h < length (store s))%nat → pp t = pp (get h s) → when t = wh s h →
  hwf (put h t s).
Proof.
  intros Hs Hh Hp Hw. assert (G : ∀ k, get k (put h t s) = if decide (k = h) then t else get k s)
    by (intros; by apply get_put).
  assert (W : ∀ k, wh (put h t s) k = wh s k) by (intros k; unfold wh; rewrite G; by destruct (decide _) as [->|]).
  split; rewrite ?put_timers, ?len_put; try apply Hs.
  - intros k. rewrite G, <- (hw_pp _ Hs). destruct (decide _) as [->|]; by rewrite ?Hp.
  - intros k Hk. rewrite W. by apply (hw_pos _ Hs).
  - apply (heap_ext (wh s)); [done|apply Hs].
  - change (timer0When (put h t s)) with (timer0When s). rewrite (hw_when0 _ Hs). by destruct (timers s).
Qed.
Lemma count_put h t s : hwf s → h ∈ timers s →
  count_deleted (put h t s) = count_deleted s - deleted s h + Z.b2z (bool_decide (status t = timerDeleted)).
Proof.
  intros Hs Hh. unfold count_deleted. rewrite put_timers.
  pose proof (proj1 (hw_pos _ Hs h Hh)) as Hlt.
  assert (Hd : ∃ l, timers s ≡ₚ h :: l) by (apply list_elem_of_split in Hh as (l1&l2&->); exists (l1 ++ l2); by rewrite Permutation_middle).
  destruct Hd as [l Hd]. rewrite Hd. cbn [total]. pose proof (hw_nodup _ Hs) as Hn. rewrite Hd in Hn.
  apply list.NoDup_cons in Hn as [Hn _].
  rewrite (total_ext (deleted (put h t s)) (deleted s) l).
  - unfold deleted at 1, st. rewrite get_put, decide_True by done. lia.
  - intros k Hk. apply deleted_get. rewrite get_put by done. rewrite decide_False; [done|].
    intros ->. by apply Hn.
Qed.
Lemma put_out h t s : hwf s → (h < length (store s))%nat → h ∉ timers s → pp t = false →
  hwf (put h t s) ∧ ∀ k, k ∈ timers s → get k (put h t s) = get k s.
Proof.
  intros Hs Hh Hn Hp.
  assert (G : ∀ k, k ∈ timers s → get k (put h t s) = get k s).
  { intros k Hk. rewrite get_put by done. rewrite decide_False; [done|]. by intros ->. }
  split; [|done]. assert (W : ∀ k, k ∈ timers s → wh s k = wh (put h t s) k) by (intros k Hk; unfold wh; by rewrite G).
  split; rewrite ?put_timers, ?len_put; try apply Hs.
  - intros k. rewrite get_put by done. destruct (decide _) as [->|]; [|apply (hw_pp _ Hs)].
    rewrite Hp. naive_solver.
  - intros k Hk. rewrite <- W by done. by apply (hw_pos _ Hs).
  - apply (heap_ext (wh s)); [done|apply Hs].
  - change (timer0When (put h t s)) with (timer0When s). rewrite (hw_when0 _ Hs).
    destruct (timers s) as [|k l] eqn:E; [done|]. apply W. by left.
Qed.

(** ** A timer leaves the heap *)
Definition nonwaiting (s : proc) : Z :=
  total (λ h, Z.b2z (bool_decide (st s h ≠ timerWaiting))) (timers s).
Record left_heap (i : nat) (h : nat) (s s' : proc) (c : nat) : Prop :=
  { lh_in k : k ∈ timers s' ↔ k ∈ timers s ∧ k ≠ h;
    lh_len : length (timers s) = S (length (timers s'));
    lh_get k : k ≠ h → get k s' = get k s;
    lh_store : length (store s') = length (store s);
    lh_woken : woken s' = woken s;
    lh_early : timerModifiedEarliest s' =
      (if (length (timers s') =? 0)%nat then 0 else timerModifiedEarliest s);
    lh_nonwaiting : nonwaiting s' = nonwaiting s - Z.b2z (bool_decide (st s h ≠ timerWaiting));
    lh_le : (c <= i)%nat;
    lh_prefix j : (j < c)%nat → ent (timers s') j = ent (timers s) j }.

Lemma take_out out i s t : let h := ent (timers s) i in
  wfo out s → (i < length (timers s))%nat → pp t = true → 0 <= period t →
  ∃ s' c, dodeltimer i (put h t s) = Ok (s', c) ∧ hwf s' ∧ get h s' = with_pp false t ∧
    left_heap i h s s' c ∧ deletedTimers s' = deletedTimers s ∧
    count_deleted s' = count_deleted s - deleted s h ∧
    (∀ k, k ∈ timers s' → live (get k s')) ∧
    (∀ k, k ∉ timers s' → k ≠ h → k ∉ out → idle (get k s')) ∧ (∀ k, 0 <= period (get k s')).
Proof.
  intros h Hs Hi Ht Hper. pose proof (wf_heap _ _ Hs) as Hw.
  destruct (dodeltimer_spec s Hw i Hi _ t eq_refl Ht) as (s'&c&E&Hw'&Hp&G&(Hd&Hwk&Hst)&He&Hc&Hpre).
  fold h in E, G. destruct (del_spec _ _ (hw_nodup _ Hw) Hi) as (Hdp&Hn1&Hn2&Hin). fold h in Hdp, Hn1, Hin.
  assert (Hin' : ∀ k, k ∈ timers s' ↔ k ∈ timers s ∧ k ≠ h) by (intros k; by rewrite Hp).
  assert (Hg : ∀ k, k ≠ h → get k s' = get k s) by (intros k Hk; rewrite G; by rewrite decide_False).
  assert (Hsum : ∀ f f' : nat → Z, (∀ k, k ≠ h → f' k = f k) → total f' (timers s') = total f (timers s) - f h).
  { intros f f' Hf. rewrite Hdp, Hp. cbn [total]. rewrite (total_ext f' f); [lia|].
    intros k [_ Hk]%Hin. by apply Hf. }
  exists s', c. split; [done|]. split; [done|]. split; [rewrite G; by rewrite decide_True|].
  split; [|split; [done|split; [|split; [|split]]]].
  - split; try done.
    + rewrite Hdp. cbn. by rewrite Hp.
    + unfold nonwaiting. apply (Hsum (λ k, Z.b2z (bool_decide (st s k ≠ timerWaiting)))).
      intros k Hk. unfold st. by rewrite Hg.
  - apply Hsum. intros k Hk. apply deleted_get. by rewrite Hg.
  - intros k [Hk1 Hk2]%Hin'. rewrite Hg by done. by apply (wf_live _ _ Hs).
  - intros k Hk Hkh Hko. rewrite Hg by done. apply (wf_idle _ _ Hs); [|done]. intros Hk'. apply Hk, Hin'. done.
  - intros k. destruct (decide (k = h)) as [->|Hk]; [rewrite G; by rewrite decide_True|].
    rewrite Hg by done. apply (wf_period _ _ Hs).
Qed.

Lemma put_get_id h s : (h < length (store s))%nat → put h (get h s) s = s.
Proof.
  intros Hh. unfold put, get. rewrite list_insert_id; [by destruct s|].
  rewrite nth_lookup. by destruct (lookup_lt_is_Some_2 (store s) h Hh) as [x ->].
Qed.
Lemma ent_in s i : (i < length (timers s))%nat → ent (timers s) i ∈ timers s.
Proof. intros Hi. eapply list_elem_of_lookup_2. by apply ent_lookup. Qed.

(** A deleted timer is removed. *)
Lemma remove_spec out i s : let h := ent (timers s) i in
  wfo out s → (i < length (timers s))%nat → st s h = timerDeleted →
  ∃ s' c, dodeltimer i (set_status h timerRemoving s) = Ok (s', c) ∧
    let s'' := add_deletedTimers (-1) (set_status h timerRemoved s') in
    wfo out s'' ∧ left_heap i h s s'' c ∧ (∀ k, active s'' k = active s k).
Proof.
  intros h Hs Hi Hst. pose proof (wf_heap _ _ Hs) as Hw. pose proof (ent_in s i Hi) as Hh. fold h in Hh.
  assert (Hpp : pp (get h s) = true) by by apply (hw_pp _ Hw).
  unfold set_status at 1. set (t := MkTimer _ _ _ _ _ _ _).
  destruct (take_out out i s t Hs Hi Hpp (wf_period _ _ Hs h)) as (s'&c&E&Hw'&Gh&HL&Hd&Hc&Hlive&Hidle&Hper).
  fold h in E, Gh, HL, Hc, Hidle. exists s', c. split; [done|]. cbv zeta.
  assert (Hno : h ∉ timers s') by (intros Hin; by apply (lh_in _ _ _ _ _ HL) in Hin as [_ []]).
  assert (Hlt : (h < length (store s'))%nat).
  { rewrite (lh_store _ _ _ _ _ HL). by apply (hw_pos _ Hw). }
  unfold set_status. set (t' := MkTimer _ _ _ _ _ _ _).
  destruct (put_out h t' s' Hw' Hlt Hno) as [Hw'' Hg]; [unfold t'; cbn; by rewrite Gh|].
  set (s'' := add_deletedTimers (-1) (put h t' s')).
  assert (G : ∀ k, get k s'' = if decide (k = h) then t' else get k s') by (intros k; by apply get_put).
  assert (Hpre : ∀ k, k ∈ timers s' → get k s'' = get k s').
  { intros k Hk. rewrite G, decide_False; [done|]. by intros ->. }
  assert (Hne : ∀ k, k ≠ h → get k s'' = get k s).
  { intros k Hk. rewrite G, decide_False by done. by apply (lh_get _ _ _ _ _ HL). }
  split; [|split].
  - split.
    + by destruct Hw''.
    + intros k Hk. rewrite Hpre by done. by apply Hlive.
    + intros k Hk Hko. rewrite G. destruct (decide (k = h)) as [->|Hkh]; [by right|]. by apply Hidle.
    + change (deletedTimers s'') with (u32 (deletedTimers s' + -1)). rewrite Hd, (wf_deleted _ _ Hs).
      assert (count_deleted s'' = count_deleted s - 1) as ->.
      { unfold count_deleted at 1. change (timers s'') with (timers s').
        rewrite (total_ext _ (deleted s')) by (intros k Hk; by apply deleted_get, Hpre).
        fold (count_deleted s'). rewrite Hc. unfold deleted. by rewrite bool_decide_eq_true_2. }
      unfold u32. rewrite Zplus_mod_idemp_l. done.
    + intros k. rewrite G. destruct (decide _); [|done]. unfold t'. cbn. rewrite Gh. apply (wf_period _ _ Hs).
  - destruct HL. split; try done; [by rewrite <- lh_store0; apply len_put|].
    rewrite <- lh_nonwaiting0. unfold nonwaiting. apply total_ext. intros k Hk.
    unfold st. by rewrite Hpre.
  - intros k. destruct (decide (k = h)) as [->|Hk]; [|by apply active_get, Hne].
    unfold active at 1. rewrite G, decide_True by done. cbn [t' status].
    unfold active. fold (st s h). by rewrite Hst.
Qed.

(** A modified timer is taken out, to be put back where its new time says. *)
Definition moving (t : rtimer) : rtimer :=
  MkTimer false (nextwhen t) (period t) (func t) (seqno t) (nextwhen t) timerMoving.
Lemma wfo_weaken out out' s : wfo out s → (∀ h, h ∈ out → h ∈ out') → wfo out' s.
Proof. intros [? ? Hi ? ?] Ho. split; try done. intros h H1 H2. apply Hi; naive_solver. Qed.
Lemma detach_spec out i s : let h := ent (timers s) i in
  wfo out s → (i < length (timers s))%nat → modified (st s h) →
  ∃ s' c, let s1 := set_status h timerMoving s in
    dodeltimer i (set_when h (nextwhen (get h s1)) s1) = Ok (s', c) ∧
    wfo (h :: out) s' ∧ left_heap i h s s' c ∧ get h s' = moving (get h s).
Proof.
  intros h Hs Hi Hst. pose proof (wf_heap _ _ Hs) as Hw. pose proof (ent_in s i Hi) as Hh. fold h in Hh.
  assert (Hpp : pp (get h s) = true) by by apply (hw_pp _ Hw).
  pose proof (proj1 (hw_pos _ Hw h Hh)) as Hlt.
  set (t := MkTimer true (nextwhen (get h s)) (period (get h s)) (func (get h s)) (seqno (get h s))
              (nextwhen (get h s)) timerMoving).
  assert (Es : set_when h (nextwhen (get h (set_status h timerMoving s))) (set_status h timerMoving s) = put h t s).
  { unfold set_when, set_status. rewrite get_put, decide_True by done. cbn [nextwhen when period func seqno status pp].
    rewrite Hpp. fold t. unfold put. cbn [store timers timer0When timerModifiedEarliest numTimers deletedTimers netpollInited woken].
    by rewrite list_insert_insert_eq. }
  destruct (take_out out i s t Hs Hi eq_refl (wf_period _ _ Hs h)) as (s'&c&E&Hw'&Gh&HL&Hd&Hc&Hlive&Hidle&Hper).
  fold h in E, Gh, HL, Hc, Hidle. exists s', c. cbv zeta. rewrite Es. split; [done|].
  split; [|split; [done|done]]. split; try done.
  - intros k Hk [Hkh Hko]%not_elem_of_cons. by apply Hidle.
  - rewrite Hd, (wf_deleted _ _ Hs), Hc. unfold deleted.
    rewrite bool_decide_eq_false_2; [simpl; f_equal; lia|]. by destruct Hst as [-> | ->].
Qed.

(** A timer that is in no heap is put into it. *)
Definition waiting (t : rtimer) : rtimer :=
  MkTimer true (when t) (period t) (func t) (seqno t) (nextwhen t) timerWaiting.
Record joined (h : nat) (s s' : proc) : Prop :=
  { jn_perm : timers s' ≡ₚ h :: timers s;
    jn_self : get h s' = waiting (get h s);
    jn_get k : k ≠ h → get k s' = get k s;
    jn_store : length (store s') = length (store s);
    jn_woken : woken s' = woken s;
    jn_early : timerModifiedEarliest s' = timerModifiedEarliest s;
    jn_nonwaiting : nonwaiting s' = nonwaiting s }.
Lemma attach_spec out h s : wfo (h :: out) s → h ∉ timers s → (h < length (store s))%nat → 0 < wh s h →
  ∃ s', doaddtimer h s = Ok s' ∧ wfo out (set_status h timerWaiting s') ∧
    joined h s (set_status h timerWaiting s') ∧
    (st s h = timerWaiting → set_status h timerWaiting s' = s').
Proof.
  intros Hs Hn Hlt Hpos. pose proof (wf_heap _ _ Hs) as Hw.
  destruct (doaddtimer_spec h s Hw Hn Hlt Hpos) as (s'&E&Hw'&Hp&G&(Hd&Hwk&Hst)&He).
  exists s'. split; [done|].
  assert (Hlt' : (h < length (store s'))%nat) by by rewrite Hst.
  assert (Hin : h ∈ timers s') by (rewrite Hp; by left).
  unfold set_status. rewrite (G h), decide_True by done. cbn [with_pp pp when period func seqno nextwhen].
  fold (waiting (get h s)).
  assert (Hw2 : hwf (put h (waiting (get h s)) s')).
  { apply put_hwf; [done|done|by rewrite (proj2 (hw_pp _ Hw' h) Hin)|]. unfold wh. by rewrite G, decide_True. }
  set (s2 := put h (waiting (get h s)) s') in *.
  assert (Gh : get h s2 = waiting (get h s)) by (unfold s2; by rewrite get_put, decide_True).
  assert (Gk : ∀ k, k ≠ h → get k s2 = get k s).
  { intros k Hk. unfold s2. rewrite get_put, decide_False by done. by rewrite G, decide_False. }
  assert (Hsum : ∀ f f' : nat → Z, (∀ k, k ≠ h → f' k = f k) → f' h = 0 → total f' (timers s') = total f (timers s)).
  { intros f f' Hf H0. rewrite Hp. cbn [total]. rewrite H0, (total_ext f' f); [lia|].
    intros k Hk. apply Hf. by intros ->. }
  split; [|split].
  - split; [done|..].
    + intros k. change (timers s2) with (timers s'). rewrite Hp, elem_of_cons.
      destruct (decide (k = h)) as [->|Hk]; [by rewrite Gh|]. intros [?|Hk']; [done|].
      rewrite Gk by done. by apply (wf_live _ _ Hs).
    + intros k. change (timers s2) with (timers s'). rewrite Hp, not_elem_of_cons. intros [Hk Hk'] Ho.
      rewrite Gk by done. apply (wf_idle _ _ Hs); [done|]. by apply not_elem_of_cons.
    + change (deletedTimers s2) with (deletedTimers s'). rewrite Hd, (wf_deleted _ _ Hs). f_equal. symmetry.
      apply Hsum; [intros k Hk; by apply deleted_get, Gk|]. unfold deleted, st. by rewrite Gh.
    + intros k. destruct (decide (k = h)) as [->|Hk]; [rewrite Gh|rewrite Gk by done]; apply (wf_period _ _ Hs).
  - split; try done; [by rewrite <- Hst; apply len_put|]. apply Hsum.
    + intros k Hk. unfold st. by rewrite Gk.
    + unfold st. by rewrite Gh.
  - unfold st. intros E1. transitivity (put h (get h s') s'); [|by apply put_get_id].
    unfold s2. f_equal.
    rewrite G, decide_True by done. unfold waiting, with_pp. by rewrite E1.
Qed.

(** ** The top of the heap is put in order *)
(** What tidying up keeps: the tasks, the announcement, and the rest. *)
Record tidied (out : list nat) (s s' : proc) : Prop :=
  { td_wf : wfo out s';
    td_active k : active s' k = active s k;
    td_announced : announced s → announced s';
    td_store : length (store s') = length (store s);
    td_woken : woken s' = woken s;
    td_idle k : k ∉ timers s → get k s' = get k s ∧ k ∉ timers s';
    td_stay k : k ∈ timers s' → k ∈ timers s ∧ (get k s' = get k s ∨ st s' k = timerWaiting) }.
Lemma tidied_refl out s : wfo out s → tidied out s s.
Proof. intros Hs. split; try done. intros k Hk. split; [done|by left]. Qed.
Lemma tidied_trans out s1 s2 s3 : tidied out s1 s2 → tidied out s2 s3 → tidied out s1 s3.
Proof.
  intros [] [H1 H2 H3 H4 H5 H6 H7]. split; try done; [intros k; by rewrite H2|tauto|congruence|congruence|..].
  - intros k [E Hk]%td_idle0. destruct (H6 k Hk) as [-> ?]. done.
  - intros k [Hk E]%H7. destruct (td_stay0 k Hk) as [Hk' E']. split; [done|].
    destruct E as [E|E]; [|by right]. unfold st in *. rewrite E. destruct E' as [->|]; auto.
Qed.
Lemma top_ent s h l : timers s = h :: l → ent (timers s) 0 = h ∧ (0 < length (timers s))%nat.
Proof. intros ->. cbn. split; [done|lia]. Qed.

Lemma remove0_spec out h l s : wfo out s → timers s = h :: l → st s h = timerDeleted →
  ∃ s', remove0 h s = Ok s' ∧ tidied out s s' ∧ nonwaiting s' = nonwaiting s - 1 ∧
    length (timers s) = S (length (timers s')).
Proof.
  intros Hs El Hst. destruct (top_ent _ _ _ El) as [E0 Hl].
  destruct (remove_spec out 0 s Hs Hl) as (s'&c&E&Hw&HL&Ha); [by rewrite E0|].
  rewrite E0 in E, Hw, HL, Ha. unfold remove0. rewrite (dodeltimer0_at _ _ _ E). cbn [mbind res_bind].
  eexists. split; [done|]. set (s'' := add_deletedTimers _ _) in *. destruct HL. split; [|split].
  - split; try done.
    + intros [H1 H2]. unfold announced. rewrite lh_early0.
      destruct (Nat.eqb_spec (length (timers s'')) 0) as [E1|E1].
      * split; [done|]. intros k Hk. apply nil_length_inv in E1. rewrite E1 in Hk. by apply elem_of_nil in Hk.
      * split; [done|]. intros k [Hk Hkh]%lh_in0. unfold st. rewrite lh_get0 by done. by apply H2.
    + intros k Hk. assert (Hkh : k ≠ h) by (intros ->; apply Hk; rewrite El; by left).
      split; [by apply lh_get0|]. rewrite lh_in0. naive_solver.
    + intros k [Hk Hkh]%lh_in0. split; [done|]. left. by apply lh_get0.
  - rewrite lh_nonwaiting0, bool_decide_eq_true_2; [done|]. by rewrite Hst.
  - done.
Qed.
Lemma active_moving s s' h : modified (st s h) → get h s' = waiting (moving (get h s)) → active s' h = active s h.
Proof. unfold active, st. intros Hm ->. cbn. by destruct Hm as [-> | ->]. Qed.
Lemma move0_spec out h l s : wfo out s → h ∉ out → timers s = h :: l → modified (st s h) →
  ∃ s', move0 h s = Ok s' ∧ tidied out s s' ∧ nonwaiting s' = nonwaiting s - 1 ∧
    length (timers s') = length (timers s).
Proof.
  intros Hs Ho El Hst. destruct (top_ent _ _ _ El) as [E0 Hl].
  pose proof (wf_heap _ _ Hs) as Hw. assert (Hh : h ∈ timers s) by (rewrite El; by left).
  assert (Hpos : 0 < nextwhen (get h s)).
  { pose proof (wf_live _ _ Hs h Hh) as Hlv. unfold live in Hlv. unfold st in Hst.
    destruct Hst as [E|E]; rewrite E in Hlv; lia. }
  destruct (detach_spec out 0 s Hs Hl) as (s1&c&E&Hw1&HL&Gh); [by rewrite E0|].
  rewrite E0 in E, Hw1, HL, Gh. unfold move0. cbv zeta in *. rewrite (dodeltimer0_at _ _ _ E).
  cbn [mbind res_bind]. destruct HL.
  assert (Hno : h ∉ timers s1) by (rewrite lh_in0; tauto).
  destruct (attach_spec out h s1 Hw1 Hno) as (s2&E2&Hw2&HJ&_).
  { rewrite lh_store0. by apply (hw_pos _ Hw). }
  { unfold wh. by rewrite Gh. }
  rewrite E2. cbn [mbind res_bind]. eexists. split; [done|]. set (s3 := set_status h timerWaiting s2) in *.
  destruct HJ. rewrite Gh in jn_self0.
  assert (Hg : ∀ k, k ≠ h → get k s3 = get k s) by (intros k Hk; by rewrite jn_get0, lh_get0).
  split; [|split].
  - split; try done.
    + intros k. destruct (decide (k = h)) as [->|Hk]; [by apply active_moving|by apply active_get, Hg].
    + intros [H1 H2]. unfold announced. rewrite jn_early0, lh_early0. split; [by destruct (_ =? _)%nat|].
      intros k. rewrite jn_perm0, elem_of_cons. unfold st. destruct (decide (k = h)) as [->|Hk].
      * by rewrite jn_self0.
      * intros [?|Hk1]; [done|]. pose proof Hk1 as [Hk2 _]%lh_in0. rewrite Hg by done. intros Hme.
        destruct (Nat.eqb_spec (length (timers s1)) 0) as [E1|]; [|by apply H2].
        apply nil_length_inv in E1. rewrite E1 in Hk1. by apply elem_of_nil in Hk1.
    + congruence.
    + congruence.
    + intros k Hk. assert (Hkh : k ≠ h) by (intros ->; done). split; [by apply Hg|].
      rewrite jn_perm0, not_elem_of_cons, lh_in0. naive_solver.
    + intros k. rewrite jn_perm0, elem_of_cons, lh_in0. destruct (decide (k = h)) as [->|Hk].
      * intros _. split; [done|right]. unfold st. by rewrite jn_self0.
      * intros [?|[Hk' _]]; [done|]. split; [done|left]. by apply Hg.
  - rewrite jn_nonwaiting0, lh_nonwaiting0, bool_decide_eq_true_2; [done|]. by destruct Hst as [-> | ->].
  - rewrite jn_perm0, lh_len0. done.
Qed.
