(* ===== verification/TimersOps.v ===== *)
(** * runtime/time.go: the operations keep the invariant and change the tasks as
    they should *)
From S2P Require Import Prelude Threads TimerHeap Timers TimersInv.

Definition is_waiting (s : proc) (h : nat) : Prop := st s h = timerWaiting.
Lemma nonwaiting_bounds s : 0 <= nonwaiting s <= Z.of_nat (length (timers s)).
Proof.
  unfold nonwaiting. induction (timers s) as [|h l IH]; cbn [total length]; [lia|].
  pose proof (b2z_01 (bool_decide (st s h ≠ timerWaiting))). lia.
Qed.
Lemma live_cases s h out : wfo out s → h ∈ timers s →
  st s h = timerWaiting ∨ st s h = timerDeleted ∨ modified (st s h).
Proof.
  intros Hs Hh. pose proof (wf_live _ _ Hs h Hh) as Hl. unfold live in Hl. fold (st s h) in Hl.
  unfold modified. destruct (st s h); naive_solver.
Qed.
Lemma top_pp s h l out : wfo out s → timers s = h :: l → pp (get h s) = true.
Proof. intros Hs El. apply (hw_pp _ (wf_heap _ _ Hs)). rewrite El. by left. Qed.

(** ** cleantimers *)
Lemma cleantimers_spec out stop fuel s : wfo out s → (∀ h, h ∈ timers s → h ∉ out) →
  nonwaiting s < Z.of_nat fuel →
  ∃ s', cleantimers stop fuel s = Ok s' ∧ tidied out s s'.
Proof.
  revert s. induction fuel as [|fuel IH]; intros s Hs Ho Hf.
  { pose proof (nonwaiting_bounds s). lia. }
  cbn [cleantimers]. destruct (timers s) as [|h l] eqn:El; [exists s; split; [done|by apply tidied_refl]|].
  destruct (stop fuel); [exists s; split; [done|by apply tidied_refl]|].
  rewrite (top_pp _ _ _ _ Hs El). cbn [negb].
  assert (Hh : h ∈ timers s) by (rewrite El; by left).
  assert (Hstep : ∀ s1, tidied out s s1 → (∀ k, k ∈ timers s1 → k ∉ out) → nonwaiting s1 = nonwaiting s - 1 →
            ∃ s', cleantimers stop fuel s1 = Ok s' ∧ tidied out s s').
  { intros s1 H1 Ho1 Hn. destruct (IH s1 (td_wf _ _ _ H1) Ho1 ltac:(lia)) as (s'&E&H'). exists s'.
    split; [done|]. by eapply tidied_trans. }
  assert (Hkeep : ∀ s1, tidied out s s1 → ∀ k, k ∈ timers s1 → k ∉ out).
  { intros s1 H1 k Hk. apply Ho. rewrite <- El. destruct (decide (k ∈ timers s)) as [|Hn]; [done|].
    by apply (td_idle _ _ _ H1) in Hn as [_ []]. }
  destruct (live_cases _ _ _ Hs Hh) as [E|[E|E]].
  - rewrite E. exists s. split; [done|by apply tidied_refl].
  - rewrite E. destruct (remove0_spec out h l s Hs El E) as (s1&->&H1&Hn&_). cbn [mbind res_bind].
    apply Hstep; [done|by apply Hkeep|done].
  - destruct (move0_spec out h l s Hs) as (s1&E1&H1&Hn&_); [apply Ho; by left|done|done|].
    destruct E as [-> | ->]; rewrite E1; cbn [mbind res_bind]; (apply Hstep; [done|by apply Hkeep|done]).
Qed.

(** ** The tasks after an operation on one timer *)
Definition tasks_set (h : nat) (x : option task) (s s' : proc) : Prop :=
  ∀ k, active s' k = if decide (k = h) then x else active s k.
Lemma wf_not_in s h : wf s → ¬ (pp (get h s) = true) → (h ∉ timers s) ∧ idle (get h s).
Proof.
  intros [Hs _] Hp. assert (Hn : h ∉ timers s) by (intros Hi; by apply Hp, (hw_pp _ (wf_heap _ _ Hs))).
  split; [done|]. apply (wf_idle _ _ Hs); [done|]. apply not_elem_of_nil.
Qed.
Lemma wf_in_of_status s h : wf s → ¬ idle (get h s) → h ∈ timers s.
Proof.
  intros [Hs _] Hn. destruct (decide (h ∈ timers s)) as [|H]; [done|]. exfalso. apply Hn.
  apply (wf_idle _ _ Hs); [done|]. apply not_elem_of_nil.
Qed.

(** A timer outside the heap is given a time and put in. *)
Lemma prepare_spec h t s : wfo [] s → (h < length (store s))%nat → h ∉ timers s → pp t = false →
  0 <= period t → wfo [h] (put h t s).
Proof.
  intros Hs Hl Hn Hp Hper. destruct (put_out h t s (wf_heap _ _ Hs) Hl Hn Hp) as [Hw Hg].
  split; [done|..].
  - intros k Hk. rewrite Hg by done. by apply (wf_live _ _ Hs).
  - intros k Hk Hkh%not_elem_of_cons. rewrite get_put, decide_False by naive_solver.
    apply (wf_idle _ _ Hs); [done|]. apply not_elem_of_nil.
  - change (deletedTimers (put h t s)) with (deletedTimers s). rewrite (wf_deleted _ _ Hs). f_equal.
    symmetry. apply total_ext. intros k Hk. by apply deleted_get, Hg.
  - intros k. rewrite get_put by done. destruct (decide _); [done|apply (wf_period _ _ Hs)].
Qed.
(** No timer is made earlier. *)
Definition early_kept (s s' : proc) : Prop :=
  ∀ k, k ∈ timers s' → st s' k = timerModifiedEarlier → k ∈ timers s ∧ get k s' = get k s.
Lemma announced_same s s' (E : timerModifiedEarliest s' = timerModifiedEarliest s) :
  early_kept s s' → announced s → announced s'.
Proof.
  intros H [H1 H2]. split; [by rewrite E|]. intros k Hk Hme. destruct (H k Hk Hme) as [Hk' Eg].
  rewrite E, Eg. apply H2; [done|]. unfold st in *. by rewrite <- Eg.
Qed.

Lemma addtimer_spec stop h s : wf s → (h < length (store s))%nat → st s h = timerNoStatus →
  0 < wh s h → 
  ∃ s', addtimer stop h s = Ok s' ∧ wf s' ∧
    tasks_set h (Some (Task (wh s h) (period (get h s)) (func (get h s), seqno (get h s)))) s s' ∧
    woken s' = wh s h :: woken s.
Proof.
  intros Hwf Hl Hst Hpos. pose proof Hwf as [Hs Ha]. unfold addtimer.
  pose proof (wf_period _ _ Hs h) as Hper.
  fold (wh s h). rewrite (proj2 (Z.leb_gt _ _)), (proj2 (Z.ltb_ge _ _)), bool_decide_eq_true_2 by done. cbn [negb].
  assert (Hn : h ∉ timers s).
  { intros Hi. pose proof (wf_live _ _ Hs h Hi) as H. unfold live in H. fold (st s h) in H. by rewrite Hst in H. }
  assert (Hp : pp (get h s) = false).
  { apply not_true_is_false. intros Hi. by apply Hn, (hw_pp _ (wf_heap _ _ Hs)). }
  unfold set_status. set (t := MkTimer _ _ _ _ _ _ _). set (s1 := put h t s).
  assert (Hs1 : wfo [h] s1) by by apply prepare_spec.
  assert (G1 : ∀ k, get k s1 = if decide (k = h) then t else get k s) by (intros; by apply get_put).
  assert (Ho : ∀ k, k ∈ timers s1 → k ∉ [h]) by (intros k Hk ->%list_elem_of_singleton; done).
  destruct (cleantimers_spec [h] stop (S (length (timers s1))) s1 Hs1 Ho) as (s2&E2&[W2 A2 N2 L2 K2 I2 _]).
  { pose proof (nonwaiting_bounds s1). lia. }
  rewrite E2. cbn [mbind res_bind]. destruct (I2 h Hn) as [Eh Hh2].
  rewrite G1, decide_True in Eh by done.
  destruct (attach_spec [] h s2 W2 Hh2) as (s3&E3&W3&HJ&Heq).
  { rewrite L2. unfold s1. by rewrite len_put. }
  { unfold wh. by rewrite Eh. }
  rewrite E3. cbn [mbind res_bind]. rewrite Heq in W3, HJ by (unfold st; by rewrite Eh). destruct HJ.
  eexists. split; [done|]. rewrite Eh in jn_self. 
  assert (HA : announced s1).
  { apply (announced_same s); [done| |done]. intros k Hk _. split; [done|]. rewrite G1, decide_False; [done|].
    by intros ->. }
  split; [split|split].
  - destruct W3 as [Hw ? ? ? ?]. split; try done. by destruct Hw.
  - apply N2 in HA. apply (announced_same s2); [exact jn_early| |done].
    intros k Hk Hme. change (k ∈ timers s3) in Hk. change (st s3 k = timerModifiedEarlier) in Hme.
    rewrite jn_perm, elem_of_cons in Hk. destruct (decide (k = h)) as [->|Hkh].
    + unfold st in Hme. by rewrite jn_self in Hme.
    + destruct Hk as [?|Hk]; [done|]. split; [done|]. by apply jn_get.
  - intros k. change (active s3 k = if decide (k = h) then Some (Task (wh s h) (period (get h s)) (func (get h s), seqno (get h s))) else active s k).
    destruct (decide (k = h)) as [->|Hkh].
    + unfold active. by rewrite jn_self.
    + rewrite (active_get s3 s2) by by apply jn_get. rewrite A2. apply active_get. by rewrite G1, decide_False.
  - change (wh s1 h :: woken s3 = wh s h :: woken s). rewrite jn_woken, K2. f_equal. unfold wh. by rewrite G1, decide_True.
Qed.

(** A timer in the heap is changed in place. *)
Lemma change_spec h t s e d w : wf s → h ∈ timers s → pp t = true → when t = wh s h → live t →
  0 <= period t → d = u32 (deletedTimers s - deleted s h + Z.b2z (bool_decide (status t = timerDeleted))) →
  (0 <= e ∧ (status t = timerModifiedEarlier → e ≠ 0 ∧ e <= nextwhen t) ∧
    (timerModifiedEarliest s ≠ 0 → e ≠ 0 ∧ e <= timerModifiedEarliest s)) →
  let s' := MkProc (<[h := t]> (store s)) (timers s) (timer0When s) e (numTimers s) d (netpollInited s) w in
  wf s' ∧ (∀ k, get k s' = if decide (k = h) then t else get k s).
Proof.
  intros [Hs [Ha1 Ha2]] Hh Hp Hw Hlv Hper -> (He1&He2&He3). cbv zeta. set (s' := MkProc _ _ _ _ _ _ _ _).
  pose proof (wf_heap _ _ Hs) as Hhw. pose proof (proj1 (hw_pos _ Hhw h Hh)) as Hl.
  assert (Hpp : pp (get h s) = true) by by apply (hw_pp _ Hhw).
  pose proof (put_hwf h t s Hhw Hl ltac:(congruence) Hw) as Hhw'.
  assert (G : ∀ k, get k s' = if decide (k = h) then t else get k s) by (intros k; by apply (get_put h k t s)).
  split; [|done]. split; [split|split].
  - by destruct Hhw'.
  - intros k Hk. rewrite G. destruct (decide _); [done|by apply (wf_live _ _ Hs)].
  - intros k Hk Ho. rewrite G. destruct (decide (k = h)) as [->|]; [done|by apply (wf_idle _ _ Hs)].
  - change (count_deleted s') with (count_deleted (put h t s)). rewrite count_put by done.
    cbn [s' deletedTimers]. rewrite (wf_deleted _ _ Hs). unfold u32.
    replace (count_deleted s - deleted s h + Z.b2z (bool_decide (status t = timerDeleted)))
      with (count_deleted s + (Z.b2z (bool_decide (status t = timerDeleted)) - deleted s h)) by lia.
    replace (count_deleted s mod 2 ^ 32 - deleted s h + Z.b2z (bool_decide (status t = timerDeleted)))
      with (count_deleted s mod 2 ^ 32 + (Z.b2z (bool_decide (status t = timerDeleted)) - deleted s h)) by lia.
    by rewrite Zplus_mod_idemp_l.
  - intros k. rewrite G. destruct (decide _); [done|apply (wf_period _ _ Hs)].
  - done.
  - intros k Hk. unfold st. rewrite G. destruct (decide (k = h)) as [->|Hkh]; [done|]. intros Hme.
    destruct (Ha2 k Hk Hme) as [H1 H2]. cbn [s' timerModifiedEarliest]. destruct (He3 H1). lia.
Qed.
Lemma active_in s h : wf s → is_Some (active s h) → h ∈ timers s.
Proof.
  intros Hw [x Hx]. apply wf_in_of_status; [done|]. intros [E|E]; unfold active in Hx; by rewrite E in Hx.
Qed.
Lemma tasks_changed h s s' t x : (∀ k, get k s' = if decide (k = h) then t else get k s) →
  (∀ s0, get h s0 = t → active s0 h = x) → tasks_set h x s s'.
Proof.
  intros G Hx k. destruct (decide (k = h)) as [->|Hk].
  - apply Hx. by rewrite G, decide_True.
  - apply active_get. by rewrite G, decide_False.
Qed.

Lemma deltimer_spec h s : wf s →
  ∃ s', deltimer h s = Ok (bool_decide (is_Some (active s h)), s') ∧ wf s' ∧ tasks_set h None s s'.
Proof.
  intros Hwf. pose proof Hwf as [Hs Ha]. unfold deltimer.
  assert (Hstay : active s h = None → tasks_set h None s s).
  { intros E k. by destruct (decide (k = h)) as [->|]. }
  destruct (decide (h ∈ timers s)) as [Hh|Hn]; cycle 1.
  { assert (Hi : idle (get h s)) by (apply (wf_idle _ _ Hs); [done|apply not_elem_of_nil]).
    pose proof (active_idle s h Hi) as E. rewrite E, bool_decide_eq_false_2 by by intros [].
    exists s. unfold st. destruct Hi as [-> | ->]; auto. }
  pose proof (wf_heap _ _ Hs) as Hw. assert (Hpp : pp (get h s) = true) by by apply (hw_pp _ Hw).
  assert (Hdel : st s h ≠ timerDeleted →
    ∃ s', Ok (true, add_deletedTimers 1 (set_status h timerDeleted s)) = Ok (true, s') ∧ wf s' ∧ tasks_set h None s s').
  { intros Hd. eexists. split; [done|].
    unfold set_status. set (t := MkTimer _ _ _ _ _ _ _). 
    destruct (change_spec h t s (timerModifiedEarliest s) (u32 (deletedTimers s + 1)) (woken s)) as [H1 G];
      try done; [apply (wf_period _ _ Hs)|..].
    - unfold deleted. rewrite bool_decide_eq_false_2 by done. simpl. f_equal. lia.
    - destruct Ha as [Ha1 Ha2]. split; [done|]. split; [done|]. intros; split; [done|lia].
    - split; [exact H1|]. apply (tasks_changed _ _ _ t); [exact G|]. unfold active. by intros s0 ->. }
  destruct (live_cases _ _ _ Hs Hh) as [E|[E|E]].
  - rewrite E. rewrite bool_decide_eq_true_2; [apply Hdel; by rewrite E|]. unfold active. fold (st s h). rewrite E. by eexists.
  - assert (Hna : active s h = None) by (unfold active; fold (st s h); by rewrite E).
    rewrite E, Hna, bool_decide_eq_false_2 by by intros []. exists s. auto.
  - rewrite bool_decide_eq_true_2 by (unfold active; fold (st s h); destruct E as [-> | ->]; by eexists).
    destruct E as [E|E]; rewrite E; apply Hdel; by rewrite E.
Qed.

(** modtimer on a timer that is in no heap. *)
Lemma modtimer_new h w p f q s : wf s → (h < length (store s))%nat → h ∉ timers s → 0 < w → 0 <= p →
  ∃ s', modtimer h w p f q s = Ok (false, s') ∧ wf s' ∧ tasks_set h (Some (Task w p (f, q))) s s'.
Proof.
  intros Hwf Hl Hn Hpos Hper. pose proof Hwf as [Hs Ha]. unfold modtimer.
  rewrite (proj2 (Z.leb_gt _ _)), (proj2 (Z.ltb_ge _ _)) by done.
  assert (Hi : idle (get h s)) by (apply (wf_idle _ _ Hs); [done|apply not_elem_of_nil]).
  assert (Hp : pp (get h s) = false).
  { apply not_true_is_false. intros Hi'. by apply Hn, (hw_pp _ (wf_heap _ _ Hs)). }
  set (t := MkTimer false w p f q (nextwhen (get h s)) timerModifying).
  set (t0 := MkTimer (pp (get h s)) (when (get h s)) p f q (nextwhen (get h s)) timerModifying).
  assert (Es : set_when h w (put h t0 s) = put h t s).
  { unfold set_when. rewrite get_put, decide_True by done. unfold t0. cbn. rewrite Hp. unfold put. cbn.
    by rewrite list_insert_insert_eq. }
  assert (Hgo : ∃ s', (s1 ← doaddtimer h (put h t s); Ok (false, wakeNetPoller w (set_status h timerWaiting s1))) = Ok (false, s')
            ∧ wf s' ∧ tasks_set h (Some (Task w p (f, q))) s s').
  { assert (Hs1 : wfo [h] (put h t s)) by by apply prepare_spec.
    assert (G1 : ∀ k, get k (put h t s) = if decide (k = h) then t else get k s) by (intros; by apply get_put).
    destruct (attach_spec [] h (put h t s) Hs1 Hn) as (s2&E2&W2&HJ&_).
    { by rewrite len_put. }
    { unfold wh. by rewrite G1, decide_True. }
    rewrite E2. cbn [mbind res_bind]. eexists. split; [done|]. destruct HJ.
    rewrite G1, decide_True in jn_self by done. set (s3 := set_status h timerWaiting s2) in *.
    assert (Hk : ∀ k, k ≠ h → get k s3 = get k s).
    { intros k Hk. rewrite jn_get by done. by rewrite G1, decide_False. }
    split; [split|].
    - destruct W2 as [Hw2 ? ? ? ?]. split; try done. by destruct Hw2.
    - apply (announced_same s); [exact jn_early| |done]. intros k Hin Hme.
      change (k ∈ timers s3) in Hin. change (st s3 k = timerModifiedEarlier) in Hme.
      rewrite jn_perm, elem_of_cons in Hin. destruct (decide (k = h)) as [->|Hkh].
      + unfold st in Hme. by rewrite jn_self in Hme.
      + destruct Hin as [?|Hin]; [done|]. split; [done|]. by apply Hk.
    - intros k. change (active s3 k = if decide (k = h) then Some (Task w p (f, q)) else active s k).
      destruct (decide (k = h)) as [->|Hkh]; [unfold active; by rewrite jn_self|]. by apply active_get, Hk. }
  unfold st. destruct Hi as [-> | ->]; cbn [mbind res_bind]; fold t0; rewrite Es; exact Hgo.
Qed.
(** On a timer in the heap. *)
Lemma modtimer_old h w p f q s : wf s → h ∈ timers s → 0 < w → 0 <= p →
  ∃ s', modtimer h w p f q s = Ok (bool_decide (is_Some (active s h)), s') ∧ wf s' ∧
    tasks_set h (Some (Task w p (f, q))) s s'.
Proof.
  intros Hwf Hh Hpos Hper. pose proof Hwf as [Hs [Ha1 Ha2]]. unfold modtimer.
  rewrite (proj2 (Z.leb_gt _ _)), (proj2 (Z.ltb_ge _ _)) by done.
  pose proof (wf_heap _ _ Hs) as Hw. assert (Hpp : pp (get h s) = true) by by apply (hw_pp _ Hw).
  pose proof (proj1 (hw_pos _ Hw h Hh)) as Hl.
  assert (Hgo : ∀ b d, u32 (deletedTimers s - deleted s h) = d →
    ∃ s', (let s1 := MkProc (store s) (timers s) (timer0When s) (timerModifiedEarliest s) (numTimers s) d (netpollInited s) (woken s) in
           let t := get h s1 in
           let s1 := put h (MkTimer (pp t) (when t) p f q (nextwhen t) timerModifying) s1 in
           let s1 := set_nextwhen h w s1 in
           let earlier := w <? wh s1 h in
           let s1 := if earlier then updateTimerModifiedEarliest w s1 else s1 in
           let s1 := set_status h (if earlier then timerModifiedEarlier else timerModifiedLater) s1 in
           Ok (b, if earlier then wakeNetPoller w s1 else s1)) = Ok (b : bool, s') ∧ wf s' ∧
      tasks_set h (Some (Task w p (f, q))) s s').
  { intros b d Hd. eexists. split; [done|]. cbv zeta.
    set (s0 := MkProc _ _ _ _ _ _ _ _). change (get h s0) with (get h s).
    unfold set_nextwhen. rewrite get_put, decide_True by done. cbn [pp when period func seqno status].
    set (t1 := MkTimer _ _ _ _ _ w timerModifying).
    set (s1 := put h t1 (put h _ s0)).
    assert (G1 : get h s1 = t1) by (unfold s1; rewrite get_put, decide_True by (done || by rewrite len_put); done).
    assert (W1 : wh s1 h = wh s h) by (unfold wh; by rewrite G1). rewrite W1.
    set (e := w <? wh s h). set (x := if e then timerModifiedEarlier else timerModifiedLater).
    set (t := MkTimer true (wh s h) p f q w x).
    set (ee := if e then timerModifiedEarliest (updateTimerModifiedEarliest w s0) else timerModifiedEarliest s).
    destruct (change_spec h t s ee d (if e then w :: woken s else woken s)) as [H1 G]; try done.
    - unfold live, t, x, e. cbn. destruct (Z.ltb_spec w (wh s h)); cbn; lia.
    - rewrite <- Hd. unfold t, x. cbn. rewrite bool_decide_eq_false_2 by (by destruct e). simpl. f_equal. lia.
    - unfold ee, x, t, updateTimerModifiedEarliest. cbn. change (timerModifiedEarliest s0) with (timerModifiedEarliest s).
      destruct e; cbn; [|split; [done|split; [done|]]; intros; split; [done|lia]].
      destruct (Z.eqb_spec (timerModifiedEarliest s) 0) as [E0|E0]; cbn [negb andb].
      + cbn. split; [lia|]. split; [lia|]. done.
      + destruct (Z.ltb_spec (timerModifiedEarliest s) w); cbn; (split; [lia|]; split; [lia|]; lia).
    - match goal with |- wf ?a ∧ _ => set (s' := a) end.
      assert (Es' : s' = MkProc (<[h := t]> (store s)) (timers s) (timer0When s) ee (numTimers s) d
        (netpollInited s) (if e then w :: woken s else woken s)).
      { unfold s', s1, set_status, updateTimerModifiedEarliest. unfold ee, updateTimerModifiedEarliest.
        cbn [timerModifiedEarliest put s0]. unfold t, x.
        destruct e; [destruct (negb (timerModifiedEarliest s =? 0) && (timerModifiedEarliest s <? w))|];
          unfold wakeNetPoller, set_earliest, put;
          cbn [store timers timer0When timerModifiedEarliest numTimers deletedTimers netpollInited woken];
          rewrite ?list_insert_insert_eq; unfold get; cbn [store];
          rewrite nth_lookup, list_lookup_insert_eq by (by rewrite ?length_insert); cbn; by rewrite Hpp. }
      rewrite Es'. split; [exact H1|]. apply (tasks_changed _ _ _ t); [exact G|].
      unfold active. intros s2 ->. unfold t, x. cbn. by destruct e. }
  assert (Hd0 : ∀ d, d = deletedTimers s → st s h ≠ timerDeleted → u32 (d - deleted s h) = deletedTimers s).
  { intros d -> Hne. unfold deleted. rewrite bool_decide_eq_false_2 by done. simpl.
    rewrite Z.sub_0_r, (wf_deleted _ _ Hs). apply u32_id, u32_range. }
  destruct (live_cases _ _ _ Hs Hh) as [E|[E|E]].
  - rewrite bool_decide_eq_true_2 by (unfold active; fold (st s h); rewrite E; by eexists).
    rewrite E. cbn [mbind res_bind]. destruct s. apply (Hgo true); apply Hd0; [done|by rewrite E].
  - rewrite bool_decide_eq_false_2 by (unfold active; fold (st s h); rewrite E; by intros []).
    rewrite E. cbn [mbind res_bind]. apply (Hgo false). unfold deleted. rewrite bool_decide_eq_true_2 by done. done.
  - rewrite bool_decide_eq_true_2 by (unfold active; fold (st s h); destruct E as [-> | ->]; by eexists).
    assert (Hne : st s h ≠ timerDeleted) by (by destruct E as [-> | ->]).
    destruct E as [E|E]; rewrite E; cbn [mbind res_bind]; destruct s; apply (Hgo true); by apply Hd0.
Qed.

(** ** adjusttimers *)
(** The task of a timer, also while it is being moved. *)
Definition task_of (s : proc) (h : nat) : option task :=
  let t := get h s in
  match status t with
  | timerMoving => Some (Task (when t) (period t) (func t, seqno t))
  | _ => active s h
  end.
Definition ready_to_move (s : proc) (h : nat) : Prop :=
  (h ∉ timers s) ∧ (h < length (store s))%nat ∧ st s h = timerMoving ∧ 0 < wh s h.
Record adjusting (M : list nat) (s : proc) : Prop :=
  { aj_wf : wfo M s;
    aj_moved h : h ∈ M → ready_to_move s h;
    aj_nodup : NoDup M;
    aj_early : timerModifiedEarliest s = 0 }.
Lemma task_get s s' h : get h s = get h s' → task_of s h = task_of s' h.
Proof. unfold task_of, active. by intros ->. Qed.
Lemma task_active s h : st s h ≠ timerMoving → task_of s h = active s h.
Proof. unfold task_of, st. by destruct (status (get h s)). Qed.

Lemma adjust_remove M i s : let h := ent (timers s) i in
  adjusting M s → (i < length (timers s))%nat → st s h = timerDeleted →
  ∃ s' c, dodeltimer i (set_status h timerRemoving s) = Ok (s', c) ∧
    let s'' := add_deletedTimers (-1) (set_status h timerRemoved s') in
    adjusting M s'' ∧ left_heap i h s s'' c ∧ (∀ k, task_of s'' k = task_of s k).
Proof.
  intros h [Hs HM Hnd He] Hi E. destruct (remove_spec M i s Hs Hi E) as (s'&c&Ed&Hw&HL&Ha).
  fold h in Ed, Hw, HL, Ha. exists s', c. split; [done|]. cbv zeta. set (s'' := add_deletedTimers _ _) in *.
  pose proof (ent_in s i Hi) as Hin. fold h in Hin. destruct HL.
  assert (Hh : st s'' h ≠ timerMoving).
  { assert (Hi' : idle (get h s'')).
    { apply (wf_idle _ _ Hw); [rewrite lh_in; tauto|]. intros Hm. by destruct (HM h Hm) as [[] _]. }
    unfold st. by destruct Hi' as [-> | ->]. }
  split; [split|split].
  - done.
  - intros k Hk. destruct (HM k Hk) as (A&B&C&D). assert (Hkh : k ≠ h) by (intros ->; done).
    unfold ready_to_move, st, wh. rewrite lh_get, lh_store, lh_in by done. tauto.
  - done.
  - rewrite lh_early, He. by destruct (_ =? _)%nat.
  - by split.
  - intros k. destruct (decide (k = h)) as [->|Hk]; [|by apply task_get, lh_get].
    rewrite !task_active; [apply Ha|by rewrite E|done].
Qed.
Lemma adjust_detach M i s : let h := ent (timers s) i in
  adjusting M s → (i < length (timers s))%nat → modified (st s h) →
  ∃ s' c, let s1 := set_status h timerMoving s in
    dodeltimer i (set_when h (nextwhen (get h s1)) s1) = Ok (s', c) ∧
    adjusting (M ++ [h]) s' ∧ left_heap i h s s' c ∧ (∀ k, task_of s' k = task_of s k).
Proof.
  intros h [Hs HM Hnd He] Hi E. destruct (detach_spec M i s Hs Hi E) as (s'&c&Ed&Hw&HL&Gh).
  fold h in Ed, Hw, HL, Gh. exists s', c. cbv zeta in *. split; [done|].
  pose proof (ent_in s i Hi) as Hin. fold h in Hin. pose proof HL as [].
  assert (Hpos : 0 < nextwhen (get h s)).
  { pose proof (wf_live _ _ Hs h Hin) as Hlv. unfold live in Hlv. unfold st in E.
    destruct E as [E|E]; rewrite E in Hlv; lia. }
  split; [split|split].
  - eapply wfo_weaken; [done|]. intros k. rewrite elem_of_cons, elem_of_app, list_elem_of_singleton. tauto.
  - intros k [Hk| ->%list_elem_of_singleton]%elem_of_app.
    + destruct (HM k Hk) as (A&B&C&D). assert (Hkh : k ≠ h) by (intros ->; done).
      unfold ready_to_move, st, wh. rewrite lh_get, lh_store, lh_in by done. tauto.
    + unfold ready_to_move, st, wh. rewrite Gh, lh_store, lh_in. cbn.
      split; [tauto|]. split; [by apply (hw_pos _ (wf_heap _ _ Hs))|done].
  - apply list.NoDup_app. split; [done|]. split; [|by apply list.NoDup_singleton].
    intros k Hk ->%list_elem_of_singleton. destruct (HM _ Hk) as [[] _]. done.
  - rewrite lh_early, He. by destruct (_ =? _)%nat.
  - done.
  - intros k. destruct (decide (k = h)) as [->|Hk]; [|by apply task_get, lh_get].
    unfold task_of, active. rewrite Gh. cbn. unfold st in E. by destruct E as [-> | ->].
Qed.

Lemma adjust_loop_spec L fuel : ∀ i M s, adjusting M s → (length (timers s) <= L)%nat →
  (i <= length (timers s))%nat → (∀ j, (j < i)%nat → st s (ent (timers s) j) = timerWaiting) →
  nonwaiting s * (Z.of_nat L + 1) + Z.of_nat (length (timers s) - i) < Z.of_nat fuel →
  ∃ M' s', adjust_loop fuel i M s = Ok (M', s') ∧ adjusting M' s' ∧
    (∀ h, h ∈ timers s' → st s' h = timerWaiting) ∧ (∀ k, task_of s' k = task_of s k) ∧
    length (store s') = length (store s).
Proof.
  induction fuel as [|fuel IH]; intros i M s Ha HL Hi Hpre Hf.
  { pose proof (nonwaiting_bounds s). nia. }
  cbn [adjust_loop]. destruct (Nat.leb_spec (length (timers s)) i) as [Hend|Hlt].
  { exists M, s. split; [done|]. split; [done|]. split; [|done].
    intros h [j Hj]%list_elem_of_lookup_1. pose proof (lookup_lt_Some _ _ _ Hj) as Hjl.
    specialize (Hpre j ltac:(lia)). unfold ent in Hpre. by rewrite nth_lookup, Hj in Hpre. }
  set (h := ent (timers s) i). pose proof (ent_in s i Hlt) as Hin. fold h in Hin.
  pose proof (aj_wf _ _ Ha) as Hs.
  rewrite (proj2 (hw_pp _ (wf_heap _ _ Hs) h) Hin). cbn [negb].
  (* an entry has left: the next round starts at the entry reported *)
  assert (Hnext : ∀ M1 s1 c, adjusting M1 s1 → left_heap i h s s1 c → st s h ≠ timerWaiting →
    (∀ k, task_of s1 k = task_of s k) →
    ∃ M' s', adjust_loop fuel c M1 s1 = Ok (M', s') ∧ adjusting M' s' ∧
      (∀ h, h ∈ timers s' → st s' h = timerWaiting) ∧ (∀ k, task_of s' k = task_of s k) ∧
      length (store s') = length (store s)).
  { intros M1 s1 c Ha1 [] Hne Ht. rewrite bool_decide_eq_true_2 in lh_nonwaiting by done. simpl in lh_nonwaiting.
    destruct (IH c M1 s1 Ha1) as (M'&s'&E&H1&H2&H3&H4).
    - lia.
    - lia.
    - intros j Hj. rewrite lh_prefix by done.
      assert (Hj1 : (j < length (timers s1))%nat) by lia. pose proof (ent_in s1 j Hj1) as Hje.
      rewrite lh_prefix in Hje by done. apply lh_in in Hje as [_ Hne'].
      unfold st. rewrite lh_get by done. apply Hpre. lia.
    - rewrite lh_nonwaiting. assert (Z.of_nat (length (timers s1) - c) <= Z.of_nat L - 1) by lia. nia.
    - exists M', s'. split; [done|]. split; [done|]. split; [done|]. split; [|congruence].
      intros k. by rewrite H3. }
  destruct (live_cases _ _ _ Hs Hin) as [E|[E|E]].
  - rewrite E. apply IH; try done; [|lia]. intros j Hj.
    destruct (decide (j = i)) as [->|]; [done|apply Hpre; lia].
  - rewrite E. destruct (adjust_remove M i s Ha Hlt E) as (s1&c&Ed&Ha1&HL1&Ht).
    fold h in Ed, Ha1, HL1, Ht. rewrite Ed. cbn [mbind res_bind].
    eapply Hnext; [done|exact HL1|by rewrite E|done].
  - destruct (adjust_detach M i s Ha Hlt E) as (s1&c&Ed&Ha1&HL1&Ht). fold h in Ed, Ha1, HL1, Ht.
    cbv zeta in Ed. assert (Hne : st s h ≠ timerWaiting) by (by destruct E as [-> | ->]).
    destruct E as [-> | ->]; rewrite Ed; cbn [mbind res_bind]; (eapply Hnext; [exact Ha1|exact HL1|exact Hne|exact Ht]).
Qed.

Lemma addAdjusted_spec : ∀ M s, adjusting M s → (∀ h, h ∈ timers s → st s h = timerWaiting) →
  ∃ s', addAdjustedTimers M s = Ok s' ∧ adjusting [] s' ∧
    (∀ h, h ∈ timers s' → st s' h = timerWaiting) ∧ (∀ k, task_of s' k = task_of s k) ∧
    length (store s') = length (store s).
Proof.
  induction M as [|h M IH]; intros s Ha Hall; [by exists s|].
  cbn [addAdjustedTimers]. destruct Ha as [Hs HM Hnd He]. destruct (HM h ltac:(by left)) as (A&B&C&D).
  destruct (attach_spec M h s Hs A B D) as (s1&E&Hw&[]&_). rewrite E. cbn [mbind res_bind].
  set (s2 := set_status h timerWaiting s1) in *. apply list.NoDup_cons in Hnd as [Hn Hnd].
  destruct (IH s2) as (s'&E'&H1&H2&H3&H4).
  - split; try done.
    + intros k Hk. destruct (HM k ltac:(by right)) as (A'&B'&C'&D'). assert (Hkh : k ≠ h) by (intros ->; done).
      unfold ready_to_move, st, wh. rewrite jn_get, jn_store, jn_perm, not_elem_of_cons by done. tauto.
    + by rewrite jn_early.
  - intros k. rewrite jn_perm, elem_of_cons. unfold st.
    destruct (decide (k = h)) as [->|Hk]; [by rewrite jn_self|]. intros [?|Hk']; [done|].
    rewrite jn_get by done. by apply Hall.
  - exists s'. split; [done|]. split; [done|]. split; [done|]. split; [|congruence].
    intros k. rewrite H3. destruct (decide (k = h)) as [->|Hk]; [|by apply task_get, jn_get].
    unfold task_of, active. rewrite jn_self. cbn. unfold st in C. by rewrite C.
Qed.

(** No timer made earlier is still unseen and due. *)
Definition no_early (now : Z) (s : proc) : Prop :=
  ∀ h, h ∈ timers s → st s h = timerModifiedEarlier → now < nextwhen (get h s).
Lemma no_moving s : wf s → ∀ h, st s h ≠ timerMoving.
Proof.
  intros [Hs _] h E. destruct (decide (h ∈ timers s)) as [Hin|Hn].
  - destruct (live_cases _ _ _ Hs Hin) as [E'|[E'|[E'|E']]]; congruence.
  - destruct (wf_idle _ _ Hs h Hn (not_elem_of_nil _)) as [E'|E']; unfold st in E; congruence.
Qed.
Lemma adjusttimers_spec now s : wf s →
  ∃ s', adjusttimers now s = Ok s' ∧ wf s' ∧ (∀ k, active s' k = active s k) ∧ no_early now s' ∧
    length (store s') = length (store s).
Proof.
  intros Hwf. pose proof Hwf as [Hs [Ha1 Ha2]]. unfold adjusttimers.
  destruct (_ || _) eqn:Hc.
  { exists s. split; [done|]. split; [done|]. split; [done|]. split; [|done]. intros h Hh Hst. destruct (Ha2 h Hh Hst) as [H1 H2].
    apply orb_prop in Hc as [Hc|Hc]; lia. }
  set (s0 := set_earliest 0 s).
  assert (H0 : adjusting [] s0).
  { split; [|by intros h ?%elem_of_nil|constructor|done]. destruct Hs as [Hh ? ? ? ?]. split; try done.
    by destruct Hh. }
  destruct (adjust_loop_spec (length (timers s0)) (adjust_fuel s0) 0 [] s0 H0) as (M&s1&E1&H1&Hw1&Ht1&Hl1);
    [lia|lia|lia| |].
  { pose proof (nonwaiting_bounds s0). unfold adjust_fuel. nia. }
  rewrite E1. cbn [mbind res_bind].
  assert (Hdone : ∀ s', adjusting [] s' → (∀ h, h ∈ timers s' → st s' h = timerWaiting) →
    (∀ k, task_of s' k = task_of s1 k) → length (store s') = length (store s1) → wf s' ∧ (∀ k, active s' k = active s k) ∧ no_early now s' ∧ length (store s') = length (store s)).
  { intros s' [W _ _ E] Hw Ht Hl'. assert (Hwf' : wf s').
    { split; [done|]. split; [by rewrite E|]. intros h Hh. by rewrite Hw. }
    split; [done|]. split.
    - intros k. rewrite <- (task_active s') by by apply no_moving.
      rewrite <- (task_active s) by by apply no_moving. rewrite Ht, Ht1. by apply task_get.
    - split; [|by rewrite Hl', Hl1]. intros h Hh. by rewrite Hw. }
  destruct (Nat.ltb_spec 0 (length M)) as [Hm|Hm].
  - destruct (addAdjusted_spec M s1 H1 Hw1) as (s'&E'&A&B&C&D). exists s'. split; [done|]. by apply Hdone.
  - destruct M; [|simpl in Hm; lia]. exists s1. split; [done|]. by apply Hdone.
Qed.
