(* ===== verification/TimersProps.v ===== *)
(** * runtime/time.go: running timers, and the properties *)
From S2P Require Import Prelude Threads TimerHeap Timers TimersInv TimersOps.

(** ** Running the timer at the top *)
(** When a periodic timer fires next. *)
Definition next_time (x : task) (now : Z) : Z :=
  Z.min maxWhen (at_time x + every x * (1 + (now - at_time x) / every x)).
Definition i64_range (z : Z) : Prop := - 2 ^ 63 <= z < 2 ^ 63.
Definition task_ok (x : task) : Prop := at_time x < 2 ^ 63 ∧ every x < 2 ^ 63.
Lemma i64_cong a b : a mod 2 ^ 64 = b mod 2 ^ 64 → i64 a = i64 b.
Proof. intros E. unfold i64. f_equal. by rewrite <- Zplus_mod_idemp_l, E, Zplus_mod_idemp_l. Qed.
Lemma i64_mod a : i64 a mod 2 ^ 64 = a mod 2 ^ 64.
Proof. unfold i64. rewrite <- Zminus_mod_idemp_l, Z.mod_mod, Zminus_mod_idemp_l by lia. f_equal. lia. Qed.
Lemma i64_small a : i64_range a → i64 a = a.
Proof. intros H. unfold i64, i64_range in *. rewrite Z.mod_small by lia. lia. Qed.
(** The source's arithmetic wraps around at most to a negative number. *)
Lemma next_time_ok w p now : 0 < w <= now → now < 2 ^ 63 → 0 < p < 2 ^ 63 →
  let d := i64 (w - now) in
  let v := i64 (w + i64 (p * i64 (1 + Z.quot (i64 (- d)) p))) in
  (if v <? 0 then maxWhen else v) = next_time (Task w p (0%nat, 0)) now ∧
  w <= next_time (Task w p (0%nat, 0)) now.
Proof.
  intros Hw Hn Hp. cbv zeta. rewrite (i64_small (w - now)) by (unfold i64_range; lia).
  replace (- (w - now)) with (now - w) by lia. rewrite (i64_small (now - w)) by (unfold i64_range; lia).
  rewrite Z.quot_div_nonneg by lia. set (q := (now - w) / p).
  assert (Hq : 0 <= q /\ p * q <= now - w < p * q + p).
  { unfold q. pose proof (Z.div_mod (now - w) p ltac:(lia)). pose proof (Z.mod_pos_bound (now - w) p ltac:(lia)).
    pose proof (Z.div_pos (now - w) p ltac:(lia) ltac:(lia)). lia. }
  assert (Hv : i64 (w + i64 (p * i64 (1 + q))) = i64 (w + p * (1 + q))).
  { apply i64_cong. rewrite <- Zplus_mod_idemp_r, i64_mod, Zplus_mod_idemp_r.
    rewrite <- Zplus_mod_idemp_r, <- Zmult_mod_idemp_r, i64_mod, Zmult_mod_idemp_r, Zplus_mod_idemp_r. done. }
  rewrite Hv. unfold next_time. cbn [at_time every]. fold q. unfold maxWhen in *.
  set (v := w + p * (1 + q)). assert (Hb : now < v < 2 ^ 64) by (unfold v; lia).
  split; [|lia]. destruct (Z.lt_ge_cases v (2 ^ 63)) as [Hs|Hs].
  - rewrite i64_small by (unfold i64_range; lia). rewrite (proj2 (Z.ltb_ge _ _)) by lia. lia.
  - assert (E : i64 v = v - 2 ^ 64).
    { transitivity (i64 (v - 2 ^ 64)); [|apply i64_small; unfold i64_range; lia].
      apply i64_cong. rewrite Zminus_mod, Z.mod_same, Z.sub_0_r, Z.mod_mod by lia. done. }
    rewrite E, (proj2 (Z.ltb_lt _ _)) by lia. lia.
Qed.

(** A timer that is not periodic leaves the heap. *)
Lemma expire_spec h l s : wfo [] s → timers s = h :: l → st s h = timerWaiting →
  ∃ s', dodeltimer0 (set_status h timerRunning s) = Ok s' ∧
    let s'' := set_status h timerNoStatus s' in
    wfo [] s'' ∧ (announced s → announced s'') ∧ tasks_set h None s s'' ∧ early_kept s s''.
Proof.
  intros Hs El Hst. destruct (top_ent _ _ _ El) as [E0 Hl]. pose proof (wf_heap _ _ Hs) as Hw.
  assert (Hh : h ∈ timers s) by (rewrite El; by left).
  assert (Hpp : pp (get h s) = true) by by apply (hw_pp _ Hw).
  unfold set_status at 1. set (t := MkTimer _ _ _ _ _ _ _).
  destruct (take_out [] 0 s t Hs Hl Hpp (wf_period _ _ Hs h)) as (s'&c&E&Hw'&Gh&HL&Hd&Hc&Hlive&Hidle&Hper).
  rewrite E0 in E, Gh, HL, Hc, Hidle. exists s'. split; [by eapply dodeltimer0_at|]. cbv zeta. destruct HL.
  assert (Hno : h ∉ timers s') by (rewrite lh_in; tauto).
  assert (Hlt : (h < length (store s'))%nat) by (rewrite lh_store; by apply (hw_pos _ Hw)).
  unfold set_status. set (t' := MkTimer _ _ _ _ _ _ _).
  destruct (put_out h t' s' Hw' Hlt Hno) as [Hw'' Hg]; [unfold t'; cbn; by rewrite Gh|].
  set (s'' := put h t' s'). fold s'' in Hw'', Hg.
  assert (G : ∀ k, get k s'' = if decide (k = h) then t' else get k s') by (intros k; by apply get_put).
  split; [split|split; [|split]].
  - done.
  - intros k Hk. rewrite Hg by done. by apply Hlive.
  - intros k Hk Hko. rewrite G. destruct (decide (k = h)) as [->|Hkh]; [by left|]. by apply Hidle.
  - change (deletedTimers s'') with (deletedTimers s'). rewrite Hd, (wf_deleted _ _ Hs). f_equal.
    transitivity (count_deleted s'); [|symmetry; apply total_ext; intros k Hk; by apply deleted_get, Hg].
    rewrite Hc. unfold deleted. rewrite Hst. simpl. lia.
  - intros k. rewrite G. destruct (decide _); [|done]. unfold t'. cbn. rewrite Gh. apply (wf_period _ _ Hs).
  - intros [H1 H2]. unfold announced. change (timerModifiedEarliest s'') with (timerModifiedEarliest s').
    rewrite lh_early. split; [by destruct (_ =? _)%nat|]. intros k Hk. change (k ∈ timers s') in Hk.
    unfold st. rewrite Hg by done. destruct (Nat.eqb_spec (length (timers s')) 0) as [E1|].
    + apply nil_length_inv in E1. rewrite E1 in Hk. by apply elem_of_nil in Hk.
    + apply lh_in in Hk as [Hk Hkh]. rewrite lh_get by done. by apply H2.
  - intros k. destruct (decide (k = h)) as [->|Hk].
    + unfold active. by rewrite G, decide_True.
    + apply active_get. rewrite G, decide_False by done. by apply lh_get.
  - intros k Hk _. change (k ∈ timers s') in Hk. rewrite Hg by done. apply lh_in in Hk as [Hk Hkh].
    split; [done|]. by apply lh_get.
Qed.

(** A periodic timer moves down to its next time. *)
Lemma reschedule_spec h l w s : wfo [] s → timers s = h :: l → st s h = timerWaiting → wh s h <= w → 
  let s1 := set_when h w (set_status h timerRunning s) in
  ∃ ts, siftdownTimer (wh s1) (timers s1) 0 = Ok ts ∧
    let s' := updateTimer0When (set_status h timerWaiting (set_timers ts s1)) in
    wfo [] s' ∧ (announced s → announced s') ∧
    tasks_set h (Some (Task w (period (get h s)) (func (get h s), seqno (get h s)))) s s' ∧ early_kept s s'.
Proof.
  intros Hs El Hst Hle. cbv zeta. pose proof (wf_heap _ _ Hs) as Hw.
  assert (Hh : h ∈ timers s) by (rewrite El; by left).
  assert (Hpp : pp (get h s) = true) by by apply (hw_pp _ Hw).
  destruct (hw_pos _ Hw h Hh) as [Hl Hpos].
  set (s1 := set_when h w (set_status h timerRunning s)).
  assert (G1 : ∀ k, k ≠ h → get k s1 = get k s).
  { intros k Hk. unfold s1, set_when, set_status. rewrite !get_put, !decide_False by (done || by rewrite len_put). done. }
  assert (Gh : get h s1 = MkTimer true w (period (get h s)) (func (get h s)) (seqno (get h s)) (nextwhen (get h s)) timerRunning).
  { unfold s1, set_when. rewrite get_put, decide_True by (done || (unfold set_status; by rewrite len_put)).
    unfold set_status. rewrite get_put, decide_True by done. cbn. by rewrite Hpp. }
  assert (Wk : ∀ k, k ≠ h → wh s1 k = wh s k) by (intros k Hk; unfold wh; by rewrite G1).
  assert (Wh : wh s1 h = w) by (unfold wh; by rewrite Gh).
  pose proof (hw_nodup _ Hw) as Hnd. change (timers s1) with (timers s). rewrite El in *.
  apply list.NoDup_cons in Hnd as [Hnl Hnd].
  assert (Hkey : ∀ j, (0 < j < length (h :: l))%nat → key (wh s1) (h :: l) j = key (wh s) (h :: l) j).
  { intros [|j] Hj; [lia|]. unfold key. cbn. apply Wk. intros E. apply Hnl. rewrite <- E.
    simpl in Hj. eapply list_elem_of_lookup_2. apply (ent_lookup l j). lia. }
  assert (Hdn : down_inv (wh s1) (h :: l) 0 (key (wh s1) (h :: l) 0)).
  { split; [simpl; lia| |lia|lia]. intros j Hj Hn Hp. pose proof (parent_lt j (proj1 Hj)).
    rewrite !Hkey by lia. pose proof (hw_heap _ Hw) as Hheap. rewrite El in Hheap. by apply Hheap. }
  destruct (siftdown_spec (wh s1) (h :: l) 0 Hdn) as (ts&E&Hheap&Hperm&_).
  { unfold key. cbn. rewrite Wh. lia. }
  exists ts. split; [done|]. set (s2 := set_status h timerWaiting (set_timers ts s1)).
  set (t := MkTimer true w (period (get h s)) (func (get h s)) (seqno (get h s)) (nextwhen (get h s)) timerWaiting).
  assert (Hl1 : length (store s1) = length (store s)).
  { unfold s1, set_when, set_status. by rewrite !len_put. }
  assert (G : ∀ k, get k (updateTimer0When s2) = if decide (k = h) then t else get k s).
  { intros k. transitivity (get k s2); [unfold updateTimer0When; by destruct (timers s2)|].
    unfold s2, set_status. change (get h (set_timers ts s1)) with (get h s1). rewrite Gh. cbn [pp when period func seqno nextwhen]. fold t.
    rewrite get_put by (change (store (set_timers ts s1)) with (store s1); by rewrite Hl1). change (get k (set_timers ts s1)) with (get k s1).
    destruct (decide (k = h)); [done|by apply G1]. }
  assert (F : timers (updateTimer0When s2) = ts ∧ timer0When (updateTimer0When s2) = match ts with [] => 0 | k :: _ => wh s2 k end ∧
    numTimers (updateTimer0When s2) = numTimers s ∧ deletedTimers (updateTimer0When s2) = deletedTimers s ∧
    timerModifiedEarliest (updateTimer0When s2) = timerModifiedEarliest s ∧
    length (store (updateTimer0When s2)) = length (store s)).
  { assert (HL2 : length (store s2) = length (store s))
      by (rewrite <- Hl1; unfold s2, set_status; by rewrite len_put).
    unfold updateTimer0When. change (timers s2) with ts. destruct ts; repeat split; try done; exact HL2. }
  assert (Gw : ∀ k, wh s2 k = wh (updateTimer0When s2) k).
  { intros k. unfold wh. f_equal. unfold updateTimer0When. by destruct (timers s2). }
  set (s' := updateTimer0When s2) in *. clearbody s'. destruct F as (Ft&F0&Fn&Fd&Fe&Fl).
  assert (W : ∀ k, wh s' k = wh s1 k).
  { intros k. unfold wh. rewrite G. destruct (decide (k = h)) as [->|Hk]; [by rewrite Gh|by rewrite G1]. }
  assert (Hek : early_kept s s').
  { intros k. rewrite Ft, Hperm, <- El. unfold st. rewrite G. intros Hk. by destruct (decide (k = h)) as [->|]. }
  split; [split|split; [by apply announced_same|split; [|done]]].
  - split; rewrite ?Ft, ?Fl.
    + rewrite Hperm. by apply list.NoDup_cons.
    + intros k. rewrite G, Hperm, <- El. destruct (decide (k = h)) as [->|]; [|apply (hw_pp _ Hw)].
      rewrite El. split; [intros _; by left|done].
    + intros k. rewrite Hperm, W. intros Hk. rewrite <- El in Hk. split; [by apply (hw_pos _ Hw)|].
      destruct (decide (k = h)) as [->|]; [rewrite Wh; lia|]. rewrite Wk by done. by apply (hw_pos _ Hw).
    + apply (heap_ext (wh s1)); [done|done].
    + rewrite F0. destruct ts; [done|apply Gw].
    + rewrite Fn, (hw_num _ Hw), El, Hperm. done.
    + apply (hw_small _ Hw).
  - intros k. rewrite Ft, Hperm, G, <- El. intros Hk. destruct (decide _); [done|by apply (wf_live _ _ Hs)].
  - intros k. rewrite Ft, Hperm, G, <- El. intros Hk Ho. destruct (decide (k = h)) as [->|]; [by rewrite El in Hk; destruct Hk; left|].
    by apply (wf_idle _ _ Hs).
  - rewrite Fd, (wf_deleted _ _ Hs). f_equal. unfold count_deleted. rewrite Ft, Hperm, <- El. apply total_ext.
    intros k Hk. unfold deleted, st. rewrite G. destruct (decide (k = h)) as [->|]; [|done]. cbn. unfold st in Hst. by rewrite Hst.
  - intros k. rewrite G. destruct (decide _); apply (wf_period _ _ Hs).
  - apply (tasks_changed _ _ _ t); [done|]. unfold active. by intros s0 ->.
Qed.

(** ** runtimer *)
Definition tasks_ok (s : proc) : Prop := ∀ k x, active s k = Some x → task_ok x.
(** What runtimer reports: the timer it ran, or that there is none to run. *)
Definition ran (now : Z) (s : proc) (r : Z) (call : option (nat * callback)) (s' : proc) : Prop :=
  match call with
  | None =>
      (∀ k, active s' k = active s k) ∧ (∀ k x, active s k = Some x → now < at_time x) ∧
      (r = -1 ∧ timers s' = [] ∨ now < r)
  | Some (h, w) =>
      r = 0 ∧ ∃ x, active s h = Some x ∧ what x = w ∧ at_time x <= now ∧
        (∀ k y, active s k = Some y → at_time x <= at_time y) ∧
        tasks_set h (if every x >? 0 then Some (Task (next_time x now) (every x) (what x)) else None) s s'
  end.
Lemma ran_tidied now s s1 r call s' : (∀ k, active s1 k = active s k) → ran now s1 r call s' → ran now s r call s'.
Proof.
  intros E. unfold ran, tasks_set. destruct call as [[h w]|].
  - intros [-> (x&H1&H2&H3&H4&H5)]. split; [done|]. exists x. rewrite <- E. split; [done|]. split; [done|].
    split; [done|]. split; [intros k y; rewrite <- E; apply H4|]. intros k. by rewrite <- E.
  - intros (H1&H2&H3). split; [intros k; by rewrite H1|]. split; [|done]. intros k x. rewrite <- E. apply H2.
Qed.
Lemma tidied_early now out s s1 : tidied out s s1 → no_early now s → no_early now s1.
Proof.
  intros H Hn k Hk Hme. destruct (td_stay _ _ _ H k Hk) as [Hk' [E|E]]; [|congruence].
  rewrite E. apply Hn; [done|]. unfold st in *. by rewrite <- E.
Qed.
Lemma early_kept_no now s s' : early_kept s s' → no_early now s → no_early now s'.
Proof.
  intros H Hn k Hk Hme. destruct (H k Hk Hme) as [Hk' E]. rewrite E. apply Hn; [done|].
  unfold st in *. by rewrite <- E.
Qed.
Lemma top_le s h l k : hwf s → timers s = h :: l → k ∈ timers s → wh s h <= wh s k.
Proof.
  intros Hs El [j Hj]%list_elem_of_lookup_1.
  pose proof (heap_root (wh s) _ j (hw_heap _ Hs) (lookup_lt_Some _ _ _ Hj)) as H.
  unfold key in H. rewrite El in H at 1. unfold ent at 2 in H. by rewrite nth_lookup, Hj in H.
Qed.
(** The top of the heap is the earliest, but for timers made earlier. *)
Lemma top_earliest now s h l k x : wf s → timers s = h :: l → no_early now s →
  active s k = Some x → wh s h <= at_time x ∨ now < at_time x.
Proof.
  intros Hwf El Hn Hx. assert (Hk : k ∈ timers s) by (apply active_in; [done|by eexists]).
  pose proof Hwf as [Hs _]. pose proof (wf_live _ _ Hs k Hk) as Hl.
  pose proof (top_le s h l k (wf_heap _ _ Hs) El Hk) as Hle.
  unfold active in Hx. unfold live in Hl. unfold wh in *. pose proof (Hn k Hk) as He. unfold st in He.
  destruct (status (get k s)); try done; injection Hx as <-; cbn [at_time]; [lia|auto|lia].
Qed.
Lemma run_top h l now s : wf s → tasks_ok s → 0 <= now < 2 ^ 63 → no_early now s →
  timers s = h :: l → st s h = timerWaiting → wh s h <= now →
  ∃ w s', runOneTimer h now (set_status h timerRunning s) = Ok (w, s') ∧ wf s' ∧ ran now s 0 (Some (h, w)) s' ∧ early_kept s s'.
Proof.
  intros Hwf Hok Hnow Hn El Hst Hdue. pose proof Hwf as [Hs Ha].
  assert (Hh : h ∈ timers s) by (rewrite El; by left).
  destruct (hw_pos _ (wf_heap _ _ Hs) h Hh) as [Hl Hpos].
  set (x := Task (wh s h) (period (get h s)) (func (get h s), seqno (get h s))).
  assert (Hx : active s h = Some x) by (unfold active; fold (st s h); by rewrite Hst).
  assert (Hmin : ∀ k y, active s k = Some y → at_time x <= at_time y).
  { intros k y Hy. change (at_time x) with (wh s h). destruct (top_earliest now s h l k y); try done. lia. }
  assert (Hran : ∀ s', tasks_set h (if every x >? 0 then Some (Task (next_time x now) (every x) (what x)) else None) s s' →
            ran now s 0 (Some (h, what x)) s') by (intros s' H; split; [done|]; by exists x).
  unfold runOneTimer. set (s1 := set_status h timerRunning s).
  assert (G1 : get h s1 = MkTimer (pp (get h s)) (wh s h) (period (get h s)) (func (get h s)) (seqno (get h s)) (nextwhen (get h s)) timerRunning)
    by (unfold s1, set_status; by rewrite get_put, decide_True).
  rewrite G1. cbn [period when func seqno]. change (period (get h s)) with (every x) at 1.
  pose proof (wf_period _ _ Hs h) as Hper. destruct (Hok h x Hx) as [Hr1 Hr2].
  destruct (Z.gtb_spec (every x) 0) as [Hp|Hp].
  - destruct (next_time_ok (wh s h) (period (get h s)) now) as [Ev Hle]; [lia|lia|split; [exact Hp|exact Hr2]|].
    cbv zeta in *. rewrite Ev. change (next_time (Task (wh s h) (period (get h s)) (0%nat, 0)) now) with (next_time x now) in *.
    destruct (reschedule_spec h l (next_time x now) s Hs El Hst Hle) as (ts&E&H1&H2&H3&H4).
    fold s1 in E, H1, H2, H3, H4. rewrite E. cbn [mbind res_bind]. do 2 eexists. split; [done|].
    split; [by split; [|apply H2]|]. split; [by apply Hran|exact H4].
  - destruct (expire_spec h l s Hs El Hst) as (s'&E&H1&H2&H3&H4). fold s1 in E. rewrite E. cbn [mbind res_bind].
    do 2 eexists. split; [done|]. split; [by split; [|apply H2]|]. split; [by apply Hran|done].
Qed.
Lemma runtimer_spec fuel now s : wf s → tasks_ok s → 0 <= now < 2 ^ 63 → no_early now s → timers s ≠ [] →
  nonwaiting s < Z.of_nat fuel →
  ∃ r call s', runtimer fuel now s = Ok (r, call, s') ∧ wf s' ∧ ran now s r call s' ∧ no_early now s'.
Proof.
  revert s. induction fuel as [|fuel IH]; intros s Hwf Hok Hnow Hn Hne Hf.
  { pose proof (nonwaiting_bounds s). lia. }
  pose proof Hwf as [Hs Ha]. destruct (timers s) as [|h l] eqn:El; [done|].
  destruct (top_ent _ _ _ El) as [E0 _]. cbn [runtimer]. rewrite E0, (top_pp _ _ _ _ Hs El). cbn [negb].
  assert (Hh : h ∈ timers s) by (rewrite El; by left).
  assert (Hnext : ∀ s1, tidied [] s s1 → nonwaiting s1 = nonwaiting s - 1 → timers s1 ≠ [] →
    ∃ r call s', runtimer fuel now s1 = Ok (r, call, s') ∧ wf s' ∧ ran now s r call s' ∧ no_early now s').
  { intros s1 H1 Hnw Hne1. destruct (IH s1) as (r&call&s'&E&W&H&Hne').
    - split; [apply H1|by apply (td_announced _ _ _ H1)].
    - intros k x. rewrite (td_active _ _ _ H1). apply Hok.
    - done.
    - by eapply tidied_early.
    - done.
    - lia.
    - exists r, call, s'. split; [done|]. split; [done|]. split; [|done].
      eapply ran_tidied; [apply (td_active _ _ _ H1)|done]. }
  destruct (live_cases _ _ _ Hs Hh) as [E|[E|E]].
  - rewrite E. destruct (Z.gtb_spec (wh s h) now) as [Hd|Hd].
    + do 3 eexists. split; [done|]. split; [done|]. split; [|done]. split; [done|]. split; [|right; lia].
      intros k x Hx. destruct (top_earliest now s h l k x); [done..|lia|done].
    + destruct (run_top h l now s Hwf Hok Hnow Hn El E Hd) as (w&s'&Er&W&H&Hk). rewrite Er. cbn [mbind res_bind fst snd].
      exists 0, (Some (h, w)), s'. split; [done|]. split; [done|]. split; [done|]. by eapply early_kept_no.
  - rewrite E. destruct (remove0_spec [] h l s Hs El E) as (s1&->&H1&Hnw&_). cbn [mbind res_bind].
    destruct (Nat.eqb_spec (length (timers s1)) 0) as [Hz|Hz].
    + apply nil_length_inv in Hz. exists (-1), None, s1. split; [done|].
      assert (W1 : wf s1) by (split; [apply H1|by apply (td_announced _ _ _ H1)]).
      split; [done|]. split; [|by eapply tidied_early]. split; [apply (td_active _ _ _ H1)|]. split; [|by left].
      intros k x Hx. rewrite <- (td_active _ _ _ H1) in Hx.
      assert (Hk : k ∈ timers s1) by (apply active_in; [done|by eexists]). rewrite Hz in Hk. by apply elem_of_nil in Hk.
    + apply Hnext; [done|done|]. intros Hz'. by rewrite Hz' in Hz.
  - destruct (move0_spec [] h l s Hs (not_elem_of_nil _) El E) as (s1&E1&H1&Hnw&Hlen).
    assert (Hne1 : timers s1 ≠ []) by (intros Hz; rewrite Hz, El in Hlen; simpl in Hlen; lia).
    destruct E as [-> | ->]; rewrite E1; cbn [mbind res_bind]; by apply Hnext.
Qed.
