(* ===== verification/TimerCheck.v ===== *)
(** * runtime/time.go and runtime/proc.go: a processor checks its timers

    clearDeletedTimers, checkTimers (proc.go), and the three functions that say
    when to wake up for the timers of several processors.  The functions the
    timers call run with [timersLock] released: what they and everybody else do
    to the processor's timers meanwhile is the argument [during]. *)
From S2P Require Import Prelude TimerHeap Timers.

(** [n] entries of the slice are left to look at, from [k] on; the first [to]
    are those kept. *)
Fixpoint clear_loop (n k to : nat) (changedHeap : bool) (cdel : Z) (s : proc) : res (nat * Z * proc) :=
  match n with
  | O => Ok (to, cdel, s)
  | S n =>
      let h := ent (timers s) k in
      match st s h with
      | timerWaiting =>
          if changedHeap then
            r ← siftupTimer (wh s) (<[to := h]> (timers s)) to;
            clear_loop n (S k) (S to) true cdel (set_timers (fst r) s)
          else clear_loop n (S k) (S to) false cdel s
      | timerModifiedEarlier | timerModifiedLater =>
          let s := set_status h timerMoving s in
          let s := set_when h (nextwhen (get h s)) s in
          r ← siftupTimer (wh s) (<[to := h]> (timers s)) to;
          clear_loop n (S k) (S to) true cdel (set_status h timerWaiting (set_timers (fst r) s))
      | timerDeleted =>
          let s := set_pp h false (set_status h timerRemoving s) in
          clear_loop n (S k) to true (i32 (cdel + 1)) (set_status h timerRemoved s)
      | timerModifying => Panic []
      | _ => Panic badTimer
      end
  end.
Definition clearDeletedTimers (s : proc) : res proc :=
  let s := set_earliest 0 s in
  r ← clear_loop (length (timers s)) 0 0 false 0 s;
  let '(to, cdel, s) := (r : nat * Z * proc) in
  let s := add_numTimers (i32 (- cdel)) (add_deletedTimers (i32 (- cdel)) s) in
  Ok (updateTimer0When (set_timers (take to (timers s)) s)).

Section CheckTimers.
(** [during c s]: the timers once the call [c] has returned and the lock is held
    again. *)
Context (during : callback → proc → proc).

(** The timers that are ready run; when the next one is, if known; what ran. *)
Fixpoint run_ready (fuel : nat) (now : Z) (s : proc) : res (Z * list (nat * callback) * proc) :=
  match fuel with
  | O => Panic []
  | S fuel =>
      if (0 <? length (timers s))%nat then
        r ← runtimer (S (length (timers s))) now s;
        let '(tw, call, s) := (r : Z * option (nat * callback) * proc) in
        if negb (tw =? 0) then Ok (if tw >? 0 then tw else 0, [], s)
        else
          match call with
          | Some (h, c) =>
              r ← run_ready fuel now (during c s);
              let '(pollUntil, calls, s) := (r : Z * list (nat * callback) * proc) in
              Ok (pollUntil, (h, c) :: calls, s)
          | None => run_ready fuel now s
          end
      else Ok (0, [], s)
  end.
(** [localP]: it is the processor we run on.  The last result but one stands
    for [ran]. *)
Definition checkTimers (fuel : nat) (localP : bool) (nanotime now : Z) (s : proc)
    : res (Z * Z * list (nat * callback) * proc) :=
  let next := nobarrierWakeTime s in
  if next =? 0 then Ok (now, 0, [], s)
  else
    let now := if now =? 0 then nanotime else now in
    if (now <? next) && (negb localP || (deletedTimers s <=? numTimers s / 4)) then
      Ok (now, next, [], s)
    else
      r ← (if (0 <? length (timers s))%nat then
             s ← adjusttimers now s; run_ready fuel now s
           else Ok (0, [], s));
      let '(pollUntil, calls, s) := (r : Z * list (nat * callback) * proc) in
      s ← (if localP && (deletedTimers s >? Z.of_nat (length (timers s)) / 4)
           then clearDeletedTimers s else Ok s);
      Ok (now, pollUntil, calls, s).
End CheckTimers.

(** ** Several processors *)
Fixpoint checkTimersNoP (allp : list (bool * proc)) (pollUntil : Z) : Z :=
  match allp with
  | [] => pollUntil
  | (mask, p2) :: allp =>
      checkTimersNoP allp
        (if mask then
           let w := nobarrierWakeTime p2 in
           if negb (w =? 0) && ((pollUntil =? 0) || (w <? pollUntil)) then w else pollUntil
         else pollUntil)
  end.
Fixpoint timeSleep_loop (allp : list (option proc)) (next : Z) : Z :=
  match allp with
  | [] => next
  | None :: allp => timeSleep_loop allp next
  | Some pp :: allp =>
      let w := timer0When pp in
      let next := if negb (w =? 0) && (w <? next) then w else next in
      let w := timerModifiedEarliest pp in
      timeSleep_loop allp (if negb (w =? 0) && (w <? next) then w else next)
  end.
Definition timeSleepUntil (allp : list (option proc)) : Z := timeSleep_loop allp maxWhen.
(** How long findRunnable lets the network poller block, given what the
    processors' timers say; [now = 0]: not known yet. *)
Definition poll_delay (pollUntil now nanotime : Z) : Z :=
  if pollUntil =? 0 then -1
  else
    let now := if now =? 0 then nanotime else now in
    let delay := pollUntil - now in
    if delay <? 0 then 0 else delay.
