(* ===== verification/TimerCheckInv.v ===== *)
(** * clearDeletedTimers: what it leaves; the loops of checkTimers *)
From S2P Require Import Prelude Threads TimerHeap Timers TimersInv TimersOps TimersProps TimerCheck.
From Stdlib Require Import Sorting.Sorted.

(** What becomes of a timer of the heap. *)
Definition cleared (t : rtimer) : rtimer :=
  match status t with
  | timerModifiedEarlier | timerModifiedLater =>
      MkTimer (pp t) (nextwhen t) (period t) (func t) (seqno t) (nextwhen t) timerWaiting
  | timerDeleted => MkTimer false (when t) (period t) (func t) (seqno t) (nextwhen t) timerRemoved
  | _ => t
  end.
Definition kept (s : proc) (h : nat) : Prop := st s h ≠ timerDeleted.
#[global] Instance kept_dec s h : Decision (kept s h).
Proof. unfold kept. apply _. Defined.
(** The fields the loop leaves alone. *)
Definition same_counts (s s' : proc) : Prop :=
  timerModifiedEarliest s' = timerModifiedEarliest s ∧ numTimers s' = numTimers s ∧
  deletedTimers s' = deletedTimers s ∧ length (store s') = length (store s).

Section Clear.
Context (s0 : proc) (Hw : hwf s0) (Hlive : ∀ h, h ∈ timers s0 → live (get h s0)).
Let l0 : list nat := timers s0.
Definition clear_get (k : nat) (s : proc) : Prop :=
  ∀ h, get h s = if decide (h ∈ take k l0) then cleared (get h s0) else get h s0.
Record clearing (k to : nat) (changed : bool) (cdel : Z) (s : proc) : Prop :=
  { cl_get : clear_get k s;
    cl_le : (to <= k)%nat;
    cl_len : length (timers s) = length l0;
    cl_drop : drop k (timers s) = drop k l0;
    cl_perm : take to (timers s) ≡ₚ filter (kept s0) (take k l0);
    cl_heap : heap (wh s) (take to (timers s));
    cl_same : changed = false → timers s = l0 ∧ to = k ∧ (∀ h, h ∈ take k l0 → st s0 h = timerWaiting);
    cl_cdel : u32 cdel = u32 (total (deleted s0) (take k l0));
    cl_counts : same_counts s0 s }.

Lemma next_new k : (k < length l0)%nat → ent l0 k ∉ take k l0.
Proof.
  intros Hk Hi. pose proof (hw_nodup _ Hw) as Hn. fold l0 in Hn.
  rewrite <- (take_drop_middle l0 k _ (ent_lookup l0 k Hk)) in Hn.
  apply list.NoDup_app in Hn as (_&Hn&_). apply (Hn _ Hi). by left.
Qed.
Lemma take_next k : (k < length l0)%nat → take (S k) l0 = take k l0 ++ [ent l0 k].
Proof. intros Hk. apply take_S_r. by apply ent_lookup. Qed.
Lemma drop_ent k l : drop k l = drop k l0 → (k < length l0)%nat → ent l k = ent l0 k.
Proof.
  intros E Hk. unfold ent. rewrite !nth_lookup. pose proof (lookup_drop l k 0) as H1.
  pose proof (lookup_drop l0 k 0) as H2. rewrite Nat.add_0_r in H1, H2. by rewrite <- H1, <- H2, E.
Qed.
Lemma clear_get_next k s s2 : (k < length l0)%nat → clear_get k s →
  (∀ h, get h s2 = if decide (h = ent l0 k) then cleared (get (ent l0 k) s0) else get h s) →
  clear_get (S k) s2.
Proof.
  intros Hk Hg H2 h. rewrite H2, take_next by done. destruct (decide (h = ent l0 k)) as [->|Hn].
  - rewrite decide_True; [done|]. rewrite elem_of_app, list_elem_of_singleton. auto.
  - rewrite Hg. destruct (decide (h ∈ take k l0)) as [Hi|Hi].
    + by rewrite decide_True by (rewrite elem_of_app; auto).
    + rewrite decide_False; [done|]. rewrite elem_of_app, list_elem_of_singleton. naive_solver.
Qed.
Lemma cleared_pos h : h ∈ timers s0 → 0 < when (cleared (get h s0)).
Proof.
  intros Hh. pose proof (proj2 (hw_pos _ Hw h Hh)) as Hp. pose proof (Hlive h Hh) as Hv.
  unfold live, cleared, wh in *. destruct (status (get h s0)); cbn; try done; lia.
Qed.

(** A timer that is kept goes to the end of those kept. *)
Lemma keep_step k to ch cdel s s2 w : clearing k to ch cdel s → (k < length l0)%nat →
  kept s0 (ent l0 k) → clear_get (S k) s2 → timers s2 = timers s → same_counts s0 s2 →
  (∀ h, w h = wh s2 h) →
  ∃ r, siftupTimer w (<[to := ent l0 k]> (timers s2)) to = Ok r ∧
    clearing (S k) (S to) true cdel (set_timers (fst r) s2).
Proof.
  intros [Hg Hle Hlen Hdrop Hperm Hheap _ Hcd _] Hk Hkeep Hg2 Et Hc2 Hww. set (h := ent l0 k) in *.
  pose proof (next_new k Hk) as Hnew. fold h in Hnew. pose proof (take_next k Hk) as Etk. fold h in Etk.
  assert (Hpre : ∀ j, j ∈ take to (timers s) → wh s j = w j).
  { intros j. rewrite Hperm, list_elem_of_filter. intros [_ Hj]. rewrite Hww. unfold wh.
    assert (Hj' : j ∈ take (S k) l0) by (rewrite Etk, elem_of_app; by left).
    rewrite Hg, Hg2. by rewrite !decide_True. }
  assert (Hwh : w h = when (cleared (get h s0))).
  { rewrite Hww. unfold wh. rewrite Hg2, decide_True; [done|].
    rewrite Etk, elem_of_app, list_elem_of_singleton. auto. }
  assert (Hpos : 0 < w h) by (rewrite Hwh; by apply cleared_pos, ent_in).
  destruct (siftup_prefix w (timers s2) to h) as (t'&c&E&H1&H2&H3&H4); rewrite ?Et, ?Hlen.
  { by apply (heap_ext (wh s)). }
  { lia. }
  { done. }
  rewrite Et in E, H2, H3, H4. exists (t', c). split; [done|]. cbn [fst].
  split; change (timers (set_timers t' s2)) with t'; rewrite ?Etk.
  - done.
  - lia.
  - by rewrite H4.
  - assert (Hd : ∀ l : list nat, drop (S k) l = drop (k - to) (drop (S to) l))
      by (intros l; rewrite drop_drop; f_equal; lia).
    rewrite Hd, H3, <- Hd. assert (Hd1 : ∀ l : list nat, drop (S k) l = drop 1 (drop k l))
      by (intros l; rewrite drop_drop; f_equal; lia).
    by rewrite !Hd1, Hdrop.
  - rewrite H2, Hperm, list.filter_app. rewrite (list.filter_cons_True _ h []) by done.
    change (filter (kept s0) []) with (@nil nat). by rewrite Permutation_app_comm.
  - apply (heap_ext w); [|done]. intros j _. apply Hww.
  - done.
  - rewrite Hcd. f_equal. rewrite total_app. cbn [total].
    assert (Hd : deleted s0 h = 0) by (unfold deleted; by rewrite bool_decide_eq_false_2). lia.
  - exact Hc2.
Qed.

Lemma clear_waiting k to cdel s : clearing k to false cdel s → (k < length l0)%nat →
  st s0 (ent l0 k) = timerWaiting → clearing (S k) (S to) false cdel s.
Proof.
  intros [Hg Hle Hlen Hdrop Hperm Hheap Hsame Hcd Hc] Hk Hst. destruct (Hsame eq_refl) as (Et&->&Hall).
  pose proof (take_next k Hk) as Etk. assert (Hcl : cleared (get (ent l0 k) s0) = get (ent l0 k) s0).
  { unfold cleared. fold (st s0 (ent l0 k)). by rewrite Hst. }
  assert (Hgs : ∀ h, get h s = get h s0).
  { intros h. rewrite Hg. destruct (decide (h ∈ take k l0)) as [Hi|]; [|done].
    unfold cleared. fold (st s0 h). by rewrite (Hall h Hi). }
  assert (Hall' : ∀ h, h ∈ take (S k) l0 → st s0 h = timerWaiting).
  { intros h. rewrite Etk, elem_of_app, list_elem_of_singleton. intros [Hi| ->]; [by apply Hall|done]. }
  split; rewrite ?Et; try done.
  - intros h. rewrite Hgs. destruct (decide _) as [Hi|]; [|done]. unfold cleared. fold (st s0 h). by rewrite (Hall' h Hi).
  - rewrite Etk, list.filter_app. rewrite Et in Hperm.
    rewrite <- Hperm. by rewrite (list.filter_cons_True _ _ []) by (unfold kept; by rewrite Hst).
  - apply heap_prefix. apply (heap_ext (wh s0)); [|apply Hw]. intros h _. unfold wh. by rewrite Hgs.
  - rewrite Etk, total_app, Hcd. f_equal. cbn [total].
    assert (Hd : deleted s0 (ent l0 k) = 0) by (unfold deleted; by rewrite Hst). lia.
Qed.
Lemma clear_deleted k to ch cdel s s2 : clearing k to ch cdel s → (k < length l0)%nat →
  st s0 (ent l0 k) = timerDeleted → clear_get (S k) s2 → timers s2 = timers s → same_counts s0 s2 →
  clearing (S k) to true (i32 (cdel + 1)) s2.
Proof.
  intros [Hg Hle Hlen Hdrop Hperm Hheap _ Hcd _] Hk Hst Hg2 Et Hc2. pose proof (take_next k Hk) as Etk.
  assert (Hd1 : ∀ l : list nat, drop (S k) l = drop 1 (drop k l))
    by (intros l; rewrite drop_drop; f_equal; lia).
  split; rewrite ?Et; try done.
  - lia.
  - by rewrite !Hd1, Hdrop.
  - rewrite Etk, list.filter_app, Hperm, (list.filter_cons_False _ _ []) by (unfold kept; tauto).
    by rewrite app_nil_r.
  - apply (heap_ext (wh s)); [|done]. intros j. rewrite Hperm, list_elem_of_filter. intros [_ Hj].
    unfold wh. assert (Hj' : j ∈ take (S k) l0) by (rewrite Etk, elem_of_app; by left).
    rewrite Hg, Hg2. by rewrite !decide_True.
  - rewrite Etk, total_app. cbn [total].
    assert (Hd : deleted s0 (ent l0 k) = 1) by (unfold deleted; by rewrite Hst).
    unfold i32, u32 in *. rewrite Hd, Z.add_0_r.
    rewrite <- (Zplus_mod_idemp_l (total _ _)), <- Hcd, Zplus_mod_idemp_l.
    rewrite <- Zminus_mod_idemp_l, Z.mod_mod, Zminus_mod_idemp_l by lia. f_equal. lia.
Qed.
Lemma clear_loop_spec n : ∀ k to ch cdel s, (k + n = length l0)%nat → clearing k to ch cdel s →
  ∃ to' cdel' ch' s', clear_loop n k to ch cdel s = Ok (to', cdel', s') ∧ clearing (length l0) to' ch' cdel' s'.
Proof.
  induction n as [|n IH]; intros k to ch cdel s Hn Hc.
  { replace (length l0) with k by lia. by exists to, cdel, ch, s. }
  assert (Hk : (k < length l0)%nat) by lia. cbn [clear_loop].
  rewrite (drop_ent k _ (cl_drop _ _ _ _ _ Hc) Hk). set (h := ent l0 k).
  pose proof (next_new k Hk) as Hnew. fold h in Hnew.
  assert (Hin : h ∈ timers s0) by by apply ent_in.
  assert (Gh : get h s = get h s0) by (rewrite (cl_get _ _ _ _ _ Hc), decide_False; done).
  pose proof (Hlive h Hin) as Hv. unfold live in Hv.
  assert (Hl : (h < length (store s))%nat).
  { destruct (cl_counts _ _ _ _ _ Hc) as (_&_&_&->). by apply (hw_pos _ Hw). }
  assert (Hput : ∀ t s2, store s2 = <[h := t]> (store s) → t = cleared (get h s0) → clear_get (S k) s2).
  { intros t s2 Es ->. apply (clear_get_next k s); [done|apply Hc|]. intros j.
    transitivity (get j (put h (cleared (get h s0)) s)); [unfold get; by rewrite Es|by apply get_put]. }
  assert (Hc2 : ∀ t s2, store s2 = <[h := t]> (store s) → timerModifiedEarliest s2 = timerModifiedEarliest s →
    numTimers s2 = numTimers s → deletedTimers s2 = deletedTimers s → same_counts s0 s2).
  { intros t s2 Es E1 E2 E3. destruct (cl_counts _ _ _ _ _ Hc) as (H1&H2&H3&H4).
    split; [by rewrite E1|]. split; [by rewrite E2|]. split; [by rewrite E3|]. by rewrite Es, length_insert. }
  assert (Est : st s h = status (get h s0)) by (unfold st; by rewrite Gh). rewrite Est.
  assert (Hmod : modified (status (get h s0)) → ∃ to' cdel' ch' s',
    (let s := set_status h timerMoving s in
     let s := set_when h (nextwhen (get h s)) s in
     r ← siftupTimer (wh s) (<[to := h]> (timers s)) to;
     clear_loop n (S k) (S to) true cdel (set_status h timerWaiting (set_timers (fst r) s))) = Ok (to', cdel', s') ∧
    clearing (length l0) to' ch' cdel' s').
  { intros Hm. cbv zeta. set (s1 := set_when h _ _).
    assert (G1 : get h s1 = MkTimer (pp (get h s)) (nextwhen (get h s)) (period (get h s)) (func (get h s)) (seqno (get h s)) (nextwhen (get h s)) timerMoving).
    { unfold s1, set_when. rewrite get_put, decide_True by (done || (unfold set_status; by rewrite len_put)).
      unfold set_status. by rewrite get_put, decide_True. }
    set (s2 := set_status h timerWaiting s1).
    assert (Es2 : store s2 = <[h := cleared (get h s0)]> (store s)).
    { unfold s2, set_status. rewrite G1, Gh. cbn [pp when period func seqno nextwhen]. unfold s1, set_when, set_status, put. cbn [store].
      rewrite !list_insert_insert_eq. f_equal. unfold cleared. by destruct Hm as [-> | ->]. }
    destruct (keep_step k to ch cdel s s2 (wh s1) Hc Hk) as (r&E&Hc').
    - unfold kept. fold h. unfold st. by destruct Hm as [-> | ->].
    - by eapply Hput.
    - done.
    - by eapply Hc2.
    - intros j. unfold s2, set_status, wh. rewrite get_put; [by destruct (decide _) as [->|]|].
      unfold s1, set_when, set_status. by rewrite !len_put.
    - fold h in E. change (timers s2) with (timers s1) in E. rewrite E. cbn [mbind res_bind fst].
      change (set_status h timerWaiting (set_timers (fst r) s1)) with (set_timers (fst r) s2).
      apply (IH (S k) (S to) true); [lia|done]. }
  destruct (status (get h s0)) eqn:Es0; try done.
  - destruct ch.
    + destruct (keep_step k to true cdel s s (wh s) Hc Hk) as (r&E&Hc'); try done.
      * unfold kept. fold h. unfold st. by rewrite Es0.
      * intros j. rewrite (cl_get _ _ _ _ _ Hc), take_next by done. fold h.
        destruct (decide (j ∈ take k l0)) as [Hi|Hi]; [by rewrite decide_True by (rewrite elem_of_app; auto)|].
        destruct (decide (j ∈ _)) as [Hj|]; [|done]. apply elem_of_app in Hj as [|Hj%list_elem_of_singleton]; [done|].
        subst j. unfold cleared. by rewrite Es0.
      * apply Hc.
      * fold h in E. rewrite E. cbn [mbind res_bind]. apply (IH (S k) (S to) true); [lia|done].
    + apply (IH (S k) (S to) false); [lia|]. by apply clear_waiting.
  - set (s2 := set_status h timerRemoved _). apply (IH (S k) to true); [lia|].
    assert (Es2 : store s2 = <[h := cleared (get h s0)]> (store s)).
    { unfold s2, set_status, set_pp. rewrite !get_put, !decide_True by (done || by rewrite !len_put).
      unfold put. cbn [store pp when period func seqno nextwhen status].
      rewrite !list_insert_insert_eq. f_equal. unfold cleared. by rewrite Es0, Gh. }
    apply (clear_deleted k to ch cdel s s2 Hc Hk); [exact Es0|by eapply Hput|done|by eapply Hc2].
  - apply Hmod. by left.
  - apply Hmod. by right.
Qed.
End Clear.

Lemma cleared_active s0 s h : (h ∈ timers s0 → live (get h s0)) → (h ∉ timers s0 → idle (get h s0)) →
  get h s = (if decide (h ∈ timers s0) then cleared (get h s0) else get h s0) →
  active s h = active s0 h.
Proof.
  intros Hl Hi E. unfold active. rewrite E. destruct (decide _) as [Hin|]; [|done].
  specialize (Hl Hin). unfold live, cleared in *. revert Hl.
  destruct (status (get h s0)) eqn:Es; cbn; by rewrite ?Es.
Qed.
Lemma cleared_idle t : live t → status t = timerDeleted → idle (cleared t) ∧ pp (cleared t) = false.
Proof. unfold cleared. intros _ ->. split; [by right|done]. Qed.
Lemma cleared_waiting t : live t → status t ≠ timerDeleted → status (cleared t) = timerWaiting ∧ pp (cleared t) = pp t.
Proof. unfold live, cleared. destruct (status t) eqn:Es; cbn; by rewrite ?Es. Qed.

(** Every deleted timer is gone and every other one is where its time puts it. *)
Record all_clear (s s' : proc) : Prop :=
  { ac_wf : wf s';
    ac_active h : active s' h = active s h;
    ac_deleted : deletedTimers s' = 0;
    ac_waiting h : h ∈ timers s' → st s' h = timerWaiting;
    ac_store : length (store s') = length (store s) }.
Lemma clearing_start s : hwf s → clearing s 0 0 false 0 s.
Proof.
  intros Hw. split; try done.
  - intros j. rewrite take_0. simpl. lia.
  - intros _. split; [done|]. split; [done|]. intros h. rewrite take_0. by intros ?%elem_of_nil.
Qed.
(** The last writes of clearDeletedTimers. *)
Definition clear_finish (to : nat) (cdel : Z) (s : proc) : proc :=
  let s := add_numTimers (i32 (- cdel)) (add_deletedTimers (i32 (- cdel)) s) in
  updateTimer0When (set_timers (take to (timers s)) s).
Lemma u32_sub_i32 n c d : u32 c = u32 d → u32 (u32 n + i32 (- c)) = u32 (n - d).
Proof.
  unfold u32, i32. intros E. rewrite Zplus_mod_idemp_l.
  rewrite <- (Zplus_mod_idemp_r (_ - 2 ^ 31)), <- (Zminus_mod_idemp_l (_ mod _)), Z.mod_mod by lia.
  rewrite Zminus_mod_idemp_l, Zplus_mod_idemp_r. replace (n + (- c + 2 ^ 31 - 2 ^ 31)) with (n - c) by lia.
  by rewrite <- Zminus_mod_idemp_r, E, Zminus_mod_idemp_r.
Qed.
Lemma filter_kept_length s l : Z.of_nat (length (filter (kept s) l)) = Z.of_nat (length l) - total (deleted s) l.
Proof.
  induction l as [|h l IH]; [done|]. cbn [total length]. rewrite filter_cons.
  unfold kept at 1, deleted at 1. destruct (decide _) as [H|H]; cbn [length].
  - rewrite bool_decide_eq_false_2 by done. cbn [Z.b2z]. lia.
  - rewrite bool_decide_eq_true_2 by (by apply dec_stable). cbn [Z.b2z]. lia.
Qed.
Lemma clear_finish_fields to cdel s (s' := clear_finish to cdel s) :
  timers s' = take to (timers s) ∧ (∀ h, get h s' = get h s) ∧
  timer0When s' = match take to (timers s) with [] => 0 | h :: _ => wh s h end ∧
  timerModifiedEarliest s' = timerModifiedEarliest s ∧
  numTimers s' = u32 (numTimers s + i32 (- cdel)) ∧ deletedTimers s' = u32 (deletedTimers s + i32 (- cdel)) ∧
  length (store s') = length (store s).
Proof.
  subst s'. unfold clear_finish, updateTimer0When. cbn [set_timers timers add_numTimers add_deletedTimers].
  by destruct (take to (timers s)).
Qed.
Lemma clear_wf s0 to cdel s ch : wfo [] s0 → timerModifiedEarliest s0 = 0 →
  clearing s0 (length (timers s0)) to ch cdel s → all_clear s0 (clear_finish to cdel s).
Proof.
  intros [Hw Hl Hi Hd Hp] He [Hg _ Hlen _ Hperm Hheap _ Hcd (E1&E2&E3&E4)].
  unfold clear_get in Hg. rewrite firstn_all in Hg, Hperm, Hcd.
  destruct (clear_finish_fields to cdel s) as (Ft&Fg&F0&Fe&Fn&Fd&Fs). set (s' := clear_finish to cdel s) in *.
  clearbody s'. rewrite <- Ft in *.
  assert (Hin : ∀ h, h ∈ timers s' ↔ st s0 h ≠ timerDeleted ∧ h ∈ timers s0)
    by (intros h; by rewrite Hperm, list_elem_of_filter).
  assert (G : ∀ h, get h s' = if decide (h ∈ timers s0) then cleared (get h s0) else get h s0)
    by (intros h; by rewrite Fg).
  assert (Hwait : ∀ h, h ∈ timers s' → status (get h s') = timerWaiting ∧ pp (get h s') = true).
  { intros h [H1 H2]%Hin. rewrite G, decide_True by done.
    destruct (cleared_waiting (get h s0) (Hl h H2) H1) as [-> ->]. split; [done|]. by apply (hw_pp _ Hw). }
  assert (Hout : ∀ h, h ∉ timers s' → idle (get h s') ∧ pp (get h s') = false).
  { intros h Hn. rewrite G. destruct (decide _) as [Hh|Hh].
    - assert (Hst : status (get h s0) = timerDeleted)
        by (apply dec_stable; intros H; apply Hn, Hin; done).
      apply cleared_idle; [by apply Hl|done].
    - split; [apply Hi; [done|apply not_elem_of_nil]|]. apply not_true_is_false. by rewrite (hw_pp _ Hw). }
  assert (W : ∀ h, wh s h = wh s' h) by (intros h; unfold wh; by rewrite Fg).
  assert (HN : Z.of_nat (length (timers s')) = Z.of_nat (length (timers s0)) - total (deleted s0) (timers s0))
    by (by rewrite Hperm, filter_kept_length).
  assert (Hdel : total (deleted s') (timers s') = 0).
  { transitivity (total (λ _ : nat, 0) (timers s')).
    - apply total_ext. intros h Hh. unfold deleted, st. by rewrite (proj1 (Hwait h Hh)).
    - clear. by induction (timers s'). }
  assert (Hd0 : deletedTimers s' = 0).
  { rewrite Fd, E3, Hd, (u32_sub_i32 _ _ _ Hcd). unfold count_deleted. by rewrite Z.sub_diag. }
  assert (Hhw : hwf s').
  { split.
    - rewrite Hperm. by apply list.NoDup_filter, Hw.
    - intros h. split; [|intros Hh; by apply Hwait]. intros Hpp. apply dec_stable. intros Hn.
      destruct (Hout h Hn) as [_ H]. congruence.
    - intros h Hh. apply Hin in Hh as [_ Hh]. rewrite Fs, E4. split; [by apply (hw_pos _ Hw)|].
      unfold wh. rewrite G, decide_True by done. by apply cleared_pos.
    - by apply (heap_ext (wh s)).
    - rewrite F0. by destruct (timers s').
    - by rewrite Fn, E2, (hw_num _ Hw), (u32_sub_i32 _ _ _ Hcd), HN.
    - rewrite Fs, E4. apply Hw. }
  split.
  - split; [split|].
    + done.
    + intros h Hh. unfold live. by rewrite (proj1 (Hwait h Hh)).
    + intros h Hh _. by apply Hout.
    + rewrite Hd0. unfold count_deleted. by rewrite Hdel.
    + intros h. rewrite G. destruct (decide _); [|apply Hp]. pose proof (Hp h). unfold cleared. by destruct (status (get h s0)).
    + split; [by rewrite Fe, E1, He|]. intros h Hh. unfold st. by rewrite (proj1 (Hwait h Hh)).
  - intros h. apply cleared_active; [apply Hl|intros Hn; apply Hi; [done|apply not_elem_of_nil]|apply G].
  - done.
  - intros h Hh. by apply Hwait.
  - by rewrite Fs.
Qed.
Lemma clearDeletedTimers_ok s : wf s → ∃ s', clearDeletedTimers s = Ok s' ∧ all_clear s s'.
Proof.
  intros [Hs _]. unfold clearDeletedTimers. set (s1 := set_earliest 0 s).
  assert (H1 : wfo [] s1) by (destruct Hs as [[] ? ? ? ?]; split; done).
  destruct (clear_loop_spec s1 (wf_heap _ _ H1) (wf_live _ _ H1) (length (timers s1)) 0 0 false 0 s1 eq_refl)
    as (to&cdel&ch&s'&E&Hc); [by apply clearing_start, H1|].
  change (timers s1) with (timers s) in E. change (timers s1) with (timers s). rewrite E. cbn [mbind res_bind].
  exists (clear_finish to cdel s'). split; [done|]. by destruct (clear_wf s1 to cdel s' ch H1 eq_refl Hc).
Qed.

(** ** checkTimers: running what is ready *)

(** What runs while the lock is released leaves the timers in order and makes no
    timer due that was not. *)
Record gentle (now : Z) (during : callback → proc → proc) : Prop :=
  { gt_wf c s : wf s → wf (during c s);
    gt_ok c s : tasks_ok s → tasks_ok (during c s);
    gt_early c s : no_early now s → no_early now (during c s);
    gt_due c s k x : active (during c s) k = Some x → at_time x <= now → active s k = Some x }.

Definition time_of (s : proc) (h : nat) : Z :=
  match active s h with Some x => at_time x | None => 0 end.
Definition due (now : Z) (s : proc) (h : nat) (c : callback) : Prop :=
  ∃ x, active s h = Some x ∧ what x = c ∧ at_time x <= now.
(** Of what was due in [s], these ran, each once, in the order of their times. *)
Record fired (now : Z) (s : proc) (calls : list (nat * callback)) : Prop :=
  { fd_due h c : (h, c) ∈ calls → due now s h c;
    fd_sorted : StronglySorted (λ a b, time_of s (fst a) <= time_of s (fst b)) calls;
    fd_once : NoDup (fst <$> calls) }.
Lemma fired_nil now s : fired now s [].
Proof. split; [by intros h c ?%elem_of_nil|constructor|constructor]. Qed.
Lemma sorted_ext {A} (R R' : A → A → Prop) l : (∀ a b, a ∈ l → b ∈ l → R a b → R' a b) →
  StronglySorted R l → StronglySorted R' l.
Proof.
  intros H Hs. induction Hs as [|a l Hs IH Ha]; constructor.
  - apply IH. intros x y Hx Hy. apply H; by right.
  - apply list.Forall_forall. intros b Hb. apply H; [by left|by right|].
    by apply (proj1 (list.Forall_forall _ _) Ha).
Qed.
Lemma fired_ext now s s2 calls : (∀ k, active s2 k = active s k) → fired now s calls → fired now s2 calls.
Proof.
  intros H [F1 F2 F3]. split; [|by eapply sorted_ext; [|exact F2]; intros a b _ _; unfold time_of; rewrite !H|done].
  intros h c Hc. destruct (F1 h c Hc) as (x&Hx&Hd). exists x. by rewrite H.
Qed.
(** What runs later was due from the start. *)
Lemma fired_cons now s s2 h c x calls : active s h = Some x → what x = c → at_time x <= now →
  (∀ k y, active s k = Some y → at_time x <= at_time y) →
  (∀ k y, active s2 k = Some y → at_time y <= now → k ≠ h ∧ active s k = Some y) →
  fired now s2 calls → fired now s ((h, c) :: calls).
Proof.
  intros Hx Hc Hd Hmin Hback [F1 F2 F3].
  assert (Hin : ∀ a, a ∈ calls → fst a ≠ h ∧ due now s (fst a) (snd a) ∧ time_of s2 (fst a) = time_of s (fst a)).
  { intros [k d] Hk. destruct (F1 k d Hk) as (y&Hy&Hw&Hn). destruct (Hback k y Hy Hn) as [Hkh Hy'].
    split; [done|]. split; [by exists y|]. unfold time_of. cbn. by rewrite Hy, Hy'. }
  split.
  - intros k d Hk. apply elem_of_cons in Hk as [[= -> ->]|Hk]; [by exists x|by apply (Hin (k, d))].
  - constructor.
    + eapply sorted_ext; [|exact F2]. intros a b Ha Hb. cbn.
      by rewrite (proj2 (proj2 (Hin a Ha))), (proj2 (proj2 (Hin b Hb))).
    + apply list.Forall_forall. intros a Ha. destruct (Hin a Ha) as (_&(y&Hy&_)&_).
      unfold time_of. cbn. rewrite Hx, Hy. by apply (Hmin (fst a)).
  - cbn. apply list.NoDup_cons. split; [|done]. intros Hi. apply list_elem_of_fmap in Hi as (a&E&Ha).
    by destruct (Hin a Ha) as [Hne _].
Qed.

Lemma next_time_later x now : 0 < every x → at_time x <= now → now < maxWhen → now < next_time x now.
Proof.
  intros Hp Hd Hn. unfold next_time.
  pose proof (Z.div_mod (now - at_time x) (every x) ltac:(lia)).
  pose proof (Z.mod_pos_bound (now - at_time x) (every x) Hp).
  assert (now < at_time x + every x * (1 + (now - at_time x) / every x)) by nia. lia.
Qed.
Lemma ran_ok now s h x s' : tasks_ok s → active s h = Some x →
  tasks_set h (if every x >? 0 then Some (Task (next_time x now) (every x) (what x)) else None) s s' →
  tasks_ok s'.
Proof.
  intros Hok Hx Ht k y. rewrite Ht. destruct (decide (k = h)) as [->|]; [|by apply Hok].
  destruct (Hok h x Hx) as [H1 H2]. destruct (every x >? 0); [|done]. intros [= <-].
  split; [|done]. cbn. unfold next_time, maxWhen. lia.
Qed.
Lemma ran_due now s h x s' k y : at_time x <= now → now < maxWhen →
  tasks_set h (if every x >? 0 then Some (Task (next_time x now) (every x) (what x)) else None) s s' →
  active s' k = Some y → at_time y <= now → k ≠ h ∧ active s k = Some y.
Proof.
  intros Hd Hn Ht. rewrite Ht. destruct (decide (k = h)) as [->|]; [|done].
  destruct (Z.gtb_spec (every x) 0) as [Hp|]; [|done]. intros [= <-]. cbn.
  pose proof (next_time_later x now Hp Hd Hn). lia.
Qed.
(** [L]: enough timers to name every one that is due. *)
Definition covers (now : Z) (L : list nat) (s : proc) : Prop :=
  ∀ k x, active s k = Some x → at_time x <= now → k ∈ L.
(** Nothing that is due is left, and the answer is later than now. *)
Record ready_done (now : Z) (s : proc) (p : Z) (calls : list (nat * callback)) (s' : proc) : Prop :=
  { rd_wf : wf s';
    rd_ok : tasks_ok s';
    rd_none k x : active s' k = Some x → now < at_time x;
    rd_next : p = 0 ∧ timers s' = [] ∨ now < p;
    rd_fired : fired now s calls }.
Lemma nonwaiting_fuel s : nonwaiting s < Z.of_nat (S (length (timers s))).
Proof. pose proof (nonwaiting_bounds s). lia. Qed.
Lemma empty_inactive s k : wf s → timers s = [] → active s k = None.
Proof.
  intros Hw E. destruct (active s k) eqn:Ea; [|done].
  assert (Hk : k ∈ timers s) by (apply active_in; [done|by eexists]). rewrite E in Hk. by apply elem_of_nil in Hk.
Qed.
Lemma run_ready_spec during now : gentle now during → 0 <= now < maxWhen → ∀ fuel L s,
  wf s → tasks_ok s → no_early now s → covers now L s → (length L < fuel)%nat →
  ∃ p calls s', run_ready during fuel now s = Ok (p, calls, s') ∧ ready_done now s p calls s'.
Proof.
  intros Hg Hnow. induction fuel as [|fuel IH]; intros L s Hw Hok Hne HL Hf; [lia|]. cbn [run_ready].
  destruct (Nat.ltb_spec 0 (length (timers s))) as [Hlen|Hlen]; cycle 1.
  { assert (E : timers s = []) by (apply nil_length_inv; lia). exists 0, [], s. split; [done|].
    split; [done|done| |by left|apply fired_nil]. intros k x. by rewrite empty_inactive. }
  assert (Hr : 0 <= now < 2 ^ 63) by (unfold maxWhen in Hnow; lia).
  destruct (runtimer_spec (S (length (timers s))) now s) as (r&call&s1&E&W1&R&N1); try done.
  { intros E. rewrite E in Hlen. simpl in Hlen. lia. }
  { apply nonwaiting_fuel. }
  rewrite E. cbn [mbind res_bind]. destruct call as [[h c]|]; cycle 1.
  { destruct R as (R1&R2&R3). rewrite (proj2 (Z.eqb_neq r 0)) by (destruct R3 as [[-> _]|]; lia). cbn [negb].
    do 3 eexists. split; [done|]. split; [done| | | |apply fired_nil].
    - intros k x. rewrite R1. apply Hok.
    - intros k x. rewrite R1. apply R2.
    - destruct R3 as [[-> R3]|R3]; [by left|right]. by rewrite (proj2 (Z.gtb_lt _ _)) by lia. }
  destruct R as (->&x&R1&R2&R3&R4&R5). cbn [Z.eqb negb].
  assert (Hback : ∀ k y, active (during c s1) k = Some y → at_time y <= now → k ≠ h ∧ active s k = Some y).
  { intros k y Hy Hd. apply (ran_due now s h x s1); [done|lia|done| |done]. by apply (gt_due _ _ Hg c). }
  destruct (IH (filter (λ k, k ≠ h) L) (during c s1)) as (p&calls&s'&E'&[D1 D2 D3 D4 D5]).
  - by apply (gt_wf _ _ Hg).
  - by apply (gt_ok _ _ Hg), (ran_ok now s h x).
  - by apply (gt_early _ _ Hg).
  - intros k y Hy Hd. destruct (Hback k y Hy Hd) as [H1 H2]. apply list_elem_of_filter. split; [done|].
    by eapply HL.
  - assert (Hh : h ∈ L) by by eapply HL. apply list_elem_of_split in Hh as (l1&l2&->).
    rewrite length_app in Hf. cbn [length] in Hf.
    rewrite list.filter_app, list.filter_cons_False, length_app by (intros H; by apply H).
    pose proof (length_filter (λ k, k ≠ h) l1). pose proof (length_filter (λ k, k ≠ h) l2). lia.
  - rewrite E'. cbn [mbind res_bind]. do 3 eexists. split; [done|]. split; try done.
    by apply (fired_cons now s (during c s1) h c x).
Qed.
