(* ===== verification/TimerCheckProps.v ===== *)
(** * The properties of a processor's timers *)
From Stdlib Require Import Sorting.Sorted.
From S2P Require Import Prelude Threads TimerHeap Timers TimersInv TimersOps TimersProps TimerCheck TimerCheckInv.

(** ** A processor with timers nobody has started, and states reached from it *)
Definition boot (l : list rtimer) : proc := MkProc l [] 0 0 0 0 false [].
Lemma wf_boot l : Forall (λ t, pp t = false ∧ status t = timerNoStatus ∧ 0 <= period t) l →
  Z.of_nat (length l) < 2 ^ 32 → wf (boot l).
Proof.
  intros Hl Hn. assert (G : ∀ h, pp (get h (boot l)) = false ∧ status (get h (boot l)) = timerNoStatus ∧ 0 <= period (get h (boot l))).
  { intros h. unfold get. cbn [store boot]. rewrite nth_lookup. destruct (l !! h) eqn:E; [|done].
    by apply (proj1 (list.Forall_lookup _ _) Hl h). }
  split; [split; [split| | | |]|split]; cbn [boot timers store]; try done.
  - constructor.
  - intros h. destruct (G h) as [-> _]. split; [done|]. by intros ?%elem_of_nil.
  - by intros ? ?%elem_of_nil.
  - intros j. simpl. lia.
  - by intros ? ?%elem_of_nil.
  - intros h _ _. left. apply G.
  - intros h. apply G.
  - by intros ? ?%elem_of_nil.
Qed.
Definition no_preempt : nat → bool := λ _, false.

(** ** modtimer, whether the timer is in the heap or not *)
Lemma modtimer_spec h w p f q s : wf s → (h < length (store s))%nat → 0 < w → 0 <= p →
  ∃ s', modtimer h w p f q s = Ok (bool_decide (is_Some (active s h)), s') ∧ wf s' ∧
    tasks_set h (Some (Task w p (f, q))) s s'.
Proof.
  intros Hw Hl Hpos Hper. destruct (decide (h ∈ timers s)) as [Hh|Hn]; [by apply modtimer_old|].
  rewrite bool_decide_eq_false_2; [by apply modtimer_new|].
  intros Hx. by apply Hn, active_in.
Qed.

(** ** When to wake up *)
Lemma wake_bound s k x : wf s → active s k = Some x →
  0 < nobarrierWakeTime s <= at_time x.
Proof.
  intros Hwf Hx. pose proof Hwf as [Hs [He1 He2]]. assert (Hk : k ∈ timers s) by (apply active_in; [done|by eexists]).
  pose proof (wf_heap _ _ Hs) as Hw. destruct (timers s) as [|h l] eqn:El; [by apply elem_of_nil in Hk|].
  assert (H0 : timer0When s = wh s h) by (rewrite (hw_when0 _ Hw); by rewrite El).
  assert (Hh0 : 0 < wh s h) by (apply (hw_pos _ Hw); rewrite El; by left). rewrite <- El in Hk.
  assert (Hle : wh s h <= wh s k) by by eapply top_le.
  unfold nobarrierWakeTime. rewrite H0, (proj2 (Z.eqb_neq _ _)) by lia. cbn [orb].
  pose proof (wf_live _ _ Hs k Hk) as Hl. rewrite <- El in He2. specialize (He2 k Hk). unfold st in He2.
  assert (Hat : status (get k s) = timerModifiedEarlier ∧ timerModifiedEarliest s ≠ 0 ∧ timerModifiedEarliest s <= at_time x ∨ wh s k <= at_time x).
  { unfold active in Hx. unfold live in Hl. unfold wh. destruct (status (get k s)); try done; injection Hx as <-; cbn [at_time].
    - right. lia.
    - left. by destruct (He2 eq_refl).
    - right. lia. }
  destruct (Z.eqb_spec (timerModifiedEarliest s) 0) as [E|E]; cbn [negb andb]; [lia|].
  destruct (Z.ltb_spec (timerModifiedEarliest s) (wh s h)); lia.
Qed.

Lemma wake_nonneg s : wf s → 0 <= nobarrierWakeTime s.
Proof.
  intros [Hs [He _]]. unfold nobarrierWakeTime. pose proof (wf_heap _ _ Hs) as Hw.
  assert (0 <= timer0When s).
  { rewrite (hw_when0 _ Hw). destruct (timers s) as [|h l] eqn:El; [done|].
    assert (Hh : h ∈ timers s) by (rewrite El; by left). destruct (hw_pos _ Hw h Hh). lia. }
  destruct (_ || _); lia.
Qed.
Lemma noP_bound allp : ∀ p, 0 <= p → Forall (λ b, 0 <= nobarrierWakeTime (snd b)) allp →
  let r := checkTimersNoP allp p in
  0 <= r ∧ (0 < p → 0 < r <= p) ∧
  ∀ s, (true, s) ∈ allp → 0 < nobarrierWakeTime s → 0 < r <= nobarrierWakeTime s.
Proof.
  induction allp as [|[m s0] allp IH]; intros p Hp Hall; cbn [checkTimersNoP].
  { split; [done|]. split; [lia|]. by intros s ?%elem_of_nil. }
  apply list.Forall_cons in Hall as [H0 Hall]. cbn [snd] in H0. cbv zeta.
  set (w := nobarrierWakeTime s0) in *.
  set (p' := if m then if negb (w =? 0) && ((p =? 0) || (w <? p)) then w else p else p).
  assert (Hp' : 0 <= p' ∧ (0 < p → 0 < p' <= p) ∧ (m = true → 0 < w → 0 < p' <= w)).
  { unfold p'. destruct m; [|split; [done|split; [lia|done]]].
    destruct (Z.eqb_spec w 0); cbn [negb andb]; [lia|].
    destruct (Z.eqb_spec p 0); cbn [orb]; [lia|]. destruct (Z.ltb_spec w p); lia. }
  destruct (IH p' (proj1 Hp') Hall) as (I1&I2&I3). fold w. fold p'. split; [done|].
  split; [lia|]. intros s Hs Hw. apply elem_of_cons in Hs as [[= <- ->]|Hs]; [|by apply I3].
  fold w in Hw. fold w. lia.
Qed.
Lemma sleep_step a b n :
  let n1 := if negb (a =? 0) && (a <? n) then a else n in
  let n2 := if negb (b =? 0) && (b <? n1) then b else n1 in
  let w := if (a =? 0) || negb (b =? 0) && (b <? a) then b else a in
  n2 <= n ∧ (w ≠ 0 → n2 <= w).
Proof.
  cbv zeta. destruct (Z.eqb_spec a 0), (Z.eqb_spec b 0); cbn [negb andb orb]; try lia.
  - destruct (Z.ltb_spec b n); lia.
  - destruct (Z.ltb_spec a n); lia.
  - destruct (Z.ltb_spec a n), (Z.ltb_spec b a); try lia; destruct (Z.ltb_spec b n); try lia.
    all: destruct (Z.ltb_spec b a); lia.
Qed.
Lemma timeSleep_bound allp : ∀ n, timeSleep_loop allp n <= n ∧
  ∀ s, Some s ∈ allp → nobarrierWakeTime s ≠ 0 → timeSleep_loop allp n <= nobarrierWakeTime s.
Proof.
  induction allp as [|[s0|] allp IH]; intros n; cbn [timeSleep_loop].
  - split; [lia|]. by intros s ?%elem_of_nil.
  - cbv zeta. set (n1 := if negb (timer0When s0 =? 0) && (timer0When s0 <? n) then timer0When s0 else n).
    set (n2 := if negb (timerModifiedEarliest s0 =? 0) && (timerModifiedEarliest s0 <? n1) then timerModifiedEarliest s0 else n1).
    assert (H : n2 <= n ∧ (nobarrierWakeTime s0 ≠ 0 → n2 <= nobarrierWakeTime s0)).
    { unfold nobarrierWakeTime. apply sleep_step. }
    destruct (IH n2) as [I1 I2]. split; [lia|]. intros s Hs Hn. apply elem_of_cons in Hs as [[= ->]|Hs]; [|auto].
    pose proof (proj2 H Hn). cbv zeta in *. lia.
  - destruct (IH n) as [I1 I2]. split; [done|]. intros s Hs Hn. apply elem_of_cons in Hs as [|Hs]; [done|auto].
Qed.

(** ** A concrete processor for the witnesses *)
Definition demo0 : proc :=
  boot [newTimer 10 0 1 7; newTimer 50 0 2 8; newTimer 100 40 3 9; newTimer 20 0 4 0].
Definition got {A} (d : A) (r : res A) : A := match r with Ok a => a | _ => d end.
(** Three timers started, in an order that is not that of their times; the one
    for 100 made earlier, then the first deleted. *)
Definition demo1 : proc := Eval vm_compute in got demo0 (addtimer no_preempt 2 demo0).
Definition demo2 : proc := Eval vm_compute in got demo0 (addtimer no_preempt 1 demo1).
Definition demo3 : proc := Eval vm_compute in got demo0 (addtimer no_preempt 0 demo2).
Definition demo : proc := Eval vm_compute in snd (got (false, demo0) (modtimer 2 30 40 3 9 demo3)).
Definition demo_del : proc := Eval vm_compute in snd (got (false, demo0) (deltimer 0 demo)).
Lemma add_wf h s s' : wf s → (h < length (store s))%nat → st s h = timerNoStatus → 0 < wh s h →
  addtimer no_preempt h s = Ok s' → wf s'.
Proof. intros H1 H2 H3 H4 E. destruct (addtimer_spec no_preempt h s H1 H2 H3 H4) as (s2&E'&W&_&_). rewrite E in E'. by injection E' as ->. Qed.
Lemma demo_wf : wf demo0 ∧ wf demo3 ∧ wf demo ∧ wf demo_del.
Proof.
  assert (H0 : wf demo0) by (apply wf_boot; [repeat constructor; done|done]).
  assert (H1 : wf demo1) by (apply (add_wf 2 demo0); [done|cbn; lia|done|done|vm_compute; reflexivity]).
  assert (H2 : wf demo2) by (apply (add_wf 1 demo1); [done|cbn; lia|done|done|vm_compute; reflexivity]).
  assert (H3 : wf demo3) by (apply (add_wf 0 demo2); [done|cbn; lia|done|done|vm_compute; reflexivity]).
  assert (H : wf demo).
  { destruct (modtimer_spec 2 30 40 3 9 demo3 H3) as (s'&E&W&_); [vm_compute; lia|done..|].
    vm_compute in E. injection E as <-. exact W. }
  split; [done|]. split; [done|]. split; [done|]. destruct (deltimer_spec 0 demo H) as (s'&E&W&_). vm_compute in E. injection E as <-. exact W.
Qed.

(** ** The network poller is told *)
Lemma doaddtimer_woken h s s' : doaddtimer h s = Ok s' → woken s' = woken s.
Proof.
  unfold doaddtimer. set (s1 := if netpollInited s then s else netpollGenericInit s).
  assert (E1 : woken s1 = woken s) by (unfold s1; by destruct (netpollInited s)). clearbody s1.
  destruct (pp (get h s1)); [done|]. destruct (siftupTimer _ _ _) as [r| |]; cbn [mbind res_bind]; [|done..].
  intros [= <-]. rewrite <- E1. by destruct (_ =? _)%nat.
Qed.
Lemma top_bound s h : wf s → h ∈ timers s → 0 < nobarrierWakeTime s <= wh s h.
Proof.
  intros Hw Hh. pose proof Hw as [Hs [He _]]. pose proof (wf_heap _ _ Hs) as Hhw.
  destruct (timers s) as [|k l] eqn:El; [by apply elem_of_nil in Hh|]. rewrite <- El in Hh.
  pose proof (top_le s k l h Hhw El Hh) as Hle.
  assert (Hk : k ∈ timers s) by (rewrite El; by left). destruct (hw_pos _ Hhw k Hk) as [_ Hp].
  unfold nobarrierWakeTime. rewrite (hw_when0 _ Hhw), El, (proj2 (Z.eqb_neq (wh s k) 0)) by lia. cbn [orb].
  destruct (Z.eqb_spec (timerModifiedEarliest s) 0); cbn [negb andb]; [lia|].
  destruct (Z.ltb_spec (timerModifiedEarliest s) (wh s k)); lia.
Qed.
Lemma set_earlier_woken w s : woken (updateTimerModifiedEarliest w s) = woken s.
Proof. unfold updateTimerModifiedEarliest. by destruct (_ && _). Qed.
(** Either [w] was told, or whoever sleeps for this processor wakes in time. *)
Definition told (w : Z) (s s' : proc) : Prop :=
  woken s' = w :: woken s ∨ woken s' = woken s ∧ 0 < nobarrierWakeTime s <= w.
Lemma modtimer_told h w p f q s b s' : wf s → modtimer h w p f q s = Ok (b, s') → told w s s'.
Proof.
  intros Hw. unfold modtimer. destruct (w <=? 0); [done|]. destruct (p <? 0); [done|].
  assert (Hnew : ∀ s1, woken s1 = woken s → (s2 ← doaddtimer h s1; Ok (false, wakeNetPoller w (set_status h timerWaiting s2))) = Ok (b, s') → told w s s').
  { intros s1 E1. destruct (doaddtimer h s1) as [s2| |] eqn:E; cbn [mbind res_bind]; [|done..]. intros [= _ <-].
    left. cbn. by rewrite (doaddtimer_woken _ _ _ E), E1. }
  assert (Hold : ∀ d c, h ∈ timers s →
    let s1 := MkProc (store s) (timers s) (timer0When s) (timerModifiedEarliest s) (numTimers s) d (netpollInited s) (woken s) in
    let s2 := put h (MkTimer (pp (get h s)) (when (get h s)) p f q (nextwhen (get h s)) timerModifying) s1 in
    let s3 := set_nextwhen h w s2 in
    let earlier := w <? wh s3 h in
    let s4 := if earlier then updateTimerModifiedEarliest w s3 else s3 in
    let s5 := set_status h (if earlier then timerModifiedEarlier else timerModifiedLater) s4 in
    Ok (c : bool, if earlier then wakeNetPoller w s5 else s5) = Ok (b, s') → told w s s').
  { intros d c Hh. cbv zeta. set (s3 := set_nextwhen h w _). assert (E3 : wh s3 h = wh s h).
    { destruct (hw_pos _ (wf_heap _ _ (proj1 Hw)) h Hh) as [Hl _]. unfold wh, s3, set_nextwhen.
      rewrite get_put, decide_True by (done || by rewrite len_put). cbn [when].
      by rewrite get_put, decide_True. }
    rewrite E3. destruct (Z.ltb_spec w (wh s h)) as [Hlt|Hge]; intros [= _ <-].
    - left. cbn. by rewrite set_earlier_woken.
    - right. split; [done|]. pose proof (top_bound s h Hw Hh). lia. }
  assert (Hin : ¬ idle (get h s) → h ∈ timers s) by by apply wf_in_of_status.
  unfold idle in Hin. unfold st. destruct (status (get h s)); cbn [mbind res_bind]; try done.
  - by apply Hnew.
  - apply (Hold (deletedTimers s) true). apply Hin. naive_solver.
  - apply (Hold (u32 (deletedTimers s + -1)) false). apply Hin. naive_solver.
  - by apply Hnew.
  - apply (Hold (deletedTimers s) true). apply Hin. naive_solver.
  - apply (Hold (deletedTimers s) true). apply Hin. naive_solver.
Qed.

(** ** The properties *)
(** C13: The operations implement a map from timers to what they are set to do:
    on a well-formed processor addtimer enters a new timer, deltimer takes the
    timer out and modtimer and resettimer set it anew, without a panic, leaving
    every other timer's task alone and the processor well-formed (its heap
    ordered, its counts exact), and the result tells whether it was set. *)
Theorem timers_refine stop h w p f q s : wf s → (h < length (store s))%nat → 0 < w → 0 <= p →
  (st s h = timerNoStatus → 0 < wh s h → ∃ s', addtimer stop h s = Ok s' ∧ wf s' ∧
     tasks_set h (Some (Task (wh s h) (period (get h s)) (func (get h s), seqno (get h s)))) s s') ∧
  (∃ s', deltimer h s = Ok (bool_decide (is_Some (active s h)), s') ∧ wf s' ∧ tasks_set h None s s') ∧
  (∃ s', modtimer h w p f q s = Ok (bool_decide (is_Some (active s h)), s') ∧ wf s' ∧
     tasks_set h (Some (Task w p (f, q))) s s') ∧
  (∃ s', resettimer h w s = Ok (bool_decide (is_Some (active s h)), s') ∧ wf s' ∧
     tasks_set h (Some (Task w (period (get h s)) (func (get h s), seqno (get h s)))) s s').
Proof.
  intros Hw Hl Hpos Hper. split.
  { intros Hst Hp. destruct (addtimer_spec stop h s Hw Hl Hst Hp) as (s'&E&W&T&_). by exists s'. } split; [by apply deltimer_spec|].
  split; [by apply modtimer_spec|]. apply modtimer_spec; try done. apply (wf_period _ _ (proj1 Hw)).
Qed.
Lemma timers_refine_witness :
  (∃ s', addtimer no_preempt 3 demo = Ok s' ∧ wf s') ∧ active demo 2 = Some (Task 30 40 (3%nat, 9)) ∧
  ∃ s', resettimer 2 5 demo = Ok (true, s') ∧ active s' 2 = Some (Task 5 40 (3%nat, 9)) ∧
        active s' 1 = Some (Task 50 0 (2%nat, 8)).
Proof.
  destruct demo_wf as (_&_&Hw&_).
  destruct (timers_refine no_preempt 3 5 0 0 0 demo Hw) as [Ha _]; [cbn; lia|lia|lia|].
  destruct (timers_refine no_preempt 2 5 0 0 0 demo Hw) as (_&_&_&s'&E&_&Ht); [cbn; lia|lia|lia|].
  split; [|split; [reflexivity|]].
  - destruct (Ha eq_refl eq_refl) as (s1&E1&W&_). by exists s1.
  - exists s'. split; [exact E|]. split; rewrite Ht; reflexivity.
Defined.

(** The loops over the heap end, however many timers were deleted or
    modified behind the processor's back: cleantimers and adjusttimers with the
    fuel they are given and clearDeletedTimers, which needs none, finish without
    a panic, keep the processor well-formed and no timer's task changes; after
    adjusttimers no timer made earlier is due, and after clearDeletedTimers
    every timer of the heap is waiting at its own time, none deleted. *)
Theorem timer_loops_end stop now s : wf s →
  (∃ s', cleantimers stop (S (length (timers s))) s = Ok s' ∧ wf s' ∧ ∀ h, active s' h = active s h) ∧
  (∃ s', adjusttimers now s = Ok s' ∧ wf s' ∧ (∀ h, active s' h = active s h) ∧ no_early now s') ∧
  (∃ s', clearDeletedTimers s = Ok s' ∧ wf s' ∧ (∀ h, active s' h = active s h) ∧ deletedTimers s' = 0 ∧
         ∀ h, h ∈ timers s' → st s' h = timerWaiting).
Proof.
  intros Hw. pose proof Hw as [Hs Ha]. split; [|split].
  - destruct (cleantimers_spec [] stop (S (length (timers s))) s Hs) as (s'&E&H).
    + intros h _. apply not_elem_of_nil.
    + apply nonwaiting_fuel.
    + exists s'. split; [done|]. split; [by split; [apply H|apply (td_announced _ _ _ H)]|apply H].
  - destruct (adjusttimers_spec now s Hw) as (s'&E&H1&H2&H3&_). by exists s'.
  - destruct (clearDeletedTimers_ok s Hw) as (s'&E&[]). by exists s'.
Qed.
Lemma timer_loops_end_witness : wf demo_del ∧ timers demo_del = [0; 2; 1]%nat ∧
  ∃ s', clearDeletedTimers demo_del = Ok s' ∧ timers s' = [2; 1]%nat ∧ wf s' ∧ deletedTimers s' = 0.
Proof.
  destruct demo_wf as (_&_&_&Hw). split; [exact Hw|]. split; [reflexivity|].
  destruct (timer_loops_end no_preempt 0 demo_del Hw) as (_&_&s'&E&W&_&D&_).
  exists s'. split; [exact E|]. split; [|split; [exact W|exact D]]. vm_compute in E. injection E as <-. reflexivity.
Defined.

(** The times the scheduler sleeps by are never late: a timer that is set to
    fire at some time keeps nobarrierWakeTime of its processor set and no later
    than that, hence, whatever the other processors, what checkTimersNoP makes
    of findRunnable's pollUntil (for a processor in the timer mask) and
    timeSleepUntil; and the network poller is not asked to block past it. *)
Theorem wake_time_bound s k x allp pollUntil now : wf s → active s k = Some x → 0 <= pollUntil → 0 < now →
  Forall (λ b, wf (snd b)) allp → (true, s) ∈ allp →
  let r := checkTimersNoP allp pollUntil in
  0 < nobarrierWakeTime s <= at_time x ∧ 0 < r <= at_time x ∧
  timeSleepUntil ((λ b, Some (snd b)) <$> allp) <= at_time x ∧
  0 <= poll_delay r now now <= Z.max 0 (at_time x - now).
Proof.
  intros Hw Hx Hp Hn Hall Hin. cbv zeta. pose proof (wake_bound s k x Hw Hx) as Hb.
  destruct (noP_bound allp pollUntil Hp) as (_&_&H3).
  { eapply list.Forall_impl; [exact Hall|]. intros b. apply wake_nonneg. }
  specialize (H3 s Hin ltac:(lia)). split; [done|]. split; [lia|]. split.
  - unfold timeSleepUntil. destruct (timeSleep_bound ((λ b, Some (snd b)) <$> allp) maxWhen) as [_ H].
    assert (Hs : Some s ∈ (λ b : bool * proc, Some (snd b)) <$> allp) by (apply list_elem_of_fmap; by exists (true, s)).
    specialize (H s Hs ltac:(lia)). lia.
  - unfold poll_delay. rewrite (proj2 (Z.eqb_neq _ _)), (proj2 (Z.eqb_neq now 0)) by lia.
    destruct (Z.ltb_spec (checkTimersNoP allp pollUntil - now) 0); lia.
Qed.
Lemma wake_time_bound_witness :
  nobarrierWakeTime demo_del = 10 ∧ active demo_del 2 = Some (Task 30 40 (3%nat, 9)) ∧
  checkTimersNoP [(true, demo0); (true, demo_del)] 50 = 10 ∧
  timeSleepUntil [Some demo0; Some demo_del] <= 30 ∧
  0 <= poll_delay (checkTimersNoP [(true, demo0); (true, demo_del)] 50) 5 5 <= 25.
Proof.
  destruct demo_wf as (H0&_&_&Hw).
  destruct (wake_time_bound demo_del 2 (Task 30 40 (3%nat, 9)) [(true, demo0); (true, demo_del)] 50 5 Hw) as (_&_&H2&H3);
    [reflexivity|lia|lia|constructor 2; [exact H0|constructor 2; [exact Hw|constructor]]|right; left|].
  split; [reflexivity|]. split; [reflexivity|]. split; [reflexivity|]. split; [exact H2|exact H3].
Defined.

(** Whoever sleeps until the processor's wake-up time does not sleep past a
    timer set meanwhile: a call of addtimer, modtimer or resettimer either calls
    wakeNetPoller with the timer's new time, or that time is not earlier than
    the processor's wake-up time was already. *)
Theorem new_time_announced stop h w p f q s s' : wf s → (h < length (store s))%nat →
  (st s h = timerNoStatus → 0 < wh s h → addtimer stop h s = Ok s' → told (wh s h) s s') ∧
  (∀ b, modtimer h w p f q s = Ok (b, s') → told w s s') ∧
  (∀ b, resettimer h w s = Ok (b, s') → told w s s').
Proof.
  intros Hw Hl. split; [|split; intros b E; by eapply modtimer_told].
  intros Hst Hp E. destruct (addtimer_spec stop h s Hw Hl Hst Hp) as (s2&E2&_&_&Hk).
  rewrite E in E2. injection E2 as <-. by left.
Qed.
Lemma new_time_announced_witness : ∃ b s1 s2,
  resettimer 1 60 demo = Ok (b, s1) ∧ woken s1 = woken demo ∧ told 60 demo s1 ∧
  resettimer 1 5 demo = Ok (b, s2) ∧ woken s2 = 5 :: woken demo ∧ told 5 demo s2.
Proof.
  destruct demo_wf as (_&_&Hw&_). exists true. do 2 eexists. split; [vm_compute; reflexivity|].
  split; [reflexivity|]. split.
  { eapply (new_time_announced no_preempt 1 60 0 0 0 demo _ Hw); [cbn; lia|vm_compute; reflexivity]. }
  split; [vm_compute; reflexivity|]. split; [reflexivity|].
  eapply (new_time_announced no_preempt 1 5 0 0 0 demo _ Hw); [cbn; lia|vm_compute; reflexivity].
Defined.

(** ** checkTimers *)
Lemma wake_zero s k : wf s → nobarrierWakeTime s = 0 → active s k = None.
Proof. intros Hw E. destruct (active s k) as [x|] eqn:Hx; [|done]. pose proof (wake_bound s k x Hw Hx). lia. Qed.
Lemma wake_zero_empty s : wf s → nobarrierWakeTime s = 0 → timers s = [].
Proof.
  intros [Hs _] E. pose proof (wf_heap _ _ Hs) as Hw. destruct (timers s) as [|h l] eqn:El; [done|exfalso].
  assert (Hh : h ∈ timers s) by (rewrite El; by left). destruct (hw_pos _ Hw h Hh) as [_ Hp].
  unfold nobarrierWakeTime in E. rewrite (hw_when0 _ Hw), El, (proj2 (Z.eqb_neq (wh s h) 0)) in E by lia.
  cbn [orb] in E. destruct (Z.eqb_spec (timerModifiedEarliest s) 0); cbn [negb andb] in E; [lia|].
  destruct (_ <? _); lia.
Qed.
Lemma empty_deleted s : wf s → timers s = [] → deletedTimers s = 0.
Proof. intros [Hs _] E. rewrite (wf_deleted _ _ Hs). unfold count_deleted. by rewrite E. Qed.
(** What checkTimers did with a processor [s], the time being [t]. *)
Record checked (t : Z) (localP : bool) (s : proc) (pollUntil : Z) (calls : list (nat * callback)) (s' : proc) : Prop :=
  { ck_wf : wf s';
    ck_none k x : active s' k = Some x → t < at_time x;
    ck_next : pollUntil = 0 ∧ (∀ k, active s' k = None) ∨ t < pollUntil;
    ck_fired : fired t s calls;
    ck_deleted : localP = true → deletedTimers s' <= Z.of_nat (length (timers s')) / 4 }.
Lemma checked_idle t localP s : wf s → nobarrierWakeTime s = 0 → checked t localP s 0 [] s.
Proof.
  intros Hw E. split; [done| | |apply fired_nil|].
  - intros k x. by rewrite (wake_zero s k Hw E).
  - left. split; [done|]. intros k. by apply wake_zero.
  - intros _. pose proof (wake_zero_empty s Hw E) as Et. by rewrite (empty_deleted s Hw Et), Et.
Qed.
Lemma checked_wait t localP s : wf s → t < nobarrierWakeTime s →
  negb localP || (deletedTimers s <=? numTimers s / 4) = true →
  checked t localP s (nobarrierWakeTime s) [] s.
Proof.
  intros Hw Hlt Hd. split; [done| |by right|apply fired_nil|].
  - intros k x Hx. pose proof (wake_bound s k x Hw Hx). lia.
  - intros ->. cbn [negb orb] in Hd. apply Z.leb_le in Hd.
    by rewrite (hwf_num _ (wf_heap _ _ (proj1 Hw))) in Hd.
Qed.
Lemma checked_ready t localP s p calls s1 : ready_done t s p calls s1 →
  ∃ s', (if localP && (deletedTimers s1 >? Z.of_nat (length (timers s1)) / 4) then clearDeletedTimers s1 else Ok s1) = Ok s' ∧
    checked t localP s p calls s'.
Proof.
  intros [D1 D2 D3 D4 D5]. assert (Hnone : ∀ s', (∀ k, active s' k = active s1 k) →
      p = 0 ∧ (∀ k, active s' k = None) ∨ t < p).
  { intros s' Ha. destruct D4 as [[-> E]|]; [left|by right]. split; [done|]. intros k.
    rewrite Ha. by apply empty_inactive. }
  destruct localP; cbn [andb]; cycle 1.
  { exists s1. split; [done|]. split; try done. by apply Hnone. }
  destruct (Z.gtb_spec (deletedTimers s1) (Z.of_nat (length (timers s1)) / 4)) as [H|H].
  - destruct (clearDeletedTimers_ok s1 D1) as (s'&->&[A1 A2 A3 A4 A5]). exists s'. split; [done|].
    split; [done| |by apply Hnone|done|].
    + intros k x. rewrite A2. apply D3.
    + intros _. rewrite A3. apply Z.div_pos; lia.
  - exists s1. split; [done|]. split; try done. by apply Hnone.
Qed.
(** C14: checkTimers, at the time [t] (what it is given, or the clock), runs
    only timers that are due, each once and in the order of their times, and
    returns with none due, whatever ran meanwhile made of the timers as long as
    it added none already due; the time it returns to wake up at is later than
    now, or 0 with no timer set; it leaves the processor well-formed, and on its
    own processor at most a quarter of the heap deleted.  It takes as many
    rounds as there are timers and one more. *)
Theorem checkTimers_runs_due during localP nanotime now s (t := if now =? 0 then nanotime else now) :
  wf s → tasks_ok s → gentle t during → 0 <= t < maxWhen →
  ∃ rnow pollUntil calls s',
    checkTimers during (S (length (timers s))) localP nanotime now s = Ok (rnow, pollUntil, calls, s') ∧
    (rnow = t ∨ rnow = now ∧ ∀ k, active s k = None) ∧
    checked t localP s pollUntil calls s'.
Proof.
  intros Hw Hok Hg Ht. unfold checkTimers. cbv zeta. destruct (Z.eqb_spec (nobarrierWakeTime s) 0) as [E|E].
  { do 4 eexists. split; [done|]. split; [|by apply checked_idle].
    right. split; [done|]. intros k. by apply wake_zero. }
  fold t. destruct ((t <? _) && _) eqn:Hq.
  { apply andb_true_iff in Hq as [Hlt Hd]. apply Z.ltb_lt in Hlt.
    do 4 eexists. split; [done|]. split; [by left|]. by apply checked_wait. }
  assert (Hr : ∃ p calls s1, (if (0 <? length (timers s))%nat then s0 ← adjusttimers t s; run_ready during (S (length (timers s))) t s0
                          else Ok (0, [], s)) = Ok (p, calls, s1) ∧ ready_done t s p calls s1).
  { destruct (Nat.ltb_spec 0 (length (timers s))) as [Hl|Hl]; cycle 1.
    { assert (El : timers s = []) by (apply nil_length_inv; lia). do 3 eexists. split; [done|].
      split; [done|done| |by left|apply fired_nil]. intros k x. by rewrite empty_inactive. }
    destruct (adjusttimers_spec t s Hw) as (s0&->&W0&A0&N0&_). cbn [mbind res_bind].
    destruct (run_ready_spec during t Hg Ht (S (length (timers s))) (timers s) s0 W0) as (p&calls&s1&->&H).
    - intros k x. rewrite A0. apply Hok.
    - done.
    - intros k x. rewrite A0. intros Hx _. apply active_in; [done|by eexists].
    - lia.
    - do 3 eexists. split; [done|]. destruct H as [D1 D2 D3 D4 D5]. split; try done.
      by apply (fired_ext t s0). }
  destruct Hr as (p&calls&s1&->&Hr). cbn [mbind res_bind].
  destruct (checked_ready t localP s p calls s1 Hr) as (s'&->&Hc). cbn [mbind res_bind].
  do 4 eexists. split; [done|]. split; [by left|done].
Qed.
Lemma gentle_id now : gentle now (λ _ s, s).
Proof. by split. Qed.
Definition demo_calls : list (nat * callback) := [(0%nat, (1%nat, 7)); (2%nat, (3%nat, 9))].
Lemma checkTimers_runs_due_witness : ∃ s',
  checkTimers (λ _ s, s) 4 true 35 0 demo = Ok (35, 50, demo_calls, s') ∧
  checked 35 true demo 50 demo_calls s' ∧ active s' 2 = Some (Task 70 40 (3%nat, 9)).
Proof.
  destruct demo_wf as (_&_&Hw&_). assert (Hok : tasks_ok demo).
  { intros [|[|[|[|k]]]] x; cbn; [..|by destruct k]; intros E; try discriminate; injection E as <-; done. }
  destruct (checkTimers_runs_due (λ _ s, s) true 35 0 demo Hw Hok (gentle_id 35)) as (r&p&c&s'&E&_&H); [done|].
  cbn [Z.eqb] in H. vm_compute in E. injection E as <- <- <- <-. eexists. split; [vm_compute; reflexivity|].
  split; [exact H|reflexivity].
Defined.
(** The time checkTimers returns can be later than a timer that was made
    earlier after the others were looked at: here 50, with a timer for 30. *)
Lemma checkTimers_overshoot : ∃ s' calls,
  checkTimers (λ _ s, s) 4 true 10 0 demo = Ok (10, 50, calls, s') ∧
  active s' 2 = Some (Task 30 40 (3%nat, 9)) ∧ nobarrierWakeTime s' = 30.
Proof. do 2 eexists. split; [vm_compute; reflexivity|]. split; reflexivity. Qed.
