(* ===== verification/FdUnix.v ===== *)
(** * internal/poll: reading and writing through a file descriptor

    fd_unix.go, fd_unixjs.go, fd_posix.go, fd_poll_runtime.go, fd.go, writev.go,
    sendfile_linux.go, sock_cloexec.go and the socket options: the operations on
    an [FD], on Linux.

    What the operations call is the environment, the class [Env]: the lock of
    the descriptor (FdMutex), the runtime's poller (Netpoll), the kernel, and
    the functions RawRead and the like are given.  Its answers may change from
    one call to the next in any way, as other goroutines and the kernel make
    them.  An operation runs on the state of the descriptor and the
    environment's and records its calls; a loop takes fuel, and [Panic []] is
    running out of it.

    A buffer read into is its length; an error is [None] or a value; system
    calls that differ only in their arguments' types share a constructor. *)
From S2P Require Import Prelude FdMutex.

(** ** Errors *)
Inductive ioerror : Set :=
| Errno (e : Z)
| ErrNetClosing | ErrFileClosing | ErrDeadlineExceeded | ErrNotPollable | ErrNoDeadline
| ErrWaitUnsupported                    (* "waiting for unsupported file type" *)
| EOF | ErrUnexpectedEOF.
#[global] Instance ioerror_eq_dec : EqDecision ioerror.
Proof. solve_decision. Defined.
Definition EINTR : Z := 4.
Definition EAGAIN : Z := 11.
Definition EACCES : Z := 13.
Definition EFAULT : Z := 14.
Definition EINVAL : Z := 22.
Definition ENOSYS : Z := 38.
Definition ECONNABORTED : Z := 103.

Definition errClosing (isFile : bool) : ioerror := if isFile then ErrFileClosing else ErrNetClosing.

(** ** What is called *)
(** An address a packet comes from or goes to: a name. *)
Definition sockaddr : Set := option nat.
(** For which sort of address a call is made: Recvfrom, RecvfromInet4, ... *)
Inductive family : Set := AnyAddr | Inet4 | Inet6.
Inductive control : Set :=
| CtlFchmod (mode : Z) | CtlFchown (uid gid : Z) | CtlFtruncate (size : Z) | CtlFstat | CtlFchdir | CtlFsync
| CtlSeek (offset whence : Z) | CtlShutdown (how : Z) | CtlSetNonblock (b : bool) | CtlCloseOnExec
| CtlGetsockoptInt (level name : Z) | CtlSetsockoptInt (level name arg : Z)
| CtlSetsockoptByte (level name arg : Z) | CtlSetsockoptInet4Addr (level name : Z) (arg : bytes)
| CtlSetsockoptLinger (level name : Z) (l : nat) | CtlSetsockoptIPMreqn (level name : Z) (mreq : nat)
| CtlSetsockoptIPMreq (level name : Z) (mreq : nat) | CtlSetsockoptIPv6Mreq (level name : Z) (mreq : nat).
Inductive syscall : Set :=
| SysRead (fd len : Z) | SysPread (fd len off : Z)
| SysRecvfrom (f : family) (fd len flags : Z)
| SysRecvmsg (f : family) (fd len ooblen flags : Z)
| SysReadDirent (fd len : Z)
| SysWrite (fd : Z) (p : bytes) | SysPwrite (fd : Z) (p : bytes) (off : Z)
| SysSendto (f : family) (fd : Z) (p : bytes) (flags : Z) (to : sockaddr)
| SysSendmsgN (f : family) (fd : Z) (p oob : bytes) (to : sockaddr) (flags : Z)
| SysWritev (fd : Z) (iovecs : list bytes)
| SysSendfile (dst src n : Z)
| SysAccept4 (fd flags : Z) | SysAccept (fd : Z)
| SysFcntl (fd cmd arg : Z) | SysDup (fd : Z) | SysClose (fd : Z)
| SysControl (fd : Z) (c : control).
(** What a system call returns: a count or descriptor, and for those that have
    them the length of the control data, the flags and the address. *)
Record sysres : Set := SysRes { r_n : Z; r_oobn : Z; r_flags : Z; r_sa : sockaddr; r_err : option Z }.
Definition failed (r : sysres) (e : Z) : bool := bool_decide (r_err r = Some e).
Definition err_of (e : option Z) : option ioerror := Errno <$> e.

(** The calls an operation made, with their answers. *)
Inductive event : Set :=
| EAcquire (k : kind) (ok : bool) | ERelease (k : kind) (last : bool)
| EReset (mode code : Z) | EWait (mode code : Z) | EUnblock | EPollClose
| EPollOpen (fd : Z) (ctx errno : Z) | ESetDeadline (d mode : Z)
| ESemacquire | ESemrelease
| ESys (c : syscall) (r : sysres)
| EUser (fd : Z) (done : bool).

(** The environment: what answers the calls, and changes as it does. *)
Class Env (W : Type) : Type :=
  { acquire : kind → W → bool * W;        (* rwlock, incref, increfAndClose *)
    release : kind → W → bool * W;        (* rwunlock, decref: the last one? *)
    pollReset : Z → W → Z * W;            (* runtime_pollReset *)
    pollWait : Z → W → Z * W;
    pollUnblock : W → W;
    pollClose : W → W;
    pollOpen : Z → W → (Z * Z) * W;
    pollSetDeadline : Z → Z → W → W;
    csemacquire : W → W;                  (* on the semaphore csema *)
    csemrelease : W → W;
    dosys : syscall → W → sysres * W;
    user : Z → W → bool * W }.            (* the function given to RawRead *)

(** ** Descriptors *)
Record FD : Set := MkFD
  { Sysfd : Z; runtimeCtx : Z; isBlocking : Z; IsStream : bool; ZeroReadIsEOF : bool; isFile : bool }.
Definition set_Sysfd (x : Z) (fd : FD) : FD :=
  MkFD x (runtimeCtx fd) (isBlocking fd) (IsStream fd) (ZeroReadIsEOF fd) (isFile fd).
Definition set_runtimeCtx (x : Z) (fd : FD) : FD :=
  MkFD (Sysfd fd) x (isBlocking fd) (IsStream fd) (ZeroReadIsEOF fd) (isFile fd).
Definition set_isBlocking (x : Z) (fd : FD) : FD :=
  MkFD (Sysfd fd) (runtimeCtx fd) x (IsStream fd) (ZeroReadIsEOF fd) (isFile fd).
Definition set_isFile (x : bool) (fd : FD) : FD :=
  MkFD (Sysfd fd) (runtimeCtx fd) (isBlocking fd) (IsStream fd) (ZeroReadIsEOF fd) x.
Definition pollable (fd : FD) : bool := negb (runtimeCtx fd =? 0).
(** [fd.eofError]. *)
Definition eofError (fd : FD) (n : Z) (err : option ioerror) : option ioerror :=
  if (n =? 0) && bool_decide (err = None) && ZeroReadIsEOF fd then Some EOF else err.

Record st (W : Type) : Type := St { fds : FD; env : W; trace : list event }.
Arguments St {W}. Arguments fds {W}. Arguments env {W}. Arguments trace {W}.

(** ** Operations *)
Definition M (W A : Type) : Type := st W → res (A * st W).
#[global] Instance M_ret {W} : MRet (M W) := λ A a s, Ok (a, s).
#[global] Instance M_bind {W} : MBind (M W) := λ A B k m s,
  match m s with Ok (a, s) => k a s | Err e => Err e | Panic p => Panic p end.
Definition getfd {W} : M W FD := λ s, Ok (fds s, s).
Definition modfd {W} (f : FD → FD) : M W unit := λ s, Ok (tt, St (f (fds s)) (env s) (trace s)).
Definition lift {W A} (r : res A) : M W A := λ s,
  match r with Ok a => Ok (a, s) | Err e => Err e | Panic p => Panic p end.
Definition stuck {W A} : M W A := λ _, Panic [].
Definition panic {W A} (m : bytes) : M W A := λ _, Panic [Lit m].

Section Ops.
Context {W : Type} {E : Env W}.
Implicit Types (p : bytes) (fuel : nat).

(** One call of the environment. *)
Definition ask {A} (f : W → A * W) (ev : A → event) : M W A := λ s,
  let '(a, w) := f (env s) in Ok (a, St (fds s) w (trace s ++ [ev a])).
Definition tell (f : W → W) (ev : event) : M W unit :=
  ask (λ w, (tt, f w)) (λ _, ev).
Definition sys (c : syscall) : M W sysres := ask (dosys c) (ESys c).

(** ** fd_poll_runtime.go: pollDesc *)
Definition convertErr (res : Z) (isFile : bool) : M W (option ioerror) :=
  if res =? 0 then mret None
  else if res =? 1 then mret (Some (errClosing isFile))
  else if res =? 2 then mret (Some ErrDeadlineExceeded)
  else if res =? 3 then mret (Some ErrNotPollable)
  else panic "unreachable"%go.
Definition mode_read : Z := "r"%byte.
Definition mode_write : Z := "w"%byte.
Definition prepare (mode : Z) : M W (option ioerror) :=
  fd ← getfd;
  if runtimeCtx fd =? 0 then mret None
  else res ← ask (pollReset mode) (EReset mode); convertErr res (isFile fd).
Definition wait (mode : Z) : M W (option ioerror) :=
  fd ← getfd;
  if runtimeCtx fd =? 0 then mret (Some ErrWaitUnsupported)
  else res ← ask (pollWait mode) (EWait mode); convertErr res (isFile fd).
Definition evict : M W unit :=
  fd ← getfd;
  if runtimeCtx fd =? 0 then mret tt else tell pollUnblock EUnblock.
Definition pd_close : M W unit :=
  fd ← getfd;
  if runtimeCtx fd =? 0 then mret tt
  else _ ← tell pollClose EPollClose; modfd (set_runtimeCtx 0).
(** [pd.init]; the poller itself has been started. *)
Definition pd_init : M W (option ioerror) :=
  fd ← getfd;
  r ← ask (pollOpen (Sysfd fd)) (λ r, EPollOpen (Sysfd fd) (fst r) (snd r));
  if negb (snd r =? 0) then mret (Some (Errno (snd r)))
  else _ ← modfd (set_runtimeCtx (fst r)); mret None.

(** ** Opening and closing *)
Definition Init (net : bytes) (poll : bool) : M W (option ioerror) :=
  _ ← (if beq net "file"%go then modfd (set_isFile true) else mret tt);
  if negb poll then _ ← modfd (set_isBlocking 1); mret None
  else
    err ← pd_init;
    _ ← (if bool_decide (err = None) then mret tt else modfd (set_isBlocking 1));
    mret err.
Definition destroy : M W (option ioerror) :=
  _ ← pd_close;
  fd ← getfd;
  r ← sys (SysClose (Sysfd fd));
  _ ← modfd (set_Sysfd (-1));
  _ ← tell csemrelease ESemrelease;
  mret (err_of (r_err r)).

(** ** fd_mutex.go: the lock *)
(** incref, readLock, writeLock. *)
Definition fd_acquire (k : kind) : M W (option ioerror) :=
  ok ← ask (acquire k) (EAcquire k);
  fd ← getfd;
  mret (if negb ok then Some (errClosing (isFile fd)) else None).
(** readUnlock, writeUnlock; and decref, whose error they drop. *)
Definition fd_release (k : kind) : M W (option ioerror) :=
  last ← ask (release k) (ERelease k);
  if (last : bool) then destroy else mret None.
(** [if err := lock(); err != nil { return ... err }; defer unlock()] around the
    rest of the operation; [fail] is what is returned with the error. *)
Definition with_lock {A} (k : kind) (fail : option ioerror → A) (body : M W A) : M W A :=
  err ← fd_acquire k;
  match err with
  | Some _ => mret (fail err)
  | None => a ← body; _ ← fd_release k; mret a
  end.
(** The same followed by [prepareRead] or [prepareWrite]. *)
Definition with_prepared {A} (k : kind) (mode : Z) (fail : option ioerror → A) (body : M W A) : M W A :=
  with_lock k fail
    (err ← prepare mode;
     match err with Some _ => mret (fail err) | None => body end).

Definition Close : M W (option ioerror) :=
  ok ← ask (acquire KClose) (EAcquire KClose);
  fd ← getfd;
  if negb ok then mret (Some (errClosing (isFile fd)))
  else
    _ ← evict;
    err ← fd_release KClose;
    fd ← getfd;
    _ ← (if isBlocking fd =? 0 then tell csemacquire ESemacquire else mret tt);
    mret err.
Definition SetBlocking : M W (option ioerror) :=
  with_lock KMisc id
    (_ ← modfd (set_isBlocking 1);
     fd ← getfd;
     r ← sys (SysControl (Sysfd fd) (CtlSetNonblock false));
     mret (err_of (r_err r))).
(** [until]: what time.Until says of the deadline, [None] for the zero time. *)
Definition setDeadlineImpl (until : option Z) (mode : Z) : M W (option ioerror) :=
  let d := match until with None => 0 | Some d => if d =? 0 then -1 else d end in
  with_lock KMisc id
    (fd ← getfd;
     if runtimeCtx fd =? 0 then mret (Some ErrNoDeadline)
     else _ ← tell (pollSetDeadline d mode) (ESetDeadline d mode); mret None).
Definition SetDeadline (until : option Z) := setDeadlineImpl until (mode_read + mode_write).
Definition SetReadDeadline (until : option Z) := setDeadlineImpl until mode_read.
Definition SetWriteDeadline (until : option Z) := setDeadlineImpl until mode_write.

(** ** Calls that are repeated when a signal interrupts them *)
(** ignoringEINTRIO, and ignoringEINTR. *)
Fixpoint ignoringEINTR fuel (c : syscall) : M W sysres :=
  match fuel with
  | O => stuck
  | S fuel => r ← sys c; if failed r EINTR then ignoringEINTR fuel c else mret r
  end.
(** The end of the loops: an operation that would block waits, if the poller
    knows the descriptor; [None] means once more. *)
Definition again (r : sysres) (mode : Z) : M W (option (option ioerror)) :=
  fd ← getfd;
  if failed r EAGAIN && pollable fd then
    err ← wait mode;
    mret (match err with None => None | Some e => Some (Some e) end)
  else mret (Some (err_of (r_err r))).

(** ** Reading *)
Definition maxRW : Z := 2 ^ 30.
Fixpoint Read_loop fuel (len : Z) : M W (Z * option ioerror) :=
  match fuel with
  | O => stuck
  | S fuel =>
      fd ← getfd;
      r ← ignoringEINTR fuel (SysRead (Sysfd fd) len);
      match r_err r with
      | None => mret (r_n r, eofError fd (r_n r) None)
      | Some _ =>
          o ← again r mode_read;
          match o with
          | None => Read_loop fuel len
          | Some err => mret (0, eofError fd 0 err)
          end
      end
  end.
Definition Read fuel (len : Z) : M W (Z * option ioerror) :=
  with_lock KRead (λ e, (0, e))
    (if len =? 0 then mret (0, None)
     else
       err ← prepare mode_read;
       match err with
       | Some _ => mret (0, err)
       | None =>
           fd ← getfd;
           Read_loop fuel (if IsStream fd && (len >? maxRW) then maxRW else len)
       end).
Definition Pread fuel (len off : Z) : M W (Z * option ioerror) :=
  err ← fd_acquire KMisc;
  match err with
  | Some _ => mret (0, err)
  | None =>
      fd ← getfd;
      let len := if IsStream fd && (len >? maxRW) then maxRW else len in
      r ← ignoringEINTR fuel (SysPread (Sysfd fd) len off);
      let n := match r_err r with None => r_n r | Some _ => 0 end in
      _ ← fd_release KMisc;
      mret (n, eofError fd n (err_of (r_err r)))
  end.
(** The loops of ReadFrom and ReadMsg and their variants for one sort of
    address; [zero]: an error sets [n] to 0. *)
Fixpoint recv_loop fuel (zero : bool) (c : Z → syscall) : M W (sysres * option ioerror) :=
  match fuel with
  | O => stuck
  | S fuel =>
      fd ← getfd;
      r ← sys (c (Sysfd fd));
      match r_err r with
      | None => mret (r, eofError fd (r_n r) None)
      | Some _ =>
          if failed r EINTR then recv_loop fuel zero c
          else
            let r := if zero then SysRes 0 (r_oobn r) (r_flags r) (r_sa r) (r_err r) else r in
            o ← again r mode_read;
            match o with
            | None => recv_loop fuel zero c
            | Some err => mret (r, eofError fd (r_n r) err)
            end
      end
  end.
Definition readFrom_with (f : family) fuel (len : Z) : M W (Z * sockaddr * option ioerror) :=
  with_prepared KRead mode_read (λ e, (0, None, e))
    (a ← recv_loop fuel true (λ fd, SysRecvfrom f fd len 0);
     mret (r_n (fst a), r_sa (fst a), snd a)).
Definition ReadFrom := readFrom_with AnyAddr.
Definition ReadFromInet4 := readFrom_with Inet4.
Definition ReadFromInet6 := readFrom_with Inet6.
Definition readMsg_with (f : family) fuel (len ooblen flags : Z)
    : M W (Z * Z * Z * sockaddr * option ioerror) :=
  with_prepared KRead mode_read (λ e, (0, 0, 0, None, e))
    (a ← recv_loop fuel false (λ fd, SysRecvmsg f fd len ooblen flags);
     mret (r_n (fst a), r_oobn (fst a), r_flags (fst a), r_sa (fst a), snd a)).
Definition ReadMsg := readMsg_with AnyAddr.
Definition ReadMsgInet4 := readMsg_with Inet4.
Definition ReadMsgInet6 := readMsg_with Inet6.
Fixpoint ReadDirent_loop fuel (len : Z) : M W (Z * option ioerror) :=
  match fuel with
  | O => stuck
  | S fuel =>
      fd ← getfd;
      r ← ignoringEINTR fuel (SysReadDirent (Sysfd fd) len);
      match r_err r with
      | None => mret (r_n r, None)
      | Some _ =>
          o ← again r mode_read;
          match o with None => ReadDirent_loop fuel len | Some err => mret (0, err) end
      end
  end.
Definition ReadDirent fuel (len : Z) : M W (Z * option ioerror) :=
  with_lock KMisc (λ e, (0, e)) (ReadDirent_loop fuel len).
Definition Raw_loop (mode : Z) : nat → M W (option ioerror) :=
  fix loop fuel :=
    match fuel with
    | O => stuck
    | S fuel =>
        fd ← getfd;
        done ← ask (user (Sysfd fd)) (EUser (Sysfd fd));
        if (done : bool) then mret None
        else err ← wait mode; match err with Some _ => mret err | None => loop fuel end
    end.
Definition RawRead fuel : M W (option ioerror) :=
  with_prepared KRead mode_read id (Raw_loop mode_read fuel).
Definition RawWrite fuel : M W (option ioerror) :=
  with_prepared KWrite mode_write id (Raw_loop mode_write fuel).
Definition RawControl : M W (option ioerror) :=
  with_lock KMisc id
    (fd ← getfd; _ ← ask (user (Sysfd fd)) (EUser (Sysfd fd)); mret None).

(** ** Writing *)
(** The end of the chunk that starts at [nn]. *)
Definition chunk_end (fd : FD) (p : bytes) (nn : Z) : Z :=
  if IsStream fd && (len p - nn >? maxRW) then nn + maxRW else len p.
Fixpoint Write_loop fuel p (nn : Z) : M W (Z * option ioerror) :=
  match fuel with
  | O => stuck
  | S fuel =>
      fd ← getfd;
      b ← lift (slice p nn (chunk_end fd p nn));
      r ← ignoringEINTR fuel (SysWrite (Sysfd fd) b);
      let nn := if r_n r >? 0 then nn + r_n r else nn in
      if nn =? len p then mret (nn, err_of (r_err r))
      else
        o ← again r mode_write;
        match o with
        | None => Write_loop fuel p nn
        | Some (Some e) => mret (nn, Some e)
        | Some None => if r_n r =? 0 then mret (nn, Some ErrUnexpectedEOF) else Write_loop fuel p nn
        end
  end.
Definition Write fuel p : M W (Z * option ioerror) :=
  with_prepared KWrite mode_write (λ e, (0, e)) (Write_loop fuel p 0).
Fixpoint Pwrite_loop fuel p (off nn : Z) : M W (Z * option ioerror) :=
  match fuel with
  | O => stuck
  | S fuel =>
      fd ← getfd;
      b ← lift (slice p nn (chunk_end fd p nn));
      r ← sys (SysPwrite (Sysfd fd) b (i64 (off + nn)));
      if failed r EINTR then Pwrite_loop fuel p off nn
      else
        let nn := if r_n r >? 0 then nn + r_n r else nn in
        if nn =? len p then mret (nn, err_of (r_err r))
        else
          match r_err r with
          | Some e => mret (nn, Some (Errno e))
          | None => if r_n r =? 0 then mret (nn, Some ErrUnexpectedEOF) else Pwrite_loop fuel p off nn
          end
  end.
Definition Pwrite fuel p (off : Z) : M W (Z * option ioerror) :=
  with_lock KMisc (λ e, (0, e)) (Pwrite_loop fuel p off 0).
(** The loops of WriteTo and WriteMsg and their variants: the result of the call
    that did not fail, or the last with its error. *)
Fixpoint send_loop fuel (c : Z → syscall) : M W (sysres * option ioerror) :=
  match fuel with
  | O => stuck
  | S fuel =>
      fd ← getfd;
      r ← sys (c (Sysfd fd));
      if failed r EINTR then send_loop fuel c
      else
        o ← again r mode_write;
        match o with
        | None => send_loop fuel c
        | Some err => mret (r, err)
        end
  end.
Definition writeTo_with (f : family) fuel p (sa : sockaddr) : M W (Z * option ioerror) :=
  with_prepared KWrite mode_write (λ e, (0, e))
    (a ← send_loop fuel (λ fd, SysSendto f fd p 0 sa);
     match snd a with Some _ => mret (0, snd a) | None => mret (len p, None) end).
Definition WriteTo := writeTo_with AnyAddr.
Definition WriteToInet4 := writeTo_with Inet4.
Definition WriteToInet6 := writeTo_with Inet6.
Definition writeMsg_with (f : family) fuel p (oob : bytes) (sa : sockaddr) : M W (Z * Z * option ioerror) :=
  with_prepared KWrite mode_write (λ e, (0, 0, e))
    (a ← send_loop fuel (λ fd, SysSendmsgN f fd p oob sa 0);
     match snd a with
     | Some _ => mret (r_n (fst a), 0, snd a)
     | None => mret (r_n (fst a), len oob, None)
     end).
Definition WriteMsg := writeMsg_with AnyAddr.
Definition WriteMsgInet4 := writeMsg_with Inet4.
Definition WriteMsgInet6 := writeMsg_with Inet6.
Definition WriteOnce fuel p : M W (Z * option ioerror) :=
  with_lock KWrite (λ e, (0, e))
    (fd ← getfd;
     r ← ignoringEINTR fuel (SysWrite (Sysfd fd) p); mret (r_n r, err_of (r_err r))).
Definition WaitWrite : M W (option ioerror) := wait mode_write.

(** ** writev.go, fd.go *)
(** consume. *)
Fixpoint consume (v : list bytes) (n : Z) : res (list bytes) :=
  match v with
  | [] => Ok []
  | b :: v' =>
      let ln0 := len b in
      if ln0 >? n then b ← from b n; Ok (b :: v') else consume v' (n - ln0)
  end.
Definition maxVec : nat := 1024.
(** The slices handed to writev: [k] are collected already. *)
Fixpoint gather (fd : FD) (v : list bytes) (k : nat) : list bytes :=
  match v with
  | [] => []
  | chunk :: v =>
      if len chunk =? 0 then gather fd v k
      else if IsStream fd && (len chunk >? maxRW) then [take (Z.to_nat maxRW) chunk]
      else chunk :: (if (S k =? maxVec)%nat then [] else gather fd v (S k))
  end.
(** The wrapper [writev] of the system call; the count is a uintptr, and
    [^uintptr(0)] counts as 0. *)
Definition wrote (r : sysres) : Z := let w := u64 (r_n r) in if w =? max64 then 0 else w.
Fixpoint Writev_loop fuel (v : list bytes) (n : Z) : M W (Z * option ioerror * list bytes) :=
  match fuel with
  | O => stuck
  | S fuel =>
      fd ← getfd;
      match v with
      | [] => mret (n, None, v)
      | _ =>
          let iovecs := gather fd v 0 in
          match iovecs with
          | [] => mret (n, None, v)
          | _ =>
              r ← ignoringEINTR fuel (SysWritev (Sysfd fd) iovecs);
              let n := i64 (n + i64 (wrote r)) in
              v ← lift (consume v (i64 (wrote r)));
              match r_err r with
              | Some e =>
                  if e =? EINTR then Writev_loop fuel v n
                  else if e =? EAGAIN then
                    err ← wait mode_write;
                    match err with None => Writev_loop fuel v n | Some _ => mret (n, err, v) end
                  else mret (n, Some (Errno e), v)
              | None => if n =? 0 then mret (n, Some ErrUnexpectedEOF, v) else Writev_loop fuel v n
              end
          end
      end
  end.
(** [v] is updated in place: the last result is what is left of it. *)
Definition Writev fuel (v : list bytes) : M W (Z * option ioerror * list bytes) :=
  with_prepared KWrite mode_write (λ e, (0, e, v)) (Writev_loop fuel v 0).

(** ** sendfile_linux.go *)
Definition maxSendfileSize : Z := 4 * 2 ^ 20.
Fixpoint SendFile_loop fuel (src remain written : Z) : M W (Z * option ioerror * bool) :=
  match fuel with
  | O => stuck
  | S fuel =>
      if remain >? 0 then
        fd ← getfd;
        let n := if maxSendfileSize >? remain then remain else maxSendfileSize in
        r ← sys (SysSendfile (Sysfd fd) src n);
        let '(written, remain) :=
          if r_n r >? 0 then (written + r_n r, remain - r_n r) else (written, remain) in
        if (r_n r =? 0) && bool_decide (r_err r = None) then mret (written, None, true)
        else
          match r_err r with
          | Some e =>
              if e =? EINTR then SendFile_loop fuel src remain written
              else if e =? EAGAIN then
                err ← wait mode_write;
                match err with
                | None => SendFile_loop fuel src remain written
                | Some _ => mret (written, err, false)
                end
              else mret (written, Some (Errno e), false)
          | None => SendFile_loop fuel src remain written
          end
      else mret (written, None, true)
  end.
Definition SendFile fuel (src remain : Z) : M W (Z * option ioerror * bool) :=
  with_prepared KWrite mode_write (λ e, (0, e, false)) (SendFile_loop fuel src remain 0).

(** ** Accepting, duplicating and controlling *)
Definition fallback (r : sysres) : bool :=
  failed r ENOSYS || failed r EINVAL || failed r EACCES || failed r EFAULT.
Definition SOCK_NONBLOCK_CLOEXEC : Z := Z.lor (2 ^ 11) (2 ^ 19).
(** sock_cloexec.go: accept. *)
Definition accept (s : Z) : M W (Z * sockaddr * bytes * option Z) :=
  r ← sys (SysAccept4 s SOCK_NONBLOCK_CLOEXEC);
  if bool_decide (r_err r = None) then mret (r_n r, r_sa r, [], None)
  else if negb (fallback r) then mret (-1, r_sa r, "accept4"%go, r_err r)
  else
    r ← sys (SysAccept s);
    match r_err r with
    | Some _ => mret (-1, None, "accept"%go, r_err r)
    | None =>
        _ ← sys (SysControl (r_n r) CtlCloseOnExec);
        c ← sys (SysControl (r_n r) (CtlSetNonblock true));
        match r_err c with
        | Some _ => _ ← sys (SysClose (r_n r)); mret (-1, None, "setnonblock"%go, r_err c)
        | None => mret (r_n r, r_sa r, [], None)
        end
    end.
Fixpoint Accept_loop fuel : M W (Z * sockaddr * bytes * option ioerror) :=
  match fuel with
  | O => stuck
  | S fuel =>
      fd ← getfd;
      a ← accept (Sysfd fd);
      let '(s, rsa, errcall, err) := (a : Z * sockaddr * bytes * option Z) in
      match err with
      | None => mret (s, rsa, [], None)
      | Some e =>
          if e =? EINTR then Accept_loop fuel
          else if e =? EAGAIN then
            if pollable fd then
              err ← wait mode_read;
              match err with None => Accept_loop fuel | Some _ => mret (-1, None, errcall, err) end
            else mret (-1, None, errcall, Some (Errno e))
          else if e =? ECONNABORTED then Accept_loop fuel
          else mret (-1, None, errcall, Some (Errno e))
      end
  end.
Definition Accept fuel : M W (Z * sockaddr * bytes * option ioerror) :=
  with_prepared KRead mode_read (λ e, (-1, None, [], e)) (Accept_loop fuel).

Definition F_DUPFD_CLOEXEC : Z := 1030.
Definition dupCloseOnExecOld (fd : Z) : M W (Z * bytes * option ioerror) :=
  r ← sys (SysDup fd);
  match r_err r with
  | Some e => mret (-1, "dup"%go, Some (Errno e))
  | None => _ ← sys (SysControl (r_n r) CtlCloseOnExec); mret (r_n r, [], None)
  end.
(** [unsupported]: the flag dupCloexecUnsupported, returned as it is left. *)
Definition DupCloseOnExec (unsupported : bool) (fd : Z) : M W (Z * bytes * option ioerror * bool) :=
  if negb unsupported then
    r ← sys (SysFcntl fd F_DUPFD_CLOEXEC 0);
    match r_err r with
    | None => mret (r_n r, [], None, unsupported)
    | Some e =>
        if (e =? EINVAL) || (e =? ENOSYS) then a ← dupCloseOnExecOld fd; mret (a, true)
        else mret (-1, "fcntl"%go, Some (Errno e), unsupported)
    end
  else a ← dupCloseOnExecOld fd; mret (a, unsupported).
Definition Dup (unsupported : bool) : M W (Z * bytes * option ioerror * bool) :=
  with_lock KMisc (λ e, (-1, [], e, unsupported))
    (fd ← getfd; DupCloseOnExec unsupported (Sysfd fd)).
(** The operations that are one system call under a reference; [retry]: in
    ignoringEINTR. *)
Definition controlled (retry : option nat) (c : control) : M W (Z * option ioerror) :=
  with_lock KMisc (λ e, (match c with CtlSeek _ _ => 0 | _ => -1 end, e))
    (fd ← getfd;
     r ← (match retry with
          | Some fuel => ignoringEINTR fuel (SysControl (Sysfd fd) c)
          | None => sys (SysControl (Sysfd fd) c)
          end);
     mret (r_n r, err_of (r_err r))).
Definition only_error (m : M W (Z * option ioerror)) : M W (option ioerror) := a ← m; mret (snd a).
Definition Fchmod fuel mode := only_error (controlled (Some fuel) (CtlFchmod mode)).
Definition Fstat fuel := only_error (controlled (Some fuel) CtlFstat).
Definition Fchown fuel uid gid := only_error (controlled (Some fuel) (CtlFchown uid gid)).
Definition Ftruncate fuel size := only_error (controlled (Some fuel) (CtlFtruncate size)).
Definition Fsync fuel := only_error (controlled (Some fuel) CtlFsync).
Definition Fchdir := only_error (controlled None CtlFchdir).
Definition Seek offset whence := controlled None (CtlSeek offset whence).
Definition Shutdown how := only_error (controlled None (CtlShutdown how)).
Definition SetsockoptInt level name arg := only_error (controlled None (CtlSetsockoptInt level name arg)).
Definition SetsockoptByte level name arg := only_error (controlled None (CtlSetsockoptByte level name arg)).
Definition SetsockoptInet4Addr level name arg :=
  only_error (controlled None (CtlSetsockoptInet4Addr level name arg)).
Definition SetsockoptLinger level name l := only_error (controlled None (CtlSetsockoptLinger level name l)).
Definition SetsockoptIPMreqn level name mreq := only_error (controlled None (CtlSetsockoptIPMreqn level name mreq)).
Definition SetsockoptIPMreq level name mreq := only_error (controlled None (CtlSetsockoptIPMreq level name mreq)).
Definition SetsockoptIPv6Mreq level name mreq := only_error (controlled None (CtlSetsockoptIPv6Mreq level name mreq)).
Definition GetsockoptInt level name := controlled None (CtlGetsockoptInt level name).
End Ops.
