(* ===== verification/FdUnixSpec.v ===== *)
(** * internal/poll: what is relied on, and a calculus for the operations

    [Kernel] is what the operations rely on of their environment; [wp] says of a
    run that it does not panic and ends as told, if its fuel suffices. *)
From S2P Require Import Prelude FdMutex FdUnix.

(** ** What is relied on *)
Definition counted (r : sysres) (l : Z) : Prop :=
  match r_err r with None => 0 <= r_n r <= l | Some _ => r_n r = -1 end.
(** What the manual says of the calls that count: a successful one moves no more
    than it was asked to, a failed one returns -1. *)
Definition sys_ok (c : syscall) (r : sysres) : Prop :=
  match c with
  | SysRead _ l | SysPread _ l _ | SysRecvfrom _ _ l _ | SysReadDirent _ l | SysSendfile _ _ l => counted r l
  | SysWrite _ p | SysPwrite _ p _ => counted r (len p)
  | SysWritev _ iovecs => counted r (len (concat iovecs))
  | _ => True
  end.
(** The answers after which the loops try again. *)
Definition retried (r : sysres) : bool := failed r EINTR || failed r EAGAIN || failed r ECONNABORTED.

Class Kernel (W : Type) {E : Env W} : Type :=
  { reset_code m w : 0 <= fst (pollReset m w) <= 3;     (* netpollcheckerr *)
    wait_code m w : 0 <= fst (pollWait m w) <= 3;
    sys_contract c w : sys_ok c (fst (dosys c w));
    (* it does not put a call off for ever: a bound on how often it still will *)
    patience : W → nat;
    pat_acquire k w : (patience (snd (acquire k w)) <= patience w)%nat;
    pat_release k w : (patience (snd (release k w)) <= patience w)%nat;
    pat_reset m w : (patience (snd (pollReset m w)) <= patience w)%nat;
    pat_wait m w : (patience (snd (pollWait m w)) <= patience w)%nat;
    pat_pollClose w : (patience (pollClose w) <= patience w)%nat;
    pat_deadline d m w : (patience (pollSetDeadline d m w) <= patience w)%nat;
    pat_csemrelease w : (patience (csemrelease w) <= patience w)%nat;
    pat_sys c w : (patience (snd (dosys c w)) + (if retried (fst (dosys c w)) then 1 else 0) <= patience w)%nat;
    pat_user fd w : (patience (snd (user fd w)) + (if fst (user fd w) then 0 else 1) <= patience w)%nat }.

(** ** The calculus *)
(** [total]: the fuel is known to suffice. *)
Definition wp {W A} (total : bool) (m : M W A) (s : st W) (Q : A → st W → list event → Prop) : Prop :=
  match m s with
  | Ok (a, s') => ∃ new, trace s' = trace s ++ new ∧ Q a s' new
  | Panic [] => total = false
  | _ => False
  end.

Section Rules.
Context {W : Type} {E : Env W}.
Implicit Types (s : st W) (t : bool).

Lemma wp_ret {A} t (a : A) s Q : Q a s [] → wp t (mret a) s Q.
Proof. intros H. exists []. by rewrite app_nil_r. Qed.
Lemma wp_bind {A B} t (m : M W A) (k : A → M W B) s Q :
  wp t m s (λ a s' new, wp t (k a) s' (λ b s'' new', Q b s'' (new ++ new'))) →
  wp t (x ← m; k x) s Q.
Proof.
  unfold wp, mbind, M_bind. destruct (m s) as [[a s']|e|p]; [|done|done].
  intros (new&E1&H). destruct (k a s') as [[b s'']|e|p]; [|done|done].
  destruct H as (new'&E2&H). exists (new ++ new'). by rewrite E2, E1, app_assoc.
Qed.
Lemma wp_mono {A} t (m : M W A) s (Q Q' : A → st W → list event → Prop) :
  wp t m s Q → (∀ a s' new, Q a s' new → Q' a s' new) → wp t m s Q'.
Proof.
  unfold wp. destruct (m s) as [[a s']|e|p]; [|done|done]. intros (new&E1&H) HQ. exists new. auto.
Qed.
Lemma wp_getfd t s (Q : FD → st W → list event → Prop) : Q (fds s) s [] → wp t getfd s Q.
Proof. intros H. exists []. by rewrite app_nil_r. Qed.
Lemma wp_modfd t f s (Q : unit → st W → list event → Prop) :
  Q tt (St (f (fds s)) (env s) (trace s)) [] → wp t (modfd f) s Q.
Proof. intros H. exists []. by rewrite app_nil_r. Qed.
Lemma wp_ask {A} t (f : W → A * W) (ev : A → event) s Q :
  (let a := fst (f (env s)) in let w := snd (f (env s)) in
   Q a (St (fds s) w (trace s ++ [ev a])) [ev a]) → wp t (ask f ev) s Q.
Proof. unfold wp, ask. destruct (f (env s)) as [a w]. intros H. by exists [ev a]. Qed.
Lemma wp_lift {A} t (r : res A) a s Q : r = Ok a → Q a s [] → wp t (lift r) s Q.
Proof. intros -> H. exists []. by rewrite app_nil_r. Qed.
Lemma wp_stuck {A} t s (Q : A → st W → list event → Prop) : t = false → wp t stuck s Q.
Proof. done. Qed.
(** What a run that ended says. *)
Lemma wp_run {A} t (m : M W A) s Q a s' : wp t m s Q → m s = Ok (a, s') →
  ∃ new, trace s' = trace s ++ new ∧ Q a s' new.
Proof. unfold wp. intros H E1. by rewrite E1 in H. Qed.
Lemma wp_total {A} (m : M W A) s Q : wp true m s Q →
  ∃ a s' new, m s = Ok (a, s') ∧ trace s' = trace s ++ new ∧ Q a s' new.
Proof.
  unfold wp. destruct (m s) as [[a s']|e|[|]]; [|done..]. intros (new&E1&H). by exists a, s', new.
Qed.
End Rules.

(** Symbolic execution: down to what is left to show of the result. *)
Ltac wp_step :=
  lazymatch goal with
  | |- wp _ (mbind _ _) _ _ => apply wp_bind
  | |- wp _ (mret _) _ _ => apply wp_ret
  | |- wp _ getfd _ _ => apply wp_getfd
  | |- wp _ (modfd _) _ _ => apply wp_modfd
  | |- wp _ (sys _) _ _ => unfold sys; apply wp_ask; cbv zeta
  | |- wp _ (tell _ _) _ _ => unfold tell; apply wp_ask; cbv zeta
  | |- wp _ (ask _ _) _ _ => apply wp_ask; cbv zeta
  | |- wp _ stuck _ _ => apply wp_stuck
  end; cbn [fds env trace app fst snd].
Ltac wp_go := repeat wp_step.

(** An error of the poller, not of a system call. *)
Definition poll_error (e : ioerror) : Prop :=
  match e with ErrNetClosing | ErrFileClosing | ErrDeadlineExceeded | ErrNotPollable | ErrWaitUnsupported => True | _ => False end.
Definition interrupted (c : syscall) (e : event) : Prop := ∃ r, e = ESys c r ∧ sys_ok c r ∧ r_err r = Some EINTR.
Definition waiting (mode : Z) (e : event) : Prop := ∃ code, e = EWait mode code.
Definition resetting (mode : Z) (e : event) : Prop := ∃ code, e = EReset mode code.

Section Calls.
Context {W : Type} {E : Env W} {K : Kernel W}.
Implicit Types (s : st W) (t : bool) (fuel : nat).
Definition pat s : nat := patience (env s).
(** [s'] is [s] after some calls that leave the descriptor alone. *)
Definition later s s' : Prop := fds s' = fds s ∧ (pat s' <= pat s)%nat.

Lemma failed_true r e : failed r e = true ↔ r_err r = Some e.
Proof. apply bool_decide_eq_true. Qed.
Lemma failed_false r e : failed r e = false ↔ r_err r ≠ Some e.
Proof. apply bool_decide_eq_false. Qed.
Lemma retried_EINTR r : r_err r = Some EINTR → retried r = true.
Proof. intros H. unfold retried. by rewrite (proj2 (failed_true _ _) H). Qed.
Lemma retried_EAGAIN r : r_err r = Some EAGAIN → retried r = true.
Proof. intros H. unfold retried. rewrite (proj2 (failed_true r EAGAIN) H). by rewrite orb_true_r. Qed.

Lemma wp_sys t c s Q :
  (∀ r w, sys_ok c r → (patience w + (if retried r then 1 else 0) <= pat s)%nat →
     Q r (St (fds s) w (trace s ++ [ESys c r])) [ESys c r]) →
  wp t (sys c) s Q.
Proof. intros H. unfold sys. apply wp_ask. cbv zeta. apply H; [apply sys_contract|apply pat_sys]. Qed.
(** An answer the environment can give. *)
Definition possible (c : syscall) (r : sysres) : Prop := ∃ w, r = fst (dosys c w).
Lemma wp_EINTR t c s Q : ∀ fuel, (t = true → (pat s < fuel)%nat) →
  (∀ r w pre, possible c r → sys_ok c r → r_err r ≠ Some EINTR →
     (patience w + (if retried r then 1 else 0) <= pat s)%nat → Forall (interrupted c) pre →
     Q r (St (fds s) w (trace s ++ pre ++ [ESys c r])) (pre ++ [ESys c r])) →
  wp t (ignoringEINTR fuel c) s Q.
Proof.
  intros fuel. revert s Q. induction fuel as [|fuel IH]; intros s Q Hf H; cbn [ignoringEINTR].
  { apply wp_stuck. destruct t; [specialize (Hf eq_refl); lia|done]. }
  wp_step. unfold sys. wp_step. pose proof (sys_contract c (env s)) as Hc. pose proof (pat_sys c (env s)) as Hp.
  assert (Hpos : possible c (fst (dosys c (env s)))) by by eexists.
  destruct (dosys c (env s)) as [r w]. cbn [fst snd] in *. fold (pat s) in Hp. destruct (failed r EINTR) eqn:Ei.
  - apply failed_true in Ei. rewrite (retried_EINTR _ Ei) in Hp.
    apply IH; [unfold pat in *; cbn [env]; intros Ht; specialize (Hf Ht); lia|].
    intros r' w' pre Hps' Hc' He Hp' Hpre. cbn [fds trace]. rewrite <- app_assoc. apply (H r' w' (ESys c r :: pre)); try done.
    + unfold pat in *. cbn [env] in Hp'. lia.
    + constructor; [|done]. by exists r.
  - apply wp_ret. cbn [app]. apply (H r w []); try done. by apply failed_false.
Qed.
Lemma wp_convertErr t code f s Q : 0 <= code <= 3 →
  (∀ o, (o = None ↔ code = 0) → (∀ e, o = Some e → poll_error e) → Q o s []) →
  wp t (convertErr code f) s Q.
Proof.
  intros Hc H. unfold convertErr.
  destruct (Z.eqb_spec code 0); [apply wp_ret, H; done|].
  destruct (Z.eqb_spec code 1); [apply wp_ret, H; [done|intros ? [= <-]; by destruct f]|].
  destruct (Z.eqb_spec code 2); [apply wp_ret, H; [done|by intros ? [= <-]]|].
  destruct (Z.eqb_spec code 3); [apply wp_ret, H; [done|by intros ? [= <-]]|lia].
Qed.
(** What prepareRead and waitRead and the like can do. *)
Lemma wp_prepare t mode s Q :
  (∀ o s' new, later s s' → trace s' = trace s ++ new → Forall (resetting mode) new →
     (∀ e, o = Some e → poll_error e) → Q o s' new) →
  wp t (prepare mode) s Q.
Proof.
  intros H. unfold prepare. wp_step. wp_step. destruct (runtimeCtx (fds s) =? 0).
  - apply wp_ret. apply H; [by split|by rewrite app_nil_r|constructor|done].
  - wp_step. wp_step. apply wp_convertErr; [apply reset_code|]. intros o _ Ho.
    apply H; [by split; [|apply pat_reset]|done| |done]. repeat constructor. by eexists.
Qed.
Lemma wp_wait t mode s Q :
  (∀ o s' new, later s s' → trace s' = trace s ++ new → Forall (waiting mode) new →
     (∀ e, o = Some e → poll_error e) → (o = None → pollable (fds s) = true) → Q o s' new) →
  wp t (wait mode) s Q.
Proof.
  intros H. unfold wait. wp_step. wp_step. destruct (Z.eqb_spec (runtimeCtx (fds s)) 0) as [E0|E0].
  - apply wp_ret. apply H; [by split|by rewrite app_nil_r|constructor|by intros ? [= <-]|done].
  - wp_step. wp_step. apply wp_convertErr; [apply wait_code|]. intros o _ Ho.
    apply H; [by split; [|apply pat_wait]|done| |done|]. { repeat constructor. by eexists. }
    intros _. unfold pollable. by rewrite (proj2 (Z.eqb_neq _ _) E0).
Qed.
(** What the poller's codes mean: no error, closing, deadline, not pollable. *)
Definition poll_err (isFile : bool) (code : Z) : option ioerror :=
  mjoin ([None; Some (errClosing isFile); Some ErrDeadlineExceeded; Some ErrNotPollable] !! Z.to_nat code).
Lemma poll_err_error f code e : poll_err f code = Some e → poll_error e.
Proof.
  unfold poll_err. destruct (Z.to_nat code) as [|[|[|[|[]]]]]; cbn; try done; intros [= <-]; [by destruct f|done..].
Qed.
Lemma wp_convertErr_code t code f s Q : 0 <= code <= 3 → Q (poll_err f code) s [] → wp t (convertErr code f) s Q.
Proof.
  intros Hc H. unfold convertErr.
  destruct (Z.eqb_spec code 0) as [->|]; [by apply wp_ret|].
  destruct (Z.eqb_spec code 1) as [->|]; [by apply wp_ret|].
  destruct (Z.eqb_spec code 2) as [->|]; [by apply wp_ret|].
  destruct (Z.eqb_spec code 3) as [->|]; [by apply wp_ret|lia].
Qed.
Lemma wp_prepare_code t mode s Q :
  (pollable (fds s) = false → Q None s []) →
  (∀ code s', later s s' → trace s' = trace s ++ [EReset mode code] →
     Q (poll_err (isFile (fds s)) code) s' [EReset mode code]) →
  wp t (prepare mode) s Q.
Proof.
  intros H0 H. unfold prepare. wp_step. wp_step. destruct (Z.eqb_spec (runtimeCtx (fds s)) 0) as [E0|E0].
  { apply wp_ret. apply H0. unfold pollable. by rewrite E0. }
  wp_step. wp_step. apply wp_convertErr_code; [apply reset_code|]. apply H; [by split; [|apply pat_reset]|done].
Qed.
Lemma wp_again_code t r mode s Q :
  (∀ s', s' = s → (r_err r = Some EAGAIN → pollable (fds s) = false) → Q (Some (err_of (r_err r))) s' []) →
  (∀ code s', later s s' → trace s' = trace s ++ [EWait mode code] → r_err r = Some EAGAIN →
     Q (match poll_err (isFile (fds s)) code with None => None | Some e => Some (Some e) end) s' [EWait mode code]) →
  wp t (again r mode) s Q.
Proof.
  intros H0 H. unfold again. wp_step. wp_step. destruct (failed r EAGAIN) eqn:Ef; cbn [andb].
  2: { apply wp_ret. apply H0; [done|]. intros Hx. by apply failed_false in Ef. }
  apply failed_true in Ef. destruct (Z.eqb_spec (runtimeCtx (fds s)) 0) as [E0|E0].
  { assert (Ep : pollable (fds s) = false) by (unfold pollable; by rewrite E0).
    rewrite Ep. apply wp_ret. by apply H0. }
  assert (Ep : pollable (fds s) = true) by (unfold pollable; by rewrite (proj2 (Z.eqb_neq _ _) E0)).
  rewrite Ep. wp_step. unfold wait. wp_step. wp_step.
  rewrite (proj2 (Z.eqb_neq _ _) E0). wp_step. wp_step. apply wp_convertErr_code; [apply wait_code|].
  apply wp_ret. apply H; [by split; [|apply pat_wait]|done|done].
Qed.
(** The end of a round: [None], after waiting for an EAGAIN, or the outcome. *)
Definition verdict (fd : FD) (r : sysres) (o : option (option ioerror)) : Prop :=
  match o with
  | None => r_err r = Some EAGAIN
  | Some None => r_err r = None
  | Some (Some e) => poll_error e ∨ ∃ n, e = Errno n ∧ r_err r = Some n ∧ (n = EAGAIN → pollable fd = false)
  end.
Lemma wp_again t r mode s Q :
  (∀ o s' new, later s s' → trace s' = trace s ++ new → Forall (waiting mode) new → verdict (fds s) r o → Q o s' new) →
  wp t (again r mode) s Q.
Proof.
  intros H. unfold again. wp_step. wp_step.
  assert (Hdone : (r_err r = Some EAGAIN → pollable (fds s) = false) →
    wp t (mret (Some (err_of (r_err r)))) s (λ b s'' new', Q b s'' ([] ++ new'))).
  { intros Hn. apply wp_ret. apply H; [by split|by rewrite app_nil_r|constructor|].
    unfold verdict, err_of. destruct (r_err r) as [n|]; cbn; [|done]. right. exists n.
    split; [done|]. split; [done|]. intros ->. by apply Hn. }
  destruct (failed r EAGAIN) eqn:Ef; cbn [andb]; cycle 1.
  { apply Hdone. intros Hx. by apply failed_false in Ef. }
  apply failed_true in Ef. destruct (pollable (fds s)) eqn:Ep; [|by apply Hdone].
  wp_step. apply wp_wait. intros o s' new Hl Et Hw He _. apply wp_ret. rewrite app_nil_r.
  apply H; [done|done|done|]. destruct o as [e|]; cbn; [left; by apply He|done].
Qed.

(** ** Parking *)
(** On a descriptor the poller knows, a call that would block is followed by
    waiting for the poller. *)
Fixpoint parks (fd : FD) (mode : Z) (tr : list event) : Prop :=
  match tr with
  | [] => True
  | ESys _ r :: tr =>
      (r_err r = Some EAGAIN → pollable fd = true → ∃ code rest, tr = EWait mode code :: rest) ∧ parks fd mode tr
  | _ :: tr => parks fd mode tr
  end.
Lemma parks_app fd mode a b : parks fd mode a → parks fd mode b → parks fd mode (a ++ b).
Proof.
  intros Ha Hb. induction a as [|e a IH]; [done|]. destruct e; cbn [parks app] in *; auto.
  destruct Ha as [H1 H2]. split; [|auto]. intros He Hp. destruct (H1 He Hp) as (code&rest&->). by eexists _, _.
Qed.
Lemma parks_none fd mode (P : event → Prop) tr :
  (∀ e, P e → match e with ESys _ r => r_err r ≠ Some EAGAIN | _ => True end) → Forall P tr → parks fd mode tr.
Proof.
  intros HP HF. induction HF as [|e tr He _ IH]; [done|]. specialize (HP e He).
  destruct e; cbn [parks] in *; try done.
Qed.
Lemma parks_interrupted fd mode c tr : Forall (interrupted c) tr → parks fd mode tr.
Proof. apply parks_none. by intros e (r&->&_&->). Qed.
Lemma parks_unpollable fd mode tr : pollable fd = false → parks fd mode tr.
Proof. intros H. induction tr as [|[] tr IH]; cbn [parks]; try done. by rewrite H. Qed.
(** Before it moves anything an operation asks the poller whether it may. *)
Definition prepared (fd : FD) (mode : Z) (mid : list event) : Prop :=
  mid ≠ [] → pollable fd = true → ∃ code rest, mid = EReset mode code :: rest.
Lemma prepared_nil fd mode : prepared fd mode [].
Proof. by intros []. Qed.

(** ** The lock *)
(** The calls of a release, and of the destruction it may entail. *)
Definition released_with (k : kind) (fd fd' : FD) (tail : list event) : Prop :=
  (tail = [ERelease k false] ∧ fd' = fd) ∨
  ∃ r, tail = ERelease k true :: (if pollable fd then [EPollClose] else []) ++
                [ESys (SysClose (Sysfd fd)) r; ESemrelease] ∧
       fd' = set_Sysfd (-1) (set_runtimeCtx 0 fd).
(** The calls of an operation under a lock or a reference: [mid] in between. *)
Definition bracketed (k : kind) (fd fd' : FD) (mid new : list event) : Prop :=
  (new = [EAcquire k false] ∧ mid = [] ∧ fd' = fd) ∨
  ∃ tail, new = EAcquire k true :: mid ++ tail ∧ released_with k fd fd' tail.
Lemma wp_release t k s Q :
  (∀ o s' tail, released_with k (fds s) (fds s') tail → (pat s' <= pat s)%nat → Q o s' tail) →
  wp t (fd_release k) s Q.
Proof.
  intros H. unfold fd_release, destroy, pd_close. wp_step. wp_step.
  set (w := snd (release k (env s))). assert (Hw : (patience w <= pat s)%nat) by apply pat_release.
  clearbody w. destruct (fst (release k (env s))).
  - wp_step. wp_step. wp_step. assert (Hend : ∀ w' tr pre, (patience w' <= pat s)%nat →
      pre = (if pollable (fds s) then [EPollClose] else []) →
      wp t (fd ← getfd; r ← sys (SysClose (Sysfd fd)); _ ← modfd (set_Sysfd (-1)); _ ← tell csemrelease ESemrelease; mret (err_of (r_err r)))
        (St (set_runtimeCtx 0 (fds s)) w' tr) (λ b s'' new', Q b s'' (ERelease k true :: pre ++ new'))).
    { intros w' tr pre Hp ->. wp_step. wp_step. wp_step. apply wp_sys. intros r w2 _ Hp2. unfold pat in Hp2. cbn [env] in Hp2. wp_go.
      apply H; [right; exists r; split; [done|by destruct (fds s)]|].
      unfold pat. cbn [env]. pose proof (pat_csemrelease w2). unfold pat in *. lia. }
    destruct (Z.eqb_spec (runtimeCtx (fds s)) 0) as [E0|E0].
    + apply wp_ret. cbn [app].
      replace (fds s) with (set_runtimeCtx 0 (fds s)) at 1 by (destruct (fds s); cbn in *; by subst).
      apply (Hend w _ []); [done|]. unfold pollable. by rewrite E0.
    + wp_step. wp_step. wp_step. apply (Hend _ _ [EPollClose]); [pose proof (pat_pollClose w); lia|].
      unfold pollable. by rewrite (proj2 (Z.eqb_neq _ _) E0).
  - apply wp_ret. apply H; [by left|done].
Qed.
Lemma wp_with_lock {A} t k fail (body : M W A) s Q :
  (∀ w, (patience w <= pat s)%nat →
     Q (fail (Some (errClosing (isFile (fds s))))) (St (fds s) w (trace s ++ [EAcquire k false])) [EAcquire k false]) →
  (∀ w, (patience w <= pat s)%nat →
     wp t body (St (fds s) w (trace s ++ [EAcquire k true])) (λ a s1 mid, ∀ s' tail,
       released_with k (fds s1) (fds s') tail → (pat s' <= pat s1)%nat →
       Q a s' (EAcquire k true :: mid ++ tail))) →
  wp t (with_lock k fail body) s Q.
Proof.
  intros H1 H2. unfold with_lock, fd_acquire. wp_go.
  set (w := snd (acquire k (env s))). assert (Hw : (patience w <= pat s)%nat) by apply pat_acquire.
  clearbody w. destruct (fst (acquire k (env s))); cbn [negb].
  - wp_step. eapply wp_mono; [by apply H2|]. intros a s1 mid H. cbn [app]. wp_step. apply wp_release.
    intros o s' tail Hr Hp. apply wp_ret. rewrite app_nil_r. by apply H.
  - apply wp_ret. cbn [app]. by apply H1.
Qed.
Lemma wp_with_prepared {A} t k mode fail (body : M W A) s Q :
  (∀ w, (patience w <= pat s)%nat →
     Q (fail (Some (errClosing (isFile (fds s))))) (St (fds s) w (trace s ++ [EAcquire k false])) [EAcquire k false]) →
  (∀ e s1 s' mid tail, poll_error e → Forall (resetting mode) mid → fds s1 = fds s →
     released_with k (fds s1) (fds s') tail → (pat s' <= pat s)%nat →
     Q (fail (Some e)) s' (EAcquire k true :: mid ++ tail)) →
  (∀ s0 pre, fds s0 = fds s → (pat s0 <= pat s)%nat → Forall (resetting mode) pre →
     wp t body s0 (λ a s1 mid, ∀ s' tail,
       released_with k (fds s1) (fds s') tail → (pat s' <= pat s1)%nat →
       Q a s' (EAcquire k true :: (pre ++ mid) ++ tail))) →
  wp t (with_prepared k mode fail body) s Q.
Proof.
  intros H1 H2 H3. apply wp_with_lock; [done|]. intros w Hw. wp_step.
  apply wp_prepare. intros o s1 pre [Hf Hp] _ Hpre He. unfold pat in Hp. cbn [fds env] in Hf, Hp.
  destruct o as [e|].
  - apply wp_ret. rewrite app_nil_r. intros s' tail Hr Hp'. apply (H2 e s1); try done; [by apply He|].
    unfold pat in *. lia.
  - eapply wp_mono; [apply (H3 s1 pre); [done|unfold pat in *; lia|done]|]. auto.
Qed.
End Calls.
