(* ===== verification/FdUnixIO.v ===== *)
(** * internal/poll: reading and writing *)
From S2P Require Import Prelude FdMutex FdUnix FdUnixSpec Threads.

(** ** What went over the descriptor *)
(** The bytes the kernel took. *)
Definition sent (e : event) : bytes :=
  match e with
  | ESys (SysWrite _ p) r | ESys (SysPwrite _ p _) r => take (Z.to_nat (r_n r)) p
  | ESys (SysWritev _ iovecs) r => take (Z.to_nat (r_n r)) (concat iovecs)
  | _ => []
  end.
Definition all_sent (tr : list event) : bytes := concat (sent <$> tr).
Lemma all_sent_app a b : all_sent (a ++ b) = all_sent a ++ all_sent b.
Proof. unfold all_sent. by rewrite fmap_app, concat_app. Qed.
Lemma all_sent_cons e a : all_sent (e :: a) = sent e ++ all_sent a.
Proof. done. Qed.
Lemma all_sent_none (P : event → Prop) tr : (∀ e, P e → sent e = []) → Forall P tr → all_sent tr = [].
Proof. intros H HF. induction HF as [|e tr He _ IH]; [done|]. by rewrite all_sent_cons, H, IH. Qed.
Lemma sent_waiting m tr : Forall (waiting m) tr → all_sent tr = [].
Proof. apply all_sent_none. by intros e [c ->]. Qed.
Lemma sent_resetting m tr : Forall (resetting m) tr → all_sent tr = [].
Proof. apply all_sent_none. by intros e [c ->]. Qed.
Lemma sent_released k fd fd' tail : released_with k fd fd' tail → all_sent tail = [].
Proof. intros [[-> _]|[r [-> _]]]; [done|]. by destruct (pollable fd). Qed.
Lemma counted_failed r l e : counted r l → r_err r = Some e → Z.to_nat (r_n r) = 0%nat.
Proof. unfold counted. intros H E. rewrite E in H. by rewrite H. Qed.
Lemma sent_interrupted c tr : Forall (interrupted c) tr → all_sent tr = [].
Proof.
  apply all_sent_none. intros e (r&->&Hc&He). destruct c; try done; cbn in *;
    by rewrite (counted_failed _ _ _ Hc He).
Qed.

(** ** Write *)
(** The calls of a write: to the descriptor, in chunks of at most a gigabyte on
    a stream, and waiting for it. *)
Definition write_event (fd : FD) (e : event) : Prop :=
  match e with
  | ESys (SysWrite f b) _ | ESys (SysPwrite f b _) _ => f = Sysfd fd ∧ (IsStream fd = true → len b <= maxRW)
  | EWait m _ | EReset m _ => m = mode_write
  | _ => False
  end.
(** How far a call gets. *)
Definition took (e : event) : Z :=
  match e with ESys (SysWrite _ _) r | ESys (SysPwrite _ _ _) r => Z.max 0 (r_n r) | _ => 0 end.
(** What a call is given when [nn] bytes have gone out: the next of the buffer,
    all the rest or a gigabyte of it on a stream, and for pwrite the offset they
    belong at, [off] being that of the whole. *)
Definition piece (fd : FD) (p : bytes) (nn : Z) (b : bytes) : Prop :=
  b `prefix_of` drop (Z.to_nat nn) p ∧
  len b = (if IsStream fd then Z.min maxRW (len p - nn) else len p - nn).
Definition placed_call (fd : FD) (p : bytes) (off nn : Z) (e : event) : Prop :=
  match e with
  | ESys (SysWrite _ b) _ => piece fd p nn b
  | ESys (SysPwrite _ b o) _ => piece fd p nn b ∧ o = i64 (off + nn)
  | _ => True
  end.
Fixpoint placed (fd : FD) (p : bytes) (off nn : Z) (tr : list event) : Prop :=
  match tr with
  | [] => True
  | e :: tr => placed_call fd p off nn e ∧ placed fd p off (nn + took e) tr
  end.
Lemma placed_app fd p off a b : ∀ nn,
  placed fd p off nn a → placed fd p off (nn + total took a) b → placed fd p off nn (a ++ b).
Proof.
  induction a as [|e a IH]; intros nn; cbn [placed app total].
  - by rewrite Z.add_0_r.
  - intros [H1 H2] H3. split; [done|]. apply IH; [done|]. by rewrite <- Z.add_assoc.
Qed.
(** Calls that write nothing. *)
Lemma placed_none fd p off nn (P : event → Prop) tr : (∀ e, P e → placed_call fd p off nn e ∧ took e = 0) →
  Forall P tr → placed fd p off nn tr ∧ total took tr = 0.
Proof.
  intros HP HF. induction HF as [|e tr He _ [IH1 IH2]]; [done|]. destruct (HP e He) as [H1 H2].
  cbn [placed total]. rewrite H2, Z.add_0_r, IH2. done.
Qed.
Lemma placed_waiting m fd p off nn tr : Forall (waiting m) tr → placed fd p off nn tr ∧ total took tr = 0.
Proof. apply placed_none. by intros e [c ->]. Qed.
Lemma placed_resetting m fd p off nn tr : Forall (resetting m) tr → placed fd p off nn tr ∧ total took tr = 0.
Proof. apply placed_none. by intros e [c ->]. Qed.
Lemma placed_interrupted c fd p off nn tr : (∀ r, placed_call fd p off nn (ESys c r)) →
  Forall (interrupted c) tr → placed fd p off nn tr ∧ total took tr = 0.
Proof.
  intros Hc. apply placed_none. intros e (r&->&Hk&He). split; [apply Hc|]. destruct c; try done; cbn in *;
    unfold counted in Hk; rewrite He in Hk; by rewrite Hk.
Qed.
(** The last call decides the error: the kernel's, the poller's, or that a call
    moved nothing without one. *)
Definition write_concluded (fd : FD) (p : bytes) (nn' : Z) (err : option ioerror) (mid : list event) : Prop :=
  match list.last mid with
  | Some (ESys _ r) =>
      match r_err r with
      | Some e => err = Some (Errno e)
      | None => (nn' = len p ∧ err = None) ∨ (nn' < len p ∧ r_n r = 0 ∧ err = Some ErrUnexpectedEOF)
      end
  | Some (EWait _ code) | Some (EReset _ code) => err = poll_err (isFile fd) code ∧ err ≠ None
  | _ => True
  end.
Lemma last_more {A} (tr mid : list A) : mid ≠ [] → list.last (tr ++ mid) = list.last mid.
Proof. intros H. rewrite last_app. destruct (list.last mid) eqn:E; [done|]. by apply last_None in E. Qed.
(** From [nn] on, [nn'] was reached: what is before it and no more went out, each
    call with the next of the buffer at its place, and all of [p] if there is no
    error. *)
Record written (fd : FD) (p : bytes) (off nn nn' : Z) (err : option ioerror) (new : list event) : Prop :=
  { wr_range : nn <= nn' <= len p;
    wr_sent : all_sent new = drop (Z.to_nat nn) (take (Z.to_nat nn') p);
    wr_placed : placed fd p off nn new;
    wr_parks : p ≠ [] → parks fd mode_write new;
    wr_last : write_concluded fd p nn' err new;
    wr_all : err = None → nn' = len p;
    wr_intr : err ≠ Some (Errno EINTR);
    wr_again : err = Some (Errno EAGAIN) → p = [] ∨ pollable fd = false;
    wr_events : Forall (write_event fd) new }.
Lemma drop_take_step {A} (p : list A) a b c : (a <= b <= c)%nat →
  drop a (take b p) ++ drop b (take c p) = drop a (take c p).
Proof.
  intros H. rewrite <- (take_drop b (take c p)) at 2. rewrite take_take, Nat.min_l by lia.
  destruct (decide (b <= length p)%nat) as [Hb|Hb].
  - rewrite drop_app_le by (rewrite length_take; lia). done.
  - rewrite !(take_ge p) by lia. rewrite (drop_ge p b), !app_nil_r by lia. done.
Qed.
Lemma chunk_slice fd p nn : 0 <= nn <= len p → ∃ b, slice p nn (chunk_end fd p nn) = Ok b ∧
  (IsStream fd = true → len b <= maxRW) ∧ piece fd p nn b ∧
  ∀ n, 0 <= n <= len b → nn + n <= len p ∧ take (Z.to_nat n) b = drop (Z.to_nat nn) (take (Z.to_nat (nn + n)) p).
Proof.
  intros Hn. set (c := chunk_end fd p nn). assert (Hc : nn <= c <= len p ∧ (IsStream fd = true → c - nn <= maxRW) ∧
    c - nn = (if IsStream fd then Z.min maxRW (len p - nn) else len p - nn)).
  { unfold c, chunk_end, maxRW. destruct (IsStream fd); cbn [andb]; [|lia].
    destruct (Z.gtb_spec (len p - nn) (2 ^ 30)); lia. }
  rewrite slice_ok by lia. eexists. split; [done|].
  assert (Hl : len (drop (Z.to_nat nn) (take (Z.to_nat c) p)) = c - nn).
  { unfold len in *. rewrite length_drop, length_take. lia. }
  split; [rewrite Hl; tauto|]. split.
  { split; [|rewrite Hl; tauto]. exists (drop (Z.to_nat c) p).
    rewrite <- (take_drop (Z.to_nat c) p) at 1. rewrite drop_app_le; [done|].
    unfold len in *. rewrite length_take. lia. }
  intros n Hn'. rewrite Hl in Hn'. split; [lia|].
  rewrite take_drop_commute, take_take. f_equal. f_equal. lia.
Qed.

Section IO.
Context {W : Type} {E : Env W} {K : Kernel W}.
Implicit Types (s : st W) (t : bool) (fuel : nat).

(** The part of a round that both write loops share. *)
Lemma written_round fd p off nn n pre c r b : 0 <= nn <= len p → counted r (len b) →
  (∀ m, 0 <= m <= len b → nn + m <= len p ∧ take (Z.to_nat m) b = drop (Z.to_nat nn) (take (Z.to_nat (nn + m)) p)) →
  sent (ESys c r) = take (Z.to_nat (r_n r)) b → (∀ r, write_event fd (ESys c r)) →
  (∀ r, placed_call fd p off nn (ESys c r)) → took (ESys c r) = Z.max 0 (r_n r) →
  Forall (interrupted c) pre →
  n = (if r_n r >? 0 then nn + r_n r else nn) →
  nn <= n <= len p ∧ all_sent (pre ++ [ESys c r]) = drop (Z.to_nat nn) (take (Z.to_nat n) p) ∧
  Forall (write_event fd) (pre ++ [ESys c r]) ∧
  (placed fd p off nn (pre ++ [ESys c r]) ∧ n = nn + total took (pre ++ [ESys c r])) ∧ (r_err r ≠ None → n = nn) ∧ (r_err r = None → r_n r ≠ 0 → nn < n).
Proof.
  intros Hnn Hc Hs Hsent Hev Hpl Htk Hint ->.
  pose proof (sent_interrupted _ _ Hint) as Hpre.
  assert (Hpe : Forall (write_event fd) pre) by (eapply list.Forall_impl; [exact Hint|]; by intros ? (?&->&_)).
  destruct (placed_interrupted _ fd p off nn _ Hpl Hint) as [Hp1 Hp2]. unfold counted in Hc.
  assert (Hn : ∃ m, 0 <= m <= len b ∧ (if r_n r >? 0 then nn + r_n r else nn) = nn + m ∧ Z.to_nat (r_n r) = Z.to_nat m ∧
            (r_err r ≠ None → m = 0) ∧ (r_err r = None → r_n r = m)).
  { pose proof (len_nonneg b). destruct (r_err r).
    - exists 0. rewrite Hc. cbn. split; [lia|]. split; [lia|]. done.
    - exists (r_n r). split; [done|]. destruct (Z.gtb_spec (r_n r) 0); split; try done; lia. }
  destruct Hn as (m&Hm&->&Hz&He&Hok). destruct (Hs m Hm) as [H1 H2]. split; [lia|].
  split; [rewrite all_sent_app, Hpre, all_sent_cons, Hsent, Hz, H2; cbn; by rewrite app_nil_r|].
  split; [apply Forall_app; split; [done|by repeat constructor]|].
  split; [split; [apply placed_app; [done|]; rewrite Hp2, Z.add_0_r; cbn [placed]; by split; [apply Hpl|]
    |rewrite total_app, Hp2; cbn [total]; rewrite Htk; clear -Hz Hm; lia]|].
  split; [intros H; rewrite (He H); lia|].
  intros H H0. rewrite <- (Hok H). rewrite (Hok H) in H0. rewrite (Hok H). lia.
Qed.
Lemma written_more fd p off nn n nn' err new new' : 0 <= nn <= n →
  (p ≠ [] → parks fd mode_write new) → new' ≠ [] →
  placed fd p off nn new ∧ n = nn + total took new →
  all_sent new = drop (Z.to_nat nn) (take (Z.to_nat n) p) → Forall (write_event fd) new →
  written fd p off n nn' err new' → written fd p off nn nn' err (new ++ new').
Proof.
  intros Hn Hpk Hne [Hq1 Hq2] Hs Hf [H1 H2 H3 H4 H5 H6 H7 H8 H9].
  split; [lia| |apply placed_app; [done|by rewrite <- Hq2]|intros Hp; apply parks_app; auto
    |unfold write_concluded; by rewrite last_more|done..|by apply Forall_app].
  rewrite all_sent_app, Hs, H2. apply drop_take_step. lia.
Qed.
Lemma waiting_write fd new : Forall (waiting mode_write) new → Forall (write_event fd) new.
Proof. intros H. eapply list.Forall_impl; [exact H|]. by intros e [c ->]. Qed.
Lemma interrupted_write fd c new : (∀ r, write_event fd (ESys c r)) → Forall (interrupted c) new →
  Forall (write_event fd) new.
Proof. intros Hc H. eapply list.Forall_impl; [exact H|]. by intros e (r&->&_). Qed.

Lemma Write_loop_wp t p off fuel : ∀ nn s Q, 0 <= nn <= len p → nn < len p ∨ p = [] →
  (t = true → (S (pat s + Z.to_nat (len p - nn)) < fuel)%nat) →
  (∀ nn' err s' new, later s s' → new ≠ [] → written (fds s) p off nn nn' err new → Q (nn', err) s' new) →
  wp t (Write_loop fuel p nn) s Q.
Proof.
  induction fuel as [|fuel IH]; intros nn s Q Hnn Hend Hf HQ; cbn [Write_loop].
  { apply wp_stuck. destruct t; [specialize (Hf eq_refl); lia|done]. }
  wp_step. wp_step. wp_step. destruct (chunk_slice (fds s) p nn Hnn) as (b&Eb&Hmax&Hpc&Hb).
  apply (wp_lift t _ b); [done|]. wp_step. apply wp_EINTR; [intros Ht; specialize (Hf Ht); lia|].
  intros r w pre Hps Hc Hi Hp Hpre. set (n := if r_n r >? 0 then nn + r_n r else nn). cbv zeta.
  assert (Hev : ∀ r0, write_event (fds s) (ESys (SysWrite (Sysfd (fds s)) b) r0)) by done.
  destruct (written_round (fds s) p off nn n pre (SysWrite (Sysfd (fds s)) b) r b) as (R1&R2&R3&RP&R4&R5); try done.
  set (c := SysWrite (Sysfd (fds s)) b) in *. pose proof (parks_interrupted (fds s) mode_write _ _ Hpre) as Hpk.
  assert (Hone : (r_err r = Some EAGAIN → pollable (fds s) = false) → parks (fds s) mode_write (pre ++ [ESys c r])).
  { intros Ha. apply parks_app; [done|]. split; [|done]. intros He Hpo. by rewrite Ha in Hpo. }
  assert (Hcon : ∀ err, match r_err r with
      | Some e => err = Some (Errno e)
      | None => (n = len p ∧ err = None) ∨ (n < len p ∧ r_n r = 0 ∧ err = Some ErrUnexpectedEOF)
      end → write_concluded (fds s) p n err (pre ++ [ESys c r])).
  { intros err He. unfold write_concluded. by rewrite last_snoc. }
  cbn [app]. destruct (Z.eqb_spec n (len p)) as [En|En].
  - apply wp_ret. rewrite app_nil_r. apply HQ; [split; [done|unfold pat in *; cbn; lia]|by destruct pre|].
    assert (Hne : r_err r = Some EAGAIN → p = []).
    { intros Er. specialize (R4 ltac:(by rewrite Er)). destruct Hend as [Hlt|]; [lia|done]. }
    split; [done|done|apply RP| | |done| | |done]; unfold err_of.
    + intros Hp0. apply Hone. intros Er. by destruct Hp0; apply Hne.
    + apply Hcon. destruct (r_err r); [done|by left].
    + destruct (r_err r); cbn; [congruence|done].
    + intros Ha. left. apply Hne. destruct (r_err r); cbn in Ha; [|done]. congruence.
  - wp_step.
    assert (Hmore : ∀ s1 new, later s s1 → (new = [] ∧ r_err r ≠ Some EAGAIN ∨ ∃ code, new = [EWait mode_write code]) →
      (pat s1 + Z.to_nat (len p - n) < pat s + Z.to_nat (len p - nn))%nat →
      wp t (Write_loop fuel p n) s1 (λ b' s'' new', Q b' s'' ((pre ++ [ESys c r]) ++ new ++ new'))).
    { intros s1 new [Hf1 Hp1] Hnew Hm. apply IH; [lia|left; lia|intros Ht; specialize (Hf Ht); lia|].
      intros nn' err s' new' [Hf2 Hp2] Hne' Hw. apply HQ; [split; [congruence|unfold pat in *; lia]|by destruct pre|].
      rewrite app_assoc. assert (HF : Forall (waiting mode_write) new).
      { destruct Hnew as [[-> _]|[code ->]]; repeat constructor. by eexists. }
      destruct (placed_waiting _ (fds s) p off n _ HF) as [W1 W2], RP as [RP1 RP2].
      apply (written_more _ p off nn n); [lia| |done| | | |by rewrite <- Hf1].
      - intros _. destruct Hnew as [[-> Hna]|[code ->]]; [rewrite app_nil_r; apply Hone; congruence|].
        rewrite <- app_assoc. apply parks_app; [done|]. cbn. split; [|done]. intros _ _. by eexists _, _.
      - split; [apply placed_app; [done|by rewrite <- RP2]|]. by rewrite total_app, W2, Z.add_0_r.
      - by rewrite all_sent_app, R2, (sent_waiting _ _ HF), app_nil_r.
      - apply Forall_app. split; [done|by apply waiting_write]. }
    apply wp_again_code; cbn [fds env].
    + intros s1 -> Ha. destruct (r_err r) as [e|] eqn:Er; cbn [err_of fmap option_fmap option_map].
      * apply wp_ret. rewrite !app_nil_r. apply HQ; [split; [done|unfold pat in *; cbn; lia]|by destruct pre|].
        split; [done|done|apply RP|by intros _; apply Hone|by apply Hcon|done| | |done]; [congruence|].
        intros [= ->]. right. by apply Ha.
      * destruct (Z.eqb_spec (r_n r) 0) as [E0|E0].
        -- apply wp_ret. rewrite !app_nil_r. apply HQ; [split; [done|unfold pat in *; cbn; lia]|by destruct pre|].
           split; [done|done|apply RP|by intros _; apply Hone|apply Hcon; right; split; [lia|done]|done..].
        -- apply (Hmore _ []); [split; [done|unfold pat in *; cbn; lia]|by left|].
           specialize (R5 eq_refl E0). unfold pat in *. cbn [env]. lia.
    + intros code s1 [Hf1 Hp1] _ Ha. unfold pat in Hp1. cbn [fds env] in *. rewrite (retried_EAGAIN _ Ha) in Hp.
      specialize (R4 ltac:(by rewrite Ha)). destruct (poll_err _ code) as [e|] eqn:Ep.
      * apply wp_ret. rewrite app_nil_r. apply HQ; [split; [done|unfold pat in *; lia]|by destruct pre|].
        pose proof (poll_err_error _ _ _ Ep) as Hpe. destruct RP as [RP1 RP2].
        split; [done| | |intros _| |done|by intros [= ->]|by intros [= ->]|].
        -- by rewrite all_sent_app, R2, app_nil_r.
        -- by apply placed_app.
        -- rewrite <- app_assoc. apply parks_app; [done|]. cbn. split; [|done]. intros _ _. by eexists _, _.
        -- unfold write_concluded. by rewrite last_snoc, Ep.
        -- apply Forall_app. split; [done|by repeat constructor].
      * apply Hmore; [split; [done|unfold pat in *; lia]|right; by eexists|]. unfold pat in *. lia.
Qed.

Lemma Pwrite_loop_wp t p off fuel : ∀ nn s Q, 0 <= nn <= len p → nn < len p ∨ p = [] →
  (t = true → (pat s + Z.to_nat (len p - nn) < fuel)%nat) →
  (∀ nn' err s' new, later s s' → new ≠ [] →
     (∀ fd, fd = set_runtimeCtx 0 (fds s) → written fd p off nn nn' err new) → Q (nn', err) s' new) →
  wp t (Pwrite_loop fuel p off nn) s Q.
Proof.
  induction fuel as [|fuel IH]; intros nn s Q Hnn Hend Hf HQ; cbn [Pwrite_loop].
  { apply wp_stuck. destruct t; [specialize (Hf eq_refl); lia|done]. }
  set (fd := set_runtimeCtx 0 (fds s)) in *.
  wp_step. wp_step. wp_step. destruct (chunk_slice (fds s) p nn Hnn) as (b&Eb&Hmax&Hpc&Hb).
  apply (wp_lift t _ b); [done|]. wp_step. apply wp_sys. intros r w Hc Hp. unfold pat in Hp; cbn [env] in Hp.
  set (n := if r_n r >? 0 then nn + r_n r else nn).
  set (c := SysPwrite (Sysfd (fds s)) b (i64 (off + nn))) in *.
  assert (Hev : ∀ r0, write_event fd (ESys c r0)) by done.
  destruct (written_round fd p off nn n [] c r b) as (R1&R2&R3&RP&R4&R5); try done.
  assert (Hpk : ∀ tr, p ≠ [] → parks fd mode_write tr) by (intros tr _; by apply parks_unpollable). cbn [app] in *.
  assert (Hmore : ∀ m, m = n → 0 <= m <= len p → m < len p ∨ p = [] →
    (patience w + Z.to_nat (len p - m) < pat s + Z.to_nat (len p - nn))%nat →
    wp t (Pwrite_loop fuel p off m) (St (fds s) w (trace s ++ [ESys c r])) (λ b' s'' new', Q b' s'' ([ESys c r] ++ new'))).
  { intros m -> Hm1 Hm2 Hm. apply IH; [done|done|unfold pat in *; intros Ht; specialize (Hf Ht); cbn [env]; lia|].
    intros nn' err s' new' [Hf2 Hp2] Hne Hw. apply HQ; [split; [done|unfold pat in *; cbn [env] in *; lia]|done|].
    intros fd' ->. apply (written_more _ p off nn n); try done; [lia|]. by apply Hw. }
  destruct (failed r EINTR) eqn:Ei.
  - apply failed_true in Ei. rewrite (retried_EINTR _ Ei) in Hp. specialize (R4 ltac:(by rewrite Ei)).
    apply (Hmore nn); [done|done|done|]. unfold pat in *. lia.
  - apply failed_false in Ei. fold n. destruct (Z.eqb_spec n (len p)) as [En|En].
    + apply wp_ret. cbn [app]. apply HQ; [split; [done|unfold pat in *; cbn; lia]|done|]. intros fd' ->.
      split; [done|done|apply RP|apply Hpk| |done| | |done]; unfold err_of, write_concluded; destruct (r_err r) eqn:Er; cbn;
        rewrite ?Er; try done; [by left|congruence|].
      intros _. by right.
    + destruct (r_err r) as [e|] eqn:Er.
      * apply wp_ret. cbn [app]. apply HQ; [split; [done|unfold pat in *; cbn; lia]|done|]. intros fd' ->.
        split; [done|done|apply RP|apply Hpk| |done| | |done]; [unfold write_concluded; cbn; by rewrite Er|congruence|].
        intros _. by right.
      * destruct (Z.eqb_spec (r_n r) 0) as [E0|E0].
        -- apply wp_ret. cbn [app]. apply HQ; [split; [done|unfold pat in *; cbn; lia]|done|]. intros fd' ->.
           split; [done|done|apply RP|apply Hpk| |done..]. unfold write_concluded. cbn. rewrite Er. right. split; [lia|done].
        -- apply (Hmore n); [done|lia|left; lia|]. specialize (R5 eq_refl E0). unfold pat in *. lia.
Qed.

(** A write that did not begin. *)
Lemma written_nothing fd p off e mid : poll_error e → Forall (resetting mode_write) mid →
  (∀ m code, list.last mid = Some (EReset m code) → poll_err (isFile fd) code = Some e) →
  written fd p off 0 0 (Some e) mid.
Proof.
  intros He Hm Hlast. pose proof (len_nonneg p). split; [lia| |apply (placed_resetting _ _ _ _ _ _ Hm)| | |done| | |].
  - by rewrite (sent_resetting _ _ Hm).
  - intros _. eapply parks_none; [|exact Hm]. by intros ? [? ->].
  - unfold write_concluded. destruct (list.last mid) as [e'|] eqn:El; [|done].
    apply last_Some in El as El'. destruct El' as [l' ->]. apply Forall_app in Hm as [_ Hm].
    apply list.Forall_cons in Hm as [[code ->] _]. by rewrite (Hlast _ _ eq_refl).
  - by intros [= ->].
  - by intros [= ->].
  - eapply list.Forall_impl; [exact Hm|]. by intros ? [c ->].
Qed.
Lemma Write_wp t p off fuel s : (t = true → (S (pat s + length p) < fuel)%nat) →
  wp t (Write fuel p) s (λ a s' new, ∃ mid,
    bracketed KWrite (fds s) (fds s') mid new ∧ written (fds s) p off 0 (fst a) (snd a) mid ∧
    prepared (fds s) mode_write mid ∧ (mid = [] → snd a = Some (errClosing (isFile (fds s))))).
Proof.
  intros Hf. unfold Write, with_prepared. apply wp_with_lock.
  - intros w _. exists []. split; [by left|]. split; [|split; [apply prepared_nil|done]].
    apply written_nothing; [by destruct (isFile (fds s))|constructor|done].
  - intros w Hw.
    assert (Hgo : ∀ s0 pre, fds s0 = fds s → (pat s0 <= pat s)%nat → Forall (resetting mode_write) pre →
        (pollable (fds s) = true → pre ≠ []) →
        wp t (Write_loop fuel p 0) s0 (λ a s1 mid, ∀ s' tail,
          released_with KWrite (fds s1) (fds s') tail → (pat s' <= pat s1)%nat →
          ∃ mid0, bracketed KWrite (fds s) (fds s') mid0 (EAcquire KWrite true :: (pre ++ mid) ++ tail) ∧
            written (fds s) p off 0 (fst a) (snd a) mid0 ∧ prepared (fds s) mode_write mid0 ∧
            (mid0 = [] → snd a = Some (errClosing (isFile (fds s)))))).
    { intros s0 pre Ef Hp Hpre Hpo. pose proof (len_nonneg p). apply (Write_loop_wp t p off); [lia| | |].
      - destruct p; [by right|left]. rewrite len_cons. pose proof (len_nonneg p). lia.
      - intros Ht. specialize (Hf Ht). unfold len. lia.
      - intros nn err s1 mid [Ef1 _] Hne Hwr s' tail Hr _. rewrite Ef in Hwr, Ef1. rewrite Ef1 in Hr.
        exists (pre ++ mid). split; [right; by exists tail|]. cbn [fst snd]. split; [|split].
        + destruct (placed_resetting _ (fds s) p off 0 _ Hpre) as [W1 W2].
          apply (written_more _ _ _ 0 0); [done| |done|by rewrite W2|by rewrite (sent_resetting _ _ Hpre)| |done].
          * intros _. eapply parks_none; [|exact Hpre]. by intros e [c ->].
          * eapply list.Forall_impl; [exact Hpre|]. by intros ? [c ->].
        + intros _ Hx. destruct pre as [|e0 pre]; [by destruct (Hpo Hx)|].
          apply list.Forall_cons in Hpre as [[code ->] _]. by eexists _, _.
        + by intros [_ ->]%app_nil. }
    wp_step. apply wp_prepare_code; cbn [fds].
    + intros Hnp. eapply wp_mono; [apply (Hgo _ []); [done|exact Hw|constructor|by rewrite Hnp]|]. done.
    + intros code s1 [Ef Hp] _. unfold pat in Hp. cbn [fds env] in *. destruct (poll_err _ code) as [e|] eqn:Ep.
      * apply wp_ret. rewrite app_nil_r. intros s' tail Hr _. rewrite Ef in Hr.
        exists [EReset mode_write code]. split; [right; by exists tail|]. cbn [fst snd].
        split; [|split; [intros _ _; by eexists _, _|done]].
        apply written_nothing; [by eapply poll_err_error|repeat constructor; by eexists|]. cbn. by intros ? ? [= _ <-].
      * eapply wp_mono; [apply (Hgo s1 [EReset mode_write code]); [done|unfold pat in *; lia|repeat constructor; by eexists|done]|]. done.
Qed.
Lemma Pwrite_wp t p off fuel s : (t = true → (pat s + length p < fuel)%nat) →
  wp t (Pwrite fuel p off) s (λ a s' new, ∃ mid,
    bracketed KMisc (fds s) (fds s') mid new ∧ written (set_runtimeCtx 0 (fds s)) p off 0 (fst a) (snd a) mid).
Proof.
  intros Hf. unfold Pwrite. apply wp_with_lock.
  - intros w _. exists []. split; [by left|]. apply written_nothing; [by destruct (isFile (fds s))|constructor|done].
  - intros w Hp. pose proof (len_nonneg p). apply Pwrite_loop_wp; [lia| | |].
    + destruct p; [by right|left]. rewrite len_cons. pose proof (len_nonneg p). lia.
    + intros Ht. specialize (Hf Ht). unfold pat in *. cbn [env]. unfold len. lia.
    + intros nn err s1 mid [Ef1 _] _ Hw s' tail Hr _. cbn [fds] in Ef1, Hw. rewrite Ef1 in Hr.
      exists mid. split; [right; by exists tail|]. by apply Hw.
Qed.
End IO.

(** ** internal/poll: reading *)

(** What the kernel gave out in successful reads. *)
Definition received (e : event) : Z :=
  match e with
  | ESys (SysRead _ _) r | ESys (SysRecvfrom _ _ _ _) r | ESys (SysPread _ _ _) r =>
      if bool_decide (r_err r = None) then r_n r else 0
  | _ => 0
  end.
Lemma received_none (P : event → Prop) tr : (∀ e, P e → received e = 0) → Forall P tr → total received tr = 0.
Proof. intros H HF. induction HF as [|e tr He _ IH]; [done|]. cbn. by rewrite H, IH. Qed.
Lemma received_waiting m tr : Forall (waiting m) tr → total received tr = 0.
Proof. apply received_none. by intros e [c ->]. Qed.
Lemma received_resetting m tr : Forall (resetting m) tr → total received tr = 0.
Proof. apply received_none. by intros e [c ->]. Qed.
Lemma received_interrupted c tr : Forall (interrupted c) tr → total received tr = 0.
Proof. apply received_none. intros e (r&->&_&He). destruct c; try done; cbn; by rewrite He. Qed.
Lemma received_failed c r : r_err r ≠ None → received (ESys c r) = 0.
Proof. intros H. destruct c; try done; cbn; by rewrite bool_decide_eq_false_2. Qed.

(** A call of the read: the descriptor's, of no more than was asked. *)
Definition read_event (fd : FD) (l : Z) (e : event) : Prop :=
  match e with
  | ESys (SysRead f l') _ | ESys (SysPread f l' _) _ => f = Sysfd fd ∧ 0 <= l' <= l ∧ (IsStream fd = true → l' <= maxRW)
  | ESys (SysRecvfrom _ f l' _) _ => f = Sysfd fd ∧ 0 <= l' <= l
  | EWait m _ | EReset m _ => m = mode_read
  | _ => False
  end.
(** What the last call says: the count and the error of a system call, an empty
    success being the end where that is so; the poller's error. *)
Definition concluded (fd : FD) (n : Z) (err : option ioerror) (mid : list event) : Prop :=
  match list.last mid with
  | Some (ESys _ r) =>
      match r_err r with
      | None => n = r_n r ∧ err = (if decide (n = 0 ∧ ZeroReadIsEOF fd = true) then Some EOF else None)
      | Some e => n = 0 ∧ err = Some (Errno e)
      end
  | Some (EWait _ code) | Some (EReset _ code) => n = 0 ∧ err = poll_err (isFile fd) code ∧ err ≠ None
  | _ => n = 0
  end.
(** The addresses the calls gave; the last one's. *)
Definition sources (mid : list event) : list sockaddr :=
  omap (λ e, match e with ESys _ r => Some (r_sa r) | _ => None end) mid.
Definition source_of (mid : list event) : sockaddr := mjoin (list.last (sources mid)).
(** [n] is what the kernel gave, and nothing it gave is lost; an error comes
    with no bytes; the last call decides, EOF being an empty success on a
    descriptor where that means the end. *)
Record got (fd : FD) (l n : Z) (err : option ioerror) (mid : list event) : Prop :=
  { gt_range : 0 <= n <= l;
    gt_received : total received mid = n;
    gt_error : err ≠ None → n = 0;
    gt_intr : err ≠ Some (Errno EINTR);
    gt_again : err = Some (Errno EAGAIN) → pollable fd = false;
    gt_last : concluded fd n err mid;
    gt_parks : parks fd mode_read mid;
    gt_events : Forall (read_event fd l) mid }.
Lemma got_nothing fd l mode code mid : 0 <= l → poll_err (isFile fd) code ≠ None → mid = [EReset mode code] →
  mode = mode_read → got fd l 0 (poll_err (isFile fd) code) mid.
Proof.
  intros Hl He -> ->. pose proof (poll_err_error (isFile fd) code) as Hp.
  split; try done; [intros Ex; by destruct (Hp _ Ex)..|by repeat constructor].
Qed.
Lemma got_refused fd l : 0 <= l → got fd l 0 (Some (errClosing (isFile fd))) [].
Proof. intros Hl. by split; destruct (isFile fd). Qed.
Lemma eofError_some fd n e : eofError fd n (Some e) = Some e.
Proof. unfold eofError. rewrite bool_decide_eq_false_2 by done. by rewrite andb_false_r. Qed.
Lemma eofError_none fd n : eofError fd n None = if decide (n = 0 ∧ ZeroReadIsEOF fd = true) then Some EOF else None.
Proof.
  unfold eofError. rewrite bool_decide_eq_true_2, andb_true_r by done.
  destruct (Z.eqb_spec n 0), (ZeroReadIsEOF fd), (decide _); naive_solver.
Qed.

Lemma sources_app a b : sources (a ++ b) = sources a ++ sources b.
Proof. apply omap_app. Qed.
Lemma source_more tr mid : sources mid ≠ [] →
  sources (tr ++ mid) ≠ [] ∧ source_of (tr ++ mid) = source_of mid.
Proof.
  intros H. unfold source_of. rewrite sources_app, last_more by done.
  split; [|done]. by intros [_ H']%app_nil.
Qed.

(** The successful call. *)
Lemma got_ok fd l n c r pre : 0 <= l → Forall (read_event fd l) (pre ++ [ESys c r]) → total received pre = 0 →
  parks fd mode_read pre →
  r_err r = None → n = r_n r → 0 <= n <= l → received (ESys c r) = n →
  got fd l n (eofError fd n None) (pre ++ [ESys c r]).
Proof.
  intros Hl Hev Hpre Hpk He Hn Hr Hrec.
  assert (Ht : total received (pre ++ [ESys c r]) = n) by (rewrite total_app, Hpre; cbn [total]; lia).
  rewrite eofError_none. split; try done.
  - destruct (decide _); naive_solver.
  - by destruct (decide _).
  - by destruct (decide _).
  - unfold concluded. rewrite last_snoc. by rewrite He.
  - apply parks_app; [done|]. cbn. by rewrite He.
Qed.
(** The last call failed. *)
Lemma got_failed fd l e c r tr : 0 <= l → Forall (read_event fd l) (tr ++ [ESys c r]) →
  total received (tr ++ [ESys c r]) = 0 → parks fd mode_read tr →
  r_err r = Some e → e ≠ EINTR → (e = EAGAIN → pollable fd = false) →
  got fd l 0 (Some (Errno e)) (tr ++ [ESys c r]).
Proof.
  intros Hl Hev Hr Hpk He Hi Ha. split; try done.
  - congruence.
  - intros [= ->]. by apply Ha.
  - unfold concluded. rewrite last_snoc. by rewrite He.
  - apply parks_app; [done|]. cbn. split; [|done]. rewrite He. intros [= ->]. by rewrite Ha.
Qed.
(** Waiting did. *)
Lemma got_waited fd l m code e tr : 0 <= l → Forall (read_event fd l) (tr ++ [EWait m code]) →
  total received tr = 0 → parks fd mode_read (tr ++ [EWait m code]) → poll_err (isFile fd) code = Some e →
  got fd l 0 (Some e) (tr ++ [EWait m code]).
Proof.
  intros Hl Hev Hr Hpk He. pose proof (poll_err_error _ _ _ He) as Hp. split; try done.
  - by rewrite total_app, Hr.
  - by intros [= ->].
  - by intros [= ->].
  - unfold concluded. rewrite last_snoc. done.
Qed.
Lemma got_more fd l n err tr mid : Forall (read_event fd l) tr → total received tr = 0 → mid ≠ [] → parks fd mode_read tr →
  got fd l n err mid → got fd l n err (tr ++ mid).
Proof.
  intros Hev Hr Hne Hpk [H1 H2 H3 H4 H5 H6 H7 H8]. split; try done.
  - by rewrite total_app, Hr, H2.
  - unfold concluded. by rewrite last_more.
  - by apply parks_app.
  - by apply Forall_app.
Qed.

Section Reading.
Context {W : Type} {E : Env W} {K : Kernel W}.
Implicit Types (s : st W) (t : bool) (fuel : nat).

Lemma interrupted_read fd l c new : (∀ r, read_event fd l (ESys c r)) → Forall (interrupted c) new →
  Forall (read_event fd l) new.
Proof. intros Hc H. eapply list.Forall_impl; [exact H|]. by intros e (r&->&_). Qed.

Lemma Read_loop_wp t l fuel : ∀ s Q, 0 <= l → (IsStream (fds s) = true → l <= maxRW) →
  (t = true → (S (pat s) < fuel)%nat) →
  (∀ n err s' new, later s s' → got (fds s) l n err new → new ≠ [] → Q (n, err) s' new) →
  wp t (Read_loop fuel l) s Q.
Proof.
  induction fuel as [|fuel IH]; intros s Q Hl Hmax Hf HQ; cbn [Read_loop].
  { apply wp_stuck. destruct t; [specialize (Hf eq_refl); lia|done]. }
  wp_step. wp_step. wp_step. apply wp_EINTR; [intros Ht; specialize (Hf Ht); lia|].
  intros r w pre Hps Hc Hi Hp Hpre. set (c := SysRead (Sysfd (fds s)) l) in *. cbn [app].
  assert (Hev : ∀ r0, read_event (fds s) l (ESys c r0)) by (intros r0; split; [done|split; [lia|exact Hmax]]).
  pose proof (interrupted_read (fds s) l c pre Hev Hpre) as Hpe.
  pose proof (parks_interrupted (fds s) mode_read _ _ Hpre) as Hpk.
  assert (Htr : Forall (read_event (fds s) l) (pre ++ [ESys c r])) by (apply Forall_app; split; [done|by repeat constructor]).
  cbn in Hc. unfold counted in Hc. destruct (r_err r) as [e0|] eqn:Er; cycle 1.
  { apply wp_ret. rewrite app_nil_r. apply HQ; [split; [done|unfold pat in *; cbn; lia]| |by destruct pre].
    apply got_ok; try done; [by eapply received_interrupted|]. cbn. by rewrite bool_decide_eq_true_2. }
  assert (Hrec : total received (pre ++ [ESys c r]) = 0).
  { rewrite total_app, (received_interrupted _ _ Hpre). cbn. rewrite bool_decide_eq_false_2 by congruence. done. }
  wp_step. apply wp_again_code; rewrite Er; cbn [fds env].
  - intros s1 -> Ha. apply wp_ret. rewrite !app_nil_r. cbn [err_of fmap option_fmap option_map]. rewrite eofError_some.
    apply HQ; [split; [done|unfold pat in *; cbn; lia]| |by destruct pre]. apply got_failed; try done; [congruence|].
    intros ->. by apply Ha.
  - intros code s1 [Hf1 Hp1] _ [= ->]. unfold pat in Hp1. cbn [fds env] in *.
    assert (Hwe : Forall (read_event (fds s) l) ((pre ++ [ESys c r]) ++ [EWait mode_read code]))
      by (apply Forall_app; split; [done|by repeat constructor]).
    assert (Hpw : parks (fds s) mode_read ((pre ++ [ESys c r]) ++ [EWait mode_read code])).
    { rewrite <- app_assoc. apply parks_app; [done|]. cbn. split; [|done]. intros _ _. by eexists _, _. }
    destruct (poll_err _ code) as [e|] eqn:Ep.
    + apply wp_ret. rewrite app_nil_r, eofError_some. apply HQ; [split; [done|unfold pat in *; lia]| |by destruct pre].
      by apply got_waited.
    + rewrite (retried_EAGAIN _ Er) in Hp. apply IH; [done|by rewrite Hf1|intros Ht; specialize (Hf Ht); unfold pat in *; lia|].
      intros n err s' new' [Hf2 Hp2] Hg Hne. rewrite Hf1 in Hg.
      apply HQ; [split; [congruence|unfold pat in *; lia]| |by destruct pre]. rewrite app_assoc.
      apply got_more; try done. by rewrite total_app, Hrec.
Qed.
Lemma recv_loop_wp t f l fuel : ∀ s Q, 0 <= l → (t = true → (pat s < fuel)%nat) →
  (∀ r err s' new, later s s' → got (fds s) l (r_n r) err new → new ≠ [] → sources new ≠ [] ∧ r_sa r = source_of new → Q (r, err) s' new) →
  wp t (recv_loop fuel true (λ fd, SysRecvfrom f fd l 0)) s Q.
Proof.
  induction fuel as [|fuel IH]; intros s Q Hl Hf HQ; cbn [recv_loop].
  { apply wp_stuck. destruct t; [specialize (Hf eq_refl); lia|done]. }
  wp_step. wp_step. wp_step. apply wp_sys. intros r w Hc Hp. set (c := SysRecvfrom f (Sysfd (fds s)) l 0) in *. cbn [app].
  assert (Hev : ∀ r0, read_event (fds s) l (ESys c r0)) by (intros r0; split; [done|lia]).
  assert (Htr : Forall (read_event (fds s) l) [ESys c r]) by (by repeat constructor).
  cbn in Hc. unfold counted in Hc. destruct (r_err r) as [e0|] eqn:Er; cycle 1.
  { apply wp_ret. cbn [app]. apply HQ; [split; [done|unfold pat in *; cbn; lia]| |done|done].
    apply (got_ok _ _ _ c r []); try done. cbn. by rewrite bool_decide_eq_true_2. }
  assert (Hrec : total received [ESys c r] = 0) by (cbn; rewrite bool_decide_eq_false_2 by congruence; done).
  assert (Hmore : ∀ s1 new, later s s1 → (pat s1 < pat s)%nat → Forall (waiting mode_read) new →
    parks (fds s) mode_read ([ESys c r] ++ new) →
    wp t (recv_loop fuel true (λ fd, SysRecvfrom f fd l 0)) s1 (λ b s'' new', Q b s'' ([ESys c r] ++ new ++ new'))).
  { intros s1 new [Hf1 Hp1] Hlt Hnew Hpk. apply IH; [done|intros Ht; specialize (Hf Ht); lia|].
    intros r' err s' new' [Hf2 Hp2] Hg Hne [Hsa1 Hsa2]. rewrite Hf1 in Hg.
    apply HQ; [split; [congruence|lia]| |done|].
    - rewrite app_assoc. apply got_more; try done.
      + apply Forall_app. split; [done|]. eapply list.Forall_impl; [exact Hnew|]. by intros e [k ->].
      + by rewrite total_app, Hrec, (received_waiting _ _ Hnew).
    - rewrite app_assoc. destruct (source_more ([ESys c r] ++ new) new' Hsa1) as [S1 S2].
      split; [done|by rewrite S2]. }
  destruct (failed r EINTR) eqn:Ei.
  { apply failed_true in Ei. rewrite (retried_EINTR _ Ei) in Hp. unfold pat in *. cbn [env] in *.
    apply (Hmore _ []); [split; [done|unfold pat; cbn; lia]|unfold pat; cbn; lia|constructor|].
    cbn. by rewrite Ei. }
  apply failed_false in Ei. set (r' := SysRes 0 _ _ _ _). wp_step. apply wp_again_code; cbn [fds env r' r_err].
  - intros s1 -> Ha. rewrite Er in *. apply wp_ret. cbn [app r_n err_of fmap option_fmap option_map]. rewrite eofError_some.
    apply HQ; [split; [done|unfold pat in *; cbn in *; lia]| |done|done].
    apply (got_failed _ _ _ c r []); try done; [congruence|]. intros ->. by apply Ha.
  - intros code s1 [Hf1 Hp1] _ Ha. unfold pat in Hp1, Hp. cbn [fds env] in *.
    rewrite (retried_EAGAIN r (eq_trans Er Ha)) in Hp.
    assert (Hpw : parks (fds s) mode_read ([ESys c r] ++ [EWait mode_read code])).
    { cbn. split; [|done]. intros _ _. by eexists _, _. }
    destruct (poll_err _ code) as [e|] eqn:Ep; cycle 1.
    { apply (Hmore s1 [EWait mode_read code]); [split; [done|unfold pat in *; lia]|unfold pat in *; lia| |done].
      repeat constructor. by eexists. }
    apply wp_ret. cbn [app r_n]. rewrite eofError_some.
    apply HQ; [split; [done|unfold pat in *; lia]| |done|done].
    apply (got_waited _ _ mode_read code e [ESys c r]); try done. by repeat constructor.
Qed.

Lemma got_wider fd l l' n err mid : l' <= l → got fd l' n err mid → got fd l n err mid.
Proof.
  intros Hl [H1 H2 H3 H4 H5 H6 H7 H8]. split; try done; [lia|].
  eapply list.Forall_impl; [exact H8|]. intros [] ; try done. destruct c; try done; cbn; intuition lia.
Qed.
Lemma got_prepared fd l n err pre mid : Forall (resetting mode_read) pre → mid ≠ [] →
  got fd l n err mid → got fd l n err (pre ++ mid).
Proof.
  intros Hpre Hne H. apply got_more; try done.
  - eapply list.Forall_impl; [exact Hpre|]. by intros ? [c ->].
  - by apply received_resetting in Hpre.
  - eapply parks_none; [|exact Hpre]. by intros e [c ->].
Qed.
Lemma Read_wp t l fuel s : 0 <= l → (t = true → (S (pat s) < fuel)%nat) →
  wp t (Read fuel l) s (λ a s' new, ∃ mid,
    bracketed KRead (fds s) (fds s') mid new ∧ got (fds s) l (fst a) (snd a) mid ∧
    prepared (fds s) mode_read mid ∧
    (mid = [] → snd a = Some (errClosing (isFile (fds s))) ∨ snd a = None ∧ l = 0)).
Proof.
  intros Hl Hf. unfold Read. apply wp_with_lock.
  - intros w _. exists []. split; [by left|]. split; [by apply got_refused|]. split; [apply prepared_nil|by left].
  - intros w Hw. destruct (Z.eqb_spec l 0) as [->|E0].
    + apply wp_ret. intros s' tail Hr _. exists []. split; [right; by exists tail|]. split; [by split|]. split; [apply prepared_nil|by right].
    + assert (Hgo : ∀ s1 pre, fds s1 = fds s → (pat s1 <= pat s)%nat → Forall (resetting mode_read) pre →
        (pollable (fds s) = true → pre ≠ []) →
        wp t (fd ← getfd; Read_loop fuel (if IsStream fd && (l >? maxRW) then maxRW else l)) s1
          (λ a s2 mid, ∀ s' tail, released_with KRead (fds s2) (fds s') tail → (pat s' <= pat s2)%nat →
             ∃ mid0, bracketed KRead (fds s) (fds s') mid0 (EAcquire KRead true :: (pre ++ mid) ++ tail) ∧
               got (fds s) l (fst a) (snd a) mid0 ∧ prepared (fds s) mode_read mid0 ∧
               (mid0 = [] → snd a = Some (errClosing (isFile (fds s))) ∨ snd a = None ∧ l = 0))).
      { intros s1 pre Ef Hp Hpre Hpo. wp_step. wp_step.
        set (l' := if IsStream (fds s1) && (l >? maxRW) then maxRW else l).
        assert (Hl' : 0 <= l' <= l ∧ (IsStream (fds s1) = true → l' <= maxRW)).
        { unfold l', maxRW. destruct (IsStream (fds s1)); cbn [andb]; [|split; [lia|done]].
          destruct (Z.gtb_spec l (2 ^ 30)); lia. }
        apply Read_loop_wp; [lia|tauto|intros Ht; specialize (Hf Ht); unfold pat in *; lia|].
        intros n err s2 mid [Ef2 _] Hg Hne s' tail Hr _. rewrite Ef in Hg, Ef2. rewrite Ef2 in Hr. cbn [app fst snd].
        exists (pre ++ mid). split; [right; by exists tail|].
        split; [apply got_prepared; try done; apply (got_wider _ l l'); [lia|done]|].
        split; [intros _ Hx; destruct pre as [|e0 pre]; [by destruct (Hpo Hx)|];
          apply list.Forall_cons in Hpre as [[code ->] _]; by eexists _, _|].
        by intros [_ ->]%app_nil. }
      wp_step. apply wp_prepare_code; cbn [fds].
      * intros Hnp. eapply wp_mono; [apply (Hgo _ []); [done|exact Hw|constructor|by rewrite Hnp]|]. done.
      * intros code s1 [Ef Hp] _. unfold pat in Hp. cbn [fds env] in *. destruct (poll_err _ code) as [e|] eqn:Ep.
        -- apply wp_ret. rewrite app_nil_r. intros s' tail Hr _. rewrite Ef in Hr.
           exists [EReset mode_read code]. split; [right; by exists tail|]. split; [|split; [intros _ _; by eexists _, _|done]].
           cbn [fst snd]. rewrite <- Ep. apply (got_nothing _ _ mode_read); try done. by rewrite Ep.
        -- eapply wp_mono; [apply (Hgo s1 [EReset mode_read code]); [done|unfold pat in *; lia|repeat constructor; by eexists|done]|]. done.
Qed.
Lemma readFrom_wp f t l fuel s : 0 <= l → (t = true → (pat s < fuel)%nat) →
  wp t (readFrom_with f fuel l) s (λ a s' new, ∃ mid,
    bracketed KRead (fds s) (fds s') mid new ∧ got (fds s) l (fst (fst a)) (snd a) mid ∧
    snd (fst a) = source_of mid ∧ prepared (fds s) mode_read mid ∧
    (mid = [] → snd a = Some (errClosing (isFile (fds s))))).
Proof.
  intros Hl Hf. unfold readFrom_with, with_prepared. apply wp_with_lock.
  - intros w _. exists []. split; [by left|]. split; [by apply got_refused|]. split; [done|split; [apply prepared_nil|done]].
  - intros w Hw.
    assert (Hgo : ∀ s1 pre, fds s1 = fds s → (pat s1 <= pat s)%nat → Forall (resetting mode_read) pre →
        (pollable (fds s) = true → pre ≠ []) →
        wp t (a ← recv_loop fuel true (λ fd, SysRecvfrom f fd l 0);
              mret (r_n (fst a), r_sa (fst a), snd a)) s1
          (λ a s2 mid, ∀ s' tail, released_with KRead (fds s2) (fds s') tail → (pat s' <= pat s2)%nat →
             ∃ mid0, bracketed KRead (fds s) (fds s') mid0 (EAcquire KRead true :: (pre ++ mid) ++ tail) ∧
               got (fds s) l (fst (fst a)) (snd a) mid0 ∧ snd (fst a) = source_of mid0 ∧
               prepared (fds s) mode_read mid0 ∧ (mid0 = [] → snd a = Some (errClosing (isFile (fds s)))))).
    { intros s1 pre Ef Hp Hpre Hpo. wp_step. apply recv_loop_wp; [done|intros Ht; specialize (Hf Ht); lia|].
      intros r err s2 mid [Ef2 _] Hg Hne [Hs1 Hs2]. rewrite Ef in Hg, Ef2. apply wp_ret. rewrite app_nil_r.
      intros s' tail Hr _. rewrite Ef2 in Hr. cbn [fst snd]. exists (pre ++ mid).
      split; [right; by exists tail|]. split; [by apply got_prepared|].
      split; [by rewrite (proj2 (source_more pre mid Hs1))|].
      split; [intros _ Hx; destruct pre as [|e0 pre]; [by destruct (Hpo Hx)|];
          apply list.Forall_cons in Hpre as [[code ->] _]; by eexists _, _|].
        by intros [_ ->]%app_nil. }
    wp_step. apply wp_prepare_code; cbn [fds].
    + intros Hnp. eapply wp_mono; [apply (Hgo _ []); [done|exact Hw|constructor|by rewrite Hnp]|]. done.
    + intros code s1 [Ef Hp] _. unfold pat in Hp. cbn [fds env] in *. destruct (poll_err _ code) as [e|] eqn:Ep.
      * apply wp_ret. rewrite app_nil_r. intros s' tail Hr _. rewrite Ef in Hr.
        exists [EReset mode_read code]. split; [right; by exists tail|]. split; [|split; [done|split; [intros _ _; by eexists _, _|done]]].
        cbn [fst snd]. rewrite <- Ep. apply (got_nothing _ _ mode_read); try done. by rewrite Ep.
      * eapply wp_mono; [apply (Hgo s1 [EReset mode_read code]); [done|unfold pat in *; lia|repeat constructor; by eexists|done]|]. done.
Qed.
End Reading.
