(* ===== verification/FdUnixBulk.v ===== *)
(** * internal/poll: Writev and SendFile *)
From S2P Require Import Prelude Threads FdMutex FdUnix FdUnixSpec FdUnixIO.

(** ** The slices of a Writev *)
Lemma consume_ok v : ∀ n, 0 <= n <= len (concat v) →
  ∃ v', consume v n = Ok v' ∧ concat v' = drop (Z.to_nat n) (concat v).
Proof.
  induction v as [|b v IH]; intros n Hn; cbn [consume concat].
  { exists []. by rewrite drop_nil. }
  cbn [concat] in Hn. rewrite len_app in Hn. destruct (Z.gtb_spec (len b) n) as [Hlt|Hge].
  - unfold from. rewrite slice_ok by lia. cbn [mbind res_bind]. eexists. split; [done|]. cbn [concat].
    unfold len in *. rewrite Nat2Z.id, firstn_all, drop_app_le by lia. done.
  - destruct (IH (n - len b)) as (v'&E&H); [lia|]. exists v'. split; [done|]. rewrite H.
    unfold len in *. rewrite drop_app_ge by lia. f_equal. lia.
Qed.
Lemma maxVec_pos : (0 < maxVec)%nat.
Proof. unfold maxVec. lia. Qed.
Lemma maxRW_pos : 0 < maxRW.
Proof. done. Qed.
#[local] Opaque maxVec maxRW.
Lemma gather_spec fd v : ∀ k, (k < maxVec)%nat →
  (∃ rest, concat v = concat (gather fd v k) ++ rest) ∧
  Forall (λ c, c ≠ [] ∧ (IsStream fd = true → len c <= maxRW)) (gather fd v k) ∧
  (length (gather fd v k) <= maxVec - k)%nat ∧ (gather fd v k = [] → concat v = []).
Proof.
  induction v as [|c v IH]; intros k Hk; cbn [gather concat].
  { split; [by exists []|]. split; [constructor|]. split; [cbn [length]; lia|done]. }
  destruct (Z.eqb_spec (len c) 0) as [E0|E0].
  { assert (c = []) as -> by (destruct c; [done|rewrite len_cons in E0; pose proof (len_nonneg c); lia]).
    by apply IH. }
  assert (Hc : c ≠ []) by (by intros ->).
  destruct (IsStream fd && (len c >? maxRW)) eqn:Es.
  - split; [exists (drop (Z.to_nat maxRW) c ++ concat v); cbn; by rewrite app_nil_r, app_assoc, take_drop|].
    split; [|split; [cbn [length]; lia|done]]. repeat constructor.
    + intros H. apply (f_equal len) in H. unfold len in *. rewrite length_take in H.
      pose proof maxRW_pos. change (length []) with 0%nat in H. lia.
    + intros _. unfold len. rewrite length_take. pose proof maxRW_pos. lia.
  - assert (Hle : IsStream fd = true → len c <= maxRW).
    { intros Hs. rewrite Hs in Es. cbn in Es. destruct (Z.gtb_spec (len c) maxRW); [done|lia]. }
    destruct (Nat.eqb_spec (S k) maxVec) as [Em|Em].
    + split; [exists (concat v); cbn; by rewrite app_nil_r|]. split; [by repeat constructor|]. split; [cbn [length]; lia|done].
    + destruct (IH (S k)) as ((rest&Er)&Hf&Hl&_); [lia|].
      split; [exists rest; cbn; by rewrite Er, app_assoc|]. split; [by constructor|]. split; [cbn [length]; lia|done].
Qed.
Lemma wrote_ok r l : counted r l → l < 2 ^ 63 →
  i64 (wrote r) = Z.max 0 (r_n r) ∧ (r_err r ≠ None → r_n r = -1) ∧ (r_err r = None → 0 <= r_n r <= l).
Proof.
  unfold counted, wrote. intros Hc Hl. destruct (r_err r).
  - rewrite Hc. done.
  - split; [|done]. rewrite u64_id by (unfold is_u64; lia).
    rewrite (proj2 (Z.eqb_neq _ max64)) by (unfold max64; lia). rewrite i64_id by lia. lia.
Qed.

(** What Writev did from [n] on with the slices [v]. *)
Definition writev_event (fd : FD) (e : event) : Prop :=
  match e with
  | ESys (SysWritev f iovecs) _ => f = Sysfd fd ∧ (length iovecs <= maxVec)%nat ∧
      Forall (λ c, c ≠ [] ∧ (IsStream fd = true → len c <= maxRW)) iovecs
  | EWait m _ | EReset m _ => m = mode_write
  | _ => False
  end.
Record vectored (fd : FD) (v : list bytes) (n n' : Z) (err : option ioerror) (v' : list bytes) (new : list event) : Prop :=
  { vc_range : n <= n' <= n + len (concat v);
    vc_left : concat v' = drop (Z.to_nat (n' - n)) (concat v);
    vc_sent : all_sent new = take (Z.to_nat (n' - n)) (concat v);
    vc_all : err = None → n' = n + len (concat v);
    vc_retry : err ≠ Some (Errno EINTR) ∧ err ≠ Some (Errno EAGAIN);
    vc_events : Forall (writev_event fd) new }.
Lemma vectored_more fd v v1 n n1 n' err v' new new' : n <= n1 <= n + len (concat v) →
  concat v1 = drop (Z.to_nat (n1 - n)) (concat v) → all_sent new = take (Z.to_nat (n1 - n)) (concat v) →
  Forall (writev_event fd) new → vectored fd v1 n1 n' err v' new' → vectored fd v n n' err v' (new ++ new').
Proof.
  intros Hn Hv Hs Hf [H1 H2 H3 H4 H5 H6].
  assert (Hl : len (concat v1) = len (concat v) - (n1 - n)).
  { rewrite Hv. unfold len in *. rewrite length_drop. lia. }
  split; [lia| | |intros He; rewrite (H4 He); lia|done|by apply Forall_app].
  - rewrite H2, Hv, drop_drop. f_equal. lia.
  - rewrite all_sent_app, Hs, H3, Hv. replace (Z.to_nat (n' - n)) with (Z.to_nat (n1 - n) + Z.to_nat (n' - n1))%nat by lia.
    by rewrite take_take_drop.
Qed.

Section Bulk.
Context {W : Type} {E : Env W} {K : Kernel W}.
Implicit Types (s : st W) (t : bool) (fuel : nat).

(** A successful writev of at least a byte writes at least one. *)
Definition eager : Prop := ∀ f iovecs w, let r := fst (dosys (SysWritev f iovecs) w) in
  r_err r = None → concat iovecs ≠ [] → 0 < r_n r.
Lemma Writev_loop_wp t fuel : (t = true → eager) → ∀ v n s Q, 0 <= n → n + len (concat v) < 2 ^ 63 →
  (t = true → (S (pat s + length (concat v)) < fuel)%nat) →
  (∀ n' err v' s' new, later s s' → vectored (fds s) v n n' err v' new → Q (n', err, v') s' new) →
  wp t (Writev_loop fuel v n) s Q.
Proof.
  intros Heager. induction fuel as [|fuel IH]; intros v n s Q Hn Hlen Hf HQ; cbn [Writev_loop].
  { apply wp_stuck. destruct t; [specialize (Hf eq_refl); lia|done]. }
  assert (Hnone : concat v = [] → Q (n, None, v) s []).
  { intros Ev. apply HQ; [done|]. split; rewrite ?Ev; change (len (@nil Z)) with 0; [lia|by rewrite drop_nil|by rewrite take_nil|lia|done|constructor]. }
  wp_step. wp_step. destruct v as [|b0 v0]; [by apply wp_ret, Hnone|].
  set (v := b0 :: v0) in *. destruct (gather_spec (fds s) v 0 maxVec_pos) as ((rest&Er)&Hch&Hl&Hempty).
  destruct (gather (fds s) v 0) as [|c0 cs] eqn:Eg; [by apply wp_ret, Hnone, Hempty|].
  set (iov := c0 :: cs) in *. wp_step. set (c := SysWritev (Sysfd (fds s)) iov).
  assert (Hiov : len (concat iov) <= len (concat v)) by (rewrite Er, len_app; pose proof (len_nonneg rest); lia).
  assert (Hne : concat iov ≠ []).
  { unfold iov. cbn. apply list.Forall_cons in Hch as [[H _] _]. by destruct c0. }
  apply wp_EINTR; [intros Ht; specialize (Hf Ht); lia|]. intros r w pre Hps Hc Hi Hp Hpre.
  change (counted r (len (concat iov))) in Hc.
  destruct (wrote_ok r (len (concat iov)) Hc ltac:(lia)) as (Ew&Hfail&Hok).
  set (m := Z.max 0 (r_n r)) in *. assert (Hm : 0 <= m <= len (concat iov)).
  { pose proof (len_nonneg (concat iov)). unfold m. destruct (r_err r); [rewrite Hfail by done; lia|]. specialize (Hok eq_refl). lia. }
  rewrite Ew, i64_id by lia. destruct (consume_ok v m) as (v'&Ev&Hv'); [lia|].
  apply wp_bind. apply (wp_lift t _ v'); [done|].
  assert (Hev : ∀ r0, writev_event (fds s) (ESys c r0)) by (intros r0; split; [done|split; [rewrite Nat.sub_0_r in Hl; exact Hl|exact Hch]]).
  assert (Hall : all_sent (pre ++ [ESys c r]) = take (Z.to_nat (n + m - n)) (concat v)).
  { rewrite all_sent_app, (sent_interrupted _ _ Hpre), all_sent_cons.
    change (all_sent []) with (@nil Z). change (sent (ESys c r)) with (take (Z.to_nat (r_n r)) (concat iov)).
    rewrite app_nil_r, app_nil_l. replace (Z.to_nat (n + m - n)) with (Z.to_nat (r_n r)) by lia.
    rewrite Er, take_app_le; [done|]. unfold len in *. lia. }
  assert (Hpe : Forall (writev_event (fds s)) (pre ++ [ESys c r])).
  { apply Forall_app. split; [|constructor; [apply Hev|constructor]]. eapply list.Forall_impl; [exact Hpre|]. by intros ? (?&->&_). }
  assert (Hv2 : concat v' = drop (Z.to_nat (n + m - n)) (concat v)) by (rewrite Hv'; f_equal; lia).
  assert (Hl' : len (concat v') = len (concat v) - m) by (rewrite Hv'; unfold len in *; rewrite length_drop; lia).
  assert (Hmore : ∀ s1 new, later s s1 → Forall (waiting mode_write) new →
    (t = true → (pat s1 + Z.to_nat (len (concat v')) < pat s + Z.to_nat (len (concat v)))%nat) →
    wp t (Writev_loop fuel v' (n + m)) s1 (λ b s'' new', Q b s'' ((pre ++ [ESys c r]) ++ new ++ new'))).
  { intros s1 new [Hf1 Hp1] Hnew Hlt. apply IH; [lia|lia| |].
    - intros Ht; specialize (Hf Ht). specialize (Hlt Ht). unfold len in *. lia.
    - intros n' err v2 s' new' [Hf2 Hp2] Hw. rewrite Hf1 in Hw. apply HQ; [split; [congruence|lia]|].
      rewrite app_assoc. apply (vectored_more _ v v' n (n + m)); [lia|done| | |done].
      + by rewrite all_sent_app, (sent_waiting _ _ Hnew), app_nil_r.
      + apply Forall_app. split; [done|]. eapply list.Forall_impl; [exact Hnew|]. by intros ? [? ->]. }
  assert (Hstop : ∀ s1 new err, later s s1 → Forall (waiting mode_write) new → err ≠ None →
    err ≠ Some (Errno EINTR) ∧ err ≠ Some (Errno EAGAIN) → Q (n + m, err, v') s1 ((pre ++ [ESys c r]) ++ new)).
  { intros s1 new err Hs1 Hnew He Hr. apply HQ; [done|]. split; [lia|done| |done|done|].
    - by rewrite all_sent_app, (sent_waiting _ _ Hnew), app_nil_r.
    - apply Forall_app. split; [done|]. eapply list.Forall_impl; [exact Hnew|]. by intros ? [? ->]. }
  destruct (r_err r) as [e|] eqn:Ee.
  - destruct (Z.eqb_spec e EINTR) as [->|Hei]; [congruence|]. destruct (Z.eqb_spec e EAGAIN) as [->|Hea].
    + rewrite (retried_EAGAIN r Ee) in Hp. apply wp_bind. apply wp_wait. intros o s1 new [Hf1 Hp1] _ Hnew He _.
      unfold pat in Hp1. cbn [fds env] in *. destruct o as [e|].
      * apply wp_ret. cbn [app]. rewrite !app_nil_r. apply Hstop; [split; [done|unfold pat in *; lia]|done|done|].
        specialize (He e eq_refl). by split; intros [= ->].
      * cbn [app]. apply Hmore; [split; [done|unfold pat in *; lia]|done|]. unfold pat in *. lia.
    + apply wp_ret. cbn [app]. apply Hstop; [split; [done|unfold pat in *; cbn; lia]|constructor|done|].
      split; congruence.
  - specialize (Hok eq_refl). destruct (Z.eqb_spec (n + m) 0) as [E0|E0].
    + apply wp_ret. cbn [app]. apply Hstop; [split; [done|unfold pat in *; cbn; lia]|constructor|done|]. done.
    + apply (Hmore _ []); [split; [done|unfold pat in *; cbn; lia]|constructor|]. intros Ht.
      destruct Hps as [w0 Hw0]. assert (Hpos : 0 < r_n r).
      { specialize (Heager Ht (Sysfd (fds s)) iov w0). cbv zeta in Heager. unfold c in Hw0.
        rewrite <- Hw0 in Heager. by apply Heager. }
      unfold pat in *. cbn [env]. lia.
Qed.
End Bulk.

Section Totals.
Context {W : Type} {E : Env W} {K : Kernel W}.
Implicit Types (s : st W) (t : bool) (fuel : nat).

Lemma vectored_nothing fd v e mid : poll_error e → Forall (resetting mode_write) mid →
  vectored fd v 0 0 (Some e) v mid.
Proof.
  intros He Hm. pose proof (len_nonneg (concat v)). split.
  - lia.
  - done.
  - by rewrite (sent_resetting _ _ Hm).
  - done.
  - by split; intros [= ->].
  - eapply list.Forall_impl; [exact Hm|]. by intros ? [c ->].
Qed.
Lemma Writev_wp t v fuel s : (t = true → eager) → len (concat v) < 2 ^ 63 →
  (t = true → (S (pat s + length (concat v)) < fuel)%nat) →
  wp t (Writev fuel v) s (λ a s' new, ∃ mid,
    bracketed KWrite (fds s) (fds s') mid new ∧
    vectored (fds s) v 0 (fst (fst a)) (snd (fst a)) (snd a) mid).
Proof.
  intros He Hl Hf. unfold Writev. apply wp_with_prepared.
  - intros w _. exists []. split; [by left|]. apply vectored_nothing; [|constructor]. by destruct (isFile (fds s)).
  - intros e s1 s' mid tail Hpe Hm Ef Hr _. exists mid. split; [|by apply vectored_nothing].
    right. exists tail. by rewrite <- Ef.
  - intros s0 pre Ef Hp Hpre. apply Writev_loop_wp; [done|done|lia|intros Ht; specialize (Hf Ht); lia|].
    intros n err v' s1 mid [Ef1 _] Hw s' tail Hr _. rewrite Ef in Hw, Ef1. rewrite Ef1 in Hr. cbn [fst snd].
    exists (pre ++ mid). split; [right; by exists tail|]. pose proof (len_nonneg (concat v)).
    apply (vectored_more _ v v 0 0); [lia|done|by rewrite (sent_resetting _ _ Hpre)| |done].
    eapply list.Forall_impl; [exact Hpre|]. by intros ? [c ->].
Qed.

(** ** SendFile *)
(** The bytes the kernel copied from [src]. *)
Definition copied (e : event) : Z :=
  match e with ESys (SysSendfile _ _ _) r => Z.max 0 (r_n r) | _ => 0 end.
Definition sendfile_event (fd : FD) (src : Z) (e : event) : Prop :=
  match e with
  | ESys (SysSendfile f s n) _ => f = Sysfd fd ∧ s = src ∧ 0 < n <= maxSendfileSize
  | EWait m _ | EReset m _ => m = mode_write
  | _ => False
  end.
Record filed (fd : FD) (src remain : Z) (n : Z) (err : option ioerror) (handled : bool) (mid : list event) : Prop :=
  { fl_range : 0 <= n <= Z.max 0 remain;
    fl_copied : total copied mid = n;
    fl_handled : handled = bool_decide (err = None);
    fl_retry : err ≠ Some (Errno EINTR) ∧ err ≠ Some (Errno EAGAIN);
    fl_short : err = None → n < remain → ∃ pre c r, mid = pre ++ [ESys c r] ∧ r_err r = None ∧ r_n r = 0;
    fl_events : Forall (sendfile_event fd src) mid }.
Lemma filed_nothing fd src remain e mid : poll_error e → Forall (resetting mode_write) mid →
  filed fd src remain 0 (Some e) false mid.
Proof.
  intros He Hm. split.
  - lia.
  - clear He. induction Hm as [|? ? [c ->]]; done.
  - done.
  - by split; intros [= ->].
  - done.
  - eapply list.Forall_impl; [exact Hm|]. by intros ? [c ->].
Qed.
Lemma filed_more fd src remain k n err h tr mid : 0 <= k <= Z.max 0 remain → total copied tr = k → Forall (sendfile_event fd src) tr →
  filed fd src (remain - k) n err h mid → (k < remain ∨ k = 0) → filed fd src remain (k + n) err h (tr ++ mid).
Proof.
  intros Hk Hc Hf [H1 H2 H3 H4 H5 H6] Hkr. split; try done; [lia|by rewrite total_app, Hc, H2| |by apply Forall_app].
  intros He Hn. destruct (H5 He) as (pre&c&r&->&Hr); [lia|]. exists (tr ++ pre), c, r. by rewrite app_assoc.
Qed.
Lemma SendFile_loop_wp t src fuel : ∀ remain n s Q,
  (t = true → (pat s + Z.to_nat remain < fuel)%nat) →
  (∀ k err h s' new, later s s' → filed (fds s) src remain k err h new → Q (n + k, err, h) s' new) →
  wp t (SendFile_loop fuel src remain n) s Q.
Proof.
  induction fuel as [|fuel IH]; intros remain n s Q Hf HQ; cbn [SendFile_loop].
  { apply wp_stuck. destruct t; [specialize (Hf eq_refl); lia|done]. }
  destruct (Z.gtb_spec remain 0) as [H0|H0]; cycle 1.
  { apply wp_ret. rewrite <- (Z.add_0_r n). apply HQ; [done|]. split; try done; lia. }
  wp_step. wp_step. wp_step. set (l := if maxSendfileSize >? remain then remain else maxSendfileSize).
  assert (Hl : 0 < l <= remain ∧ l <= maxSendfileSize).
  { unfold l. assert (0 < maxSendfileSize) by done. destruct (Z.gtb_spec maxSendfileSize remain); lia. }
  apply wp_sys. intros r w Hc Hp. set (c := SysSendfile (Sysfd (fds s)) src l).
  change (counted r l) in Hc. unfold counted in Hc. cbn [app].
  assert (Hev : sendfile_event (fds s) src (ESys c r)) by (split; [done|split; [done|lia]]).
  set (k := Z.max 0 (r_n r)). assert (Hk : 0 <= k <= l) by (unfold k; destruct (r_err r); lia).
  assert (Hpair : (if r_n r >? 0 then (n + r_n r, remain - r_n r) else (n, remain)) = (n + k, remain - k)).
  { unfold k. destruct (Z.gtb_spec (r_n r) 0); f_equal; lia. }
  rewrite Hpair. assert (Hcop : total copied [ESys c r] = k) by (cbn; fold k; lia).
  assert (Hevs : Forall (sendfile_event (fds s) src) [ESys c r]) by (constructor; [done|constructor]).
  assert (Hmore : ∀ s1 new, later s s1 → Forall (waiting mode_write) new →
    (t = true → (pat s1 + Z.to_nat (remain - k) < pat s + Z.to_nat remain)%nat) → k < remain ∨ k = 0 →
    wp t (SendFile_loop fuel src (remain - k) (n + k)) s1 (λ b s'' new', Q b s'' ([ESys c r] ++ new ++ new'))).
  { intros s1 new [Hf1 Hp1] Hnew Hlt Hkr. apply IH; [intros Ht; specialize (Hf Ht); specialize (Hlt Ht); lia|].
    intros k' err h s' new' [Hf2 Hp2] Hw. rewrite Hf1 in Hw. rewrite <- Z.add_assoc.
    apply HQ; [split; [congruence|lia]|]. rewrite app_assoc. apply filed_more; try done; [lia| |].
    - rewrite total_app, Hcop. clear -Hnew. induction Hnew as [|? ? [? ->]]; [cbn; lia|]. cbn in *. lia.
    - apply Forall_app. split; [done|]. eapply list.Forall_impl; [exact Hnew|]. by intros ? [? ->]. }
  assert (Hstop : ∀ s1 new err h, later s s1 → Forall (waiting mode_write) new → h = bool_decide (err = None) →
    err ≠ Some (Errno EINTR) ∧ err ≠ Some (Errno EAGAIN) → (err = None → new = [] ∧ r_err r = None ∧ r_n r = 0) →
    Q (n + k, err, h) s1 ([ESys c r] ++ new)).
  { intros s1 new err h Hs1 Hnew Hh Hr Hn. apply HQ; [done|]. split; [lia| |done|done| |].
    - rewrite total_app, Hcop. clear -Hnew. induction Hnew as [|? ? [? ->]]; [cbn; lia|]. cbn in *. lia.
    - intros He _. destruct (Hn He) as (->&H1&H2). by exists [], c, r.
    - apply Forall_app. split; [done|]. eapply list.Forall_impl; [exact Hnew|]. by intros ? [? ->]. }
  destruct ((r_n r =? 0) && bool_decide (r_err r = None)) eqn:Ez.
  { apply andb_true_iff in Ez as [Ez%Z.eqb_eq Er%bool_decide_eq_true]. apply wp_ret.
    apply (Hstop _ [] None); [split; [done|unfold pat in *; cbn; lia]|constructor|done|done|done]. }
  destruct (r_err r) as [e|] eqn:Er.
  - assert (Hk0 : k = 0) by (unfold k; lia).
    destruct (Z.eqb_spec e EINTR) as [->|Hei]; [|destruct (Z.eqb_spec e EAGAIN) as [->|Hea]].
    + rewrite (retried_EINTR r Er) in Hp. apply (Hmore _ []); [split; [done|unfold pat in *; cbn; lia]|constructor| |by right].
      intros _. unfold pat in *. cbn [env]. lia.
    + rewrite (retried_EAGAIN r Er) in Hp. apply wp_bind. apply wp_wait. intros o s1 new [Hf1 Hp1] _ Hnew He _.
      unfold pat in Hp1. cbn [fds env] in *. destruct o as [e|].
      * apply wp_ret. rewrite app_nil_r. apply Hstop; [split; [done|unfold pat in *; lia]|done|done| |done].
        specialize (He e eq_refl). by split; intros [= ->].
      * apply Hmore; [split; [done|unfold pat in *; lia]|done| |by right]. intros _. unfold pat in *. lia.
    + apply wp_ret. apply (Hstop _ []); [split; [done|unfold pat in *; cbn; lia]|constructor|done| |done]. split; congruence.
  - rewrite bool_decide_eq_true_2, andb_true_r in Ez by done. apply Z.eqb_neq in Ez.
    assert (Hkp : 0 < k) by (unfold k; lia).
    destruct (decide (k < remain)) as [Hlt|Hge].
    + apply (Hmore _ []); [split; [done|unfold pat in *; cbn; lia]|constructor| |by left].
      intros _. unfold pat in *. cbn [env]. lia.
    + (* all of it: the next round ends *)
      assert (Ek : remain - k = 0) by lia. rewrite Ek. destruct fuel as [|fuel'].
      { apply wp_stuck. destruct t; [specialize (Hf eq_refl); lia|done]. }
      cbn [SendFile_loop]. apply wp_ret. cbn [app]. apply HQ; [split; [done|unfold pat in *; cbn; lia]|].
      split; [lia|done|done|done|lia|done].
Qed.
Lemma SendFile_wp t src remain fuel s : (t = true → (pat s + Z.to_nat remain < fuel)%nat) →
  wp t (SendFile fuel src remain) s (λ a s' new, ∃ mid,
    bracketed KWrite (fds s) (fds s') mid new ∧ filed (fds s) src remain (fst (fst a)) (snd (fst a)) (snd a) mid).
Proof.
  intros Hf. unfold SendFile. apply wp_with_prepared.
  - intros w _. exists []. split; [by left|]. apply filed_nothing; [|constructor]. by destruct (isFile (fds s)).
  - intros e s1 s' mid tail Hpe Hm Ef Hr _. exists mid. split; [|by apply filed_nothing].
    right. exists tail. by rewrite <- Ef.
  - intros s0 pre Ef Hp Hpre. apply SendFile_loop_wp; [intros Ht; specialize (Hf Ht); lia|].
    intros k err h s1 mid [Ef1 _] Hw s' tail Hr _. rewrite Ef in Hw, Ef1. rewrite Ef1 in Hr. cbn [fst snd].
    exists (pre ++ mid). split; [right; by exists tail|].
    apply (filed_more _ _ _ 0); [lia| | |by rewrite Z.sub_0_r|by right].
    + clear -Hpre. induction Hpre as [|? ? [? ->]]; done.
    + eapply list.Forall_impl; [exact Hpre|]. by intros ? [c ->].
Qed.
End Totals.
