(* ===== verification/FdUnixOps.v ===== *)
(** * internal/poll: every operation under its lock, and closing *)
From S2P Require Import Prelude FdMutex FdUnix FdUnixSpec.

(** ** The operations *)
Inductive fdop : Set :=
| OpRead (len : Z) | OpPread (len off : Z) | OpReadFrom (f : family) (len : Z)
| OpReadMsg (f : family) (len ooblen flags : Z) | OpReadDirent (len : Z) | OpRawRead | OpRawWrite | OpRawControl
| OpWrite (p : bytes) | OpPwrite (p : bytes) (off : Z) | OpWriteTo (f : family) (p : bytes) (sa : sockaddr)
| OpWriteMsg (f : family) (p oob : bytes) (sa : sockaddr) | OpWriteOnce (p : bytes)
| OpWritev (v : list bytes) | OpSendFile (src remain : Z)
| OpAccept | OpDup (unsupported : bool) | OpControl (retry : bool) (c : control)
| OpSetBlocking | OpSetDeadline (until : option Z) (mode : Z).
Definition kind_of (o : fdop) : kind :=
  match o with
  | OpRead _ | OpReadFrom _ _ | OpReadMsg _ _ _ _ | OpRawRead | OpAccept => KRead
  | OpWrite _ | OpWriteTo _ _ _ | OpWriteMsg _ _ _ _ | OpWriteOnce _ | OpWritev _ | OpSendFile _ _ | OpRawWrite => KWrite
  | _ => KMisc
  end.

Section Ops.
Context {W : Type} {E : Env W}.
(** The operation, and the error it returns. *)
Definition run_op (fuel : nat) (o : fdop) : M W (option ioerror) :=
  match o with
  | OpRead len => a ← Read fuel len; mret (snd a)
  | OpPread len off => a ← Pread fuel len off; mret (snd a)
  | OpReadFrom f len => a ← readFrom_with f fuel len; mret (snd a)
  | OpReadMsg f len ooblen flags => a ← readMsg_with f fuel len ooblen flags; mret (snd a)
  | OpReadDirent len => a ← ReadDirent fuel len; mret (snd a)
  | OpRawRead => RawRead fuel
  | OpRawWrite => RawWrite fuel
  | OpRawControl => RawControl
  | OpWrite p => a ← Write fuel p; mret (snd a)
  | OpPwrite p off => a ← Pwrite fuel p off; mret (snd a)
  | OpWriteTo f p sa => a ← writeTo_with f fuel p sa; mret (snd a)
  | OpWriteMsg f p oob sa => a ← writeMsg_with f fuel p oob sa; mret (snd a)
  | OpWriteOnce p => a ← WriteOnce fuel p; mret (snd a)
  | OpWritev v => a ← Writev fuel v; mret (snd (fst a))
  | OpSendFile src remain => a ← SendFile fuel src remain; mret (snd (fst a))
  | OpAccept => a ← Accept fuel; mret (snd a)
  | OpDup u => a ← Dup u; mret (snd (fst a))
  | OpControl retry c => only_error (controlled (if retry then Some fuel else None) c)
  | OpSetBlocking => SetBlocking
  | OpSetDeadline u mode => setDeadlineImpl u mode
  end.

(** ** The calls between taking the lock and giving it back *)
Definition quiet (e : event) : Prop :=
  match e with
  | EAcquire _ _ | ERelease _ _ | EUnblock | EPollClose | EPollOpen _ _ _ | ESemacquire | ESemrelease => False
  | _ => True
  end.
(** The descriptor, but for its blocking mode. *)
Definition keeps (fd fd' : FD) : Prop :=
  Sysfd fd' = Sysfd fd ∧ runtimeCtx fd' = runtimeCtx fd ∧ isFile fd' = isFile fd.
Definition emits {A} (m : M W A) : Prop := ∀ s a s', m s = Ok (a, s') →
  keeps (fds s) (fds s') ∧ ∃ new, trace s' = trace s ++ new ∧ Forall quiet new.
Lemma keeps_refl fd : keeps fd fd.
Proof. done. Qed.
Lemma emits_same {A} (m : M W A) : (∀ s a s', m s = Ok (a, s') → keeps (fds s) (fds s') ∧ trace s' = trace s) → emits m.
Proof. intros H s a s' Hm. destruct (H s a s' Hm) as [Hk Ht]. split; [done|]. exists []. by rewrite app_nil_r. Qed.
Lemma emits_ret {A} (a : A) : emits (mret a).
Proof. apply emits_same. by intros s ? ? [= <- <-]. Qed.
Lemma emits_getfd : emits getfd.
Proof. apply emits_same. by intros s ? ? [= <- <-]. Qed.
Lemma emits_blocking x : emits (modfd (set_isBlocking x)).
Proof. apply emits_same. by intros s ? ? [= <- <-]. Qed.
Lemma emits_lift {A} (r : res A) : emits (lift r).
Proof. apply emits_same. intros s ? ?. unfold lift. destruct r; [|done..]. by intros [= <- <-]. Qed.
Lemma emits_stuck {A} : emits (@stuck W A).
Proof. by intros s ? ?. Qed.
Lemma emits_panic {A} m : emits (@panic W A m).
Proof. by intros s ? ?. Qed.
Lemma emits_bind {A B} (m : M W A) (k : A → M W B) : emits m → (∀ a, emits (k a)) → emits (x ← m; k x).
Proof.
  intros Hm Hk s b s''. unfold mbind, M_bind. destruct (m s) as [[a s']| |] eqn:Em; [|done..]. intros Hb.
  destruct (Hm _ _ _ Em) as ((K1&K2&K3)&new&E1&F1). destruct (Hk a _ _ _ Hb) as ((L1&L2&L3)&new'&E2&F2).
  split; [by repeat split; congruence|]. exists (new ++ new'). rewrite E2, E1, app_assoc. split; [done|by apply Forall_app].
Qed.
Lemma emits_ask {A} (f : W → A * W) (ev : A → event) : (∀ a, quiet (ev a)) → emits (ask f ev).
Proof.
  intros H s a s'. unfold ask. destruct (f (env s)) as [a' w]. intros [= <- <-]. split; [done|].
  exists [ev a']. split; [done|by repeat constructor].
Qed.
End Ops.
Create HintDb emits.
#[export] Hint Resolve emits_ret emits_getfd emits_blocking emits_lift emits_stuck emits_panic : emits.
Ltac emits_step :=
  match goal with
  | |- emits (mbind _ _) => apply emits_bind; [|intros ?]
  | |- emits (ask _ _) => apply emits_ask; intros ?; exact I
  | |- emits (tell _ _) => apply emits_ask; intros ?; exact I
  | |- emits (sys _) => apply emits_ask; intros ?; exact I
  | |- emits (match ?x with _ => _ end) => destruct x
  | |- emits (let '(_, _) := ?x in _) => destruct x
  | |- emits _ => solve [auto with emits]
  end.
Ltac emits_auto := cbv zeta; repeat emits_step.

Section Quiet.
Context {W : Type} {E : Env W}.
Implicit Types (fuel : nat).
Lemma emits_convertErr c f : emits (W := W) (convertErr c f).
Proof. unfold convertErr. emits_auto. Qed.
Hint Resolve emits_convertErr : emits.
Lemma emits_prepare m : emits (prepare m).
Proof. unfold prepare. emits_auto. Qed.
Lemma emits_wait m : emits (wait m).
Proof. unfold wait. emits_auto. Qed.
Hint Resolve emits_prepare emits_wait : emits.
Lemma emits_EINTR fuel c : emits (ignoringEINTR fuel c).
Proof. induction fuel; cbn [ignoringEINTR]; emits_auto. Qed.
Lemma emits_again r m : emits (again r m).
Proof. unfold again. emits_auto. Qed.
Hint Resolve emits_EINTR emits_again : emits.
Lemma emits_Read_loop fuel l : emits (Read_loop fuel l).
Proof. induction fuel; cbn [Read_loop]; emits_auto. Qed.
Lemma emits_recv_loop fuel z c : emits (recv_loop fuel z c).
Proof. induction fuel; cbn [recv_loop]; emits_auto. Qed.
Lemma emits_ReadDirent_loop fuel l : emits (ReadDirent_loop fuel l).
Proof. induction fuel; cbn [ReadDirent_loop]; emits_auto. Qed.
Lemma emits_Raw_loop m fuel : emits (Raw_loop m fuel).
Proof. induction fuel; cbn [Raw_loop]; emits_auto. Qed.
Lemma emits_Write_loop fuel p : ∀ nn, emits (Write_loop fuel p nn).
Proof. induction fuel; intros nn; cbn [Write_loop]; emits_auto. Qed.
Lemma emits_Pwrite_loop fuel p off : ∀ nn, emits (Pwrite_loop fuel p off nn).
Proof. induction fuel; intros nn; cbn [Pwrite_loop]; emits_auto. Qed.
Lemma emits_send_loop fuel c : emits (send_loop fuel c).
Proof. induction fuel; cbn [send_loop]; emits_auto. Qed.
Lemma emits_Writev_loop fuel : ∀ v n, emits (Writev_loop fuel v n).
Proof. induction fuel; intros v n; cbn [Writev_loop]; emits_auto. Qed.
Lemma emits_SendFile_loop fuel src : ∀ r n, emits (SendFile_loop fuel src r n).
Proof. induction fuel; intros r n; cbn [SendFile_loop]; emits_auto. Qed.
Lemma emits_accept s : emits (accept s).
Proof. unfold accept. emits_auto. Qed.
Hint Resolve emits_accept : emits.
Lemma emits_Accept_loop fuel : emits (Accept_loop fuel).
Proof. induction fuel; cbn [Accept_loop]; emits_auto. Qed.
Lemma emits_Dup u fd : emits (DupCloseOnExec u fd).
Proof. unfold DupCloseOnExec, dupCloseOnExecOld. emits_auto. Qed.
End Quiet.
#[export] Hint Resolve emits_convertErr emits_prepare emits_wait emits_EINTR emits_again emits_Read_loop
  emits_recv_loop emits_ReadDirent_loop emits_Raw_loop emits_Write_loop emits_Pwrite_loop emits_send_loop
  emits_Writev_loop emits_SendFile_loop emits_accept emits_Accept_loop emits_Dup : emits.

(** ** The lock around every operation *)
(** A run of [m]: refused by the lock, with nothing done and the answer
    [refused] of the closing error; or quiet calls between taking the lock and
    giving it back. *)
Definition guarded {W A} (k : kind) (refused : option ioerror → A) (m : M W A) : Prop := ∀ s a s', m s = Ok (a, s') →
  (trace s' = trace s ++ [EAcquire k false] ∧ fds s' = fds s ∧ a = refused (Some (errClosing (isFile (fds s))))) ∨
  ∃ mid tail fd1, trace s' = trace s ++ EAcquire k true :: mid ++ tail ∧
    Forall quiet mid ∧ keeps (fds s) fd1 ∧ released_with k fd1 (fds s') tail.

Section Lock.
Context {W : Type} {E : Env W}.
Implicit Types (fuel : nat).
Lemma release_runs k s a s' : fd_release k s = Ok (a, s') →
  ∃ tail, trace s' = trace s ++ tail ∧ released_with k (fds s) (fds s') tail.
Proof.
  unfold fd_release, destroy, pd_close, sys, tell, ask, mbind, M_bind, mret, M_ret, modfd, getfd.
  destruct (release k (env s)) as [last w]; destruct last; cbn.
  - destruct (Z.eqb_spec (runtimeCtx (fds s)) 0) as [E0|E0]; cbn.
    + destruct (dosys (SysClose (Sysfd (fds s))) w) as [r w']. cbn. intros [= <- <-]. cbn.
      exists (ERelease k true :: [ESys (SysClose (Sysfd (fds s))) r; ESemrelease]). rewrite <- !app_assoc. split; [done|].
      right. exists r. unfold pollable. rewrite E0. split; [done|]. destruct (fds s); cbn in *; by subst.
    + destruct (dosys (SysClose (Sysfd (fds s))) (pollClose w)) as [r w']. cbn. intros [= <- <-]. cbn.
      exists (ERelease k true :: EPollClose :: [ESys (SysClose (Sysfd (fds s))) r; ESemrelease]).
      rewrite <- !app_assoc. split; [done|]. right. exists r. unfold pollable.
      rewrite (proj2 (Z.eqb_neq _ _) E0). by destruct (fds s).
  - intros [= <- <-]. eexists. split; [done|]. by left.
Qed.
Lemma guarded_lock {A} k refused (body : M W A) : emits body → guarded k refused (with_lock k refused body).
Proof.
  intros Hb s a s'. unfold with_lock, fd_acquire, mbind, M_bind, ask, mret, M_ret, getfd.
  destruct (acquire k (env s)) as [ok w]; destruct ok; cbn.
  - destruct (body _) as [[b s1]| |] eqn:Eb; [|done..]. destruct (fd_release k s1) as [[e s2]| |] eqn:Er; [|done..].
    intros [= <- <-]. right. destruct (Hb _ _ _ Eb) as [Hk (mid&Et&Hm)]. destruct (release_runs _ _ _ _ Er) as (tail&Et'&Hr).
    exists mid, tail, (fds s1). cbn in Et. rewrite Et', Et. split; [by rewrite <- !app_assoc|done].
  - intros [= <- <-]. by left.
Qed.
Lemma guarded_prepared {A} k mode refused (body : M W A) : emits body →
  guarded k refused (with_prepared k mode refused body).
Proof. intros Hb. apply guarded_lock. emits_auto. Qed.
Lemma guarded_err {A} k refused (m : M W A) (f : A → option ioerror) : (∀ e, f (refused e) = e) →
  guarded k refused m → guarded k id (a ← m; mret (f a)).
Proof.
  intros Hf H s b s'. unfold mbind, M_bind, mret, M_ret. destruct (m s) as [[a s1]| |] eqn:Em; [|done..].
  intros [= <- <-]. destruct (H _ _ _ Em) as [(H1&H2&->)|H']; [left; by rewrite Hf|by right].
Qed.
(** Pread does what [with_lock] does. *)
Lemma guarded_Pread fuel l off : guarded KMisc (λ e, (0, e)) (Pread fuel l off).
Proof.
  intros s a s' H. apply (guarded_lock KMisc (λ e, (0, e)) (fd ← getfd;
    r ← ignoringEINTR fuel (SysPread (Sysfd fd) (if IsStream fd && (l >? maxRW) then maxRW else l) off);
    mret (match r_err r with None => r_n r | Some _ => 0 end,
      eofError fd (match r_err r with None => r_n r | Some _ => 0 end) (err_of (r_err r))))); [emits_auto|].
  rewrite <- H. unfold Pread, with_lock, mbind, M_bind, getfd, mret, M_ret.
  destruct (fd_acquire KMisc s) as [[[e|] s1]| |]; [done| |done..].
  by destruct (ignoringEINTR _ _ s1) as [[r s2]| |].
Qed.
Lemma ops_guarded fuel o : guarded (kind_of o) id (run_op fuel o).
Proof.
  destruct o; cbn [kind_of run_op]; unfold only_error;
    lazymatch goal with |- guarded _ _ (mbind _ _) => eapply guarded_err | _ => idtac end;
    try apply guarded_Pread; unfold RawRead, RawWrite, RawControl, SetBlocking, setDeadlineImpl,
      Read, readFrom_with, readMsg_with, ReadDirent, Write, Pwrite, writeTo_with, writeMsg_with, WriteOnce,
      Writev, SendFile, Accept, Dup, controlled;
    try apply guarded_prepared; try apply guarded_lock; try done; by emits_auto.
Qed.
(** When the lock refuses, that is all an operation does, with any fuel. *)
Lemma refused_runs fuel o s : fst (acquire (kind_of o) (env s)) = false →
  run_op fuel o s = Ok (Some (errClosing (isFile (fds s))),
    St (fds s) (snd (acquire (kind_of o) (env s))) (trace s ++ [EAcquire (kind_of o) false])).
Proof.
  destruct o; cbn [kind_of run_op]; unfold only_error, RawRead, RawWrite, RawControl, SetBlocking, setDeadlineImpl,
    Read, Pread, readFrom_with, readMsg_with, ReadDirent, Write, Pwrite, writeTo_with, writeMsg_with, WriteOnce,
    Writev, SendFile, Accept, Dup, controlled, with_prepared, with_lock, fd_acquire, ask, mbind, M_bind, mret, M_ret, getfd;
    match goal with |- fst ?a = _ → _ => destruct a as [ok w] end; cbn; by intros ->.
Qed.
End Lock.
