(* ===== verification/FdUnixEnd.v ===== *)
(** * internal/poll: every operation returns *)
From S2P Require Import Prelude FdMutex FdUnix FdUnixSpec FdUnixIO FdUnixBulk FdUnixOps.

Section End.
Context {W : Type} {E : Env W} {K : Kernel W}.
Implicit Types (s : st W) (fuel : nat).

(** The run ends, and the kernel's patience has not grown. *)
Definition ends {A} (m : M W A) s : Prop := wp true m s (λ _ s' _, (pat s' <= pat s)%nat).
(** As part of a longer run that had [n] left. *)
Definition ends_in {A} (n : nat) (m : M W A) s : Prop := wp true m s (λ _ s' _, (pat s' <= n)%nat).
Lemma ends_weaken {A} n (m : M W A) s : ends m s → (pat s <= n)%nat → ends_in n m s.
Proof. intros H Hn. eapply wp_mono; [exact H|]. cbn. intros. lia. Qed.
Lemma ends_bind {A B} (m : M W A) (k : A → M W B) s : ends m s → (∀ a s', (pat s' <= pat s)%nat → ends (k a) s') →
  ends (x ← m; k x) s.
Proof.
  intros Hm Hk. apply wp_bind. eapply wp_mono; [exact Hm|]. intros a s' new H. cbn in H.
  eapply wp_mono; [by apply Hk|]. cbn. intros. lia.
Qed.
Lemma ends_ret {A} (a : A) s : ends (mret a) s.
Proof. by apply wp_ret. Qed.
Lemma ends_getfd s : ends getfd s.
Proof. by apply wp_getfd. Qed.
Lemma ends_modfd f s : ends (modfd f) s.
Proof. by apply wp_modfd. Qed.
Lemma ends_sys c s : ends (sys c) s.
Proof. apply wp_sys. intros r w _ H. unfold pat in *. cbn. lia. Qed.
Lemma ends_user fd s : ends (ask (user fd) (EUser fd)) s.
Proof. apply wp_ask. cbv zeta. pose proof (pat_user fd (env s)). unfold pat. cbn. lia. Qed.
Lemma ends_deadline d m s : ends (tell (pollSetDeadline d m) (ESetDeadline d m)) s.
Proof. unfold tell. apply wp_ask. cbv zeta. pose proof (pat_deadline d m (env s)). unfold pat. cbn. lia. Qed.
Lemma ends_EINTR fuel c s : (pat s < fuel)%nat → ends (ignoringEINTR fuel c) s.
Proof. intros Hf. apply wp_EINTR; [done|]. intros r w pre _ _ _ H _. unfold pat in *. cbn. lia. Qed.
Lemma ends_prepare m s : ends (prepare m) s.
Proof. apply wp_prepare. by intros o s' new [_ H] _ _ _. Qed.
Lemma ends_wait m s : ends (wait m) s.
Proof. apply wp_wait. by intros o s' new [_ H] _ _ _ _. Qed.
(** The end of a round: once more only after an EAGAIN. *)
Lemma wp_again_pat {A} r mode n (k : option (option ioerror) → M W A) s :
  (∀ s', (pat s' <= pat s)%nat → r_err r = Some EAGAIN → ends_in n (k None) s') →
  (∀ o s', (pat s' <= pat s)%nat → ends_in n (k (Some o)) s') →
  ends_in n (o ← again r mode; k o) s.
Proof.
  intros H1 H2. apply wp_bind. apply wp_again. intros o s' new [_ Hp] _ _ Hv.
  eapply wp_mono; [destruct o as [o|]; [by apply H2|by apply H1]|done].
Qed.
Lemma ends_sys_in {A} c n (k : sysres → M W A) s :
  (∀ r s', fds s' = fds s → (pat s' + (if retried r then 1 else 0) <= pat s)%nat → ends_in n (k r) s') →
  ends_in n (r ← sys c; k r) s.
Proof.
  intros H. apply wp_bind. apply wp_sys. intros r w _ Hp. eapply wp_mono; [by apply H|done].
Qed.
Lemma ends_EINTR_in {A} fuel c n (k : sysres → M W A) s : (pat s < fuel)%nat →
  (∀ r s', r_err r ≠ Some EINTR → (pat s' + (if retried r then 1 else 0) <= pat s)%nat → ends_in n (k r) s') →
  ends_in n (r ← ignoringEINTR fuel c; k r) s.
Proof.
  intros Hf H. apply wp_bind. apply wp_EINTR; [done|]. intros r w pre _ _ Hi Hp _. eapply wp_mono; [by apply H|done].
Qed.
Lemma ends_getfd_in {A} n (k : FD → M W A) s : ends_in n (k (fds s)) s → ends_in n (fd ← getfd; k fd) s.
Proof. intros H. apply wp_bind, wp_getfd. eapply wp_mono; [exact H|done]. Qed.
Lemma ends_in_ret {A} n (a : A) s : (pat s <= n)%nat → ends_in n (mret a) s.
Proof. intros H. by apply wp_ret. Qed.
Lemma ends_intro {A} (m : M W A) s : ends_in (pat s) m s → ends m s.
Proof. done. Qed.

(** ** The loops *)
Lemma Read_loop_ends fuel l : ∀ s n, (S (pat s) < fuel)%nat → (pat s <= n)%nat → ends_in n (Read_loop fuel l) s.
Proof.
  induction fuel as [|fuel IH]; intros s n Hf Hn; [lia|]. cbn [Read_loop]. apply ends_getfd_in.
  apply ends_EINTR_in; [lia|]. intros r s' Hi Hp. destruct (r_err r) as [e|] eqn:Er; [|apply ends_in_ret; lia].
  apply wp_again_pat; [intros s1 H1 Ha|intros o s1 H1; apply ends_in_ret; lia].
  rewrite (retried_EAGAIN r Ha) in Hp. apply IH; lia.
Qed.
Lemma ReadDirent_loop_ends fuel l : ∀ s n, (S (pat s) < fuel)%nat → (pat s <= n)%nat → ends_in n (ReadDirent_loop fuel l) s.
Proof.
  induction fuel as [|fuel IH]; intros s n Hf Hn; [lia|]. cbn [ReadDirent_loop]. apply ends_getfd_in.
  apply ends_EINTR_in; [lia|]. intros r s' Hi Hp. destruct (r_err r) as [e|] eqn:Er; [|apply ends_in_ret; lia].
  apply wp_again_pat; [intros s1 H1 Ha|intros o s1 H1; apply ends_in_ret; lia].
  rewrite (retried_EAGAIN r Ha) in Hp. apply IH; lia.
Qed.
Lemma recv_loop_ends fuel z c : ∀ s n, (pat s < fuel)%nat → (pat s <= n)%nat → ends_in n (recv_loop fuel z c) s.
Proof.
  induction fuel as [|fuel IH]; intros s n Hf Hn; [lia|]. cbn [recv_loop]. apply ends_getfd_in.
  apply ends_sys_in. intros r s' _ Hp. destruct (r_err r) as [e|] eqn:Er; [|apply ends_in_ret; lia].
  destruct (failed r EINTR) eqn:Ei.
  { apply failed_true in Ei. rewrite (retried_EINTR r Ei) in Hp. apply IH; lia. }
  cbv zeta. set (r' := if z then _ else r).
  assert (Er' : r_err r' = r_err r) by (unfold r'; by destruct z).
  apply wp_again_pat; [intros s1 H1 Ha|intros o s1 H1; apply ends_in_ret; lia].
  rewrite Er' in Ha. rewrite (retried_EAGAIN r Ha) in Hp. apply IH; lia.
Qed.
Lemma send_loop_ends fuel c : ∀ s n, (pat s < fuel)%nat → (pat s <= n)%nat → ends_in n (send_loop fuel c) s.
Proof.
  induction fuel as [|fuel IH]; intros s n Hf Hn; [lia|]. cbn [send_loop]. apply ends_getfd_in.
  apply ends_sys_in. intros r s' _ Hp. destruct (failed r EINTR) eqn:Ei.
  { apply failed_true in Ei. rewrite (retried_EINTR r Ei) in Hp. apply IH; lia. }
  apply wp_again_pat; [intros s1 H1 Ha|intros o s1 H1; apply ends_in_ret; lia].
  rewrite (retried_EAGAIN r Ha) in Hp. apply IH; lia.
Qed.
Lemma Raw_loop_ends mode fuel : ∀ s n, (pat s < fuel)%nat → (pat s <= n)%nat → ends_in n (Raw_loop mode fuel) s.
Proof.
  induction fuel as [|fuel IH]; intros s n Hf Hn; [lia|]. cbn [Raw_loop]. apply ends_getfd_in.
  apply wp_bind, wp_ask. cbv zeta. pose proof (pat_user (Sysfd (fds s)) (env s)) as Hp. fold (pat s) in Hp.
  destruct (fst (user (Sysfd (fds s)) (env s))); [apply wp_ret; unfold pat; cbn; lia|].
  apply wp_bind, wp_wait. intros o s' new [_ H1] _ _ _ _. unfold pat in H1 at 2. cbn [env] in H1.
  destruct o; [apply wp_ret; lia|]. eapply wp_mono; [apply (IH s' n); lia|done].
Qed.
(** accept: an error that is tried again has cost some patience. *)
Definition accept_retry (e : Z) : bool := (e =? EINTR) || (e =? EAGAIN) || (e =? ECONNABORTED).
Lemma accept_retried r e : r_err r = Some e → accept_retry e = true → retried r = true.
Proof.
  unfold accept_retry, retried, failed. intros -> H.
  apply orb_true_iff in H as [[H|H]%orb_true_iff|H]; apply Z.eqb_eq in H; by rewrite H.
Qed.
Lemma accept_ends fd s : wp true (accept fd) s (λ a s' _,
  (pat s' + (match snd a with Some e => if accept_retry e then 1 else 0 | None => 0 end) <= pat s)%nat).
Proof.
  assert (Hcost : ∀ r p q e, (p + (if retried r then 1 else 0) <= q)%nat → r_err r = Some e →
    (p + (if accept_retry e then 1 else 0) <= q)%nat).
  { intros r p q e Hp He. destruct (accept_retry e) eqn:Ea; [|lia]. by rewrite (accept_retried r e He Ea) in Hp. }
  assert (Hany : ∀ r p q, (p + (if retried r then 1 else 0) <= q)%nat →
    (p + (match r_err r with Some e => if accept_retry e then 1 else 0 | None => 0 end) <= q)%nat).
  { intros r p q Hp. destruct (r_err r) eqn:He; [by eapply Hcost|lia]. }
  unfold accept. wp_step. apply wp_sys. intros r w _ Hp.
  destruct (bool_decide _) eqn:Eb; [apply wp_ret; unfold pat in *; cbn; lia|].
  destruct (negb (fallback r)); [apply wp_ret; unfold pat in *; cbn; by apply Hany|].
  wp_step. apply wp_sys. intros r2 w2 _ Hp2. unfold pat in *. cbn [env] in Hp2.
  assert (Hp' : (patience w2 + (if retried r2 then 1 else 0) <= patience (env s))%nat) by lia.
  destruct (r_err r2) eqn:E2; [apply wp_ret; unfold pat; cbn; by eapply Hcost|].
  wp_step. apply wp_sys. intros r3 w3 _ Hp3. wp_step. apply wp_sys. intros r4 w4 _ Hp4. unfold pat in *. cbn [env] in *.
  destruct (r_err r4) eqn:E4; [|apply wp_ret; cbn; unfold pat; cbn; lia].
  wp_step. apply wp_sys. intros r5 w5 _ Hp5. apply wp_ret. unfold pat in *. cbn [env snd] in *.
  pose proof (Hcost _ _ _ _ Hp4 E4). lia.
Qed.
Lemma Accept_loop_ends fuel : ∀ s n, (pat s < fuel)%nat → (pat s <= n)%nat → ends_in n (Accept_loop fuel) s.
Proof.
  induction fuel as [|fuel IH]; intros s n Hf Hn; [lia|]. cbn [Accept_loop]. apply ends_getfd_in.
  apply wp_bind. eapply wp_mono; [apply accept_ends|]. intros [[[a1 a2] a3] err] s1 ev Hp. cbn [snd] in Hp.
  destruct err as [e|]; [|apply wp_ret; lia]. unfold accept_retry in Hp.
  destruct (Z.eqb_spec e EINTR) as [->|]; cbn [orb] in Hp; [eapply wp_mono; [apply (IH s1 n); lia|done]|].
  destruct (Z.eqb_spec e EAGAIN) as [->|]; cbn [orb] in Hp.
  - destruct (pollable (fds s)); [|apply wp_ret; lia]. apply wp_bind, wp_wait. intros o s2 new [_ H2] _ _ _ _.
    destruct o; [apply wp_ret; lia|]. eapply wp_mono; [apply (IH s2 n); lia|done].
  - destruct (Z.eqb_spec e ECONNABORTED); [eapply wp_mono; [apply (IH s1 n); lia|done]|apply wp_ret; lia].
Qed.

(** ** The operations *)
Lemma ends_lock {A} k fail (body : M W A) s : (∀ s', fds s' = fds s → (pat s' <= pat s)%nat → ends body s') →
  ends (with_lock k fail body) s.
Proof.
  intros Hb. apply wp_with_lock; [intros w Hw; exact Hw|]. intros w Hw.
  eapply wp_mono; [apply Hb; [done|exact Hw]|]. unfold pat in *. cbn. intros a s1 mid H s' tail _ H'. lia.
Qed.
Lemma ends_prepared {A} k mode fail (body : M W A) s : (∀ s', fds s' = fds s → (pat s' <= pat s)%nat → ends body s') →
  ends (with_prepared k mode fail body) s.
Proof.
  intros Hb. apply wp_with_prepared; [intros w Hw; exact Hw|done|]. intros s0 pre Hf Hp _.
  eapply wp_mono; [by apply Hb|]. cbn. intros a s1 mid H s' tail _ H'. lia.
Qed.
(** How much work there is, for the operations that repeat until it is done. *)
Definition size_of (o : fdop) : nat :=
  match o with
  | OpWrite p | OpPwrite p _ => length p
  | OpWritev v => length (concat v)
  | OpSendFile _ remain => Z.to_nat remain
  | _ => 0
  end.
(** Writev relies on the kernel to move something, on less than 2^63 bytes. *)
Definition can_end (o : fdop) : Prop :=
  match o with OpWritev v => eager (W := W) ∧ len (concat v) < 2 ^ 63 | _ => True end.
Definition enough (fuel : nat) (o : fdop) s : Prop := (S (pat s + size_of o) < fuel)%nat.

Lemma Pread_ends fuel l off s : (pat s < fuel)%nat → ends (Pread fuel l off) s.
Proof.
  intros Hf. unfold ends, Pread, fd_acquire. wp_go.
  set (w := snd (acquire KMisc (env s))). assert (Hw : (patience w <= pat s)%nat) by apply pat_acquire. clearbody w.
  destruct (fst (acquire KMisc (env s))); cbn [negb]; [|by apply wp_ret]. wp_step. wp_step.
  apply wp_bind, wp_EINTR; [intros _; unfold pat; cbn; lia|]. intros r w' pre _ _ _ Hp _. unfold pat in *. cbn [env] in *.
  wp_step. apply wp_release. intros o s' tail _ Hp'. unfold pat in *. apply wp_ret. cbn [env] in *. lia.
Qed.
Lemma Dup_ends u fd s : ends (DupCloseOnExec u fd) s.
Proof.
  assert (Hold : ∀ s, ends (dupCloseOnExecOld fd) s).
  { intros s0. unfold dupCloseOnExecOld. apply ends_bind; [apply ends_sys|]. intros r s1 _.
    destruct (r_err r); [apply ends_ret|]. apply ends_bind; [apply ends_sys|]. intros; apply ends_ret. }
  unfold DupCloseOnExec. destruct u; cbn [negb].
  - apply ends_bind; [apply Hold|]. intros; apply ends_ret.
  - apply ends_bind; [apply ends_sys|]. intros r s1 _. destruct (r_err r); [|apply ends_ret].
    destruct (_ || _); [|apply ends_ret]. apply ends_bind; [apply Hold|]. intros; apply ends_ret.
Qed.
Ltac ends_step :=
  match goal with
  | |- ends (mbind _ _) _ => apply ends_bind; [|intros]
  | |- ends (mret _) _ => apply ends_ret
  | |- ends getfd _ => apply ends_getfd
  | |- ends (modfd _) _ => apply ends_modfd
  | |- ends (sys _) _ => apply ends_sys
  | |- ends (ask (user _) _) _ => apply ends_user
  | |- ends (ignoringEINTR _ _) _ => apply ends_EINTR; lia
  | |- ends (prepare _) _ => apply ends_prepare
  | |- ends (with_lock _ _ _) _ => apply ends_lock; intros
  | |- ends (with_prepared _ _ _ _) _ => apply ends_prepared; intros
  | |- ends (match ?x with _ => _ end) _ => destruct x
  end.
Lemma ops_end fuel o s : can_end o → enough fuel o s → ends (run_op fuel o) s.
Proof.
  unfold enough, can_end. intros Hc Hf. pose proof (len_nonneg (A := Z)) as Hlen.
  destruct o as [l|l off|f l|f l ol fl|l| | | |p|p off|f p sa|f p oob sa|p|v|src remain| |u|retry c| |u mode]; cbn [run_op size_of] in *;
    unfold only_error, Read, readFrom_with, readMsg_with, ReadDirent, RawRead, RawWrite, RawControl,
      writeTo_with, writeMsg_with, WriteOnce, Accept, Dup, controlled, SetBlocking.
  - repeat ends_step. apply Read_loop_ends; lia.
  - repeat ends_step. apply Pread_ends. lia.
  - repeat ends_step. apply recv_loop_ends; lia.
  - repeat ends_step. apply recv_loop_ends; lia.
  - repeat ends_step. apply ReadDirent_loop_ends; lia.
  - repeat ends_step. apply Raw_loop_ends; lia.
  - repeat ends_step. apply Raw_loop_ends; lia.
  - repeat ends_step.
  - unfold Write. repeat ends_step. apply (Write_loop_wp _ _ 0); [split; [done|apply Hlen]| | |].
    + destruct p; [by right|left]. rewrite len_cons. pose proof (Hlen p). lia.
    + intros _. unfold len. lia.
    + by intros nn' err s1 new [_ Hp] _ _.
  - unfold Pwrite. repeat ends_step. apply Pwrite_loop_wp; [split; [done|apply Hlen]| | |].
    + destruct p; [by right|left]. rewrite len_cons. pose proof (Hlen p). lia.
    + intros _. unfold len. lia.
    + by intros nn' err s1 new [_ Hp] _ _.
  - repeat ends_step. apply send_loop_ends; lia.
  - repeat ends_step. apply send_loop_ends; lia.
  - repeat ends_step.
  - unfold Writev. repeat ends_step. apply Writev_loop_wp; [tauto|done|tauto|intros _; lia|].
    by intros n' err v' s1 new [_ Hp] _.
  - unfold SendFile. repeat ends_step. apply SendFile_loop_wp; [intros _; lia|].
    by intros k err h s1 new [_ Hp] _.
  - repeat ends_step. apply Accept_loop_ends; lia.
  - repeat ends_step. apply Dup_ends.
  - destruct retry; repeat ends_step.
  - repeat ends_step.
  - unfold setDeadlineImpl. repeat ends_step. apply ends_deadline.
Qed.
End End.
