(* ===== verification/FdUnixClose.v ===== *)
(** * internal/poll: closing a descriptor, and a world to run the operations in

    [LockTurns] says of an environment that its lock is the word of fd_mutex.go,
    moved by the turns of FdMutex, the goroutine's own and any of others;
    [ClosingLock], what FD promises its users about Close, is proved from it.
    [world] is an environment made of the models of the lock and of the poller,
    for a single goroutine. *)
From stdpp Require Import relations.
From S2P Require Import Prelude FdMutex FdUnix FdUnixSpec FdUnixBulk FdUnixOps.
From S2P Require Netpoll.

(** ** What closing relies on *)
(** Once [closed], every way of acquiring the descriptor is refused, whatever
    else happens; closing it makes it so, and is refused only if it is. *)
Class ClosingLock (W : Type) {E : Env W} : Type :=
  { shut : W → Prop;
    close_shuts w : shut (snd (acquire KClose w));
    shut_refuses k w : shut w → fst (acquire k w) = false;
    shut_acquire k w : shut w → shut (snd (acquire k w));
    shut_release k w : shut w → shut (snd (release k w));
    shut_pollUnblock w : shut w → shut (pollUnblock w);
    shut_pollClose w : shut w → shut (pollClose w);
    shut_dosys c w : shut w → shut (snd (dosys c w));
    shut_csemacquire w : shut w → shut (csemacquire w);
    shut_csemrelease w : shut w → shut (csemrelease w) }.

(** The closed bit survives whatever the lock's turns do. *)
Lemma odd_closed x : (Z.land x mutexClosed =? 0) = negb (Z.odd x).
Proof.
  change mutexClosed with (Z.ones 1). rewrite Z.land_ones by lia. change (2 ^ 1) with 2.
  rewrite Zmod_odd. by destruct (Z.odd x).
Qed.
Lemma odd_u64 x : Z.odd (u64 x) = Z.odd x.
Proof. rewrite <- !Z.bit0_odd. unfold u64. by rewrite Z.mod_pow2_bits_low by lia. Qed.
Lemma odd_andnot x m : Z.odd m = false → Z.odd (andnot x m) = Z.odd x.
Proof. intros Hm. rewrite <- !Z.bit0_odd in *. unfold andnot. rewrite Z.ldiff_spec, Hm. by rewrite andb_true_r. Qed.
Lemma odd_sub_even x m : Z.odd m = false → Z.odd (x - m) = Z.odd x.
Proof. intros Hm. rewrite Z.odd_sub, Hm. by rewrite xorb_false_r. Qed.
Lemma shut_turn k x : Z.odd x = true → acquire_turn k x = TRet false.
Proof.
  intros H. assert (Hc : negb (Z.land x mutexClosed =? 0) = true) by (by rewrite odd_closed, negb_involutive).
  destruct k; unfold acquire_turn, rwlock_turn, incref_turn, increfAndClose_turn; by rewrite Hc.
Qed.
Lemma release_odd k x new : release_turn k x = TCas new → Z.odd new = Z.odd x.
Proof.
  destruct k; unfold release_turn, rwunlock_turn, decref_turn; destruct (_ || _) || destruct (_ =? _); try done;
    [| |intros [= <-]; by rewrite odd_u64, odd_sub_even..];
    intros [= <-]; destruct (negb _); rewrite ?odd_u64, ?odd_sub_even, ?odd_u64, ?odd_sub_even, ?odd_andnot; done.
Qed.
Lemma close_odd x new : increfAndClose_turn x = TCas new → Z.odd new = true.
Proof.
  unfold increfAndClose_turn. destruct (negb _); [done|]. destruct (_ =? 0); [done|]. intros [= <-].
  rewrite odd_andnot by done. rewrite odd_u64, Z.odd_add. change (Z.odd mutexRef) with false. rewrite xorb_false_r.
  rewrite <- Z.bit0_odd, Z.lor_spec. change (Z.testbit mutexClosed 0) with true. by rewrite orb_true_r.
Qed.

(** ** The lock of fd_mutex.go *)
(** One turn of some goroutine's loop that swaps in a new word. *)
Definition turned (x y : Z) : Prop := ∃ k, acquire_turn k x = TCas y ∨ release_turn k x = TCas y.
(** An acquiring loop, while others take their turns; a goroutine that sleeps
    starts over when it is woken.  One that panics, or sleeps for ever, ends the
    program: nothing is acquired from then on. *)
Definition sleeps (p : pc) : Prop := match p with Sleep _ => True | _ => False end.
Inductive acquires (k : kind) : Z → bool → Z → Prop :=
| acq_others x y b z : turned x y → acquires k y b z → acquires k x b z
| acq_returns x b : acquire_turn k x = TRet b → acquires k x b x
| acq_takes x new : acquire_turn k x = TCas new → ¬ sleeps (after_acquire k x) → acquires k x true new
| acq_sleeps x new b z : acquire_turn k x = TCas new → sleeps (after_acquire k x) →
    acquires k new b z → acquires k x b z
| acq_panics x m : acquire_turn k x = TPanic m → acquires k x false mutexClosed
| acq_stays x new : acquire_turn k x = TCas new → sleeps (after_acquire k x) → acquires k x false mutexClosed.
Inductive releases (k : kind) : Z → bool → Z → Prop :=
| rel_others x y b z : turned x y → releases k y b z → releases k x b z
| rel_returns x b : release_turn k x = TRet b → releases k x b x
| rel_gives x new : release_turn k x = TCas new → releases k x (last_ref new) new
| rel_panics x m : release_turn k x = TPanic m → releases k x false mutexClosed.

(** The environment's lock is that word, and during the other calls too only
    turns move it. *)
Class LockTurns (W : Type) {E : Env W} : Type :=
  { word : W → Z;
    turns_acquire k w : ∃ y, acquires k (word w) (fst (acquire k w)) y ∧ rtc turned y (word (snd (acquire k w)));
    turns_release k w : ∃ y, releases k (word w) (fst (release k w)) y ∧ rtc turned y (word (snd (release k w)));
    turns_pollUnblock w : rtc turned (word w) (word (pollUnblock w));
    turns_pollClose w : rtc turned (word w) (word (pollClose w));
    turns_dosys c w : rtc turned (word w) (word (snd (dosys c w)));
    turns_csemacquire w : rtc turned (word w) (word (csemacquire w));
    turns_csemrelease w : rtc turned (word w) (word (csemrelease w)) }.

Lemma turned_odd x y : Z.odd x = true → turned x y → Z.odd y = true.
Proof. intros H [k [E|E]]; [by rewrite shut_turn in E|by rewrite (release_odd _ _ _ E)]. Qed.
Lemma turns_odd x y : Z.odd x = true → rtc turned x y → Z.odd y = true.
Proof. intros H Hr. induction Hr as [|x y z Ht _ IH]; [done|]. apply IH. by eapply turned_odd. Qed.
Lemma acquires_shut k x b z : acquires k x b z → Z.odd x = true → b = false ∧ Z.odd z = true.
Proof.
  induction 1 as [x y b z Ht _ IH|x b E|x new E _|x new b z E _ _ _|x m E|x new E _]; intros Ho;
    try (by rewrite shut_turn in E by done); [by apply IH, (turned_odd x)|].
  rewrite shut_turn in E by done. by injection E as <-.
Qed.
Lemma acquires_close x b z : acquires KClose x b z → Z.odd z = true.
Proof.
  induction 1 as [x y b z Ht _ IH|x b E|x new E _|x new b z E Hs _ _|x m E|x new E Hs];
    [done| |by apply close_odd in E|by cbn in Hs|done|done].
  cbn [acquire_turn] in E. unfold increfAndClose_turn in E. rewrite odd_closed, negb_involutive in E.
  destruct (Z.odd x); [done|]. by destruct (_ =? 0).
Qed.
Lemma releases_odd k x b z : releases k x b z → Z.odd x = true → Z.odd z = true.
Proof.
  induction 1 as [x y b z Ht _ IH|x b E|x new E|x m E]; intros Ho; [by apply IH, (turned_odd x)|done| |done].
  by rewrite (release_odd _ _ _ E).
Qed.
#[global] Instance turns_closing {W} {E : Env W} {L : LockTurns W} : ClosingLock W.
Proof.
  refine {| shut := λ w, Z.odd (word w) = true |}.
  - intros w. destruct (turns_acquire KClose w) as (y&Ha&Hr). apply (turns_odd y); [|done]. by eapply acquires_close.
  - intros k w H. destruct (turns_acquire k w) as (y&Ha&_). by eapply acquires_shut.
  - intros k w H. destruct (turns_acquire k w) as (y&Ha&Hr). apply (turns_odd y); [|done]. by eapply acquires_shut.
  - intros k w H. destruct (turns_release k w) as (y&Ha&Hr). apply (turns_odd y); [|done]. by eapply releases_odd.
  - intros w H. eapply turns_odd; [exact H|apply turns_pollUnblock].
  - intros w H. eapply turns_odd; [exact H|apply turns_pollClose].
  - intros c w H. eapply turns_odd; [exact H|apply turns_dosys].
  - intros w H. eapply turns_odd; [exact H|apply turns_csemacquire].
  - intros w H. eapply turns_odd; [exact H|apply turns_csemrelease].
Defined.

(** Operations one after the other, [None] being Close: their errors. *)
Definition run_one {W} {E : Env W} (fuel : nat) (o : option fdop) : M W (option ioerror) :=
  match o with Some o => run_op fuel o | None => Close end.
Fixpoint run_all {W} {E : Env W} (fuel : nat) (os : list (option fdop)) : M W (list (option ioerror)) :=
  match os with
  | [] => mret []
  | o :: os => e ← run_one fuel o; es ← run_all fuel os; mret (e :: es)
  end.
Definition kind_one (o : option fdop) : kind := match o with Some o => kind_of o | None => KClose end.

Section Closing.
Context {W : Type} {E : Env W} {C : ClosingLock W}.
Implicit Types (s : st W) (fuel : nat).

Lemma shut_release_runs k s a s' : shut (env s) → fd_release k s = Ok (a, s') → shut (env s').
Proof.
  intros Hs. unfold fd_release, destroy, pd_close, sys, tell, ask, mbind, M_bind, mret, M_ret, modfd, getfd.
  pose proof (shut_release k _ Hs) as Hr. destruct (release k (env s)) as [last w]; cbn in Hr. destruct last; cbn.
  - destruct (runtimeCtx (fds s) =? 0); cbn;
      match goal with |- context [dosys ?c ?w'] => pose proof (shut_dosys c w') as Hd; destruct (dosys c w') as [r w''] end;
      cbn in *; intros [= <- <-]; cbn; auto using shut_csemrelease, shut_pollClose.
  - by intros [= <- <-].
Qed.
(** Close refused, or done: waiters are woken before the reference is dropped,
    and a descriptor in non-blocking mode is waited for. *)
Definition closing_calls (fd fd' : FD) (new : list event) : Prop :=
  (new = [EAcquire KClose false] ∧ fd' = fd) ∨
  ∃ tail, released_with KClose fd fd' tail ∧
    new = EAcquire KClose true :: (if pollable fd then [EUnblock] else []) ++ tail ++
          (if isBlocking fd =? 0 then [ESemacquire] else []).
Lemma Close_runs s a s' : Close s = Ok (a, s') → shut (env s') ∧
  ∃ new, trace s' = trace s ++ new ∧ closing_calls (fds s) (fds s') new.
Proof.
  unfold Close, evict, sys, tell, ask, mbind, M_bind, mret, M_ret, getfd.
  pose proof (close_shuts (env s)) as Hs. destruct (acquire KClose (env s)) as [ok w]; cbn in Hs. destruct ok; cbn.
  - assert (Hend : ∀ w' pre, shut w' → pre = (if pollable (fds s) then [EUnblock] else []) →
      match fd_release KClose (St (fds s) w' ((trace s ++ [EAcquire KClose true]) ++ pre)) with
      | Ok (a0, s0) => match (if isBlocking (fds s0) =? 0 then λ s2, Ok (tt, St (fds s2) (csemacquire (env s2)) (trace s2 ++ [ESemacquire]))
                          else λ s2, Ok (tt, s2)) s0 with
                       | Ok (_, s2) => Ok (a0, s2) | Err e => Err e | Panic p => Panic p end
      | Err e => Err e | Panic p => Panic p
      end = Ok (a, s') → shut (env s') ∧ ∃ new, trace s' = trace s ++ new ∧ closing_calls (fds s) (fds s') new).
    { intros w' pre Hw ->. set (s1 := St _ w' _). destruct (fd_release KClose s1) as [[e s2]| |] eqn:Er; [|done..].
      pose proof (shut_release_runs _ _ _ _ (Hw : shut (env s1)) Er) as Hs2.
      destruct (release_runs _ _ _ _ Er) as (tail&Et&Hr). cbn in Et, Hr.
      assert (Eb : isBlocking (fds s2) = isBlocking (fds s)) by (by destruct Hr as [[_ ->]|(r&_&->)]).
      rewrite Eb. destruct (Z.eqb_spec (isBlocking (fds s)) 0) as [E0|E0]; intros [= <- <-]; cbn.
      - split; [by apply shut_csemacquire|]. eexists. rewrite Et, <- !app_assoc. split; [done|]. right.
        exists tail. split; [done|]. by rewrite E0.
      - split; [done|]. eexists. rewrite Et, <- !app_assoc. split; [done|]. right. exists tail. split; [done|].
        rewrite (proj2 (Z.eqb_neq _ _) E0). by rewrite app_nil_r. }
    destruct (Z.eqb_spec (runtimeCtx (fds s)) 0) as [E0|E0]; cbn; intros H.
    + apply (Hend w []); [done|unfold pollable; by rewrite E0|]. rewrite app_nil_r. rewrite <- H.
      destruct (fd_release _ _) as [[e s2]| |]; [|done..]. by destruct (_ =? _).
    + apply (Hend (pollUnblock w) [EUnblock]); [by apply shut_pollUnblock|unfold pollable; by rewrite (proj2 (Z.eqb_neq _ _) E0)|].
      rewrite <- H. destruct (fd_release _ _) as [[e s2]| |]; [|done..]. by destruct (_ =? _).
  - intros [= <- <-]. cbn. split; [done|]. eexists. split; [done|]. by left.
Qed.
Lemma closing_isFile fd fd' new : closing_calls fd fd' new → isFile fd' = isFile fd.
Proof. by intros [[_ ->]|(tail&[[_ ->]|(r&_&->)]&_)]. Qed.
Lemma release_ends k s : ∃ a s', fd_release k s = Ok (a, s').
Proof.
  unfold fd_release, destroy, pd_close, sys, tell, ask, mbind, M_bind, mret, M_ret, modfd, getfd.
  destruct (release k (env s)) as [last w]; destruct last; cbn; [|by eauto].
  destruct (runtimeCtx (fds s) =? 0); cbn;
    match goal with |- context [dosys ?c ?w'] => destruct (dosys c w') as [r w''] end; cbn; by eauto.
Qed.
Lemma Close_ends s : ∃ a s', Close s = Ok (a, s').
Proof.
  unfold Close, evict, tell, ask, mbind, M_bind, mret, M_ret, getfd.
  destruct (acquire KClose (env s)) as [ok w]; destruct ok; cbn; [|by eauto].
  destruct (runtimeCtx (fds s) =? 0); cbn;
    match goal with |- context [fd_release KClose ?s0] => destruct (release_ends KClose s0) as (e&s2&->) end;
    destruct (isBlocking (fds s2) =? 0); cbn; by eauto.
Qed.
Lemma run_all_shut fuel os : ∀ s, shut (env s) → ∃ s', run_all fuel os s =
    Ok ((λ _, Some (errClosing (isFile (fds s)))) <$> os, s') ∧
  fds s' = fds s ∧ trace s' = trace s ++ ((λ o, EAcquire (kind_one o) false) <$> os).
Proof.
  induction os as [|o os IH]; intros s Hs; cbn [run_all].
  { exists s. cbn. by rewrite app_nil_r. }
  set (s1 := St (fds s) (snd (acquire (kind_one o) (env s))) (trace s ++ [EAcquire (kind_one o) false])).
  assert (H1 : run_one fuel o s = Ok (Some (errClosing (isFile (fds s))), s1)).
  { pose proof (shut_refuses (kind_one o) _ Hs) as Hr. unfold s1. destruct o as [o|]; cbn [run_one kind_one].
    - apply refused_runs, Hr.
    - unfold Close, ask, mbind, M_bind, mret, M_ret, getfd. cbn [kind_one] in Hr.
      destruct (acquire KClose (env s)) as [ok w]. cbn in Hr. by subst ok. }
  destruct (IH s1 (shut_acquire _ _ Hs)) as (s2&E2&Ef&Et). exists s2. unfold mbind, M_bind. rewrite H1, E2.
  cbn. split; [done|]. rewrite Et. split; [done|]. unfold s1. cbn. by rewrite <- app_assoc.
Qed.
End Closing.

(** ** A world *)
(** One goroutine on a descriptor: the lock word, the poller's descriptor, and
    what the kernel and the function given to RawRead answer next.  A kernel
    with no more answers does all it is asked to; an answer it cannot give is
    replaced by that. *)
Record world : Set := World
  { w_lock : Z; w_desc : Netpoll.pollDesc; w_sys : list sysres; w_user : list bool }.
#[global] Instance counted_dec r l : Decision (counted r l).
Proof. unfold counted. destruct (r_err r); apply _. Defined.
#[global] Instance sys_ok_dec c r : Decision (sys_ok c r).
Proof. destruct c; apply _. Defined.
Definition asked (c : syscall) : Z :=
  match c with
  | SysRead _ l | SysPread _ l _ | SysRecvfrom _ _ l _ | SysReadDirent _ l | SysSendfile _ _ l => Z.max 0 l
  | SysWrite _ p | SysPwrite _ p _ => len p
  | SysWritev _ iovecs => len (concat iovecs)
  | _ => 0
  end.
Definition all_done (c : syscall) : sysres := SysRes (asked c) 0 0 None None.
(** The kernel's writev writes something if it can. *)
Definition lively (c : syscall) (r : sysres) : Prop :=
  match c with SysWritev _ iovecs => r_err r = None → concat iovecs ≠ [] → 0 < r_n r | _ => True end.
#[global] Instance lively_dec c r : Decision (lively c r).
Proof. destruct c; apply _. Defined.
(** A read of a negative length fails. *)
Definition answer (c : syscall) (r : sysres) : sysres :=
  if decide (sys_ok c r ∧ lively c r) then r
  else if decide (sys_ok c (all_done c)) then all_done c else SysRes (-1) 0 0 None (Some EINVAL).
Definition w_dosys (c : syscall) (w : world) : sysres * world :=
  match w_sys w with
  | [] => (answer c (all_done c), w)
  | r :: rs => (answer c r, World (w_lock w) (w_desc w) rs (w_user w))
  end.
Definition set_lock_word (x : Z) (w : world) : world := World x (w_desc w) (w_sys w) (w_user w).
Definition set_desc (pd : Netpoll.pollDesc) (w : world) : world := World (w_lock w) pd (w_sys w) (w_user w).
(** A panic ends the program, as does a lone goroutine that sleeps: the lock
    refuses from then on. *)
Definition w_acquire (k : kind) (w : world) : bool * world :=
  match acquire_turn k (w_lock w) with
  | TCas new =>
      match after_acquire k (w_lock w) with
      | Sleep _ => (false, set_lock_word mutexClosed w)
      | _ => (true, set_lock_word new w)
      end
  | TRet b => (b, w)
  | TPanic _ => (false, set_lock_word mutexClosed w)
  end.
Definition w_release (k : kind) (w : world) : bool * world :=
  match release_turn k (w_lock w) with
  | TCas new => (last_ref new, set_lock_word new w)
  | TRet b => (b, w)
  | TPanic _ => (false, set_lock_word mutexClosed w)
  end.
Definition on_desc (f : Netpoll.pollDesc → res Netpoll.outcome) (w : world) : world :=
  match f (w_desc w) with Ok o => set_desc (Netpoll.o_pd o) w | _ => w end.
#[global] Instance world_env : Env world :=
  { acquire := w_acquire; release := w_release;
    pollReset m w := let '(c, pd) := Netpoll.poll_runtime_pollReset (w_desc w) m in (c, set_desc pd w);
    pollWait m w := (Netpoll.netpollcheckerr (Netpoll.atomicInfo (w_desc w)) m, w);
    pollUnblock := on_desc Netpoll.poll_runtime_pollUnblock;
    pollClose w := set_desc (Netpoll.free_locked (w_desc w)) w;
    pollOpen fd w := match Netpoll.pollOpen_locked fd (w_desc w) with
                     | Ok pd => ((1, 0), set_desc pd w) | _ => ((0, EINVAL), w) end;
    pollSetDeadline d m := on_desc (λ pd, Netpoll.poll_runtime_pollSetDeadline pd d m 1);
    csemacquire w := w; csemrelease w := w;
    dosys := w_dosys;
    user _ w := match w_user w with
                | [] => (true, w) | b :: bs => (b, World (w_lock w) (w_desc w) (w_sys w) bs) end }.

Lemma checkerr_code i m : 0 <= Netpoll.netpollcheckerr i m <= 3.
Proof.
  unfold Netpoll.netpollcheckerr, Netpoll.pollErrClosing, Netpoll.pollErrTimeout, Netpoll.pollErrNotPollable, Netpoll.pollNoError.
  repeat case_match; lia.
Qed.
Lemma answer_ok c r : sys_ok c (answer c r).
Proof.
  unfold answer. destruct (decide (sys_ok c r ∧ _)) as [[]|]; [done|]. destruct (decide (sys_ok c (all_done c))); [done|].
  by destruct c.
Qed.
Lemma on_desc_rest f w : w_sys (on_desc f w) = w_sys w ∧ w_user (on_desc f w) = w_user w ∧ w_lock (on_desc f w) = w_lock w.
Proof. unfold on_desc. by destruct (f _). Qed.
Lemma acquire_rest k w : w_sys (snd (w_acquire k w)) = w_sys w ∧ w_user (snd (w_acquire k w)) = w_user w.
Proof. unfold w_acquire. destruct (acquire_turn _ _); [done..|]. by destruct (after_acquire _ _). Qed.
Lemma release_rest k w : w_sys (snd (w_release k w)) = w_sys w ∧ w_user (snd (w_release k w)) = w_user w.
Proof. unfold w_release. by destruct (release_turn _ _). Qed.
Definition w_patience (w : world) : nat := length (w_sys w) + length (w_user w).
Lemma all_done_retried c : retried (answer c (all_done c)) = false.
Proof.
  unfold answer. destruct (decide (sys_ok c (all_done c) ∧ _)); [done|]. by destruct (decide _).
Qed.
#[global, refine] Instance world_kernel : Kernel world := { patience := w_patience }.
Proof.
  - intros m w. cbn. unfold Netpoll.poll_runtime_pollReset. pose proof (checkerr_code (Netpoll.atomicInfo (w_desc w)) m).
    destruct (negb _); cbn; [done|]. unfold Netpoll.pollNoError.
    destruct (m =? _); [cbn; lia|]. destruct (m =? _); cbn; lia.
  - intros m w. cbn. apply checkerr_code.
  - intros c w. cbn. unfold w_dosys. destruct (w_sys w); apply answer_ok.
  - intros k w. cbn. unfold w_patience. destruct (acquire_rest k w) as [-> ->]. lia.
  - intros k w. cbn. unfold w_patience. destruct (release_rest k w) as [-> ->]. lia.
  - intros m w. cbn. by destruct (Netpoll.poll_runtime_pollReset _ _).
  - intros m w. done.
  - intros w. done.
  - intros d m w. cbn. unfold w_patience.
    destruct (on_desc_rest (λ pd, Netpoll.poll_runtime_pollSetDeadline pd d m 1) w) as (->&->&_). lia.
  - intros w. done.
  - intros c w. cbn. unfold w_dosys, w_patience. destruct (w_sys w) as [|r rs] eqn:Es; cbn; rewrite ?Es.
    + rewrite all_done_retried. cbn; lia.
    + destruct (retried _); lia.
  - intros fd w. cbn. unfold w_patience. destruct (w_user w) as [|[] bs] eqn:Es; cbn; rewrite ?Es; cbn; lia.
Defined.

Lemma world_eager : eager (W := world).
Proof.
  intros f v w. cbn. assert (H : ∀ r, let a := answer (SysWritev f v) r in r_err a = None → concat v ≠ [] → 0 < r_n a).
  { intros r. unfold answer. destruct (decide _) as [[_ Hl]|_]; [exact Hl|]. destruct (decide _); [|done].
    cbn. intros _ Hv. destruct (concat v); [done|]. rewrite len_cons. pose proof (len_nonneg l). lia. }
  unfold w_dosys. destruct (w_sys w); apply H.
Qed.

#[global] Instance world_turns : LockTurns world.
Proof.
  refine {| word := w_lock |}; try (intros; exact (rtc_refl _ _)).
  - intros k w. cbn. unfold w_acquire. destruct (acquire_turn k (w_lock w)) as [b|m|new] eqn:Et; cbn.
    + exists (w_lock w). split; [by apply acq_returns|done].
    + exists mutexClosed. split; [by eapply acq_panics|done].
    + destruct (after_acquire k (w_lock w)) eqn:Ea; cbn;
        first [exists new; split; [apply acq_takes; [done|rewrite Ea; by intros []]|exact (rtc_refl _ _)]
              |exists mutexClosed; split; [apply (acq_stays _ _ new); [done|by rewrite Ea]|exact (rtc_refl _ _)]].
  - intros k w. cbn. unfold w_release. destruct (release_turn k (w_lock w)) as [b|m|new] eqn:Et; cbn.
    + exists (w_lock w). split; [by apply rel_returns|done].
    + exists mutexClosed. split; [by eapply rel_panics|done].
    + exists new. split; [by apply rel_gives|done].
  - intros w. cbn. destruct (on_desc_rest Netpoll.poll_runtime_pollUnblock w) as (_&_&->). apply rtc_refl.
  - intros c w. cbn. unfold w_dosys. destruct (w_sys w); apply rtc_refl.
Defined.
