(* ===== verification/FdUnixProps.v ===== *)
(** * internal/poll: the properties of the operations on a descriptor *)
From S2P Require Import Prelude Threads FdMutex FdUnix FdUnixSpec FdUnixIO FdUnixBulk FdUnixOps FdUnixEnd FdUnixClose.
From S2P Require Netpoll.

(** A run that ends: its result, the state it leaves and the calls it made. *)
Definition completes {W A} (m : M W A) (s : st W) (Q : A → st W → list event → Prop) : Prop :=
  ∃ a s' new, m s = Ok (a, s') ∧ trace s' = trace s ++ new ∧ Q a s' new.

(** A stream on a pollable descriptor, and what the kernel will answer. *)
Definition demo_fd : FD := MkFD 7 1 0 true true false.
Definition demo (answers : list sysres) : st world := St demo_fd (World 0 Netpoll.zeroPD answers []) [].
Definition moved (n : Z) : sysres := SysRes n 0 0 None None.
Definition failing (e : Z) : sysres := SysRes (-1) 0 0 None (Some e).

Section Transfers.
Context {W : Type} {E : Env W} {K : Kernel W}.
Implicit Types (s : st W) (fuel : nat).

(** C6: Write and Pwrite end, whatever the kernel interrupts, puts off or cuts
    short, with enough fuel.  The count returned is what the kernel took: the
    bytes before it went out, in order, each once, and no others; without an
    error that is all of them.  Each call is given the next of the buffer, and
    Pwrite's at the offset where it belongs.  An error is the last call's: the
    kernel's, the poller's, or ErrUnexpectedEOF where a call moved nothing;
    an interruption is never one, EAGAIN only for a descriptor the poller does
    not know or an empty write.  All calls are on the descriptor, under its
    lock, in chunks of at most a gigabyte on a stream; Write asks the poller before the first, and waits for it, rather than
    trying again at once, whenever a call would block. *)
Theorem Write_delivers p off fuel s : (S (pat s + length p) < fuel)%nat →
  completes (Write fuel p) s (λ a s' new, ∃ mid,
    bracketed KWrite (fds s) (fds s') mid new ∧ written (fds s) p off 0 (fst a) (snd a) mid ∧
    prepared (fds s) mode_write mid ∧ (mid = [] → snd a = Some (errClosing (isFile (fds s))))) ∧
  completes (Pwrite fuel p off) s (λ a s' new, ∃ mid,
    bracketed KMisc (fds s) (fds s') mid new ∧ written (set_runtimeCtx 0 (fds s)) p off 0 (fst a) (snd a) mid).
Proof.
  intros Hf. split; apply wp_total; [by apply Write_wp|]. apply Pwrite_wp. intros _. lia.
Qed.

(** C7: Read and ReadFrom end; they return what the kernel gave in the one
    successful call, no more than asked for, and lose nothing it gave; an error
    comes with no bytes and is the last call's: EOF for a success with no bytes
    on a descriptor where that means the end, the kernel's error, or the
    poller's.  Both ask the poller first, and wait for it whenever a call would
    block.  ReadFrom returns the address the last packet came from.  A
    descriptor that is closed gives the closing error. *)
Theorem Read_receives f l fuel s : 0 <= l → (S (pat s) < fuel)%nat →
  completes (Read fuel l) s (λ a s' new, ∃ mid,
    bracketed KRead (fds s) (fds s') mid new ∧ got (fds s) l (fst a) (snd a) mid ∧
    prepared (fds s) mode_read mid ∧
    (mid = [] → snd a = Some (errClosing (isFile (fds s))) ∨ snd a = None ∧ l = 0)) ∧
  completes (readFrom_with f fuel l) s (λ a s' new, ∃ mid,
    bracketed KRead (fds s) (fds s') mid new ∧ got (fds s) l (fst (fst a)) (snd a) mid ∧
    snd (fst a) = source_of mid ∧
    prepared (fds s) mode_read mid ∧ (mid = [] → snd a = Some (errClosing (isFile (fds s))))).
Proof.
  intros Hl Hf. split; apply wp_total; [by apply Read_wp|]. apply readFrom_wp; [done|]. intros _. lia.
Qed.

(** Writev sends the concatenation of the buffers: what it reports went out
    in order, what is left in the caller's slices is the rest, and without an
    error that is nothing; each call passes at most 1024 non-empty slices, none
    over a gigabyte on a stream.  It ends if the kernel makes progress. *)
Theorem Writev_delivers v fuel s : eager → len (concat v) < 2 ^ 63 → (S (pat s + length (concat v)) < fuel)%nat →
  completes (Writev fuel v) s (λ a s' new, ∃ mid,
    bracketed KWrite (fds s) (fds s') mid new ∧
    vectored (fds s) v 0 (fst (fst a)) (snd (fst a)) (snd a) mid).
Proof. intros He Hl Hf. apply wp_total. by apply Writev_wp. Qed.

(** SendFile ends, and returns how much the kernel copied from the source,
    never over the limit and at most 4 MB a call; it is handled exactly when
    there is no error, and stops short of the limit without one only at the end
    of the source. *)
Theorem SendFile_copies src remain fuel s : (pat s + Z.to_nat remain < fuel)%nat →
  completes (SendFile fuel src remain) s (λ a s' new, ∃ mid,
    bracketed KWrite (fds s) (fds s') mid new ∧
    filed (fds s) src remain (fst (fst a)) (snd (fst a)) (snd a) mid).
Proof. intros Hf. apply wp_total. by apply SendFile_wp. Qed.

(** WaitWrite takes no lock: it asks the poller, which a descriptor that is not
    registered has none of. *)
Lemma WaitWrite_waits s : completes WaitWrite s (λ err s' new, fds s' = fds s ∧
  ((pollable (fds s) = false ∧ new = [] ∧ err = Some ErrWaitUnsupported) ∨
   ∃ code, new = [EWait mode_write code] ∧ err = poll_err (isFile (fds s)) code)).
Proof.
  apply wp_total. unfold WaitWrite, wait. wp_step. wp_step. destruct (runtimeCtx (fds s) =? 0) eqn:E0.
  - apply wp_ret. split; [done|]. left. unfold pollable. by rewrite E0.
  - wp_step. wp_step. apply wp_convertErr_code; [apply wait_code|]. split; [done|]. right. by eexists.
Qed.

(** C9: Every operation that takes the lock, Close apart, returns, given fuel for
    what the kernel still puts off and the bytes to move, and for Writev a kernel
    that writes something whenever it does not fail ([can_end]; without it Writev
    may never return, [Writev_spins]).  Either the lock refuses it, and that is
    all it did, with the closing error; or between taking the lock and giving it
    back, once each, it neither closes nor wakes nor changes the descriptor but
    for its blocking mode, and the giver-back of the last reference leaves the
    poller before it closes the descriptor, and signals that last.  WaitWrite
    takes no lock and does nothing but ask the poller. *)
Theorem ops_bracketed fuel s :
  (∀ o, can_end (W := W) o → enough fuel o s →
    completes (run_op fuel o) s (λ err s' new,
      (new = [EAcquire (kind_of o) false] ∧ fds s' = fds s ∧ err = Some (errClosing (isFile (fds s)))) ∨
      ∃ mid tail fd1, new = EAcquire (kind_of o) true :: mid ++ tail ∧
        Forall quiet mid ∧ keeps (fds s) fd1 ∧ released_with (kind_of o) fd1 (fds s') tail)) ∧
  completes WaitWrite s (λ err s' new, fds s' = fds s ∧
    ((pollable (fds s) = false ∧ new = [] ∧ err = Some ErrWaitUnsupported) ∨
     ∃ code, new = [EWait mode_write code] ∧ err = poll_err (isFile (fds s)) code)).
Proof.
  split; [|apply WaitWrite_waits]. intros o Hc Hf.
  destruct (wp_total _ _ _ (ops_end fuel o s Hc Hf)) as (err&s'&new&Er&Et&_).
  exists err, s', new. split; [done|]. split; [done|].
  destruct (ops_guarded fuel o s err s' Er) as [(Et'&Hfd&->)|(mid&tail&fd1&Et'&H)];
    rewrite Et in Et'; apply app_inv_head in Et' as ->; [by left|right; eauto].
Qed.
End Transfers.

Section Closing.
Context {W : Type} {E : Env W} {L : LockTurns W}.
Implicit Types (s : st W) (fuel : nat).
(** C8: The descriptor's lock being the word of fd_mutex.go, moved by its turns,
    this goroutine's and any of others in between: Close returns, having woken
    the waiters before it dropped its reference; and whatever it answered, every
    operation from then on that takes the lock, another Close included, is
    refused by it with the closing error, and makes no other call.  (WaitWrite
    takes no lock.) *)
Theorem Close_final s : completes Close s (λ a s1 new,
  closing_calls (fds s) (fds s1) new ∧
  ∀ fuel os, completes (run_all fuel os) s1 (λ es s2 new',
    es = ((λ _, Some (errClosing (isFile (fds s)))) <$> os) ∧ fds s2 = fds s1 ∧
    new' = ((λ o, EAcquire (kind_one o) false) <$> os))).
Proof.
  destruct (Close_ends s) as (a&s1&Hc). destruct (Close_runs _ _ _ Hc) as (Hs&new&Et&Hn).
  exists a, s1, new. split; [done|]. split; [done|]. split; [done|]. intros fuel os.
  destruct (run_all_shut fuel os s1 Hs) as (s2&E2&Ef&Et2). rewrite (closing_isFile _ _ _ Hn) in E2.
  by exists ((λ _, Some (errClosing (isFile (fds s)))) <$> os), s2, ((λ o, EAcquire (kind_one o) false) <$> os).
Qed.
End Closing.

Lemma Write_delivers_witness :
  (∃ s', Write 20 "hello"%go (demo [failing EINTR; moved 2; failing EAGAIN]) = Ok ((5, None), s')) ∧
  completes (Write 20 "hello"%go) (demo [failing EINTR; moved 2; failing EAGAIN]) (λ a s' new, ∃ mid,
    bracketed KWrite demo_fd (fds s') mid new ∧ written demo_fd "hello"%go 3 0 (fst a) (snd a) mid ∧
    prepared demo_fd mode_write mid ∧ (mid = [] → snd a = Some ErrNetClosing)).
Proof.
  split; [eexists; vm_compute; reflexivity|].
  refine (proj1 (Write_delivers "hello"%go 3 20 (demo [failing EINTR; moved 2; failing EAGAIN]) _)).
  vm_compute. lia.
Defined.
Lemma Read_receives_witness :
  (∃ s', Read 9 100 (demo [failing EAGAIN; moved 0]) = Ok ((0, Some EOF), s')) ∧
  completes (Read 9 100) (demo [failing EAGAIN; moved 0]) (λ a s' new, ∃ mid,
    bracketed KRead demo_fd (fds s') mid new ∧ got demo_fd 100 (fst a) (snd a) mid ∧
    prepared demo_fd mode_read mid ∧
    (mid = [] → snd a = Some ErrNetClosing ∨ snd a = None ∧ 100 = 0)).
Proof.
  split; [eexists; vm_compute; reflexivity|].
  refine (proj1 (Read_receives AnyAddr 100 9 (demo [failing EAGAIN; moved 0]) _ _)); [done|vm_compute; lia].
Defined.
Lemma Writev_delivers_witness :
  (∃ s', Writev 20 ["he"; ""; "llo"]%go (demo [moved 3; failing EAGAIN]) = Ok ((5, None, []), s')) ∧
  completes (Writev 20 ["he"; ""; "llo"]%go) (demo [moved 3; failing EAGAIN]) (λ a s' new, ∃ mid,
    bracketed KWrite demo_fd (fds s') mid new ∧
    vectored demo_fd ["he"; ""; "llo"]%go 0 (fst (fst a)) (snd (fst a)) (snd a) mid).
Proof.
  split; [eexists; vm_compute; reflexivity|].
  refine (Writev_delivers ["he"; ""; "llo"]%go 20 (demo [moved 3; failing EAGAIN]) world_eager _ _); [done|vm_compute; lia].
Defined.
Lemma SendFile_copies_witness :
  (∃ s', SendFile 20 3 10 (demo [moved 4; failing EINTR; moved 0]) = Ok ((4, None, true), s')) ∧
  completes (SendFile 20 3 10) (demo [moved 4; failing EINTR; moved 0]) (λ a s' new, ∃ mid,
    bracketed KWrite demo_fd (fds s') mid new ∧
    filed demo_fd 3 10 (fst (fst a)) (snd (fst a)) (snd a) mid).
Proof.
  split; [eexists; vm_compute; reflexivity|].
  refine (SendFile_copies 3 10 20 (demo [moved 4; failing EINTR; moved 0]) _). vm_compute. lia.
Defined.

Lemma ops_bracketed_witness :
  (∃ s', run_op 9 (OpReadFrom Inet4 64) (demo [failing EINTR; moved 12]) = Ok (None, s')) ∧
  completes (run_op 9 (OpReadFrom Inet4 64)) (demo [failing EINTR; moved 12]) (λ err s' new,
    (new = [EAcquire KRead false] ∧ fds s' = demo_fd ∧ err = Some ErrNetClosing) ∨
    ∃ mid tail fd1, new = EAcquire KRead true :: mid ++ tail ∧
      Forall quiet mid ∧ keeps demo_fd fd1 ∧ released_with KRead fd1 (fds s') tail).
Proof.
  split; [eexists; vm_compute; reflexivity|].
  refine (proj1 (ops_bracketed 9 (demo [failing EINTR; moved 12])) (OpReadFrom Inet4 64) _ _); [exact I|vm_compute; lia].
Defined.
Lemma Close_final_witness :
  (∃ s1, Close (demo []) = Ok (None, s1) ∧ trace s1 =
    [EAcquire KClose true; EUnblock; ERelease KClose true; EPollClose; ESys (SysClose 7) (moved 0); ESemrelease; ESemacquire]) ∧
  completes Close (demo []) (λ a s1 new, closing_calls demo_fd (fds s1) new ∧
    ∀ fuel os, completes (run_all fuel os) s1 (λ es s2 new',
      es = ((λ _, Some ErrNetClosing) <$> os) ∧ fds s2 = fds s1 ∧
      new' = ((λ o, EAcquire (kind_one o) false) <$> os))).
Proof.
  split; [eexists; split; vm_compute; reflexivity|]. exact (Close_final (demo [])).
Defined.

(** ** A writev that moves nothing *)
(** The test that should end Writev's loop after a call that moved nothing is on
    the total, not on what the call moved: once a byte has gone out, a kernel
    that moves no more keeps the loop going for ever.  (Write tests what the
    call moved.) *)
Section Spin.
Context {W : Type} {E : Env W}.
Hypothesis idle_kernel : ∀ f iovecs w, dosys (SysWritev f iovecs) w = (moved 0, w).
Lemma Writev_spins fuel : ∀ v n s, 0 < n < 2 ^ 63 → concat v ≠ [] → Writev_loop fuel v n s = Panic [].
Proof.
  induction fuel as [|fuel IH]; intros v n s Hn Hv; [done|]. cbn [Writev_loop].
  destruct v as [|b v0]; [done|]. set (v := b :: v0) in *.
  destruct (gather_spec (fds s) v 0 maxVec_pos) as (_&_&_&Hg).
  unfold mbind at 1, M_bind at 1, getfd. destruct (gather (fds s) v 0) as [|c cs] eqn:Eg; [by destruct Hv; apply Hg|].
  destruct fuel as [|fuel]; [done|].
  unfold mbind at 1, M_bind at 1. cbn [ignoringEINTR]. unfold mbind at 1, M_bind at 1, sys, ask. rewrite idle_kernel.
  change (failed (moved 0) EINTR) with false. cbn [mret M_ret].
  change (i64 (wrote (moved 0))) with 0. rewrite Z.add_0_r, i64_id by lia.
  destruct (consume_ok v 0) as (v'&->&Hv'); [pose proof (len_nonneg (concat v)); lia|].
  unfold mbind at 1, M_bind at 1, lift. change (r_err (moved 0)) with (@None Z). cbv beta iota.
  rewrite (proj2 (Z.eqb_neq n 0)) by lia. apply IH; [done|]. by rewrite Hv'.
Qed.
End Spin.
