(* ===== verification/NetHost.v ===== *)
(** * package net: hosts, ports and hardware addresses in text

    parse.go, mac.go, port.go and the part of ipsock.go that takes addresses
    apart and puts them together. *)
From S2P Require Import Prelude Strconv NetipText.

(** ** parse.go *)
Definition big : Z := 0xFFFFFF.
(** The loops of dtoi and xtoi from position [i] on, with the value so far. *)
Fixpoint dtoi_loop (s : bytes) (n i : Z) : Z * Z * bool :=
  match s with
  | c :: s' =>
      if ("0"%byte <=? c) && (c <=? "9"%byte) then
        let n := n * 10 + (c - "0"%byte) in
        if n >=? big then (big, i, false) else dtoi_loop s' n (i + 1)
      else if i =? 0 then (0, 0, false) else (n, i, true)
  | [] => if i =? 0 then (0, 0, false) else (n, i, true)
  end.
Definition dtoi (s : bytes) : Z * Z * bool := dtoi_loop s 0 0.
Definition hex_value (c : Z) : option Z :=
  if ("0"%byte <=? c) && (c <=? "9"%byte) then Some (c - "0"%byte)
  else if ("a"%byte <=? c) && (c <=? "f"%byte) then Some (c - "a"%byte + 10)
  else if ("A"%byte <=? c) && (c <=? "F"%byte) then Some (c - "A"%byte + 10)
  else None.
Fixpoint xtoi_loop (s : bytes) (n i : Z) : Z * Z * bool :=
  match s with
  | c :: s' =>
      match hex_value c with
      | Some d =>
          let n := n * 16 + d in
          if n >=? big then (0, i, false) else xtoi_loop s' n (i + 1)
      | None => if i =? 0 then (0, i, false) else (n, i, true)
      end
  | [] => if i =? 0 then (0, i, false) else (n, i, true)
  end.
Definition xtoi (s : bytes) : Z * Z * bool := xtoi_loop s 0 0.
Definition xtoi2 (s : bytes) (e : Z) : res (Z * bool) :=
  third ← (if len s >? 2 then c ← at_ s 2; Ok (negb (c =? e)) else Ok false);
  if (third : bool) then Ok (0, false)
  else
    t ← upto s 2;
    let '(n, ei, ok) := xtoi t in Ok (u8 n, ok && (ei =? 2)).

Definition lowerASCII (b : Z) : Z :=
  if ("A"%byte <=? b) && (b <=? "Z"%byte) then u8 (b + ("a"%byte - "A"%byte)) else b.
Definition lowerASCIIBytes (x : bytes) : bytes := map lowerASCII x.
Definition hasUpperCase (s : bytes) : bool := existsb (λ c, ("A"%byte <=? c) && (c <=? "Z"%byte)) s.
Definition isSpace (b : Z) : bool :=
  (b =? " "%byte) || (b =? 9) || (b =? 10) || (b =? 13).
Fixpoint trim_front (x : bytes) : bytes :=
  match x with c :: x' => if isSpace c then trim_front x' else x | [] => [] end.
Definition trimSpace (x : bytes) : bytes := rev (trim_front (rev (trim_front x))).
Definition removeComment (line : bytes) : res bytes :=
  let i := IndexByteString line "#"%byte in
  if negb (i =? -1) then upto line i else Ok line.
Definition stringsHasSuffix (s suffix : bytes) : res bool :=
  if len s >=? len suffix then t ← from s (len s - len suffix); Ok (beq t suffix) else Ok false.
Definition stringsHasPrefix (s prefix : bytes) : res bool :=
  if len s >=? len prefix then t ← upto s (len prefix); Ok (beq t prefix) else Ok false.
Fixpoint fold_loop (s t : bytes) : bool :=
  match s, t with
  | c :: s, d :: t => (lowerASCII c =? lowerASCII d) && fold_loop s t
  | _, _ => true
  end.
Definition stringsEqualFold (s t : bytes) : bool :=
  if negb (len s =? len t) then false else fold_loop s t.
Definition stringsHasSuffixFold (s suffix : bytes) : res bool :=
  if len s >=? len suffix then t ← from s (len s - len suffix); Ok (stringsEqualFold t suffix) else Ok false.
Definition countAnyByte (s t : bytes) : Z :=
  foldl (λ n c, if IndexByteString t c >=? 0 then n + 1 else n) 0 s.
(** The loop of splitAtBytes at position [i]: the fields found go into the array
    [a] of [n]; [last] is where the current one starts. *)
Fixpoint split_loop (s t rest : bytes) (i last n : Z) (a : list bytes) : res (Z * Z * list bytes) :=
  match rest with
  | [] => Ok (last, n, a)
  | c :: rest =>
      if IndexByteString t c >=? 0 then
        '(n, a) ← (if last <? i then f ← slice s last i; a ← set_at a n f; Ok (n + 1, a) else Ok (n, a));
        split_loop s t rest (i + 1) (i + 1) n a
      else split_loop s t rest (i + 1) last n a
  end.
Definition splitAtBytes (s t : bytes) : res (list bytes) :=
  let a := replicate (Z.to_nat (1 + countAnyByte s t)) [] in
  '(last, n, a) ← split_loop s t s 0 0 0 a;
  '(n, a) ← (if last <? len s then f ← from s last; a ← set_at a n f; Ok (n + 1, a) else Ok (n, a));
  slice a 0 n.
Definition getFields (s : bytes) : res (list bytes) := splitAtBytes s [32; 13; 9; 10].

(** ** mac.go *)
Definition hexDigit : bytes := "0123456789abcdef"%go.
Definition hex_digit (k : Z) : Z := nth (Z.to_nat k) hexDigit 0.
Fixpoint mac_loop (a : bytes) (i : Z) (buf : bytes) : bytes :=
  match a with
  | [] => buf
  | b :: a =>
      let buf := if i >? 0 then buf ++ ":"%go else buf in
      let buf := buf ++ [hex_digit (Z.shiftr b 4)] in
      mac_loop a (i + 1) (buf ++ [hex_digit (Z.land b 0xF)])
  end.
Definition HardwareAddr_String (a : bytes) : bytes :=
  if len a =? 0 then [] else mac_loop a 0 [].
(** The loops of ParseMAC: [n] bytes, or pairs of bytes, are left to fill in;
    [None] is [goto error]. *)
Fixpoint mac_bytes (n : nat) (s : bytes) (x : Z) (hw : bytes) : res (option bytes) :=
  match n with
  | O => Ok (Some hw)
  | S n =>
      t ← from s x;
      sep ← at_ s 2;
      '(b, ok) ← xtoi2 t sep;
      if negb ok then Ok None else mac_bytes n s (x + 3) (hw ++ [b])
  end.
Fixpoint mac_pairs (n : nat) (s : bytes) (x : Z) (hw : bytes) : res (option bytes) :=
  match n with
  | O => Ok (Some hw)
  | S n =>
      t ← slice s x (x + 2);
      '(b, ok) ← xtoi2 t 0;
      if negb ok then Ok None
      else
        t ← from s (x + 2);
        sep ← at_ s 4;
        '(b', ok) ← xtoi2 t sep;
        if negb ok then Ok None else mac_pairs n s (x + 5) (hw ++ [b; b'])
  end.
Definition mac_size (n : Z) : bool := (n =? 6) || (n =? 8) || (n =? 20).
Definition parse_mac (s : bytes) : res (option bytes) :=
  if len s <? 14 then Ok None
  else
    c2 ← at_ s 2;
    if (c2 =? ":"%byte) || (c2 =? "-"%byte) then
      if negb ((len s + 1) mod 3 =? 0) then Ok None
      else
        let n := (len s + 1) / 3 in
        if negb (mac_size n) then Ok None else mac_bytes (Z.to_nat n) s 0 []
    else
      c4 ← at_ s 4;
      if c4 =? "."%byte then
        if negb ((len s + 1) mod 5 =? 0) then Ok None
        else
          let n := 2 * (len s + 1) / 5 in
          if negb (mac_size n) then Ok None else mac_pairs (Z.to_nat (n / 2)) s 0 []
      else Ok None.
Definition ParseMAC (s : bytes) : res bytes :=
  o ← parse_mac s;
  match o with Some hw => Ok hw | None => Err (AddrError "invalid MAC address"%go s) end.

(** ** ipsock.go *)
Definition missingPort : bytes := "missing port in address"%go.
Definition tooManyColons : bytes := "too many colons in address"%go.
Definition addrErr {A} (addr why : bytes) : res A := Err (AddrError why addr).
(** The host, and from where on there is to be no '[' and no ']'. *)
Definition split_host (hostport : bytes) (i : Z) : res (bytes * Z * Z) :=
  c ← at_ hostport 0;
  if c =? "["%byte then
    let end_ := IndexByteString hostport "]"%byte in
    if end_ <? 0 then addrErr hostport "missing ']' in address"%go
    else if end_ + 1 =? len hostport then addrErr hostport missingPort
    else if end_ + 1 =? i then host ← slice hostport 1 end_; Ok (host, 1, end_ + 1)
    else
      c ← at_ hostport (end_ + 1);
      if c =? ":"%byte then addrErr hostport tooManyColons else addrErr hostport missingPort
  else
    host ← upto hostport i;
    if IndexByteString host ":"%byte >=? 0 then addrErr hostport tooManyColons
    else Ok (host, 0, 0).
Definition SplitHostPort (hostport : bytes) : res (bytes * bytes) :=
  let i := LastIndexByteString hostport ":"%byte in
  if i <? 0 then addrErr hostport missingPort
  else
    '(host, j, k) ← split_host hostport i;
    t ← from hostport j;
    if IndexByteString t "["%byte >=? 0 then addrErr hostport "unexpected '[' in address"%go
    else
      t ← from hostport k;
      if IndexByteString t "]"%byte >=? 0 then addrErr hostport "unexpected ']' in address"%go
      else port ← from hostport (i + 1); Ok (host, port).
Definition splitHostZone (s : bytes) : res (bytes * bytes) :=
  let i := LastIndexByteString s "%"%byte in
  if i >? 0 then host ← upto s i; zone ← from s (i + 1); Ok (host, zone)
  else Ok (s, []).
Definition JoinHostPort (host port : bytes) : bytes :=
  if IndexByteString host ":"%byte >=? 0 then "["%go ++ host ++ "]:"%go ++ port
  else host ++ ":"%go ++ port.

(** ** port.go *)
(** The loop of parsePort: the value, or [None] for a byte that is no digit.
    Runes of a string that are no digits are no digits as bytes either. *)
Definition port_max : Z := 2 ^ 32 - 1.
Definition port_cutoff : Z := 2 ^ 30.
Fixpoint port_loop (s : bytes) (n : Z) : option Z :=
  match s with
  | [] => Some n
  | d :: s =>
      if ("0"%byte <=? d) && (d <=? "9"%byte) then
        let d := d - "0"%byte in
        if n >=? port_cutoff then Some port_max
        else
          let n := u32 (n * 10) in
          let nn := u32 (n + d) in
          if (nn <? n) || (nn >? port_max) then Some port_max else port_loop s nn
      else None
  end.
Definition parsePort (service : bytes) : Z * bool :=
  match service with
  | [] => (0, false)
  | c :: rest =>
      let '(neg, s) :=
        if c =? "+"%byte then (false, rest) else if c =? "-"%byte then (true, rest) else (false, service) in
      match port_loop s 0 with
      | None => (0, true)
      | Some n =>
          let port :=
            if negb neg && (n >=? port_cutoff) then port_cutoff - 1
            else if neg && (n >? port_cutoff) then port_cutoff
            else n in
          (if neg then - port else port, false)
      end
  end.
