(* ===== verification/NetHostProps.v ===== *)
(** * package net: hosts, ports and hardware addresses, properties *)
From S2P Require Import Prelude Strconv NetipText NetHost.

(** ** Searching *)
Lemma index_loop_split s c : ∀ i, (index_loop s c i = -1 ∧ ¬ In c s) ∨
  ∃ a b, s = a ++ c :: b ∧ ¬ In c a ∧ index_loop s c i = i + len a.
Proof.
  induction s as [|x s IH]; intros i; cbn [index_loop]; [left; split; [done|apply in_nil]|].
  destruct (Z.eqb_spec x c) as [->|Hx].
  { right. exists [], s. split; [done|]. split; [apply in_nil|]. change (len (@nil Z)) with 0. lia. }
  destruct (IH (i + 1)) as [[-> H]|(a&b&->&H&->)].
  - left. split; [done|]. by intros [?|?].
  - right. exists (x :: a), b. split; [done|]. split; [by intros [?|?]|]. rewrite len_cons. lia.
Qed.
Lemma index_split s c : (IndexByteString s c = -1 ∧ ¬ In c s) ∨
  ∃ a b, s = a ++ c :: b ∧ ¬ In c a ∧ IndexByteString s c = len a.
Proof.
  destruct (index_loop_split s c 0) as [H|(a&b&H1&H2&H3)]; [by left|right; exists a, b].
  unfold IndexByteString. rewrite H3. auto.
Qed.
Lemma last_loop_split s c : ∀ n, (n <= length s)%nat →
  (last_index_loop s c n = -1 ∧ ¬ In c (take n s)) ∨
  ∃ a b, take n s = a ++ c :: b ∧ ¬ In c b ∧ last_index_loop s c n = len a.
Proof.
  induction n as [|n IH]; intros Hn; cbn [last_index_loop]; [left; rewrite take_0; split; [done|apply in_nil]|].
  destruct (lookup_lt_is_Some_2 s n) as [x Hx]; [lia|]. rewrite (take_S_r _ _ _ Hx).
  rewrite (nth_lookup_Some s n 0 x Hx). destruct (Z.eqb_spec x c) as [->|Hxc].
  { right. exists (take n s), []. split; [done|]. split; [apply in_nil|]. unfold len. rewrite length_take. lia. }
  destruct IH as [[-> H]|(a&b&->&H&->)]; [lia| |].
  - left. split; [done|]. rewrite in_app_iff. intros [?|[?|[]]]; done.
  - right. exists a, (b ++ [x]). rewrite <- app_assoc. split; [done|]. split; [|done].
    rewrite in_app_iff. intros [?|[?|[]]]; done.
Qed.
Lemma last_index_split s c : (LastIndexByteString s c = -1 ∧ ¬ In c s) ∨
  ∃ a b, s = a ++ c :: b ∧ ¬ In c b ∧ LastIndexByteString s c = len a.
Proof.
  unfold LastIndexByteString. pose proof (last_loop_split s c (length s) (le_n _)) as H. by rewrite firstn_all in H.
Qed.
Lemma app_cons_unique {A} (c : A) a b a' b' : a ++ c :: b = a' ++ c :: b' → ¬ In c a → ¬ In c a' → a = a' ∧ b = b'.
Proof.
  revert a'. induction a as [|x a IH]; intros [|x' a'] E H H'; cbn in *.
  - by injection E.
  - injection E as -> _. by destruct H'; left.
  - injection E as -> _. by destruct H; left.
  - injection E as -> E. destruct (IH a' E) as [-> ->]; naive_solver.
Qed.
Lemma app_cons_unique_last {A} (c : A) a b a' b' : a ++ c :: b = a' ++ c :: b' → ¬ In c b → ¬ In c b' → a = a' ∧ b = b'.
Proof.
  intros E H H'. apply (f_equal (@rev A)) in E. rewrite !rev_app_distr in E. cbn in E. rewrite <- !app_assoc in E.
  apply app_cons_unique in E; [|by rewrite <- in_rev..]. destruct E as [E1 E2].
  apply (f_equal (@rev A)) in E1. apply (f_equal (@rev A)) in E2. by rewrite !rev_involutive in E1, E2.
Qed.
Lemma index_first a c b : ¬ In c a → IndexByteString (a ++ c :: b) c = len a.
Proof.
  intros H. destruct (index_split (a ++ c :: b) c) as [[_ H']|(a'&b'&E&H'&->)].
  - destruct H'. apply in_app_iff. by right; left.
  - by destruct (app_cons_unique _ _ _ _ _ E H H') as [-> _].
Qed.
Lemma index_absent s c : ¬ In c s → IndexByteString s c = -1.
Proof.
  intros H. destruct (index_split s c) as [[-> _]|(a&b&->&_)]; [done|]. destruct H. apply in_app_iff. by right; left.
Qed.
Lemma last_first a c b : ¬ In c b → LastIndexByteString (a ++ c :: b) c = len a.
Proof.
  intros H. destruct (last_index_split (a ++ c :: b) c) as [[_ H']|(a'&b'&E&H'&->)].
  - destruct H'. apply in_app_iff. by right; left.
  - by destruct (app_cons_unique_last _ _ _ _ _ E H H') as [-> _].
Qed.
Lemma index_found s c : 0 <= IndexByteString s c ↔ In c s.
Proof.
  destruct (index_split s c) as [[-> H]|(a&b&->&H&->)]; [split; [lia|done]|].
  pose proof (len_nonneg a). split; [|lia]. intros _. apply in_app_iff. by right; left.
Qed.

(** ** Host and port *)
(** The texts that are a host and a port. *)
Definition host_port (s h p : bytes) : Prop :=
  ¬ In "["%byte h ∧ ¬ In "]"%byte h ∧ ¬ In ":"%byte p ∧ ¬ In "["%byte p ∧ ¬ In "]"%byte p ∧
  (s = "["%go ++ h ++ "]:"%go ++ p ∨ ¬ In ":"%byte h ∧ s = h ++ ":"%go ++ p).
Lemma from_app_len (a b : bytes) : from (a ++ b) (len a) = Ok b.
Proof.
  unfold from. rewrite slice_ok by (rewrite len_app; pose proof (len_nonneg a); pose proof (len_nonneg b); lia).
  unfold len. rewrite !Nat2Z.id, firstn_all. by rewrite drop_app_length.
Qed.
Lemma upto_app_len (a b : bytes) : upto (a ++ b) (len a) = Ok a.
Proof.
  unfold upto. rewrite slice_ok by (rewrite ?len_app; pose proof (len_nonneg a); pose proof (len_nonneg b); lia).
  unfold len. rewrite Nat2Z.id. by rewrite take_app_length.
Qed.
Lemma from_app_1 (a b : bytes) c : from (a ++ c :: b) (len a + 1) = Ok b.
Proof.
  replace (a ++ c :: b) with ((a ++ [c]) ++ b) by (by rewrite <- app_assoc).
  replace (len a + 1) with (len (a ++ [c])) by (by rewrite len_app). apply from_app_len.
Qed.
(** The two checks at the end. *)
Lemma split_tail s h j k i t1 t2 p : from s j = Ok t1 → from s k = Ok t2 → from s (i + 1) = Ok p →
  0 <= i → i = LastIndexByteString s ":"%byte → split_host s i = Ok (h, j, k) →
  SplitHostPort s =
    if IndexByteString t1 "["%byte >=? 0 then addrErr s "unexpected '[' in address"%go
    else if IndexByteString t2 "]"%byte >=? 0 then addrErr s "unexpected ']' in address"%go
    else Ok (h, p).
Proof.
  intros H1 H2 H3 Hi -> Hh. unfold SplitHostPort. destruct (Z.ltb_spec (LastIndexByteString s ":"%byte) 0); [lia|].
  rewrite Hh. cbn [mbind res_bind]. rewrite H1. cbn [mbind res_bind]. rewrite H2, H3. done.
Qed.
Lemma SplitHostPort_plain h p : ¬ In ":"%byte h → ¬ In ":"%byte p → hd 0 (h ++ [0]) ≠ "["%byte →
  SplitHostPort (h ++ ":"%byte :: p) =
    if IndexByteString (h ++ ":"%byte :: p) "["%byte >=? 0
    then addrErr (h ++ ":"%byte :: p) "unexpected '[' in address"%go
    else if IndexByteString (h ++ ":"%byte :: p) "]"%byte >=? 0
    then addrErr (h ++ ":"%byte :: p) "unexpected ']' in address"%go else Ok (h, p).
Proof.
  intros Hh Hp Hd. pose proof (len_nonneg h). set (s := h ++ ":"%byte :: p).
  assert (Hs : from s 0 = Ok s) by apply (from_app_len [] s).
  assert (Hl : LastIndexByteString s ":"%byte = len h) by (by apply last_first).
  apply (split_tail s h 0 0 (len h) s s p); [done|done|apply from_app_1|done|done|].
  unfold split_host. assert (Ha : ∃ c, at_ s 0 = Ok c ∧ c ≠ "["%byte).
  { destruct h as [|c h]; [by exists ":"%byte|by exists c]. }
  destruct Ha as (c&->&Hc). cbn [mbind res_bind]. rewrite (proj2 (Z.eqb_neq c _) Hc).
  unfold s. rewrite upto_app_len. cbn [mbind res_bind]. by rewrite index_absent.
Qed.
Lemma SplitHostPort_bracket h p : ¬ In "]"%byte h → ¬ In ":"%byte p →
  SplitHostPort ("["%byte :: h ++ "]"%byte :: ":"%byte :: p) =
    if IndexByteString (h ++ "]"%byte :: ":"%byte :: p) "["%byte >=? 0
    then addrErr ("["%byte :: h ++ "]"%byte :: ":"%byte :: p) "unexpected '[' in address"%go
    else if IndexByteString (":"%byte :: p) "]"%byte >=? 0
    then addrErr ("["%byte :: h ++ "]"%byte :: ":"%byte :: p) "unexpected ']' in address"%go else Ok (h, p).
Proof.
  intros Hh Hp. pose proof (len_nonneg h). set (s := "["%byte :: h ++ "]"%byte :: ":"%byte :: p).
  assert (E1 : s = ("["%byte :: h) ++ "]"%byte :: ":"%byte :: p) by done.
  assert (E2 : s = ("["%byte :: h ++ ["]"%byte]) ++ ":"%byte :: p) by (unfold s; cbn; by rewrite <- app_assoc).
  assert (Hl : LastIndexByteString s ":"%byte = len h + 2).
  { rewrite E2, last_first by done. rewrite len_cons, len_app. change (len ["]"%byte]) with 1. lia. }
  assert (Hi : IndexByteString s "]"%byte = len h + 1).
  { rewrite E1, index_first; [by rewrite len_cons|]. intros [?|?]; done. }
  assert (Hn : len s = len h + len p + 3).
  { rewrite E1, len_app, !len_cons. lia. }
  assert (F1 : from s 1 = Ok (h ++ "]"%byte :: ":"%byte :: p)) by apply (from_app_len ["["%byte]).
  assert (F2 : from s (len h + 2) = Ok (":"%byte :: p)).
  { replace (len h + 2) with (len ("["%byte :: h ++ ["]"%byte])) by (rewrite len_cons, len_app; change (len ["]"%byte]) with 1; lia).
    rewrite E2. apply from_app_len. }
  assert (F3 : from s (len h + 2 + 1) = Ok p).
  { replace (len h + 2) with (len ("["%byte :: h ++ ["]"%byte])) by (rewrite len_cons, len_app; change (len ["]"%byte]) with 1; lia).
    rewrite E2. apply from_app_1. }
  apply (split_tail s h 1 (len h + 2) (len h + 2) _ _ p F1 F2 F3); [lia|done|].
  unfold split_host. change (at_ s 0) with (Ok "["%byte). cbn [mbind res_bind]. cbv zeta. rewrite Hi, Hn.
  change ("["%byte =? "["%byte) with true. cbv iota. pose proof (len_nonneg p).
  destruct (Z.ltb_spec (len h + 1) 0); [lia|]. destruct (Z.eqb_spec (len h + 1 + 1) (len h + len p + 3)); [lia|].
  rewrite (proj2 (Z.eqb_eq (len h + 1 + 1) (len h + 2))) by lia.
  assert (F4 : slice s 1 (len h + 1) = Ok h).
  { rewrite slice_ok by lia. unfold s. change (Z.to_nat 1) with 1%nat.
    replace (Z.to_nat (len h + 1)) with (S (length h)) by (unfold len; lia).
    cbn [take drop]. by rewrite take_app_length. }
  rewrite F4. cbn [mbind res_bind]. by replace (len h + 1 + 1) with (len h + 2) by lia.
Qed.
(** A bracket that does not close just before the last colon is an error. *)
Lemma split_host_misplaced s e x f i : s = "["%byte :: e ++ "]"%byte :: x :: f → ¬ In "]"%byte e → i ≠ len e + 2 →
  ∃ why, split_host s i = Err (AddrError why s).
Proof.
  intros Es He Hi. unfold split_host. replace (at_ s 0) with (Ok "["%byte : res Z) by (by rewrite Es).
  cbn [mbind res_bind]. cbv zeta. change ("["%byte =? "["%byte) with true. cbv iota.
  assert (Hx : IndexByteString s "]"%byte = len e + 1).
  { rewrite Es. change ("["%byte :: e ++ "]"%byte :: x :: f) with (("["%byte :: e) ++ "]"%byte :: x :: f).
    rewrite index_first, len_cons; [done|]. intros [?|?]; done. }
  assert (Hn : len s = len e + len f + 3) by (rewrite Es, len_cons, len_app, !len_cons; lia).
  rewrite Hx, Hn. pose proof (len_nonneg e). pose proof (len_nonneg f).
  destruct (Z.ltb_spec (len e + 1) 0); [lia|]. destruct (Z.eqb_spec (len e + 1 + 1) (len e + len f + 3)); [lia|].
  destruct (Z.eqb_spec (len e + 1 + 1) i); [lia|].
  assert (Ha : at_ s (len e + 1 + 1) = Ok x).
  { rewrite Es. replace ("["%byte :: e ++ "]"%byte :: x :: f) with (("["%byte :: e ++ ["]"%byte]) ++ x :: f) by (cbn; by rewrite <- app_assoc).
    replace (len e + 1 + 1) with (len ("["%byte :: e ++ ["]"%byte])) by (rewrite len_cons, len_app; change (len ["]"%byte]) with 1; lia).
    apply at_app_len. }
  rewrite Ha. cbn [mbind res_bind]. destruct (x =? ":"%byte); by eexists.
Qed.
(** What SplitHostPort does, on any bytes. *)
Lemma SplitHostPort_cases s : match SplitHostPort s with Ok (h, p) => host_port s h p | Err _ => True | Panic _ => False end.
Proof.
  destruct (last_index_split s ":"%byte) as [[Hl _]|(a&p&->&Hp&Hl)].
  { unfold SplitHostPort. by rewrite Hl. }
  destruct (decide (hd 0 (a ++ [0]) = "["%byte)) as [Hd|Hd]; cycle 1.
  { destruct (in_dec Z.eq_dec ":"%byte a) as [Ha|Ha].
    - unfold SplitHostPort. rewrite Hl. pose proof (len_nonneg a). destruct (Z.ltb_spec (len a) 0); [lia|].
      unfold split_host. destruct a as [|c a]; [done|]. change (at_ ((c :: a) ++ ":"%byte :: p) 0) with (Ok c).
      cbn [mbind res_bind]. rewrite (proj2 (Z.eqb_neq c "["%byte)) by done.
      rewrite upto_app_len. cbn [mbind res_bind]. apply index_found in Ha.
      rewrite Z.geb_leb, (proj2 (Z.leb_le _ _) Ha). done.
    - rewrite SplitHostPort_plain by done. destruct (Z.geb_spec (IndexByteString (a ++ ":"%byte :: p) "["%byte) 0) as [|H1]; [done|].
      destruct (Z.geb_spec (IndexByteString (a ++ ":"%byte :: p) "]"%byte) 0) as [|H2]; [done|].
      assert (G1 : ¬ In "["%byte (a ++ ":"%byte :: p)) by (rewrite <- index_found; lia).
      assert (G2 : ¬ In "]"%byte (a ++ ":"%byte :: p)) by (rewrite <- index_found; lia).
      rewrite in_app_iff in G1, G2. cbn in G1, G2. repeat split; try tauto. }
  destruct a as [|c a]; [done|]. cbn in Hd. subst c. set (s := _ ++ _) in *.
  destruct (index_split s "]"%byte) as [[Hi _]|(e&f&Es&He&Hi)].
  { unfold SplitHostPort. rewrite Hl. destruct (_ <? 0); [done|]. unfold split_host. change (at_ s 0) with (Ok "["%byte).
    cbn [mbind res_bind]. cbv zeta. by rewrite Hi. }
  destruct e as [|x e]; [by unfold s in Es|]. assert (x = "["%byte) as -> by (unfold s in Es; by injection Es).
  assert (He' : ¬ In "]"%byte e) by (intros ?; apply He; by right).
  pose proof (len_nonneg a). pose proof (len_nonneg e).
  destruct f as [|x f].
  { unfold SplitHostPort. rewrite Hl. unfold split_host. change (at_ s 0) with (Ok "["%byte). cbn [mbind res_bind].
    cbv zeta. rewrite Hi, Es, len_app, !len_cons. change (len (@nil Z)) with 0.
    destruct (Z.ltb_spec (len a + 1) 0); [lia|]. change ("["%byte =? "["%byte) with true. cbv iota.
    destruct (Z.ltb_spec (len e + 1) 0); [lia|]. rewrite (proj2 (Z.eqb_eq (len e + 1 + 1) _)) by lia. done. }
  destruct (decide (len a = len e + 1)) as [Hae|Hae]; cycle 1.
  { destruct (split_host_misplaced s e x f (len a + 1)) as [why Hw]; [done|done|lia|].
    unfold SplitHostPort. rewrite Hl, len_cons. destruct (_ <? 0); [done|]. by rewrite Hw. }
  assert (Ea : a = e ++ ["]"%byte] ∧ ":"%byte :: p = x :: f).
  { apply app_inj_1; [unfold len in *; rewrite length_app; cbn; lia|]. unfold s in Es. injection Es as Es. by rewrite <- app_assoc. }
  destruct Ea as [-> [= <- <-]]. assert (Eb : s = "["%byte :: e ++ "]"%byte :: ":"%byte :: p) by done. rewrite Eb.
  rewrite SplitHostPort_bracket by done.
  destruct (Z.geb_spec (IndexByteString (e ++ "]"%byte :: ":"%byte :: p) "["%byte) 0) as [|H1]; [done|].
  destruct (Z.geb_spec (IndexByteString (":"%byte :: p) "]"%byte) 0) as [|H2]; [done|].
  assert (G1 : ¬ In "["%byte (e ++ "]"%byte :: ":"%byte :: p)) by (rewrite <- index_found; lia).
  assert (G2 : ¬ In "]"%byte (":"%byte :: p)) by (rewrite <- index_found; lia).
  rewrite in_app_iff in G1. cbn in G1, G2. repeat split; try tauto.
Qed.

(** SplitHostPort never panics, and succeeds exactly on a host and a port
    with a colon between them: the port has no colon and no bracket, the host no
    bracket, and no colon unless it is bracketed.  On what JoinHostPort makes of
    such a host and port it gives them back. *)
Theorem SplitHostPort_spec s h p :
  (∀ m, SplitHostPort s ≠ Panic m) ∧
  (SplitHostPort s = Ok (h, p) ↔ host_port s h p) ∧
  (SplitHostPort (JoinHostPort h p) = Ok (h, p) ↔
     ¬ In "["%byte h ∧ ¬ In "]"%byte h ∧ ¬ In ":"%byte p ∧ ¬ In "["%byte p ∧ ¬ In "]"%byte p).
Proof.
  assert (Hspec : ∀ s, SplitHostPort s = Ok (h, p) ↔ host_port s h p).
  { intros s'. split; [intros E; pose proof (SplitHostPort_cases s') as H; by rewrite E in H|].
    intros (H1&H2&H3&H4&H5&[->|[Hc ->]]).
    - cbn. rewrite SplitHostPort_bracket by done. rewrite !index_absent; [done|by intros [?|?]|].
      rewrite in_app_iff. cbn. intuition discriminate.
    - cbn. rewrite SplitHostPort_plain; [|done..|].
      + rewrite !index_absent; [done|rewrite in_app_iff; cbn; intuition discriminate..].
      + destruct h as [|c h]; [done|]. cbn. intros ->. by destruct H1; left. }
  split; [intros m E; pose proof (SplitHostPort_cases s) as H; by rewrite E in H|]. split; [apply Hspec|].
  rewrite Hspec. unfold host_port, JoinHostPort. split; [tauto|]. intros (H1&H2&H3&H4&H5). repeat split; try done.
  rewrite Z.geb_leb. destruct (Z.leb_spec 0 (IndexByteString h ":"%byte)) as [Hi|Hi]; [by left|].
  right. split; [rewrite <- index_found; lia|done].
Qed.
Lemma SplitHostPort_spec_witness :
  SplitHostPort "[::1%lo]:http"%go = Ok ("::1%lo"%go, "http"%go) ∧
  host_port "[::1%lo]:http"%go "::1%lo"%go "http"%go ∧ ∀ m, SplitHostPort "[::1]x:80"%go ≠ Panic m.
Proof.
  split; [reflexivity|]. split.
  - apply (proj1 (proj2 (SplitHostPort_spec "[::1%lo]:http"%go "::1%lo"%go "http"%go))). reflexivity.
  - exact (proj1 (SplitHostPort_spec "[::1]x:80"%go [] [])).
Defined.

(** ** package net: hardware addresses in text *)

(** ** Hex digits *)
Definition hex_pair (b : Z) : bytes := [hex_digit (b / 16); hex_digit (b mod 16)].
Lemma hex_digit_val d : 0 <= d < 16 → hex_digit d = if d <? 10 then "0"%byte + d else "a"%byte - 10 + d.
Proof.
  intros H. assert (d = 0 ∨ d = 1 ∨ d = 2 ∨ d = 3 ∨ d = 4 ∨ d = 5 ∨ d = 6 ∨ d = 7 ∨ d = 8 ∨ d = 9 ∨ d = 10 ∨ d = 11 ∨
    d = 12 ∨ d = 13 ∨ d = 14 ∨ d = 15) as Hd by lia.
  repeat (destruct Hd as [->|Hd]; [done|]). by subst.
Qed.
Lemma lowerASCII_cases c :
  ("A"%byte <= c <= "Z"%byte ∧ lowerASCII c = c + 32) ∨ (¬ "A"%byte <= c <= "Z"%byte ∧ lowerASCII c = c).
Proof.
  unfold lowerASCII. destruct (Z.leb_spec "A"%byte c), (Z.leb_spec c "Z"%byte); cbn [andb].
  - left. split; [done|]. rewrite u8_id by (unfold is_u8; lia). lia.
  - right. split; [lia|done].
  - right. split; [lia|done].
  - right. split; [lia|done].
Qed.
Lemma hex_value_spec c d : hex_value c = Some d ↔ 0 <= d < 16 ∧ lowerASCII c = hex_digit d.
Proof.
  unfold hex_value. split.
  - destruct (Z.leb_spec "0"%byte c), (Z.leb_spec c "9"%byte), (Z.leb_spec "a"%byte c), (Z.leb_spec c "f"%byte),
      (Z.leb_spec "A"%byte c), (Z.leb_spec c "F"%byte); cbn [andb]; intros [= <-]; try lia; (split; [lia|]);
      rewrite hex_digit_val by lia; destruct (lowerASCII_cases c) as [[? ->]|[? ->]]; destruct (Z.ltb_spec (c - "0"%byte) 10);
      try destruct (Z.ltb_spec (c - "a"%byte + 10) 10); try destruct (Z.ltb_spec (c - "A"%byte + 10) 10); lia.
  - intros [Hd E]. rewrite hex_digit_val in E by done.
    destruct (lowerASCII_cases c) as [[? E']|[? E']]; rewrite E' in E; destruct (Z.ltb_spec d 10);
      destruct (Z.leb_spec "0"%byte c), (Z.leb_spec c "9"%byte), (Z.leb_spec "a"%byte c), (Z.leb_spec c "f"%byte),
      (Z.leb_spec "A"%byte c), (Z.leb_spec c "F"%byte); cbn [andb]; try lia; f_equal; lia.
Qed.
(** Two characters that are a byte in hex. *)
Definition reads (c1 c2 b : Z) : Prop := is_u8 b ∧ [lowerASCII c1; lowerASCII c2] = hex_pair b.
Lemma reads_value c1 c2 b : reads c1 c2 b ↔
  ∃ d1 d2, hex_value c1 = Some d1 ∧ hex_value c2 = Some d2 ∧ b = d1 * 16 + d2.
Proof.
  unfold reads, hex_pair, is_u8. split.
  - intros [Hb [= E1 E2]]. exists (b / 16), (b mod 16). rewrite !hex_value_spec. zwlia.
  - intros (d1&d2&[H1 E1]%hex_value_spec&[H2 E2]%hex_value_spec&->). split; [lia|]. rewrite E1, E2.
    repeat f_equal; zwlia.
Qed.
Lemma reads_unique c1 c2 b b' : reads c1 c2 b → reads c1 c2 b' → b = b'.
Proof. rewrite !reads_value. intros (d1&d2&E1&E2&->) (e1&e2&E1'&E2'&->). congruence. Qed.
(** What follows the two digits, if anything, starts with [e]. *)
Definition followed (e : Z) (rest : bytes) : Prop := match rest with [] => True | c :: _ => c = e end.
Lemma xtoi2_spec c1 c2 rest e : ∃ b ok, xtoi2 (c1 :: c2 :: rest) e = Ok (b, ok) ∧
  ∀ b', (ok = true ∧ b = b') ↔ reads c1 c2 b' ∧ followed e rest.
Proof.
  assert (Hup : upto (c1 :: c2 :: rest) 2 = Ok [c1; c2]) by apply (upto_app_len [c1; c2] rest).
  assert (Hd : ∀ x d, hex_value x = Some d → 0 <= d < 16) by (intros x d H; by apply hex_value_spec in H as [? _]).
  assert (Hmain : ∃ b ok, (let '(n, ei, ok) := xtoi [c1; c2] in Ok (u8 n, ok && (ei =? 2))) = (Ok (b, ok) : res _) ∧
    ∀ b', (ok = true ∧ b = b') ↔ reads c1 c2 b').
  { unfold xtoi. cbn [xtoi_loop]. destruct (hex_value c1) as [d1|] eqn:E1.
    - pose proof (Hd _ _ E1). destruct (Z.geb_spec (0 * 16 + d1) big); [unfold big in *; lia|].
      destruct (hex_value c2) as [d2|] eqn:E2.
      + pose proof (Hd _ _ E2). destruct (Z.geb_spec ((0 * 16 + d1) * 16 + d2) big); [unfold big in *; lia|].
        eexists _, _. split; [done|]. intros b'. rewrite reads_value, E1, E2. rewrite u8_id by (unfold is_u8; lia). cbn. split.
        * intros [_ <-]. exists d1, d2. split; [done|]. split; [done|]. lia.
        * intros (?&?&[= <-]&[= <-]&->). split; [done|]. lia.
      + eexists _, _. split; [done|]. intros b'. rewrite reads_value, E1, E2. cbn. split; [by intros []|]. by intros (?&?&_&?&_).
    - eexists _, _. split; [done|]. intros b'. rewrite reads_value, E1. cbn. split; [by intros []|]. by intros (?&?&?&_). }
  unfold xtoi2. destruct rest as [|c rest].
  - cbn [len length]. change (len [c1; c2] >? 2) with false. cbn [mbind res_bind]. rewrite Hup. cbn [mbind res_bind].
    destruct Hmain as (b&ok&->&H). exists b, ok. split; [done|]. intros b'. rewrite H. cbn. tauto.
  - rewrite !len_cons. pose proof (len_nonneg rest) as Hl. destruct (Z.gtb_spec (len rest + 1 + 1 + 1) 2) as [_|]; [|lia].
    change (at_ (c1 :: c2 :: c :: rest) 2) with (Ok c). cbn [mbind res_bind].
    destruct (Z.eqb_spec c e) as [->|Hne]; cbn [negb].
    + rewrite Hup. cbn [mbind res_bind]. destruct Hmain as (b&ok&->&H). exists b, ok. split; [done|]. intros b'. rewrite H. cbn. tauto.
    + exists 0, false. split; [done|]. intros b'. cbn. split; [by intros []|]. by intros [_ ?].
Qed.

(** ** The three notations *)
Fixpoint mac_text (sep : Z) (a : bytes) : bytes :=
  match a with
  | [] => []
  | b :: a => hex_pair b ++ match a with [] => [] | _ => sep :: mac_text sep a end
  end.
Fixpoint mac_dots (a : bytes) : bytes :=
  match a with
  | b :: b' :: a => hex_pair b ++ hex_pair b' ++ match a with [] => [] | _ => "."%byte :: mac_dots a end
  | _ => []
  end.
Definition separator (sep : Z) : Prop := ¬ "a"%byte <= sep <= "z"%byte ∧ ¬ "A"%byte <= sep <= "Z"%byte.
Lemma lower_separator sep c : separator sep → lowerASCII c = sep ↔ c = sep.
Proof. intros [H1 H2]. destruct (lowerASCII_cases c) as [[? ->]|[? ->]]; lia. Qed.
Lemma mac_text_cons sep b a : mac_text sep (b :: a) = hex_pair b ++ match a with [] => [] | _ => sep :: mac_text sep a end.
Proof. done. Qed.
Lemma len_mac_text sep a : a ≠ [] → len (mac_text sep a) = 3 * len a - 1.
Proof.
  induction a as [|b [|b' a] IH]; intros H; [done..|]. rewrite mac_text_cons, len_app, !len_cons.
  rewrite IH by done. rewrite len_cons. change (len (hex_pair b)) with 2. lia.
Qed.
Lemma len_mac_dots n : ∀ a, length a = (2 * S n)%nat → len (mac_dots a) = 5 * Z.of_nat (S n) - 1.
Proof.
  induction n as [|n IH]; intros a Ha.
  - destruct a as [|b [|b' [|]]]; try done; cbn in Ha; lia.
  - destruct a as [|b [|b' a]]; cbn in Ha; try lia. cbn [mac_dots]. rewrite !len_app. change (len (hex_pair b)) with 2.
    change (len (hex_pair b')) with 2. destruct a as [|x a]; [cbn in Ha; lia|]. rewrite len_cons, IH by (cbn in *; lia). lia.
Qed.
Lemma from_pre (pre t : bytes) x : x = len pre → from (pre ++ t) x = Ok t.
Proof. intros ->. apply from_app_len. Qed.
Lemma mac_bytes_S n s x hw : mac_bytes (S n) s x hw =
  (t ← from s x; sep ← at_ s 2; '(b, ok) ← xtoi2 t sep;
   if negb ok then Ok None else mac_bytes n s (x + 3) (hw ++ [b])).
Proof. done. Qed.
Lemma mac_pairs_S n s x hw : mac_pairs (S n) s x hw =
  (t ← slice s x (x + 2); '(b, ok) ← xtoi2 t 0;
   if negb ok then Ok None
   else t ← from s (x + 2); sep ← at_ s 4; '(b', ok) ← xtoi2 t sep;
     if negb ok then Ok None else mac_pairs n s (x + 5) (hw ++ [b; b'])).
Proof. done. Qed.
(** The first loop: what is left is [n + 1] pairs with [sep] between them. *)
Lemma mac_bytes_spec sep s n : separator sep → at_ s 2 = Ok sep → ∀ pre t hw, s = pre ++ t → len t = 3 * Z.of_nat (S n) - 1 →
  ∃ o, mac_bytes (S n) s (len pre) hw = Ok o ∧
    ∀ r, o = Some r ↔ ∃ bs, r = hw ++ bs ∧ length bs = S n ∧ is_bytes bs ∧ map lowerASCII t = mac_text sep bs.
Proof.
  intros Hsep Hs. induction n as [|n IH]; intros pre t hw -> Ht; rewrite mac_bytes_S, from_app_len; cbn [mbind res_bind];
    rewrite Hs; cbn [mbind res_bind].
  - destruct t as [|c1 [|c2 [|? ?]]]; rewrite ?len_cons in Ht; change (len (@nil Z)) with 0 in Ht; try lia; cycle 1.
    { pose proof (len_nonneg l). lia. }
    destruct (xtoi2_spec c1 c2 [] sep) as (b&ok&->&Hb). cbn [mbind res_bind]. destruct ok; cbn [negb].
    + exists (Some (hw ++ [b])). split; [done|]. intros r. destruct (proj1 (Hb b)) as [Hr _]; [done|]. split.
      * intros [= <-]. exists [b]. split; [done|]. split; [done|]. destruct Hr as [H1 H2]. split; [by constructor|].
        cbn [map mac_text]. by rewrite app_nil_r.
      * intros (bs&->&Hl&Hbs&E). destruct bs as [|b' [|]]; try done. f_equal. f_equal. f_equal.
        apply (reads_unique c1 c2); [done|]. split; [by inversion Hbs|]. cbn [map mac_text] in E. by rewrite app_nil_r in E.
    + exists None. split; [done|]. intros r. split; [done|]. intros (bs&->&Hl&Hbs&E). destruct bs as [|b' [|]]; try done.
      destruct (proj2 (Hb b')) as [? _]; [|done]. split; [|done]. split; [by inversion Hbs|].
      cbn [map mac_text] in E. by rewrite app_nil_r in E.
  - destruct t as [|c1 [|c2 [|e t]]]; rewrite ?len_cons in Ht; change (len (@nil Z)) with 0 in Ht; try lia.
    destruct (xtoi2_spec c1 c2 (e :: t) sep) as (b&ok&->&Hb). cbn [mbind res_bind]. destruct ok; cbn [negb].
    + destruct (proj1 (Hb b)) as [Hr Hf]; [done|]. cbn in Hf. subst e.
      destruct (IH (pre ++ [c1; c2; sep]) t (hw ++ [b])) as (o&Eo&Ho); [by rewrite <- app_assoc|lia|].
      replace (len pre + 3) with (len (pre ++ [c1; c2; sep])) by (rewrite len_app; done).
      exists o. split; [exact Eo|]. intros r. rewrite Ho. destruct Hr as [H1 H2]. split.
      * intros (bs&->&Hl&Hbs&E). exists (b :: bs). rewrite <- app_assoc. split; [done|]. split; [cbn; lia|].
        split; [by constructor|]. destruct bs as [|x bs]; [done|]. rewrite mac_text_cons. cbn [map]. rewrite E.
        change (lowerASCII c1 :: lowerASCII c2 :: lowerASCII sep :: mac_text sep (x :: bs)) with
          ([lowerASCII c1; lowerASCII c2] ++ lowerASCII sep :: mac_text sep (x :: bs)).
        rewrite H2. by rewrite (proj2 (lower_separator sep sep Hsep)).
      * intros (bs&->&Hl&Hbs&E). destruct bs as [|b' [|x bs]]; try done. rewrite mac_text_cons in E.
        cbn [map hex_pair app] in E. injection E as E1 E2 _ E3. apply list.Forall_cons in Hbs as [Hb' Hbs'].
        assert (b' = b) as ->. { apply (reads_unique c1 c2); [split; [done|]; unfold hex_pair; congruence|by split]. }
        exists (x :: bs). rewrite <- app_assoc. split; [done|]. split; [cbn in *; lia|]. by split.
    + exists None. split; [done|]. intros r. split; [done|]. intros (bs&->&Hl&Hbs&E). destruct bs as [|b' [|x bs]]; try done.
      rewrite mac_text_cons in E. cbn [map hex_pair app] in E. injection E as E1 E2 E3 _. apply list.Forall_cons in Hbs as [Hb' Hbs'].
      destruct (proj2 (Hb b')) as [? _]; [|done]. split; [split; [done|]; unfold hex_pair; congruence|].
      cbn. by apply (lower_separator sep e Hsep).
Qed.
Lemma dot_separator : separator "."%byte.
Proof. unfold separator. lia. Qed.
Lemma slice_pre2 (pre : bytes) c1 c2 t : slice (pre ++ c1 :: c2 :: t) (len pre) (len pre + 2) = Ok [c1; c2].
Proof.
  rewrite slice_ok by (rewrite ?len_app, ?len_cons; pose proof (len_nonneg pre); pose proof (len_nonneg t); lia).
  f_equal. unfold len. replace (Z.to_nat (Z.of_nat (length pre) + 2)) with (length pre + 2)%nat by lia.
  rewrite Nat2Z.id, take_app_add. by rewrite drop_app_length.
Qed.
(** The second loop: what is left is [n + 1] groups of two pairs with dots. *)
Lemma mac_pairs_spec s n : at_ s 4 = Ok "."%byte → ∀ pre t hw, s = pre ++ t → len t = 5 * Z.of_nat (S n) - 1 →
  ∃ o, mac_pairs (S n) s (len pre) hw = Ok o ∧
    ∀ r, o = Some r ↔ ∃ bs, r = hw ++ bs ∧ length bs = (2 * S n)%nat ∧ is_bytes bs ∧ map lowerASCII t = mac_dots bs.
Proof.
  intros Hs. induction n as [|n IH]; intros pre t hw -> Ht; rewrite mac_pairs_S.
  all: destruct t as [|c1 [|c2 [|c3 [|c4 t]]]]; rewrite ?len_cons in Ht; change (len (@nil Z)) with 0 in Ht; try lia.
  all: rewrite slice_pre2; cbn [mbind res_bind]; destruct (xtoi2_spec c1 c2 [] 0) as (b&ok&->&Hb); cbn [mbind res_bind].
  all: destruct ok; cbn [negb]; cycle 1;
    [exists None; split; [done|]; intros r; split; [done|]; intros (bs&->&Hl&Hbs&E); exfalso;
     destruct bs as [|b0 [|b1 bs]]; cbn in Hl; try lia; apply list.Forall_cons in Hbs as [Hb0 _];
     cbn [mac_dots map hex_pair app] in E; injection E as E1 E2 _;
     destruct (proj2 (Hb b0)) as [? _]; [split; [split; [done|]; unfold hex_pair; congruence|exact I]|done]|].
  all: destruct (proj1 (Hb b)) as [Hr _]; [done|]; change (c1 :: c2 :: c3 :: c4 :: t) with ([c1; c2] ++ c3 :: c4 :: t);
    rewrite app_assoc; replace (len pre + 2) with (len (pre ++ [c1; c2])) by (rewrite len_app; done); rewrite from_app_len;
    cbn [mbind res_bind]; rewrite <- app_assoc; cbn [app]; rewrite Hs; cbn [mbind res_bind];
    destruct (xtoi2_spec c3 c4 t "."%byte) as (b'&ok'&->&Hb'); cbn [mbind res_bind].
  - assert (t = []) as -> by (destruct t; [done|]; rewrite len_cons in Ht; pose proof (len_nonneg t); lia).
    destruct ok'; cbn [negb].
    + destruct (proj1 (Hb' b')) as [Hr' _]; [done|]. exists (Some (hw ++ [b; b'])). split; [done|]. intros r. split.
      * intros [= <-]. exists [b; b']. split; [done|]. split; [done|]. destruct Hr as [H1 H2], Hr' as [H3 H4].
        split; [constructor; [done|constructor; [done|constructor]]|]. cbn [map mac_dots]. rewrite app_nil_r, <- H2, <- H4. done.
      * intros (bs&->&Hl&Hbs&E). destruct bs as [|b0 [|b1 [|]]]; cbn in Hl; try lia.
        apply list.Forall_cons in Hbs as [G0 Hbs]. apply list.Forall_cons in Hbs as [G1 _].
        cbn [mac_dots map hex_pair app] in E. injection E as E1 E2 E3 E4. repeat f_equal.
        -- apply (reads_unique c1 c2); [done|]. split; [done|]. unfold hex_pair. congruence.
        -- apply (reads_unique c3 c4); [done|]. split; [done|]. unfold hex_pair. congruence.
    + exists None. split; [done|]. intros r. split; [done|]. intros (bs&->&Hl&Hbs&E). destruct bs as [|b0 [|b1 [|]]]; cbn in Hl; try lia.
      apply list.Forall_cons in Hbs as [G0 Hbs]. apply list.Forall_cons in Hbs as [G1 _].
      cbn [mac_dots map hex_pair app] in E. injection E as E1 E2 E3 E4.
      destruct (proj2 (Hb' b1)) as [? _]; [|done]. split; [|exact I]. split; [done|]. unfold hex_pair. congruence.
  - destruct t as [|e t]; [change (len (@nil Z)) with 0 in Ht; lia|]. rewrite len_cons in Ht. destruct ok'; cbn [negb].
    + destruct (proj1 (Hb' b')) as [Hr' Hf]; [done|]. cbn in Hf. subst e.
      destruct (IH (pre ++ [c1; c2; c3; c4; "."%byte]) t (hw ++ [b; b'])) as (o&Eo&Ho); [by rewrite <- app_assoc|lia|].
      replace (len pre + 5) with (len (pre ++ [c1; c2; c3; c4; "."%byte])) by (rewrite len_app; done).
      exists o. split; [exact Eo|]. intros r. rewrite Ho. destruct Hr as [H1 H2], Hr' as [H3 H4]. split.
      * intros (bs&->&Hl&Hbs&E). exists (b :: b' :: bs). rewrite <- app_assoc. split; [done|]. split; [cbn; lia|].
        split; [constructor; [done|by constructor]|]. destruct bs as [|x bs]; [done|]. cbn [mac_dots]. rewrite <- H2, <- H4.
        cbn [map app]. rewrite E. reflexivity.
      * intros (bs&->&Hl&Hbs&E). destruct bs as [|b0 [|b1 [|x bs]]]; cbn in Hl; try lia.
        apply list.Forall_cons in Hbs as [G0 Hbs]. apply list.Forall_cons in Hbs as [G1 Hbs].
        cbn [mac_dots] in E. cbn [map hex_pair app] in E. injection E as E1 E2 E3 E4 E6.
        assert (b = b0) as -> by (apply (reads_unique c1 c2); [done|]; split; [done|]; unfold hex_pair; congruence).
        assert (b' = b1) as -> by (apply (reads_unique c3 c4); [done|]; split; [done|]; unfold hex_pair; congruence).
        exists (x :: bs). rewrite <- app_assoc. split; [done|]. split; [cbn in *; lia|]. by split.
    + exists None. split; [done|]. intros r. split; [done|]. intros (bs&->&Hl&Hbs&E). destruct bs as [|b0 [|b1 [|x bs]]]; cbn in Hl; try lia.
      apply list.Forall_cons in Hbs as [G0 Hbs]. apply list.Forall_cons in Hbs as [G1 _].
      cbn [mac_dots] in E. cbn [map hex_pair app] in E. injection E as E1 E2 E3 E4 E5 _.
      destruct (proj2 (Hb' b1)) as [? _]; [|done]. split; [split; [done|]; unfold hex_pair; congruence|].
      cbn. by apply (lower_separator _ _ dot_separator).
Qed.

(** ** ParseMAC *)
Lemma lower_hex d : 0 <= d < 16 → lowerASCII (hex_digit d) = hex_digit d ∧ hex_digit d ≠ ":"%byte ∧ hex_digit d ≠ "-"%byte.
Proof.
  intros H. rewrite hex_digit_val by done. destruct (Z.ltb_spec d 10);
    match goal with |- lowerASCII ?c = _ ∧ _ => destruct (lowerASCII_cases c) as [[? ->]|[? ->]] end; lia.
Qed.
Lemma lower_mac_text sep a : separator sep → is_bytes a → map lowerASCII (mac_text sep a) = mac_text sep a.
Proof.
  intros Hsep Ha. induction Ha as [|b a Hb Ha IH]; [done|]. unfold is_u8 in Hb. rewrite mac_text_cons, map_app.
  f_equal.
  - unfold hex_pair. cbn [map]. f_equal; [|f_equal]; apply lower_hex; zwlia.
  - destruct a; [done|]. cbn [map]. rewrite IH. by rewrite (proj2 (lower_separator sep sep Hsep)).
Qed.
Lemma hex_of_byte b : is_u8 b → hex_digit (Z.shiftr b 4) = hex_digit (b / 16) ∧ hex_digit (Z.land b 0xF) = hex_digit (b mod 16).
Proof.
  intros _. rewrite Z.shiftr_div_pow2 by lia. change 15 with (Z.ones 4). rewrite Z.land_ones by lia. done.
Qed.
Lemma String_mac_text a : is_bytes a → HardwareAddr_String a = mac_text ":"%byte a.
Proof.
  intros Ha.
  unfold HardwareAddr_String. destruct a as [|b a]; [done|]. rewrite len_cons. pose proof (len_nonneg a).
  destruct (Z.eqb_spec (len a + 1) 0); [lia|]. cbn [mac_loop]. change (0 >? 0) with false. cbn [app].
  apply list.Forall_cons in Ha as [Hb Ha]. destruct (hex_of_byte b Hb) as [-> ->]. rewrite mac_text_cons.
  destruct a as [|x a]; [done|].
  assert (Hloop : ∀ l i buf, is_bytes l → 0 < i → l ≠ [] → mac_loop l i buf = buf ++ ":"%byte :: mac_text ":"%byte l).
  { induction l as [|y l IH]; intros i buf Hl Hi Hne; [done|]. apply list.Forall_cons in Hl as [Hy Hl]. cbn [mac_loop].
    destruct (Z.gtb_spec i 0); [|lia]. destruct (hex_of_byte y Hy) as [-> ->]. rewrite mac_text_cons. destruct l as [|z l].
    - cbn [mac_loop]. by rewrite <- !app_assoc.
    - rewrite IH by (done || lia). by rewrite <- !app_assoc. }
  by rewrite Hloop by (done || lia).
Qed.
(** The notations of an address. *)
Definition mac_notation (s a : bytes) : Prop :=
  is_bytes a ∧ mac_size (len a) = true ∧
  (map lowerASCII s = mac_text ":"%byte a ∨ map lowerASCII s = mac_text "-"%byte a ∨ map lowerASCII s = mac_dots a).
Lemma mac_size_cases n : mac_size n = true ↔ n = 6 ∨ n = 8 ∨ n = 20.
Proof. unfold mac_size. rewrite !orb_true_iff, !Z.eqb_eq. tauto. Qed.
Lemma len_lower s : len (map lowerASCII s) = len s.
Proof. unfold len. by rewrite length_map. Qed.
(** The third and fifth characters tell the notations apart. *)
Lemma mac_notation_sep s a : mac_notation s a → ∃ c0 c1 c2 c3 c4 t, s = c0 :: c1 :: c2 :: c3 :: c4 :: t ∧
  ((c2 = ":"%byte ∨ c2 = "-"%byte) ∧ map lowerASCII s = mac_text c2 a ∧ len s = 3 * len a - 1 ∨
   c2 ≠ ":"%byte ∧ c2 ≠ "-"%byte ∧ c4 = "."%byte ∧ map lowerASCII s = mac_dots a ∧ 2 * len s = 5 * len a - 2).
Proof.
  intros (Ha&Hn&H). apply mac_size_cases in Hn.
  assert (Hd : 2 * len (mac_dots a) = 5 * len a - 2).
  { assert (∃ k, length a = (2 * S k)%nat) as [k Hk].
    { exists (length a / 2 - 1)%nat. unfold len in Hn. destruct Hn as [Hn|[Hn|Hn]];
        [replace (length a) with 6%nat by lia|replace (length a) with 8%nat by lia|replace (length a) with 20%nat by lia]; done. }
    rewrite (len_mac_dots k a Hk). unfold len. lia. }
  assert (Hne : a ≠ []) by (intros ->; change (len (@nil Z)) with 0 in Hn; lia).
  assert (Hl : 14 <= len s).
  { rewrite <- len_lower. destruct H as [-> | [-> | ->]]; rewrite ?len_mac_text by done; lia. }
  destruct s as [|c0 [|c1 [|c2 [|c3 [|c4 t]]]]]; rewrite ?len_cons in Hl; change (len (@nil Z)) with 0 in Hl; try lia.
  exists c0, c1, c2, c3, c4, t. split; [done|].
  destruct a as [|b [|b' a]]; [done|change (len [b]) with 1 in Hn; lia|].
  assert (Hcolon : ∀ sep, separator sep → map lowerASCII (c0 :: c1 :: c2 :: c3 :: c4 :: t) = mac_text sep (b :: b' :: a) → c2 = sep).
  { intros sep Hsep E. rewrite mac_text_cons in E. cbn [map hex_pair app] in E. injection E as _ _ E _.
    by apply (lower_separator sep c2 Hsep). }
  assert (Hlen : ∀ sep, map lowerASCII (c0 :: c1 :: c2 :: c3 :: c4 :: t) = mac_text sep (b :: b' :: a) →
    len (c0 :: c1 :: c2 :: c3 :: c4 :: t) = 3 * len (b :: b' :: a) - 1).
  { intros sep E. rewrite <- len_lower, E. by apply len_mac_text. }
  destruct H as [H|[H|H]].
  - assert (c2 = ":"%byte) as -> by (apply Hcolon; [unfold separator; lia|done]). left. split; [by left|]. eauto.
  - assert (c2 = "-"%byte) as -> by (apply Hcolon; [unfold separator; lia|done]). left. split; [by right|]. eauto.
  - right. pose proof (f_equal len H) as Hl2. rewrite len_lower in Hl2. destruct a as [|x a]; [change (len [b; b']) with 2 in Hn; lia|].
    cbn [mac_dots] in H. cbn [map hex_pair app] in H. injection H as H0 H1 H2 H3 H4 H5.
    unfold is_bytes in Ha. apply list.Forall_cons in Ha as [_ Ha]. apply list.Forall_cons in Ha as [Hb' _]. unfold is_u8 in Hb'.
    destruct (lower_hex (b' / 16)) as (_&N1&N2); [zwlia|]. rewrite <- H2 in N1, N2.
    split; [intros ->; by apply N1|]. split; [intros ->; by apply N2|].
    split; [by apply (lower_separator _ _ dot_separator)|]. split; [|by rewrite Hl2].
    cbn [mac_dots map hex_pair app]. congruence.
Qed.
Lemma parse_mac_spec s : ∃ o, parse_mac s = Ok o ∧ ∀ a, o = Some a ↔ mac_notation s a.
Proof.
  assert (Hno : ∀ o : option bytes, o = None → (∀ a, ¬ mac_notation s a) → ∀ a, o = Some a ↔ mac_notation s a).
  { intros o -> H a. split; [done|]. intros Ha. by destruct (H a). }
  assert (Hlen : ∀ a, mac_notation s a → 14 <= len s).
  { intros a H. pose proof H as (_&Hn&_). apply mac_size_cases in Hn.
    destruct (mac_notation_sep s a H) as (c0&c1&c2&c3&c4&t&_&[(_&_&Hl)|(_&_&_&_&Hl)]); lia. }
  unfold parse_mac. destruct (Z.ltb_spec (len s) 14) as [Hs|Hs].
  { eexists. split; [done|]. apply Hno; [done|]. intros a H. specialize (Hlen a H). lia. }
  destruct s as [|c0 [|c1 [|c2 [|c3 [|c4 t]]]]]; rewrite ?len_cons in Hs; change (len (@nil Z)) with 0 in Hs; try lia.
  set (s := c0 :: c1 :: c2 :: c3 :: c4 :: t) in *. change (at_ s 2) with (Ok c2). change (at_ s 4) with (Ok c4).
  cbn [mbind res_bind].
  assert (Hsep : ∀ a, mac_notation s a →
    (c2 = ":"%byte ∨ c2 = "-"%byte) ∧ map lowerASCII s = mac_text c2 a ∧ len s = 3 * len a - 1 ∨
    c2 ≠ ":"%byte ∧ c2 ≠ "-"%byte ∧ c4 = "."%byte ∧ map lowerASCII s = mac_dots a ∧ 2 * len s = 5 * len a - 2).
  { intros a H. destruct (mac_notation_sep s a H) as (d0&d1&d2&d3&d4&t'&[= <- <- <- <- <- <-]&H'). exact H'. }
  destruct (decide (c2 = ":"%byte ∨ c2 = "-"%byte)) as [Hc|Hc].
  - assert (Hb : (c2 =? ":"%byte) || (c2 =? "-"%byte) = true) by (rewrite orb_true_iff, !Z.eqb_eq; tauto). rewrite Hb.
    destruct (Z.eqb_spec ((len s + 1) mod 3) 0) as [Hm|Hm]; cbn [negb]; cycle 1.
    { eexists. split; [done|]. apply Hno; [done|]. intros a H. destruct (Hsep a H) as [(_&_&Hl)|(?&?&_)]; [|tauto].
      apply Hm. rewrite Hl. replace (3 * len a - 1 + 1) with (len a * 3) by lia. apply Z.mod_mul. lia. }
    assert (Hn : len s = 3 * ((len s + 1) / 3) - 1) by zwlia. set (n := (len s + 1) / 3) in *.
    destruct (mac_size n) eqn:Hsz; cbn [negb]; cycle 1.
    { eexists. split; [done|]. apply Hno; [done|]. intros a H. pose proof H as (_&Hsz'&_).
      destruct (Hsep a H) as [(_&_&Hl)|(?&?&_)]; [|tauto]. replace (len a) with n in Hsz' by lia. congruence. }
    apply mac_size_cases in Hsz. assert (Hk : Z.to_nat n = S (Z.to_nat (n - 1))) by lia. rewrite Hk.
    assert (Hsp : separator c2) by (unfold separator; destruct Hc as [-> | ->]; lia).
    destruct (mac_bytes_spec c2 s (Z.to_nat (n - 1)) Hsp eq_refl [] s []) as (o&Eo&Ho); [done|lia|].
    exists o. split; [exact Eo|]. intros a. rewrite Ho. split.
    + intros (bs&->&Hl&Hbs&E). cbn [app]. split; [done|]. split; [apply mac_size_cases; unfold len; rewrite Hl; lia|].
      destruct Hc as [-> | ->]; tauto.
    + intros H. exists a. destruct (Hsep a H) as [(_&E&Hl)|(?&?&_)]; [|tauto]. split; [done|].
      split; [unfold len in Hl, Hn; lia|]. split; [apply H|done].
  - assert (Hb : (c2 =? ":"%byte) || (c2 =? "-"%byte) = false) by (rewrite orb_false_iff, !Z.eqb_neq; tauto). rewrite Hb.
    destruct (Z.eqb_spec c4 "."%byte) as [->|Hd]; cycle 1.
    { eexists. split; [done|]. apply Hno; [done|]. intros a H. destruct (Hsep a H) as [(?&_)|(_&_&?&_)]; tauto. }
    destruct (Z.eqb_spec ((len s + 1) mod 5) 0) as [Hm|Hm]; cbn [negb]; cycle 1.
    { eexists. split; [done|]. apply Hno; [done|]. intros a H. destruct (Hsep a H) as [(?&_)|(_&_&_&_&Hl)]; [tauto|].
      apply Hm. pose proof H as (_&Hz&_). apply mac_size_cases in Hz. destruct Hz as [Hz|[Hz|Hz]]; rewrite Hz in Hl;
        [replace (len s + 1) with 15 by lia|replace (len s + 1) with 20 by lia|replace (len s + 1) with 50 by lia]; done. }
    assert (Hn : len s = 5 * ((len s + 1) / 5) - 1) by zwlia.
    assert (Hn2 : 2 * (len s + 1) / 5 = 2 * ((len s + 1) / 5)) by zwlia. rewrite Hn2. set (n := (len s + 1) / 5) in *.
    destruct (mac_size (2 * n)) eqn:Hsz; cbn [negb]; cycle 1.
    { eexists. split; [done|]. apply Hno; [done|]. intros a H. pose proof H as (_&Hsz'&_).
      destruct (Hsep a H) as [(?&_)|(_&_&_&_&Hl)]; [tauto|]. replace (len a) with (2 * n) in Hsz' by lia. congruence. }
    apply mac_size_cases in Hsz. replace (2 * n / 2) with n by zwlia. assert (Hk : Z.to_nat n = S (Z.to_nat (n - 1))) by lia. rewrite Hk.
    destruct (mac_pairs_spec s (Z.to_nat (n - 1)) eq_refl [] s []) as (o&Eo&Ho); [done|lia|].
    exists o. split; [exact Eo|]. intros a. rewrite Ho. split.
    + intros (bs&->&Hl&Hbs&E). cbn [app]. split; [done|]. split; [apply mac_size_cases; unfold len; rewrite Hl; lia|tauto].
    + intros H. exists a. destruct (Hsep a H) as [(?&_)|(_&_&_&E&Hl)]; [tauto|]. split; [done|].
      split; [unfold len in Hl, Hn; lia|]. split; [apply H|done].
Qed.

(** ParseMAC never panics, and succeeds exactly on the three notations of an
    address of 6, 8 or 20 bytes, in either case: pairs of hex digits with colons
    or with dashes, and groups of four with dots.  Printing such an address and
    parsing the text gives it back. *)
Theorem ParseMAC_spec s a :
  (∀ m, ParseMAC s ≠ Panic m) ∧ (ParseMAC s = Ok a ↔ mac_notation s a) ∧
  (is_bytes a → mac_size (len a) = true →
     HardwareAddr_String a = mac_text ":"%byte a ∧ ParseMAC (HardwareAddr_String a) = Ok a).
Proof.
  assert (Hspec : ∀ s, (∀ m, ParseMAC s ≠ Panic m) ∧ (ParseMAC s = Ok a ↔ mac_notation s a)).
  { intros s'. destruct (parse_mac_spec s') as (o&Eo&Ho). unfold ParseMAC. rewrite Eo. cbn [mbind res_bind].
    rewrite <- Ho. destruct o as [hw|]; (split; [done|]); split; congruence. }
  split; [apply Hspec|]. split; [apply Hspec|]. intros Ha Hn. rewrite (String_mac_text a Ha). split; [done|].
  apply Hspec. split; [done|]. split; [done|]. left. apply lower_mac_text; [unfold separator; lia|done].
Qed.
Lemma ParseMAC_spec_witness :
  ParseMAC "0000.5E00.53fF"%go = Ok [0; 0; 0x5e; 0; 0x53; 0xff] ∧
  mac_notation "0000.5E00.53fF"%go [0; 0; 0x5e; 0; 0x53; 0xff] ∧
  ParseMAC (HardwareAddr_String [0; 0; 0x5e; 0; 0x53; 0xff]) = Ok [0; 0; 0x5e; 0; 0x53; 0xff].
Proof.
  assert (Hb : is_bytes [0; 0; 0x5e; 0; 0x53; 0xff]) by (repeat (apply list.Forall_cons; split; [split; [intros H; discriminate H|reflexivity]|]); apply list.Forall_nil; exact I).
  split; [reflexivity|]. split.
  - apply (ParseMAC_spec "0000.5E00.53fF"%go [0; 0; 0x5e; 0; 0x53; 0xff]). reflexivity.
  - exact (proj2 (proj2 (proj2 (ParseMAC_spec [] [0; 0; 0x5e; 0; 0x53; 0xff])) Hb eq_refl)).
Defined.
