(* ===== verification/NetIP.v ===== *)
(** * package net: IP addresses, masks and networks (ip.go)

    An [IP] or [IPMask] is its bytes, [nil] being the empty slice: no function
    here tells them apart.  An index below is within a slice whose length has
    been tested; [byte_ ip i] is [ip[i]] there. *)
From S2P Require Import Prelude Strconv Uint128 NetipAddr NetipText NetHost.

Definition byte_ (ip : bytes) (i : nat) : Z := nth i ip 0.
Definition IPv4len : Z := 4.
Definition IPv6len : Z := 16.
Record IPNet : Set := MkIPNet { n_IP : bytes; n_Mask : bytes }.

Definition v4InV6Prefix : bytes := [0; 0; 0; 0; 0; 0; 0; 0; 0; 0; 0xff; 0xff].
Definition IPv4 (a b c d : Z) : bytes := v4InV6Prefix ++ [a; b; c; d].
Definition IPv4Mask (a b c d : Z) : bytes := [a; b; c; d].
(** The loop of CIDRMask, with [n] ones and [l] bytes left. *)
Fixpoint mask_loop (l : nat) (n : Z) : bytes :=
  match l with
  | O => []
  | S l => if n >=? 8 then 0xff :: mask_loop l (n - 8)
           else u8 (Z.lnot (Z.shiftr 0xff n)) :: mask_loop l 0
  end.
Definition CIDRMask (ones bits : Z) : bytes :=
  if negb (bits =? 8 * IPv4len) && negb (bits =? 8 * IPv6len) then []
  else if (ones <? 0) || (ones >? bits) then []
  else mask_loop (Z.to_nat (bits / 8)) ones.
Definition IPv4bcast : bytes := IPv4 255 255 255 255.
Definition IPv4zero : bytes := IPv4 0 0 0 0.
Definition IPv6unspecified : bytes := replicate 16 0.
Definition IPv6loopback : bytes := replicate 15 0 ++ [1].

(** ** Forms *)
Definition isZeros (p : bytes) : bool := forallb (λ b, b =? 0) p.
Definition IP_To4 (ip : bytes) : bytes :=
  if len ip =? IPv4len then ip
  else if (len ip =? IPv6len) && isZeros (take 10 ip) && (byte_ ip 10 =? 0xff) && (byte_ ip 11 =? 0xff)
  then drop 12 ip
  else [].
Definition IP_To16 (ip : bytes) : bytes :=
  if len ip =? IPv4len then IPv4 (byte_ ip 0) (byte_ ip 1) (byte_ ip 2) (byte_ ip 3)
  else if len ip =? IPv6len then ip
  else [].
Definition is_nil (p : bytes) : bool := match p with [] => true | _ => false end.
Definition IP_Equal (ip x : bytes) : bool :=
  if len ip =? len x then beq ip x
  else if (len ip =? IPv4len) && (len x =? IPv6len) then beq (take 12 x) v4InV6Prefix && beq ip (drop 12 x)
  else if (len ip =? IPv6len) && (len x =? IPv4len) then beq (take 12 ip) v4InV6Prefix && beq (drop 12 ip) x
  else false.
Definition matchAddrFamily (ip x : bytes) : bool :=
  negb (is_nil (IP_To4 ip)) && negb (is_nil (IP_To4 x))
  || negb (is_nil (IP_To16 ip)) && is_nil (IP_To4 ip) && negb (is_nil (IP_To16 x)) && is_nil (IP_To4 x).

(** ** Classes of addresses *)
Definition IP_IsUnspecified (ip : bytes) : bool := IP_Equal ip IPv4zero || IP_Equal ip IPv6unspecified.
Definition IP_IsLoopback (ip : bytes) : bool :=
  let ip4 := IP_To4 ip in
  if negb (is_nil ip4) then byte_ ip4 0 =? 127 else IP_Equal ip IPv6loopback.
Definition IP_IsPrivate (ip : bytes) : bool :=
  let ip4 := IP_To4 ip in
  if negb (is_nil ip4) then
    (byte_ ip4 0 =? 10)
    || (byte_ ip4 0 =? 172) && (Z.land (byte_ ip4 1) 0xf0 =? 16)
    || (byte_ ip4 0 =? 192) && (byte_ ip4 1 =? 168)
  else (len ip =? IPv6len) && (Z.land (byte_ ip 0) 0xfe =? 0xfc).
Definition IP_IsMulticast (ip : bytes) : bool :=
  let ip4 := IP_To4 ip in
  if negb (is_nil ip4) then Z.land (byte_ ip4 0) 0xf0 =? 0xe0
  else (len ip =? IPv6len) && (byte_ ip 0 =? 0xff).
Definition IP_IsInterfaceLocalMulticast (ip : bytes) : bool :=
  (len ip =? IPv6len) && (byte_ ip 0 =? 0xff) && (Z.land (byte_ ip 1) 0x0f =? 0x01).
Definition IP_IsLinkLocalMulticast (ip : bytes) : bool :=
  let ip4 := IP_To4 ip in
  if negb (is_nil ip4) then (byte_ ip4 0 =? 224) && (byte_ ip4 1 =? 0) && (byte_ ip4 2 =? 0)
  else (len ip =? IPv6len) && (byte_ ip 0 =? 0xff) && (Z.land (byte_ ip 1) 0x0f =? 0x02).
Definition IP_IsLinkLocalUnicast (ip : bytes) : bool :=
  let ip4 := IP_To4 ip in
  if negb (is_nil ip4) then (byte_ ip4 0 =? 169) && (byte_ ip4 1 =? 254)
  else (len ip =? IPv6len) && (byte_ ip 0 =? 0xfe) && (Z.land (byte_ ip 1) 0xc0 =? 0x80).
Definition IP_IsGlobalUnicast (ip : bytes) : bool :=
  ((len ip =? IPv4len) || (len ip =? IPv6len))
  && negb (IP_Equal ip IPv4bcast) && negb (IP_IsUnspecified ip) && negb (IP_IsLoopback ip)
  && negb (IP_IsMulticast ip) && negb (IP_IsLinkLocalUnicast ip).

(** ** Masks *)
Definition classAMask : bytes := IPv4Mask 0xff 0 0 0.
Definition classBMask : bytes := IPv4Mask 0xff 0xff 0 0.
Definition classCMask : bytes := IPv4Mask 0xff 0xff 0xff 0.
Definition IP_DefaultMask (ip : bytes) : bytes :=
  let ip := IP_To4 ip in
  if is_nil ip then []
  else if byte_ ip 0 <? 0x80 then classAMask
  else if byte_ ip 0 <? 0xC0 then classBMask
  else classCMask.
Definition allFF (b : bytes) : bool := forallb (λ c, c =? 0xff) b.
Definition land_bytes (ip mask : bytes) : bytes := zip_with Z.land ip mask.
Definition IP_Mask (ip mask : bytes) : bytes :=
  let mask := if (len mask =? IPv6len) && (len ip =? IPv4len) && allFF (take 12 mask) then drop 12 mask else mask in
  let ip := if (len mask =? IPv4len) && (len ip =? IPv6len) && beq (take 12 ip) v4InV6Prefix then drop 12 ip else ip in
  if negb (len ip =? len mask) then [] else land_bytes ip mask.
(** The inner loop of simpleMaskLength: the ones at the front of a byte. *)
Fixpoint leading_ones (fuel : nat) (v n : Z) : Z * Z :=
  match fuel with
  | O => (v, n)
  | S fuel => if negb (Z.land v 0x80 =? 0) then leading_ones fuel (u8 (Z.shiftl v 1)) (n + 1) else (v, n)
  end.
Fixpoint mask_length (mask : bytes) (n : Z) : Z :=
  match mask with
  | [] => n
  | v :: mask =>
      if v =? 0xff then mask_length mask (n + 8)
      else
        let '(v, n) := leading_ones 8 v n in
        if negb (v =? 0) then -1
        else if isZeros mask then n else -1
  end.
Definition simpleMaskLength (mask : bytes) : Z := mask_length mask 0.
Definition IPMask_Size (m : bytes) : Z * Z :=
  let ones := simpleMaskLength m in
  if ones =? -1 then (0, 0) else (ones, len m * 8).

(** ** Text *)
Definition hexString (b : bytes) : bytes :=
  concat (map (λ tn, [hex_digit (Z.shiftr tn 4); hex_digit (Z.land tn 0xf)]) b).
Definition IP_String (ip : bytes) : bytes :=
  if len ip =? 0 then "<nil>"%go
  else if negb (len ip =? IPv4len) && negb (len ip =? IPv6len) then "?"%go ++ hexString ip
  else
    let p4 := IP_To4 ip in
    if len p4 =? IPv4len then Addr_String (AddrFrom4 p4) else Addr_String (AddrFrom16 ip).
Definition ipEmptyString (ip : bytes) : bytes := if len ip =? 0 then [] else IP_String ip.
Definition IPMask_String (m : bytes) : bytes := if len m =? 0 then "<nil>"%go else hexString m.
Definition IP_MarshalText (ip : bytes) : res bytes :=
  if len ip =? 0 then Ok []
  else if negb (len ip =? IPv4len) && negb (len ip =? IPv6len)
  then Err (AddrError "invalid IP address"%go (hexString ip))
  else Ok (IP_String ip).
(** The address and whether it is valid; [nil] means it is not. *)
Definition parseIP (s : bytes) : res (option bytes) :=
  match ParseAddr s with
  | Ok ip => Ok (if negb (beq (Addr_Zone ip) []) then None else Some (As16 ip))
  | Err _ => Ok None
  | Panic m => Panic m
  end.
Definition ParseIP (s : bytes) : res bytes :=
  o ← parseIP s; Ok (match o with Some addr => addr | None => [] end).
(** The receiver and the error. *)
Definition IP_UnmarshalText (ip text : bytes) : res (bytes * option error) :=
  if len text =? 0 then Ok ([], None)
  else
    x ← ParseIP text;
    if is_nil x then Ok (ip, Some (ParseError "IP address"%go text)) else Ok (x, None).

(** ** Networks *)
Definition networkNumberAndMask (n : IPNet) : bytes * bytes :=
  let ip4 := IP_To4 (n_IP n) in
  let ip := if is_nil ip4 then n_IP n else ip4 in
  if is_nil ip4 && negb (len ip =? IPv6len) then ([], [])
  else
    let m := n_Mask n in
    if len m =? IPv4len then (if negb (len ip =? IPv4len) then ([], []) else (ip, m))
    else if len m =? IPv6len then (ip, if len ip =? IPv4len then drop 12 m else m)
    else ([], []).
Fixpoint same_net (nn m ip : bytes) : bool :=
  match nn, m, ip with
  | a :: nn, k :: m, b :: ip => (Z.land a k =? Z.land b k) && same_net nn m ip
  | _, _, _ => true
  end.
Definition IPNet_Contains (n : IPNet) (ip : bytes) : bool :=
  let '(nn, m) := networkNumberAndMask n in
  let x := IP_To4 ip in
  let ip := if negb (is_nil x) then x else ip in
  if negb (len ip =? len nn) then false else same_net nn m ip.
Definition IPNet_String (n : option IPNet) : res bytes :=
  match n with
  | None => Ok "<nil>"%go
  | Some n =>
      let '(nn, m) := networkNumberAndMask n in
      if is_nil nn || is_nil m then Ok "<nil>"%go
      else
        let l := simpleMaskLength m in
        if l =? -1 then Ok (IP_String nn ++ "/"%go ++ IPMask_String m)
        else t ← Uitoa l; Ok (IP_String nn ++ "/"%go ++ t)
  end.
Definition ParseCIDR (s : bytes) : res (bytes * IPNet) :=
  let i := IndexByteString s "/"%byte in
  let fail := Err (ParseError "CIDR address"%go s) in
  if i <? 0 then fail
  else
    addr ← upto s i;
    mask ← from s (i + 1);
    match ParseAddr addr with
    | Panic m => Panic m
    | Err _ => fail
    | Ok ipAddr =>
        if negb (beq (Addr_Zone ipAddr) []) then fail
        else
          let '(n, i, ok) := dtoi mask in
          if negb ok || negb (i =? len mask) || (n <? 0) || (n >? Addr_BitLen ipAddr) then fail
          else
            let m := CIDRMask n (Addr_BitLen ipAddr) in
            let addr16 := As16 ipAddr in
            Ok (addr16, MkIPNet (IP_Mask addr16 m) m)
    end.
