(* ===== verification/NetIPProps.v ===== *)
(** * package net: IP addresses against netip.Addr *)
From S2P Require Import Prelude Strconv Uint128 NetipAddr NetipPrefix NetipText NetipRoundtrip NetHost NetIP.

Definition wf_ip (ip : bytes) : Prop := is_bytes ip ∧ (length ip = 4%nat ∨ length ip = 16%nat).
(** The address of package netip: an IPv4 address in either form is one. *)
Definition toAddr (ip : bytes) : Addr := Addr_Unmap (fst (AddrFromSlice ip)).

(** ** The two forms *)
Lemma AddrFrom16_IPv4 a0 a1 a2 a3 : is_bytes [a0; a1; a2; a3] →
  AddrFrom16 (IPv4 a0 a1 a2 a3) = MkAddr (U128 0 (v4_lo a0 a1 a2 a3)) z6noz.
Proof.
  intros Ha. unfold AddrFrom16, IPv4, v4InV6Prefix. cbn [app take drop].
  rewrite !beUint64_bytes8; [f_equal; f_equal; unfold bytes8, v4_lo; lia| |].
  - unfold is_bytes in *. rewrite !list.Forall_cons in *. unfold is_u8 in *. destruct Ha as (?&?&?&?&_). repeat split; try lia. constructor.
  - unfold is_bytes. rewrite !list.Forall_cons. unfold is_u8. repeat split; try lia. constructor.
Qed.
Lemma Is4In6_v4_lo a0 a1 a2 a3 : is_bytes [a0; a1; a2; a3] →
  Addr_Is4In6 (MkAddr (U128 0 (v4_lo a0 a1 a2 a3)) z6noz) = true.
Proof. intros Ha. destruct (v4_lo_wf _ _ _ _ Ha) as (_&E&_). unfold Addr_Is4In6. cbn [addr hi lo]. by rewrite E. Qed.
Lemma toAddr_IPv4 a0 a1 a2 a3 : is_bytes [a0; a1; a2; a3] →
  toAddr [a0; a1; a2; a3] = AddrFrom4 [a0; a1; a2; a3] ∧ toAddr (IPv4 a0 a1 a2 a3) = AddrFrom4 [a0; a1; a2; a3].
Proof.
  intros Ha. unfold toAddr. change (fst (AddrFromSlice [a0; a1; a2; a3])) with (AddrFrom4 [a0; a1; a2; a3]).
  change (fst (AddrFromSlice (IPv4 a0 a1 a2 a3))) with (AddrFrom16 (IPv4 a0 a1 a2 a3)).
  rewrite AddrFrom16_IPv4, AddrFrom4_eq by done. split; [done|]. unfold Addr_Unmap. by rewrite Is4In6_v4_lo.
Qed.
Lemma As16_v4_lo a0 a1 a2 a3 zz : is_bytes [a0; a1; a2; a3] → As16 (MkAddr (U128 0 (v4_lo a0 a1 a2 a3)) zz) = IPv4 a0 a1 a2 a3.
Proof.
  intros Ha. rewrite <- (As16_AddrFrom16 (IPv4 a0 a1 a2 a3)); [by rewrite AddrFrom16_IPv4|done|].
  unfold IPv4, v4InV6Prefix. apply Forall_app. split; [|done]. repeat (constructor; [unfold is_u8; lia|]). constructor.
Qed.
Lemma As16_addr a b : addr a = addr b → As16 a = As16 b.
Proof. unfold As16. by intros ->. Qed.
Lemma To4_IPv4 a0 a1 a2 a3 : IP_To4 (IPv4 a0 a1 a2 a3) = [a0; a1; a2; a3].
Proof. done. Qed.
Lemma To4_mapped ip : length ip = 16%nat → IP_To4 ip ≠ [] → ∃ a0 a1 a2 a3, ip = IPv4 a0 a1 a2 a3.
Proof.
  intros Hl. do 17 (destruct ip as [|? ip]; try done). unfold IP_To4. change (len _ =? IPv4len) with false. change (len _ =? IPv6len) with true.
  cbn [take isZeros forallb byte_ nth andb]. rewrite !andb_true_r.
  match goal with |- (if ?c then _ else _) ≠ [] → _ => destruct c eqn:E; [|done] end. intros _.
  rewrite !andb_true_iff, !Z.eqb_eq in E. destruct_and? E. subst. by eexists _, _, _, _.
Qed.
(** An address is one of the four bytes [a], in either form, or a proper IPv6 address. *)
Lemma ip_view ip : wf_ip ip →
  (∃ a0 a1 a2 a3, is_bytes [a0; a1; a2; a3] ∧ (ip = [a0; a1; a2; a3] ∨ ip = IPv4 a0 a1 a2 a3)) ∨
  (length ip = 16%nat ∧ IP_To4 ip = [] ∧ toAddr ip = AddrFrom16 ip ∧ Addr_Is4In6 (AddrFrom16 ip) = false).
Proof.
  intros [Hb [Hl|Hl]].
  - left. do 5 (destruct ip as [|? ip]; try done). eexists _, _, _, _. split; [done|]. by left.
  - destruct (is_nil (IP_To4 ip)) eqn:E4; cycle 1.
    { left. destruct (To4_mapped ip Hl) as (a0&a1&a2&a3&->); [intros E'; by rewrite E' in E4|]. exists a0, a1, a2, a3.
      split; [by apply Forall_app in Hb as [_ Hb]|]. by right. }
    right. assert (E4' : IP_To4 ip = []) by (revert E4; by destruct (IP_To4 ip)). split; [done|]. split; [done|].
    assert (Hm : Addr_Is4In6 (AddrFrom16 ip) = false); cycle 1.
    { split; [|done]. unfold toAddr. assert (AddrFromSlice ip = (AddrFrom16 ip, true)) as ->.
      { unfold AddrFromSlice, len. by rewrite Hl. } unfold Addr_Unmap. cbn [fst]. by rewrite Hm. }
    apply not_true_is_false. intros Hm. pose proof (AddrFrom16_wf ip Hl Hb) as Hw. pose proof (wf_Unmap _ Hw) as Hu.
    unfold Addr_Unmap in Hu. rewrite Hm in Hu. destruct (z4_AddrFrom4 _ Hu eq_refl) as (a0&a1&a2&a3&Ha&Eu&_).
    apply (f_equal addr) in Eu. change (addr (AddrFrom16 ip) = U128 0 (v4_lo a0 a1 a2 a3)) in Eu. assert (Ei : ip = IPv4 a0 a1 a2 a3).
    { rewrite <- (As16_AddrFrom16 ip) by done. rewrite <- (As16_v4_lo _ _ _ _ z6noz Ha). by apply As16_addr. }
    by rewrite Ei in E4'.
Qed.
Lemma wf_ip_To16 ip : wf_ip ip → length (IP_To16 ip) = 16%nat ∧ is_bytes (IP_To16 ip) ∧
  IP_To16 ip = As16 (toAddr ip) ∧ toAddr ip = Addr_Unmap (AddrFrom16 (IP_To16 ip)) ∧ wf_addr (toAddr ip).
Proof.
  intros Hw. destruct (ip_view ip Hw) as [(a0&a1&a2&a3&Ha&Hi)|(Hl&E4&Et&Em)].
  - assert (E16 : IP_To16 ip = IPv4 a0 a1 a2 a3) by (by destruct Hi as [-> | ->]).
    assert (Ea : toAddr ip = MkAddr (U128 0 (v4_lo a0 a1 a2 a3)) z4).
    { rewrite <- AddrFrom4_eq by done. by destruct (toAddr_IPv4 _ _ _ _ Ha), Hi as [-> | ->]. }
    rewrite E16, Ea, As16_v4_lo, AddrFrom16_IPv4 by done. split; [done|].
    split; [unfold IPv4, v4InV6Prefix; apply Forall_app; split; [repeat (constructor; [unfold is_u8; lia|]); constructor|done]|].
    split; [done|]. unfold Addr_Unmap. rewrite Is4In6_v4_lo by done. split; [done|]. rewrite <- AddrFrom4_eq by done. by apply AddrFrom4_wf.
  - destruct Hw as [Hb _]. assert (E16 : IP_To16 ip = ip) by (unfold IP_To16, len; by rewrite Hl).
    rewrite E16, Et, As16_AddrFrom16 by done. unfold Addr_Unmap. rewrite Em. repeat split; try done; by apply AddrFrom16_wf.
Qed.
Lemma toAddr_inj x y : wf_ip x → wf_ip y → toAddr x = toAddr y ↔ IP_To16 x = IP_To16 y.
Proof.
  intros Hx Hy. destruct (wf_ip_To16 x Hx) as (_&_&E1&E2&_), (wf_ip_To16 y Hy) as (_&_&F1&F2&_). split; congruence.
Qed.

(** ** The classes *)
(** Tests of the first two bytes of an address, made on either or on the word. *)
Definition all_bytes : list Z := map Z.of_nat (seq 0 256).
Lemma all_bytes_in b : is_u8 b → In b all_bytes.
Proof.
  intros Hb. unfold is_u8 in Hb. apply in_map_iff. exists (Z.to_nat b). split; [lia|]. apply in_seq. lia.
Qed.
Lemma two_bytes (P : Z → Z → bool) : forallb (λ b, forallb (P b) all_bytes) all_bytes = true →
  ∀ b c, is_u8 b → is_u8 c → P b c = true.
Proof.
  intros H b c Hb Hc. rewrite forallb_forall in H. specialize (H b (all_bytes_in b Hb)).
  rewrite forallb_forall in H. by apply H, all_bytes_in.
Qed.
Lemma word_tests b c : is_u8 b → is_u8 c →
  (Z.land (b * 256 + c) 0xffc0 =? 0xfe80) = (b =? 0xfe) && (Z.land c 0xc0 =? 0x80) ∧
  (Z.land (b * 256 + c) 0xff0f =? 0xff01) = (b =? 0xff) && (Z.land c 0x0f =? 0x01) ∧
  (Z.land (b * 256 + c) 0xff0f =? 0xff02) = (b =? 0xff) && (Z.land c 0x0f =? 0x02).
Proof.
  intros Hb Hc.
  assert (H : ∀ m v f, forallb (λ b, forallb (λ c, Bool.eqb (Z.land (b * 256 + c) m =? v) (f b c)) all_bytes) all_bytes = true →
    (Z.land (b * 256 + c) m =? v) = f b c).
  { intros m v f E. apply Bool.eqb_prop. exact (two_bytes _ E b c Hb Hc). }
  split; [|split].
  - apply (H 0xffc0 0xfe80 (λ b c, (b =? 0xfe) && (Z.land c 0xc0 =? 0x80))). vm_compute. reflexivity.
  - apply (H 0xff0f 0xff01 (λ b c, (b =? 0xff) && (Z.land c 0x0f =? 0x01))). vm_compute. reflexivity.
  - apply (H 0xff0f 0xff02 (λ b c, (b =? 0xff) && (Z.land c 0x0f =? 0x02))). vm_compute. reflexivity.
Qed.
Lemma first_bytes ip : length ip = 16%nat → is_bytes ip →
  is_u8 (byte_ ip 0) ∧ is_u8 (byte_ ip 1) ∧ v6u16 (AddrFrom16 ip) 0 = byte_ ip 0 * 256 + byte_ ip 1 ∧
  v6 (AddrFrom16 ip) 0 = byte_ ip 0 ∧ Z.shiftr (hi (addr (AddrFrom16 ip))) 56 = byte_ ip 0.
Proof.
  intros Hl Hb. destruct ip as [|b0 [|b1 [|b2 [|b3 [|b4 [|b5 [|b6 [|b7 [|b8 [|b9 [|b10 [|b11 [|b12 [|b13 [|b14 [|b15 [|? ?]]]]]]]]]]]]]]]]]; try done. unfold byte_. cbn [nth].
  assert (Hh : hi (addr (AddrFrom16 [b0; b1; b2; b3; b4; b5; b6; b7; b8; b9; b10; b11; b12; b13; b14; b15])) = bytes8 b0 b1 b2 b3 b4 b5 b6 b7).
  { unfold AddrFrom16. cbn [addr hi take]. apply beUint64_bytes8. by apply (is_bytes_take _ 8) in Hb. }
  unfold v6u16, v6, halves. change (Z.to_nat ((0 / 4) mod 2)) with 0%nat. change (Z.to_nat ((0 / 8) mod 2)) with 0%nat. cbn [nth].
  rewrite Hh. change (u8 (u8 (3 - 0 mod 4) * 16)) with 48. change (u8 (u8 (7 - 0 mod 8) * 8)) with 56.
  unfold is_bytes in Hb. rewrite !list.Forall_cons in Hb. destruct Hb as (?&?&?&?&?&?&?&?&_).
  rewrite !Z.shiftr_div_pow2 by lia. unfold bytes8. unfold is_u8 in *. split; [done|]. split; [done|].
  split; [zwlia|]. split; zwlia.
Qed.
Lemma eq_comm {A} (x y : A) : x = y ↔ y = x.
Proof. by split. Qed.
Lemma bool_iff (a b : bool) : (a = true ↔ b = true) → a = b.
Proof. destruct a, b; intuition congruence. Qed.
(** What an IPv4 address is in package netip. *)
Lemma view4 ip a0 a1 a2 a3 : is_bytes [a0; a1; a2; a3] → ip = [a0; a1; a2; a3] ∨ ip = IPv4 a0 a1 a2 a3 →
  let a := toAddr ip in
  IP_To4 ip = [a0; a1; a2; a3] ∧ a = AddrFrom4 [a0; a1; a2; a3] ∧ Addr_Is4 a = true ∧ Addr_Is4In6 a = false ∧ Addr_Is6 a = false ∧
  v4 a 0 = a0 ∧ v4 a 1 = a1 ∧ v4 a 2 = a2 ∧ (len ip =? IPv4len) || (len ip =? IPv6len) = true.
Proof.
  intros Ha Hi a. assert (Ea : a = MkAddr (U128 0 (v4_lo a0 a1 a2 a3)) z4).
  { unfold a. destruct (toAddr_IPv4 _ _ _ _ Ha) as [E1 E2]. rewrite AddrFrom4_eq in E1, E2 by done. by destruct Hi as [-> | ->]. }
  split; [by destruct Hi as [-> | ->]|]. split; [by rewrite AddrFrom4_eq|]. rewrite Ea.
  destruct (v4_v4_lo 0 z4 _ _ _ _ Ha) as (->&->&->&_). repeat split; try done. by destruct Hi as [-> | ->].
Qed.
Lemma view6 ip : wf_ip ip → length ip = 16%nat → IP_To4 ip = [] → toAddr ip = AddrFrom16 ip → Addr_Is4In6 (AddrFrom16 ip) = false →
  let a := toAddr ip in
  Addr_Is4 a = false ∧ Addr_Is4In6 a = false ∧ Addr_Is6 a = true ∧ (len ip =? IPv6len) = true ∧ IP_To16 ip = ip.
Proof.
  intros Hw Hl E4 Et Em a. unfold a. rewrite Et. repeat split; try done; [unfold len; by rewrite Hl|].
  unfold IP_To16, len. by rewrite Hl.
Qed.
Lemma To16_16 y : length y = 16%nat → IP_To16 y = y.
Proof. intros H. unfold IP_To16, len. by rewrite H. Qed.
Lemma Equal_4_16 x y : length x = 4%nat → length y = 16%nat →
  (beq (take 12 y) v4InV6Prefix && beq x (drop 12 y)) = beq (IP_To16 x) y.
Proof.
  intros Hx Hy. do 5 (destruct x as [|? x]; try done). apply bool_iff. rewrite andb_true_iff, !beq_eq. split.
  - intros [E1 E2]. rewrite <- (take_drop 12 y). by rewrite E1, <- E2.
  - by intros <-.
Qed.
Lemma IP_Equal_To16 x y : wf_ip x → wf_ip y → IP_Equal x y = beq (IP_To16 x) (IP_To16 y).
Proof.
  intros [_ Hx] [_ Hy]. unfold IP_Equal, len. destruct Hx as [Hx|Hx], Hy as [Hy|Hy]; rewrite Hx, Hy; cbn [Z.of_nat].
  - do 5 (destruct x as [|? x]; try done). do 5 (destruct y as [|? y]; try done).
  - rewrite (To16_16 y Hy). by apply Equal_4_16.
  - rewrite (To16_16 x Hx). apply bool_iff. rewrite beq_eq, (eq_comm x), <- beq_eq, <- (Equal_4_16 y x Hy Hx).
    change (beq (take 12 x) v4InV6Prefix && beq (drop 12 x) y = true ↔ beq (take 12 x) v4InV6Prefix && beq y (drop 12 x) = true).
    rewrite !andb_true_iff, !beq_eq. by rewrite (eq_comm y).
  - by rewrite !To16_16.
Qed.
Lemma IP_Equal_toAddr x y : wf_ip x → wf_ip y → IP_Equal x y = bool_decide (toAddr x = toAddr y).
Proof.
  intros Hx Hy. rewrite IP_Equal_To16 by done. apply bool_iff. rewrite beq_eq, bool_decide_eq_true. symmetry. by apply toAddr_inj.
Qed.
Lemma wf_const : wf_ip IPv4zero ∧ wf_ip IPv6unspecified ∧ wf_ip IPv6loopback ∧ wf_ip IPv4bcast.
Proof.
  repeat split; try (by right); unfold is_bytes; repeat (constructor; [unfold is_u8; lia|]); constructor.
Qed.
(** Package netip's addresses of the constants. *)
Lemma const_addr : toAddr IPv4zero = IPv4Unspecified ∧ toAddr IPv6unspecified = IPv6Unspecified ∧
  toAddr IPv6loopback = IPv6Loopback ∧ toAddr IPv4bcast = AddrFrom4 [255; 255; 255; 255].
Proof. repeat split; vm_compute; reflexivity. Qed.

Lemma classes_agree ip : wf_ip ip → let a := toAddr ip in
  IP_IsUnspecified ip = Addr_IsUnspecified a ∧ IP_IsLoopback ip = Addr_IsLoopback a ∧
  IP_IsPrivate ip = Addr_IsPrivate a ∧ IP_IsMulticast ip = Addr_IsMulticast a ∧
  IP_IsInterfaceLocalMulticast ip = Addr_IsInterfaceLocalMulticast a ∧
  IP_IsLinkLocalMulticast ip = Addr_IsLinkLocalMulticast a ∧ IP_IsLinkLocalUnicast ip = Addr_IsLinkLocalUnicast a.
Proof.
  intros Hw a. destruct wf_const as (W1&W2&W3&_), const_addr as (C1&C2&C3&_).
  split; [unfold IP_IsUnspecified, Addr_IsUnspecified; by rewrite !IP_Equal_toAddr, C1, C2|].
  destruct (ip_view ip Hw) as [(a0&a1&a2&a3&Ha&Hi)|(Hl&E4&Et&Em)].
  - destruct (view4 ip _ _ _ _ Ha Hi) as (E4&_&H4&H46&H6&V0&V1&V2&_). fold a in H4, H46, H6, V0, V1, V2.
    unfold IP_IsLoopback, IP_IsPrivate, IP_IsMulticast, IP_IsInterfaceLocalMulticast, IP_IsLinkLocalMulticast, IP_IsLinkLocalUnicast,
      Addr_IsLoopback, Addr_IsPrivate, Addr_IsMulticast, Addr_IsInterfaceLocalMulticast, Addr_IsLinkLocalMulticast, Addr_IsLinkLocalUnicast.
    rewrite E4, H46, H4, H6, V0, V1, V2. cbn [is_nil negb byte_ nth andb]. repeat split; try done.
    destruct Hi as [-> | ->]; done.
  - destruct (view6 ip Hw Hl E4 Et Em) as (H4&H46&H6&Hlen&_). fold a in Et, H4, H46, H6.
    destruct Hw as [Hb _]. destruct (first_bytes ip Hl Hb) as (B0&B1&F1&F2&F3). rewrite <- Et in F1, F2, F3.
    destruct (word_tests _ _ B0 B1) as (T1&T2&T3).
    unfold IP_IsLoopback, IP_IsPrivate, IP_IsMulticast, IP_IsInterfaceLocalMulticast, IP_IsLinkLocalMulticast, IP_IsLinkLocalUnicast,
      Addr_IsLoopback, Addr_IsPrivate, Addr_IsMulticast, Addr_IsInterfaceLocalMulticast, Addr_IsLinkLocalMulticast, Addr_IsLinkLocalUnicast.
    change (64 - 8) with 56. rewrite E4, H46, H4, H6, Hlen, F1, F2, F3, T1, T2, T3. cbn [is_nil negb andb]. repeat split; try done.
    rewrite IP_Equal_toAddr by (done || by split; [|right]). rewrite C3. fold a. apply bool_iff.
    rewrite bool_decide_eq_true, andb_true_iff, !Z.eqb_eq, Et. split; [by intros ->|].
    intros [H1 H2]. change IPv6Loopback with (MkAddr (U128 0 1) z6noz).
    unfold AddrFrom16 in *. cbn [addr hi lo] in *. by rewrite H1, H2.
Qed.
Lemma global_agrees ip : wf_ip ip → IP_IsGlobalUnicast ip = Addr_IsGlobalUnicast (toAddr ip).
Proof.
  intros Hw. destruct wf_const as (W1&W2&_&W4), const_addr as (C1&C2&_&C4).
  destruct (classes_agree ip Hw) as (E1&E2&_&E4&_&_&E7). unfold IP_IsGlobalUnicast. rewrite E1, E2, E4, E7, IP_Equal_toAddr, C4 by done.
  assert (Hlen : (len ip =? IPv4len) || (len ip =? IPv6len) = true) by (destruct Hw as [_ [H|H]]; unfold len; by rewrite H).
  rewrite Hlen. cbn [andb]. unfold Addr_IsGlobalUnicast, Addr_IsUnspecified.
  destruct (ip_view ip Hw) as [(a0&a1&a2&a3&Ha&Hi)|(Hl&E&Et&Em)].
  - destruct (view4 ip _ _ _ _ Ha Hi) as (_&Ea&H4&H46&H6&_). rewrite H46, H4.
    assert (Hz : z (toAddr ip) = z4) by (unfold Addr_Is4 in H4; by apply bool_decide_eq_true in H4).
    rewrite Hz. rewrite (bool_decide_eq_false_2 (z4 = z0)) by done. cbn [andb].
    rewrite (bool_decide_eq_false_2 (toAddr ip = IPv6Unspecified)) by (intros E; by rewrite E in Hz).
    destruct (bool_decide (toAddr ip = IPv4Unspecified)), (bool_decide (toAddr ip = AddrFrom4 [255; 255; 255; 255])); done.
  - destruct (view6 ip Hw Hl E Et Em) as (H4&H46&H6&_). rewrite H46, H4. cbn [andb].
    assert (Hz : z (toAddr ip) = z6noz) by (by rewrite Et). rewrite Hz, (bool_decide_eq_false_2 (z6noz = z0)) by done.
    rewrite (bool_decide_eq_false_2 (toAddr ip = IPv4Unspecified)) by (intros E'; by rewrite E' in Hz).
    rewrite (bool_decide_eq_false_2 (toAddr ip = AddrFrom4 [255; 255; 255; 255])) by (intros E'; by rewrite E' in Hz).
    by destruct (bool_decide _).
Qed.
Lemma toAddr_facts ip : wf_ip ip → z (toAddr ip) = z4 ∨ z (toAddr ip) = z6noz.
Proof.
  intros Hw. destruct (ip_view ip Hw) as [(a0&a1&a2&a3&Ha&Hi)|(Hl&E&Et&Em)]; [left|right; by rewrite Et].
  destruct (view4 ip _ _ _ _ Ha Hi) as (_&_&H4&_). unfold Addr_Is4 in H4. by apply bool_decide_eq_true in H4.
Qed.
Lemma IP_String_Addr ip : wf_ip ip → IP_String ip = Addr_String (toAddr ip).
Proof.
  intros Hw. assert (Hn : (len ip =? 0) = false ∧ (len ip =? IPv4len) || (len ip =? IPv6len) = true).
  { destruct Hw as [_ [H|H]]; unfold len; by rewrite H. }
  unfold IP_String. rewrite (proj1 Hn), <- negb_orb, (proj2 Hn). cbn [negb].
  destruct (ip_view ip Hw) as [(a0&a1&a2&a3&Ha&Hi)|(Hl&E&Et&Em)].
  - destruct (view4 ip _ _ _ _ Ha Hi) as (E4&Ea&_). by rewrite E4, Ea.
  - by rewrite E, Et.
Qed.
Lemma ParseIP_text a : wf_addr a → z a = z4 ∨ z a = z6noz → ParseIP (Addr_String a) = Ok (As16 a).
Proof.
  intros Hw Hz. assert (Hz0 : z a ≠ z0) by (destruct Hz as [E|E]; by rewrite E).
  unfold ParseIP, parseIP. rewrite Addr_String_text, ParseAddr_text by done.
  unfold Addr_Zone. by destruct Hz as [E|E]; rewrite E.
Qed.

(** C32: An IP of package net, of 4 or 16 bytes, is the netip.Addr of the same
    bytes without the IPv4-in-IPv6 wrapping: it has the same text, the same bytes,
    the same class by every test, and is equal to another exactly when their
    addresses are.  Parsing its text gives its 16-byte form back. *)
Theorem IP_is_Addr ip x : wf_ip ip → wf_ip x → let a := toAddr ip in
  wf_addr a ∧ IP_To16 ip = As16 a ∧ IP_To4 ip = (if Addr_Is4 a then AsSlice a else []) ∧
  IP_String ip = Addr_String a ∧ ParseIP (IP_String ip) = Ok (IP_To16 ip) ∧
  (IP_MarshalText ip = Ok (IP_String ip) ∧ ∀ old, IP_UnmarshalText old (IP_String ip) = Ok (IP_To16 ip, None)) ∧
  IP_Equal ip x = bool_decide (a = toAddr x) ∧
  IP_IsUnspecified ip = Addr_IsUnspecified a ∧ IP_IsLoopback ip = Addr_IsLoopback a ∧
  IP_IsPrivate ip = Addr_IsPrivate a ∧ IP_IsMulticast ip = Addr_IsMulticast a ∧
  IP_IsInterfaceLocalMulticast ip = Addr_IsInterfaceLocalMulticast a ∧
  IP_IsLinkLocalMulticast ip = Addr_IsLinkLocalMulticast a ∧
  IP_IsLinkLocalUnicast ip = Addr_IsLinkLocalUnicast a ∧ IP_IsGlobalUnicast ip = Addr_IsGlobalUnicast a.
Proof.
  intros Hw Hx a. destruct (wf_ip_To16 ip Hw) as (Hl&_&E16&_&Hwa). pose proof (toAddr_facts ip Hw) as Hz.
  assert (Hp : ParseIP (IP_String ip) = Ok (IP_To16 ip)) by (rewrite IP_String_Addr, E16 by done; by apply ParseIP_text).
  assert (Hne : len (IP_String ip) ≠ 0).
  { intros H0. assert (IP_String ip = []) as E0 by (destruct (IP_String ip); [done|rewrite len_cons in H0; pose proof (len_nonneg l); lia]).
    rewrite E0 in Hp. unfold ParseIP, parseIP in Hp. cbn in Hp. injection Hp as Hp. by rewrite <- Hp in Hl. }
  split; [done|]. split; [done|].
  split.
  { destruct (ip_view ip Hw) as [(a0&a1&a2&a3&Ha&Hi)|(Hl'&E&Et&Em)].
    - destruct (view4 ip _ _ _ _ Ha Hi) as (->&Ea&H4&_). unfold a. rewrite H4, Ea, AddrFrom4_eq by done.
      unfold AsSlice. cbn [z addr lo]. destruct (v4_lo_wf _ _ _ _ Ha) as (_&_&->).
      unfold bePutUint32. unfold is_bytes in Ha. rewrite !list.Forall_cons in Ha. destruct Ha as (?&?&?&?&_).
      rewrite ?Z.shiftr_div_pow2 by lia. unfold is_u8 in *. repeat f_equal; zwlia.
    - destruct (view6 ip Hw Hl' E Et Em) as (H4&_). unfold a. by rewrite H4, E. }
  split; [by apply IP_String_Addr|]. split; [done|]. split.
  { split.
    - unfold IP_MarshalText. assert (Hn : (len ip =? 0) = false ∧ (len ip =? IPv4len) || (len ip =? IPv6len) = true).
      { destruct Hw as [_ [H|H]]; unfold len; by rewrite H. }
      by rewrite (proj1 Hn), <- negb_orb, (proj2 Hn).
    - intros old. unfold IP_UnmarshalText. rewrite (proj2 (Z.eqb_neq _ _) Hne), Hp. cbn [mbind res_bind].
      destruct (IP_To16 ip); [done|]. done. }
  split; [by apply IP_Equal_toAddr|]. destruct (classes_agree ip Hw) as (?&?&?&?&?&?&?). repeat split; try done.
  by apply global_agrees.
Qed.
Lemma IP_is_Addr_witness :
  IP_String (IPv4 10 0 0 1) = "10.0.0.1"%go ∧ IP_Equal (IPv4 10 0 0 1) [10; 0; 0; 1] = true ∧
  IP_IsPrivate (IPv4 10 0 0 1) = Addr_IsPrivate (toAddr (IPv4 10 0 0 1)).
Proof.
  split; [vm_compute; reflexivity|]. split; [reflexivity|].
  assert (H1 : wf_ip (IPv4 10 0 0 1)).
  { split; [|right; reflexivity]. repeat (constructor; [split; [intros H; discriminate H|reflexivity]|]). constructor. }
  assert (H2 : wf_ip [10; 0; 0; 1]).
  { split; [|left; reflexivity]. repeat (constructor; [split; [intros H; discriminate H|reflexivity]|]). constructor. }
  destruct (IP_is_Addr (IPv4 10 0 0 1) [10; 0; 0; 1] H1 H2) as (_&_&_&_&_&_&_&_&_&H&_). exact H.
Defined.
