(* ===== verification/NetCIDRProps.v ===== *)
(** * package net: masks and networks against netip.Prefix *)
From S2P Require Import Prelude Strconv Uint128 NetipAddr NetipPrefix NetipText NetipRoundtrip NetipProps NetHost NetHostProps NetIP NetIPProps.

(** ** Addresses as numbers *)
(** The number a slice writes, most significant byte first. *)
Fixpoint be (b : bytes) : Z :=
  match b with [] => 0 | c :: b => c * 2 ^ (8 * len b) + be b end.
Lemma pow_cons (c : Z) (b : bytes) : 2 ^ (8 * len (c :: b)) = 2 ^ 8 * 2 ^ (8 * len b).
Proof. rewrite len_cons. pose proof (len_nonneg b). rewrite <- Z.pow_add_r by lia. f_equal. lia. Qed.
Lemma pow_len_pos (b : bytes) : 0 < 2 ^ (8 * len b).
Proof. pose proof (len_nonneg b). apply Z.pow_pos_nonneg; lia. Qed.
Lemma be_range b : is_bytes b → 0 <= be b < 2 ^ (8 * len b).
Proof.
  induction 1 as [|c b Hc Hb IH]; [done|]. rewrite pow_cons. cbn [be]. pose proof (pow_len_pos b). unfold is_u8 in Hc. nia.
Qed.
Lemma be_inj a b : is_bytes a → is_bytes b → len a = len b → be a = be b → a = b.
Proof.
  intros Ha. revert b. induction Ha as [|c a Hc Ha IH]; intros b Hb; destruct Hb as [|d b Hd Hb];
    rewrite ?len_cons; unfold len; cbn [length]; try lia; [done|].
  intros El E. assert (El' : len a = len b) by (unfold len; lia). cbn [be] in E. rewrite El' in E.
  pose proof (be_range a Ha). pose proof (be_range b Hb). pose proof (pow_len_pos b). rewrite El' in *.
  assert (c = d) as -> by nia. f_equal. apply IH; [done|done|nia].
Qed.
Lemma be_app a b : be (a ++ b) = be a * 2 ^ (8 * len b) + be b.
Proof.
  induction a as [|c a IH]; [done|]. cbn [app be]. rewrite IH, len_app, Z.mul_add_distr_l, Z.pow_add_r; pose proof (len_nonneg a); pose proof (len_nonneg b); lia.
Qed.

(** ** Masks *)
(** The byte with [n] ones at its front. *)
Definition mask_byte (n : Z) : Z := u8 (Z.lnot (Z.shiftr 0xff n)).
Definition eight : list Z := [0; 1; 2; 3; 4; 5; 6; 7].
Lemma eight_in n : 0 <= n < 8 → In n eight.
Proof. intros. cbn. lia. Qed.
Lemma land_mask_byte b n : is_u8 b → 0 <= n < 8 → Z.land b (mask_byte n) = b / 2 ^ (8 - n) * 2 ^ (8 - n).
Proof.
  intros Hb Hn. assert (H : forallb (λ n, forallb (λ b, Z.land b (mask_byte n) =? b / 2 ^ (8 - n) * 2 ^ (8 - n)) all_bytes) eight = true)
    by (vm_compute; reflexivity).
  rewrite forallb_forall in H. specialize (H n (eight_in n Hn)). rewrite forallb_forall in H. apply Z.eqb_eq, H. by apply all_bytes_in.
Qed.
Lemma land_ff b : is_u8 b → Z.land b 0xff = b.
Proof. intros Hb. change 0xff with (2 ^ 8 - 1). rewrite land_ones_mod by lia. apply Z.mod_small. exact Hb. Qed.
Lemma mask_loop_S l n : mask_loop (S l) n = if n >=? 8 then 0xff :: mask_loop l (n - 8) else mask_byte n :: mask_loop l 0.
Proof. done. Qed.
Lemma length_mask_loop l : ∀ n, length (mask_loop l n) = l.
Proof. induction l as [|l IH]; intros n; [done|]. rewrite mask_loop_S. destruct (n >=? 8); cbn [length]; by rewrite IH. Qed.
Lemma mask_byte_u8 n : is_u8 (mask_byte n).
Proof. apply u8_range. Qed.
Lemma mask_loop_bytes l : ∀ n, is_bytes (mask_loop l n).
Proof.
  induction l as [|l IH]; intros n; [constructor|]. rewrite mask_loop_S.
  destruct (n >=? 8); constructor; [unfold is_u8; lia|apply IH|apply mask_byte_u8|apply IH].
Qed.
Lemma mask_loop_0 l : mask_loop l 0 = replicate l 0.
Proof. induction l as [|l IH]; [done|]. rewrite mask_loop_S. cbn [Z.geb Z.compare]. by rewrite IH. Qed.

(** Masking keeps the network part. *)
Lemma be_masked ip : is_bytes ip → ∀ n, 0 <= n <= 8 * len ip →
  be (land_bytes ip (mask_loop (length ip) n)) = masked_val (8 * len ip) n (be ip).
Proof.
  induction 1 as [|c ip Hc Hip IH]; intros n Hn.
  { unfold masked_val. cbn. by rewrite Z.div_0_l by (apply Z.pow_nonzero; cbn in Hn; lia). }
  cbn [length]. rewrite mask_loop_S. rewrite len_cons in Hn.
  pose proof (be_range ip Hip) as Hr. pose proof (len_nonneg ip) as Hl. pose proof (pow_len_pos ip) as Hp.
  assert (Hlen : ∀ k, len (land_bytes ip (mask_loop (length ip) k)) = len ip).
  { intros k. unfold land_bytes, len. rewrite length_zip_with, length_mask_loop. lia. }
  unfold land_bytes in *. unfold masked_val in *. rewrite len_cons, Z.geb_leb. destruct (Z.leb_spec 8 n) as [H8|H8].
  - cbn [zip_with be]. rewrite Hlen, (land_ff c Hc), IH by lia. replace (8 * (len ip + 1) - n) with (8 * len ip - (n - 8)) by lia.
    set (k := 8 * len ip - (n - 8)). assert (Hk : 0 <= k <= 8 * len ip) by lia.
    assert (Hpk : 0 < 2 ^ k) by (apply Z.pow_pos_nonneg; lia).
    replace (8 * len ip) with (k + (8 * len ip - k)) by lia. rewrite (Z.pow_add_r 2 k) by lia.
    replace (c * (2 ^ k * 2 ^ (8 * len ip - k)) + be ip) with (be ip + c * 2 ^ (8 * len ip - k) * 2 ^ k) by ring.
    rewrite Z.div_add by lia. ring.
  - cbn [zip_with be]. rewrite Hlen, (land_mask_byte c n Hc) by lia. rewrite IH by lia. rewrite Z.sub_0_r, (Z.div_small (be ip)) by done.
    replace (8 * (len ip + 1) - n) with (8 * len ip + (8 - n)) by lia. rewrite Z.pow_add_r by lia.
    rewrite <- Z.div_div by (try lia; apply Z.pow_pos_nonneg; lia). rewrite Z.div_add_l by lia. rewrite (Z.div_small (be ip)) by done.
    rewrite !Z.add_0_r. ring.
Qed.
Lemma land_bytes_bytes ip m : is_bytes ip → is_bytes m → is_bytes (land_bytes ip m).
Proof.
  intros Hi. revert m. induction Hi as [|c ip Hc Hi IH]; intros m Hm; [constructor|]. destruct Hm as [|d m Hd Hm]; [constructor|].
  cbn. constructor; [|by apply IH]. unfold is_u8 in *. apply (land_range 8); lia.
Qed.
(** Two addresses agree under a mask when the masked addresses are equal. *)
Lemma same_net_land nn : ∀ m ip, length nn = length m → length ip = length m →
  same_net nn m ip = true ↔ land_bytes nn m = land_bytes ip m.
Proof.
  induction nn as [|a nn IH]; intros [|k m] [|b ip]; cbn [length]; intros H1 H2; try done.
  unfold land_bytes in *. cbn [same_net zip_with]. rewrite andb_true_iff, Z.eqb_eq, IH by lia. split; [by intros [-> ->]|by intros [= -> ->]].
Qed.
Lemma same_net_net nn ip n : is_bytes nn → is_bytes ip → length nn = length ip → 0 <= n <= 8 * len nn →
  same_net nn (mask_loop (length nn) n) ip = true ↔ net (8 * len nn) n (be ip) = net (8 * len nn) n (be nn).
Proof.
  intros Hn Hi Hl Hr. assert (El : len ip = len nn) by (unfold len; lia).
  rewrite same_net_land by (rewrite length_mask_loop; lia). rewrite (eq_comm (net _ _ (be ip))), <- masked_net_eq by lia.
  pose proof (be_masked nn Hn n Hr) as E1. pose proof (be_masked ip Hi n ltac:(by rewrite El)) as E2. rewrite El, <- Hl in E2.
  rewrite <- E1, <- E2. split; [by intros ->|]. apply be_inj; try (apply land_bytes_bytes; [done|apply mask_loop_bytes]).
  unfold land_bytes, len. rewrite !length_zip_with, length_mask_loop. lia.
Qed.

(** ** The length of a mask *)
Lemma leading_ones_shift f : ∀ v n, leading_ones f v n = (fst (leading_ones f v 0), n + snd (leading_ones f v 0)).
Proof.
  induction f as [|f IH]; intros v n; cbn [leading_ones].
  - cbn. f_equal. lia.
  - destruct (negb _); cbn; [|f_equal; lia]. rewrite (IH _ (n + 1)), (IH _ (0 + 1)). cbn. f_equal. lia.
Qed.
Definition ones_of (v : Z) : Z := snd (leading_ones 8 v 0).
(** A byte is ones and then zeros when nothing is left after the ones at its front. *)
Lemma leading_ones_byte v : is_u8 v →
  (v =? 0xff) || (0 <=? ones_of v) && (ones_of v <? 8)
  && Bool.eqb (fst (leading_ones 8 v 0) =? 0) (v =? mask_byte (ones_of v)) = true.
Proof.
  intros Hv. assert (H : forallb (λ v, (v =? 0xff) || (0 <=? ones_of v) && (ones_of v <? 8)
    && Bool.eqb (fst (leading_ones 8 v 0) =? 0) (v =? mask_byte (ones_of v))) all_bytes = true) by (vm_compute; reflexivity).
  rewrite forallb_forall in H. exact (H v (all_bytes_in v Hv)).
Qed.
Lemma leading_mask_byte n : 0 <= n < 8 → mask_byte n ≠ 0xff ∧ leading_ones 8 (mask_byte n) 0 = (0, n).
Proof.
  intros Hn. apply eight_in in Hn. cbn in Hn. repeat destruct Hn as [<- | Hn]; try (split; [intros H; discriminate H|reflexivity]). done.
Qed.
Lemma isZeros_replicate m : isZeros m = true ↔ m = replicate (length m) 0.
Proof.
  induction m as [|c m IH]; [done|]. cbn [isZeros forallb length replicate]. fold (isZeros m). rewrite andb_true_iff, Z.eqb_eq, IH.
  split; [by intros [-> <-]|]. by intros [= -> <-].
Qed.
Lemma mask_length_mask l : ∀ n k, 0 <= n <= 8 * Z.of_nat l → mask_length (mask_loop l n) k = k + n.
Proof.
  induction l as [|l IH]; intros n k Hn; [cbn; lia|]. rewrite mask_loop_S, Z.geb_leb. destruct (Z.leb_spec 8 n) as [H8|H8]; cbn [mask_length].
  - rewrite (Z.eqb_refl 0xff), IH by lia. lia.
  - destruct (leading_mask_byte n ltac:(lia)) as [H1 H2]. rewrite (proj2 (Z.eqb_neq _ _) H1), leading_ones_shift, H2. cbn [fst snd Z.eqb negb].
    rewrite (proj2 (isZeros_replicate _)); [done|]. by rewrite length_mask_loop, mask_loop_0.
Qed.
Lemma mask_length_inv m : is_bytes m → ∀ k r, 0 <= k → mask_length m k = r → r ≠ -1 →
  k <= r <= k + 8 * len m ∧ m = mask_loop (length m) (r - k).
Proof.
  induction 1 as [|v m Hv Hm IH]; intros k r Hk; cbn [mask_length]; [intros <- _; split; [unfold len; cbn [length]; lia|done]|].
  rewrite len_cons. cbn [length]. rewrite mask_loop_S, Z.geb_leb. pose proof (len_nonneg m).
  destruct (Z.eqb_spec v 0xff) as [->|Hff].
  - intros Hr Hn. destruct (IH (k + 8) r ltac:(lia) Hr Hn) as [H1 H2]. split; [lia|].
    rewrite (proj2 (Z.leb_le 8 _)) by lia. replace (r - k - 8) with (r - (k + 8)) by lia. by f_equal.
  - rewrite leading_ones_shift. fold (ones_of v). pose proof (leading_ones_byte v Hv) as Hb.
    rewrite (proj2 (Z.eqb_neq _ _) Hff) in Hb. cbn [orb] in Hb. apply andb_true_iff in Hb as [Hb He]. apply Bool.eqb_prop in He.
    rewrite He. destruct (Z.eqb_spec v (mask_byte (ones_of v))) as [Ev|Ev]; cbn [negb]; [|by intros <-].
    destruct (isZeros m) eqn:Ez; [|by intros <-]. intros <- _. apply andb_true_iff in Hb as [H0 H8]. split; [lia|].
    rewrite (proj2 (Z.leb_gt 8 _)) by lia. replace (k + ones_of v - k) with (ones_of v) by lia. rewrite mask_loop_0. rewrite <- Ev. f_equal.
    by apply isZeros_replicate.
Qed.
(** A mask with a length is the mask of that length. *)
Lemma simpleMaskLength_inv m : is_bytes m → simpleMaskLength m ≠ -1 →
  0 <= simpleMaskLength m <= 8 * len m ∧ m = mask_loop (length m) (simpleMaskLength m).
Proof.
  intros Hm Hn. destruct (mask_length_inv m Hm 0 _ ltac:(lia) eq_refl Hn) as [H1 H2]. fold (simpleMaskLength m) in *.
  rewrite Z.sub_0_r in H2. split; [lia|done].
Qed.
Lemma simpleMaskLength_mask l n : 0 <= n <= 8 * Z.of_nat l → simpleMaskLength (mask_loop l n) = n.
Proof. intros Hn. unfold simpleMaskLength. rewrite mask_length_mask by done. lia. Qed.
(** The possible values of a length that is not -1 include no negative one. *)
Lemma simpleMaskLength_nonneg m : is_bytes m → simpleMaskLength m = -1 ∨ 0 <= simpleMaskLength m.
Proof. intros Hm. destruct (decide (simpleMaskLength m = -1)) as [|Hn]; [by left|right]. apply (simpleMaskLength_inv m Hm Hn). Qed.

(** The masks of CIDRMask have the size they were asked for, and the only masks
    with a size are these: IPMask.Size inverts CIDRMask, and answers (0, 0) for
    every mask that is not ones followed by zeros. *)
Theorem CIDRMask_Size ones bits m : is_bytes m → (bits = 32 ∨ bits = 128) → len m * 8 = bits →
  (0 <= ones <= bits → IPMask_Size (CIDRMask ones bits) = (ones, bits)) ∧
  (¬ 0 <= ones <= bits → CIDRMask ones bits = []) ∧
  ((IPMask_Size m = (0, 0) ∧ ∀ n, 0 <= n <= bits → m ≠ CIDRMask n bits) ∨
   ∃ n, 0 <= n <= bits ∧ IPMask_Size m = (n, bits) ∧ m = CIDRMask n bits).
Proof.
  intros Hm Hb Hl. assert (Hbits : negb (bits =? 8 * IPv4len) && negb (bits =? 8 * IPv6len) = false).
  { destruct Hb as [-> | ->]; done. }
  assert (Hc : ∀ n, 0 <= n <= bits → CIDRMask n bits = mask_loop (length m) n).
  { intros n Hn. unfold CIDRMask. rewrite Hbits, Z.gtb_ltb, (proj2 (Z.ltb_ge n 0)), (proj2 (Z.ltb_ge bits n)) by lia. cbn [orb].
    f_equal. rewrite <- Hl, Z.div_mul by done. unfold len. lia. }
  assert (Hs : ∀ n, 0 <= n <= bits → IPMask_Size (mask_loop (length m) n) = (n, bits)).
  { intros n Hn. unfold IPMask_Size. rewrite simpleMaskLength_mask by (unfold len in Hl; lia).
    rewrite (proj2 (Z.eqb_neq n (-1))) by lia. f_equal. rewrite <- Hl. unfold len. by rewrite length_mask_loop. }
  split; [intros Hn; rewrite Hc by done; by apply Hs|]. split.
  { intros Hn. unfold CIDRMask. rewrite Hbits, Z.gtb_ltb. destruct (Z.ltb_spec ones 0), (Z.ltb_spec bits ones); try done. lia. }
  destruct (decide (simpleMaskLength m = -1)) as [E|Hn].
  - left. split; [unfold IPMask_Size; by rewrite E|]. intros n Hn ->. rewrite Hc, simpleMaskLength_mask in E; unfold len in Hl; lia.
  - right. destruct (simpleMaskLength_inv m Hm Hn) as [H1 H2]. exists (simpleMaskLength m). split; [lia|]. rewrite Hc by lia.
    split; [|done]. rewrite H2 at 1. apply Hs. lia.
Qed.
Lemma CIDRMask_Size_witness :
  CIDRMask 20 32 = [255; 255; 240; 0] ∧ IPMask_Size (CIDRMask 20 32) = (20, 32) ∧ IPMask_Size [255; 0; 255; 0] = (0, 0).
Proof.
  assert (H : is_bytes [255; 0; 255; 0]) by (repeat (constructor; [split; [intros E; discriminate E|reflexivity]|]); constructor).
  split; [reflexivity|]. split; [|reflexivity].
  refine (proj1 (CIDRMask_Size 20 32 [255; 0; 255; 0] H (or_introl eq_refl) eq_refl) _). split; intros E; discriminate E.
Defined.

(** ** Networks *)
(** The four bytes of an IPv4 address in either form, else the address: what
    networkNumberAndMask and Contains compare. *)
Definition short (ip : bytes) : bytes := if is_nil (IP_To4 ip) then ip else IP_To4 ip.
Lemma be_8 b : length b = 8%nat → is_bytes b → be b = beUint64 b.
Proof.
  intros Hl Hb. do 9 (destruct b as [|? b]; try done). rewrite beUint64_bytes8 by done. cbn [be]. unfold bytes8, len. cbn [length].
  change (8 * Z.of_nat 7) with 56. change (8 * Z.of_nat 6) with 48. change (8 * Z.of_nat 5) with 40. change (8 * Z.of_nat 4) with 32.
  change (8 * Z.of_nat 3) with 24. change (8 * Z.of_nat 2) with 16. change (8 * Z.of_nat 1) with 8. change (8 * Z.of_nat 0) with 0. lia.
Qed.
Lemma be_4 a0 a1 a2 a3 : be [a0; a1; a2; a3] = a0 * 2 ^ 24 + a1 * 2 ^ 16 + a2 * 2 ^ 8 + a3.
Proof.
  cbn [be]. unfold len. cbn [length]. change (8 * Z.of_nat 3) with 24. change (8 * Z.of_nat 2) with 16.
  change (8 * Z.of_nat 1) with 8. change (8 * Z.of_nat 0) with 0. lia.
Qed.
Lemma be_16 b : length b = 16%nat → is_bytes b → be b = val (addr (AddrFrom16 b)).
Proof.
  intros Hl Hb. rewrite <- (take_drop 8 b) at 1. rewrite be_app, !be_8;
    try (rewrite ?length_take, ?length_drop; lia); try (by apply is_bytes_take); try (by apply is_bytes_drop).
  unfold val, AddrFrom16. cbn [addr hi lo]. unfold len. rewrite length_drop, Hl. done.
Qed.
Lemma short_addr ip : wf_ip ip → is_bytes (short ip) ∧ 8 * len (short ip) = Addr_BitLen (toAddr ip) ∧
  be (short ip) = addr_val (toAddr ip) ∧ hasZone (toAddr ip) = false ∧ z (toAddr ip) ≠ z0 ∧
  (length (short ip) = 4%nat ∨ length (short ip) = 16%nat ∧ short ip = ip ∧ IP_To4 ip = []).
Proof.
  intros Hw. unfold short. destruct (ip_view ip Hw) as [(a0&a1&a2&a3&Ha&Hi)|(Hl&E4&Et&Em)].
  - destruct (view4 ip _ _ _ _ Ha Hi) as (->&->&_). rewrite AddrFrom4_eq by done. cbn [is_nil]. unfold Addr_BitLen, addr_val, hasZone. cbn [z addr lo].
    destruct (v4_lo_wf _ _ _ _ Ha) as (_&_&->). split; [done|]. split; [done|]. split; [apply be_4|]. split; [done|]. split; [done|]. by left.
  - destruct Hw as [Hb _]. rewrite E4, Et. cbn [is_nil]. unfold len. rewrite Hl, (be_16 ip Hl Hb). repeat split; try done. by right.
Qed.
(** The network an IPNet stands for: its address and mask in the same form. *)
Lemma networkNumberAndMask_short n nn m : wf_ip (n_IP n) → is_bytes (n_Mask n) →
  networkNumberAndMask n = (nn, m) → nn ≠ [] → nn = short (n_IP n) ∧ length m = length nn ∧ is_bytes m.
Proof.
  intros Hw Hm. assert (Hl : length (short (n_IP n)) = 4%nat ∨ length (short (n_IP n)) = 16%nat).
  { destruct (short_addr _ Hw) as (_&_&_&_&_&[?|[? _]]); auto. }
  unfold networkNumberAndMask. fold (short (n_IP n)).
  set (s := short (n_IP n)) in *. destruct (_ && _); [by intros [= <- <-]|]. unfold len, IPv4len, IPv6len.
  destruct (Z.eqb_spec (Z.of_nat (length (n_Mask n))) 4) as [H4|H4].
  - destruct (Z.eqb_spec (Z.of_nat (length s)) 4) as [Hs|Hs]; cbn [negb]; intros [= <- <-] Hn; [|done]. split; [done|]. split; [lia|done].
  - destruct (Z.eqb_spec (Z.of_nat (length (n_Mask n))) 16) as [H16|H16]; intros [= <- <-] Hn; [|done]. split; [done|].
    destruct (Z.eqb_spec (Z.of_nat (length s)) 4); [rewrite length_drop; split; [lia|by apply is_bytes_drop]|]. split; [lia|done].
Qed.
Lemma toAddr_invalid x : length x ≠ 4%nat → length x ≠ 16%nat → toAddr x = zeroAddr ∧ IP_To4 x = [].
Proof.
  intros H4 H16. unfold toAddr, AddrFromSlice, IP_To4, IPv4len, IPv6len, len.
  rewrite (proj2 (Z.eqb_neq (Z.of_nat _) 4)), (proj2 (Z.eqb_neq (Z.of_nat _) 16)) by lia. done.
Qed.
Lemma short_invalid x : length x ≠ 4%nat → length x ≠ 16%nat → short x = x.
Proof. intros H4 H16. unfold short. by rewrite (proj2 (toAddr_invalid x H4 H16)). Qed.
Lemma IPNet_Contains_short n x : IPNet_Contains n x =
  let '(nn, m) := networkNumberAndMask n in
  if negb (len (short x) =? len nn) then false else same_net nn m (short x).
Proof. unfold IPNet_Contains, short. destruct (networkNumberAndMask n) as [nn m]. by destruct (is_nil (IP_To4 x)). Qed.
Lemma PrefixFrom_valid a l : hasZone a = false → z a ≠ z0 → 0 <= l <= Addr_BitLen a → PrefixFrom a l = MkPrefix a (l + 1).
Proof. intros Hz H0 Hl. pose proof (PrefixFrom_bits a l H0 Hl) as E. unfold PrefixFrom in *. cbn [bitsPlusOne] in E. by rewrite E, withoutZone_id. Qed.
Lemma contains_prefix n nn m l x : wf_ip (n_IP n) → is_bytes (n_Mask n) → is_bytes x →
  networkNumberAndMask n = (nn, m) → nn ≠ [] → simpleMaskLength m = l → l ≠ -1 →
  0 <= l <= Addr_BitLen (toAddr (n_IP n)) ∧
  (IPNet_Contains n x = true ↔ in_prefix (PrefixFrom (toAddr (n_IP n)) l) (toAddr x)).
Proof.
  intros Hw Hm Hx E Hn El Hl. destruct (networkNumberAndMask_short n nn m Hw Hm E Hn) as (Enn&Elen&Hmb).
  destruct (short_addr _ Hw) as (Hsb&Hsl&Hsv&Hsz&Hs0&_). rewrite <- Enn in Hsb, Hsl, Hsv.
  pose proof (simpleMaskLength_inv m Hmb) as Hi. rewrite El in Hi. destruct (Hi Hl) as [Hr Emask].
  assert (El8 : len m = len nn) by (unfold len; lia). rewrite El8, Hsl in Hr. split; [done|].
  rewrite PrefixFrom_valid by done. rewrite IPNet_Contains_short, E. unfold in_prefix, Prefix_IsValid, Prefix_Bits. cbn [p_ip bitsPlusOne].
  replace (l + 1 - 1) with l by lia. rewrite (proj2 (Z.gtb_lt (l + 1) 0)) by lia.
  destruct (decide (length x = 4%nat ∨ length x = 16%nat)) as [Hxl|Hxl].
  - assert (Hwx : wf_ip x) by done. destruct (short_addr x Hwx) as (Hxb&Hxl8&Hxv&Hxz&Hx0&_).
    destruct (Z.eqb_spec (len (short x)) (len nn)) as [Ex|Ex]; cbn [negb]; cycle 1.
    { split; [done|]. intros (_&_&_&EB&_). lia. }
    rewrite Emask, Elen, same_net_net by (try done; unfold len in *; lia). rewrite Hsl, Hxv, Hsv.
    assert (EB : Addr_BitLen (toAddr x) = Addr_BitLen (toAddr (n_IP n))) by lia. rewrite EB. intuition congruence.
  - destruct (toAddr_invalid x ltac:(lia) ltac:(lia)) as [Ex _]. rewrite Ex, (short_invalid x) by lia.
    assert (Hnl : length nn = 4%nat ∨ length nn = 16%nat).
    { rewrite Enn. destruct (short_addr _ Hw) as (_&_&_&_&_&[?|[? _]]); auto. }
    rewrite (proj2 (Z.eqb_neq _ _)) by (unfold len; lia). cbn [negb]. split; [done|]. by intros (_&_&H&_).
Qed.

(** ** ParseCIDR *)
Lemma digit_no_slash k : digit_at k ≠ "/"%byte.
Proof.
  unfold digit_at. intros E. destruct (nth_in_or_default (Z.to_nat k) hexdigits 0) as [H|H]; [|by rewrite E in H].
  rewrite E in H. cbn in H. repeat destruct H as [H|H]; done.
Qed.
Ltac no_slash := repeat match goal with
  | |- ¬ In _ (_ ++ _) => rewrite in_app_iff; intros [?|?]
  | |- ¬ In _ (_ :: _) => intros [?|?]
  | H : In _ (if ?c then _ else _) |- _ => destruct c
  | H : In _ (_ ++ _) |- _ => apply in_app_iff in H as [H|H]
  | H : In _ (_ :: _) |- _ => destruct H as [H|H]
  | H : In _ [] |- _ => destruct H
  | H : digit_at ?k = "/"%byte |- _ => by apply (digit_no_slash k) in H
  | |- ¬ _ => intros ?
  | H : _ = "/"%byte |- _ => discriminate H
  end.
Lemma dec_no_slash x : ¬ In ("/"%byte : Z) (dec x).
Proof. unfold dec, appendDecimal. destruct (x >=? 100), (x >=? 10); no_slash. Qed.
Lemma hex_no_slash x : ¬ In ("/"%byte : Z) (hex x).
Proof. unfold hex, appendHex. destruct (x >=? 0x1000), (x >=? 0x100), (x >=? 0x10); no_slash. Qed.
Lemma join6_no_slash ws : ¬ In ("/"%byte : Z) (join6 ws).
Proof.
  induction ws as [|w [|w' ws] IH]; [by intros []|apply hex_no_slash|].
  change (join6 (w :: w' :: ws)) with (hex w ++ ":"%byte :: join6 (w' :: ws)).
  intros [Hin|[Hin|Hin]]%in_app_iff; [by apply hex_no_slash in Hin|discriminate|by apply IH].
Qed.
Lemma string4_no_slash ip : ¬ In ("/"%byte : Z) (string4 ip).
Proof.
  unfold string4, appendTo4. rewrite !appendDecimal_app. intros H.
  repeat first [by apply dec_no_slash in H|by destruct H|destruct H as [H|H]; [discriminate H|]|apply in_app_iff in H as [H|H]].
Qed.
Lemma addr_text_no_slash ip : Addr_Zone ip = [] → ¬ In ("/"%byte : Z) (addr_text ip).
Proof.
  intros Hz. unfold addr_text. rewrite Hz. cbn [zone_suffix]. rewrite app_nil_r. destruct (Addr_Is4 ip); [apply string4_no_slash|].
  destruct (Addr_Is4In6 ip).
  - intros [H|H]%in_app_iff; [|by apply string4_no_slash in H]. cbn in H. repeat destruct H as [H|H]; done.
  - destruct (body6_cases ip) as [->|(pre&post&->&_)]; [apply join6_no_slash|].
    intros [H|[H|[H|H]]]%in_app_iff; try discriminate H; by apply join6_no_slash in H.
Qed.
Lemma dtoi_dec b : is_u8 b → dtoi (dec b) = (b, len (dec b), true).
Proof.
  intros Hb. assert (H : forallb (λ b, bool_decide (dtoi (dec b) = (b, len (dec b), true))) all_bytes = true) by (vm_compute; reflexivity).
  rewrite forallb_forall in H. specialize (H b (all_bytes_in b Hb)). by apply bool_decide_eq_true in H.
Qed.

(** What ParseCIDR makes of a zoneless address and a length. *)
Lemma mask_not_mapped v b : 0 <= b <= 128 → 0 <= v < 2 ^ 128 → v / 2 ^ 32 ≠ 0xffff → masked_val 128 b v / 2 ^ 32 ≠ 0xffff.
Proof.
  intros Hb Hv Hn. unfold masked_val. destruct (decide (b < 96)) as [H|H].
  - replace (2 ^ (128 - b)) with (2 ^ (95 - b) * 2 * 2 ^ 32) by (rewrite <- Z.mul_assoc; change (2 * 2 ^ 32) with (2 ^ 33); rewrite <- Z.pow_add_r by lia; f_equal; lia).
    rewrite Z.mul_assoc, Z.div_mul by lia. lia.
  - intros E. apply Hn. rewrite <- E. replace (2 ^ 32) with (2 ^ (128 - b) * 2 ^ (b - 96)) by (rewrite <- Z.pow_add_r by lia; f_equal; lia).
    assert (0 < 2 ^ (128 - b)) by (apply Z.pow_pos_nonneg; lia). assert (0 < 2 ^ (b - 96)) by (apply Z.pow_pos_nonneg; lia).
    rewrite <- !Z.div_div by lia. by rewrite Z.div_mul by lia.
Qed.
Lemma Is4In6_val a : z a = z6noz → wf_addr a → Addr_Is4In6 a = true ↔ addr_val a / 2 ^ 32 = 0xffff.
Proof.
  intros Hz [[Hh Hl] _]. rewrite Is4In6_spec, Hz, not_z4_val by (by rewrite Hz). unfold val. rewrite Z.shiftr_div_pow2 by lia. unfold is_u64 in *.
  replace (hi (addr a) * 2 ^ 64 + lo (addr a)) with (hi (addr a) * 2 ^ 32 * 2 ^ 32 + lo (addr a)) by lia. rewrite Z.div_add_l by lia.
  pose proof (Z.div_lt_upper_bound (lo (addr a)) (2 ^ 32) (2 ^ 32) ltac:(lia) ltac:(lia)). pose proof (Z.div_pos (lo (addr a)) (2 ^ 32)).
  split; [intros (_&_&->&->); lia|]. intros E. assert (hi (addr a) = 0) as E0 by nia. rewrite E0 in *. repeat split; done || lia.
Qed.
Lemma CIDRMask_loop b w : w = 32 ∨ w = 128 → 0 <= b <= w → CIDRMask b w = mask_loop (Z.to_nat (w / 8)) b.
Proof.
  intros Hw Hb. unfold CIDRMask. assert (H : negb (w =? 8 * IPv4len) && negb (w =? 8 * IPv6len) = false) by (by destruct Hw as [-> | ->]).
  by rewrite H, Z.gtb_ltb, (proj2 (Z.ltb_ge b 0)), (proj2 (Z.ltb_ge w b)) by lia.
Qed.
Lemma land_mask ip b : is_bytes ip → 0 <= b <= 8 * len ip → let r := land_bytes ip (mask_loop (length ip) b) in
  is_bytes r ∧ length r = length ip ∧ be r = masked_val (8 * len ip) b (be ip).
Proof.
  intros Hi Hb r. split; [apply land_bytes_bytes; [done|apply mask_loop_bytes]|]. split; [|by apply be_masked].
  unfold r, land_bytes. rewrite length_zip_with, length_mask_loop. lia.
Qed.
(** The network of a zoneless address and a length, as ParseCIDR makes it. *)
Definition cidr (a : Addr) (b : Z) : IPNet :=
  let m := CIDRMask b (Addr_BitLen a) in MkIPNet (IP_Mask (As16 a) m) m.
Definition cidr_ok (a : Addr) (b : Z) : Prop :=
  let n := cidr a b in
  wf_ip (n_IP n) ∧ is_bytes (n_Mask n) ∧ networkNumberAndMask n = (n_IP n, n_Mask n) ∧ n_IP n ≠ [] ∧ n_Mask n ≠ [] ∧
  simpleMaskLength (n_Mask n) = b ∧ wf_addr (toAddr (n_IP n)) ∧ z (toAddr (n_IP n)) = z a ∧
  addr_val (toAddr (n_IP n)) = masked_val (Addr_BitLen a) b (addr_val a).
Lemma cidr_4 a0 a1 a2 a3 b : is_bytes [a0; a1; a2; a3] → 0 <= b <= 32 → cidr_ok (MkAddr (U128 0 (v4_lo a0 a1 a2 a3)) z4) b.
Proof.
  intros Ha Hb. set (a := MkAddr _ z4). destruct (land_mask [a0; a1; a2; a3] b Ha Hb) as (Hr&Hrl&Hrv).
  set (r := land_bytes _ _) in *. assert (Ec : cidr a b = MkIPNet r (mask_loop 4 b)).
  { unfold cidr, a. change (Addr_BitLen _) with 32. rewrite CIDRMask_loop, As16_v4_lo by auto. f_equal.
    unfold IP_Mask, len. rewrite (length_mask_loop 4). change (Z.of_nat 4 =? IPv6len) with false. change (Z.of_nat 4 =? IPv4len) with true.
    cbn [andb]. change (beq (take 12 (IPv4 a0 a1 a2 a3)) v4InV6Prefix) with true.
    change (drop 12 (IPv4 a0 a1 a2 a3)) with [a0; a1; a2; a3]. rewrite (length_mask_loop 4). done. }
  unfold cidr_ok. rewrite Ec. cbn [n_IP n_Mask].
  assert (Hwr : wf_ip r) by (split; [done|by left]). destruct (wf_ip_To16 r Hwr) as (_&_&_&_&Hwa).
  destruct (short_addr r Hwr) as (_&_&Es&_). assert (E4 : IP_To4 r = r) by (unfold IP_To4, len; by rewrite Hrl).
  assert (Hnil : is_nil r = false) by (by destruct r). assert (Esh : short r = r) by (unfold short; by rewrite E4, Hnil). rewrite Esh in Es.
  split; [done|]. split; [apply mask_loop_bytes|].
  split; [unfold networkNumberAndMask, len; cbn [n_IP n_Mask]; rewrite E4, Hnil, Hrl, (length_mask_loop 4); done|].
  split; [by intros E; rewrite E in Hrl|]. split; [intros E; by pose proof (length_mask_loop 4 b) as H; rewrite E in H|].
  split; [by apply simpleMaskLength_mask|]. split; [done|]. split.
  - clear -Hr Hrl. clearbody r. destruct r as [|r0 [|r1 [|r2 [|r3 [|? ?]]]]]; done.
  - rewrite <- Es, Hrv, be_4. unfold addr_val, a. cbn [z addr lo]. by destruct (v4_lo_wf _ _ _ _ Ha) as (_&_&->).
Qed.
Lemma cidr_6 a b : wf_addr a → z a = z6noz → Addr_Is4In6 a = false → 0 <= b <= 128 → cidr_ok a b.
Proof.
  intros Hw Hz H46 Hb. assert (EB : Addr_BitLen a = 128) by (unfold Addr_BitLen; by rewrite Hz).
  pose proof (As16_bytes a) as Hba. assert (Hla : length (As16 a) = 16%nat) by done.
  destruct (land_mask (As16 a) b Hba ltac:(unfold len; rewrite Hla; lia)) as (Hr&Hrl&Hrv).
  assert (Hva : be (As16 a) = addr_val a).
  { rewrite be_16, AddrFrom16_As16 by (done || apply Hw). by rewrite not_z4_val by (by rewrite Hz). }
  unfold len in Hrv. rewrite Hla in Hrl, Hrv. rewrite Hva in Hrv. change (8 * Z.of_nat 16) with 128 in Hrv.
  rewrite Hla in Hr. set (r := land_bytes _ _) in *.
  assert (Ec : cidr a b = MkIPNet r (mask_loop 16 b)).
  { unfold cidr. rewrite EB, CIDRMask_loop by auto. f_equal. unfold IP_Mask, len. rewrite (length_mask_loop 16), Hla.
    cbn [andb]. change (Z.of_nat 16 =? IPv4len) with false. change (Z.of_nat 16 =? IPv6len) with true. cbn [andb].
    rewrite (length_mask_loop 16). done. }
  unfold cidr_ok. rewrite Ec, EB. cbn [n_IP n_Mask]. assert (Hwr : wf_ip r) by (split; [done|by right]).
  destruct (wf_ip_To16 r Hwr) as (_&_&_&_&Hwa). pose proof (AddrFrom16_wf r Hrl Hr) as Hw16.
  assert (Hm6 : Addr_Is4In6 (AddrFrom16 r) = false).
  { apply not_true_is_false. rewrite Is4In6_val by done. rewrite not_z4_val, <- be_16, Hrv by done. apply mask_not_mapped; [done| |].
    - pose proof (addr_val_bound a Hw ltac:(by rewrite Hz)) as Hv. by rewrite EB in Hv.
    - rewrite <- Is4In6_val by done. by rewrite H46. }
  destruct (ip_view r Hwr) as [(a0&a1&a2&a3&Ha&[Hi|Hi])|(_&E4&Et&_)]; [by rewrite Hi in Hrl| |].
  { rewrite Hi, AddrFrom16_IPv4 in Hm6 by done. by rewrite Is4In6_v4_lo in Hm6. }
  split; [done|]. split; [apply mask_loop_bytes|].
  split; [unfold networkNumberAndMask, len; cbn [n_IP n_Mask]; rewrite E4; cbn [is_nil]; by rewrite Hrl, (length_mask_loop 16)|].
  split; [by intros E; rewrite E in Hrl|]. split; [intros E; by pose proof (length_mask_loop 16 b) as H; rewrite E in H|].
  split; [by apply simpleMaskLength_mask|]. rewrite Et. repeat split; try done; try apply Hw16. by rewrite not_z4_val, <- be_16, Hrv.
Qed.
Lemma cidr_net a b : wf_addr a → hasZone a = false → z a ≠ z0 → Addr_Is4In6 a = false → 0 <= b <= Addr_BitLen a → cidr_ok a b.
Proof.
  intros Hw Hz H0 H46 Hb. destruct (zoneless a Hz) as [E|[E|E]]; [done| |].
  - destruct (z4_AddrFrom4 a Hw E) as (a0&a1&a2&a3&Ha&->&_). by apply cidr_4.
  - apply cidr_6; try done. unfold Addr_BitLen in Hb. by rewrite E in Hb.
Qed.

Lemma Uitoa_dec b : is_u8 b → Uitoa b = Ok (dec b).
Proof.
  intros Hb. unfold is_u8 in Hb. destruct (Uitoa_repr b) as (s&->&Hr); [lia|]. by rewrite (repr_dec b s).
Qed.
Lemma ParseCIDR_text a b : wf_addr a → hasZone a = false → z a ≠ z0 → 0 <= b <= Addr_BitLen a →
  ParseCIDR (addr_text a ++ "/"%byte :: dec b) = Ok (As16 a, cidr a b).
Proof.
  intros Hw Hz H0 Hb. assert (Hzone : Addr_Zone a = []) by (destruct (zoneless a Hz) as [E|[E|E]]; unfold Addr_Zone; by rewrite E).
  pose proof (BitLen_range a). unfold ParseCIDR. rewrite index_first by (by apply addr_text_no_slash).
  pose proof (len_nonneg (addr_text a)). rewrite (proj2 (Z.ltb_ge (len _) 0)), upto_app_len by lia. cbn [mbind res_bind].
  rewrite from_app_1. cbn [mbind res_bind]. rewrite ParseAddr_text, Hzone by done. cbn [beq negb].
  rewrite dtoi_dec by (unfold is_u8; lia). rewrite Z.eqb_refl, Z.gtb_ltb, (proj2 (Z.ltb_ge b 0)), (proj2 (Z.ltb_ge (Addr_BitLen a) b)) by lia. done.
Qed.
Lemma ParseCIDR_total s : match ParseCIDR s with Ok _ => True | Err e => e = ParseError "CIDR address"%go s | Panic _ => False end.
Proof.
  unfold ParseCIDR. destruct (index_split s "/"%byte) as [[-> _]|(a&b&->&Ha&->)]; [done|]. pose proof (len_nonneg a).
  rewrite (proj2 (Z.ltb_ge (len a) 0)), upto_app_len by lia. cbn [mbind res_bind]. rewrite from_app_1. cbn [mbind res_bind].
  pose proof (ParseAddr_loop_safe a a) as Hs. fold (ParseAddr a) in Hs. destruct (ParseAddr a) as [ip| |]; [|done|done].
  destruct (negb _); [done|]. destruct (dtoi b) as [[n i] ok]. by destruct (_ || _).
Qed.

(** An IPNet whose mask is ones and then zeros contains exactly the addresses
    of the netip.Prefix of its address and that length, whichever form the
    network, its mask and the address are written in. *)
Theorem IPNet_Contains_prefix n nn m x : wf_ip (n_IP n) → is_bytes (n_Mask n) → is_bytes x →
  networkNumberAndMask n = (nn, m) → nn ≠ [] → simpleMaskLength m ≠ -1 →
  let p := PrefixFrom (toAddr (n_IP n)) (simpleMaskLength m) in
  wf_prefix p ∧ Prefix_IsValid p = true ∧ (IPNet_Contains n x = true ↔ in_prefix p (toAddr x)).
Proof.
  intros Hw Hm Hx E Hn Hl p. destruct (contains_prefix n nn m _ x Hw Hm Hx E Hn eq_refl Hl) as [Hr Hc].
  destruct (short_addr _ Hw) as (_&_&_&Hz&H0&_). destruct (wf_ip_To16 _ Hw) as (_&_&_&_&Hwa).
  split; [by apply PrefixFrom_wf|]. split; [|done]. unfold p. rewrite PrefixFrom_valid by done. unfold Prefix_IsValid. cbn [bitsPlusOne].
  apply Z.gtb_lt. lia.
Qed.
Lemma IPNet_Contains_prefix_witness :
  IPNet_Contains (MkIPNet (IPv4 10 1 0 0) [255; 255; 0; 0]) [10; 1; 2; 3] = true ∧
  in_prefix (PrefixFrom (toAddr (IPv4 10 1 0 0)) 16) (toAddr [10; 1; 2; 3]).
Proof.
  assert (H1 : wf_ip (IPv4 10 1 0 0)).
  { split; [|right; reflexivity]. repeat (constructor; [split; [intros H; discriminate H|reflexivity]|]). constructor. }
  assert (H2 : is_bytes [255; 255; 0; 0]) by (repeat (constructor; [split; [intros H; discriminate H|reflexivity]|]); constructor).
  assert (H3 : is_bytes [10; 1; 2; 3]) by (repeat (constructor; [split; [intros H; discriminate H|reflexivity]|]); constructor).
  split; [reflexivity|].
  refine (proj1 (proj2 (proj2 (IPNet_Contains_prefix (MkIPNet (IPv4 10 1 0 0) [255; 255; 0; 0]) [10; 1; 0; 0] [255; 255; 0; 0] [10; 1; 2; 3] H1 H2 H3 eq_refl _ _))) eq_refl);
    [intros H; discriminate H|intros H; vm_compute in H; discriminate H].
Defined.

(** C33: ParseCIDR never panics and its only error is a ParseError.  The text of a
    valid prefix of package netip, of an address that is not an IPv4-mapped IPv6
    one, gives the address of the prefix and a network that contains exactly the
    addresses the prefix denotes; the network's own text is that of the masked
    prefix. *)
Theorem ParseCIDR_prefix p : wf_prefix p → Prefix_IsValid p = true → Addr_Is4In6 (p_ip p) = false →
  (∀ s, match ParseCIDR s with Ok _ => True | Err e => e = ParseError "CIDR address"%go s | Panic _ => False end) ∧
  ∃ t n q, Prefix_String p = Ok t ∧ ParseCIDR t = Ok (As16 (p_ip p), n) ∧ IPMask_Size (n_Mask n) = (Prefix_Bits p, Addr_BitLen (p_ip p)) ∧
    (∀ x, is_bytes x → IPNet_Contains n x = true ↔ in_prefix p (toAddr x)) ∧
    Masked p = Ok q ∧ IPNet_String (Some n) = Prefix_String q.
Proof.
  intros Hp Hv H46. split; [apply ParseCIDR_total|]. destruct (valid_prefix_facts p Hp Hv) as (H0&_&_&Hu&_).
  destruct (wf_prefix_bits p Hp Hv) as [_ Hb]. destruct Hp as (Hw&Hz&Hr). set (a := p_ip p) in *. set (b := Prefix_Bits p) in *.
  destruct (cidr_net a b Hw Hz H0 H46 Hb) as (Cw&Cm&Cn&C1&C2&Cl&Ca&Cz&Cv).
  destruct (Masked_valid p (conj Hw (conj Hz Hr)) Hv) as (q&Eq&Hq&Hqz&Hqv). fold a b in Hqz, Hqv.
  assert (Eqa : q = toAddr (n_IP (cidr a b))) by (apply addr_val_inj; [done|done|congruence|congruence]).
  assert (Hbits : bitsPlusOne p = b + 1) by (unfold b, Prefix_Bits; lia).
  assert (HqB : Addr_BitLen q = Addr_BitLen a) by (unfold Addr_BitLen; by rewrite Hqz).
  exists (prefix_text p), (cidr a b), (MkPrefix q (b + 1)). split; [by apply Prefix_String_text|].
  split; [by apply ParseCIDR_text|]. split.
  { unfold IPMask_Size. rewrite Cl, (proj2 (Z.eqb_neq b (-1))) by lia. f_equal. unfold cidr. cbn [n_Mask].
    destruct (zoneless a Hz) as [E|[E|E]]; [done| |]; unfold Addr_BitLen in *; rewrite E in *; rewrite CIDRMask_loop by auto;
      unfold len; by rewrite length_mask_loop. }
  split.
  { intros x Hx. rewrite (proj2 (contains_prefix _ _ _ b x Cw Cm Hx Cn C1 Cl ltac:(lia))). rewrite <- Eqa.
    rewrite PrefixFrom_valid by (rewrite ?HqB; done || (unfold hasZone in *; by rewrite Hqz) || by rewrite Hqz).
    unfold in_prefix, Prefix_IsValid, Prefix_Bits. cbn [p_ip bitsPlusOne]. rewrite HqB, Hbits, Hqv. fold a.
    replace (b + 1 - 1) with b by lia. split; intros (?&?&?&EB&En); rewrite EB in *; rewrite net_masked in *; auto. }
  rewrite Hbits in Eq. split; [done|]. rewrite Prefix_String_text.
  - unfold IPNet_String. rewrite Cn, Cl, (proj2 (Z.eqb_neq b (-1))) by lia. unfold is_nil.
    destruct (n_IP (cidr a b)) as [|r0 r] eqn:Er; [done|]. destruct (n_Mask (cidr a b)) as [|m0 m] eqn:Emk; [done|]. cbn [orb].
    rewrite Uitoa_dec by done. cbn [mbind res_bind]. rewrite IP_String_Addr, <- Eqa by done.
    rewrite Addr_String_text by (done || by rewrite Hqz). unfold prefix_text, Prefix_Bits. cbn [p_ip bitsPlusOne].
    replace (b + 1 - 1) with b by lia. done.
  - split; [done|]. cbn [p_ip bitsPlusOne]. split; [unfold hasZone in *; by rewrite Hqz|]. rewrite HqB, Hqz. split; [lia|done].
  - unfold Prefix_IsValid. cbn [bitsPlusOne]. apply Z.gtb_lt. lia.
Qed.
Lemma ParseCIDR_prefix_witness :
  ParseCIDR "10.1.2.3/16"%go = Ok (IPv4 10 1 2 3, MkIPNet [10; 1; 0; 0] [255; 255; 0; 0]) ∧
  ∃ t n q, Prefix_String sample_net = Ok t ∧ ParseCIDR t = Ok (As16 (p_ip sample_net), n) ∧
    IPMask_Size (n_Mask n) = (Prefix_Bits sample_net, Addr_BitLen (p_ip sample_net)) ∧
    (∀ x, is_bytes x → IPNet_Contains n x = true ↔ in_prefix sample_net (toAddr x)) ∧
    Masked sample_net = Ok q ∧ IPNet_String (Some n) = Prefix_String q.
Proof.
  split; [vm_compute; reflexivity|].
  exact (proj2 (ParseCIDR_prefix sample_net sample_net_wf ltac:(vm_compute; reflexivity) ltac:(vm_compute; reflexivity))).
Defined.

(** The network ParseCIDR makes of an IPv4-mapped address and a length under 96
    does not contain the address it was made of. *)
Lemma mapped_not_contained : ∃ a n, ParseCIDR "::ffff:1.2.3.4/90"%go = Ok (a, n) ∧ IPNet_Contains n a = false.
Proof. eexists _, _. split; vm_compute; reflexivity. Qed.
(** The zero IPNet contains every slice that is no address. *)
Lemma zero_net_contains : IPNet_Contains (MkIPNet [] []) [] = true.
Proof. reflexivity. Qed.
