(* ===== verification/SortOps.v ===== *)
(** * package sort: Sort, Stable, Search and what they call

    zsortinterface.go, sort.go and search.go.  The collection is a value of any
    type with the three methods of sort.Interface; a method that changes it gives
    the collection back.  The fuel of a loop is computed from its bounds. *)
From S2P Require Import Prelude.

Class Interface (D : Type) : Type := {
  Len : D → Z;
  Less : D → Z → Z → res bool;
  Swap : D → Z → Z → res D;
}.
(** [int(uint(x) >> 1)] *)
Definition half (x : Z) : Z := Z.shiftr (u64 x) 1.
(** [bits.Len(uint(x))] *)
Definition bits_Len (x : Z) : Z := if x =? 0 then 0 else Z.log2 x + 1.

Inductive sortedHint : Set := unknownHint | increasingHint | decreasingHint.
#[global] Instance sortedHint_eq_dec : EqDecision sortedHint.
Proof. solve_decision. Defined.
Definition xorshift_Next (r : Z) : Z :=
  let r := Z.lxor r (shl64 r 13) in
  let r := Z.lxor r (Z.shiftr r 17) in
  Z.lxor r (shl64 r 5).
Definition nextPowerOfTwo (length : Z) : Z := shl64 1 (bits_Len length).

(** ** Searching *)
(** [for i < j], moving [i] past the middle when [c] holds of it, and [j] to it
    otherwise: the loop of every binary search of the package. *)
Fixpoint search_loop (fuel : nat) (c : Z → res bool) (i j : Z) : res Z :=
  match fuel with
  | O => Panic []
  | S fuel =>
      if i <? j then
        let h := half (i + j) in
        x ← c h;
        if (x : bool) then search_loop fuel c (h + 1) j else search_loop fuel c i h
      else Ok i
  end.
Definition search (c : Z → res bool) (i j : Z) : res Z := search_loop (S (Z.to_nat (j - i))) c i j.
Definition not (c : Z → res bool) (i : Z) : res bool := x ← c i; Ok (negb x).
Definition Search (n : Z) (f : Z → res bool) : res Z := search (not f) 0 n.
Definition Find (n : Z) (cmp : Z → res Z) : res (Z * bool) :=
  i ← search (λ h, x ← cmp h; Ok (x >? 0)) 0 n;
  found ← (if i <? n then x ← cmp i; Ok (x =? 0) else Ok false);
  Ok (i, found).

Section sort.
Context {D : Type} `{Interface D}.
Implicit Types data : D.

(** ** Insertion sort *)
Fixpoint insert_loop (fuel : nat) data (a j : Z) : res D :=
  match fuel with
  | O => Panic []
  | S fuel =>
      if j >? a then
        less ← Less data j (j - 1);
        if (less : bool) then data ← Swap data j (j - 1); insert_loop fuel data a (j - 1) else Ok data
      else Ok data
  end.
Fixpoint insertion_loop (fuel : nat) data (a b i : Z) : res D :=
  match fuel with
  | O => Panic []
  | S fuel =>
      if i <? b then
        data ← insert_loop (S (Z.to_nat (i - a))) data a i;
        insertion_loop fuel data a b (i + 1)
      else Ok data
  end.
Definition insertionSort data (a b : Z) : res D := insertion_loop (S (Z.to_nat (b - a))) data a b (a + 1).

(** ** Heap sort *)
Fixpoint siftDown_loop (fuel : nat) data (hi first root : Z) : res D :=
  match fuel with
  | O => Panic []
  | S fuel =>
      let child := 2 * root + 1 in
      if child >=? hi then Ok data
      else
        child ← (if child + 1 <? hi then less ← Less data (first + child) (first + child + 1);
                 Ok (if (less : bool) then child + 1 else child) else Ok child);
        less ← Less data (first + root) (first + child);
        if negb less then Ok data
        else data ← Swap data (first + root) (first + child); siftDown_loop fuel data hi first child
  end.
Definition siftDown data (lo hi first : Z) : res D := siftDown_loop (S (Z.to_nat (hi - lo))) data hi first lo.
(** The loops of heapSort, for [i] from [n - 1] down. *)
Fixpoint heap_build (n : nat) data (hi first : Z) : res D :=
  match n with
  | O => Ok data
  | S n => data ← siftDown data (Z.of_nat n) hi first; heap_build n data hi first
  end.
Fixpoint heap_pop (n : nat) data (first : Z) : res D :=
  match n with
  | O => Ok data
  | S n =>
      data ← Swap data first (first + Z.of_nat n);
      data ← siftDown data 0 (Z.of_nat n) first;
      heap_pop n data first
  end.
Definition heapSort data (a b : Z) : res D :=
  let first := a in
  let hi := b - a in
  data ← heap_build (Z.to_nat (Z.quot (hi - 1) 2 + 1)) data hi first;
  heap_pop (Z.to_nat hi) data first.

(** ** Pattern-defeating quicksort *)
(** [for i <= j && c(i) { i++ }] and [for i <= j && c(j) { j-- }]. *)
Fixpoint scan_up (fuel : nat) (c : Z → res bool) (i j : Z) : res Z :=
  match fuel with
  | O => Panic []
  | S fuel => if i <=? j then x ← c i; if (x : bool) then scan_up fuel c (i + 1) j else Ok i else Ok i
  end.
Fixpoint scan_down (fuel : nat) (c : Z → res bool) (i j : Z) : res Z :=
  match fuel with
  | O => Panic []
  | S fuel => if i <=? j then x ← c j; if (x : bool) then scan_down fuel c i (j - 1) else Ok j else Ok j
  end.
Definition scan (up down : Z → res bool) (i j : Z) : res (Z * Z) :=
  i ← scan_up (Z.to_nat (j - i + 2)) up i j;
  j ← scan_down (Z.to_nat (j - i + 2)) down i j;
  Ok (i, j).
(** [for { scan; if i > j { break }; swap; i++; j-- }]; the elements are compared
    with the pivot, which is at [a]. *)
Fixpoint partition_loop (fuel : nat) (up down : D → Z → res bool) data (i j : Z) : res (D * Z * Z) :=
  match fuel with
  | O => Panic []
  | S fuel =>
      '(i, j) ← scan (up data) (down data) i j;
      if i >? j then Ok (data, i, j)
      else data ← Swap data i j; partition_loop fuel up down data (i + 1) (j - 1)
  end.
Definition partition data (a b pivot : Z) : res (D * Z * bool) :=
  data ← Swap data a pivot;
  let up data i := Less data i a in
  let down data := not (λ j, Less data j a) in
  '(i, j) ← scan (up data) (down data) (a + 1) (b - 1);
  if i >? j then data ← Swap data j a; Ok (data, j, true)
  else
    data ← Swap data i j;
    '(data, _, j) ← partition_loop (Z.to_nat (b - a)) up down data (i + 1) (j - 1);
    data ← Swap data j a;
    Ok (data, j, false).
Definition partitionEqual data (a b pivot : Z) : res (D * Z) :=
  data ← Swap data a pivot;
  '(data, i, _) ← partition_loop (S (Z.to_nat (b - a))) (λ data, not (Less data a)) (λ data, Less data a) data (a + 1) (b - 1);
  Ok (data, i).

Definition maxSteps : nat := 5.
Definition shortestShifting : Z := 50.
(** [for j := j; j < b; j++], moving the greater element right. *)
Fixpoint shift_right (fuel : nat) data (j b : Z) : res D :=
  match fuel with
  | O => Panic []
  | S fuel =>
      if j <? b then
        less ← Less data j (j - 1);
        if negb less then Ok data else data ← Swap data j (j - 1); shift_right fuel data (j + 1) b
      else Ok data
  end.
Fixpoint partial_loop (steps : nat) data (a b i : Z) : res (D * bool) :=
  match steps with
  | O => Ok (data, false)
  | S steps =>
      i ← scan_up (Z.to_nat (b - i + 1)) (not (λ i, Less data i (i - 1))) i (b - 1);
      if i =? b then Ok (data, true)
      else if b - a <? shortestShifting then Ok (data, false)
      else
        data ← Swap data i (i - 1);
        data ← (if i - a >=? 2 then insert_loop (Z.to_nat i) data 0 (i - 1) else Ok data);
        data ← (if b - i >=? 2 then shift_right (Z.to_nat (b - i)) data (i + 1) b else Ok data);
        partial_loop steps data a b i
  end.
Definition partialInsertionSort data (a b : Z) : res (D * bool) := partial_loop maxSteps data a b (a + 1).

(** [idx] takes [n] values. *)
Fixpoint break_loop (n : nat) data (a length random modulus idx : Z) : res D :=
  match n with
  | O => Ok data
  | S n =>
      let random := xorshift_Next random in
      let other := Z.land random (u64 (modulus - 1)) in
      let other := if other >=? length then other - length else other in
      data ← Swap data idx (a + other);
      break_loop n data a length random modulus (idx + 1)
  end.
Definition breakPatterns data (a b : Z) : res D :=
  let length := b - a in
  if length >=? 8 then
    break_loop 3 data a length length (nextPowerOfTwo length) (a + length / 4 * 2 - 1)
  else Ok data.

Definition order2 data (a b swaps : Z) : res (Z * Z * Z) :=
  less ← Less data b a;
  if (less : bool) then Ok (b, a, swaps + 1) else Ok (a, b, swaps).
Definition median data (a b c swaps : Z) : res (Z * Z) :=
  '(a, b, swaps) ← order2 data a b swaps;
  '(b, c, swaps) ← order2 data b c swaps;
  '(a, b, swaps) ← order2 data a b swaps;
  Ok (b, swaps).
Definition medianAdjacent data (a swaps : Z) : res (Z * Z) := median data (a - 1) a (a + 1) swaps.
Definition shortestNinther : Z := 50.
Definition maxSwaps : Z := 4 * 3.
Definition choosePivot data (a b : Z) : res (Z * sortedHint) :=
  let l := b - a in
  let i := a + l / 4 * 1 in
  let j := a + l / 4 * 2 in
  let k := a + l / 4 * 3 in
  '(j, swaps) ←
    (if l >=? 8 then
       '(i, j, k, swaps) ←
         (if l >=? shortestNinther then
            '(i, swaps) ← medianAdjacent data i 0;
            '(j, swaps) ← medianAdjacent data j swaps;
            '(k, swaps) ← medianAdjacent data k swaps;
            Ok (i, j, k, swaps)
          else Ok (i, j, k, 0));
       median data i j k swaps
     else Ok (j, 0));
  Ok (j, if swaps =? 0 then increasingHint else if swaps =? maxSwaps then decreasingHint else unknownHint).
Fixpoint reverse_loop (fuel : nat) data (i j : Z) : res D :=
  match fuel with
  | O => Panic []
  | S fuel => if i <? j then data ← Swap data i j; reverse_loop fuel data (i + 1) (j - 1) else Ok data
  end.
Definition reverseRange data (a b : Z) : res D := reverse_loop (S (Z.to_nat (b - a))) data a (b - 1).

Definition maxInsertion : Z := 12.
(** The loop of pdqsort, which calls itself on the shorter part.  [hint] is not
    read after the reversal sets it, other than by the test that follows. *)
Fixpoint pdqsort_loop (fuel : nat) data (a b limit : Z) (wasBalanced wasPartitioned : bool) : res D :=
  match fuel with
  | O => Panic []
  | S fuel =>
      let length := b - a in
      if length <=? maxInsertion then insertionSort data a b
      else if limit =? 0 then heapSort data a b
      else
        '(data, limit) ← (if negb wasBalanced then data ← breakPatterns data a b; Ok (data, limit - 1) else Ok (data, limit));
        '(pivot, hint) ← choosePivot data a b;
        '(data, pivot, hint) ←
          (if decide (hint = decreasingHint) then data ← reverseRange data a b; Ok (data, (b - 1) - (pivot - a), increasingHint)
           else Ok (data, pivot, hint));
        '(data, done) ←
          (if wasBalanced && wasPartitioned && bool_decide (hint = increasingHint) then partialInsertionSort data a b
           else Ok (data, false));
        if (done : bool) then Ok data
        else
          equal ← (if a >? 0 then less ← Less data (a - 1) pivot; Ok (negb less) else Ok false);
          if (equal : bool) then
            '(data, mid) ← partitionEqual data a b pivot;
            pdqsort_loop fuel data mid b limit wasBalanced wasPartitioned
          else
            '(data, mid, alreadyPartitioned) ← partition data a b pivot;
            let leftLen := mid - a in
            let rightLen := b - mid in
            let balanceThreshold := length / 8 in
            if leftLen <? rightLen then
              data ← pdqsort_loop fuel data a mid limit true true;
              pdqsort_loop fuel data (mid + 1) b limit (leftLen >=? balanceThreshold) alreadyPartitioned
            else
              data ← pdqsort_loop fuel data (mid + 1) b limit true true;
              pdqsort_loop fuel data a mid limit (rightLen >=? balanceThreshold) alreadyPartitioned
  end.
Definition pdqsort data (a b limit : Z) : res D := pdqsort_loop (S (Z.to_nat (b - a))) data a b limit true true.
Definition Sort data : res D :=
  let n := Len data in
  if n <=? 1 then Ok data else pdqsort data 0 n (bits_Len (u64 n)).
(** The loop of IsSorted, for [i] from [k] down to 1. *)
Fixpoint sorted_loop (k : nat) data : res bool :=
  match k with
  | O => Ok true
  | S k' => less ← Less data (Z.of_nat k) (Z.of_nat k - 1); if (less : bool) then Ok false else sorted_loop k' data
  end.
Definition IsSorted data : res bool := sorted_loop (Z.to_nat (Len data - 1)) data.

(** ** Stable sorting *)
(** [i] of [n] turns done. *)
Fixpoint swap_loop (k : nat) data (a b i : Z) : res D :=
  match k with
  | O => Ok data
  | S k => data ← Swap data (a + i) (b + i); swap_loop k data a b (i + 1)
  end.
Definition swapRange data (a b n : Z) : res D := swap_loop (Z.to_nat n) data a b 0.
Fixpoint rotate_loop (fuel : nat) data (m i j : Z) : res D :=
  match fuel with
  | O => Panic []
  | S fuel =>
      if negb (i =? j) then
        if i >? j then data ← swapRange data (m - i) m j; rotate_loop fuel data m (i - j) j
        else data ← swapRange data (m - i) (m + j - i) i; rotate_loop fuel data m i (j - i)
      else swapRange data (m - i) m i
  end.
Definition rotate data (a m b : Z) : res D := rotate_loop (Z.to_nat (b - a)) data m (m - a) (b - m).
(** [for k := k; k < e; k++ { Swap(k, k+1) }] and [for k := k; k > e; k-- { Swap(k, k-1) }]
    in as many turns. *)
Fixpoint move_up (turns : nat) data (k : Z) : res D :=
  match turns with O => Ok data | S n => data ← Swap data k (k + 1); move_up n data (k + 1) end.
Fixpoint move_down (turns : nat) data (k : Z) : res D :=
  match turns with O => Ok data | S n => data ← Swap data k (k - 1); move_down n data (k - 1) end.
Fixpoint symMerge_loop (fuel : nat) data (a m b : Z) : res D :=
  match fuel with
  | O => Panic []
  | S fuel =>
      if m - a =? 1 then
        i ← search (λ h, Less data h a) m b;
        move_up (Z.to_nat (i - 1 - a)) data a
      else if b - m =? 1 then
        i ← search (not (λ h, Less data m h)) a m;
        move_down (Z.to_nat (m - i)) data m
      else
        let mid := half (a + b) in
        let n := mid + m in
        let '(start, r) := if m >? mid then (n - b, mid) else (a, m) in
        let p := n - 1 in
        start ← search (not (λ c, Less data (p - c) c)) start r;
        let end_ := n - start in
        data ← (if (start <? m) && (m <? end_) then rotate data start m end_ else Ok data);
        data ← (if (a <? start) && (start <? mid) then symMerge_loop fuel data a start mid else Ok data);
        (if (mid <? end_) && (end_ <? b) then symMerge_loop fuel data mid end_ b else Ok data)
  end.
Definition symMerge data (a m b : Z) : res D := symMerge_loop (Z.to_nat (b - a)) data a m b.
(** [for b <= n], sorting blocks and merging pairs of blocks; the first block
    left out is given back. *)
Fixpoint blocks_loop (fuel : nat) data (blockSize n a b : Z) : res (D * Z) :=
  match fuel with
  | O => Panic []
  | S fuel =>
      if b <=? n then data ← insertionSort data a b; blocks_loop fuel data blockSize n b (b + blockSize)
      else Ok (data, a)
  end.
Fixpoint merge_loop (fuel : nat) data (blockSize n a b : Z) : res (D * Z) :=
  match fuel with
  | O => Panic []
  | S fuel =>
      if b <=? n then
        data ← symMerge data a (a + blockSize) b;
        merge_loop fuel data blockSize n b (b + 2 * blockSize)
      else Ok (data, a)
  end.
Fixpoint stable_loop (fuel : nat) data (blockSize n : Z) : res D :=
  match fuel with
  | O => Panic []
  | S fuel =>
      if blockSize <? n then
        '(data, a) ← merge_loop (S (Z.to_nat n)) data blockSize n 0 (2 * blockSize);
        let m := a + blockSize in
        data ← (if m <? n then symMerge data a m n else Ok data);
        stable_loop fuel data (blockSize * 2) n
      else Ok data
  end.
Definition stable data (n : Z) : res D :=
  let blockSize := 20 in
  '(data, a) ← blocks_loop (S (Z.to_nat n)) data blockSize n 0 blockSize;
  data ← insertionSort data a n;
  stable_loop (S (Z.to_nat n)) data blockSize n.
Definition Stable data : res D := stable data (Len data).
End sort.

(** ** Reverse *)
Record reverse (D : Type) : Type := Reverse { reversed : D }.
Arguments Reverse {_} _.
Arguments reversed {_} _.
#[global] Instance reverse_Interface `{Interface D} : Interface (reverse D) := {
  Len r := Len (reversed r);
  Less r i j := Less (reversed r) j i;
  Swap r i j := data ← Swap (reversed r) i j; Ok (Reverse data);
}.

(** ** Slices
    The collections whose Less compares two elements of a slice by [lt] and whose
    Swap exchanges them: IntSlice, StringSlice and the like. *)
Record sliceof {A : Type} (lt : A → A → bool) : Type := Slice { items : list A }.
Arguments Slice {_ _} _.
Arguments items {_ _} _.
Definition slice_Less {A} (lt : A → A → bool) (x : list A) (i j : Z) : res bool :=
  a ← at_ x i; b ← at_ x j; Ok (lt a b).
Definition slice_Swap {A} (x : list A) (i j : Z) : res (list A) :=
  a ← at_ x j; b ← at_ x i; x ← set_at x i a; set_at x j b.
#[global] Instance slice_Interface {A} (lt : A → A → bool) : Interface (sliceof lt) := {
  Len x := len (items x);
  Less x i j := slice_Less lt (items x) i j;
  Swap x i j := l ← slice_Swap (items x) i j; Ok (Slice l);
}.
Definition IntSlice : Type := sliceof Z.ltb.
Definition string_lt (a b : bytes) : bool := match bytes_compare a b with Lt => true | _ => false end.
Definition StringSlice : Type := sliceof string_lt.
Definition SearchInts (a : list Z) (x : Z) : res Z := Search (len a) (λ i, v ← at_ a i; Ok (v >=? x)).
Definition SearchStrings (a : list bytes) (x : bytes) : res Z := Search (len a) (λ i, v ← at_ a i; Ok (negb (string_lt v x))).
