(* ===== verification/SortSpec.v ===== *)
(** * package sort: what is relied on of a collection, and the shared lemmas

    [Sortable] says that the methods of an [Interface] read and exchange the
    elements of a list; [StrictWeak] is what the documentation of Less asks for.
    Then binary search, insertion sort, and the two relations the sorting
    routines keep: [perm_in], a rearrangement of a range of positions, and
    [steq], one that keeps equal elements in order. *)
From stdpp Require Import sorting.
From S2P Require Import Prelude SortOps.

Class StrictWeak {A : Type} (lt : A → A → bool) : Prop := {
  lt_irrefl x : lt x x = false;
  lt_trans x y z : lt x y = true → lt y z = true → lt x z = true;
  ge_trans x y z : lt x y = false → lt y z = false → lt x z = false;
}.
Class Sortable (D A : Type) `{Interface D} (lt : A → A → bool) : Type := {
  view : D → list A;
  Len_view data : Len data = len (view data);
  Less_view data i j x y : 0 <= i → 0 <= j → view data !! Z.to_nat i = Some x → view data !! Z.to_nat j = Some y →
    Less data i j = Ok (lt x y);
  Swap_view data i j x y : 0 <= i → 0 <= j → view data !! Z.to_nat i = Some x → view data !! Z.to_nat j = Some y →
    ∃ data', Swap data i j = Ok data' ∧ view data' = <[Z.to_nat i := y]> (<[Z.to_nat j := x]> (view data));
}.

(** ** Lists and positions *)
Lemma look {A} (l1 l2 : list A) x i : i = len l1 → (l1 ++ x :: l2) !! Z.to_nat i = Some x.
Proof. intros ->. apply list_lookup_middle. unfold len. lia. Qed.
Lemma look_2 {A} (l1 l2 l3 : list A) x y i : i = len l1 + 1 + len l2 → (l1 ++ x :: l2 ++ y :: l3) !! Z.to_nat i = Some y.
Proof.
  intros ->. replace (l1 ++ x :: l2 ++ y :: l3) with ((l1 ++ x :: l2) ++ y :: l3) by (by rewrite <- app_assoc).
  apply look. rewrite len_app, len_cons. lia.
Qed.
Lemma insert_look {A} (l1 l2 : list A) x y i : i = len l1 → <[Z.to_nat i := y]> (l1 ++ x :: l2) = l1 ++ y :: l2.
Proof. intros ->. unfold len. rewrite insert_app_r_alt by lia. replace (Z.to_nat _ - length l1)%nat with 0%nat by lia. done. Qed.
Lemma exchange {A} (l1 l2 l3 : list A) x y i j : i = len l1 → j = len l1 + 1 + len l2 →
  <[Z.to_nat i := y]> (<[Z.to_nat j := x]> (l1 ++ x :: l2 ++ y :: l3)) = l1 ++ y :: l2 ++ x :: l3.
Proof.
  intros -> ->. replace (l1 ++ x :: l2 ++ y :: l3) with ((l1 ++ x :: l2) ++ y :: l3) by (by rewrite <- app_assoc).
  rewrite (insert_look (l1 ++ x :: l2)) by (rewrite len_app, len_cons; lia). rewrite <- app_assoc. cbn [app]. by rewrite insert_look.
Qed.
Lemma list_at {A} (l : list A) (i : Z) : 0 <= i < len l → ∃ l1 x l2, l = l1 ++ x :: l2 ∧ len l1 = i.
Proof.
  intros Hi. destruct (lookup_lt_is_Some_2 l (Z.to_nat i)) as [x Hx]; [unfold len in Hi; lia|].
  exists (take (Z.to_nat i) l), x, (drop (S (Z.to_nat i)) l). split; [by rewrite take_drop_middle|].
  unfold len in *. rewrite length_take. lia.
Qed.
Lemma list_split {A} (l : list A) (i : Z) : 0 <= i <= len l → ∃ l1 l2, l = l1 ++ l2 ∧ len l1 = i.
Proof.
  intros Hi. exists (take (Z.to_nat i) l), (drop (Z.to_nat i) l). split; [by rewrite take_drop|]. unfold len in *. rewrite length_take. lia.
Qed.
Lemma len_nil {A} : len (@nil A) = 0.
Proof. done. Qed.
Lemma len_0 {A} (l : list A) : len l = 0 → l = [].
Proof. destruct l; [done|]. rewrite len_cons. pose proof (len_nonneg l). lia. Qed.
Lemma len_1 {A} (l : list A) : len l = 1 → ∃ x, l = [x].
Proof. destruct l as [|x [|y l]]; [done|by exists x|]. rewrite !len_cons. pose proof (len_nonneg l). lia. Qed.

(** ** Halving *)
Lemma half_between i j : 0 <= i < j → j < 2 ^ 62 → i <= half (i + j) < j ∧ half (i + j) = (i + j) / 2.
Proof. intros Hi Hj. unfold half. rewrite u64_id by (unfold is_u64; lia). rewrite Z.shiftr_div_pow2 by lia. change (2 ^ 1) with 2. zwlia. Qed.

(** ** Searching *)
(** The position found: [c] is true just before it and false at it, as far as
    that is within the bounds. *)
Lemma search_loop_edge c : ∀ fuel i j, 0 <= i <= j → j < 2 ^ 62 → j - i < Z.of_nat fuel →
  (∀ h, i <= h < j → ∃ b, c h = Ok b) →
  ∃ r, search_loop fuel c i j = Ok r ∧ i <= r <= j ∧ (r = i ∨ c (r - 1) = Ok true) ∧ (r = j ∨ c r = Ok false).
Proof.
  induction fuel as [|fuel IH]; intros i j Hi Hj Hf Hc; [lia|]. cbn [search_loop].
  destruct (Z.ltb_spec i j) as [Hij|Hij]; [|exists i; split; [done|]; split; [lia|]; split; [by left|left; lia]].
  destruct (half_between i j ltac:(lia) Hj) as [Hh _]. set (h := half (i + j)) in *.
  destruct (Hc h ltac:(lia)) as [[] Eb]; rewrite Eb; cbn [mbind res_bind].
  - destruct (IH (h + 1) j) as (r&Er&Hr&H1&H2); [lia|done|lia|intros; apply Hc; lia|]. exists r. split; [done|]. split; [lia|]. split; [|done].
    right. destruct H1 as [->|H1]; [by replace (h + 1 - 1) with h by lia|done].
  - destruct (IH i h) as (r&Er&Hr&H1&H2); [lia|lia|lia|intros; apply Hc; lia|]. exists r. split; [done|]. split; [lia|]. split; [done|].
    right. by destruct H2 as [->|H2].
Qed.
Lemma search_edge c i j : 0 <= i <= j → j < 2 ^ 62 → (∀ h, i <= h < j → ∃ b, c h = Ok b) →
  ∃ r, search c i j = Ok r ∧ i <= r <= j ∧ (r = i ∨ c (r - 1) = Ok true) ∧ (r = j ∨ c r = Ok false).
Proof. intros Hi Hj Hc. apply search_loop_edge; try done. lia. Qed.
Lemma not_true c h : not c h = Ok true ↔ c h = Ok false.
Proof. unfold not. destruct (c h) as [[]| |]; cbn; split; congruence. Qed.
Lemma not_false c h : not c h = Ok false ↔ c h = Ok true.
Proof. unfold not. destruct (c h) as [[]| |]; cbn; split; congruence. Qed.
Lemma not_ok c h b : c h = Ok b → not c h = Ok (negb b).
Proof. unfold not. by intros ->. Qed.

(** ** Sorted lists and rearrangements *)
Section order.
Context {A : Type} (lt : A → A → bool) `{!StrictWeak lt}.

Definition le (x y : A) : Prop := lt y x = false.
Definition eqv (x y : A) : bool := negb (lt x y) && negb (lt y x).
Abbreviation srt := (StronglySorted le).
(** The same elements, those equal to each other in the same order. *)
Definition steq (l l' : list A) : Prop := l ≡ₚ l' ∧ ∀ x, filter (λ y, eqv x y = true) l = filter (λ y, eqv x y = true) l'.

#[global] Instance le_trans : Transitive le.
Proof. intros x y z H1 H2. unfold le in *. by apply (ge_trans z y x). Qed.
Lemma le_refl x : le x x.
Proof. apply lt_irrefl. Qed.
Lemma lt_le x y : lt x y = true → le x y.
Proof. intros H. unfold le. destruct (lt y x) eqn:E; [|done]. pose proof (lt_trans x y x H E) as H'. by rewrite lt_irrefl in H'. Qed.
Lemma lt_le_trans x y z : lt x y = true → le y z → lt x z = true.
Proof. intros H1 H2. apply not_false_is_true. intros H3. unfold le in H2. pose proof (ge_trans x z y H3 H2). congruence. Qed.
Lemma le_lt_trans x y z : le x y → lt y z = true → lt x z = true.
Proof. intros H1 H2. apply not_false_is_true. intros H3. unfold le in H1. pose proof (ge_trans y x z H1 H3). congruence. Qed.
#[global] Instance steq_equiv : Equivalence steq.
Proof.
  split; [done|by intros l l' [H1 H2]; split|]. intros l1 l2 l3 [H1 H2] [H3 H4]. split; [by etrans|]. intros x. by rewrite H2.
Qed.
#[global] Instance steq_app : Proper (steq ==> steq ==> steq) (++).
Proof. intros l1 l2 [H1 H2] l3 l4 [H3 H4]. split; [by rewrite H1, H3|]. intros x. by rewrite !list.filter_app, H2, H4. Qed.
Lemma filter_none (P : A → Prop) `{∀ x, Decision (P x)} l : (∀ x, x ∈ l → ¬ P x) → filter P l = [].
Proof.
  induction l as [|x l IH]; intros Hn; [done|]. rewrite filter_cons_False by (apply Hn; by left). apply IH. intros y Hy. apply Hn. by right.
Qed.
(** Two blocks may be exchanged when all of the second is less than the first. *)
Lemma steq_exchange u v : (∀ x y, x ∈ u → y ∈ v → lt y x = true) → steq (u ++ v) (v ++ u).
Proof.
  intros Huv. split; [apply Permutation_app_comm|]. intros z. rewrite !list.filter_app.
  destruct (decide (Exists (λ y, eqv z y = true) u)) as [Hu|Hu].
  - rewrite (filter_none _ v); [by rewrite app_nil_r|]. intros y Hy Hz. apply list.Exists_exists in Hu as (x&Hx&Ex).
    unfold eqv in *. rewrite andb_true_iff, !negb_true_iff in *. pose proof (Huv x y Hx Hy) as Hlt.
    rewrite (ge_trans y z x) in Hlt; naive_solver.
  - rewrite (filter_none _ u); [by rewrite app_nil_r|]. intros x Hx Ex. apply Hu. apply list.Exists_exists. eauto.
Qed.
Lemma steq_elem l l' x : steq l l' → x ∈ l ↔ x ∈ l'.
Proof. intros [H _]. by rewrite H. Qed.
Lemma srt_app l1 l2 : srt (l1 ++ l2) ↔ (∀ x y, x ∈ l1 → y ∈ l2 → le x y) ∧ srt l1 ∧ srt l2.
Proof. apply StronglySorted_app. Qed.
Lemma srt_one x : srt [x].
Proof. constructor; constructor. Qed.
(** An element before or after all of a sorted list. *)
Lemma srt_snoc_le l y x : srt (l ++ [y]) → le y x → ∀ z, z ∈ l ++ [y] → le z x.
Proof.
  intros Hs Hy z [Hz|Hz]%elem_of_app; [|apply list_elem_of_singleton in Hz; by subst].
  apply srt_app in Hs as (H&_&_). etrans; [by apply (H z y Hz); left|done].
Qed.
Lemma srt_cons_ge l y x : srt (y :: l) → le x y → ∀ z, z ∈ y :: l → le x z.
Proof.
  intros Hs Hy z [->|Hz]%elem_of_cons; [done|]. apply StronglySorted_cons in Hs as [H _]. rewrite list.Forall_forall in H. etrans; [done|auto].
Qed.
Lemma srt_snoc_lt l y x : srt (l ++ [y]) → lt y x = true → ∀ z, z ∈ l ++ [y] → lt z x = true.
Proof. intros Hs Hy z Hz. by apply (le_lt_trans z y x); [apply (srt_snoc_le l y y); [done|apply le_refl|done]|]. Qed.
Lemma srt_cons_lt l y x : srt (y :: l) → lt x y = true → ∀ z, z ∈ y :: l → lt x z = true.
Proof. intros Hs Hy z Hz. by apply (lt_le_trans x y z); [|apply (srt_cons_ge l y y); [done|apply le_refl|done]]. Qed.
Lemma srt_insert u1 x u2 : srt (u1 ++ u2) → (∀ z, z ∈ u1 → le z x) → (∀ z, z ∈ u2 → le x z) → srt (u1 ++ x :: u2).
Proof.
  intros (H1&H2&H3)%srt_app Hu1 Hu2. apply srt_app. split.
  - intros y z Hy [->|Hz]%elem_of_cons; [by apply Hu1|by apply H1].
  - split; [done|]. apply StronglySorted_cons. split; [|done]. by apply list.Forall_forall.
Qed.
End order.

(** A loop has fuel left. *)
Ltac no_fuel := match goal with H : len ?l < Z.of_nat 0 |- _ => pose proof (len_nonneg l); lia end.

(** ** The methods on a list taken apart *)
Section methods.
Context {D A : Type} `{Interface D} {lt : A → A → bool} `{!StrictWeak lt, !Sortable D A lt}.
Implicit Types (data : D) (l u v p q : list A).
Abbreviation srt := (StronglySorted (le lt)).

Lemma Less_app data l1 x l2 y l3 i j : view data = l1 ++ x :: l2 ++ y :: l3 → i = len l1 → j = len l1 + 1 + len l2 →
  Less data i j = Ok (lt x y) ∧ Less data j i = Ok (lt y x).
Proof.
  intros E Ei Ej. pose proof (len_nonneg l1). pose proof (len_nonneg l2).
  split; apply Less_view; try lia; rewrite E; by (apply look || apply look_2).
Qed.
Lemma Swap_app data l1 x l2 y l3 i j : view data = l1 ++ x :: l2 ++ y :: l3 → i = len l1 → j = len l1 + 1 + len l2 →
  ∃ data', Swap data i j = Ok data' ∧ view data' = l1 ++ y :: l2 ++ x :: l3.
Proof.
  intros E Ei Ej. pose proof (len_nonneg l1). pose proof (len_nonneg l2).
  destruct (Swap_view data i j x y) as (d&Ed&Ev); try lia; try (rewrite E; by (apply look || apply look_2)).
  exists d. split; [done|]. rewrite Ev, E. by apply exchange.
Qed.
Lemma Swap_app_rev data l1 x l2 y l3 i j : view data = l1 ++ x :: l2 ++ y :: l3 → i = len l1 → j = len l1 + 1 + len l2 →
  ∃ data', Swap data j i = Ok data' ∧ view data' = l1 ++ y :: l2 ++ x :: l3.
Proof.
  intros E Ei Ej. pose proof (len_nonneg l1). pose proof (len_nonneg l2).
  destruct (Swap_view data j i y x) as (d&Ed&Ev); try lia; try (rewrite E; by (apply look || apply look_2)).
  exists d. split; [done|]. rewrite Ev, E, list_insert_insert_ne by lia. by apply exchange.
Qed.

(** ** Insertion sort *)
Lemma insert_loop_run u : ∀ fuel data p x q a j, view data = p ++ u ++ x :: q → a = len p → j = a + len u → len u < Z.of_nat fuel → srt u →
  ∃ data' u1 u2, insert_loop fuel data a j = Ok data' ∧ view data' = p ++ u1 ++ x :: u2 ++ q ∧ u = u1 ++ u2 ∧
    (∀ z, z ∈ u1 → le lt z x) ∧ (∀ z, z ∈ u2 → lt x z = true).
Proof.
  induction u as [|y u IH] using rev_ind; intros fuel data p x q a j E Ea Ej Hf Hs; (destruct fuel as [|fuel]; [no_fuel|]); cbn [insert_loop].
  - rewrite len_nil in Ej. rewrite Z.gtb_ltb, (proj2 (Z.ltb_ge a j)) by lia. exists data, [], []. split; [done|]. split; [done|].
    split; [done|]. split; intros z Hz; by apply elem_of_nil in Hz.
  - rewrite len_app, len_cons, len_nil in Ej, Hf. pose proof (len_nonneg u). rewrite Z.gtb_ltb, (proj2 (Z.ltb_lt a j)) by lia.
    assert (E' : view data = (p ++ u) ++ y :: [] ++ x :: q) by (rewrite E, <- !app_assoc; done).
    destruct (Less_app data (p ++ u) y [] x q (j - 1) j E') as [_ HL]; [rewrite len_app; lia|rewrite len_app, len_nil; lia|].
    rewrite HL. cbn [mbind res_bind]. destruct (lt x y) eqn:Exy.
    + destruct (Swap_app_rev data (p ++ u) y [] x q (j - 1) j E') as (d&Ed&Ev); [rewrite len_app; lia|rewrite len_app, len_nil; lia|].
      rewrite Ed. cbn [mbind res_bind]. cbn [app] in Ev. rewrite <- app_assoc in Ev.
      destruct (IH fuel d p x (y :: q) a (j - 1) Ev Ea) as (d'&u1&u2&Er&Ev'&Eu&H1&H2); [lia|lia|by apply srt_app in Hs as (_&?&_)|].
      exists d', u1, (u2 ++ [y]). split; [done|]. split; [by rewrite <- app_assoc|]. split; [by rewrite Eu, app_assoc|]. split; [done|].
      intros z [Hz|Hz]%elem_of_app; [by apply H2|]. apply list_elem_of_singleton in Hz. by subst.
    + exists data, (u ++ [y]), []. split; [done|]. split; [done|]. split; [by rewrite app_nil_r|]. split.
      * by apply srt_snoc_le.
      * intros z Hz. by apply elem_of_nil in Hz.
Qed.
Lemma insertion_loop_run : ∀ v fuel data p u q a b i, view data = p ++ u ++ v ++ q → a = len p → i = a + len u → b = i + len v →
  len v < Z.of_nat fuel → srt u →
  ∃ data' w, insertion_loop fuel data a b i = Ok data' ∧ view data' = p ++ w ++ q ∧ srt w ∧ steq lt (u ++ v) w.
Proof.
  induction v as [|x v IH]; intros fuel data p u q a b i E Ea Ei Eb Hf Hs; (destruct fuel as [|fuel]; [no_fuel|]); cbn [insertion_loop].
  - rewrite len_nil in Eb. rewrite (proj2 (Z.ltb_ge i b)) by lia. exists data, u. rewrite app_nil_r. done.
  - rewrite len_cons in Eb, Hf. pose proof (len_nonneg v). rewrite (proj2 (Z.ltb_lt i b)) by lia.
    destruct (insert_loop_run u (S (Z.to_nat (i - a))) data p x (v ++ q) a i) as (d&u1&u2&Ed&Ev&Eu&H1&H2); try done; [pose proof (len_nonneg u); lia|].
    rewrite Ed. cbn [mbind res_bind].
    assert (Hs' : srt (u1 ++ x :: u2)) by (apply srt_insert; [by rewrite <- Eu|done|intros; by apply lt_le, H2]).
    destruct (IH fuel d p (u1 ++ x :: u2) q a b (i + 1)) as (d'&w&Er&Ev'&Hw&Hq); try done; try lia.
    { rewrite Ev, <- !app_assoc. done. }
    { rewrite Ei, Eu, !len_app, len_cons. lia. }
    exists d', w. split; [done|]. split; [done|]. split; [done|]. etrans; [|exact Hq]. rewrite Eu, <- !app_assoc. apply steq_app; [done|].
    change (x :: v) with ([x] ++ v). change (x :: u2) with ([x] ++ u2). rewrite !app_assoc. apply steq_app; [|done]. apply steq_exchange; [done|].
    intros y z Hy Hz. apply list_elem_of_singleton in Hz as ->. by apply H2.
Qed.
Lemma insertionSort_run data p u q a b : view data = p ++ u ++ q → a = len p → b = a + len u →
  ∃ data' w, insertionSort data a b = Ok data' ∧ view data' = p ++ w ++ q ∧ srt w ∧ steq lt u w.
Proof.
  intros E Ea Eb. unfold insertionSort. destruct u as [|x u].
  - rewrite len_nil in Eb. cbn [insertion_loop]. rewrite (proj2 (Z.ltb_ge (a + 1) b)) by lia. exists data, []. split; [done|]. split; [done|]. split; [constructor|done].
  - rewrite len_cons in Eb. pose proof (len_nonneg u). apply (insertion_loop_run u _ data p [x] q a b (a + 1)); try done; try lia; apply srt_one.
Qed.
End methods.
