(* ===== verification/SortStable.v ===== *)
(** * package sort: rotations, SymMerge and Stable *)
From stdpp Require Import sorting.
From S2P Require Import Prelude SortOps SortSpec.

Section stable.
Context {D A : Type} `{Interface D} {lt : A → A → bool} `{!StrictWeak lt, !Sortable D A lt}.
Implicit Types (data : D) (l u v w p q : list A).
Abbreviation srt := (StronglySorted (le lt)).
Abbreviation steq := (steq lt).
Abbreviation le := (le lt).
#[local] Ltac lens := rewrite ?len_app, ?len_cons, ?len_nil in *; lia.

(** ** Exchanges *)
Lemma swap_loop_run : ∀ k data p u m v q a b i, view data = p ++ u ++ m ++ v ++ q → a + i = len p → b + i = len p + len u + len m →
  length u = k → length v = k → ∃ data', swap_loop k data a b i = Ok data' ∧ view data' = p ++ v ++ m ++ u ++ q.
Proof.
  induction k as [|k IH]; intros data p [|x u] m [|y v] q a b i E Ea Eb Hu Hv; cbn [length] in *; try done; cbn [swap_loop]; [by exists data|].
  injection Hu as Hu. injection Hv as Hv.
  assert (E' : view data = p ++ x :: (u ++ m) ++ y :: v ++ q) by (rewrite E; cbn [app]; by rewrite <- !app_assoc).
  destruct (Swap_app data p x (u ++ m) y (v ++ q) (a + i) (b + i) E') as (d&->&Ev); [done|lens|]. cbn [mbind res_bind].
  destruct (IH d (p ++ [y]) u (m ++ [x]) v q a b (i + 1)) as (d'&->&Ev'); [by rewrite Ev, <- !app_assoc|lens|lens|done|done|].
  exists d'. split; [done|]. rewrite Ev', <- !app_assoc. done.
Qed.
Lemma swapRange_run data p u m v q a b n : view data = p ++ u ++ m ++ v ++ q → a = len p → b = len p + len u + len m →
  n = len u → n = len v → ∃ data', swapRange data a b n = Ok data' ∧ view data' = p ++ v ++ m ++ u ++ q.
Proof. intros E Ea Eb Hu Hv. apply swap_loop_run; try done; try lia; unfold len in *; lia. Qed.
Lemma rotate_loop_run : ∀ fuel data p u v q m i j, view data = p ++ u ++ v ++ q → i = len u → j = len v → m = len p + i → 0 < i → 0 < j →
  i + j <= Z.of_nat fuel → ∃ data', rotate_loop fuel data m i j = Ok data' ∧ view data' = p ++ v ++ u ++ q.
Proof.
  induction fuel as [|fuel IH]; intros data p u v q m i j E Ei Ej Em Hi Hj Hf; [lia|]. cbn [rotate_loop].
  destruct (Z.eqb_spec i j) as [Hij|Hij]; cbn [negb].
  { destruct (swapRange_run data p u [] v q (m - i) m i) as (d&->&Ev); try done; try lia; [rewrite len_nil; lia|]. by exists d. }
  rewrite Z.gtb_ltb. destruct (Z.ltb_spec j i) as [Hlt|Hge].
  - destruct (list_split u j ltac:(lia)) as (u1&u2&->&Hu1).
    destruct (swapRange_run data p u1 u2 v q (m - i) m j) as (d&->&Ev); try lia; [by rewrite E, <- !app_assoc|lens|]. cbn [mbind res_bind].
    destruct (IH d (p ++ v) u2 u1 q m (i - j) j) as (d'&->&Ev'); try lia; [by rewrite Ev, <- !app_assoc|lens|lens|].
    exists d'. split; [done|]. by rewrite Ev', <- !app_assoc.
  - destruct (list_split v (j - i) ltac:(lia)) as (v1&v2&->&Hv1).
    destruct (swapRange_run data p u v1 v2 q (m - i) (m + j - i) i) as (d&->&Ev); try lia; [by rewrite E, <- !app_assoc|lens|]. cbn [mbind res_bind].
    destruct (IH d p v2 v1 (u ++ q) m i (j - i)) as (d'&->&Ev'); try lia; [by rewrite Ev, <- ?app_assoc|lens|].
    exists d'. split; [done|]. by rewrite Ev', <- !app_assoc.
Qed.
Lemma rotate_run data p u v q a m b : view data = p ++ u ++ v ++ q → a = len p → m = a + len u → b = m + len v → a < m → m < b →
  ∃ data', rotate data a m b = Ok data' ∧ view data' = p ++ v ++ u ++ q.
Proof. intros E Ea Em Eb H1 H2. apply rotate_loop_run; try done; lia. Qed.
Lemma move_up_run : ∀ v data p x q k, view data = p ++ x :: v ++ q → k = len p →
  ∃ data', move_up (length v) data k = Ok data' ∧ view data' = p ++ v ++ x :: q.
Proof.
  induction v as [|y v IH]; intros data p x q k E Ek; cbn [length move_up]; [by exists data|].
  destruct (Swap_app data p x [] y (v ++ q) k (k + 1) E Ek) as (d&->&Ev); [lens|]. cbn [mbind res_bind].
  destruct (IH d (p ++ [y]) x q (k + 1)) as (d'&->&Ev'); [by rewrite Ev, <- app_assoc|lens|]. exists d'. by rewrite Ev', <- app_assoc.
Qed.
Lemma move_down_run v : ∀ data p x q k, view data = p ++ v ++ x :: q → k = len p + len v →
  ∃ data', move_down (length v) data k = Ok data' ∧ view data' = p ++ x :: v ++ q.
Proof.
  induction v as [|y v IH] using rev_ind; intros data p x q k E Ek; [by exists data|]. rewrite length_app, Nat.add_comm. cbn [length Nat.add move_down].
  assert (E' : view data = (p ++ v) ++ y :: [] ++ x :: q) by (by rewrite E, <- !app_assoc).
  destruct (Swap_app_rev data (p ++ v) y [] x q (k - 1) k E') as (d&->&Ev); [lens|lens|]. cbn [mbind res_bind].
  destruct (IH d p x (y :: q) (k - 1)) as (d'&->&Ev'); [by rewrite Ev, <- app_assoc|lens|]. exists d'. by rewrite Ev', <- app_assoc.
Qed.

(** ** SymMerge *)
(** Inserting one element into the run behind it or before it. *)
Lemma merge_first fuel data p x v q a m b : view data = p ++ x :: v ++ q → a = len p → m = a + 1 → b = m + len v → b < 2 ^ 62 → srt v →
  ∃ data' w, symMerge_loop (S fuel) data a m b = Ok data' ∧ view data' = p ++ w ++ q ∧ srt w ∧ steq (x :: v) w.
Proof.
  intros E Ea Em Eb Hb Hs. cbn [symMerge_loop]. rewrite (proj2 (Z.eqb_eq (m - a) 1)) by lia. pose proof (len_nonneg p). pose proof (len_nonneg v).
  assert (HL : ∀ h, m <= h < b → ∃ v1 y v2, v = v1 ++ y :: v2 ∧ len v1 = h - m ∧ Less data h a = Ok (lt y x)).
  { intros h Hh. destruct (list_at v (h - m) ltac:(lia)) as (v1&y&v2&->&Hl). exists v1, y, v2. split; [done|]. split; [done|].
    apply (Less_app data p x v1 y (v2 ++ q) a h); [by rewrite E, <- app_assoc|done|lia]. }
  destruct (search_edge (λ h, Less data h a) m b) as (i&Ei&Hi&HA&HB); [lia|done|intros h Hh; destruct (HL h Hh) as (?&?&?&_&_&->); eauto|].
  rewrite Ei. cbn [mbind res_bind]. destruct (list_split v (i - m) ltac:(lia)) as (v1&v2&->&Hv1).
  replace (Z.to_nat (i - 1 - a)) with (length v1) by (unfold len in Hv1; lia).
  destruct (move_up_run v1 data p x (v2 ++ q) a) as (d&->&Ev); [by rewrite E, <- app_assoc|done|].
  exists d, (v1 ++ x :: v2). split; [done|]. split; [by rewrite Ev, <- app_assoc|]. rewrite len_app in Eb. pose proof (len_nonneg v2).
  assert (Hv1x : ∀ z, z ∈ v1 → lt z x = true).
  { destruct HA as [->|HA]; [rewrite (len_0 v1) by lia; intros z Hz; by apply elem_of_nil in Hz|].
    destruct v1 as [|y v1 _] using rev_ind; [intros z Hz; by apply elem_of_nil in Hz|]. rewrite len_app, len_cons, len_nil in Hv1. pose proof (len_nonneg v1).
    apply srt_app in Hs as (_&Hs&_). intros z. apply (srt_snoc_lt lt v1 y x Hs).
    destruct (Less_app data p x v1 y (v2 ++ q) a (i - 1)) as [_ HL']; [by rewrite E, <- !app_assoc|done|lia|]. congruence. }
  assert (Hv2x : ∀ z, z ∈ v2 → le x z).
  { destruct HB as [->|HB]; [rewrite (len_0 v2) by lia; intros z Hz; by apply elem_of_nil in Hz|].
    destruct v2 as [|y v2]; [intros z Hz; by apply elem_of_nil in Hz|].
    apply srt_app in Hs as (_&_&Hs). intros z. apply (srt_cons_ge lt v2 y x Hs).
    destruct (Less_app data p x v1 y (v2 ++ q) a i) as [_ HL']; [by rewrite E, <- app_assoc|done|lia|]. unfold SortSpec.le. congruence. }
  split; [apply srt_insert; [done|intros; by apply lt_le, Hv1x|done]|].
  change (x :: v1 ++ v2) with (([x] ++ v1) ++ v2). change (v1 ++ x :: v2) with (v1 ++ [x] ++ v2). rewrite (app_assoc v1). apply steq_app; [|done].
  apply steq_exchange; [done|]. intros y z Hy Hz. apply list_elem_of_singleton in Hy as ->. by apply Hv1x.
Qed.
Lemma merge_last fuel data p u x q a m b : view data = p ++ u ++ x :: q → a = len p → m = a + len u → b = m + 1 → m - a ≠ 1 → b < 2 ^ 62 → srt u →
  ∃ data' w, symMerge_loop (S fuel) data a m b = Ok data' ∧ view data' = p ++ w ++ q ∧ srt w ∧ steq (u ++ [x]) w.
Proof.
  intros E Ea Em Eb Hne Hb Hs. cbn [symMerge_loop]. rewrite (proj2 (Z.eqb_neq (m - a) 1)), (proj2 (Z.eqb_eq (b - m) 1)) by lia.
  pose proof (len_nonneg p) as Hp0. pose proof (len_nonneg u) as Hu0.
  assert (HL : ∀ h, a <= h < m → ∃ u1 y u2, u = u1 ++ y :: u2 ∧ len u1 = h - a ∧ Less data m h = Ok (lt x y)).
  { intros h Hh. destruct (list_at u (h - a) ltac:(lia)) as (u1&y&u2&->&Hl). exists u1, y, u2. split; [done|]. split; [done|].
    apply (Less_app data (p ++ u1) y u2 x q h m); [by rewrite E, <- !app_assoc|lens|lens]. }
  destruct (search_edge (not (λ h, Less data m h)) a m) as (i&Ei&Hi&HA&HB); [lia|lia|intros h Hh; destruct (HL h Hh) as (?&?&?&_&_&Hh'); eexists; by apply not_ok|].
  rewrite not_true in HA. rewrite not_false in HB.
  rewrite Ei. cbn [mbind res_bind]. destruct (list_split u (i - a) ltac:(lia)) as (u1&u2&->&Hu1). rewrite len_app in Em.
  replace (Z.to_nat (m - i)) with (length u2) by (unfold len in *; lia).
  destruct (move_down_run u2 data (p ++ u1) x q m) as (d&->&Ev); [by rewrite E, <- !app_assoc|lens|].
  exists d, (u1 ++ x :: u2). split; [done|]. split; [by rewrite Ev, <- !app_assoc|]. pose proof (len_nonneg u1) as Hu1'. pose proof (len_nonneg u2) as Hu2'.
  assert (Hu1x : ∀ z, z ∈ u1 → le z x).
  { destruct HA as [->|HA]; [rewrite (len_0 u1) by lia; intros z Hz; by apply elem_of_nil in Hz|].
    destruct u1 as [|y u1 _] using rev_ind; [intros z Hz; by apply elem_of_nil in Hz|]. rewrite len_app, len_cons, len_nil in Hu1.
    apply srt_app in Hs as (_&Hs&_). intros z. apply (srt_snoc_le lt u1 y x Hs).
    destruct (Less_app data (p ++ u1) y u2 x q (i - 1) m) as [_ HL']; [by rewrite E, <- !app_assoc|lens|lens|]. unfold SortSpec.le. congruence. }
  assert (Hu2x : ∀ z, z ∈ u2 → lt x z = true).
  { destruct HB as [->|HB]; [rewrite (len_0 u2) by lia; intros z Hz; by apply elem_of_nil in Hz|].
    destruct u2 as [|y u2]; [intros z Hz; by apply elem_of_nil in Hz|].
    apply srt_app in Hs as (_&_&Hs). intros z. apply (srt_cons_lt lt u2 y x Hs).
    destruct (Less_app data (p ++ u1) y u2 x q i m) as [_ HL']; [by rewrite E, <- !app_assoc|lens|lens|]. congruence. }
  split; [apply srt_insert; [done|done|intros; by apply lt_le, Hu2x]|].
  rewrite <- app_assoc. apply steq_app; [done|]. change (x :: u2) with ([x] ++ u2). apply steq_exchange; [done|].
  intros y z Hy Hz. apply list_elem_of_singleton in Hz as ->. by apply Hu2x.
Qed.

(** Where the two runs are cut: what is exchanged, and why the halves are then
    in order. *)
Lemma cut data p u v q a m b : view data = p ++ u ++ v ++ q → a = len p → m = a + len u → b = m + len v → b < 2 ^ 62 → srt u → srt v →
  let mid := half (a + b) in let n := mid + m in let '(start, r) := if m >? mid then (n - b, mid) else (a, m) in a < m → m < b →
  ∃ s u1 u2 v1 v2, search (not (λ c, Less data (n - 1 - c) c)) start r = Ok s ∧ u = u1 ++ u2 ∧ v = v1 ++ v2 ∧
    len u1 = s - a ∧ len v1 = n - s - m ∧
    (∀ x y, x ∈ u1 → y ∈ v2 → le x y) ∧ (∀ x y, x ∈ u2 → y ∈ v1 → lt y x = true).
Proof.
  intros E Ea Em Eb Hb Hsu Hsv mid n. destruct (if m >? mid then _ else _) as [start r] eqn:Esr. intros Ham Hmb.
  pose proof (len_nonneg p) as Hp0. destruct (half_between a b ltac:(lia) Hb) as [Hmid Hmid']. fold mid in Hmid, Hmid'.
  assert (Hr : start <= r ∧ a <= start ∧ n - b <= start ∧ r <= m ∧ r <= mid ∧ (start = a ∨ start = n - b) ∧ (r = m ∨ r = mid)).
  { rewrite Z.gtb_ltb in Esr. pose proof (Z.div_mod (a + b) 2) as Hdm. pose proof (Z.mod_pos_bound (a + b) 2) as Hmb'.
    destruct (Z.ltb_spec mid m); injection Esr as <- <-; unfold n in *; lia. }
  clear Esr Hmid'. destruct Hr as (H1&H2&H3&H4&H5&H6&H7).
  assert (HL : ∀ c, start <= c < r → ∃ u1 x u2 v1 y v2, u = u1 ++ x :: u2 ∧ v = v1 ++ y :: v2 ∧ len u1 = c - a ∧ len v1 = n - 1 - c - m ∧ Less data (n - 1 - c) c = Ok (lt y x)).
  { intros c Hc. destruct (list_at u (c - a) ltac:(lia)) as (u1&x&u2&->&Hl1). destruct (list_at v (n - 1 - c - m) ltac:(lia)) as (v1&y&v2&->&Hl2).
    exists u1, x, u2, v1, y, v2. do 4 (split; [done|]).
    apply (Less_app data (p ++ u1) x (u2 ++ v1) y (v2 ++ q) c (n - 1 - c)); [rewrite E, <- !app_assoc; cbn; by rewrite <- ?app_assoc|lens|lens]. }
  destruct (search_edge (not (λ c, Less data (n - 1 - c) c)) start r) as (s&Es&Hs&HA&HB); [lia|lia|intros h Hh; destruct (HL h Hh) as (?&?&?&?&?&?&_&_&_&_&Hh'); eexists; by apply not_ok|].
  rewrite not_true in HA. rewrite not_false in HB.
  destruct (list_split u (s - a) ltac:(lia)) as (u1&u2&Eu&Hu1). destruct (list_split v (n - s - m) ltac:(lia)) as (v1&v2&Ev&Hv1).
  exists s, u1, u2, v1, v2. do 5 (split; [done|]). subst u v. rewrite len_app in Em, Eb. split.
  - intros x y Hx Hy. destruct (decide (u1 = [] ∨ v2 = [])) as [[-> | ->]|Hne]; [by apply elem_of_nil in Hx|by apply elem_of_nil in Hy|].
    destruct u1 as [|x0 u1 _] using rev_ind; [tauto|]. destruct v2 as [|y0 v2]; [tauto|]. rewrite len_app, len_cons, len_nil in *. pose proof (len_nonneg u1) as Hn1. pose proof (len_nonneg v2) as Hn2.
    destruct HA as [->|HA]; [lia|]. replace (n - 1 - (s - 1)) with (n - s) in HA by lia.
    destruct (Less_app data (p ++ u1) x0 (u2 ++ v1) y0 (v2 ++ q) (s - 1) (n - s)) as [_ HL']; [rewrite E, <- !app_assoc; cbn; by rewrite <- ?app_assoc|lens|lens|].
    assert (Hxy : le x0 y0) by (unfold SortSpec.le; congruence). apply srt_app in Hsu as (_&Hsu&_). apply srt_app in Hsv as (_&_&Hsv).
    etrans; [by apply (srt_snoc_le lt u1 x0 x0 Hsu (le_refl lt x0))|]. by apply (srt_cons_ge lt v2 y0 x0 Hsv Hxy).
  - intros x y Hx Hy. destruct (decide (u2 = [] ∨ v1 = [])) as [[-> | ->]|Hne]; [by apply elem_of_nil in Hx|by apply elem_of_nil in Hy|].
    destruct u2 as [|x0 u2]; [tauto|]. destruct v1 as [|y0 v1 _] using rev_ind; [tauto|]. rewrite ?len_app, ?len_cons, ?len_nil in *. pose proof (len_nonneg u2) as Hn1. pose proof (len_nonneg v1) as Hn2.
    destruct HB as [->|HB]; [lia|].
    destruct (Less_app data (p ++ u1) x0 (u2 ++ v1) y0 (v2 ++ q) s (n - 1 - s)) as [_ HL']; [rewrite E, <- !app_assoc; cbn; by rewrite <- ?app_assoc|lens|lens|].
    assert (Hxy : lt y0 x0 = true) by congruence. apply srt_app in Hsu as (_&_&Hsu). apply srt_app in Hsv as (_&Hsv&_).
    eapply lt_le_trans; [done|by apply (srt_snoc_lt lt v1 y0 x0 Hsv Hxy)|]. by apply (srt_cons_ge lt u2 x0 x0 Hsu (le_refl lt x0)).
Qed.
(** What [merge] does: two sorted runs next to each other become one. *)
Definition merges (n : Z) (merge : D → Z → Z → Z → res D) : Prop := ∀ data p u v q a m b,
  view data = p ++ u ++ v ++ q → a = len p → m = a + len u → b = m + len v → b - a <= n → b < 2 ^ 62 → srt u → srt v →
  ∃ data' w, merge data a m b = Ok data' ∧ view data' = p ++ w ++ q ∧ srt w ∧ steq (u ++ v) w.
Definition guarded (merge : D → Z → Z → Z → res D) data (a m b : Z) : res D :=
  if (a <? m) && (m <? b) then merge data a m b else Ok data.
Lemma merges_cut data p u v q a m b : view data = p ++ u ++ v ++ q → a = len p → m = a + len u → b = m + len v →
  a < m → m < b → ∃ data', guarded rotate data a m b = Ok data' ∧ view data' = p ++ v ++ u ++ q.
Proof.
  intros E Ea Em Eb H1 H2. unfold guarded. rewrite (proj2 (Z.ltb_lt a m)), (proj2 (Z.ltb_lt m b)) by lia. by eapply rotate_run.
Qed.
Lemma rotate_guarded data p u v q a m b : view data = p ++ u ++ v ++ q → a = len p → m = a + len u → b = m + len v →
  ∃ data', guarded rotate data a m b = Ok data' ∧ view data' = p ++ v ++ u ++ q.
Proof.
  intros E Ea Em Eb. pose proof (len_nonneg u). pose proof (len_nonneg v). destruct (decide (a < m ∧ m < b)) as [[? ?]|Hn]; [by eapply merges_cut|].
  unfold guarded. exists data. split; [destruct (Z.ltb_spec a m), (Z.ltb_spec m b); done || lia|].
  assert (u = [] ∨ v = []) as [-> | ->]; [|by rewrite E|by rewrite E].
  destruct (decide (len u = 0)); [left|right]; apply len_0; lia.
Qed.
(** The general case splits the work into two smaller merges. *)
Lemma symMerge_step fuel : merges (Z.of_nat fuel) (guarded (symMerge_loop fuel)) → merges (Z.of_nat (S fuel)) (guarded (symMerge_loop (S fuel))).
Proof.
  intros IH data p u v q a m b E Ea Em Eb Hf Hb Hsu Hsv. unfold guarded. pose proof (len_nonneg u) as Hu0. pose proof (len_nonneg v) as Hv0.
  destruct (Z.ltb_spec a m) as [Ham|Ham]; cbn [andb]; cycle 1.
  { assert (u = []) as -> by (apply len_0; lia). by exists data, v. }
  destruct (Z.ltb_spec m b) as [Hmb|Hmb]; cycle 1.
  { assert (v = []) as -> by (apply len_0; lia). exists data, u. by rewrite app_nil_r. }
  destruct (decide (m - a = 1)) as [H1|H1].
  { destruct (len_1 u) as [x ->]; [lia|]. by apply merge_first with (x := x). }
  destruct (decide (b - m = 1)) as [H2|H2].
  { destruct (len_1 v) as [x ->]; [lia|]. by apply merge_last. }
  cbn [symMerge_loop]. rewrite (proj2 (Z.eqb_neq _ _) H1), (proj2 (Z.eqb_neq _ _) H2).
  pose proof (cut data p u v q a m b E Ea Em Eb Hb Hsu Hsv) as Hcut. cbn zeta in Hcut |- *. destruct (half_between a b) as [Hmid Hmid']; [pose proof (len_nonneg p); lia|done|].
  assert (Hmid1 : a < half (a + b)) by (rewrite Hmid'; apply Z.lt_le_trans with (a + 1); [lia|apply Z.div_le_lower_bound; lia]). clear Hmid'. set (mid := half (a + b)) in *. destruct (if m >? mid then _ else _) as [start r].
  destruct (Hcut Ham Hmb) as (s&u1&u2&v1&v2&->&->&->&Hu1&Hv1&H12&H21). cbn [mbind res_bind]. fold (guarded rotate data s m (mid + m - s)).
  pose proof (len_nonneg u1). pose proof (len_nonneg v1). pose proof (len_nonneg u2). pose proof (len_nonneg v2).
  apply srt_app in Hsu as (Hu12&Hsu1&Hsu2). apply srt_app in Hsv as (Hv12&Hsv1&Hsv2). rewrite len_app in *.
  destruct (rotate_guarded data (p ++ u1) u2 v1 (v2 ++ q) s m (mid + m - s)) as (d&->&Ev); [by rewrite E, <- !app_assoc|lens|lens|lens|]. cbn [mbind res_bind].
  fold (guarded (symMerge_loop fuel) d a s mid).
  destruct (IH d p u1 v1 (u2 ++ v2 ++ q) a s mid) as (d1&w1&->&Ev1&Hw1&Hq1); [by rewrite Ev, <- !app_assoc|lia..|done|done|]. cbn [mbind res_bind].
  fold (guarded (symMerge_loop fuel) d1 mid (mid + m - s) b). assert (Hlw : len w1 = len u1 + len v1) by (unfold len; rewrite <- (Permutation_length (proj1 Hq1)), length_app; lia).
  destruct (IH d1 (p ++ w1) u2 v2 q mid (mid + m - s) b) as (d2&w2&->&Ev2&Hw2&Hq2); [by rewrite Ev1, <- !app_assoc|lens|lia..|done|done|].
  exists d2, (w1 ++ w2). split; [done|]. split; [by rewrite Ev2, <- !app_assoc|]. split.
  - apply srt_app. split; [|done]. intros x y Hx Hy. apply (steq_elem lt _ _ x) in Hq1. apply (steq_elem lt _ _ y) in Hq2.
    apply Hq1, elem_of_app in Hx. apply Hq2, elem_of_app in Hy. destruct Hx as [Hx|Hx], Hy as [Hy|Hy]; [by apply Hu12|by apply H12| |by apply Hv12].
    apply (lt_le lt). by apply H21.
  - rewrite <- Hq1, <- Hq2. rewrite <- !app_assoc. apply steq_app; [done|]. rewrite !app_assoc. apply steq_app; [|done]. by apply steq_exchange.
Qed.
Lemma symMerge_loop_run fuel : merges (Z.of_nat fuel) (guarded (symMerge_loop fuel)).
Proof.
  induction fuel as [|fuel IH]; [|by apply symMerge_step]. intros data p u v q a m b E Ea Em Eb Hf Hb Hsu Hsv.
  pose proof (len_nonneg u). pose proof (len_nonneg v). assert (u = []) as -> by (apply len_0; lia). assert (v = []) as -> by (apply len_0; lia). exists data, []. split; [|done].
  unfold guarded. by rewrite (proj2 (Z.ltb_ge a m)) by lia.
Qed.
Lemma symMerge_run data p u v q a m b : view data = p ++ u ++ v ++ q → a = len p → m = a + len u → b = m + len v →
  a < m → m < b → b < 2 ^ 62 → srt u → srt v →
  ∃ data' w, symMerge data a m b = Ok data' ∧ view data' = p ++ w ++ q ∧ srt w ∧ steq (u ++ v) w.
Proof.
  intros E Ea Em Eb H1 H2 Hb Hsu Hsv. destruct (symMerge_loop_run (Z.to_nat (b - a)) data p u v q a m b) as (d&w&Ed&H'); try done; try lia.
  exists d, w. split; [|done]. rewrite <- Ed. unfold guarded, symMerge. by rewrite (proj2 (Z.ltb_lt a m)), (proj2 (Z.ltb_lt m b)) by lia.
Qed.

(** ** Stable *)
Definition block (n : Z) (d : list A) : Prop := len d = n ∧ srt d.
Definition blocked (n : Z) (l : list A) : Prop :=
  ∃ ds last, l = concat ds ++ last ∧ Forall (block n) ds ∧ srt last ∧ len last < n.
Lemma blocks_loop_run : ∀ fuel data ds rest bs a n, view data = concat ds ++ rest → a = len (concat ds) → n = a + len rest →
  0 < bs → len rest < Z.of_nat fuel → Forall (block bs) ds →
  ∃ data' ds' rest', blocks_loop fuel data bs n a (a + bs) = Ok (data', len (concat ds')) ∧ view data' = concat ds' ++ rest' ∧
    Forall (block bs) ds' ∧ len rest' < bs ∧ steq (view data) (view data').
Proof.
  induction fuel as [|fuel IH]; intros data ds rest bs a n E Ea En Hbs Hf Hds; [no_fuel|]. cbn [blocks_loop].
  destruct (Z.leb_spec (a + bs) n) as [Hle|Hgt]; [|exists data, ds, rest; rewrite <- Ea; split; [done|]; split; [done|]; split; [done|]; split; [lia|done]].
  destruct (list_split rest bs ltac:(lia)) as (u&rest'&->&Hu). rewrite len_app in *.
  destruct (insertionSort_run data (concat ds) u rest' a (a + bs)) as (d&w&->&Ev&Hw&Hq); [done|done|lia|]. cbn [mbind res_bind].
  assert (Hlw : len w = bs) by (unfold len in *; rewrite <- (Permutation_length (proj1 Hq)); lia).
  destruct (IH d (ds ++ [w]) rest' bs (a + bs) n) as (d'&ds'&r'&Er&Ev'&Hds'&Hr'&Hq'); try lia.
  { rewrite Ev, concat_app. cbn. by rewrite app_nil_r, <- app_assoc. }
  { rewrite concat_app, len_app. cbn. rewrite app_nil_r. lia. }
  { apply Forall_app. split; [done|]. constructor; [by split|constructor]. }
  exists d', ds', r'. split; [done|]. split; [done|]. split; [done|]. split; [done|]. rewrite <- Hq', E, Ev, Hq. done.
Qed.
Lemma merge_loop_run : ∀ fuel data ws ds last bs a n, view data = concat ws ++ concat ds ++ last → a = len (concat ws) →
  n = len (view data) → n < 2 ^ 62 → 0 < bs → len (concat ds) < Z.of_nat fuel → Forall (block (2 * bs)) ws → Forall (block bs) ds → srt last → len last < bs →
  ∃ data' ws' ds', merge_loop fuel data bs n a (a + 2 * bs) = Ok (data', len (concat ws')) ∧ view data' = concat ws' ++ concat ds' ++ last ∧
    Forall (block (2 * bs)) ws' ∧ Forall (block bs) ds' ∧ (length ds' <= 1)%nat ∧ steq (view data) (view data').
Proof.
  induction fuel as [|fuel IH]; intros data ws ds last bs a n E Ea En Hn Hbs Hf Hws Hds Hs Hl; [no_fuel|]. cbn [merge_loop].
  assert (En' : n = a + len (concat ds) + len last) by (rewrite En, E, !len_app; lia).
  destruct ds as [|d1 [|d2 ds]].
  - cbn [concat] in En'. rewrite len_nil in En'. rewrite (proj2 (Z.leb_gt _ n)) by lia. exists data, ws, []. rewrite <- Ea. repeat split; try done. cbn. lia.
  - apply list.Forall_cons in Hds as [[H1 H1'] _]. cbn [concat] in En'. rewrite app_nil_r in En'. rewrite (proj2 (Z.leb_gt _ n)) by lia.
    exists data, ws, [d1]. rewrite <- Ea. repeat split; try done. constructor; [by split|constructor].
  - apply list.Forall_cons in Hds as [[H1 H1'] Hds]. apply list.Forall_cons in Hds as [[H2 H2'] Hds]. cbn [concat] in *. rewrite !len_app in *.
    pose proof (len_nonneg (concat ds)). pose proof (len_nonneg last). rewrite (proj2 (Z.leb_le _ n)) by lia.
    destruct (symMerge_run data (concat ws) d1 d2 (concat ds ++ last) a (a + bs) (a + 2 * bs)) as (d&w&->&Ev&Hw&Hq); try done; try lia;
      [by rewrite E, <- !app_assoc|]. cbn [mbind res_bind].
    assert (Hlw : len w = 2 * bs) by (unfold len in *; rewrite <- (Permutation_length (proj1 Hq)), length_app; lia).
    assert (Hq1 : steq (view data) (view d)) by (rewrite E, Ev, <- Hq, <- !app_assoc; done).
    destruct (IH d (ws ++ [w]) ds last bs (a + 2 * bs) n) as (d'&ws'&ds'&Er&Ev'&Hws'&Hds'&Hl'&Hq'); try done; try lia.
    { rewrite Ev, concat_app. cbn. by rewrite app_nil_r, <- !app_assoc. }
    { rewrite concat_app, len_app. cbn. rewrite app_nil_r. lia. }
    { rewrite En. unfold len. by rewrite (Permutation_length (proj1 Hq1)). }
    { apply Forall_app. split; [done|]. constructor; [by split|constructor]. }
    exists d', ws', ds'. do 5 (split; [done|]). by etrans.
Qed.
Lemma stable_loop_run : ∀ fuel data bs n, n = len (view data) → n < 2 ^ 62 → 0 < bs → n < bs + Z.of_nat fuel → (0 < fuel)%nat → blocked bs (view data) →
  ∃ data', stable_loop fuel data bs n = Ok data' ∧ srt (view data') ∧ steq (view data) (view data').
Proof.
  induction fuel as [|fuel IH]; intros data bs n En Hn Hbs Hf H0 (ds&last&E&Hds&Hs&Hl); [lia|]. cbn [stable_loop].
  destruct (Z.ltb_spec bs n) as [Hlt|Hge]; cycle 1.
  { exists data. split; [done|]. split; [|done]. rewrite E in *. destruct ds as [|d [|d2 ds]]; [done| |]; rewrite len_app in En; cbn [concat] in En |- *;
      apply list.Forall_cons in Hds as [[Hd Hd'] Hds]; rewrite len_app in En; pose proof (len_nonneg last).
    - rewrite len_nil in En. assert (last = []) as -> by (apply len_0; lia). by rewrite !app_nil_r.
    - apply list.Forall_cons in Hds as [[Hd2 _] _]. cbn [concat] in En. rewrite len_app in En. pose proof (len_nonneg (concat ds)). lia. }
  destruct (merge_loop_run (S (Z.to_nat n)) data [] ds last bs 0 n) as (d&ws&ds'&Er&Ev&Hws&Hds'&Hl'&Hq); try done; try lia.
  { rewrite En, E, len_app. pose proof (len_nonneg last). pose proof (len_nonneg (concat ds)). lia. }
  rewrite Z.add_0_l in Er. rewrite Er. cbn [mbind res_bind].
  assert (Hend : ∃ d2, (if len (concat ws) + bs <? n then symMerge d (len (concat ws)) (len (concat ws) + bs) n else Ok d) = Ok d2 ∧
    blocked (2 * bs) (view d2) ∧ steq (view d) (view d2)).
  { assert (En' : n = len (view d)) by (rewrite En; unfold len; by rewrite (Permutation_length (proj1 Hq))). rewrite Ev, !len_app in En'.
    destruct ds' as [|d1 [|? ?]]; [| |cbn in Hl'; lia]; cbn [concat] in *; rewrite ?app_nil_r in *.
    - rewrite len_nil in En'. rewrite (proj2 (Z.ltb_ge _ n)) by lia. exists d. split; [done|]. split; [|done]. exists ws, last. repeat split; try done. lia.
    - apply list.Forall_cons in Hds' as [[H1 H1'] _]. destruct (Z.ltb_spec (len (concat ws) + bs) n).
      + destruct (symMerge_run d (concat ws) d1 last [] (len (concat ws)) (len (concat ws) + bs) n) as (d2&w&->&Ev2&Hw&Hq2); try done; try lia; [by rewrite app_nil_r|].
        exists d2. split; [done|]. rewrite Ev2, app_nil_r, Ev. split; [|by rewrite Hq2]. exists ws, w. repeat split; try done.
        unfold len in *. rewrite <- (Permutation_length (proj1 Hq2)), length_app. lia.
      + exists d. split; [done|]. split; [|done]. pose proof (len_nonneg last). assert (last = []) as -> by (apply len_0; lia). rewrite app_nil_r in Ev.
        exists ws, d1. repeat split; try done. lia. }
  destruct Hend as (d2&->&Hb2&Hq2). cbn [mbind res_bind]. rewrite Z.mul_comm.
  destruct (IH d2 (2 * bs) n) as (d3&->&Hs3&Hq3); try done; try lia.
  { rewrite En. unfold len. by rewrite (Permutation_length (proj1 Hq)), (Permutation_length (proj1 Hq2)). }
  exists d3. split; [done|]. split; [done|]. by rewrite Hq, Hq2.
Qed.
Lemma Stable_run data : len (view data) < 2 ^ 62 → ∃ data', Stable data = Ok data' ∧ srt (view data') ∧ steq (view data) (view data').
Proof.
  intros Hn. unfold Stable, stable. rewrite (Len_view data). set (n := len (view data)) in *. pose proof (len_nonneg (view data)) as Hn0. fold n in Hn0.
  destruct (blocks_loop_run (S (Z.to_nat n)) data [] (view data) 20 0 n) as (d&ds&rest&Er&Ev&Hds&Hr&Hq); try done; try lia.
  rewrite Z.add_0_l in Er. rewrite Er. cbn [mbind res_bind].
  assert (En : n = len (view d)) by (unfold n, len; by rewrite (Permutation_length (proj1 Hq))).
  destruct (insertionSort_run d (concat ds) rest [] (len (concat ds)) n) as (d2&w&->&Ev2&Hw&Hq2); [by rewrite app_nil_r|done|rewrite En, Ev, len_app; lia|].
  cbn [mbind res_bind]. rewrite app_nil_r in Ev2. assert (Hq3 : steq (view d) (view d2)) by (by rewrite Ev, Ev2, Hq2).
  destruct (stable_loop_run (S (Z.to_nat n)) d2 20 n) as (d3&->&Hs3&Hq4); try done; try lia.
  - rewrite En. unfold len. by rewrite (Permutation_length (proj1 Hq3)).
  - exists ds, w. repeat split; try done. unfold len in *. rewrite <- (Permutation_length (proj1 Hq2)). done.
  - exists d3. split; [done|]. split; [done|]. by rewrite Hq, Hq3.
Qed.
End stable.
