(* ===== verification/SortQuick.v ===== *)
(** * package sort: positions, partitions, heaps and pdqsort *)
From stdpp Require Import sorting.
From S2P Require Import Prelude SortOps SortSpec.

(** A computation that ends without error or panic, in a result with [Q]. *)
Definition returns {X} (r : res X) (Q : X → Prop) : Prop := ∃ x, r = Ok x ∧ Q x.
Lemma returns_ok {X} (x : X) (Q : X → Prop) : Q x → returns (Ok x) Q.
Proof. intros. by exists x. Qed.
Lemma returns_bind {X Y} (r : res X) (k : X → res Y) (P : X → Prop) (Q : Y → Prop) :
  returns r P → (∀ x, P x → returns (k x) Q) → returns (x ← r; k x) Q.
Proof. intros (x&->&Hx) Hk. cbn. by apply Hk. Qed.
Lemma returns_mono {X} (r : res X) (P Q : X → Prop) : returns r P → (∀ x, P x → Q x) → returns r Q.
Proof. intros (x&->&Hx) Hk. exists x. auto. Qed.
Lemma returns_eq {X Y} (r : res X) (x : X) (k : X → res Y) (Q : Y → Prop) : r = Ok x → returns (k x) Q → returns (x ← r; k x) Q.
Proof. by intros ->. Qed.

Section quick.
Context {D A : Type} `{Interface D} {lt : A → A → bool} `{!StrictWeak lt, !Sortable D A lt, !Inhabited A}.
Implicit Types (data : D).
Abbreviation le := (le lt).
Abbreviation srt := (StronglySorted le).

(** ** Elements by position, and rearrangements of a range *)
Definition el data (k : Z) : A := view data !!! Z.to_nat k.
Definition size data : Z := len (view data).
Definition pin (a b : Z) data data' : Prop :=
  take (Z.to_nat a) (view data) = take (Z.to_nat a) (view data') ∧
  drop (Z.to_nat b) (view data) = drop (Z.to_nat b) (view data') ∧ view data ≡ₚ view data'.
Definition sorted (a b : Z) data : Prop := ∀ i j, a <= i → i < j → j < b → le (el data i) (el data j).

Lemma pin_refl a b data : pin a b data data.
Proof. done. Qed.
Lemma pin_trans a b d1 d2 d3 : pin a b d1 d2 → pin a b d2 d3 → pin a b d1 d3.
Proof. intros (?&?&?) (?&?&?). split; [congruence|]. split; [congruence|]. by etrans. Qed.
Lemma pin_widen a b a' b' d1 d2 : a' <= a → b <= b' → pin a b d1 d2 → pin a' b' d1 d2.
Proof.
  intros Ha Hb (E1&E2&HP). split; [|split; [|done]].
  - apply (f_equal (take (Z.to_nat a'))) in E1. rewrite !take_take in E1. replace (Z.to_nat a' `min` Z.to_nat a)%nat with (Z.to_nat a') in E1 by lia. done.
  - apply (f_equal (drop (Z.to_nat b' - Z.to_nat b))) in E2. rewrite !drop_drop in E2. replace (Z.to_nat b + (Z.to_nat b' - Z.to_nat b))%nat with (Z.to_nat b') in E2 by lia. done.
Qed.
Lemma pin_size a b d1 d2 : pin a b d1 d2 → size d2 = size d1.
Proof. intros (_&_&HP). unfold size, len. by rewrite HP. Qed.
Lemma pin_out a b d1 d2 k : pin a b d1 d2 → 0 <= k → k < a ∨ b <= k → el d2 k = el d1 k.
Proof.
  intros (E1&E2&_) H0 Hk. unfold el. rewrite !list_lookup_total_alt. f_equal. destruct (decide (k < a)) as [Ha|Ha].
  - rewrite <- (lookup_take_lt (view d2) (Z.to_nat a)), <- (lookup_take_lt (view d1) (Z.to_nat a)) by lia. by rewrite E1.
  - replace (Z.to_nat k) with (Z.to_nat b + (Z.to_nat k - Z.to_nat b))%nat by lia. rewrite <- !lookup_drop. by rewrite E2.
Qed.
(** The range taken apart. *)
Lemma pin_parts a b d1 d2 : 0 <= a <= b → b <= size d1 → pin a b d1 d2 →
  ∃ p u u' q, view d1 = p ++ u ++ q ∧ view d2 = p ++ u' ++ q ∧ u ≡ₚ u' ∧ len p = a ∧ len u = b - a ∧ len u' = b - a.
Proof.
  intros Ha Hb (E1&E2&HP). destruct (list_split (view d1) a) as (p&r&Er&Hp); [unfold size in Hb; lia|].
  destruct (list_split r (b - a)) as (u&q&->&Hu); [unfold size in Hb; rewrite Er, len_app in Hb; lia|].
  assert (Hpa : Z.to_nat a = length p) by (unfold len in Hp; lia). assert (Hpu : Z.to_nat b = length (p ++ u)) by (rewrite length_app; unfold len in *; lia).
  assert (Et : take (Z.to_nat a) (view d2) = p) by (by rewrite <- E1, Er, Hpa, take_app_length).
  assert (Eq : drop (Z.to_nat b) (view d2) = q) by (by rewrite <- E2, Er, Hpu, app_assoc, drop_app_length).
  assert (Ev : view d2 = p ++ take (Z.to_nat b - Z.to_nat a) (drop (Z.to_nat a) (view d2)) ++ q).
  { rewrite <- (take_drop (Z.to_nat a) (view d2)) at 1. rewrite Et. f_equal. rewrite <- (take_drop (Z.to_nat b - Z.to_nat a) (drop _ _)) at 1. f_equal.
    rewrite drop_drop. replace (Z.to_nat a + (Z.to_nat b - Z.to_nat a))%nat with (Z.to_nat b) by lia. done. }
  set (u' := take _ _) in Ev. assert (HP' : u ≡ₚ u') by (rewrite Er, Ev in HP; by apply Permutation_app_inv_l, Permutation_app_inv_r in HP).
  exists p, u, u', q. repeat split; try done. unfold len in *. rewrite <- (Permutation_length HP'). done.
Qed.
Lemma el_app p u q data k : view data = p ++ u ++ q → len p <= k < len p + len u → el data k = u !!! Z.to_nat (k - len p).
Proof.
  intros E Hk. unfold el. rewrite E. pose proof (len_nonneg p). unfold len in *. rewrite lookup_total_app_r by lia. rewrite lookup_total_app_l by lia. f_equal. lia.
Qed.
Lemma pin_in a b d1 d2 k : 0 <= a → b <= size d1 → pin a b d1 d2 → a <= k < b → ∃ k', a <= k' < b ∧ el d2 k = el d1 k'.
Proof.
  intros Ha Hb HP Hk. destruct (pin_parts a b d1 d2) as (p&u&u'&q&E1&E2&Hu&Hp&Hl&Hl'); [lia|done|done|].
  rewrite (el_app p u' q) by (done || lia). destruct (lookup_lt_is_Some_2 u' (Z.to_nat (k - len p))) as [x Hx]; [unfold len in *; lia|].
  rewrite (list_lookup_total_correct _ _ _ Hx). apply list_elem_of_lookup_2 in Hx. rewrite <- Hu in Hx. apply list_elem_of_lookup in Hx as [n Hn].
  pose proof (lookup_lt_Some _ _ _ Hn). exists (a + Z.of_nat n). unfold len in Hl. split; [lia|].
  rewrite (el_app p u q) by (done || unfold len in *; lia). replace (Z.to_nat (a + Z.of_nat n - len p)) with n by lia. by rewrite (list_lookup_total_correct _ _ _ Hn).
Qed.
(** A bound on all of a range is kept. *)
Lemma pin_all (P : A → Prop) a b d1 d2 : 0 <= a → b <= size d1 → pin a b d1 d2 → (∀ k, a <= k < b → P (el d1 k)) → ∀ k, a <= k < b → P (el d2 k).
Proof. intros Ha Hb HP HQ k Hk. destruct (pin_in a b d1 d2 k) as (k'&Hk'&->); auto. Qed.

(** ** The methods by position *)
Lemma el_lookup data k : 0 <= k < size data → view data !! Z.to_nat k = Some (el data k).
Proof. intros Hk. unfold el. apply list_lookup_lookup_total_lt. unfold size, len in Hk. lia. Qed.
Lemma Less_el data i j : 0 <= i < size data → 0 <= j < size data → Less data i j = Ok (lt (el data i) (el data j)).
Proof. intros Hi Hj. apply Less_view; try lia; by apply el_lookup. Qed.
Lemma Swap_el data a b i j : 0 <= a → b <= size data → a <= i < b → a <= j < b →
  returns (Swap data i j) (λ data', pin a b data data' ∧ el data' i = el data j ∧ el data' j = el data i ∧
    ∀ k, 0 <= k → k ≠ i → k ≠ j → el data' k = el data k).
Proof.
  intros Ha Hb Hi Hj. destruct (Swap_view data i j (el data i) (el data j)) as (d&Ed&Ev); try lia; try (apply el_lookup; lia).
  exists d. split; [done|]. assert (Hs : (Z.to_nat i < length (view data))%nat ∧ (Z.to_nat j < length (view data))%nat) by (unfold size, len in Hb; lia).
  destruct Hs as [Hsi Hsj]. split; [split; [|split]|].
  - rewrite Ev, take_insert_ge, take_insert_ge by lia. done.
  - rewrite Ev, drop_insert_lt, drop_insert_lt by lia. done.
  - rewrite Ev. symmetry. apply (Permutation_insert_swap (view data) (Z.to_nat j) (Z.to_nat i)); apply el_lookup; lia.
  - unfold el. rewrite Ev. split; [by rewrite list_lookup_total_insert_eq by (rewrite length_insert; lia)|]. split.
    + destruct (decide (i = j)) as [->|Hne]; [by rewrite list_lookup_total_insert_eq by (rewrite length_insert; lia)|].
      rewrite list_lookup_total_insert_ne, list_lookup_total_insert_eq by lia. done.
    + intros k Hk Hki Hkj. rewrite !list_lookup_total_insert_ne by lia. done.
Qed.

(** ** Sorted ranges *)
Lemma srt_lookup u : srt u ↔ ∀ i j x y, (i < j)%nat → u !! i = Some x → u !! j = Some y → le x y.
Proof.
  induction u as [|z u IH].
  - split; [intros _ i j x y _ Hi; done|constructor].
  - rewrite StronglySorted_cons, IH, list.Forall_forall. split.
    + intros [Hz Hu] [|i] [|j] x y Hij Hi Hj; try lia; cbn in Hi, Hj; [injection Hi as <-; apply Hz; by eapply list_elem_of_lookup_2|].
      eapply (Hu i j); by (lia || done).
    + intros Hl. split; [|intros i j x y Hij Hi Hj; by apply (Hl (S i) (S j)); [lia| |]].
      intros x (i&Hi)%list_elem_of_lookup. apply (Hl 0%nat (S i)); by (lia || done).
Qed.
Lemma sorted_srt data p u q a b : view data = p ++ u ++ q → a = len p → b = a + len u → sorted a b data ↔ srt u.
Proof.
  intros E Ea Eb. pose proof (len_nonneg p). rewrite srt_lookup. split.
  - intros Hs i j x y Hij Hi Hj. pose proof (lookup_lt_Some _ _ _ Hj). specialize (Hs (a + Z.of_nat i) (a + Z.of_nat j)).
    rewrite !(el_app p u q) in Hs by (done || unfold len in *; lia). replace (Z.to_nat (a + Z.of_nat i - len p)) with i in Hs by lia.
    replace (Z.to_nat (a + Z.of_nat j - len p)) with j in Hs by lia. rewrite (list_lookup_total_correct _ _ _ Hi), (list_lookup_total_correct _ _ _ Hj) in Hs.
    apply Hs; unfold len in *; lia.
  - intros Hl i j Hai Hij Hjb. rewrite !(el_app p u q) by (done || lia). apply (Hl (Z.to_nat (i - len p)) (Z.to_nat (j - len p))); [lia| |];
      apply list_lookup_lookup_total_lt; unfold len in *; lia.
Qed.
Lemma sorted_join a m b data : sorted a m data → sorted m b data → (∀ i j, a <= i < m → m <= j < b → le (el data i) (el data j)) → sorted a b data.
Proof.
  intros H1 H2 H3 i j Hi Hij Hj. destruct (decide (j < m)); [by apply H1|]. destruct (decide (i < m)); [apply H3; lia|apply H2; lia].
Qed.
Lemma sorted_out a b data data' : 0 <= a → (∀ k, a <= k < b → el data' k = el data k) → sorted a b data → sorted a b data'.
Proof. intros Ha He Hs i j Hi Hij Hj. rewrite !He by lia. by apply Hs. Qed.
Lemma sorted_short a b data : b <= a + 1 → sorted a b data.
Proof. intros Hb i j ???. lia. Qed.
(** A range whose neighbours are in order is sorted. *)
Lemma sorted_adjacent a b data : (∀ k, a < k < b → le (el data (k - 1)) (el data k)) → sorted a b data.
Proof.
  intros Hk i j Hi Hij Hj. assert (Hn : ∀ n, i + 1 + Z.of_nat n < b → le (el data i) (el data (i + 1 + Z.of_nat n))).
  { induction n as [|n IH]; intros Hlt.
    - rewrite Z.add_0_r in *. specialize (Hk (i + 1)). replace (i + 1 - 1) with i in Hk by lia. apply Hk. lia.
    - etrans; [apply IH; lia|]. specialize (Hk (i + 1 + Z.of_nat (S n))). replace (i + 1 + Z.of_nat (S n) - 1) with (i + 1 + Z.of_nat n) in Hk by lia. apply Hk. lia. }
  specialize (Hn (Z.to_nat (j - i - 1))). replace (i + 1 + Z.of_nat (Z.to_nat (j - i - 1))) with j in Hn by lia. by apply Hn.
Qed.
Lemma parts data a b : 0 <= a <= b → b <= size data → ∃ p u q, view data = p ++ u ++ q ∧ len p = a ∧ len u = b - a.
Proof. intros Ha Hb. destruct (pin_parts a b data data Ha Hb (pin_refl a b data)) as (p&u&_&q&E&_&_&Hp&Hu&_). by exists p, u, q. Qed.
Lemma pin_of_parts a b d1 d2 p u u' q : view d1 = p ++ u ++ q → view d2 = p ++ u' ++ q → u ≡ₚ u' → len p = a → len u = b - a → pin a b d1 d2.
Proof.
  intros E1 E2 Hu Hp Hl. pose proof (len_nonneg p). pose proof (len_nonneg u). assert (Hl' : length u = length u') by (by rewrite Hu). unfold pin. rewrite E1, E2.
  assert (Hpa : Z.to_nat a = length p) by (unfold len in *; lia). rewrite Hpa, !take_app_length. split; [done|]. split; [|by rewrite Hu].
  assert (Hb : Z.to_nat b = length (p ++ u)) by (rewrite length_app; unfold len in *; lia).
  rewrite !app_assoc, Hb, drop_app_length. rewrite length_app, Hl', <- length_app. by rewrite drop_app_length.
Qed.
Lemma insertionSort_el data a b : 0 <= a <= b → b <= size data → returns (insertionSort data a b) (λ d, pin a b data d ∧ sorted a b d).
Proof.
  intros Ha Hb. destruct (parts data a b Ha Hb) as (p&u&q&E&Hp&Hu). destruct (insertionSort_run data p u q a b E) as (d&w&Ed&Ev&Hw&Hq); [done|lia|].
  exists d. split; [done|]. pose proof (proj1 Hq) as HP. split; [by eapply pin_of_parts|].
  assert (Hlw : len w = len u) by (unfold len; by rewrite (Permutation_length HP)). apply (sorted_srt d p w q a b Ev); [done|lia|done].
Qed.

(** ** Partitioning *)
Lemma scan_up_spec (c : Z → res bool) (f : Z → bool) : ∀ fuel i j, (∀ k, i <= k <= j → c k = Ok (f k)) → i <= j + 1 → j - i + 1 < Z.of_nat fuel →
  returns (scan_up fuel c i j) (λ r, i <= r <= j + 1 ∧ (∀ k, i <= k < r → f k = true) ∧ (r <= j → f r = false)).
Proof.
  induction fuel as [|fuel IH]; intros i j Hc Hij Hf; [lia|]. cbn [scan_up]. destruct (Z.leb_spec i j) as [Hle|Hgt]; cycle 1.
  { apply returns_ok. split; [lia|]. split; intros; lia. }
  rewrite Hc by lia. cbn [mbind res_bind]. destruct (f i) eqn:Ei.
  - eapply returns_mono; [apply (IH (i + 1) j); [intros; apply Hc; lia|lia|lia]|]. intros r (Hr&Ht&Hfl). split; [lia|]. split; [|done].
    intros k Hk. destruct (decide (k = i)) as [->|]; [done|]. apply Ht. lia.
  - apply returns_ok. split; [lia|]. split; [intros; lia|done].
Qed.
Lemma scan_down_spec (c : Z → res bool) (f : Z → bool) : ∀ fuel i j, (∀ k, i <= k <= j → c k = Ok (f k)) → i <= j + 1 → j - i + 1 < Z.of_nat fuel →
  returns (scan_down fuel c i j) (λ r, i - 1 <= r <= j ∧ (∀ k, r < k <= j → f k = true) ∧ (i <= r → f r = false)).
Proof.
  induction fuel as [|fuel IH]; intros i j Hc Hij Hf; [lia|]. cbn [scan_down]. destruct (Z.leb_spec i j) as [Hle|Hgt]; cycle 1.
  { apply returns_ok. split; [lia|]. split; intros; lia. }
  rewrite Hc by lia. cbn [mbind res_bind]. destruct (f j) eqn:Ei.
  - eapply returns_mono; [apply (IH i (j - 1)); [intros; apply Hc; lia|lia|lia]|]. intros r (Hr&Ht&Hfl). split; [lia|]. split; [|done].
    intros k Hk. destruct (decide (k = j)) as [->|]; [done|]. apply Ht. lia.
  - apply returns_ok. split; [lia|]. split; [intros; lia|done].
Qed.
(** One pair of scans: all before [i] pass the test, none after [j] does, and
    either they have met or both stopped at an element to exchange. *)
Lemma scan_spec up down (f : Z → bool) i j : (∀ k, i <= k <= j → up k = Ok (f k)) → (∀ k, i <= k <= j → down k = Ok (negb (f k))) → i <= j + 1 →
  returns (scan up down i j) (λ '(i', j'), i <= i' ∧ j' <= j ∧ (∀ k, i <= k < i' → f k = true) ∧ (∀ k, j' < k <= j → f k = false) ∧
    (i' = j' + 1 ∨ i' < j' ∧ f i' = false ∧ f j' = true)).
Proof.
  intros Hu Hd Hij. unfold scan. eapply returns_bind; [apply (scan_up_spec up f); [done|done|lia]|]. cbn beta. intros i' (Hi&Ht&Hs).
  eapply returns_bind; [apply (scan_down_spec down (λ k, negb (f k))); [intros; apply Hd; lia|lia|lia]|]. cbn beta. intros j' (Hj&Ht'&Hs').
  apply returns_ok. split; [lia|]. split; [lia|]. split; [done|]. split; [intros k Hk; apply negb_true_iff, Ht'; lia|].
  destruct (decide (i' = j' + 1)) as [->|Hne]; [by left|right].
  assert (Hf : f i' = false) by (apply Hs; lia). assert (Ht2 : f j' = true) by (apply negb_false_iff, Hs'; lia).
  split; [|done]. destruct (decide (i' = j')) as [->|]; [congruence|lia].
Qed.
Section partition_loop.
Context (up down : D → Z → res bool) (U : A → bool) (OK : D → Prop) (lo hi : Z).
Hypothesis lo_nonneg : 0 <= lo.
Hypothesis OK_size : ∀ d, OK d → hi <= size d.
Hypothesis OK_pin : ∀ d d', OK d → pin lo hi d d' → OK d'.
Hypothesis OK_test : ∀ d k, OK d → lo <= k < hi → up d k = Ok (U (el d k)) ∧ down d k = Ok (negb (U (el d k))).
Definition split_at (d : D) (i j : Z) : Prop :=
  lo <= i ∧ j < hi ∧ i <= j + 1 ∧ (∀ k, lo <= k < i → U (el d k) = true) ∧ (∀ k, j < k < hi → U (el d k) = false).
Lemma scan_split d i j : OK d → split_at d i j → returns (scan (up d) (down d) i j) (λ '(i', j'), (split_at d i' j' ∧ i' = j' + 1) ∨
    i <= i' ∧ j' <= j ∧ i' < j' ∧ lo <= i' ∧ j' < hi ∧ U (el d i') = false ∧ U (el d j') = true ∧
    (∀ k, lo <= k < i' → U (el d k) = true) ∧ (∀ k, j' < k < hi → U (el d k) = false)).
Proof.
  intros HO (H1&H2&H3&Hl&Hr). eapply returns_mono; [apply (scan_spec _ _ (λ k, U (el d k))); [intros k Hk; apply OK_test; [done|lia]..|done]|].
  intros [i' j'] (Hi&Hj&Ht&Hf&He). assert (Hl' : ∀ k, lo <= k < i' → U (el d k) = true).
  { intros k Hk. destruct (decide (k < i)); [apply Hl; lia|apply Ht; lia]. }
  assert (Hr' : ∀ k, j' < k < hi → U (el d k) = false).
  { intros k Hk. destruct (decide (j < k)); [apply Hr; lia|apply Hf; lia]. }
  destruct He as [He|(He&Hf'&Ht')]; [left; split; [|done]; repeat split; try done; lia|right; repeat split; try done; lia].
Qed.
(** Exchanging the two elements the scans stopped at. *)
Lemma swap_split d i j : OK d → lo <= i → i < j → j < hi → U (el d i) = false → U (el d j) = true →
  (∀ k, lo <= k < i → U (el d k) = true) → (∀ k, j < k < hi → U (el d k) = false) →
  returns (Swap d i j) (λ d', pin lo hi d d' ∧ OK d' ∧ split_at d' (i + 1) (j - 1)).
Proof.
  intros HO H1 H2 H3 Hi Hj Hl Hr. eapply returns_mono; [apply (Swap_el d lo hi i j); [done|by apply OK_size|lia|lia]|]. intros d' (HP&E1&E2&E3).
  split; [done|]. split; [by eapply OK_pin|]. split; [lia|]. split; [lia|]. split; [lia|]. split; intros k Hk.
  - destruct (decide (k = i)) as [->|]; [by rewrite E1|]. rewrite E3 by lia. apply Hl. lia.
  - destruct (decide (k = j)) as [->|]; [by rewrite E2|]. rewrite E3 by lia. apply Hr. lia.
Qed.
Lemma partition_loop_spec : ∀ fuel d i j, OK d → split_at d i j → j - i + 2 <= Z.of_nat fuel → (0 < fuel)%nat →
  returns (partition_loop fuel up down d i j) (λ '(d', i', j'), pin lo hi d d' ∧ OK d' ∧ split_at d' i' j' ∧ i' = j' + 1).
Proof.
  induction fuel as [|fuel IH]; intros d i j HO Hs Hf H0; [lia|]. cbn [partition_loop].
  eapply returns_bind; [by apply scan_split|]. intros [i' j'] [[Hs' Ee]|(H1&H2&H3&H4&H5&H6&H7&H8&H9)].
  - rewrite Z.gtb_ltb, (proj2 (Z.ltb_lt j' i')) by lia. apply returns_ok. split; [apply pin_refl|]. done.
  - rewrite Z.gtb_ltb, (proj2 (Z.ltb_ge j' i')) by lia. eapply returns_bind; [by apply swap_split|]. intros d' (HP&HO'&Hs').
    eapply returns_mono; [apply IH; [done|done|lia|]|].
    { destruct Hs as (?&?&?&_). lia. }
    intros [[d2 i2] j2] (HP'&HO2&Hs2&He). split; [by eapply pin_trans|]. done.
Qed.
End partition_loop.

(** The tests compare with the pivot, which stays at [a]. *)
Definition pivot_at (a b : Z) (x : A) (d : D) : Prop := b <= size d ∧ el d a = x.
Lemma pivot_at_pin a b x d d' : 0 <= a → pivot_at a b x d → pin (a + 1) b d d' → pivot_at a b x d'.
Proof. intros Ha [H1 H2] HP. split; [by rewrite (pin_size _ _ _ _ HP)|]. rewrite (pin_out _ _ _ _ a HP); [done|lia|lia]. Qed.
Lemma less_tests a b x d k : 0 <= a → pivot_at a b x d → a + 1 <= k < b →
  Less d k a = Ok (lt (el d k) x) ∧ Less d a k = Ok (lt x (el d k)).
Proof. intros Ha [H1 H2] Hk. rewrite !Less_el by lia. by rewrite H2. Qed.
Lemma split_start U a b d : 0 <= a → a < b → split_at U (a + 1) b d (a + 1) (b - 1).
Proof. intros Ha Hab. split; [lia|]. split; [lia|]. split; [lia|]. split; intros; lia. Qed.
(** Putting the pivot where the two parts meet. *)
Lemma place_pivot U a b d i j : 0 <= a → a < b → b <= size d → split_at U (a + 1) b d i j → i = j + 1 → U (el d a) = false →
  returns (Swap d j a) (λ d', pin a b d d' ∧ a <= j < b ∧ el d' j = el d a ∧
    (∀ k, a <= k < j → U (el d' k) = true) ∧ (∀ k, j < k < b → U (el d' k) = false)).
Proof.
  intros Ha Hab Hb (H1&H2&H3&Hl&Hr) -> HU. eapply returns_mono; [apply (Swap_el d a b j a); lia|]. intros d' (HP&E1&E2&E3).
  split; [done|]. split; [lia|]. split; [done|]. split; intros k Hk.
  - destruct (decide (k = a)) as [->|]; [rewrite E2; apply Hl; lia|]. rewrite E3 by lia. apply Hl. lia.
  - rewrite E3 by lia. apply Hr. lia.
Qed.
Definition partitioned (a b mid : Z) (d : D) : Prop :=
  a <= mid < b ∧ (∀ k, a <= k < mid → lt (el d k) (el d mid) = true) ∧ (∀ k, mid < k < b → lt (el d k) (el d mid) = false).
Lemma partition_spec d a b pivot : 0 <= a → a <= pivot < b → b <= size d →
  returns (partition d a b pivot) (λ '(d', mid, _), pin a b d d' ∧ partitioned a b mid d').
Proof.
  intros Ha Hp Hb. unfold partition. eapply returns_bind; [apply (Swap_el d a b a pivot); lia|]. intros d1 (HP1&E1&E2&_). cbn beta zeta.
  set (x := el d pivot) in *. set (U := λ y, lt y x). assert (Hs1 : size d1 = size d) by (by eapply pin_size).
  assert (HO1 : pivot_at a b x d1) by (split; [lia|done]).
  assert (Htest : ∀ d k, pivot_at a b x d → a + 1 <= k < b → Less d k a = Ok (U (el d k)) ∧ not (λ j, Less d j a) k = Ok (negb (U (el d k)))).
  { intros d0 k HO Hk. destruct (less_tests a b x d0 k Ha HO Hk) as [E _]. split; [done|]. by apply (not_ok (λ j, Less d0 j a)). }
  assert (Hpin : ∀ d d', pivot_at a b x d → pin (a + 1) b d d' → pivot_at a b x d') by (intros; by eapply pivot_at_pin).
  assert (Hsz : ∀ d, pivot_at a b x d → b <= size d) by (by intros ? []).
  assert (Hend : ∀ d2 i j (flag : bool), pin a b d d2 → pivot_at a b x d2 → split_at U (a + 1) b d2 i j → i = j + 1 →
    returns (d' ← Swap d2 j a; Ok (d', j, flag)) (λ '(d', mid, _), pin a b d d' ∧ partitioned a b mid d')).
  { intros d2 i j flag HP2 [HO2 HO2'] Hs2 He. eapply returns_bind; [eapply (place_pivot U); try done; try lia; unfold U; rewrite HO2'; apply lt_irrefl|].
    intros d3 (HP3&Hj&Ej&Hl&Hr). apply returns_ok. split; [by eapply pin_trans|]. split; [done|]. rewrite Ej, HO2'. done. }
  eapply returns_bind; [eapply (scan_split (λ d i, Less d i a) (λ d, not (λ j, Less d j a)) U (pivot_at a b x) (a + 1) b); try done; by apply split_start; lia|].
  intros [i j] [[Hs He]|(H1&H2&H3&H4&H5&H6&H7&H8&H9)].
  - rewrite Z.gtb_ltb, (proj2 (Z.ltb_lt j i)) by lia. by eapply (Hend d1 i j).
  - rewrite Z.gtb_ltb, (proj2 (Z.ltb_ge j i)) by lia.
    eapply returns_bind; [eapply (swap_split U (pivot_at a b x) (a + 1) b); try done; lia|]. intros d2 (HP2&HO2&Hs2).
    eapply returns_bind; [eapply (partition_loop_spec (λ d i, Less d i a) (λ d, not (λ j, Less d j a)) U (pivot_at a b x) (a + 1) b); try done; lia|].
    intros [[d3 i3] j3] (HP3&HO3&Hs3&He). eapply Hend; try done. eapply pin_trans; [exact HP1|].
    eapply pin_trans; (eapply pin_widen; [| |eassumption]; lia).
Qed.
(** No element is less than the pivot, and those up to [mid] equal it. *)
Lemma partitionEqual_spec d a b pivot : 0 <= a → a <= pivot < b → b <= size d → (∀ k, a <= k < b → le (el d pivot) (el d k)) →
  returns (partitionEqual d a b pivot) (λ '(d', mid), pin a b d d' ∧ a < mid <= b ∧
    (∀ i j, a <= i < mid → a <= j < b → le (el d' i) (el d' j)) ∧ sorted a mid d').
Proof.
  intros Ha Hp Hb Hmin. unfold partitionEqual. eapply returns_bind; [apply (Swap_el d a b a pivot); lia|]. intros d1 (HP1&E1&E2&_).
  set (x := el d pivot) in *. set (U := λ y, negb (lt x y)). assert (Hs1 : size d1 = size d) by (by eapply pin_size).
  assert (HO1 : pivot_at a b x d1) by (split; [lia|done]).
  eapply returns_bind; [eapply (partition_loop_spec (λ d, not (Less d a)) (λ d, Less d a) U (pivot_at a b x) (a + 1) b); try done; try lia|].
  - by intros ? [].
  - intros; by eapply pivot_at_pin.
  - intros d0 k HO Hk. destruct (less_tests a b x d0 k Ha HO Hk) as [_ E]. unfold U. rewrite negb_involutive. split; [by apply not_ok|done].
  - apply split_start; lia.
  - intros [[d2 i] j] (HP2&[HO2 HO2']&(H1&H2&H3&Hl&Hr)&->). apply returns_ok. assert (HP : pin a b d d2).
    { eapply pin_trans; [exact HP1|]. eapply pin_widen; [| |exact HP2]; lia. }
    assert (Hx : ∀ k, a <= k < j + 1 → le (el d2 k) x).
    { intros k Hk. destruct (decide (k = a)) as [->|]; [rewrite HO2'; apply le_refl; done|]. specialize (Hl k ltac:(lia)). unfold U in Hl. by apply negb_true_iff in Hl. }
    assert (Hx' : ∀ k, a <= k < b → le x (el d2 k)) by (apply (pin_all (λ y, le x y) a b d d2); done).
    assert (Hall : ∀ i j0, a <= i < j + 1 → a <= j0 < b → le (el d2 i) (el d2 j0)) by (intros; etrans; [by apply Hx|by apply Hx']).
    split; [done|]. split; [lia|]. split; [done|]. intros i j0 ???. apply Hall; lia.
Qed.

(** ** Heap sort *)
Definition heap_at (d : D) (first hi k : Z) : Prop :=
  ∀ c, c = 2 * k + 1 ∨ c = 2 * k + 2 → c < hi → le (el d (first + c)) (el d (first + k)).
Definition heap (d : D) (first lo hi : Z) : Prop := ∀ k, lo <= k → heap_at d first hi k.
(** A heap but for [root], whose children are no greater than its parent. *)
Definition heap_but (d : D) (first lo hi root : Z) : Prop :=
  (∀ k, lo <= k → k ≠ root → heap_at d first hi k) ∧
  (∀ k c, lo <= k → root = 2 * k + 1 ∨ root = 2 * k + 2 → c = 2 * root + 1 ∨ c = 2 * root + 2 → c < hi → le (el d (first + c)) (el d (first + k))).
Lemma heap_swap d d' first lo hi root child : 0 <= first → 0 <= lo <= root → heap_but d first lo hi root →
  child = 2 * root + 1 ∨ child = 2 * root + 2 → child < hi →
  (∀ c, c = 2 * root + 1 ∨ c = 2 * root + 2 → c < hi → le (el d (first + c)) (el d (first + child))) →
  lt (el d (first + root)) (el d (first + child)) = true →
  el d' (first + root) = el d (first + child) → el d' (first + child) = el d (first + root) →
  (∀ k, 0 <= k → k ≠ first + root → k ≠ first + child → el d' k = el d k) → heap_but d' first lo hi child.
Proof.
  intros Hf Hlo [H1 H2] Hc Hch Hmax Hlt E1 E2 E3.
  assert (Eo : ∀ k, lo <= k → k ≠ root → k ≠ child → el d' (first + k) = el d (first + k)) by (intros; apply E3; lia).
  split.
  - intros k Hk Hkc c Hcc Hchi. destruct (decide (k = root)) as [->|Hkr].
    + rewrite E1. destruct (decide (c = child)) as [->|Hne]; [rewrite E2; by apply lt_le|]. rewrite Eo by lia. by apply Hmax.
    + rewrite (Eo k) by lia. destruct (decide (c = root)) as [->|Hcr]; [rewrite E1; apply (H2 k child); lia|].
      assert (c ≠ child) by lia. rewrite Eo by lia. apply (H1 k); lia.
  - intros k c Hk Hkc Hcc Hchi. assert (k = root) as -> by lia. rewrite E1, Eo by lia. apply (H1 child); lia.
Qed.
Lemma heap_done d first lo hi root : heap_but d first lo hi root → heap_at d first hi root → heap d first lo hi.
Proof. intros [H1 _] H2 k Hk. destruct (decide (k = root)) as [->|Hne]; [done|by apply H1]. Qed.
Lemma siftDown_spec : ∀ fuel d a lo hi root, 0 <= a → 0 <= lo <= root → hi <= size d - a → heap_but d a lo hi root → hi - root < Z.of_nat fuel →
  (0 < fuel)%nat → returns (siftDown_loop fuel d hi a root) (λ d', pin a (a + hi) d d' ∧ heap d' a lo hi).
Proof.
  induction fuel as [|fuel IH]; intros d a lo hi root Ha Hlo Hhi Hb Hf H0; [lia|]. cbn [siftDown_loop].
  rewrite Z.geb_leb. destruct (Z.leb_spec hi (2 * root + 1)) as [Hle|Hgt].
  { apply returns_ok. split; [apply pin_refl|]. apply (heap_done _ _ _ _ root Hb). intros c Hc Hch. lia. }
  set (c1 := 2 * root + 1). eapply (returns_bind _ _ (λ child, (child = c1 ∨ child = c1 + 1) ∧ child < hi ∧
    ∀ c, c = 2 * root + 1 ∨ c = 2 * root + 2 → c < hi → le (el d (a + c)) (el d (a + child)))).
  { destruct (Z.ltb_spec (c1 + 1) hi) as [H2|H2].
    - replace (a + c1 + 1) with (a + (c1 + 1)) by lia. rewrite Less_el by lia. cbn [mbind res_bind]. apply returns_ok.
      destruct (lt (el d (a + c1)) (el d (a + (c1 + 1)))) eqn:Elt.
      + split; [by right|]. split; [done|]. intros c [-> | ->] _; [by apply lt_le|]. replace (2 * root + 2) with (c1 + 1) by lia. by apply le_refl.
      + split; [by left|]. split; [lia|]. intros c [-> | ->] _; [by apply le_refl|]. replace (2 * root + 2) with (c1 + 1) by lia. exact Elt.
    - apply returns_ok. split; [by left|]. split; [lia|]. intros c [-> | ->] Hc; [by apply le_refl|lia]. }
  intros child (Hc&Hch&Hmax). rewrite Less_el by lia. cbn [mbind res_bind]. destruct (lt _ _) eqn:Elt; cbn [negb]; cycle 1.
  { apply returns_ok. split; [apply pin_refl|]. apply (heap_done _ _ _ _ root Hb). intros c Hcc Hchi. etrans; [by apply Hmax|]. exact Elt. }
  eapply returns_bind; [apply (Swap_el d a (a + hi) (a + root) (a + child)); lia|]. intros d1 (HP&E1&E2&E3).
  eapply returns_mono; [apply (IH d1 a lo hi child); try lia|].
  - rewrite (pin_size _ _ _ _ HP). lia.
  - apply (heap_swap d d1 a lo hi root child); try done; try lia.
  - intros d2 [HP2 Hh]. split; [by eapply pin_trans|done].
Qed.
Lemma heap_build_spec : ∀ n d a hi, 0 <= a → hi <= size d - a → heap d a (Z.of_nat n) hi →
  returns (heap_build n d hi a) (λ d', pin a (a + hi) d d' ∧ heap d' a 0 hi).
Proof.
  induction n as [|n IH]; intros d a hi Ha Hhi Hh; [by apply returns_ok|]. cbn [heap_build]. unfold siftDown.
  eapply returns_bind; [apply (siftDown_spec _ d a (Z.of_nat n) hi (Z.of_nat n)); try lia|].
  - split; [intros k Hk Hne; apply Hh; lia|]. intros k c Hk Hr. lia.
  - intros d1 [HP Hh1]. eapply returns_mono; [apply IH; [done|rewrite (pin_size _ _ _ _ HP); done|done]|]. intros d2 [HP2 Hh2]. split; [by eapply pin_trans|done].
Qed.
(** The first element of a heap is a greatest one. *)
Lemma heap_top d a hi : heap d a 0 hi → ∀ k, 0 <= k < hi → le (el d (a + k)) (el d (a + 0)).
Proof.
  intros Hh k Hk. assert (Hn : ∀ n k, 0 <= k < hi → k < Z.of_nat n → le (el d (a + k)) (el d (a + 0))).
  { induction n as [|n IH]; intros j Hj Hjn; [lia|]. destruct (decide (j = 0)) as [->|Hj0]; [by apply le_refl|].
    set (q := (j - 1) / 2). assert (Hq : 0 <= q ∧ (j = 2 * q + 1 ∨ j = 2 * q + 2)) by (unfold q; zwlia).
    etrans; [apply (Hh q ltac:(lia) j); lia|]. apply IH; lia. }
  apply (Hn (Z.to_nat (k + 1))); lia.
Qed.
Lemma heap_pop_spec : ∀ n d a hi, 0 <= a → a + hi <= size d → Z.of_nat n <= hi → heap d a 0 (Z.of_nat n) → sorted (a + Z.of_nat n) (a + hi) d →
  (∀ i j, 0 <= i < Z.of_nat n → Z.of_nat n <= j < hi → le (el d (a + i)) (el d (a + j))) →
  returns (heap_pop n d a) (λ d', pin a (a + Z.of_nat n) d d' ∧ sorted a (a + hi) d').
Proof.
  induction n as [|n IH]; intros d a hi Ha Hhi Hn Hh Hs Hle.
  { apply returns_ok. split; [apply pin_refl|]. by rewrite Z.add_0_r in Hs. }
  cbn [heap_pop]. set (m := Z.of_nat n). pose proof (heap_top _ _ _ Hh) as Htop.
  eapply returns_bind; [apply (Swap_el d a (a + Z.of_nat (S n)) a (a + m)); lia|]. intros d1 (HP1&E1&E2&E3). pose proof (pin_size _ _ _ _ HP1) as Hs1. unfold siftDown.
  eapply returns_bind; [apply (siftDown_spec _ d1 a 0 m 0); try lia|].
  { split; [|intros k c Hk Hr; lia]. intros k Hk Hk0 c Hc Hcm. rewrite !E3 by lia. apply (Hh k Hk); lia. }
  intros d2 [HP2 Hh2]. pose proof (pin_size _ _ _ _ HP2) as Hs2.
  assert (Hout : ∀ k, a + m < k < a + hi → el d2 k = el d k) by (intros k Hk; rewrite (pin_out _ _ _ _ k HP2), E3 by lia; done).
  assert (Em : el d2 (a + m) = el d (a + 0)) by (rewrite (pin_out _ _ _ _ (a + m) HP2), E2 by lia; f_equal; lia).
  assert (Hin : ∀ (P : A → Prop), (∀ k, 0 <= k <= m → P (el d (a + k))) → ∀ k, a <= k < a + m → P (el d2 k)).
  { intros P HP. apply (pin_all P a (a + m) d1 d2); [done|lia|done|]. intros k Hk.
    destruct (pin_in a (a + Z.of_nat (S n)) d d1 k) as (k'&Hk'&->); [done|lia|done|lia|]. replace k' with (a + (k' - a)) by lia. apply HP. lia. }
  eapply returns_mono; [apply (IH d2 a hi); try done; try lia|].
  - apply sorted_join with (m := a + m + 1); [apply sorted_short; lia| |].
    + intros i j Hi Hij Hj. rewrite !Hout by lia. apply Hs; lia.
    + intros i j Hi Hj. assert (i = a + m) as -> by lia. rewrite Em, Hout by lia. replace j with (a + (j - a)) by lia. apply Hle; lia.
  - intros i j Hi Hj. assert (Hall : ∀ k, 0 <= k <= m → le (el d (a + k)) (el d2 (a + j))); [|apply (Hin (λ y, le y (el d2 (a + j)))); [done|lia]].
    intros k Hk. destruct (decide (j = m)) as [->|Hjm]; [rewrite Em; apply Htop; lia|]. rewrite Hout by lia. apply Hle; lia.
  - intros d3 [HP3 Hs3]. split; [|done]. eapply pin_trans; [exact HP1|]. eapply pin_trans; (eapply pin_widen; [| |eassumption]; lia).
Qed.
Lemma heapSort_spec d a b : 0 <= a <= b → b <= size d → returns (heapSort d a b) (λ d', pin a b d d' ∧ sorted a b d').
Proof.
  intros Ha Hb. unfold heapSort. assert (Hq : 0 <= Z.quot (b - a - 1) 2 + 1 ∧ b - a <= 2 * (Z.quot (b - a - 1) 2 + 1) + 1).
  { destruct (decide (a = b)) as [E|Hne]; [rewrite E, Z.sub_diag; change (Z.quot (0 - 1) 2) with 0; lia|]. rewrite Z.quot_div_nonneg by lia. zwlia. }
  eapply returns_bind; [apply (heap_build_spec _ d a (b - a)); [lia|lia|intros k Hk c Hc Hch; lia]|]. intros d1 [HP1 Hh]. replace (a + (b - a)) with b in HP1 by lia.
  pose proof (pin_size _ _ _ _ HP1) as Hs1. replace (b - a) with (Z.of_nat (Z.to_nat (b - a))) in Hh by lia.
  eapply returns_mono; [apply (heap_pop_spec _ d1 a (b - a)); try done; try lia; apply sorted_short; lia|].
  intros d2 [HP2 Hs2]. replace (a + (b - a)) with b in Hs2 by lia. replace (a + Z.of_nat (Z.to_nat (b - a))) with b in HP2 by lia. split; [by eapply pin_trans|done].
Qed.

(** ** Preparing the range *)
Lemma break_loop_spec : ∀ n d a b random modulus idx, 0 <= a → b <= size d → 0 <= random → a <= idx → idx + Z.of_nat n <= b →
  0 < modulus <= 2 * (b - a) → modulus < 2 ^ 64 → (∃ k, 0 <= k ∧ modulus = 2 ^ k) →
  returns (break_loop n d a (b - a) random modulus idx) (pin a b d).
Proof.
  induction n as [|n IH]; intros d a b random modulus idx Ha Hb Hr Hi1 Hi2 Hm Hm64 Hpow; [by apply returns_ok|]. cbn [break_loop].
  set (r := xorshift_Next random). set (o := Z.land r _). assert (Hr' : 0 <= r).
  { unfold r, xorshift_Next, shl64, u64. repeat (apply Z.lxor_nonneg; split; intros _); try done; try (apply Z.shiftr_nonneg); repeat (apply Z.lxor_nonneg; split; intros _); try done; apply Z.mod_pos_bound; lia. }
  assert (Ho : 0 <= o < modulus).
  { destruct Hpow as (k&Hk&Ek). unfold o. rewrite u64_id by (unfold is_u64; lia). rewrite Ek, land_ones_mod by done. apply Z.mod_pos_bound. lia. }
  set (other := if o >=? b - a then o - (b - a) else o). assert (Hother : 0 <= other < b - a).
  { unfold other. rewrite Z.geb_leb. destruct (Z.leb_spec (b - a) o); lia. }
  eapply returns_bind; [apply (Swap_el d a b idx (a + other)); lia|]. intros d1 (HP&_).
  eapply returns_mono; [apply (IH d1 a b r modulus (idx + 1)); try done; try lia; by rewrite (pin_size _ _ _ _ HP)|]. intros d2 HP2. by eapply pin_trans.
Qed.
Lemma bits_Len_spec n : 0 < n < 2 ^ 62 → 0 < bits_Len n <= 62 ∧ 2 ^ (bits_Len n - 1) <= n < 2 ^ bits_Len n.
Proof.
  intros Hn. unfold bits_Len. rewrite (proj2 (Z.eqb_neq n 0)) by lia. pose proof (Z.log2_spec n ltac:(lia)) as Hl. pose proof (Z.log2_nonneg n).
  pose proof (Z.log2_lt_pow2 n 62 ltac:(lia)) as Hl2. replace (Z.log2 n + 1 - 1) with (Z.log2 n) by lia. replace (Z.succ (Z.log2 n)) with (Z.log2 n + 1) in Hl by lia. lia.
Qed.
Lemma breakPatterns_spec d a b : 0 <= a <= b → b <= size d → b < 2 ^ 62 → returns (breakPatterns d a b) (pin a b d).
Proof.
  intros Ha Hb H62. unfold breakPatterns. rewrite Z.geb_leb. destruct (Z.leb_spec 8 (b - a)) as [H8|H8]; [|by apply returns_ok].
  destruct (bits_Len_spec (b - a)) as [HL1 HL2]; [lia|]. assert (Em : nextPowerOfTwo (b - a) = 2 ^ bits_Len (b - a)).
  { unfold nextPowerOfTwo, shl64. rewrite Z.shiftl_mul_pow2, Z.mul_1_l by lia. apply u64_id. split; [lia|]. apply Z.pow_lt_mono_r; lia. }
  assert (Epow : 2 ^ bits_Len (b - a) = 2 * 2 ^ (bits_Len (b - a) - 1)).
  { rewrite <- Z.pow_succ_r by lia. f_equal. lia. }
  rewrite Em. apply break_loop_spec; try done; try lia; try zwlia. exists (bits_Len (b - a)). split; [lia|done].
Qed.
Lemma order2_spec d lo hi a b swaps : 0 <= lo → hi <= size d → lo <= a < hi → lo <= b < hi →
  returns (order2 d a b swaps) (λ '(x, y, _), lo <= x < hi ∧ lo <= y < hi).
Proof. intros Hlo Hhi Ha Hb. unfold order2. rewrite Less_el by lia. cbn [mbind res_bind]. destruct (lt _ _); by apply returns_ok. Qed.
Lemma median_spec d lo hi a b c swaps : 0 <= lo → hi <= size d → lo <= a < hi → lo <= b < hi → lo <= c < hi →
  returns (median d a b c swaps) (λ '(x, _), lo <= x < hi).
Proof.
  intros Hlo Hhi Ha Hb Hc. unfold median. eapply returns_bind; [by apply (order2_spec d lo hi)|]. intros [[a1 b1] s1] [Ha1 Hb1].
  eapply returns_bind; [by apply (order2_spec d lo hi)|]. intros [[b2 c2] s2] [Hb2 Hc2].
  eapply returns_bind; [by apply (order2_spec d lo hi)|]. intros [[a3 b3] s3] [Ha3 Hb3]. by apply returns_ok.
Qed.
Lemma choosePivot_spec d a b : 0 <= a < b → b <= size d → returns (choosePivot d a b) (λ '(p, _), a <= p < b).
Proof.
  intros Ha Hb. unfold choosePivot. set (l := b - a). rewrite !Z.geb_leb.
  eapply (returns_bind _ _ (λ '(j, _), a <= j < b)); [|intros [j swaps] Hj; by apply returns_ok].
  destruct (Z.leb_spec 8 l) as [H8|H8]; [|apply returns_ok; zwlia].
  assert (H2 : 2 <= l / 4 ∧ l / 4 * 4 <= l) by zwlia. eapply (returns_bind _ _ (λ '(i, j, k, _), a <= i < b ∧ a <= j < b ∧ a <= k < b)).
  - destruct (shortestNinther <=? l); [|apply returns_ok; lia].
    eapply returns_bind; [apply (median_spec d a b); lia|]. intros [i s1] Hi.
    eapply returns_bind; [apply (median_spec d a b); lia|]. intros [j s2] Hj.
    eapply returns_bind; [apply (median_spec d a b); lia|]. intros [k s3] Hk. by apply returns_ok.
  - intros [[[i j] k] s] (Hi&Hj&Hk). apply (median_spec d a b); lia.
Qed.
Lemma reverse_loop_spec : ∀ fuel d a b i j, 0 <= a → b <= size d → a <= i → j < b → j - i + 1 <= Z.of_nat fuel → (0 < fuel)%nat →
  returns (reverse_loop fuel d i j) (pin a b d).
Proof.
  induction fuel as [|fuel IH]; intros d a b i j Ha Hb Hi Hj Hf H0; [lia|]. cbn [reverse_loop]. destruct (Z.ltb_spec i j) as [Hij|]; [|by apply returns_ok].
  eapply returns_bind; [apply (Swap_el d a b i j); lia|]. intros d1 (HP&_).
  eapply returns_mono; [apply (IH d1 a b); try lia; by rewrite (pin_size _ _ _ _ HP)|]. intros d2 HP2. by eapply pin_trans.
Qed.
Lemma reverseRange_spec d a b : 0 <= a <= b → b <= size d → returns (reverseRange d a b) (pin a b d).
Proof. intros Ha Hb. apply reverse_loop_spec; lia. Qed.

(** ** Partial insertion sort
    The element before the range bounds it from below, which stops the
    insertions, whose loop runs on to the start of the collection. *)
Definition floor_at (a b : Z) (d : D) : Prop := 0 < a → ∀ k, a <= k < b → le (el d (a - 1)) (el d k).
Lemma floor_pin a b d d' : 0 <= a → b <= size d → pin a b d d' → floor_at a b d → floor_at a b d'.
Proof. intros Ha Hb HP Hf H0. rewrite (pin_out _ _ _ _ (a - 1) HP) by lia. apply (pin_all (λ y, le (el d (a - 1)) y) a b d d'); auto. Qed.
Lemma insert_loop_floor a b : ∀ fuel d j, 0 <= a → a <= j < b → b <= size d → floor_at a b d → insert_loop fuel d 0 j = insert_loop fuel d a j.
Proof.
  induction fuel as [|fuel IH]; intros d j Ha Hj Hb Hfl; [done|]. cbn [insert_loop]. rewrite !Z.gtb_ltb. destruct (Z.ltb_spec a j) as [Haj|Haj].
  - rewrite (proj2 (Z.ltb_lt 0 j)), Less_el by lia. cbn [mbind res_bind]. destruct (lt _ _); [|done].
    destruct (Swap_el d a b j (j - 1)) as (d1&->&HP&_); try lia. cbn [mbind res_bind]. apply IH; try lia; [by rewrite (pin_size _ _ _ _ HP)|by eapply floor_pin].
  - assert (j = a) as -> by lia. destruct (Z.ltb_spec 0 a) as [H0|]; [|done]. rewrite Less_el by lia. cbn [mbind res_bind].
    by rewrite (Hfl H0 a ltac:(lia) : lt (el d a) (el d (a - 1)) = false).
Qed.
(** The element at [j] goes to its place in the sorted part before it. *)
Lemma insert_loop_el d a j : 0 <= a <= j → j < size d → sorted a j d → ∀ fuel, j - a < Z.of_nat fuel →
  returns (insert_loop fuel d a j) (λ d', pin a (j + 1) d d' ∧ sorted a (j + 1) d').
Proof.
  intros Ha Hj Hs fuel Hf. destruct (parts d a (j + 1)) as (p&u&q&E&Hp&Hu); [lia|lia|]. destruct u as [|x u _] using rev_ind; [rewrite len_nil in Hu; lia|].
  rewrite len_app, len_cons, len_nil in Hu. rewrite <- app_assoc in E. cbn [app] in E.
  destruct (insert_loop_run u fuel d p x q a j E) as (d'&u1&u2&Ed&Ev&Eu&H1&H2); try done; try lia; [by apply (sorted_srt d p u (x :: q) a j E); [|lia|]|].
  exists d'. split; [done|]. assert (Ev' : view d' = p ++ (u1 ++ x :: u2) ++ q) by (by rewrite Ev, <- app_assoc).
  assert (HP : u ++ [x] ≡ₚ u1 ++ x :: u2) by (rewrite Eu, <- app_assoc; by rewrite (Permutation_app_comm u2)).
  assert (Hlu : len (u1 ++ x :: u2) = j + 1 - a) by (unfold len in *; rewrite <- (Permutation_length HP), length_app; cbn; lia). split.
  - eapply (pin_of_parts a (j + 1) d d' p (u ++ [x])); [by rewrite E, <- app_assoc|exact Ev'|done|done|rewrite len_app, len_cons, len_nil; lia].
  - apply (sorted_srt d' p _ q a (j + 1) Ev'); [done|lia|]. apply srt_insert; [rewrite <- Eu; by apply (sorted_srt d p u (x :: q) a j E); [|lia|]|done|].
    intros z Hz. by apply lt_le, H2.
Qed.
Lemma shift_right_spec : ∀ fuel d a b j, 0 <= a → b <= size d → a + 1 <= j → b - j < Z.of_nat fuel → (0 < fuel)%nat →
  returns (shift_right fuel d j b) (pin (j - 1) b d).
Proof.
  induction fuel as [|fuel IH]; intros d a b j Ha Hb Hj Hf H0; [lia|]. cbn [shift_right]. destruct (Z.ltb_spec j b) as [Hjb|]; [|by apply returns_ok].
  rewrite Less_el by lia. cbn [mbind res_bind]. destruct (negb _); [by apply returns_ok|].
  eapply returns_bind; [apply (Swap_el d (j - 1) b j (j - 1)); lia|]. intros d1 (HP&_).
  eapply returns_mono; [apply (IH d1 a b (j + 1)); try lia; by rewrite (pin_size _ _ _ _ HP)|]. intros d2 HP2. eapply pin_trans; [exact HP|].
  eapply pin_widen; [| |exact HP2]; lia.
Qed.
(** One out-of-order pair is put right: the range up to [i] stays sorted. *)
Lemma partial_step d a b i : 0 <= a → a + 1 <= i < b → b <= size d → floor_at a b d → sorted a i d →
  returns (d ← Swap d i (i - 1);
           d ← (if i - a >=? 2 then insert_loop (Z.to_nat i) d 0 (i - 1) else Ok d);
           if b - i >=? 2 then shift_right (Z.to_nat (b - i)) d (i + 1) b else Ok d)
    (λ d', pin a b d d' ∧ sorted a i d').
Proof.
  intros Ha Hi Hb Hfl Hs. eapply returns_bind; [apply (Swap_el d a b i (i - 1)); lia|]. intros d1 (HP1&_&_&E3). pose proof (pin_size _ _ _ _ HP1) as Hs1.
  eapply (returns_bind _ _ (λ d2, pin a i d1 d2 ∧ sorted a i d2)).
  - rewrite Z.geb_leb. destruct (Z.leb_spec 2 (i - a)) as [H2|H2]; [|apply returns_ok; split; [apply pin_refl|apply sorted_short; lia]].
    rewrite (insert_loop_floor a b) by (lia || by eapply floor_pin). assert (Hs1' : sorted a (i - 1) d1).
    { eapply sorted_out; [exact Ha|intros k Hk; apply E3; lia|]. intros x y ???. apply Hs; lia. }
    pose proof (insert_loop_el d1 a (i - 1) ltac:(lia) ltac:(lia) Hs1' (Z.to_nat i) ltac:(lia)) as Hins. by replace (i - 1 + 1) with i in Hins by lia.
  - intros d2 [HP2 Hs2]. pose proof (pin_size _ _ _ _ HP2) as Hsz2. assert (HP12 : pin a b d d2) by (eapply pin_trans; [exact HP1|]; eapply pin_widen; [| |exact HP2]; lia).
    rewrite Z.geb_leb. destruct (Z.leb_spec 2 (b - i)) as [H2|H2]; [|by apply returns_ok].
    eapply returns_mono; [apply (shift_right_spec _ d2 a b (i + 1)); lia|]. intros d3 HP3. replace (i + 1 - 1) with i in HP3 by lia. split.
    + eapply pin_trans; [exact HP12|]. eapply pin_widen; [| |exact HP3]; lia.
    + eapply sorted_out; [exact Ha|intros k Hk; apply (pin_out _ _ _ _ k HP3); lia|done].
Qed.
Lemma res_assoc {X Y Z} (r : res X) (f : X → res Y) (g : Y → res Z) : (y ← (x ← r; f x); g y) = (x ← r; y ← f x; g y).
Proof. by destruct r. Qed.
Lemma partial_loop_spec : ∀ steps d a b i, 0 <= a → a + 1 <= i <= b → b <= size d → floor_at a b d → sorted a i d →
  returns (partial_loop steps d a b i) (λ '(d', flag), pin a b d d' ∧ (flag = true → sorted a b d')).
Proof.
  induction steps as [|steps IH]; intros d a b i Ha Hi Hb Hfl Hs; [by apply returns_ok|]. cbn [partial_loop].
  eapply returns_bind; [apply (scan_up_spec _ (λ k, negb (lt (el d k) (el d (k - 1))))); [|lia|lia]|].
  { intros k Hk. apply (not_ok (λ i, Less d i (i - 1))). by rewrite Less_el by lia. }
  intros i' (Hi'&Ht&_). assert (Hs' : sorted a i' d).
  { apply sorted_adjacent. intros k Hk. destruct (decide (k < i)); [apply Hs; lia|]. apply negb_true_iff. apply Ht. lia. }
  destruct (Z.eqb_spec i' b) as [->|Hne]; [by apply returns_ok|]. destruct (_ <? _); [by apply returns_ok|].
  pose proof (partial_step d a b i' Ha ltac:(lia) Hb Hfl Hs') as Hstep. destruct Hstep as (d'&Ed&HP&Hs2).
  assert (Hrw : ∀ k : D → res (D * bool), (data ← Swap d i' (i' - 1); data ← (if i' - a >=? 2 then insert_loop (Z.to_nat i') data 0 (i' - 1) else Ok data);
     data ← (if b - i' >=? 2 then shift_right (Z.to_nat (b - i')) data (i' + 1) b else Ok data); k data) = k d').
  { intros k. destruct (Swap d i' (i' - 1)) as [d1| |]; cbn [mbind res_bind] in Ed |- *; try done. destruct (if i' - a >=? 2 then _ else _) as [d2| |]; cbn [mbind res_bind] in Ed |- *; try done. by rewrite Ed. }
  rewrite Hrw. eapply returns_mono; [apply (IH d' a b i'); try done; try lia; [by rewrite (pin_size _ _ _ _ HP)|by eapply floor_pin]|].
  intros [d3 flag] [HP3 Hf3]. split; [by eapply pin_trans|done].
Qed.
Lemma partialInsertionSort_spec d a b : 0 <= a < b → b <= size d → floor_at a b d →
  returns (partialInsertionSort d a b) (λ '(d', flag), pin a b d d' ∧ (flag = true → sorted a b d')).
Proof. intros Ha Hb Hfl. apply partial_loop_spec; try done; try lia. apply sorted_short. lia. Qed.

(** ** pdqsort *)
Definition sorts (a b : Z) (d d' : D) : Prop := pin a b d d' ∧ sorted a b d'.
(** The two sides of a pivot that is in its place. *)
Lemma partitioned_floor a b mid d : partitioned a b mid d → floor_at (mid + 1) b d.
Proof. intros (H1&_&H3) _ k Hk. replace (mid + 1 - 1) with mid by lia. apply H3. lia. Qed.
Lemma partitioned_pin a b mid d d' lo hi : 0 <= a → b <= size d → partitioned a b mid d → pin lo hi d d' → (lo = a ∧ hi = mid) ∨ (lo = mid + 1 ∧ hi = b) → partitioned a b mid d'.
Proof.
  intros Ha Hb (H1&H2&H3) HP Hside. assert (Em : el d' mid = el d mid) by (apply (pin_out _ _ _ _ mid HP); lia). split; [done|]. rewrite Em.
  destruct Hside as [[-> ->]|[-> ->]]; split; intros k Hk.
  - apply (pin_all (λ y, lt y (el d mid) = true) a mid d d'); try done. lia.
  - rewrite (pin_out _ _ _ _ k HP) by lia. by apply H3.
  - rewrite (pin_out _ _ _ _ k HP) by lia. by apply H2.
  - apply (pin_all (λ y, lt y (el d mid) = false) (mid + 1) b d d'); try done; try lia. intros; apply H3; lia.
Qed.
Lemma partitioned_sorted a b mid d : partitioned a b mid d → sorted a mid d → sorted (mid + 1) b d → sorted a b d.
Proof.
  intros (H1&H2&H3) Hl Hr. assert (Hlm : ∀ k, a <= k < mid → le (el d k) (el d mid)) by (intros; by apply lt_le, H2).
  apply sorted_join with (m := mid + 1); [|done|].
  - apply sorted_join with (m := mid); [done|apply sorted_short; lia|]. intros i j Hi Hj. assert (j = mid) as -> by lia. by apply Hlm.
  - intros i j Hi Hj. assert (Hm : le (el d mid) (el d j)) by (apply H3; lia). destruct (decide (i = mid)) as [->|]; [done|]. etrans; [apply Hlm; lia|done].
Qed.
Definition pdq (fuel : nat) : Prop := ∀ d a b limit wb wp, 0 <= a <= b → b <= size d → b < 2 ^ 62 → floor_at a b d → b - a < Z.of_nat fuel →
  returns (pdqsort_loop fuel d a b limit wb wp) (sorts a b d).
(** Sorting both sides of a partition, in either order. *)
Lemma pdq_sides fuel d a b mid limit wb wp wb' wp' (left_first : bool) : pdq fuel → 0 <= a <= b → b <= size d → b < 2 ^ 62 → b - a <= Z.of_nat fuel →
  floor_at a b d → partitioned a b mid d →
  returns (if left_first then d ← pdqsort_loop fuel d a mid limit wb wp; pdqsort_loop fuel d (mid + 1) b limit wb' wp'
           else d ← pdqsort_loop fuel d (mid + 1) b limit wb wp; pdqsort_loop fuel d a mid limit wb' wp') (sorts a b d).
Proof.
  intros IH Ha Hb H62 Hf Hfl Hm. pose proof Hm as (H1&_&_).
  assert (Hflm : ∀ d, floor_at a b d → floor_at a mid d) by (intros d0 H0 Hpos k Hk; apply H0; lia).
  destruct left_first.
  - eapply returns_bind; [apply (IH d a mid); try lia; by apply Hflm|]. intros d1 [HP1 Hs1]. pose proof (pin_size _ _ _ _ HP1) as Hz1.
    assert (Hm1 : partitioned a b mid d1) by (eapply (partitioned_pin a b mid d d1); [lia|done|done|exact HP1|auto]).
    eapply returns_mono; [apply (IH d1 (mid + 1) b); try lia; by eapply partitioned_floor|]. intros d2 [HP2 Hs2].
    split; [eapply pin_trans; (eapply pin_widen; [| |eassumption]; lia)|]. apply (partitioned_sorted a b mid); [|eapply sorted_out; [lia|intros k Hk; apply (pin_out _ _ _ _ k HP2); lia|done]|done].
    eapply (partitioned_pin a b mid d1 d2); [lia|lia|done|exact HP2|auto].
  - eapply returns_bind; [apply (IH d (mid + 1) b); try lia; by eapply partitioned_floor|]. intros d1 [HP1 Hs1]. pose proof (pin_size _ _ _ _ HP1) as Hz1.
    assert (Hm1 : partitioned a b mid d1) by (eapply (partitioned_pin a b mid d d1); [lia|done|done|exact HP1|auto]).
    assert (HP1' : pin a b d d1) by (eapply pin_widen; [| |exact HP1]; lia).
    eapply returns_mono; [apply (IH d1 a mid); try lia; apply Hflm; eapply (floor_pin a b d d1); [lia|done|done|done]|]. intros d2 [HP2 Hs2].
    split; [eapply pin_trans; (eapply pin_widen; [| |eassumption]; lia)|]. apply (partitioned_sorted a b mid); [|done|eapply sorted_out; [lia|intros k Hk; apply (pin_out _ _ _ _ k HP2); lia|done]].
    eapply (partitioned_pin a b mid d1 d2); [lia|lia|done|exact HP2|auto].
Qed.
(** What is left after a partition into elements equal to the pivot and greater. *)
Lemma pdq_greater fuel d a b mid limit wb wp : pdq fuel → 0 <= a → a < mid <= b → b <= size d → b < 2 ^ 62 → b - a <= Z.of_nat fuel →
  (∀ i j, a <= i < mid → a <= j < b → le (el d i) (el d j)) → sorted a mid d → returns (pdqsort_loop fuel d mid b limit wb wp) (sorts a b d).
Proof.
  intros IH Ha Hmid Hb H62 Hf Hall Hs. eapply returns_mono; [apply (IH d mid b); try lia|].
  { intros _ k Hk. apply Hall; lia. }
  intros d1 [HP Hs1]. split; [eapply pin_widen; [| |exact HP]; lia|]. assert (Eo : ∀ k, a <= k < mid → el d1 k = el d k) by (intros k Hk; apply (pin_out _ _ _ _ k HP); lia).
  apply sorted_join with (m := mid); [by eapply sorted_out|done|]. intros i j Hi Hj. rewrite Eo by lia.
  apply (pin_all (λ y, le (el d i) y) mid b d d1); try done; try lia. intros; apply Hall; lia.
Qed.
(** The part of the loop that moves elements about to find a pivot. *)
Lemma pdq_prepare d a b limit (wb wp : bool) : 0 <= a < b → b <= size d → b < 2 ^ 62 → floor_at a b d → ∀ (k : D → Z → Z → bool → res D) (Q : D → Prop),
  (∀ d' limit' p (done : bool), pin a b d d' → a <= p < b → (done = true → sorted a b d') → returns (k d' limit' p done) Q) →
  returns ('(data, limit) ← (if negb wb then data ← breakPatterns d a b; Ok (data, limit - 1) else Ok (d, limit));
    '(pivot, hint) ← choosePivot data a b;
    '(data, pivot, hint) ←
      (if decide (hint = decreasingHint) then data ← reverseRange data a b; Ok (data, (b - 1) - (pivot - a), increasingHint)
       else Ok (data, pivot, hint));
    '(data, done) ←
      (if wb && wp && bool_decide (hint = increasingHint) then partialInsertionSort data a b else Ok (data, false));
    k data limit pivot done) Q.
Proof.
  intros Ha Hb H62 Hfl k Q HQ. eapply (returns_bind _ _ (λ '(d1, _), pin a b d d1)).
  { destruct (negb wb); [|by apply returns_ok]. eapply returns_bind; [apply breakPatterns_spec; (done || lia)|]. intros d1 HP1. by apply returns_ok. }
  intros [d1 l1] HP1. pose proof (pin_size _ _ _ _ HP1) as Hz1.
  eapply returns_bind; [apply (choosePivot_spec d1 a b); lia|]. intros [p hint] Hp. eapply (returns_bind _ _ (λ '(d2, p2, _), pin a b d d2 ∧ a <= p2 < b)).
  { destruct (decide _); [|by apply returns_ok]. eapply returns_bind; [apply (reverseRange_spec d1 a b); lia|]. intros d2 HP2. apply returns_ok.
    split; [by eapply pin_trans|lia]. }
  intros [[d2 p2] h2] [HP2 Hp2]. pose proof (pin_size _ _ _ _ HP2) as Hz2. eapply (returns_bind _ _ (λ '(d3, dn), pin a b d d3 ∧ (dn = true → sorted a b d3))).
  { destruct (_ && _); [|by apply returns_ok]. eapply returns_mono; [apply (partialInsertionSort_spec d2 a b); [lia|lia|eapply (floor_pin a b d d2); [lia|done|done|done]]|].
    intros [d3 dn] [HP3 Hd]. split; [by eapply pin_trans|done]. }
  intros [d3 dn] [HP3 Hd]. by apply HQ.
Qed.
Lemma pdqsort_loop_spec fuel : pdq fuel.
Proof.
  induction fuel as [|fuel IH]; intros d a b limit wb wp Ha Hb H62 Hfl Hf; [lia|]. cbn [pdqsort_loop].
  destruct (Z.leb_spec (b - a) maxInsertion) as [Hs|Hl]; [by apply insertionSort_el|]. unfold maxInsertion in Hl.
  destruct (limit =? 0); [by apply heapSort_spec|]. apply (pdq_prepare d a b limit wb wp); try done; try lia.
  intros d3 limit' p dn HP Hp Hdn. destruct dn; [apply returns_ok; by split; [|apply Hdn]|]. clear Hdn. pose proof (pin_size _ _ _ _ HP) as Hz.
  assert (Hfl3 : floor_at a b d3) by (eapply (floor_pin a b d d3); [lia|done|done|done]).
  eapply (returns_bind _ _ (λ e, e = true → 0 < a ∧ le (el d3 p) (el d3 (a - 1)))).
  { rewrite Z.gtb_ltb. destruct (Z.ltb_spec 0 a); [|by apply returns_ok]. rewrite Less_el by lia. cbn [mbind res_bind]. apply returns_ok.
    intros E%negb_true_iff. by split. }
  intros [] Hq.
  - destruct (Hq eq_refl) as [H0 Hle]. eapply returns_bind; [apply (partitionEqual_spec d3 a b p); try lia|].
    { intros k Hk. etrans; [exact Hle|]. by apply Hfl3. }
    intros [d4 mid] (HP4&Hmid&Hall&Hs4). pose proof (pin_size _ _ _ _ HP4) as Hz4.
    eapply returns_mono; [apply (pdq_greater fuel d4 a b mid); try done; try lia|]. intros d5 [HP5 Hs5]. split; [|done].
    eapply pin_trans; [exact HP|]. by eapply pin_trans.
  - eapply returns_bind; [apply (partition_spec d3 a b p); lia|]. intros [[d4 mid] ap] [HP4 Hm]. pose proof (pin_size _ _ _ _ HP4) as Hz4.
    assert (Hfl4 : floor_at a b d4) by (eapply (floor_pin a b d3 d4); [lia|lia|done|done]).
    assert (HPd : pin a b d d4) by (by eapply pin_trans).
    destruct (mid - a <? b - mid).
    + eapply returns_mono; [apply (pdq_sides fuel d4 a b mid limit' true true (mid - a >=? (b - a) / 8) ap true); try done; try lia|].
      intros d5 [HP5 Hs5]. split; [by eapply pin_trans|done].
    + eapply returns_mono; [apply (pdq_sides fuel d4 a b mid limit' true true (b - mid >=? (b - a) / 8) ap false); try done; try lia|].
      intros d5 [HP5 Hs5]. split; [by eapply pin_trans|done].
Qed.
Lemma Sort_el d : size d < 2 ^ 62 → returns (Sort d) (sorts 0 (size d) d).
Proof.
  intros H62. unfold Sort. rewrite Len_view. fold (size d). pose proof (len_nonneg (view d)) as H0. fold (size d) in H0. destruct (Z.leb_spec (size d) 1) as [H1|H1].
  - apply returns_ok. split; [apply pin_refl|apply sorted_short; lia].
  - apply pdqsort_loop_spec; try lia. intros ?; lia.
Qed.
Lemma sorted_loop_spec d : ∀ k, Z.of_nat k < size d → returns (sorted_loop k d) (λ b, b = true ↔ sorted 0 (Z.of_nat k + 1) d).
Proof.
  induction k as [|k IH]; intros Hk; [apply returns_ok; split; [intros _; apply sorted_short; lia|done]|]. cbn [sorted_loop]. rewrite Less_el by lia. cbn [mbind res_bind].
  destruct (lt _ _) eqn:E.
  - apply returns_ok. split; [done|]. intros Hs. specialize (Hs (Z.of_nat (S k) - 1) (Z.of_nat (S k))). unfold SortSpec.le in Hs. rewrite Hs in E; done || lia.
  - eapply returns_mono; [apply IH; lia|]. intros b ->. split.
    + intros Hs. apply sorted_adjacent. intros j Hj. destruct (decide (j = Z.of_nat (S k))) as [->|]; [exact E|apply Hs; lia].
    + intros Hs i j ???. apply Hs; lia.
Qed.
End quick.
