(* ===== verification/SortProps.v ===== *)
(** * package sort: properties *)
From stdpp Require Import sorting.
From S2P Require Import Prelude SortOps SortSpec SortStable SortQuick.

(** ** Instances *)
#[global] Instance slice_Sortable {A} (lt : A → A → bool) : Sortable (sliceof lt) A lt.
Proof.
  refine {| view := items |}; [done| |].
  - intros data i j x y Hi Hj Ex Ey. cbn. unfold slice_Less. by rewrite (at_lookup (items data) i x), (at_lookup (items data) j y).
  - intros data i j x y Hi Hj Ex Ey. cbn. unfold slice_Swap. rewrite (at_lookup (items data) i x), (at_lookup (items data) j y) by done. cbn [mbind res_bind].
    pose proof (lookup_lt_Some _ _ _ Ex). pose proof (lookup_lt_Some _ _ _ Ey).
    rewrite set_at_ok by (unfold len; lia). cbn [mbind res_bind]. rewrite set_at_ok by (unfold len; rewrite length_insert; lia). cbn [mbind res_bind].
    eexists. split; [done|]. cbn. destruct (decide (Z.to_nat i = Z.to_nat j)) as [E|E].
    + rewrite E in *. assert (x = y) as -> by congruence. done.
    + by apply list_insert_insert_ne.
Defined.
#[global] Instance Zltb_StrictWeak : StrictWeak Z.ltb.
Proof. split; intros *; rewrite ?Z.ltb_irrefl, ?Z.ltb_lt, ?Z.ltb_ge; (done || lia). Qed.
(** Comparing by a key. *)
#[global] Instance key_StrictWeak {A B} (lt : B → B → bool) (f : A → B) `{!StrictWeak lt} : StrictWeak (λ x y, lt (f x) (f y)).
Proof. split; intros *; [apply lt_irrefl|apply lt_trans|apply ge_trans]. Qed.

(** ** Uniqueness of the stable order *)
Lemma steq_unique {A} (lt : A → A → bool) `{!StrictWeak lt} l1 : ∀ l2, StronglySorted (le lt) l1 → StronglySorted (le lt) l2 → steq lt l1 l2 → l1 = l2.
Proof.
  induction l1 as [|x l1 IH]; intros l2 H1 H2 [HP Hf]; [by apply Permutation_nil_l in HP as ->|].
  destruct l2 as [|y l2]; [by apply Permutation_nil_r in HP|].
  apply StronglySorted_cons in H1 as [Hx H1]. apply StronglySorted_cons in H2 as [Hy H2]. rewrite list.Forall_forall in Hx, Hy.
  assert (Hxy : lt y x = false). { assert (Hy' : y ∈ x :: l1) by (rewrite HP; left). apply elem_of_cons in Hy' as [->|Hy']; [apply lt_irrefl|by apply Hx]. }
  assert (Hyx : lt x y = false). { assert (Hx' : x ∈ y :: l2) by (rewrite <- HP; left). apply elem_of_cons in Hx' as [->|Hx']; [apply lt_irrefl|by apply Hy]. }
  assert (x = y) as <-.
  { specialize (Hf x). rewrite (filter_cons_True _ x), (filter_cons_True _ y) in Hf; [by injection Hf|unfold eqv; by rewrite Hyx, Hxy|].
    unfold eqv. by rewrite (lt_irrefl x). }
  f_equal. apply IH; [done|done|]. split; [by apply Permutation_cons_inv in HP|]. intros z. specialize (Hf z). rewrite !filter_cons in Hf.
  destruct (decide _); [by injection Hf|done].
Qed.
Lemma view_nil_sorted {A} (lt : A → A → bool) (l : list A) : l = [] → StronglySorted (le lt) l.
Proof. intros ->. constructor. Qed.

(** ** The theorems *)
(** Search finds the least index at which a predicate that stays true once it is
    true holds, or [n] when there is none, and asks about no other index. *)
Theorem Search_spec n (f : Z → res bool) (g : Z → bool) : 0 <= n < 2 ^ 62 → (∀ h, 0 <= h < n → f h = Ok (g h)) →
  (∀ i j, 0 <= i <= j → j < n → g i = true → g j = true) →
  ∃ r, Search n f = Ok r ∧ 0 <= r <= n ∧ (∀ h, 0 <= h < r → g h = false) ∧ (∀ h, r <= h < n → g h = true).
Proof.
  intros Hn Hf Hg. destruct (search_edge (not f) 0 n) as (r&Er&Hr&H1&H2); [lia|lia|intros h Hh; eexists; by apply not_ok, Hf|].
  exists r. split; [done|]. split; [done|]. rewrite not_true in H1. rewrite not_false in H2. split; intros h Hh.
  - destruct H1 as [->|H1]; [lia|]. rewrite Hf in H1 by lia. injection H1 as H1. apply not_true_is_false. intros E.
    rewrite (Hg h (r - 1)) in H1 by (done || lia). done.
  - destruct H2 as [->|H2]; [lia|]. rewrite Hf in H2 by lia. injection H2 as H2. apply (Hg r); (done || lia).
Qed.
Lemma Search_spec_witness : SearchInts [1; 3; 5; 7] 5 = Ok 2 ∧ ∃ r, Search 4 (λ i, Ok (i >=? 2)) = Ok r ∧ 0 <= r <= 4 ∧
  (∀ h, 0 <= h < r → (h >=? 2) = false) ∧ (∀ h, r <= h < 4 → (h >=? 2) = true).
Proof.
  split; [vm_compute; reflexivity|]. apply (Search_spec 4 (λ i, Ok (i >=? 2)) (λ i, i >=? 2)); [split; [intros H; discriminate H|reflexivity]|intros; reflexivity|].
  intros i j H1 H2. rewrite !Z.geb_le. lia.
Defined.

Lemma Sort_run {D A : Type} (HD : Interface D) (lt : A → A → bool) (HW : StrictWeak lt) (HS : Sortable D A lt) (d : D) :
  len (view d) < 2 ^ 62 → ∃ d', Sort d = Ok d' ∧ StronglySorted (le lt) (view d') ∧ view d ≡ₚ view d'.
Proof.
  intros Hn. destruct (view d) as [|x l] eqn:E.
  - assert (EL : Len d = 0) by (rewrite (Len_view (A := A)), E; done).
    exists d. unfold Sort. rewrite EL, E. split; [done|]. split; [constructor|done].
  - rewrite <- E in *. assert (Inhabited A) by (constructor; exact x).
    destruct (Sort_el d Hn) as (d'&Ed&HP&Hs). exists d'. split; [done|]. split; [|by apply HP].
    apply (sorted_srt d' [] (view d') [] 0 (size d)); [by rewrite app_nil_r|done| |done]. rewrite <- (pin_size _ _ _ _ HP). done.
Qed.
Lemma IsSorted_run {D A : Type} (HD : Interface D) (lt : A → A → bool) (HW : StrictWeak lt) (HS : Sortable D A lt) (d : D) :
  ∃ b, IsSorted d = Ok b ∧ (b = true ↔ StronglySorted (le lt) (view d)).
Proof.
  destruct (view d) as [|x l] eqn:E.
  - assert (EL : Len d = 0) by (rewrite (Len_view (A := A)), E; done).
    exists true. unfold IsSorted. rewrite EL. split; [done|]. split; [intros _; constructor|done].
  - rewrite <- E in *. assert (Inhabited A) by (constructor; exact x).
    assert (H0 : 0 < size d) by (unfold size; rewrite E, len_cons; pose proof (len_nonneg l); lia).
    destruct (sorted_loop_spec d (Z.to_nat (Len d - 1))) as (b&Eb&Hb); [rewrite (Len_view (A := A)); fold (size d); lia|].
    exists b. split; [done|]. rewrite Hb. apply (sorted_srt d [] (view d) []); [by rewrite app_nil_r|done|]. rewrite (Len_view (A := A)).
    fold (size d). unfold size in *. lia.
Qed.
(** The same for a slice. *)
Lemma Sort_slice {A : Type} (lt : A → A → bool) `{!StrictWeak lt} (l : list A) : len l < 2 ^ 62 →
  ∃ l', Sort (Slice l : sliceof lt) = Ok (Slice l') ∧ StronglySorted (le lt) l' ∧ l ≡ₚ l'.
Proof.
  intros Hl. destruct (Sort_run _ lt _ (slice_Sortable lt) (Slice l) Hl) as ([l']&E&Hs&HP). by exists l'.
Qed.

(** C34: Sort, a pattern-defeating quicksort that falls back on insertion sort and heap
    sort, ends on every collection whose Less is a strict weak order, and leaves
    the same elements in ascending order; IsSorted answers whether they are.  Its
    loops go beyond the range they are given where the element before it stops
    them, and never touch an index out of range. *)
Theorem Sort_spec {D A : Type} (HD : Interface D) (lt : A → A → bool) (HW : StrictWeak lt) (HS : Sortable D A lt) (d : D) :
  len (view d) < 2 ^ 62 →
  (∃ d', Sort d = Ok d' ∧ StronglySorted (le lt) (view d') ∧ view d ≡ₚ view d') ∧
  (∃ b, IsSorted d = Ok b ∧ (b = true ↔ StronglySorted (le lt) (view d))).
Proof.
  intros Hn. split; [by apply (Sort_run HD lt HW HS)|by apply (IsSorted_run HD lt HW HS)].
Qed.
Definition sample_ints : sliceof Z.ltb := Slice [9; 4; 7; 1; 15; 3; 12; 8; 2; 14; 6; 11; 5; 13; 10; 0].
Lemma Sort_spec_witness :
  Sort sample_ints = Ok (Slice [0; 1; 2; 3; 4; 5; 6; 7; 8; 9; 10; 11; 12; 13; 14; 15]) ∧
  ∃ d', Sort sample_ints = Ok d' ∧ StronglySorted (le Z.ltb) (view d') ∧ view sample_ints ≡ₚ view d'.
Proof.
  split; [vm_compute; reflexivity|].
  exact (proj1 (Sort_spec (slice_Interface Z.ltb) Z.ltb Zltb_StrictWeak (slice_Sortable Z.ltb) sample_ints ltac:(reflexivity))).
Defined.

(** C35: Stable ends on every collection whose Less is a strict weak order and
    leaves it in the one order that is ascending and keeps elements equal to each
    other as they were: the blocks sorted by insertion and merged in place by
    rotations are a stable sort. *)
Theorem Stable_spec {D A : Type} (HD : Interface D) (lt : A → A → bool) (HW : StrictWeak lt) (HS : Sortable D A lt) (d : D) :
  len (view d) < 2 ^ 62 →
  ∃ d', Stable d = Ok d' ∧ StronglySorted (le lt) (view d') ∧ steq lt (view d) (view d') ∧
    ∀ l, StronglySorted (le lt) l → steq lt (view d) l → l = view d'.
Proof.
  intros Hn. destruct (Stable_run d Hn) as (d'&Ed&Hs&Hq). exists d'. split; [done|]. split; [done|]. split; [done|].
  intros l Hl Hq'. apply (steq_unique lt); try done. by rewrite <- Hq'.
Qed.
(** Pairs compared by their first part. *)
Definition fst_lt (x y : Z * Z) : bool := fst x <? fst y.
Definition sample_pairs : sliceof fst_lt := Slice (map (λ n, (Z.of_nat n mod 3, Z.of_nat n)) (seq 0 25)).
Lemma Stable_spec_witness :
  (d ← Stable sample_pairs; Ok (take 10 (items d))) = Ok [(0, 0); (0, 3); (0, 6); (0, 9); (0, 12); (0, 15); (0, 18); (0, 21); (0, 24); (1, 1)] ∧
  ∃ d', Stable sample_pairs = Ok d' ∧ StronglySorted (le fst_lt) (view d') ∧ steq fst_lt (view sample_pairs) (view d') ∧
    ∀ l, StronglySorted (le fst_lt) l → steq fst_lt (view sample_pairs) l → l = view d'.
Proof.
  split; [vm_compute; reflexivity|].
  exact (Stable_spec (slice_Interface fst_lt) fst_lt (key_StrictWeak Z.ltb fst) (slice_Sortable fst_lt) sample_pairs ltac:(reflexivity)).
Defined.

(** ** package sort: collections that correspond are sorted alike

    When the methods of two collections give the same answers and keep a relation
    between them, so does Stable: the sort sees a collection through its three
    methods only. *)

Definition res_rel {X Y : Type} (R : X → Y → Prop) (r : res X) (r' : res Y) : Prop :=
  match r, r' with
  | Ok x, Ok y => R x y
  | Err e, Err e' => e = e'
  | Panic m, Panic m' => m = m'
  | _, _ => False
  end.
Lemma rel_bind {X Y X' Y'} (R : X → Y → Prop) (R' : X' → Y' → Prop) r r' k k' :
  res_rel R r r' → (∀ x y, R x y → res_rel R' (k x) (k' y)) → res_rel R' (x ← r; k x) (y ← r'; k' y).
Proof. destruct r, r'; cbn; try done; intros Hr Hk; by (apply Hk || subst). Qed.
Lemma rel_eq {X Y Y'} (R' : Y → Y' → Prop) (r r' : res X) k k' : r = r' → (∀ x, res_rel R' (k x) (k' x)) → res_rel R' (x ← r; k x) (y ← r'; k' y).
Proof. intros -> Hk. destruct r' as [x| |]; cbn; [apply Hk|done|done]. Qed.

Section sim.
Context {D1 D2 : Type} `{Interface D1, Interface D2} (R : D1 → D2 → Prop).
Hypothesis sim_Len : ∀ d1 d2, R d1 d2 → Len d1 = Len d2.
Hypothesis sim_Less : ∀ d1 d2 i j, R d1 d2 → Less d1 i j = Less d2 i j.
Hypothesis sim_Swap : ∀ d1 d2 i j, R d1 d2 → res_rel R (Swap d1 i j) (Swap d2 i j).
Notation "r ~ r'" := (res_rel R r r') (at level 70).
#[local] Ltac step := repeat match goal with
  | |- res_rel _ (if ?c then _ else _) _ => destruct c
  | |- res_rel _ (Ok _) (Ok _) => done
  | |- res_rel _ (Panic _) _ => done
  end.
#[local] Ltac bind := eapply rel_bind; [by eauto|intros ? ? ?].

Lemma sim_insert_loop a : ∀ fuel d1 d2 j, R d1 d2 → insert_loop fuel d1 a j ~ insert_loop fuel d2 a j.
Proof.
  induction fuel as [|fuel IH]; intros d1 d2 j HR; cbn [insert_loop]; step. apply rel_eq; [by apply sim_Less|]. intros []; step. bind. by apply IH.
Qed.
Lemma sim_insertion_loop a b : ∀ fuel d1 d2 i, R d1 d2 → insertion_loop fuel d1 a b i ~ insertion_loop fuel d2 a b i.
Proof.
  induction fuel as [|fuel IH]; intros d1 d2 i HR; cbn [insertion_loop]; step. eapply rel_bind; [by apply sim_insert_loop|]. intros ? ? ?. by apply IH.
Qed.
Lemma sim_search_loop c c' : (∀ h, c h = c' h) → ∀ fuel i j, search_loop fuel c i j = search_loop fuel c' i j.
Proof.
  intros Hc. induction fuel as [|fuel IH]; intros i j; cbn [search_loop]; [done|]. destruct (i <? j); [|done]. rewrite Hc. destruct (c' _) as [[]| |]; cbn; auto.
Qed.
Lemma sim_search c c' i j : (∀ h, c h = c' h) → search c i j = search c' i j.
Proof. intros Hc. by apply sim_search_loop. Qed.
Lemma sim_swap_loop a b : ∀ k d1 d2 i, R d1 d2 → swap_loop k d1 a b i ~ swap_loop k d2 a b i.
Proof. induction k as [|k IH]; intros d1 d2 i HR; cbn [swap_loop]; step. bind. by apply IH. Qed.
Lemma sim_swapRange d1 d2 a b n : R d1 d2 → swapRange d1 a b n ~ swapRange d2 a b n.
Proof. apply sim_swap_loop. Qed.
Lemma sim_rotate_loop m : ∀ fuel d1 d2 i j, R d1 d2 → rotate_loop fuel d1 m i j ~ rotate_loop fuel d2 m i j.
Proof.
  induction fuel as [|fuel IH]; intros d1 d2 i j HR; cbn [rotate_loop]; step; [| |by apply sim_swapRange];
    (eapply rel_bind; [by apply sim_swapRange|]; intros ? ? ?; by apply IH).
Qed.
Lemma sim_move_up : ∀ n d1 d2 k, R d1 d2 → move_up n d1 k ~ move_up n d2 k.
Proof. induction n as [|n IH]; intros d1 d2 k HR; cbn [move_up]; step. bind. by apply IH. Qed.
Lemma sim_move_down : ∀ n d1 d2 k, R d1 d2 → move_down n d1 k ~ move_down n d2 k.
Proof. induction n as [|n IH]; intros d1 d2 k HR; cbn [move_down]; step. bind. by apply IH. Qed.
Lemma sim_not (c c' : Z → res bool) : (∀ h, c h = c' h) → ∀ h, SortOps.not c h = SortOps.not c' h.
Proof. intros Hc h. unfold SortOps.not. by rewrite Hc. Qed.
Lemma sim_symMerge_loop : ∀ fuel d1 d2 a m b, R d1 d2 → symMerge_loop fuel d1 a m b ~ symMerge_loop fuel d2 a m b.
Proof.
  induction fuel as [|fuel IH]; intros d1 d2 a m b HR; cbn [symMerge_loop]; [done|]. destruct (m - a =? 1); [|destruct (b - m =? 1)].
  - apply rel_eq; [apply sim_search; intros; by apply sim_Less|]. intros i. by apply sim_move_up.
  - apply rel_eq; [apply sim_search, sim_not; intros; by apply sim_Less|]. intros i. by apply sim_move_down.
  - destruct (if m >? half (a + b) then _ else _) as [start r].
    apply rel_eq; [apply sim_search, sim_not; intros; by apply sim_Less|]. intros s.
    eapply rel_bind; [destruct (_ && _); [by apply sim_rotate_loop|done]|]. intros e1 e2 HR1.
    eapply rel_bind; [destruct (_ && _); [by apply IH|done]|]. intros e3 e4 HR2. destruct (_ && _); [by apply IH|done].
Qed.
Definition pair_rel (p : D1 * Z) (q : D2 * Z) : Prop := R (fst p) (fst q) ∧ snd p = snd q.
Lemma sim_blocks_loop bs n : ∀ fuel d1 d2 a b, R d1 d2 → res_rel pair_rel (blocks_loop fuel d1 bs n a b) (blocks_loop fuel d2 bs n a b).
Proof.
  induction fuel as [|fuel IH]; intros d1 d2 a b HR; cbn [blocks_loop]; [done|]. destruct (b <=? n); [|done].
  eapply rel_bind; [by apply sim_insertion_loop|]. intros ? ? ?. by apply IH.
Qed.
Lemma sim_merge_loop bs n : ∀ fuel d1 d2 a b, R d1 d2 → res_rel pair_rel (merge_loop fuel d1 bs n a b) (merge_loop fuel d2 bs n a b).
Proof.
  induction fuel as [|fuel IH]; intros d1 d2 a b HR; cbn [merge_loop]; [done|]. destruct (b <=? n); [|done].
  eapply rel_bind; [by apply sim_symMerge_loop|]. intros ? ? ?. by apply IH.
Qed.
Lemma sim_stable_loop n : ∀ fuel d1 d2 bs, R d1 d2 → stable_loop fuel d1 bs n ~ stable_loop fuel d2 bs n.
Proof.
  induction fuel as [|fuel IH]; intros d1 d2 bs HR; cbn [stable_loop]; [done|]. destruct (bs <? n); [|done].
  eapply rel_bind; [by apply sim_merge_loop|]. intros [e1 a] [e2 a'] [HR1 Ea]. cbn in HR1, Ea. subst a'.
  eapply rel_bind; [destruct (_ <? n); [by apply sim_symMerge_loop|done]|]. intros ? ? ?. by apply IH.
Qed.
Lemma sim_Stable d1 d2 : R d1 d2 → Stable d1 ~ Stable d2.
Proof.
  intros HR. unfold Stable, stable. rewrite (sim_Len _ _ HR). eapply rel_bind; [by apply sim_blocks_loop|]. intros [e1 a] [e2 a'] [HR1 Ea]. cbn in HR1, Ea. subst a'.
  eapply rel_bind; [by apply sim_insertion_loop|]. intros ? ? ?. by apply sim_stable_loop.
Qed.
End sim.
