(* ===== verification/AddrSelect.v ===== *)
(** * package net: destination address selection (addrselect.go, RFC 6724)

    The four slices of [byRFC6724] are sorted together, by [Stable] of package
    sort.  The source addresses are an argument: srcAddrs finds them by asking
    the kernel for a route to each destination. *)
From S2P Require Import Prelude Uint128 NetipAddr NetipPrefix NetIP SortOps.

Record IPAddr : Set := MkIPAddr { IP : bytes; Zone : bytes }.
Record ipAttr : Set := MkIpAttr { Scope : Z; Precedence : Z; Label : Z }.
Definition zeroAttr : ipAttr := MkIpAttr 0 0 0.   (* ipAttr{} *)

(** ** The policy table *)
Record policyTableEntry : Set := MkPolicy { pt_Prefix : Prefix; pt_Precedence : Z; pt_Label : Z }.
Definition policyTable : Set := list policyTableEntry.
(** [[16]byte{...}], the rest zeros. *)
Definition arr16 (b : bytes) : bytes := b ++ replicate (16 - length b) 0.
Definition rfc6724policyTable : policyTable := [
  MkPolicy (PrefixFrom (AddrFrom16 (arr16 [0; 0; 0; 0; 0; 0; 0; 0; 0; 0; 0; 0; 0; 0; 0; 0x01])) 128) 50 0;
  MkPolicy (PrefixFrom (AddrFrom16 (arr16 [0; 0; 0; 0; 0; 0; 0; 0; 0; 0; 0xff; 0xff])) 96) 35 4;
  MkPolicy (PrefixFrom (AddrFrom16 (arr16 [])) 96) 1 3;
  MkPolicy (PrefixFrom (AddrFrom16 (arr16 [0x20; 0x01])) 32) 5 5;
  MkPolicy (PrefixFrom (AddrFrom16 (arr16 [0x20; 0x02])) 16) 30 2;
  MkPolicy (PrefixFrom (AddrFrom16 (arr16 [0x3f; 0xfe])) 16) 1 12;
  MkPolicy (PrefixFrom (AddrFrom16 (arr16 [0xfe; 0xc0])) 10) 1 11;
  MkPolicy (PrefixFrom (AddrFrom16 (arr16 [0xfc])) 7) 3 13;
  MkPolicy (PrefixFrom (AddrFrom16 (arr16 [])) 0) 40 1 ].
Fixpoint classify_loop (t : policyTable) (ip : Addr) : res policyTableEntry :=
  match t with
  | [] => Ok (MkPolicy zeroPrefix 0 0)
  | ent :: t => c ← Prefix_Contains (pt_Prefix ent) ip; if (c : bool) then Ok ent else classify_loop t ip
  end.
Definition Classify (t : policyTable) (ip : Addr) : res policyTableEntry :=
  let ip := if Addr_Is4 ip then AddrFrom16 (As16 ip) else ip in classify_loop t ip.

(** ** Scopes *)
Definition scopeInterfaceLocal : Z := 0x1.
Definition scopeLinkLocal : Z := 0x2.
Definition scopeAdminLocal : Z := 0x4.
Definition scopeSiteLocal : Z := 0x5.
Definition scopeOrgLocal : Z := 0x8.
Definition scopeGlobal : Z := 0xe.
Definition classifyScope (ip : Addr) : Z :=
  if Addr_IsLoopback ip || Addr_IsLinkLocalUnicast ip then scopeLinkLocal
  else
    let ipv6 := Addr_Is6 ip && negb (Addr_Is4In6 ip) in
    let ipv6AsBytes := As16 ip in
    if ipv6 && Addr_IsMulticast ip then Z.land (byte_ ipv6AsBytes 1) 0xf
    else if ipv6 && (byte_ ipv6AsBytes 0 =? 0xfe) && (Z.land (byte_ ipv6AsBytes 1) 0xc0 =? 0xc0) then scopeSiteLocal
    else scopeGlobal.
Definition ipAttrOf (ip : Addr) : res ipAttr :=
  if negb (Addr_IsValid ip) then Ok zeroAttr
  else
    match_ ← Classify rfc6724policyTable ip;
    Ok (MkIpAttr (classifyScope ip) (pt_Precedence match_) (pt_Label match_)).

(** ** The length of a common prefix *)
(** Two bytes that differ, shifted right until they are equal. *)
Fixpoint shift_loop (fuel : nat) (ab bb bits : Z) : Z :=
  match fuel with
  | O => bits
  | S fuel =>
      let ab := Z.shiftr ab 1 in
      let bb := Z.shiftr bb 1 in
      let bits := bits - 1 in
      if ab =? bb then bits else shift_loop fuel ab bb bits
  end.
Fixpoint prefix_loop (a b : bytes) (cpl : Z) : Z :=
  match a, b with
  | ab :: a, bb :: b => if ab =? bb then prefix_loop a b (cpl + 8) else cpl + shift_loop 8 ab bb 8
  | _, _ => cpl
  end.
Definition commonPrefixLen (a : Addr) (b : bytes) : Z :=
  let b4 := IP_To4 b in
  let b := if negb (is_nil b4) then b4 else b in
  let aAsSlice := AsSlice a in
  if negb (len aAsSlice =? len b) then 0
  else if len aAsSlice >? 8 then prefix_loop (take 8 aAsSlice) (take 8 b) 0
  else prefix_loop aAsSlice b 0.

(** ** The order *)
Record byRFC6724 : Set := MkBy { addrs : list IPAddr; addrAttr : list ipAttr; srcs : list Addr; srcAttr : list ipAttr }.
(** What Less looks at of one destination: the address, its attributes, the
    source address and its attributes. *)
Definition entry : Set := IPAddr * ipAttr * Addr * ipAttr.
(** Less, the four elements at [i] and at [j] having been read. *)
Definition less_entries (a b : entry) : bool :=
  let '(addrA, attrDA, SourceDA, attrSourceDA) := a in
  let '(addrB, attrDB, SourceDB, attrSourceDB) := b in
  let DA := IP addrA in
  let DB := IP addrB in
  if negb (Addr_IsValid SourceDA) && negb (Addr_IsValid SourceDB) then false
  else if negb (Addr_IsValid SourceDB) then true
  else if negb (Addr_IsValid SourceDA) then false
  else if (Scope attrDA =? Scope attrSourceDA) && negb (Scope attrDB =? Scope attrSourceDB) then true
  else if negb (Scope attrDA =? Scope attrSourceDA) && (Scope attrDB =? Scope attrSourceDB) then false
  else if (Label attrSourceDA =? Label attrDA) && negb (Label attrSourceDB =? Label attrDB) then true
  else if negb (Label attrSourceDA =? Label attrDA) && (Label attrSourceDB =? Label attrDB) then false
  else if Precedence attrDA >? Precedence attrDB then true
  else if Precedence attrDA <? Precedence attrDB then false
  else if Scope attrDA <? Scope attrDB then true
  else if Scope attrDA >? Scope attrDB then false
  else if is_nil (IP_To4 DA) && is_nil (IP_To4 DB) then
    let commonA := commonPrefixLen SourceDA DA in
    let commonB := commonPrefixLen SourceDB DB in
    if commonA >? commonB then true
    else if commonA <? commonB then false
    else false
  else false.
Definition byRFC6724_entry (s : byRFC6724) (i : Z) : res entry :=
  a ← at_ (addrs s) i; src ← at_ (srcs s) i; attr ← at_ (addrAttr s) i; sattr ← at_ (srcAttr s) i;
  Ok (a, attr, src, sattr).
Definition byRFC6724_Less (s : byRFC6724) (i j : Z) : res bool :=
  a ← byRFC6724_entry s i; b ← byRFC6724_entry s j; Ok (less_entries a b).
Definition byRFC6724_Swap (s : byRFC6724) (i j : Z) : res byRFC6724 :=
  addrs ← slice_Swap (addrs s) i j;
  srcs ← slice_Swap (srcs s) i j;
  addrAttr ← slice_Swap (addrAttr s) i j;
  srcAttr ← slice_Swap (srcAttr s) i j;
  Ok (MkBy addrs addrAttr srcs srcAttr).
#[global] Instance byRFC6724_Interface : Interface byRFC6724 := {
  Len s := len (addrs s);
  Less := byRFC6724_Less;
  Swap := byRFC6724_Swap;
}.

(** ** Sorting *)
(** The attributes of each destination and of each source. *)
Fixpoint attrs_loop (l : list IPAddr) (srcs : list Addr) : res (list ipAttr * list ipAttr) :=
  match l, srcs with
  | v :: l, src :: srcs =>
      a ← ipAttrOf (fst (AddrFromSlice (IP v)));
      b ← ipAttrOf src;
      '(addrAttr, srcAttr) ← attrs_loop l srcs;
      Ok (a :: addrAttr, b :: srcAttr)
  | _, _ => Ok ([], [])
  end.
(** The two slices in their new order. *)
Definition sortByRFC6724withSrcs (l : list IPAddr) (src : list Addr) : res (list IPAddr * list Addr) :=
  if negb (len l =? len src) then Panic [Lit "internal error"%go]
  else
    '(addrAttr, srcAttr) ← attrs_loop l src;
    s ← Stable (MkBy l addrAttr src srcAttr);
    Ok (addrs s, srcs s).
Definition sortByRFC6724 (srcAddrs : list IPAddr → list Addr) (l : list IPAddr) : res (list IPAddr) :=
  if len l <? 2 then Ok l
  else '(l, _) ← sortByRFC6724withSrcs l (srcAddrs l); Ok l.
