(* ===== verification/AddrSelectProps.v ===== *)
(** * package net: destination address selection, properties *)
From stdpp Require Import sorting.
From S2P Require Import Prelude Strconv Uint128 NetipAddr NetipPrefix NetipText NetipRoundtrip NetipProps NetIP NetIPProps NetCIDRProps SortOps SortSpec SortStable SortQuick SortProps AddrSelect.

(** ** Lexicographic orders *)
Definition lex {A B} (lt1 : A → A → bool) (lt2 : B → B → bool) (x y : A * B) : bool :=
  lt1 (fst x) (fst y) || negb (lt1 (fst y) (fst x)) && lt2 (snd x) (snd y).
#[global] Instance lex_StrictWeak {A B} (lt1 : A → A → bool) (lt2 : B → B → bool) `{!StrictWeak lt1, !StrictWeak lt2} : StrictWeak (lex lt1 lt2).
Proof.
  split; unfold lex.
  - intros [x1 x2]. cbn. by rewrite !lt_irrefl.
  - intros [x1 x2] [y1 y2] [z1 z2]. cbn. rewrite !orb_true_iff, !andb_true_iff, !negb_true_iff. intros [H1|[H1 H1']] [H2|[H2 H2']].
    + left. by eapply lt_trans.
    + left. by eapply lt_le_trans.
    + left. by eapply le_lt_trans.
    + right. split; [by eapply ge_trans|by eapply lt_trans].
  - intros [x1 x2] [y1 y2] [z1 z2]. cbn. rewrite !orb_false_iff, !andb_false_iff, !negb_false_iff. intros [H1 H1'] [H2 H2']. split; [by eapply ge_trans|].
    destruct H1' as [H1'|H1'], H2' as [H2'|H2']; [left; by eapply lt_trans|left; by eapply le_lt_trans|left; by eapply lt_le_trans|].
    right. by eapply ge_trans.
Qed.
(** Six numbers, compared from the left. *)
Definition key : Type := Z * (Z * (Z * (Z * (Z * Z)))).
Definition key_lt : key → key → bool := lex Z.ltb (lex Z.ltb (lex Z.ltb (lex Z.ltb (lex Z.ltb Z.ltb)))).
(** What Less compares of one entry, in the order in which it does. *)
Definition key_of (e : entry) : key :=
  let '(addr, attr, src, sattr) := e in
  if Addr_IsValid src then
    (0, (Z.b2z (negb (Scope attr =? Scope sattr)), (Z.b2z (negb (Label sattr =? Label attr)), (- Precedence attr, (Scope attr,
       if is_nil (IP_To4 (IP addr)) then - commonPrefixLen src (IP addr) else 0)))))
  else (1, (0, (0, (0, (0, 0))))).
Definition dest (e : entry) : IPAddr := let '(a, _, _, _) := e in a.
Definition attr (e : entry) : ipAttr := let '(_, a, _, _) := e in a.
Definition source (e : entry) : Addr := let '(_, _, s, _) := e in s.
Definition sattr (e : entry) : ipAttr := let '(_, _, _, a) := e in a.
(** The precedence tells IPv4 destinations from others. *)
Definition consistent (e : entry) : Prop := Precedence (attr e) = 35 ↔ is_nil (IP_To4 (IP (dest e))) = false.
Lemma ltb_opp x y : (- x <? - y) = (y <? x).
Proof. destruct (Z.ltb_spec (- x) (- y)), (Z.ltb_spec y x); done || lia. Qed.
Lemma less_entries_key a b : consistent a → consistent b → less_entries a b = key_lt (key_of a) (key_of b).
Proof.
  destruct a as [[[A at1] sa] st1], b as [[[B at2] sb] st2]. unfold consistent, less_entries, key_of. cbn [attr dest]. intros Ha Hb.
  destruct (Addr_IsValid sa), (Addr_IsValid sb); cbn [negb andb]; try reflexivity.
  unfold key_lt, lex. cbn [fst snd Z.ltb Z.compare negb orb andb].
  destruct (Scope at1 =? Scope st1), (Scope at2 =? Scope st2); cbn [negb andb orb Z.b2z Z.ltb Z.compare]; try reflexivity;
  (destruct (Label st1 =? Label at1), (Label st2 =? Label at2); cbn [negb andb orb Z.b2z Z.ltb Z.compare]; try reflexivity);
  rewrite !ltb_opp, Z.gtb_ltb;
  (destruct (Z.ltb_spec (Precedence at2) (Precedence at1)); cbn [orb andb negb]; [done|]);
  (destruct (Z.ltb_spec (Precedence at1) (Precedence at2)); cbn [orb andb negb]; [done|]);
  (destruct (Z.ltb_spec (Scope at1) (Scope at2)); cbn [orb andb negb]; [done|]);
  rewrite (Z.gtb_ltb (Scope at1));
  (destruct (Z.ltb_spec (Scope at2) (Scope at1)); cbn [orb andb negb]; [done|]);
  (assert (Hn : is_nil (IP_To4 (IP A)) = is_nil (IP_To4 (IP B)))
    by (assert (Precedence at1 = Precedence at2) as E by lia; rewrite E in Ha; destruct (is_nil (IP_To4 (IP A))), (is_nil (IP_To4 (IP B))); intuition congruence));
  rewrite Hn; (destruct (is_nil (IP_To4 (IP B))); cbn [andb]; [|done]); rewrite ltb_opp, Z.gtb_ltb;
  (destruct (Z.ltb_spec (commonPrefixLen sb (IP B)) (commonPrefixLen sa (IP A))); [done|]);
  by destruct (commonPrefixLen sa (IP A) <? commonPrefixLen sb (IP B)).
Qed.

(** ** RFC 6724 on numbers

    What the rules say of a destination and its source, written down from the
    RFC and not from the code.  An address is the 128-bit number it stands for,
    an IPv4 address a.b.c.d that of ::ffff:a.b.c.d. *)
Definition number (b : bytes) : option Z :=
  if len b =? 4 then Some (0xffff * 2 ^ 32 + be b) else if len b =? 16 then Some (be b) else None.
Definition is_ipv4 (v : Z) : bool := v / 2 ^ 32 =? 0xffff.
(** Section 3.1 and 3.2: 127.0.0.0/8 and 169.254.0.0/16 are link-local and the
    other IPv4 addresses global; of the IPv6 addresses ::1 and fe80::/10 are
    link-local, a multicast address (ff00::/8) says its scope in its second
    byte, and fec0::/10 is site-local. *)
Definition rfc_scope (v : Z) : Z :=
  if is_ipv4 v then
    let w := v mod 2 ^ 32 in if (w / 2 ^ 24 =? 127) || (w / 2 ^ 16 =? 0xa9fe) then 2 else 14
  else if (v =? 1) || (v / 2 ^ 118 =? 0x3fa) then 2
  else if v / 2 ^ 120 =? 0xff then (v / 2 ^ 112) mod 16
  else if v / 2 ^ 118 =? 0x3fb then 5 else 14.
(** Section 2.1, the default policy table: prefix, its length, precedence and
    label, the longer prefixes first. *)
Definition rfc_table : list (Z * Z * (Z * Z)) := [
  (1, 128, (50, 0)); (0xffff * 2 ^ 32, 96, (35, 4)); (0, 96, (1, 3)); (0x2001 * 2 ^ 112, 32, (5, 5));
  (0x2002 * 2 ^ 112, 16, (30, 2)); (0x3ffe * 2 ^ 112, 16, (1, 12)); (0xfec0 * 2 ^ 112, 10, (1, 11));
  (0xfc00 * 2 ^ 112, 7, (3, 13)); (0, 0, (40, 1)) ].
Fixpoint row_of (t : list (Z * Z * (Z * Z))) (v : Z) : Z * Z :=
  match t with
  | [] => (0, 0)
  | (p, n, r) :: t => if v / 2 ^ (128 - n) =? p / 2 ^ (128 - n) then r else row_of t v
  end.
(** Section 2.2: how many of their first 64 bits two IPv6 addresses share. *)
Definition shared_bits (x y : Z) : Z :=
  let d := Z.lxor (x / 2 ^ 64) (y / 2 ^ 64) in if d =? 0 then 64 else 63 - Z.log2 d.
(** The rules for a destination [a] with the source [s]: a destination with a
    source first (rule 1), then matching scope (2), matching label (5), higher
    precedence (6), smaller scope (8), and to an IPv6 destination the longer
    prefix shared with the source (9).  The source is no address when there is
    no route; a source with a zone is in no row of the table. *)
Definition rank (a : IPAddr) (s : Addr) : key :=
  if bool_decide (z s = z0) then (1, (0, (0, (0, (0, 0)))))
  else
    let x := val (addr s) in
    let d := number (IP a) in
    let '(precedence, label) := match d with Some v => row_of rfc_table v | None => (0, 0) end in
    let source_label := if hasZone s then 0 else snd (row_of rfc_table x) in
    let scope := match d with Some v => rfc_scope v | None => 0 end in
    let shared := match d with Some v => if is_ipv4 v || bool_decide (z s = z4) then 0 else shared_bits x v | None => 0 end in
    (0, (Z.b2z (negb (scope =? rfc_scope x)), (Z.b2z (negb (source_label =? label)), (- precedence, (scope, - shared))))).
Definition prefer (a b : entry) : bool := key_lt (rank (dest a) (source a)) (rank (dest b) (source b)).
#[global] Instance prefer_StrictWeak : StrictWeak prefer.
Proof. apply (key_StrictWeak key_lt (λ e, rank (dest e) (source e))). Qed.

(** ** The policy table *)
Definition longer (e e' : policyTableEntry) : Prop := Prefix_Bits (pt_Prefix e') <= Prefix_Bits (pt_Prefix e).
Definition no_entry : policyTableEntry := MkPolicy zeroPrefix 0 0.
Lemma classify_loop_spec t ip : wf_addr ip → Forall (λ e, wf_prefix (pt_Prefix e)) t → StronglySorted longer t →
  ∃ e, classify_loop t ip = Ok e ∧
    ((e ∈ t ∧ in_prefix (pt_Prefix e) ip ∧ ∀ e', e' ∈ t → in_prefix (pt_Prefix e') ip → longer e e') ∨
     (e = no_entry ∧ ∀ e', e' ∈ t → ¬ in_prefix (pt_Prefix e') ip)).
Proof.
  intros Hip. induction t as [|e t IH]; intros Hw Hs; cbn [classify_loop].
  - exists no_entry. split; [done|]. right. split; [done|]. intros e' He'. by apply elem_of_nil in He'.
  - apply list.Forall_cons in Hw as [Hwe Hw]. apply StronglySorted_cons in Hs as [Hle Hs]. rewrite list.Forall_forall in Hle.
    destruct (contains_in_prefix (pt_Prefix e) ip Hwe Hip) as (b&->&Hb). cbn [mbind res_bind]. destruct b.
    + exists e. split; [done|]. left. split; [left|]. split; [by apply Hb|]. intros e' [->|He']%elem_of_cons _; [unfold longer; lia|by apply Hle].
    + destruct (IH Hw Hs) as (r&->&Hr). exists r. split; [done|]. assert (Hne : ¬ in_prefix (pt_Prefix e) ip) by (intros Hin; by apply Hb in Hin).
      destruct Hr as [(H1&H2&H3)|[H1 H2]]; [left|right].
      * split; [by right|]. split; [done|]. intros e' [->|He']%elem_of_cons Hin; [done|by apply H3].
      * split; [done|]. intros e' [->|He']%elem_of_cons; [done|by apply H2].
Qed.
Lemma is_bytes_dec l : forallb (λ b, (0 <=? b) && (b <? 256)) l = true → is_bytes l.
Proof.
  intros H. apply list.Forall_forall. intros b Hb. rewrite forallb_forall in H. apply list_elem_of_In in Hb. specialize (H b Hb). unfold is_u8. lia.
Qed.
Lemma table_wf : Forall (λ e, wf_prefix (pt_Prefix e)) rfc6724policyTable.
Proof.
  unfold rfc6724policyTable. repeat (constructor; [cbn [pt_Prefix]; apply PrefixFrom_wf, AddrFrom16_wf; [done|by apply is_bytes_dec]|]). constructor.
Qed.
Lemma table_sorted : StronglySorted longer rfc6724policyTable.
Proof. unfold rfc6724policyTable, longer. repeat (constructor; [|repeat constructor; vm_compute; intros H; discriminate H]). constructor. Qed.
(** The address the table is asked about: an IPv4 one in its IPv6 form. *)
Definition lookup_addr (ip : Addr) : Addr := if Addr_Is4 ip then AddrFrom16 (As16 ip) else ip.
Lemma lookup_addr_wf ip : wf_addr ip → wf_addr (lookup_addr ip).
Proof. intros Hw. unfold lookup_addr. destruct (Addr_Is4 ip); [|done]. apply AddrFrom16_wf; [done|apply As16_bytes]. Qed.
Lemma Classify_total ip : wf_addr ip → ∃ e, Classify rfc6724policyTable ip = Ok e.
Proof.
  intros Hw. destruct (classify_loop_spec rfc6724policyTable (lookup_addr ip) (lookup_addr_wf ip Hw) table_wf table_sorted) as (e&E&_). by exists e.
Qed.
Definition mapped_entry : policyTableEntry := MkPolicy (PrefixFrom (AddrFrom16 (arr16 [0; 0; 0; 0; 0; 0; 0; 0; 0; 0; 0xff; 0xff])) 96) 35 4.
Lemma in_mapped ip : wf_addr ip → z ip = z6noz → in_prefix (pt_Prefix mapped_entry) ip ↔ Addr_Is4In6 ip = true.
Proof.
  intros Hw Hz. rewrite Is4In6_val by done. unfold in_prefix, hasZone, Addr_BitLen. rewrite Hz.
  change (Prefix_Bits (pt_Prefix mapped_entry)) with 96. change (Prefix_IsValid (pt_Prefix mapped_entry)) with true.
  change (net 128 96 (addr_val (p_ip (pt_Prefix mapped_entry)))) with 0xffff. unfold net. change (128 - 96) with 32. naive_solver.
Qed.
Lemma mapped_only e : e ∈ rfc6724policyTable → pt_Precedence e = 35 → e = mapped_entry.
Proof.
  intros He Hp. unfold rfc6724policyTable in He. repeat (apply elem_of_cons in He as [->|He]; [first [discriminate Hp|reflexivity]|]). by apply elem_of_nil in He.
Qed.
(** 35 is the precedence of the IPv4 addresses, and of no others. *)
Lemma Classify_35 ip : wf_addr ip → z ip = z6noz → ∃ e, classify_loop rfc6724policyTable ip = Ok e ∧ (pt_Precedence e = 35 ↔ Addr_Is4In6 ip = true).
Proof.
  intros Hw Hz. destruct (classify_loop_spec rfc6724policyTable ip Hw table_wf table_sorted) as (e&E&He). exists e. split; [done|]. split.
  - intros Hp. destruct He as [(H1&H2&_)|[-> _]]; [|discriminate Hp]. rewrite (mapped_only e H1 Hp) in H2. by apply in_mapped.
  - intros H4. pose proof (proj2 (in_mapped ip Hw Hz) H4) as Hin.
    destruct (contains_in_prefix (pt_Prefix mapped_entry) ip) as (b&Eb&Hb); [by apply PrefixFrom_wf, AddrFrom16_wf; [|apply is_bytes_dec]|done|].
    rewrite (proj2 Hb Hin) in Eb. unfold rfc6724policyTable in E. cbn [classify_loop pt_Prefix] in E.
    destruct (Prefix_Contains (PrefixFrom (AddrFrom16 (arr16 [0; 0; 0; 0; 0; 0; 0; 0; 0; 0; 0; 0; 0; 0; 0; 1])) 128) ip) as [[]| |] eqn:E1; cbn [mbind res_bind] in E; try discriminate E.
    + exfalso. destruct (contains_in_prefix (PrefixFrom (AddrFrom16 (arr16 [0; 0; 0; 0; 0; 0; 0; 0; 0; 0; 0; 0; 0; 0; 0; 1])) 128) ip) as (b1&Eb1&Hb1);
        [by apply PrefixFrom_wf, AddrFrom16_wf; [|apply is_bytes_dec]|done|]. rewrite E1 in Eb1. injection Eb1 as <-. destruct (proj1 Hb1 eq_refl) as (_&_&_&_&Hn).
      unfold Addr_BitLen in Hn. rewrite Hz in Hn. change (net 128 (Prefix_Bits _) (addr_val ip)) with (addr_val ip / 2 ^ 0) in Hn.
      change (net 128 _ (addr_val (p_ip _))) with 1 in Hn. rewrite Z.div_1_r in Hn. apply (Is4In6_val ip Hz Hw) in H4. rewrite Hn in H4. discriminate H4.
    + change (Prefix_Contains (PrefixFrom (AddrFrom16 (arr16 [0; 0; 0; 0; 0; 0; 0; 0; 0; 0; 0xff; 0xff])) 96) ip = Ok true) in Eb. rewrite Eb in E. cbn [mbind res_bind] in E. by injection E as <-.
Qed.

(** ** Attributes *)
Definition attr_of (ip : Addr) : ipAttr := match ipAttrOf ip with Ok a => a | _ => zeroAttr end.
Definition dest_addr (a : IPAddr) : Addr := fst (AddrFromSlice (IP a)).
Definition entry_of (a : IPAddr) (src : Addr) : entry := (a, attr_of (dest_addr a), src, attr_of src).
Lemma ipAttrOf_ok ip : wf_addr ip → ipAttrOf ip = Ok (attr_of ip).
Proof.
  intros Hw. unfold attr_of, ipAttrOf. destruct (negb (Addr_IsValid ip)); [done|]. destruct (Classify_total ip Hw) as (e&->). done.
Qed.
Lemma dest_addr_wf a : is_bytes (IP a) → wf_addr (dest_addr a).
Proof.
  intros Hb. unfold dest_addr, AddrFromSlice, len. destruct (Z.eqb_spec (Z.of_nat (length (IP a))) 4); [apply AddrFrom4_wf; [lia|done]|].
  destruct (Z.eqb_spec (Z.of_nat (length (IP a))) 16); [apply AddrFrom16_wf; [lia|done]|]. by repeat split.
Qed.
Lemma attr_precedence a : wf_addr a → z a ≠ z0 → z (lookup_addr a) = z6noz → Precedence (attr_of a) = 35 ↔ Addr_Is4In6 (lookup_addr a) = true.
Proof.
  intros Hw H0 Hz. destruct (Classify_35 (lookup_addr a) (lookup_addr_wf a Hw) Hz) as (e&E&He). rewrite <- He. unfold attr_of, ipAttrOf.
  assert (Hv : Addr_IsValid a = true) by (unfold Addr_IsValid; by rewrite bool_decide_false). rewrite Hv. cbn [negb].
  unfold Classify. fold (lookup_addr a). rewrite E. done.
Qed.
Lemma consistent_entry a src : is_bytes (IP a) → consistent (entry_of a src).
Proof.
  intros Hb. unfold consistent. cbn [attr dest entry_of]. pose proof (dest_addr_wf a Hb) as Hw.
  destruct (decide (length (IP a) = 4%nat ∨ length (IP a) = 16%nat)) as [Hl|Hl]; cycle 1.
  { destruct (toAddr_invalid (IP a)) as [_ ->]; [lia|lia|]. assert (Ez : dest_addr a = zeroAddr).
    { unfold dest_addr, AddrFromSlice, len. rewrite (proj2 (Z.eqb_neq _ 4)), (proj2 (Z.eqb_neq _ 16)) by lia. done. }
    rewrite Ez. split; intros H; discriminate H. }
  destruct (ip_view (IP a) (conj Hb Hl)) as [(a0&a1&a2&a3&Ha&Hi)|(Hl16&E4&Et&Em)].
  - assert (E4 : IP_To4 (IP a) = [a0; a1; a2; a3]) by (by destruct Hi as [-> | ->]). rewrite E4. cbn [is_nil].
    assert (El : lookup_addr (dest_addr a) = MkAddr (U128 0 (v4_lo a0 a1 a2 a3)) z6noz ∧ z (dest_addr a) ≠ z0).
    { unfold dest_addr, lookup_addr. destruct Hi as [-> | ->].
      - change (fst (AddrFromSlice [a0; a1; a2; a3])) with (AddrFrom4 [a0; a1; a2; a3]). rewrite AddrFrom4_eq by done. cbn [Addr_Is4 z].
        rewrite As16_v4_lo, AddrFrom16_IPv4 by done. done.
      - change (fst (AddrFromSlice (IPv4 a0 a1 a2 a3))) with (AddrFrom16 (IPv4 a0 a1 a2 a3)). rewrite AddrFrom16_IPv4 by done. done. }
    destruct El as [El H0]. rewrite attr_precedence by (done || by rewrite El). rewrite El, Is4In6_v4_lo by done. done.
  - rewrite E4. cbn [is_nil]. assert (Ed : dest_addr a = AddrFrom16 (IP a)).
    { unfold dest_addr, AddrFromSlice, len. by rewrite Hl16. }
    assert (El : lookup_addr (dest_addr a) = AddrFrom16 (IP a)) by (by rewrite Ed). rewrite attr_precedence by (done || by rewrite El || by rewrite Ed).
    rewrite El, Em. done.
Qed.

(** ** The code computes the numbers of RFC 6724 *)
Lemma mapped_val u : wf128 u → is_ipv4 (val u) = (hi u =? 0) && (Z.shiftr (lo u) 32 =? 0xffff).
Proof.
  intros [Hh Hl]. unfold is_ipv4, val. rewrite Z.shiftr_div_pow2 by lia. unfold is_u64 in *. symmetry. apply andb_eqb_iff.
  replace (hi u * 2 ^ 64 + lo u) with (hi u * 2 ^ 32 * 2 ^ 32 + lo u) by lia. rewrite Z.div_add_l by lia.
  pose proof (Z.div_lt_upper_bound (lo u) (2 ^ 32) (2 ^ 32) ltac:(lia) ltac:(lia)). pose proof (Z.div_pos (lo u) (2 ^ 32)).
  split; [intros [-> ->]; lia|]. intros E. assert (hi u = 0) as -> by nia. lia.
Qed.
Lemma u32_lo u : wf128 u → u32 (lo u) = val u mod 2 ^ 32.
Proof. intros _. unfold u32, val. replace (hi u * 2 ^ 64 + lo u) with (lo u + hi u * 2 ^ 32 * 2 ^ 32) by lia. by rewrite Z.mod_add. Qed.
(** The scope of an IPv4 address, in either form. *)
Lemma scope_4 a : wf_addr a → z a ≠ z0 → is_ipv4 (val (addr a)) = true → classifyScope a = rfc_scope (val (addr a)).
Proof.
  intros Hw H0 H4. pose proof (proj1 Hw) as Hu. unfold rfc_scope. rewrite H4. rewrite mapped_val in H4 by done. apply andb_true_iff in H4 as [E1 E2].
  set (q := MkAddr (addr a) z4).
  assert (Hq : wf_addr q) by (split; [done|]; apply Z.eqb_eq in E1, E2; by split).
  assert (H46 : Addr_Is6 a && negb (Addr_Is4In6 a) = false ∧ (if Addr_Is4In6 a then Addr_Unmap a else a) = q).
  { unfold Addr_Unmap, Addr_Is4In6. rewrite E1, E2, !andb_true_r. unfold Addr_Is6, q. destruct a as [u []]; cbn; done. }
  destruct H46 as [H6 Eq]. unfold classifyScope. cbv zeta. rewrite H6. cbn [andb]. unfold Addr_IsLoopback, Addr_IsLinkLocalUnicast. cbv zeta. rewrite Eq.
  assert (Hq4 : Addr_Is4 q = true) by done. rewrite Hq4, v4_0, v4_1 by done.
  change (addr_val q) with (u32 (lo (addr a))). rewrite u32_lo by done. set (w := val (addr a) mod 2 ^ 32).
  assert (Hww : 0 <= w < 2 ^ 32) by (apply Z.mod_pos_bound; lia).
  assert ((w / 2 ^ 24 =? 169) && (w / 2 ^ 16 mod 2 ^ 8 =? 254) = (w / 2 ^ 16 =? 0xa9fe)) as -> by (apply andb_eqb_iff; clear; zwlia). done.
Qed.
Lemma byte_hi u i : wf128 u → i = 0%nat ∨ i = 1%nat → nth i (bePutUint64 (hi u) ++ bePutUint64 (lo u)) 0 = val u / 2 ^ (120 - 8 * Z.of_nat i) mod 2 ^ 8.
Proof.
  intros [Hh Hl] Hi. assert (E : ∀ k, 0 <= k → hi u / 2 ^ k = val u / 2 ^ (64 + k)).
  { intros k Hk. unfold val, is_u64 in *. rewrite Z.pow_add_r, <- Z.div_div, Z.div_add_l by lia. rewrite (Z.div_small (lo _)) by lia. by rewrite Z.add_0_r. }
  destruct Hi as [-> | ->]; cbn [nth app bePutUint64]; rewrite Z.shiftr_div_pow2 by lia; rewrite E by lia; done.
Qed.
(** The scope of an IPv6 address. *)
Lemma scope_6 a : wf_addr a → Addr_Is6 a = true → is_ipv4 (val (addr a)) = false → classifyScope a = rfc_scope (val (addr a)).
Proof.
  intros Hw H6 H4. pose proof (proj1 Hw) as Hu. unfold rfc_scope. rewrite H4. rewrite mapped_val in H4 by done.
  assert (Hm : Addr_Is4In6 a = false) by (unfold Addr_Is4In6; by rewrite H6).
  assert (Hn : Addr_Is4 a = false) by (apply Addr_Is6_spec in H6 as [_ H6]; by apply bool_decide_eq_false).
  assert (Ev : addr_val a = val (addr a)) by (apply not_z4_val; by apply bool_decide_eq_false in Hn).
  unfold classifyScope, Addr_IsLoopback, Addr_IsLinkLocalUnicast, Addr_IsMulticast. cbv zeta. rewrite !Hm, !Hn, !H6. cbn [negb andb].
  rewrite loopback_val, v6u16_0, Is6_top by (done || lia). rewrite Ev. rewrite Z.pow_0_r, Z.div_1_r.
  pose proof (Is6_bound a Hw) as Hb. rewrite Ev in Hb.
  change 0xffc0 with (2 ^ 16 - 2 ^ 6). change 0xfe80 with (0x3fa * 2 ^ 6).
  rewrite (block_bits (val (addr a)) 112 6 0x3fa 16) by (lia || by apply div_range). change (112 + 6) with 118. change (128 - 8) with 120.
  unfold byte_. change (As16 a) with (bePutUint64 (hi (addr a)) ++ bePutUint64 (lo (addr a))). change (Z.to_nat 0) with 0%nat. change (Z.to_nat 1) with 1%nat.
  rewrite !byte_hi by auto. change (120 - 8 * Z.of_nat 0) with 120. change (120 - 8 * Z.of_nat 1) with 112. set (v := val (addr a)) in *.
  assert (H112 : 0 <= v / 2 ^ 112 < 2 ^ 16) by (by apply div_range).
  assert (E120 : v / 2 ^ 120 = v / 2 ^ 112 / 2 ^ 8) by (rewrite Z.div_div by lia; done).
  assert (E118 : v / 2 ^ 118 = v / 2 ^ 112 / 2 ^ 6) by (rewrite Z.div_div by lia; done).
  rewrite E120, E118. set (t := v / 2 ^ 112) in *. clearbody t.
  assert (Z.land (t mod 2 ^ 8) 0xf = t mod 16) as ->.
  { change 0xf with (2 ^ 4 - 1). rewrite land_ones_mod by lia. zwlia. }
  assert ((t / 2 ^ 8 mod 2 ^ 8 =? 254) && (Z.land (t mod 2 ^ 8) 192 =? 192) = (t / 2 ^ 6 =? 0x3fb)) as ->; [|done].
  change 192 with (2 ^ 8 - 2 ^ 6). rewrite land_high by (lia || (apply Z.mod_pos_bound; lia)).
  apply andb_eqb_iff. zwlia.
Qed.
Lemma scope_rfc a : wf_addr a → z a ≠ z0 → classifyScope a = rfc_scope (val (addr a)).
Proof.
  intros Hw H0. destruct (is_ipv4 (val (addr a))) eqn:E; [by apply scope_4|]. apply scope_6; [done| |done].
  destruct (z a) eqn:Ez; [done| |unfold Addr_Is6; by rewrite Ez|unfold Addr_Is6; by rewrite Ez].
  exfalso. destruct Hw as [Hu Hz]. rewrite Ez in Hz. destruct Hz as [E1 E2]. rewrite mapped_val in E by done. rewrite E1, E2 in E. discriminate E.
Qed.
(** *** The policy table *)
Definition row_matches (e : policyTableEntry) (r : Z * Z * (Z * Z)) : Prop :=
  let '(p, n, q) := r in wf_prefix (pt_Prefix e) ∧ Prefix_IsValid (pt_Prefix e) = true ∧ z (p_ip (pt_Prefix e)) = z6noz ∧
  Prefix_Bits (pt_Prefix e) = n ∧ val (addr (p_ip (pt_Prefix e))) = p ∧ (pt_Precedence e, pt_Label e) = q.
Lemma table_matches : Forall2 row_matches rfc6724policyTable rfc_table.
Proof.
  unfold rfc6724policyTable, rfc_table.
  repeat (constructor; [split; [cbn [pt_Prefix]; apply PrefixFrom_wf, AddrFrom16_wf; [done|by apply is_bytes_dec]|vm_compute; done]|]). constructor.
Qed.
Lemma classify_row t rows ip : Forall2 row_matches t rows → wf_addr ip → z ip = z6noz →
  ∃ e, classify_loop t ip = Ok e ∧ (pt_Precedence e, pt_Label e) = row_of rows (val (addr ip)).
Proof.
  intros Ht Hip Hz. induction Ht as [|e [[p n] q] t rows (Hwe&Hv&Hze&Hn&Hp&Hq) Ht IH]; cbn [classify_loop row_of]; [by exists no_entry|].
  destruct (contains_in_prefix (pt_Prefix e) ip Hwe Hip) as (b&->&Hb). cbn [mbind res_bind].
  unfold in_prefix, hasZone, Addr_BitLen, addr_val, net in Hb. rewrite Hz, Hze, Hv, Hn, Hp in Hb.
  destruct (Z.eqb_spec (val (addr ip) / 2 ^ (128 - n)) (p / 2 ^ (128 - n))) as [E|E].
  - rewrite (proj2 Hb) by (by split_and!). by exists e.
  - destruct b; [|exact IH]. destruct (proj1 Hb eq_refl) as (_&_&_&_&E'). done.
Qed.
Lemma classify_zoned t ip : wf_addr ip → Forall (λ e, wf_prefix (pt_Prefix e)) t → hasZone ip = true → classify_loop t ip = Ok no_entry.
Proof.
  intros Hip Ht Hz. induction Ht as [|e t He Ht IH]; [done|]. cbn [classify_loop].
  destruct (contains_in_prefix (pt_Prefix e) ip He Hip) as (b&->&Hb). cbn [mbind res_bind].
  destruct b; [|exact IH]. destruct (proj1 Hb eq_refl) as (_&E'&_). congruence.
Qed.
Lemma lookup_addr_eq ip : wf_addr ip → z ip ≠ z0 → hasZone ip = false → lookup_addr ip = MkAddr (addr ip) z6noz.
Proof.
  intros [Hu _] H0 Hz. unfold lookup_addr. destruct (zoneless ip Hz) as [E|[E|E]]; [done| |].
  - unfold Addr_Is4. rewrite bool_decide_true by done. by apply AddrFrom16_As16.
  - unfold Addr_Is4. rewrite bool_decide_false by congruence. destruct ip as [u ?]. cbn in *. by subst.
Qed.
(** The attributes of an address. *)
Lemma attr_rfc a : wf_addr a → z a ≠ z0 → Scope (attr_of a) = rfc_scope (val (addr a)) ∧
  (Precedence (attr_of a), Label (attr_of a)) = if hasZone a then (0, 0) else row_of rfc_table (val (addr a)).
Proof.
  intros Hw H0. unfold attr_of, ipAttrOf. assert (Hv : Addr_IsValid a = true) by (unfold Addr_IsValid; by rewrite bool_decide_false). rewrite Hv. cbn [negb].
  rewrite scope_rfc by done. unfold Classify. fold (lookup_addr a). destruct (hasZone a) eqn:Hz.
  - assert (E : lookup_addr a = a).
    { unfold lookup_addr, Addr_Is4. rewrite bool_decide_false; [done|]. intros E. unfold hasZone in Hz. rewrite E in Hz. done. }
    rewrite E, classify_zoned by (done || apply table_wf). done.
  - destruct (classify_row rfc6724policyTable rfc_table (lookup_addr a) table_matches (lookup_addr_wf a Hw)) as (e&E&Hr); [by rewrite lookup_addr_eq|].
    rewrite E. cbn [mbind res_bind Scope Precedence Label]. split; [done|]. rewrite Hr. by rewrite lookup_addr_eq.
Qed.
(** *** The common prefix *)
Lemma shift_loop_byte a b : is_u8 a → is_u8 b → a ≠ b → shift_loop 8 a b 8 = 7 - Z.log2 (Z.lxor a b).
Proof.
  intros Ha Hb Hn. assert (H : forallb (λ a, forallb (λ b, (a =? b) || (shift_loop 8 a b 8 =? 7 - Z.log2 (Z.lxor a b))) all_bytes) all_bytes = true)
    by (vm_compute; reflexivity).
  rewrite forallb_forall in H. specialize (H a (all_bytes_in a Ha)). rewrite forallb_forall in H. specialize (H b (all_bytes_in b Hb)). lia.
Qed.
Lemma lxor_concat k x y a b : 0 <= k → 0 <= a < 2 ^ k → 0 <= b < 2 ^ k →
  Z.lxor (x * 2 ^ k + a) (y * 2 ^ k + b) / 2 ^ k = Z.lxor x y ∧ (x = y → Z.lxor (x * 2 ^ k + a) (y * 2 ^ k + b) = Z.lxor a b).
Proof.
  intros Hk Ha Hb. assert (Hp : 0 < 2 ^ k) by lia. assert (E : ∀ x a, 0 <= a < 2 ^ k → Z.shiftr (x * 2 ^ k + a) k = x).
  { intros. rewrite Z.shiftr_div_pow2 by done. rewrite Z.div_add_l by lia. rewrite Z.div_small by done. lia. }
  split; [rewrite <- Z.shiftr_div_pow2, Z.shiftr_lxor, !E by lia; done|]. intros <-. apply Z.bits_inj'. intros n Hn. rewrite !Z.lxor_spec.
  assert (L : ∀ a, 0 <= a < 2 ^ k → n < k → Z.testbit (x * 2 ^ k + a) n = Z.testbit a n).
  { intros c Hc Hnk. rewrite <- (Z.mod_pow2_bits_low (x * 2 ^ k + c) k n), <- (Z.mod_pow2_bits_low c k n) by lia.
    f_equal. rewrite Z.add_comm, Z.mod_add by lia. done. }
  assert (G : ∀ c, 0 <= c < 2 ^ k → k <= n → Z.testbit (x * 2 ^ k + c) n = Z.testbit x (n - k) ∧ Z.testbit c n = false).
  { intros c Hc Hkn. split; [rewrite <- (E x c Hc) at 2; rewrite Z.shiftr_spec by lia; f_equal; lia|].
    rewrite <- (Z.mod_small c (2 ^ k)) by done. apply Z.mod_pow2_bits_high. lia. }
  destruct (Z.lt_ge_cases n k) as [Hnk|Hnk]; [by rewrite !L|]. destruct (G a Ha Hnk) as [-> ->], (G b Hb Hnk) as [-> ->]. by rewrite xorb_nilpotent.
Qed.
Lemma prefix_loop_be a : is_bytes a → ∀ b cpl, is_bytes b → length a = length b →
  prefix_loop a b cpl = cpl + (if Z.lxor (be a) (be b) =? 0 then 8 * len a else 8 * len a - 1 - Z.log2 (Z.lxor (be a) (be b))).
Proof.
  induction 1 as [|x a Hx Ha IH]; intros [|y b] cpl Hb Hl; cbn [length] in Hl; try done; [by rewrite Z.add_0_r|].
  apply list.Forall_cons in Hb as [Hy Hb]. cbn [prefix_loop be]. assert (El : len b = len a) by (unfold len; lia). rewrite El.
  pose proof (len_nonneg a) as Hn. pose proof (be_range a Ha) as Ra. pose proof (be_range b Hb) as Rb. rewrite El in Rb.
  set (k := 8 * len a) in *. destruct (lxor_concat k x y (be a) (be b)) as [E1 E2]; [lia|done|done|]. rewrite len_cons.
  destruct (Z.eqb_spec x y) as [->|Hxy].
  - rewrite IH by (done || lia). rewrite E2 by done. destruct (_ =? 0); lia.
  - rewrite shift_loop_byte by done. set (n := Z.lxor (x * 2 ^ k + be a) (y * 2 ^ k + be b)) in *.
    assert (Hne : Z.lxor x y ≠ 0) by (by intros E%Z.lxor_eq). unfold is_u8 in *.
    assert (Hnn : 0 <= n) by (apply Z.lxor_nonneg; nia).
    assert (Hn0 : n ≠ 0) by (intros E; rewrite E in E1; rewrite Z.div_0_l in E1 by lia; lia). rewrite (proj2 (Z.eqb_neq _ _) Hn0).
    rewrite <- E1, <- Z.shiftr_div_pow2, Z.log2_shiftr by lia.
    assert (k <= Z.log2 n); [|lia]. apply Z.log2_le_pow2; [lia|]. destruct (Z.le_gt_cases (2 ^ k) n) as [|Hlt]; [done|].
    rewrite Z.div_small in E1 by lia. lia.
Qed.
Lemma hi_top u : wf128 u → hi u = val u / 2 ^ 64.
Proof. intros [Hh Hl]. unfold val, is_u64 in *. rewrite Z.div_add_l, Z.div_small by lia. lia. Qed.
Lemma common_shared s b : wf_addr s → z s ≠ z0 → z s ≠ z4 → is_bytes b → length b = 16%nat → IP_To4 b = [] →
  commonPrefixLen s b = shared_bits (val (addr s)) (be b).
Proof.
  intros [Hu _] H0 H4 Hb Hl Ht. unfold commonPrefixLen. rewrite Ht. cbn [is_nil negb].
  assert (Es : AsSlice s = bePutUint64 (hi (addr s)) ++ bePutUint64 (lo (addr s))) by (unfold AsSlice; by destruct (z s)). rewrite Es.
  assert (El : len b = 16) by (unfold len; lia). rewrite El. change (len (bePutUint64 _ ++ bePutUint64 _)) with 16. cbn [Z.eqb Pos.eqb Z.gtb Z.compare Pos.compare Pos.compare_cont negb].
  change (take 8 (bePutUint64 _ ++ bePutUint64 _)) with (bePutUint64 (hi (addr s))).
  rewrite prefix_loop_be; [|apply bePutUint64_bytes|by apply is_bytes_take|rewrite length_take, Hl; done].
  rewrite !be_8 by (done || apply bePutUint64_bytes || (by apply is_bytes_take) || (rewrite length_take; lia)).
  rewrite beUint64_put by apply Hu. change (beUint64 (take 8 b)) with (hi (addr (AddrFrom16 b))). rewrite !hi_top by (done || by apply AddrFrom16_wf).
  rewrite <- be_16 by done. unfold shared_bits. change (len (bePutUint64 _)) with 8. destruct (_ =? 0); lia.
Qed.
(** A destination is the number it writes. *)
Lemma dest_number a : is_bytes (IP a) →
  match number (IP a) with
  | Some v => z (dest_addr a) ≠ z0 ∧ hasZone (dest_addr a) = false ∧ val (addr (dest_addr a)) = v ∧ is_nil (IP_To4 (IP a)) = negb (is_ipv4 v) ∧
      (is_ipv4 v = false → length (IP a) = 16%nat ∧ IP_To4 (IP a) = [] ∧ v = be (IP a))
  | None => dest_addr a = zeroAddr ∧ IP_To4 (IP a) = [] ∧ len (IP a) ≠ 4 ∧ len (IP a) ≠ 16
  end.
Proof.
  intros Hb. unfold number, dest_addr, AddrFromSlice. destruct (Z.eqb_spec (len (IP a)) 4) as [E4|E4]; [|destruct (Z.eqb_spec (len (IP a)) 16) as [E16|E16]].
  - assert (Hw : wf_ip (IP a)) by (split; [done|left; unfold len in E4; lia]).
    destruct (ip_view (IP a) Hw) as [(a0&a1&a2&a3&Ha&Hi)|(Hl&_)]; [|unfold len in E4; lia].
    destruct Hi as [E|E]; [|by rewrite E in E4]. rewrite E. clear E. cbn [fst]. rewrite AddrFrom4_eq, be_4 by done. cbn [z addr].
    assert (E : val (U128 0 (v4_lo a0 a1 a2 a3)) = 0xffff * 2 ^ 32 + (a0 * 2 ^ 24 + a1 * 2 ^ 16 + a2 * 2 ^ 8 + a3)) by (unfold val, v4_lo; cbn [hi lo]; lia).
    destruct (v4_lo_wf _ _ _ _ Ha) as (Hu&Hs&_). assert (Em : is_ipv4 (0xffff * 2 ^ 32 + (a0 * 2 ^ 24 + a1 * 2 ^ 16 + a2 * 2 ^ 8 + a3)) = true).
    { rewrite <- E, mapped_val by (split; [done|exact Hu]). cbn [hi lo]. by rewrite Hs. }
    rewrite Em. by split_and!.
  - assert (Hl : length (IP a) = 16%nat) by (unfold len in E16; lia). cbn [fst]. pose proof (be_16 _ Hl Hb) as Ebe.
    assert (Ei : is_nil (IP_To4 (IP a)) = negb (is_ipv4 (be (IP a)))).
    { rewrite Ebe, mapped_val by (by apply AddrFrom16_wf). destruct (ip_view (IP a) (conj Hb (or_intror Hl))) as [(a0&a1&a2&a3&Ha&Hi)|(_&->&_&Em)].
      - destruct Hi as [E|E]; [rewrite E in Hl; discriminate Hl|]. rewrite E, AddrFrom16_IPv4 by done. cbn [addr hi lo].
        destruct (v4_lo_wf _ _ _ _ Ha) as (_&->&_). done.
      - unfold Addr_Is4In6 in Em. change (Addr_Is6 (AddrFrom16 (IP a))) with true in Em. rewrite andb_true_l in Em. by rewrite Em. }
    split; [done|]. split; [done|]. split; [done|]. split; [done|]. intros Ef. split; [done|]. split; [|done].
    rewrite Ef in Ei. by destruct (IP_To4 (IP a)).
  - destruct (toAddr_invalid (IP a)) as [_ ->]; [unfold len in *; lia|unfold len in *; lia|]. done.
Qed.
(** What the code compares of a destination and its source is what the rules
    of the RFC compare. *)
Lemma key_rank a s : is_bytes (IP a) → wf_addr s → key_of (entry_of a s) = rank a s.
Proof.
  intros Hb Hs. unfold key_of, entry_of, rank, Addr_IsValid. destruct (decide (z s = z0)) as [H0|H0]; [by rewrite !bool_decide_true|].
  rewrite !(bool_decide_false (z s = z0)) by done. cbn [negb]. destruct (attr_rfc s Hs H0) as [-> Es]. apply (f_equal snd) in Es. cbn [snd] in Es. rewrite Es. clear Es.
  assert (snd (if hasZone s then (0, 0) else row_of rfc_table (val (addr s))) = if hasZone s then 0 else snd (row_of rfc_table (val (addr s)))) as -> by (by destruct (hasZone s)).
  pose proof (dest_number a Hb) as Hd. destruct (number (IP a)) as [v|].
  - destruct Hd as (Hz&Hn&Hv&Hi&H6). destruct (attr_rfc (dest_addr a) (dest_addr_wf a Hb) Hz) as [-> Ed]. rewrite Hn, Hv in Ed. rewrite <- Ed, Hv, Hi.
    do 5 f_equal. destruct (is_ipv4 v); [done|]. cbn [negb orb]. destruct (H6 eq_refl) as (Hl&Ht&->).
    destruct (decide (z s = z4)) as [H4|H4]; [|rewrite bool_decide_false by done; by rewrite common_shared].
    rewrite bool_decide_true by done. unfold commonPrefixLen, AsSlice. rewrite Ht, H4. cbn [is_nil negb]. unfold len. by rewrite Hl.
  - destruct Hd as (Ez&Ht&N4&N16). rewrite Ez, Ht. change (attr_of zeroAddr) with zeroAttr. cbn [Scope Precedence Label zeroAttr is_nil].
    do 5 f_equal. unfold commonPrefixLen. rewrite Ht. cbn [is_nil negb].
    assert (El : (len (AsSlice s) =? len (IP a)) = false); [|by rewrite El].
    apply Z.eqb_neq. unfold AsSlice. destruct (z s); [done| | |]; (change (len (bePutUint32 _)) with 4 || change (len (bePutUint64 _ ++ bePutUint64 _)) with 16); lia.
Qed.
Definition good (e : entry) : Prop := is_bytes (IP (dest e)) ∧ wf_addr (source e) ∧ e = entry_of (dest e) (source e).
Lemma less_entries_prefer a b : good a → good b → less_entries a b = prefer a b.
Proof.
  intros (Ha1&Ha2&Ea) (Hb1&Hb2&Eb). rewrite Ea, Eb, less_entries_key by (by apply consistent_entry). by rewrite !key_rank.
Qed.

(** ** Sorting the four slices is sorting the entries *)
Definition by_entries (d1 : byRFC6724) (d2 : sliceof prefer) : Prop :=
  addrs d1 = map dest (items d2) ∧ addrAttr d1 = map attr (items d2) ∧ srcs d1 = map source (items d2) ∧ srcAttr d1 = map sattr (items d2) ∧
  Forall good (items d2).
Lemma at_map {A B} (f : A → B) l i : at_ (map f l) i = (x ← at_ l i; Ok (f x)).
Proof. unfold at_. destruct (i <? 0); [done|]. rewrite list_lookup_fmap. by destruct (l !! Z.to_nat i). Qed.
Lemma set_at_map {A B} (f : A → B) l i x : set_at (map f l) i (f x) = (l' ← set_at l i x; Ok (map f l')).
Proof. unfold set_at. rewrite length_map. destruct (_ && _); [|done]. cbn. f_equal. symmetry. apply list_fmap_insert. Qed.
Lemma slice_Swap_map {A B} (f : A → B) l i j : slice_Swap (map f l) i j = (l' ← slice_Swap l i j; Ok (map f l')).
Proof.
  unfold slice_Swap. rewrite !at_map. destruct (at_ l j) as [x| |]; cbn [mbind res_bind]; [|done|done].
  destruct (at_ l i) as [y| |]; cbn [mbind res_bind]; [|done|done]. rewrite set_at_map. destruct (set_at l i x) as [l'| |]; cbn [mbind res_bind]; [|done|done].
  apply set_at_map.
Qed.
Lemma at_elem {A} (l : list A) i x : at_ l i = Ok x → x ∈ l.
Proof. unfold at_. destruct (i <? 0); [done|]. destruct (l !! Z.to_nat i) eqn:E; [|done]. intros [= <-]. by eapply list_elem_of_lookup_2. Qed.
Lemma set_at_Forall {A} (P : A → Prop) l i x l' : set_at l i x = Ok l' → Forall P l → P x → Forall P l'.
Proof. unfold set_at. destruct (_ && _); [|done]. intros [= <-] Hl Hx. by apply Forall_insert. Qed.
Lemma slice_Swap_Forall {A} (P : A → Prop) l i j l' : slice_Swap l i j = Ok l' → Forall P l → Forall P l'.
Proof.
  unfold slice_Swap. destruct (at_ l j) as [x| |] eqn:Ex; cbn [mbind res_bind]; try done. destruct (at_ l i) as [y| |] eqn:Ey; cbn [mbind res_bind]; try done.
  destruct (set_at l i x) as [l1| |] eqn:E1; cbn [mbind res_bind]; try done. intros E2 Hl. apply at_elem in Ex, Ey. rewrite list.Forall_forall in Hl.
  eapply set_at_Forall; [exact E2| |by apply Hl]. eapply set_at_Forall; [exact E1|by apply list.Forall_forall|by apply Hl].
Qed.
Lemma by_entry d1 d2 i : by_entries d1 d2 → byRFC6724_entry d1 i = at_ (items d2) i.
Proof.
  intros (E1&E2&E3&E4&_). unfold byRFC6724_entry. rewrite E1, E2, E3, E4, !at_map. by destruct (at_ (items d2) i) as [[[[? ?] ?] ?]| |].
Qed.
Lemma by_Less d1 d2 i j : by_entries d1 d2 → Less d1 i j = Less d2 i j.
Proof.
  intros HR. change (byRFC6724_Less d1 i j = slice_Less prefer (items d2) i j). unfold byRFC6724_Less, slice_Less. rewrite !(by_entry d1 d2) by done.
  destruct (at_ (items d2) i) as [a| |] eqn:Ea; cbn [mbind res_bind]; [|done|done]. destruct (at_ (items d2) j) as [b| |] eqn:Eb; cbn [mbind res_bind]; [|done|done].
  apply at_elem in Ea, Eb. destruct HR as (_&_&_&_&Hc). rewrite list.Forall_forall in Hc. f_equal. apply less_entries_prefer; by apply Hc.
Qed.
Lemma by_Swap d1 d2 i j : by_entries d1 d2 → res_rel by_entries (Swap d1 i j) (Swap d2 i j).
Proof.
  intros (E1&E2&E3&E4&Hc). change (res_rel by_entries (byRFC6724_Swap d1 i j) (l ← slice_Swap (items d2) i j; Ok (Slice l))).
  unfold byRFC6724_Swap. rewrite E1, E2, E3, E4, !slice_Swap_map. destruct (slice_Swap (items d2) i j) as [l| |] eqn:E; [|done|done].
  cbn. repeat split; try done. by eapply slice_Swap_Forall.
Qed.
Lemma attrs_loop_ok l src : length l = length src → Forall (λ a, is_bytes (IP a)) l → Forall wf_addr src →
  attrs_loop l src = Ok (map attr (zip_with entry_of l src), map sattr (zip_with entry_of l src)).
Proof.
  revert src. induction l as [|a l IH]; intros [|s src] Hl Hb Hs; cbn [length] in Hl; try done. cbn [attrs_loop zip_with map].
  apply list.Forall_cons in Hb as [Ha Hb]. apply list.Forall_cons in Hs as [Hs' Hs]. fold (dest_addr a).
  rewrite !ipAttrOf_ok by (done || by apply dest_addr_wf). cbn [mbind res_bind]. by rewrite IH by (done || lia).
Qed.
Lemma entries_of l src : length l = length src → map dest (zip_with entry_of l src) = l ∧ map source (zip_with entry_of l src) = src.
Proof.
  revert src. induction l as [|a l IH]; intros [|s src] Hl; cbn [length] in Hl; try done. cbn. destruct (IH src) as [-> ->]; [lia|done].
Qed.

Lemma entries_good l src : Forall (λ a, is_bytes (IP a)) l → Forall wf_addr src → Forall good (zip_with entry_of l src).
Proof.
  intros Hb Hs. apply list.Forall_forall. intros e He. apply list_elem_of_lookup in He as [k Hk].
  apply lookup_zip_with_Some in Hk as (a&s&->&Ha&Hs'). rewrite list.Forall_forall in Hb. rewrite list.Forall_forall in Hs.
  split; [apply Hb; by eapply list_elem_of_lookup_2|]. split; [|done]. apply Hs. by eapply list_elem_of_lookup_2.
Qed.
Lemma withSrcs_run l src : length l = length src → len l < 2 ^ 62 → Forall (λ a, is_bytes (IP a)) l → Forall wf_addr src →
  let es := zip_with entry_of l src in ∃ es', sortByRFC6724withSrcs l src = Ok (map dest es', map source es') ∧
    StronglySorted (le prefer) es' ∧ steq prefer es es'.
Proof.
  intros Hl Hn Hb Hs es. pose proof (entries_good l src Hb Hs) as Hc. destruct (entries_of l src Hl) as [Ed Es]. fold es in Ed, Es. unfold sortByRFC6724withSrcs.
  assert (El : (len l =? len src) = true) by (unfold len; rewrite Hl; apply Z.eqb_refl). rewrite El. cbn [negb].
  rewrite attrs_loop_ok by done. fold es. cbn [mbind res_bind].
  assert (HR : by_entries (MkBy l (map attr es) src (map sattr es)) (Slice es)) by (repeat split; cbn; done).
  pose proof (sim_Stable by_entries (λ d1 d2 HR, ltac:(by destruct HR as (E&_); cbn; rewrite E; unfold len; rewrite length_map)) by_Less by_Swap _ _ HR) as Hsim.
  destruct (Stable_run (lt := prefer) (Slice es : sliceof prefer)) as (d2&E2&Hs2&Hq2).
  { cbn. unfold es, len in *. rewrite length_zip_with. lia. }
  rewrite E2 in Hsim. destruct (Stable (MkBy l (map attr es) src (map sattr es))) as [d1| |]; cbn in Hsim; [|done|done].
  destruct Hsim as (H1&_&H3&_&_). exists (items d2). cbn [mbind res_bind]. by rewrite H1, H3.
Qed.
(** C36: Destinations are sorted by the rules of RFC 6724 that the code implements
    (1, 2, 5, 6, 8 and 9), written down here on 128-bit numbers: a destination
    with a source first, then one whose scope is its source's, then one whose
    label in the default policy table is its source's, then the higher
    precedence, the smaller scope, and to an IPv6 destination the more of the
    first 64 bits shared with an IPv6 source.  Less, which asks the policy table,
    classifies the address and counts common bits, answers what [prefer] says for
    any two of the entries, which makes it a strict weak order although its last
    rule compares IPv6 addresses only.  The sort does not panic; destinations and
    sources stay paired and come out ascending by that order, ties as they were,
    which is the only such order.  A source that has a zone is in no row of the
    table (precedence and label zero). *)
Theorem sortByRFC6724_spec l src : length l = length src → len l < 2 ^ 62 → Forall (λ a, is_bytes (IP a)) l → Forall wf_addr src →
  let es := zip_with entry_of l src in
  (∀ a b, a ∈ es → b ∈ es → less_entries a b = prefer a b) ∧
  ∃ es', sortByRFC6724withSrcs l src = Ok (map dest es', map source es') ∧
    StronglySorted (le prefer) es' ∧ steq prefer es es' ∧ (∀ fs, StronglySorted (le prefer) fs → steq prefer es fs → fs = es').
Proof.
  intros Hl Hn Hb Hs es. pose proof (entries_good l src Hb Hs) as Hc. fold es in Hc.
  split; [intros a b Ha Hb'; rewrite list.Forall_forall in Hc; by apply less_entries_prefer; apply Hc|].
  destruct (withSrcs_run l src Hl Hn Hb Hs) as (es'&E&Hs'&Hq). exists es'. split; [done|]. split; [done|]. split; [done|].
  intros fs Hf Hqf. apply (steq_unique prefer); [done|done|]. by rewrite <- Hqf.
Qed.
(** An IPv4 destination, one without a route, and an IPv6 one. *)
Definition dest4 : IPAddr := MkIPAddr (IPv4 192 0 2 1) [].
Definition dest_cut : IPAddr := MkIPAddr (arr16 [0xfe; 0x80; 0; 0; 0; 0; 0; 0; 0; 0; 0; 0; 0; 0; 0; 7]) [].
Definition dest6 : IPAddr := MkIPAddr (arr16 [0x20; 0x01; 0x0d; 0xb8; 0; 0; 0; 0; 0; 0; 0; 0; 0; 0; 0; 1]) [].
Definition sample_srcs : list Addr :=
  [AddrFrom4 [192; 0; 2; 9]; zeroAddr; AddrFrom16 (arr16 [0x20; 0x01; 0x0d; 0xb8; 0; 0; 0; 0; 0; 0; 0; 0; 0; 0; 0; 2])].
Lemma sortByRFC6724_spec_witness :
  sortByRFC6724 (λ _, sample_srcs) [dest4; dest_cut; dest6] = Ok [dest6; dest4; dest_cut] ∧
  ∃ es', sortByRFC6724withSrcs [dest4; dest_cut; dest6] sample_srcs = Ok (map dest es', map source es') ∧
    StronglySorted (le prefer) es' ∧ steq prefer (zip_with entry_of [dest4; dest_cut; dest6] sample_srcs) es' ∧
    (∀ fs, StronglySorted (le prefer) fs → steq prefer (zip_with entry_of [dest4; dest_cut; dest6] sample_srcs) fs → fs = es').
Proof.
  split; [vm_compute; reflexivity|].
  refine (proj2 (sortByRFC6724_spec [dest4; dest_cut; dest6] sample_srcs eq_refl eq_refl _ _)).
  - repeat constructor; vm_compute; intros H; discriminate H.
  - repeat constructor; vm_compute; intros H; discriminate H.
Defined.
