(* ===== verification/DnsNames.v ===== *)
(** * package net: domain names and the records of a DNS answer (dnsclient.go)

    Names for reverse lookups, the syntax of domain names, and the orders in
    which SRV and MX records are handed out.  Random numbers come from a source
    that is an argument.  equalASCIIName, on names as messages have them, is in
    DnsExchange. *)
From S2P Require Import Prelude Strconv NetHost NetIP SortOps.

(** ** Names for reverse lookups *)
(** The two nibbles of each byte, last byte first. *)
Fixpoint nibble_loop (rip : bytes) (buf : bytes) : bytes :=
  match rip with
  | [] => buf
  | v :: rip => nibble_loop rip (buf ++ [hex_digit (Z.land v 0xF); "."%byte; hex_digit (Z.shiftr v 4); "."%byte])
  end.
Definition reverseaddr (addr : bytes) : res bytes :=
  ip ← ParseIP addr;
  if is_nil ip then Err (DNSError "unrecognized address"%go addr [] false false false)
  else if negb (is_nil (IP_To4 ip)) then
    a ← at_ ip 15; b ← at_ ip 14; c ← at_ ip 13; d ← at_ ip 12;
    a ← Uitoa a; b ← Uitoa b; c ← Uitoa c; d ← Uitoa d;
    Ok (a ++ "."%go ++ b ++ "."%go ++ c ++ "."%go ++ d ++ ".in-addr.arpa."%go)
  else Ok (nibble_loop (rev ip) [] ++ "ip6.arpa."%go).

(** ** Domain names *)
(** The loop of isDomainName and the test after it; [None] is [return false]
    inside the loop. *)
Fixpoint name_loop (s : bytes) (last : Z) (nonNumeric : bool) (partlen : Z) : bool :=
  match s with
  | [] => if (last =? "-"%byte) || (partlen >? 63) then false else nonNumeric
  | c :: s =>
      if (("a"%byte <=? c) && (c <=? "z"%byte)) || (("A"%byte <=? c) && (c <=? "Z"%byte)) || (c =? "_"%byte) then
        name_loop s c true (partlen + 1)
      else if ("0"%byte <=? c) && (c <=? "9"%byte) then name_loop s c nonNumeric (partlen + 1)
      else if c =? "-"%byte then
        if last =? "."%byte then false else name_loop s c true (partlen + 1)
      else if c =? "."%byte then
        if (last =? "."%byte) || (last =? "-"%byte) then false
        else if (partlen >? 63) || (partlen =? 0) then false
        else name_loop s c nonNumeric 0
      else false
  end.
Definition isDomainName (s : bytes) : res bool :=
  if beq s "."%go then Ok true
  else
    let l := len s in
    bad ← (if (l =? 0) || (l >? 254) then Ok true
           else if l =? 254 then c ← at_ s (l - 1); Ok (negb (c =? "."%byte)) else Ok false);
    if (bad : bool) then Ok false else Ok (name_loop s "."%byte false 0).
Definition absDomainName (s : bytes) : res bytes :=
  if negb (IndexByteString s "."%byte =? -1) then
    c ← at_ s (len s - 1); Ok (if negb (c =? "."%byte) then s ++ "."%go else s)
  else Ok s.

(** ** Records *)
Record SRV : Set := MkSRV { Target : bytes; Port : Z; Priority : Z; Weight : Z }.
Record MX : Set := MkMX { Host : bytes; Pref : Z }.
Definition srv_lt (a b : SRV) : bool :=
  (Priority a <? Priority b) || ((Priority a =? Priority b) && (Weight a <? Weight b)).
Definition byPriorityWeight : Type := sliceof srv_lt.
Definition mx_lt (a b : MX) : bool := Pref a <? Pref b.
Definition byPref : Type := sliceof mx_lt.

Section rand.
Context {R : Type} (runtime_rand : R → Z * R).
Definition randInt (g : R) : Z * R := let '(x, g) := runtime_rand g in (Z.shiftr (u64 x) 1, g).
Definition randIntn (n : Z) (g : R) : res (Z * R) :=
  if n =? 0 then Panic [Lit "integer divide by zero"%go] else let '(x, g) := randInt g in Ok (Z.rem x n, g).

(** The first record at which the running sum of the weights goes past [n] is
    swapped to the front. *)
Fixpoint pick_loop (rest addrs : list SRV) (s n i : Z) : res (list SRV) :=
  match rest with
  | [] => Ok addrs
  | addr :: rest =>
      let s := s + Weight addr in
      if s >? n then if i >? 0 then slice_Swap addrs 0 i else Ok addrs
      else pick_loop rest addrs s n (i + 1)
  end.
(** [for sum > 0 && len(addrs) > 1], each turn giving up the first record. *)
Fixpoint shuffle_loop (fuel : nat) (addrs : list SRV) (sum : Z) (g : R) : res (list SRV * R) :=
  match fuel with
  | O => Panic []
  | S fuel =>
      if (sum >? 0) && (len addrs >? 1) then
        '(n, g) ← randIntn sum g;
        addrs ← pick_loop addrs addrs 0 n 0;
        first ← at_ addrs 0;
        rest ← from addrs 1;
        '(rest, g) ← shuffle_loop fuel rest (sum - Weight first) g;
        Ok (first :: rest, g)
      else Ok (addrs, g)
  end.
Definition shuffleByWeight (addrs : list SRV) (g : R) : res (list SRV * R) :=
  let sum := foldl (λ sum addr, sum + Weight addr) 0 addrs in
  shuffle_loop (S (length addrs)) addrs sum g.
(** [addrs[i:j].shuffleByWeight()], in place. *)
Definition shuffle_range (addrs : list SRV) (i j : Z) (g : R) : res (list SRV * R) :=
  t ← slice addrs i j;
  '(t, g) ← shuffleByWeight t g;
  front ← upto addrs i;
  back ← from addrs j;
  Ok (front ++ t ++ back, g).
(** The loop over [j], for [k] more turns. *)
Fixpoint group_loop (k : nat) (addrs : list SRV) (i j : Z) (g : R) : res (list SRV * Z * R) :=
  match k with
  | O => Ok (addrs, i, g)
  | S k =>
      a ← at_ addrs i; b ← at_ addrs j;
      if negb (Priority a =? Priority b) then
        '(addrs, g) ← shuffle_range addrs i j g;
        group_loop k addrs j (j + 1) g
      else group_loop k addrs i (j + 1) g
  end.
Definition byPriorityWeight_sort (addrs : list SRV) (g : R) : res (list SRV * R) :=
  d ← Sort (Slice addrs : byPriorityWeight);
  let addrs := items d in
  '(addrs, i, g) ← group_loop (length addrs - 1) addrs 0 1 g;
  shuffle_range addrs i (len addrs) g.

(** The loop of byPref's sort: [i] of [k] more turns. *)
Fixpoint mx_loop (k : nat) (s : list MX) (i : Z) (g : R) : res (list MX * R) :=
  match k with
  | O => Ok (s, g)
  | S k =>
      '(j, g) ← randIntn (i + 1) g;
      s ← slice_Swap s i j;
      mx_loop k s (i + 1) g
  end.
Definition byPref_sort (s : list MX) (g : R) : res (list MX * R) :=
  '(s, g) ← mx_loop (length s) s 0 g;
  d ← Sort (Slice s : byPref);
  Ok (items d, g).
End rand.
