(* ===== verification/DnsNamesProps.v ===== *)
(** * package net: domain names, SRV and MX records, properties *)
From stdpp Require Import sorting.
From S2P Require Import Prelude Strconv NetipAddr NetipText NetipRoundtrip NetHost NetHostProps NetIP NetIPProps NetipProps SortOps SortSpec SortProps DnsNames.

(** ** The syntax of domain names *)
Definition letter (c : Z) : Prop := "a"%byte <= c <= "z"%byte ∨ "A"%byte <= c <= "Z"%byte ∨ c = "_"%byte.
Definition digit_char (c : Z) : Prop := "0"%byte <= c <= "9"%byte.
Definition nonNumeric (c : Z) : Prop := letter c ∨ c = "-"%byte.
Definition name_char (c : Z) : Prop := nonNumeric c ∨ digit_char c.
(** 1 to 63 letters, digits, underscores and hyphens, no hyphen at either end. *)
Definition label (l : bytes) : Prop :=
  0 < len l <= 63 ∧ Forall name_char l ∧ list.head l ≠ Some "-"%byte ∧ list.last l ≠ Some "-"%byte.
(** Labels with dots between them, and perhaps a dot at the end. *)
Inductive labels : bytes → Prop :=
| labels_nil : labels []
| labels_last l : label l → labels l
| labels_dot l s : label l → labels s → labels (l ++ "."%byte :: s).
Definition domain_name (s : bytes) : Prop :=
  s ≠ [] ∧ (len s <= 253 ∨ len s = 254 ∧ list.last s = Some "."%byte) ∧ labels s ∧ Exists nonNumeric s.

Lemma name_char_dot c : name_char c → c ≠ "."%byte.
Proof. unfold name_char, nonNumeric, letter, digit_char. lia. Qed.
Lemma label_no_dot l : label l → ¬ In "."%byte l.
Proof. intros (_&Hl&_) Hi. rewrite List.Forall_forall in Hl. by apply (name_char_dot _ (Hl _ Hi)). Qed.
Lemma labels_first c s : labels (c :: s) → name_char c ∧ c ≠ "-"%byte.
Proof.
  assert (H : ∀ l t, label l → l ++ t = c :: s → name_char c ∧ c ≠ "-"%byte).
  { intros [|d l] t (Hn&Hl&Hh&_) E; [change (len []) with 0 in Hn; lia|]. injection E as -> _. apply list.Forall_cons in Hl as [Hd _].
    split; [done|]. intros ->. by apply Hh. }
  intros Hs. inversion Hs as [|l Hl|l t Hl _ E]; [by apply (H (c :: s) []); rewrite ?app_nil_r|by eapply H].
Qed.
Lemma labels_chars s : labels s → Forall (λ c, name_char c ∨ c = "."%byte) s.
Proof.
  induction 1 as [|l Hl|l s Hl _ IH]; [constructor| |]; [|apply list.Forall_app; split; [|by constructor; [right|]]];
    (destruct Hl as (_&Hl&_); eapply list.Forall_impl; [exact Hl|by left]).
Qed.
Lemma labels_single p : ¬ In "."%byte p → p ≠ [] → labels p → label p.
Proof. intros Hp Hn Hl. inversion Hl as [|l Hl' |l t _ _ E]; subst; [done|done|]. exfalso. apply Hp, in_app_iff. right. by left. Qed.
Lemma labels_cut p s : ¬ In "."%byte p → labels (p ++ "."%byte :: s) ↔ label p ∧ labels s.
Proof.
  intros Hp. split; [|by intros [??]; constructor]. intros Hl. remember (p ++ "."%byte :: s) as t eqn:E. destruct Hl as [|l Hl|l t Hl Ht].
  - by destruct p.
  - exfalso. apply (label_no_dot _ Hl). rewrite E. apply in_app_iff. right. by left.
  - apply app_cons_unique in E as [-> ->]; [done|by apply label_no_dot|done].
Qed.

(** The loop, [p] being what it has read of the current label. *)
Lemma name_loop_spec s : ∀ p nn, Forall name_char p → list.head p ≠ Some "-"%byte →
  name_loop s (default "."%byte (list.last p)) nn (len p) = true ↔ labels (p ++ s) ∧ (nn = true ∨ Exists nonNumeric s).
Proof.
  induction s as [|c s IH]; intros p nn Hp Hh; cbn [name_loop].
  - rewrite app_nil_r. destruct (decide (p = [])) as [->|Hn].
    { change (nn = true ↔ labels [] ∧ (nn = true ∨ Exists nonNumeric [])). rewrite Exists_nil. split; [intros ->; split; [constructor|by left]|by intros [_ [H|[]]]]. }
    assert (Hd : ¬ In "."%byte p) by (intros Hi; rewrite List.Forall_forall in Hp; by apply (name_char_dot _ (Hp _ Hi))).
    assert (Hlast : (default "."%byte (list.last p) =? "-"%byte) = true ↔ list.last p = Some "-"%byte).
    { destruct (list.last p) as [x|] eqn:E; cbn; [rewrite Z.eqb_eq; split; congruence|by apply last_None in E]. }
    assert (H0 : 0 < len p) by (destruct p; [done|rewrite len_cons; pose proof (len_nonneg p); lia]).
    rewrite Exists_nil. destruct (default "."%byte (list.last p) =? "-"%byte) eqn:E; cbn [orb].
    { split; [done|]. intros [Hl _]. apply labels_single in Hl as (_&_&_&Hl); [|done|done]. by destruct (Hl (proj1 Hlast eq_refl)). }
    destruct (Z.gtb_spec (len p) 63) as [Hg|Hg].
    { split; [done|]. intros [Hl _]. apply labels_single in Hl as (?&_); [lia|done|done]. }
    split; [intros ->; split; [|by left]|by intros [_ [H|[]]]]. apply labels_last. repeat split; [lia|lia|done|done|]. intros Hl. apply Hlast in Hl. congruence.
  - (* reading one more character of the label *)
    assert (Hread : ∀ nn', name_char c → (p = [] → c ≠ "-"%byte) → (nn' = true ↔ nn = true ∨ nonNumeric c) →
      name_loop s c nn' (len p + 1) = true ↔ labels (p ++ c :: s) ∧ (nn = true ∨ Exists nonNumeric (c :: s))).
    { intros nn' Hc Hd Hn. specialize (IH (p ++ [c]) nn'). rewrite last_snoc, len_app, <- app_assoc in IH. cbn [from_option id app] in IH.
      change (len [c]) with 1 in IH. rewrite IH, Exists_cons, Hn; [tauto|by apply list.Forall_app; split; [|constructor]|].
      destruct p; [cbn; intros [= E]; by apply Hd|done]. }
    assert (Hbad : ¬ name_char c → c ≠ "."%byte → ¬ labels (p ++ c :: s)).
    { intros Hc Hd Hl. apply labels_chars, list.Forall_app in Hl as [_ Hl]. apply list.Forall_cons in Hl as [[H|H] _]; done. }
    destruct ((("a"%byte <=? c) && (c <=? "z"%byte)) || (("A"%byte <=? c) && (c <=? "Z"%byte)) || (c =? "_"%byte)) eqn:E1.
    { assert (letter c) by (unfold letter; lia). apply Hread; [by left; left|unfold letter in *; lia|]. split; [intros _; right; by left|done]. }
    assert (~ letter c) by (unfold letter; lia).
    destruct (("0"%byte <=? c) && (c <=? "9"%byte)) eqn:E2.
    { assert (digit_char c) by (unfold digit_char; lia). apply Hread; [by right|unfold digit_char in *; lia|].
      split; [by left|]. intros [?|[?|?]]; [done|done|unfold digit_char in *; lia]. }
    destruct (c =? "-"%byte) eqn:E3.
    { apply Z.eqb_eq in E3 as ->. destruct (decide (p = [])) as [->|Hn].
      - cbn [list.last from_option id]. rewrite Z.eqb_refl. split; [done|]. intros [Hl _]. by apply labels_first in Hl as [_ ?].
      - assert (Hl : (default "."%byte (list.last p) =? "."%byte) = false).
        { apply Z.eqb_neq. destruct (list.last p) as [x|] eqn:E; [|by apply last_None in E]. cbn. apply name_char_dot.
          rewrite list.Forall_forall in Hp. apply Hp. by eapply last_Some_elem_of. }
        rewrite Hl. apply Hread; [by left; right|done|]. split; [intros _; right; by right|done]. }
    destruct (c =? "."%byte) eqn:E4; cycle 1.
    { split; [done|]. intros [Hl _]. apply Hbad in Hl; [done| |lia]. intros [[?|?]|?]; [done|lia|unfold digit_char in *; lia]. }
    apply Z.eqb_eq in E4 as ->. assert (Hd : ¬ In "."%byte p) by (intros Hi; rewrite List.Forall_forall in Hp; by apply (name_char_dot _ (Hp _ Hi))).
    rewrite (labels_cut p s Hd).
    assert (Hlab : label p ↔ (default "."%byte (list.last p) =? "."%byte) || (default "."%byte (list.last p) =? "-"%byte) = false ∧ (len p >? 63) || (len p =? 0) = false).
    { unfold label. pose proof (len_nonneg p). destruct (list.last p) as [x|] eqn:E; cbn [from_option id].
      - assert (x ≠ "."%byte) by (apply name_char_dot; rewrite list.Forall_forall in Hp; apply Hp; by eapply last_Some_elem_of).
        split; [intros (?&?&?&?); assert (x ≠ "-"%byte) by congruence; lia|]. intros [Hx1 Hx2]. split; [lia|]. split; [done|]. split; [done|]. intros [= ->]. lia.
      - apply last_None in E as ->. split; [intros [Hx _]; change (len []) with 0 in Hx; lia|]. by intros [_ Hx]. }
    destruct (_ || _) eqn:E5 in |- *; [split; [done|]; intros [[Hl _] _]; apply Hlab in Hl as [? _]; congruence|].
    destruct ((len p >? 63) || (len p =? 0)) eqn:E6 in |- *; [split; [done|]; intros [[Hl _] _]; apply Hlab in Hl as [_ ?]; congruence|].
    specialize (IH [] nn). cbn [list.last from_option id app] in IH. change (len []) with 0 in IH. rewrite IH, Exists_cons; [|constructor|done].
    assert (¬ nonNumeric "."%byte) by (unfold nonNumeric, letter; lia). rewrite Hlab, E5, E6. tauto.
Qed.
(** isDomainName accepts the root and the names of labels that have a letter, a
    hyphen or an underscore somewhere and leave room for the two length bytes of
    their wire form; it answers on every string. *)
Lemma isDomainName_run s : ∃ b, isDomainName s = Ok b ∧ (b = true ↔ s = "."%go ∨ domain_name s).
Proof.
  unfold isDomainName. destruct (beq s "."%go) eqn:Er.
  { exists true. apply beq_eq in Er as ->. split; [done|]. split; [by left|done]. }
  assert (Hr : s ≠ "."%go) by (intros ->; done).
  assert (Hb : ∃ bad : bool, (if (len s =? 0) || (len s >? 254) then Ok true
     else if len s =? 254 then c ← at_ s (len s - 1); Ok (negb (c =? "."%byte)) else Ok false) = Ok bad ∧
     (bad = false ↔ s ≠ [] ∧ (len s <= 253 ∨ len s = 254 ∧ list.last s = Some "."%byte))).
  { pose proof (len_nonneg s). destruct (Z.eqb_spec (len s) 0) as [E0|E0]; cbn [orb].
    { exists true. split; [done|]. apply len_0 in E0 as ->. split; [done|]. by intros [? _]. }
    assert (Hne : s ≠ []) by (intros ->; done). destruct (Z.gtb_spec (len s) 254); [exists true; split; [done|]; split; [done|]; intros [_ ?]; lia|].
    destruct (Z.eqb_spec (len s) 254) as [E4|E4]; [|exists false; split; [done|]; split; [intros _; split; [done|lia]|done]].
    destruct (exists_last Hne) as (t&c&->).
    rewrite at_last. cbn [mbind res_bind]. exists (negb (c =? "."%byte)). split; [done|]. rewrite last_snoc. rewrite negb_false_iff, Z.eqb_eq.
    split; [intros ->; split; [done|by right]|]. intros [_ [?|[_ [= ?]]]]; [lia|done]. }
  destruct Hb as (bad&->&Hb). cbn [mbind res_bind]. destruct bad.
  { exists false. split; [done|]. split; [done|]. intros [?|(Hx&Hy&_)]; [done|]. by rewrite (proj2 Hb (conj Hx Hy)). }
  eexists. split; [done|]. pose proof (name_loop_spec s [] false ltac:(constructor) ltac:(done)) as H. cbn [list.last from_option id app] in H. change (len []) with 0 in H.
  rewrite H. unfold domain_name. destruct (proj1 Hb eq_refl). naive_solver.
Qed.

(** ** Names for reverse lookups *)
#[global] Instance label_dec l : Decision (label l).
Proof. unfold label, name_char, nonNumeric, letter, digit_char. apply _. Defined.
Definition dec_text (b : Z) : bytes := match Uitoa b with Ok t => t | _ => [] end.
Definition nibbles (v : Z) : bytes := [hex_digit (Z.land v 0xF); "."%byte; hex_digit (Z.shiftr v 4); "."%byte].
Lemma byte_texts b : is_u8 b →
  (Uitoa b = Ok (dec_text b) ∧ label (dec_text b) ∧ len (dec_text b) <= 3 ∧ fst (fst (dtoi (dec_text b))) = b) ∧
  label [hex_digit (Z.land b 0xF)] ∧ label [hex_digit (Z.shiftr b 4)] ∧
  fst (fst (xtoi [hex_digit (Z.shiftr b 4); hex_digit (Z.land b 0xF)])) = b.
Proof.
  assert (H : forallb (λ b, bool_decide (
    (Uitoa b = Ok (dec_text b) ∧ label (dec_text b) ∧ len (dec_text b) <= 3 ∧ fst (fst (dtoi (dec_text b))) = b) ∧
    label [hex_digit (Z.land b 0xF)] ∧ label [hex_digit (Z.shiftr b 4)] ∧
    fst (fst (xtoi [hex_digit (Z.shiftr b 4); hex_digit (Z.land b 0xF)])) = b)) all_bytes = true) by (vm_compute; reflexivity).
  intros Hb. rewrite forallb_forall in H. specialize (H b (all_bytes_in b Hb)). by apply bool_decide_eq_true in H.
Qed.
Lemma dec_text_inj a b : is_u8 a → is_u8 b → dec_text a = dec_text b → a = b.
Proof. intros Ha Hb E. destruct (byte_texts a Ha) as [(_&_&_&Ea) _], (byte_texts b Hb) as [(_&_&_&Eb) _]. congruence. Qed.
Lemma nibbles_inj a b : is_u8 a → is_u8 b → nibbles a = nibbles b → a = b.
Proof. intros Ha Hb [= E1 E2]. destruct (byte_texts a Ha) as (_&_&_&Ea), (byte_texts b Hb) as (_&_&_&Eb). congruence. Qed.
Lemma nibble_loop_eq l : ∀ buf, nibble_loop l buf = buf ++ concat (map nibbles l).
Proof. induction l as [|v l IH]; intros buf; cbn [nibble_loop map concat]; [by rewrite app_nil_r|]. rewrite IH. by rewrite <- app_assoc. Qed.
Lemma nibbles_labels l t : is_bytes l → labels t → labels (concat (map nibbles l) ++ t).
Proof.
  intros Hl Ht. induction l as [|v l IH]; [done|]. apply list.Forall_cons in Hl as [Hv Hl]. destruct (byte_texts v Hv) as (_&H1&H2&_).
  cbn [map concat]. rewrite <- app_assoc. apply (labels_dot [_]); [done|]. apply (labels_dot [_]); [done|]. by apply IH.
Qed.
Lemma nibbles_concat_inj t : ∀ l l', length l = length l' → is_bytes l → is_bytes l' →
  concat (map nibbles l) ++ t = concat (map nibbles l') ++ t → l = l'.
Proof.
  induction l as [|v l IH]; intros [|v' l'] Hl Hb Hb' E; [done|done|done|]. apply list.Forall_cons in Hb as [Hv Hb]. apply list.Forall_cons in Hb' as [Hv' Hb'].
  cbn [map concat] in E. rewrite <- !app_assoc in E. apply app_inj_1 in E as [E1 E2]; [|done]. f_equal; [by apply nibbles_inj|]. apply IH; [by injection Hl|done..].
Qed.
Lemma len_nibbles l : len (concat (map nibbles l)) = 4 * len l.
Proof. induction l as [|v l IH]; [done|]. cbn [map concat]. rewrite len_app, len_cons, IH. change (len (nibbles v)) with 4. lia. Qed.
Definition arpa4 (a b c d : Z) : bytes :=
  dec_text d ++ "."%byte :: dec_text c ++ "."%byte :: dec_text b ++ "."%byte :: dec_text a ++ ".in-addr.arpa."%go.
Definition arpa6 (ip : bytes) : bytes := concat (map nibbles (rev ip)) ++ "ip6.arpa."%go.
Lemma ParseIP_any s : ∃ ip, ParseIP s = Ok ip ∧ (ip = [] ∨ is_bytes ip ∧ length ip = 16%nat).
Proof.
  unfold ParseIP, parseIP. destruct (ParseAddr_any s) as [(a&->&_&_)|[e ->]]; [|by exists []; split; [|left]].
  destruct (negb _); cbn; [by exists []; split; [|left]|]. eexists. split; [done|]. right. split; [apply As16_bytes|done].
Qed.
Lemma reverseaddr_run addr : ∃ ip, ParseIP addr = Ok ip ∧
  ((ip = [] ∧ reverseaddr addr = Err (DNSError "unrecognized address"%go addr [] false false false)) ∨
   (∃ a b c d, is_bytes [a; b; c; d] ∧ ip = IPv4 a b c d ∧ reverseaddr addr = Ok (arpa4 a b c d)) ∨
   (is_bytes ip ∧ length ip = 16%nat ∧ IP_To4 ip = [] ∧ reverseaddr addr = Ok (arpa6 ip))).
Proof.
  destruct (ParseIP_any addr) as (ip&E&H). exists ip. split; [done|]. unfold reverseaddr. rewrite E. cbn [mbind res_bind].
  destruct H as [->|[Hb Hl]]; [by left|]. right. destruct (is_nil ip) eqn:En; [by destruct ip|].
  destruct (ip_view ip (conj Hb (or_intror Hl))) as [(a&b&c&d&Ha&[-> | ->])|(_&E4&_)]; [done| |].
  - left. exists a, b, c, d. split; [done|]. split; [done|].
    change (at_ (IPv4 a b c d) 15) with (Ok d). change (at_ (IPv4 a b c d) 14) with (Ok c).
    change (at_ (IPv4 a b c d) 13) with (Ok b). change (at_ (IPv4 a b c d) 12) with (Ok a).
    change (negb (is_nil (IP_To4 (IPv4 a b c d)))) with true. cbn [mbind res_bind].
    unfold is_bytes in Ha. rewrite !list.Forall_cons in Ha. destruct Ha as (Ha&Hb'&Hc&Hd&_).
    rewrite (proj1 (proj1 (byte_texts a Ha))), (proj1 (proj1 (byte_texts b Hb'))), (proj1 (proj1 (byte_texts c Hc))), (proj1 (proj1 (byte_texts d Hd))).
    done.
  - right. split; [done|]. split; [done|]. split; [done|]. rewrite E4. cbn [is_nil negb]. by rewrite nibble_loop_eq.
Qed.
Lemma arpa4_name a b c d : is_bytes [a; b; c; d] → domain_name (arpa4 a b c d).
Proof.
  unfold is_bytes. rewrite !list.Forall_cons. intros (Ha&Hb&Hc&Hd&_).
  destruct (byte_texts a Ha) as [(_&La&Na&_) _], (byte_texts b Hb) as [(_&Lb&Nb&_) _], (byte_texts c Hc) as [(_&Lc&Nc&_) _], (byte_texts d Hd) as [(_&Ld&Nd&_) _].
  unfold arpa4. split; [by destruct (dec_text d)|]. split.
  { left. rewrite ?len_app, ?len_cons, ?len_app, ?len_cons, ?len_app, ?len_cons, ?len_app. change (len ".in-addr.arpa."%go) with 14. lia. }
  split.
  - do 4 (apply labels_dot; [done|]). apply (labels_dot "in-addr"%go); [apply (bool_decide_eq_true_1 (label _)); vm_compute; reflexivity|]. apply (labels_dot "arpa"%go); [apply (bool_decide_eq_true_1 (label _)); vm_compute; reflexivity|constructor].
  - do 3 (apply Exists_app; right; apply Exists_cons_tl). apply Exists_app. right. apply Exists_cons_tl, Exists_cons_hd. left. left. lia.
Qed.
Lemma arpa6_name ip : is_bytes ip → length ip = 16%nat → domain_name (arpa6 ip).
Proof.
  intros Hb Hl. assert (Hn : len (arpa6 ip) = 73).
  { unfold arpa6. rewrite len_app, len_nibbles. unfold len. rewrite length_rev, Hl. done. }
  split; [intros E; by rewrite E in Hn|]. split; [lia|]. split.
  - apply nibbles_labels; [by apply Forall_rev|]. apply (labels_dot "ip6"%go); [apply (bool_decide_eq_true_1 (label _)); vm_compute; reflexivity|].
    apply (labels_dot "arpa"%go); [apply (bool_decide_eq_true_1 (label _)); vm_compute; reflexivity|constructor].
  - apply Exists_app. right. apply Exists_cons_hd. left. left. lia.
Qed.
Lemma arpa4_inj a b c d a' b' c' d' : is_bytes [a; b; c; d] → is_bytes [a'; b'; c'; d'] → arpa4 a b c d = arpa4 a' b' c' d' → IPv4 a b c d = IPv4 a' b' c' d'.
Proof.
  unfold is_bytes. rewrite !list.Forall_cons. intros (Ha&Hb&Hc&Hd&_) (Ha'&Hb'&Hc'&Hd'&_) E. unfold arpa4 in E.
  assert (Hdot : ∀ x, is_u8 x → ¬ In "."%byte (dec_text x)) by (intros x Hx; by destruct (byte_texts x Hx) as [(_&Hl%label_no_dot&_) _]).
  do 3 (apply app_cons_unique in E as [E0 E]; [apply dec_text_inj in E0; [|done|done]|by apply Hdot|by apply Hdot]; rewrite E0 in *; clear E0).
  change (".in-addr.arpa."%go) with ("."%byte :: "in-addr.arpa."%go) in E.
  apply app_cons_unique in E as [E0 _]; [|by apply Hdot|by apply Hdot]. apply dec_text_inj in E0; [|done|done]. by rewrite E0.
Qed.
Lemma arpa_disjoint a b c d ip : arpa4 a b c d ≠ arpa6 ip.
Proof.
  unfold arpa4, arpa6. intros E. apply (f_equal (@rev Z)) in E.
  repeat (rewrite ?rev_app_distr in E; cbn [rev] in E). rewrite <- ?app_assoc in E. cbn [app] in E. discriminate.
Qed.
(** *** The texts of addresses and the names *)
(** A byte in decimal, without leading zeros. *)
Definition decimal (n : Z) : bytes :=
  let d k := "0"%byte + k mod 10 in
  if n <? 10 then [d n] else if n <? 100 then [d (n / 10); d n] else [d (n / 100); d (n / 10); d n].
Definition hex_char (k : Z) : Z := nth (Z.to_nat k) "0123456789abcdef"%go 0.
Definition quad (a b c d : Z) : bytes := decimal a ++ "."%go ++ decimal b ++ "."%go ++ decimal c ++ "."%go ++ decimal d.
Definition reverse4 (a b c d : Z) : bytes :=
  decimal d ++ "."%go ++ decimal c ++ "."%go ++ decimal b ++ "."%go ++ decimal a ++ ".in-addr.arpa."%go.
Definition reverse6 (ip : bytes) : bytes :=
  concat (map (λ v, [hex_char (v mod 16); "."%byte; hex_char (v / 16); "."%byte]) (rev ip)) ++ "ip6.arpa."%go.
Lemma decimal_texts n : is_u8 n → dec_text n = decimal n ∧ dec n = decimal n ∧ nibbles n = [hex_char (n mod 16); "."%byte; hex_char (n / 16); "."%byte].
Proof.
  assert (H : forallb (λ n, beq (dec_text n) (decimal n) && beq (dec n) (decimal n) && beq (nibbles n) [hex_char (n mod 16); "."%byte; hex_char (n / 16); "."%byte]) all_bytes = true)
    by (vm_compute; reflexivity).
  intros Hn. rewrite forallb_forall in H. specialize (H n (all_bytes_in n Hn)). rewrite !andb_true_iff, !beq_eq in H. tauto.
Qed.
Lemma arpa4_reverse a b c d : is_bytes [a; b; c; d] → arpa4 a b c d = reverse4 a b c d.
Proof.
  unfold is_bytes. rewrite !list.Forall_cons. intros (Ha&Hb&Hc&Hd&_). unfold arpa4, reverse4.
  by rewrite (proj1 (decimal_texts a Ha)), (proj1 (decimal_texts b Hb)), (proj1 (decimal_texts c Hc)), (proj1 (decimal_texts d Hd)).
Qed.
Lemma arpa6_reverse ip : is_bytes ip → arpa6 ip = reverse6 ip.
Proof.
  intros Hb. unfold arpa6, reverse6. f_equal. f_equal. apply Forall_rev in Hb. induction Hb as [|v l Hv _ IH]; [done|]. cbn [map]. rewrite IH. f_equal.
  apply (decimal_texts v Hv).
Qed.
Lemma quad_dotted a b c d : is_bytes [a; b; c; d] → quad a b c d = dotted a b c d.
Proof.
  unfold is_bytes. rewrite !list.Forall_cons. intros (Ha&Hb&Hc&Hd&_). unfold quad, dotted.
  destruct (decimal_texts a Ha) as (_&->&_), (decimal_texts b Hb) as (_&->&_), (decimal_texts c Hc) as (_&->&_), (decimal_texts d Hd) as (_&->&_). done.
Qed.
(** What parseIPv4 has read is fields with their dots and a part of the next. *)
Definition read_fields (l : list Z) : bytes := concat (map (λ x, decimal x ++ "."%go) l).
Lemma decimal_snoc v c : 0 <= v <= 25 → v ≠ 0 → "0"%byte <= c <= "9"%byte → v * 10 + (c - "0"%byte) <= 255 →
  decimal v ++ [c] = decimal (v * 10 + (c - "0"%byte)).
Proof.
  intros Hv Hn Hc Hle. assert (H : forallb (λ v, forallb (λ c, negb (("0"%byte <=? c) && (c <=? "9"%byte)) || (v =? 0) || (25 <? v) || (255 <? v * 10 + (c - "0"%byte)) ||
    beq (decimal v ++ [c]) (decimal (v * 10 + (c - "0"%byte)))) all_bytes) all_bytes = true) by (vm_compute; reflexivity).
  rewrite forallb_forall in H. specialize (H v (all_bytes_in v ltac:(unfold is_u8; lia))). rewrite forallb_forall in H.
  change "0"%byte with 48 in *. change "9"%byte with 57 in *. specialize (H c (all_bytes_in c ltac:(unfold is_u8; lia))). rewrite !orb_true_iff, beq_eq in H. lia || (destruct H as [H|H]; [lia|done]).
Qed.
Definition fields_of (done : list Z) : list Z := done ++ replicate (4 - length done) 0.
Lemma read_fields_snoc l x : read_fields (l ++ [x]) = read_fields l ++ decimal x ++ "."%go.
Proof. unfold read_fields. rewrite map_app, concat_app. cbn [map concat]. by rewrite app_nil_r. Qed.
Lemma set_field l x : len l < 3 → set_at (fields_of l) (len l) x = Ok (fields_of (l ++ [x])).
Proof.
  intros Hl. unfold fields_of. assert (E : (4 - length l = S (4 - length (l ++ [x])))%nat) by (rewrite length_app; unfold len in Hl; cbn [length]; lia).
  rewrite E. cbn [replicate]. rewrite set_at_app. by rewrite <- app_assoc.
Qed.
(** A digit more, and a dot. *)
Definition part_read (cur : bytes) (val digLen : Z) (done : list Z) (rest : bytes) : Prop :=
  cur = [] ∧ val = 0 ∧ digLen = 0 ∧ (done ≠ [] → rest ≠ []) ∨ 0 <= val <= 255 ∧ cur = decimal val ∧ digLen = len cur.
Lemma part_digit cur val digLen done c rest : part_read cur val digLen done (c :: rest) → "0"%byte <= c <= "9"%byte →
  (digLen =? 1) && (val =? 0) = false → val * 10 + c - "0"%byte <= 255 →
  part_read (cur ++ [c]) (val * 10 + c - "0"%byte) (digLen + 1) done rest.
Proof.
  intros Hp Hc Hz Hle. change "0"%byte with 48 in *. change "9"%byte with 57 in *. right. split; [destruct Hp as [(_&->&_)|(?&_)]; lia|].
  replace (val * 10 + c - 48) with (val * 10 + (c - 48)) in * by lia. destruct Hp as [(->&->&->&_)|(Hv&->&->)].
  - split; [|done]. unfold decimal. rewrite (proj2 (Z.ltb_lt _ _)) by lia. cbn [app]. f_equal. change "0"%byte with 48. rewrite Z.mod_small by lia. lia.
  - rewrite len_app. split; [|done]. apply decimal_snoc; [lia| |done|done]. intros ->. change (len (decimal 0)) with 1 in Hz. done.
Qed.
Lemma part_dot s done cur val digLen rest (b : bool) : s = read_fields done ++ cur ++ "."%byte :: rest → part_read cur val digLen done ("."%byte :: rest) →
  (if (len (read_fields done ++ cur) =? 0) || (len (read_fields done ++ cur) =? len s - 1) then Ok true
   else p ← at_ s (len (read_fields done ++ cur) - 1); Ok (p =? "."%byte)) = Ok b → b = false →
  0 <= val <= 255 ∧ cur = decimal val ∧ rest ≠ [].
Proof.
  intros Hs Hp Hb ->. destruct ((_ =? 0) || _) eqn:E in Hb; [done|]. apply orb_false_iff in E as [E1%Z.eqb_neq E2%Z.eqb_neq].
  destruct Hp as [(->&_&_&_)|(Hv&->&_)]; cycle 1.
  { split; [done|]. split; [done|]. intros ->. apply E2. rewrite Hs, !len_app. change (len ["."%byte]) with 1. lia. }
  exfalso. rewrite app_nil_r in *. destruct done as [|x l _] using rev_ind; [done|]. rewrite read_fields_snoc, !len_app in Hb. change (len "."%go) with 1 in Hb.
  rewrite Hs, read_fields_snoc in Hb. replace (len (read_fields l) + (len (decimal x) + 1) - 1) with (len (read_fields l ++ decimal x)) in Hb by (rewrite len_app; lia).
  rewrite (at_lookup _ _ "."%byte) in Hb; [discriminate Hb|apply len_nonneg|]. rewrite <- !app_assoc, app_assoc. by apply look.
Qed.
Lemma v4_loop_sound s f v p : ∀ rest done cur val digLen, s = read_fields done ++ cur ++ rest → is_bytes done → len done <= 3 →
  part_read cur val digLen done rest →
  parseIPv4_loop s rest (len (read_fields done ++ cur)) (fields_of done) val (len done) digLen = Ok (f, v, p) →
  s = [] ∧ p = 0 ∨ ∃ done', s = read_fields done' ++ decimal v ∧ is_bytes done' ∧ 0 <= v <= 255 ∧ p = len done' ∧ p <= 3 ∧ f = fields_of done'.
Proof.
  induction rest as [|c rest IH]; intros done cur val digLen Hs Hd Hl Hp; cbn [parseIPv4_loop].
  - intros [= <- <- <-]. rewrite app_nil_r in Hs. destruct Hp as [(->&->&_&Hn)|(Hv&->&_)].
    + left. destruct done as [|x l]; [done|]. by destruct (Hn ltac:(done)).
    + right. by exists done.
  - assert (Hcur : len (read_fields done ++ cur) + 1 = len (read_fields done ++ cur ++ [c])) by (rewrite !len_app; change (len [c]) with 1; lia).
    destruct ((c >=? "0"%byte) && (c <=? "9"%byte)) eqn:Ed.
    + destruct ((digLen =? 1) && (val =? 0)) eqn:Ez; [done|]. cbv zeta. destruct (Z.gtb_spec (val * 10 + c - "0"%byte) 255) as [|Hle]; [done|].
      rewrite Hcur. apply IH; [by rewrite <- app_assoc|done|done|]. apply part_digit; [done|lia|done|done].
    + destruct (Z.eqb_spec c "."%byte) as [->|]; [|done]. destruct (if _ || _ then Ok true else _) as [b| |] eqn:Eb; cbn [mbind res_bind]; [|done|done].
      destruct b; [done|]. destruct (part_dot s done cur val digLen rest false Hs Hp Eb eq_refl) as (Hv&->&Hr).
      destruct (Z.eqb_spec (len done) 3) as [|H3]; [done|]. rewrite u8_id by (unfold is_u8; lia). rewrite set_field by lia. cbn [mbind res_bind].
      rewrite Hcur. replace (len done + 1) with (len (done ++ [val])) by by rewrite len_app.
      replace (read_fields done ++ decimal val ++ ["."%byte]) with (read_fields (done ++ [val]) ++ []) by (rewrite app_nil_r; apply read_fields_snoc).
      apply IH.
      * rewrite Hs, read_fields_snoc, <- !app_assoc. done.
      * apply list.Forall_app. split; [done|]. constructor; [unfold is_u8; lia|constructor].
      * rewrite len_app. change (len [val]) with 1. lia.
      * by left.
Qed.
(** parseIPv4 accepts four decimal bytes with dots between them, nothing else. *)
Lemma parseIPv4_sound s x : parseIPv4 s = Ok x → ∃ a b c d, is_bytes [a; b; c; d] ∧ s = quad a b c d.
Proof.
  unfold parseIPv4. destruct (parseIPv4_loop s s 0 [0; 0; 0; 0] 0 0 0) as [[[f v] p]| |] eqn:E; cbn [mbind res_bind]; [|done|done].
  destruct (Z.ltb_spec p 3) as [|Hp]; [done|]. intros _.
  destruct (v4_loop_sound s f v p s [] [] 0 0 eq_refl) as [[-> ->]|(l&Hs&Hb&Hv&->&Hl&_)]; [constructor|done|by left|exact E|lia|].
  assert (Hn : length l = 3%nat) by (unfold len in *; lia). do 4 (destruct l as [|? l]; try done).
  exists z, z0, z1, v. split; [apply (list.Forall_app _ [z; z0; z1] [v]); split; [done|]; constructor; [unfold is_u8; lia|constructor]|].
  rewrite Hs. unfold read_fields, quad. cbn [map concat]. rewrite app_nil_r, <- !app_assoc. done.
Qed.
Lemma ParseAddr_no_colon s rest x : ¬ In ":"%byte rest → ParseAddr_loop s rest = Ok x → parseIPv4 s = Ok x.
Proof.
  induction rest as [|c rest IH]; intros Hn; [done|]. cbn [ParseAddr_loop]. destruct (c =? "."%byte); [done|].
  destruct (Z.eqb_spec c ":"%byte) as [->|]; [by destruct Hn; left|]. destruct (c =? "%"%byte); [done|]. apply IH. intros H. apply Hn. by right.
Qed.
(** Without a colon, the addresses are the quads. *)
Lemma ParseIP_quads s ip : ParseIP s = Ok ip → ¬ In ":"%byte s → ip ≠ [] → ∃ a b c d, is_bytes [a; b; c; d] ∧ s = quad a b c d.
Proof.
  unfold ParseIP, parseIP. intros E Hn Hip. destruct (ParseAddr s) as [x| |] eqn:Ex; cbn [mbind res_bind] in E; [|by injection E as <-|done].
  apply ParseAddr_no_colon in Ex; [by eapply parseIPv4_sound|done].
Qed.
Lemma ParseIP_quad a b c d : is_bytes [a; b; c; d] → ParseIP (quad a b c d) = Ok (IPv4 a b c d).
Proof.
  intros Hb. rewrite quad_dotted by done. pose proof (ParseIP_text (AddrFrom4 [a; b; c; d])) as H. rewrite AddrFrom4_eq in H by done.
  destruct (v4_lo_wf _ _ _ _ Hb) as (Hu&Hs&_). rewrite As16_v4_lo in H by done. rewrite <- H; [|by repeat split; try apply Hu|by left].
  f_equal. rewrite Addr_String_text; [|by repeat split; try apply Hu|done]. unfold addr_text.
  change (Addr_Is4 _) with true. change (Addr_Zone _) with (@nil Z). change (zone_suffix []) with (@nil Z). rewrite app_nil_r. symmetry. exact (string4_dotted 0 z4 a b c d [] Hb).
Qed.
Lemma reverse_name addr s : reverseaddr addr = Ok s → isDomainName s = Ok true.
Proof.
  assert (Hname : ∀ s, domain_name s → isDomainName s = Ok true).
  { intros t Ht. destruct (isDomainName_run t) as (b&->&Hb). by rewrite (proj2 Hb (or_intror Ht)). }
  destruct (reverseaddr_run addr) as (ip&_&[[_ H]|[(a&b&c&d&Hb&_&H)|(Hb&Hl&_&H)]]); rewrite H; [done| |]; intros [= <-]; apply Hname; [by apply arpa4_name|by apply arpa6_name].
Qed.
(** One name, one address. *)
Definition reads addr ip : Prop :=
  (ip = [] ∧ reverseaddr addr = Err (DNSError "unrecognized address"%go addr [] false false false)) ∨
  (∃ a b c d, is_bytes [a; b; c; d] ∧ ip = IPv4 a b c d ∧ reverseaddr addr = Ok (arpa4 a b c d)) ∨
  (is_bytes ip ∧ length ip = 16%nat ∧ IP_To4 ip = [] ∧ reverseaddr addr = Ok (arpa6 ip)).
Lemma reverse_inj addr addr' ip ip' s : reads addr ip → reads addr' ip' → reverseaddr addr = Ok s → reverseaddr addr' = Ok s → ip = ip'.
Proof.
  intros H H' Es Es'.
  destruct H as [[_ H]|[(a&b&c&d&Hb&->&H)|(Hb&Hl&_&H)]], H' as [[_ H']|[(a'&b'&c'&d'&Hb'&->&H')|(Hb'&Hl'&_&H')]]; try congruence.
  + apply arpa4_inj; [done|done|congruence].
  + exfalso. apply (arpa_disjoint a b c d ip'). congruence.
  + exfalso. apply (arpa_disjoint a' b' c' d' ip). congruence.
  + assert (E2 : arpa6 ip = arpa6 ip') by congruence. apply nibbles_concat_inj in E2.
    * apply (f_equal (@rev Z)) in E2. by rewrite !rev_involutive in E2.
    * rewrite !length_rev. congruence.
    * by apply Forall_rev.
    * by apply Forall_rev.
Qed.
(** C40: reverseaddr reads its argument as ParseIP does: an IPv4 address, in dotted
    or in IPv4-mapped form, gives its four bytes in decimal, last first, under
    in-addr.arpa; another IPv6 address its 32 nibbles in hexadecimal, last first,
    under ip6.arpa; and what ParseIP refuses is the error "unrecognized address".
    Of the texts without a colon those accepted are the four decimal bytes with
    dots between them and no leading zeros, read as those bytes; the text of an
    IPv6 address is read as its bytes.  The name is one that isDomainName accepts,
    and no two addresses share one (an IPv4 address and its mapped form are one
    address). *)
Theorem reverseaddr_spec addr : ∃ ip, ParseIP addr = Ok ip ∧
  (ip = [] ∧ reverseaddr addr = Err (DNSError "unrecognized address"%go addr [] false false false) ∨
   (∃ a b c d, is_bytes [a; b; c; d] ∧ ip = IPv4 a b c d ∧ reverseaddr addr = Ok (reverse4 a b c d)) ∨
   (is_bytes ip ∧ length ip = 16%nat ∧ (∀ a b c d, ip ≠ IPv4 a b c d) ∧ reverseaddr addr = Ok (reverse6 ip))) ∧
  (¬ In ":"%byte addr → ip ≠ [] → ∃ a b c d, is_bytes [a; b; c; d] ∧ addr = quad a b c d) ∧
  (∀ a b c d, is_bytes [a; b; c; d] → addr = quad a b c d → ip = IPv4 a b c d) ∧
  (∀ x, wf_addr x → z x = z6noz → addr = Addr_String x → ip = As16 x) ∧
  ∀ s, reverseaddr addr = Ok s → isDomainName s = Ok true ∧ ∀ addr', reverseaddr addr' = Ok s → ParseIP addr' = Ok ip.
Proof.
  destruct (reverseaddr_run addr) as (ip&E&H). exists ip. split; [done|]. split.
  { destruct H as [H|[(a&b&c&d&Hb&Hi&H)|(Hb&Hl&H4&H)]]; [by left|right; left|right; right].
    - exists a, b, c, d. by rewrite <- arpa4_reverse.
    - rewrite <- arpa6_reverse by done. split; [done|]. split; [done|]. split; [|done]. intros a b c d Hi. by rewrite Hi in H4. }
  split; [by apply ParseIP_quads|]. split; [intros a b c d Hb Ha; rewrite Ha, ParseIP_quad in E by done; by injection E|].
  split; [intros x Hw Hz Ha; rewrite Ha, ParseIP_text in E by auto; by injection E|].
  intros s Es. split; [by eapply reverse_name|]. intros addr' Es'. destruct (reverseaddr_run addr') as (ip'&E'&H'). rewrite E'. f_equal.
  symmetry. by eapply reverse_inj.
Qed.
Lemma reverseaddr_spec_witness :
  reverseaddr "192.0.2.1"%go = Ok "1.2.0.192.in-addr.arpa."%go ∧ reverseaddr "::ffff:192.0.2.1"%go = Ok "1.2.0.192.in-addr.arpa."%go ∧
  reverseaddr "2001:db8::567:89ab"%go = Ok "b.a.9.8.7.6.5.0.0.0.0.0.0.0.0.0.0.0.0.0.0.0.0.0.8.b.d.0.1.0.0.2.ip6.arpa."%go ∧
  ParseIP "192.0.2.1"%go = Ok (IPv4 192 0 2 1) ∧ ∃ e, reverseaddr "192.0.2.01"%go = Err e.
Proof.
  split; [vm_compute; reflexivity|]. split; [vm_compute; reflexivity|]. split; [vm_compute; reflexivity|]. split.
  - destruct (reverseaddr_spec "192.0.2.1"%go) as (ip&E&_&_&H&_).
    rewrite (H 192 0 2 1 ltac:(repeat constructor; vm_compute; intros H'; discriminate H') eq_refl) in E. exact E.
  - eexists. vm_compute. reflexivity.
Defined.

(** ** package net: the orders of SRV and MX records, properties *)

#[global] Instance srv_lt_StrictWeak : StrictWeak srv_lt.
Proof. split; unfold srv_lt; intros *; [|intros H1 H2..]; lia. Qed.
#[global] Instance mx_lt_StrictWeak : StrictWeak mx_lt.
Proof. apply (key_StrictWeak Z.ltb Pref). Qed.

(** ** Lists *)
Lemma slice_Swap_00 {A} (x : A) l : slice_Swap (x :: l) 0 0 = Ok (x :: l).
Proof. done. Qed.
Lemma slice_Swap_0 {A} (x y : A) m l i : i = 1 + len m → slice_Swap (x :: m ++ y :: l) 0 i = Ok (y :: m ++ x :: l).
Proof.
  intros ->. unfold slice_Swap. pose proof (len_nonneg m).
  rewrite (at_lookup _ (1 + len m) y) by (lia || by apply (look (x :: m)); rewrite len_cons; lia). cbn [mbind res_bind].
  change (at_ (x :: m ++ y :: l) 0) with (Ok x). cbn [mbind res_bind]. change (set_at (x :: m ++ y :: l) 0 y) with (Ok (y :: m ++ y :: l)). cbn [mbind res_bind].
  rewrite set_at_ok by (rewrite !len_cons, len_app, len_cons; pose proof (len_nonneg l); lia).
  f_equal. apply (insert_look (y :: m)). rewrite len_cons. lia.
Qed.
Lemma slice_Swap_perm {A} (l : list A) i j : 0 <= i < len l → 0 <= j < len l → ∃ l', slice_Swap l i j = Ok l' ∧ l ≡ₚ l'.
Proof.
  intros Hi Hj. destruct (list_at l i Hi) as (u&x&v&->&Eu). destruct (lookup_lt_is_Some_2 (u ++ x :: v) (Z.to_nat j)) as [y Hy]; [unfold len in Hj; lia|].
  assert (Hx : (u ++ x :: v) !! Z.to_nat i = Some x) by (apply look; lia).
  unfold slice_Swap. rewrite (at_lookup _ j y), (at_lookup _ i x) by (done || lia). cbn [mbind res_bind]. rewrite set_at_ok by done. cbn [mbind res_bind].
  rewrite set_at_ok by (unfold len in *; rewrite length_insert; lia). eexists. split; [done|]. symmetry.
  by apply Permutation_insert_swap.
Qed.

Lemma sorted_weaken {A} (P Q : A → A → Prop) l : (∀ a b, P a b → Q a b) → StronglySorted P l → StronglySorted Q l.
Proof. intros H. induction 1 as [|a l Hs IH Ha]; constructor; [done|]. eapply list.Forall_impl; [exact Ha|]. auto. Qed.

(** ** One pick *)
Definition weight_sum (l : list SRV) : Z := foldr (λ a s, Weight a + s) 0 l.
Definition weighted (l : list SRV) : Prop := Forall (λ a, is_u16 (Weight a)) l.
Lemma weight_sum_app l1 l2 : weight_sum (l1 ++ l2) = weight_sum l1 + weight_sum l2.
Proof. induction l1 as [|a l IH]; [done|]. cbn. fold (weight_sum (l ++ l2)). rewrite IH. unfold weight_sum. lia. Qed.
Lemma weight_sum_nonneg l : weighted l → 0 <= weight_sum l.
Proof. induction 1 as [|a l Ha _ IH]; cbn; [lia|]. fold (weight_sum l). unfold is_u16 in Ha. lia. Qed.
Lemma weight_sum_perm l l' : l ≡ₚ l' → weight_sum l = weight_sum l'.
Proof. induction 1; cbn in *; unfold weight_sum in *; lia. Qed.
Lemma weighted_perm l l' : l ≡ₚ l' → weighted l → weighted l'.
Proof. unfold weighted. by intros ->. Qed.
Lemma foldl_weight l : ∀ s, foldl (λ sum addr, sum + Weight addr) s l = s + weight_sum l.
Proof. induction l as [|a l IH]; intros s; cbn; [lia|]. rewrite IH. fold (weight_sum l). lia. Qed.
(** The record picked is the one whose part of the line of weights [n] falls in. *)
Definition picked (l : list SRV) (n : Z) (a : SRV) : Prop :=
  ∃ u v, l = u ++ a :: v ∧ weight_sum u <= n < weight_sum u + Weight a.
Lemma pick_loop_spec rest : ∀ u n, weighted (u ++ rest) → weight_sum u <= n < weight_sum (u ++ rest) →
  ∃ a r, pick_loop rest (u ++ rest) (weight_sum u) n (len u) = Ok (a :: r) ∧ picked (u ++ rest) n a ∧ u ++ rest ≡ₚ a :: r.
Proof.
  induction rest as [|b rest IH]; intros u n Hw Hn; [rewrite app_nil_r in Hn; lia|]. cbn [pick_loop].
  destruct (Z.gtb_spec (weight_sum u + Weight b) n) as [Hgt|Hle].
  - assert (Hp : picked (u ++ b :: rest) n b) by (exists u, rest; split; [done|lia]). destruct u as [|x m].
    + exists b, rest. done.
    + rewrite len_cons. pose proof (len_nonneg m). destruct (Z.gtb_spec (len m + 1) 0); [|lia]. cbn [app] in *.
      rewrite slice_Swap_0 by lia. exists b, (m ++ x :: rest). split; [done|]. split; [done|]. rewrite <- !Permutation_middle. apply perm_swap.
  - destruct (IH (u ++ [b]) n) as (a&r&E&H); [by rewrite <- app_assoc|rewrite <- app_assoc, weight_sum_app; cbn [app weight_sum foldr]; lia|].
    rewrite <- app_assoc, weight_sum_app, len_app in E. rewrite <- app_assoc in H. cbn [app weight_sum foldr] in E, H. change (len [b]) with 1 in E.
    exists a, r. split; [|done]. by rewrite Z.add_0_r in E.
Qed.
Lemma pick_spec l n : weighted l → 0 <= n < weight_sum l → ∃ a r, pick_loop l l 0 n 0 = Ok (a :: r) ∧ picked l n a ∧ l ≡ₚ a :: r.
Proof. apply (pick_loop_spec l []). Qed.

(** ** Shuffling *)
(** Records of weight zero come last. *)
Definition zeros_last (a b : SRV) : Prop := Weight a = 0 → Weight b = 0.
Lemma all_zero l : weighted l → weight_sum l <= 0 → StronglySorted zeros_last l.
Proof.
  intros Hw Hs. assert (H : Forall (λ a, Weight a = 0) l).
  { induction Hw as [|a l Ha Hw IH]; [constructor|]. cbn in Hs. fold (weight_sum l) in Hs. pose proof (weight_sum_nonneg l Hw). unfold is_u16 in Ha.
    constructor; [lia|apply IH; lia]. }
  clear Hw Hs. induction H as [|a l Ha H IH]; constructor; [done|]. eapply list.Forall_impl; [exact H|]. intros b Hb _. done.
Qed.
Section rand.
Context {R : Type} (runtime_rand : R → Z * R).
Implicit Types g : R.
Lemma randIntn_range n g : 0 < n → ∃ x g', randIntn runtime_rand n g = Ok (x, g') ∧ 0 <= x < n.
Proof.
  intros Hn. unfold randIntn, randInt. rewrite (proj2 (Z.eqb_neq n 0)) by lia. destruct (runtime_rand g) as [x g']. eexists _, _. split; [done|].
  apply Z.rem_bound_pos; [|lia]. apply Z.shiftr_nonneg. by destruct (u64_range x).
Qed.
Lemma shuffle_loop_spec : ∀ fuel l g, weighted l → (length l < fuel)%nat →
  ∃ l' g', shuffle_loop runtime_rand fuel l (weight_sum l) g = Ok (l', g') ∧ l ≡ₚ l' ∧ StronglySorted zeros_last l'.
Proof.
  induction fuel as [|fuel IH]; intros l g Hw Hf; [lia|]. cbn [shuffle_loop].
  destruct (Z.gtb_spec (weight_sum l) 0) as [Hs|Hs]; cbn [andb]; [|exists l, g; split; [done|]; split; [done|]; by apply all_zero].
  destruct (Z.gtb_spec (len l) 1) as [Hl|Hl]; cycle 1.
  { exists l, g. split; [done|]. split; [done|]. destruct l as [|a [|b l]]; [constructor|repeat constructor|]. rewrite !len_cons in Hl. pose proof (len_nonneg l). lia. }
  destruct (randIntn_range (weight_sum l) g Hs) as (n&g1&->&Hn). cbn [mbind res_bind].
  destruct (pick_spec l n Hw Hn) as (a&r&->&(u&v&El&Ha)&HP). cbn [mbind res_bind].
  change (at_ (a :: r) 0) with (Ok a). cbn [mbind res_bind].
  change (a :: r) with ([a] ++ r). rewrite (from_app [a] r 1) by done.
  cbn [mbind res_bind]. pose proof (weight_sum_perm _ _ HP) as Hsum. cbn in Hsum. fold (weight_sum r) in Hsum.
  replace (weight_sum l - Weight a) with (weight_sum r) by lia.
  assert (Hwr : weighted r). { apply (weighted_perm _ _ HP) in Hw. by apply list.Forall_cons in Hw as [_ Hw]. }
  destruct (IH r g1 Hwr) as (l'&g'&->&HP'&Hs'); [apply Permutation_length in HP; cbn in HP; lia|]. cbn [mbind res_bind].
  exists (a :: l'), g'. split; [done|]. split; [by rewrite HP, HP'|]. constructor; [done|]. apply list.Forall_forall. intros b _ H0. lia.
Qed.
Lemma shuffle_range_spec l1 l2 l3 i j g : weighted l2 → i = len l1 → j = len l1 + len l2 →
  ∃ l2' g', shuffle_range runtime_rand (l1 ++ l2 ++ l3) i j g = Ok (l1 ++ l2' ++ l3, g') ∧ l2 ≡ₚ l2' ∧ StronglySorted zeros_last l2'.
Proof.
  intros Hw Hi Hj. unfold shuffle_range, shuffleByWeight. rewrite (slice_mid l1 l2 l3) by done. cbn [mbind res_bind]. rewrite foldl_weight.
  destruct (shuffle_loop_spec (S (length l2)) l2 g Hw) as (l2'&g'&E&HP&Hs); [lia|]. rewrite Z.add_0_l, E. cbn [mbind res_bind].
  unfold upto. rewrite (slice_mid [] l1 (l2 ++ l3)) by (done || by rewrite Hi). cbn [mbind res_bind].
  rewrite app_assoc, (from_app (l1 ++ l2)) by (rewrite len_app; lia).
  cbn [mbind res_bind]. by exists l2', g'.
Qed.

(** ** Groups of one priority *)
(** Priorities ascend, and records of weight zero come last in their group. *)
Definition srv_order (a b : SRV) : Prop := Priority a < Priority b ∨ Priority a = Priority b ∧ zeros_last a b.
Definition above (l l' : list SRV) : Prop := ∀ a b, a ∈ l → b ∈ l' → Priority a < Priority b.
Lemma srv_le a b : le srv_lt a b → Priority a <= Priority b.
Proof. unfold le, srv_lt. lia. Qed.
Lemma group_order l p : Forall (λ x, Priority x = p) l → StronglySorted zeros_last l → StronglySorted srv_order l.
Proof.
  induction l as [|a l IH]; intros Hp Hs; [constructor|]. apply list.Forall_cons in Hp as [Ha Hp]. apply StronglySorted_cons in Hs as [Hz Hs].
  constructor; [by apply IH|]. rewrite list.Forall_forall in Hp, Hz |- *. intros b Hb. right. split; [rewrite Ha; symmetry; by apply Hp|by apply Hz].
Qed.
Lemma append_group A B p : StronglySorted srv_order A → Forall (λ x, Priority x = p) B → StronglySorted zeros_last B → above A B →
  StronglySorted srv_order (A ++ B).
Proof. intros HA Hp HB Hab. apply StronglySorted_app. split; [intros a b Ha Hb; left; by apply Hab|]. split; [done|by eapply group_order]. Qed.
Lemma group_loop_spec C : ∀ A B p g, B ≠ [] → weighted (A ++ B ++ C) → Forall (λ x, Priority x = p) B → StronglySorted (le srv_lt) (B ++ C) →
  StronglySorted srv_order A → above A (B ++ C) →
  ∃ A' B' p' g', group_loop runtime_rand (length C) (A ++ B ++ C) (len A) (len A + len B) g = Ok (A' ++ B', len A', g') ∧
    A ++ B ++ C ≡ₚ A' ++ B' ∧ StronglySorted srv_order A' ∧ Forall (λ x, Priority x = p') B' ∧ above A' B'.
Proof.
  induction C as [|c C IH]; intros A B p g HB Hw Hp Hs HA Hab; cbn [length group_loop].
  { rewrite !app_nil_r in *. by exists A, B, p, g. }
  destruct B as [|b B]; [done|]. apply list.Forall_cons in Hp as [Hb Hp].
  rewrite (at_lookup _ (len A) b) by (apply len_nonneg || by apply (look A (B ++ c :: C))). cbn [mbind res_bind].
  rewrite (at_lookup _ _ c) by ((pose proof (len_nonneg A); pose proof (len_nonneg (b :: B)); lia) || (rewrite app_assoc; apply look; by rewrite len_app)).
  cbn [mbind res_bind]. assert (Hsplit : A ++ (b :: B) ++ c :: C = A ++ ((b :: B) ++ [c]) ++ C) by (by rewrite <- !app_assoc).
  destruct (Z.eqb_spec (Priority b) (Priority c)) as [Ec|Nc]; cbn [negb].
  - destruct (IH A ((b :: B) ++ [c]) p g) as (A'&B'&p'&g'&E&H); [done|by rewrite <- Hsplit| |by rewrite <- app_assoc|done|by rewrite <- app_assoc|].
    { apply list.Forall_app. split; [by constructor|]. constructor; [congruence|constructor]. }
    exists A', B', p', g'. rewrite Hsplit. split; [|done]. rewrite <- E. f_equal. rewrite len_app. change (len [c]) with 1. lia.
  - assert (HwB : weighted (b :: B)). { unfold weighted in *. rewrite !list.Forall_app in Hw. apply Hw. }
    destruct (shuffle_range_spec A (b :: B) (c :: C) (len A) (len A + len (b :: B)) g HwB eq_refl eq_refl) as (B2&g2&->&HP&Hz). cbn [mbind res_bind].
    assert (HpB : Forall (λ x, Priority x = p) B2) by (rewrite <- HP; by constructor).
    assert (Hcut : above (b :: B) (c :: C)).
    { intros x y Hx Hy. apply StronglySorted_app in Hs as (Hx1&_&Hs2). assert (Ex : Priority x = p).
      { apply elem_of_cons in Hx as [->|Hx]; [done|]. rewrite list.Forall_forall in Hp. by apply Hp. }
      assert (H1 : Priority b <= Priority c) by (apply srv_le, Hx1; left). apply StronglySorted_cons in Hs2 as [Hs2 _]. rewrite list.Forall_forall in Hs2.
      assert (H2 : Priority c <= Priority y) by (apply elem_of_cons in Hy as [->|Hy]; [lia|by apply srv_le, Hs2]). lia. }
    assert (HAB : above A B2) by (intros x y Hx Hy; apply Hab; [done|]; apply elem_of_app; left; by rewrite HP).
    destruct (IH (A ++ B2) [c] (Priority c) g2) as (A'&B'&p'&g'&E&HP'&H); [done| |by constructor| | | |].
    { rewrite <- app_assoc. eapply weighted_perm; [|exact Hw]. by rewrite HP. }
    { by apply StronglySorted_app in Hs as (_&_&Hs). }
    { by eapply append_group. }
    { intros x y [Hx|Hx]%elem_of_app Hy; [apply Hab; [done|apply elem_of_app; by right]|apply Hcut; [by rewrite HP|done]]. }
    exists A', B', p', g'. split; [|split; [|done]].
    + rewrite <- E, <- app_assoc, len_app. cbn [app]. f_equal; unfold len; rewrite (Permutation_length HP); cbn [length]; lia.
    + rewrite HP, <- HP', <- app_assoc. done.
Qed.
End rand.

Lemma SRV_sort_run {R : Type} (runtime_rand : R → Z * R) (l : list SRV) (g : R) : weighted l → len l < 2 ^ 47 →
  ∃ l' g', byPriorityWeight_sort runtime_rand l g = Ok (l', g') ∧ l ≡ₚ l' ∧ StronglySorted srv_order l'.
Proof.
  intros Hw Hl. unfold byPriorityWeight_sort, byPriorityWeight.
  destruct (Sort_slice srv_lt l) as (s&->&Hs&HP); [lia|]. cbn [mbind res_bind items]. apply (weighted_perm _ _ HP) in Hw.
  destruct s as [|b s].
  { exists [], g. rewrite HP. split; [done|]. split; [done|constructor]. }
  replace (length (b :: s) - 1)%nat with (length s) by (cbn; lia).
  destruct (group_loop_spec runtime_rand s [] [b] (Priority b) g) as (A'&B'&p'&g'&E&HP'&HA&HB&Hab); try done; [by constructor|constructor|by intros x y Hx%elem_of_nil|].
  cbn [app] in E. change (len []) with 0 in E. change (0 + len [b]) with 1 in E. rewrite E. cbn [mbind res_bind].
  destruct (shuffle_range_spec runtime_rand A' B' [] (len A') (len (A' ++ B')) g') as (B2&g2&E2&HP2&Hz); [|done|by rewrite len_app|].
  { apply (weighted_perm _ _ HP') in Hw. unfold weighted in *. by apply list.Forall_app in Hw as [_ Hw]. }
  rewrite !app_nil_r in E2. rewrite E2. exists (A' ++ B2), g2. split; [done|]. split; [rewrite HP; cbn [app] in HP'; by rewrite HP', HP2|].
  eapply append_group; [done|by rewrite <- HP2|done|]. intros x y Hx Hy. apply Hab; [done|by rewrite HP2].
Qed.
(** Sorting SRV records, whatever the random numbers, ends without a panic in a
    rearrangement with ascending priorities.  Each pick among the records left of
    a group is the one whose share of the line of weights the random number falls
    in, so that a record is picked by as many numbers as its weight; those of
    weight zero are never picked while another is left, and come last. *)
Theorem SRV_sort_spec {R : Type} (runtime_rand : R → Z * R) (l : list SRV) (g : R) : weighted l → len l < 2 ^ 47 →
  (∃ l' g', byPriorityWeight_sort runtime_rand l g = Ok (l', g') ∧ l ≡ₚ l' ∧ StronglySorted srv_order l') ∧
  (∀ n, 0 <= n < weight_sum l → ∃ a r, pick_loop l l 0 n 0 = Ok (a :: r) ∧ picked l n a ∧ l ≡ₚ a :: r).
Proof. intros Hw Hl. split; [by apply SRV_sort_run|intros n; by apply pick_spec]. Qed.
(** Random numbers from a list. *)
Definition from_list (g : list Z) : Z * list Z := match g with x :: g => (x, g) | [] => (0, []) end.
Definition srv_sample : list SRV := [
  MkSRV "c"%go 80 20 0; MkSRV "a"%go 80 10 0; MkSRV "b"%go 80 10 60; MkSRV "d"%go 80 20 5; MkSRV "e"%go 80 10 20].
Lemma SRV_sort_spec_witness :
  (r ← byPriorityWeight_sort from_list srv_sample [50; 10; 6]; Ok (map Target (fst r))) = Ok ["b"%go; "e"%go; "a"%go; "d"%go; "c"%go] ∧
  ∃ l' g', byPriorityWeight_sort from_list srv_sample [50; 10; 6] = Ok (l', g') ∧ srv_sample ≡ₚ l' ∧ StronglySorted srv_order l'.
Proof.
  split; [vm_compute; reflexivity|]. refine (proj1 (SRV_sort_spec from_list srv_sample [50; 10; 6] _ eq_refl)).
  repeat constructor; vm_compute; intros H; discriminate H.
Defined.

(** Sorting MX records leaves them in ascending preference, whatever the shuffle before. *)
Theorem MX_sort_spec {R : Type} (runtime_rand : R → Z * R) (l : list MX) (g : R) : len l < 2 ^ 47 →
  ∃ l' g', byPref_sort runtime_rand l g = Ok (l', g') ∧ l ≡ₚ l' ∧ StronglySorted (λ a b, Pref a <= Pref b) l'.
Proof.
  intros Hl. assert (Hloop : ∀ k i s g, 0 <= i → i + Z.of_nat k = len s → ∃ s' g', mx_loop runtime_rand k s i g = Ok (s', g') ∧ s ≡ₚ s').
  { induction k as [|k IH]; intros i s g0 Hi Hk; cbn [mx_loop]; [by exists s, g0|].
    destruct (randIntn_range runtime_rand (i + 1) g0) as (j&g1&->&Hj); [lia|]. cbn [mbind res_bind].
    destruct (slice_Swap_perm s i j) as (s1&->&HP); [lia|lia|]. cbn [mbind res_bind].
    destruct (IH (i + 1) s1 g1) as (s'&g'&->&HP'); [lia|unfold len in *; rewrite <- (Permutation_length HP); lia|].
    exists s', g'. by rewrite HP, HP'. }
  unfold byPref_sort, byPref. destruct (Hloop (length l) 0 l g) as (s&g1&->&HP); [lia|unfold len; lia|]. cbn [mbind res_bind].
  destruct (Sort_slice mx_lt s) as (s'&->&Hs&HP'); [unfold len in *; rewrite <- (Permutation_length HP); lia|]. cbn [mbind res_bind items].
  exists s', g1. split; [done|]. split; [by rewrite HP|]. apply sorted_weaken with (le mx_lt); [|exact Hs]. intros a b. unfold le, mx_lt. lia.
Qed.
