(* ===== verification/NetFile.v ===== *)
(** * package net: reading a configuration file line by line (parse.go)

    The type [file] and the io.ReadFull it calls, over a class [Reader] for what
    is read from; then what the loops
    [for line, ok := f.readLine(); ok; line, ok = f.readLine()] come to.  The
    array behind [data] has 64 kB and is never replaced. *)
From S2P Require Import Prelude Strconv.

(** ** io.ReadFull *)
Inductive readerror : Set := EOF | ErrUnexpectedEOF | ErrShortBuffer | OtherError (e : error).
#[global] Instance readerror_eq_dec : EqDecision readerror.
Proof. solve_decision. Defined.
(** [r.Read(buf)] for a buffer of [n] bytes: the bytes read and the error. *)
Class Reader (R : Type) : Type := { Read : R → Z → bytes * option readerror * R }.

Section file.
Context {R : Type} `{Reader R}.
(** [for n < min && err == nil], with what has been read in [buf]. *)
Fixpoint read_loop (fuel : nat) (r : R) (size min : Z) (buf : bytes) : res (bytes * option readerror * R) :=
  if len buf <? min then
    match fuel with
    | O => Panic []
    | S fuel =>
        let '(b, err, r) := Read r (size - len buf) in
        match err with
        | None => read_loop fuel r size min (buf ++ b)
        | Some _ => Ok (buf ++ b, err, r)
        end
    end
  else Ok (buf, None, r).
Definition ReadAtLeast (r : R) (size min : Z) : res (bytes * option readerror * R) :=
  if size <? min then Ok ([], Some ErrShortBuffer, r)
  else
    '(buf, err, r) ← read_loop (Z.to_nat min) r size min [];
    let n := len buf in
    let err := if n >=? min then None
               else if (n >? 0) && bool_decide (err = Some EOF) then Some ErrUnexpectedEOF else err in
    Ok (buf, err, r).
Definition ReadFull (r : R) (size : Z) : res (bytes * option readerror * R) := ReadAtLeast r size size.

(** ** Lines *)
Record file : Type := MkFile { file_ : R; data : bytes; atEOF : bool }.
Definition bufsize : Z := 64 * 1024.
Definition open_file (r : R) : file := MkFile r [] false.
(** The bytes before the first newline and those after it. *)
Fixpoint cut_newline (data : bytes) : option (bytes * bytes) :=
  match data with
  | [] => None
  | c :: data =>
      if c =? 10 then Some ([], data)
      else match cut_newline data with Some (s, rest) => Some (c :: s, rest) | None => None end
  end.
Definition getLineFromData (f : file) : bytes * bool * file :=
  match cut_newline (data f) with
  | Some (s, rest) => (s, true, MkFile (file_ f) rest (atEOF f))
  | None =>
      if atEOF f && (len (data f) >? 0) then (data f, true, MkFile (file_ f) [] (atEOF f))
      else ([], false, f)
  end.
Definition readLine (f : file) : res (bytes * bool * file) :=
  let '(s, ok, f) := getLineFromData f in
  if (ok : bool) then Ok (s, ok, f)
  else
    f ← (if len (data f) <? bufsize then
           '(b, err, r) ← ReadFull (file_ f) (bufsize - len (data f));
           let eof := bool_decide (err = Some EOF) || bool_decide (err = Some ErrUnexpectedEOF) in
           Ok (MkFile r (data f ++ b) (atEOF f || eof))
         else Ok f);
    Ok (getLineFromData f).
(** The loop over the lines of a file: [body] takes a line and the state of the
    caller, and says whether to go on. *)
Fixpoint each_line {S : Type} (fuel : nat) (body : bytes → S → res (S * bool)) (f : file) (st : S) : res S :=
  match fuel with
  | O => Panic []
  | Datatypes.S fuel =>
      '(line, ok, f) ← readLine f;
      if (ok : bool) then
        '(st, more) ← body line st;
        if (more : bool) then each_line fuel body f st else Ok st
      else Ok st
  end.
End file.
Arguments file R : clear implicits.

(** ** What a file holds *)
(** A file reads as the bytes it has left, at least one at a time, and then EOF:
    what os.File promises of a file nobody writes to, when no read fails. *)
Class RegularFile (R : Type) `{Reader R} : Type := {
  left : R → bytes;
  Read_some r n : 0 < n → left r ≠ [] →
    ∃ b r', Read r n = (b, None, r') ∧ b ≠ [] ∧ len b <= n ∧ left r = b ++ left r';
  Read_end r n : 0 < n → left r = [] → ∃ r', Read r n = ([], Some EOF, r') ∧ left r' = [];
}.
(** The lines of a text: the pieces between newlines, the last one only when it
    is not empty. *)
Fixpoint text_lines (s : bytes) : list bytes :=
  match s with
  | [] => []
  | c :: s =>
      if c =? 10 then [] :: text_lines s
      else match text_lines s with [] => [[c]] | l :: ls => (c :: l) :: ls end
  end.
(** The lines up to the first that does not fit the buffer. *)
Fixpoint fitting (ls : list bytes) : list bytes :=
  match ls with [] => [] | l :: ls => if len l <? bufsize then l :: fitting ls else [] end.
(** The loop over a list of lines. *)
Fixpoint over_lines {S : Type} (body : bytes → S → res (S * bool)) (ls : list bytes) (st : S) : res S :=
  match ls with
  | [] => Ok st
  | l :: ls => '(st, more) ← body l st; if (more : bool) then over_lines body ls st else Ok st
  end.
