(* ===== verification/NetFileProps.v ===== *)
(** * package net: reading a configuration file line by line, properties *)
From S2P Require Import Prelude Strconv NetFile.

(** ** Lines of a text *)
Lemma cut_newline_spec d : match cut_newline d with
  | Some (s, rest) => d = s ++ 10 :: rest ∧ (∀ x, text_lines (d ++ x) = s :: text_lines (rest ++ x))
  | None => ∀ x, d = [] ∨ ∃ l ls, text_lines (d ++ x) = (d ++ l) :: ls ∧ (x = [] → l = [] ∧ ls = [])
  end.
Proof.
  induction d as [|c d IH]; cbn [cut_newline]; [by left|]. cbn [app text_lines]. destruct (Z.eqb_spec c 10) as [->|Hc]; [done|].
  destruct (cut_newline d) as [[s rest]|].
  - destruct IH as [-> IH]. split; [done|]. intros x. by rewrite IH.
  - intros x. right. destruct (IH x) as [->|(l&ls&->&Hl)]; [|by exists l, ls]. cbn [app].
    destruct (text_lines x) as [|l ls] eqn:E; [by exists [], []|]. exists l, ls. split; [done|]. intros ->. done.
Qed.
Lemma text_lines_le s : (length (text_lines s) <= length s)%nat.
Proof.
  induction s as [|c s IH]; [done|]. cbn [text_lines length]. destruct (c =? 10); [cbn; lia|]. destruct (text_lines s); cbn in *; lia.
Qed.

Section file.
Context {R : Type} `{RegularFile R}.
Implicit Types r : R.

Lemma read_loop_spec : ∀ fuel r size buf, 0 <= size - len buf <= Z.of_nat fuel →
  ∃ b err r', read_loop fuel r size size buf = Ok (buf ++ b, err, r') ∧ left r = b ++ left r' ∧
    (err = None ∧ len (buf ++ b) = size ∨ err = Some EOF ∧ len (buf ++ b) < size ∧ left r' = []).
Proof.
  assert (Hdone : ∀ fuel r size buf, len buf = size → ∃ b err r', read_loop fuel r size size buf = Ok (buf ++ b, err, r') ∧ left r = b ++ left r' ∧
    (err = None ∧ len (buf ++ b) = size ∨ err = Some EOF ∧ len (buf ++ b) < size ∧ left r' = [])).
  { intros fuel r size buf Hl. exists [], None, r. rewrite app_nil_r. split; [|split; [done|by left]].
    destruct fuel; cbn [read_loop]; rewrite (proj2 (Z.ltb_ge _ _)) by lia; done. }
  induction fuel as [|fuel IH]; intros r size buf Hs; [apply Hdone; lia|].
  destruct (decide (len buf = size)) as [|Hn]; [by apply Hdone|]. cbn [read_loop]. rewrite (proj2 (Z.ltb_lt _ _)) by lia.
  destruct (decide (left r = [])) as [El|El].
  - destruct (Read_end r (size - len buf)) as (r'&->&El'); [lia|done|]. exists [], (Some EOF), r'. rewrite El, El', app_nil_r.
    split; [done|]. split; [done|]. right. split; [done|]. split; [lia|done].
  - destruct (Read_some r (size - len buf)) as (b&r'&->&Hb&Hn'&El'); [lia|done|].
    pose proof (len_pos_list b Hb). destruct (IH r' size (buf ++ b)) as (b'&err&r2&E&El2&Hr); [rewrite len_app; lia|].
    exists (b ++ b'), err, r2. rewrite app_assoc. split; [done|]. split; [|done]. by rewrite El', El2, app_assoc.
Qed.
Lemma ReadFull_spec r size : 0 < size → ∃ b err r', ReadFull r size = Ok (b, err, r') ∧ left r = b ++ left r' ∧
  (err = None ∧ len b = size ∨ (err = Some EOF ∨ err = Some ErrUnexpectedEOF) ∧ len b < size ∧ left r' = []).
Proof.
  intros Hs. unfold ReadFull, ReadAtLeast. rewrite Z.ltb_irrefl.
  destruct (read_loop_spec (Z.to_nat size) r size []) as (b&err&r'&E&El&Hr); [change (len []) with 0; lia|]. cbn [app] in *. rewrite E. cbn [mbind res_bind].
  eexists b, _, r'. split; [done|]. split; [done|]. destruct Hr as [[-> Hl]|(->&Hl&El')].
  - left. by rewrite Hl, Z.geb_leb, Z.leb_refl.
  - right. rewrite Z.geb_leb, (proj2 (Z.leb_gt _ _)) by lia. rewrite bool_decide_eq_true_2, andb_true_r by done.
    split; [|done]. destruct (len b >? 0); [by right|by left].
Qed.

(** ** The reader *)
Definition text (f : file R) : bytes := data f ++ left (file_ f).
(** What the reader maintains: the buffer is never overfull, and at the end of
    the file there is nothing left to read. *)
Definition wf_file (f : file R) : Prop := len (data f) <= bufsize ∧ (atEOF f = true → left (file_ f) = [] ∧ len (data f) < bufsize).
Definition gives (f : file R) (x : bytes * bool * file R) : Prop :=
  match text_lines (text f) with
  | l :: ls => if len l <? bufsize then ∃ f', x = (l, true, f') ∧ wf_file f' ∧ text_lines (text f') = ls else ∃ f', x = ([], false, f')
  | [] => ∃ f', x = ([], false, f')
  end.
Lemma wf_open r : wf_file (open_file r) ∧ text (open_file r) = left r.
Proof. by repeat split; cbn. Qed.
(** A buffer that holds all it is going to give. *)
Lemma getLine_gives f : wf_file f → (∃ s rest, cut_newline (data f) = Some (s, rest)) ∨ atEOF f = true ∨ len (data f) = bufsize →
  gives f (getLineFromData f).
Proof.
  intros [Hl He] Hc. unfold gives, getLineFromData, text. pose proof (cut_newline_spec (data f)) as Hcut. destruct (cut_newline (data f)) as [[s rest]|].
  - destruct Hcut as [Ed Ht]. rewrite Ht. assert (Hs : len s + (len rest + 1) = len (data f)) by (by rewrite Ed, len_app, len_cons).
    pose proof (len_nonneg rest). pose proof (len_nonneg s). destruct (Z.ltb_spec (len s) bufsize); [|lia]. eexists. split; [done|]. split; [|done]. split; cbn; [lia|]. intros Ee. destruct (He Ee). split; [done|lia].
  - destruct Hc as [(s&rest&[=])|Hc]. destruct (Hcut (left (file_ f))) as [Ed|(l&ls&Et&Hx)].
    + assert (Ee : atEOF f = true) by (destruct Hc as [Ee|Hc]; [done|rewrite Ed in Hc; done]). destruct (He Ee) as [-> _]. rewrite Ed. cbn. rewrite Ee. by exists f.
    + rewrite Et. destruct (atEOF f) eqn:Ee.
      * destruct (He eq_refl) as [El Hlt]. destruct (Hx El) as [-> ->]. rewrite app_nil_r in *. rewrite (proj2 (Z.ltb_lt _ _)) by lia. cbn [andb].
        destruct (data f) as [|c d] eqn:Ed; [rewrite El in Et; done|]. rewrite len_cons. pose proof (len_nonneg d). rewrite (proj2 (Z.gtb_lt _ _)) by lia.
        eexists. split; [done|]. cbn. rewrite El. split; [|done]. split; cbn [data atEOF file_]; change (len []) with 0; unfold bufsize; [lia|]. by rewrite El.
      * destruct Hc as [?|Hc]; [done|]. rewrite len_app. pose proof (len_nonneg l). rewrite (proj2 (Z.ltb_ge _ _)) by lia. cbn [andb]. by exists f.
Qed.
Lemma readLine_spec f : wf_file f → ∃ x, readLine f = Ok x ∧ gives f x.
Proof.
  intros Hf. pose proof (getLine_gives f Hf) as Hg. unfold readLine. destruct (getLineFromData f) as [[s ok] f1] eqn:E. destruct ok.
  { eexists. split; [done|]. apply Hg. unfold getLineFromData in E. destruct (cut_newline (data f)) as [[s' rest]|]; [left; by eexists _, _|].
    destruct (atEOF f); [by right; left|done]. }
  assert (f1 = f ∧ cut_newline (data f) = None) as [-> Hn].
  { unfold getLineFromData in E. destruct (cut_newline (data f)) as [[s' rest]|]; [done|]. destruct (_ && _); [done|]. by injection E. }
  destruct Hf as [Hl He]. destruct (Z.ltb_spec (len (data f)) bufsize) as [Hlt|Hge]; cbn [mbind res_bind]; cycle 1.
  { eexists. split; [done|]. rewrite E. apply Hg. right. right. lia. }
  destruct (ReadFull_spec (file_ f) (bufsize - len (data f))) as (b&err&r'&->&El&Hr); [lia|]. cbn [mbind res_bind].
  eexists. split; [done|]. set (f2 := MkFile r' (data f ++ b) _). assert (Et : text f2 = text f) by (unfold text, f2; cbn; by rewrite El, app_assoc).
  unfold gives. rewrite <- Et. apply getLine_gives.
  - split; [unfold f2; cbn; rewrite len_app; lia|]. intros Ee. unfold f2 in *. cbn in *. rewrite len_app. destruct Hr as [[-> Hb]|(_&Hb&El')]; [|split; [done|lia]].
    exfalso. rewrite orb_false_r in Ee. destruct (He Ee) as [E0 _]. rewrite E0 in El. destruct b; [|done]. change (len []) with 0 in Hb. lia.
  - right. destruct Hr as [[-> Hb]|(Hb&_&_)]; [right; unfold f2; cbn; rewrite len_app; lia|left]. unfold f2. cbn. by destruct Hb as [-> | ->]; rewrite ?orb_true_r.
Qed.
Lemma each_line_spec {S : Type} (body : bytes → S → res (S * bool)) : ∀ fuel f st, wf_file f → (length (text_lines (text f)) < fuel)%nat →
  each_line fuel body f st = over_lines body (fitting (text_lines (text f))) st.
Proof.
  induction fuel as [|fuel IH]; intros f st Hf Hn; [lia|]. cbn [each_line]. destruct (readLine_spec f Hf) as (x&->&Hx). cbn [mbind res_bind].
  unfold gives in Hx. destruct (text_lines (text f)) as [|l ls]; [by destruct Hx as [f' ->]|]. cbn [fitting].
  destruct (len l <? bufsize); [|by destruct Hx as [f' ->]]. destruct Hx as (f'&->&Hf'&El). cbn [over_lines].
  destruct (body l st) as [[st' more]| |]; cbn [mbind res_bind]; [|done|done]. destruct more; [|done]. rewrite <- El. apply IH; [done|]. rewrite El. cbn in Hn. lia.
Qed.
(** The loops over the lines of a file see each line that fits the buffer, in
    order and once, up to the first that does not, where they stop without a
    word; as many turns as the file has bytes, and one, are enough. *)
Theorem file_lines {S : Type} (body : bytes → S → res (S * bool)) fuel r st : (length (left r) < fuel)%nat →
  each_line fuel body (open_file r) st = over_lines body (fitting (text_lines (left r))) st.
Proof.
  intros Hn. destruct (wf_open r) as [Hw Ht]. rewrite <- Ht. apply each_line_spec; [done|]. pose proof (text_lines_le (text (open_file r))) as Hle.
  rewrite Ht in Hle |- *. lia.
Qed.
End file.

(** ** A file held in memory, read a few bytes at a time *)
Record memory : Set := Memory { chunk : Z; content : bytes }.
#[global] Instance memory_Reader : Reader memory := {
  Read m n :=
    let k := Z.to_nat (Z.min n (Z.max 1 (chunk m))) in
    match content m with
    | [] => ([], Some EOF, m)
    | c => (take k c, None, Memory (chunk m) (drop k c))
    end;
}.
#[global] Instance memory_RegularFile : RegularFile memory.
Proof.
  refine {| left := content |}.
  - intros [k c] n Hn Hc. cbn in *. destruct c as [|x c]; [done|]. eexists _, _. split; [done|].
    split; [destruct (Z.to_nat _) eqn:E; [lia|done]|]. split; [unfold len; rewrite length_take; lia|]. cbn. symmetry. apply take_drop.
  - intros [k c] n Hn Hc. cbn in *. subst c. by eexists.
Defined.
