(* ===== verification/DnsConfig.v ===== *)
(** * package net: the configuration of the DNS client (dnsconfig.go, dnsconfig_unix.go)

    resolv.conf, and the part of dnsclient_unix.go that turns it into the names
    to ask for and keeps it up to date.  The files, the clock and the host's name
    are arguments; a time is a number of nanoseconds. *)
From S2P Require Import Prelude Strconv NetipText NetHost NetFile.

(** [bytealg.CountString] *)
Definition CountString (s : bytes) (c : Z) : Z := foldl (λ n x, if x =? c then n + 1 else n) 0 s.
Definition Second : Z := 1000 * (1000 * 1000).

(** ** dnsConfig *)
Definition defaultNS : list bytes := ["127.0.0.1:53"%go; "[::1]:53"%go].
Record dnsConfig : Set := MkConf {
  servers : list bytes;
  conf_search : list bytes;
  ndots : Z;
  timeout : Z;
  attempts : Z;
  conf_rotate : bool;
  unknownOpt : bool;
  conf_lookup : list bytes;
  conf_err : option error;
  conf_mtime : Z;
  soffset : Z;
  singleRequest : bool;
  useTCP : bool;
  trustAD : bool;
  noReload : bool }.
Definition set_servers (x : list bytes) (c : dnsConfig) : dnsConfig :=
  MkConf x (conf_search c) (ndots c) (timeout c) (attempts c) (conf_rotate c) (unknownOpt c) (conf_lookup c) (conf_err c) (conf_mtime c) (soffset c) (singleRequest c) (useTCP c) (trustAD c) (noReload c).
Definition set_search (x : list bytes) (c : dnsConfig) : dnsConfig :=
  MkConf (servers c) x (ndots c) (timeout c) (attempts c) (conf_rotate c) (unknownOpt c) (conf_lookup c) (conf_err c) (conf_mtime c) (soffset c) (singleRequest c) (useTCP c) (trustAD c) (noReload c).
Definition set_ndots (x : Z) (c : dnsConfig) : dnsConfig :=
  MkConf (servers c) (conf_search c) x (timeout c) (attempts c) (conf_rotate c) (unknownOpt c) (conf_lookup c) (conf_err c) (conf_mtime c) (soffset c) (singleRequest c) (useTCP c) (trustAD c) (noReload c).
Definition set_timeout (x : Z) (c : dnsConfig) : dnsConfig :=
  MkConf (servers c) (conf_search c) (ndots c) x (attempts c) (conf_rotate c) (unknownOpt c) (conf_lookup c) (conf_err c) (conf_mtime c) (soffset c) (singleRequest c) (useTCP c) (trustAD c) (noReload c).
Definition set_attempts (x : Z) (c : dnsConfig) : dnsConfig :=
  MkConf (servers c) (conf_search c) (ndots c) (timeout c) x (conf_rotate c) (unknownOpt c) (conf_lookup c) (conf_err c) (conf_mtime c) (soffset c) (singleRequest c) (useTCP c) (trustAD c) (noReload c).
Definition set_rotate (x : bool) (c : dnsConfig) : dnsConfig :=
  MkConf (servers c) (conf_search c) (ndots c) (timeout c) (attempts c) x (unknownOpt c) (conf_lookup c) (conf_err c) (conf_mtime c) (soffset c) (singleRequest c) (useTCP c) (trustAD c) (noReload c).
Definition set_unknownOpt (x : bool) (c : dnsConfig) : dnsConfig :=
  MkConf (servers c) (conf_search c) (ndots c) (timeout c) (attempts c) (conf_rotate c) x (conf_lookup c) (conf_err c) (conf_mtime c) (soffset c) (singleRequest c) (useTCP c) (trustAD c) (noReload c).
Definition set_lookup (x : list bytes) (c : dnsConfig) : dnsConfig :=
  MkConf (servers c) (conf_search c) (ndots c) (timeout c) (attempts c) (conf_rotate c) (unknownOpt c) x (conf_err c) (conf_mtime c) (soffset c) (singleRequest c) (useTCP c) (trustAD c) (noReload c).
Definition set_err (x : option error) (c : dnsConfig) : dnsConfig :=
  MkConf (servers c) (conf_search c) (ndots c) (timeout c) (attempts c) (conf_rotate c) (unknownOpt c) (conf_lookup c) x (conf_mtime c) (soffset c) (singleRequest c) (useTCP c) (trustAD c) (noReload c).
Definition set_mtime (x : Z) (c : dnsConfig) : dnsConfig :=
  MkConf (servers c) (conf_search c) (ndots c) (timeout c) (attempts c) (conf_rotate c) (unknownOpt c) (conf_lookup c) (conf_err c) x (soffset c) (singleRequest c) (useTCP c) (trustAD c) (noReload c).
Definition set_soffset (x : Z) (c : dnsConfig) : dnsConfig :=
  MkConf (servers c) (conf_search c) (ndots c) (timeout c) (attempts c) (conf_rotate c) (unknownOpt c) (conf_lookup c) (conf_err c) (conf_mtime c) x (singleRequest c) (useTCP c) (trustAD c) (noReload c).
Definition set_singleRequest (x : bool) (c : dnsConfig) : dnsConfig :=
  MkConf (servers c) (conf_search c) (ndots c) (timeout c) (attempts c) (conf_rotate c) (unknownOpt c) (conf_lookup c) (conf_err c) (conf_mtime c) (soffset c) x (useTCP c) (trustAD c) (noReload c).
Definition set_useTCP (x : bool) (c : dnsConfig) : dnsConfig :=
  MkConf (servers c) (conf_search c) (ndots c) (timeout c) (attempts c) (conf_rotate c) (unknownOpt c) (conf_lookup c) (conf_err c) (conf_mtime c) (soffset c) (singleRequest c) x (trustAD c) (noReload c).
Definition set_trustAD (x : bool) (c : dnsConfig) : dnsConfig :=
  MkConf (servers c) (conf_search c) (ndots c) (timeout c) (attempts c) (conf_rotate c) (unknownOpt c) (conf_lookup c) (conf_err c) (conf_mtime c) (soffset c) (singleRequest c) (useTCP c) x (noReload c).
Definition set_noReload (x : bool) (c : dnsConfig) : dnsConfig :=
  MkConf (servers c) (conf_search c) (ndots c) (timeout c) (attempts c) (conf_rotate c) (unknownOpt c) (conf_lookup c) (conf_err c) (conf_mtime c) (soffset c) (singleRequest c) (useTCP c) (trustAD c) x.
(** The offset to start from and the counter moved on. *)
Definition serverOffset (c : dnsConfig) : Z * dnsConfig :=
  if conf_rotate c then let n := u32 (soffset c + 1) in (u32 (n - 1), set_soffset n c) else (0, c).

(** ** resolv.conf *)
Definition hasPrefix (s prefix : bytes) : res bool :=
  if len s >=? len prefix then t ← upto s (len prefix); Ok (beq t prefix) else Ok false.
Definition ensureRooted (s : bytes) : res bytes :=
  rooted ← (if len s >? 0 then c ← at_ s (len s - 1); Ok (c =? "."%byte) else Ok false);
  Ok (if (rooted : bool) then s else s ++ "."%go).
Definition dnsDefaultSearch (getHostname : bytes + error) : res (list bytes) :=
  match getHostname with
  | inr _ => Ok []
  | inl hn =>
      let i := IndexByteString hn "."%byte in
      if (i >=? 0) && (i <? len hn - 1) then t ← from hn (i + 1); n ← ensureRooted t; Ok [n] else Ok []
  end.
(** [nameserver]: at most three, and only addresses. *)
Definition nameserver_line (f : list bytes) (conf : dnsConfig) : res dnsConfig :=
  if (len f >? 1) && (len (servers conf) <? 3) then
    a ← at_ f 1;
    match ParseAddr a with
    | Ok _ => Ok (set_servers (servers conf ++ [JoinHostPort a "53"%go]) conf)
    | Err _ => Ok conf
    | Panic m => Panic m
    end
  else Ok conf.
Fixpoint search_names (f : list bytes) : res (list bytes) :=
  match f with
  | [] => Ok []
  | s :: f => name ← ensureRooted s; names ← search_names f; Ok (if beq name "."%go then names else name :: names)
  end.
(** One of the [options]. *)
Definition option_word (s : bytes) (conf : dnsConfig) : res dnsConfig :=
  b ← hasPrefix s "ndots:"%go;
  if (b : bool) then
    t ← from s 6; let '(n, _, _) := dtoi t in
    Ok (set_ndots (if n <? 0 then 0 else if n >? 15 then 15 else n) conf)
  else
  b ← hasPrefix s "timeout:"%go;
  if (b : bool) then
    t ← from s 8; let '(n, _, _) := dtoi t in
    Ok (set_timeout ((if n <? 1 then 1 else n) * Second) conf)
  else
  b ← hasPrefix s "attempts:"%go;
  if (b : bool) then
    t ← from s 9; let '(n, _, _) := dtoi t in
    Ok (set_attempts (if n <? 1 then 1 else n) conf)
  else if beq s "rotate"%go then Ok (set_rotate true conf)
  else if beq s "single-request"%go || beq s "single-request-reopen"%go then Ok (set_singleRequest true conf)
  else if beq s "use-vc"%go || beq s "usevc"%go || beq s "tcp"%go then Ok (set_useTCP true conf)
  else if beq s "trust-ad"%go then Ok (set_trustAD true conf)
  else if beq s "edns0"%go then Ok conf
  else if beq s "no-reload"%go then Ok (set_noReload true conf)
  else Ok (set_unknownOpt true conf).
Fixpoint options_loop (f : list bytes) (conf : dnsConfig) : res dnsConfig :=
  match f with [] => Ok conf | s :: f => conf ← option_word s conf; options_loop f conf end.
(** The body of the loop over the lines, which never stops it. *)
Definition resolv_line (line : bytes) (conf : dnsConfig) : res (dnsConfig * bool) :=
  comment ← (if len line >? 0 then c ← at_ line 0; Ok ((c =? ";"%byte) || (c =? "#"%byte)) else Ok false);
  if (comment : bool) then Ok (conf, true)
  else
    f ← getFields line;
    if len f <? 1 then Ok (conf, true)
    else
      f0 ← at_ f 0;
      args ← from f 1;
      conf ←
        (if beq f0 "nameserver"%go then nameserver_line f conf
         else if beq f0 "domain"%go then
           if len f >? 1 then d ← at_ f 1; n ← ensureRooted d; Ok (set_search [n] conf) else Ok conf
         else if beq f0 "search"%go then names ← search_names args; Ok (set_search names conf)
         else if beq f0 "options"%go then options_loop args conf
         else if beq f0 "lookup"%go then Ok (set_lookup args conf)
         else Ok (set_unknownOpt true conf));
      Ok (conf, true).
Definition initial_conf : dnsConfig := MkConf [] [] 1 (5 * Second) 2 false false [] None 0 0 false false false false.
Section read.
Context {R : Type} `{Reader R}.
(** [opened] and [stat] are what opening the file and asking for its time give. *)
Definition dnsReadConfig (getHostname : bytes + error) (opened : R + error) (stat : Z + error) (fuel : nat) : res dnsConfig :=
  match opened with
  | inr e => search ← dnsDefaultSearch getHostname; Ok (set_err (Some e) (set_search search (set_servers defaultNS initial_conf)))
  | inl r =>
      match stat with
      | inr e => search ← dnsDefaultSearch getHostname; Ok (set_err (Some e) (set_search search (set_servers defaultNS initial_conf)))
      | inl mtime =>
          conf ← each_line fuel resolv_line (open_file r) (set_mtime mtime initial_conf);
          let conf := if len (servers conf) =? 0 then set_servers defaultNS conf else conf in
          if len (conf_search conf) =? 0 then search ← dnsDefaultSearch getHostname; Ok (set_search search conf)
          else Ok conf
      end
  end.
End read.

(** ** The names to ask for *)
Definition avoidDNS (name : bytes) : res bool :=
  if beq name [] then Ok true
  else
    c ← at_ name (len name - 1);
    name ← (if c =? "."%byte then upto name (len name - 1) else Ok name);
    stringsHasSuffixFold name ".onion"%go.
Fixpoint suffix_loop (search : list bytes) (name : bytes) : res (list bytes) :=
  match search with
  | [] => Ok []
  | suffix :: search =>
      let fqdn := name ++ suffix in
      avoid ← avoidDNS fqdn;
      names ← suffix_loop search name;
      Ok (if negb avoid && (len fqdn <=? 254) then fqdn :: names else names)
  end.
Definition nameList (conf : dnsConfig) (name : bytes) : res (list bytes) :=
  let l := len name in
  rooted ← (if l >? 0 then c ← at_ name (l - 1); Ok (c =? "."%byte) else Ok false);
  if (l >? 254) || ((l =? 254) && negb rooted) then Ok []
  else if (rooted : bool) then
    avoid ← avoidDNS name;
    Ok (if (avoid : bool) then [] else [name])
  else
    let hasNdots := CountString name "."%byte >=? ndots conf in
    let name := name ++ "."%go in
    avoid ← avoidDNS name;
    names ← suffix_loop (conf_search conf) name;
    Ok ((if hasNdots && negb avoid then [name] else []) ++ names ++ (if negb hasNdots && negb avoid then [name] else [])).

(** ** Keeping the configuration up to date *)
Record resolverConfig : Set := MkResolv { ch : bool; lastChecked : Z; conf_ : dnsConfig }.
(** What tryUpdate does once it has the semaphore: [mtime] is the file's time,
    zero when it cannot be had, and [reread] what reading it gives. *)
Definition update_held (now mtime : Z) (reread : res dnsConfig) (conf : resolverConfig) : res resolverConfig :=
  if lastChecked conf >? now - 5 * Second then Ok conf
  else
    let conf := MkResolv (ch conf) now (conf_ conf) in
    if mtime =? conf_mtime (conf_ conf) then Ok conf
    else dnsConf ← reread; Ok (MkResolv (ch conf) now dnsConf).
(** [ch] is full while an update runs. *)
Definition tryUpdate (now mtime : Z) (reread : res dnsConfig) (conf : resolverConfig) : res resolverConfig :=
  if noReload (conf_ conf) then Ok conf
  else if ch conf then Ok conf
  else
    conf ← update_held now mtime reread (MkResolv true (lastChecked conf) (conf_ conf));
    Ok (MkResolv false (lastChecked conf) (conf_ conf)).
