(* ===== verification/DnsConfigProps.v ===== *)
(** * package net: fields of a line, resolv.conf and the names to ask for, properties *)
From S2P Require Import Prelude Strconv NetHost NetHostProps NetIP SortSpec NetipAddr NetipText NetipProps NetIPProps NetFile NetFileProps DnsNames DnsNamesProps DnsConfig.

(** The runs of bytes that are not separators, [cur] being the run so far. *)
Fixpoint words (sep : Z → bool) (s cur : bytes) : list bytes :=
  match s with
  | [] => if is_nil cur then [] else [cur]
  | c :: s => if sep c then (if is_nil cur then [] else [cur]) ++ words sep s [] else words sep s (cur ++ [c])
  end.
Definition fields (sep : Z → bool) (s : bytes) : list bytes := words sep s [].
Definition one_of (t : bytes) (c : Z) : bool := IndexByteString t c >=? 0.

Lemma is_nil_len (s : bytes) : is_nil s = false ↔ 0 < len s.
Proof. destruct s; cbn [is_nil]; rewrite ?len_cons; [change (len (@nil Z)) with 0|pose proof (len_nonneg s)]; split; (done || lia). Qed.
Lemma count_acc s t : ∀ n, foldl (λ n c, if IndexByteString t c >=? 0 then n + 1 else n) n s = n + countAnyByte s t.
Proof.
  unfold countAnyByte. induction s as [|c s IH]; intros n; cbn [foldl]; [lia|]. rewrite IH. symmetry. rewrite IH. destruct (_ >=? 0); lia.
Qed.
Lemma count_cons c s t : countAnyByte (c :: s) t = (if one_of t c then 1 else 0) + countAnyByte s t.
Proof. unfold countAnyByte at 1, one_of. cbn [foldl]. rewrite count_acc. by destruct (_ >=? 0). Qed.
Lemma count_nonneg s t : 0 <= countAnyByte s t.
Proof. induction s as [|c s IH]; [done|]. rewrite count_cons. destruct (one_of t c); lia. Qed.
(** Filling the array in order. *)
Lemma set_next {A} (fs rest : list A) x y n : n = len fs → set_at (fs ++ x :: rest) n y = Ok ((fs ++ [y]) ++ rest).
Proof.
  intros ->. pose proof (len_nonneg fs). pose proof (len_nonneg rest). rewrite set_at_ok by (rewrite len_app, len_cons; lia).
  rewrite insert_look by done. by rewrite <- app_assoc.
Qed.
Lemma split_loop_spec t : ∀ rest pre cur i last n fs spare, last = len pre → i = len pre + len cur → n = len fs →
  countAnyByte rest t < len spare →
  ∃ pre' cur' fs' spare', split_loop (pre ++ cur ++ rest) t rest i last n (fs ++ spare) = Ok (len pre', len fs', fs' ++ spare') ∧
    pre ++ cur ++ rest = pre' ++ cur' ∧ 0 < len spare' ∧
    fs' ++ (if is_nil cur' then [] else [cur']) = fs ++ words (one_of t) rest cur.
Proof.
  induction rest as [|c rest IH]; intros pre cur i last n fs spare -> -> -> Hn; cbn [split_loop words].
  { exists pre, cur, fs, spare. rewrite app_nil_r. done. }
  rewrite count_cons in Hn. pose proof (count_nonneg rest t). fold (one_of t c). assert (Hs : pre ++ cur ++ c :: rest = (pre ++ cur ++ [c]) ++ [] ++ rest) by (by rewrite <- !app_assoc).
  assert (Hlen : len pre + len cur + 1 = len (pre ++ cur ++ [c])) by (rewrite !len_app; change (len [c]) with 1; lia).
  destruct (one_of t c); cycle 1.
  - destruct (IH pre (cur ++ [c]) (len pre + len cur + 1) (len pre) (len fs) fs spare) as (pre'&cur'&fs'&spare'&E&H1); [done|rewrite len_app; change (len [c]) with 1; lia|done|lia|].
    rewrite <- app_assoc in E, H1. by exists pre', cur', fs', spare'.
  - destruct (is_nil cur) eqn:Ec.
    + assert (cur = []) as -> by (by destruct cur). change (len (@nil Z)) with 0 in *. rewrite (proj2 (Z.ltb_ge _ _)) by lia. cbn [mbind res_bind].
      rewrite Hs. destruct (IH (pre ++ [] ++ [c]) [] (len pre + 0 + 1) (len pre + 0 + 1) (len fs) fs spare) as (pre'&cur'&fs'&spare'&E&H1); [done|change (len (@nil Z)) with 0; lia|done|lia|].
      by exists pre', cur', fs', spare'.
    + apply is_nil_len in Ec. rewrite (proj2 (Z.ltb_lt (len pre) _)) by lia. rewrite slice_mid by done. cbn [mbind res_bind].
      destruct spare as [|x spare]; [change (len (@nil bytes)) with 0 in Hn; lia|]. rewrite len_cons in Hn. rewrite set_next by done. cbn [mbind res_bind].
      rewrite Hs. destruct (IH (pre ++ cur ++ [c]) [] (len pre + len cur + 1) (len pre + len cur + 1) (len fs + 1) (fs ++ [cur]) spare) as (pre'&cur'&fs'&spare'&E&H1&H2&H3);
        [done|change (len (@nil Z)) with 0; lia|rewrite len_app; done|lia|].
      exists pre', cur', fs', spare'. split; [done|]. split; [done|]. split; [done|]. by rewrite H3, <- app_assoc.
Qed.
(** splitAtBytes fills its array with the fields and never goes past its end. *)
Lemma splitAtBytes_fields s t : splitAtBytes s t = Ok (fields (one_of t) s).
Proof.
  unfold splitAtBytes. pose proof (count_nonneg s t). destruct (split_loop_spec t s [] [] 0 0 0 [] (replicate (Z.to_nat (1 + countAnyByte s t)) [])) as (pre&cur&fs&spare&E&Es&Hsp&Hf); try done.
  { unfold len. rewrite length_replicate. lia. }
  cbn [app] in E, Es, Hf. rewrite E. cbn [mbind res_bind]. subst s. clear E. unfold fields. rewrite <- Hf. clear Hf. rewrite len_app. destruct (is_nil cur) eqn:Ec.
  - assert (cur = []) as -> by (by destruct cur). change (len (@nil Z)) with 0. rewrite (proj2 (Z.ltb_ge _ _)) by lia. cbn [mbind res_bind]. rewrite app_nil_r. by apply upto_app.
  - apply is_nil_len in Ec. rewrite (proj2 (Z.ltb_lt _ _)) by lia. rewrite from_app by done. cbn [mbind res_bind].
    destruct spare as [|x spare]; [change (len (@nil bytes)) with 0 in Hsp; lia|]. rewrite set_next by done. cbn [mbind res_bind]. apply upto_app. by rewrite len_app.
Qed.
Definition blank (c : Z) : bool := one_of [32; 13; 9; 10] c.
Lemma getFields_fields s : getFields s = Ok (fields blank s).
Proof. apply splitAtBytes_fields. Qed.
(** A field is not empty and holds no separator. *)
Lemma words_ok sep s : ∀ cur, forallb (λ c, negb (sep c)) cur = true → Forall (λ f, f ≠ [] ∧ forallb (λ c, negb (sep c)) f = true) (words sep s cur).
Proof.
  induction s as [|c s IH]; intros cur Hc; cbn [words].
  - destruct cur; cbn [is_nil]; [constructor|]. by repeat constructor.
  - destruct (sep c) eqn:E; [|apply IH; rewrite forallb_app, Hc; cbn; by rewrite E]. apply list.Forall_app. split; [|by apply IH].
    destruct cur; cbn [is_nil]; [constructor|]. by repeat constructor.
Qed.

(** ** package net: the configuration of the DNS client, properties *)

(** ** The words of a line *)
Lemma dtoi_loop_bound s : ∀ n i, 0 <= n < big → 0 <= fst (fst (dtoi_loop s n i)) <= big.
Proof.
  induction s as [|c s IH]; intros n i Hn; cbn [dtoi_loop].
  - destruct (i =? 0); cbn; lia.
  - destruct (_ && _) eqn:E; [|destruct (i =? 0); cbn; lia].
    destruct (Z.geb_spec (n * 10 + (c - "0"%byte)) big); [cbn; unfold big; lia|]. apply IH. lia.
Qed.
Lemma dtoi_bound s : ∃ n i ok, dtoi s = (n, i, ok) ∧ 0 <= n <= big.
Proof. pose proof (dtoi_loop_bound s 0 0 ltac:(done)) as H. unfold dtoi. destruct (dtoi_loop s 0 0) as [[n i] ok]. by exists n, i, ok. Qed.
Lemma hasPrefix_spec s p : (∃ t, s = p ++ t ∧ hasPrefix s p = Ok true) ∨ hasPrefix s p = Ok false.
Proof.
  unfold hasPrefix. destruct (Z.geb_spec (len s) (len p)) as [H|H]; [|by right].
  destruct (list_split s (len p)) as (u&t&->&Hu); [pose proof (len_nonneg p); lia|]. rewrite upto_app by done. cbn [mbind res_bind].
  destruct (beq u p) eqn:E; [|by right]. apply beq_eq in E as ->. left. by exists t.
Qed.
Definition rooted (s : bytes) : Prop := list.last s = Some "."%byte.
Definition root (s : bytes) : bytes := if bool_decide (rooted s) then s else s ++ "."%go.
Lemma last_byte s : ∃ b, (if len s >? 0 then c ← at_ s (len s - 1); Ok (c =? "."%byte) else Ok false) = Ok b ∧ (b = true ↔ rooted s).
Proof.
  destruct s as [|c s _] using rev_ind; [by exists false|]. rewrite len_app. pose proof (len_nonneg s). change (len [c]) with 1 at 1. rewrite (proj2 (Z.gtb_lt _ _)) by lia.
  rewrite <- len_app, at_last. eexists. split; [done|]. unfold rooted. rewrite last_snoc, Z.eqb_eq. split; congruence.
Qed.
Lemma ensureRooted_root s : ensureRooted s = Ok (root s) ∧ rooted (root s).
Proof.
  unfold ensureRooted, root. destruct (last_byte s) as (b&->&Hb). cbn [mbind res_bind]. destruct b.
  - rewrite bool_decide_eq_true_2 by by apply Hb. split; [done|by apply Hb].
  - rewrite bool_decide_eq_false_2 by (intros H; by apply Hb in H). split; [done|]. unfold rooted. by rewrite last_snoc.
Qed.

(** ** What holds of every configuration read *)
Definition server (a : bytes) : bytes := JoinHostPort a "53"%go.
Definition is_server (s : bytes) : Prop := ∃ a ip, ParseAddr a = Ok ip ∧ s = server a.
Record sane (c : dnsConfig) : Prop := {
  sane_ndots : 0 <= ndots c <= 15;
  sane_timeout : Second <= timeout c <= big * Second;
  sane_attempts : 1 <= attempts c <= big;
  sane_servers : len (servers c) <= 3 ∧ Forall is_server (servers c);
  sane_search : Forall rooted (conf_search c);
  sane_err : conf_err c = None;
}.
(** The server a line names. *)
Definition comment_line (line : bytes) : bool := match line with c :: _ => (c =? ";"%byte) || (c =? "#"%byte) | [] => false end.
Definition server_of (line : bytes) : list bytes :=
  if comment_line line then []
  else match fields blank line with
       | f0 :: a :: _ => if beq f0 "nameserver"%go then match ParseAddr a with Ok _ => [server a] | _ => [] end else []
       | _ => []
       end.
(** A step keeps the configuration sane, and adds to the servers, which stop at three. *)
Definition adds (new : list bytes) (c c' : dnsConfig) : Prop := sane c' ∧ servers c' = take 3 (servers c ++ new).
Lemma adds_none c c' : sane c → sane c' → servers c' = servers c → adds [] c c'.
Proof. intros Hc Hc' E. split; [done|]. rewrite E, app_nil_r, take_ge; [done|]. destruct (sane_servers c Hc). unfold len in *. lia. Qed.
Ltac sane_step := let H := fresh in intros H; apply adds_none; [done|destruct H; split; cbn; (done || lia)|done].
Lemma option_word_adds s c : sane c → ∃ c', option_word s c = Ok c' ∧ adds [] c c'.
Proof.
  intros Hc. unfold option_word.
  assert (Hkeep : ∀ c', sane c' → servers c' = servers c → ∃ c'', Ok c' = Ok c'' ∧ adds [] c c'') by (intros c' H1 H2; exists c'; split; [done|by apply adds_none]).
  destruct (hasPrefix_spec s "ndots:"%go) as [(t&->&->)| ->]; cbn [mbind res_bind].
  { rewrite (from_app "ndots:"%go t 6) by done. cbn [mbind res_bind]. destruct (dtoi_bound t) as (n&i&ok&->&Hn). apply Hkeep; [|done].
    destruct Hc. split; cbn; try done. destruct (Z.ltb_spec n 0), (Z.gtb_spec n 15); lia. }
  destruct (hasPrefix_spec s "timeout:"%go) as [(t&->&->)| ->]; cbn [mbind res_bind].
  { rewrite (from_app "timeout:"%go t 8) by done. cbn [mbind res_bind]. destruct (dtoi_bound t) as (n&i&ok&->&Hn). apply Hkeep; [|done].
    destruct Hc. split; cbn -[Z.mul]; try done. unfold Second, big in *. destruct (Z.ltb_spec n 1); lia. }
  destruct (hasPrefix_spec s "attempts:"%go) as [(t&->&->)| ->]; cbn [mbind res_bind].
  { rewrite (from_app "attempts:"%go t 9) by done. cbn [mbind res_bind]. destruct (dtoi_bound t) as (n&i&ok&->&Hn). apply Hkeep; [|done].
    destruct Hc. split; cbn; try done. unfold big in *. destruct (Z.ltb_spec n 1); lia. }
  repeat (match goal with |- context [if ?b then _ else _] => destruct b end; [apply Hkeep; [by destruct Hc; split|done]|]).
  apply Hkeep; [by destruct Hc; split|done].
Qed.
Lemma options_loop_adds f : ∀ c, sane c → ∃ c', options_loop f c = Ok c' ∧ adds [] c c'.
Proof.
  induction f as [|s f IH]; intros c Hc; cbn [options_loop]; [exists c; split; [done|by apply adds_none]|].
  destruct (option_word_adds s c Hc) as (c1&->&Hs1&E1). cbn [mbind res_bind]. destruct (IH c1 Hs1) as (c2&->&Hs2&E2).
  exists c2. split; [done|]. split; [done|]. rewrite E2, E1, !app_nil_r, take_take. done.
Qed.
Lemma search_names_rooted f : ∃ names, search_names f = Ok names ∧ Forall rooted names ∧ "."%go ∉ names.
Proof.
  induction f as [|s f (names&E&Hn&Hd)]; cbn [search_names]; [exists []; split; [done|]; split; [done|apply not_elem_of_nil]|].
  destruct (ensureRooted_root s) as [-> Hr]. rewrite E. cbn [mbind res_bind]. eexists. split; [done|].
  destruct (beq (root s) "."%go) eqn:Eb; [done|]. split; [by constructor|]. rewrite not_elem_of_cons. split; [|done]. intros Er. rewrite <- Er in Eb. done.
Qed.
Lemma resolv_line_adds line c : sane c → ∃ c', resolv_line line c = Ok (c', true) ∧ adds (server_of line) c c'.
Proof.
  intros Hc. unfold resolv_line, server_of.
  replace (if len line >? 0 then c0 ← at_ line 0; Ok ((c0 =? ";"%byte) || (c0 =? "#"%byte)) else Ok false) with (Ok (comment_line line)); cycle 1.
  { destruct line as [|x line]; [done|]. rewrite len_cons. pose proof (len_nonneg line). by rewrite (proj2 (Z.gtb_lt _ _)) by lia. }
  cbn [mbind res_bind]. assert (H0 : adds [] c c) by by apply adds_none.
  destruct (comment_line line); [by exists c|]. rewrite getFields_fields. cbn [mbind res_bind].
  destruct (fields blank line) as [|f0 args]; [by exists c|]. rewrite len_cons. pose proof (len_nonneg args). rewrite (proj2 (Z.ltb_ge _ 1)) by lia.
  change (at_ (f0 :: args) 0) with (Ok f0). change (f0 :: args) with ([f0] ++ args). rewrite from_app by done. cbn [mbind res_bind app].
  destruct (beq f0 "nameserver"%go).
  { unfold nameserver_line. rewrite len_cons. destruct args as [|a args].
    - exists c. done.
    - rewrite len_cons. pose proof (len_nonneg args). rewrite (proj2 (Z.gtb_lt _ 1)) by lia. cbn [andb].
      destruct (Z.ltb_spec (len (servers c)) 3) as [H3|H3]; cycle 1.
      { exists c. split; [done|]. destruct (sane_servers c Hc) as [Hl _]. split; [done|]. rewrite take_app_le, take_ge by (unfold len in *; lia). done. }
      change (at_ (f0 :: a :: args) 1) with (Ok a). cbn [mbind res_bind]. destruct (ParseAddr_any a) as [(ip&Ea&_)|[e Ea]]; rewrite Ea; cbn [mbind res_bind]; [|by exists c].
      eexists. split; [done|]. destruct Hc as [?? ? [? ?] ? ?]. split; [split; cbn; try done|cbn].
      + rewrite len_app. change (len [JoinHostPort a "53"%go]) with 1. split; [lia|]. apply list.Forall_app. split; [done|]. constructor; [by exists a, ip|constructor].
      + rewrite take_ge; [done|]. unfold len in *. rewrite length_app. cbn. lia. }
  assert (Hnone : match args with a :: _ => [] | [] => [] end = [] :> list bytes) by (by destruct args). rewrite Hnone. clear Hnone.
  destruct (beq f0 "domain"%go).
  { destruct args as [|a args]; [by exists c|]. rewrite len_cons. pose proof (len_nonneg args). rewrite (proj2 (Z.gtb_lt _ 1)) by lia.
    change (at_ (f0 :: a :: args) 1) with (Ok a). destruct (ensureRooted_root a) as [Er Hr]. cbn [mbind res_bind]. rewrite Er. cbn [mbind res_bind].
    eexists. split; [done|]. apply adds_none; [done| |done]. destruct Hc. split; cbn; try done. by constructor. }
  destruct (beq f0 "search"%go).
  { destruct (search_names_rooted args) as (names&->&Hn&_). cbn [mbind res_bind]. eexists. split; [done|]. apply adds_none; [done| |done]. by destruct Hc; split. }
  destruct (beq f0 "options"%go).
  { destruct (options_loop_adds args c Hc) as (c'&->&H'). cbn [mbind res_bind]. by exists c'. }
  destruct (beq f0 "lookup"%go); (eexists; split; [done|]; apply adds_none; [done|by destruct Hc; split|done]).
Qed.
Lemma resolv_lines ls : ∀ c, sane c → ∃ c', over_lines resolv_line ls c = Ok c' ∧ adds (concat (map server_of ls)) c c'.
Proof.
  induction ls as [|line ls IH]; intros c Hc; cbn [over_lines map concat]; [exists c; split; [done|by apply adds_none]|].
  destruct (resolv_line_adds line c Hc) as (c1&->&Hs1&E1). cbn [mbind res_bind]. destruct (IH c1 Hs1) as (c2&->&Hs2&E2). exists c2. split; [done|]. split; [done|].
  rewrite E2, E1, app_assoc. set (u := servers c ++ server_of line). destruct (decide (3 <= length u)%nat) as [H3|H3].
  - rewrite !take_app_le by (rewrite ?length_take; lia). by rewrite take_take.
  - by rewrite (take_ge u) by lia.
Qed.
Lemma initial_sane m : sane (set_mtime m initial_conf).
Proof. split; cbn; unfold Second, big; (done || lia || by split; [lia|constructor]). Qed.
Lemma default_search_rooted hn : ∃ names, dnsDefaultSearch hn = Ok names ∧ Forall rooted names.
Proof.
  unfold dnsDefaultSearch. destruct hn as [hn|]; [|by exists []; split; [|constructor]]. destruct (index_split hn "."%byte) as [[-> _]|(a&b&->&_&->)]; [by exists []; split; [|constructor]|].
  rewrite len_app, len_cons. destruct ((len a >=? 0) && _); [|by exists []; split; [|constructor]].
  replace (a ++ "."%byte :: b) with ((a ++ ["."%byte]) ++ b) by (by rewrite <- app_assoc).
  rewrite from_app by (rewrite len_app; done). cbn [mbind res_bind]. destruct (ensureRooted_root b) as [-> Hr]. cbn [mbind res_bind].
  eexists. split; [done|]. by constructor.
Qed.
(** What the client relies on. *)
Record usable (c : dnsConfig) : Prop := {
  usable_ndots : 0 <= ndots c <= 15;
  usable_timeout : Second <= timeout c <= big * Second;
  usable_attempts : 1 <= attempts c <= big;
  usable_servers : 1 <= len (servers c) <= 3 ∧ (servers c = defaultNS ∨ Forall is_server (servers c));
  usable_search : Forall rooted (conf_search c);
}.
Definition named_servers (text : bytes) : list bytes := take 3 (concat (map server_of (fitting (text_lines text)))).
Definition or_default (l : list bytes) : list bytes := match l with [] => defaultNS | _ => l end.
Lemma failed_usable hn e : ∃ c, (search ← dnsDefaultSearch hn; Ok (set_err (Some e) (set_search search (set_servers defaultNS initial_conf)))) = Ok c ∧
  usable c ∧ conf_err c = Some e ∧ servers c = defaultNS.
Proof.
  destruct (default_search_rooted hn) as (names&->&Hn). eexists. split; [done|]. split; [|done]. destruct (initial_sane 0) as [H1 H2 H3 _ _ _]. split; try done.
  split; [change (len (servers _)) with 2; lia|by left].
Qed.
Lemma defaulted_usable c : sane c → let c1 := if len (servers c) =? 0 then set_servers defaultNS c else c in
  usable c1 ∧ conf_err c1 = None ∧ servers c1 = or_default (servers c).
Proof.
  intros [C1 C2 C3 [C4 C4'] C5 C6]. cbn zeta. destruct (servers c) as [|x l] eqn:E.
  - split; [|done]. split; try done. split; [change (len (servers _)) with 2; lia|by left].
  - rewrite len_cons in *. pose proof (len_nonneg l). rewrite (proj2 (Z.eqb_neq _ 0)) by lia. split; [|by rewrite E].
    split; try done. rewrite E, len_cons. split; [lia|by right].
Qed.
Lemma search_usable c x : usable c → Forall rooted x → usable (set_search x c).
Proof. intros [] Hx. by split. Qed.

(** C37: Reading resolv.conf, whatever its bytes and whether it can be opened and
    stat works, gives a configuration without a panic, and one within the bounds
    the client relies on: at most 15 dots, a timeout of at least a second, at
    least one attempt, suffixes that end in a dot (which "domain ." leaves alone),
    and one to three servers.  The servers are the first three valid addresses of
    the nameserver lines that come before the first line of 64 kB, or the defaults
    when there is none or the file cannot be opened or stat fails, whose error is
    kept.  No read of the opened file fails. *)
Theorem dnsReadConfig_usable {R : Type} `{RegularFile R} hn (opened : R + error) (stat : Z + error) fuel :
  (∀ r, opened = inl r → (length (left r) < fuel)%nat) →
  ∃ c, dnsReadConfig hn opened stat fuel = Ok c ∧ usable c ∧
    match opened, stat with
    | inl r, inl _ => conf_err c = None ∧ servers c = or_default (named_servers (left r))
    | inr e, _ | inl _, inr e => conf_err c = Some e ∧ servers c = defaultNS
    end.
Proof.
  intros Hf. unfold dnsReadConfig. destruct opened as [r|e]; [|apply failed_usable]. destruct stat as [m|e]; [|apply failed_usable].
  rewrite file_lines by by apply Hf. destruct (resolv_lines (fitting (text_lines (left r))) _ (initial_sane m)) as (c&->&Hc&Es). cbn [mbind res_bind].
  destruct (defaulted_usable c Hc) as (Hu&He&Hs). cbn zeta in *.
  set (c1 := if len (servers c) =? 0 then _ else c) in *. rewrite Es in Hs. change (servers c1 = or_default (named_servers (left r))) in Hs. destruct (len (conf_search c1) =? 0); [|exists c1; repeat (split; [done|]); done].
  destruct (default_search_rooted hn) as (names&->&Hn). cbn [mbind res_bind]. eexists. split; [done|]. split; [by apply search_usable|split; done].
Qed.
Definition resolv_sample : memory := Memory 7 (
  "# made by hand"%go ++ [10] ++ "nameserver 192.0.2.1"%go ++ [10] ++ "nameserver ns.example"%go ++ [10] ++ "search corp.example . example."%go ++ [10] ++
  "options ndots:99 timeout:0 rotate"%go ++ [10] ++ "nameserver 2001:db8::1"%go).
Lemma dnsReadConfig_usable_witness :
  (c ← dnsReadConfig (inl "host"%go) (inl resolv_sample) (inl 7) 200; Ok (servers c, conf_search c, ndots c, timeout c, conf_rotate c)) =
    Ok (["192.0.2.1:53"%go; "[2001:db8::1]:53"%go], ["corp.example."%go; "example."%go], 15, Second, true) ∧
  ∃ c, dnsReadConfig (inl "host"%go) (inl resolv_sample) (inl 7) 200 = Ok c ∧ usable c ∧
    conf_err c = None ∧ servers c = or_default (named_servers (left resolv_sample)).
Proof.
  split; [vm_compute; reflexivity|]. refine (dnsReadConfig_usable (inl "host"%go) (inl resolv_sample) (inl 7) 200 _).
  intros r [= <-]. apply Nat.ltb_lt. vm_compute. reflexivity.
Defined.

(** ** package net: the names the DNS client asks for, properties *)

(** A name is not to be asked for when it is empty or, its last dot apart, ends
    in ".onion" in any case. *)
Definition undot (s : bytes) : bytes := if bool_decide (rooted s) then removelast s else s.
Definition avoided (s : bytes) : bool :=
  is_nil s || existsb (λ k, stringsEqualFold (drop k (undot s)) ".onion"%go) (seq 0 (S (length s))).
Definition askable (s : bytes) : bool := negb (avoided s) && (len s <=? 254).
Lemma fold_eq_len s t : stringsEqualFold s t = true → len s = len t.
Proof. unfold stringsEqualFold. destruct (Z.eqb_spec (len s) (len t)); done. Qed.
Lemma hasSuffixFold_spec s suffix : ∃ b, stringsHasSuffixFold s suffix = Ok b ∧ (b = true ↔ ∃ u v, s = u ++ v ∧ stringsEqualFold v suffix = true).
Proof.
  unfold stringsHasSuffixFold. pose proof (len_nonneg suffix). destruct (Z.geb_spec (len s) (len suffix)) as [Hl|Hl]; cycle 1.
  { exists false. split; [done|]. split; [done|]. intros (u&v&->&Hv). apply fold_eq_len in Hv. rewrite len_app in Hl. pose proof (len_nonneg u). lia. }
  destruct (list_split s (len s - len suffix)) as (u&v&E&Hu); [lia|]. assert (Ef : from s (len s - len suffix) = Ok v) by (rewrite <- Hu, E; by apply from_app). rewrite Ef. cbn [mbind res_bind].
  exists (stringsEqualFold v suffix). split; [done|]. split; [intros Hv; by exists u, v|]. intros (u'&v'&E'&Hv). pose proof (fold_eq_len _ _ Hv) as Hl'.
  rewrite E in E'. assert (v = v') as ->; [|done]. apply app_inj_2 in E' as [_ ->]; [done|]. rewrite E, len_app in Hu. unfold len in *. lia.
Qed.
Lemma avoided_suffix s u : undot s = u → s ≠ [] → avoided s = true ↔ ∃ a b, u = a ++ b ∧ stringsEqualFold b ".onion"%go = true.
Proof.
  intros <- Hn. unfold avoided. destruct s as [|c s]; [done|]. cbn [is_nil orb]. set (w := c :: s). rewrite existsb_exists. split.
  - intros (k&_&Hk). exists (take k (undot w)), (drop k (undot w)). by rewrite take_drop.
  - intros (a&b&E&Hb). exists (length a). rewrite E, drop_app_length. split; [|done]. apply in_seq. split; [lia|].
    assert (H : (length (undot w) <= length w)%nat).
    { unfold undot. destruct (bool_decide (rooted w)); [|done]. destruct w as [|x l _] using rev_ind; [done|]. rewrite removelast_last, length_app. lia. }
    rewrite E, length_app in H. lia.
Qed.
Lemma avoidDNS_avoided s : avoidDNS s = Ok (avoided s).
Proof.
  unfold avoidDNS. destruct (decide (s = [])) as [->|Hn]; [done|]. assert (Eb : beq s [] = false) by (by destruct s). rewrite Eb.
  destruct (exists_last Hn) as (t&c&->). rewrite at_last. cbn [mbind res_bind].
  assert (Hu : (if c =? "."%byte then upto (t ++ [c]) (len (t ++ [c]) - 1) else Ok (t ++ [c])) = Ok (undot (t ++ [c]))).
  { unfold undot, rooted. rewrite last_snoc. destruct (Z.eqb_spec c "."%byte) as [->|Hc].
    - rewrite bool_decide_eq_true_2, removelast_last by done. apply upto_app. rewrite len_app. change (len ["."%byte]) with 1. lia.
    - by rewrite bool_decide_eq_false_2 by congruence. }
  rewrite Hu. cbn [mbind res_bind]. destruct (hasSuffixFold_spec (undot (t ++ [c])) ".onion"%go) as (b&->&Hb). f_equal. apply Bool.eq_iff_eq_true.
  rewrite Hb. symmetry. by apply avoided_suffix.
Qed.
Lemma suffix_loop_filter l name : suffix_loop l name = Ok (List.filter askable (map (app name) l)).
Proof.
  induction l as [|x l IH]; [done|]. cbn [suffix_loop map List.filter]. rewrite avoidDNS_avoided, IH. cbn [mbind res_bind]. fold (askable (name ++ x)). by destruct (askable _).
Qed.
Lemma CountString_filter s c : CountString s c = len (List.filter (λ x, x =? c) s).
Proof.
  assert (H : ∀ n, foldl (λ n x, if x =? c then n + 1 else n) n s = n + len (List.filter (λ x, x =? c) s)); [|apply H].
  induction s as [|x s IH]; intros n; cbn [foldl List.filter]; [change (len (@nil Z)) with 0; lia|]. rewrite IH. destruct (x =? c); rewrite ?len_cons; lia.
Qed.

(** ** The list *)
Definition fits (s : bytes) : bool := (len s <=? 253) || (len s =? 254) && bool_decide (rooted s).
Definition dots (s : bytes) : Z := len (List.filter (λ x, x =? "."%byte) s).
Definition candidates (conf : dnsConfig) (name : bytes) : list bytes :=
  if bool_decide (rooted name) then [name]
  else
    let own := [name ++ "."%go] in
    let suffixed := map (app (name ++ "."%go)) (conf_search conf) in
    if dots name >=? ndots conf then own ++ suffixed else suffixed ++ own.
Lemma nameList_eq conf name : nameList conf name = Ok (if fits name then List.filter askable (candidates conf name) else []).
Proof.
  unfold nameList, fits, candidates. destruct (last_byte name) as (b&->&Hb). cbn [mbind res_bind].
  assert (Eb : bool_decide (rooted name) = b). { apply Bool.eq_iff_eq_true. by rewrite bool_decide_eq_true, Hb. }
  rewrite Eb. clear Eb. destruct b; cbn [negb].
  - rewrite !andb_false_r, !andb_true_r, orb_false_r. destruct (Z.gtb_spec (len name) 254) as [Hg|Hg].
    { destruct (_ || _) eqn:E; [lia|done]. }
    destruct (_ || _) eqn:E; [|lia]. rewrite avoidDNS_avoided. cbn [mbind res_bind List.filter]. unfold askable.
    rewrite (proj2 (Z.leb_le (len name) 254)), andb_true_r by lia. by destruct (avoided name).
  - rewrite !andb_false_r, !andb_true_r, orb_false_r. destruct (Z.leb_spec (len name) 253) as [Hg|Hg]; [|destruct (_ || _) eqn:E; [done|lia]].
    destruct (_ || _) eqn:E; [lia|]. rewrite avoidDNS_avoided, suffix_loop_filter, CountString_filter. fold (dots name). cbn [mbind res_bind]. f_equal.
    assert (Ho : List.filter askable [name ++ "."%go] = if avoided (name ++ "."%go) then [] else [name ++ "."%go]).
    { cbn [List.filter]. unfold askable. rewrite len_app. change (len "."%go) with 1. rewrite (proj2 (Z.leb_le _ 254)), andb_true_r by lia. by destruct (avoided _). }
    destruct (dots name >=? ndots conf); rewrite List.filter_app, Ho; destruct (avoided (name ++ "."%go)); cbn [negb andb app]; by rewrite ?app_nil_r.
Qed.

(** ** Domain names *)
Lemma labels_join s t : labels s → s ≠ [] → ¬ rooted s → labels t → labels (s ++ "."%byte :: t).
Proof.
  intros Hs. induction Hs as [|l Hl|l s Hl Hs IH]; intros Hn Hr Ht; [done|by constructor|]. rewrite <- app_assoc. cbn [app]. constructor; [done|]. destruct s as [|c s].
  - exfalso. apply Hr. unfold rooted. by rewrite last_snoc.
  - apply IH; [done| |done]. intros Hr'. apply Hr. unfold rooted in *. rewrite last_app. cbn [list.last]. by rewrite Hr'.
Qed.
Lemma candidate_domain conf name n : domain_name name → Forall domain_name (conf_search conf) → Forall rooted (conf_search conf) →
  n ∈ candidates conf name → len n <= 254 → rooted n ∧ domain_name n.
Proof.
  intros (Hn&_&Hl&Hx) Hs Hr Hin Hlen. assert (Hmk : rooted n → labels n ∧ Exists nonNumeric n → domain_name n).
  { intros H1 [H2 H3]. split; [by intros ->|]. split; [|done]. destruct (decide (len n = 254)); [right; by split|left; lia]. }
  unfold candidates in Hin. destruct (bool_decide_reflect (rooted name)) as [Hrn|Hrn].
  { apply list_elem_of_singleton in Hin as ->. split; [done|]. by apply Hmk. }
  assert (Hor : n = name ++ "."%go ∨ n ∈ map (app (name ++ "."%go)) (conf_search conf)).
  { destruct (_ >=? _) in Hin; apply elem_of_app in Hin as [H|H]; try (apply list_elem_of_singleton in H); by (left + right). }
  destruct Hor as [->|Hin'].
  - assert (Hro : rooted (name ++ "."%go)) by (unfold rooted; by rewrite last_snoc). split; [done|]. apply Hmk; [done|]. split; [apply labels_join; (done || constructor)|].
    apply Exists_app. by left.
  - apply list_elem_of_In, in_map_iff in Hin' as (x&<-&Hin'). rewrite List.Forall_forall in Hs, Hr. specialize (Hs x Hin'). specialize (Hr x Hin').
    destruct Hs as (Hxn&_&Hxl&_). assert (Hro : rooted ((name ++ "."%go) ++ x)). { unfold rooted in *. rewrite last_app. by rewrite Hr. }
    split; [done|]. apply Hmk; [done|]. rewrite <- app_assoc. split; [by apply (labels_join name x)|]. apply Exists_app. by left.
Qed.
(** NameList gives the name itself when it ends in a dot, and otherwise the
    name with a dot and the name under each search suffix, the former first
    when it has dots enough, keeping those of at most 254 bytes outside ".onion".
    When the name and the suffixes are domain names, isDomainName accepts every
    name of the list. *)
Theorem nameList_spec conf name : Forall rooted (conf_search conf) → Forall domain_name (conf_search conf) → isDomainName name = Ok true →
  ∃ names, nameList conf name = Ok names ∧ names = List.filter askable (candidates conf name) ∧
    ∀ n, n ∈ names → rooted n ∧ isDomainName n = Ok true.
Proof.
  intros Hr Hs Hd. destruct (isDomainName_run name) as (b&E&Hb). rewrite E in Hd. injection Hd as ->. rewrite nameList_eq.
  assert (Hf : fits name = true).
  { destruct (proj1 Hb eq_refl) as [->|(_&[H|[H1 H2]]&_)]; [done|unfold fits; by rewrite (proj2 (Z.leb_le _ _))|].
    unfold fits. rewrite H1, bool_decide_eq_true_2 by done. done. }
  rewrite Hf. eexists. split; [done|]. split; [done|]. intros n Hn. apply list_elem_of_In, filter_In in Hn as [Hn Ha]. apply list_elem_of_In in Hn.
  unfold askable in Ha. assert (Hlen : len n <= 254) by lia. destruct (proj1 Hb eq_refl) as [->|Hdn].
  - unfold candidates in Hn. rewrite bool_decide_eq_true_2 in Hn by done. apply list_elem_of_singleton in Hn as ->. done.
  - destruct (candidate_domain conf name n) as [H1 H2]; try done. split; [done|]. destruct (isDomainName_run n) as (b&->&Hb'). by rewrite (proj2 Hb' (or_intror H2)).
Qed.
Definition suffix_conf : dnsConfig := set_search ["corp.example."%go; "example."%go] initial_conf.
#[global] Instance nonNumeric_dec c : Decision (nonNumeric c).
Proof. unfold nonNumeric, letter. apply _. Defined.
Lemma nameList_spec_witness :
  nameList suffix_conf "www"%go = Ok ["www.corp.example."%go; "www.example."%go; "www."%go] ∧
  ∃ names, nameList suffix_conf "www"%go = Ok names ∧ names = List.filter askable (candidates suffix_conf "www"%go) ∧
    ∀ n, n ∈ names → rooted n ∧ isDomainName n = Ok true.
Proof.
  split; [vm_compute; reflexivity|]. apply nameList_spec; [by repeat constructor| |vm_compute; reflexivity].
  assert (H : ∀ s, isDomainName s = Ok true → s ≠ "."%go → domain_name s).
  { intros s Hs Hn. destruct (isDomainName_run s) as (b&E&Hb). rewrite E in Hs. injection Hs as ->. by destruct (proj1 Hb eq_refl). }
  apply list.Forall_cons. split; [apply H; [vm_compute; reflexivity|discriminate]|]. apply list.Forall_cons. split; [apply H; [vm_compute; reflexivity|discriminate]|constructor].
Defined.
(** The search suffix "." of a [domain] line is kept, and gives names that are no
    domain names. *)
Lemma domain_root_suffix : ∃ c, resolv_line "domain ."%go initial_conf = Ok (c, true) ∧ conf_search c = ["."%go] ∧
  nameList c "www"%go = Ok ["www.."%go; "www."%go] ∧ isDomainName "www.."%go = Ok false.
Proof. exists (set_search ["."%go] initial_conf). vm_compute. repeat split; reflexivity. Qed.
