(* ===== verification/HostsFile.v ===== *)
(** * package net: the hosts file and its cache (hosts.go)

    The variable [hosts] is a record passed along: every function below runs with
    its lock held.  The clock, the file's path, what stat answers and the opened
    file are arguments.  A time is a number of nanoseconds. *)
From stdpp Require Import gmap.
From S2P Require Import Prelude Strconv NetipText NetHost NetFile DnsNames DnsConfig.

Definition cacheMaxAge : Z := 5 * Second.
(** The text of the address, or nothing when it is not one. *)
Definition parseLiteralIP (addr : bytes) : res bytes :=
  match ParseAddr addr with Ok ip => Ok (Addr_String ip) | Err _ => Ok [] | Panic m => Panic m end.
Record byName : Set := MkByName { byName_addrs : list bytes; canonicalName : bytes }.
Abbreviation name_map := (gmap bytes byName).
Abbreviation addr_map := (gmap bytes (list bytes)).
Record hosts : Set := MkHosts {
  hosts_byName : name_map; hosts_byAddr : addr_map; expire : Z; hosts_path : bytes; hosts_mtime : Z; hosts_size : Z }.
(** The variable before its first use: nil maps, zero times. *)
Definition no_hosts : hosts := MkHosts ∅ ∅ 0 [] 0 0.

(** ** Reading *)
(** One name of a line: [canonical] is set by the first, which [i = 1] tells. *)
Definition host_name (addr f : bytes) (i : Z) (canonical : bytes) (hs : name_map) (ias : addr_map) : res (bytes * name_map * addr_map) :=
  name ← absDomainName f;
  key ← absDomainName (lowerASCIIBytes f);
  let canonical := if i =? 1 then key else canonical in
  let ias := <[addr := default [] (ias !! addr) ++ [name]]> ias in
  Ok (canonical,
      match hs !! key with
      | Some v => <[key := MkByName (byName_addrs v ++ [addr]) (canonicalName v)]> hs
      | None => <[key := MkByName [addr] canonical]> hs
      end,
      ias).
Fixpoint host_names (addr : bytes) (f : list bytes) (i : Z) (canonical : bytes) (hs : name_map) (ias : addr_map) : res (name_map * addr_map) :=
  match f with
  | [] => Ok (hs, ias)
  | x :: f =>
      '(canonical, hs, ias) ← host_name addr x i canonical hs ias;
      host_names addr f (i + 1) canonical hs ias
  end.
Definition host_line (line : bytes) (maps : name_map * addr_map) : res (name_map * addr_map * bool) :=
  let '(hs, ias) := maps in
  let i := IndexByteString line "#"%byte in
  line ← (if i >=? 0 then upto line i else Ok line);
  f ← getFields line;
  if len f <? 2 then Ok (maps, true)
  else
    f0 ← at_ f 0;
    addr ← parseLiteralIP f0;
    if beq addr [] then Ok (maps, true)
    else
      names ← from f 1;
      maps ← host_names addr names 1 [] hs ias;
      Ok (maps, true).

(** What opening the file gives: the file; an error that says there is none to
    read (fs.ErrNotExist or fs.ErrPermission); or another error. *)
Inductive opening (R : Type) : Type := Opened (r : R) | Missing | OpenFailed.
Arguments Opened {R} r.
Arguments Missing {R}.
Arguments OpenFailed {R}.
(** What readHosts is given: the time and size of the file, unless stat fails. *)
Record world (R : Type) : Type := MkWorld { w_now : Z; hostsFilePath : bytes; w_stat : (Z * Z) + error; w_opened : opening R; w_fuel : nat }.
Arguments MkWorld {R}.
Arguments w_now {R} w.
Arguments hostsFilePath {R} w.
Arguments w_stat {R} w.
Arguments w_opened {R} w.
Arguments w_fuel {R} w.
Section read.
Context {R : Type} `{Reader R}.
Implicit Types w : world R.
Definition readHosts w (h : hosts) : res hosts :=
  let hp := hostsFilePath w in
  if (w_now w <? expire h) && beq (hosts_path h) hp && (0 <? Z.of_nat (size (hosts_byName h))) then Ok h
  else
    let '(mtime, sz, err) := match w_stat w with inl (m, n) => (m, n, false) | inr _ => (0, 0, true) end in
    if negb err && beq (hosts_path h) hp && (hosts_mtime h =? mtime) && (hosts_size h =? sz) then
      Ok (MkHosts (hosts_byName h) (hosts_byAddr h) (w_now w + cacheMaxAge) (hosts_path h) (hosts_mtime h) (hosts_size h))
    else
      match w_opened w with
      | OpenFailed => Ok h
      | Missing => Ok (MkHosts ∅ ∅ (w_now w + cacheMaxAge) hp mtime sz)
      | Opened r =>
          '(hs, ias) ← each_line (w_fuel w) host_line (open_file r) (∅, ∅);
          Ok (MkHosts hs ias (w_now w + cacheMaxAge) hp mtime sz)
      end.

(** ** Looking up *)
Definition lookupStaticHost w (host : bytes) (h : hosts) : res (list bytes * bytes * hosts) :=
  h ← readHosts w h;
  if negb (Z.of_nat (size (hosts_byName h)) =? 0) then
    let host := if hasUpperCase host then lowerASCIIBytes host else host in
    key ← absDomainName host;
    Ok (match hosts_byName h !! key with Some b => (byName_addrs b, canonicalName b, h) | None => ([], [], h) end)
  else Ok ([], [], h).
Definition lookupStaticAddr w (addr : bytes) (h : hosts) : res (list bytes * hosts) :=
  h ← readHosts w h;
  addr ← parseLiteralIP addr;
  if beq addr [] then Ok ([], h)
  else if negb (Z.of_nat (size (hosts_byAddr h)) =? 0) then
    Ok (match hosts_byAddr h !! addr with Some l => (l, h) | None => ([], h) end)
  else Ok ([], h).
End read.
