(* ===== verification/HostsFileProps.v ===== *)
(** * package net: the hosts file, properties *)
From stdpp Require Import gmap.
From S2P Require Import Prelude Strconv NetipAddr NetipText NetipProps NetHost NetHostProps NetIP DnsConfigProps SortSpec NetFile NetFileProps DnsNames DnsNamesProps DnsConfig HostsFile.

(** ** What the file says *)
Definition abs (s : bytes) : bytes := if bool_decide ("."%byte ∈ s) && negb (bool_decide (rooted s)) then s ++ "."%go else s.
Definition lower_name (s : bytes) : bytes := abs (lowerASCIIBytes s).
Definition literal (s : bytes) : bytes := match ParseAddr s with Ok ip => Addr_String ip | _ => [] end.
(** One name of one line: the address, the name, the key it is found by, and the
    first name of its line. *)
Record occurrence : Set := Occ { o_addr : bytes; o_name : bytes; o_key : bytes; o_first : bytes }.
Definition uncomment (line : bytes) : bytes := let i := IndexByteString line "#"%byte in if i >=? 0 then take (Z.to_nat i) line else line.
Definition line_hosts (line : bytes) : list occurrence :=
  match fields blank (uncomment line) with
  | f0 :: x :: names =>
      if beq (literal f0) [] then [] else map (λ n, Occ (literal f0) (abs n) (lower_name n) (lower_name x)) (x :: names)
  | _ => []
  end.
Definition entries (text : bytes) : list occurrence := concat (map line_hosts (fitting (text_lines text))).
(** The addresses of a name, with the first name of the first line that has it,
    and the names of an address, in the order of the file. *)
Definition name_entry (L : list occurrence) (key : bytes) : option byName :=
  match filter (λ o, o_key o = key) L with
  | [] => None
  | o :: l => Some (MkByName (map o_addr (o :: l)) (o_first o))
  end.
Definition addr_entry (L : list occurrence) (addr : bytes) : option (list bytes) :=
  match filter (λ o, o_addr o = addr) L with [] => None | l => Some (map o_name l) end.

(** ** Helpers are total *)
Lemma absDomainName_abs s : absDomainName s = Ok (abs s).
Proof.
  unfold absDomainName, abs. destruct (index_split s "."%byte) as [[-> Hn]|(a&b&E&_&->)].
  - rewrite (bool_decide_eq_false_2 ("."%byte ∈ s)); [done|]. by rewrite list_elem_of_In.
  - assert (Hin : "."%byte ∈ s) by (rewrite E; apply elem_of_app; right; left). rewrite (bool_decide_eq_true_2 ("."%byte ∈ s)) by done.
    pose proof (len_nonneg a). rewrite (proj2 (Z.eqb_neq _ _)) by lia. cbn [negb andb].
    destruct s as [|c s _] using rev_ind; [by apply not_elem_of_nil in Hin|]. rewrite at_last. cbn [mbind res_bind]. unfold rooted. rewrite last_snoc.
    destruct (Z.eqb_spec c "."%byte) as [->|Hc]; [by rewrite bool_decide_eq_true_2|by rewrite bool_decide_eq_false_2 by congruence].
Qed.
Lemma parseLiteralIP_literal s : parseLiteralIP s = Ok (literal s).
Proof. unfold parseLiteralIP, literal. by destruct (ParseAddr_any s) as [(ip&->&_)|[e ->]]. Qed.
Lemma lower_id s : hasUpperCase s = false → lowerASCIIBytes s = s.
Proof.
  unfold hasUpperCase, lowerASCIIBytes. induction s as [|c s IH]; [done|]. cbn [existsb map]. rewrite orb_false_iff. intros [Hc Hs]. rewrite IH by done. f_equal.
  unfold lowerASCII. by rewrite Hc.
Qed.
Lemma lower_host host : (if hasUpperCase host then lowerASCIIBytes host else host) = lowerASCIIBytes host.
Proof. destruct (hasUpperCase host) eqn:E; [done|]. by rewrite lower_id. Qed.

(** ** The maps *)
Definition holds (L : list occurrence) (hs : name_map) (ias : addr_map) : Prop :=
  (∀ k, hs !! k = name_entry L k) ∧ (∀ a, ias !! a = addr_entry L a).
Lemma name_entry_snoc L o k : name_entry (L ++ [o]) k =
  if decide (o_key o = k) then
    Some (match name_entry L k with Some v => MkByName (byName_addrs v ++ [o_addr o]) (canonicalName v) | None => MkByName [o_addr o] (o_first o) end)
  else name_entry L k.
Proof.
  unfold name_entry. rewrite list.filter_app. destruct (decide (o_key o = k)) as [Ek|Nk].
  - rewrite (filter_cons_True _ o []) by done. destruct (filter _ L) as [|x l]; [done|]. cbn [app map byName_addrs canonicalName]. by rewrite map_app.
  - rewrite (filter_cons_False _ o []) by done. rewrite filter_nil, app_nil_r. done.
Qed.
Lemma addr_entry_snoc L o a : addr_entry (L ++ [o]) a = if decide (o_addr o = a) then Some (default [] (addr_entry L a) ++ [o_name o]) else addr_entry L a.
Proof.
  unfold addr_entry. rewrite list.filter_app. destruct (decide (o_addr o = a)) as [Ea|Na].
  - rewrite (filter_cons_True _ o []) by done. destruct (filter _ L) as [|x l]; [done|]. cbn [app map from_option id]. by rewrite map_app.
  - rewrite (filter_cons_False _ o []) by done. rewrite filter_nil, app_nil_r. done.
Qed.
Lemma host_name_spec L addr f i canonical hs ias : holds L hs ias →
  let first := if i =? 1 then lower_name f else canonical in
  ∃ hs' ias', host_name addr f i canonical hs ias = Ok (first, hs', ias') ∧ holds (L ++ [Occ addr (abs f) (lower_name f) first]) hs' ias'.
Proof.
  intros [Hh Hi]. cbn zeta. unfold host_name. rewrite !absDomainName_abs. cbn [mbind res_bind]. fold (lower_name f). eexists _, _. split; [done|]. split.
  - intros k. rewrite name_entry_snoc. cbn [o_key o_addr o_first]. rewrite <- Hh. destruct (decide (lower_name f = k)) as [<-|Hk].
    + destruct (hs !! lower_name f) as [v|] eqn:E; rewrite ?E; by rewrite lookup_insert_eq.
    + destruct (hs !! lower_name f); by rewrite lookup_insert_ne.
  - intros a. rewrite addr_entry_snoc. cbn [o_addr o_name]. rewrite <- Hi. destruct (decide (addr = a)) as [<-|Ha]; [by rewrite lookup_insert_eq|by rewrite lookup_insert_ne].
Qed.
Lemma host_names_spec f : ∀ L addr i canonical hs ias, 1 < i → holds L hs ias →
  ∃ hs' ias', host_names addr f i canonical hs ias = Ok (hs', ias') ∧ holds (L ++ map (λ n, Occ addr (abs n) (lower_name n) canonical) f) hs' ias'.
Proof.
  induction f as [|x f IH]; intros L addr i canonical hs ias Hi Hh; cbn [host_names map]; [exists hs, ias; by rewrite app_nil_r|].
  destruct (host_name_spec L addr x i canonical hs ias Hh) as (hs1&ias1&->&Hh1). rewrite (proj2 (Z.eqb_neq i 1)) in * by lia. cbn [mbind res_bind].
  destruct (IH _ addr (i + 1) canonical hs1 ias1 ltac:(lia) Hh1) as (hs2&ias2&->&Hh2). exists hs2, ias2. split; [done|]. by rewrite <- app_assoc in Hh2.
Qed.
Lemma host_line_spec L line hs ias : holds L hs ias →
  ∃ hs' ias', host_line line (hs, ias) = Ok (hs', ias', true) ∧ holds (L ++ line_hosts line) hs' ias'.
Proof.
  intros Hh. unfold host_line, line_hosts. cbn zeta.
  assert (Hu : (if IndexByteString line "#"%byte >=? 0 then upto line (IndexByteString line "#"%byte) else Ok line) = Ok (uncomment line)).
  { unfold uncomment. destruct (index_split line "#"%byte) as [[-> _]|(a&b&E&_&->)]; [done|]. pose proof (len_nonneg a). rewrite (proj2 (Z.geb_le _ _)) by lia.
    rewrite E. rewrite upto_app by done. f_equal. unfold len. by rewrite Nat2Z.id, take_app_length. }
  rewrite Hu. cbn [mbind res_bind]. rewrite getFields_fields. cbn [mbind res_bind]. assert (H0 : holds (L ++ []) hs ias) by by rewrite app_nil_r.
  destruct (fields blank (uncomment line)) as [|f0 [|x f]]; [by exists hs, ias..|]. rewrite !len_cons. pose proof (len_nonneg f). rewrite (proj2 (Z.ltb_ge _ 2)) by lia.
  change (at_ (f0 :: x :: f) 0) with (Ok f0). cbn [mbind res_bind]. rewrite parseLiteralIP_literal. cbn [mbind res_bind]. destruct (beq (literal f0) []); [by exists hs, ias|].
  change (f0 :: x :: f) with ([f0] ++ x :: f). rewrite from_app by done. cbn [mbind res_bind host_names].
  destruct (host_name_spec L (literal f0) x 1 [] hs ias Hh) as (hs1&ias1&->&Hh1). cbn [Z.eqb Pos.eqb mbind res_bind] in *.
  destruct (host_names_spec f _ (literal f0) 2 (lower_name x) hs1 ias1 ltac:(lia) Hh1) as (hs2&ias2&E&Hh2). change (1 + 1) with 2. rewrite E. cbn [mbind res_bind].
  exists hs2, ias2. split; [done|]. by rewrite <- app_assoc in Hh2.
Qed.
Lemma host_lines ls : ∀ L hs ias, holds L hs ias →
  ∃ hs' ias', over_lines host_line ls (hs, ias) = Ok (hs', ias') ∧ holds (L ++ concat (map line_hosts ls)) hs' ias'.
Proof.
  induction ls as [|line ls IH]; intros L hs ias Hh; cbn [over_lines map concat]; [exists hs, ias; by rewrite app_nil_r|].
  destruct (host_line_spec L line hs ias Hh) as (hs1&ias1&->&Hh1). cbn [mbind res_bind]. destruct (IH _ hs1 ias1 Hh1) as (hs2&ias2&->&Hh2).
  exists hs2, ias2. split; [done|]. by rewrite <- app_assoc in Hh2.
Qed.

(** ** The cache *)
Section read.
Context {R : Type} `{RegularFile R}.
Implicit Types w : world R.
(** What the cache stands for: the text it holds, when that was last known to be
    the file's, the path of the file, and its time and size then. *)
Record known : Set := Known { k_text : bytes; k_read : Z; k_path : bytes; k_mtime : Z; k_size : Z }.
Record represents (h : hosts) (k : known) : Prop := {
  rep_maps : holds (entries (k_text k)) (hosts_byName h) (hosts_byAddr h);
  rep_expire : expire h = k_read k + 5 * 10 ^ 9;
  rep_path : hosts_path h = k_path k;
  rep_mtime : hosts_mtime h = k_mtime k;
  rep_size : hosts_size h = k_size k;
}.
Definition nothing_known : known := Known [] (-5 * 10 ^ 9) [] 0 0.
(** The text is used as it is for five seconds, if the path is the same and it has
    an entry at all; after that, while the file has the time and the size it had. *)
Definition current w k : Prop := w_now w < k_read k + 5 * 10 ^ 9 ∧ k_path k = hostsFilePath w ∧ entries (k_text k) ≠ [].
Definition unchanged w k : Prop := k_path k = hostsFilePath w ∧ w_stat w = inl (k_mtime k, k_size k).
#[global] Instance occurrence_eq : EqDecision occurrence.
Proof. solve_decision. Defined.
#[global] Instance current_dec w k : Decision (current w k).
Proof. unfold current. apply _. Defined.
#[global] Instance unchanged_dec w k : Decision (unchanged w k).
Proof. unfold unchanged. destruct (w_stat w) as [st|e]; [refine (cast_if_and (decide (k_path k = hostsFilePath w)) (decide (st = (k_mtime k, k_size k)))); abstract naive_solver|right; by intros [_ ?]]. Defined.
Definition stamp w : Z * Z := match w_stat w with inl st => st | inr _ => (0, 0) end.
(** What is known once the file has been looked at where need be: a file that
    cannot be opened leaves what was, unless there is none or it is not permitted. *)
Definition renewed w k : known :=
  if decide (current w k) then k
  else if decide (unchanged w k) then Known (k_text k) (w_now w) (k_path k) (k_mtime k) (k_size k)
  else match w_opened w with
       | OpenFailed => k
       | Missing => Known [] (w_now w) (hostsFilePath w) (fst (stamp w)) (snd (stamp w))
       | Opened r => Known (left r) (w_now w) (hostsFilePath w) (fst (stamp w)) (snd (stamp w))
       end.
Definition enough w : Prop := ∀ r, w_opened w = Opened r → (length (left r) < w_fuel w)%nat.
Lemma no_entries : holds (entries []) ∅ ∅.
Proof. split; intros ?; by rewrite lookup_empty. Qed.
Lemma no_hosts_represents : represents no_hosts nothing_known.
Proof. constructor; [apply no_entries|done..]. Qed.
Lemma name_entry_none (L : list occurrence) : (∀ k, name_entry L k = None) → L = [].
Proof. destruct L as [|o L]; [done|]. intros HL. specialize (HL (o_key o)). unfold name_entry in HL. by rewrite filter_cons_True in HL. Qed.
Lemma no_names (L : list occurrence) (hs : name_map) : (∀ k, hs !! k = name_entry L k) → (size hs = 0%nat ↔ L = []).
Proof.
  intros Hh. split; [intros Hs%map_size_empty_inv; apply name_entry_none; intros k; by rewrite <- Hh, Hs|]. intros ->. apply map_size_empty_iff, map_eq. intros k. by rewrite Hh, lookup_empty.
Qed.
Lemma current_run w h k : represents h k → (w_now w <? expire h) && beq (hosts_path h) (hostsFilePath w) && (0 <? Z.of_nat (size (hosts_byName h))) = bool_decide (current w k).
Proof.
  intros [Hm He Hp _ _]. rewrite He, Hp. apply eq_true_iff_eq. rewrite !andb_true_iff, !Z.ltb_lt, bool_decide_eq_true, beq_eq. unfold current.
  pose proof (no_names _ _ (proj1 Hm)) as Hs. destruct (decide (entries (k_text k) = [])) as [E|E]; [rewrite (proj2 Hs E); split; [intros [_ ?]; lia|by intros (_&_&?)]|].
  assert (size (hosts_byName h) ≠ 0%nat) by tauto. split; [intros [[??]?]; done|intros (?&?&_); split; [done|lia]].
Qed.
Lemma readHosts_spec w h k : represents h k → enough w → ∃ h', readHosts w h = Ok h' ∧ represents h' (renewed w k).
Proof.
  intros Hr Hf. unfold readHosts, renewed. rewrite (current_run w h k Hr). case_bool_decide as Hc; [rewrite decide_True by done; by exists h|rewrite decide_False by done].
  pose proof Hr as [Hm He Hp Ht Hsz]. set (st := match w_stat w with inl (m, n) => (m, n, false) | inr _ => (0, 0, true) end).
  assert (Es : st = (fst (stamp w), snd (stamp w), match w_stat w with inl _ => false | inr _ => true end)) by (unfold st, stamp; by destruct (w_stat w) as [[m n]|e]).
  assert (Eu : negb (snd st) && beq (hosts_path h) (hostsFilePath w) && (hosts_mtime h =? fst (fst st)) && (hosts_size h =? snd (fst st)) = bool_decide (unchanged w k)).
  { rewrite Es, Hp, Ht, Hsz. cbn [fst snd]. apply eq_true_iff_eq. rewrite !andb_true_iff, !Z.eqb_eq, beq_eq, bool_decide_eq_true. unfold unchanged, stamp. destruct (w_stat w) as [[m n]|e]; cbn [negb fst snd].
    - split; [intros [[[_ ?] ?] ?]; by subst|]. by intros [? [= -> ->]].
    - split; [by intros [[[? _] _] _]|by intros [_ ?]]. }
  rewrite Es in Eu |- *. cbn [fst snd] in *. rewrite Eu. case_bool_decide as Hu; [rewrite decide_True by done; eexists; split; [done|]; constructor; try done; by rewrite <- ?Hp|rewrite decide_False by done].
  destruct (w_opened w) as [r| |] eqn:Eo.
  - rewrite file_lines by by apply Hf. destruct (host_lines (fitting (text_lines (left r))) [] ∅ ∅ no_entries) as (hs&ias&->&Hh). eexists. split; [done|]. by constructor.
  - eexists. split; [done|]. constructor; [apply no_entries|done..].
  - by exists h.
Qed.
(** What a text says of a name and of an address. *)
Definition addresses_of (text query : bytes) : list bytes * bytes :=
  match name_entry (entries text) (lower_name query) with Some b => (byName_addrs b, canonicalName b) | None => ([], []) end.
Definition names_of (text query : bytes) : list bytes :=
  if beq (literal query) [] then [] else default [] (addr_entry (entries text) (literal query)).
Lemma lookupStaticHost_run w h k query : represents h k → enough w →
  ∃ h', lookupStaticHost w query h = Ok (addresses_of (k_text (renewed w k)) query, h') ∧ represents h' (renewed w k).
Proof.
  intros Hc Hf. destruct (readHosts_spec w h k Hc Hf) as (h'&E&Hc'). pose proof (rep_maps _ _ Hc') as [Hh Hi]. exists h'.
  split; [|done]. unfold lookupStaticHost, addresses_of. rewrite E. cbn [mbind res_bind]. rewrite lower_host, absDomainName_abs. fold (lower_name query). set (L := entries _) in *.
  destruct (Z.eqb_spec (Z.of_nat (size (hosts_byName h'))) 0) as [E0|_]; cbn [negb mbind res_bind].
  - assert (L = []) as -> by (apply (no_names L (hosts_byName h') Hh); lia). done.
  - rewrite Hh. by destruct (name_entry L (lower_name query)).
Qed.
Lemma lookupStaticAddr_run w h k query : represents h k → enough w →
  ∃ h', lookupStaticAddr w query h = Ok (names_of (k_text (renewed w k)) query, h') ∧ represents h' (renewed w k).
Proof.
  intros Hc Hf. destruct (readHosts_spec w h k Hc Hf) as (h'&E&Hc'). pose proof (rep_maps _ _ Hc') as [Hh Hi]. exists h'.
  split; [|done]. unfold lookupStaticAddr, names_of. rewrite E. cbn [mbind res_bind]. rewrite parseLiteralIP_literal. cbn [mbind res_bind].
  destruct (beq (literal query) []); [done|]. rewrite <- Hi. destruct (Z.eqb_spec (Z.of_nat (size (hosts_byAddr h'))) 0) as [E0|_]; cbn [negb].
  - assert (Em : hosts_byAddr h' = ∅) by (apply map_size_empty_inv; lia). by rewrite Em, lookup_empty.
  - by destruct (hosts_byAddr h' !! literal query).
Qed.
(** C38: the hosts file and its cache refine a text that is renewed: it is used as
    it is for five seconds after it was last known to be the file's, while the
    path is the same, if it has an entry; then, while stat says the file has the
    time and the size it had, it is good for five seconds more; else the file is
    read again, and one that does not exist or is not permitted is empty, but one
    that cannot be opened otherwise leaves the text.  From it a name has the
    addresses of all lines that have the name in any case, with or without its
    last dot when it has another, in order, and the first name of the first such
    line; an address has the names of its lines.  Lines from the first one of
    64 kB on are not read. *)
Theorem lookupStatic_spec w h k query : represents h k → enough w →
  represents no_hosts nothing_known ∧
  (∃ h', lookupStaticHost w query h = Ok (addresses_of (k_text (renewed w k)) query, h') ∧ represents h' (renewed w k)) ∧
  (∃ h', lookupStaticAddr w query h = Ok (names_of (k_text (renewed w k)) query, h') ∧ represents h' (renewed w k)).
Proof. intros Hc Hf. split; [apply no_hosts_represents|]. split; [by apply lookupStaticHost_run|by apply lookupStaticAddr_run]. Qed.
End read.
Definition hosts_sample : world memory := MkWorld 100 "/etc/hosts"%go (inl (7, 50)) (Opened (Memory 16 (
  "127.0.0.1 localhost # here"%go ++ [10] ++ "::1 LOCALHOST ip6-localhost"%go ++ [10] ++ "nonsense x"%go ++ [10] ++ "192.0.2.1 www.example Www"%go))) 200.
(** Four seconds later another file is not looked at; five seconds later it is,
    unless its time and size are the same. *)
Definition later_hosts (dt mtime : Z) : world memory := MkWorld (100 + dt) "/etc/hosts"%go (inl (mtime, 50)) (Opened (Memory 16 "192.0.2.9 www"%go)) 200.
Definition asked_twice (dt mtime : Z) : res (list bytes) :=
  '(_, _, h) ← lookupStaticHost hosts_sample "www"%go no_hosts; '(l, _, _) ← lookupStaticHost (later_hosts dt mtime) "www"%go h; Ok l.
Lemma lookupStatic_spec_witness :
  ((r ← lookupStaticHost hosts_sample "LocalHost"%go no_hosts; Ok (fst r)) = Ok (["127.0.0.1"%go; "::1"%go], "localhost"%go) ∧
   (r ← lookupStaticHost hosts_sample "WWW"%go no_hosts; Ok (fst r)) = Ok (["192.0.2.1"%go], "www.example."%go) ∧
   asked_twice (4 * 10 ^ 9) 8 = Ok ["192.0.2.1"%go] ∧ asked_twice (5 * 10 ^ 9) 8 = Ok ["192.0.2.9"%go] ∧ asked_twice (5 * 10 ^ 9) 7 = Ok ["192.0.2.1"%go]) ∧
  ∃ h', lookupStaticAddr hosts_sample "192.0.2.1"%go no_hosts = Ok (names_of (k_text (renewed hosts_sample nothing_known)) "192.0.2.1"%go, h') ∧ represents h' (renewed hosts_sample nothing_known).
Proof.
  split; [vm_compute; by repeat split|].
  refine (proj2 (proj2 (lookupStatic_spec hosts_sample no_hosts nothing_known "192.0.2.1"%go no_hosts_represents _))). intros r [= <-]. apply Nat.ltb_lt. vm_compute. reflexivity.
Defined.
