(* ===== verification/NssConf.v ===== *)
(** * package net: nsswitch.conf and the choice of a resolver (nss.go, conf.go, foreachField of parse.go)

    The files read and the environment are arguments. *)
From stdpp Require Import gmap.
From S2P Require Import Prelude Strconv NetHost NetFile DnsConfig.

(** ** foreachField *)
Fixpoint foreach_loop {S : Type} (fuel : nat) (x : bytes) (fn : bytes → S → res S) (st : S) : res S :=
  if len x >? 0 then
    match fuel with
    | O => Panic []
    | Datatypes.S fuel =>
        let sp := IndexByteString x " "%byte in
        if sp =? -1 then fn x st
        else
          t ← upto x sp;
          let field := trimSpace t in
          st ← (if len field >? 0 then fn field st else Ok st);
          x ← from x (sp + 1);
          foreach_loop fuel (trimSpace x) fn st
    end
  else Ok st.
Definition foreachField {S : Type} (x : bytes) (fn : bytes → S → res S) (st : S) : res S :=
  foreach_loop (length x) (trimSpace x) fn st.

(** ** Criteria *)
Record nssCriterion : Set := MkCriterion { negate : bool; status : bytes; action : bytes }.
Record nssSource : Set := MkSource { source : bytes; criteria : list nssCriterion }.
Definition standardStatusAction (c : nssCriterion) (last : bool) : bool :=
  if negate c then false
  else
    match (if beq (status c) "success"%go then Some "return"%go
           else if beq (status c) "notfound"%go || beq (status c) "unavail"%go || beq (status c) "tryagain"%go then Some "continue"%go
           else None) with
    | None => false
    | Some def => if last && beq (action c) "return"%go then true else beq (action c) def
    end.
Fixpoint standard_loop (l : list nssCriterion) : bool :=
  match l with
  | [] => true
  | crit :: l => if negb (standardStatusAction crit (match l with [] => true | _ => false end)) then false else standard_loop l
  end.
Definition standardCriteria (s : nssSource) : bool := standard_loop (criteria s).
(** The function parseCriteria hands to foreachField. *)
Definition criterion (f : bytes) (c : list nssCriterion) : res (list nssCriterion) :=
  bang ← (if len f >? 0 then x ← at_ f 0; Ok (x =? "!"%byte) else Ok false);
  f ← (if (bang : bool) then from f 1 else Ok f);
  if len f <? 3 then Err (New "criterion too short"%go)
  else
    let eq := IndexByteString f "="%byte in
    if eq =? -1 then Err (New "criterion lacks equal sign"%go)
    else
      let f := if hasUpperCase f then lowerASCIIBytes f else f in
      status ← upto f eq;
      action ← from f (eq + 1);
      Ok (c ++ [MkCriterion bang status action]).
Definition parseCriteria (x : bytes) : res (list nssCriterion) := foreachField x criterion [].

(** ** nsswitch.conf *)
Abbreviation source_map := (gmap bytes (list nssSource)).
Record nssConf : Set := MkNss { nss_mtime : Z; nss_err : option error; sources : source_map }.
Definition empty_nss : nssConf := MkNss 0 None ∅.
Definition nss_fail (e : error) (conf : nssConf) : nssConf := MkNss (nss_mtime conf) (Some e) (sources conf).
Definition add_source (db : bytes) (s : nssSource) (conf : nssConf) : nssConf :=
  MkNss (nss_mtime conf) (nss_err conf) (<[db := default [] (sources conf !! db) ++ [s]]> (sources conf)).
(** One source: its name, its criteria and the text after them; or the error
    that ends the parse. *)
Definition one_source (srcs : bytes) : res (nssSource * bytes + error) :=
  let sp := IndexByteString srcs " "%byte in
  '(src, srcs) ← (if sp =? -1 then Ok (srcs, []) else src ← upto srcs sp; t ← from srcs (sp + 1); Ok (src, trimSpace t));
  bracket ← (if len srcs >? 0 then x ← at_ srcs 0; Ok (x =? "["%byte) else Ok false);
  if (bracket : bool) then
    let bclose := IndexByteString srcs "]"%byte in
    if bclose =? -1 then Ok (inr (New "unclosed criterion bracket"%go))
    else
      inside ← slice srcs 1 bclose;
      match parseCriteria inside with
      | Panic m => Panic m
      | Err _ => Ok (inr (New ("invalid criteria: "%go ++ inside)))
      | Ok criteria => srcs ← from srcs (bclose + 1); Ok (inl (MkSource src criteria, srcs))
      end
  else Ok (inl (MkSource src [], srcs)).
Fixpoint sources_loop (fuel : nat) (db srcs : bytes) (conf : nssConf) : res (nssConf * bool) :=
  let srcs := trimSpace srcs in
  if len srcs =? 0 then Ok (conf, true)
  else
    match fuel with
    | O => Panic []
    | S fuel =>
        r ← one_source srcs;
        match r with
        | inr e => Ok (nss_fail e conf, false)
        | inl (s, srcs) => sources_loop fuel db srcs (add_source db s conf)
        end
    end.
Definition nss_line (line : bytes) (conf : nssConf) : res (nssConf * bool) :=
  line ← removeComment line;
  let line := trimSpace line in
  if len line =? 0 then Ok (conf, true)
  else
    let colon := IndexByteString line ":"%byte in
    if colon =? -1 then Ok (nss_fail (New "no colon on line"%go) conf, false)
    else
      db ← upto line colon;
      srcs ← from line (colon + 1);
      sources_loop (length srcs) (trimSpace db) srcs conf.
(** Keeping it up to date: [ch] is full while an update runs; [mtime] is the
    file's time, zero when it cannot be had, and [reread] what reading it gives. *)
Record nsswitchConfig : Set := MkNsswitch { nss_ch : bool; nss_lastChecked : Z; nssConf_ : nssConf }.
Definition nss_update_held (now mtime : Z) (reread : res nssConf) (conf : nsswitchConfig) : res nsswitchConfig :=
  if nss_lastChecked conf >? now - 5 * Second then Ok conf
  else
    let conf := MkNsswitch (nss_ch conf) now (nssConf_ conf) in
    if mtime =? nss_mtime (nssConf_ conf) then Ok conf
    else nssConf ← reread; Ok (MkNsswitch (nss_ch conf) now nssConf).
Definition nss_tryUpdate (now mtime : Z) (reread : res nssConf) (conf : nsswitchConfig) : res nsswitchConfig :=
  if nss_ch conf then Ok conf
  else
    conf ← nss_update_held now mtime reread (MkNsswitch true (nss_lastChecked conf) (nssConf_ conf));
    Ok (MkNsswitch false (nss_lastChecked conf) (nssConf_ conf)).
Section read.
Context {R : Type} `{Reader R}.
Definition parseNSSConf (fuel : nat) (f : file R) : res nssConf := each_line fuel nss_line f empty_nss.
Definition parseNSSConfFile (opened : R + error) (stat : Z + error) (fuel : nat) : res nssConf :=
  match opened with
  | inr e => Ok (MkNss 0 (Some e) ∅)
  | inl r =>
      match stat with
      | inr e => Ok (MkNss 0 (Some e) ∅)
      | inl mtime => conf ← parseNSSConf fuel (open_file r); Ok (MkNss mtime (nss_err conf) (sources conf))
      end
  end.
End read.

(** ** The order of lookups (conf.go) *)
Inductive hostLookupOrder : Set := hostLookupCgo | hostLookupFilesDNS | hostLookupDNSFiles | hostLookupFiles | hostLookupDNS.
#[global] Instance hostLookupOrder_eq_dec : EqDecision hostLookupOrder.
Proof. solve_decision. Defined.
Definition lookupOrderName (o : hostLookupOrder) : bytes :=
  match o with
  | hostLookupCgo => "cgo"%go
  | hostLookupFilesDNS => "files,dns"%go
  | hostLookupDNSFiles => "dns,files"%go
  | hostLookupFiles => "files"%go
  | hostLookupDNS => "dns"%go
  end.
Record conf : Set := MkSysConf { netGo : bool; netCgo : bool; dnsDebugLevel : Z; preferCgo : bool; goos : bytes }.
(** What the decision depends on besides: the build, the resolver's options, the
    files, the host's name and whether mdns.allow exists ([inr] when the answer
    is an error other than fs.ErrNotExist). *)
Record surroundings : Type := MkSurroundings {
  GOOS : bytes; cgoAvailable : bool; netGoBuildTag : bool; netCgoBuildTag : bool;
  PreferGo : bool; has_Dial : bool;
  system_dns : dnsConfig; system_nss : nssConf;
  is_NotExist : error → bool; is_Permission : error → bool;
  hostname_ : bytes + error; mdns_allow : bool + error;
  Getenv : bytes → option bytes }.
Definition goDebug_part (s : bytes) (mode : bytes) (level : Z) : res (bytes * Z) :=
  if beq s [] then Ok (mode, level)
  else
    c ← at_ s 0;
    if ("0"%byte <=? c) && (c <=? "9"%byte) then let '(n, _, _) := dtoi s in Ok (mode, n) else Ok (s, level).
Definition goDebugNetDNS (goDebug : bytes) : res (bytes * Z) :=
  let i := IndexByteString goDebug "+"%byte in
  if negb (i =? -1) then
    a ← upto goDebug i; b ← from goDebug (i + 1);
    '(mode, level) ← goDebug_part a [] 0;
    goDebug_part b mode level
  else goDebug_part goDebug [] 0.
Definition goosPrefersCgo (e : surroundings) : bool :=
  beq (GOOS e) "windows"%go || beq (GOOS e) "plan9"%go || (beq (GOOS e) "darwin"%go || beq (GOOS e) "ios"%go) || beq (GOOS e) "android"%go.
Definition is_set (v : option bytes) : bool := match v with Some _ => true | None => false end.
Definition non_empty (v : option bytes) : bool := negb (beq (default [] v) []).
Definition initConfVal (e : surroundings) (goDebug : bytes) : res conf :=
  '(dnsMode, debugLevel) ← goDebugNetDNS goDebug;
  let c prefer := MkSysConf (netGoBuildTag e || beq dnsMode "go"%go) (netCgoBuildTag e || beq dnsMode "cgo"%go) debugLevel prefer (GOOS e) in
  Ok (if negb (cgoAvailable e) then c false
      else if goosPrefersCgo e then c true
      else if beq (GOOS e) "plan9"%go || beq (GOOS e) "windows"%go || beq (GOOS e) "js"%go || beq (GOOS e) "wasip1"%go then c false
      else if is_set (Getenv e "LOCALDOMAIN"%go) || non_empty (Getenv e "RES_OPTIONS"%go) || non_empty (Getenv e "HOSTALIASES"%go) then c true
      else if beq (GOOS e) "openbsd"%go && non_empty (Getenv e "ASR_CONFIG"%go) then c true
      else c false).
Definition mustUseGoResolver (e : surroundings) (c : conf) : bool :=
  if negb (cgoAvailable e) then true
  else if beq (GOOS e) "plan9"%go && negb (has_Dial e) then false
  else netGo c || PreferGo e.
Definition isLocalhost (h : bytes) : res bool :=
  a ← stringsHasSuffixFold h ".localhost"%go;
  b ← stringsHasSuffixFold h ".localhost.localdomain"%go;
  Ok (stringsEqualFold h "localhost"%go || stringsEqualFold h "localhost.localdomain"%go || a || b).
Definition isGateway (h : bytes) : bool := stringsEqualFold h "_gateway"%go.
Definition isOutbound (h : bytes) : bool := stringsEqualFold h "_outbound"%go.
Definition err_is (p : error → bool) (err : option error) : bool := match err with Some e => p e | None => false end.
(** The [lookup] line of OpenBSD's resolv.conf. *)
Definition openbsd_order (lookup : list bytes) (fallback : hostLookupOrder) : hostLookupOrder :=
  match lookup with
  | [] => hostLookupDNSFiles
  | [a] => if beq a "bind"%go then hostLookupDNS else if beq a "file"%go then hostLookupFiles else fallback
  | [a; b] =>
      if beq a "bind"%go then if beq b "file"%go then hostLookupDNSFiles else fallback
      else if beq a "file"%go then if beq b "bind"%go then hostLookupFilesDNS else fallback
      else fallback
  | _ => fallback
  end.
Record scan : Set := MkScan { hasDNSSource : bool; hasDNSSourceChecked : bool; filesSource : bool; dnsSource : bool; first : bytes }.
(** Whether a source other than files and dns is a reason to use cgo. *)
Definition defer_to_cgo (e : surroundings) (hostname src : bytes) : res bool :=
  mdns ← stringsHasPrefix src "mdns"%go;
  if negb (beq hostname []) && beq src "myhostname"%go then
    l ← isLocalhost hostname;
    Ok (l || isGateway hostname || isOutbound hostname ||
        match hostname_ e with inr _ => true | inl hn => stringsEqualFold hostname hn end)
  else if negb (beq hostname []) && mdns then
    Ok (match mdns_allow e with inr _ => true | inl haveMDNSAllow => haveMDNSAllow end)
  else Ok true.
(** The loop over the sources; [inr] is a return from inside it. *)
Fixpoint nss_loop (e : surroundings) (canUseCgo : bool) (hostname : bytes) (srcs : list nssSource) (s : scan) : res (scan + hostLookupOrder) :=
  match srcs with
  | [] => Ok (inl s)
  | src :: rest =>
      let src_ := source src in
      if beq src_ "files"%go || beq src_ "dns"%go then
        if canUseCgo && negb (standardCriteria src) then Ok (inr hostLookupCgo)
        else
          let s := if beq src_ "files"%go then MkScan (hasDNSSource s) (hasDNSSourceChecked s) true (dnsSource s) (first s)
                   else MkScan true true (filesSource s) true (first s) in
          let s := if beq (first s) [] then MkScan (hasDNSSource s) (hasDNSSourceChecked s) (filesSource s) (dnsSource s) src_ else s in
          nss_loop e canUseCgo hostname rest s
      else if canUseCgo then
        cgo ← defer_to_cgo e hostname src_;
        if (cgo : bool) then Ok (inr hostLookupCgo) else nss_loop e canUseCgo hostname rest s
      else
        let s := if negb (hasDNSSourceChecked s)
                 then MkScan (hasDNSSource s || existsb (λ v, beq (source v) "dns"%go) rest) true (filesSource s) (dnsSource s) (first s) else s in
        let s := if negb (hasDNSSource s)
                 then MkScan (hasDNSSource s) (hasDNSSourceChecked s) (filesSource s) true (if beq (first s) [] then "dns"%go else first s) else s in
        nss_loop e canUseCgo hostname rest s
  end.
Definition scan_order (s : scan) (fallback : hostLookupOrder) : hostLookupOrder :=
  if filesSource s && dnsSource s then if beq (first s) "files"%go then hostLookupFilesDNS else hostLookupDNSFiles
  else if filesSource s then hostLookupFiles
  else if dnsSource s then hostLookupDNS
  else fallback.
(** From nsswitch.conf. *)
Definition nss_order (e : surroundings) (c : conf) (canUseCgo : bool) (fallback : hostLookupOrder) (hostname : bytes) : res hostLookupOrder :=
  let nss := system_nss e in
  let srcs := default [] (sources nss !! "hosts"%go) in
  if err_is (is_NotExist e) (nss_err nss) || (negb (bool_decide (is_Some (nss_err nss))) && (len srcs =? 0)) then
    Ok (if canUseCgo && beq (goos c) "solaris"%go then hostLookupCgo else hostLookupFilesDNS)
  else if bool_decide (is_Some (nss_err nss)) then Ok fallback
  else
    r ← nss_loop e canUseCgo hostname srcs (MkScan false false false false []);
    Ok (match r with inr o => o | inl s => scan_order s fallback end).
(** From the files, whichever the system has. *)
Definition files_order (e : surroundings) (c : conf) (canUseCgo : bool) (fallback : hostLookupOrder) (hostname : bytes) : res hostLookupOrder :=
  let dnsConf := system_dns e in
  if canUseCgo && bool_decide (is_Some (conf_err dnsConf)) && negb (err_is (is_NotExist e) (conf_err dnsConf)) && negb (err_is (is_Permission e) (conf_err dnsConf))
  then Ok hostLookupCgo
  else if canUseCgo && unknownOpt dnsConf then Ok hostLookupCgo
  else if beq (goos c) "openbsd"%go then
    Ok (if err_is (is_NotExist e) (conf_err dnsConf) then hostLookupFiles else openbsd_order (conf_lookup dnsConf) fallback)
  else
    dot ← stringsHasSuffix hostname "."%go;
    hostname ← (if (dot : bool) then upto hostname (len hostname - 1) else Ok hostname);
    local ← stringsHasSuffixFold hostname ".local"%go;
    if canUseCgo && local then Ok hostLookupCgo else nss_order e c canUseCgo fallback hostname.
(** The order, and the configuration when it was looked at. *)
Definition lookupOrder (e : surroundings) (c : conf) (hostname : bytes) : res (hostLookupOrder * option dnsConfig) :=
  let decide canUseCgo fallback :=
    if beq (goos c) "windows"%go || beq (goos c) "plan9"%go || beq (goos c) "android"%go || beq (goos c) "ios"%go then Ok (fallback, None)
    else o ← files_order e c canUseCgo fallback hostname; Ok (o, Some (system_dns e)) in
  if mustUseGoResolver e c then decide false hostLookupFilesDNS
  else if netCgo c then Ok (hostLookupCgo, None)
  else if preferCgo c then Ok (hostLookupCgo, None)
  else if negb (IndexByteString hostname "\"%byte =? -1) || negb (IndexByteString hostname "%"%byte =? -1) then Ok (hostLookupCgo, None)
  else decide true hostLookupCgo.
