(* ===== verification/LookupOrderProps.v ===== *)
(** * package net: the choice of a resolver (conf.go), properties *)
From stdpp Require Import gmap.
From S2P Require Import Prelude Strconv NetHost NetHostProps NetIP DnsConfigProps SortSpec NetFile DnsConfig NssConf NetFileProps.

(** ** Helpers are total *)
Lemma hasSuffix_ok s suffix : ∃ b, stringsHasSuffix s suffix = Ok b ∧ (b = true ↔ ∃ u, s = u ++ suffix).
Proof.
  unfold stringsHasSuffix. pose proof (len_nonneg suffix). destruct (Z.geb_spec (len s) (len suffix)) as [Hl|Hl]; cycle 1.
  { exists false. split; [done|]. split; [done|]. intros [u ->]. rewrite len_app in Hl. pose proof (len_nonneg u). lia. }
  destruct (list_split s (len s - len suffix)) as (u&v&E&Hu); [lia|]. assert (Ef : from s (len s - len suffix) = Ok v) by (rewrite <- Hu, E; by apply from_app).
  rewrite Ef. cbn [mbind res_bind]. eexists. split; [done|]. rewrite beq_eq. split; [intros ->; by exists u|]. intros [u' E']. rewrite E in E'.
  apply app_inj_2 in E' as [_ ->]; [done|]. rewrite E, len_app in Hu. unfold len in *. lia.
Qed.
Lemma hasPrefix_ok s p : ∃ b, stringsHasPrefix s p = Ok b.
Proof. destruct (hasPrefix_spec s p) as [(t&_&E)|E]; [by exists true|by exists false]. Qed.
(** ** What the sources say *)
Definition is_files (s : nssSource) : bool := beq (source s) "files"%go.
Definition is_dns (s : nssSource) : bool := beq (source s) "dns"%go.
(** The databases a source stands for: one that is neither stands for dns when
    [other] says so. *)
Definition database (other : bool) (s : nssSource) : list bytes :=
  if is_files s then ["files"%go] else if is_dns s then ["dns"%go] else if other then ["dns"%go] else [].
Definition databases (other : bool) (l : list nssSource) : list bytes := concat (map (database other) l).
Definition order_of (l : list bytes) (fallback : hostLookupOrder) : hostLookupOrder :=
  match l with
  | [] => fallback
  | x :: _ =>
      if forallb (beq "files"%go) l then hostLookupFiles
      else if forallb (beq "dns"%go) l then hostLookupDNS
      else if beq x "files"%go then hostLookupFilesDNS else hostLookupDNSFiles
  end.
(** What the scan has found of the databases seen so far. *)
Definition found (l : list bytes) (s : scan) : Prop :=
  filesSource s = existsb (beq "files"%go) l ∧ dnsSource s = existsb (beq "dns"%go) l ∧ first s = default [] (list.head l) ∧
  Forall (λ x, x = "files"%go ∨ x = "dns"%go) l.
Lemma found_order l s fallback : found l s → scan_order s fallback = order_of l fallback.
Proof.
  intros (Ef&Ed&E1&Hl). unfold scan_order, order_of. rewrite Ef, Ed, E1. destruct l as [|x l]; [done|]. cbn [list.head from_option id].
  assert (H : ∀ l, Forall (λ x, x = "files"%go ∨ x = "dns"%go) l → existsb (beq "files"%go) l = negb (forallb (beq "dns"%go) l) ∧ existsb (beq "dns"%go) l = negb (forallb (beq "files"%go) l)).
  { clear. induction 1 as [|x l Hx Hl [IH1 IH2]]; [done|]. cbn [existsb forallb]. rewrite IH1, IH2. destruct Hx as [-> | ->]; cbn; split; by destruct (forallb _ l). }
  destruct (H _ Hl) as [-> ->]. destruct (forallb (beq "dns"%go) (x :: l)) eqn:E1', (forallb (beq "files"%go) (x :: l)) eqn:E2'; cbn [negb andb]; try done.
  exfalso. cbn [forallb] in E1', E2'. apply andb_true_iff in E1' as [E1' _], E2' as [E2' _]. apply beq_eq in E1', E2'. congruence.
Qed.
Lemma existsb_snoc (f : bytes → bool) l x : existsb f (l ++ [x]) = existsb f l || f x.
Proof. rewrite existsb_app. cbn. by rewrite orb_false_r. Qed.
Lemma found_snoc l s x s' : found l s → x = "files"%go ∨ x = "dns"%go →
  filesSource s' = filesSource s || beq "files"%go x → dnsSource s' = dnsSource s || beq "dns"%go x →
  first s' = (if beq (first s) [] then x else first s) → found (l ++ [x]) s'.
Proof.
  intros (Ef&Ed&E1&Hl) Hx F1 F2 F3. unfold found. rewrite !existsb_snoc, F1, F2, F3, Ef, Ed, E1. split; [done|]. split; [done|]. split.
  - destruct l as [|y l]; [done|]. cbn. apply list.Forall_cons in Hl as [[-> | ->] _]; done.
  - apply list.Forall_app. split; [done|]. by constructor.
Qed.
Lemma databases_snoc other l s : databases other (l ++ [s]) = databases other l ++ database other s.
Proof. unfold databases. rewrite map_app, concat_app. cbn. by rewrite app_nil_r. Qed.

(** Once the Go resolver is certain, unknown sources count as dns when no source is dns. *)
Definition knows (all seen : list nssSource) (s : scan) : Prop :=
  if hasDNSSourceChecked s then hasDNSSource s = existsb is_dns all else hasDNSSource s = false ∧ existsb is_dns seen = false.
Lemma forced_loop e h rest : ∀ seen s, let all := seen ++ rest in let other := negb (existsb is_dns all) in
  knows all seen s → found (databases other seen) s →
  ∃ s', nss_loop e false h rest s = Ok (inl s') ∧ found (databases other all) s'.
Proof.
  induction rest as [|src rest IH]; intros seen s all other Hk Hf; cbn [nss_loop]; [subst other; subst all; exists s; by rewrite app_nil_r in *|].
  assert (Hall : seen ++ src :: rest = (seen ++ [src]) ++ rest) by (by rewrite <- app_assoc). subst other. subst all. rewrite Hall in *.
  set (all := (seen ++ [src]) ++ rest) in *. assert (Hin : is_dns src = true → existsb is_dns all = true).
  { intros Hd. unfold all. rewrite !existsb_app. cbn. by rewrite Hd, orb_true_r. }
  destruct (is_files src) eqn:Efi.
  { unfold is_files in Efi. assert (Hnd : is_dns src = false) by (unfold is_dns; apply beq_eq in Efi; by rewrite Efi). rewrite Efi. cbn [orb andb negb hasDNSSource hasDNSSourceChecked filesSource dnsSource first]. apply (IH (seen ++ [src])).
    - destruct (beq (first s) []); unfold knows in *; cbn [hasDNSSource hasDNSSourceChecked] in *; (destruct (hasDNSSourceChecked s); [exact Hk|]; destruct Hk as [-> Hk]; split; [done|];
        rewrite existsb_app, Hk; cbn [existsb orb]; by rewrite Hnd).
    - rewrite databases_snoc. unfold database, is_files. rewrite Efi. apply beq_eq in Efi. apply (found_snoc _ s); [done|by left| | |];
        destruct (beq (first s) []); cbn; rewrite ?orb_true_r, ?orb_false_r; done. }
  unfold is_files in Efi. rewrite Efi. destruct (is_dns src) eqn:Edn.
  { unfold is_dns in Edn. rewrite Edn. cbn [orb andb negb hasDNSSource hasDNSSourceChecked filesSource dnsSource first]. apply (IH (seen ++ [src])).
    - destruct (beq (first s) []); unfold knows; cbn [hasDNSSource hasDNSSourceChecked]; symmetry; by apply Hin.
    - rewrite databases_snoc. unfold database, is_files, is_dns. rewrite Efi, Edn. apply beq_eq in Edn. rewrite Edn in *. apply (found_snoc _ s); [done|by right| | |];
        destruct (beq (first s) []); cbn; rewrite ?orb_true_r, ?orb_false_r; done. }
  pose proof Edn as Edn'. unfold is_dns in Edn. rewrite Edn. cbn [orb andb negb].
  set (s1 := if negb (hasDNSSourceChecked s) then _ else s). assert (H1 : hasDNSSourceChecked s1 = true ∧ hasDNSSource s1 = existsb is_dns all ∧
    filesSource s1 = filesSource s ∧ dnsSource s1 = dnsSource s ∧ first s1 = first s).
  { unfold s1, knows in *. destruct (hasDNSSourceChecked s) eqn:E; cbn; [done|]. destruct Hk as [-> Hk]. repeat split. unfold all. rewrite !existsb_app, Hk. cbn. by rewrite Edn'. }
  clearbody s1. destruct H1 as (C1&C2&C3&C4&C5). apply (IH (seen ++ [src])).
  - destruct (negb (hasDNSSource s1)); unfold knows; cbn; by rewrite C1.
  - rewrite databases_snoc. unfold database, is_files. rewrite Efi, Edn', C2. fold all. destruct (existsb is_dns all); cbn [negb].
    + rewrite app_nil_r. unfold found in *. by rewrite C3, C4, C5.
    + apply (found_snoc _ s); cbn; [done|by right|by rewrite C3, orb_false_r|by rewrite orb_true_r|by rewrite C5].
Qed.
(** A source that does not call for cgo, as nsswitch.conf(5), nss-myhostname(8)
    and the comments of conf.go describe it.  Letters are compared without their
    case. *)
Definition fold (s : bytes) : bytes := map (λ b, if (65 <=? b) && (b <=? 90) then b + 32 else b) s.
Definition ends_in (h suffix : bytes) : Prop := ∃ u v, h = u ++ v ∧ fold v = suffix.
(** Names that libnss_myhostname answers; any name may be the machine's when that
    cannot be had. *)
Definition own_name e (h : bytes) : Prop :=
  fold h = "localhost"%go ∨ fold h = "localhost.localdomain"%go ∨ ends_in h ".localhost"%go ∨ ends_in h ".localhost.localdomain"%go ∨
  fold h = "_gateway"%go ∨ fold h = "_outbound"%go ∨ ∀ hn, hostname_ e = inl hn → fold h = fold hn.
(** Each criterion says what happens without it: a success ends the lookup,
    another status goes on to the next source, or ends it for the last one. *)
Definition default_action (c : nssCriterion) (is_last : Prop) : Prop :=
  negate c = false ∧
  (status c = "success"%go ∧ action c = "return"%go ∨
   status c ∈ ["notfound"; "unavail"; "tryagain"]%go ∧ (action c = "continue"%go ∨ is_last ∧ action c = "return"%go)).
Definition default_criteria (l : list nssCriterion) : Prop := ∀ a c b, l = a ++ c :: b → default_action c (b = []).
Definition understood e (h : bytes) (src : nssSource) : Prop :=
  (source src = "files"%go ∨ source src = "dns"%go) ∧ default_criteria (criteria src) ∨
  h ≠ [] ∧ source src = "myhostname"%go ∧ ¬ own_name e h ∨
  h ≠ [] ∧ (∃ t, source src = "mdns"%go ++ t) ∧ mdns_allow e = inl false.
Lemma fold_lower s : fold s = map lowerASCII s.
Proof.
  apply map_ext. intros b. unfold lowerASCII. change "A"%byte with 65. change "Z"%byte with 90. change "a"%byte with 97.
  destruct ((65 <=? b) && (b <=? 90)) eqn:E; [|done]. rewrite u8_id; [lia|unfold is_u8; lia].
Qed.
Lemma EqualFold_spec s t : stringsEqualFold s t = true ↔ fold s = fold t.
Proof.
  rewrite !fold_lower. unfold stringsEqualFold. revert t. induction s as [|c s IH]; intros [|d t]; cbn [map]; try done.
  rewrite !len_cons. specialize (IH t). cbn [fold_loop]. destruct (Z.eqb_spec (len s + 1) (len t + 1)) as [E|E]; cbn [negb].
  - assert (El : len s = len t) by lia. rewrite El, Z.eqb_refl in IH. cbn [negb] in IH. rewrite andb_true_iff, Z.eqb_eq, IH. split; [by intros [-> ->]|by intros [= -> ->]].
  - split; [done|]. intros [= _ E']. apply (f_equal length) in E'. rewrite !length_map in E'. unfold len in E. lia.
Qed.
Lemma HasSuffixFold_spec h suffix : fold suffix = suffix → ∃ b, stringsHasSuffixFold h suffix = Ok b ∧ (b = true ↔ ends_in h suffix).
Proof.
  intros Hs. destruct (hasSuffixFold_spec h suffix) as (b&E&Hb). exists b. split; [done|]. rewrite Hb. unfold ends_in.
  split; intros (u&v&->&H); exists u, v; (split; [done|]); [apply EqualFold_spec in H; congruence|apply EqualFold_spec; congruence].
Qed.
Lemma own_name_code e h : ∃ l, isLocalhost h = Ok l ∧
  (l || isGateway h || isOutbound h || match hostname_ e with inr _ => true | inl hn => stringsEqualFold h hn end = false ↔ ¬ own_name e h).
Proof.
  unfold isLocalhost. destruct (HasSuffixFold_spec h ".localhost"%go eq_refl) as (a&->&Ha), (HasSuffixFold_spec h ".localhost.localdomain"%go eq_refl) as (b&->&Hb).
  cbn [mbind res_bind]. eexists. split; [reflexivity|]. rewrite <- not_true_iff_false. apply not_iff_compat. unfold isGateway, isOutbound, own_name.
  rewrite !orb_true_iff, !EqualFold_spec, Ha, Hb. change (fold "localhost"%go) with "localhost"%go. change (fold "localhost.localdomain"%go) with "localhost.localdomain"%go.
  change (fold "_gateway"%go) with "_gateway"%go. change (fold "_outbound"%go) with "_outbound"%go.
  assert (Hh : match hostname_ e with inr _ => true | inl hn => stringsEqualFold h hn end = true ↔ ∀ hn, hostname_ e = inl hn → fold h = fold hn); [|rewrite Hh; tauto].
  destruct (hostname_ e) as [hn|]; [|by split]. rewrite EqualFold_spec. split; [by intros H hn' [= <-]|by intros H; apply H].
Qed.
Lemma standard_action_spec c (is_last : bool) : standardStatusAction c is_last = true ↔ default_action c (is_last = true).
Proof.
  unfold standardStatusAction, default_action. destruct (negate c); [by split; [|intros []]|]. rewrite !elem_of_cons, elem_of_nil.
  destruct (beq (status c) "success"%go) eqn:E1; [apply beq_eq in E1; rewrite E1|]; [|].
  - rewrite <- (beq_eq (action c) "return"%go). destruct is_last, (beq (action c) "return"%go) eqn:E2; cbn [andb]; (split; [intros H; try done; auto|]); try done; intros [_ [[_ H]|[[H|[H|[H|[]]]] _]]]; done.
  - assert (N1 : status c ≠ "success"%go) by (intros E; rewrite E in E1; discriminate E1).
    destruct (beq (status c) "notfound"%go || beq (status c) "unavail"%go || beq (status c) "tryagain"%go) eqn:E2.
    + rewrite !orb_true_iff, !beq_eq in E2. assert (Hin : status c = "notfound"%go ∨ status c = "unavail"%go ∨ status c = "tryagain"%go ∨ False) by tauto.
      destruct (is_last && beq (action c) "return"%go) eqn:E3.
      * apply andb_true_iff in E3 as [-> E3%beq_eq]. split; [|done]. intros _. split; [done|]. right. auto.
      * rewrite beq_eq. split; [intros H; split; [done|]; right; auto|]. intros [_ [[H _]|[_ [H|[-> H]]]]]; try done. apply beq_eq in H. rewrite H in E3. discriminate E3.
    + rewrite !orb_false_iff in E2. destruct E2 as [[E2 E3] E4]. split; [done|]. intros [_ [[H _]|[[H|[H|[H|[]]]] _]]]; try done; rewrite H in *; done.
Qed.
Lemma standard_loop_spec l : standard_loop l = true ↔ default_criteria l.
Proof.
  induction l as [|c l IH]; cbn [standard_loop]; [split; [by intros _ [|? ?] ? ?|done]|].
  assert (Hc : default_criteria (c :: l) ↔ default_action c (l = []) ∧ default_criteria l).
  { split; [intros H; split; [by apply (H [] c l)|by intros a d b ->; apply (H (c :: a) d b)]|]. intros [H1 H2] [|x a] d b [= <- E]; [by subst|by apply (H2 a d b)]. }
  rewrite Hc, <- IH. pose proof (standard_action_spec c match l with [] => true | _ => false end) as Hs.
  assert (He : default_action c (match l with [] => true | _ => false end = true) ↔ default_action c (l = [])) by (unfold default_action; destruct l; [|]; intuition done).
  rewrite He in Hs. rewrite <- Hs. destruct (standardStatusAction c _); cbn [negb]; intuition done.
Qed.
Lemma HasPrefix_spec s p : ∃ b, stringsHasPrefix s p = Ok b ∧ (b = true ↔ ∃ t, s = p ++ t).
Proof.
  change (stringsHasPrefix s p) with (hasPrefix s p). destruct (hasPrefix_ok s p) as [b E]. change (stringsHasPrefix s p) with (hasPrefix s p) in E. exists b. split; [done|].
  destruct (hasPrefix_spec s p) as [(t&->&E')|E'].
  - rewrite E in E'. injection E' as ->. split; [by intros _; exists t|done].
  - rewrite E in E'. injection E' as ->. split; [done|]. intros [t ->]. exfalso. revert E. unfold hasPrefix. rewrite len_app.
    pose proof (len_nonneg t). rewrite (proj2 (Z.geb_le _ _)) by lia. rewrite upto_app by done. cbn [mbind res_bind]. by rewrite beq_refl.
Qed.
Lemma defer_spec e h src : source src ≠ "files"%go → source src ≠ "dns"%go → ∃ b, defer_to_cgo e h (source src) = Ok b ∧ (b = false ↔ understood e h src).
Proof.
  intros Nf Nd. unfold defer_to_cgo, understood. destruct (HasPrefix_spec (source src) "mdns"%go) as (m&->&Hm). cbn [mbind res_bind].
  destruct (beq h []) eqn:Eh; cbn [negb andb].
  { apply beq_eq in Eh as ->. exists true. split; [done|]. split; [done|]. intros [[[?|?] _]|[[? _]|[? _]]]; done. }
  assert (Hh : h ≠ []) by (intros ->; discriminate Eh). destruct (beq (source src) "myhostname"%go) eqn:Em.
  - apply beq_eq in Em. destruct (own_name_code e h) as (l&->&Hl). cbn [mbind res_bind]. eexists. split; [reflexivity|]. rewrite Hl. split; [by right; left|].
    intros [[[?|?] _]|[(_&_&?)|(_&[t Ht]&_)]]; try done. rewrite Em in Ht. discriminate Ht.
  - assert (Nm : source src ≠ "myhostname"%go) by (intros E; rewrite E in Em; discriminate Em). destruct m.
    + eexists. split; [reflexivity|]. pose proof (proj1 Hm eq_refl) as Hp. destruct (mdns_allow e) as [a|].
      * split; [intros ->; by right; right|]. intros [[[?|?] _]|[(_&?&_)|(_&_&H)]]; try done. by injection H.
      * split; [done|]. intros [[[?|?] _]|[(_&?&_)|(_&_&H)]]; done.
    + exists true. split; [done|]. split; [done|]. intros [[[?|?] _]|[(_&?&_)|(_&Hp&_)]]; try done. by apply Hm in Hp.
Qed.
Lemma choice_loop e h rest : ∀ seen s, found (databases false seen) s →
  (nss_loop e true h rest s = Ok (inr hostLookupCgo) ∧ ¬ Forall (understood e h) rest) ∨
  ∃ s', nss_loop e true h rest s = Ok (inl s') ∧ found (databases false (seen ++ rest)) s' ∧ Forall (understood e h) rest.
Proof.
  induction rest as [|src rest IH]; intros seen s Hf; cbn [nss_loop]; [right; exists s; by rewrite app_nil_r|].
  assert (Hall : seen ++ src :: rest = (seen ++ [src]) ++ rest) by (by rewrite <- app_assoc). rewrite Hall.
  assert (Hgo : ∀ s2, found (databases false (seen ++ [src])) s2 → understood e h src →
    (nss_loop e true h rest s2 = Ok (inr hostLookupCgo) ∧ ¬ Forall (understood e h) (src :: rest)) ∨
    ∃ s', nss_loop e true h rest s2 = Ok (inl s') ∧ found (databases false ((seen ++ [src]) ++ rest)) s' ∧ Forall (understood e h) (src :: rest)).
  { intros s2 H1 H2. destruct (IH _ s2 H1) as [[? Hn]|(s'&E&H3&H4)]; [left|right]; [split; [done|]; by intros [_ ?]%list.Forall_cons|]. exists s'. split; [done|]. split; [done|]. by constructor. }
  rewrite databases_snoc in Hgo.
  assert (Hno : ¬ understood e h src → ¬ Forall (understood e h) (src :: rest)) by (intros H [? _]%list.Forall_cons; done).
  assert (Hd : database false src = if beq (source src) "files"%go then ["files"%go] else if beq (source src) "dns"%go then ["dns"%go] else []) by done.
  rewrite Hd in Hgo. clear Hd.
  assert (Hcrit : source src = "files"%go ∨ source src = "dns"%go → standardCriteria src = true ↔ understood e h src).
  { intros Hs. unfold standardCriteria. rewrite standard_loop_spec. split; [by left|]. intros [[_ H]|[(_&H&_)|(_&[t H]&_)]]; [done| |]; destruct Hs as [Hs|Hs]; rewrite Hs in H; discriminate H. }
  destruct (beq (source src) "files"%go) eqn:Efi; cbn [orb andb].
  { apply beq_eq in Efi. specialize (Hcrit (or_introl Efi)). destruct (standardCriteria src) eqn:Es; cbn [negb hasDNSSource hasDNSSourceChecked filesSource dnsSource first];
      [|left; split; [done|]; apply Hno; intros H; by apply Hcrit in H].
    apply Hgo; [|by apply Hcrit]. apply (found_snoc _ s); [done|by left| | |];
      destruct (beq (first s) []); cbn; rewrite ?orb_true_r, ?orb_false_r; done. }
  destruct (beq (source src) "dns"%go) eqn:Edn; cbn [orb andb].
  { apply beq_eq in Edn. specialize (Hcrit (or_intror Edn)). destruct (standardCriteria src) eqn:Es; cbn [negb hasDNSSource hasDNSSourceChecked filesSource dnsSource first];
      [|left; split; [done|]; apply Hno; intros H; by apply Hcrit in H].
    rewrite Edn in *. apply Hgo; [|by apply Hcrit]. apply (found_snoc _ s); [done|by right| | |];
      destruct (beq (first s) []); cbn; rewrite ?orb_true_r, ?orb_false_r; done. }
  destruct (defer_spec e h src) as (b&Eb&Hb); [intros E; rewrite E in Efi; discriminate Efi|intros E; rewrite E in Edn; discriminate Edn|].
  rewrite Eb. cbn [mbind res_bind]. destruct b; [left; split; [done|]; apply Hno; intros H; by apply Hb in H|]. rewrite app_nil_r in Hgo. apply Hgo; [done|by apply Hb].
Qed.

(** ** The decision *)
Definition host_sources (e : surroundings) : list nssSource := default [] (sources (system_nss e) !! "hosts"%go).
Lemma order_of_go l fallback : fallback ≠ hostLookupCgo ∨ l ≠ [] → order_of l fallback ≠ hostLookupCgo.
Proof.
  intros H. unfold order_of. destruct l as [|x l]; [by destruct H|]. by destruct (forallb (beq "files"%go) (x :: l)), (forallb (beq "dns"%go) (x :: l)), (beq x "files"%go).
Qed.
Lemma openbsd_go l fallback : fallback ≠ hostLookupCgo → openbsd_order l fallback ≠ hostLookupCgo.
Proof.
  intros H. destruct l as [|a [|b [|? ?]]]; cbn [openbsd_order]; try done.
  - by destruct (beq a "bind"%go), (beq a "file"%go).
  - by destruct (beq a "bind"%go), (beq a "file"%go), (beq b "bind"%go), (beq b "file"%go).
Qed.
Lemma start_found : found [] (MkScan false false false false []).
Proof. by repeat split. Qed.
(** There is no nsswitch.conf, or it says nothing of hosts. *)
Definition no_hosts_line e : Prop :=
  (∃ x, nss_err (system_nss e) = Some x ∧ is_NotExist e x = true) ∨ nss_err (system_nss e) = None ∧ host_sources e = [].
Lemma no_hosts_line_code e : err_is (is_NotExist e) (nss_err (system_nss e)) || (negb (bool_decide (is_Some (nss_err (system_nss e)))) && (len (host_sources e) =? 0)) = true ↔ no_hosts_line e.
Proof.
  unfold no_hosts_line. destruct (nss_err (system_nss e)) as [x|]; cbn [err_is orb].
  - rewrite (bool_decide_eq_true_2 (is_Some (Some x))) by done. cbn [negb andb]. rewrite orb_false_r. split; [intros H; left; by exists x|by intros [(?&[= <-]&?)|[? _]]].
  - rewrite bool_decide_eq_false_2 by (by intros [? ?]). cbn [negb andb]. rewrite Z.eqb_eq. split; [intros ->%len_0; by right|]. intros [(?&?&_)|[_ ->]]; done.
Qed.
Lemma nss_order_forced e c h : ∃ o, nss_order e c false hostLookupFilesDNS h = Ok o ∧ o ≠ hostLookupCgo ∧
  (nss_err (system_nss e) = None ∧ host_sources e ≠ [] → o = order_of (databases (negb (existsb is_dns (host_sources e))) (host_sources e)) hostLookupFilesDNS) ∧
  (nss_err (system_nss e) ≠ None ∨ host_sources e = [] → o = hostLookupFilesDNS).
Proof.
  unfold nss_order. fold (host_sources e). cbn [andb]. pose proof (no_hosts_line_code e) as Hn. destruct (_ || _).
  { exists hostLookupFilesDNS. split; [done|]. split; [done|]. split; [|done]. intros [En Hs]. destruct (proj1 Hn eq_refl) as [(?&?&_)|[_ ?]]; congruence. }
  destruct (bool_decide_reflect (is_Some (nss_err (system_nss e)))) as [[x Hx]|Hs].
  { exists hostLookupFilesDNS. split; [done|]. split; [done|]. split; [|done]. intros [E _]. congruence. }
  assert (En : nss_err (system_nss e) = None) by (by apply eq_None_not_Some).
  destruct (forced_loop e h (host_sources e) [] (MkScan false false false false [])) as (s&->&Hf); [done|apply start_found|]. cbn [mbind res_bind app] in *.
  eexists. split; [done|]. rewrite (found_order _ _ hostLookupFilesDNS Hf). split; [apply order_of_go; by left|]. split; [done|].
  intros [?|E]; [done|]. assert (false = true) by (apply Hn; by right). done.
Qed.
(** The order found without cgo: none when nsswitch.conf cannot be read or
    parsed, names a source that is not understood, or neither files nor dns. *)
Definition recognised e h o : Prop :=
  no_hosts_line e ∧ o = hostLookupFilesDNS ∨
  ¬ no_hosts_line e ∧ nss_err (system_nss e) = None ∧ Forall (understood e h) (host_sources e) ∧
    databases false (host_sources e) ≠ [] ∧ o = order_of (databases false (host_sources e)) hostLookupCgo.
Lemma nss_order_choice e c h : ∃ o, nss_order e c true hostLookupCgo h = Ok o ∧ (goos c = "linux"%go → ∀ o', o' ≠ hostLookupCgo → o = o' ↔ recognised e h o').
Proof.
  unfold nss_order, recognised. fold (host_sources e). pose proof (no_hosts_line_code e) as Hn. destruct (_ || _).
  { eexists. split; [reflexivity|]. intros -> o' _. pose proof (proj1 Hn eq_refl). change (beq "linux"%go "solaris"%go) with false. cbn [andb]. split; [by left|]. intros [[_ ->]|[? _]]; done. }
  assert (Hn' : ¬ no_hosts_line e) by (intros H; by apply Hn in H).
  destruct (bool_decide_reflect (is_Some (nss_err (system_nss e)))) as [[x Hx]|Hs].
  { eexists. split; [reflexivity|]. intros _ o' Ho. split; [by intros <-|]. intros [[? _]|(_&?&_)]; congruence. }
  assert (En : nss_err (system_nss e) = None) by (by apply eq_None_not_Some).
  destruct (choice_loop e h (host_sources e) [] (MkScan false false false false [])) as [[-> Hu]|(s&->&Hf&Hu)]; [apply start_found| |]; cbn [mbind res_bind app] in *.
  - eexists. split; [reflexivity|]. intros _ o' Ho. split; [by intros <-|]. intros [[? _]|(_&_&?&_)]; done.
  - eexists. split; [reflexivity|]. rewrite (found_order _ _ hostLookupCgo Hf). intros _ o' Ho. split; [|by intros [[? _]|(_&_&_&_&->)]].
    intros <-. right. split; [done|]. split; [done|]. split; [done|]. split; [|done]. by intros E; rewrite E in Ho.
Qed.
Lemma canonical_host hostname : ∃ local : bool, (local = true ↔ ends_in (undot hostname) ".local"%go) ∧ ∀ k : bytes → bool → res hostLookupOrder,
  (dot ← stringsHasSuffix hostname "."%go; hostname ← (if (dot : bool) then upto hostname (len hostname - 1) else Ok hostname);
   local ← stringsHasSuffixFold hostname ".local"%go; k hostname local) = k (undot hostname) local.
Proof.
  destruct (hasSuffix_ok hostname "."%go) as (b&->&Hb). cbn [mbind res_bind]. destruct (HasSuffixFold_spec (undot hostname) ".local"%go eq_refl) as (l&El&Hl).
  exists l. split; [done|]. intros k. assert (Hu : (if b then upto hostname (len hostname - 1) else Ok hostname) = Ok (undot hostname)); [|by rewrite Hu; cbn [mbind res_bind]; rewrite El].
  unfold undot. destruct b.
  - destruct (proj1 Hb eq_refl) as [u ->]. unfold rooted. rewrite last_snoc, bool_decide_eq_true_2, removelast_last by done. apply upto_app. rewrite len_app. change (len "."%go) with 1. lia.
  - rewrite bool_decide_eq_false_2; [done|]. unfold rooted. intros Hl'. apply last_Some in Hl' as [u ->]. assert (false = true) by (apply Hb; by exists u). done.
Qed.
Lemma no_byte s c : (IndexByteString s c =? -1) = true ↔ ¬ In c s.
Proof.
  destruct (index_split s c) as [[-> H]|(a&b&->&_&->)]; [by split|]. pose proof (len_nonneg a). rewrite (proj2 (Z.eqb_neq _ _)) by lia.
  split; [done|]. intros Hn. exfalso. apply Hn, in_or_app. right. by left.
Qed.
(** Nothing but nsswitch.conf stands in the way of the Go resolver: cgo is not
    preferred, the name has no special form and is not multicast DNS's, and
    resolv.conf was read, in full, or is not there to be read. *)
Definition unspecial e c hostname : Prop :=
  netCgo c = false ∧ preferCgo c = false ∧ ¬ In "\"%byte hostname ∧ ¬ In "%"%byte hostname ∧ ¬ ends_in (undot hostname) ".local"%go ∧
  unknownOpt (system_dns e) = false ∧ ∀ x, conf_err (system_dns e) = Some x → is_NotExist e x = true ∨ is_Permission e x = true.
Lemma resolv_conf_code e : true && bool_decide (is_Some (conf_err (system_dns e))) && negb (err_is (is_NotExist e) (conf_err (system_dns e))) &&
    negb (err_is (is_Permission e) (conf_err (system_dns e))) = false ↔
  ∀ x, conf_err (system_dns e) = Some x → is_NotExist e x = true ∨ is_Permission e x = true.
Proof.
  destruct (conf_err (system_dns e)) as [x|]; cbn [err_is].
  - rewrite bool_decide_eq_true_2 by done. cbn [andb]. rewrite andb_false_iff, !negb_false_iff. split; [by intros H y [= <-]|intros H; by apply H].
  - rewrite bool_decide_eq_false_2 by (by intros [? ?]). by split.
Qed.
Lemma files_order_choice e c hostname : goos c = "linux"%go → ∃ o, files_order e c true hostLookupCgo hostname = Ok o ∧
  ∀ o', o' ≠ hostLookupCgo → o = o' ↔ (¬ ends_in (undot hostname) ".local"%go ∧ unknownOpt (system_dns e) = false ∧
    ∀ x, conf_err (system_dns e) = Some x → is_NotExist e x = true ∨ is_Permission e x = true) ∧ recognised e (undot hostname) o'.
Proof.
  intros Hos. unfold files_order. pose proof (resolv_conf_code e) as Hr. destruct (true && bool_decide _ && _ && _).
  { eexists. split; [reflexivity|]. intros o' Ho. split; [by intros <-|]. intros [(_&_&H) _]. by apply Hr in H. }
  cbn [andb]. destruct (unknownOpt (system_dns e)). { eexists. split; [reflexivity|]. intros o' Ho. split; [by intros <-|]. by intros [(_&?&_) _]. }
  rewrite Hos. change (beq "linux"%go "openbsd"%go) with false. destruct (canonical_host hostname) as (local&Hl&Hcan).
  rewrite (Hcan (λ h local, if (local : bool) then Ok hostLookupCgo else nss_order e c true hostLookupCgo h)). destruct local.
  { eexists. split; [reflexivity|]. intros o' Ho. split; [by intros <-|]. intros [(H&_&_) _]. exfalso. by apply H, Hl. }
  destruct (nss_order_choice e c (undot hostname)) as (o&->&Ho). exists o. split; [done|]. intros o' Hn. rewrite (Ho Hos o' Hn).
  split; [|by intros [_ ?]]. intros H. split; [|done]. split; [by intros H'%Hl|]. split; [done|by apply Hr].
Qed.
Lemma files_order_forced e c hostname : ∃ o, files_order e c false hostLookupFilesDNS hostname = Ok o ∧ o ≠ hostLookupCgo ∧ (goos c = "linux"%go →
  (nss_err (system_nss e) = None ∧ host_sources e ≠ [] → o = order_of (databases (negb (existsb is_dns (host_sources e))) (host_sources e)) hostLookupFilesDNS) ∧
  (nss_err (system_nss e) ≠ None ∨ host_sources e = [] → o = hostLookupFilesDNS)).
Proof.
  unfold files_order. cbn [andb]. destruct (canonical_host hostname) as (local&_&Hcan). destruct (beq (goos c) "openbsd"%go) eqn:Eb.
  - eexists. split; [done|]. split; [destruct (err_is _ _); [done|by apply openbsd_go]|]. intros El. by rewrite El in Eb.
  - rewrite (Hcan (λ h _, nss_order e c false hostLookupFilesDNS h)). destruct (nss_order_forced e c (undot hostname)) as (o&->&H1&H2). exists o. auto.
Qed.
Lemma must_use e c : GOOS e ≠ "plan9"%go → mustUseGoResolver e c = true ↔ cgoAvailable e = false ∨ netGo c = true ∨ PreferGo e = true.
Proof.
  intros Hp. unfold mustUseGoResolver. destruct (cgoAvailable e); cbn [negb]; [|by split; [left|]].
  assert (beq (GOOS e) "plan9"%go = false) as -> by (apply not_true_iff_false; by rewrite beq_eq). cbn [andb]. rewrite orb_true_iff.
  split; [by right|by intros [?|?]].
Qed.
(** A Linux machine without cgo: dns before files, and a source of its own. *)
Definition linux_nss (l : list nssSource) : nssConf := MkNss 0 None {[ "hosts"%go := l ]}.
Definition linux (cgo : bool) (l : list nssSource) : surroundings :=
  MkSurroundings "linux"%go cgo false false false false initial_conf (linux_nss l) (λ _, false) (λ _, false) (inl "host"%go) (inl false) (λ _, None).
Definition linux_conf : conf := MkSysConf false false 0 false "linux"%go.
Definition sample_sources : list nssSource := [MkSource "mdns4_minimal"%go []; MkSource "dns"%go []; MkSource "files"%go []].
Definition broken_nss : surroundings :=
  MkSurroundings "linux"%go true false false false false initial_conf (MkNss 0 (Some (New "no colon on line"%go)) ∅) (λ _, false) (λ _, false) (inl "host"%go) (inl false) (λ _, None).

(** ** package net: nsswitch.conf, properties *)

(** ** Trimming *)
(** No space at either end. *)
Definition trimmed (x : bytes) : Prop := (∀ c, list.head x = Some c → isSpace c = false) ∧ (∀ c, list.last x = Some c → isSpace c = false).
Lemma trim_front_spec x : ∃ u, x = u ++ trim_front x ∧ (∀ c, list.head (trim_front x) = Some c → isSpace c = false).
Proof.
  induction x as [|c x (u&E&H)]; [by exists []|]. cbn [trim_front]. destruct (isSpace c) eqn:Ec; [exists (c :: u); split; [cbn; by rewrite <- E|done]|].
  exists []. split; [done|]. by intros d [= <-].
Qed.
Lemma trim_front_id x : (∀ c, list.head x = Some c → isSpace c = false) → trim_front x = x.
Proof. destruct x as [|c x]; [done|]. intros H. cbn. by rewrite (H c). Qed.
Lemma head_rev (x : bytes) : list.head (rev x) = list.last x.
Proof. destruct x as [|c x _] using rev_ind; [done|]. by rewrite rev_app_distr, last_snoc. Qed.
Lemma trimSpace_id x : trimmed x → trimSpace x = x.
Proof. intros [H1 H2]. unfold trimSpace. rewrite (trim_front_id x), trim_front_id; [apply rev_involutive| |done]. intros c. rewrite head_rev. apply H2. Qed.
Lemma trimSpace_space c x : isSpace c = true → trimSpace (c :: x) = trimSpace x.
Proof. intros Hc. unfold trimSpace. cbn [trim_front]. by rewrite Hc. Qed.
Lemma trimSpace_le x : len (trimSpace x) <= len x.
Proof.
  unfold trimSpace. destruct (trim_front_spec x) as (u&E&_), (trim_front_spec (rev (trim_front x))) as (v&Ev&_).
  apply (f_equal len) in E, Ev. rewrite len_app in E, Ev. pose proof (len_nonneg u). pose proof (len_nonneg v). unfold len in *. rewrite length_rev in *. lia.
Qed.

(** ** The parse ends *)
Lemma foreach_loop_total {S : Type} (fn : bytes → S → res S) : (∀ x st, ∀ m, fn x st ≠ Panic m) →
  ∀ fuel x st m, len x <= Z.of_nat fuel → foreach_loop fuel x fn st ≠ Panic m.
Proof.
  intros Hfn. induction fuel as [|fuel IH]; intros x st m Hf; cbn [foreach_loop].
  { destruct (Z.gtb_spec (len x) 0); [lia|done]. }
  destruct (len x >? 0); [|done]. destruct (index_split x " "%byte) as [[-> _]|(a&b&E&_&->)]; [apply Hfn|].
  pose proof (len_nonneg a). rewrite (proj2 (Z.eqb_neq _ _)) by lia. assert (Ea : upto x (len a) = Ok a) by (rewrite E; by apply upto_app). rewrite Ea. cbn [mbind res_bind].
  assert (Eb : from x (len a + 1) = Ok b).
  { rewrite E. replace (a ++ " "%byte :: b) with ((a ++ [" "%byte]) ++ b) by (by rewrite <- app_assoc). apply from_app. rewrite len_app. done. }
  assert (Hb : len (trimSpace b) <= Z.of_nat fuel) by (pose proof (trimSpace_le b); rewrite E, len_app, len_cons in Hf; lia).
  rewrite Eb. destruct (len (trimSpace a) >? 0); [|by apply IH]. destruct (fn (trimSpace a) st) as [st'|e|m'] eqn:Ef; cbn [mbind res_bind]; [by apply IH|done|].
  by destruct (Hfn _ _ _ Ef).
Qed.
Lemma criterion_total f c m : criterion f c ≠ Panic m.
Proof.
  unfold criterion. assert (Hb : ∃ b, (if len f >? 0 then x ← at_ f 0; Ok (x =? "!"%byte) else Ok false) = Ok b ∧ (b = true → 0 < len f)).
  { destruct f as [|x f]; [by exists false|]. rewrite len_cons. pose proof (len_nonneg f). rewrite (proj2 (Z.gtb_lt _ _)) by lia. eexists. split; [done|lia]. }
  destruct Hb as (b&->&Hb). cbn [mbind res_bind]. assert (Hf : ∃ g, (if b then from f 1 else Ok f) = Ok g).
  { destruct b; [|by eexists]. destruct f as [|x f]; [by specialize (Hb eq_refl)|]. exists f. by apply (from_app [x] f). }
  destruct Hf as [g ->]. cbn [mbind res_bind]. destruct (len g <? 3); [done|]. destruct (index_split g "="%byte) as [[-> _]|(u&v&E&_&->)]; [done|].
  pose proof (len_nonneg u). rewrite (proj2 (Z.eqb_neq _ _)) by lia. set (g' := if hasUpperCase g then _ else g).
  assert (Hg : ∃ u' c' v', g' = (u' ++ [c']) ++ v' ∧ len u' = len u).
  { unfold g'. destruct (hasUpperCase g); [|exists u, "="%byte, v; by rewrite <- app_assoc]. exists (map lowerASCII u), (lowerASCII "="%byte), (map lowerASCII v).
    unfold lowerASCIIBytes. rewrite E, map_app, <- app_assoc. split; [done|]. unfold len. by rewrite length_map. }
  destruct Hg as (u'&c'&v'&->&Hl). assert (Eu : upto ((u' ++ [c']) ++ v') (len u) = Ok u') by (rewrite <- app_assoc; by apply upto_app). rewrite Eu. cbn [mbind res_bind].
  rewrite from_app by (rewrite len_app; change (len [c']) with 1; lia). done.
Qed.
Lemma parseCriteria_total x m : parseCriteria x ≠ Panic m.
Proof. apply foreach_loop_total; [intros; apply criterion_total|]. apply trimSpace_le. Qed.
(** A source takes up at least a byte. *)
Lemma one_source_total x : 0 < len x → trimSpace x = x → ∃ r, one_source x = Ok r ∧ match r with inl (s, rest) => len rest < len x | inr _ => True end.
Proof.
  intros Hx Ht. unfold one_source.
  assert (H1 : ∃ s t, (if IndexByteString x " "%byte =? -1 then Ok (x, []) else
      src ← upto x (IndexByteString x " "%byte); t ← from x (IndexByteString x " "%byte + 1); Ok (src, trimSpace t)) = Ok (s, t) ∧ len t < len x).
  { destruct (index_split x " "%byte) as [[-> _]|(a&b&E&_&->)]; [by exists x, []|]. pose proof (len_nonneg a). rewrite (proj2 (Z.eqb_neq _ _)) by lia.
    assert (Ea : upto x (len a) = Ok a) by (rewrite E; by apply upto_app). rewrite Ea. cbn [mbind res_bind]. exists a, (trimSpace b). split; [|pose proof (trimSpace_le b); rewrite E, len_app, len_cons; lia].
    assert (Eb : from x (len a + 1) = Ok b).
    { rewrite E. replace (a ++ " "%byte :: b) with ((a ++ [" "%byte]) ++ b) by (by rewrite <- app_assoc). apply from_app. rewrite len_app. done. }
    by rewrite Eb. }
  destruct H1 as (s&t&->&Hl). cbn [mbind res_bind].
  destruct t as [|c t]; [eexists; split; [done|done]|]. rewrite len_cons. pose proof (len_nonneg t). rewrite (proj2 (Z.gtb_lt _ _)) by lia. change (at_ (c :: t) 0) with (Ok c). cbn [mbind res_bind].
  destruct (Z.eqb_spec c "["%byte) as [->|Hc]; cycle 1.
  { eexists. split; [done|exact Hl]. }
  destruct (index_split ("["%byte :: t) "]"%byte) as [[-> _]|(a&b&E&_&Ei)]; [by eexists|]. rewrite Ei. pose proof (len_nonneg a). rewrite (proj2 (Z.eqb_neq _ _)) by lia.
  destruct a as [|a0 a]; [done|]. injection E as <- E. rewrite (len_cons _ a) in *.
  assert (Es : slice ("["%byte :: t) 1 (len a + 1) = Ok a) by (rewrite E; apply (slice_mid ["["%byte] a); [done|change (len ["["%byte]) with 1; lia]).
  rewrite Es. cbn [mbind res_bind]. destruct (parseCriteria a) as [cs|e|m] eqn:Ec; [|by eexists|by destruct (parseCriteria_total _ _ Ec)].
  assert (Ef : from ("["%byte :: t) (len a + 1 + 1) = Ok b).
  { rewrite E. replace ("["%byte :: a ++ "]"%byte :: b) with (("["%byte :: a ++ ["]"%byte]) ++ b) by (cbn; by rewrite <- app_assoc). apply from_app. rewrite len_cons, len_app. done. }
  rewrite Ef. cbn [mbind res_bind]. eexists. split; [done|]. apply (f_equal len) in E. rewrite len_app, len_cons in E. rewrite len_cons in Hl. pose proof (len_nonneg a). cbn beta iota. lia.
Qed.
Lemma trimSpace_trimmed x : trimmed (trimSpace x).
Proof.
  unfold trimSpace. destruct (trim_front_spec x) as (u&E&H1), (trim_front_spec (rev (trim_front x))) as (v&Ev&H2).
  set (y := trim_front x) in *. set (w := trim_front (rev y)) in *. apply (f_equal (@rev Z)) in Ev. rewrite rev_involutive, rev_app_distr in Ev. split; intros c.
  - intros Hc. apply H1. rewrite Ev. destruct (rev w) as [|d r]; [done|exact Hc].
  - rewrite <- head_rev, rev_involutive. apply H2.
Qed.
Lemma trimSpace_idem x : trimSpace (trimSpace x) = trimSpace x.
Proof. apply trimSpace_id, trimSpace_trimmed. Qed.
Lemma sources_loop_total db : ∀ fuel x conf, len x <= Z.of_nat fuel → ∃ r, sources_loop fuel db x conf = Ok r.
Proof.
  induction fuel as [|fuel IH]; intros x conf Hf; cbn [sources_loop]; pose proof (trimSpace_le x) as Hx; pose proof (len_nonneg (trimSpace x)).
  - rewrite (proj2 (Z.eqb_eq _ _)) by lia. by eexists.
  - destruct (Z.eqb_spec (len (trimSpace x)) 0); [by eexists|]. destruct (one_source_total (trimSpace x)) as ([[s t]|e]&->&Hl); [lia|apply trimSpace_idem| |]; cbn [mbind res_bind].
    + apply IH. lia.
    + by eexists.
Qed.
Lemma nss_line_total line conf : ∃ r, nss_line line conf = Ok r.
Proof.
  unfold nss_line, removeComment. destruct (index_split line "#"%byte) as [[-> _]|(a&b&E&_&->)]; cbn [Z.eqb Pos.eqb negb mbind res_bind].
  2: pose proof (len_nonneg a); rewrite (proj2 (Z.eqb_neq _ _)) by lia; assert (Eu : upto line (len a) = Ok a) by (rewrite E; by apply upto_app); cbn [negb]; rewrite Eu; cbn [mbind res_bind].
  all: match goal with |- context [trimSpace ?y] => set (x := trimSpace y) end; destruct (len x =? 0); [by eexists|].
  all: destruct (index_split x ":"%byte) as [[-> _]|(u&v&Ex&_&->)]; [by eexists|]; pose proof (len_nonneg u); rewrite (proj2 (Z.eqb_neq (len u) _)) by lia.
  all: assert (Eu' : upto x (len u) = Ok u) by (rewrite Ex; by apply upto_app); rewrite Eu'; cbn [mbind res_bind].
  all: assert (Ev : from x (len u + 1) = Ok v) by (rewrite Ex; replace (u ++ ":"%byte :: v) with ((u ++ [":"%byte]) ++ v) by (by rewrite <- app_assoc); apply from_app; rewrite len_app; done).
  all: rewrite Ev; cbn [mbind res_bind]; apply sources_loop_total; unfold len; lia.
Qed.
Lemma nss_lines_total ls : ∀ conf, ∃ conf', over_lines nss_line ls conf = Ok conf'.
Proof.
  induction ls as [|l ls IH]; intros conf; cbn [over_lines]; [by eexists|]. destruct (nss_line_total l conf) as [[conf' more] ->]. cbn [mbind res_bind].
  destruct more; [apply IH|by eexists].
Qed.
(** Whatever nsswitch.conf holds, the parse ends without a panic. *)
Theorem parseNSSConfFile_total {R : Type} `{RegularFile R} (opened : R + error) (stat : Z + error) fuel :
  (∀ r, opened = inl r → (length (left r) < fuel)%nat) → ∃ conf, parseNSSConfFile opened stat fuel = Ok conf.
Proof.
  intros Hf. unfold parseNSSConfFile, parseNSSConf. destruct opened as [r|e]; [|by eexists]. destruct stat; [|by eexists].
  rewrite file_lines by by apply Hf. destruct (nss_lines_total (fitting (text_lines (left r))) empty_nss) as [conf ->]. by eexists.
Qed.
(** Sources separated by a tab are one source. *)
Lemma tab_between_sources : (r ← nss_line ("hosts: files"%go ++ [9] ++ "dns"%go) empty_nss; Ok (sources (fst r) !! "hosts"%go)) =
  Ok (Some [MkSource ("files"%go ++ [9] ++ "dns"%go) []]).
Proof. vm_compute. reflexivity. Qed.
(** A tab does not end a field. *)
Lemma tab_in_field : foreachField ("a"%go ++ [9] ++ "b c"%go) (λ f l, Ok (l ++ [f])) [] = Ok ["a"%go ++ [9] ++ "b"%go; "c"%go].
Proof. vm_compute. reflexivity. Qed.
