(* ===== verification/Stateful.v ===== *)
(** * Computations that keep their state when they fail

    A Go method that returns an error has still changed what it changed before;
    callers of the DNS message parser and builder go on with that state. *)
From S2P Require Import Prelude.

Definition stateful (S A : Type) : Type := S → res A * S.
#[global] Instance stateful_ret {S} : MRet (stateful S) := λ A a s, (Ok a, s).
#[global] Instance stateful_bind {S} : MBind (stateful S) := λ A B k m s,
  match m s with
  | (Ok a, s) => k a s
  | (Err e, s) => (Err e, s)
  | (Panic p, s) => (Panic p, s)
  end.
Section stateful.
Context {S : Type}.
Definition lift {A} (r : res A) : stateful S A := λ s, (r, s).
Definition fail {A} (e : error) : stateful S A := λ s, (Err e, s).
Definition get : stateful S S := λ s, (Ok s, s).
Definition put (s : S) : stateful S unit := λ _, (Ok tt, s).
Definition modify (f : S → S) : stateful S unit := λ s, (Ok tt, f s).
(** The error as a value, for a caller that looks at it. *)
Definition attempt {A} (m : stateful S A) : stateful S (A + error) := λ s,
  match m s with
  | (Ok a, s) => (Ok (inl a), s)
  | (Err e, s) => (Ok (inr e), s)
  | (Panic p, s) => (Panic p, s)
  end.
(** An error is handed on changed. *)
Definition catching {A} (f : error → error) (m : stateful S A) : stateful S A := λ s,
  match m s with (Err e, s) => (Err (f e), s) | r => r end.
(** A computation on a part of the state. *)
Definition zoom {T A} (part : S → T) (restore : T → S → S) (m : stateful T A) : stateful S A := λ s,
  let '(r, t) := m (part s) in (r, restore t s).
End stateful.
(** The same for a computation without a state. *)
Definition nest {A} (s : bytes) (r : res A) : res A :=
  match r with Err e => Err (nestedError s e) | r => r end.

(** No panic, and what is left of the state satisfies [Q] whether it succeeds
    ([Some]) or fails ([None]). *)
Definition runs {S A} (m : stateful S A) (s : S) (Q : option A → S → Prop) : Prop :=
  match m s with
  | (Ok a, s) => Q (Some a) s
  | (Err _, s) => Q None s
  | (Panic _, _) => False
  end.
Section runs.
Context {S : Type}.
Implicit Types s : S.
Lemma runs_bind {A B} (m : stateful S A) (k : A → stateful S B) s (Q : option B → S → Prop) :
  runs m s (λ a s, match a with Some a => runs (k a) s Q | None => Q None s end) → runs (x ← m; k x) s Q.
Proof. unfold runs, mbind, stateful_bind. destruct (m s) as [[a|e|p] s']; auto. Qed.
Lemma runs_mono {A} (m : stateful S A) s (P Q : option A → S → Prop) :
  runs m s P → (∀ a s, P a s → Q a s) → runs m s Q.
Proof. unfold runs. destruct (m s) as [[a|e|p] s']; auto. Qed.
Lemma runs_lift {A} (r : res A) s (Q : option A → S → Prop) :
  safe (λ a, Q (Some a) s) r → Q None s → runs (lift r) s Q.
Proof. unfold runs, lift. destruct r; auto. Qed.
Lemma runs_catching {A} f (m : stateful S A) s Q : runs m s Q → runs (catching f m) s Q.
Proof. unfold runs, catching. destruct (m s) as [[a|e|p] s']; auto. Qed.
Lemma runs_attempt {A} (m : stateful S A) s (Q : option (A + error) → S → Prop) :
  runs m s (λ a s, match a with Some a => Q (Some (inl a)) s | None => ∀ e, Q (Some (inr e)) s end) → runs (attempt m) s Q.
Proof. unfold runs, attempt. destruct (m s) as [[a|e|p] s']; auto. Qed.
Lemma runs_fst {A} (m : stateful S A) s (P : A → Prop) :
  runs m s (λ a _, match a with Some a => P a | None => True end) → safe P (fst (m s)).
Proof. unfold runs. by destruct (m s) as [[a|e|p] s']. Qed.
End runs.
Lemma safe_nest {A} (P : A → Prop) s (r : res A) : safe P r → safe P (nest s r).
Proof. by destruct r. Qed.
