(* ===== verification/DnsWire.v ===== *)
(** * dnsmessage: the wire format of numbers, texts, headers and names

    vendor/golang.org/x/net/dns/dnsmessage/message.go.  A packing function takes
    the message so far and returns it extended; the compression table, a map
    that is nil when compression is off, is the state of the computation and
    keeps what a failed call put into it.  An unpacking function takes a
    message and an offset. *)
From stdpp Require Import gmap.
From S2P Require Import Prelude NetipText Stateful.

(** ** Constants *)
Definition TypeA : Z := 1.
Definition TypeNS : Z := 2.
Definition TypeCNAME : Z := 5.
Definition TypeSOA : Z := 6.
Definition TypePTR : Z := 12.
Definition TypeMX : Z := 15.
Definition TypeTXT : Z := 16.
Definition TypeAAAA : Z := 28.
Definition TypeSRV : Z := 33.
Definition TypeOPT : Z := 41.
Definition ClassINET : Z := 1.
Definition RCodeSuccess : Z := 0.
Definition RCodeServerFailure : Z := 2.
Definition RCodeNameError : Z := 3.
Definition ErrNotStarted : error := New "parsing/packing of this type isn't available yet"%go.
Definition ErrSectionDone : error := New "parsing/packing of this section has completed"%go.
Definition errBaseLen : error := New "insufficient data for base length type"%go.
Definition errCalcLen : error := New "insufficient data for calculated length type"%go.
Definition errReserved : error := New "segment prefix is reserved"%go.
Definition errTooManyPtr : error := New "too many pointers (>10)"%go.
Definition errInvalidPtr : error := New "invalid pointer"%go.
Definition errInvalidName : error := New "invalid dns name"%go.
Definition errNilResouceBody : error := New "nil resource body"%go.
Definition errResourceLen : error := New "insufficient data for resource body length"%go.
Definition errSegTooLong : error := New "segment length too long"%go.
Definition errNameTooLong : error := New "name too long"%go.
Definition errZeroSegLen : error := New "zero length segment"%go.
Definition errResTooLong : error := New "resource length too long"%go.
Definition errTooManyQuestions : error := New "too many Questions to pack (>65535)"%go.
Definition errTooManyAnswers : error := New "too many Answers to pack (>65535)"%go.
Definition errTooManyAuthorities : error := New "too many Authorities to pack (>65535)"%go.
Definition errTooManyAdditionals : error := New "too many Additionals to pack (>65535)"%go.
Definition errNonCanonicalName : error := New "name is not in canonical format (it must end with a .)"%go.
Definition errStringTooLong : error := New "character string exceeds maximum length (255)"%go.
Definition errCompressedSRV : error := New "compressed name in SRV resource data"%go.
Definition headerLen : Z := 6 * 2.

(** ** Numbers and texts *)
Definition packUint16 (msg : bytes) (field : Z) : bytes := msg ++ [u8 (Z.shiftr field 8); u8 field].
Definition unpackUint16 (msg : bytes) (off : Z) : res (Z * Z) :=
  if off + 2 >? len msg then Err errBaseLen
  else a ← at_ msg off; b ← at_ msg (off + 1); Ok (Z.lor (u16 (Z.shiftl a 8)) b, off + 2).
Definition skipUint16 (msg : bytes) (off : Z) : res Z :=
  if off + 2 >? len msg then Err errBaseLen else Ok (off + 2).
Definition packUint32 (msg : bytes) (field : Z) : bytes :=
  msg ++ [u8 (Z.shiftr field 24); u8 (Z.shiftr field 16); u8 (Z.shiftr field 8); u8 field].
Definition unpackUint32 (msg : bytes) (off : Z) : res (Z * Z) :=
  if off + 4 >? len msg then Err errBaseLen
  else
    a ← at_ msg off; b ← at_ msg (off + 1); c ← at_ msg (off + 2); d ← at_ msg (off + 3);
    Ok (Z.lor (Z.lor (Z.lor (u32 (Z.shiftl a 24)) (u32 (Z.shiftl b 16))) (u32 (Z.shiftl c 8))) d, off + 4).
Definition skipUint32 (msg : bytes) (off : Z) : res Z :=
  if off + 4 >? len msg then Err errBaseLen else Ok (off + 4).
Definition packType : bytes → Z → bytes := packUint16.
Definition unpackType : bytes → Z → res (Z * Z) := unpackUint16.
Definition skipType : bytes → Z → res Z := skipUint16.
Definition packClass : bytes → Z → bytes := packUint16.
Definition unpackClass : bytes → Z → res (Z * Z) := unpackUint16.
Definition skipClass : bytes → Z → res Z := skipUint16.
Definition packText (msg field : bytes) : res bytes :=
  let l := len field in
  if l >? 255 then Err errStringTooLong else Ok (msg ++ [u8 l] ++ field).
Definition unpackText (msg : bytes) (off : Z) : res (bytes * Z) :=
  if off >=? len msg then Err errBaseLen
  else
    let beginOff := off + 1 in
    l ← at_ msg off;
    let endOff := beginOff + l in
    if endOff >? len msg then Err errCalcLen else t ← slice msg beginOff endOff; Ok (t, endOff).
Definition packBytes (msg field : bytes) : bytes := msg ++ field.
(** [unpackBytes(msg, off, field)] for a field of [n] bytes. *)
Definition unpackBytes (msg : bytes) (off n : Z) : res (bytes * Z) :=
  let newOff := off + n in
  if newOff >? len msg then Err errBaseLen else t ← slice msg off newOff; Ok (t, newOff).

(** ** The header *)
Record Header : Set := MkHeader {
  ID : Z; Response : bool; OpCode : Z; Authoritative : bool; Truncated : bool; RecursionDesired : bool;
  RecursionAvailable : bool; AuthenticData : bool; CheckingDisabled : bool; RCode : Z }.
Definition headerBitQR : Z := Z.shiftl 1 15.
Definition headerBitAA : Z := Z.shiftl 1 10.
Definition headerBitTC : Z := Z.shiftl 1 9.
Definition headerBitRD : Z := Z.shiftl 1 8.
Definition headerBitRA : Z := Z.shiftl 1 7.
Definition headerBitAD : Z := Z.shiftl 1 5.
Definition headerBitCD : Z := Z.shiftl 1 4.
(** [if b { bits |= flag }]. *)
Definition raise (b : bool) (flag bits : Z) : Z := if b then Z.lor bits flag else bits.
Definition Header_pack (m : Header) : Z * Z :=
  let bits := Z.lor (u16 (Z.shiftl (OpCode m) 11)) (RCode m) in
  let bits := raise (RecursionAvailable m) headerBitRA bits in
  let bits := raise (RecursionDesired m) headerBitRD bits in
  let bits := raise (Truncated m) headerBitTC bits in
  let bits := raise (Authoritative m) headerBitAA bits in
  let bits := raise (Response m) headerBitQR bits in
  let bits := raise (AuthenticData m) headerBitAD bits in
  let bits := raise (CheckingDisabled m) headerBitCD bits in
  (ID m, bits).
(** A section is its number. *)
Definition sectionNotStarted : Z := 0.
Definition sectionHeader : Z := 1.
Definition sectionQuestions : Z := 2.
Definition sectionAnswers : Z := 3.
Definition sectionAuthorities : Z := 4.
Definition sectionAdditionals : Z := 5.
Definition sectionDone : Z := 6.
Definition sectionNames (sec : Z) : bytes :=
  if sec =? sectionHeader then "header"%go
  else if sec =? sectionQuestions then "Question"%go
  else if sec =? sectionAnswers then "Answer"%go
  else if sec =? sectionAuthorities then "Authority"%go
  else if sec =? sectionAdditionals then "Additional"%go
  else [].
Record header : Set := MkWireHeader { id : Z; bits : Z; questions : Z; answers : Z; authorities : Z; additionals : Z }.
Definition header_count (h : header) (sec : Z) : Z :=
  if sec =? sectionQuestions then questions h
  else if sec =? sectionAnswers then answers h
  else if sec =? sectionAuthorities then authorities h
  else if sec =? sectionAdditionals then additionals h
  else 0.
Definition header_pack (h : header) (msg : bytes) : bytes :=
  let msg := packUint16 msg (id h) in
  let msg := packUint16 msg (bits h) in
  let msg := packUint16 msg (questions h) in
  let msg := packUint16 msg (answers h) in
  let msg := packUint16 msg (authorities h) in
  packUint16 msg (additionals h).
Definition header_unpack (msg : bytes) (off : Z) : res (header * Z) :=
  '(id, off) ← nest "id"%go (unpackUint16 msg off);
  '(bits, off) ← nest "bits"%go (unpackUint16 msg off);
  '(questions, off) ← nest "questions"%go (unpackUint16 msg off);
  '(answers, off) ← nest "answers"%go (unpackUint16 msg off);
  '(authorities, off) ← nest "authorities"%go (unpackUint16 msg off);
  '(additionals, off) ← nest "additionals"%go (unpackUint16 msg off);
  Ok (MkWireHeader id bits questions answers authorities additionals, off).
Definition flagged (bits flag : Z) : bool := negb (Z.land bits flag =? 0).
Definition header_header (h : header) : Header :=
  MkHeader (id h) (flagged (bits h) headerBitQR) (Z.land (Z.shiftr (bits h) 11) 0xF)
    (flagged (bits h) headerBitAA) (flagged (bits h) headerBitTC) (flagged (bits h) headerBitRD)
    (flagged (bits h) headerBitRA) (flagged (bits h) headerBitAD) (flagged (bits h) headerBitCD)
    (Z.land (bits h) 0xF).

(** ** Names *)
Definition nonEncodedNameMax : Z := 254.
(** [Data] has 255 bytes. *)
Record Name : Set := MkName { Data : bytes; Length : Z }.
Definition name_data (s : bytes) : bytes := s ++ repeat 0 (255 - length s).
Definition NewName (name : bytes) : res Name :=
  if len name >? 255 then Err errCalcLen else Ok (MkName (name_data name) (u8 (len name))).
Definition MustNewName (name : bytes) : res Name :=
  match NewName name with Err e => Panic (Lit "creating name: "%go :: Error_text e) | r => r end.
Definition Name_String (n : Name) : res bytes := upto (Data n) (Length n).

(** The compression table: from a name's text to where it starts. *)
Definition table : Set := option (gmap bytes Z).
(** The entry for [suffix], or a new one for the place [newPtr] if that fits. *)
Definition compress (suffix : bytes) (newPtr : Z) : stateful table (option Z) :=
  comp ← get;
  match comp with
  | None => mret None
  | Some m =>
      match m !! suffix with
      | Some ptr => mret (Some ptr)
      | None =>
          _ ← (if newPtr <=? 0x3FFF then put (Some (<[suffix := u16 newPtr]> m)) else mret tt);
          mret None
      end
  end.
(** The loop over the name: [s] is what is left of it, [n.Data[i:n.Length]], and
    [seg] the segment so far, [n.Data[begin:i]]. *)
Fixpoint pack_loop (s seg : bytes) (msg : bytes) (compressionOff : Z) : stateful table bytes :=
  match s with
  | [] => mret (msg ++ [0])
  | c :: rest =>
      if c =? "."%byte then
        if len seg >=? 64 then fail errSegTooLong
        else if len seg =? 0 then fail errZeroSegLen
        else pack_loop rest [] (msg ++ [u8 (len seg)] ++ seg) compressionOff
      else
        hit ← (if len seg =? 0 then compress s (len msg - compressionOff) else mret None);
        match hit with
        | Some ptr => mret (msg ++ [u8 (Z.lor (Z.shiftr ptr 8) 0xC0); u8 ptr])
        | None => pack_loop rest (seg ++ [c]) msg compressionOff
        end
  end.
Definition Name_pack (n : Name) (msg : bytes) (compressionOff : Z) : stateful table bytes :=
  if Length n >? nonEncodedNameMax then fail errNameTooLong
  else
    dot ← (if Length n =? 0 then mret false else c ← lift (at_ (Data n) (Length n - 1)); mret (c =? "."%byte));
    if negb dot then fail errNonCanonicalName
    else
      c ← lift (at_ (Data n) 0);
      if (c =? "."%byte) && (Length n =? 1) then mret (msg ++ [0])
      else s ← lift (upto (Data n) (Length n)); pack_loop s [] msg compressionOff.

(** The loop of unpackCompressed: the name read, the offset after it, where the
    next record starts if a pointer was followed, and the number of pointers. *)
Fixpoint unpack_loop (fuel : nat) (msg : bytes) (allowCompression : bool) (currOff newOff ptr : Z) (name : bytes) : res (bytes * Z * Z * Z) :=
  match fuel with
  | O => Panic []
  | S fuel =>
      if currOff >=? len msg then Err errBaseLen
      else
        c ← at_ msg currOff;
        let currOff := currOff + 1 in
        if Z.land c 0xC0 =? 0x00 then
          if c =? 0 then Ok (name, currOff, newOff, ptr)
          else
            let endOff := currOff + c in
            if endOff >? len msg then Err errCalcLen
            else
              seg ← slice msg currOff endOff;
              if existsb (λ v, v =? "."%byte) seg then Err errInvalidName
              else unpack_loop fuel msg allowCompression endOff newOff ptr (name ++ seg ++ "."%go)
        else if Z.land c 0xC0 =? 0xC0 then
          if negb allowCompression then Err errCompressedSRV
          else if currOff >=? len msg then Err errInvalidPtr
          else
            c1 ← at_ msg currOff;
            let currOff := currOff + 1 in
            let newOff := if ptr =? 0 then currOff else newOff in
            let ptr := ptr + 1 in
            if ptr >? 10 then Err errTooManyPtr
            else unpack_loop fuel msg allowCompression (Z.lor (Z.shiftl (Z.lxor c 0xC0) 8) c1) newOff ptr name
        else Err errReserved
  end.
Definition Name_unpackCompressed (msg : bytes) (off : Z) (allowCompression : bool) : res (Name * Z) :=
  '(name, currOff, newOff, ptr) ← unpack_loop (11 * S (length msg)) msg allowCompression off off 0 [];
  let name := if len name =? 0 then "."%go else name in
  if len name >? nonEncodedNameMax then Err errNameTooLong
  else Ok (MkName (name_data name) (u8 (len name)), if ptr =? 0 then currOff else newOff).
Definition Name_unpack (msg : bytes) (off : Z) : res (Name * Z) := Name_unpackCompressed msg off true.
Fixpoint skip_loop (fuel : nat) (msg : bytes) (newOff : Z) : res Z :=
  match fuel with
  | O => Panic []
  | S fuel =>
      if newOff >=? len msg then Err errBaseLen
      else
        c ← at_ msg newOff;
        let newOff := newOff + 1 in
        if Z.land c 0xC0 =? 0x00 then
          if c =? 0 then Ok newOff
          else
            let newOff := newOff + c in
            if newOff >? len msg then Err errCalcLen else skip_loop fuel msg newOff
        else if Z.land c 0xC0 =? 0xC0 then Ok (newOff + 1)
        else Err errReserved
  end.
Definition skipName (msg : bytes) (off : Z) : res Z := skip_loop (S (length msg)) msg off.

(** ** Questions *)
Record Question : Set := MkQuestion { q_Name : Name; q_Type : Z; q_Class : Z }.
Definition Question_pack (q : Question) (msg : bytes) (compressionOff : Z) : stateful table bytes :=
  msg ← catching (nestedError "Name"%go) (Name_pack (q_Name q) msg compressionOff);
  let msg := packType msg (q_Type q) in
  mret (packClass msg (q_Class q)).
