(* ===== verification/DnsRecords.v ===== *)
(** * dnsmessage: resource records

    vendor/golang.org/x/net/dns/dnsmessage/message.go: the bodies of the ten
    types of records it knows, and of the others; the header of a record; a
    record as a whole.  The interface ResourceBody is the type of its
    implementations. *)
From stdpp Require Import gmap.
From S2P Require Import Prelude Stateful DnsWire.

(** ** Bodies *)
Record CNAMEResource : Set := MkCNAME { CNAME : Name }.
Record MXResource : Set := MkMXResource { mx_Pref : Z; mx_MX : Name }.
Record NSResource : Set := MkNS { NS : Name }.
Record PTRResource : Set := MkPTR { PTR : Name }.
Record SOAResource : Set := MkSOA { soa_NS : Name; MBox : Name; Serial : Z; Refresh : Z; Retry : Z; Expire : Z; MinTTL : Z }.
Record TXTResource : Set := MkTXT { TXT : list bytes }.
Record SRVResource : Set := MkSRVResource { srv_Priority : Z; srv_Weight : Z; srv_Port : Z; srv_Target : Name }.
Record AResource : Set := MkA { A : bytes }.
Record AAAAResource : Set := MkAAAA { AAAA : bytes }.
Record dnsOption : Set := MkOption { Code : Z; opt_Data : bytes }.
Record OPTResource : Set := MkOPT { Options : list dnsOption }.
Record UnknownResource : Set := MkUnknown { u_Type : Z; u_Data : bytes }.
Inductive ResourceBody : Set :=
| BodyCNAME (r : CNAMEResource) | BodyMX (r : MXResource) | BodyNS (r : NSResource) | BodyPTR (r : PTRResource)
| BodySOA (r : SOAResource) | BodyTXT (r : TXTResource) | BodySRV (r : SRVResource) | BodyA (r : AResource)
| BodyAAAA (r : AAAAResource) | BodyOPT (r : OPTResource) | BodyUnknown (r : UnknownResource).
Definition realType (b : ResourceBody) : Z :=
  match b with
  | BodyCNAME _ => TypeCNAME | BodyMX _ => TypeMX | BodyNS _ => TypeNS | BodyPTR _ => TypePTR | BodySOA _ => TypeSOA
  | BodyTXT _ => TypeTXT | BodySRV _ => TypeSRV | BodyA _ => TypeA | BodyAAAA _ => TypeAAAA | BodyOPT _ => TypeOPT
  | BodyUnknown r => u_Type r
  end.

(** *** Packing *)
Definition packer : Type := bytes → Z → stateful table bytes.
Definition CNAMEResource_pack (r : CNAMEResource) : packer := Name_pack (CNAME r).
Definition MXResource_pack (r : MXResource) : packer := λ msg compressionOff,
  let msg := packUint16 msg (mx_Pref r) in
  catching (nestedError "MXResource.MX"%go) (Name_pack (mx_MX r) msg compressionOff).
Definition NSResource_pack (r : NSResource) : packer := Name_pack (NS r).
Definition PTRResource_pack (r : PTRResource) : packer := Name_pack (PTR r).
Definition SOAResource_pack (r : SOAResource) : packer := λ msg compressionOff,
  msg ← catching (nestedError "SOAResource.NS"%go) (Name_pack (soa_NS r) msg compressionOff);
  msg ← catching (nestedError "SOAResource.MBox"%go) (Name_pack (MBox r) msg compressionOff);
  let msg := packUint32 msg (Serial r) in
  let msg := packUint32 msg (Refresh r) in
  let msg := packUint32 msg (Retry r) in
  let msg := packUint32 msg (Expire r) in
  mret (packUint32 msg (MinTTL r)).
Fixpoint texts_loop (l : list bytes) (msg : bytes) : res bytes :=
  match l with [] => Ok msg | s :: l => msg ← packText msg s; texts_loop l msg end.
Definition TXTResource_pack (r : TXTResource) : packer := λ msg _, lift (texts_loop (TXT r) msg).
Definition SRVResource_pack (r : SRVResource) : packer := λ msg compressionOff,
  let msg := packUint16 msg (srv_Priority r) in
  let msg := packUint16 msg (srv_Weight r) in
  let msg := packUint16 msg (srv_Port r) in
  catching (nestedError "SRVResource.Target"%go)
    (zoom (λ _, None) (λ _ comp, comp) (Name_pack (srv_Target r) msg compressionOff)).
Definition AResource_pack (r : AResource) : packer := λ msg _, mret (packBytes msg (A r)).
Definition AAAAResource_pack (r : AAAAResource) : packer := λ msg _, mret (packBytes msg (AAAA r)).
Fixpoint options_pack (l : list dnsOption) (msg : bytes) : bytes :=
  match l with
  | [] => msg
  | opt :: l =>
      let msg := packUint16 msg (Code opt) in
      let l16 := u16 (len (opt_Data opt)) in
      let msg := packUint16 msg l16 in
      options_pack l (packBytes msg (opt_Data opt))
  end.
Definition OPTResource_pack (r : OPTResource) : packer := λ msg _, mret (options_pack (Options r) msg).
Definition UnknownResource_pack (r : UnknownResource) : packer := λ msg _, mret (packBytes msg (u_Data r)).
Definition ResourceBody_pack (b : ResourceBody) : packer :=
  match b with
  | BodyCNAME r => CNAMEResource_pack r | BodyMX r => MXResource_pack r | BodyNS r => NSResource_pack r
  | BodyPTR r => PTRResource_pack r | BodySOA r => SOAResource_pack r | BodyTXT r => TXTResource_pack r
  | BodySRV r => SRVResource_pack r | BodyA r => AResource_pack r | BodyAAAA r => AAAAResource_pack r
  | BodyOPT r => OPTResource_pack r | BodyUnknown r => UnknownResource_pack r
  end.

(** *** Unpacking *)
Definition unpackCNAMEResource (msg : bytes) (off : Z) : res CNAMEResource :=
  '(cname, _) ← Name_unpack msg off; Ok (MkCNAME cname).
Definition unpackMXResource (msg : bytes) (off : Z) : res MXResource :=
  '(pref, off) ← nest "Pref"%go (unpackUint16 msg off);
  '(mx, _) ← nest "MX"%go (Name_unpack msg off);
  Ok (MkMXResource pref mx).
Definition unpackNSResource (msg : bytes) (off : Z) : res NSResource :=
  '(ns, _) ← Name_unpack msg off; Ok (MkNS ns).
Definition unpackPTRResource (msg : bytes) (off : Z) : res PTRResource :=
  '(ptr, _) ← Name_unpack msg off; Ok (MkPTR ptr).
Definition unpackSOAResource (msg : bytes) (off : Z) : res SOAResource :=
  '(ns, off) ← nest "NS"%go (Name_unpack msg off);
  '(mbox, off) ← nest "MBox"%go (Name_unpack msg off);
  '(serial, off) ← nest "Serial"%go (unpackUint32 msg off);
  '(refresh, off) ← nest "Refresh"%go (unpackUint32 msg off);
  '(retry, off) ← nest "Retry"%go (unpackUint32 msg off);
  '(expire, off) ← nest "Expire"%go (unpackUint32 msg off);
  '(minTTL, _) ← nest "MinTTL"%go (unpackUint32 msg off);
  Ok (MkSOA ns mbox serial refresh retry expire minTTL).
(** The loop of unpackTXTResource, [n] counting the bytes read. *)
Fixpoint txt_loop (fuel : nat) (msg : bytes) (off n length : Z) (txts : list bytes) : res (list bytes) :=
  if n <? length then
    match fuel with
    | O => Panic []
    | S fuel =>
        '(t, off) ← nest "text"%go (unpackText msg off);
        if u16 (length - n) <? u16 (u16 (len t) + 1) then Err errCalcLen
        else txt_loop fuel msg off (u16 (n + u16 (u16 (len t) + 1))) length (txts ++ [t])
    end
  else Ok txts.
Definition unpackTXTResource (msg : bytes) (off length : Z) : res TXTResource :=
  txts ← txt_loop (Z.to_nat length) msg off 0 length []; Ok (MkTXT txts).
Definition unpackSRVResource (msg : bytes) (off : Z) : res SRVResource :=
  '(priority, off) ← nest "Priority"%go (unpackUint16 msg off);
  '(weight, off) ← nest "Weight"%go (unpackUint16 msg off);
  '(port, off) ← nest "Port"%go (unpackUint16 msg off);
  '(target, _) ← nest "Target"%go (Name_unpackCompressed msg off false);
  Ok (MkSRVResource priority weight port target).
Definition unpackAResource (msg : bytes) (off : Z) : res AResource :=
  '(a, _) ← unpackBytes msg off 4; Ok (MkA a).
Definition unpackAAAAResource (msg : bytes) (off : Z) : res AAAAResource :=
  '(aaaa, _) ← unpackBytes msg off 16; Ok (MkAAAA aaaa).
(** The loop of unpackOPTResource, up to the offset [last]. *)
Fixpoint opt_loop (fuel : nat) (msg : bytes) (off last : Z) (opts : list dnsOption) : res (list dnsOption) :=
  if off <? last then
    match fuel with
    | O => Panic []
    | S fuel =>
        '(code, off) ← nest "Code"%go (unpackUint16 msg off);
        '(l, off) ← nest "Data"%go (unpackUint16 msg off);
        rest ← from msg off;
        if negb (Z.min l (len rest) =? l) then Err (nestedError "Data"%go errCalcLen)
        else
          data ← upto rest l;
          opt_loop fuel msg (off + l) last (opts ++ [MkOption code data])
    end
  else Ok opts.
Definition unpackOPTResource (msg : bytes) (off length : Z) : res OPTResource :=
  opts ← opt_loop (Z.to_nat length) msg off (off + length) []; Ok (MkOPT opts).
Definition unpackUnknownResource (recordType : Z) (msg : bytes) (off length : Z) : res UnknownResource :=
  '(data, _) ← unpackBytes msg off length; Ok (MkUnknown recordType data).

(** ** Headers of records *)
Record ResourceHeader : Set := MkRH { rh_Name : Name; rh_Type : Z; rh_Class : Z; rh_TTL : Z; rh_Length : Z }.
Definition set_Type (t : Z) (h : ResourceHeader) : ResourceHeader := MkRH (rh_Name h) t (rh_Class h) (rh_TTL h) (rh_Length h).
Definition set_Length (l : Z) (h : ResourceHeader) : ResourceHeader := MkRH (rh_Name h) (rh_Type h) (rh_Class h) (rh_TTL h) l.
Definition ResourceHeader_pack (h : ResourceHeader) (oldMsg : bytes) (compressionOff : Z) : stateful table (bytes * Z) :=
  msg ← catching (nestedError "Name"%go) (Name_pack (rh_Name h) oldMsg compressionOff);
  let msg := packType msg (rh_Type h) in
  let msg := packClass msg (rh_Class h) in
  let msg := packUint32 msg (rh_TTL h) in
  let lenOff := len msg in
  mret (packUint16 msg (rh_Length h), lenOff).
Definition ResourceHeader_unpack (msg : bytes) (off : Z) : res (ResourceHeader * Z) :=
  '(name, off) ← nest "Name"%go (Name_unpack msg off);
  '(typ, off) ← nest "Type"%go (unpackType msg off);
  '(class, off) ← nest "Class"%go (unpackClass msg off);
  '(ttl, off) ← nest "TTL"%go (unpackUint32 msg off);
  '(length, off) ← nest "Length"%go (unpackUint16 msg off);
  Ok (MkRH name typ class ttl length, off).
(** The length written where the header left room for it. *)
Definition fixLen (h : ResourceHeader) (msg : bytes) (lenOff preLen : Z) : res (bytes * ResourceHeader) :=
  let conLen := len msg - preLen in
  if conLen >? 65535 then Err errResTooLong
  else
    let l := u16 conLen in
    msg ← set_at msg lenOff (u8 (Z.shiftr l 8));
    msg ← set_at msg (lenOff + 1) (u8 l);
    Ok (msg, set_Length l h).
Definition edns0Version : Z := 0.
Definition edns0DNSSECOK : Z := 0x00008000.
Definition ednsVersionMask : Z := 0x00ff0000.
Definition edns0DNSSECOKMask : Z := 0x00ff8000.
Definition SetEDNS0 (udpPayloadLen extRCode : Z) (dnssecOK : bool) (h : ResourceHeader) : ResourceHeader :=
  let ttl := u32 (Z.shiftl (Z.shiftr (u32 extRCode) 4) 24) in
  let ttl := if dnssecOK then Z.lor ttl edns0DNSSECOK else ttl in
  MkRH (MkName (name_data "."%go) 1) TypeOPT (u16 udpPayloadLen) ttl (rh_Length h).
Definition DNSSECAllowed (h : ResourceHeader) : bool := Z.land (rh_TTL h) edns0DNSSECOKMask =? edns0DNSSECOK.
Definition ExtendedRCode (h : ResourceHeader) (rcode : Z) : Z :=
  if Z.land (rh_TTL h) ednsVersionMask =? edns0Version
  then Z.lor (u16 (u32 (Z.shiftl (Z.shiftr (rh_TTL h) 24) 4))) rcode
  else rcode.

(** ** Records *)
Record Resource : Set := MkResource { r_Header : ResourceHeader; r_Body : option ResourceBody }.
(** Packing fills in the type and the length of the record's own header. *)
Definition Resource_pack (r : Resource) (msg : bytes) (compressionOff : Z) : stateful table (bytes * Resource) :=
  match r_Body r with
  | None => fail errNilResouceBody
  | Some body =>
      let hdr := set_Type (realType body) (r_Header r) in
      '(msg, lenOff) ← catching (nestedError "ResourceHeader"%go) (ResourceHeader_pack hdr msg compressionOff);
      let preLen := len msg in
      msg ← catching (nestedError "content"%go) (ResourceBody_pack body msg compressionOff);
      '(msg, hdr) ← lift (fixLen hdr msg lenOff preLen);
      mret (msg, MkResource hdr (Some body))
  end.
Definition unpackResourceBody (msg : bytes) (off : Z) (hdr : ResourceHeader) : res (ResourceBody * Z) :=
  let t := rh_Type hdr in
  b ←
    (if t =? TypeA then nest "A record"%go (r ← unpackAResource msg off; Ok (BodyA r))
     else if t =? TypeNS then nest "NS record"%go (r ← unpackNSResource msg off; Ok (BodyNS r))
     else if t =? TypeCNAME then nest "CNAME record"%go (r ← unpackCNAMEResource msg off; Ok (BodyCNAME r))
     else if t =? TypeSOA then nest "SOA record"%go (r ← unpackSOAResource msg off; Ok (BodySOA r))
     else if t =? TypePTR then nest "PTR record"%go (r ← unpackPTRResource msg off; Ok (BodyPTR r))
     else if t =? TypeMX then nest "MX record"%go (r ← unpackMXResource msg off; Ok (BodyMX r))
     else if t =? TypeTXT then nest "TXT record"%go (r ← unpackTXTResource msg off (rh_Length hdr); Ok (BodyTXT r))
     else if t =? TypeAAAA then nest "AAAA record"%go (r ← unpackAAAAResource msg off; Ok (BodyAAAA r))
     else if t =? TypeSRV then nest "SRV record"%go (r ← unpackSRVResource msg off; Ok (BodySRV r))
     else if t =? TypeOPT then nest "OPT record"%go (r ← unpackOPTResource msg off (rh_Length hdr); Ok (BodyOPT r))
     else nest "Unknown record"%go (r ← unpackUnknownResource t msg off (rh_Length hdr); Ok (BodyUnknown r)));
  Ok (b, off + rh_Length hdr).
Definition skipResource (msg : bytes) (off : Z) : res Z :=
  newOff ← nest "Name"%go (skipName msg off);
  newOff ← nest "Type"%go (skipType msg newOff);
  newOff ← nest "Class"%go (skipClass msg newOff);
  newOff ← nest "TTL"%go (skipUint32 msg newOff);
  '(length, newOff) ← nest "Length"%go (unpackUint16 msg newOff);
  let newOff := newOff + length in
  if newOff >? len msg then Err errResourceLen else Ok newOff.
