(* ===== verification/DnsParser.v ===== *)
(** * dnsmessage: parsing and building messages

    vendor/golang.org/x/net/dns/dnsmessage/message.go: the Parser, which walks
    through a message section by section, Message, and the Builder.  A method
    is a computation on the parser or builder, which keeps its changes when the
    method returns an error. *)
From stdpp Require Import gmap.
From S2P Require Import Prelude Stateful DnsWire DnsRecords.

(** ** The parser *)
Record Parser : Set := MkParser {
  p_msg : bytes; p_header : header; p_section : Z; p_off : Z; p_index : Z;
  resHeaderValid : bool; resHeaderOffset : Z; resHeaderType : Z; resHeaderLength : Z }.
Definition zero_header : header := MkWireHeader 0 0 0 0 0 0.
Definition zero_Parser : Parser := MkParser [] zero_header sectionNotStarted 0 0 false 0 0 0.
Definition set_off (x : Z) (p : Parser) : Parser :=
  MkParser (p_msg p) (p_header p) (p_section p) x (p_index p) (resHeaderValid p) (resHeaderOffset p) (resHeaderType p) (resHeaderLength p).
Definition set_valid (x : bool) (p : Parser) : Parser :=
  MkParser (p_msg p) (p_header p) (p_section p) (p_off p) (p_index p) x (resHeaderOffset p) (resHeaderType p) (resHeaderLength p).
(** [p.index++]. *)
Definition next_index (p : Parser) : Parser :=
  MkParser (p_msg p) (p_header p) (p_section p) (p_off p) (p_index p + 1) (resHeaderValid p) (resHeaderOffset p) (resHeaderType p) (resHeaderLength p).
(** [p.index = 0; p.section++]. *)
Definition next_section (p : Parser) : Parser :=
  MkParser (p_msg p) (p_header p) (u8 (p_section p + 1)) (p_off p) 0 (resHeaderValid p) (resHeaderOffset p) (resHeaderType p) (resHeaderLength p).
Definition parsing (A : Type) : Type := stateful Parser A.

(** Starting again on a parser in use makes it a new one first; after an error
    the parser is not started, and what it read of the header is not used. *)
Definition Parser_Start (msg : bytes) : parsing Header := λ _,
  let p := MkParser msg zero_header sectionNotStarted 0 0 false 0 0 0 in
  match nest "unpacking header"%go (header_unpack msg 0) with
  | Ok (h, off) => (Ok (header_header h), MkParser msg h sectionQuestions off 0 false 0 0 0)
  | Err e => (Err e, p)
  | Panic m => (Panic m, p)
  end.
Definition checkAdvance (sec : Z) : parsing unit :=
  p ← get;
  if p_section p <? sec then fail ErrNotStarted
  else if p_section p >? sec then fail ErrSectionDone
  else
    _ ← modify (set_valid false);
    if p_index p =? header_count (p_header p) sec then _ ← modify next_section; fail ErrSectionDone
    else mret tt.
Definition resourceHeader (sec : Z) : parsing ResourceHeader :=
  _ ← modify (λ p, if resHeaderValid p then set_off (resHeaderOffset p) p else p);
  _ ← checkAdvance sec;
  p ← get;
  '(hdr, off) ← lift (ResourceHeader_unpack (p_msg p) (p_off p));
  _ ← put (MkParser (p_msg p) (p_header p) (p_section p) off (p_index p) true (p_off p) (rh_Type hdr) (rh_Length hdr));
  mret hdr.
Definition resource (sec : Z) : parsing Resource :=
  hdr ← resourceHeader sec;
  _ ← modify (set_valid false);
  p ← get;
  '(body, off) ← catching (nestedError ("unpacking "%go ++ sectionNames sec)) (lift (unpackResourceBody (p_msg p) (p_off p) hdr));
  _ ← modify (λ p, next_index (set_off off p));
  mret (MkResource hdr (Some body)).
Definition Parser_skipResource (sec : Z) : parsing unit :=
  p ← get;
  if resHeaderValid p && (p_section p =? sec) then
    let newOff := p_off p + resHeaderLength p in
    if newOff >? len (p_msg p) then fail errResourceLen
    else modify (λ p, next_index (set_valid false (set_off newOff p)))
  else
    _ ← checkAdvance sec;
    p ← get;
    off ← catching (nestedError ("skipping: "%go ++ sectionNames sec)) (lift (skipResource (p_msg p) (p_off p)));
    modify (λ p, next_index (set_off off p)).

(** *** Questions *)
Definition Parser_Question : parsing Question :=
  _ ← checkAdvance sectionQuestions;
  p ← get;
  '(name, off) ← lift (nest "unpacking Question.Name"%go (Name_unpack (p_msg p) (p_off p)));
  '(typ, off) ← lift (nest "unpacking Question.Type"%go (unpackType (p_msg p) off));
  '(class, off) ← lift (nest "unpacking Question.Class"%go (unpackClass (p_msg p) off));
  _ ← modify (λ p, next_index (set_off off p));
  mret (MkQuestion name typ class).
Definition SkipQuestion : parsing unit :=
  _ ← checkAdvance sectionQuestions;
  p ← get;
  off ← lift (nest "skipping Question Name"%go (skipName (p_msg p) (p_off p)));
  off ← lift (nest "skipping Question Type"%go (skipType (p_msg p) off));
  off ← lift (nest "skipping Question Class"%go (skipClass (p_msg p) off));
  modify (λ p, next_index (set_off off p)).
(** The loops over a section, which end with ErrSectionDone. *)
Fixpoint all_loop {A} (fuel : nat) (one : parsing A) (l : list A) : parsing (list A) :=
  match fuel with
  | O => lift (Panic [])
  | S fuel =>
      r ← attempt one;
      match r with
      | inl a => all_loop fuel one (l ++ [a])
      | inr err => if decide (err = ErrSectionDone) then mret l else fail err
      end
  end.
Definition section_fuel (sec : Z) (p : Parser) : nat := S (Z.to_nat (header_count (p_header p) sec)).
Definition all_of {A} (sec : Z) (one : parsing A) : parsing (list A) := λ p, all_loop (section_fuel sec p) one [] p.
Fixpoint skip_all_loop (fuel : nat) (one : parsing unit) : parsing unit :=
  match fuel with
  | O => lift (Panic [])
  | S fuel =>
      r ← attempt one;
      match r with
      | inl _ => skip_all_loop fuel one
      | inr err => if decide (err = ErrSectionDone) then mret tt else fail err
      end
  end.
Definition skip_all (sec : Z) (one : parsing unit) : parsing unit := λ p, skip_all_loop (section_fuel sec p) one p.
Definition AllQuestions : parsing (list Question) := all_of sectionQuestions Parser_Question.
Definition SkipAllQuestions : parsing unit := skip_all sectionQuestions SkipQuestion.

(** *** Records, section by section *)
Definition AnswerHeader : parsing ResourceHeader := resourceHeader sectionAnswers.
Definition Answer : parsing Resource := resource sectionAnswers.
Definition AllAnswers : parsing (list Resource) := all_of sectionAnswers Answer.
Definition SkipAnswer : parsing unit := Parser_skipResource sectionAnswers.
Definition SkipAllAnswers : parsing unit := skip_all sectionAnswers SkipAnswer.
Definition AuthorityHeader : parsing ResourceHeader := resourceHeader sectionAuthorities.
Definition Authority : parsing Resource := resource sectionAuthorities.
Definition AllAuthorities : parsing (list Resource) := all_of sectionAuthorities Authority.
Definition SkipAuthority : parsing unit := Parser_skipResource sectionAuthorities.
Definition SkipAllAuthorities : parsing unit := skip_all sectionAuthorities SkipAuthority.
Definition AdditionalHeader : parsing ResourceHeader := resourceHeader sectionAdditionals.
Definition Additional : parsing Resource := resource sectionAdditionals.
Definition AllAdditionals : parsing (list Resource) := all_of sectionAdditionals Additional.
Definition SkipAdditional : parsing unit := Parser_skipResource sectionAdditionals.
Definition SkipAllAdditionals : parsing unit := skip_all sectionAdditionals SkipAdditional.

(** *** The body of the record whose header was read last: the methods differ in
    the type they ask for and the function that unpacks. *)
Definition typed_resource {A} (right_type : Z → bool) (unpack : Parser → res A) : parsing A :=
  p ← get;
  if negb (resHeaderValid p) || negb (right_type (resHeaderType p)) then fail ErrNotStarted
  else
    r ← lift (unpack p);
    _ ← modify (λ p, next_index (set_valid false (set_off (p_off p + resHeaderLength p) p)));
    mret r.
Definition Parser_CNAMEResource : parsing CNAMEResource := typed_resource (Z.eqb TypeCNAME) (λ p, unpackCNAMEResource (p_msg p) (p_off p)).
Definition Parser_MXResource : parsing MXResource := typed_resource (Z.eqb TypeMX) (λ p, unpackMXResource (p_msg p) (p_off p)).
Definition Parser_NSResource : parsing NSResource := typed_resource (Z.eqb TypeNS) (λ p, unpackNSResource (p_msg p) (p_off p)).
Definition Parser_PTRResource : parsing PTRResource := typed_resource (Z.eqb TypePTR) (λ p, unpackPTRResource (p_msg p) (p_off p)).
Definition Parser_SOAResource : parsing SOAResource := typed_resource (Z.eqb TypeSOA) (λ p, unpackSOAResource (p_msg p) (p_off p)).
Definition Parser_TXTResource : parsing TXTResource :=
  typed_resource (Z.eqb TypeTXT) (λ p, unpackTXTResource (p_msg p) (p_off p) (resHeaderLength p)).
Definition Parser_SRVResource : parsing SRVResource := typed_resource (Z.eqb TypeSRV) (λ p, unpackSRVResource (p_msg p) (p_off p)).
Definition Parser_AResource : parsing AResource := typed_resource (Z.eqb TypeA) (λ p, unpackAResource (p_msg p) (p_off p)).
Definition Parser_AAAAResource : parsing AAAAResource := typed_resource (Z.eqb TypeAAAA) (λ p, unpackAAAAResource (p_msg p) (p_off p)).
Definition Parser_OPTResource : parsing OPTResource :=
  typed_resource (Z.eqb TypeOPT) (λ p, unpackOPTResource (p_msg p) (p_off p) (resHeaderLength p)).
Definition Parser_UnknownResource : parsing UnknownResource :=
  typed_resource (λ _, true) (λ p, unpackUnknownResource (resHeaderType p) (p_msg p) (p_off p) (resHeaderLength p)).

(** ** Messages *)
Record Message : Set := MkMessage {
  m_Header : Header; Questions : list Question; Answers : list Resource; Authorities : list Resource; Additionals : list Resource }.
(** After an error the source's message is filled in part. *)
Definition Unpack (msg : bytes) : res Message :=
  fst ((h ← Parser_Start msg;
        qs ← AllQuestions;
        an ← AllAnswers;
        au ← AllAuthorities;
        ad ← AllAdditionals;
        mret (MkMessage h qs an au ad) : parsing Message) zero_Parser).
(** The loops of AppendPack; the records are filled in on the way. *)
Fixpoint pack_questions (l : list Question) (msg : bytes) (compressionOff : Z) : stateful table bytes :=
  match l with
  | [] => mret msg
  | q :: l =>
      msg ← catching (nestedError "packing Question"%go) (Question_pack q msg compressionOff);
      pack_questions l msg compressionOff
  end.
Fixpoint pack_resources (what : bytes) (l : list Resource) (msg : bytes) (compressionOff : Z) : stateful table (bytes * list Resource) :=
  match l with
  | [] => mret (msg, [])
  | r :: l =>
      '(msg, r) ← catching (nestedError ("packing "%go ++ what)) (Resource_pack r msg compressionOff);
      '(msg, l) ← pack_resources what l msg compressionOff;
      mret (msg, r :: l)
  end.
Definition AppendPack (m : Message) (b : bytes) : res (bytes * Message) :=
  if len (Questions m) >? 65535 then Err errTooManyQuestions
  else if len (Answers m) >? 65535 then Err errTooManyAnswers
  else if len (Authorities m) >? 65535 then Err errTooManyAuthorities
  else if len (Additionals m) >? 65535 then Err errTooManyAdditionals
  else
    let '(id, bits) := Header_pack (m_Header m) in
    let h := MkWireHeader id bits (u16 (len (Questions m))) (u16 (len (Answers m))) (u16 (len (Authorities m))) (u16 (len (Additionals m))) in
    let compressionOff := len b in
    let msg := header_pack h b in
    fst ((msg ← pack_questions (Questions m) msg compressionOff;
          '(msg, an) ← pack_resources "Answer"%go (Answers m) msg compressionOff;
          '(msg, au) ← pack_resources "Authority"%go (Authorities m) msg compressionOff;
          '(msg, ad) ← pack_resources "Additional"%go (Additionals m) msg compressionOff;
          mret (msg, MkMessage (m_Header m) (Questions m) an au ad) : stateful table _) (Some ∅)).
Definition Pack (m : Message) : res (bytes * Message) := AppendPack m [].

(** ** The builder *)
Record Builder : Set := MkBuilder { b_msg : bytes; b_section : Z; b_header : header; b_start : Z; b_compression : table }.
Definition set_msg (x : bytes) (b : Builder) : Builder := MkBuilder x (b_section b) (b_header b) (b_start b) (b_compression b).
Definition set_section (x : Z) (b : Builder) : Builder := MkBuilder (b_msg b) x (b_header b) (b_start b) (b_compression b).
Definition set_header (x : header) (b : Builder) : Builder := MkBuilder (b_msg b) (b_section b) x (b_start b) (b_compression b).
Definition set_compression (x : table) (b : Builder) : Builder := MkBuilder (b_msg b) (b_section b) (b_header b) (b_start b) x.
Definition building (A : Type) : Type := stateful Builder A.
(** Packing shares the builder's table. *)
Definition with_table {A} (m : stateful table A) : building A := zoom b_compression set_compression m.
Definition NewBuilder (buf : bytes) (h : Header) : Builder :=
  let '(id, bits) := Header_pack h in
  MkBuilder (buf ++ repeat 0 12) sectionHeader (MkWireHeader id bits 0 0 0 0) (len buf) None.
Definition EnableCompression : building unit := modify (set_compression (Some ∅)).
Definition startCheck (s : Z) : building unit :=
  b ← get;
  if b_section b <=? sectionNotStarted then fail ErrNotStarted
  else if b_section b >? s then fail ErrSectionDone
  else mret tt.
Definition StartQuestions : building unit := _ ← startCheck sectionQuestions; modify (set_section sectionQuestions).
Definition StartAnswers : building unit := _ ← startCheck sectionAnswers; modify (set_section sectionAnswers).
Definition StartAuthorities : building unit := _ ← startCheck sectionAuthorities; modify (set_section sectionAuthorities).
Definition StartAdditionals : building unit := _ ← startCheck sectionAdditionals; modify (set_section sectionAdditionals).
Definition nil_pointer : emsg := [Lit "invalid memory address or nil pointer dereference"%go].
Definition set_count (sec x : Z) (h : header) : header :=
  if sec =? sectionQuestions then MkWireHeader (id h) (bits h) x (answers h) (authorities h) (additionals h)
  else if sec =? sectionAnswers then MkWireHeader (id h) (bits h) (questions h) x (authorities h) (additionals h)
  else if sec =? sectionAuthorities then MkWireHeader (id h) (bits h) (questions h) (answers h) x (additionals h)
  else MkWireHeader (id h) (bits h) (questions h) (answers h) (authorities h) x.
Definition incrementSectionCount : building unit :=
  b ← get;
  let sec := b_section b in
  let err := if sec =? sectionQuestions then errTooManyQuestions else if sec =? sectionAnswers then errTooManyAnswers
             else if sec =? sectionAuthorities then errTooManyAuthorities else errTooManyAdditionals in
  if (sec <? sectionQuestions) || (sec >? sectionAdditionals) then lift (Panic nil_pointer)
  else
    let count := header_count (b_header b) sec in
    if count =? 65535 then fail err else modify (set_header (set_count sec (count + 1) (b_header b))).
Definition Builder_Question (q : Question) : building unit :=
  b ← get;
  if b_section b <? sectionQuestions then fail ErrNotStarted
  else if b_section b >? sectionQuestions then fail ErrSectionDone
  else
    msg ← with_table (Question_pack q (b_msg b) (b_start b));
    _ ← incrementSectionCount;
    modify (set_msg msg).
Definition checkResourceSection : building unit :=
  b ← get;
  if b_section b <? sectionAnswers then fail ErrNotStarted
  else if b_section b >? sectionAdditionals then fail ErrSectionDone
  else mret tt.
(** The methods that add a record differ in its type and in the error's text. *)
Definition add_resource (what : bytes) (h : ResourceHeader) (body : ResourceBody) : building unit :=
  _ ← checkResourceSection;
  let h := set_Type (realType body) h in
  b ← get;
  '(msg, lenOff) ← catching (nestedError "ResourceHeader"%go) (with_table (ResourceHeader_pack h (b_msg b) (b_start b)));
  let preLen := len msg in
  msg ← catching (nestedError (what ++ " body"%go)) (with_table (ResourceBody_pack body msg (b_start b)));
  '(msg, _) ← lift (fixLen h msg lenOff preLen);
  _ ← incrementSectionCount;
  modify (set_msg msg).
Definition Builder_CNAMEResource h r : building unit := add_resource "CNAMEResource"%go h (BodyCNAME r).
Definition Builder_MXResource h r : building unit := add_resource "MXResource"%go h (BodyMX r).
Definition Builder_NSResource h r : building unit := add_resource "NSResource"%go h (BodyNS r).
Definition Builder_PTRResource h r : building unit := add_resource "PTRResource"%go h (BodyPTR r).
Definition Builder_SOAResource h r : building unit := add_resource "SOAResource"%go h (BodySOA r).
Definition Builder_TXTResource h r : building unit := add_resource "TXTResource"%go h (BodyTXT r).
Definition Builder_SRVResource h r : building unit := add_resource "SRVResource"%go h (BodySRV r).
Definition Builder_AResource h r : building unit := add_resource "AResource"%go h (BodyA r).
Definition Builder_AAAAResource h r : building unit := add_resource "AAAAResource"%go h (BodyAAAA r).
Definition Builder_OPTResource h r : building unit := add_resource "OPTResource"%go h (BodyOPT r).
Definition Builder_UnknownResource h r : building unit := add_resource "UnknownResource"%go h (BodyUnknown r).
(** The header goes into the room NewBuilder left for it. *)
Definition Finish : building bytes :=
  b ← get;
  if b_section b <? sectionHeader then fail ErrNotStarted
  else
    _ ← modify (set_section sectionDone);
    front ← lift (upto (b_msg b) (b_start b));
    back ← lift (from (b_msg b) (b_start b + headerLen));
    let msg := header_pack (b_header b) front ++ back in
    _ ← modify (set_msg msg);
    mret msg.
