(* ===== verification/DnsWireProps.v ===== *)
(** * dnsmessage: numbers and names on the wire

    What a packing function appends depends on the message only by its length:
    each has an encoder, from the position and the compression table to the
    bytes.  [decodes] says how a name is spelled at a place of a message, and
    [valid] that the table points at the names it has. *)
From stdpp Require Import gmap.
From S2P Require Import Prelude Stateful DnsWire.

(** ** Numbers *)
Lemma at_shift {A} (w l : list A) k : 0 <= k → at_ (w ++ l) (len w + k) = at_ l k.
Proof.
  intros Hk. unfold at_, len. rewrite !(proj2 (Z.ltb_ge _ _)) by lia.
  rewrite lookup_app_r by lia. by replace (Z.to_nat (Z.of_nat (length w) + k) - length w)%nat with (Z.to_nat k) by lia.
Qed.
Lemma at_start {A} (w l : list A) : at_ (w ++ l) (len w) = at_ l 0.
Proof. rewrite <- (at_shift w l 0) by lia. f_equal. lia. Qed.
Definition enc16 (f : Z) : bytes := [u8 (Z.shiftr f 8); u8 f].
Definition enc32 (f : Z) : bytes := [u8 (Z.shiftr f 24); u8 (Z.shiftr f 16); u8 (Z.shiftr f 8); u8 f].
Lemma len_enc16 f : len (enc16 f) = 2.
Proof. done. Qed.
Lemma len_enc32 f : len (enc32 f) = 4.
Proof. done. Qed.
Lemma bytes16 f : is_u16 f → Z.lor (u16 (Z.shiftl (u8 (Z.shiftr f 8)) 8)) (u8 f) = f.
Proof.
  intros Hf. rewrite u16_id by (rewrite Z.shiftl_mul_pow2, Z.shiftr_div_pow2 by lia; zwlia).
  rewrite lor_shift_add by (try apply u8_range; lia). rewrite Z.shiftr_div_pow2 by lia. zwlia.
Qed.
Lemma read16 w f y i : is_u16 f → i = len w → unpackUint16 (w ++ enc16 f ++ y) i = Ok (f, i + 2).
Proof.
  intros Hf ->. unfold unpackUint16. rewrite !len_app, len_enc16. pose proof (len_nonneg y).
  rewrite Z.gtb_ltb, (proj2 (Z.ltb_ge _ _)) by lia. rewrite at_start, at_shift by lia.
  change (at_ (enc16 f ++ y) 0) with (Ok (u8 (Z.shiftr f 8))). change (at_ (enc16 f ++ y) 1) with (Ok (u8 f)). cbn [mbind res_bind]. by rewrite bytes16.
Qed.
Lemma skip16 w f y i : i = len w → skipUint16 (w ++ enc16 f ++ y) i = Ok (i + 2).
Proof. intros ->. unfold skipUint16. rewrite !len_app, len_enc16. pose proof (len_nonneg y). by rewrite Z.gtb_ltb, (proj2 (Z.ltb_ge _ _)) by lia. Qed.
Lemma bytes32 f : is_u32 f →
  Z.lor (Z.lor (Z.lor (u32 (Z.shiftl (u8 (Z.shiftr f 24)) 24)) (u32 (Z.shiftl (u8 (Z.shiftr f 16)) 16))) (u32 (Z.shiftl (u8 (Z.shiftr f 8)) 8))) (u8 f) = f.
Proof.
  intros Hf. rewrite !u32_id by (rewrite Z.shiftl_mul_pow2, Z.shiftr_div_pow2 by lia; zwlia).
  apply Z.bits_inj'. intros i Hi. rewrite !Z.lor_spec. unfold u8.
  destruct (Z.ltb_spec i 8); [|destruct (Z.ltb_spec i 16); [|destruct (Z.ltb_spec i 24); [|destruct (Z.ltb_spec i 32)]]].
  all: rewrite ?(Z.shiftl_spec_low _ 8), ?(Z.shiftl_spec_low _ 16), ?(Z.shiftl_spec_low _ 24) by lia.
  all: rewrite ?Z.shiftl_spec by lia.
  all: rewrite ?Z.mod_pow2_bits_low by lia; rewrite ?Z.mod_pow2_bits_high by lia; rewrite ?Z.shiftr_spec by lia; rewrite ?orb_false_r, ?orb_false_l.
  all: try (rewrite (testbit_high f 32) by (unfold is_u32 in Hf; lia)); try done; f_equal; lia.
Qed.
Lemma read32 w f y i : is_u32 f → i = len w → unpackUint32 (w ++ enc32 f ++ y) i = Ok (f, i + 4).
Proof.
  intros Hf ->. unfold unpackUint32. rewrite !len_app, len_enc32. pose proof (len_nonneg y).
  rewrite Z.gtb_ltb, (proj2 (Z.ltb_ge _ _)) by lia. rewrite at_start, !at_shift by lia.
  change (at_ (enc32 f ++ y) 0) with (Ok (u8 (Z.shiftr f 24))). change (at_ (enc32 f ++ y) 1) with (Ok (u8 (Z.shiftr f 16))).
  change (at_ (enc32 f ++ y) 2) with (Ok (u8 (Z.shiftr f 8))). change (at_ (enc32 f ++ y) 3) with (Ok (u8 f)).
  cbn [mbind res_bind]. by rewrite bytes32.
Qed.
Lemma skip32 w f y i : i = len w → skipUint32 (w ++ enc32 f ++ y) i = Ok (i + 4).
Proof. intros ->. unfold skipUint32. rewrite !len_app, len_enc32. pose proof (len_nonneg y). by rewrite Z.gtb_ltb, (proj2 (Z.ltb_ge _ _)) by lia. Qed.

(** ** The header *)
Definition header_ok (m : Header) : Prop := is_u16 (ID m) ∧ 0 <= OpCode m < 16 ∧ 0 <= RCode m < 16.
Definition numbers (n : nat) : list Z := map Z.of_nat (seq 0 n).
Lemma numbers_elem n x : 0 <= x < Z.of_nat n → In x (numbers n).
Proof. intros Hx. apply in_map_iff. exists (Z.to_nat x). split; [lia|]. apply in_seq. lia. Qed.
Definition all_bools (f : bool → bool) : bool := f true && f false.
Lemma all_bools_spec f b : all_bools f = true → f b = true.
Proof. unfold all_bools. intros [? ?]%andb_true_iff. by destruct b. Qed.
#[local] Instance Header_eq_dec : EqDecision Header.
Proof. solve_decision. Defined.
Lemma Header_bits m : header_ok m → header_header (MkWireHeader (fst (Header_pack m)) (snd (Header_pack m)) 0 0 0 0) = m ∧ is_u16 (snd (Header_pack m)).
Proof.
  destruct m as [i r o a t d v n c k]. intros (_&Ho&Hk). cbn in Ho, Hk.
  assert (H : forallb (λ o, forallb (λ k, all_bools (λ r, all_bools (λ a, all_bools (λ t, all_bools (λ d, all_bools (λ v, all_bools (λ n, all_bools (λ c,
    let m := MkHeader 0 r o a t d v n c k in
    bool_decide (header_header (MkWireHeader 0 (snd (Header_pack m)) 0 0 0 0) = m) && (0 <=? snd (Header_pack m)) && (snd (Header_pack m) <? 2 ^ 16)))))))))
    (numbers 16)) (numbers 16) = true) by (vm_compute; reflexivity).
  rewrite forallb_forall in H. specialize (H o (numbers_elem 16 o Ho)). rewrite forallb_forall in H. specialize (H k (numbers_elem 16 k Hk)).
  apply (all_bools_spec _ r), (all_bools_spec _ a), (all_bools_spec _ t), (all_bools_spec _ d), (all_bools_spec _ v), (all_bools_spec _ n), (all_bools_spec _ c) in H.
  apply andb_true_iff in H as [[H%bool_decide_eq_true H1]%andb_true_iff H2].
  split; [|unfold is_u16; change (snd (Header_pack (MkHeader i r o a t d v n c k))) with (snd (Header_pack (MkHeader 0 r o a t d v n c k))); lia].
  change (snd (Header_pack (MkHeader i r o a t d v n c k))) with (snd (Header_pack (MkHeader 0 r o a t d v n c k))).
  set (B := snd (Header_pack (MkHeader 0 r o a t d v n c k))) in *.
  transitivity (let m := header_header (MkWireHeader 0 B 0 0 0 0) in
    MkHeader i (Response m) (OpCode m) (Authoritative m) (Truncated m) (RecursionDesired m) (RecursionAvailable m) (AuthenticData m) (CheckingDisabled m) (RCode m));
    [reflexivity|by rewrite H].
Qed.
Definition enc_header (h : header) : bytes := enc16 (id h) ++ enc16 (bits h) ++ enc16 (questions h) ++ enc16 (answers h) ++ enc16 (authorities h) ++ enc16 (additionals h).
Lemma header_pack_enc h b : header_pack h b = b ++ enc_header h.
Proof. unfold header_pack, packUint16, enc_header, enc16. by rewrite <- !app_assoc. Qed.
Definition wire_ok (h : header) : Prop :=
  is_u16 (id h) ∧ is_u16 (bits h) ∧ is_u16 (questions h) ∧ is_u16 (answers h) ∧ is_u16 (authorities h) ∧ is_u16 (additionals h).
(** Reading goes on after what was read. *)
Lemma then16 w x f y i : is_u16 f → i = len w + len x → unpackUint16 (w ++ x ++ enc16 f ++ y) i = Ok (f, i + 2).
Proof. intros Hf ->. rewrite app_assoc. apply read16; [done|by rewrite len_app]. Qed.
Lemma then32 w x f y i : is_u32 f → i = len w + len x → unpackUint32 (w ++ x ++ enc32 f ++ y) i = Ok (f, i + 4).
Proof. intros Hf ->. rewrite app_assoc. apply read32; [done|by rewrite len_app]. Qed.
Lemma first16 f y : is_u16 f → unpackUint16 (enc16 f ++ y) 0 = Ok (f, 2).
Proof. intros Hf. by apply (read16 [] f y 0). Qed.
Lemma header_read h y : wire_ok h → header_unpack (enc_header h ++ y) 0 = Ok (h, 12).
Proof.
  intros (H1&H2&H3&H4&H5&H6). unfold header_unpack, enc_header. rewrite <- !app_assoc.
  rewrite first16 by done. cbn [nest mbind res_bind]. rewrite (read16 (enc16 _)) by done. cbn [nest mbind res_bind].
  rewrite (then16 (enc16 _)) by done. cbn [nest mbind res_bind].
  rewrite (app_assoc (enc16 (bits h))). rewrite (then16 (enc16 _)) by done. cbn [nest mbind res_bind].
  rewrite (app_assoc (_ ++ _)). rewrite (then16 (enc16 _)) by done. cbn [nest mbind res_bind].
  rewrite (app_assoc (_ ++ _)). rewrite (then16 (enc16 _)) by done. by destruct h.
Qed.

(** ** Names *)
Definition text (ls : list bytes) : bytes := concat (map (λ l, l ++ "."%go) ls).
Definition no_dot (l : bytes) : Prop := Forall (λ v, v ≠ "."%byte) l.
Definition segment (l : bytes) : Prop := 0 < len l < 64 ∧ no_dot l.
(** A pointer to the place [q]. *)
Definition enc_pointer (q : Z) : bytes := [u8 (Z.lor (Z.shiftr q 8) 0xC0); u8 q].
(** At [p] the message spells the labels [ls] with [k] pointers; its own bytes
    end at [e]. *)
Inductive decodes (msg : bytes) : Z → list bytes → nat → Z → Prop :=
| dec_end p y w : msg = w ++ 0 :: y → p = len w → decodes msg p [] 0 (p + 1)
| dec_segment p w l y ls k e : msg = w ++ (len l :: l) ++ y → p = len w → segment l →
    decodes msg (p + 1 + len l) ls k e → decodes msg p (l :: ls) k e
| dec_pointer p w q y ls k e : msg = w ++ enc_pointer q ++ y → p = len w → 0 <= q < 2 ^ 14 →
    decodes msg q ls k e → decodes msg p ls (S k) (p + 2).
Lemma decodes_more msg p ls k e y : decodes msg p ls k e → decodes (msg ++ y) p ls k e.
Proof.
  induction 1 as [p z w -> ->|p w l z ls k e -> -> Hl _ IH|p w q z ls k e -> -> Hq _ IH].
  - apply (dec_end _ _ (z ++ y) w); [by rewrite <- app_assoc|reflexivity].
  - eapply (dec_segment _ _ w l (z ++ y)); [by rewrite <- !app_assoc|reflexivity|done|done].
  - eapply (dec_pointer _ _ w q (z ++ y)); [by rewrite <- !app_assoc|reflexivity|done|done].
Qed.

(** *** The loop that reads a name has fuel enough *)
Definition turns (msg : bytes) (currOff ptr : Z) : Z :=
  (10 - ptr) * (len msg + 1) + Z.max 0 (len msg - currOff) + 1.
Lemma at_byte msg i : is_bytes msg → 0 <= i < len msg → ∃ c, at_ msg i = Ok c ∧ is_u8 c.
Proof.
  intros Hm Hi. pose proof (safe_at msg i Hi) as Hs. destruct (at_ msg i) as [c|e|m] eqn:E; cbn [safe] in Hs; [|exfalso; revert E; unfold at_; destruct (i <? 0), (msg !! Z.to_nat i); discriminate|done].
  exists c. split; [done|by apply is_bytes_lookup in Hs].
Qed.
Lemma slice_total {A} (l : list A) i j : 0 <= i <= j → j <= len l → ∃ t, slice l i j = Ok t.
Proof. intros. rewrite slice_ok by lia. by eexists. Qed.
Lemma unpack_loop_enough msg allow fuel : is_bytes msg → ∀ fuel' currOff newOff ptr name, 0 <= currOff → 0 <= ptr <= 10 →
  turns msg currOff ptr <= Z.of_nat fuel → turns msg currOff ptr <= Z.of_nat fuel' →
  unpack_loop fuel msg allow currOff newOff ptr name = unpack_loop fuel' msg allow currOff newOff ptr name ∧
  safe (λ '(_, c, n, k), 0 <= c ∧ 0 <= k ∧ (0 <= newOff → 0 <= n)) (unpack_loop fuel msg allow currOff newOff ptr name).
Proof.
  intros Hm. unfold turns. induction fuel as [|fuel IH]; intros [|fuel'] currOff newOff ptr name Hc Hp Hf Hf'; pose proof (len_nonneg msg);
    assert (0 <= (10 - ptr) * (len msg + 1)) by nia; try lia.
  cbn [unpack_loop]. destruct (Z.geb_spec currOff (len msg)); [by repeat split|].
  destruct (at_byte msg currOff) as (c&->&Hu); [done|lia|]. cbn [mbind res_bind]. unfold is_u8 in Hu.
  destruct (Z.land c 0xC0 =? 0).
  { destruct (Z.eqb_spec c 0); [split; [reflexivity|cbn; lia]|]. destruct (currOff + 1 + c >? len msg) eqn:Eg; [by repeat split|].
    destruct (slice_total msg (currOff + 1) (currOff + 1 + c)) as [seg ->]; [lia|lia|]. cbn [mbind res_bind].
    destruct (existsb _ seg); [by repeat split|]. apply IH; lia. }
  destruct (Z.land c 0xC0 =? 0xC0); [|by repeat split]. destruct (negb allow); [by repeat split|]. destruct (Z.geb_spec (currOff + 1) (len msg)); [by repeat split|].
  destruct (at_byte msg (currOff + 1)) as (c1&->&Hu1); [done|lia|]. cbn [mbind res_bind]. unfold is_u8 in Hu1.
  destruct (ptr + 1 >? 10) eqn:Ep; [by repeat split|].
  replace ((10 - ptr) * (len msg + 1)) with ((10 - (ptr + 1)) * (len msg + 1) + (len msg + 1)) in Hf, Hf' by ring.
  assert (Ht : 0 <= Z.lor (Z.shiftl (Z.lxor c 0xC0) 8) c1).
  { apply Z.lor_nonneg. split; [|lia]. apply Z.shiftl_nonneg, Z.lxor_nonneg. lia. }
  destruct (IH fuel' (Z.lor (Z.shiftl (Z.lxor c 0xC0) 8) c1) (if ptr =? 0 then currOff + 1 + 1 else newOff) (ptr + 1) name) as [E Hs]; [done|lia|lia|lia|].
  split; [exact E|]. eapply safe_mono; [exact Hs|]. intros [[[n0 c0] n] k] (G1&G2&G3). split; [done|]. split; [done|]. intros Hn. apply G3. destruct (ptr =? 0); lia.
Qed.
Lemma unpack_fuel msg : turns msg 0 0 <= Z.of_nat (11 * S (length msg)).
Proof. unfold turns, len. lia. Qed.

(** *** Reading a spelled name *)
Lemma pointer_bits q : 0 <= q < 2 ^ 14 →
  let c := u8 (Z.lor (Z.shiftr q 8) 0xC0) in
  Z.land c 0xC0 = 0xC0 ∧ Z.lor (Z.shiftl (Z.lxor c 0xC0) 8) (u8 q) = q.
Proof.
  intros Hq c. assert (Hs : 0 <= Z.shiftr q 8 < 2 ^ 6) by (rewrite Z.shiftr_div_pow2 by lia; zwlia).
  assert (Hc : c = Z.lor (Z.shiftr q 8) 0xC0).
  { unfold c. apply u8_id. unfold is_u8. apply lor_range; lia. }
  rewrite Hc. assert (Hz : Z.land (Z.shiftr q 8) 0xC0 = 0).
  { change 0xC0 with (Z.shiftl 3 6). apply Z.bits_inj'. intros i Hi. rewrite Z.land_spec, Z.bits_0.
    destruct (Z.ltb_spec i 6); [by rewrite (Z.shiftl_spec_low _ _ i), andb_false_r by lia|by rewrite (testbit_high (Z.shiftr q 8) 6)]. }
  split.
  - rewrite Z.land_lor_distr_l, Hz. done.
  - replace (Z.lxor (Z.lor (Z.shiftr q 8) 0xC0) 0xC0) with (Z.shiftr q 8).
    + rewrite lor_shift_add by (try apply u8_range; lia). rewrite Z.shiftr_div_pow2 by lia. zwlia.
    + rewrite <- Z.lxor_lor by done. rewrite Z.lxor_assoc, Z.lxor_nilpotent. by rewrite Z.lxor_0_r.
Qed.
Lemma segment_byte l : segment l → Z.land (len l) 0xC0 = 0.
Proof.
  intros [Hl _]. change 0xC0 with (Z.shiftl 3 6). apply Z.bits_inj'. intros i Hi. rewrite Z.land_spec, Z.bits_0.
  destruct (Z.ltb_spec i 6); [by rewrite (Z.shiftl_spec_low _ _ i), andb_false_r by lia|by rewrite (testbit_high (len l) 6) by lia].
Qed.
Lemma no_dot_exists l : no_dot l → existsb (λ v, v =? "."%byte) l = false.
Proof. induction 1 as [|v l Hv _ IH]; [done|]. cbn [existsb]. by rewrite (proj2 (Z.eqb_neq _ _) Hv), IH. Qed.
Lemma slice_part {A} (w l y : list A) i j : i = len w → j = i + len l → slice (w ++ l ++ y) i j = Ok l.
Proof. intros -> ->. by apply slice_mid. Qed.
Lemma unpack_decodes msg allow p ls k e : decodes msg p ls k e → (k = 0%nat ∨ allow = true) →
  ∀ ptr newOff name, 0 <= ptr → ptr + Z.of_nat k <= 10 →
  ∃ fuel cur, unpack_loop fuel msg allow p newOff ptr name =
    Ok (name ++ text ls, cur, if (k =? 0)%nat then newOff else if ptr =? 0 then e else newOff, ptr + Z.of_nat k) ∧
    (k = 0%nat → cur = e).
Proof.
  induction 1 as [p y w -> ->|p w l y ls k e -> -> Hl Hd IH|p w q y ls k e -> -> Hq Hd IH]; intros Ha ptr newOff name Hp Hk.
  - exists 1%nat, (len w + 1). cbn [unpack_loop]. rewrite len_app, len_cons. pose proof (len_nonneg y). rewrite Z.geb_leb, (proj2 (Z.leb_gt _ _)) by lia.
    rewrite at_start. change (at_ (0 :: y) 0) with (Ok 0). cbn [mbind res_bind]. rewrite Z.land_0_l. cbn [Z.eqb Nat.eqb text map concat].
    split; [|done]. rewrite app_nil_r. do 3 f_equal. lia.
  - destruct (IH Ha ptr newOff (name ++ l ++ "."%go) Hp Hk) as (fuel&cur&E&Hc). exists (S fuel), cur. split; [|done]. cbn [unpack_loop].
    assert (Hlen : len (w ++ (len l :: l) ++ y) = len w + 1 + len l + len y) by (rewrite !len_app, len_cons; lia).
    pose proof (len_nonneg y). pose proof (proj1 Hl). rewrite Z.geb_leb, (proj2 (Z.leb_gt _ _)) by lia.
    rewrite at_start. change (at_ ((len l :: l) ++ y) 0) with (Ok (len l)). cbn [mbind res_bind]. rewrite segment_byte by done. cbn [Z.eqb].
    rewrite (proj2 (Z.eqb_neq _ _)) by lia. rewrite Z.gtb_ltb, (proj2 (Z.ltb_ge _ _)) by lia.
    replace (slice (w ++ (len l :: l) ++ y) (len w + 1) (len w + 1 + len l)) with (Ok l).
    2: { symmetry. replace (w ++ (len l :: l) ++ y) with ((w ++ [len l]) ++ l ++ y) by (by rewrite <- app_assoc). apply slice_part; [by rewrite len_app|done]. }
    cbn [mbind res_bind]. rewrite no_dot_exists by apply Hl. rewrite E. unfold text. cbn [map concat]. by rewrite <- !app_assoc.
  - destruct (IH ltac:(by right; destruct Ha) (ptr + 1) (if ptr =? 0 then len w + 2 else newOff) name) as (fuel&cur&E&Hc); [lia|lia|].
    destruct Ha as [Ha| ->]; [done|]. exists (S fuel), cur. split; [|done]. cbn [unpack_loop].
    assert (Hlen : len (w ++ enc_pointer q ++ y) = len w + 2 + len y) by (rewrite !len_app; change (len (enc_pointer q)) with 2; lia).
    pose proof (len_nonneg y). rewrite Z.geb_leb, (proj2 (Z.leb_gt _ _)) by lia.
    destruct (pointer_bits q Hq) as [B1 B2]. rewrite at_start, at_shift by lia.
    change (at_ (enc_pointer q ++ y) 0) with (Ok (u8 (Z.lor (Z.shiftr q 8) 0xC0))). change (at_ (enc_pointer q ++ y) 1) with (Ok (u8 q)). cbn [mbind res_bind].
    rewrite B1. cbn [Z.eqb Pos.eqb negb]. rewrite Z.geb_leb, (proj2 (Z.leb_gt _ _)) by lia. cbn [mbind res_bind].
    rewrite Z.gtb_ltb, (proj2 (Z.ltb_ge _ _)) by lia. rewrite B2. replace (len w + 1 + 1) with (len w + 2) by lia. rewrite E. cbn [Nat.eqb].
    rewrite (proj2 (Z.eqb_neq (ptr + 1) 0)) by lia. replace (ptr + 1 + Z.of_nat k) with (ptr + Z.of_nat (S k)) by lia. by destruct (k =? 0)%nat, (ptr =? 0).
Qed.
(** A name as the source keeps it: its text, and zeros up to 255 bytes. *)
Definition name_of (s : bytes) : Name := MkName (name_data s) (len s).
(** The text of a name with these labels. *)
Definition spelling (ls : list bytes) : bytes := match ls with [] => "."%go | _ => text ls end.
Lemma text_nil ls : Forall segment ls → text ls = [] → ls = [].
Proof. destruct ls as [|l ls]; [done|]. intros _ E. unfold text in E. cbn [map concat] in E. by destruct l. Qed.
Lemma unpack_loop_more msg allow n fuel : ∀ currOff newOff ptr name r,
  unpack_loop fuel msg allow currOff newOff ptr name = Ok r → unpack_loop (fuel + n) msg allow currOff newOff ptr name = Ok r.
Proof.
  induction fuel as [|fuel IH]; intros currOff newOff ptr name r; [done|]. cbn [unpack_loop Nat.add].
  destruct (currOff >=? len msg); [done|]. destruct (at_ msg currOff) as [c|e|m]; [|done|done]. cbn [mbind res_bind].
  destruct (Z.land c 0xC0 =? 0).
  - destruct (c =? 0); [done|]. destruct (_ >? _); [done|]. destruct (slice _ _ _) as [seg|e|m]; [|done|done]. cbn [mbind res_bind].
    destruct (existsb _ seg); [done|]. apply IH.
  - destruct (Z.land c 0xC0 =? 0xC0); [|done]. destruct (negb allow); [done|]. destruct (_ >=? _); [done|].
    destruct (at_ msg _) as [c1|e|m]; [|done|done]. cbn [mbind res_bind]. destruct (_ >? 10); [done|]. apply IH.
Qed.
Lemma Name_unpack_decodes msg allow p ls k e : is_bytes msg → 0 <= p → Forall segment ls → decodes msg p ls k e → (k = 0%nat ∨ allow = true) →
  (k <= 10)%nat → len (spelling ls) <= 254 → Name_unpackCompressed msg p allow = Ok (name_of (spelling ls), e).
Proof.
  intros Hm Hp Hls Hd Ha Hk Hlen. destruct (unpack_decodes msg allow p ls k e Hd Ha 0 p []) as (fuel&cur&E&Hc); [lia|lia|].
  unfold Name_unpackCompressed. pose proof (unpack_fuel msg) as Hfuel. unfold turns in Hfuel.
  destruct (unpack_loop_enough msg allow (11 * S (length msg)) Hm (fuel + 11 * S (length msg)) p p 0 [] Hp) as [-> _]; [lia|unfold turns; lia..|].
  rewrite (unpack_loop_more _ _ _ _ _ _ _ _ _ E). cbn [mbind res_bind app].
  assert (Es : (if len (text ls) =? 0 then "."%go else text ls) = spelling ls).
  { destruct ls as [|l ls]; [done|]. cbn [spelling]. rewrite (proj2 (Z.eqb_neq _ _)); [done|]. intros E0. apply (text_nil (l :: ls)) in Hls; [done|].
    by destruct (text (l :: ls)). }
  rewrite Es. unfold nonEncodedNameMax. rewrite Z.gtb_ltb, (proj2 (Z.ltb_ge _ _)) by lia. unfold name_of.
  rewrite u8_id by (pose proof (len_nonneg (spelling ls)); unfold is_u8; lia). do 3 f_equal.
  destruct k as [|k]; cbn [Nat.eqb Z.of_nat]; [by rewrite Hc|]. by rewrite (proj2 (Z.eqb_neq _ _)) by lia.
Qed.

(** *** The compression table points at what it says *)
Definition good (w key : bytes) (q : Z) : Prop :=
  0 <= q < 2 ^ 14 ∧ ∃ ls k e, key = text ls ∧ Forall segment ls ∧ (k < length ls)%nat ∧ decodes w q ls k e.
Definition held (T : table) (key : bytes) (q : Z) : Prop := match T with Some m => m !! key = Some q | None => False end.
Definition valid (w : bytes) (T : table) : Prop := ∀ key q, held T key q → good w key q.
Lemma good_more w key q y : good w key q → good (w ++ y) key q.
Proof. intros (Hq&ls&k&e&E&Hs&Hk&Hd). split; [done|]. exists ls, k, e. repeat (split; [done|]). by apply decodes_more. Qed.
Lemma valid_more w T y : valid w T → valid (w ++ y) T.
Proof. intros H key q Hk. by apply good_more, H. Qed.

(** *** The bytes of a name *)
Fixpoint enc_loop (s seg : bytes) (pos : Z) : stateful table bytes :=
  match s with
  | [] => mret [0]
  | c :: rest =>
      if c =? "."%byte then
        if len seg >=? 64 then fail errSegTooLong
        else if len seg =? 0 then fail errZeroSegLen
        else x ← enc_loop rest [] (pos + (1 + len seg)); mret ((len seg :: seg) ++ x)
      else
        hit ← (if len seg =? 0 then compress s pos else mret None);
        match hit with Some ptr => mret (enc_pointer ptr) | None => enc_loop rest (seg ++ [c]) pos end
  end.
(** [f], given a message and where it begins, appends what [e] says. *)
Definition encoder : Type := Z → stateful table bytes.
Definition packs (f : bytes → Z → stateful table bytes) (e : encoder) : Prop :=
  ∀ msg off T, f msg off T = (x ← e (len msg - off); mret (msg ++ x) : stateful table bytes) T.
Lemma pack_loop_enc s : ∀ seg, packs (pack_loop s seg) (enc_loop s seg).
Proof.
  induction s as [|c s IH]; intros seg msg off T; cbn [pack_loop enc_loop]; [done|].
  destruct (c =? "."%byte).
  - destruct (Z.geb_spec (len seg) 64) as [Hs|Hs]; [done|]. destruct (len seg =? 0); [done|]. rewrite IH.
    rewrite len_app, len_app. change (len [u8 (len seg)]) with 1. replace (len msg + (1 + len seg) - off) with (len msg - off + (1 + len seg)) by lia.
    unfold mbind, stateful_bind. destruct (enc_loop s [] _ T) as [[x|e|m] T']; [|done|done]. unfold mret, stateful_ret.
    pose proof (len_nonneg seg). rewrite u8_id by (unfold is_u8; lia). by rewrite <- !app_assoc.
  - unfold mbind, stateful_bind. destruct ((if len seg =? 0 then compress (c :: s) (len msg - off) else mret None) T) as [[[q|]|e|m] T']; [done| |done|done]. apply IH.
Qed.

Lemma no_dot_last l : no_dot l → list.last l ≠ Some "."%byte.
Proof.
  intros Hl E. pose proof (last_Some_elem_of l _ E) as Hin. unfold no_dot in Hl. rewrite list.Forall_forall in Hl. by apply (Hl "."%byte).
Qed.
(** What follows the table's step on the suffix [s] when it is not found. *)
Lemma compress_spec s pos T : 0 <= pos → ∃ r T', compress s pos T = (Ok r, T') ∧
  match r with
  | Some q => held T s q ∧ T' = T
  | None => ∀ key q, held T' key q → held T key q ∨ key = s ∧ q = pos ∧ pos < 2 ^ 14
  end ∧ (T = None → r = None ∧ T' = None).
Proof.
  intros Hp. unfold compress, get, mbind, stateful_bind. destruct T as [m|]; [|exists None, None; repeat split; auto].
  destruct (m !! s) as [q|] eqn:E; [exists (Some q), (Some m); repeat split; auto; done|].
  destruct (Z.leb_spec pos 0x3FFF).
  - exists None, (Some (<[s := u16 pos]> m)). split; [done|]. split; [|done]. intros key q. cbn [held]. rewrite u16_id by (unfold is_u16; lia).
    destruct (decide (key = s)) as [->|Hn]; [rewrite lookup_insert_eq; intros [= <-]; right; repeat split; lia|]. rewrite lookup_insert_ne by done. by left.
  - exists None, (Some m). split; [done|]. split; [|done]. intros key q. by left.
Qed.
Lemma len_enc_pointer q : len (enc_pointer q) = 2.
Proof. done. Qed.
(** The bytes spell the name, and the new entries of the table are good. *)
Lemma enc_loop_spec s : ∀ seg w T x T', enc_loop s seg (len w) T = (Ok x, T') → no_dot seg → (s = [] → seg = []) →
  (s = [] ∨ list.last s = Some "."%byte) → (∀ key q, held T key q → len key <= len s → good w key q) →
  ∃ ls k, Forall segment ls ∧ seg ++ s = text ls ∧ decodes (w ++ x) (len w) ls k (len (w ++ x)) ∧
    (k <= length ls)%nat ∧ (seg ≠ [] → (k < length ls)%nat) ∧ (T = None → k = 0%nat ∧ T' = None) ∧
    ∀ key q, held T' key q → held T key q ∨ good (w ++ x) key q.
Proof.
  induction s as [|c s IH]; intros seg w T x T' E Hseg Hs0 Hlast Hgood; cbn [enc_loop] in E.
  { injection E as <- <-. rewrite (Hs0 eq_refl). exists [], 0%nat. repeat split; auto; try done.
    rewrite len_app. change (len [0]) with 1. by apply (dec_end _ _ [] w). }
  assert (Hlast' : s = [] ∨ list.last s = Some "."%byte).
  { destruct s as [|d s]; [by left|]. right. destruct Hlast as [?|Hlast]; [done|]. exact Hlast. }
  destruct (Z.eqb_spec c "."%byte) as [->|Hc].
  - destruct (Z.geb_spec (len seg) 64); [done|]. destruct (Z.eqb_spec (len seg) 0) as [|Hn]; [done|].
    unfold mbind, stateful_bind in E. pose proof (len_nonneg seg).
    destruct (enc_loop s [] (len w + (1 + len seg)) T) as [[x1|e|m] T1] eqn:E1; [|done|done]. injection E as <- <-.
    assert (Hw : len (w ++ len seg :: seg) = len w + (1 + len seg)) by (rewrite len_app, len_cons; lia). rewrite <- Hw in E1.
    destruct (IH [] _ _ _ _ E1) as (ls&k&Hls&Et&Hd&Hk&_&HN&HT); [constructor|done|done| |].
    { intros key q Hk Hl. apply good_more, Hgood; [done|]. rewrite len_cons. lia. }
    rewrite <- !app_assoc in *. cbn [app] in *. exists (seg :: ls), k.
    assert (Hsg : segment seg) by (split; [lia|done]).
    split; [by constructor|]. split; [unfold text in *; cbn [map concat]; rewrite <- Et; by rewrite <- app_assoc|].
    split; [|split; [cbn [length]; lia|split; [cbn [length]; lia|split; [exact HN|exact HT]]]].
    apply (dec_segment _ _ w seg x1); [reflexivity|reflexivity|done|]. rewrite Hw in Hd. by replace (len w + 1 + len seg) with (len w + (1 + len seg)) by lia.
  - unfold mbind, stateful_bind in E.
    destruct (Z.eqb_spec (len seg) 0) as [Hz|Hn].
    + assert (seg = []) as -> by (destruct seg; [done|rewrite len_cons in Hz; pose proof (len_nonneg seg); lia]). cbn [app] in *.
      destruct (compress_spec (c :: s) (len w) T (len_nonneg w)) as (r&T1&EC&HC&HN). rewrite EC in E. destruct r as [q|].
      * injection E as <- <-. destruct HC as [Hq ->]. destruct (Hgood _ _ Hq (Z.le_refl _)) as (Hq2&ls&k&e&Et&Hls&Hk&Hd).
        exists ls, (S k). split; [done|]. split; [done|]. split.
        { rewrite len_app, len_enc_pointer. eapply (dec_pointer _ _ w q []); [by rewrite app_nil_r|done|done|]. by apply decodes_more. }
        split; [lia|]. split; [done|]. split; [intros HT; by apply HN in HT as []|]. intros key q'. by left.
      * destruct (IH [c] w T1 x T') as (ls&k&Hls&Et&Hd&Hk&Hk1&HN1&HT); [exact E|by constructor| |done| |].
        { intros ->. by destruct Hlast as [|[= ->]]. }
        { intros key q Hk Hl. destruct (HC key q Hk) as [Hk'|(->&_)]; [|rewrite len_cons in Hl; lia]. apply Hgood; [done|]. rewrite len_cons. lia. }
        exists ls, k. repeat (split; [done|]). split; [intros HT0; apply HN1; by apply HN in HT0 as []|].
        intros key q Hk2. destruct (HT key q Hk2) as [Hk'|]; [|by right]. destruct (HC key q Hk') as [|(->&->&Hp)]; [by left|]. right.
        split; [pose proof (len_nonneg w); lia|]. exists ls, k, (len (w ++ x)). repeat (split; [done|]). split; [by apply Hk1|done].
    + destruct (IH (seg ++ [c]) w T x T') as (ls&k&Hls&Et&Hd&Hk&Hk1&HN1&HT); [exact E| | |done| |].
      * apply list.Forall_app. split; [done|by constructor].
      * intros ->. by destruct Hlast as [|[= ->]].
      * intros key q Hk Hl. apply Hgood; [done|]. rewrite len_cons. lia.
      * rewrite <- app_assoc in Et. exists ls, k. repeat (split; [done|]). split; [|by split]. intros _. apply Hk1. by destruct seg.
Qed.

(** *** Names as a whole *)
Definition dots (s : bytes) : nat := length (List.filter (λ v, v =? "."%byte) s).
Lemma dots_app a b : dots (a ++ b) = (dots a + dots b)%nat.
Proof. unfold dots. by rewrite List.filter_app, length_app. Qed.
Lemma dots_text ls : Forall segment ls → dots (text ls) = length ls.
Proof.
  induction 1 as [|l ls [_ Hl] _ IH]; [done|]. unfold text in *. cbn [map concat]. rewrite dots_app, IH, dots_app.
  replace (dots l) with 0%nat; [done|]. unfold dots. induction Hl as [|v l Hv _ IHl]; [done|]. cbn [List.filter]. by rewrite (proj2 (Z.eqb_neq _ _) Hv).
Qed.
Definition enc_name (n : Name) : encoder := λ pos,
  if Length n >? nonEncodedNameMax then fail errNameTooLong
  else
    dot ← (if Length n =? 0 then mret false else c ← lift (at_ (Data n) (Length n - 1)); mret (c =? "."%byte));
    if negb dot then fail errNonCanonicalName
    else
      c ← lift (at_ (Data n) 0);
      if (c =? "."%byte) && (Length n =? 1) then mret [0]
      else s ← lift (upto (Data n) (Length n)); enc_loop s [] pos.
Lemma Name_pack_enc n : packs (Name_pack n) (enc_name n).
Proof.
  intros msg off T. unfold Name_pack, enc_name. destruct (Length n >? nonEncodedNameMax); [reflexivity|]. unfold mbind, stateful_bind, lift.
  destruct (Length n =? 0); [reflexivity|]. destruct (at_ (Data n) (Length n - 1)) as [c0|e|m]; [|reflexivity|reflexivity]. cbn [mret stateful_ret].
  destruct (negb _); [reflexivity|]. destruct (at_ (Data n) 0) as [c|e|m]; [|reflexivity|reflexivity]. destruct (_ && _); [reflexivity|].
  destruct (upto _ _) as [s|e|m]; [|reflexivity|reflexivity]. apply pack_loop_enc.
Qed.
(** What a name must be for its text to be what it is: at most 255 bytes and
    zeros after them. *)
Definition name_ok (n : Name) : Prop := ∃ s, n = name_of s ∧ len s <= 255 ∧ is_bytes s.
(** At most ten labels: any table leads to them by at most ten pointers. *)
Definition shallow (n : Name) : Prop := (dots (take (Z.to_nat (Length n)) (Data n)) <= 10)%nat.
Lemma name_of_text s : len s <= 255 → upto (Data (name_of s)) (Length (name_of s)) = Ok s.
Proof. intros _. by apply upto_app. Qed.
Lemma name_of_last s c : upto (Data (name_of (s ++ [c]))) (len (s ++ [c])) = Ok (s ++ [c]) ∧ at_ (Data (name_of (s ++ [c]))) (len (s ++ [c]) - 1) = Ok c.
Proof.
  split; [by apply upto_app|]. cbn [Data name_of]. unfold name_data. rewrite <- app_assoc, len_app. change (len [c]) with 1.
  replace (len s + 1 - 1) with (len s) by lia. by rewrite at_start.
Qed.
(** A name that packs is the root or text that ends in a dot, and not too long. *)
Lemma enc_name_inv s pos T x T' : len s <= 255 → enc_name (name_of s) pos T = (Ok x, T') →
  len s <= 254 ∧ (s = "."%go ∧ x = [0] ∧ T' = T ∨ s ≠ [] ∧ s ≠ "."%go ∧ list.last s = Some "."%byte ∧ enc_loop s [] pos T = (Ok x, T')).
Proof.
  intros Hs. unfold enc_name. cbn [Length name_of]. unfold nonEncodedNameMax. destruct (Z.gtb_spec (len s) 254); [done|].
  destruct (Z.eqb_spec (len s) 0) as [|Hn]; [done|]. destruct s as [|c0 s0 _] using rev_ind; [done|].
  destruct (name_of_last s0 c0) as [Hu Ha]. unfold mbind, stateful_bind, lift. cbn [Length name_of] in *. rewrite Ha.
  unfold mret, stateful_ret. destruct (Z.eqb_spec c0 "."%byte) as [->|]; cbn [negb]; [|done].
  destruct s0 as [|d s0]; cbn [app].
  - cbn. intros [= <- <-]. split; [done|]. by left.
  - change (at_ (Data (name_of (d :: s0 ++ ["."%byte]))) 0) with (Ok d). cbn [app] in Hu. rewrite Hu.
    assert (Hl : len (d :: s0 ++ ["."%byte]) ≠ 1) by (rewrite len_cons, len_app; change (len ["."%byte]) with 1; pose proof (len_nonneg s0); lia).
    rewrite (proj2 (Z.eqb_neq _ _) Hl), andb_false_r. intros E. split; [done|]. right. split; [done|].
    split; [intros [= _ E0]; by destruct s0|]. split; [|done]. change (d :: s0 ++ ["."%byte]) with ((d :: s0) ++ ["."%byte]). by rewrite last_snoc.
Qed.
Lemma shallow_name s : shallow (name_of s) ↔ (dots s <= 10)%nat.
Proof. unfold shallow. cbn [Length Data name_of]. unfold name_data, len. by rewrite Nat2Z.id, take_app_length. Qed.
Lemma name_spec n w T x T' : name_ok n → (shallow n ∨ T = None) → valid w T → enc_name n (len w) T = (Ok x, T') →
  valid (w ++ x) T' ∧ (T = None → T' = None) ∧
  ∀ y allow, is_bytes (w ++ x ++ y) → (allow = true ∨ T = None) → Name_unpackCompressed (w ++ x ++ y) (len w) allow = Ok (n, len w + len x).
Proof.
  intros (s&->&Hs&_) Hsh HT E. apply enc_name_inv in E as [H254 [(->&->&->)|(Hn&Hr&Hl&E)]]; [| |done].
  - split; [by apply valid_more|]. split; [done|]. intros y allow Hb _. change (len [0]) with 1.
    apply (Name_unpack_decodes _ _ _ [] 0 (len w + 1)); [done|apply len_nonneg|constructor|by apply (dec_end _ _ y w)|by left|lia|done].
  - destruct (enc_loop_spec s [] w T x T' E) as (ls&k&Hls&Et&Hd&Hk&_&HN&HE); [constructor|done|by right|by intros key q Hk _; apply HT|].
    cbn [app] in Et. split; [intros key q Hq; apply HE in Hq as [Hq|Hq]; [by apply good_more, HT|done]|]. split; [intros ->; by apply HN|].
    intros y allow Hb Ha. assert (Esp : s = spelling ls) by (rewrite Et; by destruct ls; [rewrite Et in Hn|]).
    rewrite <- len_app. rewrite Esp. apply (Name_unpack_decodes _ _ _ ls k); [done|apply len_nonneg|done| | | |by rewrite <- Esp].
    + rewrite app_assoc. by apply decodes_more.
    + destruct Ha as [->|HTn]; [by right|]. left. by apply HN.
    + destruct Hsh as [Hsh|HTn]; [|apply HN in HTn as [-> _]; lia]. apply (proj1 (shallow_name s)) in Hsh. rewrite Et, dots_text in Hsh by done. lia.
Qed.
Lemma enc_loop_bytes s : ∀ seg pos T x T', is_bytes s → is_bytes seg → enc_loop s seg pos T = (Ok x, T') → is_bytes x.
Proof.
  assert (Hp : ∀ q, is_bytes (enc_pointer q)) by (intros q; repeat constructor; apply u8_range).
  induction s as [|c s IH]; intros seg pos T x T' Hs Hseg; cbn [enc_loop].
  { intros [= <- _]. repeat constructor; done. }
  inversion Hs as [|? ? Hc Hs']; subst. destruct (c =? "."%byte).
  - destruct (Z.geb_spec (len seg) 64); [done|]. destruct (len seg =? 0); [done|]. unfold mbind, stateful_bind.
    destruct (enc_loop s [] _ T) as [[x1|e|m] T1] eqn:E1; [|done|done]. intros [= <- _]. apply IH in E1; [|done|by constructor].
    constructor; [pose proof (len_nonneg seg); unfold is_u8; lia|]. by apply list.Forall_app.
  - unfold mbind, stateful_bind. destruct ((if len seg =? 0 then compress (c :: s) pos else mret None) T) as [[[q|]|e|m] T1]; [intros [= <- _]; apply Hp| |done|done].
    apply IH; [done|]. apply list.Forall_app. split; [done|constructor; [done|by constructor]].
Qed.
Lemma name_bytes n pos T x T' : name_ok n → enc_name n pos T = (Ok x, T') → is_bytes x.
Proof.
  intros (s&->&Hs&Hb) E. apply enc_name_inv in E as [_ [(_&->&_)|(_&_&_&E)]]; [by repeat constructor| |done].
  eapply enc_loop_bytes; [exact Hb|constructor|exact E].
Qed.
(** *** Names that can be packed *)
Definition canonical (n : Name) : Prop :=
  ∃ ls, n = name_of (spelling ls) ∧ Forall segment ls ∧ Forall is_bytes ls ∧ len (spelling ls) <= 254.
Lemma text_bytes_ok ls : Forall is_bytes ls → is_bytes (text ls).
Proof.
  induction 1 as [|l ls Hl _ IH]; [constructor|]. unfold text in *. cbn [map concat]. apply list.Forall_app. split; [|done].
  apply list.Forall_app. split; [done|]. by repeat constructor.
Qed.
Lemma canonical_ok n : canonical n → name_ok n.
Proof.
  intros (ls&->&_&Hb&Hl). exists (spelling ls). split; [done|]. split; [lia|]. destruct ls as [|l ls]; [by repeat constructor|]. by apply text_bytes_ok.
Qed.
(** A segment ahead is read up to its dot. *)
Lemma enc_loop_segment l rest : ∀ seg pos T, seg ≠ [] → no_dot l → len seg + len l < 64 →
  enc_loop (l ++ "."%byte :: rest) seg pos T =
  (x ← enc_loop rest [] (pos + (1 + len (seg ++ l))); mret ((len (seg ++ l) :: seg ++ l) ++ x) : stateful table bytes) T.
Proof.
  induction l as [|c l IH]; intros seg pos T Hs Hl Hlen; cbn [app].
  - cbn [enc_loop]. rewrite Z.eqb_refl, app_nil_r. change (len []) with 0 in Hlen. pose proof (len_pos_list seg Hs).
    rewrite Z.geb_leb, (proj2 (Z.leb_gt _ _)) by lia. by rewrite (proj2 (Z.eqb_neq _ _)) by lia.
  - inversion Hl as [|? ? Hc Hl']; subst. cbn [enc_loop]. rewrite (proj2 (Z.eqb_neq _ _) Hc). pose proof (len_pos_list seg Hs).
    rewrite (proj2 (Z.eqb_neq (len seg) 0)) by lia. rewrite len_cons in Hlen. unfold mbind at 1, stateful_bind at 1. cbn [mret stateful_ret].
    rewrite IH; [by rewrite <- app_assoc|by destruct seg|done|]. rewrite len_app. change (len [c]) with 1. lia.
Qed.
Lemma enc_loop_total ls : Forall segment ls → ∀ pos T, 0 <= pos → ∃ x T', enc_loop (text ls) [] pos T = (Ok x, T') ∧ len x <= len (text ls) + 1.
Proof.
  induction 1 as [|l ls [Hl Hd] _ IH]; intros pos T Hp; [by exists [0], T|].
  destruct l as [|c l]; [change (len []) with 0 in Hl; lia|]. inversion Hd as [|? ? Hc Hd']; subst. rewrite len_cons in Hl.
  assert (Et : text ((c :: l) :: ls) = c :: l ++ "."%byte :: text ls).
  { unfold text. cbn [map concat app]. by rewrite <- app_assoc. }
  rewrite Et. cbn [enc_loop]. rewrite (proj2 (Z.eqb_neq _ _) Hc). change (len [] =? 0) with true. cbn iota.
  destruct (compress_spec (c :: l ++ "."%byte :: text ls) pos T Hp) as (r&T1&EC&_). unfold mbind, stateful_bind. rewrite EC.
  pose proof (len_nonneg l). pose proof (len_nonneg (text ls)).
  destruct r as [q|]; [exists (enc_pointer q), T1; split; [done|]; rewrite len_enc_pointer, len_cons, len_app, len_cons; lia|].
  cbn [app]. rewrite enc_loop_segment; [|done|done|change (len [c]) with 1; lia].
  destruct (IH (pos + (1 + len ([c] ++ l))) T1) as (x&T2&E&Hx); [rewrite len_app; change (len [c]) with 1; lia|].
  unfold mbind, stateful_bind. rewrite E. eexists _, T2. split; [done|].
  change (len ([c] ++ l) :: [c] ++ l) with (len (c :: l) :: c :: l). rewrite !len_app, !len_cons, len_app, len_cons. lia.
Qed.
Lemma last_text ls l : list.last (text (ls ++ [l])) = Some "."%byte.
Proof. unfold text. rewrite map_app, concat_app. cbn [map concat]. rewrite app_nil_r, app_assoc. apply last_snoc. Qed.
Lemma enc_name_total n pos T : canonical n → 0 <= pos → ∃ x T', enc_name n pos T = (Ok x, T') ∧ len x <= 255.
Proof.
  intros (ls&->&Hls&_&Hlen) Hp. unfold enc_name. cbn [Length name_of]. unfold nonEncodedNameMax. rewrite Z.gtb_ltb, (proj2 (Z.ltb_ge _ _)) by lia.
  destruct ls as [|l ls]; [exists [0], T; by split|]. destruct (enc_loop_total (l :: ls) Hls pos T Hp) as (x&T'&E&Hx).
  assert (Hsp : spelling (l :: ls) = text (l :: ls)) by done. rewrite Hsp in *.
  assert (Hlast : ∃ s0, text (l :: ls) = s0 ++ ["."%byte]).
  { destruct (l :: ls) as [|l' ls' _] using rev_ind; [done|]. pose proof (last_text ls' l') as HL. destruct (text (ls' ++ [l'])) as [|c s _] using rev_ind; [done|].
    rewrite last_snoc in HL. injection HL as ->. by exists s. }
  destruct Hlast as [s0 Es]. rewrite Es in *. destruct (name_of_last s0 "."%byte) as [Hu Ha].
  assert (Hn : len (s0 ++ ["."%byte]) ≠ 0) by (rewrite len_app; change (len ["."%byte]) with 1; pose proof (len_nonneg s0); lia).
  rewrite (proj2 (Z.eqb_neq _ _) Hn). unfold mbind, stateful_bind, lift. rewrite Ha. cbn [mret stateful_ret negb Z.eqb Pos.eqb]. rewrite Hu.
  destruct s0 as [|c s0].
  { exfalso. apply list.Forall_cons in Hls as [[Hl _] _]. apply (f_equal len) in Es. unfold text in Es. cbn [map concat] in Es. rewrite !len_app in Es. change (len ["."%byte]) with 1 in Es.
    pose proof (len_nonneg (concat (map (λ l, l ++ "."%go) ls))). change (len []) with 0 in Es. lia. }
  change (at_ (Data (name_of ((c :: s0) ++ ["."%byte]))) 0) with (Ok c). exists x, T'. split; [|lia].
  rewrite (proj2 (Z.eqb_neq (len _) 1)); [by rewrite andb_false_r|]. rewrite len_app, len_cons. change (len ["."%byte]) with 1. pose proof (len_nonneg s0). lia.
Qed.
