(* ===== verification/DnsRecordsProps.v ===== *)
(** * dnsmessage: records on the wire

    Rules to reason about encoders by ([spec]), and for each body, question and
    record: its encoder, and that its bytes are read back as it. *)
From stdpp Require Import gmap.
From S2P Require Import Prelude Stateful DnsWire DnsRecords DnsWireProps.

(** ** Encoders of packing functions *)
Definition seq_enc (e1 e2 : encoder) : encoder := λ pos, x ← e1 pos; y ← e2 (pos + len x); mret (x ++ y).
Definition const_enc (c : bytes) : encoder := λ _, mret c.
Lemma packs_const c : packs (λ msg _, mret (msg ++ c)) (const_enc c).
Proof. done. Qed.
Lemma packs_catching g f e : packs f e → packs (λ msg off, catching g (f msg off)) (λ pos, catching g (e pos)).
Proof. intros H msg off T. unfold catching, mbind, stateful_bind. rewrite H. unfold mbind, stateful_bind. by destruct (e _ T) as [[x|x|x] T']. Qed.
Lemma packs_seq f g e1 e2 : packs f e1 → packs g e2 → packs (λ msg off, m ← f msg off; g m off) (seq_enc e1 e2).
Proof.
  intros Hf Hg msg off T. unfold seq_enc, mbind, stateful_bind. rewrite Hf. unfold mbind, stateful_bind.
  destruct (e1 _ T) as [[x|x|x] T1]; [|done|done]. cbn [mret stateful_ret]. rewrite Hg. unfold mbind, stateful_bind.
  replace (len (msg ++ x) - off) with (len msg - off + len x) by (rewrite len_app; lia).
  destruct (e2 _ T1) as [[y|y|y] T2]; [|done|done]. cbn [mret stateful_ret]. by rewrite <- app_assoc.
Qed.
Lemma packs_after f e c : packs f e → packs (λ msg off, f (msg ++ c) off) (seq_enc (const_enc c) e).
Proof. intros H msg off T. exact (packs_seq (λ msg _, mret (msg ++ c)) f (const_enc c) e (packs_const c) H msg off T). Qed.
Lemma packs_then f e c : packs f e → packs (λ msg off, m ← f msg off; mret (m ++ c)) (seq_enc e (const_enc c)).
Proof. intros H. exact (packs_seq f (λ msg _, mret (msg ++ c)) e (const_enc c) H (packs_const c)). Qed.
(** Names outside the table. *)
Definition no_table (e : encoder) : encoder := λ pos, zoom (λ _, None) (λ _ comp, comp) (e pos).
Lemma packs_no_table f e : packs f e → packs (λ msg off, zoom (λ _, None) (λ _ comp, comp) (f msg off)) (no_table e).
Proof. intros H msg off T. unfold no_table, zoom, mbind, stateful_bind. rewrite H. unfold mbind, stateful_bind. by destruct (e _ None) as [[x|x|x] T']. Qed.

(** ** What an encoder's bytes are *)
Definition spec (e : encoder) (P : bytes → bytes → Prop) : Prop :=
  ∀ w T x T', valid w T → e (len w) T = (Ok x, T') → valid (w ++ x) T' ∧ is_bytes x ∧ P w x.
Lemma spec_const c : is_bytes c → spec (const_enc c) (λ _ x, x = c).
Proof. intros Hc w T x T' HT [= <- <-]. split; [by apply valid_more|done]. Qed.
Lemma spec_seq e1 e2 P1 P2 : spec e1 P1 → spec e2 P2 → spec (seq_enc e1 e2) (λ w z, ∃ x y, z = x ++ y ∧ P1 w x ∧ P2 (w ++ x) y).
Proof.
  intros H1 H2 w T z T' HT. unfold seq_enc, mbind, stateful_bind. destruct (e1 (len w) T) as [[x|x|x] T1] eqn:E1; [|done|done].
  rewrite <- len_app. destruct (e2 (len (w ++ x)) T1) as [[y|y|y] T2] eqn:E2; [|done|done]. intros [= <- <-].
  destruct (H1 _ _ _ _ HT E1) as (HT1&Hx&HP1). destruct (H2 _ _ _ _ HT1 E2) as (HT2&Hy&HP2). rewrite app_assoc. split; [done|].
  split; [by apply list.Forall_app|]. by exists x, y.
Qed.
Lemma spec_catching g e P : spec e P → spec (λ pos, catching g (e pos)) P.
Proof. intros H w T x T' HT. unfold catching. destruct (e (len w) T) as [[y|y|y] T1] eqn:E; [|done|done]. intros [= <- <-]. by apply (H _ T). Qed.
Lemma spec_mono e (P Q : bytes → bytes → Prop) : spec e P → (∀ w x, P w x → Q w x) → spec e Q.
Proof. intros H HPQ w T x T' HT E. destruct (H _ _ _ _ HT E) as (?&?&?). auto. Qed.

(** The bytes [x] at the end of [w] are read as the name. *)
Definition reads (n : Name) (allow : bool) (w x : bytes) : Prop := ∀ M y p, M = w ++ x ++ y → p = len w → is_bytes M →
  Name_unpackCompressed M p allow = Ok (n, p + len x).
Definition name_good (n : Name) : Prop := canonical n ∧ shallow n.
Lemma spec_name n : name_good n → spec (enc_name n) (reads n true).
Proof.
  intros [Hn%canonical_ok Hs] w T x T' HT E. destruct (name_spec n w T x T' Hn (or_introl Hs) HT E) as (HT'&_&Hr). split; [done|].
  split; [by eapply name_bytes|]. intros M y p -> -> Hb. by apply Hr; [|left].
Qed.
Lemma spec_plain_name n : canonical n → spec (no_table (enc_name n)) (reads n false).
Proof.
  intros Hn%canonical_ok w T x T' HT. unfold no_table, zoom. destruct (enc_name n (len w) None) as [r T1] eqn:E. intros [= -> ->].
  destruct (name_spec n w None x T1 Hn (or_intror eq_refl)) as (_&_&Hr); [by intros ? ? ?|done|]. split; [by apply valid_more|].
  split; [by eapply name_bytes|]. intros M y p -> -> Hb. by apply Hr; [|right].
Qed.
Lemma enc16_bytes f : is_bytes (enc16 f).
Proof. constructor; [apply u8_range|]. constructor; [apply u8_range|constructor]. Qed.
Lemma enc32_bytes f : is_bytes (enc32 f).
Proof. do 4 (constructor; [apply u8_range|]). constructor. Qed.
Lemma is_bytes_app a b : is_bytes a → is_bytes b → is_bytes (a ++ b).
Proof. intros. by apply list.Forall_app. Qed.
#[export] Hint Resolve enc16_bytes enc32_bytes is_bytes_app : gorange.
Lemma get16 M w f y p : M = w ++ enc16 f ++ y → p = len w → is_u16 f → unpackUint16 M p = Ok (f, p + 2).
Proof. intros -> ? ?. by apply read16. Qed.
Lemma get32 M w f y p : M = w ++ enc32 f ++ y → p = len w → is_u32 f → unpackUint32 M p = Ok (f, p + 4).
Proof. intros -> ? ?. by apply read32. Qed.
(** Finds a piece of a message: the message is the concatenation of its pieces. *)
Ltac whole := rewrite <- ?app_assoc; reflexivity.
Ltac place := rewrite ?len_app, ?len_enc16, ?len_enc32; lia.

(** ** Questions *)
Definition enc_question (q : Question) : encoder :=
  seq_enc (λ pos, catching (nestedError "Name"%go) (enc_name (q_Name q) pos)) (const_enc (enc16 (q_Type q) ++ enc16 (q_Class q))).
Lemma Question_pack_enc q : packs (Question_pack q) (enc_question q).
Proof.
  intros msg off T. unfold enc_question. rewrite <- (packs_then _ _ _ (packs_catching _ _ _ (Name_pack_enc (q_Name q)))).
  unfold Question_pack, packType, packClass, packUint16, mbind, stateful_bind. destruct (catching _ _ T) as [[x|x|x] T1]; [|done|done].
  cbn [mret stateful_ret]. unfold enc16. by rewrite <- app_assoc.
Qed.
Definition question_ok (q : Question) : Prop := name_good (q_Name q) ∧ is_u16 (q_Type q) ∧ is_u16 (q_Class q).
Lemma spec_question q : question_ok q →
  spec (enc_question q) (λ w x, ∃ z, x = z ++ enc16 (q_Type q) ++ enc16 (q_Class q) ∧ reads (q_Name q) true w z).
Proof.
  intros (Hn&_). eapply spec_mono; [apply spec_seq; [apply spec_catching, spec_name, Hn|apply spec_const; auto with gorange]|].
  intros w x (z&y&->&Hz&->). by exists z.
Qed.

(** ** Bodies *)
Definition text_bytes (t : bytes) : bytes := u8 (len t) :: t.
Definition texts_bytes (l : list bytes) : bytes := concat (map text_bytes l).
Definition option_bytes (o : dnsOption) : bytes := enc16 (Code o) ++ enc16 (u16 (len (opt_Data o))) ++ opt_Data o.
Definition options_bytes (l : list dnsOption) : bytes := concat (map option_bytes l).
Definition enc_body (b : ResourceBody) : encoder :=
  match b with
  | BodyCNAME r => enc_name (CNAME r)
  | BodyNS r => enc_name (NS r)
  | BodyPTR r => enc_name (PTR r)
  | BodyMX r => seq_enc (const_enc (enc16 (mx_Pref r))) (λ pos, catching (nestedError "MXResource.MX"%go) (enc_name (mx_MX r) pos))
  | BodySOA r =>
      seq_enc (λ pos, catching (nestedError "SOAResource.NS"%go) (enc_name (soa_NS r) pos))
        (seq_enc (λ pos, catching (nestedError "SOAResource.MBox"%go) (enc_name (MBox r) pos))
           (const_enc (enc32 (Serial r) ++ enc32 (Refresh r) ++ enc32 (Retry r) ++ enc32 (Expire r) ++ enc32 (MinTTL r))))
  | BodyTXT r => λ _, lift (if forallb (λ t, len t <=? 255) (TXT r) then Ok (texts_bytes (TXT r)) else Err errStringTooLong)
  | BodySRV r =>
      seq_enc (const_enc (enc16 (srv_Priority r) ++ enc16 (srv_Weight r) ++ enc16 (srv_Port r)))
        (λ pos, catching (nestedError "SRVResource.Target"%go) (no_table (enc_name (srv_Target r)) pos))
  | BodyA r => const_enc (A r)
  | BodyAAAA r => const_enc (AAAA r)
  | BodyOPT r => const_enc (options_bytes (Options r))
  | BodyUnknown r => const_enc (u_Data r)
  end.
Lemma texts_loop_enc l msg : texts_loop l msg = x ← (if forallb (λ t, len t <=? 255) l then Ok (texts_bytes l) else Err errStringTooLong); Ok (msg ++ x).
Proof.
  revert msg. induction l as [|t l IH]; intros msg; cbn [texts_loop forallb]; [cbn; by rewrite app_nil_r|].
  unfold packText. rewrite Z.gtb_ltb, Z.leb_antisym. destruct (Z.ltb_spec 255 (len t)); cbn [negb andb mbind res_bind]; [done|].
  rewrite IH. destruct (forallb _ l); [|done]. cbn [mbind res_bind]. unfold texts_bytes. cbn [map concat]. unfold text_bytes at 2. by rewrite <- !app_assoc.
Qed.
Lemma options_pack_enc l msg : options_pack l msg = msg ++ options_bytes l.
Proof.
  revert msg. induction l as [|o l IH]; intros msg; cbn [options_pack]; [cbn; by rewrite app_nil_r|].
  rewrite IH. unfold packBytes, packUint16, options_bytes. cbn [map concat]. unfold option_bytes at 2, enc16. by rewrite <- !app_assoc.
Qed.
Lemma ResourceBody_pack_enc b : packs (ResourceBody_pack b) (enc_body b).
Proof.
  destruct b as [r|r|r|r|r|r|r|r|r|r|r]; cbn [ResourceBody_pack enc_body]; try apply Name_pack_enc; try apply packs_const.
  - apply (packs_after (λ msg off, catching _ (Name_pack (mx_MX r) msg off))), packs_catching, Name_pack_enc.
  - intros msg off T. rewrite <- (packs_seq _ _ _ _ (packs_catching _ _ _ (Name_pack_enc (soa_NS r)))
      (packs_then _ _ _ (packs_catching _ _ _ (Name_pack_enc (MBox r))))).
    unfold SOAResource_pack, packUint32, mbind, stateful_bind. destruct (catching _ _ T) as [[x|x|x] T1]; [|done|done].
    destruct (catching _ _ T1) as [[y|y|y] T2]; [|done|done]. cbn [mret stateful_ret]. unfold enc32. by rewrite <- !app_assoc.
  - intros msg off T. unfold TXTResource_pack, lift, mbind, stateful_bind. rewrite texts_loop_enc. by destruct (forallb _ _).
  - intros msg off T. rewrite <- (packs_after _ _ _ (packs_catching _ _ _ (packs_no_table _ _ (Name_pack_enc (srv_Target r))))).
    unfold SRVResource_pack, packUint16, enc16. by rewrite <- !app_assoc.
  - intros msg off T. unfold OPTResource_pack. by rewrite options_pack_enc.
Qed.

(** ** Reading bodies back *)
Lemma txt_loop_read l : ∀ fuel M w y off n total acc, M = w ++ texts_bytes l ++ y → off = len w → 0 <= n →
  total = n + len (texts_bytes l) → total <= 65535 → Forall (λ t, len t <= 255) l → (length l <= fuel)%nat →
  txt_loop fuel M off n total acc = Ok (acc ++ l).
Proof.
  induction l as [|t l IH]; intros fuel M w y off n total acc EM -> Hn Et Ht Hl Hf.
  - change (len (texts_bytes [])) with 0 in Et. destruct fuel; cbn [txt_loop]; rewrite (proj2 (Z.ltb_ge _ _)) by lia; by rewrite app_nil_r.
  - inversion Hl as [|? ? Ht1 Hl']; subst. destruct fuel as [|fuel]; [cbn in Hf; lia|]. cbn [txt_loop]. pose proof (len_nonneg t).
    assert (Eb : texts_bytes (t :: l) = (len t :: t) ++ texts_bytes l).
    { unfold texts_bytes. cbn [map concat]. unfold text_bytes at 1. by rewrite u8_id by (unfold is_u8; lia). }
    pose proof (len_nonneg (texts_bytes l)). pose proof (len_nonneg y).
    assert (Hlen : len (texts_bytes (t :: l)) = 1 + len t + len (texts_bytes l)) by (rewrite Eb, len_app, len_cons; lia).
    rewrite (proj2 (Z.ltb_lt _ _)) by lia. unfold unpackText. rewrite Eb in *.
    assert (HM : len (w ++ ((len t :: t) ++ texts_bytes l) ++ y) = len w + (1 + len t + len (texts_bytes l)) + len y) by (rewrite !len_app, len_cons; lia).
    rewrite Z.geb_leb, (proj2 (Z.leb_gt _ _)) by lia. rewrite at_start. change (at_ (((len t :: t) ++ texts_bytes l) ++ y) 0) with (Ok (len t)). cbn [mbind res_bind].
    rewrite Z.gtb_ltb, (proj2 (Z.ltb_ge _ _)) by lia.
    assert (Es : slice (w ++ ((len t :: t) ++ texts_bytes l) ++ y) (len w + 1) (len w + 1 + len t) = Ok t).
    { replace (w ++ _) with ((w ++ [len t]) ++ t ++ texts_bytes l ++ y) by (by rewrite <- !app_assoc). apply slice_part; [by rewrite len_app|done]. }
    rewrite Es. cbn [mbind res_bind nest]. rewrite !(u16_id (len t)), !(u16_id (len t + 1)), u16_id by (unfold is_u16; lia).
    rewrite (proj2 (Z.ltb_ge _ _)) by lia. rewrite u16_id by (unfold is_u16; lia).
    rewrite (IH fuel _ (w ++ len t :: t) y _ (n + (len t + 1))).
    + by rewrite <- app_assoc.
    + by rewrite <- !app_assoc.
    + rewrite len_app, len_cons. lia.
    + lia.
    + lia.
    + lia.
    + done.
    + cbn in Hf. lia.
Qed.
Lemma texts_count l : Z.of_nat (length l) <= len (texts_bytes l).
Proof.
  induction l as [|t l IH]; [done|]. unfold texts_bytes in *. cbn [map concat length]. rewrite len_app. unfold text_bytes at 1. rewrite len_cons.
  pose proof (len_nonneg t). lia.
Qed.
Lemma opt_loop_read l : ∀ fuel M w y off last acc, M = w ++ options_bytes l ++ y → off = len w →
  last = off + len (options_bytes l) → Forall (λ o, is_u16 (Code o) ∧ len (opt_Data o) <= 65535) l → (length l <= fuel)%nat →
  opt_loop fuel M off last acc = Ok (acc ++ l).
Proof.
  induction l as [|o l IH]; intros fuel M w y off last acc EM -> El Hl Hf.
  - change (len (options_bytes [])) with 0 in El. destruct fuel; cbn [opt_loop]; rewrite (proj2 (Z.ltb_ge _ _)) by lia; by rewrite app_nil_r.
  - inversion Hl as [|? ? [Hc Hd] Hl']; subst. destruct fuel as [|fuel]; [cbn in Hf; lia|]. cbn [opt_loop]. pose proof (len_nonneg (opt_Data o)).
    assert (Eb : options_bytes (o :: l) = enc16 (Code o) ++ enc16 (len (opt_Data o)) ++ opt_Data o ++ options_bytes l).
    { unfold options_bytes. cbn [map concat]. unfold option_bytes at 1. rewrite u16_id by (unfold is_u16; lia). by rewrite <- !app_assoc. }
    rewrite Eb. pose proof (len_nonneg (options_bytes l)). pose proof (len_nonneg y).
    assert (Hlen : len (enc16 (Code o) ++ enc16 (len (opt_Data o)) ++ opt_Data o ++ options_bytes l) = 4 + len (opt_Data o) + len (options_bytes l)) by place.
    rewrite (proj2 (Z.ltb_lt _ _)) by lia.
    erewrite (get16 _ w (Code o)) by first [done|whole|place]. cbn [nest mbind res_bind].
    erewrite (get16 _ (w ++ enc16 (Code o)) (len (opt_Data o))) by first [whole|place|unfold is_u16; lia]. cbn [nest mbind res_bind].
    replace (from _ (len w + 2 + 2)) with (Ok (opt_Data o ++ options_bytes l ++ y)).
    2: { symmetry. replace (w ++ _) with ((w ++ enc16 (Code o) ++ enc16 (len (opt_Data o))) ++ opt_Data o ++ options_bytes l ++ y) by (by rewrite <- !app_assoc). apply from_app. place. }
    cbn [mbind res_bind]. rewrite Z.min_l by place. rewrite Z.eqb_refl. cbn [negb]. rewrite upto_app by done. cbn [mbind res_bind].
    rewrite (IH fuel _ (w ++ enc16 (Code o) ++ enc16 (len (opt_Data o)) ++ opt_Data o) y).
    + rewrite <- app_assoc. by destruct o.
    + by rewrite <- !app_assoc.
    + place.
    + lia.
    + done.
    + cbn in Hf. lia.
Qed.
Lemma options_count l : Z.of_nat (length l) <= len (options_bytes l).
Proof.
  induction l as [|o l IH]; [done|]. unfold options_bytes in *. cbn [map concat length]. rewrite len_app. unfold option_bytes at 1.
  rewrite !len_app, !len_enc16. pose proof (len_nonneg (opt_Data o)). lia.
Qed.

Definition known (t : Z) : bool := existsb (Z.eqb t) [TypeA; TypeNS; TypeCNAME; TypeSOA; TypePTR; TypeMX; TypeTXT; TypeAAAA; TypeSRV; TypeOPT].
Definition body_ok (b : ResourceBody) : Prop :=
  match b with
  | BodyCNAME r => name_good (CNAME r)
  | BodyNS r => name_good (NS r)
  | BodyPTR r => name_good (PTR r)
  | BodyMX r => is_u16 (mx_Pref r) ∧ name_good (mx_MX r)
  | BodySOA r => name_good (soa_NS r) ∧ name_good (MBox r) ∧ is_u32 (Serial r) ∧ is_u32 (Refresh r) ∧ is_u32 (Retry r) ∧ is_u32 (Expire r) ∧ is_u32 (MinTTL r)
  | BodyTXT r => Forall (λ t, is_bytes t ∧ len t <= 255) (TXT r) ∧ len (texts_bytes (TXT r)) <= 65535
  | BodySRV r => is_u16 (srv_Priority r) ∧ is_u16 (srv_Weight r) ∧ is_u16 (srv_Port r) ∧ canonical (srv_Target r)
  | BodyA r => is_bytes (A r) ∧ len (A r) = 4
  | BodyAAAA r => is_bytes (AAAA r) ∧ len (AAAA r) = 16
  | BodyOPT r => Forall (λ o, is_u16 (Code o) ∧ is_bytes (opt_Data o)) (Options r) ∧ len (options_bytes (Options r)) <= 65535
  | BodyUnknown r => is_u16 (u_Type r) ∧ known (u_Type r) = false ∧ is_bytes (u_Data r) ∧ len (u_Data r) <= 65535
  end.
(** The body is read back from its bytes, its type and their number. *)
Definition body_reads (b : ResourceBody) (w x : bytes) : Prop := ∀ M y p hdr, M = w ++ x ++ y → p = len w → is_bytes M →
  rh_Type hdr = realType b → rh_Length hdr = len x → len x <= 65535 → unpackResourceBody M p hdr = Ok (b, p + len x).
Lemma concat_bytes {X} (f : X → bytes) l : Forall (λ x, is_bytes (f x)) l → is_bytes (concat (map f l)).
Proof. induction 1 as [|x l Hx _ IH]; cbn [map concat]; [constructor|]. by apply is_bytes_app. Qed.
Lemma unpackBytes_read M w x y p n : M = w ++ x ++ y → p = len w → n = len x → unpackBytes M p n = Ok (x, p + n).
Proof.
  intros -> -> ->. unfold unpackBytes. rewrite !len_app. pose proof (len_nonneg y). rewrite Z.gtb_ltb, (proj2 (Z.ltb_ge _ _)) by lia.
  by rewrite slice_mid.
Qed.
(** Unfolds the choice by type of unpackResourceBody. *)
Ltac choose Et := unfold unpackResourceBody; rewrite Et; cbn [realType Z.eqb Pos.eqb TypeA TypeNS TypeCNAME TypeSOA TypePTR TypeMX TypeTXT TypeAAAA TypeSRV TypeOPT].
(** A body that is a name alone. *)
Lemma spec_named n b : name_good n → (∀ M p hdr, rh_Type hdr = realType b → ∀ q, Name_unpack M p = Ok (n, q) → unpackResourceBody M p hdr = Ok (b, p + rh_Length hdr)) →
  spec (enc_name n) (body_reads b).
Proof.
  intros Hn Hb. eapply spec_mono; [by apply spec_name|]. intros w x Hr M y p hdr EM Ep HM Et <- _. eapply Hb; [done|]. by apply (Hr M y p).
Qed.
Lemma spec_MX r : is_u16 (mx_Pref r) → name_good (mx_MX r) → spec (enc_body (BodyMX r)) (body_reads (BodyMX r)).
Proof.
  intros Hp Hn. cbn [enc_body]. eapply spec_mono; [apply spec_seq; [apply spec_const, enc16_bytes|by apply spec_catching, spec_name]|].
  intros w x (a&z&->&->&Hr) M y p hdr EM Ep HM Et El _. choose Et. unfold unpackMXResource.
  rewrite (get16 M w (mx_Pref r) (z ++ y) p) by first [done|subst M; whole]. cbn [nest mbind res_bind].
  unfold Name_unpack. rewrite (Hr M y (p + 2)) by first [done|subst M; whole|subst p; place]. cbn [nest mbind res_bind]. rewrite El. by destruct r.
Qed.
Lemma spec_SOA r : body_ok (BodySOA r) → spec (enc_body (BodySOA r)) (body_reads (BodySOA r)).
Proof.
  intros (H1&H2&H3&H4&H5&H6&H7). cbn [enc_body].
  eapply spec_mono; [apply spec_seq; [by apply spec_catching, spec_name|apply spec_seq; [by apply spec_catching, spec_name|apply spec_const; auto 10 with gorange]]|].
  intros w x (a&z&->&Ha&b&c&->&Hb&->) M y p hdr EM Ep HM Et El _. choose Et. unfold unpackSOAResource, Name_unpack.
  rewrite (Ha M (b ++ enc32 (Serial r) ++ enc32 (Refresh r) ++ enc32 (Retry r) ++ enc32 (Expire r) ++ enc32 (MinTTL r) ++ y) p) by first [done|subst M; whole].
  cbn [nest mbind res_bind].
  rewrite (Hb M (enc32 (Serial r) ++ enc32 (Refresh r) ++ enc32 (Retry r) ++ enc32 (Expire r) ++ enc32 (MinTTL r) ++ y) (p + len a)) by first [done|subst M; whole|subst p; place].
  cbn [nest mbind res_bind].
  erewrite (get32 M (w ++ a ++ b) (Serial r)) by first [done|subst M; whole|subst p; place]. cbn [nest mbind res_bind].
  erewrite (get32 M (w ++ a ++ b ++ enc32 (Serial r)) (Refresh r)) by first [done|subst M; whole|subst p; place]. cbn [nest mbind res_bind].
  erewrite (get32 M (w ++ a ++ b ++ enc32 (Serial r) ++ enc32 (Refresh r)) (Retry r)) by first [done|subst M; whole|subst p; place]. cbn [nest mbind res_bind].
  erewrite (get32 M (w ++ a ++ b ++ enc32 (Serial r) ++ enc32 (Refresh r) ++ enc32 (Retry r)) (Expire r)) by first [done|subst M; whole|subst p; place]. cbn [nest mbind res_bind].
  erewrite (get32 M (w ++ a ++ b ++ enc32 (Serial r) ++ enc32 (Refresh r) ++ enc32 (Retry r) ++ enc32 (Expire r)) (MinTTL r)) by first [done|subst M; whole|subst p; place].
  cbn [nest mbind res_bind]. rewrite El. by destruct r.
Qed.
Lemma spec_SRV r : body_ok (BodySRV r) → spec (enc_body (BodySRV r)) (body_reads (BodySRV r)).
Proof.
  intros (H1&H2&H3&H4). cbn [enc_body].
  eapply spec_mono; [apply spec_seq; [apply spec_const; auto with gorange|by apply spec_catching, spec_plain_name]|].
  intros w x (a&z&->&->&Hr) M y p hdr EM Ep HM Et El _. choose Et. unfold unpackSRVResource.
  erewrite (get16 M w (srv_Priority r)) by first [done|subst M; whole]. cbn [nest mbind res_bind].
  erewrite (get16 M (w ++ enc16 (srv_Priority r)) (srv_Weight r)) by first [done|subst M; whole|subst p; place]. cbn [nest mbind res_bind].
  erewrite (get16 M (w ++ enc16 (srv_Priority r) ++ enc16 (srv_Weight r)) (srv_Port r)) by first [done|subst M; whole|subst p; place]. cbn [nest mbind res_bind].
  rewrite (Hr M y (p + 2 + 2 + 2)) by first [done|subst M; whole|subst p; place]. cbn [nest mbind res_bind]. rewrite El. by destruct r.
Qed.
Lemma spec_TXT r : body_ok (BodyTXT r) → spec (enc_body (BodyTXT r)) (body_reads (BodyTXT r)).
Proof.
  cbn [enc_body body_ok]. intros [Hb _] w T x T' HT E. unfold lift in E. destruct (forallb _ _) eqn:Hf; [|done]. injection E as <- <-.
  split; [by apply valid_more|]. split.
  { apply concat_bytes. eapply list.Forall_impl; [exact Hb|]. intros t [Ht _]. constructor; [apply u8_range|done]. }
  intros M y p hdr EM Ep HM Et El Hl. choose Et. unfold unpackTXTResource. rewrite El.
  rewrite (txt_loop_read (TXT r) _ M w y p 0); [cbn [mbind res_bind nest]; by destruct r|done|done|lia|lia|lia| |].
  - apply list.Forall_forall. intros t Ht. rewrite forallb_forall in Hf. apply list_elem_of_In in Ht. specialize (Hf t Ht). lia.
  - pose proof (texts_count (TXT r)). lia.
Qed.
Lemma spec_OPT r : body_ok (BodyOPT r) → spec (enc_body (BodyOPT r)) (body_reads (BodyOPT r)).
Proof.
  cbn [enc_body body_ok]. intros [Hb _]. eapply spec_mono; [apply spec_const, concat_bytes|].
  { eapply list.Forall_impl; [exact Hb|]. intros o [_ Ho]. unfold option_bytes. auto with gorange. }
  intros w x -> M y p hdr EM Ep HM Et El Hl. choose Et. unfold unpackOPTResource. rewrite El.
  rewrite (opt_loop_read (Options r) _ M w y p); [cbn [mbind res_bind nest]; by destruct r|done|done|done| |pose proof (options_count (Options r)); lia].
  clear -Hb Hl. induction Hb as [|o l [Ho _] _ IH]; [constructor|]. unfold options_bytes in Hl. cbn [map concat] in Hl.
  unfold option_bytes at 1 in Hl. rewrite !len_app, !len_enc16 in Hl. fold (options_bytes l) in Hl. pose proof (len_nonneg (options_bytes l)). pose proof (len_nonneg (opt_Data o)).
  constructor; [split; [done|lia]|]. apply IH. lia.
Qed.
Lemma spec_body b : body_ok b → spec (enc_body b) (body_reads b).
Proof.
  destruct b as [r|r|r|r|r|r|r|r|r|r|r]; intros Hb.
  - cbn [enc_body body_ok] in *. apply spec_named; [done|]. intros M p hdr Et q Hq. choose Et. unfold unpackCNAMEResource. rewrite Hq. by destruct r.
  - by apply spec_MX; apply Hb.
  - cbn [enc_body body_ok] in *. apply spec_named; [done|]. intros M p hdr Et q Hq. choose Et. unfold unpackNSResource. rewrite Hq. by destruct r.
  - cbn [enc_body body_ok] in *. apply spec_named; [done|]. intros M p hdr Et q Hq. choose Et. unfold unpackPTRResource. rewrite Hq. by destruct r.
  - by apply spec_SOA.
  - by apply spec_TXT.
  - by apply spec_SRV.
  - destruct Hb as [Hb Hl]. cbn [enc_body]. eapply spec_mono; [by apply spec_const|]. intros w x -> M y p hdr EM Ep HM Et El _. choose Et. unfold unpackAResource.
    rewrite (unpackBytes_read M w (A r) y p 4) by done. cbn [mbind res_bind nest]. rewrite El. by destruct r.
  - destruct Hb as [Hb Hl]. cbn [enc_body]. eapply spec_mono; [by apply spec_const|]. intros w x -> M y p hdr EM Ep HM Et El _. choose Et. unfold unpackAAAAResource.
    rewrite (unpackBytes_read M w (AAAA r) y p 16) by done. cbn [mbind res_bind nest]. rewrite El. by destruct r.
  - by apply spec_OPT.
  - destruct Hb as (Ht&Hk&Hb&_). cbn [enc_body]. eapply spec_mono; [by apply spec_const|]. intros w x -> M y p hdr EM Ep HM Et El _.
    unfold unpackResourceBody. rewrite Et. cbn [realType]. unfold known in Hk. cbn [existsb] in Hk.
    do 10 (apply orb_false_iff in Hk as [-> Hk]). unfold unpackUnknownResource.
    rewrite (unpackBytes_read M w (u_Data r) y p (rh_Length hdr)) by done. cbn [mbind res_bind nest]. rewrite El. by destruct r.
Qed.

(** A good body is packed, into at most 65535 bytes. *)
Definition total (e : encoder) (n : Z) : Prop := ∀ pos T, 0 <= pos → ∃ x T', e pos T = (Ok x, T') ∧ len x <= n.
Lemma total_const c n : len c <= n → total (const_enc c) n.
Proof. intros Hc pos T _. by exists c, T. Qed.
Lemma total_seq e1 e2 n1 n2 n : total e1 n1 → total e2 n2 → n1 + n2 <= n → total (seq_enc e1 e2) n.
Proof.
  intros H1 H2 Hn pos T Hp. destruct (H1 pos T Hp) as (x&T1&E1&Hx). pose proof (len_nonneg x).
  destruct (H2 (pos + len x) T1) as (y&T2&E2&Hy); [lia|]. exists (x ++ y), T2. unfold seq_enc, mbind, stateful_bind. rewrite E1, E2. split; [done|]. place.
Qed.
Lemma total_catching g e n : total e n → total (λ pos, catching g (e pos)) n.
Proof. intros H pos T Hp. destruct (H pos T Hp) as (x&T1&E&Hx). exists x, T1. unfold catching. by rewrite E. Qed.
Lemma total_name n : canonical n → total (enc_name n) 255.
Proof. intros Hn pos T Hp. by apply enc_name_total. Qed.
Lemma total_plain_name n : canonical n → total (no_table (enc_name n)) 255.
Proof.
  intros Hn pos T Hp. destruct (enc_name_total n pos None Hn Hp) as (x&T1&E&Hx). exists x, T. unfold no_table, zoom. by rewrite E.
Qed.
Lemma total_mono e n m : total e n → n <= m → total e m.
Proof. intros H Hn pos T Hp. destruct (H pos T Hp) as (x&T1&E&Hx). exists x, T1. split; [done|lia]. Qed.
Lemma total_body b : body_ok b → total (enc_body b) 65535.
Proof.
  destruct b as [r|r|r|r|r|r|r|r|r|r|r]; cbn [body_ok enc_body]; intros Hb;
    try by (apply (total_mono _ 255); [apply total_name, Hb|lia]).
  - apply (total_seq _ _ 2 255); [by apply total_const|apply total_catching, total_name, Hb|lia].
  - destruct Hb as ([H1 _]&[H2 _]&_). apply (total_seq _ _ 255 275); [by apply total_catching, total_name| |lia].
    apply (total_seq _ _ 255 20); [by apply total_catching, total_name|by apply total_const|lia].
  - destruct Hb as [Hb Hl]. intros pos T _. exists (texts_bytes (TXT r)), T. split; [|done]. unfold lift.
    rewrite (proj2 (forallb_forall _ _)); [done|]. intros t Ht. apply list_elem_of_In in Ht. rewrite list.Forall_forall in Hb. apply Hb in Ht. lia.
  - destruct Hb as (_&_&_&Hb). apply (total_seq _ _ 6 255); [by apply total_const|by apply total_catching, total_plain_name|lia].
  - destruct Hb as [_ Hl]. apply total_const. lia.
  - destruct Hb as [_ Hl]. apply total_const. lia.
  - apply total_const, Hb.
  - apply total_const, Hb.
Qed.
