(* ===== verification/DnsMessageProps.v ===== *)
(** * dnsmessage: messages on the wire

    A message that is packed is unpacked as it was. *)
From stdpp Require Import gmap.
From S2P Require Import Prelude Stateful DnsWire DnsRecords DnsParser DnsWireProps DnsRecordsProps.

(** ** Records *)
Definition resource_ok (r : Resource) : Prop :=
  name_good (rh_Name (r_Header r)) ∧ is_u16 (rh_Class (r_Header r)) ∧ is_u32 (rh_TTL (r_Header r)) ∧ ∃ b, r_Body r = Some b ∧ body_ok b.
(** The record with the type of its body and the length given. *)
Definition filled (r : Resource) (l : Z) : Resource :=
  match r_Body r with
  | Some b => MkResource (set_Length l (set_Type (realType b) (r_Header r))) (Some b)
  | None => r
  end.
Definition head_bytes (t c ttl l : Z) : bytes := enc16 t ++ enc16 c ++ enc32 ttl ++ enc16 l.
Definition record_reads (r : Resource) (w x : bytes) : Prop := ∀ M y p, M = w ++ x ++ y → p = len w → is_bytes M →
  ∃ off b, ResourceHeader_unpack M p = Ok (r_Header r, off) ∧ r_Body r = Some b ∧ unpackResourceBody M off (r_Header r) = Ok (b, p + len x).
Lemma set_two (w : bytes) (a b : Z) (y : bytes) (v v' : Z) : (m ← set_at (w ++ [a; b] ++ y) (len w) v; set_at m (len w + 1) v') = Ok (w ++ [v; v'] ++ y).
Proof.
  pose proof (len_nonneg w). pose proof (len_nonneg y). assert (Hl : len (w ++ [a; b] ++ y) = len w + 2 + len y) by (rewrite !len_app; change (len [a; b]) with 2; lia).
  rewrite set_at_ok by lia. cbn [mbind res_bind]. rewrite set_at_ok by (rewrite len_insert; lia). f_equal.
  unfold len. rewrite Nat2Z.id. replace (Z.to_nat (Z.of_nat (length w) + 1)) with (length w + 1)%nat by lia.
  rewrite <- (Nat.add_0_r (length w)) at 2. rewrite !insert_app_r. done.
Qed.
Lemma realType_u16 b : body_ok b → is_u16 (realType b).
Proof. destruct b as [r|r|r|r|r|r|r|r|r|r|r]; cbn [realType body_ok]; intros Hb; try (unfold is_u16, TypeCNAME, TypeMX, TypeNS, TypePTR, TypeSOA, TypeTXT, TypeSRV, TypeA, TypeAAAA, TypeOPT; lia). apply Hb. Qed.
Lemma packs_run f e b w T x T' : packs f e → e (len w) T = (Ok x, T') → f (b ++ w) (len b) T = (Ok (b ++ w ++ x), T').
Proof.
  intros H E. rewrite H. rewrite len_app. replace (len b + len w - len b) with (len w) by lia. unfold mbind, stateful_bind. rewrite E.
  by rewrite <- app_assoc.
Qed.
Lemma fixLen_run h pre xb t c ttl l0 : len xb <= 65535 → fixLen h (pre ++ head_bytes t c ttl l0 ++ xb) (len (pre ++ enc16 t ++ enc16 c ++ enc32 ttl)) (len (pre ++ head_bytes t c ttl l0)) =
  Ok (pre ++ head_bytes t c ttl (len xb) ++ xb, set_Length (len xb) h).
Proof.
  intros Hl. pose proof (len_nonneg xb). unfold fixLen. replace (len (pre ++ head_bytes t c ttl l0 ++ xb) - len (pre ++ head_bytes t c ttl l0)) with (len xb) by (rewrite !len_app; lia).
  rewrite Z.gtb_ltb, (proj2 (Z.ltb_ge _ _)) by lia. rewrite u16_id by (unfold is_u16; lia).
  pose proof (set_two (pre ++ enc16 t ++ enc16 c ++ enc32 ttl) (u8 (Z.shiftr l0 8)) (u8 l0) xb (u8 (Z.shiftr (len xb) 8)) (u8 (len xb))) as E.
  replace (pre ++ head_bytes t c ttl l0 ++ xb) with ((pre ++ enc16 t ++ enc16 c ++ enc32 ttl) ++ [u8 (Z.shiftr l0 8); u8 l0] ++ xb) by (unfold head_bytes, enc16; by rewrite <- !app_assoc).
  unfold mbind, res_bind in *. destruct (set_at _ _ _) as [m|e|m]; [|done|done]. rewrite E. unfold head_bytes, enc16. by rewrite <- !app_assoc.
Qed.
(** Packing one record after [b ++ w]. *)
Lemma resource_packed r b w T : resource_ok r → valid w T → ∃ x l T', is_u16 l ∧
  Resource_pack r (b ++ w) (len b) T = (Ok (b ++ w ++ x, filled r l), T') ∧ valid (w ++ x) T' ∧ is_bytes x ∧ record_reads (filled r l) w x.
Proof.
  intros (Hn&Hc&Ht&body&Eb&Hb) HT. set (h := r_Header r) in *.
  destruct (enc_name_total (rh_Name h) (len w) T) as (xn&T1&En&Hxn); [apply Hn|apply len_nonneg|].
  destruct (spec_name _ Hn w T xn T1 HT En) as (HT1&Bn&Rn).
  set (hb l := head_bytes (realType body) (rh_Class h) (rh_TTL h) l).
  assert (Hhb : ∀ l, len (hb l) = 10) by done.
  destruct (total_body body Hb (len (w ++ xn ++ hb 0)) T1) as (xb&T2&Ebody&Hxb); [apply len_nonneg|]. pose proof (len_nonneg xb).
  set (l := len xb). assert (Hl : is_u16 l) by (unfold is_u16, l; lia).
  assert (Ebody' : enc_body body (len (w ++ xn ++ hb l)) T1 = (Ok xb, T2)) by (rewrite <- Ebody; f_equal; rewrite !len_app, !Hhb; done).
  destruct (spec_body body Hb (w ++ xn ++ hb l) T1 xb T2) as (HT2&Bb&Rb); [rewrite app_assoc; by apply valid_more|exact Ebody'|].
  exists (xn ++ hb l ++ xb), l, T2. split; [done|].
  split; [|split; [by rewrite <- !app_assoc in HT2|split; [apply is_bytes_app; [done|apply is_bytes_app; [unfold hb, head_bytes; auto 6 with gorange|done]]|]]].
  - unfold Resource_pack. rewrite Eb. fold h. unfold ResourceHeader_pack, catching, mbind, stateful_bind. cbn [rh_Name rh_Type rh_Class rh_TTL rh_Length set_Type].
    rewrite (packs_run _ _ b w T xn T1 (Name_pack_enc (rh_Name h)) En). cbn [mret stateful_ret].
    replace (packUint16 _ (rh_Length h)) with (b ++ (w ++ xn ++ hb (rh_Length h))) by (unfold hb, head_bytes, packUint32, packClass, packType, packUint16, enc32, enc16; by rewrite <- !app_assoc).
    rewrite (packs_run _ _ b (w ++ xn ++ hb (rh_Length h)) T1 xb T2 (ResourceBody_pack_enc body)).
    2: { rewrite <- Ebody. f_equal. by rewrite !len_app, !Hhb. }
    replace (packUint32 _ (rh_TTL h)) with ((b ++ w ++ xn) ++ enc16 (realType body) ++ enc16 (rh_Class h) ++ enc32 (rh_TTL h)) by (unfold packUint32, packClass, packType, packUint16, enc32, enc16; by rewrite <- !app_assoc).
    replace (b ++ (w ++ xn ++ hb (rh_Length h)) ++ xb) with ((b ++ w ++ xn) ++ hb (rh_Length h) ++ xb) by (by rewrite <- !app_assoc).
    replace (b ++ w ++ xn ++ hb (rh_Length h)) with ((b ++ w ++ xn) ++ hb (rh_Length h)) by (by rewrite <- !app_assoc).
    unfold lift, hb. rewrite fixLen_run by lia. unfold mret, stateful_ret. do 2 f_equal. f_equal; [by rewrite <- !app_assoc|]. unfold filled. by rewrite Eb.
  - intros M y p EM Ep HM. exists (p + len xn + 10), body. unfold filled. rewrite Eb. fold h. cbn [r_Header r_Body set_Length set_Type rh_Name rh_Type rh_Class rh_TTL rh_Length].
    assert (HT16 := realType_u16 body Hb). unfold ResourceHeader_unpack, unpackType, unpackClass, Name_unpack. unfold hb, head_bytes in EM.
    rewrite (Rn M ((enc16 (realType body) ++ enc16 (rh_Class h) ++ enc32 (rh_TTL h) ++ enc16 l) ++ xb ++ y) p) by first [done|subst M; whole]. cbn [nest mbind res_bind].
    erewrite (get16 M (w ++ xn) (realType body)) by first [done|subst M; whole|subst p; place]. cbn [nest mbind res_bind].
    erewrite (get16 M (w ++ xn ++ enc16 (realType body)) (rh_Class h)) by first [done|subst M; whole|subst p; place]. cbn [nest mbind res_bind].
    erewrite (get32 M (w ++ xn ++ enc16 (realType body) ++ enc16 (rh_Class h)) (rh_TTL h)) by first [done|subst M; whole|subst p; place]. cbn [nest mbind res_bind].
    erewrite (get16 M (w ++ xn ++ enc16 (realType body) ++ enc16 (rh_Class h) ++ enc32 (rh_TTL h)) l) by first [done|subst M; whole|subst p; place]. cbn [nest mbind res_bind].
    split; [do 2 f_equal; lia|]. split; [done|].
    rewrite (Rb M y (p + len xn + 10)); [do 2 f_equal; rewrite !len_app, Hhb; lia|subst M; unfold hb, head_bytes; whole|subst p; rewrite !len_app, Hhb; lia|done..|lia].
Qed.

(** ** Lists of questions and records *)
Inductive placed {A : Type} (R : A → bytes → bytes → Prop) : list A → bytes → bytes → Prop :=
| placed_nil w : placed R [] w []
| placed_cons a l w x xs : R a w x → placed R l (w ++ x) xs → placed R (a :: l) w (x ++ xs).
Definition question_reads (q : Question) (w x : bytes) : Prop := ∀ M y p, M = w ++ x ++ y → p = len w → is_bytes M →
  ∃ off, Name_unpack M p = Ok (q_Name q, off) ∧ unpackUint16 M off = Ok (q_Type q, off + 2) ∧
    unpackUint16 M (off + 2) = Ok (q_Class q, off + 2 + 2) ∧ off + 2 + 2 = p + len x.
Lemma question_packed q b w T : question_ok q → valid w T → ∃ x T',
  Question_pack q (b ++ w) (len b) T = (Ok (b ++ w ++ x), T') ∧ valid (w ++ x) T' ∧ is_bytes x ∧ question_reads q w x.
Proof.
  intros Hq HT. pose proof Hq as ([Hn _]&H1&H2).
  destruct (total_seq _ _ 255 4 _ (total_catching (nestedError "Name"%go) _ _ (total_name _ Hn)) (total_const (enc16 (q_Type q) ++ enc16 (q_Class q)) 4 ltac:(done)) (Z.le_refl _) (len w) T (len_nonneg w)) as (x&T'&E&_).
  destruct (spec_question q Hq w T x T' HT E) as (HT'&Hb&z&->&Hr). exists (z ++ enc16 (q_Type q) ++ enc16 (q_Class q)), T'.
  split; [by apply (packs_run _ _ b w T _ T' (Question_pack_enc q))|]. split; [done|]. split; [done|].
  intros M y p EM Ep HM. exists (p + len z).
  split; [by apply (Hr M ((enc16 (q_Type q) ++ enc16 (q_Class q)) ++ y)); [subst M; whole|..]|].
  split; [eapply (get16 M (w ++ z)); [subst M; whole|subst p; place|done]|].
  split; [eapply (get16 M (w ++ z ++ enc16 (q_Type q))); [subst M; whole|subst p; place|done]|place].
Qed.
Lemma questions_packed b l : Forall question_ok l → ∀ w T, valid w T → ∃ x T',
  pack_questions l (b ++ w) (len b) T = (Ok (b ++ w ++ x), T') ∧ valid (w ++ x) T' ∧ is_bytes x ∧ placed question_reads l w x.
Proof.
  induction 1 as [|q l Hq _ IH]; intros w T HT; cbn [pack_questions].
  { exists [], T. rewrite !app_nil_r. split; [done|]. split; [done|]. split; constructor. }
  destruct (question_packed q b w T Hq HT) as (x&T1&E1&HT1&Hb1&R1). unfold catching, mbind, stateful_bind. rewrite E1.
  destruct (IH (w ++ x) T1 HT1) as (xs&T2&E2&HT2&Hb2&R2). rewrite E2. exists (x ++ xs), T2. rewrite <- !app_assoc in *.
  split; [done|]. split; [done|]. split; [by apply is_bytes_app|by constructor].
Qed.
Definition fills (r r' : Resource) : Prop := ∃ l, is_u16 l ∧ r' = filled r l.
Lemma resources_packed what b l : Forall resource_ok l → ∀ w T, valid w T → ∃ x l' T',
  pack_resources what l (b ++ w) (len b) T = (Ok (b ++ w ++ x, l'), T') ∧ valid (w ++ x) T' ∧ is_bytes x ∧ placed record_reads l' w x ∧ Forall2 fills l l'.
Proof.
  induction 1 as [|r l Hr _ IH]; intros w T HT; cbn [pack_resources].
  { exists [], [], T. rewrite !app_nil_r. split; [done|]. split; [done|]. split; [constructor|]. split; constructor. }
  destruct (resource_packed r b w T Hr HT) as (x&n&T1&Hn&E1&HT1&Hb1&R1). unfold catching, mbind, stateful_bind. rewrite E1.
  destruct (IH (w ++ x) T1 HT1) as (xs&l'&T2&E2&HT2&Hb2&R2&F2). rewrite E2. exists (x ++ xs), (filled r n :: l'), T2. rewrite <- !app_assoc in *.
  split; [done|]. split; [done|]. split; [by apply is_bytes_app|]. split; [by constructor|]. constructor; [by exists n|done].
Qed.

(** ** The parser on a packed message *)
Definition at_place (p : Parser) (M : bytes) (h : header) (sec off idx : Z) : Prop :=
  p_msg p = M ∧ p_header p = h ∧ p_section p = sec ∧ p_off p = off ∧ p_index p = idx ∧ resHeaderValid p = false.
Section reading.
Context (M : bytes) (h : header) (HM : is_bytes M).
(** [one] reads the items of a section one after the other, and ends it. *)
Definition steps {A} (one : parsing A) (R : A → bytes → bytes → Prop) (sec : Z) : Prop :=
  (∀ p a w x y idx, at_place p M h sec (len w) idx → idx ≠ header_count h sec → M = w ++ x ++ y → R a w x →
     ∃ p', one p = (Ok a, p') ∧ at_place p' M h sec (len (w ++ x)) (idx + 1)) ∧
  (∀ p off, at_place p M h sec off (header_count h sec) →
     ∃ p', one p = (Err ErrSectionDone, p') ∧ at_place p' M h (u8 (sec + 1)) off 0).
Lemma all_loop_read {A} (one : parsing A) R sec : steps one R sec → ∀ l fuel w x y p idx acc, placed R l w x → M = w ++ x ++ y →
  at_place p M h sec (len w) idx → idx + len l = header_count h sec → (length l < fuel)%nat →
  ∃ p', all_loop fuel one acc p = (Ok (acc ++ l), p') ∧ at_place p' M h (u8 (sec + 1)) (len (w ++ x)) 0.
Proof.
  intros [Hstep Hstop] l. induction l as [|a l IH]; intros fuel w x y p idx acc Hpl EM Hp Hi Hf; (destruct fuel as [|fuel]; [lia|]); cbn [all_loop].
  - inversion Hpl; subst x. change (len []) with 0 in Hi. destruct (Hstop p (len w)) as (p'&E&Hp'); [replace (header_count h sec) with idx by lia; done|].
    exists p'. unfold attempt, mbind, stateful_bind. rewrite E. rewrite decide_True by done. by rewrite !app_nil_r.
  - inversion Hpl as [|? ? ? x1 xs HR Hpl']; subst x. rewrite len_cons in Hi. pose proof (len_nonneg l).
    destruct (Hstep p a w x1 (xs ++ y) idx) as (p'&E&Hp'); [done|lia|by rewrite EM, <- app_assoc|done|].
    unfold attempt, mbind, stateful_bind. rewrite E.
    destruct (IH fuel (w ++ x1) xs y p' (idx + 1) (acc ++ [a])) as (p2&E2&Hp2); [done|by rewrite EM, <- !app_assoc|done|lia|cbn in Hf; lia|].
    exists p2. rewrite <- !app_assoc in *. by rewrite E2.
Qed.
Lemma all_of_read {A} (one : parsing A) R sec l w x y p : steps one R sec → placed R l w x → M = w ++ x ++ y →
  at_place p M h sec (len w) 0 → len l = header_count h sec →
  ∃ p', all_of sec one p = (Ok l, p') ∧ at_place p' M h (u8 (sec + 1)) (len (w ++ x)) 0.
Proof.
  intros Hs Hpl EM Hp Hl. unfold all_of, section_fuel. assert (Eh : p_header p = h) by apply Hp. rewrite Eh.
  apply (all_loop_read one R sec Hs l _ w x y p 0 []); [done|done|done|lia|]. unfold len in Hl. lia.
Qed.
(** checkAdvance inside a section and at its end. *)
Lemma checkAdvance_in p sec off idx : at_place p M h sec off idx → idx ≠ header_count h sec →
  ∃ p', checkAdvance sec p = (Ok tt, p') ∧ at_place p' M h sec off idx.
Proof.
  destruct p as [m h' s o i v ho ht hl]. intros (Em&Eh&Es&Eo&Ei&Ev) Hi. cbn in *. subst. eexists. split.
  - unfold checkAdvance, get, mbind, stateful_bind. cbn [p_section]. rewrite Z.ltb_irrefl, Z.gtb_ltb, Z.ltb_irrefl. cbn. rewrite (proj2 (Z.eqb_neq _ _)) by done. done.
  - repeat split.
Qed.
Lemma checkAdvance_end p sec off : at_place p M h sec off (header_count h sec) →
  ∃ p', checkAdvance sec p = (Err ErrSectionDone, p') ∧ at_place p' M h (u8 (sec + 1)) off 0.
Proof.
  destruct p as [m h' s o i v ho ht hl]. intros (Em&Eh&Es&Eo&Ei&Ev). cbn in *. subst. eexists. split.
  - unfold checkAdvance, get, mbind, stateful_bind. cbn [p_section]. rewrite Z.ltb_irrefl, Z.gtb_ltb, Z.ltb_irrefl. cbn. rewrite Z.eqb_refl. done.
  - repeat split.
Qed.
Lemma question_steps : steps Parser_Question question_reads sectionQuestions.
Proof.
  split.
  - intros p q w x y idx Hp Hi EM HR. destruct (checkAdvance_in p _ _ _ Hp Hi) as (p1&E1&Hp1).
    destruct (HR M y (len w) EM eq_refl HM) as (off&R1&R2&R3&Eoff). destruct p1 as [m h' s o i v ho ht hl]. destruct Hp1 as (Em&Eh&Es&Eo&Ei&Ev). cbn in Em, Eh, Es, Eo, Ei, Ev. subst m h' s o i v.
    eexists. split.
    + unfold Parser_Question, mbind, stateful_bind. rewrite E1. cbn [get]. unfold get, lift. cbn [p_msg p_off]. rewrite R1. cbn [nest]. unfold unpackType, unpackClass. rewrite R2. cbn [nest]. rewrite R3. cbn [nest]. destruct q. reflexivity.
    + repeat split. cbn. rewrite Eoff. by rewrite len_app.
  - intros p off Hp. destruct (checkAdvance_end p _ off Hp) as (p1&E1&Hp1). exists p1. split; [|done]. unfold Parser_Question, mbind, stateful_bind. by rewrite E1.
Qed.
Lemma resource_steps sec : steps (resource sec) record_reads sec.
Proof.
  split.
  - intros p r w x y idx Hp Hi EM HR. destruct (HR M y (len w) EM eq_refl HM) as (off&b&R1&R2&R3).
    assert (Ev : resHeaderValid p = false) by apply Hp.
    destruct (checkAdvance_in p _ _ _ Hp Hi) as (p1&E1&Hp1). destruct p1 as [m h' s o i v ho ht hl]. destruct Hp1 as (Em&Eh&Es&Eo&Ei&Ev1). cbn in Em, Eh, Es, Eo, Ei, Ev1. subst m h' s o i v.
    eexists. split.
    + unfold resource, resourceHeader, modify, get, put, lift, catching, mbind, stateful_bind. rewrite Ev, E1. cbn [p_msg p_off]. rewrite R1. cbn. rewrite R3. destruct r as [hdr body]. cbn in R2. subst body. reflexivity.
    + repeat split. cbn. by rewrite len_app.
  - intros p off Hp. assert (Ev : resHeaderValid p = false) by apply Hp. destruct (checkAdvance_end p _ off Hp) as (p1&E1&Hp1). exists p1. split; [|done].
    unfold resource, resourceHeader, modify, mbind, stateful_bind. by rewrite Ev, E1.
Qed.
End reading.

(** ** The round trip *)
Definition message_ok (m : Message) : Prop :=
  header_ok (m_Header m) ∧ Forall question_ok (Questions m) ∧
  Forall resource_ok (Answers m) ∧ Forall resource_ok (Authorities m) ∧ Forall resource_ok (Additionals m) ∧
  len (Questions m) <= 65535 ∧ len (Answers m) <= 65535 ∧ len (Authorities m) <= 65535 ∧ len (Additionals m) <= 65535.
(** The four sections after the header, packed and read. *)
Lemma Start_read h y : wire_ok h → ∃ p, Parser_Start (enc_header h ++ y) zero_Parser = (Ok (header_header h), p) ∧
  at_place p (enc_header h ++ y) h sectionQuestions (len (enc_header h)) 0.
Proof. intros Hw. unfold Parser_Start. rewrite header_read by done. cbn [nest]. eexists. split; [done|]. by repeat split. Qed.
Lemma Unpack_sections h qs an au ad xq xn xu xd : wire_ok h → let w := enc_header h ++ xq ++ xn ++ xu ++ xd in is_bytes w →
  placed question_reads qs (enc_header h) xq → placed record_reads an (enc_header h ++ xq) xn →
  placed record_reads au (enc_header h ++ xq ++ xn) xu → placed record_reads ad (enc_header h ++ xq ++ xn ++ xu) xd →
  len qs = questions h → len an = answers h → len au = authorities h → len ad = additionals h →
  Unpack w = Ok (MkMessage (header_header h) qs an au ad).
Proof.
  intros Hw w Hb Pq Pn Pu Pd Lq Ln Lu Ld. destruct (Start_read h (xq ++ xn ++ xu ++ xd) Hw) as (p0&E0&H0). fold w in E0, H0.
  destruct (all_of_read w h _ _ _ qs (enc_header h) xq (xn ++ xu ++ xd) p0 (question_steps w h Hb)) as (p1&E1&H1); [done|done|done|done|].
  destruct (all_of_read w h _ _ _ an _ xn (xu ++ xd) p1 (resource_steps w h Hb sectionAnswers) Pn) as (p2&E2&H2); [unfold w; whole|done|done|].
  rewrite <- app_assoc in H2.
  destruct (all_of_read w h _ _ _ au _ xu xd p2 (resource_steps w h Hb sectionAuthorities) Pu) as (p3&E3&H3); [unfold w; whole|done|done|].
  rewrite <- !app_assoc in H3.
  destruct (all_of_read w h _ _ _ ad _ xd [] p3 (resource_steps w h Hb sectionAdditionals) Pd) as (p4&E4&H4); [unfold w; rewrite app_nil_r; whole|done|done|].
  unfold Unpack, AllQuestions, AllAnswers, AllAuthorities, AllAdditionals, Answer, Authority, Additional, mbind, stateful_bind.
  by rewrite E0, E1, E2, E3, E4.
Qed.
Lemma fills_len l l' : Forall2 fills l l' → len l' = len l.
Proof. intros H. unfold len. by rewrite (Forall2_length H). Qed.
(** C25: A message whose header and records fit their fields, and whose names are
    canonical with at most ten labels, is packed after any bytes; what is
    appended, with its names compressed, is unpacked as the message itself,
    the types and lengths of the records filled in. *)
Theorem AppendPack_Unpack m b : message_ok m → ∃ w m', AppendPack m b = Ok (b ++ w, m') ∧ Unpack w = Ok m' ∧
  m_Header m' = m_Header m ∧ Questions m' = Questions m ∧
  Forall2 fills (Answers m) (Answers m') ∧ Forall2 fills (Authorities m) (Authorities m') ∧ Forall2 fills (Additionals m) (Additionals m').
Proof.
  intros (Hh&Hq&Hn&Hu&Hd&Lq&Ln&Lu&Ld). destruct (Header_bits _ Hh) as [Ebits Hbits].
  unfold AppendPack. rewrite !Z.gtb_ltb, !(proj2 (Z.ltb_ge _ _)) by lia. rewrite (surjective_pairing (Header_pack (m_Header m))).
  pose proof (len_nonneg (Questions m)). pose proof (len_nonneg (Answers m)). pose proof (len_nonneg (Authorities m)). pose proof (len_nonneg (Additionals m)).
  rewrite !u16_id by (unfold is_u16; lia). set (h := MkWireHeader _ _ _ _ _ _). rewrite header_pack_enc.
  assert (Hw : wire_ok h) by (unfold wire_ok, h; cbn [id bits questions answers authorities additionals]; unfold is_u16 in *; split; [apply Hh|lia]).
  assert (Hhb : is_bytes (enc_header h)) by (unfold enc_header; auto 10 with gorange).
  destruct (questions_packed b _ Hq (enc_header h) (Some ∅)) as (xq&T1&E1&HT1&B1&P1); [by intros key q Hk|].
  destruct (resources_packed "Answer"%go b _ Hn _ T1 HT1) as (xn&an&T2&E2&HT2&B2&P2&F2).
  destruct (resources_packed "Authority"%go b _ Hu _ T2 HT2) as (xu&au&T3&E3&HT3&B3&P3&F3).
  destruct (resources_packed "Additional"%go b _ Hd _ T3 HT3) as (xd&ad&T4&E4&HT4&B4&P4&F4). rewrite <- !app_assoc in *.
  exists (enc_header h ++ xq ++ xn ++ xu ++ xd), (MkMessage (m_Header m) (Questions m) an au ad).
  split; [unfold mbind, stateful_bind; by rewrite E1, E2, E3, E4|]. split; [|by repeat split].
  replace (m_Header m) with (header_header h) by exact Ebits.
  apply Unpack_sections; try done; [|by rewrite (fills_len _ _ F2)|by rewrite (fills_len _ _ F3)|by rewrite (fills_len _ _ F4)].
  auto 10 using is_bytes_app.
Qed.
(** Names given by their labels. *)
Definition name_from (ls : list bytes) : Name := name_of (spelling ls).
Definition label_fits (l : bytes) : bool := (0 <? len l) && (len l <? 64) && forallb (λ v, negb (v =? "."%byte) && (0 <=? v) && (v <? 256)) l.
Lemma name_from_good ls : forallb label_fits ls && (len (spelling ls) <=? 254) && (length ls <=? 10)%nat = true → name_good (name_from ls).
Proof.
  intros [[Hl Hlen]%andb_true_iff Hk]%andb_true_iff. rewrite forallb_forall in Hl.
  assert (Hls : Forall (λ l, segment l ∧ is_bytes l) ls).
  { apply list.Forall_forall. intros l Hin%list_elem_of_In. specialize (Hl l Hin). unfold label_fits in Hl.
    apply andb_true_iff in Hl as [Hn Hc]. rewrite forallb_forall in Hc.
    split; [split; [lia|]|]; apply list.Forall_forall; intros v Hv%list_elem_of_In; specialize (Hc v Hv); unfold is_u8; lia. }
  assert (Hs : Forall segment ls) by (eapply list.Forall_impl; [exact Hls|]; by intros ? []).
  split.
  - exists ls. split; [done|]. split; [done|]. split; [eapply list.Forall_impl; [exact Hls|]; by intros ? []|lia].
  - apply (proj2 (shallow_name _)). destruct ls as [|l ls]; [by vm_compute; lia|]. cbn [spelling]. rewrite dots_text by done. by apply Nat.leb_le.
Qed.
Definition sample_message : Message :=
  let www := name_from ["www"%go; "example"%go] in
  let alias := name_from ["a"%go; "b"%go; "example"%go] in
  MkMessage (MkHeader 7 true 0 true false true true false false 0) [MkQuestion www 1 1]
    [MkResource (MkRH www 0 1 60 0) (Some (BodyCNAME (MkCNAME alias))); MkResource (MkRH alias 0 1 60 0) (Some (BodyA (MkA [192; 0; 2; 1])))]
    [] [MkResource (MkRH (name_from []) 0 1232 0 0) (Some (BodyOPT (MkOPT [MkOption 3 [1; 2]])))].
Lemma sample_ok : message_ok sample_message.
Proof.
  assert (Hn : ∀ ls, forallb label_fits ls && (len (spelling ls) <=? 254) && (length ls <=? 10)%nat = true → name_good (name_from ls)) by exact name_from_good.
  unfold message_ok, header_ok, sample_message, is_u16. cbn [m_Header Questions Answers Authorities Additionals ID OpCode RCode].
  assert (HB : ∀ x, (0 <=? x) && (x <? 2 ^ 16) = true → is_u16 x) by (unfold is_u16; intros; lia).
  assert (HT : ∀ x, (0 <=? x) && (x <? 2 ^ 32) = true → is_u32 x) by (unfold is_u32; intros; lia).
  split; [lia|]. split; [|split; [|split; [|split; [|vm_compute; repeat split; discriminate]]]].
  - apply Forall_singleton. split; [apply Hn; reflexivity|]. split; apply HB; reflexivity.
  - apply list.Forall_cons. split; [|apply list.Forall_cons; split; [|constructor]].
    + split; [apply Hn; reflexivity|]. split; [apply HB; reflexivity|]. split; [apply HT; reflexivity|]. eexists. split; [reflexivity|]. apply Hn; reflexivity.
    + split; [apply Hn; reflexivity|]. split; [apply HB; reflexivity|]. split; [apply HT; reflexivity|]. eexists. split; [reflexivity|].
      split; [|reflexivity]. repeat (apply list.Forall_cons; split; [unfold is_u8; lia|]). constructor.
  - constructor.
  - apply Forall_singleton. split; [apply Hn; reflexivity|]. split; [apply HB; reflexivity|]. split; [apply HT; reflexivity|]. eexists. split; [reflexivity|].
    split; [|vm_compute; discriminate]. apply Forall_singleton. split; [apply HB; reflexivity|]. repeat (apply list.Forall_cons; split; [unfold is_u8; lia|]). constructor.
Qed.
Lemma AppendPack_Unpack_witness :
  (r ← Pack sample_message; Ok (fst r)) = Ok ([0; 7; 133; 128; 0; 1; 0; 2; 0; 0; 0; 1] ++
    [3] ++ "www"%go ++ [7] ++ "example"%go ++ [0; 0; 1; 0; 1] ++ [192; 12; 0; 5; 0; 1; 0; 0; 0; 60; 0; 6] ++ [1] ++ "a"%go ++ [1] ++ "b"%go ++ [192; 16] ++
    [192; 41; 0; 1; 0; 1; 0; 0; 0; 60; 0; 4; 192; 0; 2; 1] ++ [0; 0; 41; 4; 208; 0; 0; 0; 0; 0; 6; 0; 3; 0; 2; 1; 2]) ∧
  ∃ w m', AppendPack sample_message [1; 2] = Ok ([1; 2] ++ w, m') ∧ Unpack w = Ok m'.
Proof.
  split; [vm_compute; reflexivity|].
  destruct (AppendPack_Unpack sample_message [1; 2]) as (w&m'&E&U&_); [|by exists w, m'].
  exact sample_ok.
Defined.
(** With more labels the pointers can be too many to follow: a message may be
    packed that is not unpacked. *)
Fixpoint nested (k : nat) (ls : list bytes) : list (list bytes) :=
  match k with O => [] | S k => let ls := [u8 (97 + Z.of_nat k)] :: ls in ls :: nested k ls end.
Definition nested_message : Message :=
  MkMessage (m_Header sample_message) (map (λ ls, MkQuestion (name_from ls) 1 1) (nested 12 [])) [] [] [].
Lemma nested_not_unpacked : ∃ w m', Pack nested_message = Ok (w, m') ∧ Unpack w = Err (nestedError "unpacking Question.Name"%go errTooManyPtr).
Proof. destruct (Pack nested_message) as [[w m']|e|p] eqn:E; [exists w, m'; split; [done|]; vm_compute in E; injection E as <- _; vm_compute; reflexivity|vm_compute in E; discriminate..]. Qed.
