(* ===== verification/DnsParserProps.v ===== *)
(** * dnsmessage: the parser on any bytes

    Whatever the message, no method of the parser panics in whatever order they
    are called, the loops end, and what is parsed is well formed. *)
From stdpp Require Import gmap.
From S2P Require Import Prelude Stateful DnsWire DnsRecords DnsParser DnsWireProps DnsRecordsProps.

(** ** Unpacking functions *)
Section safety.
Context (M : bytes) (HM : is_bytes M).
Lemma unpack16_safe off : 0 <= off → safe (λ '(v, o), is_u16 v ∧ o = off + 2 ∧ o <= len M) (unpackUint16 M off).
Proof.
  intros Ho. unfold unpackUint16. destruct (off + 2 >? len M) eqn:E; [done|].
  destruct (at_byte M off HM) as (a&->&Ha); [lia|]. destruct (at_byte M (off + 1) HM) as (b&->&Hb); [lia|]. cbn [mbind res_bind safe].
  split; [|lia]. unfold is_u16. unfold is_u8 in Ha, Hb. rewrite u16_id by (unfold is_u16; rewrite Z.shiftl_mul_pow2; lia). rewrite lor_shift_add by lia. lia.
Qed.
Lemma unpack32_safe off : 0 <= off → safe (λ '(v, o), is_u32 v ∧ o = off + 4 ∧ o <= len M) (unpackUint32 M off).
Proof.
  intros Ho. unfold unpackUint32. destruct (off + 4 >? len M) eqn:E; [done|].
  destruct (at_byte M off HM) as (a&->&Ha); [lia|]. destruct (at_byte M (off + 1) HM) as (b&->&Hb); [lia|].
  destruct (at_byte M (off + 2) HM) as (c&->&Hc); [lia|]. destruct (at_byte M (off + 3) HM) as (d&->&Hd); [lia|]. cbn [mbind res_bind safe].
  split; [|lia]. unfold is_u32, is_u8 in *. apply lor_range; [lia| |lia]. apply lor_range; [lia| |apply u32_range]. apply lor_range; [lia|apply u32_range|apply u32_range].
Qed.
Lemma skip16_safe off : safe (λ o, o = off + 2 ∧ o <= len M) (skipUint16 M off).
Proof. unfold skipUint16. destruct (off + 2 >? len M) eqn:E; [done|]. cbn. lia. Qed.
Lemma skip32_safe off : safe (λ o, o = off + 4 ∧ o <= len M) (skipUint32 M off).
Proof. unfold skipUint32. destruct (off + 4 >? len M) eqn:E; [done|]. cbn. lia. Qed.
Lemma unpackText_safe off : 0 <= off → safe (λ '(t, o), is_bytes t ∧ len t <= 255 ∧ o = off + 1 + len t) (unpackText M off).
Proof.
  intros Ho. unfold unpackText. destruct (Z.geb_spec off (len M)); [done|]. destruct (at_byte M off HM) as (l&->&Hl); [lia|]. cbn [mbind res_bind].
  unfold is_u8 in Hl. destruct (off + 1 + l >? len M) eqn:E; [done|]. rewrite slice_ok by lia. cbn [mbind res_bind safe].
  assert (Hlen : len (drop (Z.to_nat (off + 1)) (take (Z.to_nat (off + 1 + l)) M)) = l) by (unfold len in *; rewrite length_drop, length_take; lia).
  rewrite Hlen. split; [auto with gorange|lia].
Qed.
Lemma unpackBytes_safe off n : 0 <= off → 0 <= n → safe (λ '(t, o), is_bytes t ∧ len t = n) (unpackBytes M off n).
Proof.
  intros Ho Hn. unfold unpackBytes. destruct (off + n >? len M) eqn:E; [done|]. rewrite slice_ok by lia. cbn [mbind res_bind safe].
  split; [auto with gorange|]. unfold len in *. rewrite length_drop, length_take. lia.
Qed.

(** Names: what is read is the text of segments. *)
Lemma segment_size c : is_u8 c → Z.land c 0xC0 = 0 → c < 64.
Proof.
  intros Hc E. rewrite (land_field c 2 6) in E by (lia || reflexivity). unfold is_u8 in Hc. zwlia.
Qed.
Lemma dot_free l : existsb (λ v, v =? "."%byte) l = false → no_dot l.
Proof. induction l as [|v l IH]; cbn [existsb]; [constructor|]. intros [Hv Hl]%orb_false_iff. constructor; [lia|by apply IH]. Qed.
Lemma unpack_loop_text allow fuel : ∀ currOff newOff ptr name r ls, 0 <= currOff → name = text ls → Forall segment ls → Forall is_bytes ls →
  unpack_loop fuel M allow currOff newOff ptr name = Ok r → ∃ ls', fst (fst (fst r)) = text ls' ∧ Forall segment ls' ∧ Forall is_bytes ls'.
Proof.
  induction fuel as [|fuel IH]; intros currOff newOff ptr name r ls Hc -> Hs Hb; [done|]. cbn [unpack_loop].
  destruct (Z.geb_spec currOff (len M)); [done|]. destruct (at_byte M currOff HM) as (c&->&Hu); [lia|]. cbn [mbind res_bind].
  destruct (Z.eqb_spec (Z.land c 0xC0) 0) as [Hz|_].
  - destruct (Z.eqb_spec c 0); [intros [= <-]; by exists ls|]. destruct (currOff + 1 + c >? len M) eqn:Eg; [done|]. unfold is_u8 in Hu.
    rewrite slice_ok by lia. cbn [mbind res_bind]. set (seg := drop _ _). destruct (existsb _ seg) eqn:Ex; [done|].
    assert (Hlen : len seg = c) by (unfold seg, len in *; rewrite length_drop, length_take; lia).
    pose proof (segment_size c Hu Hz). intros E. apply (IH _ _ _ _ _ (ls ++ [seg])) in E; [done|lia| | |].
    + unfold text. rewrite map_app, concat_app. cbn [map concat]. by rewrite app_nil_r.
    + apply list.Forall_app. split; [done|]. apply Forall_singleton. split; [lia|by apply dot_free].
    + apply list.Forall_app. split; [done|]. apply Forall_singleton. unfold seg. auto with gorange.
  - destruct (Z.land c 0xC0 =? 0xC0); [|done]. destruct (negb allow); [done|]. destruct (Z.geb_spec (currOff + 1) (len M)); [done|].
    destruct (at_byte M (currOff + 1) HM) as (c1&->&Hu1); [lia|]. cbn [mbind res_bind]. destruct (ptr + 1 >? 10); [done|]. intros E. apply (IH _ _ _ _ _ ls) in E; try done.
    unfold is_u8 in *. apply Z.lor_nonneg. split; [|lia]. apply Z.shiftl_nonneg, Z.lxor_nonneg. lia.
Qed.
Lemma name_safe off allow : 0 <= off → safe (λ '(n, o), canonical n ∧ 0 <= o) (Name_unpackCompressed M off allow).
Proof.
  intros Ho. unfold Name_unpackCompressed. pose proof (unpack_fuel M) as Hf. unfold turns in Hf.
  destruct (unpack_loop_enough M allow (11 * S (length M)) HM (11 * S (length M)) off off 0 [] Ho) as [_ Hs]; [lia|unfold turns; lia..|].
  destruct (unpack_loop (11 * S (length M)) M allow off off 0 []) as [[[[name c] n] k]|e|m] eqn:E; [|done|done]. cbn [mbind res_bind safe] in *.
  destruct (unpack_loop_text allow _ off off 0 [] _ [] Ho eq_refl (Forall_nil _) (Forall_nil _) E) as (ls&En&Hls&Hb). cbn [fst] in En. subst name.
  assert (Es : (if len (text ls) =? 0 then "."%go else text ls) = spelling ls).
  { destruct ls as [|l ls]; [done|]. cbn [spelling]. rewrite (proj2 (Z.eqb_neq _ _)); [done|]. intros E0. apply (text_nil (l :: ls)) in Hls; [done|]. by destruct (text (l :: ls)). }
  rewrite Es. unfold nonEncodedNameMax. destruct (len (spelling ls) >? 254) eqn:Eg; [done|]. cbn [safe]. split; [|destruct (k =? 0); [lia|apply Hs; lia]].
  exists ls. unfold name_of. rewrite u8_id by (pose proof (len_nonneg (spelling ls)); unfold is_u8; lia). repeat (split; [done|]). lia.
Qed.
Lemma skip_loop_safe fuel : ∀ off, 0 <= off → Z.max 0 (len M - off) + 1 <= Z.of_nat fuel → safe (λ o, 0 <= o) (skip_loop fuel M off).
Proof.
  induction fuel as [|fuel IH]; intros off Ho Hf; [lia|]. cbn [skip_loop]. destruct (Z.geb_spec off (len M)); [done|].
  destruct (at_byte M off HM) as (c&->&Hu); [lia|]. cbn [mbind res_bind]. unfold is_u8 in Hu.
  destruct (Z.land c 0xC0 =? 0); [|destruct (Z.land c 0xC0 =? 0xC0); [cbn; lia|done]]. destruct (Z.eqb_spec c 0); [cbn; lia|].
  destruct (off + 1 + c >? len M) eqn:E; [done|]. apply IH; lia.
Qed.
Lemma skipName_safe off : 0 <= off → safe (λ o, 0 <= o) (skipName M off).
Proof. intros Ho. apply skip_loop_safe; [done|]. unfold len. lia. Qed.

(** *** Bodies and headers *)
Definition body_formed (b : ResourceBody) : Prop :=
  match b with
  | BodyCNAME r => canonical (CNAME r)
  | BodyNS r => canonical (NS r)
  | BodyPTR r => canonical (PTR r)
  | BodyMX r => is_u16 (mx_Pref r) ∧ canonical (mx_MX r)
  | BodySOA r => canonical (soa_NS r) ∧ canonical (MBox r) ∧ is_u32 (Serial r) ∧ is_u32 (Refresh r) ∧ is_u32 (Retry r) ∧ is_u32 (Expire r) ∧ is_u32 (MinTTL r)
  | BodyTXT r => Forall (λ t, is_bytes t ∧ len t <= 255) (TXT r)
  | BodySRV r => is_u16 (srv_Priority r) ∧ is_u16 (srv_Weight r) ∧ is_u16 (srv_Port r) ∧ canonical (srv_Target r)
  | BodyA r => is_bytes (A r) ∧ len (A r) = 4
  | BodyAAAA r => is_bytes (AAAA r) ∧ len (AAAA r) = 16
  | BodyOPT r => Forall (λ o, is_u16 (Code o) ∧ is_bytes (opt_Data o) ∧ len (opt_Data o) <= 65535) (Options r)
  | BodyUnknown r => known (u_Type r) = false ∧ is_bytes (u_Data r) ∧ len (u_Data r) <= 65535
  end.
Definition header_formed (h : ResourceHeader) : Prop :=
  canonical (rh_Name h) ∧ is_u16 (rh_Type h) ∧ is_u16 (rh_Class h) ∧ is_u32 (rh_TTL h) ∧ is_u16 (rh_Length h).
(** One step of a sequence of reads. *)
Ltac read_next H := eapply safe_bind; [try apply safe_nest; apply H; lia|].
Lemma txt_loop_safe fuel : ∀ off n total acc, 0 <= off → 0 <= n → total <= 65535 → total - n <= Z.of_nat fuel →
  Forall (λ t, is_bytes t ∧ len t <= 255) acc → safe (Forall (λ t, is_bytes t ∧ len t <= 255)) (txt_loop fuel M off n total acc).
Proof.
  induction fuel as [|fuel IH]; intros off n total acc Ho Hn Ht Hf Ha; cbn [txt_loop]; destruct (Z.ltb_spec n total); try done; [lia|].
  read_next unpackText_safe. intros [t o] (Hb&Hl&->). pose proof (len_nonneg t). rewrite (u16_id (len t)) by (unfold is_u16; lia).
  rewrite (u16_id (len t + 1)), (u16_id (total - n)) by (unfold is_u16; lia). destruct (Z.ltb_spec (total - n) (len t + 1)); [done|].
  rewrite u16_id by (unfold is_u16; lia). apply IH; try lia. apply list.Forall_app. split; [done|]. by apply Forall_singleton.
Qed.
Lemma opt_loop_safe fuel : ∀ off last acc, 0 <= off → last - off <= Z.of_nat fuel →
  Forall (λ o, is_u16 (Code o) ∧ is_bytes (opt_Data o) ∧ len (opt_Data o) <= 65535) acc →
  safe (Forall (λ o, is_u16 (Code o) ∧ is_bytes (opt_Data o) ∧ len (opt_Data o) <= 65535)) (opt_loop fuel M off last acc).
Proof.
  induction fuel as [|fuel IH]; intros off last acc Ho Hf Ha; cbn [opt_loop]; destruct (Z.ltb_spec off last); try done; [lia|].
  read_next unpack16_safe. intros [c o1] (Hc&->&_). read_next unpack16_safe. intros [l o2] (Hl&->&Ho2). unfold is_u16 in Hl.
  eapply safe_bind; [apply safe_from; lia|]. intros rest ->. set (rest := drop _ M). destruct (Z.eqb_spec (Z.min l (len rest)) l); cbn [negb]; [|done].
  eapply safe_bind; [apply safe_upto; lia|]. intros data ->. apply IH; [lia|lia|]. apply list.Forall_app. split; [done|]. apply Forall_singleton. cbn.
  split; [done|]. split; [unfold rest; auto with gorange|]. unfold len in *. rewrite length_take. lia.
Qed.
Lemma Name_safe off : 0 <= off → safe (λ '(n, o), canonical n ∧ 0 <= o) (Name_unpack M off).
Proof. apply name_safe. Qed.
Lemma CNAME_safe off : 0 <= off → safe (λ r, body_formed (BodyCNAME r)) (unpackCNAMEResource M off).
Proof. intros Ho. unfold unpackCNAMEResource. read_next Name_safe. by intros [n o] [H _]. Qed.
Lemma MX_safe off : 0 <= off → safe (λ r, body_formed (BodyMX r)) (unpackMXResource M off).
Proof. intros Ho. unfold unpackMXResource. read_next unpack16_safe. intros [a o1] (H1&->&_). read_next Name_safe. intros [b o2] [H2 ?]. by cbn. Qed.
Lemma NS_safe off : 0 <= off → safe (λ r, body_formed (BodyNS r)) (unpackNSResource M off).
Proof. intros Ho. unfold unpackNSResource. read_next Name_safe. by intros [n o] [H _]. Qed.
Lemma PTR_safe off : 0 <= off → safe (λ r, body_formed (BodyPTR r)) (unpackPTRResource M off).
Proof. intros Ho. unfold unpackPTRResource. read_next Name_safe. by intros [n o] [H _]. Qed.
Lemma SOA_safe off : 0 <= off → safe (λ r, body_formed (BodySOA r)) (unpackSOAResource M off).
Proof.
  intros Ho. unfold unpackSOAResource. read_next Name_safe. intros [a o1] [H1 ?]. read_next Name_safe. intros [b o2] [H2 ?].
  read_next unpack32_safe. intros [c o3] (H3&->&_). read_next unpack32_safe. intros [d o4] (H4&->&_). read_next unpack32_safe. intros [e o5] (H5&->&_).
  read_next unpack32_safe. intros [f o6] (H6&->&_). read_next unpack32_safe. intros [g o7] (H7&->&_). by cbn.
Qed.
Lemma TXT_safe off n : 0 <= off → is_u16 n → safe (λ r, body_formed (BodyTXT r)) (unpackTXTResource M off n).
Proof. intros Ho Hn. unfold is_u16 in Hn. unfold unpackTXTResource. eapply safe_bind; [apply txt_loop_safe; try lia; constructor|]. intros t H. exact H. Qed.
Lemma SRV_safe off : 0 <= off → safe (λ r, body_formed (BodySRV r)) (unpackSRVResource M off).
Proof.
  intros Ho. unfold unpackSRVResource. read_next unpack16_safe. intros [a o1] (H1&->&_). read_next unpack16_safe. intros [b o2] (H2&->&_).
  read_next unpack16_safe. intros [c o3] (H3&->&_). read_next name_safe. intros [d o4] [H4 ?]. by cbn.
Qed.
Lemma A_safe off : 0 <= off → safe (λ r, body_formed (BodyA r)) (unpackAResource M off).
Proof. intros Ho. unfold unpackAResource. read_next unpackBytes_safe. intros [t o] H. exact H. Qed.
Lemma AAAA_safe off : 0 <= off → safe (λ r, body_formed (BodyAAAA r)) (unpackAAAAResource M off).
Proof. intros Ho. unfold unpackAAAAResource. read_next unpackBytes_safe. intros [t o] H. exact H. Qed.
Lemma OPT_safe off n : 0 <= off → is_u16 n → safe (λ r, body_formed (BodyOPT r)) (unpackOPTResource M off n).
Proof. intros Ho Hn. unfold is_u16 in Hn. unfold unpackOPTResource. eapply safe_bind; [apply opt_loop_safe; try lia; constructor|]. intros t H. exact H. Qed.
Lemma Unknown_safe t off n : 0 <= off → is_u16 n → safe (λ r, u_Type r = t ∧ is_bytes (u_Data r) ∧ len (u_Data r) <= 65535) (unpackUnknownResource t M off n).
Proof. intros Ho Hn. unfold is_u16 in Hn. unfold unpackUnknownResource. read_next unpackBytes_safe. intros [d o] [H1 H2]. cbn. split; [done|]. split; [done|lia]. Qed.
(** A type that has a body of its own, unpacked by [H]. *)
Ltac body_branch H := apply safe_nest; eapply safe_bind; [apply H; done|]; intros r Hr; split; [done|exact Hr].
Lemma body_safe off hdr : 0 <= off → is_u16 (rh_Length hdr) →
  safe (λ '(b, o), realType b = rh_Type hdr ∧ body_formed b ∧ o = off + rh_Length hdr) (unpackResourceBody M off hdr).
Proof.
  intros Ho Hl. unfold unpackResourceBody. eapply (safe_bind (λ b, realType b = rh_Type hdr ∧ body_formed b)); [|intros b [Ht Hb]; by cbn].
  destruct (Z.eqb_spec (rh_Type hdr) TypeA) as [->|]; [body_branch A_safe|]. destruct (Z.eqb_spec (rh_Type hdr) TypeNS) as [->|]; [body_branch NS_safe|].
  destruct (Z.eqb_spec (rh_Type hdr) TypeCNAME) as [->|]; [body_branch CNAME_safe|]. destruct (Z.eqb_spec (rh_Type hdr) TypeSOA) as [->|]; [body_branch SOA_safe|].
  destruct (Z.eqb_spec (rh_Type hdr) TypePTR) as [->|]; [body_branch PTR_safe|]. destruct (Z.eqb_spec (rh_Type hdr) TypeMX) as [->|]; [body_branch MX_safe|].
  destruct (Z.eqb_spec (rh_Type hdr) TypeTXT) as [->|]; [body_branch TXT_safe|]. destruct (Z.eqb_spec (rh_Type hdr) TypeAAAA) as [->|]; [body_branch AAAA_safe|].
  destruct (Z.eqb_spec (rh_Type hdr) TypeSRV) as [->|]; [body_branch SRV_safe|]. destruct (Z.eqb_spec (rh_Type hdr) TypeOPT) as [->|]; [body_branch OPT_safe|].
  apply safe_nest. eapply safe_bind; [by apply Unknown_safe|]. intros r (Ht&Hb&Hn). cbn. split; [done|]. split; [|done].
  rewrite Ht. unfold known. cbn [existsb]. by rewrite !(proj2 (Z.eqb_neq _ _)) by done.
Qed.
Lemma header_safe off : 0 <= off → safe (λ '(h, o), header_formed h ∧ 0 <= o) (ResourceHeader_unpack M off).
Proof.
  intros Ho. unfold ResourceHeader_unpack, unpackType, unpackClass. read_next name_safe. intros [n o1] [H1 ?].
  read_next unpack16_safe. intros [t o2] (H2&->&_). read_next unpack16_safe. intros [c o3] (H3&->&_). read_next unpack32_safe. intros [l o4] (H4&->&_).
  read_next unpack16_safe. intros [k o5] (H5&->&_). cbn. split; [by split|lia].
Qed.
Lemma skipResource_safe off : 0 <= off → safe (λ o, 0 <= o) (skipResource M off).
Proof.
  intros Ho. unfold skipResource, skipType, skipClass. read_next skipName_safe. intros o1 Ho1. cbn beta in Ho1.
  read_next skip16_safe. intros o2 [-> _]. read_next skip16_safe. intros o3 [-> _]. read_next skip32_safe. intros o4 [-> _].
  read_next unpack16_safe. intros [k o5] (H5&->&_). unfold is_u16 in H5. destruct (_ >? _); [done|]. cbn. lia.
Qed.
End safety.

(** ** The parser's invariant *)
(** The fields of a parser that is written out. *)
Ltac fields :=
  cbn [p_msg p_header p_section p_off p_index resHeaderValid resHeaderOffset resHeaderType resHeaderLength set_valid set_off next_index next_section] in *.
Ltac conjuncts := repeat (split; [done|]); done.
Ltac advance Hs := constructor; fields; rewrite ?Hs in *; done || lia.
Record parser_ok (p : Parser) : Prop := {
  ok_bytes : is_bytes (p_msg p);
  ok_header : wire_ok (p_header p);
  ok_section : 0 <= p_section p <= sectionDone;
  ok_off : 0 <= p_off p;
  ok_back : 0 <= resHeaderOffset p;
  ok_length : is_u16 (resHeaderLength p);
  ok_index : 0 <= p_index p <= header_count (p_header p) (p_section p);
  ok_valid : resHeaderValid p = true → p_index p < header_count (p_header p) (p_section p) }.
Lemma count_range h sec : wire_ok h → 0 <= header_count h sec <= 65535.
Proof.
  intros (H1&H2&H3&H4&H5&H6). unfold header_count, is_u16 in *.
  destruct (sec =? sectionQuestions); [lia|]. destruct (sec =? sectionAnswers); [lia|]. destruct (sec =? sectionAuthorities); [lia|]. destruct (sec =? sectionAdditionals); lia.
Qed.
Lemma Start_ok msg p : is_bytes msg → runs (Parser_Start msg) p (λ h p', parser_ok p' ∧ match h with Some h => header_ok h | None => True end).
Proof.
  intros Hm. unfold Parser_Start, runs. assert (Hs : safe (λ '(h, o), wire_ok h ∧ 0 <= o) (header_unpack msg 0)).
  { unfold header_unpack. eapply safe_bind; [apply safe_nest, unpack16_safe; [done|lia]|]. intros [a o1] (H1&->&_).
    eapply safe_bind; [apply safe_nest, unpack16_safe; [done|lia]|]. intros [b o2] (H2&->&_). eapply safe_bind; [apply safe_nest, unpack16_safe; [done|lia]|]. intros [c o3] (H3&->&_).
    eapply safe_bind; [apply safe_nest, unpack16_safe; [done|lia]|]. intros [d o4] (H4&->&_). eapply safe_bind; [apply safe_nest, unpack16_safe; [done|lia]|]. intros [e o5] (H5&->&_).
    eapply safe_bind; [apply safe_nest, unpack16_safe; [done|lia]|]. intros [f o6] (H6&->&_). by cbn. }
  assert (Hz : parser_ok (MkParser msg zero_header sectionNotStarted 0 0 false 0 0 0)).
  { by constructor; try done; unfold sectionNotStarted, sectionDone. }
  destruct (header_unpack msg 0) as [[h o]|e|m]; cbn [nest safe] in *; [|by split|done].
  destruct Hs as [Hw Ho]. split.
  - pose proof (count_range h sectionQuestions Hw) as Hq. change (header_count h sectionQuestions) with (questions h) in Hq.
    by constructor; cbn; try done; try (unfold is_u16, sectionQuestions, sectionDone; lia).
  - destruct Hw as (H1&H2&_). unfold header_ok, header_header, is_u16 in *. cbn [ID OpCode RCode].
    change 0xF with (2 ^ 4 - 1). rewrite !land_ones_mod by lia. split; [done|]. split; apply Z.mod_pos_bound; lia.
Qed.
Definition stays (p p' : Parser) : Prop := p_msg p' = p_msg p ∧ p_header p' = p_header p.
Lemma checkAdvance_ok sec p : sec < sectionDone → parser_ok p →
  runs (checkAdvance sec) p (λ a p', parser_ok p' ∧ match a with
    | Some _ => p_section p = sec ∧ p_index p < header_count (p_header p) sec ∧ p' = set_valid false p
    | None => True end).
Proof.
  intros Hsec Hp. destruct Hp as [H1 H2 H3 H4 H5 H6 H7 H8]. destruct p as [m h s o i v ho ht hl]. fields.
  unfold runs, checkAdvance, get, mbind, stateful_bind. cbn [p_section]. destruct (Z.ltb_spec s sec); [cbn; split; [by constructor|done]|].
  rewrite Z.gtb_ltb. destruct (Z.ltb_spec sec s); [cbn; split; [by constructor|done]|]. assert (s = sec) as -> by lia. unfold modify. fields.
  destruct (Z.eqb_spec i (header_count h sec)) as [E|Hn]; cbn.
  - split; [|done]. constructor; cbn; try done. 2: { pose proof (count_range h (u8 (sec + 1)) H2). lia. } 
    unfold sectionDone in *. rewrite u8_id by (unfold is_u8; lia). lia.
  - split; [by constructor|]. split; [done|]. split; [lia|done].
Qed.
Lemma resourceHeader_ok sec p : sec < sectionDone → parser_ok p →
  runs (resourceHeader sec) p (λ a p', parser_ok p' ∧ match a with
    | Some hdr => header_formed hdr ∧ stays p p' ∧ p_section p = sec ∧ p_section p' = sec ∧ p_index p' = p_index p ∧ p_index p < header_count (p_header p) sec
    | None => True end).
Proof.
  intros Hsec Hp. unfold resourceHeader. apply runs_bind. unfold modify, runs at 1. set (p0 := if resHeaderValid p then _ else p).
  assert (Hp0 : parser_ok p0 ∧ stays p p0 ∧ p_section p0 = p_section p ∧ p_index p0 = p_index p).
  { unfold p0. destruct (resHeaderValid p) eqn:Ev; [|done]. split; [|done]. destruct Hp as [H1 H2 H3 H4 H5 H6 H7 H8]. by constructor. }
  destruct Hp0 as (Hp0&[Em Eh]&Es&Ei). apply runs_bind. eapply runs_mono; [by apply checkAdvance_ok|]. intros [[]|] p1 [Hp1 H]; [|by split]. destruct H as (Hs&Hi&->).
  unfold get. apply runs_bind. cbn [runs]. apply runs_bind. destruct Hp1 as [H1 H2 H3 H4 H5 H6 H7 H8].
  apply runs_lift; [|split; [by constructor|done]]. eapply safe_mono; [apply header_safe; done|]. intros [hdr o] [Hh Ho]. unfold put. apply runs_bind. cbn [runs].
  cbn in *. split.
  - constructor; cbn; try done; [apply Hh|]. intros _. by rewrite Hs.
  - unfold stays. fields. rewrite <- Es, <- Ei, <- Eh. conjuncts.
Qed.
Definition advanced (sec : Z) (p p' : Parser) : Prop := stays p p' ∧ p_section p = sec ∧ p_section p' = sec ∧ p_index p' = p_index p + 1.
Definition record_formed (r : Resource) : Prop := header_formed (r_Header r) ∧ ∃ b, r_Body r = Some b ∧ realType b = rh_Type (r_Header r) ∧ body_formed b.
Lemma resource_safe sec p : sec < sectionDone → parser_ok p →
  runs (resource sec) p (λ a p', parser_ok p' ∧ match a with Some r => record_formed r ∧ advanced sec p p' | None => True end).
Proof.
  intros Hsec Hp. unfold resource. apply runs_bind. eapply runs_mono; [by apply resourceHeader_ok|]. intros [hdr|] p1 [Hp1 H]; [|by split].
  destruct H as (Hh&[Em Eh]&Hs&Hs1&Hi&Hlt). unfold modify, get. apply runs_bind. cbn [runs]. apply runs_bind. cbn [runs]. apply runs_bind, runs_catching.
  destruct Hp1 as [H1 H2 H3 H4 H5 H6 H7 H8]. apply runs_lift; [|split; [by constructor|done]]. cbn [p_msg p_off set_valid].
  eapply safe_mono; [apply body_safe; [done|done|apply Hh]|]. intros [b o] (Ht&Hb&->). apply runs_bind. cbn [runs]. unfold runs, mret, stateful_ret.
  assert (Hl : is_u16 (rh_Length hdr)) by apply Hh. unfold is_u16 in Hl.
  split; [constructor; cbn; try done; [lia|rewrite Hs1, Eh in *; lia]|]. split; [split; [done|]; by exists b|]. cbn. repeat split; try done. cbn. lia.
Qed.
Lemma question_safe p : parser_ok p →
  runs Parser_Question p (λ a p', parser_ok p' ∧ match a with Some q => (canonical (q_Name q) ∧ is_u16 (q_Type q) ∧ is_u16 (q_Class q)) ∧ advanced sectionQuestions p p' | None => True end).
Proof.
  intros Hp. unfold Parser_Question. apply runs_bind. eapply runs_mono; [by apply checkAdvance_ok|]. intros [[]|] p1 [Hp1 H]; [|by split]. destruct H as (Hs&Hi&->).
  pose proof Hp1 as [H1 H2 H3 H4 H5 H6 H7 H8]. unfold get. apply runs_bind. cbn [runs]. apply runs_bind.
  apply runs_lift; [|by split]. eapply safe_mono; [apply safe_nest, name_safe; done|]. intros [n o1] [Hn Ho1]. apply runs_bind.
  apply runs_lift; [|by split]. eapply safe_mono; [apply safe_nest, unpack16_safe; done|]. intros [t o2] (Ht&->&_). apply runs_bind.
  apply runs_lift; [|by split]. eapply safe_mono; [apply safe_nest, unpack16_safe; [done|lia]|]. intros [c o3] (Hc&->&_). unfold modify. apply runs_bind. cbn [runs].
  unfold runs, mret, stateful_ret. split; [advance Hs|]. conjuncts.
Qed.
Lemma SkipQuestion_safe p : parser_ok p → runs SkipQuestion p (λ a p', parser_ok p' ∧ match a with Some _ => advanced sectionQuestions p p' | None => True end).
Proof.
  intros Hp. unfold SkipQuestion. apply runs_bind. eapply runs_mono; [by apply checkAdvance_ok|]. intros [[]|] p1 [Hp1 H]; [|by split]. destruct H as (Hs&Hi&->).
  pose proof Hp1 as [H1 H2 H3 H4 H5 H6 H7 H8]. unfold get. apply runs_bind. cbn [runs]. apply runs_bind.
  apply runs_lift; [|by split]. eapply safe_mono; [apply safe_nest, skipName_safe; done|]. intros o1 Ho1. cbn beta in Ho1. apply runs_bind.
  apply runs_lift; [|by split]. eapply safe_mono; [apply safe_nest, skip16_safe|]. intros o2 [-> _]. apply runs_bind.
  apply runs_lift; [|by split]. eapply safe_mono; [apply safe_nest, skip16_safe|]. intros o3 [-> _]. unfold modify, runs.
  split; [advance Hs|]. conjuncts.
Qed.
Lemma skipResource_ok sec p : sec < sectionDone → parser_ok p → runs (Parser_skipResource sec) p (λ a p', parser_ok p' ∧ match a with Some _ => advanced sec p p' | None => True end).
Proof.
  intros Hsec Hp. unfold Parser_skipResource. apply runs_bind. unfold get. cbn [runs]. destruct (resHeaderValid p && (p_section p =? sec)) eqn:Ev.
  - apply andb_true_iff in Ev as [Ev Es%Z.eqb_eq]. pose proof Hp as [H1 H2 H3 H4 H5 H6 H7 H8]. destruct (_ >? _); [by split|]. unfold modify, runs.
    specialize (H8 Ev). unfold is_u16 in H6. split; [advance Es|]. conjuncts.
  - apply runs_bind. eapply runs_mono; [by apply checkAdvance_ok|]. intros [[]|] p1 [Hp1 H]; [|by split]. destruct H as (Hs&Hi&->).
    pose proof Hp1 as [H1 H2 H3 H4 H5 H6 H7 H8]. apply runs_bind. cbn [runs]. apply runs_bind, runs_catching.
    apply runs_lift; [|by split]. eapply safe_mono; [apply skipResource_safe; done|]. intros o Ho. cbn beta in Ho. unfold modify, runs.
    split; [advance Hs|]. conjuncts.
Qed.

(** ** The loops over a section end *)
Definition moves {A} (sec : Z) (P : A → Prop) (one : parsing A) : Prop :=
  ∀ p, parser_ok p → runs one p (λ a p', parser_ok p' ∧ match a with Some a => P a ∧ advanced sec p p' | None => True end).
(** Turns enough: one more than the records left, if the section is the parser's. *)
Definition enough (sec : Z) (fuel : nat) (p : Parser) : Prop :=
  (0 < fuel)%nat ∧ (p_section p = sec → header_count (p_header p) sec - p_index p < Z.of_nat fuel).
Lemma section_fuel_enough sec p : parser_ok p → enough sec (section_fuel sec p) p.
Proof. intros Hp. unfold enough, section_fuel. pose proof (ok_index p Hp). split; lia. Qed.
Lemma enough_next sec fuel p p' : parser_ok p' → advanced sec p p' → enough sec (S fuel) p → enough sec fuel p'.
Proof.
  intros Hp' ([_ Eh]&Es&Es'&Ei) [_ He]. specialize (He Es). pose proof (ok_index p' Hp') as Hi. rewrite Es' in Hi. unfold enough. rewrite Eh in *. lia.
Qed.
Lemma all_loop_ok {A} sec (P : A → Prop) one : moves sec P one → ∀ fuel l p, parser_ok p → Forall P l → enough sec fuel p →
  runs (all_loop fuel one l) p (λ a p', parser_ok p' ∧ match a with Some l => Forall P l | None => True end).
Proof.
  intros Hone. induction fuel as [|fuel IH]; intros l p Hp Hl He; [destruct He; lia|]. cbn [all_loop]. apply runs_bind, runs_attempt.
  eapply runs_mono; [by apply Hone|]. intros [a|] p' [Hp' H].
  - destruct H as [Ha Hadv]. apply IH; [done| |by eapply enough_next]. apply list.Forall_app. split; [done|by apply Forall_singleton].
  - intros e. by destruct (decide (e = ErrSectionDone)).
Qed.
Lemma all_of_ok {A} sec (P : A → Prop) one p : moves sec P one → parser_ok p →
  runs (all_of sec one) p (λ a p', parser_ok p' ∧ match a with Some l => Forall P l | None => True end).
Proof. intros Hone Hp. apply (all_loop_ok sec P one Hone); [done|constructor|by apply section_fuel_enough]. Qed.
Lemma skip_all_loop_ok sec one : moves sec (λ _, True) one → ∀ fuel p, parser_ok p → enough sec fuel p →
  runs (skip_all_loop fuel one) p (λ _ p', parser_ok p').
Proof.
  intros Hone. induction fuel as [|fuel IH]; intros p Hp He; [destruct He; lia|]. cbn [skip_all_loop]. apply runs_bind, runs_attempt.
  eapply runs_mono; [by apply Hone|]. intros [a|] p' [Hp' H].
  - destruct H as [_ Hadv]. apply IH; [done|by eapply enough_next].
  - intros e. by destruct (decide (e = ErrSectionDone)).
Qed.
Lemma skip_all_ok sec one p : moves sec (λ _, True) one → parser_ok p → runs (skip_all sec one) p (λ _ p', parser_ok p').
Proof. intros Hone Hp. apply (skip_all_loop_ok sec one Hone); [done|by apply section_fuel_enough]. Qed.

(** The methods of one question or record. *)
Definition question_formed (q : Question) : Prop := canonical (q_Name q) ∧ is_u16 (q_Type q) ∧ is_u16 (q_Class q).
Lemma Question_moves : moves sectionQuestions question_formed Parser_Question.
Proof. intros p Hp. by apply question_safe. Qed.
Lemma resource_moves sec : sec < sectionDone → moves sec record_formed (resource sec).
Proof. intros Hs p Hp. by apply resource_safe. Qed.
Lemma SkipQuestion_moves : moves sectionQuestions (λ _, True) SkipQuestion.
Proof. intros p Hp. eapply runs_mono; [by apply SkipQuestion_safe|]. intros [[]|] p' [H1 H2]; auto. Qed.
Lemma skipResource_moves sec : sec < sectionDone → moves sec (λ _, True) (Parser_skipResource sec).
Proof. intros Hs p Hp. eapply runs_mono; [by apply skipResource_ok|]. intros [[]|] p' [H1 H2]; auto. Qed.
(** The methods that read the body of a record whose header was read. *)
Lemma typed_ok {A} right_type (unpack : Parser → res A) p : parser_ok p → safe (λ _, True) (unpack p) →
  runs (typed_resource right_type unpack) p (λ _ p', parser_ok p').
Proof.
  intros Hp Hu. unfold typed_resource. apply runs_bind. unfold get. cbn [runs]. destruct (resHeaderValid p) eqn:Ev; [|done].
  cbn [negb orb]. destruct (negb _); [done|]. apply runs_bind, runs_lift; [|done]. eapply safe_mono; [exact Hu|]. intros r _.
  destruct Hp as [H1 H2 H3 H4 H5 H6 H7 H8]. specialize (H8 Ev). unfold is_u16 in H6. unfold modify, runs. constructor; fields; done || lia.
Qed.

(** ** Any calls, in any order *)
Inductive call : Type :=
  | CStart (msg : bytes)
  | CQuestion | CAllQuestions | CSkipQuestion | CSkipAllQuestions
  | CAnswerHeader | CAnswer | CAllAnswers | CSkipAnswer | CSkipAllAnswers
  | CAuthorityHeader | CAuthority | CAllAuthorities | CSkipAuthority | CSkipAllAuthorities
  | CAdditionalHeader | CAdditional | CAllAdditionals | CSkipAdditional | CSkipAllAdditionals
  | CCNAME | CMX | CNS | CPTR | CSOA | CTXT | CSRV | CA | CAAAA | COPT | CUnknown.
(** A call whose result, value or error, is not looked at. *)
Definition ignore {A} (m : parsing A) : parsing unit := _ ← attempt m; mret tt.
Definition perform (c : call) : parsing unit :=
  match c with
  | CStart msg => ignore (Parser_Start msg)
  | CQuestion => ignore Parser_Question
  | CAllQuestions => ignore AllQuestions
  | CSkipQuestion => ignore SkipQuestion
  | CSkipAllQuestions => ignore SkipAllQuestions
  | CAnswerHeader => ignore AnswerHeader
  | CAnswer => ignore Answer
  | CAllAnswers => ignore AllAnswers
  | CSkipAnswer => ignore SkipAnswer
  | CSkipAllAnswers => ignore SkipAllAnswers
  | CAuthorityHeader => ignore AuthorityHeader
  | CAuthority => ignore Authority
  | CAllAuthorities => ignore AllAuthorities
  | CSkipAuthority => ignore SkipAuthority
  | CSkipAllAuthorities => ignore SkipAllAuthorities
  | CAdditionalHeader => ignore AdditionalHeader
  | CAdditional => ignore Additional
  | CAllAdditionals => ignore AllAdditionals
  | CSkipAdditional => ignore SkipAdditional
  | CSkipAllAdditionals => ignore SkipAllAdditionals
  | CCNAME => ignore Parser_CNAMEResource
  | CMX => ignore Parser_MXResource
  | CNS => ignore Parser_NSResource
  | CPTR => ignore Parser_PTRResource
  | CSOA => ignore Parser_SOAResource
  | CTXT => ignore Parser_TXTResource
  | CSRV => ignore Parser_SRVResource
  | CA => ignore Parser_AResource
  | CAAAA => ignore Parser_AAAAResource
  | COPT => ignore Parser_OPTResource
  | CUnknown => ignore Parser_UnknownResource
  end.
Fixpoint session (calls : list call) : parsing unit :=
  match calls with [] => mret tt | c :: calls => _ ← perform c; session calls end.
Definition call_ok (c : call) : Prop := match c with CStart msg => is_bytes msg | _ => True end.

Lemma ignore_ok {A} (m : parsing A) p Q : runs m p (λ a p', parser_ok p' ∧ Q a p') → runs (ignore m) p (λ _ p', parser_ok p').
Proof. intros H. unfold ignore. apply runs_bind, runs_attempt. eapply runs_mono; [exact H|]. intros [a|] p' [Hp' _]; [|intros e]; apply Hp'. Qed.
Lemma ignore_skips {A} (m : parsing A) p : runs m p (λ _ p', parser_ok p') → runs (ignore m) p (λ _ p', parser_ok p').
Proof. intros H. apply (ignore_ok m p (λ _ _, True)). eapply runs_mono; [exact H|]. auto. Qed.
Lemma typed_safe {A} right_type (unpack : Parser → res A) (P : A → Prop) p : parser_ok p → safe P (unpack p) →
  runs (ignore (typed_resource right_type unpack)) p (λ _ p', parser_ok p').
Proof. intros Hp Hu. apply ignore_skips, typed_ok; [done|]. eapply safe_mono; [exact Hu|]. auto. Qed.
Lemma perform_ok c p : call_ok c → parser_ok p → runs (perform c) p (λ _ p', parser_ok p').
Proof.
  intros Hc Hp. pose proof Hp as [H1 H2 H3 H4 H5 H6 H7 H8].
  assert (Hs : sectionAnswers < sectionDone ∧ sectionAuthorities < sectionDone ∧ sectionAdditionals < sectionDone) by done. destruct Hs as (Ha&Hu&Hd).
  destruct c; cbn [perform call_ok] in *.
  all: first
    [ eapply ignore_ok, Start_ok, Hc | eapply ignore_ok, Question_moves, Hp | eapply ignore_ok, all_of_ok; [apply Question_moves|done]
    | eapply ignore_ok, SkipQuestion_moves, Hp | eapply ignore_skips, skip_all_ok; [apply SkipQuestion_moves|done]
    | eapply ignore_ok, resourceHeader_ok; done | eapply ignore_ok, resource_moves; done | eapply ignore_ok, all_of_ok; [by apply resource_moves|done]
    | eapply ignore_ok, skipResource_moves; done | eapply ignore_skips, skip_all_ok; [by apply skipResource_moves|done] | eapply typed_safe; [done|] ].
  all: eauto using CNAME_safe, MX_safe, NS_safe, PTR_safe, SOA_safe, TXT_safe, SRV_safe, A_safe, AAAA_safe, OPT_safe, Unknown_safe.
Qed.
Lemma session_ok calls : ∀ p, Forall call_ok calls → parser_ok p → runs (session calls) p (λ _ p', parser_ok p').
Proof.
  induction calls as [|c calls IH]; intros p Hc Hp; [done|]. apply list.Forall_cons in Hc as [Hc Hcs]. cbn [session].
  apply runs_bind. eapply runs_mono; [by apply perform_ok|]. intros [[]|] p' Hp'; [by apply IH|done].
Qed.
Lemma zero_ok : parser_ok zero_Parser.
Proof. constructor; cbn; unfold sectionNotStarted, sectionDone; done || constructor. Qed.

(** A session looks at no result, so that no error ends it. *)
Definition no_error {A} (m : parsing A) : Prop := ∀ p, match m p with (Err _, _) => False | _ => True end.
Lemma ignore_no_error {A} (m : parsing A) : no_error (ignore m).
Proof. intros p. unfold ignore, attempt, mbind, stateful_bind. by destruct (m p) as [[] ?]. Qed.
Lemma session_never_fails calls : no_error (session calls).
Proof.
  induction calls as [|c calls IH]; intros p; [done|]. cbn [session]. unfold mbind, stateful_bind.
  assert (He : no_error (perform c)) by (destruct c; apply ignore_no_error). specialize (He p).
  destruct (perform c p) as [[[]|e|m] p']; [apply IH|done|done].
Qed.

(** C27: whatever methods of a parser are called, in whatever order, on whatever
    bytes and whatever they return, none panics, the loops over a section end,
    and the parser's state stays well formed: its section between the first and
    the last, its index at most the section's count, its offsets not negative. *)
Theorem Parser_session_safe calls : Forall call_ok calls → runs (session calls) zero_Parser (λ a p, a = Some tt ∧ parser_ok p).
Proof.
  intros Hc. assert (Hr : runs (session calls) zero_Parser (λ _ p, parser_ok p)) by (apply session_ok; [done|apply zero_ok]).
  pose proof (session_never_fails calls zero_Parser) as Ht. unfold runs in *. destruct (session calls zero_Parser) as [[[]|e|m] p']; done.
Qed.
(** A response with a loop of pointers and too few records. *)
Definition odd_message : bytes := [0; 1; 0x84; 0; 0; 1; 0; 2; 0; 0; 0; 0; 0xC0; 12; 0; 1; 0; 1].
Lemma Parser_session_safe_witness :
  runs (session [CStart odd_message; CAnswer; CQuestion; CSkipQuestion; CQuestion; CAllAnswers; CSkipAllAnswers; CTXT]) zero_Parser (λ a p, a = Some tt ∧ parser_ok p).
Proof. apply Parser_session_safe. 
  apply list.Forall_cons. split; [|repeat (apply list.Forall_cons; split; [exact I|]); constructor].
  repeat (apply list.Forall_cons; split; [unfold is_u8; lia|]). constructor.
Defined.

Definition message_formed (m : Message) : Prop :=
  header_ok (m_Header m) ∧ Forall question_formed (Questions m) ∧
  Forall record_formed (Answers m) ∧ Forall record_formed (Authorities m) ∧ Forall record_formed (Additionals m).
(** C26: unpacking any bytes ends, without a panic, with an error or with a
    well-formed message: the header's fields fit, names are the text of labels
    without dots and of at most 254 bytes, every record's body is of the type its
    header says, addresses have four or sixteen bytes, texts at most 255. *)
Theorem Unpack_total msg : is_bytes msg → safe message_formed (Unpack msg).
Proof.
  intros Hm. unfold Unpack. apply runs_fst.
  apply runs_bind. eapply runs_mono; [by apply Start_ok|]. intros [h|] p [Hp Hh]; [|done].
  apply runs_bind. eapply runs_mono; [eapply all_of_ok; [apply Question_moves|done]|]. intros [qs|] p1 [Hp1 Hq]; [|done].
  apply runs_bind. eapply runs_mono; [eapply all_of_ok; [by apply resource_moves|done]|]. intros [an|] p2 [Hp2 Hn]; [|done].
  apply runs_bind. eapply runs_mono; [eapply all_of_ok; [by apply resource_moves|done]|]. intros [au|] p3 [Hp3 Hu]; [|done].
  apply runs_bind. eapply runs_mono; [eapply all_of_ok; [by apply resource_moves|done]|]. intros [ad|] p4 [Hp4 Hd]; [|done].
  by unfold runs, mret, stateful_ret.
Qed.
Lemma Unpack_total_witness : safe message_formed (Unpack odd_message).
Proof. apply Unpack_total. repeat (apply list.Forall_cons; split; [unfold is_u8; lia|]). constructor. Defined.
(** An option may lie outside the record it is read from. *)
Lemma option_overruns : unpackOPTResource [0; 3; 0; 2; 1; 2] 0 1 = Ok (MkOPT [MkOption 3 [1; 2]]).
Proof. reflexivity. Qed.
