(* ===== verification/DnsBuilderProps.v ===== *)
(** * dnsmessage: the builder

    A message built section by section is the message packed at once; and what a
    failed call leaves in the builder's table of names. *)
From stdpp Require Import gmap.
From S2P Require Import Prelude Stateful DnsWire DnsRecords DnsParser DnsWireProps DnsRecordsProps DnsMessageProps.

(** ** A client that builds a message *)
Definition add_body (h : ResourceHeader) (b : ResourceBody) : building unit :=
  match b with
  | BodyCNAME r => Builder_CNAMEResource h r
  | BodyMX r => Builder_MXResource h r
  | BodyNS r => Builder_NSResource h r
  | BodyPTR r => Builder_PTRResource h r
  | BodySOA r => Builder_SOAResource h r
  | BodyTXT r => Builder_TXTResource h r
  | BodySRV r => Builder_SRVResource h r
  | BodyA r => Builder_AResource h r
  | BodyAAAA r => Builder_AAAAResource h r
  | BodyOPT r => Builder_OPTResource h r
  | BodyUnknown r => Builder_UnknownResource h r
  end.
Definition add_record (r : Resource) : building unit :=
  match r_Body r with Some b => add_body (r_Header r) b | None => fail errNilResouceBody end.
Fixpoint each {A} (one : A → building unit) (l : list A) : building unit :=
  match l with [] => mret tt | a :: l => _ ← one a; each one l end.
Definition build (m : Message) : building bytes :=
  _ ← EnableCompression;
  _ ← StartQuestions; _ ← each Builder_Question (Questions m);
  _ ← StartAnswers; _ ← each add_record (Answers m);
  _ ← StartAuthorities; _ ← each add_record (Authorities m);
  _ ← StartAdditionals; _ ← each add_record (Additionals m);
  Finish.
Lemma add_body_what h b : ∃ what, add_body h b = add_resource what h b.
Proof.
  destruct b; cbn [add_body]; eexists;
    unfold Builder_CNAMEResource, Builder_MXResource, Builder_NSResource, Builder_PTRResource, Builder_SOAResource, Builder_TXTResource,
      Builder_SRVResource, Builder_AResource, Builder_AAAAResource, Builder_OPTResource, Builder_UnknownResource; reflexivity.
Qed.

(** ** Packing the same at the same place *)
Lemma question_total q : canonical (q_Name q) → total (enc_question q) 259.
Proof.
  intros Hn. apply (total_seq _ _ 255 4); [apply total_catching, total_name, Hn|by apply total_const|lia].
Qed.
Lemma question_run q b T pos : canonical (q_Name q) → 0 <= pos → ∃ x T', enc_question q pos T = (Ok x, T') ∧ len x <= 259 ∧
  ∀ w, len w = pos → Question_pack q (b ++ w) (len b) T = (Ok (b ++ w ++ x), T').
Proof.
  intros Hq Hpos. destruct (question_total q Hq pos T Hpos) as (x&T'&E&Hx). exists x, T'. split; [done|]. split; [done|]. intros w Hw.
  apply (packs_run _ _ b w T x T' (Question_pack_enc q)). by rewrite Hw.
Qed.
(** The bytes of a record: its name, the rest of its header, its body. *)
Definition record_bytes (h : ResourceHeader) (body : ResourceBody) (pos : Z) (T : table) (x : bytes) (l : Z) : Prop := ∃ xn T1 xb T2,
  l = len xb ∧   enc_name (rh_Name h) pos T = (Ok xn, T1) ∧ enc_body body (pos + len xn + 10) T1 = (Ok xb, T2) ∧
  x = xn ++ head_bytes (realType body) (rh_Class h) (rh_TTL h) (len xb) ++ xb.
(** The three parts of packing a record. *)
Lemma record_run h body b T pos : name_good (rh_Name h) → body_ok body → 0 <= pos → ∃ x l T1 T2, record_bytes h body pos T x l ∧ ∀ w, len w = pos → ∃ m lenOff m2,
  ResourceHeader_pack (set_Type (realType body) h) (b ++ w) (len b) T = (Ok (m, lenOff), T1) ∧
  ResourceBody_pack body m (len b) T1 = (Ok m2, T2) ∧
  fixLen (set_Type (realType body) h) m2 lenOff (len m) = Ok (b ++ w ++ x, set_Length l (set_Type (realType body) h)).
Proof.
  intros [Hn _] Hb Hpos. destruct (total_name _ Hn pos T Hpos) as (xn&T1&En&_). pose proof (len_nonneg xn).
  destruct (total_body body Hb (pos + len xn + 10) T1) as (xb&T2&Eb&Hxb); [lia|].
  set (hb l := head_bytes (realType body) (rh_Class h) (rh_TTL h) l). assert (Hhb : ∀ l, len (hb l) = 10) by done.
  exists (xn ++ hb (len xb) ++ xb), (len xb), T1, T2. split; [by exists xn, T1, xb, T2|]. intros w Hw.
  exists ((b ++ w ++ xn) ++ hb (rh_Length h)), (len ((b ++ w ++ xn) ++ enc16 (realType body) ++ enc16 (rh_Class h) ++ enc32 (rh_TTL h))), ((b ++ w ++ xn) ++ hb (rh_Length h) ++ xb).
  split; [|split].
  - unfold ResourceHeader_pack, catching, mbind, stateful_bind. cbn [rh_Name rh_Type rh_Class rh_TTL rh_Length set_Type].
    rewrite (packs_run _ _ b w T xn T1 (Name_pack_enc (rh_Name h))) by (by rewrite Hw). unfold mret, stateful_ret.
    unfold hb, head_bytes, packUint32, packClass, packType, packUint16, enc32, enc16. by rewrite <- !app_assoc.
  - replace ((b ++ w ++ xn) ++ hb (rh_Length h)) with (b ++ (w ++ xn ++ hb (rh_Length h))) by (by rewrite <- !app_assoc).
    rewrite (packs_run _ _ b (w ++ xn ++ hb (rh_Length h)) T1 xb T2 (ResourceBody_pack_enc body)); [by rewrite <- !app_assoc|].
    rewrite <- Eb. f_equal. rewrite !len_app, Hhb. lia.
  - unfold hb. rewrite fixLen_run by lia. by rewrite <- !app_assoc.
Qed.

(** ** The builder beside AppendPack *)
Section built.
Context (b : bytes).
(** A builder that appends to [b]. *)
Definition builder (w : bytes) (sec : Z) (h : header) (T : table) : Builder := MkBuilder (b ++ w) sec h (len b) T.
Definition in_body (sec : Z) : Prop := sec = sectionAnswers ∨ sec = sectionAuthorities ∨ sec = sectionAdditionals.
Lemma count_set sec x h : sec = sectionQuestions ∨ in_body sec → header_count (set_count sec x h) sec = x.
Proof. by intros [->|[->|[->| ->]]]. Qed.
Lemma set_set sec x y h : set_count sec y (set_count sec x h) = set_count sec y h.
Proof. unfold set_count. by destruct (sec =? sectionQuestions), (sec =? sectionAnswers), (sec =? sectionAuthorities). Qed.
Lemma set_same sec h : sec = sectionQuestions ∨ in_body sec → set_count sec (header_count h sec) h = h.
Proof. destruct h. by intros [->|[->|[->| ->]]]. Qed.
Lemma increment_run w sec h T : sec = sectionQuestions ∨ in_body sec → header_count h sec < 65535 →
  incrementSectionCount (builder w sec h T) = (Ok tt, builder w sec (set_count sec (header_count h sec + 1) h) T).
Proof.
  intros Hs Hc. unfold incrementSectionCount, get, modify, mbind, stateful_bind, builder. cbn [b_section b_header].
  assert (Eg : (sec <? sectionQuestions) || (sec >? sectionAdditionals) = false) by (by destruct Hs as [->|[->|[->| ->]]]).
  rewrite Eg, (proj2 (Z.eqb_neq _ _)) by lia. done.
Qed.
Lemma question_built q w w' T h : canonical (q_Name q) → len w = len w' → questions h < 65535 → ∃ x T',
  enc_question q (len w) T = (Ok x, T') ∧ len x <= 259 ∧ Question_pack q (b ++ w) (len b) T = (Ok (b ++ w ++ x), T') ∧
  Builder_Question q (builder w' sectionQuestions h T) = (Ok tt, builder (w' ++ x) sectionQuestions (set_count sectionQuestions (questions h + 1) h) T').
Proof.
  intros Hq Hw Hc. destruct (question_run q b T (len w) Hq (len_nonneg w)) as (x&T'&Ex&Hx&E). exists x, T'. split; [done|]. split; [done|]. split; [by apply E|].
  unfold Builder_Question, get, with_table, zoom, mbind, stateful_bind. cbn [b_section b_msg b_start b_compression builder]. cbn [Z.ltb Z.gtb Z.compare Pos.compare Pos.compare_cont sectionQuestions].
  rewrite E by done. change (set_compression T' (builder w' sectionQuestions h T)) with (builder w' sectionQuestions h T').
  rewrite increment_run by first [by left|exact Hc]. done.
Qed.
Lemma record_built what sec r w w' T h : resource_ok r → in_body sec → len w = len w' → header_count h sec < 65535 → ∃ x r' T',
  (∀ body, r_Body r = Some body → ∃ l, record_bytes (r_Header r) body (len w) T x l ∧ r' = filled r l) ∧ Resource_pack r (b ++ w) (len b) T = (Ok (b ++ w ++ x, r'), T') ∧
  (∀ body, r_Body r = Some body → add_resource what (r_Header r) body (builder w' sec h T) = (Ok tt, builder (w' ++ x) sec (set_count sec (header_count h sec + 1) h) T')).
Proof.
  intros (Hn&_&_&body&Eb&Hb) Hsec Hw Hc. destruct (record_run (r_Header r) body b T (len w) Hn Hb (len_nonneg w)) as (x&l&T1&T2&Hx&Hrun).
  exists x, (MkResource (set_Length l (set_Type (realType body) (r_Header r))) (Some body)), T2. split; [intros body' Eb'; assert (body' = body) as -> by congruence; exists l; split; [exact Hx|unfold filled; by rewrite Eb]|]. split.
  - destruct (Hrun w eq_refl) as (m&lo&m2&E1&E2&E3). unfold Resource_pack, catching, lift, mbind, stateful_bind. by rewrite Eb, E1, E2, E3.
  - intros body' Eb'. assert (body' = body) as -> by congruence. destruct (Hrun w') as (m&lo&m2&E1&E2&E3); [done|].
    unfold add_resource, checkResourceSection, get, with_table, zoom, catching, lift, mbind, stateful_bind, builder. cbn [b_section b_msg b_start b_compression].
    assert (Eg : (sec <? sectionAnswers) = false ∧ (sec >? sectionAdditionals) = false) by (by destruct Hsec as [->|[->| ->]]). destruct Eg as [-> ->].
    cbn [mret stateful_ret]. unfold mret, stateful_ret. cbn [b_section b_msg b_start b_compression]. rewrite E1. cbn [set_compression b_msg b_section b_header b_start b_compression].
    rewrite E2, E3. change (set_compression T2 _) with (builder w' sec h T2).
    rewrite increment_run by first [by right|exact Hc]. done.
Qed.
Lemma questions_built l : Forall question_ok l → ∀ w w' T h, len w = len w' → questions h + len l <= 65535 → ∃ x T',
  pack_questions l (b ++ w) (len b) T = (Ok (b ++ w ++ x), T') ∧
  each Builder_Question l (builder w' sectionQuestions h T) = (Ok tt, builder (w' ++ x) sectionQuestions (set_count sectionQuestions (questions h + len l) h) T').
Proof.
  induction 1 as [|q l Hq _ IH]; intros w w' T h Hw Hc; cbn [pack_questions each].
  { exists [], T. rewrite !app_nil_r. change (len []) with 0. rewrite Z.add_0_r. split; [done|]. by destruct h. }
  rewrite len_cons in Hc. pose proof (len_nonneg l). destruct (question_built q w w' T h (proj1 (proj1 Hq)) Hw) as (x&T1&_&_&E1&E1'); [lia|].
  unfold catching, mbind, stateful_bind. rewrite E1, E1'.
  destruct (IH (w ++ x) (w' ++ x) T1 (set_count sectionQuestions (questions h + 1) h)) as (xs&T2&E2&E2'); [by rewrite !len_app, Hw|cbn; lia|].
  exists (x ++ xs), T2. rewrite E2, E2', set_set, len_cons. rewrite <- !app_assoc. split; [done|]. do 2 f_equal. unfold set_count. cbn. f_equal. lia.
Qed.
Lemma records_built what sec l : Forall resource_ok l → in_body sec → ∀ w w' T h, len w = len w' → header_count h sec + len l <= 65535 → ∃ x l' T',
  pack_resources what l (b ++ w) (len b) T = (Ok (b ++ w ++ x, l'), T') ∧
  each add_record l (builder w' sec h T) = (Ok tt, builder (w' ++ x) sec (set_count sec (header_count h sec + len l) h) T').
Proof.
  intros Hl Hsec. induction Hl as [|r l Hr _ IH]; intros w w' T h Hw Hc; cbn [pack_resources each].
  { exists [], [], T. rewrite !app_nil_r. change (len []) with 0. rewrite Z.add_0_r. split; [done|]. by rewrite set_same by (by right). }
  rewrite len_cons in Hc. pose proof (len_nonneg l). pose proof Hr as (_&_&_&body&Eb&_). destruct (add_body_what (r_Header r) body) as [wh Ewh].
  destruct (record_built wh sec r w w' T h Hr Hsec Hw) as (x&r'&T1&_&E1&E1'); [lia|]. specialize (E1' body Eb).
  unfold catching, mbind, stateful_bind. rewrite E1. unfold add_record at 1. rewrite Eb, Ewh, E1'.
  destruct (IH (w ++ x) (w' ++ x) T1 (set_count sec (header_count h sec + 1) h)) as (xs&l'&T2&E2&E2'); [by rewrite !len_app, Hw|rewrite count_set by (by right); lia|].
  exists (x ++ xs), (r' :: l'), T2. rewrite E2, E2', set_set, count_set, len_cons by (by right). rewrite <- !app_assoc. split; [done|]. do 3 f_equal. lia.
Qed.
(** The sections are started one after the other. *)
Lemma start_run w h T :
  StartQuestions (builder w sectionHeader h T) = (Ok tt, builder w sectionQuestions h T) ∧
  StartAnswers (builder w sectionQuestions h T) = (Ok tt, builder w sectionAnswers h T) ∧
  StartAuthorities (builder w sectionAnswers h T) = (Ok tt, builder w sectionAuthorities h T) ∧
  StartAdditionals (builder w sectionAuthorities h T) = (Ok tt, builder w sectionAdditionals h T).
Proof. done. Qed.
Lemma Finish_run z w sec h T : len z = 12 → sectionHeader <= sec → Finish (builder (z ++ w) sec h T) =
  (Ok (b ++ enc_header h ++ w), builder (enc_header h ++ w) sectionDone h T).
Proof.
  intros Hz Hs. unfold Finish, get, modify, lift, mbind, stateful_bind, builder. cbn [b_section b_msg b_start b_header b_compression set_section set_msg].
  rewrite (proj2 (Z.ltb_ge _ _)) by done.
  rewrite upto_app by done. rewrite (app_assoc b z w), from_app by (rewrite len_app, Hz; done).
  rewrite header_pack_enc. unfold mret, stateful_ret. by rewrite <- !app_assoc.
Qed.
End built.

(** C28: a message built section by section on [buf], with compression, is the
    message that AppendPack appends to it, byte for byte. *)
Theorem build_AppendPack m buf : message_ok m → ∃ w m', AppendPack m buf = Ok (buf ++ w, m') ∧ fst (build m (NewBuilder buf (m_Header m))) = Ok (buf ++ w).
Proof.
  intros (Hh&Hq&Hn&Hu&Hd&Lq&Ln&Lu&Ld). destruct m as [hd qs an au ad]. cbn [m_Header Questions Answers Authorities Additionals] in *.
  unfold AppendPack, NewBuilder. cbn [m_Header Questions Answers Authorities Additionals]. rewrite !Z.gtb_ltb, !(proj2 (Z.ltb_ge _ _)) by lia.
  rewrite (surjective_pairing (Header_pack hd)). pose proof (len_nonneg qs). pose proof (len_nonneg an). pose proof (len_nonneg au). pose proof (len_nonneg ad).
  rewrite !u16_id by (unfold is_u16; lia). set (i := fst (Header_pack hd)). set (f := snd (Header_pack hd)).
  set (h := MkWireHeader i f (len qs) (len an) (len au) (len ad)). rewrite header_pack_enc. set (z := repeat 0 12).
  assert (Ez : len z = 12) by done. assert (Ew : len (enc_header h) = len z) by done.
  destruct (questions_built buf qs Hq (enc_header h) z (Some ∅) (MkWireHeader i f 0 0 0 0) Ew) as (x1&T1&P1&B1); [cbn; lia|].
  destruct (records_built buf "Answer"%go sectionAnswers an Hn ltac:(by left) (enc_header h ++ x1) (z ++ x1) T1 (MkWireHeader i f (len qs) 0 0 0)) as (x2&an'&T2&P2&B2); [by rewrite !len_app, Ew|cbn; lia|].
  destruct (records_built buf "Authority"%go sectionAuthorities au Hu ltac:(by right; left) (enc_header h ++ x1 ++ x2) (z ++ x1 ++ x2) T2 (MkWireHeader i f (len qs) (len an) 0 0)) as (x3&au'&T3&P3&B3); [by rewrite !len_app, Ew|cbn; lia|].
  destruct (records_built buf "Additional"%go sectionAdditionals ad Hd ltac:(by right; right) (enc_header h ++ x1 ++ x2 ++ x3) (z ++ x1 ++ x2 ++ x3) T3 (MkWireHeader i f (len qs) (len an) (len au) 0)) as (x4&ad'&T4&P4&B4); [by rewrite !len_app, Ew|cbn; lia|].
  exists (enc_header h ++ x1 ++ x2 ++ x3 ++ x4), (MkMessage hd qs an' au' ad'). rewrite <- !app_assoc in *. split.
  - unfold mbind, stateful_bind. by rewrite P1, P2, P3, P4.
  - unfold build, EnableCompression, modify, mbind, stateful_bind. cbn [Questions Answers Authorities Additionals].
    change (set_compression _ _) with (builder buf z sectionHeader (MkWireHeader i f 0 0 0 0) (Some ∅)).
    rewrite (proj1 (start_run buf _ _ _)), B1, (proj1 (proj2 (start_run buf _ _ _))).
    change (set_count sectionQuestions _ _) with (MkWireHeader i f (len qs) 0 0 0). rewrite B2, (proj1 (proj2 (proj2 (start_run buf _ _ _)))).
    change (set_count sectionAnswers _ _) with (MkWireHeader i f (len qs) (len an) 0 0). rewrite B3, (proj2 (proj2 (proj2 (start_run buf _ _ _)))).
    change (set_count sectionAuthorities _ _) with (MkWireHeader i f (len qs) (len an) (len au) 0). rewrite B4.
    change (set_count sectionAdditionals _ _) with h. by rewrite Finish_run.
Qed.
Lemma build_AppendPack_witness : ∃ w m', AppendPack sample_message [1; 2] = Ok ([1; 2] ++ w, m') ∧
  fst (build sample_message (NewBuilder [1; 2] (m_Header sample_message))) = Ok ([1; 2] ++ w).
Proof. apply build_AppendPack, sample_ok. Defined.

(** A record that could not be added leaves its names in the table: the next
    record of that name points to itself. *)
Definition after_failure : building bytes :=
  let h := MkRH (name_from ["a"%go; "b"%go]) 0 1 60 0 in
  _ ← EnableCompression;
  _ ← StartAnswers;
  r ← attempt (Builder_TXTResource h (MkTXT [repeat 0 256]));
  match r with
  | inl _ => fail errTooManyPtr
  | inr _ => _ ← Builder_AResource h (MkA [192; 0; 2; 1]); Finish
  end.
Lemma failed_call_spoils : fst (after_failure (NewBuilder [] (m_Header sample_message))) =
    Ok ([0; 7; 133; 128; 0; 0; 0; 1; 0; 0; 0; 0] ++ [192; 12; 0; 1; 0; 1; 0; 0; 0; 60; 0; 4; 192; 0; 2; 1]) ∧
  ∀ w, fst (after_failure (NewBuilder [] (m_Header sample_message))) = Ok w → Unpack w = Err (nestedError "Name"%go errTooManyPtr).
Proof.
  assert (E : fst (after_failure (NewBuilder [] (m_Header sample_message))) =
    Ok ([0; 7; 133; 128; 0; 0; 0; 1; 0; 0; 0; 0] ++ [192; 12; 0; 1; 0; 1; 0; 0; 0; 60; 0; 4; 192; 0; 2; 1])) by (vm_compute; reflexivity).
  split; [exact E|]. intros w Hw. rewrite E in Hw. injection Hw as <-. vm_compute. reflexivity.
Qed.
