(* ===== verification/DnsExchange.v ===== *)
(** * package net: asking one name server after the other (dnsclient_unix.go)

    newRequest to tryOneName.  What is outside is a class, [Net]: random numbers,
    the setting netedns0, dialing, and the connection dialed last, which is what
    arrives on it before its deadline.  A function is a computation on the world
    and the configuration, whose counter serverOffset moves. *)
From S2P Require Import Prelude Stateful NetipText NetFile DnsNames DnsConfig DnsWire DnsRecords DnsParser.

(** ** Errors *)
Definition maxDNSPacketSize : Z := 1232.
Definition errLameReferral : error := Var "errLameReferral"%go "lame referral"%go.
Definition errCannotUnmarshalDNSMessage : error := Var "errCannotUnmarshalDNSMessage"%go "cannot unmarshal DNS message"%go.
Definition errCannotMarshalDNSMessage : error := Var "errCannotMarshalDNSMessage"%go "cannot marshal DNS message"%go.
Definition errServerMisbehaving : error := Var "errServerMisbehaving"%go "server misbehaving"%go.
Definition errInvalidDNSResponse : error := Var "errInvalidDNSResponse"%go "invalid DNS response"%go.
Definition errNoAnswerFromDNSServer : error := Var "errNoAnswerFromDNSServer"%go "no answer from DNS server"%go.
Definition errServerTemporarilyMisbehaving : error := Var "errServerTemporarilyMisbehaving"%go "server misbehaving"%go.
Definition errNoSuchHost : error := Var "errNoSuchHost"%go "no such host"%go.
(** The errors of package context, and what they become. *)
Definition context_Canceled : error := Var "context.Canceled"%go "context canceled"%go.
Definition context_DeadlineExceeded : error := Var "context.DeadlineExceeded"%go "context deadline exceeded"%go.
Definition errCanceled : error := Foreign "operation was canceled"%go false false false false.
Definition errTimeout : error := Foreign "i/o timeout"%go true true true false.
Definition mapErr (err : error) : error :=
  if decide (err = context_Canceled) then errCanceled
  else if decide (err = context_DeadlineExceeded) then errTimeout
  else err.
(** The text of an error; none of those here quotes a part of it. *)
Definition Error (e : error) : bytes := concat (map (λ p, match p with Lit s | Quote s => s end) (Error_text e)).
(** [err.(Error)]: what Timeout and Temporary say, of an error that has them. *)
Definition asError (e : error) : option (bool * bool) :=
  match e with
  | DNSError _ _ _ timeout temporary _ => Some (timeout, timeout || temporary)
  | AddrError _ _ | ParseError _ _ => Some (false, false)
  | Foreign _ true timeout temporary _ => Some (timeout, temporary)
  | Var _ _ => if decide (e = context_DeadlineExceeded) then Some (true, true) else None
  | _ => None
  end.
Definition is_timeout (e : error) : bool := match asError e with Some (t, _) => t | None => false end.
Definition is_temporary (e : error) : bool := match asError e with Some (_, t) => t | None => false end.
Definition is_OpError (e : error) : bool := match e with Foreign _ _ _ _ op => op | _ => false end.

(** ** The world *)
(** What arrives on a connection until the read that fails, and its error. *)
Record conn : Set := MkConn { incoming : list bytes; at_end : readerror }.
Class Net (W : Type) : Type := {
  runtime_rand : W → Z * W;
  (** [netedns0.Value()] *)
  netedns0 : W → bytes;
  (** Dialing with a deadline: is the connection a PacketConn? *)
  Dial : bytes → bytes → Z → W → (bool + error) * W;
  Write : bytes → W → (conn + error) * W;
  Close : W → W;
}.
Definition read_error (e : readerror) : error :=
  match e with EOF => New "EOF"%go | ErrUnexpectedEOF => New "unexpected EOF"%go | ErrShortBuffer => New "short buffer"%go | OtherError e => e end.
(** Reading from a stream: what has arrived first, as much as fits; a stream has
    no empty segments. *)
Fixpoint next_segment (l : list bytes) : option (bytes * list bytes) :=
  match l with [] => None | [] :: l => next_segment l | s :: l => Some (s, l) end.
#[global] Instance conn_Reader : Reader conn := {
  Read c n := match next_segment (incoming c) with
    | None => ([], Some (at_end c), c)
    | Some (s, rest) =>
        (take (Z.to_nat n) s, None,
         MkConn (if len s <=? n then rest else drop (Z.to_nat n) s :: rest) (at_end c))
    end }.

(** ** Requests and responses *)
Definition fold_case (c : Z) : Z := if ("A"%byte <=? c) && (c <=? "Z"%byte) then u8 (c + 0x20) else c.
(** The loop of equalASCIIName, for [k] more bytes. *)
Fixpoint equal_loop (k : nat) (i : Z) (x y : bytes) : res bool :=
  match k with
  | O => Ok true
  | S k =>
      a ← at_ x i; b ← at_ y i;
      if negb (fold_case a =? fold_case b) then Ok false else equal_loop k (i + 1) x y
  end.
Definition equalASCIIName (x y : Name) : res bool :=
  if negb (Length x =? Length y) then Ok false else equal_loop (Z.to_nat (Length x)) 0 (Data x) (Data y).
(** The question and, unless the setting forbids it, the record of EDNS. *)
Definition build_request (edns0 : bytes) (q : Question) : building bytes :=
  _ ← StartQuestions;
  _ ← Builder_Question q;
  _ ← (if beq edns0 "0"%go then mret tt
       else
         _ ← StartAdditionals;
         let rh := SetEDNS0 maxDNSPacketSize RCodeSuccess false (MkRH (MkName (name_data []) 0) 0 0 0 0) in
         Builder_OPTResource rh (MkOPT []));
  Finish.
(** The part of the request for UDP, and the request for TCP with its length. *)
Definition newRequest (id : Z) (edns0 : bytes) (q : Question) (ad : bool) : res (bytes * bytes) :=
  let h := MkHeader id false 0 false false true false ad false RCodeSuccess in
  tcpReq ← fst (build_request edns0 q (NewBuilder [0; 0] h));
  udpReq ← from tcpReq 2;
  let l := len tcpReq - 2 in
  tcpReq ← set_at tcpReq 0 (u8 (Z.shiftr l 8));
  tcpReq ← set_at tcpReq 1 (u8 l);
  Ok (udpReq, tcpReq).
Definition checkResponse (reqID : Z) (reqQues : Question) (respHdr : Header) (respQues : Question) : res bool :=
  if negb (Response respHdr) then Ok false
  else if negb (reqID =? ID respHdr) then Ok false
  else if negb (q_Type reqQues =? q_Type respQues) || negb (q_Class reqQues =? q_Class respQues) then Ok false
  else equalASCIIName (q_Name reqQues) (q_Name respQues).
(** A datagram is looked at: not a response to the request, or the parser after
    its question and its header. *)
Definition accept (id : Z) (query : Question) (b : bytes) : res (option (Parser * Header)) :=
  match Parser_Start b zero_Parser with
  | (Panic m, _) => Panic m
  | (Err _, _) => Ok None
  | (Ok h, p) =>
      match Parser_Question p with
      | (Panic m, _) => Panic m
      | (Err _, _) => Ok None
      | (Ok q, p) => ok ← checkResponse id query h q; Ok (if (ok : bool) then Some (p, h) else None)
      end
  end.
(** The loop of dnsPacketRoundTrip over the datagrams that arrive. *)
Fixpoint packet_loop (id : Z) (query : Question) (incoming : list bytes) (at_end : readerror) : res (Parser * Header) :=
  match incoming with
  | [] => Err (read_error at_end)
  | d :: incoming =>
      r ← accept id query (take (Z.to_nat maxDNSPacketSize) d);
      match r with
      | Some ph => Ok ph
      | None => packet_loop id query incoming at_end
      end
  end.
Definition dnsPacketRoundTrip (c : conn) (id : Z) (query : Question) : res (Parser * Header) :=
  packet_loop id query (incoming c) (at_end c).
Definition dnsStreamRoundTrip (c : conn) (id : Z) (query : Question) : res (Parser * Header) :=
  '(b, err, c) ← ReadFull c 2;
  match err with
  | Some e => Err (read_error e)
  | None =>
      b0 ← at_ b 0; b1 ← at_ b 1;
      let l := Z.lor (Z.shiftl b0 8) b1 in
      '(b, err, c) ← ReadFull c l;
      match err with
      | Some e => Err (read_error e)
      | None =>
          match Parser_Start b zero_Parser with
          | (Panic m, _) => Panic m
          | (Err _, _) => Err errCannotUnmarshalDNSMessage
          | (Ok h, p) =>
              match Parser_Question p with
              | (Panic m, _) => Panic m
              | (Err _, _) => Err errCannotUnmarshalDNSMessage
              | (Ok q, p) =>
                  ok ← checkResponse id query h q;
                  if (ok : bool) then Ok (p, h) else Err errInvalidDNSResponse
              end
          end
      end
  end.

(** ** Answers *)
(** On a copy of the parser. *)
Fixpoint rcode_loop (fuel : nat) (hdr : Header) : parsing Z :=
  match fuel with
  | O => lift (Panic [])
  | S fuel =>
      r ← attempt AdditionalHeader;
      match r with
      | inr _ => mret (RCode hdr)
      | inl ahdr =>
          if rh_Type ahdr =? TypeOPT then mret (ExtendedRCode ahdr (RCode hdr))
          else
            r ← attempt SkipAdditional;
            match r with inr _ => mret (RCode hdr) | inl _ => rcode_loop fuel hdr end
      end
  end.
Definition extractExtendedRCode (p : Parser) (hdr : Header) : res Z :=
  fst ((_ ← attempt SkipAllAnswers;
        _ ← attempt SkipAllAuthorities;
        (λ p, rcode_loop (section_fuel sectionAdditionals p) hdr p) : parsing Z) p).
Definition checkHeader (h : Header) : parsing unit :=
  p ← get;
  rcode ← lift (extractExtendedRCode p h);
  if rcode =? RCodeNameError then fail errNoSuchHost
  else
    r ← attempt AnswerHeader;
    let done := match r with inr err => bool_decide (err = ErrSectionDone) | inl _ => false end in
    if match r with inr _ => negb done | inl _ => false end then fail errCannotUnmarshalDNSMessage
    else if (rcode =? RCodeSuccess) && negb (Authoritative h) && negb (RecursionAvailable h) && done then fail errLameReferral
    else if negb (rcode =? RCodeSuccess) && negb (rcode =? RCodeNameError) then
      if rcode =? RCodeServerFailure then fail errServerTemporarilyMisbehaving else fail errServerMisbehaving
    else mret tt.
Fixpoint answer_loop (fuel : nat) (qtype : Z) : parsing unit :=
  match fuel with
  | O => lift (Panic [])
  | S fuel =>
      r ← attempt AnswerHeader;
      match r with
      | inr err => if decide (err = ErrSectionDone) then fail errNoSuchHost else fail errCannotUnmarshalDNSMessage
      | inl h =>
          if rh_Type h =? qtype then mret tt
          else
            r ← attempt SkipAnswer;
            match r with inr _ => fail errCannotUnmarshalDNSMessage | inl _ => answer_loop fuel qtype end
      end
  end.
Definition skipToAnswer (qtype : Z) : parsing unit := λ p, answer_loop (section_fuel sectionAnswers p) qtype p.

(** ** One server, then all of them *)
Section resolver.
Context {W : Type} `{Net W}.
Definition client : Type := W * dnsConfig.
Definition asking (A : Type) : Type := stateful client A.
(** A call of the world. *)
Definition effect {A} (f : W → A * W) : asking A := λ '(w, cfg), let '(a, w) := f w in (Ok a, (w, cfg)).
Definition dial (network server : bytes) (timeout : Z) : asking bool :=
  r ← effect (Dial network server timeout);
  match r with inl packet => mret packet | inr err => fail (mapErr err) end.
(** Sending the request and waiting for the response. *)
Definition roundTrip (packet : bool) (id : Z) (q : Question) (udpReq tcpReq : bytes) : asking (Parser * Header) :=
  r ← effect (Write (if packet then udpReq else tcpReq));
  match r with
  | inr err => fail err
  | inl c => lift (if packet then dnsPacketRoundTrip c id q else dnsStreamRoundTrip c id q)
  end.
Fixpoint networks_loop (networks : list bytes) (server : bytes) (id : Z) (q : Question) (udpReq tcpReq : bytes) (timeout : Z) : asking (Parser * Header) :=
  match networks with
  | [] => fail errNoAnswerFromDNSServer
  | network :: networks =>
      packet ← dial network server timeout;
      r ← attempt (roundTrip packet id q udpReq tcpReq);
      _ ← effect (λ w, (tt, Close w));
      match r with
      | inr err => fail (mapErr err)
      | inl (p, h) =>
          match SkipQuestion p with
          | (Panic m, _) => lift (Panic m)
          | (Ok _, _) => fail errInvalidDNSResponse
          | (Err err, p) =>
              if negb (bool_decide (err = ErrSectionDone)) then fail errInvalidDNSResponse
              else if Truncated h then networks_loop networks server id q udpReq tcpReq timeout
              else mret (p, h)
          end
      end
  end.
Definition exchange (server : bytes) (q : Question) (timeout : Z) (useTCP ad : bool) : asking (Parser * Header) :=
  let q := MkQuestion (q_Name q) (q_Type q) ClassINET in
  rand ← effect (randInt runtime_rand);
  edns0 ← effect (λ w, (netedns0 w, w));
  let id := u16 rand in
  match newRequest id edns0 q ad with
  | Panic m => lift (Panic m)
  | Err _ => fail errCannotMarshalDNSMessage
  | Ok (udpReq, tcpReq) =>
      networks_loop (if useTCP then ["tcp"%go] else ["udp"%go; "tcp"%go]) server id q udpReq tcpReq timeout
  end.

(** What tryOneName returns: a parser, a server and an error, or none. *)
Definition outcome : Type := Parser * bytes * option error.
(** The body of its loops: it returns, or goes on with [lastErr] set. *)
Definition one_server (name : bytes) (qtype : Z) (q : Question) (server : bytes) : asking (outcome + error) :=
  '(_, cfg) ← get;
  r ← attempt (exchange server q (timeout cfg) (useTCP cfg) (trustAD cfg));
  match r with
  | inr err => mret (inr (DNSError (Error err) name server (is_timeout err) (is_OpError err) false))
  | inl (p, h) =>
      match checkHeader h p with
      | (Panic m, _) => lift (Panic m)
      | (Err err, p) =>
          let nohost := bool_decide (err = errNoSuchHost) in
          let dnsErr := DNSError (Error err) name server false (bool_decide (err = errServerTemporarilyMisbehaving)) nohost in
          mret (if nohost then inl (p, server, Some dnsErr) else inr dnsErr)
      | (Ok _, p) =>
          match skipToAnswer qtype p with
          | (Panic m, _) => lift (Panic m)
          | (Ok _, p) => mret (inl (p, server, None))
          | (Err err, p) =>
              let nohost := bool_decide (err = errNoSuchHost) in
              let dnsErr := DNSError (Error err) name server false false nohost in
              mret (if nohost then inl (p, server, Some dnsErr) else inr dnsErr)
          end
      end
  end.
(** [for j := uint32(0); j < sLen; j++], for [k] more servers. *)
Fixpoint servers_loop (k : nat) (j : Z) (offset : Z) (servers : list bytes) (name : bytes) (qtype : Z) (q : Question) (lastErr : option error) : asking (outcome + option error) :=
  match k with
  | O => mret (inr lastErr)
  | S k =>
      server ← lift (at_ servers (u32 (offset + j) mod u32 (len servers)));
      r ← one_server name qtype q server;
      match r with
      | inl out => mret (inl out)
      | inr err => servers_loop k (j + 1) offset servers name qtype q (Some err)
      end
  end.
Fixpoint attempts_loop (k : nat) (offset : Z) (servers : list bytes) (name : bytes) (qtype : Z) (q : Question) (lastErr : option error) : asking outcome :=
  match k with
  | O => mret (zero_Parser, [], lastErr)
  | S k =>
      r ← servers_loop (Z.to_nat (u32 (len servers))) 0 offset servers name qtype q lastErr;
      match r with
      | inl out => mret out
      | inr lastErr => attempts_loop k offset servers name qtype q lastErr
      end
  end.
Definition tryOneName (name : bytes) (qtype : Z) : asking outcome :=
  '(w, cfg) ← get;
  let '(offset, cfg) := serverOffset cfg in
  _ ← put (w, cfg);
  match NewName name with
  | Panic m => lift (Panic m)
  | Err _ => mret (zero_Parser, [], Some errCannotMarshalDNSMessage)
  | Ok n =>
      let q := MkQuestion n qtype ClassINET in
      attempts_loop (Z.to_nat (attempts cfg)) offset (servers cfg) name qtype q None
  end.
End resolver.
