(* ===== verification/DnsExchangeProps.v ===== *)
(** * package net: requests, responses and the servers asked

    A request is the message it means; a response is accepted only when it answers
    the request; the servers are asked in their order until one settles the name. *)
From stdpp Require Import gmap.
From S2P Require Import Prelude Stateful NetipText NetFile DnsNames DnsConfig DnsWire DnsRecords DnsParser DnsWireProps DnsRecordsProps DnsMessageProps DnsParserProps DnsBuilderProps DnsConfigProps DnsExchange.

(** ** Requests *)
(** Without a table of names any canonical name is read back. *)
Lemma question_reads_plain q w x T' : canonical (q_Name q) → is_u16 (q_Type q) → is_u16 (q_Class q) → enc_question q (len w) None = (Ok x, T') →
  T' = None ∧ is_bytes x ∧ question_reads q w x.
Proof.
  intros Hn Ht Hc. unfold enc_question, seq_enc, const_enc, catching, mbind, stateful_bind, mret, stateful_ret. destruct (enc_name (q_Name q) (len w) None) as [[z|e|m] T1] eqn:E; [|done|done].
  intros Ex. assert (x = z ++ enc16 (q_Type q) ++ enc16 (q_Class q) ∧ T' = T1) as [-> ->] by (by injection Ex as <- <-).
  pose proof (canonical_ok _ Hn) as Hok. destruct (name_spec _ w None z T1 Hok (or_intror eq_refl)) as (_&HN&Hr); [by intros ? ? ?|done|].
  split; [by apply HN|]. split; [apply is_bytes_app; [by eapply name_bytes|auto with gorange]|].
  intros M y p EM Ep HM. exists (p + len z). split.
  { subst M p. replace (w ++ (z ++ enc16 (q_Type q) ++ enc16 (q_Class q)) ++ y) with (w ++ z ++ (enc16 (q_Type q) ++ enc16 (q_Class q)) ++ y) in * by whole.
    apply Hr; [done|by left]. }
  split; [eapply (get16 M (w ++ z)); [subst M; whole|subst p; place|done]|].
  split; [eapply (get16 M (w ++ z ++ enc16 (q_Type q))); [subst M; whole|subst p; place|done]|place].
Qed.
Definition root : Name := MkName (name_data "."%go) 1.
Lemma root_good : name_good root.
Proof. apply (name_from_good []). reflexivity. Qed.
Definition request_OPT : Resource := MkResource (MkRH root TypeOPT maxDNSPacketSize 0 0) (Some (BodyOPT (MkOPT []))).
Definition request_header (id : Z) (ad : bool) : Header := MkHeader id false 0 false false true false ad false RCodeSuccess.
(** The message a request stands for. *)
Definition request (id : Z) (edns0 : bytes) (q : Question) (ad : bool) : Message :=
  MkMessage (request_header id ad) [q] [] [] (if beq edns0 "0"%go then [] else [request_OPT]).
Lemma OPT_ok : resource_ok request_OPT.
Proof. split; [apply root_good|]. split; [by split|]. split; [by split|]. eexists. split; [reflexivity|]. split; [constructor|]. vm_compute. discriminate. Qed.
Lemma from_set_length (udp : bytes) l : len udp = l → is_u16 l →
  (tcp ← Ok ([0; 0] ++ udp); u ← from tcp 2; let l := len tcp - 2 in t ← set_at tcp 0 (u8 (Z.shiftr l 8)); t ← set_at t 1 (u8 l); Ok (u, t)) = Ok (udp, enc16 l ++ udp).
Proof.
  intros Hl Hu. cbn [mbind res_bind]. rewrite (from_app [0; 0] udp) by done. cbn [mbind res_bind]. rewrite len_app. change (len [0; 0]) with 2. rewrite Hl.
  replace (2 + l - 2) with l by lia. pose proof (set_two [] 0 0 udp (u8 (Z.shiftr l 8)) (u8 l)) as E. unfold mbind, res_bind in *.
  change ([] ++ [0; 0] ++ udp) with ([0; 0] ++ udp) in E. change (len []) with 0 in E. change (0 + 1) with 1 in E.
  destruct (set_at _ 0 _) as [m|e|m]; [|done|done]. by rewrite E.
Qed.
Section request.
Context (id : Z) (edns0 : bytes) (q : Question) (ad : bool) (Hid : is_u16 id).
Context (Hn : canonical (q_Name q)) (Ht : is_u16 (q_Type q)) (Hc : is_u16 (q_Class q)).
Let bits := snd (Header_pack (request_header id ad)).
Let wire (n : Z) : header := MkWireHeader id bits 1 0 0 n.
Lemma wire_facts n : is_u16 n → wire_ok (wire n) ∧ header_header (wire n) = request_header id ad.
Proof.
  intros Hk. assert (Hh : header_ok (request_header id ad)) by (split; [exact Hid|by split; vm_compute; split]).
  destruct (Header_bits _ Hh) as [Ebits Hbits]. split; [|exact Ebits]. unfold wire_ok, wire, bits. cbn [DnsWire.id DnsWire.bits questions answers authorities additionals]. unfold is_u16 in *. lia.
Qed.
(** The question, then the record. *)
Lemma build_request_run : ∃ xq xd b', let ad' := Additionals (request id edns0 q ad) in
  build_request edns0 q (NewBuilder [0; 0] (request_header id ad)) = (Ok ([0; 0] ++ enc_header (wire (len ad')) ++ xq ++ xd), b') ∧
  len (xq ++ xd) <= 400 ∧ is_bytes (xq ++ xd) ∧
  question_reads q (enc_header (wire (len ad'))) xq ∧ placed record_reads ad' (enc_header (wire (len ad')) ++ xq) xd.
Proof.
  unfold NewBuilder. rewrite (surjective_pairing (Header_pack _)). fold bits. change (fst (Header_pack (request_header id ad))) with id.
  set (z := repeat 0 12). set (h0 := MkWireHeader id bits 0 0 0 0).
  change (MkBuilder ([0; 0] ++ z) sectionHeader h0 (len [0; 0]) None) with (builder [0; 0] z sectionHeader h0 None).
  assert (Ez : ∀ h, len (enc_header h) = len z) by done.
  destruct (question_built [0; 0] q (enc_header h0) z None h0 Hn (Ez h0)) as (xq&T1&Eq&Hxq&_&B1); [done|].
  destruct (question_reads_plain q (enc_header h0) xq T1 Hn Ht Hc Eq) as (->&Hbq&_).
  assert (Hread : ∀ h, question_reads q (enc_header h) xq) by (intros h; exact (proj2 (proj2 (question_reads_plain q (enc_header h) xq None Hn Ht Hc Eq)))).
  change (set_count sectionQuestions _ _) with (wire 0) in B1.
  unfold build_request, mbind, stateful_bind. rewrite (proj1 (start_run [0; 0] _ _ _)), B1. unfold request. cbn [Additionals]. destruct (beq edns0 "0"%go).
  - unfold mret, stateful_ret. rewrite Finish_run by done. exists xq, [], (builder [0; 0] (enc_header (wire 0) ++ xq) sectionDone (wire 0) None). rewrite app_nil_r.
    split; [done|]. split; [lia|]. split; [done|]. split; [apply Hread|constructor].
  - assert (Ea : ∀ w h T, StartAdditionals (builder [0; 0] w sectionQuestions h T) = (Ok tt, builder [0; 0] w sectionAdditionals h T)) by done. rewrite Ea.
    assert (Ew : len (enc_header (wire 1) ++ xq) = len (z ++ xq)) by (by rewrite !len_app).
    destruct (record_built [0; 0] "OPTResource"%go sectionAdditionals request_OPT _ (z ++ xq) None (wire 0) OPT_ok ltac:(by right; right) Ew) as (x&r'&T2&Hx&Ep&Ea'); [done|].
    destruct (resource_packed request_OPT [0; 0] (enc_header (wire 1) ++ xq) None OPT_ok) as (x'&l&T3&_&Ep'&_&Hb'&Hr'); [by intros ? ? ?|].
    assert (filled request_OPT l = r' ∧ x' = x) as [<- ->].
    { rewrite Ep in Ep'. injection Ep' as E1 E2 _. apply app_inv_head in E1. done. }
    destruct (Hx _ eq_refl) as (l'&(xn&T4&xb&T5&El&En&Eb&->)&Er). clear Hx.
    assert (xn = [0]) as -> by (change (Ok [0], None : table) with (Ok xn, T4) in En; by injection En). 
    assert (xb = []) as -> by (change (Ok [], T4) with (Ok xb, T5) in Eb; by injection Eb).
    rewrite Er in Hr'. subst l'. change (filled request_OPT (len [])) with request_OPT in Hr'.
    specialize (Ea' _ eq_refl). change (Builder_OPTResource _ _) with (add_resource "OPTResource"%go (r_Header request_OPT) (BodyOPT (MkOPT []))). rewrite Ea'.
    change (set_count _ _ _) with (wire 1). change (len [request_OPT]) with 1. rewrite <- app_assoc, Finish_run by done. set (xd := [0] ++ _) in *.
    exists xq, xd, (builder [0; 0] (enc_header (wire 1) ++ xq ++ xd) sectionDone (wire 1) T2). split; [done|]. split; [rewrite len_app; change (len xd) with 11; lia|].
    split; [by apply is_bytes_app|]. split; [apply Hread|]. rewrite <- (app_nil_r xd). by constructor; [|constructor].
Qed.
End request.
(** A request is the message it means: one question, asked for recursively,
    and the record of EDNS that allows 1232 bytes unless the setting forbids it;
    for TCP it is preceded by its length, and it fits the buffer of 514 bytes. *)
Theorem newRequest_spec id edns0 q ad : is_u16 id → canonical (q_Name q) → is_u16 (q_Type q) → is_u16 (q_Class q) →
  ∃ udp, newRequest id edns0 q ad = Ok (udp, enc16 (len udp) ++ udp) ∧ len udp <= 512 ∧ Unpack udp = Ok (request id edns0 q ad).
Proof.
  intros Hid Hn Ht Hc. destruct (build_request_run id edns0 q ad Hn Ht Hc) as (xq&xd&b'&Eb&Hl&Hb&Rq&Rd). set (ad' := Additionals _) in *.
  destruct (wire_facts id ad Hid (len ad')) as [Hw Eh]; [unfold ad', request; cbn [Additionals]; by destruct (beq edns0 "0"%go)|].
  set (h := MkWireHeader _ _ _ _ _ _) in *. exists (enc_header h ++ xq ++ xd).
  assert (Hlen : len (enc_header h ++ xq ++ xd) <= 512) by (rewrite len_app; change (len (enc_header h)) with 12; lia).
  split; [|split; [done|]].
  - unfold newRequest. fold (request_header id ad). rewrite Eb. cbn [fst]. apply (from_set_length _ _ eq_refl). unfold is_u16. pose proof (len_nonneg (enc_header h ++ xq ++ xd)). lia.
  - assert (Hb' : is_bytes (enc_header h ++ xq ++ xd)) by (apply is_bytes_app; [unfold enc_header; auto 10 with gorange|done]).
    assert (E : Unpack (enc_header h ++ xq ++ [] ++ [] ++ xd) = Ok (MkMessage (header_header h) [q] [] [] ad')).
    { apply Unpack_sections; [done|done| |constructor|constructor|by rewrite !app_nil_r|done..]. rewrite <- (app_nil_r xq). by constructor; [|constructor]. }
    cbn [app] in E. rewrite E, Eh. done.
Qed.
Lemma newRequest_spec_witness : ∃ udp, newRequest 7 []%go (MkQuestion (name_from ["go"%go; "dev"%go]) TypeA ClassINET) false = Ok (udp, enc16 (len udp) ++ udp) ∧ len udp <= 512 ∧
  Unpack udp = Ok (request 7 []%go (MkQuestion (name_from ["go"%go; "dev"%go]) TypeA ClassINET) false).
Proof. apply newRequest_spec; [by split|apply name_from_good; reflexivity|by split|by split]. Defined.

(** ** Names that are the same but for the case of ASCII letters *)
Definition same_name (x y : Name) : Prop := ∃ s t, x = name_of s ∧ y = name_of t ∧ map fold_case s = map fold_case t.
Lemma equal_loop_spec s : ∀ t w v x y, length s = length t → len w = len v →
  equal_loop (length s) (len w) (w ++ s ++ x) (v ++ t ++ y) = Ok (bool_decide (map fold_case s = map fold_case t)).
Proof.
  induction s as [|a s IH]; intros [|b t] w v x y Hl Hw; [done|done|done|]. cbn [length equal_loop app map].
  rewrite at_start, Hw, at_start. change (at_ (a :: s ++ x) 0) with (Ok a). change (at_ (b :: t ++ y) 0) with (Ok b). cbn [mbind res_bind].
  destruct (Z.eqb_spec (fold_case a) (fold_case b)) as [E|E]; cbn [negb].
  - replace (len v + 1) with (len (w ++ [a])) by (rewrite len_app, Hw; done).
    replace (w ++ a :: s ++ x) with ((w ++ [a]) ++ s ++ x) by (by rewrite <- app_assoc). replace (v ++ b :: t ++ y) with ((v ++ [b]) ++ t ++ y) by (by rewrite <- app_assoc).
    rewrite IH; [|by injection Hl|by rewrite !len_app, Hw]. f_equal. apply bool_decide_ext. rewrite E. split; [by intros ->|by intros [= ->]].
  - rewrite bool_decide_false; [done|]. by intros [= ? _].
Qed.
Lemma equalASCIIName_spec x y : name_ok x → name_ok y → ∃ b, equalASCIIName x y = Ok b ∧ (b = true → same_name x y).
Proof.
  intros (s&->&Hs&_) (t&->&Ht&_). unfold equalASCIIName, name_of, name_data. cbn [Length Data]. destruct (Z.eqb_spec (len s) (len t)) as [E|E]; cbn [negb]; [|by exists false].
  pose proof (equal_loop_spec s t [] [] (repeat 0 (255 - length s)) (repeat 0 (255 - length t))) as El. cbn [app] in El. change (len []) with 0 in El.
  unfold len at 1. rewrite Nat2Z.id, El; [|unfold len in E; lia|done]. eexists. split; [done|]. intros Hb%bool_decide_eq_true. by exists s, t.
Qed.

(** ** Reading from a connection *)
Lemma next_segment_some l s rest : next_segment l = Some (s, rest) → s ≠ [] ∧ concat l = s ++ concat rest ∧ (Forall is_bytes l → is_bytes s ∧ Forall is_bytes rest).
Proof.
  induction l as [|[|a x] l IH]; [done| |]; cbn [next_segment concat].
  - intros H. destruct (IH H) as (H1&H2&H3). split; [done|]. split; [done|]. intros [_ Hl]%list.Forall_cons. by apply H3.
  - intros [= <- <-]. split; [done|]. split; [done|]. by intros [H1 H2]%list.Forall_cons.
Qed.
(** What a read takes off the front. *)
Definition taken (c : conn) (more : bytes) (c' : conn) : Prop :=
  concat (incoming c) = more ++ concat (incoming c') ∧ (Forall is_bytes (incoming c) → is_bytes more ∧ Forall is_bytes (incoming c')).
Lemma taken_nil c : taken c [] c.
Proof. split; [done|]. intros Hl. split; [constructor|done]. Qed.
Lemma conn_Read (c : conn) n : 0 < n → ∃ b err c', Read c n = (b, err, c') ∧ len b <= n ∧ (err = None → b ≠ []) ∧ taken c b c'.
Proof.
  intros Hn. unfold Read, conn_Reader. destruct (next_segment (incoming c)) as [[s rest]|] eqn:E.
  - destruct (next_segment_some _ _ _ E) as (Hs&Hc&Hb). eexists _, _, _. split; [reflexivity|].
    assert (Hlen : len (take (Z.to_nat n) s) <= n) by (unfold len; rewrite length_take; lia).
    split; [done|]. split; [intros _; destruct s; [done|]; by destruct (Z.to_nat n) eqn:En; [lia|]|]. unfold taken. rewrite Hc. cbn [incoming].
    destruct (Z.leb_spec (len s) n) as [Hle|Hgt].
    + rewrite take_ge by (unfold len in Hle; lia). by split.
    + cbn [concat]. split; [by rewrite app_assoc, take_drop|]. intros Hl. destruct (Hb Hl) as [H1 H2]. split; [auto with gorange|]. apply list.Forall_cons. split; [auto with gorange|done].
  - eexists _, _, _. split; [reflexivity|]. split; [change (len []) with 0; lia|]. split; [done|apply taken_nil].
Qed.
Lemma read_loop_conn n fuel : ∀ c buf, len buf <= n → n - len buf <= Z.of_nat fuel →
  ∃ more err c', read_loop fuel c n n buf = Ok (buf ++ more, err, c') ∧ len (buf ++ more) <= n ∧ (err = None → len (buf ++ more) = n) ∧ taken c more c'.
Proof.
  induction fuel as [|fuel IH]; intros c buf Hb Hf; cbn [read_loop]; destruct (Z.ltb_spec (len buf) n); try lia.
  2: { destruct (conn_Read c (n - len buf)) as (b&err&c'&E&Hl&Hne&Ht); [lia|]. rewrite E. destruct err as [e|].
    - exists b, (Some e), c'. rewrite len_app. split; [done|]. split; [lia|]. by split.
    - assert (Hpos : 0 < len b) by (specialize (Hne eq_refl); destruct b; [done|rewrite len_cons; pose proof (len_nonneg b); lia]).
      destruct (IH c' (buf ++ b)) as (more&err&c2&E2&Hl2&Hd&Ht2); [rewrite len_app; lia..|]. exists (b ++ more), err, c2. rewrite app_assoc. split; [done|]. split; [done|]. split; [done|].
      destruct Ht as [Hc Hby], Ht2 as [Hc2 Hby2]. split; [by rewrite Hc, Hc2, app_assoc|]. intros Hl0. destruct (Hby Hl0) as [B1 B2]. destruct (Hby2 B2) as [B3 B4]. split; [by apply is_bytes_app|done]. }
  all: exists [], None, c; rewrite app_nil_r; split; [done|]; split; [lia|]; split; [lia|apply taken_nil].
Qed.
Lemma ReadFull_conn c n : 0 <= n → ∃ b err c', ReadFull c n = Ok (b, err, c') ∧ taken c b c' ∧ (err = None → len b = n).
Proof.
  intros Hn. unfold ReadFull, ReadAtLeast. rewrite Z.ltb_irrefl. destruct (read_loop_conn n (Z.to_nat n) c []) as (b&err&c'&E&Hl&Hd&Ht); [change (len []) with 0; lia..|].
  cbn [app] in *. rewrite E. cbn [mbind res_bind]. rewrite Z.geb_leb. destruct (Z.leb_spec n (len b)).
  - exists b, None, c'. split; [done|]. split; [done|]. intros _. lia.
  - exists b. destruct err as [e|]; [|specialize (Hd eq_refl); lia]. destruct ((len b >? 0) && _); eexists _, c'; (split; [reflexivity|]); by split.
Qed.

(** ** Responses *)
(** The header of [d] and its first question, and the parser after it. *)
Definition first_question (d : bytes) (h : Header) (q : Question) (p : Parser) : Prop :=
  ∃ p0, Parser_Start d zero_Parser = (Ok h, p0) ∧ Parser_Question p0 = (Ok q, p).
(** [d] is a response to the request [id] for [q]. *)
Definition responds (id : Z) (q : Question) (d : bytes) (h : Header) (p : Parser) : Prop :=
  Response h = true ∧ ID h = id ∧ ∃ q', first_question d h q' p ∧ q_Type q' = q_Type q ∧ q_Class q' = q_Class q ∧ same_name (q_Name q) (q_Name q').
Definition after_question (p : Parser) : Prop := parser_ok p ∧ p_section p = sectionQuestions.
Lemma checkResponse_safe id q h q' : name_ok (q_Name q) → name_ok (q_Name q') →
  safe (λ b : bool, b = true → Response h = true ∧ ID h = id ∧ q_Type q' = q_Type q ∧ q_Class q' = q_Class q ∧ same_name (q_Name q) (q_Name q')) (checkResponse id q h q').
Proof.
  intros Hq Hq'. unfold checkResponse. destruct (Response h); [|done]. destruct (Z.eqb_spec id (ID h)) as [->|]; [|done].
  destruct (Z.eqb_spec (q_Type q) (q_Type q')) as [->|]; [|done]. destruct (Z.eqb_spec (q_Class q) (q_Class q')) as [->|]; [|done]. cbn [negb orb].
  destruct (equalASCIIName_spec _ _ Hq Hq') as (b&->&Hb). cbn. intros Eb. specialize (Hb Eb). conjuncts.
Qed.
(** Start and Question, as the round trips call them. *)
Lemma started d : is_bytes d → runs (Parser_Start d) zero_Parser (λ h p, parser_ok p ∧ match h with Some _ => p_section p = sectionQuestions | None => True end).
Proof.
  intros Hd. pose proof (Start_ok d zero_Parser Hd) as H. unfold runs, Parser_Start in *. destruct (nest _ (header_unpack d 0)) as [[h o]|e|m]; [|by split|done].
  destruct H as [H _]. by split.
Qed.
Lemma accept_safe id q d : is_bytes d → name_ok (q_Name q) →
  safe (λ r, match r with Some (p, h) => responds id q d h p ∧ after_question p | None => True end) (accept id q d).
Proof.
  intros Hd Hq. unfold accept. pose proof (started d Hd) as H. unfold runs in H. destruct (Parser_Start d zero_Parser) as [[h|e|m] p0] eqn:Es; [|done|done]. destruct H as [Hp0 Hs0].
  pose proof (question_safe p0 Hp0) as H. unfold runs in H. destruct (Parser_Question p0) as [[q'|e|m] p] eqn:Eq; [|done|done]. destruct H as [Hp [(Hn&_) (_&_&Hs&_)]].
  eapply safe_bind; [apply (checkResponse_safe id q h q' Hq (canonical_ok _ Hn))|]. intros [|] Hb; [|done]. destruct (Hb eq_refl) as (H1&H2&H3&H4&H5). cbn [safe].
  split; [|by split]. split; [done|]. split; [done|]. exists q'. split; [by exists p0|]. conjuncts.
Qed.
(** What of a connection a response is: the first datagram that answers the
    request; or what follows the two bytes of its length. *)
Definition received (packet : bool) (c : conn) (id : Z) (q : Question) (d : bytes) : Prop :=
  if packet then ∃ pre d0 post, incoming c = pre ++ d0 :: post ∧ d = take (Z.to_nat maxDNSPacketSize) d0 ∧
    Forall (λ x, accept id q (take (Z.to_nat maxDNSPacketSize) x) = Ok None) pre
  else ∃ rest, concat (incoming c) = enc16 (len d) ++ d ++ rest.
Definition good_response (packet : bool) (c : conn) (id : Z) (q : Question) (r : Parser * Header) : Prop :=
  ∃ d, received packet c id q d ∧ responds id q d (snd r) (fst r) ∧ after_question (fst r).
Lemma packet_safe c id q : Forall is_bytes (incoming c) → name_ok (q_Name q) → safe (good_response true c id q) (dnsPacketRoundTrip c id q).
Proof.
  intros Hb Hq. unfold dnsPacketRoundTrip, good_response, received. set (at_e := at_end c). clearbody at_e. induction Hb as [|d l Hd _ IH]; cbn [packet_loop]; [done|].
  assert (Hd' : is_bytes (take (Z.to_nat maxDNSPacketSize) d)) by auto with gorange. pose proof (accept_safe id q _ Hd' Hq) as Ha.
  destruct (accept id q (take _ d)) as [[[p h]|]|e|m] eqn:E; cbn [safe mbind res_bind] in *; [| |done|done].
  - destruct Ha as [Hr Hp]. exists (take (Z.to_nat maxDNSPacketSize) d). split; [|by split]. exists [], d, l. split; [done|]. split; [done|constructor].
  - eapply safe_mono; [exact IH|]. intros r (d'&(pre&d0&post&->&->&Hpre)&Hr). eexists. split; [|exact Hr]. exists (d :: pre), d0, post. split; [done|]. split; [done|].
    apply list.Forall_cons. by split.
Qed.
Lemma bytes_two b : len b = 2 → is_bytes b → ∃ x y, b = [x; y] ∧ is_u8 x ∧ is_u8 y.
Proof.
  intros Hl Hb. destruct b as [|x [|y [|z b]]]; try (unfold len in Hl; cbn in Hl; lia). exists x, y. split; [done|].
  apply list.Forall_cons in Hb as [Hx Hb]. by apply list.Forall_cons in Hb as [Hy _].
Qed.
Lemma length_bytes x y : is_u8 x → is_u8 y → is_u16 (Z.lor (Z.shiftl x 8) y) ∧ enc16 (Z.lor (Z.shiftl x 8) y) = [x; y].
Proof.
  intros Hx Hy. unfold is_u8 in Hx, Hy. rewrite lor_shift_add by lia. change (2 ^ 8) with 256. split; [unfold is_u16; lia|]. unfold enc16, u8.
  rewrite Z.shiftr_div_pow2 by lia. change (2 ^ 8) with 256. do 2 f_equal; [|f_equal]; zwlia.
Qed.
Lemma stream_safe c id q : Forall is_bytes (incoming c) → name_ok (q_Name q) → safe (good_response false c id q) (dnsStreamRoundTrip c id q).
Proof.
  intros Hb Hq. unfold dnsStreamRoundTrip. destruct (ReadFull_conn c 2) as (b&err&c1&->&[Hc Hby]&Hl); [lia|]. cbn [mbind res_bind]. destruct err as [e|]; [done|].
  destruct (Hby Hb) as [Hb1 Hc1]. destruct (bytes_two b (Hl eq_refl) Hb1) as (x&y&->&Hx&Hy). change (at_ [x; y] 0) with (Ok x). change (at_ [x; y] 1) with (Ok y). cbn [mbind res_bind].
  destruct (length_bytes x y Hx Hy) as [Hn En]. set (n := Z.lor _ y) in *.
  destruct (ReadFull_conn c1 n) as (d&err&c2&->&[Hc2 Hby2]&Hl2); [unfold is_u16 in Hn; lia|]. cbn [mbind res_bind]. destruct err as [e|]; [done|]. destruct (Hby2 Hc1) as [Hd _].
  pose proof (started d Hd) as H. unfold runs in H. destruct (Parser_Start d zero_Parser) as [[h|e|m] p0] eqn:Es; [|done|done]. destruct H as [Hp0 Hs0].
  pose proof (question_safe p0 Hp0) as H. unfold runs in H. destruct (Parser_Question p0) as [[q'|e|m] p] eqn:Eq; [|done|done]. destruct H as [Hp [(Hn'&_) (_&_&Hs&_)]].
  eapply safe_bind; [apply (checkResponse_safe id q h q' Hq (canonical_ok _ Hn'))|]. intros [|] Hbb; [|done]. destruct (Hbb eq_refl) as (H1&H2&H3&H4&H5). cbn [safe].
  exists d. split; [exists (concat (incoming c2)); by rewrite (Hl2 eq_refl), En, Hc, Hc2|]. split; [|by split]. split; [done|]. split; [done|]. exists q'. split; [by exists p0|]. conjuncts.
Qed.

(** ** A request for any name is made or refused *)
Lemma compress_runs s pos T : runs (compress s pos) T (λ _ _, True).
Proof. unfold compress, runs, get, put, mbind, stateful_bind. destruct T as [m|]; [|done]. destruct (m !! s); [done|]. by destruct (pos <=? 0x3FFF). Qed.
Lemma enc_loop_runs s : ∀ seg pos T, runs (enc_loop s seg pos) T (λ _ _, True).
Proof.
  induction s as [|c s IH]; intros seg pos T; cbn [enc_loop]; [done|]. destruct (c =? "."%byte).
  - destruct (len seg >=? 64); [done|]. destruct (len seg =? 0); [done|]. apply runs_bind. eapply runs_mono; [apply IH|]. by intros [x|] T' _.
  - apply runs_bind. destruct (len seg =? 0).
    + eapply runs_mono; [apply compress_runs|]. intros [[q|]|] T' _; [done|apply IH|done].
    + apply IH.
Qed.
Lemma enc_name_runs n pos T : name_ok n → runs (enc_name n pos) T (λ _ _, True).
Proof.
  intros (s&->&Hs&_). unfold enc_name. cbn [Length name_of]. unfold nonEncodedNameMax. destruct (len s >? 254); [done|].
  destruct (Z.eqb_spec (len s) 0) as [|Hn]; [done|]. destruct s as [|c0 s0 _] using rev_ind; [done|]. destruct (name_of_last s0 c0) as [Hu Ha].
  unfold mbind, stateful_bind, lift. cbn [Length name_of] in *. unfold runs. rewrite Ha. unfold mret, stateful_ret. destruct (c0 =? "."%byte); cbn [negb]; [|done].
  destruct s0 as [|d s0]; cbn [app] in *.
  - change (at_ (Data (name_of [c0])) 0) with (Ok c0). cbn beta iota. destruct ((c0 =? _) && _); [done|]. rewrite Hu. apply enc_loop_runs.
  - change (at_ (Data (name_of (d :: s0 ++ [c0]))) 0) with (Ok d). cbn beta iota. destruct ((d =? _) && _); [done|]. rewrite Hu. apply enc_loop_runs.
Qed.
Lemma Question_pack_runs q msg off T : name_ok (q_Name q) → runs (Question_pack q msg off) T (λ m _, match m with Some m => len msg <= len m | None => True end).
Proof.
  intros Hq. unfold runs. rewrite (Question_pack_enc q msg off T). unfold enc_question, seq_enc, const_enc, catching, mbind, stateful_bind, mret, stateful_ret.
  pose proof (enc_name_runs (q_Name q) (len msg - off) T Hq) as H. unfold runs in H. destruct (enc_name _ _ T) as [[x|e|m] T']; [|done|done].
  rewrite len_app. pose proof (len_nonneg (x ++ enc16 (q_Type q) ++ enc16 (q_Class q))). lia.
Qed.
(** A builder with room for the header. *)
Definition roomy (n : Z) (B : Builder) : Prop := 0 <= b_start B ∧ b_start B + headerLen <= len (b_msg B) ∧ n <= len (b_msg B).
Lemma increment_safe B n sec : roomy n B → b_section B = sec → sectionQuestions <= sec <= sectionAdditionals →
  runs incrementSectionCount B (λ _ B', roomy n B' ∧ b_section B' = sec ∧ b_start B' = b_start B ∧ b_msg B' = b_msg B).
Proof.
  intros HB <- Hs. unfold incrementSectionCount, get, modify, mbind, stateful_bind, runs.
  rewrite (proj2 (Z.ltb_ge _ _)), Z.gtb_ltb, (proj2 (Z.ltb_ge _ _)) by lia. cbn [orb]. by destruct (_ =? 65535).
Qed.
Lemma Builder_Question_safe q B n : name_ok (q_Name q) → roomy n B → b_section B = sectionQuestions →
  runs (Builder_Question q) B (λ _ B', roomy n B' ∧ b_section B' = sectionQuestions).
Proof.
  intros Hq HB Hs. unfold Builder_Question. apply runs_bind. unfold get. cbn [runs]. rewrite Hs. cbn [Z.ltb Z.gtb Z.compare sectionQuestions Pos.compare Pos.compare_cont].
  apply runs_bind. unfold with_table, zoom, runs at 1. pose proof (Question_pack_runs q (b_msg B) (b_start B) (b_compression B) Hq) as H. unfold runs in H.
  destruct (Question_pack q _ _ _) as [[m|e|m] T']; [|by destruct B|done]. apply runs_bind.
  eapply runs_mono; [apply (increment_safe _ n sectionQuestions); [by destruct B|by destruct B|done]|]. intros [[]|] B' (HB'&Hs'&Hst&Hm); [|by split]. unfold modify, runs.
  destruct HB as (H1&H2&H3). split; [|done]. unfold roomy. cbn [b_start b_msg set_msg]. rewrite Hst. destruct B; cbn in *. lia.
Qed.
Lemma OPT_safe_add B n : roomy n B → b_section B = sectionAdditionals → runs (add_resource "OPTResource"%go (r_Header request_OPT) (BodyOPT (MkOPT []))) B (λ _ B', roomy n B' ∧ b_section B' = sectionAdditionals).
Proof.
  intros (H1&H2&H3) Hs. pose proof (take_drop (Z.to_nat (b_start B)) (b_msg B)) as Em. set (b := take _ _) in *. set (w := drop _ _) in *.
  assert (Eb : len b = b_start B) by (unfold b, len in *; unfold headerLen in H2; rewrite length_take; lia).
  destruct OPT_ok as (Hn&_&_&body&[= <-]&Hb). destruct (record_run (r_Header request_OPT) _ b (b_compression B) (len w) Hn Hb (len_nonneg w)) as (x&l&T1&T2&_&Hrun).
  destruct (Hrun w eq_refl) as (m&lo&m2&E1&E2&E3). unfold add_resource, checkResourceSection. unfold get, with_table, zoom, catching, lift, mbind, stateful_bind, runs. rewrite Hs.
  cbn [Z.ltb Z.gtb Z.compare sectionAnswers sectionAdditionals Pos.compare Pos.compare_cont]. unfold mret, stateful_ret. rewrite Em, Eb in *. rewrite E1. cbn [set_compression b_compression b_start b_msg].
  rewrite E2. cbn [set_compression b_compression b_start b_msg]. rewrite E3. set (B' := set_compression T2 _).
  pose proof (increment_safe B' n sectionAdditionals (conj H1 (conj H2 H3)) Hs ltac:(done)) as H. unfold runs in H.
  destruct (incrementSectionCount B') as [[[]|e|s] B2]; [|by destruct H as (?&?&_)|done]. destruct H as (HB2&Hs2&Hst&Hm). unfold modify. split; [|done]. unfold roomy. cbn [b_start b_msg set_msg]. rewrite Hst.
  change (b_start B') with (b_start B). rewrite !len_app, Eb. rewrite <- Em, len_app, Eb in H2, H3. pose proof (len_nonneg x). lia.
Qed.
Lemma Finish_safe B n : roomy n B → runs Finish B (λ t _, match t with Some t => n <= len t | None => True end).
Proof.
  intros (H1&H2&H3). unfold headerLen in H2. unfold Finish. apply runs_bind. unfold get. cbn [runs]. destruct (b_section B <? sectionHeader); [done|]. apply runs_bind. unfold modify, runs at 1.
  apply runs_bind, runs_lift; [|done]. eapply safe_mono; [apply safe_upto; lia|]. intros front Ef. apply runs_bind, runs_lift; [|done].
  eapply safe_mono; [apply safe_from; unfold headerLen; lia|]. intros back Ebk. apply runs_bind. cbn [runs]. unfold runs, mret, stateful_ret. rewrite header_pack_enc, !len_app.
  change (len (enc_header _)) with 12. rewrite Ef, Ebk. unfold len, headerLen in *. rewrite length_take, length_drop. lia.
Qed.
Lemma newRequest_safe id edns0 q ad : name_ok (q_Name q) → safe (λ _, True) (newRequest id edns0 q ad).
Proof.
  intros Hq. unfold newRequest. eapply (safe_bind (λ t, 2 <= len t)).
  - apply runs_fst. unfold NewBuilder. rewrite (surjective_pairing (Header_pack _)). set (B := MkBuilder _ _ _ _ _). assert (HB : roomy 14 B) by (by split).
    unfold build_request. apply runs_bind. change (runs StartQuestions B ?Q) with (Q (Some tt) (set_section sectionQuestions B)). cbn beta iota.
    apply runs_bind. eapply runs_mono; [by apply (Builder_Question_safe q _ 14)|]. intros [[]|] B1 [HB1 Hs1]; [|done]. apply runs_bind.
    assert (Hf : ∀ B, roomy 14 B → runs Finish B (λ t _, match t with Some t => 2 <= len t | None => True end)).
    { intros B' HB'. eapply runs_mono; [by apply (Finish_safe B' 14)|]. intros [t|] B2 H; [lia|done]. }
    destruct (beq edns0 "0"%go); [by apply Hf|]. apply runs_bind. unfold StartAdditionals, startCheck, get, modify, mbind, stateful_bind, runs at 1. rewrite Hs1. cbn [Z.leb Z.gtb Z.compare sectionQuestions sectionNotStarted sectionAdditionals Pos.compare Pos.compare_cont].
    unfold mret, stateful_ret. eapply runs_mono; [apply (OPT_safe_add _ 14); [exact HB1|done]|]. intros [[]|] B2 [HB2 _]; [by apply Hf|done].
  - intros t Ht. eapply safe_bind; [apply safe_from; lia|]. intros u _. eapply safe_bind; [apply safe_set_at; lia|]. intros t1 ->. eapply safe_bind; [apply safe_set_at; rewrite len_insert; lia|]. done.
Qed.

(** ** One server *)
Lemma nest_not_done {A} s (r : res A) : nest s r ≠ Err ErrSectionDone.
Proof. by destruct r. Qed.
(** Only the end of the section is reported as such. *)
Lemma skip_end p p' : p_section p = sectionQuestions → SkipQuestion p = (Err ErrSectionDone, p') → p_section p' = sectionAnswers ∧ resHeaderValid p' = false.
Proof.
  intros Hs. unfold SkipQuestion, checkAdvance, get, modify, lift, fail, mbind, stateful_bind. rewrite Hs. cbn [Z.ltb Z.gtb Z.compare sectionQuestions Pos.compare Pos.compare_cont]. fields.
  destruct (p_index p =? _); [intros [= <-]; fields; by rewrite Hs|]. unfold mret, stateful_ret.
  destruct (nest _ (skipName _ _)) as [o1|e|m] eqn:E1; [|intros [= -> _]; by apply nest_not_done in E1|done].
  destruct (nest _ (skipType _ _)) as [o2|e|m] eqn:E2; [|intros [= -> _]; by apply nest_not_done in E2|done].
  destruct (nest _ (skipClass _ _)) as [o3|e|m] eqn:E3; [done|intros [= -> _]; by apply nest_not_done in E3|done].
Qed.
(** What is relied on of the world: bytes arrive. *)
Class NetLaws (W : Type) `{Net W} : Prop := {
  Write_bytes w b c w' : Write b w = (inl c, w') → Forall is_bytes (incoming c);
}.
(** What a call of the world does to it, and what calls may have done. *)
Inductive net_step {W} `{Net W} : W → W → Prop :=
| step_rand w : net_step w (snd (runtime_rand w))
| step_dial network server timeout w : net_step w (snd (Dial network server timeout w))
| step_write b w : net_step w (snd (Write b w))
| step_close w : net_step w (Close w).
Definition closed {W} `{Net W} (I : W → Prop) : Prop := ∀ w w', net_step w w' → I w → I w'.
Definition net_reaches {W} `{Net W} : W → W → Prop := rtc net_step.
Lemma net_reaches_closed {W} `{Net W} w : closed (net_reaches w).
Proof. intros w1 w2 H12 H1. by eapply rtc_r. Qed.
Lemma closed_rand {W} `{Net W} I w : closed I → I w → I (snd (randInt runtime_rand w)).
Proof. intros Hc Hw. unfold randInt. pose proof (Hc _ _ (step_rand w) Hw) as H1. by destruct (runtime_rand w). Qed.
Section exchange.
Context {W : Type} `{NetLaws W} (I : W → Prop) (I_closed : closed I).
Implicit Types s : client (W := W).
(** In a world that satisfies [I] the server was dialed, the request was sent to
    it, and this is what arrives. *)
Definition served (server request : bytes) (packet : bool) (c : conn) : Prop :=
  ∃ network timeout (w0 w w' : W), I w0 ∧ Dial network server timeout w0 = (inl packet, w) ∧ Write request w = (inl c, w').
(** The parser is at the answers of a response to the request that was sent. *)
Definition genuine (server : bytes) (id : Z) (udp tcp : bytes) (q : Question) (p : Parser) (h : Header) : Prop :=
  parser_ok p ∧ p_section p = sectionAnswers ∧ Truncated h = false ∧
  ∃ (packet : bool) c d p0, served server (if packet then udp else tcp) packet c ∧ received packet c id q d ∧ responds id q d h p0 ∧
    SkipQuestion p0 = (Err ErrSectionDone, p).
Definition keeps (s s' : client (W := W)) : Prop := snd s' = snd s ∧ I (fst s').
Lemma effect_runs {A} (f : W → A * W) s Q : (∀ a w, f (fst s) = (a, w) → Q (Some a) (w, snd s)) → runs (effect f) s Q.
Proof. intros HQ. destruct s as [w cfg]. unfold runs, effect. cbn in HQ. destruct (f w) as [a w'] eqn:E. by apply HQ. Qed.
Lemma roundTrip_runs packet id q udp tcp s : name_ok (q_Name q) → I (fst s) →
  runs (roundTrip packet id q udp tcp) s (λ r s', keeps s s' ∧ match r with
    | Some r => ∃ c w', Write (if packet then udp else tcp) (fst s) = (inl c, w') ∧ good_response packet c id q r | None => True end).
Proof.
  intros Hq HI. unfold roundTrip. apply runs_bind, effect_runs. intros r w Ew. assert (Hw : I w) by (pose proof (I_closed _ _ (step_write (if packet then udp else tcp) (fst s)) HI) as Hw; by rewrite Ew in Hw).
  destruct r as [c|err]; [|done]. pose proof (Write_bytes _ _ _ _ Ew) as Hb.
  apply runs_lift; [|done]. assert (Hs : safe (good_response packet c id q) (if packet then dnsPacketRoundTrip c id q else dnsStreamRoundTrip c id q)).
  { destruct packet; [by apply packet_safe|by apply stream_safe]. }
  eapply safe_mono; [exact Hs|]. intros r Hr. split; [done|]. by exists c, w.
Qed.
Lemma networks_runs networks server id q udp tcp timeout : name_ok (q_Name q) → ∀ s, I (fst s) →
  runs (networks_loop networks server id q udp tcp timeout) s (λ r s', keeps s s' ∧ match r with Some (p, h) => genuine server id udp tcp q p h | None => True end).
Proof.
  intros Hq. induction networks as [|network networks IH]; intros s HI; cbn [networks_loop]; [done|]. apply runs_bind. unfold dial. apply runs_bind, effect_runs.
  intros r w Ew. assert (Hw : I w) by (pose proof (I_closed _ _ (step_dial network server timeout (fst s)) HI) as Hw; by rewrite Ew in Hw).
  destruct r as [packet|err]; [|done]. cbn [runs]. unfold runs at 1, mret, stateful_ret. apply runs_bind, runs_attempt.
  eapply runs_mono; [by apply roundTrip_runs|]. intros r [w1 cfg1] [[Hk Hw1] Hr]. cbn [fst snd] in *. subst cfg1. pose proof (I_closed _ _ (step_close w1) Hw1) as Hw2.
  destruct r as [[p h]|]; [|intros e; by apply runs_bind, effect_runs; intros [] w2 [= <-]]. apply runs_bind, effect_runs. intros [] w2 [= <-].
  destruct Hr as (c&w0'&Ew'&d&Hrec&Hres&Hp&Hsec). cbn [fst snd] in *. pose proof (SkipQuestion_safe p Hp) as Hskip. unfold runs in Hskip.
  destruct (SkipQuestion p) as [[x|err|m] p'] eqn:E; [done| |done]. destruct Hskip as [Hp' _]. destruct (bool_decide_reflect (err = ErrSectionDone)) as [->|]; [|done]. cbn [negb].
  destruct (Truncated h) eqn:Et; [by apply (IH (Close w1, snd s))|]. unfold runs, mret, stateful_ret. split; [done|]. split; [done|]. split; [by apply (skip_end p p')|]. split; [done|].
  exists packet, c, d, p. split; [|done]. by exists network, timeout, (fst s), w, w0'.
Qed.
Lemma exchange_runs server q timeout useTCP ad s : name_ok (q_Name q) → I (fst s) → runs (exchange server q timeout useTCP ad) s (λ r s', keeps s s' ∧ match r with
  | Some (p, h) => let id := u16 (fst (randInt runtime_rand (fst s))) in let q := MkQuestion (q_Name q) (q_Type q) ClassINET in
      ∃ edns0 udp tcp, newRequest id edns0 q ad = Ok (udp, tcp) ∧ genuine server id udp tcp q p h
  | None => True end).
Proof.
  intros Hq HI. unfold exchange. apply runs_bind, effect_runs. intros rand w Er. pose proof (closed_rand I (fst s) I_closed HI) as Hw. rewrite Er in Hw |- *. cbn [fst snd] in *.
  apply runs_bind, effect_runs. intros edns0 w1 [= _ <-]. cbn [fst snd].
  set (q' := MkQuestion (q_Name q) (q_Type q) ClassINET). pose proof (newRequest_safe (u16 rand) edns0 q' ad Hq) as Hs.
  destruct (newRequest (u16 rand) edns0 q' ad) as [[udp tcp]|e|m] eqn:En; [|done|done]. eapply runs_mono; [by apply (networks_runs _ server (u16 rand) q' udp tcp timeout)|].
  intros [[p h]|] s' [Hk Hg]; [|by split]. split; [done|]. by exists edns0, udp, tcp.
Qed.
End exchange.

(** ** What an answer says *)
Lemma resourceHeader_msg sec p : p_msg (snd (resourceHeader sec p)) = p_msg p ∧
  match fst (resourceHeader sec p) with Ok hdr => resHeaderValid (snd (resourceHeader sec p)) = true ∧ resHeaderType (snd (resourceHeader sec p)) = rh_Type hdr | _ => True end.
Proof.
  unfold resourceHeader, checkAdvance, get, put, modify, lift, fail, mbind, stateful_bind, mret, stateful_ret. set (p1 := if resHeaderValid p then _ else p).
  assert (E : p_msg p1 = p_msg p) by (unfold p1; by destruct (resHeaderValid p)). clearbody p1. rewrite <- E.
  destruct (p_section p1 <? sec); [done|]. destruct (p_section p1 >? sec); [done|]. fields. destruct (p_index p1 =? _); [done|].
  by destruct (ResourceHeader_unpack _ _) as [[hdr off]|e|m].
Qed.
(** A header may be read again. *)
Lemma resourceHeader_again sec p hdr p' : resourceHeader sec p = (Ok hdr, p') → resourceHeader sec p' = (Ok hdr, p').
Proof.
  unfold resourceHeader, checkAdvance, get, put, modify, lift, fail, mbind, stateful_bind, mret, stateful_ret. set (p1 := if resHeaderValid p then _ else p). clearbody p1.
  destruct (p_section p1 <? sec) eqn:E1; [done|]. destruct (p_section p1 >? sec) eqn:E2; [done|]. fields. destruct (p_index p1 =? _) eqn:E3; [done|].
  destruct (ResourceHeader_unpack _ _) as [[h o]|e|m] eqn:E4; [|done|done]. intros [= -> <-]. fields. rewrite E1, E2, E3. fields. by rewrite E4.
Qed.
Lemma skipResource_msg sec p : p_msg (snd (Parser_skipResource sec p)) = p_msg p.
Proof.
  unfold Parser_skipResource, checkAdvance, get, put, modify, lift, fail, catching, mbind, stateful_bind, mret, stateful_ret.
  destruct (resHeaderValid p && _); [by destruct (_ >? _)|]. destruct (p_section p <? sec); [done|]. destruct (p_section p >? sec); [done|]. fields. destruct (p_index p =? _); [done|].
  by destruct (skipResource _ _) as [off|e|m].
Qed.
(** A method that leaves the message and, if it succeeds, satisfies [Q]. *)
Lemma AnswerHeader_runs p : parser_ok p → runs AnswerHeader p (λ h p', parser_ok p' ∧ p_msg p' = p_msg p ∧ match h with
  | Some h => p_section p' = sectionAnswers ∧ p_section p = sectionAnswers ∧ stays p p' ∧ p_index p' = p_index p ∧ resHeaderValid p' = true ∧ resHeaderType p' = rh_Type h ∧ AnswerHeader p' = (Ok h, p')
  | None => True end).
Proof.
  intros Hp. pose proof (resourceHeader_ok sectionAnswers p ltac:(done) Hp) as H. pose proof (resourceHeader_msg sectionAnswers p) as [Hm Ht].
  pose proof (resourceHeader_again sectionAnswers p) as Hag. unfold runs, AnswerHeader in *. destruct (resourceHeader sectionAnswers p) as [[h|e|m] p']; cbn [fst snd] in *; [|by destruct H|done]. specialize (Hag h p' eq_refl).
  destruct H as (Hp'&_&Hst&Hs&Hs'&Hi&_), Ht as [Hv Ht]. conjuncts.
Qed.
Lemma SkipAnswer_runs p : parser_ok p → runs SkipAnswer p (λ a p', parser_ok p' ∧ p_msg p' = p_msg p ∧ match a with Some _ => advanced sectionAnswers p p' | None => True end).
Proof.
  intros Hp. pose proof (skipResource_ok sectionAnswers p ltac:(done) Hp) as H. pose proof (skipResource_msg sectionAnswers p) as Hm.
  unfold runs, SkipAnswer in *. destruct (Parser_skipResource sectionAnswers p) as [[[]|e|m] p']; cbn [fst snd] in *; [|by destruct H|done]. by destruct H.
Qed.
(** Reading a record's header and skipping it goes on by one record. *)
Lemma header_then_skip sec fuel p p1 p2 : parser_ok p2 → stays p p1 → p_section p = sec → p_index p1 = p_index p → advanced sec p1 p2 → enough sec (S fuel) p → enough sec fuel p2.
Proof.
  intros Hp2 [Em Eh] Es Ei ([Em2 Eh2]&Es1&Es2&Ei2) He. apply (enough_next sec fuel p p2); [done| |done]. split; [split; congruence|]. split; [done|]. split; [done|]. lia.
Qed.
Lemma rcode_loop_safe hdr fuel : ∀ p, parser_ok p → enough sectionAdditionals fuel p → runs (rcode_loop fuel hdr) p (λ _ _, True).
Proof.
  induction fuel as [|fuel IH]; intros p Hp He; [destruct He; lia|]. cbn [rcode_loop]. apply runs_bind, runs_attempt.
  eapply runs_mono; [by apply (resourceHeader_ok sectionAdditionals)|]. intros [h|] p1 [Hp1 H]; [|done]. destruct H as (_&Hst&Hs&Hs1&Hi&_).
  destruct (_ =? _); [done|]. apply runs_bind, runs_attempt. eapply runs_mono; [by apply (skipResource_ok sectionAdditionals)|]. intros [a|] p2 [Hp2 Ha]; [|done].
  apply IH; [done|]. by apply (header_then_skip _ _ p p1).
Qed.
(** A method whose error is not looked at. *)
Lemma runs_ignored {A B} (m : parsing A) (k : parsing B) p Q : runs m p (λ _ p', parser_ok p') → (∀ p', parser_ok p' → runs k p' Q) → runs (_ ← attempt m; k) p Q.
Proof. intros Hm Hk. apply runs_bind, runs_attempt. eapply runs_mono; [exact Hm|]. intros [a|] p' Hp'; [|intros e]; by apply Hk. Qed.
Lemma extractExtendedRCode_safe p h : parser_ok p → safe (λ _, True) (extractExtendedRCode p h).
Proof.
  intros Hp. unfold extractExtendedRCode. apply runs_fst.
  apply runs_ignored; [apply skip_all_ok; [by apply skipResource_moves|done]|]. intros p1 Hp1. apply runs_ignored; [apply skip_all_ok; [by apply skipResource_moves|done]|]. intros p2 Hp2.
  pose proof (rcode_loop_safe h _ p2 Hp2 (section_fuel_enough sectionAdditionals p2 Hp2)) as H. unfold runs in *. by destruct (rcode_loop _ h p2) as [[]].
Qed.
Lemma checkHeader_runs h p : parser_ok p → runs (checkHeader h) p (λ _ p', parser_ok p' ∧ p_msg p' = p_msg p).
Proof.
  intros Hp. unfold checkHeader. apply runs_bind. unfold get. cbn [runs]. apply runs_bind, runs_lift; [|done]. eapply safe_mono; [by apply extractExtendedRCode_safe|]. intros rcode _.
  destruct (rcode =? RCodeNameError); [done|]. apply runs_bind, runs_attempt. eapply runs_mono; [by apply AnswerHeader_runs|]. intros a p1 (Hp1&Hm&_).
  destruct a as [hdr|]; [|intros e; destruct (bool_decide (e = ErrSectionDone)); cbn [negb]]; try done; rewrite ?andb_false_r; try destruct (_ && true); try destruct (negb _ && _); try destruct (_ =? RCodeServerFailure); done.
Qed.
Lemma answer_loop_runs qtype fuel : ∀ p, parser_ok p → enough sectionAnswers fuel p → runs (answer_loop fuel qtype) p (λ a p', parser_ok p' ∧ p_msg p' = p_msg p ∧
  match a with Some _ => p_section p' = sectionAnswers ∧ resHeaderValid p' = true ∧ resHeaderType p' = qtype ∧ ∃ h, AnswerHeader p' = (Ok h, p') ∧ rh_Type h = qtype | None => True end).
Proof.
  induction fuel as [|fuel IH]; intros p Hp He; [destruct He; lia|]. cbn [answer_loop]. apply runs_bind, runs_attempt.
  eapply runs_mono; [by apply AnswerHeader_runs|]. intros [h|] p1 (Hp1&Hm&H); [|intros e; by destruct (decide (e = ErrSectionDone))]. destruct H as (Hs1&Hs&Hst&Hi&Hv&Ht&Hag).
  destruct (Z.eqb_spec (rh_Type h) qtype) as [<-|]; [repeat (split; [done|]); by exists h|]. apply runs_bind, runs_attempt. eapply runs_mono; [by apply SkipAnswer_runs|]. intros [a|] p2 (Hp2&Hm2&Ha).
  - eapply runs_mono; [apply IH; [done|by apply (header_then_skip _ _ p p1)]|]. intros a' p' (H1&H2&H3). split; [done|]. split; [congruence|done].
  - intros e. unfold fail, runs. split; [done|]. split; [congruence|done].
Qed.
Lemma skipToAnswer_runs qtype p : parser_ok p → runs (skipToAnswer qtype) p (λ a p', parser_ok p' ∧ p_msg p' = p_msg p ∧
  match a with Some _ => p_section p' = sectionAnswers ∧ resHeaderValid p' = true ∧ resHeaderType p' = qtype ∧ ∃ h, AnswerHeader p' = (Ok h, p') ∧ rh_Type h = qtype | None => True end).
Proof. intros Hp. apply answer_loop_runs; [done|by apply section_fuel_enough]. Qed.

(** *** What a response says of the name *)
(** The code of the response, with the eight bits above that the first OPT record
    after the authorities adds, if its version is 0; where there is one and all
    before it can be read. *)
Definition with_more (r : ResourceHeader) (rcode : Z) : Z :=
  if decide (rh_TTL r / 2 ^ 16 mod 2 ^ 8 = 0) then Z.lor (2 ^ 4 * (rh_TTL r / 2 ^ 24)) rcode else rcode.
Lemma version_bits t : Z.land t ednsVersionMask = t / 2 ^ 16 mod 2 ^ 8 * 2 ^ 16.
Proof.
  change ednsVersionMask with (Z.shiftl (Z.ones 8) 16). rewrite <- Z.shiftr_div_pow2, <- Z.land_ones, <- Z.shiftl_mul_pow2 by lia. apply Z.bits_inj'. intros n Hn.
  rewrite Z.land_spec. destruct (Z.ltb_spec n 16); [rewrite !Z.shiftl_spec_low by done; by rewrite andb_false_r|].
  rewrite !Z.shiftl_spec, Z.land_spec, Z.shiftr_spec by lia. do 2 f_equal. lia.
Qed.
Lemma ExtendedRCode_more r rcode : is_u32 (rh_TTL r) → ExtendedRCode r rcode = with_more r rcode.
Proof.
  unfold is_u32. intros Ht. unfold ExtendedRCode, with_more. rewrite version_bits. change edns0Version with 0. destruct (decide _) as [->|Hn].
  - change (0 * 2 ^ 16 =? 0) with true. cbn iota. rewrite Z.shiftr_div_pow2, Z.shiftl_mul_pow2 by lia.
    assert (Hq : 0 <= rh_TTL r / 2 ^ 24 < 2 ^ 8) by (split; [apply Z.div_pos; lia|apply Z.div_lt_upper_bound; lia]). generalize dependent (rh_TTL r / 2 ^ 24). intros q Hq. unfold u32, u16. change (2 ^ 4) with 16 in *. change (2 ^ 8) with 256 in *. rewrite (Z.mod_small (q * 16)) by lia. rewrite Z.mod_small by lia. f_equal. lia.
  - by rewrite (proj2 (Z.eqb_neq _ _)) by lia.
Qed.
Inductive opt_code (h : Header) : Parser → Z → Prop :=
| opt_none p e p' : AdditionalHeader p = (Err e, p') → opt_code h p (RCode h)
| opt_here p r p' : AdditionalHeader p = (Ok r, p') → rh_Type r = TypeOPT → opt_code h p (with_more r (RCode h))
| opt_broken p r p' e p2 : AdditionalHeader p = (Ok r, p') → rh_Type r ≠ TypeOPT → SkipAdditional p' = (Err e, p2) → opt_code h p (RCode h)
| opt_later p r p' p2 rcode : AdditionalHeader p = (Ok r, p') → rh_Type r ≠ TypeOPT → SkipAdditional p' = (Ok tt, p2) → opt_code h p2 rcode → opt_code h p rcode.
Definition extended (h : Header) (p : Parser) (rcode : Z) : Prop := opt_code h (snd (SkipAllAuthorities (snd (SkipAllAnswers p)))) rcode.
(** The answers are gone through up to the first of the type. *)
Inductive scanned : Type := Hit (p : Parser) | Ended (p : Parser) | Broken (p : Parser).
Inductive scan (qtype : Z) : Parser → scanned → Prop :=
| scan_hit p h p' : AnswerHeader p = (Ok h, p') → rh_Type h = qtype → scan qtype p (Hit p')
| scan_next p h p1 p2 r : AnswerHeader p = (Ok h, p1) → rh_Type h ≠ qtype → SkipAnswer p1 = (Ok tt, p2) → scan qtype p2 r → scan qtype p r
| scan_end p p' : AnswerHeader p = (Err ErrSectionDone, p') → scan qtype p (Ended p')
| scan_bad p e p' : AnswerHeader p = (Err e, p') → e ≠ ErrSectionDone → scan qtype p (Broken p')
| scan_broken p h p1 e p2 : AnswerHeader p = (Ok h, p1) → rh_Type h ≠ qtype → SkipAnswer p1 = (Err e, p2) → scan qtype p (Broken p2).
(** Reading on in the answers. *)
Inductive reads : Parser → Parser → Prop :=
| reads_header p : reads p (snd (AnswerHeader p))
| reads_skip p p' : SkipAnswer p = (Ok tt, p') → reads p p'
| reads_A p a p' : Parser_AResource p = (Ok a, p') → reads p p'
| reads_AAAA p a p' : Parser_AAAAResource p = (Ok a, p') → reads p p'
| reads_CNAME p c p' : Parser_CNAMEResource p = (Ok c, p') → reads p p'.
Definition reads_on : Parser → Parser → Prop := rtc reads.
Lemma reads_on_header p q x : reads_on p q → AnswerHeader q = x → reads_on p (snd x).
Proof. intros Hr <-. eapply rtc_r; [exact Hr|constructor]. Qed.
Lemma scan_reads qtype p r : scan qtype p r → ∀ p', r = Hit p' → reads_on p p'.
Proof.
  induction 1 as [p h p1 E _|p h p1 p2 r E _ Es _ IH|p p1 E|p e p1 E _|p h p1 e p2 E _ _]; intros p' [=].
  - subst. eapply (reads_on_header _ _ _ (rtc_refl _ _) E).
  - etrans; [exact (reads_on_header _ _ _ (rtc_refl _ _) E)|]. cbn [snd]. eapply rtc_l; [by apply reads_skip|by apply IH].
Qed.
(** A response answers; or says that there is no such host, or none with such
    records; or is of no use, and another server may know better. *)
Inductive judgement : Type := Answers (p : Parser) | NoHost (p : Parser) | Useless (e : error) (temporary : bool).
Definition no_records (p : Parser) : Prop := fst (AnswerHeader p) = Err ErrSectionDone.
Definition unreadable (p : Parser) : Prop := ∃ e, fst (AnswerHeader p) = Err e ∧ e ≠ ErrSectionDone.
Definition lame (h : Header) (p : Parser) : Prop := Authoritative h = false ∧ RecursionAvailable h = false ∧ no_records p.
Inductive judged (h : Header) (qtype : Z) (p : Parser) : judgement → Prop :=
| judged_no_name : extended h p 3 → judged h qtype p (NoHost p)
| judged_unreadable rcode : extended h p rcode → rcode ≠ 3 → unreadable p → judged h qtype p (Useless errCannotUnmarshalDNSMessage false)
| judged_lame : extended h p 0 → ¬ unreadable p → lame h p → judged h qtype p (Useless errLameReferral false)
| judged_failure : extended h p 2 → ¬ unreadable p → judged h qtype p (Useless errServerTemporarilyMisbehaving true)
| judged_misbehaving rcode : extended h p rcode → rcode ∉ [0; 2; 3] → ¬ unreadable p → judged h qtype p (Useless errServerMisbehaving false)
| judged_scan r : extended h p 0 → ¬ unreadable p → ¬ lame h p → scan qtype (snd (AnswerHeader p)) r →
    judged h qtype p (match r with Hit p' => Answers p' | Ended p' => NoHost p' | Broken _ => Useless errCannotUnmarshalDNSMessage false end).
Lemma rcode_loop_code h fuel : ∀ p, parser_ok p → enough sectionAdditionals fuel p → ∃ rcode, fst (rcode_loop fuel h p) = Ok rcode ∧ opt_code h p rcode.
Proof.
  induction fuel as [|fuel IH]; intros p Hp He; [destruct He; lia|]. cbn [rcode_loop]. unfold mbind, stateful_bind, attempt.
  pose proof (resourceHeader_ok sectionAdditionals p ltac:(done) Hp) as H. unfold runs, AdditionalHeader in *. destruct (resourceHeader sectionAdditionals p) as [[r|e|m] p1] eqn:E; [| |done].
  2: { exists (RCode h). split; [done|]. by eapply opt_none. }
  destruct H as [Hp1 ((_&_&_&Httl&_)&Hst&Hs&Hs1&Hi&_)]. destruct (Z.eqb_spec (rh_Type r) TypeOPT) as [Et|Et]; [eexists; split; [reflexivity|]; rewrite ExtendedRCode_more by done; by eapply opt_here|].
  pose proof (skipResource_ok sectionAdditionals p1 ltac:(done) Hp1) as H. unfold runs, SkipAdditional in *. destruct (Parser_skipResource sectionAdditionals p1) as [[[]|e|m] p2] eqn:E2; [| |done].
  - destruct H as [Hp2 Ha]. destruct (IH p2) as (rcode&E3&Hc); [done|by apply (header_then_skip _ _ p p1)|]. exists rcode. split; [exact E3|]. by eapply opt_later.
  - eexists. split; [reflexivity|]. by eapply opt_broken.
Qed.
Lemma runs_ignoring {A B} (m : parsing A) (k : parsing B) p (Q : res B → Prop) : runs m p (λ _ p', parser_ok p') →
  (∀ p', p' = snd (m p) → parser_ok p' → Q (fst (k p'))) → Q (fst ((_ ← attempt m; k) p)).
Proof. unfold runs, mbind, stateful_bind, attempt. destruct (m p) as [[a|e|x] p']; [|..|done]; intros Hp' Hk; by apply Hk. Qed.
Lemma extended_run h p : parser_ok p → ∃ rcode, extractExtendedRCode p h = Ok rcode ∧ extended h p rcode.
Proof.
  intros Hp. unfold extractExtendedRCode. apply (runs_ignoring _ _ _ (λ r, ∃ rcode, r = Ok rcode ∧ extended h p rcode)); [apply skip_all_ok; [by apply skipResource_moves|done]|].
  intros p1 E1 Hp1. apply (runs_ignoring _ _ _ (λ r, ∃ rcode, r = Ok rcode ∧ extended h p rcode)); [apply skip_all_ok; [by apply skipResource_moves|done]|]. intros p2 E2 Hp2.
  unfold extended. rewrite <- E1, <- E2. apply (rcode_loop_code h); [done|by apply section_fuel_enough].
Qed.
Lemma answer_loop_scan qtype fuel : ∀ p, parser_ok p → enough sectionAnswers fuel p → ∃ r, scan qtype p r ∧
  answer_loop fuel qtype p = match r with Hit p' => (Ok tt, p') | Ended p' => (Err errNoSuchHost, p') | Broken p' => (Err errCannotUnmarshalDNSMessage, p') end.
Proof.
  induction fuel as [|fuel IH]; intros p Hp He; [destruct He; lia|]. cbn [answer_loop]. unfold mbind at 1, stateful_bind at 1, attempt at 1.
  pose proof (AnswerHeader_runs p Hp) as H. unfold runs in H. destruct (AnswerHeader p) as [[h|e|m] p1] eqn:E; [| |done].
  - destruct H as (Hp1&_&Hs1&Hs&Hst&Hi&_). destruct (Z.eqb_spec (rh_Type h) qtype) as [Et|Et]; [exists (Hit p1); split; [by eapply scan_hit|done]|].
    unfold mbind at 1, stateful_bind at 1, attempt at 1. pose proof (SkipAnswer_runs p1 Hp1) as H2. unfold runs in H2. destruct (SkipAnswer p1) as [[[]|e|m] p2] eqn:E2; [| |done].
    + destruct H2 as (Hp2&_&Ha). destruct (IH p2) as (r&Hr&Er); [done|by apply (header_then_skip _ _ p p1)|]. exists r. split; [by eapply scan_next|done].
    + exists (Broken p2). split; [by eapply scan_broken|done].
  - destruct (decide (e = ErrSectionDone)) as [->|Hne]; [exists (Ended p1)|exists (Broken p1)]; (split; [|done]); [by eapply scan_end|by eapply scan_bad].
Qed.
Lemma judged_reads h qtype p p' : judged h qtype p (Answers p') → reads_on p p'.
Proof.
  inversion 1 as [| | | | |r _ _ _ Hs Er]. destruct r as [p1|p1|p1]; try discriminate. injection Er as ->. eapply rtc_l; [apply reads_header|by eapply scan_reads].
Qed.
(** checkHeader and skipToAnswer judge the response. *)
Lemma judge h qtype p : parser_ok p → ∃ j, judged h qtype p j ∧
  match checkHeader h p with
  | (Ok _, p1) => match skipToAnswer qtype p1 with
      | (Ok _, p2) => j = Answers p2
      | (Err e, p2) => e = errNoSuchHost ∧ j = NoHost p2 ∨ e ≠ errNoSuchHost ∧ j = Useless e false
      | (Panic _, _) => False end
  | (Err e, p1) => e = errNoSuchHost ∧ j = NoHost p1 ∨ e ≠ errNoSuchHost ∧ j = Useless e (bool_decide (e = errServerTemporarilyMisbehaving))
  | (Panic _, _) => False end.
Proof.
  intros Hp. destruct (extended_run h p Hp) as (rcode&Ec&Hx). pose proof (AnswerHeader_runs p Hp) as H1. unfold runs in H1.
  unfold checkHeader, mbind, stateful_bind, get, lift, attempt. rewrite Ec. destruct (Z.eqb_spec rcode RCodeNameError) as [->|Hn3].
  { exists (NoHost p). split; [by apply judged_no_name|by left]. }
  change RCodeNameError with 3 in Hn3. destruct (AnswerHeader p) as [[a|e|m] p1] eqn:Ea; [| |done].
  all: assert (E1 : p1 = snd (AnswerHeader p)) by (by rewrite Ea).
  - destruct H1 as (Hp1&_). assert (Hu : ¬ unreadable p) by (intros (e&He&_); rewrite Ea in He; done). assert (Hl : ¬ lame h p) by (intros (_&_&He); unfold no_records in He; rewrite Ea in He; done).
    rewrite andb_false_r. cbn [andb]. destruct (Z.eqb_spec rcode 0) as [->|Hn0].
    + change (0 =? RCodeSuccess) with true. cbn [negb andb]. unfold mret, stateful_ret. destruct (answer_loop_scan qtype (section_fuel sectionAnswers p1) p1 Hp1) as (r&Hr&Er); [by apply section_fuel_enough|].
      rewrite E1 in Hr. pose proof (judged_scan h qtype p r Hx Hu Hl Hr) as Hj. unfold skipToAnswer. rewrite Er. eexists. split; [exact Hj|]. destruct r; [done|by left|by right].
    + rewrite (proj2 (Z.eqb_neq rcode RCodeSuccess)) by done. cbn [negb andb]. destruct (Z.eqb_spec rcode RCodeServerFailure) as [->|Hn2].
      * eexists. split; [by apply judged_failure|]. by right.
      * eexists. split; [apply (judged_misbehaving _ _ _ rcode); [done| |done]|by right]. change RCodeServerFailure with 2 in Hn2. set_solver.
  - destruct H1 as (Hp1&_). destruct (bool_decide_reflect (e = ErrSectionDone)) as [->|Hne]; cbn [negb].
    + assert (Hu : ¬ unreadable p) by (intros (e&He&Hne); rewrite Ea in He; by injection He as <-). assert (Hno : no_records p) by (unfold no_records; by rewrite Ea). destruct (Z.eqb_spec rcode 0) as [->|Hn0].
      * change (0 =? RCodeSuccess) with true. cbn [negb andb]. rewrite andb_true_r. destruct (negb (Authoritative h) && negb (RecursionAvailable h)) eqn:El.
        { apply andb_true_iff in El as [H2%negb_true_iff H3%negb_true_iff]. eexists. split; [by apply judged_lame|by right]. }
        assert (Hl : ¬ lame h p) by (intros (H2&H3&_); by rewrite H2, H3 in El). unfold mret, stateful_ret. destruct (answer_loop_scan qtype (section_fuel sectionAnswers p1) p1 Hp1) as (r&Hr&Er); [by apply section_fuel_enough|].
        rewrite E1 in Hr. pose proof (judged_scan h qtype p r Hx Hu Hl Hr) as Hj. unfold skipToAnswer. rewrite Er. eexists. split; [exact Hj|]. destruct r; [done|by left|by right].
      * rewrite (proj2 (Z.eqb_neq rcode RCodeSuccess)) by done. cbn [negb andb]. destruct (Z.eqb_spec rcode RCodeServerFailure) as [->|Hn2].
        { eexists. split; [by apply judged_failure|]. by right. }
        eexists. split; [apply (judged_misbehaving _ _ _ rcode); [done| |done]|by right]. change RCodeServerFailure with 2 in Hn2. set_solver.
    + assert (Hu : unreadable p) by (exists e; by rewrite Ea). eexists. split; [by eapply (judged_unreadable _ _ _ rcode)|]. by right.
Qed.

(** ** All servers *)
Section try.
Context {W : Type} `{NetLaws W} (I : W → Prop) (I_closed : closed I).
Implicit Types s : client (W := W).
(** The servers one after the other, until one settles the name. *)
Fixpoint ask_all (l : list bytes) (name : bytes) (qtype : Z) (q : Question) (lastErr : option error) : asking (W := W) (outcome + option error) :=
  match l with
  | [] => mret (inr lastErr)
  | server :: l =>
      r ← one_server name qtype q server;
      match r with inl out => mret (inl out) | inr err => ask_all l name qtype q (Some err) end
  end.
Lemma ask_all_app l1 l2 name qtype q : ∀ lastErr s, ask_all (l1 ++ l2) name qtype q lastErr s =
  (r ← ask_all l1 name qtype q lastErr; match r with inl out => mret (inl out) | inr e => ask_all l2 name qtype q e end) s.
Proof.
  induction l1 as [|server l1 IH]; intros e s; cbn [app ask_all]; [done|]. unfold mbind, stateful_bind in *.
  destruct (one_server name qtype q server s) as [[[out|err]|x|m] s']; [done|apply IH|done..].
Qed.
(** The servers from the [offset]-th on, and then from the first. *)
Definition rotation (offset : Z) (l : list bytes) : list bytes :=
  let n := Z.to_nat (offset mod len l) in drop n l ++ take n l.
Lemma rotation_lookup offset l j : 0 < len l → 0 <= offset → 0 <= j < len l → rotation offset l !! Z.to_nat j = l !! Z.to_nat ((offset + j) mod len l).
Proof.
  intros Hl Ho Hj. unfold rotation. pose proof (Z.mod_pos_bound offset (len l) Hl) as Hm. set (n := offset mod len l) in *.
  assert (En : (offset + j) mod len l = (n + j) mod len l) by (unfold n; by rewrite Zplus_mod_idemp_l). rewrite En. unfold len in *.
  destruct (decide (n + j < Z.of_nat (length l))).
  - rewrite Z.mod_small by lia. rewrite lookup_app_l by (rewrite length_drop; lia). rewrite lookup_drop. f_equal. lia.
  - replace ((n + j) mod Z.of_nat (length l)) with (n + j - Z.of_nat (length l)).
    2: { apply Z.mod_unique_pos with 1; lia. }
    rewrite lookup_app_r by (rewrite length_drop; lia). rewrite lookup_take_lt by (rewrite length_drop; lia). f_equal. rewrite length_drop. lia.
Qed.
Lemma rotation_length offset l : length (rotation offset l) = length l.
Proof. unfold rotation. rewrite length_app, length_drop, length_take. lia. Qed.
Lemma at_from_lookup {A} (l : list A) i x : 0 <= i → l !! Z.to_nat i = Some x → at_ l i = Ok x.
Proof. intros Hi E. unfold at_. rewrite (proj2 (Z.ltb_ge _ _)) by lia. by rewrite E. Qed.
(** The order the sums of 32 bits give. *)
Definition turn_order (offset : Z) (l : list bytes) : list bytes :=
  (λ j, nth (Z.to_nat (u32 (offset + Z.of_nat j) mod len l)) l []) <$> seq 0 (length l).
Lemma turn_order_length offset l : length (turn_order offset l) = length l.
Proof. unfold turn_order. by rewrite length_fmap, length_seq. Qed.
Lemma turn_order_lookup offset l j : 0 <= j < len l → ∃ x, turn_order offset l !! Z.to_nat j = Some x ∧ at_ l (u32 (offset + j) mod len l) = Ok x ∧ x ∈ l.
Proof.
  intros Hj. pose proof (Z.mod_pos_bound (u32 (offset + j)) (len l) ltac:(lia)) as Hm.
  assert (Hlt : (Z.to_nat (u32 (offset + j) mod len l) < length l)%nat) by (unfold len in *; lia).
  destruct (lookup_lt_is_Some_2 l _ Hlt) as [x Ex]. exists x. split; [|split; [by apply at_from_lookup; [lia|]|by apply list_elem_of_lookup_2 in Ex]].
  unfold turn_order. rewrite list_lookup_fmap, lookup_seq_lt by (unfold len in Hj; lia). cbn [fmap option_fmap option_map Nat.add].
  rewrite Z2Nat.id by lia. by rewrite (nth_lookup_Some _ _ _ _ Ex).
Qed.
Lemma turn_order_rotation offset l : 0 <= offset → offset + len l <= 2 ^ 32 → turn_order offset l = rotation offset l.
Proof.
  intros Ho Hw. apply list_eq_same_length with (length l); [by rewrite rotation_length|by rewrite turn_order_length|].
  intros i x y Hi Hx Hy. destruct (turn_order_lookup offset l (Z.of_nat i)) as (z&Ez&Ea&_); [unfold len; lia|]. rewrite Nat2Z.id in Ez.
  pose proof (rotation_lookup offset l (Z.of_nat i)) as Hr. rewrite Nat2Z.id in Hr. rewrite Hr in Hy by (unfold len; lia).
  replace (u32 (offset + Z.of_nat i)) with (offset + Z.of_nat i) in Ea by (unfold u32; rewrite Z.mod_small; unfold len in Hw; lia).
  apply at_from_lookup in Hy; [|apply Z.mod_pos_bound; unfold len; lia]. congruence.
Qed.
Lemma servers_loop_asks offset l name qtype q : len l < 2 ^ 32 → ∀ k j lastErr s, Z.of_nat k + j = len l → 0 <= j →
  servers_loop k j offset l name qtype q lastErr s = ask_all (drop (Z.to_nat j) (turn_order offset l)) name qtype q lastErr s.
Proof.
  intros Hl. induction k as [|k IH]; intros j e s Hk Hj; cbn [servers_loop].
  - rewrite drop_ge by (rewrite turn_order_length; unfold len in Hk; lia). done.
  - assert (Hu : u32 (len l) = len l) by (unfold u32; rewrite Z.mod_small; lia). rewrite Hu.
    destruct (turn_order_lookup offset l j) as (server&E&Ea&_); [lia|]. rewrite (drop_S _ server _ E). replace (S (Z.to_nat j)) with (Z.to_nat (j + 1)) by lia.
    cbn [ask_all]. unfold mbind, stateful_bind, lift. rewrite Ea. destruct (one_server name qtype q server s) as [[[out|err]|x|m] s']; [done|apply IH; lia|done..].
Qed.
(** The servers of all attempts. *)
Definition all_turns (cfg : dnsConfig) : list bytes := concat (repeat (turn_order (fst (serverOffset cfg)) (servers cfg)) (Z.to_nat (attempts cfg))).
Lemma attempts_loop_asks offset l name qtype q : len l < 2 ^ 32 → ∀ k lastErr s,
  attempts_loop k offset l name qtype q lastErr s =
  (r ← ask_all (concat (repeat (turn_order offset l) k)) name qtype q lastErr; mret (match r with inl out => out | inr e => (zero_Parser, [], e) end)) s.
Proof.
  intros Hl. pose proof (len_nonneg l). induction k as [|k IH]; intros e s; cbn [attempts_loop repeat concat]; [done|].
  unfold mbind, stateful_bind in *. rewrite ask_all_app. unfold mbind, stateful_bind.
  assert (Hu : u32 (len l) = len l) by (unfold u32; rewrite Z.mod_small; lia). rewrite Hu, servers_loop_asks by lia. change (Z.to_nat 0) with 0%nat. rewrite drop_0.
  destruct (ask_all (turn_order offset l) name qtype q e s) as [[[out|e']|x|m] s']; [done|apply IH|done..].
Qed.

(** *** What comes of asking *)
(** The parser is at an answer of the type, in a message that responds to a
    request for the name. *)
Definition at_answer (n : Name) (qtype : Z) (p : Parser) : Prop :=
  parser_ok p ∧ p_section p = sectionAnswers ∧ resHeaderValid p = true ∧ resHeaderType p = qtype ∧ (∃ h, AnswerHeader p = (Ok h, p) ∧ rh_Type h = qtype) ∧
  ∃ id h p0, responds id (MkQuestion n qtype ClassINET) (p_msg p) h p0.
(** The error names the name asked for and the server. *)
Definition lookup_error (name server : bytes) (e : error) : Prop := ∃ t to tmp nf, e = DNSError t name server to tmp nf.
(** The parser has come that far in the answers of a message that responded to a
    request for the name that was sent to the server. *)
Definition heard (server : bytes) (n : Name) (qtype : Z) (p : Parser) : Prop :=
  let q := MkQuestion n qtype ClassINET in
  ∃ id edns0 ad udp tcp (packet : bool) c d h p0 p1, newRequest id edns0 q ad = Ok (udp, tcp) ∧
    served I server (if packet then udp else tcp) packet c ∧ received packet c id q d ∧ responds id q d h p0 ∧
    SkipQuestion p0 = (Err ErrSectionDone, p1) ∧ reads_on p1 p.
Definition settled (name : bytes) (n : Name) (qtype : Z) (servers : list bytes) (out : outcome) : Prop :=
  let '(p, server, err) := out in server ∈ servers ∧
  match err with None => at_answer n qtype p ∧ heard server n qtype p | Some e => ∃ t to tmp, e = DNSError t name server to tmp true end.
Lemma first_question_msg d h q p : first_question d h q p → p_msg p = d.
Proof.
  intros (p0&Es&Eq). assert (E0 : p_msg p0 = d). { unfold Parser_Start in Es. destruct (nest _ (header_unpack d 0)) as [[h0 o]|e|m]; [|done|done]. by injection Es as _ <-. }
  rewrite <- E0. revert Eq. unfold Parser_Question, checkAdvance, get, modify, lift, fail, mbind, stateful_bind, mret, stateful_ret.
  destruct (p_section p0 <? _); [done|]. destruct (p_section p0 >? _); [done|]. fields. destruct (p_index p0 =? _); [done|].
  destruct (nest _ _) as [[a o1]|e|m]; [|done|done]. destruct (nest _ _) as [[b o2]|e|m]; [|done|done]. destruct (nest _ _) as [[c o3]|e|m]; [|done|done]. by intros [= _ <-].
Qed.
Lemma skip_end_msg p p' e : SkipQuestion p = (Err e, p') → p_msg p' = p_msg p.
Proof.
  unfold SkipQuestion, checkAdvance, get, modify, lift, fail, mbind, stateful_bind, mret, stateful_ret.
  destruct (p_section p <? _); [by intros [= _ <-]|]. destruct (p_section p >? _); [by intros [= _ <-]|]. fields. destruct (p_index p =? _); [by intros [= _ <-]|].
  destruct (nest _ _) as [o1|e1|m]; [|by intros [= _ <-]|done]. destruct (nest _ _) as [o2|e1|m]; [|by intros [= _ <-]|done]. destruct (nest _ _) as [o3|e1|m]; [done|by intros [= _ <-]|done].
Qed.
Lemma one_server_runs name n qtype server s : name_ok n → I (fst s) → runs (one_server name qtype (MkQuestion n qtype ClassINET) server) s (λ r s', keeps I s s' ∧ ∃ v, r = Some v ∧
  match v with
  | inl (p, server', None) => server' = server ∧ at_answer n qtype p ∧ heard server n qtype p
  | inl (p, server', Some e) => server' = server ∧ ∃ t to tmp, e = DNSError t name server to tmp true
  | inr e => lookup_error name server e
  end).
Proof.
  intros Hn HI. destruct s as [w cfg]. unfold one_server. apply runs_bind. unfold get. cbn [runs]. apply runs_bind, runs_attempt.
  eapply runs_mono; [by apply (exchange_runs I I_closed server (MkQuestion n qtype ClassINET))|]. intros r s' [Hk Hr]. destruct r as [[p h]|].
  2: { intros e. unfold runs, mret, stateful_ret. split; [done|]. eexists. split; [reflexivity|]. by eexists _, _, _, _. }
  destruct Hr as (edns0&udp&tcp&Ereq&Hp&Hsec&_&packet&c&d&p0&Hserved&Hrec&Hres&Hskip). cbn [q_Name q_Type] in *.
  assert (Em : p_msg p = d). { rewrite (skip_end_msg _ _ _ Hskip). destruct Hres as (_&_&q'&Hq&_). by apply first_question_msg in Hq. }
  pose proof (checkHeader_runs h p Hp) as H1. unfold runs in H1. destruct (judge h qtype p Hp) as (j&Hj&Ej). destruct (checkHeader h p) as [[[]|e|m] p1]; [| |done]; destruct H1 as [Hp1 Hm1].
  - pose proof (skipToAnswer_runs qtype p1 Hp1) as H2. unfold runs in H2. destruct (skipToAnswer qtype p1) as [[[]|e|m] p2]; [| |done]; destruct H2 as (Hp2&Hm2&H2).
    + split; [done|]. eexists. split; [reflexivity|]. split; [done|]. destruct H2 as (Hs2&Hv2&Ht2&Hag). split.
      2: { exists (u16 (fst (randInt runtime_rand w))), edns0, (trustAD cfg), udp, tcp, packet, c, d, h, p0, p. subst j. apply judged_reads in Hj. done. }
      do 5 (split; [done|]). exists (u16 (fst (randInt runtime_rand w))), h, p0. by rewrite Hm2, Hm1, Em.
    + destruct (bool_decide (e = errNoSuchHost)); (split; [done|]); eexists; (split; [reflexivity|]); [split; [done|by eexists _, _, _]|by eexists _, _, _, _].
  - destruct (bool_decide (e = errNoSuchHost)); (split; [done|]); eexists; (split; [reflexivity|]); [split; [done|by eexists _, _, _]|by eexists _, _, _, _].
Qed.
(** The servers in turn, in the worlds that they leave: one is left for the next
    when the exchange with it fails or its response is of no use; the last such
    error is the outcome when none is left. *)
Inductive tries (name : bytes) (q : Question) : list bytes → option error → client (W := W) → outcome → client (W := W) → Prop :=
| tries_none lastErr s : tries name q [] lastErr s (zero_Parser, [], lastErr) s
| tries_failed server l lastErr s e s1 out s2 :
    exchange server q (timeout (snd s)) (useTCP (snd s)) (trustAD (snd s)) s = (Err e, s1) →
    tries name q l (Some (DNSError (Error e) name server (is_timeout e) (is_OpError e) false)) s1 out s2 → tries name q (server :: l) lastErr s out s2
| tries_useless server l lastErr s p h e tmp s1 out s2 :
    exchange server q (timeout (snd s)) (useTCP (snd s)) (trustAD (snd s)) s = (Ok (p, h), s1) → judged h (q_Type q) p (Useless e tmp) →
    tries name q l (Some (DNSError (Error e) name server false tmp false)) s1 out s2 → tries name q (server :: l) lastErr s out s2
| tries_nohost server l lastErr s p h p' s1 :
    exchange server q (timeout (snd s)) (useTCP (snd s)) (trustAD (snd s)) s = (Ok (p, h), s1) → judged h (q_Type q) p (NoHost p') →
    tries name q (server :: l) lastErr s (p', server, Some (DNSError (Error errNoSuchHost) name server false false true)) s1
| tries_answer server l lastErr s p h p' s1 :
    exchange server q (timeout (snd s)) (useTCP (snd s)) (trustAD (snd s)) s = (Ok (p, h), s1) → judged h (q_Type q) p (Answers p') →
    tries name q (server :: l) lastErr s (p', server, None) s1.
Lemma ask_all_tries name n qtype l : name_ok n → let q := MkQuestion n qtype ClassINET in ∀ lastErr s, I (fst s) →
  ∃ v s', ask_all l name qtype q lastErr s = (Ok v, s') ∧ tries name q l lastErr s (match v with inl out => out | inr e => (zero_Parser, [], e) end) s'.
Proof.
  intros Hn q. induction l as [|server l IH]; intros lastErr s HI; cbn [ask_all].
  { exists (inr lastErr), s. split; [done|constructor]. }
  pose proof (exchange_runs I I_closed server q (timeout (snd s)) (useTCP (snd s)) (trustAD (snd s)) s Hn HI) as Hex. unfold runs in Hex.
  unfold mbind at 1, stateful_bind at 1. unfold one_server. unfold mbind at 1, stateful_bind at 1, get. destruct s as [w cfg]. cbn [fst snd] in *. unfold mbind at 1, stateful_bind at 1, attempt at 1.
  destruct (exchange server q (timeout cfg) (useTCP cfg) (trustAD cfg) (w, cfg)) as [[[p h]|e|m] s1] eqn:Ex; [| |done].
  - destruct Hex as ([_ HI1]&edns0&udp&tcp&_&Hp&_). destruct (judge h qtype p Hp) as (j&Hj&Ej).
    assert (Hnext : ∀ e tmp, j = Useless e tmp → ∃ v s', ask_all l name qtype q (Some (DNSError (Error e) name server false tmp false)) s1 = (Ok v, s') ∧
      tries name q (server :: l) lastErr (w, cfg) (match v with inl out => out | inr e => (zero_Parser, [], e) end) s').
    { intros e tmp ->. destruct (IH (Some (DNSError (Error e) name server false tmp false)) s1 HI1) as (v&s'&E&Ht). exists v, s'. split; [exact E|]. by eapply tries_useless. }
    assert (Hstop : ∀ p' e, j = NoHost p' → e = errNoSuchHost → tries name q (server :: l) lastErr (w, cfg) (p', server, Some (DNSError (Error e) name server false false true)) s1).
    { intros p' e -> ->. by eapply tries_nohost. }
    destruct (checkHeader h p) as [[[]|e|m] p1]; [|destruct Ej as [[-> ->]|[Hne ->]]|done].
    + destruct (skipToAnswer qtype p1) as [[[]|e|m] p2]; [subst j|destruct Ej as [[-> ->]|[Hne ->]]|done].
      * eexists _, s1. split; [reflexivity|]. by eapply tries_answer.
      * eexists _, s1. split; [reflexivity|]. by apply Hstop.
      * rewrite bool_decide_eq_false_2 by done. by apply Hnext.
    + eexists _, s1. split; [reflexivity|]. by apply Hstop.
    + rewrite bool_decide_eq_false_2 by done. by apply Hnext.
  - destruct Hex as [[_ HI1] _]. destruct (IH (Some (DNSError (Error e) name server (is_timeout e) (is_OpError e) false)) s1 HI1) as (v&s'&E&Ht). exists v, s'. split; [exact E|]. by eapply tries_failed.
Qed.
Lemma ask_all_runs name n qtype l : name_ok n → ∀ lastErr s, I (fst s) → runs (ask_all l name qtype (MkQuestion n qtype ClassINET) lastErr) s (λ r s', keeps I s s' ∧ ∃ v, r = Some v ∧
  match v with
  | inl out => settled name n qtype l out
  | inr e => (l = [] ∧ e = lastErr) ∨ ∃ server e', server ∈ l ∧ e = Some e' ∧ lookup_error name server e'
  end).
Proof.
  intros Hn. induction l as [|server l IH]; intros lastErr s HI; cbn [ask_all].
  { unfold runs, mret, stateful_ret. split; [done|]. eexists. split; [reflexivity|]. by left. }
  apply runs_bind. eapply runs_mono; [by apply (one_server_runs name n)|]. intros r s1 ([Hk1 HI1]&v&->&Hv). destruct v as [[[p server'] [e|]]|e].
  - destruct Hv as [-> Hv]. unfold runs, mret, stateful_ret. split; [done|]. eexists. split; [reflexivity|]. split; [by apply list_elem_of_here|done].
  - destruct Hv as [-> Hv]. unfold runs, mret, stateful_ret. split; [done|]. eexists. split; [reflexivity|]. split; [by apply list_elem_of_here|done].
  - eapply runs_mono; [by apply IH|]. intros r s2 ([Hk2 HI2]&v&->&Hv2). split; [by split; [congruence|]|]. eexists. split; [reflexivity|]. destruct v as [[[p server'] err]|e2].
    + destruct Hv2 as [Hin Hv2]. split; [by apply list_elem_of_further|done].
    + right. destruct Hv2 as [[-> ->]|(server'&e'&Hin&->&He)]; [exists server, e; split; [apply list_elem_of_here|done]|]. exists server', e'. split; [by apply list_elem_of_further|done].
Qed.
Lemma NewName_ok name n : is_bytes name → NewName name = Ok n → name_ok n.
Proof.
  intros Hb En. unfold NewName in En. destruct (Z.gtb_spec (len name) 255); [done|]. injection En as <-. exists name. rewrite u8_id by (pose proof (len_nonneg name); unfold is_u8; lia). done.
Qed.
Lemma serverOffset_same cfg : servers (snd (serverOffset cfg)) = servers cfg ∧ attempts (snd (serverOffset cfg)) = attempts cfg.
Proof. unfold serverOffset. by destruct (conf_rotate cfg). Qed.
Lemma tryOneName_asks name qtype (w : W) cfg n : usable cfg → NewName name = Ok n →
  tryOneName name qtype (w, cfg) = (r ← ask_all (all_turns cfg) name qtype (MkQuestion n qtype ClassINET) None;
    mret (match r with inl out => out | inr e => (zero_Parser, [], e) end)) (w, snd (serverOffset cfg)).
Proof.
  intros Hu En. destruct (usable_servers cfg Hu) as [Hl _]. unfold tryOneName, all_turns, get, put. unfold mbind at 1 2, stateful_bind at 1 2. destruct (serverOffset_same cfg) as [Es Eat].
  destruct (serverOffset cfg) as [offset cfg'] eqn:Eo. rewrite En. cbn [fst snd] in *. rewrite Es, Eat. apply attempts_loop_asks. lia.
Qed.
Lemma all_turns_servers cfg server : usable cfg → server ∈ all_turns cfg → server ∈ servers cfg.
Proof.
  intros Hu Hs. unfold all_turns in Hs. apply list_elem_of_In, in_concat in Hs as (t&Ht&Hs). apply repeat_spec in Ht. subst t. apply list_elem_of_In in Hs.
  apply list_elem_of_lookup in Hs as [i Hi]. assert (Hlt := lookup_lt_Some _ _ _ Hi). rewrite turn_order_length in Hlt.
  destruct (turn_order_lookup (fst (serverOffset cfg)) (servers cfg) (Z.of_nat i)) as (x&Ex&_&Hx); [unfold len; lia|]. rewrite Nat2Z.id in Ex. congruence.
Qed.
Lemma all_turns_some cfg : usable cfg → all_turns cfg ≠ [].
Proof.
  intros Hu. destruct (usable_servers cfg Hu) as [Hl _]. pose proof (usable_attempts cfg Hu) as Ha. unfold all_turns. destruct (Z.to_nat (attempts cfg)) as [|k] eqn:Ek; [lia|]. cbn [repeat concat].
  intros E. apply app_nil in E as [E _]. apply (f_equal length) in E. rewrite turn_order_length in E. cbn in E. unfold len in Hl. lia.
Qed.
(** What tryOneName comes to. *)
Lemma tryOneName_runs name qtype (w : W) cfg n : usable cfg → is_bytes name → NewName name = Ok n → I w →
  runs (tryOneName name qtype) (w, cfg) (λ r s', snd s' = snd (serverOffset cfg) ∧ I (fst s') ∧ ∃ p server err, r = Some (p, server, err) ∧
    match err with
    | None => server ∈ servers cfg ∧ at_answer n qtype p ∧ heard server n qtype p
    | Some e => ∃ server, server ∈ servers cfg ∧ lookup_error name server e
    end).
Proof.
  intros Hu Hb En HI. unfold runs. rewrite (tryOneName_asks _ _ _ _ n) by done.
  pose proof (ask_all_runs name n qtype (all_turns cfg) (NewName_ok _ _ Hb En) None (w, snd (serverOffset cfg)) HI) as Hr. unfold runs in Hr. unfold mbind, stateful_bind.
  destruct (ask_all (all_turns cfg) name qtype _ None _) as [[v|e|m] s']; [| |done]; destruct Hr as [[Hk HI'] (v'&Ev&Hv)]; [|done]. injection Ev as <-. unfold mret, stateful_ret.
  split; [exact Hk|]. split; [exact HI'|]. destruct v as [[[p server] err]|e].
  - destruct Hv as [Hs Hv]. apply all_turns_servers in Hs; [|done]. exists p, server, err. split; [done|]. destruct err as [e|]; [|done]. destruct Hv as (t&to&tmp&->). exists server. split; [done|]. by eexists _, _, _, _.
  - destruct Hv as [[Hnil _]|(server&e'&Hs&->&He)]; [by apply all_turns_some in Hnil|]. exists zero_Parser, [], (Some e'). split; [done|]. exists server. split; [by apply all_turns_servers|done].
Qed.
Lemma tryOneName_tries name qtype (w : W) cfg n : usable cfg → is_bytes name → NewName name = Ok n → I w →
  ∃ out s', tryOneName name qtype (w, cfg) = (Ok out, s') ∧ tries name (MkQuestion n qtype ClassINET) (all_turns cfg) None (w, snd (serverOffset cfg)) out s'.
Proof.
  intros Hu Hb En HI. rewrite (tryOneName_asks _ _ _ _ n) by done. destruct (ask_all_tries name n qtype (all_turns cfg) (NewName_ok _ _ Hb En) None (w, snd (serverOffset cfg)) HI) as (v&s'&E&Ht).
  unfold mbind, stateful_bind. rewrite E. by exists (match v with inl out => out | inr e => (zero_Parser, [], e) end), s'.
Qed.
End try.
(** C22: over any world, tryOneName asks the servers in turn, from where the
    rotating offset says and every one as often as the configuration wants.  It
    goes on to the next when the exchange with one fails, when its response cannot
    be read, is a lame referral or reports a failure; the first that says there is
    no such host, that has no record of the type, or that has one, settles the
    name, and the parser is at that record; when none does, the outcome is the
    last error.  With a usable configuration it ends without a panic, with a
    parser at an answer of the type asked for, in a message that arrived on a
    connection to a configured server and responds to a request for the name, or
    with an error that names the name and one of the servers: never with neither. *)
Theorem tryOneName_spec {W} `{NetLaws W} name qtype (w : W) cfg n : usable cfg → is_bytes name → NewName name = Ok n →
  ∃ p server err s', tryOneName name qtype (w, cfg) = (Ok (p, server, err), s') ∧
  tries name (MkQuestion n qtype ClassINET) (all_turns cfg) None (w, snd (serverOffset cfg)) (p, server, err) s' ∧
  (fst (serverOffset cfg) + len (servers cfg) <= 2 ^ 32 →
   all_turns cfg = concat (repeat (rotation (fst (serverOffset cfg)) (servers cfg)) (Z.to_nat (attempts cfg)))) ∧
  match err with
  | None => server ∈ servers cfg ∧ at_answer n qtype p ∧ heard (net_reaches w) server n qtype p
  | Some e => ∃ server, server ∈ servers cfg ∧ lookup_error name server e
  end.
Proof.
  intros Hu Hb En. destruct (usable_servers cfg Hu) as [Hl _].
  destruct (tryOneName_tries (net_reaches w) (net_reaches_closed w) name qtype w cfg n Hu Hb En) as (([p server]&err)&s'&E&Ht); [constructor|].
  pose proof (tryOneName_runs (net_reaches w) (net_reaches_closed w) name qtype w cfg n Hu Hb En ltac:(constructor)) as Hr. unfold runs in Hr. rewrite E in Hr.
  destruct Hr as (_&_&p'&server'&err'&[= <- <- <-]&Hr). exists p, server, err, s'. split; [done|]. split; [done|]. split; [|done].
  intros Hw. unfold all_turns. rewrite turn_order_rotation; [done| |done]. unfold serverOffset. destruct (conf_rotate cfg); [|done]. apply u32_range.
Qed.

(** C24: whatever arrives from the network, an exchange ends without a panic, and
    a response it returns answers the request that was sent: it bears the
    request's random identifier and repeats its question, up to the case of
    letters, it is not truncated and holds no other question; over UDP every
    datagram before it was not such a response, over TCP it is what follows the
    two bytes of its length.  It arrived on a connection dialed to the server and
    on which the request was written during the call.  The parser returned stands
    at the answers. *)
Theorem exchange_spec {W} `{NetLaws W} server q timeout useTCP ad (w : W) cfg : name_ok (q_Name q) →
  runs (exchange server q timeout useTCP ad) (w, cfg) (λ r s', snd s' = cfg ∧ match r with
    | Some (p, h) => let id := u16 (fst (randInt runtime_rand w)) in let q := MkQuestion (q_Name q) (q_Type q) ClassINET in
        ∃ edns0 udp tcp, newRequest id edns0 q ad = Ok (udp, tcp) ∧ genuine (net_reaches w) server id udp tcp q p h
    | None => True end).
Proof. intros Hq. eapply runs_mono; [apply (exchange_runs (net_reaches w) (net_reaches_closed w)); [done|constructor]|]. by intros [[p h]|] s' [[Hk _] Hr]. Qed.

(** ** An example *)
(** A world that sends the same datagrams to everyone. *)
Definition mailbox : Type := list bytes.
#[global] Instance mailbox_Net : Net mailbox := {
  runtime_rand w := (0, w);
  netedns0 _ := [];
  Dial network _ _ w := (inl (beq network "udp"%go), w);
  Write _ w := (inl (MkConn (map (map u8) w) (OtherError errTimeout)), w);
  Close w := w }.
#[global] Instance mailbox_laws : NetLaws mailbox.
Proof.
  constructor. intros w b c w'. cbn. intros [= <- <-]. cbn [incoming]. induction w as [|d w IH]; cbn [map]; [constructor|]. apply list.Forall_cons. split; [|exact IH].
  induction d as [|x d IHd]; cbn [map]; [constructor|]. apply list.Forall_cons. split; [apply u8_range|exact IHd].
Qed.
Definition go_dev : bytes := "go.dev."%go.
Definition go_dev_question : bytes := [2] ++ "go"%go ++ [3] ++ "dev"%go ++ [0; 0; 1; 0; 1].
Definition go_dev_answer : bytes := [192; 12; 0; 1; 0; 1; 0; 0; 0; 60; 0; 4; 192; 0; 2; 1].
(** A datagram with another identifier, and the response. *)
Definition go_dev_mail : mailbox :=
  [[0; 1; 0x81; 0x80; 0; 1; 0; 1; 0; 0; 0; 0] ++ go_dev_question ++ go_dev_answer; [0; 0; 0x81; 0x80; 0; 1; 0; 1; 0; 0; 0; 0] ++ go_dev_question ++ go_dev_answer].
Definition two_servers : dnsConfig := set_servers ["192.0.2.53:53"%go; "[2001:db8::53]:53"%go] (set_attempts 2 (set_timeout (5 * Second) initial_conf)).
Definition go_dev_name : Name := name_from ["go"%go; "dev"%go].
Definition go_dev_A : Question := MkQuestion go_dev_name TypeA ClassINET.
Lemma exchange_spec_witness :
  runs (exchange "192.0.2.53:53"%go go_dev_A (5 * Second) false false) (go_dev_mail, two_servers) (λ r s', snd s' = two_servers ∧ match r with
    | Some (p, h) => let id := u16 (fst (randInt runtime_rand go_dev_mail)) in let q := MkQuestion (q_Name go_dev_A) (q_Type go_dev_A) ClassINET in
        ∃ edns0 udp tcp, newRequest id edns0 q false = Ok (udp, tcp) ∧ genuine (net_reaches go_dev_mail) "192.0.2.53:53"%go id udp tcp q p h
    | None => True end) ∧
  match exchange "192.0.2.53:53"%go go_dev_A (5 * Second) false false (go_dev_mail, two_servers) with (Ok (p, h), _) => (p_off p, ID h, Response h) = (24, 0, true) | _ => False end.
Proof.
  split; [|vm_compute; reflexivity]. apply exchange_spec, canonical_ok, (name_from_good ["go"%go; "dev"%go]). reflexivity.
Defined.
Lemma two_servers_usable : usable two_servers.
Proof.
  constructor; unfold two_servers, Second, NetHost.big; cbn [ndots timeout attempts servers conf_search set_servers set_attempts set_timeout initial_conf]; try lia.
  - split; [vm_compute; split; discriminate|]. right. apply list.Forall_cons. split; [|apply Forall_singleton].
    + eexists "192.0.2.53"%go, _. split; [vm_compute; reflexivity|reflexivity].
    + eexists "2001:db8::53"%go, _. split; [vm_compute; reflexivity|reflexivity].
  - constructor.
Qed.
Lemma tryOneName_spec_witness :
  (∃ p server err s', tryOneName go_dev TypeA (go_dev_mail, two_servers) = (Ok (p, server, err), s') ∧
    tries go_dev go_dev_A (all_turns two_servers) None (go_dev_mail, snd (serverOffset two_servers)) (p, server, err) s' ∧
    (fst (serverOffset two_servers) + len (servers two_servers) <= 2 ^ 32 →
     all_turns two_servers = concat (repeat (rotation (fst (serverOffset two_servers)) (servers two_servers)) (Z.to_nat (attempts two_servers)))) ∧
    match err with
    | None => server ∈ servers two_servers ∧ at_answer go_dev_name TypeA p ∧ heard (net_reaches go_dev_mail) server go_dev_name TypeA p
    | Some e => ∃ server, server ∈ servers two_servers ∧ lookup_error go_dev server e
    end) ∧
  match tryOneName go_dev TypeA (go_dev_mail, two_servers) with (Ok (p, server, None), _) => server = "192.0.2.53:53"%go | _ => False end ∧
  match tryOneName go_dev TypeA ([], two_servers) with (Ok (_, _, Some (DNSError _ _ server true _ false)), _) => server = "[2001:db8::53]:53"%go | _ => False end.
Proof.
  split; [|split; vm_compute; reflexivity]. apply (tryOneName_spec go_dev TypeA go_dev_mail two_servers go_dev_name two_servers_usable); [|reflexivity].
  unfold go_dev. cbn. repeat (apply list.Forall_cons; split; [unfold is_u8; lia|]). constructor.
Defined.
(** The counter that rotates wraps around at 2^32: with three servers one is
    asked twice and one not at all. *)
Lemma turn_order_wraps : turn_order (2 ^ 32 - 1) ["a"%go; "b"%go; "c"%go] = ["a"%go; "a"%go; "b"%go].
Proof. vm_compute. reflexivity. Qed.
