(* ===== verification/Resolver.v ===== *)
(** * package net: the Go resolver (dnsclient_unix.go, lookup.go)

    lookup and the goLookup functions, over DnsExchange, the hosts file and the
    sorting of addresses.  Besides the world and the configuration a lookup has
    the cache of the hosts file; the configuration is the one the caller passes
    or, where it passes none, the one getSystemDNSConfig gives. *)
From S2P Require Import Prelude Stateful NetipText NetHost NetIP NetipAddr NetFile DnsNames DnsConfig HostsFile AddrSelect NssConf DnsWire DnsRecords DnsParser DnsExchange.

(** What else is outside: the hosts file, the source addresses the kernel would
    use, and the order in which concurrent queries are answered. *)
Class Host (W R : Type) : Type := {
  hosts_world : W → HostsFile.world R;
  srcAddrs : W → list IPAddr → list Addr;
  lane : list Z → W → list Z * W;
}.
Definition no_such_host (name : bytes) : error := DNSError (Error errNoSuchHost) name [] false false true.
Definition bad_message (name server : bytes) : error := DNSError (Error errCannotUnmarshalDNSMessage) name server false false false.
(** [err.Name = name], of a DNSError. *)
Definition with_name (name : bytes) (err : error) : error :=
  match err with DNSError e _ server t u n => DNSError e name server t u n | err => err end.
Definition zero_Name : Name := MkName (name_data []) 0.
(** 0 when the network has no version. *)
Definition ipVersion (network : bytes) : res Z :=
  if beq network [] then Ok 0
  else n ← at_ network (len network - 1); Ok (if negb (n =? "4"%byte) && negb (n =? "6"%byte) then 0 else n).

(** ** The records of an answer *)
(** The loop over the answers that goLookupPTR, goLookupSRV, goLookupMX,
    goLookupNS and goLookupTXT have: records of another type are skipped, [one]
    reads one of the type and adds what it has to [acc]. *)
Fixpoint records_loop {A} (fuel : nat) (qtype : Z) (one : ResourceHeader → A → parsing A) (acc : A) (bad : error) : parsing A :=
  match fuel with
  | O => lift (Panic [])
  | S fuel =>
      r ← attempt AnswerHeader;
      match r with
      | inr err => if decide (err = ErrSectionDone) then mret acc else fail bad
      | inl h =>
          if negb (rh_Type h =? qtype) then
            r ← attempt SkipAnswer;
            match r with inr _ => fail bad | inl _ => records_loop fuel qtype one acc bad end
          else
            r ← attempt (one h acc);
            match r with inr _ => fail bad | inl acc => records_loop fuel qtype one acc bad end
      end
  end.
Definition records {A} (p : Parser) (qtype : Z) (one : ResourceHeader → A → parsing A) (acc : A) (bad : error) : res A :=
  fst (records_loop (section_fuel sectionAnswers p) qtype one acc bad p).
Definition add_PTR (_ : ResourceHeader) (ptrs : list bytes) : parsing (list bytes) :=
  ptr ← Parser_PTRResource; s ← lift (Name_String (PTR ptr)); mret (ptrs ++ [s]).
Definition add_SRV (h : ResourceHeader) (acc : Name * list SRV) : parsing (Name * list SRV) :=
  let '(cname, srvs) := acc in
  let cname := if (Length cname =? 0) && negb (Length (rh_Name h) =? 0) then rh_Name h else cname in
  srv ← Parser_SRVResource;
  target ← lift (Name_String (srv_Target srv));
  mret (cname, srvs ++ [MkSRV target (srv_Port srv) (srv_Priority srv) (srv_Weight srv)]).
Definition add_MX (_ : ResourceHeader) (mxs : list MX) : parsing (list MX) :=
  mx ← Parser_MXResource; s ← lift (Name_String (mx_MX mx)); mret (mxs ++ [MkMX s (mx_Pref mx)]).
Definition add_NS (_ : ResourceHeader) (nss : list bytes) : parsing (list bytes) :=
  ns ← Parser_NSResource; s ← lift (Name_String (NS ns)); mret (nss ++ [s]).
(** The strings of a record are joined. *)
Definition add_TXT (_ : ResourceHeader) (txts : list bytes) : parsing (list bytes) :=
  txt ← Parser_TXTResource; mret (txts ++ [concat (TXT txt)]).

(** What goLookupIPCNAMEOrder gathers: addresses, a name, the last error. *)
Record gathered : Set := MkGathered { g_addrs : list IPAddr; g_cname : Name; g_lastErr : option error }.
Definition set_lastErr (err : error) (g : gathered) : gathered := MkGathered (g_addrs g) (g_cname g) (Some err).
Definition add_addr (ip : bytes) (name : Name) (g : gathered) : gathered :=
  MkGathered (g_addrs g ++ [MkIPAddr ip []])
    (if (Length (g_cname g) =? 0) && negb (Length name =? 0) then name else g_cname g) (g_lastErr g).
Definition add_cname (name : Name) (g : gathered) : gathered :=
  MkGathered (g_addrs g) (if (Length (g_cname g) =? 0) && (Length name >? 0) then name else g_cname g) (g_lastErr g).
(** One record, of the header [h]; an error in it ends the loop and is kept. *)
Definition response_one (h : ResourceHeader) (g : gathered) : parsing gathered :=
  if rh_Type h =? TypeA then a ← Parser_AResource; mret (add_addr (A a) (rh_Name h) g)
  else if rh_Type h =? TypeAAAA then aaaa ← Parser_AAAAResource; mret (add_addr (AAAA aaaa) (rh_Name h) g)
  else if rh_Type h =? TypeCNAME then c ← Parser_CNAMEResource; mret (add_cname (CNAME c) g)
  else _ ← SkipAnswer; mret g.
Fixpoint response_loop (fuel : nat) (bad : error) (g : gathered) : parsing gathered :=
  match fuel with
  | O => lift (Panic [])
  | S fuel =>
      r ← attempt AnswerHeader;
      match r with
      | inr err => mret (if decide (err = ErrSectionDone) then g else set_lastErr bad g)
      | inl h =>
          r ← attempt (response_one h g);
          match r with
          | inr _ => mret (set_lastErr bad g)
          | inl g => response_loop fuel bad g
          end
      end
  end.

(** ** Lookups *)
Section resolver.
Context {W R : Type} `{Net W} `{Reader R} `{Host W R} (strictErrors : bool).
Definition looking (A : Type) : Type := stateful (W * dnsConfig * hosts) A.
Definition with_client {A} (m : stateful (W * dnsConfig) A) : looking A := zoom fst (λ c s, (c, snd s)) m.
Definition the_config : looking dnsConfig := '(_, cfg, _) ← get; mret cfg.
Definition static_host (host : bytes) : looking (list bytes * bytes) :=
  '(w, cfg, h) ← get;
  '(l, canonical, h) ← lift (lookupStaticHost (hosts_world w) host h);
  _ ← put (w, cfg, h);
  mret (l, canonical).
Definition static_addr (addr : bytes) : looking (list bytes) :=
  '(w, cfg, h) ← get;
  '(l, h) ← lift (lookupStaticAddr (hosts_world w) addr h);
  _ ← put (w, cfg, h);
  mret l.

(** The loop of lookup over the names: the last outcome. *)
Fixpoint lookup_loop (names : list bytes) (qtype : Z) (out : outcome) : looking outcome :=
  match names with
  | [] => mret out
  | fqdn :: names =>
      out ← with_client (tryOneName fqdn qtype);
      match out.2 with
      | None => mret out
      | Some err => if is_temporary err && strictErrors then mret out else lookup_loop names qtype out
      end
  end.
Definition lookup (name : bytes) (qtype : Z) : looking (Parser * bytes) :=
  ok ← lift (isDomainName name);
  if negb ok then fail (no_such_host name)
  else
    cfg ← the_config;
    names ← lift (nameList cfg name);
    '(p, server, err) ← lookup_loop names qtype (zero_Parser, [], None);
    match err with
    | None => mret (p, server)
    | Some err => fail (with_name name err)
    end.

(** *** Addresses *)
Fixpoint literals (l : list bytes) : res (list IPAddr) :=
  match l with
  | [] => Ok []
  | haddr :: l =>
      '(haddr, zone) ← splitHostZone haddr;
      ip ← ParseIP haddr;
      rest ← literals l;
      Ok (if is_nil ip then rest else MkIPAddr ip zone :: rest)
  end.
Definition sorted (addrs : list IPAddr) : looking (list IPAddr) :=
  '(w, _, _) ← get; lift (sortByRFC6724 (srcAddrs w) addrs).
Definition goLookupIPFiles (name : bytes) : looking (list IPAddr * bytes) :=
  '(addr, canonical) ← static_host name;
  addrs ← lift (literals addr);
  addrs ← sorted addrs;
  mret (addrs, canonical).
Definition is_CNAME (network : bytes) : bool := beq network "CNAME"%go.
Definition query_types (network : bytes) : res (list Z) :=
  v ← ipVersion network;
  Ok (if v =? "4"%byte then [TypeA] else if v =? "6"%byte then [TypeAAAA]
      else [TypeA; TypeAAAA] ++ if is_CNAME network then [TypeCNAME] else []).
(** The queries for one name, in the order of their responses: the loop asks
    and goes through them, and notes whether one failed in earnest.  Queries in
    flight at once are asked here one after the other, in an order that is the
    world's; as nothing is assumed of what the world answers to each, that loses
    none of the responses the source may get. *)
Fixpoint types_loop (qtypes : list Z) (name fqdn : bytes) (g : gathered) (hitStrictError : bool) : looking (gathered * bool) :=
  match qtypes with
  | [] => mret (g, hitStrictError)
  | qtype :: qtypes =>
      '(p, server, err) ← with_client (tryOneName fqdn qtype);
      match err with
      | Some err =>
          if is_temporary err && strictErrors then types_loop qtypes name fqdn (set_lastErr err g) true
          else
            let g := if bool_decide (g_lastErr g = None) || beq fqdn (name ++ "."%go) then set_lastErr err g else g in
            types_loop qtypes name fqdn g hitStrictError
      | None =>
          g ← lift (fst (response_loop (section_fuel sectionAnswers p) (bad_message name server) g p));
          types_loop qtypes name fqdn g hitStrictError
      end
  end.
Definition answered (network : bytes) (g : gathered) : bool :=
  (len (g_addrs g) >? 0) || (is_CNAME network && (Length (g_cname g) >? 0)).
Fixpoint names_loop (names : list bytes) (qtypes : list Z) (network name : bytes) (g : gathered) : looking gathered :=
  match names with
  | [] => mret g
  | fqdn :: names =>
      cfg ← the_config;
      order ← (if singleRequest cfg then mret qtypes else with_client (effect (lane qtypes)));
      '(g, hitStrictError) ← types_loop order name fqdn g false;
      if (hitStrictError : bool) then mret (MkGathered [] (g_cname g) (g_lastErr g))
      else if answered network g then mret g
      else names_loop names qtypes network name g
  end.
(** The addresses of the hosts file and its name for them, when it has any. *)
Definition from_files (name : bytes) : looking (option (list IPAddr * Name)) :=
  '(addrs, canonical) ← goLookupIPFiles name;
  if len addrs >? 0 then cname ← lift (NewName canonical); mret (Some (addrs, cname)) else mret None.
Definition from_dns (network name : bytes) (order : hostLookupOrder) : looking (list IPAddr * Name) :=
  ok ← lift (isDomainName name);
  if negb ok then fail (no_such_host name)
  else
    cfg ← the_config;
    qtypes ← lift (query_types network);
    names ← lift (nameList cfg name);
    g ← names_loop names qtypes network name (MkGathered [] zero_Name None);
    let lastErr := match g_lastErr g with Some err => Some (with_name name err) | None => None end in
    addrs ← sorted (g_addrs g);
    if (len addrs =? 0) && negb (is_CNAME network && (Length (g_cname g) >? 0)) then
      files ← (if decide (order = hostLookupDNSFiles) then from_files name else mret None);
      match files, lastErr with
      | Some r, _ => mret r
      | None, Some err => fail err
      | None, None => mret (addrs, g_cname g)
      end
    else mret (addrs, g_cname g).
Definition goLookupIPCNAMEOrder (network name : bytes) (order : hostLookupOrder) : looking (list IPAddr * Name) :=
  let files := bool_decide (order = hostLookupFilesDNS) || bool_decide (order = hostLookupFiles) in
  found ← (if files then from_files name else mret None);
  match found with
  | Some r => mret r
  | None =>
      if bool_decide (order = hostLookupFiles) then fail (no_such_host name)
      else from_dns network name order
  end.
Definition goLookupIP (network host : bytes) (order : hostLookupOrder) : looking (list IPAddr) :=
  '(addrs, _) ← goLookupIPCNAMEOrder network host order; mret addrs.
(** On an error the source returns the text of the zero name, which is empty. *)
Definition goLookupCNAME (host : bytes) (order : hostLookupOrder) : looking bytes :=
  '(_, cname) ← goLookupIPCNAMEOrder "CNAME"%go host order; lift (Name_String cname).
Definition IPAddr_String (a : IPAddr) : bytes :=
  let ip := ipEmptyString (IP a) in
  if beq (Zone a) [] then ip else ip ++ "%"%go ++ Zone a.
Definition goLookupHostOrder (name : bytes) (order : hostLookupOrder) : looking (list bytes) :=
  let files := bool_decide (order = hostLookupFilesDNS) || bool_decide (order = hostLookupFiles) in
  '(addrs, _) ← (if files then static_host name else mret ([], []));
  if len addrs >? 0 then mret addrs
  else if bool_decide (order = hostLookupFiles) then fail (no_such_host name)
  else
    '(ips, _) ← goLookupIPCNAMEOrder "ip"%go name order;
    mret (map IPAddr_String ips).

(** *** Other records *)
Definition goLookupPTR (addr : bytes) (order : hostLookupOrder) : looking (list bytes) :=
  let files := bool_decide (order = hostLookupFilesDNS) || bool_decide (order = hostLookupFiles) in
  names ← (if files then static_addr addr else mret []);
  if len names >? 0 then mret names
  else if bool_decide (order = hostLookupFiles) then fail (no_such_host addr)
  else
    arpa ← lift (reverseaddr addr);
    r ← attempt (lookup arpa TypePTR);
    match r with
    | inr err =>
        let not_found := match err with DNSError _ _ _ _ _ n => n | _ => false end in
        names ← (if not_found && bool_decide (order = hostLookupDNSFiles) then static_addr addr else mret []);
        if len names >? 0 then mret names else fail err
    | inl (p, server) => lift (records p TypePTR add_PTR [] (bad_message addr server))
    end.
(** The random numbers of the sorts are the world's. *)
Definition shuffling {A} (f : W → res (A * W)) : looking A :=
  '(w, cfg, h) ← get; '(a, w) ← lift (f w); _ ← put (w, cfg, h); mret a.
Definition goLookupSRV (service proto name : bytes) : looking (bytes * list SRV) :=
  let target := if beq service [] && beq proto [] then name
                else "_"%go ++ service ++ "._"%go ++ proto ++ "."%go ++ name in
  '(p, server) ← lookup target TypeSRV;
  '(cname, srvs) ← lift (records p TypeSRV add_SRV (zero_Name, []) (bad_message name server));
  srvs ← shuffling (byPriorityWeight_sort runtime_rand srvs);
  cname ← lift (Name_String cname);
  mret (cname, srvs).
Definition goLookupMX (name : bytes) : looking (list MX) :=
  '(p, server) ← lookup name TypeMX;
  mxs ← lift (records p TypeMX add_MX [] (bad_message name server));
  shuffling (byPref_sort runtime_rand mxs).
Definition goLookupNS (name : bytes) : looking (list bytes) :=
  '(p, server) ← lookup name TypeNS;
  lift (records p TypeNS add_NS [] (bad_message name server)).
Definition goLookupTXT (name : bytes) : looking (list bytes) :=
  '(p, server) ← lookup name TypeTXT;
  lift (records p TypeTXT add_TXT [] (bad_message name server)).
End resolver.
(** The first record, which is a CNAME, or it is an error. *)
Definition parseCNAMEFromResources (resources : list Resource) : res bytes :=
  match resources with
  | [] => Err (New "no CNAME record received"%go)
  | r :: _ => match r_Body r with Some (BodyCNAME c) => Name_String (CNAME c) | _ => Err (New "could not parse CNAME record"%go) end
  end.
