(* ===== verification/ResolverProps.v ===== *)
(** * package net: the Go resolver answers or says why not

    Every lookup ends without a panic, whatever the network and the files say;
    what it finds comes from responses to its own requests or from the hosts
    file, and when it finds nothing it has an error. *)
From Stdlib Require Import Sorting.Sorted.
From stdpp Require Import gmap.
From S2P Require Import Prelude Stateful NetipText NetHost NetIP NetipAddr NetFile NetFileProps DnsNames DnsNamesProps DnsConfig DnsConfigProps HostsFile HostsFileProps SortOps SortSpec AddrSelect AddrSelectProps NssConf DnsWire DnsRecords DnsParser DnsWireProps DnsRecordsProps DnsParserProps DnsExchange DnsExchangeProps Resolver.

(** ** Reading a response *)
Lemma runs_and {S A} (m : stateful S A) s (P Q : option A → S → Prop) : runs m s P → runs m s Q → runs m s (λ a s, P a s ∧ Q a s).
Proof. unfold runs. by destruct (m s) as [[a|e|x] s']. Qed.
(** Reading the body of the record whose header was read. *)
Lemma typed_moves {A} right_type (unpack : Parser → res A) (P : A → Prop) p : parser_ok p → p_section p = sectionAnswers → safe P (unpack p) →
  runs (typed_resource right_type unpack) p (λ a p', parser_ok p' ∧ match a with Some a => P a ∧ advanced sectionAnswers p p' | None => True end).
Proof.
  intros Hp Hs Hu. unfold typed_resource. apply runs_bind. unfold get. cbn [runs]. destruct (resHeaderValid p) eqn:Ev; [|done].
  cbn [negb orb]. destruct (negb _); [done|]. apply runs_bind, runs_lift; [|done]. eapply safe_mono; [exact Hu|]. intros r Hr.
  pose proof Hp as [H1 H2 H3 H4 H5 H6 H7 H8]. specialize (H8 Ev). unfold is_u16 in H6. apply runs_bind. unfold modify. cbn [runs]. unfold runs, mret, stateful_ret.
  split; [constructor; fields; done || lia|]. split; [done|]. unfold advanced, stays. fields. conjuncts.
Qed.
Lemma AnswerHeader_formed p : parser_ok p → runs AnswerHeader p (λ h _, match h with Some h => header_formed h | None => True end).
Proof. intros Hp. eapply runs_mono; [by apply (resourceHeader_ok sectionAnswers)|]. intros [h|] p' [_ H]; [apply H|done]. Qed.
Definition name_text (n : Name) : bytes := take (Z.to_nat (Length n)) (Data n).
Lemma Name_text n : name_ok n → Name_String n = Ok (name_text n).
Proof. intros (s&->&Hs&_). unfold Name_String, name_text. rewrite name_of_text by done. cbn [Length Data name_of]. unfold name_data, len. by rewrite Nat2Z.id, take_app_length. Qed.
Lemma name_text_bytes n : name_ok n → is_bytes (name_text n).
Proof. intros (s&->&_&Hb). unfold name_text, name_of, name_data, len. cbn [Length Data]. by rewrite Nat2Z.id, take_app_length. Qed.
Lemma zero_Name_ok : name_ok zero_Name.
Proof. exists []. split; [done|]. split; [done|constructor]. Qed.

(** *** The records of an answer *)
Section records.
Context {A : Type} (qtype : Z) (one : ResourceHeader → A → parsing A) (acc0 : A) (bad : error) (I : Z → A → Prop).
(** [I n acc]: what is gathered after some of the first [n] records. *)
Context (I_next : ∀ n acc, I n acc → I (n + 1) acc).
Definition gathers (h : ResourceHeader) (acc : A) (p : Parser) : Prop :=
  runs (one h acc) p (λ r p', parser_ok p' ∧ match r with Some acc' => I (p_index p + 1) acc' ∧ advanced sectionAnswers p p' | None => True end).
Context (one_gathers : ∀ h acc p, parser_ok p → p_section p = sectionAnswers → header_formed h → acc = acc0 ∨ I (p_index p) acc → gathers h acc p).
Lemma index_small p : parser_ok p → p_index p <= 65535.
Proof. intros Hp. pose proof (count_range (p_header p) (p_section p) (ok_header p Hp)). pose proof (ok_index p Hp). lia. Qed.
Lemma records_loop_runs fuel : ∀ acc p, parser_ok p → enough sectionAnswers fuel p → I (p_index p) acc →
  runs (records_loop fuel qtype one acc bad) p (λ r _, match r with Some acc => ∃ n, n <= 65535 ∧ I n acc | None => True end).
Proof.
  induction fuel as [|fuel IH]; intros acc p Hp He HI; [destruct He; lia|]. cbn [records_loop]. apply runs_bind, runs_attempt.
  eapply runs_mono; [apply runs_and; [by apply AnswerHeader_runs|by apply AnswerHeader_formed]|]. intros [h|] p1 [(Hp1&Hm&H) Hh].
  2: { intros e. destruct (decide (e = ErrSectionDone)); [|done]. unfold runs, mret, stateful_ret. exists (p_index p). split; [by apply index_small|done]. }
  destruct H as (Hs1&Hs&Hst&Hi&_). destruct (negb _).
  - apply runs_bind, runs_attempt. eapply runs_mono; [by apply SkipAnswer_runs|]. intros [a|] p2 (Hp2&_&Ha); [|done]. apply IH; [done|by apply (header_then_skip _ _ p p1)|].
    destruct Ha as (_&_&_&->). rewrite Hi. by apply I_next.
  - apply runs_bind, runs_attempt. eapply runs_mono; [apply one_gathers; [done|done|done|right; by rewrite Hi]|]. intros [acc'|] p2 [Hp2 Ha]; [|done]. destruct Ha as [HI' Ha].
    apply IH; [done|by apply (header_then_skip _ _ p p1)|]. destruct Ha as (_&_&_&->). done.
Qed.
(** Where the parser is at a record of the type, something is gathered. *)
Lemma records_found n p : at_answer n qtype p → safe (λ acc, ∃ k, k <= 65535 ∧ I k acc) (records p qtype one acc0 bad).
Proof.
  intros (Hp&Hs&Hv&Ht&(h&Ea&Eh)&_). unfold records. apply runs_fst. pose proof (section_fuel_enough sectionAnswers p Hp) as He.
  destruct (section_fuel sectionAnswers p) as [|fuel]; [destruct He; lia|]. cbn [records_loop]. apply runs_bind, runs_attempt.
  pose proof (AnswerHeader_formed p Hp) as Hh. unfold runs in Hh |- * at 1. rewrite Ea in Hh |- *. rewrite Eh, Z.eqb_refl. cbn [negb].
  apply runs_bind, runs_attempt. eapply runs_mono; [apply one_gathers; [done|done|done|by left]|]. intros [acc'|] p2 [Hp2 Hacc]; [|done]. destruct Hacc as [HI' Hadv].
  apply records_loop_runs; [done|by apply (enough_next _ _ p)|]. destruct Hadv as (_&_&_&->). done.
Qed.
(** Where no response was received there is an error, which says otherwise. *)
Lemma records_zero : records zero_Parser qtype one acc0 bad = Err bad.
Proof. reflexivity. Qed.
End records.

Lemma gathers_typed {A B} (one : ResourceHeader → A → parsing A) (I : Z → A → Prop) right_type (unpack : Parser → res B) (P : B → Prop) (k : B → parsing A) h acc p :
  parser_ok p → p_section p = sectionAnswers → safe P (unpack p) → one h acc = (b ← typed_resource right_type unpack; k b) →
  (∀ b, P b → ∃ acc', k b = mret acc' ∧ I (p_index p + 1) acc') → gathers one I h acc p.
Proof.
  intros Hp Hs Hu E Hk. unfold gathers. rewrite E. apply runs_bind. eapply runs_mono; [by apply typed_moves|]. intros [b|] p' [Hp' H]; [|done].
  destruct H as [Hb Hadv]. destruct (Hk b Hb) as (acc'&->&HI). unfold runs, mret, stateful_ret. split; [done|]. by split.
Qed.
(** A list of what satisfies [P], not empty and no longer than the answer. *)
Definition some_of {A} (P : A → Prop) (n : Z) (l : list A) : Prop := Forall P l ∧ 0 < len l <= n.
Lemma some_next {A} (P : A → Prop) n l : some_of P n l → some_of P (n + 1) l.
Proof. intros [H1 H2]. split; [done|lia]. Qed.
Lemma some_snoc {A} (P : A → Prop) p (l : list A) x : parser_ok p → P x → l = [] ∨ some_of P (p_index p) l → some_of P (p_index p + 1) (l ++ [x]).
Proof.
  intros Hp Hx Hl. pose proof (ok_index p Hp) as Hi. unfold some_of. rewrite len_app, list.Forall_app, Forall_singleton. change (len [x]) with 1.
  destruct Hl as [->|[H1 H2]]; [|split; [done|lia]]. change (len []) with 0. split; [split; [constructor|done]|lia].
Qed.
(** The five loops. *)
Definition text_found (n : Z) (l : list bytes) : Prop := some_of is_bytes n l.
Definition found_SRV (n : Z) (acc : Name * list SRV) : Prop := canonical (fst acc) ∧ some_of (λ a, is_bytes (Target a) ∧ is_u16 (Weight a)) n (snd acc).
Definition found_MX (n : Z) (l : list MX) : Prop := some_of (λ m, is_bytes (DnsNames.Host m)) n l.
Ltac typed H := eapply gathers_typed; [done|done| |reflexivity|]; [apply H|].
Ltac reads_name Hn := cbv beta; rewrite (Name_text _ (canonical_ok _ Hn)).
Lemma canonical_bytes n : canonical n → is_bytes (name_text n).
Proof. intros Hn. by apply name_text_bytes, canonical_ok. Qed.
Lemma PTR_gathers h acc p : parser_ok p → p_section p = sectionAnswers → acc = [] ∨ text_found (p_index p) acc → gathers add_PTR text_found h acc p.
Proof.
  intros Hp Hs Hacc. typed (PTR_safe (p_msg p) (ok_bytes p Hp) (p_off p)). { by apply ok_off. }
  intros r Hr. cbn [body_formed] in Hr. reads_name Hr. eexists. split; [reflexivity|]. apply some_snoc; [done|by apply canonical_bytes|done].
Qed.
Lemma NS_gathers h acc p : parser_ok p → p_section p = sectionAnswers → acc = [] ∨ text_found (p_index p) acc → gathers add_NS text_found h acc p.
Proof.
  intros Hp Hs Hacc. typed (NS_safe (p_msg p) (ok_bytes p Hp) (p_off p)). { by apply ok_off. }
  intros r Hr. cbn [body_formed] in Hr. reads_name Hr. eexists. split; [reflexivity|]. apply some_snoc; [done|by apply canonical_bytes|done].
Qed.
Lemma MX_gathers h acc p : parser_ok p → p_section p = sectionAnswers → acc = [] ∨ found_MX (p_index p) acc → gathers add_MX found_MX h acc p.
Proof.
  intros Hp Hs Hacc. typed (MX_safe (p_msg p) (ok_bytes p Hp) (p_off p)). { by apply ok_off. }
  intros r [_ Hr]. reads_name Hr. eexists. split; [reflexivity|]. apply some_snoc; [done|by apply canonical_bytes|done].
Qed.
Lemma TXT_gathers h acc p : parser_ok p → p_section p = sectionAnswers → acc = [] ∨ text_found (p_index p) acc → gathers add_TXT text_found h acc p.
Proof.
  intros Hp Hs Hacc. typed (TXT_safe (p_msg p) (ok_bytes p Hp) (p_off p)). { by apply ok_off. } { by apply ok_length. }
  intros r Hr. cbn [body_formed] in Hr. eexists. split; [reflexivity|]. apply some_snoc; [done| |done].
  induction Hr as [|t l [Ht _] _ IH]; [constructor|]. by apply is_bytes_app.
Qed.
Lemma SRV_gathers h acc p : parser_ok p → p_section p = sectionAnswers → header_formed h → acc = (zero_Name, []) ∨ found_SRV (p_index p) acc → gathers add_SRV found_SRV h acc p.
Proof.
  intros Hp Hs (Hh&_) Hacc. destruct acc as [cname srvs]. typed (SRV_safe (p_msg p) (ok_bytes p Hp) (p_off p)). { by apply ok_off. }
  intros r (_&Hw&_&Hr). cbv beta. reads_name Hr. eexists. split; [reflexivity|]. split; cbn [fst snd].
  - destruct Hacc as [[= -> ->]|[Hc _]].
    + cbn [Length zero_Name Z.eqb andb]. destruct (Z.eqb_spec (Length (rh_Name h)) 0) as [E|]; [|done]. destruct Hh as ([|l ls]&Hn&Hls&_); [by rewrite Hn in E|].
      rewrite Hn in E. cbn [name_of Length spelling] in E. destruct (text (l :: ls)) as [|c t] eqn:Et; [by apply text_nil in Et|]. rewrite len_cons in E. pose proof (len_nonneg t). lia.
    + by destruct (_ && _).
  - apply some_snoc; [done|by split; [apply canonical_bytes|]|]. destruct Hacc as [[= -> ->]|[_ Hl]]; [by left|by right].
Qed.

(** ** A call that fails with an error that is looked at *)
Definition ends {S A} (m : stateful S A) (s : S) (Q : A → S → Prop) (E : error → S → Prop) : Prop :=
  match m s with (Ok a, s') => Q a s' | (Err e, s') => E e s' | (Panic _, _) => False end.
Lemma ends_then {S A B} (m : stateful S A) (k : A → stateful S B) (s : S) Q E : ends m s (λ a s', ends (k a) s' Q E) E → ends (x ← m; k x) s Q E.
Proof. unfold ends, mbind, stateful_bind. by destruct (m s) as [[a|e|x] s']. Qed.
Lemma ends_mono {S A} (m : stateful S A) (s : S) (Q Q' : A → S → Prop) (E E' : error → S → Prop) : ends m s Q E → (∀ a s', Q a s' → Q' a s') → (∀ e s', E e s' → E' e s') → ends m s Q' E'.
Proof. unfold ends. destruct (m s) as [[a|e|x] s']; auto. Qed.
Lemma ends_runs {S A} (m : stateful S A) (s : S) (Q : A → S → Prop) E : runs m s (λ r s', ∃ a, r = Some a ∧ Q a s') → ends m s Q E.
Proof. unfold ends, runs. destruct (m s) as [[a|e|x] s']; [by intros (a'&[= <-]&Ha)|by intros (a'&?&_)|done]. Qed.
Lemma runs_ends {S A} (m : stateful S A) (s : S) (Q : A → S → Prop) (E : error → S → Prop) P : ends m s Q E → (∀ a s', Q a s' → P (Some a) s') → (∀ e s', E e s' → P None s') → runs m s P.
Proof. unfold ends, runs. destruct (m s) as [[a|e|x] s']; eauto. Qed.

(** ** What is relied on *)
Definition fewest : Z := 2 ^ 61.
(** The fuel for the hosts file and its size, a source for every destination,
    and that every query gets its turn. *)
Class HostLaws (W R : Type) `{RegularFile R} `{!Host W R} : Prop := {
  hosts_enough w : HostsFileProps.enough (hosts_world w);
  hosts_few w r : w_opened (hosts_world w) = Opened r → len (entries (left r)) < fewest;
  srcAddrs_length w l : length (srcAddrs w l) = length l;
  srcAddrs_wf w l : Forall wf_addr (srcAddrs w l);
  lane_turns qtypes w : fst (lane qtypes w) ≡ₚ qtypes;
}.
(** What a lookup may do to the world. *)
Inductive moves {W R} `{Net W} `{!Host W R} : W → W → Prop :=
| moves_net w w' : net_step w w' → moves w w'
| moves_lane qtypes w : moves w (snd (lane qtypes w)).
Section lookups.
Context {W R : Type} `{NetLaws W} `{HostLaws W R} (strictErrors : bool).
Implicit Types s : W * dnsConfig * hosts.
Definition conf_of s : dnsConfig := snd (fst s).
(** The configuration is usable, its suffixes are bytes, and the cache holds what
    a hosts file says. *)
Record looking_ok s : Prop := {
  ok_usable : usable (conf_of s);
  ok_suffixes : Forall is_bytes (conf_search (conf_of s));
  ok_cache : ∃ k, represents (snd s) k ∧ len (entries (k_text k)) < fewest;
}.
(** The rest of the configuration stays as it is. *)
Definition follows s s' : Prop := looking_ok s' ∧ servers (conf_of s') = servers (conf_of s) ∧ conf_search (conf_of s') = conf_search (conf_of s) ∧ ndots (conf_of s') = ndots (conf_of s).
Lemma follows_refl s : looking_ok s → follows s s.
Proof. done. Qed.
Lemma follows_trans s1 s2 s3 : follows s1 s2 → follows s2 s3 → follows s1 s3.
Proof. intros (_&E1&E2&E3) (H'&E1'&E2'&E3'). split; [done|]. by rewrite E1', E2', E3'. Qed.
(** The worlds that calls since the state lead to. *)
Definition since s : W → Prop := rtc (moves (R := R)) (fst (fst s)).
Lemma since_closed s : closed (since s).
Proof. intros w w' Hw Hs. eapply rtc_r; [exact Hs|by apply moves_net]. Qed.
Lemma since_refl s : since s (fst (fst s)).
Proof. constructor. Qed.
Definition onward s s' : Prop := follows s s' ∧ since s (fst (fst s')).
Lemma onward_refl s : looking_ok s → onward s s.
Proof. intros Hok. split; [by apply follows_refl|apply since_refl]. Qed.
Lemma onward_trans s1 s2 s3 : onward s1 s2 → onward s2 s3 → onward s1 s3.
Proof. intros [H12 W12] [H23 W23]. split; [by apply (follows_trans s1 s2)|]. unfold since in *. by etrans. Qed.
Lemma onward_same s s' : follows s s' → fst s' = fst s → onward s s'.
Proof. intros Hs E. split; [done|]. rewrite E. apply since_refl. Qed.
Lemma onward_follows s s' : onward s s' → follows s s'.
Proof. by intros []. Qed.
Lemma onward_ok s s' : onward s s' → looking_ok s'.
Proof. by intros [[] _]. Qed.
Lemma follows_names s s' name : follows s s' → nameList (conf_of s') name = nameList (conf_of s) name.
Proof. intros (_&_&E2&E3). rewrite !nameList_eq. unfold candidates. by rewrite E2, E3. Qed.
Lemma with_client_runs {A} (m : stateful (W * dnsConfig) A) s Q : runs m (fst s) (λ a c, Q a (c, snd s)) → runs (with_client m) s Q.
Proof. unfold runs, with_client, zoom. by destruct (m (fst s)) as [[a|e|x] c]. Qed.
Lemma the_config_runs s Q : Q (Some (conf_of s)) s → runs (the_config (W := W)) s Q.
Proof. by destruct s as [[w cfg] h]. Qed.

(** The names asked for. *)
Definition asked s name fqdn : Prop := is_bytes fqdn ∧ len fqdn <= 254 ∧ ∃ names, nameList (conf_of s) name = Ok names ∧ fqdn ∈ names.
Lemma names_asked s name : looking_ok s → is_bytes name → ∃ names, nameList (conf_of s) name = Ok names ∧ Forall (asked s name) names.
Proof.
  intros [_ Hs _] Hn. rewrite nameList_eq. eexists. split; [done|]. apply list.Forall_forall. intros fqdn Hin.
  assert (Hf : fqdn ∈ List.filter askable (candidates (conf_of s) name)). { destruct (fits name); [done|by apply elem_of_nil in Hin]. }
  apply list_elem_of_In, filter_In in Hf as [Hc Ha]. unfold askable in Ha. split; [|split; [lia|by rewrite nameList_eq; eexists]].
  assert (Hd : is_bytes (name ++ "."%go)) by (apply is_bytes_app; [done|by repeat constructor]).
  assert (Hall : Forall is_bytes (candidates (conf_of s) name)); [|rewrite list.Forall_forall in Hall; by apply Hall, list_elem_of_In].
  assert (Hsuf : Forall is_bytes (map (app (name ++ "."%go)) (conf_search (conf_of s)))).
  { apply List.Forall_map. apply List.Forall_forall. intros x Hx. apply is_bytes_app; [done|]. rewrite List.Forall_forall in Hs. by apply Hs. }
  unfold candidates. destruct (bool_decide _); [by apply Forall_singleton|]. destruct (_ >=? _); rewrite list.Forall_app, Forall_singleton; done.
Qed.

(** *** One name *)
(** [p] is at an answer of the type, to a request for a name asked for that was
    sent to a configured server since. *)
Definition found_for s name qtype (p : Parser) (server : bytes) : Prop :=
  ∃ fqdn n, asked s name fqdn ∧ NewName fqdn = Ok n ∧ server ∈ servers (conf_of s) ∧ at_answer n qtype p ∧ heard (since s) server n qtype p.
Definition says_why s name (e : error) : Prop := ∃ fqdn server, asked s name fqdn ∧ server ∈ servers (conf_of s) ∧ lookup_error fqdn server e.
Definition settles s name qtype (out : outcome) : Prop :=
  let '(p, server, err) := out in match err with None => found_for s name qtype p server | Some e => says_why s name e end.
Lemma follows_asked s s' name fqdn : follows s s' → asked s name fqdn → asked s' name fqdn.
Proof. intros Hf (B1&B2&names&E&Hin). split; [done|]. split; [done|]. exists names. by rewrite (follows_names s s'). Qed.
Lemma follows_asked_back s s' name fqdn : follows s s' → asked s' name fqdn → asked s name fqdn.
Proof. intros Hf (B1&B2&names&E&Hin). split; [done|]. split; [done|]. exists names. by rewrite <- (follows_names s s'). Qed.
Lemma heard_mono (I J : W → Prop) server n qtype p : (∀ w, I w → J w) → heard I server n qtype p → heard J server n qtype p.
Proof.
  intros HIJ (id&edns0&ad&udp&tcp&packet&c&d&h&p0&p1&E&(network&timeout&w0&w&w'&Hw&Hd)&Hrest). exists id, edns0, ad, udp, tcp, packet, c, d, h, p0, p1.
  split; [done|]. split; [|done]. exists network, timeout, w0, w, w'. split; [by apply HIJ|done].
Qed.
Lemma onward_heard s s' server n qtype p : onward s s' → heard (since s') server n qtype p → heard (since s) server n qtype p.
Proof. intros [_ Hw]. apply heard_mono. intros w Hs'. unfold since in *. by etrans. Qed.
Lemma onward_settles s s' name qtype out : onward s s' → settles s' name qtype out → settles s name qtype out.
Proof.
  intros Ho. pose proof (onward_follows _ _ Ho) as Hf. destruct out as [[p server] [e|]]; cbn [settles]; pose proof Hf as (_&Es&_).
  - intros (fqdn&sv&Ha&Hs&He). exists fqdn, sv. split; [by apply (follows_asked_back s s')|]. by rewrite <- Es.
  - intros (fqdn&n&Ha&En&Hs&He&Hh). exists fqdn, n. split; [by apply (follows_asked_back s s')|]. rewrite <- Es. do 3 (split; [done|]). by apply (onward_heard s s').
Qed.
Lemma usable_offset cfg : usable cfg → usable (snd (serverOffset cfg)) ∧ servers (snd (serverOffset cfg)) = servers cfg ∧ conf_search (snd (serverOffset cfg)) = conf_search cfg ∧
  ndots (snd (serverOffset cfg)) = ndots cfg.
Proof. intros [B1 B2 B3 B4 B5]. unfold serverOffset. destruct (conf_rotate cfg); [|done]. split; [|done]. by constructor. Qed.
Lemma ask_runs s name fqdn qtype : looking_ok s → asked s name fqdn →
  runs (with_client (tryOneName fqdn qtype)) s (λ r s', onward s s' ∧ snd s' = snd s ∧ ∃ out, r = Some out ∧ settles s name qtype out).
Proof.
  intros Hok Hask. pose proof Hask as (Hb&Hl&_). destruct s as [[w cfg] h]. assert (En : NewName fqdn = Ok (MkName (name_data fqdn) (u8 (len fqdn)))).
  { unfold NewName. by rewrite Z.gtb_ltb, (proj2 (Z.ltb_ge _ _)) by lia. }
  pose proof (ok_usable _ Hok) as Hu. apply with_client_runs. eapply runs_mono; [apply (tryOneName_runs (since (w, cfg, h)) (since_closed _) fqdn qtype w cfg _ Hu Hb En (since_refl (w, cfg, h)))|].
  intros r [w' cfg'] [Ec [Hw (p&server&err&->&Hr)]]. cbn [fst snd] in *. subst cfg'. destruct (usable_offset cfg Hu) as (Hu'&E1&E2&E3).
  split; [|split; [done|]].
  - split; [|exact Hw]. split; [|done]. destruct Hok as [_ B2 B3]. constructor; [done| |done]. unfold conf_of in *. cbn [fst snd] in *. by rewrite E2.
  - eexists. split; [reflexivity|]. cbn [settles]. destruct err as [e|].
    + destruct Hr as (sv&Hs&He). by exists fqdn, sv.
    + destruct Hr as (Hs&He&Hh). by exists fqdn, (MkName (name_data fqdn) (u8 (len fqdn))).
Qed.

(** *** A lookup *)
(** The names of the search path, in its order. *)
Definition names_to_try s name : list bytes := if fits name then List.filter askable (candidates (conf_of s) name) else [].
(** They are tried until one is found, or, when errors are strict, fails for the
    time being; else the last outcome counts. *)
Inductive searched (qtype : Z) : list bytes → outcome → W * dnsConfig * hosts → outcome → W * dnsConfig * hosts → Prop :=
| searched_none out s : searched qtype [] out s out s
| searched_found fqdn names out s p server s1 :
    with_client (tryOneName fqdn qtype) s = (Ok (p, server, None), s1) → searched qtype (fqdn :: names) out s (p, server, None) s1
| searched_strict fqdn names out s p server err s1 :
    with_client (tryOneName fqdn qtype) s = (Ok (p, server, Some err), s1) → is_temporary err = true → strictErrors = true →
    searched qtype (fqdn :: names) out s (p, server, Some err) s1
| searched_next fqdn names out s p server err s1 out' s2 :
    with_client (tryOneName fqdn qtype) s = (Ok (p, server, Some err), s1) → is_temporary err = false ∨ strictErrors = false →
    searched qtype names (p, server, Some err) s1 out' s2 → searched qtype (fqdn :: names) out s out' s2.
Lemma lookup_loop_runs name qtype names : ∀ s out, looking_ok s → Forall (asked s name) names →
  runs (lookup_loop strictErrors names qtype out) s (λ r s', onward s s' ∧ ∃ out', r = Some out' ∧ searched qtype names out s out' s' ∧ (names = [] ∧ out' = out ∨ settles s name qtype out')).
Proof.
  induction names as [|fqdn names IH]; intros s out Hok Hn; cbn [lookup_loop].
  { unfold runs, mret, stateful_ret. split; [by apply onward_refl|]. exists out. split; [done|]. split; [constructor|by left]. }
  apply list.Forall_cons in Hn as [Hf Hn]. pose proof (ask_runs s name fqdn qtype Hok Hf) as Ha. unfold runs, mbind, stateful_bind in *.
  destruct (with_client (tryOneName fqdn qtype) s) as [[o|e|m] s1] eqn:Ew; [|by destruct Ha as (_&_&?&?&_)|done]. destruct Ha as (Hs1&_&o'&[= <-]&Ho).
  destruct o as [[p server] [err|]]; cbn [snd]; [|split; [done|]; eexists; split; [reflexivity|]; split; [by apply searched_found|by right]].
  destruct (is_temporary err && strictErrors) eqn:Et.
  { apply andb_true_iff in Et as [Et1 Et2]. split; [done|]. eexists. split; [reflexivity|]. split; [by apply searched_strict|by right]. }
  apply andb_false_iff in Et. assert (Hn1 : Forall (asked s1 name) names) by (eapply list.Forall_impl; [exact Hn|]; intros x; by apply follows_asked, onward_follows).
  pose proof (IH s1 (p, server, Some err) (onward_ok _ _ Hs1) Hn1) as Hr. unfold runs in Hr.
  destruct (lookup_loop _ names qtype _ s1) as [[r|e|m] s2]; [|by destruct Hr as (_&?&?&_)|done]. destruct Hr as (Hs2&out'&Eo&Hsearch&Hout').
  injection Eo as <-. split; [by apply (onward_trans s s1)|]. exists r. split; [done|]. split; [by eapply searched_next|]. right. destruct Hout' as [[_ ->]|Hout']; [done|by apply (onward_settles s s1)].
Qed.
(** What a lookup is, and what comes of it. *)
Definition looked_up name qtype s : Prop := ∃ r s', lookup strictErrors name qtype s = (r, s') ∧ onward s s' ∧
  (¬ (name = "."%go ∨ domain_name name) ∧ r = Err (no_such_host name) ∧ s' = s ∨
   (name = "."%go ∨ domain_name name) ∧ ∃ p server err, searched qtype (names_to_try s name) (zero_Parser, [], None) s (p, server, err) s' ∧
     match err with
     | None => r = Ok (p, server) ∧ (names_to_try s name = [] ∧ p = zero_Parser ∧ server = [] ∨ found_for s name qtype p server)
     | Some e => r = Err (with_name name e) ∧ ∃ server, server ∈ servers (conf_of s) ∧ lookup_error name server (with_name name e)
     end).
Lemma lookup_run name qtype s : looking_ok s → is_bytes name → looked_up name qtype s.
Proof.
  intros Hok Hb. destruct (names_asked s name Hok Hb) as (names&En&Hn). unfold looked_up, lookup. unfold mbind, stateful_bind, lift.
  destruct (isDomainName_run name) as (b&Eb&Hd). rewrite Eb. destruct b; cbn [negb].
  2: { eexists _, _. split; [reflexivity|]. split; [by apply onward_refl|]. left. split; [by intros H'%Hd|done]. }
  assert (Ec : the_config s = (Ok (conf_of s), s)) by (by destruct s as [[w cfg] h]). rewrite Ec, En.
  assert (Enames : names_to_try s name = names) by (pose proof En as En'; rewrite nameList_eq in En'; by injection En').
  pose proof (lookup_loop_runs name qtype names s (zero_Parser, [], None) Hok Hn) as Hr. unfold runs in Hr.
  destruct (lookup_loop _ _ _ _ s) as [[[[p server] err]|e|m] s']; [| |done]; destruct Hr as (Hs'&out'&Eo&Hsearch&Hout); [|done]. injection Eo as <-.
  assert (Hdom : name = "."%go ∨ domain_name name) by by apply Hd. rewrite Enames. destruct err as [e|]; (eexists _, _; split; [reflexivity|]; split; [done|]; right; split; [done|]; exists p, server; eexists; split; [exact Hsearch|]; split; [done|]).
  - destruct Hout as [[_ [=]]|(fqdn&sv&_&Hs&(t&to&tmp&nf&->))]. exists sv. split; [done|]. by eexists _, _, _, _.
  - destruct Hout as [[-> [= -> ->]]|Hout]; [by left|by right].
Qed.
Lemma lookup_runs name qtype s : looking_ok s → is_bytes name →
  runs (lookup strictErrors name qtype) s (λ r s', follows s s' ∧ match r with Some (p, server) => p = zero_Parser ∨ found_for s name qtype p server | None => True end).
Proof.
  intros Hok Hb. destruct (lookup_run name qtype s Hok Hb) as (r&s'&E&[Hs' _]&Hr). unfold runs. rewrite E.
  destruct Hr as [(_&->&_)|(_&p&server&[e|]&_&Hr)]; [by split|by destruct Hr as [-> _]|destruct Hr as [-> Hr]]. split; [done|]. destruct Hr as [(_&->&_)|Hr]; [by left|by right].
Qed.

(** *** The records found *)
Lemma lookup_records {A} (name : bytes) (qtype : Z) (one : ResourceHeader → A → parsing A) acc0 (bad : bytes → error) I s : looking_ok s → is_bytes name →
  (∀ n acc, I n acc → I (n + 1) acc) → (∀ h acc p, parser_ok p → p_section p = sectionAnswers → header_formed h → acc = acc0 ∨ I (p_index p) acc → gathers one I h acc p) →
  runs ('(p, server) ← lookup strictErrors name qtype; lift (records p qtype one acc0 (bad server))) s
    (λ r s', follows s s' ∧ match r with Some acc => ∃ n, n <= 65535 ∧ I n acc | None => True end).
Proof.
  intros Hok Hb Hnext Hone. apply runs_bind. eapply runs_mono; [by apply lookup_runs|]. intros [[p server]|] s' [Hs' Hp]; [|done].
  apply runs_lift; [|done]. eapply safe_mono with (P := λ acc, ∃ n, n <= 65535 ∧ I n acc); [|done].
  destruct Hp as [->|(fqdn&n&_&_&_&Hat&_)]; [done|]. by apply (records_found qtype one acc0 (bad server) I Hnext Hone n).
Qed.
Lemma lookup_records_then {A B} name qtype (one : ResourceHeader → A → parsing A) acc0 (bad : bytes → error) I (k : A → looking (W := W) B) s Q : looking_ok s → is_bytes name →
  (∀ n acc, I n acc → I (n + 1) acc) → (∀ h acc p, parser_ok p → p_section p = sectionAnswers → header_formed h → acc = acc0 ∨ I (p_index p) acc → gathers one I h acc p) →
  (∀ s' n acc, follows s s' → n <= 65535 → I n acc → runs (k acc) s' Q) → (∀ s', follows s s' → Q None s') →
  runs ('(p, server) ← lookup strictErrors name qtype; acc ← lift (records p qtype one acc0 (bad server)); k acc) s Q.
Proof.
  intros Hok Hb Hnext Hone Hk Hfail. pose proof (lookup_records name qtype one acc0 bad I s Hok Hb Hnext Hone) as Hr. unfold runs, mbind, stateful_bind, lift in *.
  destruct (lookup _ _ _ s) as [[[p server]|e|m] s']; [|by apply Hfail, Hr|done]. destruct (records _ _ _ _ _) as [acc|e|m]; [|by apply Hfail, Hr|done].
  destruct Hr as (Hs'&n&Hn&HI). by apply (Hk s' n).
Qed.
Lemma goLookupNS_runs name s : looking_ok s → is_bytes name →
  runs (goLookupNS strictErrors name) s (λ r s', follows s s' ∧ match r with Some l => text_found 65535 l | None => True end).
Proof.
  intros Hok Hb. eapply runs_mono.
  { apply (lookup_records name TypeNS add_NS [] (bad_message name) text_found); [done|done|intros; by apply some_next|]. intros h acc p Hp Hs _. by apply NS_gathers. }
  intros [l|] s' [Hs' Hl]; [|done]. split; [done|]. destruct Hl as (n&Hn&Hl&Hlen). split; [done|lia].
Qed.
Lemma goLookupTXT_runs name s : looking_ok s → is_bytes name →
  runs (goLookupTXT strictErrors name) s (λ r s', follows s s' ∧ match r with Some l => text_found 65535 l | None => True end).
Proof.
  intros Hok Hb. eapply runs_mono.
  { apply (lookup_records name TypeTXT add_TXT [] (bad_message name) text_found); [done|done|intros; by apply some_next|]. intros h acc p Hp Hs _. by apply TXT_gathers. }
  intros [l|] s' [Hs' Hl]; [|done]. split; [done|]. destruct Hl as (n&Hn&Hl&Hlen). split; [done|lia].
Qed.
Lemma shuffling_runs {A} (f : W → res (A * W)) s Q : safe (λ '(a, w), Q (Some a) (w, conf_of s, snd s)) (f (fst (fst s))) → Q None s → runs (shuffling f) s Q.
Proof.
  destruct s as [[w cfg] h]. cbn [fst snd conf_of]. unfold shuffling, runs, mbind, stateful_bind, get, lift, put, mret, stateful_ret. by destruct (f w) as [[a w']|e|m].
Qed.
Lemma follows_world s w cfg h w' : follows s (w, cfg, h) → follows s (w', cfg, h).
Proof. intros (B1&B2&B3). split; [|done]. by destruct B1. Qed.
Lemma goLookupMX_runs name s : looking_ok s → is_bytes name →
  runs (goLookupMX strictErrors name) s (λ r s', follows s s' ∧ match r with Some l => found_MX 65535 l ∧ StronglySorted (λ a b, Pref a <= Pref b) l | None => True end).
Proof.
  intros Hok Hb. apply (lookup_records_then name TypeMX add_MX [] (bad_message name) found_MX); [done|done|intros; by apply some_next|..|done].
  { intros h acc p Hp Hs _. by apply MX_gathers. }
  intros [[w cfg] h] n l Hs' Hn [Hl Hlen]. apply shuffling_runs; [|done]. cbn [fst]. destruct (MX_sort_spec runtime_rand l w) as (l'&w'&->&HP&Hsort); [lia|].
  cbn [safe fst]. split; [by apply (follows_world s w)|]. split; [|done]. split; [by rewrite <- HP|]. unfold len in *. rewrite <- (Permutation_length HP). lia.
Qed.
Lemma goLookupSRV_runs service proto name s : looking_ok s → is_bytes service → is_bytes proto → is_bytes name →
  runs (goLookupSRV strictErrors service proto name) s (λ r s', follows s s' ∧ match r with
    | Some (cname, l) => is_bytes cname ∧ some_of (λ a, is_bytes (Target a) ∧ is_u16 (Weight a)) 65535 l ∧ StronglySorted srv_order l | None => True end).
Proof.
  intros Hok Hsv Hpr Hb. unfold goLookupSRV. set (target := if _ && _ then _ else _). assert (Ht : is_bytes target).
  { unfold target. destruct (_ && _); [done|]. by repeat (apply is_bytes_app; [done || by repeat constructor|]). }
  apply (lookup_records_then target TypeSRV add_SRV (zero_Name, []) (bad_message name) found_SRV); [done|done|..|done].
  { intros n [c l] [Hc Hl]. split; [done|by apply some_next]. } { intros h acc p. apply SRV_gathers. }
  intros [[w cfg] h] n [cname l] Hs' Hn [Hc [Hl Hlen]]. cbn [fst snd] in *. apply runs_bind, shuffling_runs; [|done]. cbn [fst].
  destruct (SRV_sort_run runtime_rand l w) as (l'&w'&->&HP&Hsort); [|lia|].
  { unfold weighted. eapply list.Forall_impl; [exact Hl|]. by intros a [_ Ha]. }
  cbn [safe]. apply runs_bind, runs_lift; [|split; [by apply (follows_world s w)|done]]. rewrite (Name_text _ (canonical_ok _ Hc)). cbn [safe]. unfold runs, mret, stateful_ret.
  split; [by apply (follows_world s w)|]. split; [by apply canonical_bytes|]. split; [|done]. split; [by rewrite <- HP|]. unfold len in *. rewrite <- (Permutation_length HP). lia.
Qed.

(** *** The hosts file *)
Definition name_fits (n : Name) : Prop := ∃ t, n = name_of t ∧ len t <= 255.
Lemma fits_text n : name_fits n → Name_String n = Ok (name_text n).
Proof. intros (t&->&Ht). unfold Name_String, name_text. rewrite name_of_text by done. cbn [Length Data name_of]. unfold name_data, len. by rewrite Nat2Z.id, take_app_length. Qed.
Lemma NewName_fits t : match NewName t with Ok n => name_fits n | Err e => e = errCalcLen | Panic _ => False end.
Proof.
  unfold NewName. rewrite Z.gtb_ltb. destruct (Z.ltb_spec 255 (len t)); [done|]. exists t. split; [|done]. unfold name_of. rewrite u8_id; [done|]. pose proof (len_nonneg t). unfold is_u8. lia.
Qed.
Definition address (a : IPAddr) : Prop := is_bytes (IP a) ∧ (length (IP a) = 4%nat ∨ length (IP a) = 16%nat).
Lemma splitHostZone_total t : ∃ host zone, splitHostZone t = Ok (host, zone).
Proof.
  unfold splitHostZone. destruct (NetHostProps.last_index_split t "%"%byte) as [[-> _]|(a&b&Et&_&->)]; [by eexists _, _|]. rewrite Z.gtb_ltb. destruct (Z.ltb_spec 0 (len a)); [|by eexists _, _].
  rewrite Et, (upto_app a) by done. cbn [mbind res_bind]. rewrite cons_middle, app_assoc, (from_app (a ++ ["%"%byte])) by (rewrite len_app; done). by eexists _, _.
Qed.
Lemma literals_run l : ∃ addrs, literals l = Ok addrs ∧ Forall address addrs ∧ len addrs <= len l.
Proof.
  induction l as [|t l (addrs&E&Ha&Hl)]; cbn [literals]; [by exists []|]. destruct (splitHostZone_total t) as (host&zone&->). cbn [mbind res_bind].
  destruct (ParseIP_any host) as (ip&->&Hip). cbn [mbind res_bind]. rewrite E. cbn [mbind res_bind]. eexists. split; [reflexivity|]. rewrite len_cons.
  destruct Hip as [->|[Hb Hlen]]; [split; [done|]; cbn [is_nil]; lia|]. destruct ip as [|x ip]; [done|]. cbn [is_nil]. rewrite len_cons. split; [|lia].
  apply list.Forall_cons. split; [|done]. split; [done|by right].
Qed.
Lemma sorted_runs l s Q : len l < 2 ^ 62 → Forall address l → (∀ l', l' ≡ₚ l → Q (Some l') s) → runs (Resolver.sorted l) s Q.
Proof.
  intros Hl Ha HQ. destruct s as [[w cfg] h]. unfold Resolver.sorted, sortByRFC6724. apply runs_bind. unfold get. cbn [runs]. destruct (len l <? 2); [by apply HQ|].
  destruct (withSrcs_run l (srcAddrs w l)) as (es&E&_&Hq); [by rewrite srcAddrs_length|done|eapply list.Forall_impl; [exact Ha|by intros a []]|apply srcAddrs_wf|].
  unfold runs, lift. rewrite E. cbn [mbind res_bind]. apply HQ. destruct (entries_of l (srcAddrs w l)) as [Ed _]; [by rewrite srcAddrs_length|]. change (map dest es ≡ₚ l). rewrite <- Ed.
  apply Permutation_map. symmetry. apply Hq.
Qed.
(** The cache goes on holding what a hosts file says. *)
Lemma renewed_few w k : len (entries (k_text k)) < fewest → len (entries (k_text (renewed (hosts_world w : HostsFile.world R) k))) < fewest.
Proof.
  intros Hl. unfold renewed. destruct (decide _); [done|]. destruct (decide _); [done|]. destruct (w_opened (hosts_world w)) as [r| |] eqn:Eo; [by apply (hosts_few w)| |done].
  cbn [k_text]. change (len (entries [])) with 0. unfold fewest. lia.
Qed.
(** In the state the hosts file, or the cache that is good for it, says that the
    name has these addresses. *)
Definition hosts_say s (name : bytes) (l : list bytes) : Prop :=
  ∃ k, represents (snd s) k ∧ l = fst (addresses_of (k_text (renewed (hosts_world (fst (fst s))) k)) name).
Lemma addresses_few text name : len (entries text) < fewest → len (fst (addresses_of text name)) < fewest.
Proof.
  intros Hl. unfold addresses_of, name_entry. destruct (filter _ (entries text)) as [|o l] eqn:E; [change (len (fst _)) with 0; unfold fewest; lia|]. cbn [byName_addrs fst]. rewrite <- E.
  unfold len in *. rewrite length_map. pose proof (length_filter (λ o, o_key o = lower_name name) (entries text)). lia.
Qed.
Lemma static_host_runs name s : looking_ok s → runs (static_host (W := W) name) s (λ r s', ∃ a, r = Some a ∧ follows s s' ∧ fst s' = fst s ∧ hosts_say s name (fst a) ∧ len (fst a) < fewest).
Proof.
  intros [B1 B2 (k&Hc&Hl)]. destruct s as [[w cfg] h]. unfold static_host. apply runs_bind. unfold get. cbn [runs snd fst] in *. apply runs_bind. unfold runs at 1, lift.
  destruct (lookupStaticHost_run (hosts_world w) h k name Hc (hosts_enough w)) as (h'&E&Hc'). rewrite E. pose proof (renewed_few w k Hl) as Hl'.
  assert (Hs : hosts_say (w, cfg, h) name (fst (addresses_of (k_text (renewed (hosts_world w) k)) name))) by by exists k. pose proof (addresses_few _ name Hl') as Hfew.
  destruct (addresses_of _ name) as [l canonical]. apply runs_bind. unfold put, runs, mret, stateful_ret. eexists. split; [reflexivity|]. split; [split; [constructor; [done|done|by eexists]|done]|]. by split.
Qed.
Lemma static_addr_runs name s : looking_ok s → runs (static_addr (W := W) name) s (λ r s', ∃ a, r = Some a ∧ follows s s' ∧ fst s' = fst s).
Proof.
  intros [B1 B2 (k&Hc&Hl)]. destruct s as [[w cfg] h]. unfold static_addr. apply runs_bind. unfold get. cbn [runs snd fst] in *. apply runs_bind. unfold runs at 1, lift.
  destruct (lookupStaticAddr_run (hosts_world w) h k name Hc (hosts_enough w)) as (h'&E&Hc'). rewrite E. pose proof (renewed_few w k Hl) as Hl'.
  apply runs_bind. unfold put, runs, mret, stateful_ret. eexists. split; [reflexivity|]. split; [|done]. split; [constructor; [done|done|by eexists]|done].
Qed.
(** The addresses of the hosts file: the literals among those it says, in the
    order of RFC 6724. *)
Definition from_hosts s name (addrs : list IPAddr) : Prop := ∃ l ips, hosts_say s name l ∧ literals l = Ok ips ∧ addrs ≡ₚ ips.
Lemma goLookupIPFiles_runs name s : looking_ok s → runs (goLookupIPFiles (W := W) name) s (λ r s', ∃ a, r = Some a ∧ follows s s' ∧ fst s' = fst s ∧ from_hosts s name (fst a)).
Proof.
  intros Hok. unfold goLookupIPFiles. apply runs_bind. eapply runs_mono; [by apply static_host_runs|]. intros r s1 ([l canonical]&->&Hs1&Ew&Hl&Hfew). cbn [fst] in Hl, Hfew.
  apply runs_bind. destruct (literals_run l) as (ips&E&Ha&Hlen). unfold runs at 1, lift. rewrite E. unfold fewest in Hfew.
  apply runs_bind, sorted_runs; [lia|done|]. intros l' HP. unfold runs, mret, stateful_ret. eexists. split; [reflexivity|]. split; [done|]. split; [done|]. by exists l, ips.
Qed.
(** It says the same to all who ask. *)
Lemma hosts_say_same s name l l' : hosts_say s name l → hosts_say s name l' → l = l'.
Proof.
  intros (k&Hk&->) (k'&Hk'&->). destruct s as [[w cfg] h]. cbn [fst snd] in *. destruct (lookupStaticHost_run (hosts_world w) h k name Hk (hosts_enough w)) as (h1&E1&_).
  destruct (lookupStaticHost_run (hosts_world w) h k' name Hk' (hosts_enough w)) as (h2&E2&_). rewrite E1 in E2. by injection E2 as -> _.
Qed.
(** The hosts file has no address of the name. *)
Definition silent s name : Prop := ∀ l, hosts_say s name l → literals l = Ok [].
Lemma from_hosts_none s name addrs : from_hosts s name addrs → addrs = [] → silent s name.
Proof. intros (l&ips&Hl&E&HP) ->. apply Permutation_nil in HP as ->. intros l' Hl'. by rewrite (hosts_say_same s name l' l). Qed.
Lemma from_files_ends name s : looking_ok s → ends (from_files (W := W) name) s
  (λ r s', follows s s' ∧ fst s' = fst s ∧ match r with Some (addrs, cname) => addrs ≠ [] ∧ from_hosts s name addrs ∧ name_fits cname | None => silent s name end)
  (λ e s', follows s s' ∧ fst s' = fst s ∧ e = errCalcLen ∧ ¬ silent s name).
Proof.
  intros Hok. unfold from_files. apply ends_then, ends_runs. eapply runs_mono; [by apply goLookupIPFiles_runs|]. intros r s1 ([addrs canonical]&->&Hs1&Ew&Ha). cbn [fst] in Ha.
  exists (addrs, canonical). split; [done|]. rewrite Z.gtb_ltb. destruct (Z.ltb_spec 0 (len addrs)) as [Hpos|Hneg].
  2: { unfold ends, mret, stateful_ret. do 2 (split; [done|]). apply (from_hosts_none s name addrs Ha). destruct addrs as [|a l]; [done|]. rewrite len_cons in Hneg. pose proof (len_nonneg l). lia. }
  assert (Hne : addrs ≠ []) by by intros ->. apply ends_then. unfold ends at 1, lift. pose proof (NewName_fits canonical) as Hn.
  destruct (NewName canonical) as [n|e|m]; [by unfold ends, mret, stateful_ret| |done]. do 3 (split; [done|]). intros Hsil. destruct Ha as (l&ips&Hl&E&HP). rewrite (Hsil l Hl) in E. injection E as <-. by apply Hne, Permutation_nil.
Qed.

(** *** The addresses of a response *)
(** A record that comes up, from [p0] on in the answers, holds the address. *)
Definition read_from (p0 : Parser) (ip : bytes) : Prop :=
  ∃ p, reads_on p0 p ∧ (fst (Parser_AResource p) = Ok (MkA ip) ∨ fst (Parser_AAAAResource p) = Ok (MkAAAA ip)).
Section response.
Context (network : bytes) (bad : error) (pr : Parser) (P : IPAddr → Prop).
Context (P_read : ∀ ip, is_bytes ip → (length ip = 4%nat ∨ length ip = 16%nat) → read_from pr ip → P (MkIPAddr ip [])).
(** There are addresses, or the name wanted, or there is an error. *)
Definition noted (g : gathered) : Prop := g_lastErr g ≠ None ∨ answered network g = true.
(** Records of these types are what the lookup is after. *)
Definition wanted (t : Z) : Prop := t = TypeA ∨ t = TypeAAAA ∨ t = TypeCNAME ∧ is_CNAME network = true.
Definition holding (n : Z) (g : gathered) : Prop := Forall P (g_addrs g) ∧ len (g_addrs g) <= n ∧ name_fits (g_cname g).
Lemma add_addr_noted ip name g : noted (add_addr ip name g).
Proof. right. unfold answered, add_addr. cbn [g_addrs]. rewrite len_app. change (len [MkIPAddr ip []]) with 1. pose proof (len_nonneg (g_addrs g)). rewrite Z.gtb_ltb, (proj2 (Z.ltb_lt _ _)) by lia. done. Qed.
Lemma add_addr_holding n ip name g : canonical name → P (MkIPAddr ip []) → holding n g → holding (n + 1) (add_addr ip name g).
Proof.
  intros Hn Ha (B1&B2&B3). split; [apply list.Forall_app; split; [done|by apply Forall_singleton]|]. split; [unfold add_addr; cbn [g_addrs]; rewrite len_app; change (len [MkIPAddr ip []]) with 1; lia|].
  unfold add_addr. cbn [g_cname]. destruct (_ && _); [|done]. destruct (canonical_ok _ Hn) as (t&->&Ht&_). by exists t.
Qed.
Lemma canonical_length name : canonical name → 0 < Length name.
Proof.
  intros ([|l ls]&->&Hls&_); [done|]. cbn [name_of Length spelling]. destruct (text (l :: ls)) as [|c t] eqn:E; [by apply text_nil in E|]. rewrite len_cons. pose proof (len_nonneg t). lia.
Qed.
Lemma add_cname_holding n name g : canonical name → holding n g → holding (n + 1) (add_cname name g).
Proof.
  intros Hn (B1&B2&B3). split; [done|]. split; [unfold add_cname; cbn [g_addrs]; lia|]. unfold add_cname. cbn [g_cname]. destruct (_ && _); [|done].
  destruct (canonical_ok _ Hn) as (t&->&Ht&_). by exists t.
Qed.
Lemma fits_length name : name_fits name → 0 <= Length name.
Proof. intros (t&->&_). apply len_nonneg. Qed.
Lemma add_cname_noted n name g : holding n g → canonical name → noted g ∨ is_CNAME network = true → noted (add_cname name g).
Proof.
  intros (_&_&Hf%fits_length) Hn%canonical_length Hg. unfold noted, answered, add_cname in *. cbn [g_lastErr g_addrs g_cname].
  destruct Hg as [[He|Ha]|Hc]; [by left| |]; right.
  - destruct (len (g_addrs g) >? 0); [done|]. cbn [orb] in *. destruct (is_CNAME network); [|done]. cbn [andb] in *. destruct (Z.eqb_spec (Length (g_cname g)) 0); [lia|done].
  - rewrite Hc. cbn [andb]. destruct (Z.eqb_spec (Length (g_cname g)) 0); cbn [andb].
    + assert (Hgt : (Length name >? 0) = true) by (rewrite Z.gtb_ltb; by apply Z.ltb_lt). rewrite !Hgt. apply orb_true_r.
    + rewrite (Z.gtb_ltb (Length (g_cname g))), (proj2 (Z.ltb_lt 0 (Length (g_cname g)))) by lia. apply orb_true_r.
Qed.
(** One record. *)
Definition one_read base h g p : Prop := runs (response_one h g) p (λ r p', parser_ok p' ∧ match r with
  | Some g' => advanced sectionAnswers p p' ∧ reads_on pr p' ∧ holding (base + p_index p + 1) g' ∧ g_lastErr g' = g_lastErr g ∧ (noted g ∨ wanted (rh_Type h) → noted g')
  | None => True end).
Lemma runs_here {S A} (m : stateful S A) (σ : S) (Q : option A → S → Prop) : runs m σ Q → runs m σ (λ a σ', Q a σ' ∧ match a with Some a => m σ = (Ok a, σ') | None => True end).
Proof. unfold runs. by destruct (m σ) as [[a|e|x] σ']. Qed.
Lemma response_one_runs base h g p : parser_ok p → p_section p = sectionAnswers → reads_on pr p → header_formed h → holding (base + p_index p) g → one_read base h g p.
Proof.
  intros Hp Hs Hm (Hh&_) Hg. unfold one_read, response_one. destruct (Z.eqb_spec (rh_Type h) TypeA) as [E|Ha].
  { apply runs_bind. eapply runs_mono; [apply runs_here, typed_moves; [done|done|apply (A_safe (p_msg p) (ok_bytes p Hp) (p_off p)); by apply ok_off]|].
    intros [[a]|] p' [[Hp' Hr] Ea]; [|done]. destruct Hr as [[Hb Hl] Hadv]. unfold runs, mret, stateful_ret. cbn [A] in *. split; [done|]. split; [done|]. split; [by eapply rtc_r; [exact Hm|eapply reads_A]|].
    split; [|split; [done|intros _; apply add_addr_noted]]. apply add_addr_holding; [done| |done]. apply P_read; [done|left; unfold len in Hl; lia|]. exists p. split; [done|]. left. by rewrite (Ea : Parser_AResource p = _). }
  destruct (Z.eqb_spec (rh_Type h) TypeAAAA) as [E|Haaaa].
  { apply runs_bind. eapply runs_mono; [apply runs_here, typed_moves; [done|done|apply (AAAA_safe (p_msg p) (ok_bytes p Hp) (p_off p)); by apply ok_off]|].
    intros [[a]|] p' [[Hp' Hr] Ea]; [|done]. destruct Hr as [[Hb Hl] Hadv]. unfold runs, mret, stateful_ret. cbn [AAAA] in *. split; [done|]. split; [done|]. split; [by eapply rtc_r; [exact Hm|eapply reads_AAAA]|].
    split; [|split; [done|intros _; apply add_addr_noted]]. apply add_addr_holding; [done| |done]. apply P_read; [done|right; unfold len in Hl; lia|]. exists p. split; [done|]. right. by rewrite (Ea : Parser_AAAAResource p = _). }
  destruct (Z.eqb_spec (rh_Type h) TypeCNAME) as [E|Hne].
  { apply runs_bind. eapply runs_mono; [apply runs_here, typed_moves; [done|done|apply (CNAME_safe (p_msg p) (ok_bytes p Hp) (p_off p)); by apply ok_off]|].
    intros [r|] p' [[Hp' Hr] Ec]; [|done]. destruct Hr as [Hc Hadv]. cbn [body_formed] in Hc. unfold runs, mret, stateful_ret. split; [done|]. split; [done|]. split; [by eapply rtc_r; [exact Hm|eapply reads_CNAME]|].
    split; [by apply add_cname_holding|]. split; [done|]. intros Hnote. eapply add_cname_noted; [done|done|]. destruct Hnote as [Hn|[Ht|[Ht|[_ Ht]]]]; [by left| | |by right]; rewrite E in Ht; discriminate Ht. }
  apply runs_bind. eapply runs_mono; [by apply runs_here, SkipAnswer_runs|]. intros [[]|] p' [(Hp'&_&Hadv) Es]; [|done]. unfold runs, mret, stateful_ret. split; [done|]. split; [done|].
  split; [by eapply rtc_r; [exact Hm|apply reads_skip]|]. split; [destruct Hg as (B1&B2&B3); split; [done|]; split; [lia|done]|]. split; [done|]. intros [Hn|Hw]; [done|]. exfalso. by destruct Hw as [Hw|[Hw|[Hw _]]].
Qed.
Lemma holding_le n n' g : holding n g → n <= n' → holding n' g.
Proof. intros (B1&B2&B3) Hn. split; [done|]. split; [lia|done]. Qed.
(** What becomes of what is gathered: the addresses, the error, the note. *)
Definition gone_on base (g g' : gathered) : Prop := holding (base + 65535) g' ∧ (g_lastErr g' = g_lastErr g ∨ g_lastErr g' = Some bad) ∧ (noted g → noted g').
Lemma response_loop_runs base fuel : ∀ g p, parser_ok p → reads_on pr p → enough sectionAnswers fuel p → holding (base + p_index p) g →
  runs (response_loop fuel bad g) p (λ r _, ∃ g', r = Some g' ∧ gone_on base g g').
Proof.
  induction fuel as [|fuel IH]; intros g p Hp Hm He Hg; [destruct He; lia|]. cbn [response_loop]. apply runs_bind, runs_attempt. pose proof (index_small p Hp) as Hsm.
  assert (Hbad : gone_on base g (set_lastErr bad g)).
  { split; [|split; [by right|by left]]. apply (holding_le (base + p_index p)); [|lia]. exact Hg. }
  eapply runs_mono; [apply runs_here, runs_and; [by apply AnswerHeader_runs|by apply AnswerHeader_formed]|]. intros [h|] p1 [[(Hp1&_&Hr) Hh] Eh].
  2: { intros e. unfold runs, mret, stateful_ret. eexists. split; [reflexivity|]. destruct (decide (e = ErrSectionDone)); [|done]. split; [apply (holding_le (base + p_index p)); [done|lia]|]. split; [by left|done]. }
  destruct Hr as (Hs1&Hs&Hst&Hi&_). apply runs_bind, runs_attempt. eapply runs_mono; [apply (response_one_runs base h g p1); [done|done|exact (reads_on_header _ _ _ Hm Eh)|done|by rewrite Hi]|].
  intros [g1|] p2 [Hp2 Hr]; [|intros e; unfold runs, mret, stateful_ret; by exists (set_lastErr bad g)]. destruct Hr as (Hadv&Hm2&Hg1&He1&Hn1).
  eapply runs_mono; [apply IH; [done|done|by apply (header_then_skip _ _ p p1)|]|].
  { destruct Hadv as (_&_&_&->). by rewrite Z.add_assoc. }
  intros r _ (g'&->&Hg'&He'&Hn'). exists g'. split; [done|]. split; [done|]. split; [by rewrite <- He1|]. intros Hn. apply Hn', Hn1. by left.
Qed.
(** Where the parser is at a record that is wanted, something is noted. *)
Lemma response_found base n qtype g p : at_answer n qtype p → reads_on pr p → wanted qtype → holding base g →
  runs (response_loop (section_fuel sectionAnswers p) bad g) p (λ r _, ∃ g', r = Some g' ∧ gone_on base g g' ∧ noted g').
Proof.
  intros (Hp&Hs&Hv&Ht&(h&Ea&Eh)&_) Hm Hw Hg0. pose proof (ok_index p Hp) as [Hi0 _]. pose proof (index_small p Hp) as Hsm.
  assert (Hg : holding (base + p_index p) g) by (apply (holding_le base); [done|lia]).
  pose proof (section_fuel_enough sectionAnswers p Hp) as He. destruct (section_fuel sectionAnswers p) as [|fuel]; [destruct He; lia|]. cbn [response_loop]. apply runs_bind, runs_attempt.
  pose proof (AnswerHeader_formed p Hp) as Hh. unfold runs in Hh |- * at 1. rewrite Ea in Hh |- *. apply runs_bind, runs_attempt. eapply runs_mono; [by apply (response_one_runs base h g p)|].
  intros [g1|] p2 [Hp2 Hr].
  2: { intros e. unfold runs, mret, stateful_ret. eexists. split; [reflexivity|]. split; [|by left]. split; [apply (holding_le (base + p_index p)); [exact Hg|lia]|]. split; [by right|by left]. }
  destruct Hr as (Hadv&Hm2&Hg1&He1&Hn1). eapply runs_mono; [apply (response_loop_runs base fuel g1 p2); [done|done|by apply (enough_next _ _ p)|]|].
  { destruct Hadv as (_&_&_&->). by rewrite Z.add_assoc. }
  intros r _ (g'&->&Hg'&He'&Hn'). assert (Hnote : noted g') by (apply Hn', Hn1; right; by rewrite Eh). exists g'. split; [done|]. split; [|done]. split; [done|]. split; [by rewrite <- He1|done].
Qed.
End response.

(** *** All queries, all names *)
(** The address, without a zone, is in a record of a response to a request for a
    name asked for, which arrived from a configured server since. *)
Definition from_response s name (a : IPAddr) : Prop :=
  address a ∧ Zone a = [] ∧ ∃ fqdn n qtype server p, asked s name fqdn ∧ NewName fqdn = Ok n ∧ server ∈ servers (conf_of s) ∧
    heard (since s) server n qtype p ∧ read_from p (IP a).
Definition blames s (e : error) : Prop := ∃ name server, server ∈ servers (conf_of s) ∧ lookup_error name server e.
Definition gathered_ok s name (n : Z) (g : gathered) : Prop := holding (from_response s name) n g ∧ ∀ e, g_lastErr g = Some e → blames s e.
Lemma says_blames s name e : says_why s name e → blames s e.
Proof. intros (fqdn&server&_&Hs&He). by exists fqdn, server. Qed.
Lemma set_lastErr_ok s name n e g : blames s e → gathered_ok s name n g → gathered_ok s name n (set_lastErr e g).
Proof. intros He [Hg _]. split; [exact Hg|]. by intros e' [= <-]. Qed.
(** Asking leaves the hosts file alone. *)
Definition asking s s' : Prop := onward s s' ∧ snd s' = snd s.
Lemma asking_refl s : looking_ok s → asking s s.
Proof. intros Hok. split; [by apply onward_refl|done]. Qed.
Lemma types_loop_runs name fqdn network s0 qtypes : looking_ok s0 → asked s0 name fqdn → Forall (wanted network) qtypes → ∀ g hit n s, asking s0 s → gathered_ok s0 name n g →
  runs (types_loop strictErrors qtypes name fqdn g hit) s (λ r s', asking s0 s' ∧ ∃ a, r = Some a ∧ gathered_ok s0 name (n + 65535 * len qtypes) (fst a) ∧
    (qtypes ≠ [] ∨ noted network g → noted network (fst a)) ∧ (snd a = true → hit = true ∨ g_lastErr (fst a) ≠ None) ∧ (g_lastErr g ≠ None → g_lastErr (fst a) ≠ None)).
Proof.
  intros Hok Hask Hw. induction Hw as [|qtype qtypes Hq Hw IH]; intros g hit n s Hs Hg; cbn [types_loop].
  { unfold runs, mret, stateful_ret. split; [done|]. exists (g, hit). split; [done|]. cbn [fst snd]. change (len []) with 0. rewrite Z.mul_0_r, Z.add_0_r. split; [done|]. split; [by intros [?|?]|]. split; [by left|done]. }
  apply runs_bind. eapply runs_mono; [apply (ask_runs s name fqdn qtype); [apply (onward_ok s0 s), Hs|apply (follows_asked s0); [apply Hs|done]]|]. intros r s1 (Hs1&Eh1&[[p server] err]&->&Hout).
  destruct Hs as [Hs Eh]. assert (Hs01 : asking s0 s1) by (split; [by apply (onward_trans s0 s)|congruence]). apply (onward_settles s0 s) in Hout; [|done].
  (* what the rest needs: a noted gathering, with room *)
  assert (Hrest : ∀ g1 hit1, gathered_ok s0 name (n + 65535) g1 → noted network g1 → (hit1 = true → hit = true ∨ g_lastErr g1 ≠ None) → (g_lastErr g ≠ None → g_lastErr g1 ≠ None) →
    runs (types_loop strictErrors qtypes name fqdn g1 hit1) s1 (λ r s', asking s0 s' ∧ ∃ a, r = Some a ∧ gathered_ok s0 name (n + 65535 * len (qtype :: qtypes)) (fst a) ∧
    (qtype :: qtypes ≠ [] ∨ noted network g → noted network (fst a)) ∧ (snd a = true → hit = true ∨ g_lastErr (fst a) ≠ None) ∧ (g_lastErr g ≠ None → g_lastErr (fst a) ≠ None))).
  { intros g1 hit1 Hg1 Hn1 Hh1 He1. eapply runs_mono; [by apply (IH g1 hit1 (n + 65535))|]. intros r s2 (Hs2&a&->&Ha&Hna&Hha&Hea). split; [done|]. exists a. split; [done|].
    rewrite len_cons. replace (n + 65535 * (len qtypes + 1)) with (n + 65535 + 65535 * len qtypes) by lia. split; [done|]. split; [intros _; apply Hna; by right|]. split; [|intros Hne; by apply Hea, He1].
    intros Ht. destruct (Hha Ht) as [Hh|He]; [|by right]. destruct (Hh1 Hh) as [H'|H']; [by left|right; by apply Hea]. }
  assert (Hmore : ∀ g', gathered_ok s0 name n g' → gathered_ok s0 name (n + 65535) g') by (intros g' [B1 B2]; split; [apply (holding_le _ n); [done|lia]|done]).
  destruct err as [err|]; cbn [settles] in Hout.
  - apply says_blames in Hout. destruct (_ && _).
    + apply Hrest; [by apply Hmore, set_lastErr_ok|by left|intros _; by right|done].
    + destruct (bool_decide_reflect (g_lastErr g = None)) as [He|He]; cbn [orb].
      * apply Hrest; [by apply Hmore, set_lastErr_ok|by left|intros Hh; by left|done].
      * destruct (beq _ _); (apply Hrest; [|by left|intros Hh; by left|done]); [by apply Hmore, set_lastErr_ok|by apply Hmore].
  - destruct Hout as (fq&nm&Hfq&En&Hsv&Hat&Hheard). destruct Hg as [Hg He].
    assert (P_read : ∀ ip, is_bytes ip → (length ip = 4%nat ∨ length ip = 16%nat) → read_from p ip → from_response s0 name (MkIPAddr ip [])).
    { intros ip Hb Hl Hr. split; [by split|]. split; [done|]. by exists fq, nm, qtype, server, p. }
    pose proof (response_found network (bad_message name server) p (from_response s0 name) P_read n nm qtype g p Hat (rtc_refl _ _) Hq Hg) as Hr.
    unfold runs in Hr. apply runs_bind. unfold runs at 1, lift. destruct (response_loop _ _ g p) as [[g1|e|m] p']; cbn [fst]; [|by destruct Hr as (?&?&_)|done].
    destruct Hr as (g'&[= <-]&(Hg1&He1&_)&Hn1). assert (Heb : ∀ e, g_lastErr g1 = Some e → blames s0 e).
    { intros e Ee. destruct He1 as [E1|E1]; rewrite E1 in Ee; [by apply He|]. injection Ee as <-. exists name, server. split; [done|]. by eexists _, _, _, _. }
    apply Hrest; [done|done|intros Hh; by left|]. intros Hne. by destruct He1 as [->| ->].
Qed.
Lemma query_types_run network : ∃ qtypes, query_types network = Ok qtypes ∧ Forall (wanted network) qtypes ∧ qtypes ≠ [] ∧ len qtypes <= 3.
Proof.
  assert (Hv : ∃ v, ipVersion network = Ok v).
  { unfold ipVersion. destruct network as [|c t _] using rev_ind; [by eexists|]. destruct (beq _ _); [by eexists|]. rewrite at_last. by eexists. }
  destruct Hv as [v Hv]. unfold query_types. rewrite Hv. cbn [mbind res_bind]. eexists. split; [reflexivity|].
  destruct (v =? _); [by split; [apply Forall_singleton; left|]|]. destruct (v =? _); [by split; [apply Forall_singleton; right; left|]|].
  destruct (is_CNAME network) eqn:E; (split; [|done]); repeat (apply list.Forall_cons; split; [unfold wanted; auto|]); constructor.
Qed.
Lemma not_answered network g : answered network g = false → len (g_addrs g) <= 0.
Proof. unfold answered. rewrite Z.gtb_ltb. destruct (Z.ltb_spec 0 (len (g_addrs g))); [done|done]. Qed.
Lemma names_loop_runs name network s0 qtypes names : looking_ok s0 → Forall (wanted network) qtypes → qtypes ≠ [] → len qtypes <= 3 → Forall (asked s0 name) names → ∀ g s, asking s0 s → gathered_ok s0 name 0 g →
  runs (names_loop strictErrors names qtypes network name g) s (λ r s', asking s0 s' ∧ ∃ g', r = Some g' ∧ gathered_ok s0 name (65535 * 3) g' ∧ (names ≠ [] ∨ noted network g → noted network g')).
Proof.
  intros Hok Hw Hne Hlen Hn. induction Hn as [|fqdn names Hf Hn IH]; intros g s Hs Hg; cbn [names_loop].
  { unfold runs, mret, stateful_ret. split; [done|]. exists g. split; [done|]. split; [|by intros [?|?]]. destruct Hg as [B1 B2]. split; [by apply (holding_le _ 0)|done]. }
  apply runs_bind, the_config_runs. apply runs_bind.
  assert (Horder : ∀ s1 order, asking s0 s1 → order ≡ₚ qtypes → runs ('(g, hitStrictError) ← types_loop strictErrors order name fqdn g false;
      if (hitStrictError : bool) then mret (MkGathered [] (g_cname g) (g_lastErr g)) else if answered network g then mret g else names_loop strictErrors names qtypes network name g) s1
    (λ r s', asking s0 s' ∧ ∃ g', r = Some g' ∧ gathered_ok s0 name (65535 * 3) g' ∧ (fqdn :: names ≠ [] ∨ noted network g → noted network g'))).
  { intros s1 order Hs1 HP. apply runs_bind. eapply runs_mono; [apply (types_loop_runs name fqdn network s0 order Hok Hf); [by rewrite HP|done|done]|].
    intros r s2 (Hs2&[g1 hit]&->&Hg1&Hn1&Hh1&_). cbn [fst snd] in *. assert (Hnote : noted network g1).
    { apply Hn1. left. intros ->. by apply Permutation_nil in HP. }
    assert (Hl : len order <= 3) by (unfold len in *; by rewrite (Permutation_length HP)). destruct Hg1 as [B1 B2].
    destruct hit.
    - unfold runs, mret, stateful_ret. split; [done|]. eexists. split; [reflexivity|]. destruct (Hh1 eq_refl) as [[=]|He]. split; [|intros _; by left].
      split; [|done]. destruct B1 as (_&_&B3). split; [constructor|]. split; [by change (len _) with 0|done].
    - destruct (answered network g1) eqn:Ea.
      + unfold runs, mret, stateful_ret. split; [done|]. eexists. split; [reflexivity|]. split; [split; [apply (holding_le _ (0 + 65535 * len order)); [done|lia]|done]|]. intros _. by right.
      + eapply runs_mono; [apply (IH g1 s2 Hs2)|].
        { split; [|done]. destruct B1 as (B0&_&B3). split; [done|]. split; [by apply (not_answered network)|done]. }
        intros r s3 (Hs3&g'&->&Hg'&Hn'). split; [done|]. exists g'. split; [done|]. split; [done|]. intros _. apply Hn'. by right. }
  destruct (singleRequest _).
  - unfold runs at 1, mret, stateful_ret. by apply Horder.
  - apply with_client_runs, effect_runs. intros order w Ew. apply Horder.
    + destruct s as [[w0 cfg] h], Hs as [[Hs Hw0] Eh]. split; [|exact Eh]. split; [by apply (follows_world s0 w0)|]. eapply rtc_r; [exact Hw0|]. cbn [fst] in *. pose proof (moves_lane qtypes w0) as Hm. by rewrite Ew in Hm.
    + pose proof (lane_turns qtypes (fst (fst s))) as HP. by rewrite Ew in HP.
Qed.

(** *** Addresses *)
(** What is resolved: when the hosts file comes first and has addresses, those, and
    nobody is asked; else those of responses, or, when the hosts file comes last, of
    the hosts file as it is then; none only if the name of the host was found, or
    there was no name to ask for. *)
Definition files_first order : Prop := order = hostLookupFilesDNS ∨ order = hostLookupFiles.
Definition late order name s (addrs : list IPAddr) : Prop :=
  Forall (from_response s name) addrs ∨ order = hostLookupDNSFiles ∧ ∃ s1, asking s s1 ∧ from_hosts s1 name addrs.
Definition found network name s (r : list IPAddr * Name) s' : Prop :=
  follows s s' ∧ name_fits (snd r) ∧ (fst r ≠ [] ∨ is_CNAME network = true ∧ 0 < Length (snd r) ∨ names_to_try s name = []).
Definition resolved network name order s (r : list IPAddr * Name) s' : Prop :=
  found network name s r s' ∧
  (files_first order ∧ from_hosts s name (fst r) ∧ fst r ≠ [] ∧ fst s' = fst s ∨
   order ≠ hostLookupFiles ∧ (files_first order → silent s name) ∧ late order name s (fst r)).
(** An error about the name; errCalcLen is a name of the hosts file that is too
    long.  The hosts file has no address then, if it is looked at. *)
Definition failed name s (e : error) : Prop :=
  e = no_such_host name ∧ ¬ (name = "."%go ∨ domain_name name) ∨ ∃ server, server ∈ servers (conf_of s) ∧ lookup_error name server e.
Definition failed_late order name s (e : error) : Prop :=
  failed name s e ∧ (order = hostLookupDNSFiles → name = "."%go ∨ domain_name name → ∃ s1, asking s s1 ∧ silent s1 name) ∨
  order = hostLookupDNSFiles ∧ e = errCalcLen ∧ ∃ s1, asking s s1 ∧ ¬ silent s1 name.
Definition refused name order s (e : error) s' : Prop :=
  follows s s' ∧
  (files_first order ∧ e = errCalcLen ∧ ¬ silent s name ∧ fst s' = fst s ∨
   order = hostLookupFiles ∧ e = no_such_host name ∧ silent s name ∧ fst s' = fst s ∨
   order ≠ hostLookupFiles ∧ (files_first order → silent s name) ∧ failed_late order name s e).
Lemma with_name_blames s e name : blames s e → ∃ server, server ∈ servers (conf_of s) ∧ lookup_error name server (with_name name e).
Proof. intros (nm&server&Hs&t&to&tmp&nf&->). exists server. split; [done|]. by eexists _, _, _, _. Qed.
Lemma found_none network g addrs : addrs ≡ₚ g_addrs g → (len addrs =? 0) && negb (is_CNAME network && (Length (g_cname g) >? 0)) = negb (answered network g).
Proof.
  intros HP. unfold answered. assert (E : len addrs = len (g_addrs g)) by (unfold len; by rewrite (Permutation_length HP)). rewrite E. pose proof (len_nonneg (g_addrs g)).
  rewrite (Z.gtb_ltb (len (g_addrs g))). destruct (Z.eqb_spec (len (g_addrs g)) 0) as [->|]; [done|]. by rewrite (proj2 (Z.ltb_lt _ _)) by lia.
Qed.
Lemma found_some network g addrs : addrs ≡ₚ g_addrs g → answered network g = true → addrs ≠ [] ∨ is_CNAME network = true ∧ 0 < Length (g_cname g).
Proof.
  intros HP. unfold answered. rewrite !Z.gtb_ltb. destruct (Z.ltb_spec 0 (len (g_addrs g))) as [Hl|]; cbn [orb].
  - intros _. left. intros ->. apply Permutation_nil in HP. rewrite HP in Hl. by change (len []) with 0 in Hl.
  - intros [Hc Hl%Z.ltb_lt]%andb_true_iff. by right.
Qed.
Lemma from_dns_ends network name order s : looking_ok s → is_bytes name → ends (from_dns strictErrors network name order) s
  (λ r s', found network name s r s' ∧ late order name s (fst r)) (λ e s', follows s s' ∧ failed_late order name s e).
Proof.
  intros Hok Hb. unfold from_dns. apply ends_then. destruct (isDomainName_run name) as (b&Eb&Hdom). unfold ends at 1, lift. rewrite Eb. destruct b; cbn [negb].
  2: { assert (Hno : ¬ (name = "."%go ∨ domain_name name)) by (intros H'%Hdom; done). split; [done|]. left. split; [by left|by intros _ ?]. }
  apply ends_then, ends_runs, the_config_runs. exists (conf_of s). split; [done|]. apply ends_then. destruct (query_types_run network) as (qtypes&Eq&Hw&Hne&Hlen). unfold ends at 1, lift. rewrite Eq.
  apply ends_then. destruct (names_asked s name Hok Hb) as (names&En&Hn). unfold ends at 1, lift. rewrite En. apply ends_then, ends_runs.
  assert (Enames : names_to_try s name = names) by (pose proof En as En'; rewrite nameList_eq in En'; by injection En').
  assert (Hz : gathered_ok s name 0 (MkGathered [] zero_Name None)) by (split; [split; [constructor|split; [done|by exists []]]|done]).
  eapply runs_mono; [by apply (names_loop_runs name network s qtypes names Hok Hw Hne Hlen Hn _ s (asking_refl s Hok))|]. intros r s1 (Has1&g&->&[(Ha&Hl&Hc) He]&Hnote). exists g. split; [done|].
  pose proof (onward_follows _ _ (proj1 Has1)) as Hs1. apply ends_then, ends_runs, sorted_runs; [lia|eapply list.Forall_impl; [exact Ha|by intros a []]|]. intros addrs HP. exists addrs. split; [done|]. rewrite (found_none _ _ _ HP).
  assert (Hfa : Forall (from_response s name) addrs) by (by rewrite HP).
  destruct (answered network g) eqn:Ean; cbn [negb].
  { unfold ends, mret, stateful_ret. split; [|by left]. split; [done|]. split; [done|]. destruct (found_some _ _ _ HP Ean); [by left|by right; left]. }
  assert (Hlast : ∀ s', follows s s' → (order = hostLookupDNSFiles → ∃ s1, asking s s1 ∧ silent s1 name) → ends (match match g_lastErr g with Some err => Some (with_name name err) | None => None end with Some err => fail err | None => mret (addrs, g_cname g) end) s'
    (λ r s', found network name s r s' ∧ late order name s (fst r)) (λ e s', follows s s' ∧ failed_late order name s e)).
  { intros s' Hs' Hsil. destruct (g_lastErr g) as [e|] eqn:El; unfold ends, fail, mret, stateful_ret.
    - split; [done|]. left. split; [right; by apply with_name_blames, He|by intros Ho _; apply Hsil].
    - split; [|by left]. split; [done|]. split; [done|]. right. right. rewrite Enames. destruct names as [|x names]; [done|]. destruct (Hnote ltac:(by left)) as [Hx|Hx]; [by rewrite El in Hx|by rewrite Ean in Hx]. }
  apply ends_then. destruct (decide (order = hostLookupDNSFiles)) as [Eo|Eo].
  - eapply ends_mono; [by apply from_files_ends, Hs1| |].
    + intros [[addrs' cname]|] s2 (Hs2&_&Hr); [|apply Hlast; [by apply (follows_trans s s1)|intros _; by exists s1]]. destruct Hr as (Hne'&Hh&Hf). unfold ends, mret, stateful_ret.
      split; [|right; split; [done|by exists s1]]. split; [by apply (follows_trans s s1)|]. split; [done|by left].
    + intros e s2 (Hs2&_&->&Hnot). split; [by apply (follows_trans s s1)|]. right. split; [done|]. split; [done|]. by exists s1.
  - unfold ends at 1, mret, stateful_ret. by apply Hlast.
Qed.
Lemma follows_search s s' name : follows s s' → names_to_try s' name = names_to_try s name.
Proof. intros (_&_&E2&E3). unfold names_to_try, candidates. by rewrite E2, E3. Qed.
Lemma onward_response s s' name a : onward s s' → from_response s' name a → from_response s name a.
Proof.
  intros Hs (B1&B2&fqdn&n&qtype&server&p&Hfq&En&Hsv&Hh&Hr). pose proof (onward_follows _ _ Hs) as Hf. split; [done|]. split; [done|]. exists fqdn, n, qtype, server, p.
  split; [by apply (follows_asked_back s s')|]. split; [done|]. split; [by destruct Hf as (_&<-&_)|]. split; [by apply (onward_heard s s')|done].
Qed.
(** Looking at the hosts file first leaves what is asked as it is. *)
Lemma late_back order name s s1 addrs : follows s s1 → fst s1 = fst s → (order = hostLookupDNSFiles → s1 = s) → late order name s1 addrs → late order name s addrs.
Proof.
  intros Hs1 Ew Ho [Ha|[Eo Ha]]; [left|by rewrite (Ho Eo) in Ha; right]. eapply list.Forall_impl; [exact Ha|]. intros a. apply onward_response. by apply onward_same.
Qed.
Lemma failed_back order name s s1 e : follows s s1 → (order = hostLookupDNSFiles → s1 = s) → failed_late order name s1 e → failed_late order name s e.
Proof.
  intros (_&Es&_) Ho [[Hf Hd]|[Eo He]]; [left|by rewrite (Ho Eo) in He; right]. split; [destruct Hf as [Hf|Hf]; [by left|right; by rewrite <- Es]|]. intros Eo Hn. rewrite (Ho Eo) in Hd. by apply Hd.
Qed.
Lemma order_ends network name order s : looking_ok s → is_bytes name → ends (goLookupIPCNAMEOrder strictErrors network name order) s (resolved network name order s) (refused name order s).
Proof.
  intros Hok Hb. unfold goLookupIPCNAMEOrder. apply ends_then.
  assert (Hrest : ∀ s1, follows s s1 → fst s1 = fst s → (order = hostLookupDNSFiles → s1 = s) → (files_first order → silent s name) →
    ends (if bool_decide (order = hostLookupFiles) then fail (no_such_host name) else from_dns strictErrors network name order) s1 (resolved network name order s) (refused name order s)).
  { intros s1 Hs1 Ew Ho Hsil. destruct (bool_decide_reflect (order = hostLookupFiles)) as [Eo|Eo]; [unfold ends, fail; split; [done|]; right; left; split_and!; try done; by apply Hsil; right|].
    eapply ends_mono; [by apply (from_dns_ends network name order s1); [apply Hs1|]| |].
    - intros r s2 [(Hs2&Hf&Hr) Hl]. rewrite (follows_search s s1) in Hr by done. split; [split; [by apply (follows_trans s s1)|done]|]. right. split; [done|]. split; [done|]. by apply (late_back _ _ s s1).
    - intros e s2 [Hs2 He]. split; [by apply (follows_trans s s1)|]. right. right. split; [done|]. split; [done|]. by apply (failed_back _ _ s s1). }
  destruct (bool_decide (order = hostLookupFilesDNS) || bool_decide (order = hostLookupFiles)) eqn:Ef.
  - assert (Hfirst : files_first order) by (apply orb_true_iff in Ef as [Ef%bool_decide_eq_true|Ef%bool_decide_eq_true]; [by left|by right]).
    assert (Hd : order ≠ hostLookupDNSFiles) by (by destruct Hfirst as [->| ->]). eapply ends_mono; [by apply from_files_ends| |].
    + intros [[addrs cname]|] s1 (Hs1&Ew&Hr); [|by apply Hrest]. destruct Hr as (Hne&Hh&Hf). unfold ends, mret, stateful_ret. split; [split; [done|]; split; [done|by left]|]. by left.
    + intros e s1 (Hs1&Ew&->&Hnot). split; [done|]. by left.
  - unfold ends at 1, mret, stateful_ret. apply Hrest; [by apply follows_refl|done|done|]. intros [->| ->]; discriminate Ef.
Qed.

(** C23: over any network, and whatever the configuration was read as, a lookup
    ends without a panic.  A name that is no domain name is an error and nobody is
    asked.  For another the names of the search path are tried in its order, one
    after the other: a name that is found ends the lookup, a temporary error does
    if errors are strict, and else the last outcome counts.  What is returned is a
    parser at a record of the type, in a response to a request for one of these
    names that was sent to a configured server; only where the search path has no
    name to ask for, which is so under ".onion", it is the parser of no message,
    with no error.  An error says the name that was looked up and a server. *)
Theorem lookup_spec name qtype s : looking_ok s → is_bytes name → ∃ r s', lookup strictErrors name qtype s = (r, s') ∧ onward s s' ∧
  (¬ (name = "."%go ∨ domain_name name) ∧ r = Err (no_such_host name) ∧ s' = s ∨
   (name = "."%go ∨ domain_name name) ∧ ∃ p server err, searched qtype (names_to_try s name) (zero_Parser, [], None) s (p, server, err) s' ∧
     match err with
     | None => r = Ok (p, server) ∧ (names_to_try s name = [] ∧ p = zero_Parser ∧ server = [] ∨ found_for s name qtype p server)
     | Some e => r = Err (with_name name e) ∧ ∃ server, server ∈ servers (conf_of s) ∧ lookup_error name server (with_name name e)
     end).
Proof. apply lookup_run. Qed.
(** C21: looking up the addresses of a host ends without a panic, whatever the
    network, the servers, the hosts file and the order in which queries are
    answered.  When the hosts file comes first and it, or the cache that is good
    for it, has addresses for the name, those are returned and nobody is asked.
    Else every address returned is in an answer of a response that arrived, since
    the call, to a request for one of the names of the search path that was sent
    to a configured server; or, when the hosts file comes last, all are those that
    it has then.  There is at least one, unless the name of the host was asked for
    and found or the search path had no name to ask for.  Otherwise there is an
    error: about the name and a server, or, with nobody asked, about a name that
    is no domain name or for which only the hosts file was looked at; or that the
    name that the hosts file has is too long. *)
Theorem goLookupIP_spec network name order s : looking_ok s → is_bytes name →
  ends (goLookupIPCNAMEOrder strictErrors network name order) s (resolved network name order s) (refused name order s).
Proof. apply order_ends. Qed.
End lookups.

(** ** An example *)
(** The mailbox with a hosts file. *)
#[global] Instance mailbox_Host : Host mailbox memory := {
  hosts_world _ := hosts_sample; srcAddrs _ := map (λ _, zeroAddr); lane qtypes w := (qtypes, w) }.
#[global] Instance mailbox_host_laws : HostLaws mailbox memory.
Proof.
  constructor.
  - intros w r. change (hosts_world w) with hosts_sample. intros [= <-]. apply Nat.ltb_lt. vm_compute. reflexivity.
  - intros w r. change (hosts_world w) with hosts_sample. intros [= <-]. vm_compute. reflexivity.
  - intros w l. by apply length_map.
  - intros w l. cbn. induction l; constructor; [done|done].
  - done.
Qed.
Definition go_dev_state : mailbox * dnsConfig * hosts := (go_dev_mail, two_servers, no_hosts).
Lemma go_dev_ok : looking_ok go_dev_state.
Proof. constructor; [apply two_servers_usable|constructor|]. exists nothing_known. split; [apply no_hosts_represents|done]. Qed.
Lemma go_dev_bytes : is_bytes go_dev.
Proof. unfold go_dev. cbn. repeat (apply list.Forall_cons; split; [unfold is_u8; lia|]). constructor. Qed.
Lemma lookup_spec_witness : (∃ r s', lookup false go_dev TypeA go_dev_state = (r, s') ∧ onward go_dev_state s' ∧
  (¬ (go_dev = "."%go ∨ domain_name go_dev) ∧ r = Err (no_such_host go_dev) ∧ s' = go_dev_state ∨
   (go_dev = "."%go ∨ domain_name go_dev) ∧ ∃ p server err, searched false TypeA (names_to_try go_dev_state go_dev) (zero_Parser, [], None) go_dev_state (p, server, err) s' ∧
     match err with
     | None => r = Ok (p, server) ∧ (names_to_try go_dev_state go_dev = [] ∧ p = zero_Parser ∧ server = [] ∨ found_for go_dev_state go_dev TypeA p server)
     | Some e => r = Err (with_name go_dev e) ∧ ∃ server, server ∈ servers (conf_of go_dev_state) ∧ lookup_error go_dev server (with_name go_dev e)
     end)) ∧
  match lookup false go_dev TypeA go_dev_state with (Ok (p, server), _) => (p_section p, p_index p, server) = (sectionAnswers, 0, "192.0.2.53:53"%go) | _ => False end.
Proof. split; [|vm_compute; reflexivity]. apply (lookup_spec false go_dev TypeA go_dev_state go_dev_ok go_dev_bytes). Defined.
Lemma goLookupIP_spec_witness :
  ends (goLookupIPCNAMEOrder false "ip4"%go go_dev hostLookupDNSFiles) go_dev_state (resolved "ip4"%go go_dev hostLookupDNSFiles go_dev_state) (refused go_dev hostLookupDNSFiles go_dev_state) ∧
  (match goLookupIPCNAMEOrder false "ip4"%go go_dev hostLookupDNSFiles go_dev_state with (Ok (addrs, cname), _) => map IP addrs = [[192; 0; 2; 1]] ∧ Name_String cname = Ok go_dev | _ => False end) ∧
  match goLookupIPCNAMEOrder false "ip4"%go "WWW"%go hostLookupFiles go_dev_state with (Ok (addrs, cname), _) => map IP addrs = [IPv4 192 0 2 1] ∧ Name_String cname = Ok "www.example."%go | _ => False end.
Proof. split; [|split; vm_compute; by split]. apply (goLookupIP_spec (R := memory) false "ip4"%go go_dev hostLookupDNSFiles go_dev_state go_dev_ok go_dev_bytes). Defined.
(** A name under ".onion" is not asked for, and the error says that a message
    could not be read although none was received. *)
Lemma onion_not_received : fst (goLookupNS false "x.onion"%go go_dev_state) = Err (bad_message "x.onion"%go []).
Proof. vm_compute. reflexivity. Qed.
