(* ===== verification/Ports.v ===== *)
(** * package net: ports and protocols by their names (lookup.go, lookup_unix.go, port_unix.go)

    The variables services and protocols, which begin with what the source lists
    and are added to, once, from /etc/services and /etc/protocols; and the
    lookups in them.  The opened files and the C library's answer are arguments. *)
From stdpp Require Import gmap.
From S2P Require Import Prelude Stateful Strconv NetipText NetHost NetFile DnsNames DnsConfig NssConf.

Abbreviation numbers := (gmap bytes Z).
Record directory : Set := MkDirectory { services : gmap bytes numbers; protocols : numbers; onceReadServices : bool; onceReadProtocols : bool }.
Definition set_services (s : gmap bytes numbers) (d : directory) : directory := MkDirectory s (protocols d) true (onceReadProtocols d).
Definition set_protocols (p : numbers) (d : directory) : directory := MkDirectory (services d) p (onceReadServices d) true.
Definition protocols_listed : numbers := list_to_map [("icmp"%go, 1); ("igmp"%go, 2); ("tcp"%go, 6); ("udp"%go, 17); ("ipv6-icmp"%go, 58)].
Definition tcp_listed : numbers := list_to_map [
  ("ftp"%go, 21); ("ftps"%go, 990); ("gopher"%go, 70); ("http"%go, 80); ("https"%go, 443); ("imap2"%go, 143); ("imap3"%go, 220); ("imaps"%go, 993);
  ("pop3"%go, 110); ("pop3s"%go, 995); ("smtp"%go, 25); ("submissions"%go, 465); ("ssh"%go, 22); ("telnet"%go, 23)].
Definition services_listed : gmap bytes numbers := list_to_map [("udp"%go, list_to_map [("domain"%go, 53)]); ("tcp"%go, tcp_listed)].
Definition directory_listed : directory := MkDirectory services_listed protocols_listed false false.

(** ** Reading the files *)
(** What comes before a comment, in fields. *)
Definition line_fields (line : bytes) : res (list bytes) :=
  let i := IndexByteString line "#"%byte in
  line ← (if i >=? 0 then upto line i else Ok line);
  getFields line.
(** [f[1]] was the port and network. *)
Fixpoint service_names (f : list bytes) (i port : Z) (m : numbers) : numbers :=
  match f with
  | [] => m
  | x :: f => service_names f (i + 1) port (if negb (i =? 1) then <[x := port]> m else m)
  end.
Definition service_line (line : bytes) (svcs : gmap bytes numbers) : res (gmap bytes numbers * bool) :=
  f ← line_fields line;
  if len f <? 2 then Ok (svcs, true)
  else
    portnet ← at_ f 1;
    let '(port, j, ok) := dtoi portnet in
    if negb ok || (port <=? 0) || (j >=? len portnet) then Ok (svcs, true)
    else
      c ← at_ portnet j;
      if negb (c =? "/"%byte) then Ok (svcs, true)
      else
        netw ← from portnet (j + 1);
        let m := default ∅ (svcs !! netw) in
        Ok (<[netw := service_names f 0 port m]> svcs, true).
(** Names that are there already keep their number. *)
Definition add_protocol (proto : Z) (m : numbers) (name : bytes) : numbers :=
  match m !! name with Some _ => m | None => <[name := proto]> m end.
Definition protocol_line (line : bytes) (m : numbers) : res (numbers * bool) :=
  f ← line_fields line;
  if len f <? 2 then Ok (m, true)
  else
    f1 ← at_ f 1;
    let '(proto, _, ok) := dtoi f1 in
    if ok then
      f0 ← at_ f 0;
      aliases ← from f 2;
      Ok (foldl (add_protocol proto) (add_protocol proto m f0) aliases, true)
    else Ok (m, true).

(** ** Looking up *)
Definition maxProtoLength : Z := len "RSVP-E2E-IGNORE"%go + 10.
Definition maxPortBufSize : Z := len "mobility-header"%go + 10.
(** The name in lower case, as much as fits the buffer. *)
Definition lower_buffer (size : Z) (name : bytes) : bytes := lowerASCIIBytes (take (Z.to_nat size) name).
Definition lookupProtocolMap (m : numbers) (name : bytes) : res Z :=
  let lower := lower_buffer maxProtoLength name in
  match m !! lower with
  | Some proto => if negb (len lower =? len name) then Err (AddrError "unknown IP protocol specified"%go name) else Ok proto
  | None => Err (AddrError "unknown IP protocol specified"%go name)
  end.
Definition port_error (text errNetwork service : bytes) (found : bool) : error :=
  DNSError text (errNetwork ++ "/"%go ++ service) [] false false found.
Definition lookupPortMapWithNetwork (svcs : gmap bytes numbers) (network errNetwork service : bytes) : res Z :=
  match svcs !! network with
  | Some m =>
      let lower := lower_buffer maxPortBufSize service in
      match m !! lower with
      | Some port => if len lower =? len service then Ok port else Err (port_error "unknown port"%go errNetwork service true)
      | None => Err (port_error "unknown port"%go errNetwork service true)
      end
  | None => Err (port_error "unknown network"%go errNetwork service false)
  end.
Definition one_of (l : list bytes) (network : bytes) : bool := existsb (beq network) l.
Definition lookupPortMap (svcs : gmap bytes numbers) (network service : bytes) : res Z :=
  if beq network "ip"%go then
    match lookupPortMapWithNetwork svcs "tcp"%go "ip"%go service with
    | Ok p => Ok p
    | _ => lookupPortMapWithNetwork svcs "udp"%go "ip"%go service
    end
  else if one_of ["tcp"%go; "tcp4"%go; "tcp6"%go] network then lookupPortMapWithNetwork svcs "tcp"%go "tcp"%go service
  else if one_of ["udp"%go; "udp4"%go; "udp6"%go] network then lookupPortMapWithNetwork svcs "udp"%go "udp"%go service
  else Err (port_error "unknown network"%go network service false).
Section read.
Context {R : Type} `{Reader R} (etc_services etc_protocols : R + error) (fuel : nat).
Definition directed (A : Type) : Type := stateful directory A.
Definition readServices (svcs : gmap bytes numbers) : res (gmap bytes numbers) :=
  match etc_services with inr _ => Ok svcs | inl r => each_line fuel service_line (open_file r) svcs end.
Definition readProtocols (m : numbers) : res numbers :=
  match etc_protocols with inr _ => Ok m | inl r => each_line fuel protocol_line (open_file r) m end.
Definition lookupProtocol (name : bytes) : directed Z :=
  d ← get;
  _ ← (if onceReadProtocols d then mret tt else m ← lift (readProtocols (protocols d)); modify (set_protocols m));
  d ← get;
  lift (lookupProtocolMap (protocols d) name).
Definition goLookupPort (network service : bytes) : directed Z :=
  d ← get;
  _ ← (if onceReadServices d then mret tt else s ← lift (readServices (services d)); modify (set_services s));
  d ← get;
  lift (lookupPortMap (services d) network service).
Context (mustUseGo : bool) (cgoLookupPort : bytes → bytes → Z + error).
Definition lookupPort (network service : bytes) : directed Z :=
  if negb mustUseGo then
    match cgoLookupPort network service with
    | inl port => mret port
    | inr err =>
        r ← attempt (goLookupPort network service);
        match r with inl port => mret port | inr _ => fail err end
    end
  else goLookupPort network service.
Definition LookupPort (network service : bytes) : directed Z :=
  let '(port, needsLookup) := parsePort service in
  port ← (if needsLookup then
            if one_of ["tcp"%go; "tcp4"%go; "tcp6"%go; "udp"%go; "udp4"%go; "udp6"%go; "ip"%go] network then lookupPort network service
            else if beq network [] then lookupPort "ip"%go service
            else fail (AddrError "unknown network"%go network)
          else mret port);
  if (0 >? port) || (port >? 65535) then fail (AddrError "invalid port"%go service) else mret port.
End read.
