(* ===== verification/PortsProps.v ===== *)
(** * package net: ports and protocols, properties

    The numbers a lookup finds are those of the last line of the file that has
    the name, or the first for a protocol, and otherwise the listed ones. *)
From stdpp Require Import gmap.
From S2P Require Import Prelude Stateful Strconv NetipText NetHost NetHostProps DnsConfigProps NetFile NetFileProps DnsNames DnsConfig HostsFileProps Ports.

(** ** What a file says *)
(** A name with its number; for a service, of a network. *)
Abbreviation service_entry := (bytes * bytes * Z)%type.
Definition line_services (line : bytes) : list service_entry :=
  match fields blank (uncomment line) with
  | f0 :: portnet :: names =>
      let '(port, j, ok) := dtoi portnet in
      match drop (Z.to_nat j) portnet with
      | c :: netw => if ok && (0 <? port) && (c =? "/"%byte) then map (λ n, (netw, n, port)) (f0 :: names) else []
      | [] => []
      end
  | _ => []
  end.
Definition file_services (text : bytes) : list service_entry := concat (map line_services (fitting (text_lines text))).
Definition line_protocols (line : bytes) : list (bytes * Z) :=
  match fields blank (uncomment line) with
  | f0 :: number :: aliases => let '(proto, _, ok) := dtoi number in if ok then map (λ n, (n, proto)) (f0 :: aliases) else []
  | _ => []
  end.
Definition file_protocols (text : bytes) : list (bytes * Z) := concat (map line_protocols (fitting (text_lines text))).
(** The port of a name on a network: the last entry's. *)
Definition port_in (L : list service_entry) (netw name : bytes) : option Z :=
  list.last (map snd (filter (λ e, fst e = (netw, name)) L)).
Definition number_in (L : list (bytes * Z)) (name : bytes) : option Z := head (map snd (filter (λ e, fst e = name) L)).
Definition service_of (svcs : gmap bytes numbers) (netw name : bytes) : option Z := m ← svcs !! netw; m !! name.

Lemma line_fields_run line : line_fields line = Ok (fields blank (uncomment line)).
Proof.
  unfold line_fields. cbn zeta.
  assert (Hu : (if IndexByteString line "#"%byte >=? 0 then upto line (IndexByteString line "#"%byte) else Ok line) = Ok (uncomment line)).
  { unfold uncomment. destruct (index_split line "#"%byte) as [[-> _]|(a&b&E&_&->)]; [done|]. pose proof (len_nonneg a). rewrite (proj2 (Z.geb_le _ _)) by lia.
    rewrite E. rewrite upto_app by done. f_equal. unfold len. by rewrite Nat2Z.id, take_app_length. }
  rewrite Hu. cbn [mbind res_bind]. apply getFields_fields.
Qed.
(** ** Services *)
Lemma port_in_app L1 L2 netw name : port_in (L1 ++ L2) netw name = match port_in L2 netw name with Some p => Some p | None => port_in L1 netw name end.
Proof.
  unfold port_in. rewrite list.filter_app, map_app, last_app. reflexivity.
Qed.
Definition holds_services (base : gmap bytes numbers) (L : list service_entry) (svcs : gmap bytes numbers) : Prop :=
  ∀ netw name, service_of svcs netw name = match port_in L netw name with Some p => Some p | None => service_of base netw name end.
Lemma service_insert svcs netw m k name : service_of (<[netw := m]> svcs) k name = if decide (k = netw) then m !! name else service_of svcs k name.
Proof. unfold service_of. destruct (decide (k = netw)) as [->|Hk]; [by rewrite lookup_insert_eq|by rewrite lookup_insert_ne by congruence]. Qed.
Lemma service_names_run netw port f : ∀ i m name, 1 < i → service_names f i port m !! name = match port_in (map (λ n, (netw, n, port)) f) netw name with Some p => Some p | None => m !! name end.
Proof.
  induction f as [|x f IH]; intros i m name Hi; cbn [service_names map]; [done|]. rewrite (proj2 (Z.eqb_neq i 1)) by lia. cbn [negb]. rewrite IH by lia.
  change ((netw, x, port) :: map (λ n, (netw, n, port)) f) with ([(netw, x, port)] ++ map (λ n, (netw, n, port)) f). rewrite port_in_app. destruct (port_in _ netw name); [done|].
  unfold port_in at 1. destruct (decide (x = name)) as [->|Hx].
  - rewrite (filter_cons_True _ _ []) by done. rewrite filter_nil. cbn. apply lookup_insert_eq.
  - rewrite (filter_cons_False _ _ []) by (cbn; congruence). rewrite filter_nil. cbn. by apply lookup_insert_ne.
Qed.
Lemma dtoi_loop_index s : ∀ n i, 0 <= i → 0 <= snd (fst (dtoi_loop s n i)) <= i + len s.
Proof.
  induction s as [|c s IH]; intros n i Hi; cbn [dtoi_loop].
  - change (len (@nil Z)) with 0. destruct (i =? 0); cbn; lia.
  - rewrite len_cons. pose proof (len_nonneg s). destruct (_ && _); [|destruct (i =? 0); cbn; lia]. destruct (_ >=? big); [cbn; lia|]. specialize (IH (n * 10 + (c - "0"%byte)) (i + 1)). lia.
Qed.
Lemma at_drop (l : bytes) j : 0 <= j < len l → ∃ c rest, drop (Z.to_nat j) l = c :: rest ∧ at_ l j = Ok c ∧ from l (j + 1) = Ok rest.
Proof.
  intros Hj. assert (El : len (take (Z.to_nat j) l) = j) by (unfold len in *; rewrite length_take; lia). pose proof (take_drop (Z.to_nat j) l) as E.
  destruct (drop (Z.to_nat j) l) as [|c rest]; [rewrite app_nil_r in E; rewrite E in El; lia|]. exists c, rest. split; [done|]. set (a := take _ l) in *. rewrite <- E, <- El.
  split; [apply at_app_len|]. rewrite cons_middle, app_assoc. apply from_app. by rewrite len_app.
Qed.
Lemma service_line_run base L line svcs : holds_services base L svcs → ∃ svcs', service_line line svcs = Ok (svcs', true) ∧ holds_services base (L ++ line_services line) svcs'.
Proof.
  intros Hh. unfold service_line, line_services. rewrite line_fields_run. cbn [mbind res_bind]. assert (Hskip : holds_services base (L ++ []) svcs) by by rewrite app_nil_r.
  destruct (fields blank (uncomment line)) as [|f0 [|portnet names]]; [by eexists..|]. rewrite !len_cons. pose proof (len_nonneg names). rewrite (proj2 (Z.ltb_ge _ 2)) by lia.
  change (at_ (f0 :: portnet :: names) 1) with (Ok portnet). cbn [mbind res_bind]. pose proof (dtoi_loop_index portnet 0 0 ltac:(done)) as Hj. unfold dtoi. destruct (dtoi_loop portnet 0 0) as [[port j] ok]. cbn [fst snd] in Hj.
  destruct (Z.geb_spec j (len portnet)) as [Hge|Hlt].
  { rewrite !orb_true_r. rewrite drop_ge by (unfold len in Hge; lia). by eexists. }
  destruct (at_drop portnet j) as (c&netw&->&Ec&Er); [lia|]. rewrite orb_false_r. destruct ok; cbn [negb orb andb]; [|by eexists].
  destruct (Z.leb_spec port 0); [rewrite (proj2 (Z.ltb_ge 0 port)) by lia; by eexists|]. rewrite (proj2 (Z.ltb_lt 0 port)) by lia. rewrite Ec. cbn [mbind res_bind andb].
  destruct (c =? "/"%byte); cbn [negb]; [|by eexists]. rewrite Er. cbn [mbind res_bind]. eexists. split; [reflexivity|]. intros k name. rewrite service_insert, port_in_app.
  set (E := map (λ n, (netw, n, port)) (f0 :: names)). destruct (decide (k = netw)) as [->|Hk].
  - cbn [service_names]. change (0 =? 1) with false. change (0 + 1) with 1. change (1 =? 1) with true. change (1 + 1) with 2. cbn [negb]. rewrite (service_names_run netw) by lia.
    unfold E. cbn [map]. change ((netw, f0, port) :: map (λ n, (netw, n, port)) names) with ([(netw, f0, port)] ++ map (λ n, (netw, n, port)) names). rewrite port_in_app.
    destruct (port_in _ netw name); [done|]. unfold port_in at 1. destruct (decide (f0 = name)) as [->|Hx].
    + rewrite (filter_cons_True _ _ []) by done. rewrite filter_nil. cbn. apply lookup_insert_eq.
    + rewrite (filter_cons_False _ _ []) by (cbn; congruence). rewrite filter_nil. cbn [map list.last]. rewrite lookup_insert_ne by done. rewrite <- Hh. unfold service_of. by destruct (svcs !! netw).
  - assert (En : port_in E k name = None); [|by rewrite En]. unfold port_in. assert (Ef : filter (λ e, fst e = (k, name)) E = []); [|by rewrite Ef].
    unfold E. clear -Hk. induction (f0 :: names) as [|x l IH]; [done|]. cbn [map]. rewrite filter_cons_False; [done|]. cbn. congruence.
Qed.
Lemma service_lines base ls : ∀ L svcs, holds_services base L svcs → ∃ svcs', over_lines service_line ls svcs = Ok svcs' ∧ holds_services base (L ++ concat (map line_services ls)) svcs'.
Proof.
  induction ls as [|line ls IH]; intros L svcs Hh; cbn [over_lines map concat]; [exists svcs; by rewrite app_nil_r|].
  destruct (service_line_run base L line svcs Hh) as (s1&->&Hh1). cbn [mbind res_bind]. destruct (IH _ s1 Hh1) as (s2&->&Hh2). exists s2. split; [done|]. by rewrite <- app_assoc in Hh2.
Qed.

(** ** Protocols *)
Definition holds_protocols (base : numbers) (L : list (bytes * Z)) (m : numbers) : Prop :=
  ∀ name, m !! name = match base !! name with Some p => Some p | None => number_in L name end.
Lemma number_in_snoc L n p name : number_in (L ++ [(n, p)]) name = match number_in L name with Some q => Some q | None => if decide (n = name) then Some p else None end.
Proof.
  unfold number_in. rewrite list.filter_app, map_app. destruct (decide (n = name)) as [->|Hn].
  - rewrite (filter_cons_True _ _ []) by done. rewrite filter_nil. by destruct (map snd (filter _ L)).
  - rewrite (filter_cons_False _ _ []) by done. rewrite filter_nil, app_nil_r. by destruct (map snd (filter _ L)).
Qed.
Lemma add_protocol_holds base L m n p : holds_protocols base L m → holds_protocols base (L ++ [(n, p)]) (add_protocol p m n).
Proof.
  intros Hh name. rewrite number_in_snoc. unfold add_protocol. destruct (m !! n) as [q|] eqn:En; destruct (decide (n = name)) as [<-|Hn].
  - rewrite En. rewrite Hh in En. destruct (base !! n); [done|]. by rewrite En.
  - rewrite Hh. destruct (base !! name); [done|]. by destruct (number_in L name).
  - rewrite lookup_insert_eq. rewrite Hh in En. destruct (base !! n); [done|]. by rewrite En.
  - rewrite lookup_insert_ne by done. rewrite Hh. destruct (base !! name); [done|]. by destruct (number_in L name).
Qed.
Lemma add_protocols_hold base p l : ∀ L m, holds_protocols base L m → holds_protocols base (L ++ map (λ n, (n, p)) l) (foldl (add_protocol p) m l).
Proof.
  induction l as [|n l IH]; intros L m Hh; cbn [foldl map]; [by rewrite app_nil_r|]. rewrite cons_middle, app_assoc. by apply IH, add_protocol_holds.
Qed.
Lemma protocol_lines base ls : ∀ L m, holds_protocols base L m → ∃ m', over_lines protocol_line ls m = Ok m' ∧ holds_protocols base (L ++ concat (map line_protocols ls)) m'.
Proof.
  induction ls as [|line ls IH]; intros L m Hh; cbn [over_lines map concat]; [exists m; by rewrite app_nil_r|].
  assert (Hl : ∃ m', protocol_line line m = Ok (m', true) ∧ holds_protocols base (L ++ line_protocols line) m').
  { unfold protocol_line, line_protocols. rewrite line_fields_run. cbn [mbind res_bind]. assert (Hskip : holds_protocols base (L ++ []) m) by by rewrite app_nil_r.
    destruct (fields blank (uncomment line)) as [|f0 [|number aliases]]; [by eexists..|]. rewrite !len_cons. pose proof (len_nonneg aliases). rewrite (proj2 (Z.ltb_ge _ 2)) by lia.
    change (at_ (f0 :: number :: aliases) 1) with (Ok number). cbn [mbind res_bind]. destruct (dtoi number) as [[p j] ok]. destruct ok; [|by eexists].
    change (at_ (f0 :: number :: aliases) 0) with (Ok f0). change (f0 :: number :: aliases) with ([f0; number] ++ aliases). rewrite from_app by done. cbn [mbind res_bind].
    eexists. split; [reflexivity|]. cbn [map]. rewrite cons_middle, app_assoc. by apply add_protocols_hold, add_protocol_holds. }
  destruct Hl as (m1&->&Hh1). cbn [mbind res_bind]. destruct (IH _ m1 Hh1) as (m2&->&Hh2). exists m2. split; [done|]. by rewrite <- app_assoc in Hh2.
Qed.

(** ** Ports that are numbers *)
Definition digit (c : Z) : Prop := "0"%byte <= c <= "9"%byte.
Definition value_from (n : Z) (s : bytes) : Z := foldl (λ n c, n * 10 + (c - "0"%byte)) n s.
Lemma value_grows s : ∀ n, 0 <= n → Forall digit s → n <= value_from n s.
Proof.
  induction s as [|c s IH]; intros n Hn Hs; cbn [value_from foldl]; [lia|]. apply list.Forall_cons in Hs as [Hc Hs]. unfold digit in Hc. specialize (IH (n * 10 + (c - "0"%byte)) ltac:(lia) Hs).
  unfold value_from in *. lia.
Qed.
(** Below 2^32 the loop is exact, or stops with the largest number once past 2^30. *)
Lemma port_loop_exact s : ∀ n, 0 <= n → Forall digit s → value_from n s < 2 ^ 32 →
  ∃ p, port_loop s n = Some p ∧ (p = value_from n s ∨ port_cutoff <= p ∧ port_cutoff <= value_from n s).
Proof.
  induction s as [|c s IH]; intros n Hn Hs Hv; cbn [port_loop]; [exists n; split; [done|by left]|]. apply list.Forall_cons in Hs as [Hc Hs]. unfold digit in Hc.
  change (value_from n (c :: s)) with (value_from (n * 10 + (c - "0"%byte)) s) in *. pose proof (value_grows s (n * 10 + (c - "0"%byte)) ltac:(lia) Hs) as Hg.
  rewrite (proj2 (Z.leb_le "0"%byte c)), (proj2 (Z.leb_le c "9"%byte)) by lia. cbn [andb]. rewrite Z.geb_leb. destruct (Z.leb_spec port_cutoff n) as [Hle|Hgt].
  - exists port_max. split; [done|]. right. unfold port_cutoff, port_max in *. lia.
  - assert (Eu : u32 (n * 10) = n * 10) by (unfold u32; rewrite Z.mod_small; lia). rewrite Eu. assert (Eu2 : u32 (n * 10 + (c - "0"%byte)) = n * 10 + (c - "0"%byte)) by (unfold u32; rewrite Z.mod_small; lia).
    rewrite Eu2. rewrite (proj2 (Z.ltb_ge _ _)), Z.gtb_ltb, (proj2 (Z.ltb_ge _ _)) by (unfold port_max; lia). cbn [orb]. apply IH; [lia|done|done].
Qed.
(** From 2^32 on the product may wrap around to a port. *)
Lemma port_wraps : parsePort "4294967376"%go = (80, false).
Proof. vm_compute. reflexivity. Qed.
Lemma parsePort_digits s : s ≠ [] → Forall digit s → value_from 0 s < 2 ^ 32 → ∃ p, parsePort s = (p, false) ∧ (value_from 0 s <= 65535 ∧ p = value_from 0 s ∨ 65535 < value_from 0 s ∧ 65535 < p).
Proof.
  intros Hne Hs Hv. destruct (port_loop_exact s 0 ltac:(lia) Hs Hv) as (n&E&Hn). unfold parsePort. destruct s as [|c s]; [done|]. assert (Hc : digit c) by (by apply list.Forall_cons in Hs as [Hc _]). unfold digit in Hc.
  rewrite (proj2 (Z.eqb_neq c "+"%byte)), (proj2 (Z.eqb_neq c "-"%byte)) by lia. rewrite E. cbn [negb andb]. eexists. split; [reflexivity|]. rewrite Z.geb_leb. unfold port_cutoff in *. destruct (Z.leb_spec (2 ^ 30) n); lia.
Qed.

(** ** Looking up *)
Section lookup.
Context {R : Type} `{RegularFile R} (etc_services etc_protocols : R + error) (fuel : nat).
Definition file_text (opened : R + error) : bytes := match opened with inl r => left r | inr _ => [] end.
Context (services_fuel : (length (file_text etc_services) < fuel)%nat) (protocols_fuel : (length (file_text etc_protocols) < fuel)%nat).
(** The maps are the listed ones until the files are read. *)
Definition services_read : list service_entry := file_services (file_text etc_services).
Definition protocols_read : list (bytes * Z) := file_protocols (file_text etc_protocols).
Record directory_ok (d : directory) : Prop := {
  ok_services : if onceReadServices d then holds_services services_listed services_read (services d) else services d = services_listed;
  ok_protocols : if onceReadProtocols d then holds_protocols protocols_listed protocols_read (protocols d) else protocols d = protocols_listed;
}.
(** The port of a service on "tcp" or "udp", in any case, and the number of a protocol. *)
Definition service_port (netw service : bytes) : option Z :=
  if len service <=? maxPortBufSize then
    match port_in services_read netw (lowerASCIIBytes service) with Some p => Some p | None => service_of services_listed netw (lowerASCIIBytes service) end
  else None.
Definition port_of (network service : bytes) : option Z :=
  if beq network "ip"%go then match service_port "tcp"%go service with Some p => Some p | None => service_port "udp"%go service end
  else if one_of ["tcp"%go; "tcp4"%go; "tcp6"%go] network then service_port "tcp"%go service else service_port "udp"%go service.
Definition protocol_number (name : bytes) : option Z :=
  if len name <=? maxProtoLength then
    match protocols_listed !! lowerASCIIBytes name with Some p => Some p | None => number_in protocols_read (lowerASCIIBytes name) end
  else None.
Lemma each_line_fuel {S} (body : bytes → S → res (S * bool)) (opened : R + error) st : (length (file_text opened) < fuel)%nat →
  match opened with inr _ => Ok st | inl r => each_line fuel body (open_file r) st end = over_lines body (fitting (text_lines (file_text opened))) st.
Proof. intros Hf. destruct opened as [r|e]; [by apply file_lines|done]. Qed.
Lemma services_run d : directory_ok d → ∃ d', (d ← get; if onceReadServices d then mret tt else s ← lift (readServices etc_services fuel (services d)); modify (set_services s)) d = (Ok tt, d') ∧
  directory_ok d' ∧ onceReadServices d' = true.
Proof.
  intros [Hs Hp]. unfold mbind, stateful_bind, get, lift, modify, mret, stateful_ret. destruct (onceReadServices d) eqn:E; [by exists d; split; [|split; [constructor; rewrite ?E|]]|].
  unfold readServices. rewrite each_line_fuel by done. rewrite Hs. destruct (service_lines services_listed (fitting (text_lines (file_text etc_services))) [] services_listed) as (s&->&Hh); [done|].
  eexists. split; [reflexivity|]. by split; [|].
Qed.
Lemma protocols_run d : directory_ok d → ∃ d', (d ← get; if onceReadProtocols d then mret tt else m ← lift (readProtocols etc_protocols fuel (protocols d)); modify (set_protocols m)) d = (Ok tt, d') ∧
  directory_ok d' ∧ onceReadProtocols d' = true.
Proof.
  intros [Hs Hp]. unfold mbind, stateful_bind, get, lift, modify, mret, stateful_ret. destruct (onceReadProtocols d) eqn:E; [by exists d; split; [|split; [constructor; rewrite ?E|]]|].
  unfold readProtocols. rewrite each_line_fuel by done. rewrite Hp. destruct (protocol_lines protocols_listed (fitting (text_lines (file_text etc_protocols))) [] protocols_listed) as (m&->&Hh).
  { intros name. by destruct (protocols_listed !! name). }
  eexists. split; [reflexivity|]. by split; [|].
Qed.
Lemma lower_len s : len (lowerASCIIBytes s) = len s.
Proof. unfold len, lowerASCIIBytes. by rewrite length_map. Qed.
Lemma buffer_fits size name : 0 <= size → if len name <=? size then lower_buffer size name = lowerASCIIBytes name else len (lower_buffer size name) ≠ len name.
Proof.
  intros Hs. unfold lower_buffer. destruct (Z.leb_spec (len name) size); [by rewrite take_ge by (unfold len in *; lia)|]. rewrite lower_len. unfold len in *. rewrite length_take. lia.
Qed.
(** What the maps hold of a network that is listed. *)
Lemma with_network svcs netw errNetwork service : holds_services services_listed services_read svcs → netw = "tcp"%go ∨ netw = "udp"%go →
  lookupPortMapWithNetwork svcs netw errNetwork service = match service_port netw service with Some p => Ok p | None => Err (port_error "unknown port"%go errNetwork service true) end.
Proof.
  intros Hh Hn. unfold lookupPortMapWithNetwork, service_port. assert (Hsome : ∃ m, svcs !! netw = Some m).
  { assert (Hk : ∃ name, service_of services_listed netw name ≠ None) by (destruct Hn as [-> | ->]; [exists "http"%go|exists "domain"%go]; by vm_compute).
    destruct Hk as [name Hk]. specialize (Hh netw name). unfold service_of in Hh, Hk at 1. destruct (svcs !! netw) as [m|]; [by exists m|]. exfalso. destruct (port_in _ netw name); [done|]. by rewrite <- Hh in Hk. }
  destruct Hsome as [m Em]. rewrite Em. pose proof (buffer_fits maxPortBufSize service ltac:(done)) as Hb. destruct (len service <=? maxPortBufSize).
  - rewrite Hb, <- Hh. unfold service_of. rewrite Em. cbn [mbind option_bind]. rewrite lower_len, Z.eqb_refl. by destruct (m !! lowerASCIIBytes service).
  - destruct (m !! _); [|done]. by rewrite (proj2 (Z.eqb_neq _ _)).
Qed.
Definition network_name (network : bytes) : bytes :=
  if beq network "ip"%go then "ip"%go else if one_of ["tcp"%go; "tcp4"%go; "tcp6"%go] network then "tcp"%go else "udp"%go.
Definition networks : list bytes := ["tcp"%go; "tcp4"%go; "tcp6"%go; "udp"%go; "udp4"%go; "udp6"%go; "ip"%go].
Lemma lookupPortMap_run svcs network service : holds_services services_listed services_read svcs → one_of networks network = true →
  lookupPortMap svcs network service = match port_of network service with Some p => Ok p | None => Err (port_error "unknown port"%go (network_name network) service true) end.
Proof.
  intros Hh Hn. unfold lookupPortMap, port_of, network_name. assert (Hor : beq network "ip"%go = true ∨ one_of ["tcp"%go; "tcp4"%go; "tcp6"%go] network = true ∨ one_of ["udp"%go; "udp4"%go; "udp6"%go] network = true).
  { unfold one_of, networks in *. cbn [existsb] in *. destruct (beq network "ip"%go); [by left|]. destruct (beq network "tcp"%go), (beq network "tcp4"%go), (beq network "tcp6"%go); try (by right; left). by right; right. }
  destruct (beq network "ip"%go).
  - rewrite !with_network by auto. destruct (service_port "tcp"%go service); [done|]. by destruct (service_port "udp"%go service).
  - destruct (one_of ["tcp"%go; "tcp4"%go; "tcp6"%go] network); [by rewrite with_network by auto|]. destruct Hor as [?|[?| ->]]; [done|done|]. by rewrite with_network by auto.
Qed.
Definition invalid_port (service : bytes) : error := AddrError "invalid port"%go service.
Definition is_port (p : Z) : bool := (0 <=? p) && (p <=? 65535).
Definition checked_port (service : bytes) (p : Z) : res Z := if is_port p then Ok p else Err (invalid_port service).
Lemma check_port service p d : ((if (0 >? p) || (p >? 65535) then fail (invalid_port service) else mret p) : directed Z) d = (checked_port service p, d).
Proof. unfold checked_port, is_port, fail, mret, stateful_ret. rewrite !Z.gtb_ltb. destruct (Z.ltb_spec p 0), (Z.leb_spec 0 p); try lia; [done|]. by destruct (Z.ltb_spec 65535 p), (Z.leb_spec p 65535); try lia. Qed.
Lemma goLookupPort_run network service d : directory_ok d → one_of networks network = true → ∃ d', directory_ok d' ∧
  goLookupPort etc_services fuel network service d = (match port_of network service with Some p => Ok p | None => Err (port_error "unknown port"%go (network_name network) service true) end, d').
Proof.
  intros Hd Hn. destruct (services_run d Hd) as (d'&E&Hd'&Hread). exists d'. split; [done|]. pose proof (ok_services _ Hd') as Hs. rewrite Hread in Hs. rewrite <- (lookupPortMap_run (services d') network service Hs Hn).
  unfold goLookupPort. unfold mbind, stateful_bind, get in E |- *. by rewrite E.
Qed.
Lemma lookupProtocol_run name d : directory_ok d → ∃ d', directory_ok d' ∧
  lookupProtocol etc_protocols fuel name d = (match protocol_number name with Some p => Ok p | None => Err (AddrError "unknown IP protocol specified"%go name) end, d').
Proof.
  intros Hd. destruct (protocols_run d Hd) as (d'&E&Hd'&Hread). exists d'. split; [done|]. pose proof (ok_protocols _ Hd') as Hs. rewrite Hread in Hs.
  unfold lookupProtocol. unfold mbind, stateful_bind, get in E |- *. rewrite E. unfold lift. f_equal.
  unfold lookupProtocolMap, protocol_number. pose proof (buffer_fits maxProtoLength name ltac:(done)) as Hb. destruct (len name <=? maxProtoLength).
  - rewrite Hb, <- Hs. destruct (protocols d' !! lowerASCIIBytes name); [|done]. by rewrite lower_len, Z.eqb_refl.
  - destruct (protocols d' !! _); [|done]. by rewrite (proj2 (Z.eqb_neq _ _)).
Qed.
(** The network "" stands for "ip". *)
Definition hinted (network : bytes) : bytes := if beq network [] then "ip"%go else network.
Lemma LookupPort_name mustUseGo cgo network service d : snd (parsePort service) = true → one_of networks (hinted network) = true →
  LookupPort etc_services fuel mustUseGo cgo network service d =
  (port ← lookupPort etc_services fuel mustUseGo cgo (hinted network) service; if (0 >? port) || (port >? 65535) then fail (invalid_port service) else mret port) d.
Proof.
  intros Hp Hn. unfold LookupPort. destruct (parsePort service) as [p needs]. cbn [snd] in Hp. subst needs. fold networks. unfold hinted in *. destruct (beq network []) eqn:Ee.
  - apply beq_eq in Ee as ->. done.
  - by rewrite Hn.
Qed.
Lemma lookupPort_runs mustUseGo cgo network service d : directory_ok d → one_of networks network = true →
  runs (lookupPort etc_services fuel mustUseGo cgo network service) d (λ _ d', directory_ok d').
Proof.
  intros Hd Hn. destruct (goLookupPort_run network service d Hd Hn) as (d'&Hd'&E). unfold lookupPort. destruct mustUseGo; cbn [negb].
  - unfold runs. rewrite E. by destruct (port_of network service).
  - destruct (cgo network service); [done|]. apply runs_bind, runs_attempt. unfold runs. rewrite E. by destruct (port_of network service).
Qed.
Lemma LookupPort_runs mustUseGo cgo network service d : directory_ok d →
  runs (LookupPort etc_services fuel mustUseGo cgo network service) d (λ r d', directory_ok d' ∧ match r with Some p => is_port p = true | None => True end).
Proof.
  intros Hd. unfold LookupPort. destruct (parsePort service) as [p needs]. fold networks. assert (Hcheck : ∀ p d', directory_ok d' →
    runs (if (0 >? p) || (p >? 65535) then fail (invalid_port service) else mret p) d' (λ r d', directory_ok d' ∧ match r with Some p => is_port p = true | None => True end)).
  { intros p' d' Hd'. unfold runs. rewrite check_port. unfold checked_port. by destruct (is_port p') eqn:E. }
  apply runs_bind. destruct needs; [|by apply Hcheck]. destruct (one_of networks network) eqn:En.
  + eapply runs_mono; [by apply lookupPort_runs|]. intros [p'|] d' Hd'; [by apply Hcheck|done].
  + destruct (beq network []); [|done]. eapply runs_mono; [by apply lookupPort_runs|]. intros [p'|] d' Hd'; [by apply Hcheck|done].
Qed.
(** C20: LookupPort, whatever the files and the C library say, ends without a
    panic, with a port between 0 and 65535 or an error.  What is not a number (to
    [parsePort]) has on a known network the port that the C library gives it,
    where that is asked and has one.  Elsewhere a name of at most 25 bytes has,
    once in lower case, the port of the last line of /etc/services (of those
    before the first one of 64 kB) that has it so written as a name or an alias
    on the network, or else the one in the program's list, "tcp" before "udp" for
    "ip" and for no network; no other has one, and a port out of range is an
    error too.  A number below 2^32 is itself; from 2^32 on it may be another one
    ([port_wraps]). *)
Theorem LookupPort_spec mustUseGo cgo network service d : directory_ok d →
  runs (LookupPort etc_services fuel mustUseGo cgo network service) d (λ r d', directory_ok d' ∧ match r with Some p => is_port p = true | None => True end) ∧
  (snd (parsePort service) = true → one_of networks (hinted network) = true →
   fst (LookupPort etc_services fuel mustUseGo cgo network service d) =
     match (if mustUseGo then None else Some (cgo (hinted network) service)), port_of (hinted network) service with
     | Some (inl p), _ | _, Some p => checked_port service p
     | Some (inr err), None => Err err
     | None, None => Err (port_error "unknown port"%go (network_name (hinted network)) service true)
     end) ∧
  (service ≠ [] → Forall digit service → value_from 0 service < 2 ^ 32 →
   LookupPort etc_services fuel mustUseGo cgo network service d = (checked_port service (value_from 0 service), d)).
Proof.
  intros Hd. split; [|split].
  - by apply LookupPort_runs.
  - intros Hp Hn. rewrite LookupPort_name by done. unfold lookupPort. destruct (goLookupPort_run (hinted network) service d Hd Hn) as (d'&_&E).
    destruct mustUseGo; cbn [negb]; [|destruct (cgo (hinted network) service) as [q|err]; [exact (f_equal fst (check_port service q d))|]]; unfold mbind, stateful_bind, attempt; rewrite E;
      (destruct (port_of (hinted network) service) as [p|]; [exact (f_equal fst (check_port service p d'))|done]).
  - intros Hne Hs Hv. destruct (parsePort_digits service Hne Hs Hv) as (p&E&Hp). unfold LookupPort. rewrite E. unfold mbind, stateful_bind, mret at 1, stateful_ret at 1. fold (invalid_port service). rewrite check_port.
    unfold checked_port, is_port. pose proof (value_grows service 0 ltac:(lia) Hs). destruct Hp as [[_ ->]|[Hv1 Hv2]]; [done|].
    rewrite (proj2 (Z.leb_gt p 65535)), (proj2 (Z.leb_gt (value_from 0 service) 65535)) by lia. by rewrite !andb_false_r.
Qed.
End lookup.
(** A services file, read eight bytes at a time. *)
Definition services_sample : memory := Memory 8 ("http 8080/tcp www # not the listed one"%go ++ [10] ++ "big 70000/tcp"%go ++ [10] ++ "domain 53/udp NameServer"%go ++ [10]).
Lemma directory_listed_ok : directory_ok (R := memory) (inl services_sample) (inr (New []%go)) directory_listed.
Proof. by constructor. Qed.
Lemma LookupPort_spec_witness :
  let port network service := fst (LookupPort (inl services_sample) 200 true (λ _ _, inr (New []%go)) network service directory_listed) in
  (port "tcp"%go "HTTP"%go = Ok 8080 ∧ port "ip"%go "domain"%go = Ok 53 ∧ port "tcp4"%go "ssh"%go = Ok 22 ∧ port "tcp"%go "big"%go = Err (invalid_port "big"%go) ∧ port "udp"%go "443"%go = Ok 443 ∧
   port "udp"%go "NameServer"%go = Err (port_error "unknown port"%go "udp"%go "NameServer"%go true)) ∧
  port ""%go "www"%go = match port_of (inl services_sample) (hinted ""%go) "www"%go with
     | Some p => checked_port "www"%go p
     | None => Err (port_error "unknown port"%go (network_name (hinted ""%go)) "www"%go true)
     end.
Proof.
  split; [vm_compute; repeat (split; [done|]); done|].
  refine (proj1 (proj2 (LookupPort_spec (inl services_sample) (inr (New []%go)) 200 _ _ true (λ _ _, inr (New []%go)) ""%go "www"%go directory_listed directory_listed_ok)) _ _);
    [apply Nat.ltb_lt; vm_compute; reflexivity|apply Nat.ltb_lt; vm_compute; reflexivity|done|done].
Defined.
