(* ===== verification/Lookups.v ===== *)
(** * package net: the lookups a program calls (lookup.go, lookup_unix.go)

    Each chooses between the C library and the Go resolver, and the names in its
    answer are checked.  The C library is the class [Cgo]; the order is decided
    by NssConf's lookupOrder, whose surroundings are the world's and whose
    configuration of DNS is the one the lookup has.  A lookup runs with a context
    that is not cancelled and bears no values. *)
From S2P Require Import Prelude Stateful NetipAddr NetipText NetHost NetIP NetFile DnsNames DnsConfig HostsFile AddrSelect NssConf DnsExchange Resolver.

Class Cgo (W : Type) : Type := {
  cgoLookupHost : bytes → W → (list bytes + error) * W;
  cgoLookupIP : bytes → bytes → W → (list IPAddr + error) * W;
  (** [None]: not ok. *)
  cgoLookupCNAME : bytes → W → option (bytes + error) * W;
  cgoLookupPTR : bytes → W → (list bytes + error) * W;
  system : W → surroundings;
}.
Definition with_dns (d : dnsConfig) (e : surroundings) : surroundings :=
  MkSurroundings (GOOS e) (cgoAvailable e) (netGoBuildTag e) (netCgoBuildTag e) (PreferGo e) (has_Dial e) d (system_nss e) (is_NotExist e) (is_Permission e) (hostname_ e) (mdns_allow e) (Getenv e).
Definition errMalformedDNSRecordsDetail : bytes := "DNS response contained records which contain invalid names"%go.
Definition malformed (text name : bytes) : error := DNSError text name [] false false false.
(** The elements whose name isDomainName accepts. *)
Fixpoint filter_names {A} (name : A → bytes) (l : list A) : res (list A) :=
  match l with
  | [] => Ok []
  | x :: l => ok ← isDomainName (name x); l ← filter_names name l; Ok (if (ok : bool) then x :: l else l)
  end.
(** What is left, with an error when some are not. *)
Definition filtered {A} (name : A → bytes) (host : bytes) (l : list A) : res (list A * option error) :=
  l' ← filter_names name l;
  Ok (l', if negb (len l =? len l') then Some (malformed errMalformedDNSRecordsDetail host) else None).
(** An error of a lookup that is not a DNSError becomes one. *)
Definition as_DNSError (host : bytes) (err : error) : error :=
  match err with
  | DNSError _ _ _ _ _ _ => err
  | Foreign _ _ timeout _ _ => DNSError (Error err) host [] timeout false false
  | _ => DNSError (Error err) host [] (is_timeout err) false false
  end.

Section lookups.
Context {W R : Type} `{Net W} `{Reader R} `{!Host W R} `{!Cgo W} (strictErrors : bool) (systemConf : conf).
Definition from_world {A} (f : W → (A + error) * W) : looking A :=
  r ← with_client (effect f);
  match r with inl a => mret a | inr err => fail err end.
(** The configuration that comes with the order is the one the lookup has. *)
Definition hostLookupOrder_of (hostname : bytes) : looking hostLookupOrder :=
  '(w, cfg, _) ← get;
  '(o, _) ← lift (lookupOrder (with_dns cfg (system w)) systemConf hostname);
  mret o.
Definition addrLookupOrder (addr : bytes) : looking hostLookupOrder := hostLookupOrder_of [].
Definition lookupHost (host : bytes) : looking (list bytes) :=
  order ← hostLookupOrder_of host;
  if bool_decide (order = hostLookupCgo) then from_world (cgoLookupHost host) else goLookupHostOrder strictErrors host order.
Definition lookupIP (network host : bytes) : looking (list IPAddr) :=
  order ← hostLookupOrder_of host;
  if bool_decide (order = hostLookupCgo) then from_world (cgoLookupIP network host)
  else '(ips, _) ← goLookupIPCNAMEOrder strictErrors network host order; mret ips.
Definition lookupCNAME (name : bytes) : looking bytes :=
  order ← hostLookupOrder_of name;
  r ← (if bool_decide (order = hostLookupCgo) then with_client (effect (cgoLookupCNAME name)) else mret None);
  match r with
  | Some (inl cname) => mret cname
  | Some (inr err) => fail err
  | None => goLookupCNAME strictErrors name order
  end.
Definition lookupAddr (addr : bytes) : looking (list bytes) :=
  order ← addrLookupOrder addr;
  if bool_decide (order = hostLookupCgo) then from_world (cgoLookupPTR addr) else goLookupPTR strictErrors addr order.

Definition LookupHost (host : bytes) : looking (list bytes) :=
  if beq host [] then fail (no_such_host host)
  else
    match ParseAddr host with
    | Ok _ => mret [host]
    | Err _ => lookupHost host
    | Panic m => lift (Panic m)
    end.
(** A lookup under way for the same host is joined; its result is the same. *)
Definition lookupIPAddr (network host : bytes) : looking (list IPAddr) :=
  if beq host [] then fail (no_such_host host)
  else
    match ParseAddr host with
    | Ok ip => mret [MkIPAddr (IP_To16 (AsSlice ip)) (Addr_Zone ip)]
    | Err _ =>
        r ← attempt (lookupIP network host);
        match r with inl addrs => mret addrs | inr err => fail (as_DNSError host err) end
    | Panic m => lift (Panic m)
    end.
Definition LookupIPAddr (host : bytes) : looking (list IPAddr) := lookupIPAddr "ip"%go host.
Definition LookupCNAME (host : bytes) : looking bytes :=
  cname ← lookupCNAME host;
  ok ← lift (isDomainName cname);
  if (ok : bool) then mret cname else fail (malformed errMalformedDNSRecordsDetail host).
Definition LookupSRV (service proto name : bytes) : looking (bytes * list SRV * option error) :=
  '(cname, addrs) ← goLookupSRV strictErrors service proto name;
  ok ← (if negb (beq cname []) then lift (isDomainName cname) else mret true);
  if negb (ok : bool) then fail (malformed "SRV header name is invalid"%go name)
  else '(addrs, err) ← lift (filtered Target name addrs); mret (cname, addrs, err).
Definition LookupMX (name : bytes) : looking (list MX * option error) :=
  records ← goLookupMX strictErrors name; lift (filtered DnsNames.Host name records).
Definition LookupNS (name : bytes) : looking (list bytes * option error) :=
  records ← goLookupNS strictErrors name; lift (filtered id name records).
Definition LookupTXT (name : bytes) : looking (list bytes) := goLookupTXT strictErrors name.
Definition LookupAddr (addr : bytes) : looking (list bytes * option error) :=
  names ← lookupAddr addr; lift (filtered id addr names).
End lookups.
