(* ===== verification/LookupsProps.v ===== *)
(** * package net: the lookups a program calls, properties

    Each ends without a panic and goes on with a state as good as before; the
    names handed out are domain names. *)
From Stdlib Require Import Sorting.Sorted.
From stdpp Require Import gmap.
From S2P Require Import Prelude Stateful NetipAddr NetipText NetHost NetIP NetFile NetFileProps DnsNames DnsNamesProps DnsConfig DnsConfigProps HostsFile HostsFileProps AddrSelect AddrSelectProps NssConf LookupOrderProps DnsWire DnsRecords DnsParser DnsParserProps DnsExchange DnsExchangeProps Resolver ResolverProps Lookups.

Lemma lookupOrder_total e c hostname : ∃ o d, lookupOrder e c hostname = Ok (o, d).
Proof.
  unfold lookupOrder. destruct (canonical_host hostname) as (local&_&Hcan).
  assert (Hf : ∀ u fallback, fallback = (if u : bool then hostLookupCgo else hostLookupFilesDNS) → ∃ o, files_order e c u fallback hostname = Ok o).
  { intros u fallback ->. unfold files_order. destruct (u && _ && _ && _); [by eexists|]. destruct (u && unknownOpt _); [by eexists|]. destruct (beq (goos c) "openbsd"%go); [by eexists|].
    rewrite (Hcan (λ h local, if u && local then Ok hostLookupCgo else nss_order e c u (if u then hostLookupCgo else hostLookupFilesDNS) h)). destruct (u && local); [by eexists|]. destruct u.
    - destruct (nss_order_choice e c (undot hostname)) as (o&->&_). by eexists.
    - destruct (nss_order_forced e c (undot hostname)) as (o&->&_). by eexists. }
  destruct (mustUseGoResolver e c).
  { destruct (_ || _); [by eexists _, _|]. destruct (Hf false hostLookupFilesDNS eq_refl) as (o&->). by eexists _, _. }
  destruct (netCgo c); [by eexists _, _|]. destruct (preferCgo c); [by eexists _, _|]. destruct (_ || _); [by eexists _, _|].
  destruct (_ || _); [by eexists _, _|]. destruct (Hf true hostLookupCgo eq_refl) as (o&->). by eexists _, _.
Qed.
Lemma domain_bytes s : domain_name s → is_bytes s.
Proof.
  intros (_&_&Hl&_). apply labels_chars in Hl. eapply list.Forall_impl; [exact Hl|]. intros c. unfold name_char, nonNumeric, letter, digit_char, is_u8. lia.
Qed.
Lemma reverseaddr_bytes addr : safe is_bytes (reverseaddr addr).
Proof.
  destruct (reverseaddr_run addr) as (ip&_&[(_&->)|[(a&b&c&d&Hb&_&->)|(Hb&Hl&_&->)]]); [done|by apply domain_bytes, arpa4_name|by apply domain_bytes, arpa6_name].
Qed.
(** ** Names that are checked *)
Definition is_domain (s : bytes) : bool := match isDomainName s with Ok b => b | _ => false end.
Lemma is_domain_run s : isDomainName s = Ok (is_domain s).
Proof. unfold is_domain. by destruct (isDomainName_run s) as (b&->&_). Qed.
Lemma filter_names_run {A} (name : A → bytes) l : filter_names name l = Ok (List.filter (λ x, is_domain (name x)) l).
Proof. induction l as [|x l IH]; [done|]. cbn [filter_names List.filter]. rewrite is_domain_run. cbn [mbind res_bind]. rewrite IH. cbn [mbind res_bind]. by destruct (is_domain (name x)). Qed.
(** A name that may be handed out. *)
Definition proper (s : bytes) : Prop := s = "."%go ∨ domain_name s.
Lemma is_domain_iff s : is_domain s = true ↔ proper s.
Proof. unfold is_domain. destruct (isDomainName_run s) as (b&->&Hb). exact Hb. Qed.
#[global] Instance proper_dec s : Decision (proper s).
Proof. refine (cast_if (decide (is_domain s = true))); by rewrite <- is_domain_iff. Defined.
(** Of the records, those with proper names, in their order, and an error if there
    were others. *)
Definition handed_out {A} (name : A → bytes) (host : bytes) (l : list A) (r : list A * option error) : Prop :=
  fst r = filter (λ x, proper (name x)) l ∧
  (Forall (λ x, proper (name x)) l → snd r = None) ∧
  (¬ Forall (λ x, proper (name x)) l → snd r = Some (malformed errMalformedDNSRecordsDetail host)).
Lemma filter_is_domain {A} (name : A → bytes) l : List.filter (λ x, is_domain (name x)) l = filter (λ x, proper (name x)) l.
Proof.
  induction l as [|x l IH]; [done|]. cbn [List.filter]. destruct (is_domain (name x)) eqn:E.
  - rewrite filter_cons_True by (by apply is_domain_iff). by rewrite IH.
  - rewrite filter_cons_False; [done|]. rewrite <- is_domain_iff. by rewrite E.
Qed.
Lemma filter_whole {A} (P : A → Prop) `{!∀ x, Decision (P x)} l : len l = len (filter P l) ↔ Forall P l.
Proof.
  unfold len. split.
  - intros E. apply list.Forall_forall. intros x Hx. destruct (decide (P x)) as [|Hn]; [done|]. pose proof (length_filter_lt P l x Hx Hn). lia.
  - induction 1 as [|x l Hx _ IH]; [done|]. rewrite filter_cons_True by done. cbn [length]. lia.
Qed.
Lemma filtered_run {A} (name : A → bytes) host l : ∃ r, filtered name host l = Ok r ∧ handed_out name host l r.
Proof.
  unfold filtered. rewrite filter_names_run, filter_is_domain. cbn [mbind res_bind]. eexists. split; [reflexivity|]. split; [done|]. cbn [fst snd].
  pose proof (filter_whole (λ x, proper (name x)) l) as Hw. destruct (Z.eqb_spec (len l) (len (filter (λ x, proper (name x)) l))); cbn [negb]; tauto.
Qed.
Lemma sorted_filter {A} (P : A → A → Prop) (Q : A → Prop) `{!∀ x, Decision (Q x)} l : StronglySorted P l → StronglySorted P (filter Q l).
Proof.
  induction 1 as [|x l _ IH Hx]; [constructor|]. destruct (decide (Q x)) as [Hq|Hq]; [rewrite filter_cons_True by done|by rewrite filter_cons_False by done].
  constructor; [done|]. rewrite list.Forall_forall in Hx |- *. intros y [_ Hy]%list_elem_of_filter. by apply Hx.
Qed.

Lemma run_bind {S A B} (m : stateful S A) (k : A → stateful S B) s a s' : m s = (Ok a, s') → (x ← m; k x) s = k a s'.
Proof. intros E. unfold mbind, stateful_bind. by rewrite E. Qed.
Lemma some_of_ne {A} (P : A → Prop) n l : some_of P n l → l ≠ [].
Proof. intros [_ Hl] ->. change (len []) with 0 in Hl. lia. Qed.
Section lookups.
Context {W R : Type} `{NetLaws W} `{HostLaws W R} `{!Cgo W} (strictErrors : bool) (systemConf : conf).
Implicit Types s : W * dnsConfig * hosts.
Lemma from_world_runs {A} (f : W → (A + error) * W) s Q : (∀ a s', follows s s' → Q (Some a) s') → (∀ s', follows s s' → Q None s') → looking_ok s → runs (from_world f) s Q.
Proof.
  intros HQ Hn Hok. unfold from_world. apply runs_bind, with_client_runs, effect_runs. intros r w _. assert (Hf : follows s (w, snd (fst s), snd s)).
  { destruct s as [[w0 cfg] h]. by apply (follows_world _ w0). }
  destruct r; [by apply HQ|by apply Hn].
Qed.
Lemma order_run name s : ∃ o, hostLookupOrder_of systemConf name s = (Ok o, s).
Proof.
  destruct s as [[w cfg] h]. unfold hostLookupOrder_of, mbind, stateful_bind, get, lift. destruct (lookupOrder_total (with_dns cfg (system w)) systemConf name) as (o&d&->). by exists o.
Qed.
(** A method that keeps the state good, and what it returns. *)
Definition looks {A} (m : looking (W := W) A) s (P : A → Prop) : Prop := runs m s (λ r s', follows s s' ∧ match r with Some a => P a | None => True end).
Lemma looks_bind {A B} (m : looking A) (k : A → looking B) s P (Q : B → Prop) : looks m s P → (∀ a s', follows s s' → P a → looks (k a) s' Q) → looks (x ← m; k x) s Q.
Proof.
  intros Hm Hk. apply runs_bind. eapply runs_mono; [exact Hm|]. intros [a|] s1 [Hs1 Ha]; [|done]. eapply runs_mono; [by apply Hk|]. intros r s2 [Hs2 Hr]. split; [by apply (follows_trans s s1)|done].
Qed.
Lemma looks_lift {A} (r : res A) s P : looking_ok s → safe P r → looks (lift r) s P.
Proof. intros Hok Hr. apply runs_lift; [|done]. eapply safe_mono; [exact Hr|]. intros a Ha. by split. Qed.
Lemma looks_mono {A} (m : looking A) s (P Q : A → Prop) : looks m s P → (∀ a, P a → Q a) → looks m s Q.
Proof. intros Hm HPQ. eapply runs_mono; [exact Hm|]. intros [a|] s' [Hs' Ha]; [|done]. split; [done|by apply HPQ]. Qed.
Lemma looks_fail {A} e s (P : A → Prop) : looking_ok s → looks (fail e) s P.
Proof. intros Hok. by split. Qed.
Lemma looks_ret {A} (a : A) s (P : A → Prop) : looking_ok s → P a → looks (mret a) s P.
Proof. intros Hok Ha. by split. Qed.
Lemma looks_order {A} name (k : hostLookupOrder → looking A) s P : (∀ o, looks (k o) s P) → looks (o ← hostLookupOrder_of systemConf name; k o) s P.
Proof. intros Hk. unfold looks, runs, mbind, stateful_bind. destruct (order_run name s) as [o ->]. apply Hk. Qed.
Lemma looks_attempt {A B} (m : looking A) (k : A + error → looking B) s P (Q : B → Prop) : looks m s P → (∀ r s', follows s s' → match r with inl a => P a | inr _ => True end → looks (k r) s' Q) → looks (r ← attempt m; k r) s Q.
Proof.
  intros Hm Hk. apply runs_bind, runs_attempt. eapply runs_mono; [exact Hm|].
  assert (Hgo : ∀ r s1, follows s s1 → match r with inl a => P a | inr _ => True end → runs (k r) s1 (λ r s', follows s s' ∧ match r with Some a => Q a | None => True end)).
  { intros r s1 Hs1 Hr. eapply runs_mono; [by apply Hk|]. intros r' s2 [Hs2 Hr']. split; [by apply (follows_trans s s1)|done]. }
  intros [a|] s1 [Hs1 Ha]; [by apply (Hgo (inl a))|]. intros e. by apply (Hgo (inr e)).
Qed.
Lemma static_addr_looks name s : looking_ok s → looks (static_addr name) s (λ _, True).
Proof. intros Hok. eapply runs_mono; [by apply static_addr_runs|]. intros r s' (a&->&Hs'&_). by split. Qed.
Lemma addresses_look network name order s : looking_ok s → is_bytes name → looks (goLookupIPCNAMEOrder strictErrors network name order) s (λ r, name_fits (snd r)).
Proof. intros Hok Hb. eapply runs_ends; [by apply order_ends| |]; cbn; [intros r s' [(Hs'&Hf&_) _]|intros e s' [Hs' _]]; by split. Qed.
Lemma goLookupHostOrder_looks name order s : looking_ok s → is_bytes name → looks (goLookupHostOrder strictErrors name order) s (λ _, True).
Proof.
  intros Hok Hb. unfold goLookupHostOrder. eapply (looks_bind _ _ _ (λ _, True)).
  { destruct (_ || _); [|by apply looks_ret]. eapply runs_mono; [by apply static_host_runs|]. intros r s' (a&->&Hs'&_). by split. }
  intros [addrs canonical] s1 Hs1 _. destruct (len addrs >? 0); [by apply looks_ret; [apply Hs1|]|]. destruct (bool_decide _); [apply looks_fail, Hs1|].
  eapply looks_bind; [by apply addresses_look; [apply Hs1|]|]. intros [ips cname] s2 Hs2 _. by apply looks_ret; [apply Hs2|].
Qed.
Lemma goLookupCNAME_looks host order s : looking_ok s → is_bytes host → looks (goLookupCNAME strictErrors host order) s (λ _, True).
Proof.
  intros Hok Hb. unfold goLookupCNAME. eapply looks_bind; [by apply addresses_look|]. intros [ips cname] s1 Hs1 Hf. cbn [snd] in Hf. apply looks_lift; [apply Hs1|]. by rewrite (fits_text _ Hf).
Qed.
Lemma goLookupPTR_looks addr order s : looking_ok s → looks (goLookupPTR strictErrors addr order) s (λ _, True).
Proof.
  intros Hok. unfold goLookupPTR. eapply (looks_bind _ _ _ (λ _, True)); [destruct (_ || _); [by apply static_addr_looks|by apply looks_ret]|]. intros names s1 Hs1 _.
  destruct (len names >? 0); [by apply looks_ret; [apply Hs1|]|]. destruct (bool_decide _); [apply looks_fail, Hs1|].
  eapply (looks_bind _ _ _ is_bytes); [apply looks_lift; [apply Hs1|apply reverseaddr_bytes]|]. intros arpa s2 Hs2 Hb.
  eapply (looks_attempt _ _ _ (λ a, fst a = zero_Parser ∨ ∃ n, at_answer n TypePTR (fst a))).
  - eapply runs_mono; [apply (lookup_runs strictErrors arpa TypePTR s2); [apply Hs2|done]|]. intros [[p server]|] s3 [Hs3 Hp]; [|done]. split; [done|].
    destruct Hp as [Hp|(fqdn&n&_&_&_&Hat&_)]; [by left|right; by exists n].
  - intros [[p server]|e] s3 Hs3 Hp.
    + apply looks_lift; [apply Hs3|]. cbn [fst] in Hp. destruct Hp as [->|[n Hat]]; [done|]. eapply safe_mono; [eapply (records_found TypePTR add_PTR [] _ text_found); [intros; by apply some_next| |exact Hat]|done].
      intros h acc p' Hp' Hs' _. by apply PTR_gathers.
    + eapply (looks_bind _ _ _ (λ _, True)); [destruct (_ && _); [apply static_addr_looks, Hs3|by apply looks_ret; [apply Hs3|]]|]. intros names' s4 Hs4 _.
      destruct (len names' >? 0); [by apply looks_ret; [apply Hs4|]|apply looks_fail, Hs4].
Qed.
Lemma from_world_looks {A} (f : W → (A + error) * W) s : looking_ok s → looks (from_world f) s (λ _, True).
Proof. intros Hok. by apply from_world_runs; [..|done]. Qed.
Lemma lookupIP_looks network host s : looking_ok s → is_bytes host → looks (lookupIP strictErrors systemConf network host) s (λ _, True).
Proof.
  intros Hok Hb. apply looks_order. intros o. destruct (bool_decide _); [by apply from_world_looks|]. eapply looks_bind; [by apply addresses_look|]. intros [ips cname] s1 Hs1 _. by apply looks_ret; [apply Hs1|].
Qed.
Lemma lookupIPAddr_looks network host s : looking_ok s → is_bytes host → looks (lookupIPAddr strictErrors systemConf network host) s (λ _, True).
Proof.
  intros Hok Hb. unfold lookupIPAddr. destruct (beq host []); [by apply looks_fail|]. destruct (NetipProps.ParseAddr_any host) as [(ip&->&_)|[e ->]]; [by apply looks_ret|].
  eapply looks_attempt; [by apply lookupIP_looks|]. intros [addrs|err] s1 Hs1 _; [by apply looks_ret; [apply Hs1|]|apply looks_fail, Hs1].
Qed.
Lemma LookupHost_looks host s : looking_ok s → is_bytes host → looks (LookupHost strictErrors systemConf host) s (λ _, True).
Proof.
  intros Hok Hb. unfold LookupHost. destruct (beq host []); [by apply looks_fail|]. destruct (NetipProps.ParseAddr_any host) as [(ip&->&_)|[e ->]]; [by apply looks_ret|].
  apply looks_order. intros o. destruct (bool_decide _); [by apply from_world_looks|by apply goLookupHostOrder_looks].
Qed.
Lemma lookupCNAME_looks host s : looking_ok s → is_bytes host → looks (lookupCNAME strictErrors systemConf host) s (λ _, True).
Proof.
  intros Hok Hb. apply looks_order. intros o. eapply (looks_bind _ _ _ (λ _, True)).
  - destruct (bool_decide _); [|by apply looks_ret]. apply with_client_runs, effect_runs. intros r w _. split; [|done]. destruct s as [[w0 cfg] h]. by apply (follows_world _ w0).
  - intros [[cname|err]|] s1 Hs1 _; [by apply looks_ret; [apply Hs1|]|apply looks_fail, Hs1|by apply goLookupCNAME_looks; [apply Hs1|]].
Qed.
Lemma lookupAddr_looks addr s : looking_ok s → looks (lookupAddr strictErrors systemConf addr) s (λ _, True).
Proof. intros Hok. apply looks_order. intros o. destruct (bool_decide _); [by apply from_world_looks|by apply goLookupPTR_looks]. Qed.
(** The method [m] makes of what [src] returns a result [P] of it, or the error
    [src] has, in the state it leaves; neither panics. *)
Definition makes {A B} (src : looking (W := W) A) (m : looking (W := W) B) s (P : A → res B → Prop) : Prop :=
  match src s with
  | (Ok a, s') => follows s s' ∧ ∃ r, m s = (r, s') ∧ (∀ x, r ≠ Panic x) ∧ P a r
  | (Err e, s') => follows s s' ∧ m s = (Err e, s')
  | (Panic _, _) => False
  end.
Lemma makes_bind {A B} (src : looking A) (k : A → looking B) s (Q : A → Prop) (P : A → res B → Prop) : looks src s Q →
  (∀ a s', follows s s' → Q a → ∃ r, k a s' = (r, s') ∧ (∀ x, r ≠ Panic x) ∧ P a r) → makes src (x ← src; k x) s P.
Proof.
  intros Hsrc Hk. unfold makes, mbind, stateful_bind. unfold looks, runs in Hsrc. destruct (src s) as [[a|e|x] s1]; [|by destruct Hsrc|done]. destruct Hsrc as [Hs1 Ha]. split; [done|by apply Hk].
Qed.
Lemma lift_handed {A} (name : A → bytes) host l s : ∃ r, (lift (filtered name host l) : looking _) s = (Ok r, s) ∧ handed_out name host l r.
Proof. destruct (filtered_run name host l) as (r&E&Hr). exists r. unfold lift. by rewrite E. Qed.
Lemma makes_handed {A} (src : looking (list A)) (name : A → bytes) host s (Q : list A → Prop) (P : list A → list A → Prop) : looks src s Q →
  (∀ l, Q l → P l (filter (λ x, proper (name x)) l)) →
  makes src (l ← src; lift (filtered name host l)) s (λ l r, ∃ out, r = Ok out ∧ handed_out name host l out ∧ P l (fst out)).
Proof.
  intros Hsrc HP. eapply makes_bind; [exact Hsrc|]. intros l s' _ Hl. destruct (lift_handed name host l s') as (out&E&Hout). exists (Ok out). split; [exact E|]. split; [done|]. exists out. split; [done|]. split; [done|].
  destruct Hout as [-> _]. by apply HP.
Qed.
(** C19: whatever the network, the hosts file and the C library answer, none of
    the lookups panics, and of the records found LookupMX, LookupNS, LookupSRV and
    LookupAddr hand out exactly those whose name is a domain name or the root, in
    their order, with no error if those are all and else with one that tells so.
    The MX and SRV records are in the order of their priorities, and there is one
    at least of those found, as of the name servers.  The canonical name that
    LookupSRV and LookupCNAME return is a domain name or the root (that of
    LookupSRV may be empty); where the one found is not, there is only an error. *)
Theorem Lookup_names_spec (service proto name addr : bytes) s : looking_ok s → is_bytes service → is_bytes proto → is_bytes name →
  makes (goLookupMX strictErrors name) (LookupMX strictErrors name) s (λ l r, ∃ out, r = Ok out ∧ handed_out DnsNames.Host name l out ∧
    l ≠ [] ∧ StronglySorted (λ a b, Pref a <= Pref b) (fst out)) ∧
  makes (goLookupNS strictErrors name) (LookupNS strictErrors name) s (λ l r, ∃ out, r = Ok out ∧ handed_out Datatypes.id name l out ∧ l ≠ []) ∧
  makes (goLookupSRV strictErrors service proto name) (LookupSRV strictErrors service proto name) s (λ '(cname, l) r,
    (cname = [] ∨ proper cname → ∃ out err, r = Ok (cname, out, err) ∧ handed_out Target name l (out, err) ∧ l ≠ [] ∧ StronglySorted srv_order out) ∧
    (cname ≠ [] → ¬ proper cname → r = Err (malformed "SRV header name is invalid"%go name))) ∧
  makes (lookupAddr strictErrors systemConf addr) (LookupAddr strictErrors systemConf addr) s (λ l r, ∃ out, r = Ok out ∧ handed_out Datatypes.id addr l out) ∧
  makes (lookupCNAME strictErrors systemConf name) (LookupCNAME strictErrors systemConf name) s (λ cname r,
    (proper cname → r = Ok cname) ∧ (¬ proper cname → r = Err (malformed errMalformedDNSRecordsDetail name))).
Proof.
  intros Hok Hsv Hpr Hb. split; [|split; [|split; [|split]]].
  - apply (makes_handed _ _ _ _ _ (λ l out, l ≠ [] ∧ StronglySorted _ out) (goLookupMX_runs strictErrors name s Hok Hb)). intros l [Hl Hs]. split; [by eapply some_of_ne|by apply sorted_filter].
  - apply (makes_handed _ _ _ _ _ (λ l _, l ≠ []) (goLookupNS_runs strictErrors name s Hok Hb)). intros l Hl. by eapply some_of_ne.
  - eapply makes_bind; [by apply goLookupSRV_runs|]. intros [cname l] s1 Hs1 (_&Hl&Hs).
    assert (Hc : (if negb (beq cname []) then lift (isDomainName cname) else mret true : looking bool) s1 = (Ok (bool_decide (cname = [] ∨ proper cname)), s1)).
    { destruct (beq cname []) eqn:E; cbn [negb]; [apply beq_eq in E; by rewrite bool_decide_eq_true_2 by by left|]. rewrite is_domain_run. cbn. do 2 f_equal.
      assert (cname ≠ []) by (intros ->; discriminate E). apply eq_true_iff_eq. rewrite is_domain_iff, bool_decide_eq_true. tauto. }
    erewrite run_bind by exact Hc. case_bool_decide as Hp; cbn [negb].
    + destruct (lift_handed Target name l s1) as ([out err]&E&Hout). erewrite run_bind by exact E. eexists. split; [reflexivity|]. split; [done|]. split; [|tauto]. intros _. exists out, err. split; [done|]. split; [done|].
      split; [by eapply some_of_ne|]. destruct Hout as [Eo _]. cbn [fst] in Eo. subst. by apply sorted_filter.
    + eexists. split; [reflexivity|]. split; [done|]. split; [tauto|done].
  - eapply makes_bind; [by apply lookupAddr_looks|]. intros l s' _ _. destruct (lift_handed Datatypes.id addr l s') as (out&E&Hout). exists (Ok out). split; [exact E|]. split; [done|by exists out].
  - eapply makes_bind; [by apply lookupCNAME_looks|]. intros cname s1 Hs1 _. rewrite is_domain_run. unfold mbind, stateful_bind, lift. pose proof (is_domain_iff cname) as Hd.
    destruct (is_domain cname); (eexists; split; [reflexivity|]; split; [done|]); (split; [intros Hp|intros Hp]); try done; [by destruct Hp; apply Hd|by apply Hd in Hp].
Qed.
End lookups.

(** ** An example *)
(** The mailbox, without a C library. *)
#[global] Instance mailbox_Cgo : Cgo mailbox := {
  cgoLookupHost _ w := (inr (New "cgo"%go), w); cgoLookupIP _ _ w := (inr (New "cgo"%go), w); cgoLookupCNAME _ w := (None, w); cgoLookupPTR _ w := (inr (New "cgo"%go), w);
  system _ := linux false sample_sources }.
(** A response with two MX records, one of whose names is no domain name. *)
Definition mx_mail : mailbox :=
  [[0; 0; 0x81; 0x80; 0; 1; 0; 2; 0; 0; 0; 0] ++ [2] ++ "go"%go ++ [3] ++ "dev"%go ++ [0; 0; 15; 0; 1] ++
   [192; 12; 0; 15; 0; 1; 0; 0; 0; 60; 0; 7; 0; 20; 2] ++ "mx"%go ++ [192; 15] ++ [192; 12; 0; 15; 0; 1; 0; 0; 0; 60; 0; 8; 0; 10; 3] ++ "a b"%go ++ [192; 15]].
Definition mx_state : mailbox * dnsConfig * hosts := (mx_mail, two_servers, no_hosts).
Lemma mx_ok : looking_ok mx_state.
Proof. destruct go_dev_ok. by constructor. Qed.
Lemma Lookup_names_spec_witness :
  fst (LookupMX false go_dev mx_state) = Ok ([MkMX "mx.dev."%go 20], Some (malformed errMalformedDNSRecordsDetail go_dev)) ∧
  makes (goLookupMX false go_dev) (LookupMX false go_dev) mx_state (λ l r, ∃ out, r = Ok out ∧ handed_out DnsNames.Host go_dev l out ∧
    l ≠ [] ∧ StronglySorted (λ a b, Pref a <= Pref b) (fst out)).
Proof.
  split; [vm_compute; reflexivity|]. refine (proj1 (Lookup_names_spec (R := memory) false linux_conf [] [] go_dev [] mx_state mx_ok _ _ go_dev_bytes)); constructor.
Defined.
