(* ===== verification/Resolve.v ===== *)
(** * package net: the addresses of endpoints (ipsock.go, dial.go, tcpsock.go, udpsock.go, iprawsock.go, unixsock.go)

    internetAddrList turns a network and an address into the addresses to use;
    the Resolve functions and resolveAddrList choose among them.  The state is
    that of Lookups with the directory of Ports. *)
From S2P Require Import Prelude Stateful Strconv NetipAddr NetipText NetHost NetIP NetFile DnsNames DnsConfig HostsFile AddrSelect NssConf DnsExchange Resolver Ports Lookups.

Definition UnknownNetworkError (network : bytes) : error := Foreign ("unknown network "%go ++ network) true false false false.
Definition errNoSuitableAddress : bytes := "no suitable address found"%go.
Definition errMissingAddress : error := New "missing address"%go.

(** ** Addresses *)
Inductive net_Addr : Set :=
| TCPAddr (ip : bytes) (port : Z) (zone : bytes)
| UDPAddr (ip : bytes) (port : Z) (zone : bytes)
| AnIPAddr (a : IPAddr)
| UnixAddr (name net : bytes).
Definition Network (a : net_Addr) : bytes :=
  match a with TCPAddr _ _ _ => "tcp"%go | UDPAddr _ _ _ => "udp"%go | AnIPAddr _ => "ip"%go | UnixAddr _ net => net end.
Definition TCPAddr_String (ip : bytes) (port : Z) (zone : bytes) : res bytes :=
  let ip := ipEmptyString ip in
  p ← Itoa port;
  Ok (if negb (beq zone []) then JoinHostPort (ip ++ "%"%go ++ zone) p else JoinHostPort ip p).
Definition net_Addr_String (a : net_Addr) : res bytes :=
  match a with
  | TCPAddr ip port zone | UDPAddr ip port zone => TCPAddr_String ip port zone
  | AnIPAddr a => Ok (IPAddr_String a)
  | UnixAddr name _ => Ok name
  end.
(** Of the address of an endpoint on the Internet; a nil IP is the empty one. *)
Definition isWildcard (ip : bytes) : bool := is_nil ip || IP_IsUnspecified ip.
Definition isIPv4 (a : net_Addr) : bool :=
  match a with
  | TCPAddr ip _ _ | UDPAddr ip _ _ | AnIPAddr (MkIPAddr ip _) => negb (is_nil (IP_To4 ip))
  | UnixAddr _ _ => false
  end.
Definition isNotIPv4 (a : net_Addr) : bool := negb (isIPv4 a).
Abbreviation addrList := (list net_Addr).
Definition first (strategy : net_Addr → bool) (addrs : addrList) : res net_Addr :=
  match List.find strategy addrs with Some a => Ok a | None => at_ addrs 0 end.
Definition forResolve (network addr : bytes) (addrs : addrList) : res net_Addr :=
  let want6 :=
    if beq network "ip"%go then CountString addr ":"%byte >? 0
    else if one_of ["tcp"%go; "udp"%go] network then CountString addr "["%byte >? 0
    else false in
  if want6 then first isNotIPv4 addrs else first isIPv4 addrs.
(** The rest of the list, [primaryLabel] being set. *)
Fixpoint partition_loop (strategy : net_Addr → bool) (primaryLabel : bool) (addrs primaries fallbacks : addrList) : addrList * addrList :=
  match addrs with
  | [] => (primaries, fallbacks)
  | addr :: addrs =>
      if Bool.eqb (strategy addr) primaryLabel then partition_loop strategy (strategy addr) addrs (primaries ++ [addr]) fallbacks
      else partition_loop strategy primaryLabel addrs primaries (fallbacks ++ [addr])
  end.
Definition partition (strategy : net_Addr → bool) (addrs : addrList) : addrList * addrList :=
  match addrs with
  | [] => ([], [])
  | addr :: addrs => partition_loop strategy (strategy addr) addrs [addr] []
  end.
Fixpoint map_addrs (inetaddr : IPAddr → res net_Addr) (filter : IPAddr → bool) (ips : list IPAddr) : res addrList :=
  match ips with
  | [] => Ok []
  | ip :: ips =>
      if filter ip then a ← inetaddr ip; l ← map_addrs inetaddr filter ips; Ok (a :: l)
      else map_addrs inetaddr filter ips
  end.
Definition filterAddrList (filter : option (IPAddr → bool)) (ips : list IPAddr) (inetaddr : IPAddr → res net_Addr) (originalAddr : bytes) : res addrList :=
  addrs ← map_addrs inetaddr (default (λ _, true) filter) ips;
  if len addrs =? 0 then Err (AddrError errNoSuitableAddress originalAddr) else Ok addrs.
Definition ipv4only (a : IPAddr) : bool := negb (is_nil (IP_To4 (IP a))).
Definition ipv6only (a : IPAddr) : bool := (len (IP a) =? IPv6len) && is_nil (IP_To4 (IP a)).
(** [net[len(net)-1]] is the byte. *)
Definition last_is (c : Z) (net : bytes) : res bool :=
  if beq net [] then Ok false else d ← at_ net (len net - 1); Ok (d =? c).
Definition loopbackIP (net : bytes) : res bytes :=
  six ← last_is "6"%byte net; Ok (if (six : bool) then IPv6loopback else [127; 0; 0; 1]).
Definition family_filter (net : bytes) : res (option (IPAddr → bool)) :=
  four ← last_is "4"%byte net;
  six ← last_is "6"%byte net;
  Ok (if (six : bool) then Some ipv6only else if (four : bool) then Some ipv4only else None).
Definition tcp_nets : list bytes := ["tcp"%go; "tcp4"%go; "tcp6"%go].
Definition udp_nets : list bytes := ["udp"%go; "udp4"%go; "udp6"%go].
Definition ip_nets : list bytes := ["ip"%go; "ip4"%go; "ip6"%go].
Definition unix_nets : list bytes := ["unix"%go; "unixgram"%go; "unixpacket"%go].
Definition inetaddr (net : bytes) (portnum : Z) (ip : IPAddr) : res net_Addr :=
  if one_of tcp_nets net then Ok (TCPAddr (IP ip) portnum (Zone ip))
  else if one_of udp_nets net then Ok (UDPAddr (IP ip) portnum (Zone ip))
  else if one_of ip_nets net then Ok (AnIPAddr (MkIPAddr (IP ip) (Zone ip)))
  else Panic [Lit "unexpected network: "%go; Lit net].

(** ** Resolution *)
Section resolve.
Context {W R : Type} `{Net W} `{Reader R} `{!Host W R} `{!Cgo W} (strictErrors : bool) (systemConf : conf).
Context (etc_services etc_protocols : R + error) (fuel : nat) (cgoLookupPort : bytes → bytes → Z + error).
Definition resolving (A : Type) : Type := stateful ((W * dnsConfig * hosts) * directory) A.
Definition on_lookups {A} (m : looking (W := W) A) : resolving A := zoom fst (λ c s, (c, snd s)) m.
Definition on_ports {A} (m : stateful directory A) : resolving A := zoom snd (λ d s, (fst s, d)) m.
Definition lookup_port (network service : bytes) : resolving Z :=
  '(w, cfg, _, _) ← get;
  on_ports (LookupPort etc_services fuel (mustUseGoResolver (with_dns cfg (system w)) systemConf) cgoLookupPort network service).
Definition parseNetwork (network : bytes) (needsProto : bool) : resolving (bytes * Z) :=
  let i := LastIndexByteString network ":"%byte in
  if i <? 0 then
    if one_of tcp_nets network || one_of udp_nets network then mret (network, 0)
    else if one_of ip_nets network then if needsProto then fail (UnknownNetworkError network) else mret (network, 0)
    else if one_of unix_nets network then mret (network, 0)
    else fail (UnknownNetworkError network)
  else
    afnet ← lift (upto network i);
    if one_of ip_nets afnet then
      protostr ← lift (from network (i + 1));
      let '(proto, i, ok) := dtoi protostr in
      proto ← (if negb ok || negb (i =? len protostr) then on_ports (lookupProtocol etc_protocols fuel protostr) else mret proto);
      mret (afnet, proto)
    else fail (UnknownNetworkError network).
Definition internetAddrList (net addr : bytes) : resolving addrList :=
  '(host, portnum) ← (
    if one_of tcp_nets net || one_of udp_nets net then
      if negb (beq addr []) then
        '(host, port) ← lift (SplitHostPort addr);
        portnum ← lookup_port net port;
        mret (host, portnum)
      else mret ([], 0)
    else if one_of ip_nets net then mret (addr, 0)
    else fail (UnknownNetworkError net));
  if beq host [] then a ← lift (inetaddr net portnum (MkIPAddr [] [])); mret [a]
  else
    ips ← on_lookups (lookupIPAddr strictErrors systemConf net host);
    unspecified ← (if len ips =? 1 then ip0 ← lift (at_ ips 0); mret (IP_Equal (IP ip0) IPv6unspecified) else mret false);
    let ips := if (unspecified : bool) then ips ++ [MkIPAddr IPv4zero []] else ips in
    filter ← lift (family_filter net);
    lift (filterAddrList filter ips (inetaddr net portnum) host).
(** A type assertion, of an address of one kind. *)
Definition as_kind (kind : bytes) (a : net_Addr) : res net_Addr :=
  if beq (Network a) kind then Ok a else Panic [Lit "interface conversion"%go].
Definition ResolveTCPAddr (network address : bytes) : resolving net_Addr :=
  network ← (if one_of tcp_nets network then mret network else if beq network [] then mret "tcp"%go else fail (UnknownNetworkError network));
  addrs ← internetAddrList network address;
  lift (a ← forResolve network address addrs; as_kind "tcp"%go a).
Definition ResolveUDPAddr (network address : bytes) : resolving net_Addr :=
  network ← (if one_of udp_nets network then mret network else if beq network [] then mret "udp"%go else fail (UnknownNetworkError network));
  addrs ← internetAddrList network address;
  lift (a ← forResolve network address addrs; as_kind "udp"%go a).
Definition ResolveIPAddr (network address : bytes) : resolving net_Addr :=
  let network := if beq network [] then "ip"%go else network in
  '(afnet, _) ← parseNetwork network false;
  if one_of ip_nets afnet then
    addrs ← internetAddrList afnet address;
    lift (a ← forResolve network address addrs; as_kind "ip"%go a)
  else fail (UnknownNetworkError network).
Definition ResolveUnixAddr (network address : bytes) : resolving net_Addr :=
  if one_of unix_nets network then mret (UnixAddr address network) else fail (UnknownNetworkError network).
(** The IP of each, all being of kind IPAddr. *)
Fixpoint the_IPs (addrs : addrList) : res (list bytes) :=
  match addrs with
  | [] => Ok []
  | AnIPAddr a :: addrs => l ← the_IPs addrs; Ok (IP a :: l)
  | _ => Panic [Lit "interface conversion"%go]
  end.
Definition LookupIP (network host : bytes) : resolving (list bytes) :=
  '(afnet, _) ← parseNetwork network false;
  if one_of ip_nets afnet then
    if beq host [] then fail (no_such_host host)
    else addrs ← internetAddrList afnet host; lift (the_IPs addrs)
  else fail (UnknownNetworkError network).
Definition LookupNetIP (network host : bytes) : resolving (list Addr) :=
  ips ← LookupIP network host;
  mret (omap (λ ip, let '(a, ok) := AddrFromSlice ip in if (ok : bool) then Some a else None) ips).
Definition the_IP (a : net_Addr) : bytes :=
  match a with TCPAddr ip _ _ | UDPAddr ip _ _ | AnIPAddr (MkIPAddr ip _) => ip | UnixAddr _ _ => [] end.
(** The addresses of the hint's kind, and of its family unless one is
    unspecified.  The hint of a Unix address leaves the pointers to the others nil. *)
Definition hint_keeps (hint addr : net_Addr) : res bool :=
  match addr, hint with
  | UnixAddr _ _, _ => Ok false
  | _, UnixAddr _ _ => if isWildcard (the_IP addr) then Ok true else Panic [Lit "nil pointer dereference"%go]
  | _, _ => Ok (isWildcard (the_IP hint) || isWildcard (the_IP addr) || matchAddrFamily (the_IP addr) (the_IP hint))
  end.
Fixpoint hinted_addrs (hint : net_Addr) (addrs : addrList) : res addrList :=
  match addrs with
  | [] => Ok []
  | addr :: addrs =>
      if negb (beq (Network addr) (Network hint)) then s ← net_Addr_String hint; Err (AddrError "mismatched local address type"%go s)
      else
        keep ← hint_keeps hint addr;
        l ← hinted_addrs hint addrs;
        Ok (if (keep : bool) then addr :: l else l)
  end.
Definition resolveAddrList (op network addr : bytes) (hint : option net_Addr) : resolving addrList :=
  '(afnet, _) ← parseNetwork network true;
  let dial := beq op "dial"%go in
  if dial && beq addr [] then fail errMissingAddress
  else if one_of unix_nets afnet then
    addr ← ResolveUnixAddr afnet addr;
    match hint with
    | Some h =>
        if dial && negb (beq (Network addr) (Network h)) then s ← lift (net_Addr_String h); fail (AddrError "mismatched local address type"%go s)
        else mret [addr]
    | None => mret [addr]
    end
  else
    addrs ← internetAddrList afnet addr;
    match hint with
    | Some h =>
        if dial then
          naddrs ← lift (hinted_addrs h addrs);
          if len naddrs =? 0 then s ← lift (net_Addr_String h); fail (AddrError errNoSuitableAddress s) else mret naddrs
        else mret addrs
    | None => mret addrs
    end.
End resolve.
