(* ===== verification/ResolveProps.v ===== *)
(** * package net: the addresses of endpoints, properties

    What internetAddrList gives is never empty, and every address of it is of the
    net_kind and family of the network, with a port; the choices among it are in it. *)
From stdpp Require Import gmap.
From S2P Require Import Prelude Stateful Strconv LookupOrderProps NetipAddr NetipText NetHost NetHostProps NetIP NetFile NetFileProps DnsNames DnsConfig HostsFile DnsConfigProps HostsFileProps AddrSelect AddrSelectProps NssConf DnsExchange DnsExchangeProps Resolver ResolverProps Ports PortsProps Lookups LookupsProps Resolve.

(** ** Lists of addresses *)
Definition is4 (ip : bytes) : Prop := IP_To4 ip ≠ [].
Definition is6 (ip : bytes) : Prop := len ip = 16 ∧ IP_To4 ip = [].
(** What forResolve would rather have: an IPv6 address where the text is written
    as one, an IPv4 address elsewhere. *)
Definition wants6 (network addr : bytes) : Prop :=
  (network = "ip"%go ∧ (":"%byte : Z) ∈ addr) ∨ ((network = "tcp"%go ∨ network = "udp"%go) ∧ ("["%byte : Z) ∈ addr).
Definition liked (network addr : bytes) (a : net_Addr) : Prop :=
  (wants6 network addr → ¬ is4 (the_IP a)) ∧ (¬ wants6 network addr → is4 (the_IP a)).
(** The first that is liked, or else the first. *)
Definition chosen (network addr : bytes) (addrs : addrList) (a : net_Addr) : Prop :=
  ∃ before after, addrs = before ++ a :: after ∧ Forall (λ b, ¬ liked network addr b) before ∧
    (liked network addr a ∨ before = [] ∧ Forall (λ b, ¬ liked network addr b) addrs).
Lemma chosen_in network addr addrs a : chosen network addr addrs a → a ∈ addrs.
Proof. intros (x&y&->&_). apply elem_of_app. right. left. Qed.
Lemma first_run strategy (P : net_Addr → Prop) addrs : (∀ a, strategy a = true ↔ P a) → addrs ≠ [] → ∃ a before after, first strategy addrs = Ok a ∧
  addrs = before ++ a :: after ∧ Forall (λ b, ¬ P b) before ∧ (P a ∨ before = [] ∧ Forall (λ b, ¬ P b) addrs).
Proof.
  intros HP Hne. assert (Hno : ∀ a, strategy a = false → ¬ P a) by (intros a Ha Hp; apply HP in Hp; congruence).
  assert (Hfind : ∀ l, match List.find strategy l with
    | Some a => ∃ before after, l = before ++ a :: after ∧ Forall (λ b, ¬ P b) before ∧ P a
    | None => Forall (λ b, ¬ P b) l end).
  { induction l as [|a l IH]; cbn [List.find]; [constructor|]. destruct (strategy a) eqn:E.
    - exists [], l. split; [done|]. split; [constructor|]. by apply HP.
    - destruct (List.find strategy l) as [c|].
      + destruct IH as (x&y&->&Hx&Hc). exists (a :: x), y. split; [done|]. split; [|done]. apply list.Forall_cons. split; [by apply Hno|done].
      + apply list.Forall_cons. split; [by apply Hno|done]. }
  unfold first. specialize (Hfind addrs). destruct (List.find strategy addrs) as [a|].
  - destruct Hfind as (x&y&E&Hx&Ha). exists a, x, y. split; [done|]. split; [done|]. split; [done|by left].
  - destruct addrs as [|a addrs]; [done|]. exists a, [], addrs. split; [done|]. split; [done|]. split; [constructor|by right].
Qed.
Lemma CountString_in s c : (CountString s c >? 0) = true ↔ c ∈ s.
Proof.
  rewrite CountString_filter, Z.gtb_lt. rewrite (list_elem_of_In s c). split.
  - destruct (List.filter _ s) as [|x l] eqn:E; [done|]. intros _.
    assert (Hx : In x (List.filter (λ x, x =? c) s)) by (rewrite E; by left). apply filter_In in Hx as [Hx Ec%Z.eqb_eq]. by subst.
  - intros Hc. assert (Hx : In c (List.filter (λ x, x =? c) s)) by (apply filter_In; by rewrite Z.eqb_refl).
    destruct (List.filter _ s) as [|x l]; [done|]. rewrite len_cons. pose proof (len_nonneg l). lia.
Qed.
Lemma isIPv4_is4 a : isIPv4 a = true ↔ is4 (the_IP a).
Proof. unfold is4. destruct a as [ip p z|ip p z|[ip z]|nm nt]; cbn; try (by destruct (IP_To4 ip)). by split. Qed.
Lemma wants6_run network addr :
  (if beq network "ip"%go then CountString addr ":"%byte >? 0
   else if one_of ["tcp"%go; "udp"%go] network then CountString addr "["%byte >? 0 else false) = true ↔ wants6 network addr.
Proof.
  unfold wants6. destruct (beq network "ip"%go) eqn:E.
  - apply beq_eq in E as ->. rewrite CountString_in. split; [by left|]. by intros [[_ ?]|[[[=]|[=]] _]].
  - assert (network ≠ "ip"%go) by (intros ->; by rewrite beq_refl in E). unfold one_of. cbn [existsb]. rewrite orb_false_r.
    destruct (beq network "tcp"%go) eqn:E1; [apply beq_eq in E1 as ->; cbn [orb]; rewrite CountString_in; split; [intros ?; right; split; [by left|done]|by intros [[[=] _]|[_ ?]]]|].
    destruct (beq network "udp"%go) eqn:E2; [apply beq_eq in E2 as ->; cbn [orb]; rewrite CountString_in; split; [intros ?; right; split; [by right|done]|by intros [[[=] _]|[_ ?]]]|].
    cbn [orb]. split; [done|]. intros [[? _]|[[->| ->] _]]; [done|by rewrite beq_refl in E1|by rewrite beq_refl in E2].
Qed.
Lemma forResolve_run network addr addrs : addrs ≠ [] → ∃ a, forResolve network addr addrs = Ok a ∧ chosen network addr addrs a.
Proof.
  intros Hne. unfold forResolve. pose proof (wants6_run network addr) as Hw. destruct (if beq network _ then _ else _).
  - assert (H6 : wants6 network addr) by by apply Hw. destruct (first_run isNotIPv4 (liked network addr) addrs) as (a&x&y&E&H); [|done|exists a; split; [done|by exists x, y]].
    intros c. unfold isNotIPv4, liked. rewrite negb_true_iff, <- not_true_iff_false, isIPv4_is4. tauto.
  - assert (H6 : ¬ wants6 network addr) by (intros H; apply Hw in H; done). destruct (first_run isIPv4 (liked network addr) addrs) as (a&x&y&E&H); [|done|exists a; split; [done|by exists x, y]].
    intros c. unfold liked. rewrite isIPv4_is4. tauto.
Qed.
(** partition divides by the label of the first address, in order. *)
Lemma partition_loop_run strategy label addrs : ∀ p f, partition_loop strategy label addrs p f =
  (p ++ List.filter (λ a, Bool.eqb (strategy a) label) addrs, f ++ List.filter (λ a, negb (Bool.eqb (strategy a) label)) addrs).
Proof.
  induction addrs as [|a addrs IH]; intros p f; cbn [partition_loop List.filter]; [by rewrite !app_nil_r|].
  destruct (Bool.eqb (strategy a) label) eqn:E; cbn [negb].
  - apply Bool.eqb_prop in E. rewrite E, IH, <- app_assoc. done.
  - rewrite IH, <- app_assoc. done.
Qed.
Lemma partition_run strategy a addrs : let same b := Bool.eqb (strategy b) (strategy a) in
  partition strategy (a :: addrs) = (List.filter same (a :: addrs), List.filter (λ b, negb (same b)) (a :: addrs)).
Proof. cbn [partition List.filter]. rewrite Bool.eqb_reflx. cbn [negb]. by rewrite partition_loop_run. Qed.

(** ** Of a network *)
Definition net_kind (net : bytes) : bytes := if one_of tcp_nets net then "tcp"%go else if one_of udp_nets net then "udp"%go else "ip"%go.
Definition family (net ip : bytes) : Prop :=
  (list.last net = Some "6"%byte → len ip = 16 ∧ IP_To4 ip = []) ∧ (list.last net = Some "4"%byte → IP_To4 ip ≠ []).
Definition has_port (a : net_Addr) : Prop := match a with TCPAddr _ p _ | UDPAddr _ p _ => is_port p = true | AnIPAddr _ => True | UnixAddr _ _ => False end.
Definition is_unix (a : net_Addr) : bool := match a with UnixAddr _ _ => true | _ => false end.
#[global] Instance family_dec net ip : Decision (family net ip).
Proof. unfold family. apply _. Defined.
(** The endpoint of an IP address with a port: of the network's kind. *)
Definition made (net : bytes) (port : Z) (ip : IPAddr) (a : net_Addr) : Prop :=
  Network a = net_kind net ∧
  match a with
  | TCPAddr i p z | UDPAddr i p z => i = IP ip ∧ p = port ∧ z = Zone ip
  | AnIPAddr b => b = ip
  | UnixAddr _ _ => False
  end.
Definition endpoint (net : bytes) (a : net_Addr) : Prop := Network a = net_kind net ∧ has_port a.
Definition known (net : bytes) : Prop := one_of tcp_nets net = true ∨ one_of udp_nets net = true ∨ one_of ip_nets net = true.
Lemma made_endpoint net port ip a : is_port port = true → made net port ip a → endpoint net a ∧ the_IP a = IP ip.
Proof. intros Hp [Hk Hm]. unfold endpoint. destruct a as [i p z|i p z|b|nm nt]; cbn in *; [destruct Hm as (->&->&->)|destruct Hm as (->&->&->)|destruct b; by subst|done]; done. Qed.
Lemma made_same net port ip a b : made net port ip a → made net port ip b → a = b.
Proof. intros [Ka Ha] [Kb Hb]. rewrite <- Kb in Ka. destruct a, b; cbn in *; try discriminate Ka; try done; destruct_and?; by subst. Qed.
Lemma all_made_same net port ips l l' : Forall2 (made net port) ips l → Forall2 (made net port) ips l' → l = l'.
Proof. intros Hl. revert l'. induction Hl as [|ip a ips l Ha _ IH]; intros l' Hl'; [by apply Forall2_nil_inv_l in Hl'|]. apply Forall2_cons_inv_l in Hl' as (b&l1&Hb&Hl1&->). f_equal; [by eapply made_same|by apply IH]. Qed.
Lemma inetaddr_run net port ip : known net → ∃ a, inetaddr net port ip = Ok a ∧ made net port ip a.
Proof.
  unfold known, made. intros Hn. unfold inetaddr, net_kind. destruct (one_of tcp_nets net); [by eexists|]. destruct (one_of udp_nets net); [by eexists|].
  destruct (one_of ip_nets net); [eexists; split; [done|]; by destruct ip|]. by destruct Hn as [?|[?|?]].
Qed.
Lemma last_is_run c net : last_is c net = Ok (bool_decide (list.last net = Some c)).
Proof.
  unfold last_is. destruct net as [|d t _] using rev_ind; [done|]. destruct (beq (t ++ [d]) []) eqn:E; [apply beq_eq in E; by destruct t|]. rewrite at_last, last_snoc. cbn [mbind res_bind].
  f_equal. destruct (Z.eqb_spec d c) as [->|Hd]; [by rewrite bool_decide_eq_true_2|by rewrite bool_decide_eq_false_2 by congruence].
Qed.
Lemma family_filter_run net : ∃ filter, family_filter net = Ok filter ∧ ∀ ip, default (λ _, true) filter ip = true ↔ family net (IP ip).
Proof.
  unfold family_filter, family. rewrite !last_is_run. cbn [mbind res_bind]. eexists. split; [reflexivity|]. intros ip. repeat case_bool_decide; cbn [default from_option Datatypes.id]; unfold ipv6only, ipv4only.
  - rewrite andb_true_iff, Z.eqb_eq. change IPv6len with 16. split.
    + intros [Hl1 Hn]. split; [|intros E; rewrite E in *; discriminate]. intros _. split; [done|]. by destruct (IP_To4 (IP ip)).
    + intros [H6 _]. destruct (H6 ltac:(done)) as [Hl1 ->]. done.
  - split.
    + intros Hn. split; [by intros ?|]. intros _ E. by rewrite E in Hn.
    + intros [_ H4]. specialize (H4 ltac:(done)). by destruct (IP_To4 (IP ip)).
  - split; [|done]. intros _. by split; intros ?.
Qed.
Lemma map_addrs_run net port f ips : known net → (∀ ip, f ip = true ↔ family net (IP ip)) →
  ∃ addrs, map_addrs (inetaddr net port) f ips = Ok addrs ∧ Forall2 (made net port) (filter (λ ip, family net (IP ip)) ips) addrs.
Proof.
  intros Hn Hf. induction ips as [|ip ips (addrs&E&Ha)]; cbn [map_addrs]; [exists []; by split; [|constructor]|].
  destruct (f ip) eqn:Ef.
  - destruct (inetaddr_run net port ip Hn) as (a&->&Hm). cbn [mbind res_bind]. rewrite E. cbn [mbind res_bind]. exists (a :: addrs). split; [done|].
    rewrite filter_cons_True by (by apply Hf). by constructor.
  - exists addrs. split; [done|]. rewrite filter_cons_False; [done|]. intros H. apply Hf in H. congruence.
Qed.
Lemma filterAddrList_run net port f ips host : known net → (∀ ip, default (λ _, true) f ip = true ↔ family net (IP ip)) →
  safe (λ addrs, addrs ≠ [] ∧ Forall2 (made net port) (filter (λ ip, family net (IP ip)) ips) addrs) (filterAddrList f ips (inetaddr net port) host).
Proof.
  intros Hn Hf. unfold filterAddrList. destruct (map_addrs_run net port _ ips Hn Hf) as (addrs&->&Ha). cbn [mbind res_bind]. destruct (Z.eqb_spec (len addrs) 0); [done|]. split; [by intros ->|done].
Qed.
Lemma SplitHostPort_bytes addr : is_bytes addr → safe (λ '(host, _), is_bytes host) (SplitHostPort addr).
Proof.
  intros Hb. pose proof (SplitHostPort_cases addr) as Hc. destruct (SplitHostPort addr) as [[h p]|e|m]; [|done|done]. cbn [safe]. destruct Hc as (_&_&_&_&_&[E|[_ E]]); rewrite E in Hb; unfold is_bytes in *.
  - apply list.Forall_app in Hb as [_ Hb]. by apply list.Forall_app in Hb as [Hb _].
  - by apply list.Forall_app in Hb as [Hb _].
Qed.
Lemma endpoint_text a : has_port a ∨ is_unix a = true → ∃ t, net_Addr_String a = Ok t.
Proof.
  assert (Ht : ∀ ip port zone, is_port port = true → ∃ t, TCPAddr_String ip port zone = Ok t).
  { intros ip port zone Hp. unfold TCPAddr_String, Itoa, is_port in *. apply andb_true_iff in Hp as [Hp1%Z.leb_le Hp2%Z.leb_le]. rewrite (proj2 (Z.ltb_ge _ _)) by lia.
    destruct (Uitoa_repr (u64 port)) as (t&->&_); [|by eexists]. pose proof (u64_range port). unfold is_u64 in *. lia. }
  destruct a as [ip port zone|ip port zone|a|nm nt]; cbn [has_port net_Addr_String]; [intros [Hp|[=]]; by apply Ht|intros [Hp|[=]]; by apply Ht|by eexists|by eexists].
Qed.
Lemma endpoint_String a : has_port a ∨ is_unix a = true → safe (λ _, True) (net_Addr_String a).
Proof. intros Ha. by destruct (endpoint_text a Ha) as (t&->). Qed.

(** ** Resolution *)
Section resolve.
Context {W R : Type} `{NetLaws W} `{HostLaws W R} `{!Cgo W} (strictErrors : bool) (systemConf : conf).
Context (etc_services etc_protocols : R + error) (fuel : nat) (cgoLookupPort : bytes → bytes → Z + error).
Context (services_fuel : (length (file_text etc_services) < fuel)%nat) (protocols_fuel : (length (file_text etc_protocols) < fuel)%nat).
Definition resolving_ok (s : (W * dnsConfig * hosts) * directory) : Prop := looking_ok (fst s) ∧ directory_ok etc_services etc_protocols (snd s).
(** No panic, a state as good as before, and what is returned satisfies [P]. *)
Definition resolves {A} (m : resolving (W := W) A) s (P : A → Prop) : Prop := runs m s (λ r s', resolving_ok s' ∧ match r with Some a => P a | None => True end).
Lemma resolves_bind {A B} (m : resolving A) (k : A → resolving B) s P (Q : B → Prop) : resolves m s P → (∀ a s', resolving_ok s' → P a → resolves (k a) s' Q) → resolves (x ← m; k x) s Q.
Proof. intros Hm Hk. apply runs_bind. eapply runs_mono; [exact Hm|]. intros [a|] s1 [Hs1 Ha]; [by apply Hk|done]. Qed.
Lemma resolves_bind' {A B} (m : resolving A) (k : A → resolving B) s P (Q : B → Prop) : resolves m s P →
  (∀ a, fst (m s) = Ok a → resolving_ok (snd (m s)) → P a → resolves (k a) (snd (m s)) Q) → resolves (x ← m; k x) s Q.
Proof.
  intros Hm Hk. unfold resolves, runs, mbind, stateful_bind in *. destruct (m s) as [[a|e|x] s1]; [|done|done]. destruct Hm as [Hs1 Ha]. by apply (Hk a).
Qed.
Lemma resolves_lift {A} (r : res A) s P : resolving_ok s → safe P r → resolves (lift r) s P.
Proof. intros Hok Hr. apply runs_lift; [|done]. eapply safe_mono; [exact Hr|]. by split. Qed.
Lemma resolves_ret {A} (a : A) s (P : A → Prop) : resolving_ok s → P a → resolves (mret a) s P.
Proof. by split. Qed.
Lemma resolves_fail {A} e s (P : A → Prop) : resolving_ok s → resolves (fail e) s P.
Proof. by split. Qed.
Lemma resolves_lookup {A} (m : looking A) s P : resolving_ok s → (∀ s', looking_ok s' → looks m s' P) → resolves (on_lookups m) s P.
Proof.
  intros [Hl Hd] Hm. specialize (Hm _ Hl). unfold resolves, looks, runs, on_lookups, zoom in *. destruct (m (fst s)) as [[a|e|x] s1]; [| |done]; by destruct Hm as [[Hs1 _] Ha].
Qed.
Lemma resolves_port {A} (m : stateful directory A) s P : resolving_ok s →
  (∀ d, directory_ok etc_services etc_protocols d → runs m d (λ r d', directory_ok etc_services etc_protocols d' ∧ match r with Some a => P a | None => True end)) → resolves (on_ports m) s P.
Proof.
  intros [Hl Hd] Hm. specialize (Hm _ Hd). unfold resolves, runs, on_ports, zoom in *. destruct (m (snd s)) as [[a|e|x] d1]; [| |done]; by destruct Hm as [Hd1 Ha].
Qed.
Abbreviation internetAddrList' := (internetAddrList (R := R) strictErrors systemConf etc_services fuel cgoLookupPort).
Lemma lookup_port_resolves network service s : resolving_ok s → resolves (lookup_port systemConf etc_services fuel cgoLookupPort network service) s (λ p, is_port p = true).
Proof.
  intros Hok. unfold lookup_port. destruct s as [[[w cfg] h] d]. apply runs_bind. unfold get. cbn [runs]. apply resolves_port; [done|]. intros d' Hd'. by apply LookupPort_runs.
Qed.
(** What is before the last colon, for a network with a protocol. *)
Definition names (network afnet : bytes) : Prop := afnet = network ∨ ∃ proto, network = afnet ++ ":"%byte :: proto ∧ ":"%byte ∉ proto.
Lemma parseNetwork_resolves network needsProto s : resolving_ok s → resolves (parseNetwork etc_protocols fuel network needsProto) s (λ r, names network (fst r) ∧ (known (fst r) ∨ one_of unix_nets (fst r) = true)).
Proof.
  intros Hok. unfold parseNetwork, known. destruct (last_index_split network ":"%byte) as [[-> _]|(a&b&E&Hb&->)]; cbn [Z.ltb Z.compare].
  - destruct (one_of tcp_nets network) eqn:E1; [apply resolves_ret; [done|split; [by left|by left; left]]|]. destruct (one_of udp_nets network) eqn:E2; [apply resolves_ret; [done|split; [by left|by left; right; left]]|]. cbn [orb].
    destruct (one_of ip_nets network) eqn:E3; [destruct needsProto; [by apply resolves_fail|apply resolves_ret; [done|split; [by left|by left; right; right]]]|].
    destruct (one_of unix_nets network) eqn:E4; [apply resolves_ret; [done|split; [by left|by right]]|by apply resolves_fail].
  - pose proof (len_nonneg a). rewrite (proj2 (Z.ltb_ge _ _)) by lia. rewrite E, upto_app by done. eapply (resolves_bind _ _ _ (λ x, x = a)); [by apply resolves_lift|]. intros x s1 Hs1 ->.
    destruct (one_of ip_nets a) eqn:E3; [|by apply resolves_fail]. rewrite cons_middle, app_assoc, (from_app (a ++ [":"%byte])) by by rewrite len_app.
    eapply (resolves_bind _ _ _ (λ x, x = b)); [by apply resolves_lift|]. intros x s2 Hs2 ->. destruct (dtoi b) as [[proto i] ok]. eapply (resolves_bind _ _ _ (λ _, True)).
    + destruct (_ || _); [|by apply resolves_ret]. apply resolves_port; [done|]. intros d Hd. destruct (lookupProtocol_run etc_services etc_protocols fuel services_fuel protocols_fuel b d Hd) as (d'&Hd'&Ep).
      unfold runs. rewrite Ep. by destruct (protocol_number _ b).
    + intros p s3 Hs3 _. apply resolves_ret; [done|]. split; [right; exists b; split; [by rewrite <- app_assoc|by rewrite list_elem_of_In]|]. left. by right; right.
Qed.
Lemma known_one_of net : known net ↔ one_of tcp_nets net || one_of udp_nets net = true ∨ one_of ip_nets net = true.
Proof. unfold known. destruct (one_of tcp_nets net), (one_of udp_nets net), (one_of ip_nets net); cbn; tauto. Qed.
Lemma not_both net : one_of tcp_nets net || one_of udp_nets net = true → one_of ip_nets net = true → False.
Proof.
  unfold one_of at 3, ip_nets. cbn [existsb]. intros Hn [Hx|[Hx|[Hx|[=]]%orb_true_iff]%orb_true_iff]%orb_true_iff; apply beq_eq in Hx as ->; discriminate Hn.
Qed.
(** The host and the port of an address, and the state they are found in: the
    parts of the text, the port being looked up; on an IP network all of it. *)
Definition host_port net addr s (host : bytes) (port : Z) s1 : Prop :=
  if one_of tcp_nets net || one_of udp_nets net then
    (addr = [] ∧ host = [] ∧ port = 0 ∧ s1 = s) ∨
    (addr ≠ [] ∧ ∃ service, SplitHostPort addr = Ok (host, service) ∧
       lookup_port (R := R) systemConf etc_services fuel cgoLookupPort net service s = (Ok port, s1))
  else host = addr ∧ port = 0 ∧ s1 = s.
(** The endpoints of an address: without a host the one of the nil IP; with a host
    those of its addresses that are of the family, in their order, the IPv4 one
    going with an IPv6 one that is unspecified. *)
Definition listed net addr s (addrs : addrList) : Prop :=
  ∃ host port s1, host_port net addr s host port s1 ∧ is_port port = true ∧
  if beq host [] then ∃ a, addrs = [a] ∧ made net port (MkIPAddr [] []) a
  else ∃ ips, fst (on_lookups (lookupIPAddr strictErrors systemConf net host) s1) = Ok ips ∧
    Forall2 (made net port)
      (filter (λ ip, family net (IP ip))
         (match ips with [ip] => if IP_Equal (IP ip) IPv6unspecified then [ip; MkIPAddr IPv4zero []] else [ip] | _ => ips end)) addrs.
Lemma listed_endpoints net addr s addrs : listed net addr s addrs → Forall (endpoint net) addrs.
Proof.
  assert (Hall : ∀ port ips l, is_port port = true → Forall2 (made net port) ips l → Forall (endpoint net) l).
  { intros port ips l Hp. induction 1 as [|ip a ips l Hm _ IH]; constructor; [|done]. by destruct (made_endpoint _ _ _ _ Hp Hm). }
  intros (host&port&s1&_&Hp&Hres). destruct (beq host []); [destruct Hres as (a&->&Hm); apply Forall_singleton; by destruct (made_endpoint _ _ _ _ Hp Hm)|destruct Hres as (ips&_&Hres); by eapply Hall].
Qed.
(** On an IP network, with a host, all are of the family. *)
Lemma listed_family net addr s addrs : one_of ip_nets net = true → addr ≠ [] → listed net addr s addrs → Forall (λ a, family net (the_IP a)) addrs.
Proof.
  intros Hi Hne (host&port&s1&Hh&Hp&Hres). unfold host_port in Hh. destruct (one_of tcp_nets net || one_of udp_nets net) eqn:En; [by destruct (not_both net)|].
  destruct Hh as (->&->&->). destruct (beq addr []) eqn:E; [by apply beq_eq in E|]. destruct Hres as (ips&_&Hres). apply list.Forall_forall. intros a Ha.
  apply list_elem_of_lookup in Ha as [i Hi']. destruct (Forall2_lookup_r _ _ _ _ _ Hres Hi') as (ip&Hip&Hm).
  apply list_elem_of_lookup_2, list_elem_of_filter in Hip as [Hf _]. by destruct (made_endpoint _ _ _ _ Hp Hm) as [_ ->].
Qed.
Lemma internetAddrList_resolves net addr s : resolving_ok s → is_bytes addr → resolves (internetAddrList' net addr) s 
  (λ addrs, addrs ≠ [] ∧ listed net addr s addrs ∧ known net).
Proof.
  intros Hok Hb. unfold internetAddrList. pose proof (known_one_of net) as Hk.
  assert (Hrest : ∀ host port s1, resolving_ok s1 → is_bytes host → host_port net addr s host port s1 → is_port port = true → known net →
    resolves (if beq host [] then a ← lift (inetaddr net port (MkIPAddr [] [])); mret [a]
      else ips ← on_lookups (lookupIPAddr strictErrors systemConf net host);
           unspecified ← (if len ips =? 1 then ip0 ← lift (at_ ips 0); mret (IP_Equal (IP ip0) IPv6unspecified) else mret false);
           filter ← lift (family_filter net);
           lift (filterAddrList filter (if (unspecified : bool) then ips ++ [MkIPAddr IPv4zero []] else ips) (inetaddr net port) host)) s1
      (λ addrs, addrs ≠ [] ∧ listed net addr s addrs ∧ known net)).
  { intros host port s1 Hs1 Hh Hhp Hp Hnet. destruct (beq host []) eqn:Ehost.
    { destruct (inetaddr_run net port (MkIPAddr [] []) Hnet) as (a&->&Hm). eapply (resolves_bind _ _ _ (λ x, x = a)); [by apply resolves_lift|]. intros x s2 Hs2 ->. apply resolves_ret; [done|].
      split; [done|]. split; [|done]. exists host, port, s1. split; [done|]. split; [done|]. rewrite Ehost. by exists a. }
    eapply resolves_bind'; [apply (resolves_lookup _ _ (λ _, True)); [done|]; intros s' Hs'; by apply lookupIPAddr_looks|]. intros ips Eips Hs2 _.
    eapply (resolves_bind _ _ _ (λ u, (if (u : bool) then ips ++ [MkIPAddr IPv4zero []] else ips) =
      match ips with [ip] => if IP_Equal (IP ip) IPv6unspecified then [ip; MkIPAddr IPv4zero []] else [ip] | _ => ips end)).
    { destruct (Z.eqb_spec (len ips) 1) as [E|E].
      - destruct ips as [|ip0 [|ip1 ips]]; [done| |rewrite !len_cons in E; pose proof (len_nonneg ips); lia]. change (at_ [ip0] 0) with (Ok ip0).
        eapply (resolves_bind _ _ _ (λ x, x = ip0)); [by apply resolves_lift|]. intros x s3 Hs3 ->. apply resolves_ret; [done|]. by destruct (IP_Equal _ _).
      - apply resolves_ret; [done|]. by destruct ips as [|ip0 [|ip1 ips]]. }
    intros u s3 Hs3 ->. destruct (family_filter_run net) as (f&->&Hf). eapply (resolves_bind _ _ _ (λ x, x = f)); [by apply resolves_lift|]. intros x s4 Hs4 ->.
    apply resolves_lift; [done|]. eapply safe_mono; [by apply (filterAddrList_run net port f)|]. intros addrs (Hne&Ha). split; [done|]. split; [|done].
    exists host, port, s1. split; [done|]. split; [done|]. rewrite Ehost. by exists ips. }
  unfold host_port in Hrest. destruct (one_of tcp_nets net || one_of udp_nets net) eqn:En.
  - assert (Hnet : known net) by (apply Hk; by left). destruct (beq addr []) eqn:Ea; cbn [negb].
    + apply beq_eq in Ea as ->. exact (Hrest [] 0 s Hok ltac:(constructor) (or_introl (conj eq_refl (conj eq_refl (conj eq_refl eq_refl)))) eq_refl Hnet).
    + assert (Hne : addr ≠ []) by (intros ->; by rewrite beq_refl in Ea).
      unfold mbind at 1, stateful_bind at 1. unfold mbind at 1, stateful_bind at 1. unfold resolves, runs.
      pose proof (SplitHostPort_bytes addr Hb) as Hsp. destruct (SplitHostPort addr) as [[host service]|e|m] eqn:Esp; [|done|done]. cbn [lift]. cbn [safe] in Hsp.
      unfold mbind at 1, stateful_bind at 1. pose proof (lookup_port_resolves net service s Hok) as Hl. unfold resolves, runs in Hl.
      destruct (lookup_port systemConf etc_services fuel cgoLookupPort net service s) as [[port|e|m] s1] eqn:El; [|done|done]. destruct Hl as [Hs1 Hp]. cbn [mret stateful_ret].
      apply (Hrest host port s1 Hs1 Hsp); [|done|done]. right. split; [done|]. by exists service.
  - destruct (one_of ip_nets net) eqn:Ei; [|by apply resolves_fail].
    exact (Hrest addr 0 s Hok Hb ltac:(done) eq_refl ltac:(apply Hk; by right)).
Qed.
(** Conversely they are found where there is one. *)
Lemma internetAddrList_listed net addr s addrs : known net → addrs ≠ [] → listed net addr s addrs → ∃ s', internetAddrList' net addr s = (Ok addrs, s').
Proof.
  intros Hn Hne (host&port&s1&Hh&Hp&Hl).
  assert (Hrest : ∃ s', (if beq host [] then a ← lift (inetaddr net port (MkIPAddr [] [])); mret [a]
      else ips ← on_lookups (lookupIPAddr strictErrors systemConf net host);
           unspecified ← (if len ips =? 1 then ip0 ← lift (at_ ips 0); mret (IP_Equal (IP ip0) IPv6unspecified) else mret false);
           filter ← lift (family_filter net);
           lift (filterAddrList filter (if (unspecified : bool) then ips ++ [MkIPAddr IPv4zero []] else ips) (inetaddr net port) host)) s1 = (Ok addrs, s')).
  { destruct (beq host []).
    - destruct Hl as (a&->&Hm). destruct (inetaddr_run net port (MkIPAddr [] []) Hn) as (b&->&Hb). rewrite (made_same _ _ _ _ _ Hm Hb). by eexists.
    - destruct Hl as (ips&E&Hl). unfold mbind at 1, stateful_bind at 1. destruct (on_lookups _ s1) as [r s2]. cbn in E. subst r.
      assert (Hu : (if len ips =? 1 then ip0 ← lift (at_ ips 0); mret (IP_Equal (IP ip0) IPv6unspecified) else mret false) s2
        = (Ok (match ips with [ip] => IP_Equal (IP ip) IPv6unspecified | _ => false end), s2)).
      { destruct ips as [|a [|b ips]]; [done|done|]. rewrite !len_cons. pose proof (len_nonneg ips). by rewrite (proj2 (Z.eqb_neq _ _)) by lia. }
      unfold mbind at 1, stateful_bind at 1. rewrite Hu. destruct (family_filter_run net) as (f&->&Hf). exists s2. unfold mbind at 1, stateful_bind at 1. unfold lift, filterAddrList. f_equal.
      match goal with |- context [map_addrs _ ?g ?l] => destruct (map_addrs_run net port g l Hn Hf) as (l'&->&Hl') end.
      assert (l' = addrs) as ->. { eapply all_made_same; [exact Hl'|]. destruct ips as [|a [|b ips]]; [exact Hl| |exact Hl]. by destruct (IP_Equal _ _). }
      cbn [mbind res_bind]. by destruct addrs. }
  unfold internetAddrList, host_port in *. destruct (one_of tcp_nets net || one_of udp_nets net) eqn:En.
  - destruct Hh as [(->&->&->&->)|(Ha&service&Hs&Hlp)]; [exact Hrest|]. destruct (beq addr []) eqn:Eb; [by apply beq_eq in Eb|]. cbn [negb].
    unfold mbind at 1, stateful_bind at 1. unfold mbind at 1, stateful_bind at 1. rewrite Hs. cbn [lift]. unfold mbind at 1, stateful_bind at 1. rewrite Hlp. exact Hrest.
  - destruct Hh as (->&->&->). assert (one_of ip_nets net = true) as -> by (apply known_one_of in Hn as [Hn|Hn]; [by rewrite En in Hn|done]). exact Hrest.
Qed.
(** There is an answer. *)
Definition answers {A} (m : resolving (W := W) A) s : Prop := ∃ a, fst (m s) = Ok a.
Lemma answers_bind {A B} (m : resolving A) (k : A → resolving B) s a s' : m s = (Ok a, s') → answers (k a) s' → answers (x ← m; k x) s.
Proof. intros E Hk. unfold answers, mbind, stateful_bind. rewrite E. exact Hk. Qed.
(** The address is the one that forResolve prefers of those of the network. *)
Definition resolved_as s (net network addr : bytes) (a : net_Addr) : Prop :=
  ∃ addrs, listed net addr s addrs ∧ endpoint net a ∧ chosen network addr addrs a.
Lemma choose_resolves net network addr want s : resolving_ok s → is_bytes addr → (known net → net_kind net = want) →
  resolves (addrs ← internetAddrList' net addr; lift (a ← forResolve network addr addrs; as_kind want a)) s (λ a, Network a = want ∧ resolved_as s net network addr a).
Proof.
  intros Hok Hb Hk. eapply resolves_bind; [by apply internetAddrList_resolves|]. intros addrs s1 Hs1 (Hne&Hli&Hnet). apply resolves_lift; [done|].
  destruct (forResolve_run network addr addrs Hne) as (a&->&Hch). cbn [mbind res_bind]. pose proof (listed_endpoints _ _ _ _ Hli) as Ha.
  rewrite list.Forall_forall in Ha. pose proof (Ha a (chosen_in _ _ _ _ Hch)) as Hend. pose proof Hend as (Hka&_).
  unfold as_kind. rewrite Hka, (Hk Hnet), beq_refl. split; [by rewrite Hka, Hk|]. by exists addrs.
Qed.
Lemma choose_answers net network addr want addrs s : known net → net_kind net = want → addrs ≠ [] → listed net addr s addrs →
  answers (addrs ← internetAddrList' net addr; lift (a ← forResolve network addr addrs; as_kind want a)) s.
Proof.
  intros Hn Hk Hne Hli. destruct (internetAddrList_listed net addr s addrs Hn Hne Hli) as (s'&E). eapply answers_bind; [exact E|].
  destruct (forResolve_run network addr addrs Hne) as (a&Ea&Hch). pose proof (listed_endpoints _ _ _ _ Hli) as Ha. rewrite list.Forall_forall in Ha.
  destruct (Ha a (chosen_in _ _ _ _ Hch)) as [Hka _]. unfold answers, lift. cbn [fst]. rewrite Ea. cbn [mbind res_bind]. unfold as_kind. rewrite Hka, Hk, beq_refl. by eexists.
Qed.
Definition or_default_net (network default : bytes) : bytes := if beq network [] then default else network.
(** The choice of the network, common to ResolveTCPAddr and ResolveUDPAddr. *)
Lemma with_net (nets : list bytes) dflt network s (k : bytes → resolving net_Addr) P : resolving_ok s → one_of nets [] = false → one_of nets dflt = true →
  (one_of nets (or_default_net network dflt) = true → resolves (k (or_default_net network dflt)) s P) →
  resolves (n ← (if one_of nets network then mret network else if beq network [] then mret dflt else fail (UnknownNetworkError network)); k n) s P.
Proof.
  intros Hok Hnil Hd Hk. unfold or_default_net in Hk. destruct (one_of nets network) eqn:E.
  - assert (En : beq network [] = false) by (destruct (beq network []) eqn:En; [apply beq_eq in En as ->; by rewrite Hnil in E|done]). rewrite En in Hk. exact (Hk E).
  - destruct (beq network []); [exact (Hk Hd)|done].
Qed.
Lemma with_net_answers (nets : list bytes) dflt network s (k : bytes → resolving net_Addr) : one_of nets [] = false → one_of nets (or_default_net network dflt) = true → answers (k (or_default_net network dflt)) s →
  answers (n ← (if one_of nets network then mret network else if beq network [] then mret dflt else fail (UnknownNetworkError network)); k n) s.
Proof.
  intros Hnil Hd Hk. eapply answers_bind; [|exact Hk]. unfold or_default_net in *. destruct (one_of nets network) eqn:E; [|destruct (beq network []) eqn:En; [done|by rewrite E in Hd]].
  destruct (beq network []) eqn:En; [apply beq_eq in En as ->; by rewrite E in Hnil|done].
Qed.
Abbreviation ResolveTCPAddr' := (ResolveTCPAddr (R := R) strictErrors systemConf etc_services fuel cgoLookupPort).
Abbreviation ResolveUDPAddr' := (ResolveUDPAddr (R := R) strictErrors systemConf etc_services fuel cgoLookupPort).
Abbreviation ResolveIPAddr' := (ResolveIPAddr strictErrors systemConf etc_services etc_protocols fuel cgoLookupPort).
Lemma ResolveTCPAddr_resolves network addr s : resolving_ok s → is_bytes addr →
  resolves (ResolveTCPAddr' network addr) s (λ a, let net := or_default_net network "tcp"%go in Network a = "tcp"%go ∧ resolved_as s net net addr a).
Proof.
  intros Hok Hb. apply with_net; [done|done|done|]. intros Hn. apply choose_resolves; [done|done|]. intros _. unfold net_kind. by rewrite Hn.
Qed.
Lemma ResolveUDPAddr_resolves network addr s : resolving_ok s → is_bytes addr →
  resolves (ResolveUDPAddr' network addr) s (λ a, let net := or_default_net network "udp"%go in Network a = "udp"%go ∧ resolved_as s net net addr a).
Proof.
  intros Hok Hb. apply with_net; [done|done|done|]. intros Hn. apply choose_resolves; [done|done|]. intros _. unfold net_kind. rewrite Hn.
  destruct (one_of tcp_nets _) eqn:Et; [|done]. exfalso. revert Et Hn. generalize (or_default_net network "udp"%go). intros x. unfold one_of at 1, tcp_nets. cbn [existsb].
  intros [Hx|[Hx|[Hx|[=]]%orb_true_iff]%orb_true_iff]%orb_true_iff; apply beq_eq in Hx as ->; by intros [=].
Qed.
Lemma ip_kind net : one_of ip_nets net = true → net_kind net = "ip"%go.
Proof. unfold one_of at 1, ip_nets. cbn [existsb]. intros [Hx|[Hx|[Hx|[=]]%orb_true_iff]%orb_true_iff]%orb_true_iff; apply beq_eq in Hx as ->; reflexivity. Qed.
Lemma udp_kind net : one_of udp_nets net = true → net_kind net = "udp"%go.
Proof. unfold one_of at 1, udp_nets. cbn [existsb]. intros [Hx|[Hx|[Hx|[=]]%orb_true_iff]%orb_true_iff]%orb_true_iff; apply beq_eq in Hx as ->; reflexivity. Qed.
(** The network without its protocol, and the state in which it is known. *)
Definition network_of network (needsProto : bool) s (afnet : bytes) s1 : Prop :=
  names network afnet ∧ ∃ proto, parseNetwork (W := W) etc_protocols fuel network needsProto s = (Ok (afnet, proto), s1).
Lemma network_made network needsProto s r : fst (parseNetwork etc_protocols fuel network needsProto s) = Ok r → names network (fst r) →
  network_of network needsProto s (fst r) (snd (parseNetwork (W := W) etc_protocols fuel network needsProto s)).
Proof. intros E Hn. split; [done|]. exists (snd r). destruct (parseNetwork _ _ _ _ s) as [r' s']. cbn in *. subst. by destruct r. Qed.
Lemma ResolveIPAddr_resolves network addr s : resolving_ok s → is_bytes addr →
  resolves (ResolveIPAddr' network addr) s (λ a, let net := or_default_net network "ip"%go in
    Network a = "ip"%go ∧ ∃ afnet s1, network_of net false s afnet s1 ∧ resolved_as s1 afnet net addr a).
Proof.
  intros Hok Hb. unfold ResolveIPAddr. eapply resolves_bind'; [by apply parseNetwork_resolves|]. intros [afnet proto] Er Hs1 [Hn _]. pose proof (network_made _ _ _ _ Er Hn) as Hof. destruct (one_of ip_nets afnet) eqn:E; [|by apply resolves_fail].
  eapply runs_mono; [apply (choose_resolves afnet _ addr "ip"%go); [done|done|intros _; by apply ip_kind]|]. intros [a|] s2 [Hs2 Ha]; [|done]. split; [done|]. destruct Ha as [Hk Ha]. split; [done|]. eexists afnet, _. split; [exact Hof|exact Ha].
Qed.
Lemma the_IPs_run net addrs : net_kind net = "ip"%go → Forall (endpoint net) addrs → the_IPs addrs = Ok (map the_IP addrs).
Proof.
  intros Hk. induction 1 as [|a addrs (Hka&Hp) _ IH]; [done|]. rewrite Hk in Hka. destruct a as [ip port zone|ip port zone|[ip zone]|nm nt]; cbn [the_IPs map]; [done|done|by rewrite IH|done].
Qed.
Abbreviation LookupIP' := (LookupIP strictErrors systemConf etc_services etc_protocols fuel cgoLookupPort).
(** LookupIP gives the IPs of the addresses, one at least, all of the family. *)
Lemma LookupIP_resolves network host s : resolving_ok s → is_bytes host →
  resolves (LookupIP' network host) s (λ ips, ips ≠ [] ∧ ∃ afnet s1 addrs, network_of network false s afnet s1 ∧
    one_of ip_nets afnet = true ∧ listed afnet host s1 addrs ∧ ips = map the_IP addrs ∧ Forall (family afnet) ips).
Proof.
  intros Hok Hb. unfold LookupIP. eapply resolves_bind'; [by apply parseNetwork_resolves|]. intros [afnet proto] Er Hs1 [Hn _]. pose proof (network_made _ _ _ _ Er Hn) as Hof. destruct (one_of ip_nets afnet) eqn:E; [|by apply resolves_fail].
  destruct (beq host []) eqn:Eh; [by apply resolves_fail|]. assert (host ≠ []) by (intros ->; discriminate Eh). eapply resolves_bind; [by apply internetAddrList_resolves|]. intros addrs s2 Hs2 (Hne&Hli&_). apply resolves_lift; [done|].
  rewrite (the_IPs_run afnet) by (by apply ip_kind || by eapply listed_endpoints). split; [by destruct addrs|]. eexists afnet, _, addrs. split; [exact Hof|]. split; [done|]. split; [exact Hli|]. split; [done|].
  apply List.Forall_map. by eapply listed_family.
Qed.

(** *** The hint of a local address *)
Definition good_hint (h : net_Addr) : Prop := has_port h ∨ is_unix h = true ∧ one_of unix_nets (Network h) = true.
(** Of a family that the local address can reach: the same one, unless either is
    nil or unspecified. *)
Definition unspecified (ip : bytes) : Prop := ip = [] ∨ IP_IsUnspecified ip = true.
Definition suits (h a : net_Addr) : Prop :=
  unspecified (the_IP h) ∨ unspecified (the_IP a) ∨ (is4 (the_IP h) ∧ is4 (the_IP a)) ∨ (is6 (the_IP h) ∧ is6 (the_IP a)).
Lemma wildcard_run ip : isWildcard ip = true ↔ unspecified ip.
Proof. unfold isWildcard, unspecified. rewrite orb_true_iff. assert (is_nil ip = true ↔ ip = []) by (by destruct ip). tauto. Qed.
Lemma match_run ip x : matchAddrFamily ip x = true ↔ (is4 ip ∧ is4 x) ∨ (is6 ip ∧ is6 x).
Proof.
  assert (H4 : ∀ y, negb (is_nil (IP_To4 y)) = true ↔ is4 y) by (intros y; unfold is4; by destruct (IP_To4 y)).
  assert (H6 : ∀ y, negb (is_nil (IP_To16 y)) = true ∧ is_nil (IP_To4 y) = true ↔ is6 y).
  { intros y. unfold is6, IP_To16. change IPv4len with 4. change IPv6len with 16. split.
    - intros [Hn H4y]. assert (IP_To4 y = []) as E by (by destruct (IP_To4 y)). split; [|done].
      destruct (Z.eqb_spec (len y) 4) as [El|El]; [|by destruct (Z.eqb_spec (len y) 16)].
      unfold IP_To4 in E. change IPv4len with 4 in E. rewrite (proj2 (Z.eqb_eq _ _) El) in E. by subst.
    - intros [El ->]. rewrite El. cbn. split; [|done]. by destruct y. }
  unfold matchAddrFamily. rewrite orb_true_iff, !andb_true_iff, !H4, <- !H6. tauto.
Qed.
#[global] Instance suits_dec h a : Decision (suits h a).
Proof. unfold suits, unspecified, is4, is6. apply _. Defined.
Lemma suits_run h a : isWildcard (the_IP h) || isWildcard (the_IP a) || matchAddrFamily (the_IP a) (the_IP h) = true ↔ suits h a.
Proof. rewrite !orb_true_iff, !wildcard_run, match_run. unfold suits. tauto. Qed.
Lemma unix_kind net h : is_unix h = true → one_of unix_nets (Network h) = true → Network h ≠ net_kind net.
Proof. intros _ Hu E. rewrite E in Hu. unfold net_kind in Hu. by destruct (one_of tcp_nets net), (one_of udp_nets net). Qed.
Lemma hinted_addrs_run net h addrs : good_hint h → Forall (endpoint net) addrs →
  safe (λ l, l = filter (suits h) addrs ∧ Forall (λ a, Network a = Network h) addrs) (hinted_addrs h addrs).
Proof.
  intros Hh. assert (Hs : safe (λ _, True) (net_Addr_String h)) by (apply endpoint_String; by destruct Hh as [?|[? _]]; [left|right]).
  induction 1 as [|a addrs Ha _ IH]; cbn [hinted_addrs]; [by split|]. destruct (beq (Network a) (Network h)) eqn:En; cbn [negb].
  - apply beq_eq in En. pose proof Ha as (Hk&Hp).
    assert (Hkeep : hint_keeps h a = Ok (isWildcard (the_IP h) || isWildcard (the_IP a) || matchAddrFamily (the_IP a) (the_IP h))).
    { destruct Hh as [Hh|[Hu Hu']]; [by destruct a, h|]. by destruct (unix_kind net h Hu Hu'); rewrite <- En. }
    rewrite Hkeep. cbn [mbind res_bind]. eapply safe_bind; [exact IH|]. intros l [-> Hall]. pose proof (suits_run h a) as Hsu.
    destruct (isWildcard (the_IP h) || _ || _); (split; [|by apply list.Forall_cons]).
    + rewrite filter_cons_True; [done|by apply Hsu].
    + rewrite filter_cons_False; [done|]. intros Hx. by apply Hsu in Hx.
  - eapply safe_bind; [exact Hs|]. done.
Qed.
(** What resolveAddrList gives: the name of a Unix socket, or all the addresses;
    to dial from a local address, those of its kind that suit it. *)
Definition address_list (op network addr : bytes) (hint : option net_Addr) s (addrs : addrList) : Prop :=
  ∃ afnet s1, network_of network true s afnet s1 ∧
  if one_of unix_nets afnet then
    addrs = [UnixAddr addr afnet] ∧ (op = "dial"%go → ∀ h, hint = Some h → afnet = Network h)
  else ∃ l, listed afnet addr s1 l ∧
    match hint with
    | Some h => if decide (op = "dial"%go) then addrs = filter (suits h) l ∧ Forall (λ a, Network a = Network h) l else addrs = l
    | None => addrs = l
    end.
Lemma resolveAddrList_resolves op network addr hint s : resolving_ok s → is_bytes addr → (∀ h, hint = Some h → good_hint h) →
  resolves (resolveAddrList strictErrors systemConf etc_services etc_protocols fuel cgoLookupPort op network addr hint) s
    (λ addrs, addrs ≠ [] ∧ address_list op network addr hint s addrs).
Proof.
  intros Hok Hb Hh. unfold resolveAddrList. eapply resolves_bind'; [by apply parseNetwork_resolves|]. intros [afnet proto] Er Hs1 [Hn _]. pose proof (network_made _ _ _ _ Er Hn) as Hof. cbn [fst] in Hn. cbn zeta.
  set (s1 := snd (parseNetwork (W := W) etc_protocols fuel network true s)) in *.
  destruct (_ && _); [by apply resolves_fail|].
  destruct (one_of unix_nets afnet) eqn:Eu.
  - assert (Hone : (op = "dial"%go → ∀ h, hint = Some h → afnet = Network h) → [UnixAddr addr afnet] ≠ [] ∧ address_list op network addr hint s [UnixAddr addr afnet]).
    { intros Hm. split; [done|]. exists afnet, s1. split; [exact Hof|]. rewrite Eu. by split. }
    unfold ResolveUnixAddr. rewrite Eu. eapply (resolves_bind _ _ _ (λ a, a = UnixAddr addr afnet)); [by apply resolves_ret|]. intros x s2 Hs2 ->. destruct hint as [h|].
    + destruct (beq op "dial"%go && negb (beq (Network (UnixAddr addr afnet)) (Network h))) eqn:E.
      * eapply (resolves_bind _ _ _ (λ _, True)); [apply resolves_lift; [done|]; apply endpoint_String; destruct (Hh h eq_refl) as [?|[? _]]; [by left|by right]|]. intros t s3 Hs3 _. by apply resolves_fail.
      * apply resolves_ret; [done|]. apply Hone. intros -> h' [= <-]. rewrite beq_refl in E. cbn [andb] in E. apply negb_false_iff, beq_eq in E. done.
    + apply resolves_ret; [done|]. by apply Hone.
  - eapply resolves_bind; [by apply internetAddrList_resolves|]. intros addrs s2 Hs2 (Hne&Hli&Hnet).
    assert (Hall : (∀ h, hint = Some h → op ≠ "dial"%go) → addrs ≠ [] ∧ address_list op network addr hint s addrs).
    { intros Hno. split; [done|]. exists afnet, s1. split; [exact Hof|]. rewrite Eu. exists addrs. split; [done|]. destruct hint as [h|]; [|done]. rewrite decide_False; [done|]. by apply (Hno h). }
    destruct hint as [h|]; [|apply resolves_ret; [done|]; by apply Hall].
    destruct (beq op "dial"%go) eqn:Eop; [|apply resolves_ret; [done|]; apply Hall; intros h' _ ->; by rewrite beq_refl in Eop].
    apply beq_eq in Eop. eapply resolves_bind; [apply resolves_lift; [done|]; apply (hinted_addrs_run afnet); [by apply Hh|by eapply listed_endpoints]|]. intros l s3 Hs3 (->&Hk). destruct (Z.eqb_spec (len (filter (suits h) addrs)) 0) as [_|Hnz].
    + eapply (resolves_bind _ _ _ (λ _, True)); [apply resolves_lift; [done|]; apply endpoint_String; destruct (Hh h eq_refl) as [?|[? _]]; [by left|by right]|]. intros t s4 Hs4 _. by apply resolves_fail.
    + apply resolves_ret; [done|]. split; [intros E; by rewrite E in Hnz|]. exists afnet, s1. split; [exact Hof|]. rewrite Eu. exists addrs. split; [done|]. by rewrite decide_True.
Qed.
(** *** Where there is an answer *)
Lemma resolved_answers network addr s addrs : addrs ≠ [] →
  (let net := or_default_net network "tcp"%go in one_of tcp_nets net = true → listed net addr s addrs → answers (ResolveTCPAddr' network addr) s) ∧
  (let net := or_default_net network "udp"%go in one_of udp_nets net = true → listed net addr s addrs → answers (ResolveUDPAddr' network addr) s) ∧
  (∀ afnet s1, network_of (or_default_net network "ip"%go) false s afnet s1 → one_of ip_nets afnet = true → listed afnet addr s1 addrs → answers (ResolveIPAddr' network addr) s) ∧
  (∀ afnet s1, network_of network false s afnet s1 → one_of ip_nets afnet = true → addr ≠ [] → listed afnet addr s1 addrs → fst (LookupIP' network addr s) = Ok (map the_IP addrs)).
Proof.
  intros Hne. split; [|split; [|split]].
  - intros net Hn Hli. apply with_net_answers; [done|done|]. apply (choose_answers net net addr _ addrs); [by left|unfold net_kind; by rewrite Hn|done|done].
  - intros net Hn Hli. apply with_net_answers; [done|done|]. apply (choose_answers net net addr _ addrs); [right; by left|by apply udp_kind|done|done].
  - intros afnet s1 (_&proto&E) Hn Hli. unfold ResolveIPAddr. fold (or_default_net network "ip"%go). eapply answers_bind; [exact E|]. cbn [fst]. rewrite Hn.
    apply (choose_answers afnet _ addr _ addrs); [right; by right|by apply ip_kind|done|done].
  - intros afnet s1 (_&proto&E) Hn Ha Hli. unfold LookupIP. unfold mbind at 1, stateful_bind at 1. rewrite E, Hn. destruct (beq addr []) eqn:Eb; [by apply beq_eq in Eb|].
    destruct (internetAddrList_listed afnet addr s1 addrs) as (s2&E2); [right; by right|done|done|]. unfold mbind at 1, stateful_bind at 1. rewrite E2. unfold lift. cbn [fst].
    apply the_IPs_run with afnet; [by apply ip_kind|by eapply listed_endpoints].
Qed.
Lemma hinted_addrs_same h : good_hint h → ∀ l, Forall (λ a, has_port a ∧ Network a = Network h) l → hinted_addrs h l = Ok (filter (suits h) l).
Proof.
  intros Hh. induction l as [|a l IH]; [done|]. intros [[Hp En] Hl]%list.Forall_cons. cbn [hinted_addrs]. rewrite En, beq_refl. cbn [negb]. rewrite IH by done.
  assert (hint_keeps h a = Ok (isWildcard (the_IP h) || isWildcard (the_IP a) || matchAddrFamily (the_IP a) (the_IP h))) as ->.
  { destruct Hh as [Hh|[Hu Hu']]; [by destruct a, h|]. rewrite <- En in Hu'. by destruct a. }
  cbn [mbind res_bind]. pose proof (suits_run h a) as Hsu. destruct (isWildcard (the_IP h) || _ || _).
  - rewrite filter_cons_True; [done|by apply Hsu].
  - rewrite filter_cons_False; [done|]. intros Hx. by apply Hsu in Hx.
Qed.
Lemma address_list_answers op network addr hint s addrs : resolving_ok s → (∀ h, hint = Some h → good_hint h) → (op = "dial"%go → addr ≠ []) → addrs ≠ [] → address_list op network addr hint s addrs →
  fst (resolveAddrList strictErrors systemConf etc_services etc_protocols fuel cgoLookupPort op network addr hint s) = Ok addrs.
Proof.
  intros Hok Hh Hop Hne (afnet&s1&(Hn&proto&E)&Hl). pose proof (parseNetwork_resolves network true s Hok) as Hk. unfold resolves, runs in Hk. rewrite E in Hk. destruct Hk as (_&_&Hk). cbn [fst] in Hk.
  unfold resolveAddrList. unfold mbind at 1, stateful_bind at 1. rewrite E. cbn zeta.
  assert (Hcond : beq op "dial"%go && beq addr [] = false). { destruct (beq op "dial"%go) eqn:Eo; [|done]. apply beq_eq in Eo. destruct (beq addr []) eqn:Ea; [|done]. apply beq_eq in Ea. by destruct (Hop Eo). }
  rewrite Hcond. destruct (one_of unix_nets afnet) eqn:Eu.
  - destruct Hl as [-> Hhint]. unfold ResolveUnixAddr. rewrite Eu. unfold mbind at 1, stateful_bind at 1, mret, stateful_ret. destruct hint as [h|]; [|done].
    destruct (beq op "dial"%go) eqn:Eo; [|done]. apply beq_eq in Eo. rewrite <- (Hhint Eo h eq_refl). cbn [Network]. by rewrite beq_refl.
  - destruct Hl as (l&Hli&Hl). assert (Hln : l ≠ []). { intros ->. destruct hint as [h|]; [|done]. destruct (decide _); [|done]. destruct Hl as [-> _]. by apply Hne. }
    destruct (internetAddrList_listed afnet addr s1 l) as (s2&E2); [by destruct Hk as [?|[=]]|done|done|]. unfold mbind at 1, stateful_bind at 1. rewrite E2. destruct hint as [h|]; [|by subst].
    destruct (decide (op = "dial"%go)) as [->|Hnd]; [|subst; destruct (beq op "dial"%go) eqn:Eo; [by apply beq_eq in Eo|done]]. rewrite beq_refl. destruct Hl as [-> Hall].
    unfold mbind at 1, stateful_bind at 1. rewrite (hinted_addrs_same h); [|by apply Hh|].
    + cbn [lift]. destruct (Z.eqb_spec (len (filter (suits h) l)) 0) as [E0|]; [|done]. destruct (filter (suits h) l); [done|]. rewrite len_cons in E0. pose proof (len_nonneg l0). lia.
    + pose proof (listed_endpoints _ _ _ _ Hli) as He. rewrite list.Forall_forall in *. intros a Ha. split; [by apply He|by apply Hall].
Qed.
End resolve.
(** The endpoints of the sample host, with the services of the sample file. *)
Definition endpoints_state : (mailbox * dnsConfig * hosts) * directory := (go_dev_state, directory_listed).
Definition tcp_of (network address : bytes) : res net_Addr :=
  fst (ResolveTCPAddr (R := memory) false linux_conf (inl services_sample) 200 (λ _ _, inr (New []%go)) network address endpoints_state).
Definition list_of (op network address : bytes) (hint : option net_Addr) : res (list net_Addr) :=
  fst (resolveAddrList (R := memory) false linux_conf (inl services_sample) (inr (New []%go)) 200 (λ _ _, inr (New []%go)) op network address hint endpoints_state).
Lemma endpoints_ok : resolving_ok (R := memory) (inl services_sample) (inr (New []%go)) endpoints_state.
Proof. split; [apply go_dev_ok|apply directory_listed_ok]. Qed.
