(* ===== verification/Dial.v ===== *)
(** * package net: dialing (dial.go)

    The deadlines of a dial, dialing one address after the other, and the race
    of two such dials.  Times are nanoseconds since the zero Time, which is 0.  A
    TCPConn and its fellows are of a type [C]. *)
From S2P Require Import Prelude Stateful Strconv NetipAddr NetipText NetHost NetIP NetFile DnsNames DnsConfig HostsFile AddrSelect NssConf DnsExchange Resolver Ports Lookups Resolve.

(** ** Deadlines *)
Definition Millisecond : Z := 1000000.
Definition saneMinimum : Z := 2 * DnsConfig.Second.
Definition Time_Sub (t u : Z) : Z := Z.max (- 2 ^ 63) (Z.min (2 ^ 63 - 1) (t - u)).
Definition minNonzeroTime (a b : Z) : Z :=
  if a =? 0 then b else if (b =? 0) || (a <? b) then a else b.
Record Dialer : Set := MkDialer { Timeout : Z; Deadline : Z; FallbackDelay : Z; LocalAddr : option net_Addr; MultipathTCP : bool }.
Definition dualStack (d : Dialer) : bool := FallbackDelay d >=? 0.
(** [ctx] is the deadline of the context, if it has one. *)
Definition deadline (d : Dialer) (ctx : option Z) (now : Z) : Z :=
  let earliest := if negb (Timeout d =? 0) then now + Timeout d else 0 in
  let earliest := match ctx with Some t => minNonzeroTime earliest t | None => earliest end in
  minNonzeroTime earliest (Deadline d).
Definition partialDeadline (now deadline addrsRemaining : Z) : res Z :=
  if deadline =? 0 then Ok deadline
  else
    let timeRemaining := Time_Sub deadline now in
    if timeRemaining <=? 0 then Err errTimeout
    else if addrsRemaining =? 0 then Panic [Lit "integer divide by zero"%go]
    else
      let timeout := Z.quot timeRemaining addrsRemaining in
      let timeout := if timeout <? saneMinimum then if timeRemaining <? saneMinimum then timeRemaining else saneMinimum else timeout in
      Ok (now + timeout).
Definition fallbackDelay (d : Dialer) : Z := if FallbackDelay d >? 0 then FallbackDelay d else 300 * Millisecond.
(** The deadline of the context that DialContext goes on with. *)
Definition dial_deadline (d : Dialer) (ctx : option Z) (now : Z) : option Z :=
  let t := deadline d ctx now in
  if t =? 0 then ctx
  else match ctx with Some c => if t <? c then Some t else Some c | None => Some t end.

(** ** Errors *)
Definition OpError_Error (op net : bytes) (source addr : option net_Addr) (err : error) : res bytes :=
  let s := op ++ (if negb (beq net []) then " "%go ++ net else []) in
  s ← (match source with Some a => t ← net_Addr_String a; Ok (s ++ " "%go ++ t) | None => Ok s end);
  s ← (match addr with
       | Some a => t ← net_Addr_String a; Ok (s ++ (match source with Some _ => "->"%go | None => " "%go end) ++ t)
       | None => Ok s
       end);
  Ok (s ++ ": "%go ++ Error err).
(** An OpError of dialing, with what its methods say; for the error of a system
    call [err] says what the errno does. *)
Definition OpError (net : bytes) (source addr : option net_Addr) (err : error) : res error :=
  text ← OpError_Error "dial"%go net source addr err;
  Ok (Foreign text true (is_timeout err) (is_temporary err) true).

(** ** One address after the other *)
Inductive dial_func : Set := dialTCP | dialMPTCP | dialUDP | dialIP | dialUnix.
(** What is outside: the clock, the context, and the sockets that are connected. *)
Class Dialing (W C : Type) : Type := {
  time_Now : W → Z * W;
  (** The context's error, once it is done. *)
  ctx_Done : W → option error * W;
  (** With the network, the local address, the remote address and a deadline. *)
  dial_with : dial_func → bytes → option net_Addr → net_Addr → option Z → W → (C + error) * W;
}.
(** A call of dialSingle: how, with what deadline, and what came of it. *)
Record attempted (C : Type) : Type := MkAttempt {
  via : dial_func; on_net : bytes; from_addr : option net_Addr; to_addr : net_Addr; until : option Z; came : C + error }.
Arguments MkAttempt {C}.
Arguments via {C}.
Arguments on_net {C}.
Arguments from_addr {C}.
Arguments to_addr {C}.
Arguments until {C}.
Arguments came {C}.
(** What dialSerial asks of the outside, with the answers. *)
Inductive serial_event (C : Type) : Type :=
| Asked (done : option error)          (* the context *)
| Clocked (now : Z)
| Called (a : attempted C).
Arguments Asked {C}.
Arguments Clocked {C}.
Arguments Called {C}.

Section serial.
Context {W C : Type} `{!Dialing W C} (sd : Dialer) (network : bytes).
(** What is asked is recorded. *)
Definition dials (A : Type) : Type := stateful (W * list (serial_event C)) A.
Definition with_world {A} (f : W → A * W) (ev : A → serial_event C) : dials A :=
  λ '(w, l), let '(a, w) := f w in (Ok a, (w, l ++ [ev a])).
Definition dialError {A} (source addr : option net_Addr) (err : error) : dials A :=
  e ← lift (OpError network source addr err); fail e.
(** The assertion that the local address is of the remote one's type. *)
Definition of_type (ra : net_Addr) (la : option net_Addr) : option net_Addr :=
  match ra, la with
  | TCPAddr _ _ _, Some (TCPAddr _ _ _) | UDPAddr _ _ _, Some (UDPAddr _ _ _) | AnIPAddr _, Some (AnIPAddr _) | UnixAddr _ _, Some (UnixAddr _ _) => la
  | _, _ => None
  end.
Definition func_of (ra : net_Addr) : dial_func :=
  match ra with
  | TCPAddr _ _ _ => if MultipathTCP sd then dialMPTCP else dialTCP
  | UDPAddr _ _ _ => dialUDP
  | AnIPAddr _ => dialIP
  | UnixAddr _ _ => dialUnix
  end.
Definition dialSingle (dl : option Z) (ra : net_Addr) : dials C :=
  let la := LocalAddr sd in
  r ← with_world (dial_with (func_of ra) network (of_type ra la) ra dl)
        (λ r, Called (MkAttempt (func_of ra) network (of_type ra la) ra dl r));
  match r with inl c => mret c | inr err => dialError la (Some ra) err end.
Definition dialed_last (firstErr : option error) : dials C :=
  match firstErr with Some e => fail e | None => dialError None None errMissingAddress end.
(** The deadline of the next call, or the error of partialDeadline where there is
    no time left. *)
Definition next_deadline (ctx : option Z) (addrsRemaining : Z) : dials (option Z + error) :=
  match ctx with
  | None => mret (inl None)
  | Some deadline =>
      now ← with_world time_Now Clocked;
      p ← attempt (lift (partialDeadline now deadline addrsRemaining));
      mret (match p with inl p => inl (Some (if p <? deadline then p else deadline)) | inr e => inr e end)
  end.
(** From an address on that has [i] before it, of [n]. *)
Fixpoint dialSerial_loop (n : Z) (ctx : option Z) (ras : addrList) (i : Z) (firstErr : option error) : dials C :=
  match ras with
  | [] => dialed_last firstErr
  | ra :: rest =>
      done ← with_world ctx_Done Asked;
      match done with
      | Some err => dialError (LocalAddr sd) (Some ra) (mapErr err)
      | None =>
          dl ← next_deadline ctx (n - i);
          match dl with
          | inr e =>
              firstErr ← (match firstErr with Some e => mret e | None => lift (OpError network (LocalAddr sd) (Some ra) e) end);
              fail firstErr
          | inl dl =>
              r ← attempt (dialSingle dl ra);
              match r with
              | inl c => mret c
              | inr e => dialSerial_loop n ctx rest (i + 1) (Some (default e firstErr))
              end
          end
      end
  end.
Definition dialSerial (ctx : option Z) (ras : addrList) : dials C := dialSerial_loop (len ras) ctx ras 0 None.
End serial.

(** ** The race *)
(** A goroutine of startRacer: dialing, then waiting for its result to be taken
    or for the race to be over. *)
Inductive racer_state (C : Type) : Type :=
| Dials
| Offers (r : C + error)
| Gone.
Arguments Dials {C}.
Arguments Offers {C}.
Arguments Gone {C}.
(** fallbackTimer: running with its delay, its time in the channel, or neither. *)
Inductive timer : Set := Running (delay : Z) | Expired | Spent.
(** [primary] and [fallback] are the results' errors, once they are done. *)
Record race (C : Type) : Type := MkRace {
  racers : list (bool * racer_state C);
  fallbackTimer : timer;
  primary : option error;
  fallback : option error;
  returned : option (C + error);
  closed : list C;
}.
Arguments MkRace {C}.
Arguments racers {C}.
Arguments fallbackTimer {C}.
Arguments primary {C}.
Arguments fallback {C}.
Arguments returned {C}.
Arguments closed {C}.
Section race.
Context {C : Type}.
Implicit Types s : race C.
Definition dialParallel_start (delay : Z) : race C := MkRace [(true, Dials)] (Running delay) None None None [].
Definition set_racer (i : nat) (st : racer_state C) s : race C :=
  MkRace (alter (λ r, (r.1, st)) i (racers s)) (fallbackTimer s) (primary s) (fallback s) (returned s) (closed s).
Definition set_timer (t : timer) s : race C := MkRace (racers s) t (primary s) (fallback s) (returned s) (closed s).
Definition start_racer (p : bool) s : race C := MkRace (racers s ++ [(p, Dials)]) (fallbackTimer s) (primary s) (fallback s) (returned s) (closed s).
Definition set_done (p : bool) (e : error) s : race C :=
  if p then MkRace (racers s) (fallbackTimer s) (Some e) (fallback s) (returned s) (closed s)
  else MkRace (racers s) (fallbackTimer s) (primary s) (Some e) (returned s) (closed s).
(** The deferred Stop and close. *)
Definition return_ (r : C + error) s : race C := MkRace (racers s) Spent (primary s) (fallback s) (Some r) (closed s).
Definition close_conn (r : C + error) s : race C :=
  match r with inl c => MkRace (racers s) (fallbackTimer s) (primary s) (fallback s) (returned s) (closed s ++ [c]) | inr _ => s end.
(** The body of the select that took a result. *)
Definition on_result (p : bool) (r : C + error) s : race C :=
  match r with
  | inl c => return_ (inl c) s
  | inr e =>
      let s := set_done p e s in
      match primary s, fallback s with
      | Some e, Some _ => return_ (inr e) s
      | _, _ => match fallbackTimer s with Running _ => if p then set_timer (Running 0) s else s | _ => s end
      end
  end.
Inductive race_event : Type :=
| Finish (i : nat) (r : C + error)     (* dialSerial returns to a racer *)
| Expire                               (* the timer's time comes *)
| TakeTimer                            (* <-fallbackTimer.C *)
| TakeResult (i : nat)                 (* res := <-results *)
| Leave (i : nat).                     (* <-returned *)
Definition race_step (e : race_event) s : option (race C) :=
  match e with
  | Finish i r => match racers s !! i with Some (_, Dials) => Some (set_racer i (Offers r) s) | _ => None end
  | Expire => match fallbackTimer s with Running _ => Some (set_timer Expired s) | _ => None end
  | TakeTimer =>
      match returned s, fallbackTimer s with
      | None, Expired => Some (start_racer false (set_timer Spent s))
      | _, _ => None
      end
  | TakeResult i =>
      match returned s, racers s !! i with
      | None, Some (p, Offers r) => Some (on_result p r (set_racer i Gone s))
      | _, _ => None
      end
  | Leave i =>
      match returned s, racers s !! i with
      | Some _, Some (_, Offers r) => Some (close_conn r (set_racer i Gone s))
      | _, _ => None
      end
  end.
Fixpoint run_race (l : list race_event) s : option (race C) :=
  match l with [] => Some s | e :: l => s ← race_step e s; run_race l s end.
End race.
Arguments race_event : clear implicits.

(** ** What is dialed *)
Section dial.
Context {W R : Type} `{Net W} `{Reader R} `{!Host W R} `{!Cgo W} (strictErrors : bool) (systemConf : conf).
Context (etc_services etc_protocols : R + error) (fuel : nat) (cgoLookupPort : bytes → bytes → Z + error).
(** The first part of DialContext: the addresses to race. *)
Definition dial_addrs (d : Dialer) (network address : bytes) : resolving (W := W) (addrList * addrList) :=
  r ← attempt (resolveAddrList (R := R) strictErrors systemConf etc_services etc_protocols fuel cgoLookupPort "dial"%go network address (LocalAddr d));
  match r with
  | inr err => e ← lift (OpError network None None err); fail e
  | inl addrs => if dualStack d && beq network "tcp"%go then mret (Resolve.partition isIPv4 addrs) else mret (addrs, [])
  end.
End dial.
