(* ===== verification/DialProps.v ===== *)
(** * package net: dialing, properties

    A dial tries its addresses in turn and each gets a fair part of the time; the
    race of two dials ends, and no connection is left open but the one returned. *)
From S2P Require Import Prelude Stateful Strconv NetipAddr NetipText NetHost NetIP NetFile DnsNames DnsConfig HostsFile AddrSelect NssConf DnsExchange DnsExchangeProps Resolver ResolverProps Ports PortsProps Lookups LookupsProps Resolve ResolveProps Dial.

(** ** Deadlines *)
(** The earliest of those that are not zero. *)
Definition earliest (l : list Z) (t : Z) : Prop := (t = 0 ∨ t ∈ l) ∧ Forall (λ x, x = 0 ∨ t ≠ 0 ∧ t <= x) l.
Lemma minNonzeroTime_run a b : minNonzeroTime a b = if decide (a = 0) then b else if decide (b = 0) then a else Z.min a b.
Proof.
  unfold minNonzeroTime. repeat case_decide; destruct (Z.eqb_spec a 0), (Z.eqb_spec b 0); try done; destruct (Z.ltb_spec a b); cbn; lia.
Qed.
Lemma deadline_run d ctx now : earliest [if decide (Timeout d = 0) then 0 else now + Timeout d; default 0 ctx; Deadline d] (deadline d ctx now).
Proof.
  unfold deadline, earliest. rewrite !list.Forall_cons, !elem_of_cons. destruct (Z.eqb_spec (Timeout d) 0) as [E|E], ctx as [t|]; cbn [negb default]; rewrite !minNonzeroTime_run; repeat case_decide; cbn; repeat split; try lia; by constructor.
Qed.
(** What one of [n] addresses gets of the time: an equal part, but two seconds
    where there is as much; no Duration is longer than 2^63-1 ns. *)
Definition share (t now n : Z) : Z := let left := Z.min (2 ^ 63 - 1) (t - now) in Z.max (Z.min left saneMinimum) (Z.quot left n).
Lemma quot_le a n : 0 < a → 0 < n → Z.quot a n <= a.
Proof. intros Ha Hn. apply Z.quot_le_upper_bound; [done|]. rewrite <- (Z.mul_1_l a) at 1. apply Z.mul_le_mono_nonneg_r; lia. Qed.
Lemma partialDeadline_run now t n : t ≠ 0 → 0 < n → partialDeadline now t n = if decide (now < t) then Ok (now + share t now n) else Err errTimeout.
Proof.
  intros Ht Hn. unfold partialDeadline, Time_Sub, share. rewrite (proj2 (Z.eqb_neq t 0)), (proj2 (Z.eqb_neq n 0)) by lia. case_decide as Hlt.
  - set (a := Z.min (2 ^ 63 - 1) (t - now)). assert (Ha : 0 < a) by lia. rewrite Z.max_r by lia. rewrite (proj2 (Z.leb_gt _ _)) by lia. pose proof (quot_le a n Ha Hn).
    f_equal. f_equal. destruct (Z.ltb_spec (Z.quot a n) saneMinimum); [destruct (Z.ltb_spec a saneMinimum)|]; lia.
  - rewrite (proj2 (Z.leb_le _ _)) by lia. done.
Qed.
Lemma share_within now t n : now < t → 0 < n → now < now + share t now n <= t.
Proof.
  intros Ht Hn. unfold share, saneMinimum, DnsConfig.Second. set (a := Z.min (2 ^ 63 - 1) (t - now)). assert (Ha : 0 < a <= t - now) by lia. pose proof (quot_le a n ltac:(lia) Hn). lia.
Qed.

(** ** One address after the other *)
Definition printable (a : net_Addr) : Prop := has_port a ∨ is_unix a = true.
Definition local_ok (la : option net_Addr) : Prop := match la with Some a => printable a | None => True end.
Lemma OpError_made network source addr err : local_ok source → local_ok addr → ∃ e, OpError network source addr err = Ok e.
Proof.
  pose proof endpoint_text as Hs. intros Hso Had. unfold OpError, OpError_Error. destruct source as [a|]; [destruct (Hs a Hso) as (u&->)|]; cbn [mbind res_bind]; (destruct addr as [b|]; [destruct (Hs b Had) as (v&->)|]; cbn [mbind res_bind]; by eexists).
Qed.
Section serial.
Context {W C : Type} `{!Dialing W C} (sd : Dialer) (network : bytes) (ctx : option Z).
Context (ctx_set : ctx ≠ Some 0) (local_printable : local_ok (LocalAddr sd)).
Implicit Types (w : W) (l : list (serial_event C)) (rounds : list (option Z * attempted C)).
(** A round: the context is not done, the clock is read where there is a
    deadline, and the address is dialed. *)
Definition round (x : option Z * attempted C) : list (serial_event C) :=
  Asked None :: (match fst x with Some now => [Clocked now] | None => [] end) ++ [Called (snd x)].
(** The deadline of a call made at [now], [remaining] addresses being left. *)
Definition timely (remaining : Z) (x : option Z * attempted C) : Prop :=
  match ctx with
  | None => fst x = None ∧ until (snd x) = None
  | Some t => ∃ now p, fst x = Some now ∧ until (snd x) = Some p ∧ now < p <= t ∧ p = now + share t now remaining
  end.
Definition same_type (a b : net_Addr) : bool :=
  match a, b with
  | TCPAddr _ _ _, TCPAddr _ _ _ | UDPAddr _ _ _, UDPAddr _ _ _ | AnIPAddr _, AnIPAddr _ | UnixAddr _ _, UnixAddr _ _ => true
  | _, _ => false
  end.
(** On the network, from the local address where it is of the remote one's type,
    with the function for it. *)
Definition right_call (a : attempted C) : Prop :=
  on_net a = network ∧
  from_addr a = (match LocalAddr sd with Some la => if same_type la (to_addr a) then Some la else None | None => None end) ∧
  match to_addr a with
  | TCPAddr _ _ _ => via a = if MultipathTCP sd then dialMPTCP else dialTCP
  | UDPAddr _ _ _ => via a = dialUDP
  | AnIPAddr _ => via a = dialIP
  | UnixAddr _ _ => via a = dialUnix
  end.
Definition failed (x : option Z * attempted C) : Prop := ∃ err, came (snd x) = inr err.
(** The error of the first address, if it was dialed; [otherwise] it is given. *)
Definition first_error (firstErr : option error) rounds (otherwise e : res error) : Prop :=
  match firstErr, rounds with
  | Some e1, _ => e = Ok e1
  | None, (_, a) :: _ => ∃ err, came a = inr err ∧ e = OpError network (LocalAddr sd) (Some (to_addr a)) err
  | None, [] => e = otherwise
  end.
(** Why a run that got no connection ended, by what it asked last. *)
Definition gave_up (ras : addrList) (firstErr : option error) rounds (tail : list (serial_event C)) (e : res error) : Prop :=
  match tail with
  | [] =>                               (* every address was dialed *)
      map (λ x, to_addr (snd x)) rounds = ras ∧ first_error firstErr rounds (OpError network None None errMissingAddress) e
  | [Asked (Some err)] =>               (* the context was done before the next *)
      ∃ ra, ras !! length rounds = Some ra ∧ e = OpError network (LocalAddr sd) (Some ra) (mapErr err)
  | [Asked None; Clocked now] =>        (* its deadline had passed before the next *)
      ∃ t ra, ctx = Some t ∧ t <= now ∧ ras !! length rounds = Some ra ∧
        first_error firstErr rounds (OpError network (LocalAddr sd) (Some ra) errTimeout) e
  | _ => False
  end.
(** What a run from the record [l] did. *)
Definition serial_result (ras : addrList) (firstErr : option error) l (out : res C * (W * list (serial_event C))) : Prop :=
  ∃ rounds tail, snd (snd out) = l ++ concat (map round rounds) ++ tail ∧
  map (λ x, to_addr (snd x)) rounds `prefix_of` ras ∧
  (∀ j x, rounds !! j = Some x → timely (len ras - Z.of_nat j) x ∧ right_call (snd x)) ∧
  match fst out with
  | Ok c => tail = [] ∧ ∃ before x, rounds = before ++ [x] ∧ came (snd x) = inl c ∧ Forall failed before
  | Err e => Forall failed rounds ∧ gave_up ras firstErr rounds tail (Ok e)
  | Panic _ => False
  end.
Lemma dialError_run {A} addr err w l : local_ok addr → ∃ e, OpError network (LocalAddr sd) addr err = Ok e ∧ (dialError network (LocalAddr sd) addr err : dials A) (w, l) = (Err e, (w, l)).
Proof. intros Ha. destruct (OpError_made network (LocalAddr sd) addr err local_printable Ha) as (e&E). exists e. split; [done|]. unfold dialError, lift, mbind, stateful_bind. by rewrite E. Qed.
Lemma next_deadline_run remaining w l : 0 < remaining → ∃ dl w' now, next_deadline ctx remaining (w, l) = (Ok dl, (w', l ++ (match now with Some now => [Clocked now] | None => [] end))) ∧
  match dl with
  | inl p => ∀ a, until a = p → timely remaining (now, a)
  | inr e => e = errTimeout ∧ ∃ t n, ctx = Some t ∧ now = Some n ∧ t <= n
  end.
Proof.
  intros Hr. unfold next_deadline, timely. destruct ctx as [t|]; [|exists (inl None), w, None; by rewrite app_nil_r]. unfold with_world, mbind, stateful_bind, lift, attempt. destruct (time_Now w) as [now w'].
  rewrite partialDeadline_run by (done || congruence). case_decide as Hlt; (eexists _, w', (Some now); split; [reflexivity|]); [|split; [done|]; exists t, now; split; [done|]; split; [done|lia]].
  intros a Ha. exists now. eexists. split; [done|]. split; [exact Ha|].
  pose proof (share_within now t remaining Hlt Hr). destruct (Z.ltb_spec (now + share t now remaining) t); [done|]. assert (t = now + share t now remaining) as Et by lia. split; [lia|done].
Qed.
Lemma called_right dl ra r : right_call (MkAttempt (func_of sd ra) network (of_type ra (LocalAddr sd)) ra dl r).
Proof. split; [done|]. cbn. split; [by destruct ra, (LocalAddr sd) as [[]|]|by destruct ra]. Qed.
Lemma dialSingle_run p ra w l : printable ra → ∃ a w', to_addr a = ra ∧ until a = p ∧ right_call a ∧
  match came a with
  | inl c => dialSingle sd network p ra (w, l) = (Ok c, (w', l ++ [Called a]))
  | inr err => ∃ e, OpError network (LocalAddr sd) (Some ra) err = Ok e ∧ dialSingle sd network p ra (w, l) = (Err e, (w', l ++ [Called a]))
  end.
Proof.
  intros Hra. unfold dialSingle, with_world, mbind, stateful_bind. destruct (dial_with _ _ _ _ _ w) as [r w'].
  exists (MkAttempt (func_of sd ra) network (of_type ra (LocalAddr sd)) ra p r), w'. split; [done|]. split; [done|]. split; [apply called_right|]. destruct r as [c|err]; [done|].
  destruct (dialError_run (A := C) (Some ra) err w' (l ++ [Called (MkAttempt (func_of sd ra) network (of_type ra (LocalAddr sd)) ra p (inr err))]) Hra) as (e&E&E'). by exists e.
Qed.
(** No call made. *)
Lemma serial_none ras firstErr l tail w e : gave_up ras firstErr [] tail (Ok e) → serial_result ras firstErr l (Err e, (w, l ++ tail)).
Proof. intros He. exists [], tail. split; [done|]. split; [apply prefix_nil|]. split; [done|]. by split; [constructor|]. Qed.
(** A round more before the others, which failed. *)
Lemma first_error_cons firstErr x rounds err e other e' : came (snd x) = inr err →
  OpError network (LocalAddr sd) (Some (to_addr (snd x))) err = Ok e →
  first_error (Some (default e firstErr)) rounds other e' → first_error firstErr (x :: rounds) other e'.
Proof. intros Hc He. cbn. intros ->. destruct firstErr as [e1|]; [done|]. destruct x as [o a]. cbn in *. exists err. by rewrite He. Qed.
Lemma serial_cons ra rest firstErr x err e l out : to_addr (snd x) = ra → timely (len (ra :: rest)) x → right_call (snd x) → came (snd x) = inr err → OpError network (LocalAddr sd) (Some ra) err = Ok e →
  serial_result rest (Some (default e firstErr)) (l ++ round x) out → serial_result (ra :: rest) firstErr l out.
Proof.
  intros Hra Ht Hrc Hc He (rounds&tail&El&Hpre&Htimes&Hres). exists (x :: rounds), tail. split; [by rewrite El; cbn [map concat]; rewrite <- !app_assoc|]. split; [cbn; rewrite Hra; by apply prefix_cons|]. split.
  - intros [|j] b; [intros [= <-]; by rewrite Z.sub_0_r|]. intros Hb. specialize (Htimes j b Hb). rewrite len_cons. by replace (len rest + 1 - Z.of_nat (S j)) with (len rest - Z.of_nat j) by lia.
  - destruct (fst out) as [c|e'|m]; [|destruct Hres as [Hf Hres]; split|done].
    + destruct Hres as (->&before&b&->&Hb&Hf). split; [done|]. exists (x :: before), b. split; [done|]. split; [done|]. apply list.Forall_cons. split; [by exists err|done].
    + apply list.Forall_cons. split; [by exists err|done].
    + rewrite <- Hra in He. unfold gave_up in *. destruct tail as [|[[er|]|now|b] [|[d|now'|b'] [|]]]; try done.
      * destruct Hres as [<- Hfe]. split; [cbn; by rewrite Hra|]. by eapply first_error_cons.
      * destruct Hres as (t&ra'&Hc'&Hlt&Hl&Hfe). exists t, ra'. split; [done|]. split; [done|]. split; [done|]. by eapply first_error_cons.
Qed.
Lemma dialSerial_loop_run n ras : ∀ i firstErr w l, n - i = len ras → Forall printable ras → serial_result ras firstErr l (dialSerial_loop sd network n ctx ras i firstErr (w, l)).
Proof.
  induction ras as [|ra rest IH]; intros i firstErr w l Hn Hras; cbn [dialSerial_loop].
  - unfold dialed_last. assert (Hnil : ∀ e : error, first_error firstErr [] (OpError network None None errMissingAddress) (Ok e) → serial_result [] firstErr l (Err e, (w, l))).
    { intros e He. rewrite <- (app_nil_r l) at 2. apply serial_none. by split. }
    destruct firstErr as [e|]; [by apply Hnil|]. destruct (OpError_made network None None errMissingAddress I I) as (e&E).
    unfold dialError, lift, mbind, stateful_bind. rewrite E. apply Hnil. by cbn.
  - apply list.Forall_cons in Hras as [Hra Hrest]. unfold with_world at 1, mbind at 1, stateful_bind at 1. destruct (ctx_Done w) as [[err|] w1].
    { destruct (dialError_run (A := C) (Some ra) (mapErr err) w1 (l ++ [Asked (Some err)]) Hra) as (e&E&->). apply serial_none. exists ra. by rewrite E. }
    unfold mbind at 1, stateful_bind at 1. destruct (next_deadline_run (n - i) w1 (l ++ [Asked None])) as (dl&w2&now&->&Hdl); [rewrite Hn, len_cons; pose proof (len_nonneg rest); lia|]. destruct dl as [p|e].
    + unfold attempt, mbind, stateful_bind. destruct (dialSingle_run p ra w2 ((l ++ [Asked None]) ++ match now with Some now => [Clocked now] | None => [] end) Hra) as (a&w3&Ha&Hu&Hrc&Hs).
      assert (El : ((l ++ [Asked None]) ++ match now with Some now => [Clocked now] | None => [] end) ++ [Called a] = l ++ round (now, a)) by (unfold round; by rewrite <- !app_assoc).
      assert (Ht : timely (len (ra :: rest)) (now, a)) by (rewrite <- Hn; by apply Hdl).
      rewrite El in Hs. destruct (came a) as [c|err] eqn:Ec.
      * rewrite Hs. exists [(now, a)], []. split; [cbn [map concat snd]; by rewrite !app_nil_r|]. split; [cbn; rewrite Ha; by apply prefix_cons, prefix_nil|]. split; [intros [|j] b; cbn; [intros [= <-]; by rewrite Z.sub_0_r|done]|].
        split; [done|]. by exists [], (now, a).
      * destruct Hs as (e&E&->). eapply (serial_cons ra rest firstErr (now, a) err e); [done..|]. apply IH; [|done]. rewrite len_cons in Hn. lia.
    + destruct Hdl as [-> (t&nw&Hctx&->&Hle)]. unfold mbind, stateful_bind. rewrite <- app_assoc.
      destruct firstErr as [e|]; [apply serial_none; by exists t, ra|]. destruct (OpError_made network (LocalAddr sd) (Some ra) errTimeout local_printable Hra) as (e&E).
      unfold lift. rewrite E. apply serial_none. exists t, ra. cbn. by rewrite E.
Qed.
(** C16: dialSerial does not panic.  It takes the addresses in turn, each at most
    once and none after one that succeeds: it asks the context, reads the clock
    where the context has a deadline, and calls dialSingle with the function for
    the address, the local address where it is of the same type, and a deadline
    between now and the context's: the address's equal part of the time left,
    but two seconds where there are.  It returns the connection of the last
    call.  Without one it ends only when every address was dialed, or the clock
    showed the context's deadline to have passed, with the first address's
    error; or when the context said that it is done, with what it said about the
    address that was next. *)
Theorem dialSerial_spec ras w l : Forall printable ras → serial_result ras None l (dialSerial sd network ctx ras (w, l)).
Proof. intros Hras. apply dialSerial_loop_run; [lia|done]. Qed.
End serial.
(** A host with a clock: each call takes as long as its plan says, or until its
    deadline; the context is done when its time has come. *)
Record clock : Set := MkClock { time_now : Z; context_end : option Z; plans : list (Z * (Z + error)) }.
#[global] Instance clock_Dialing : Dialing clock Z := {
  time_Now w := (time_now w, w);
  ctx_Done w := (match context_end w with Some t => if t <=? time_now w then Some context_DeadlineExceeded else None | None => None end, w);
  dial_with _ _ _ _ dl w :=
    match plans w with
    | (takes, r) :: plans =>
        let over := match dl with Some p => p <? time_now w + takes | None => false end in
        if over then (inr errTimeout, MkClock (default 0 dl) (context_end w) plans) else (r, MkClock (time_now w + takes) (context_end w) plans)
    | [] => (inr errTimeout, w)
    end }.
Definition dialer : Dialer := MkDialer 0 0 0 None false.
Definition four : addrList := map (λ k, TCPAddr [192; 0; 2; k] 80 []) [1; 2; 3; 4].
Definition conn_refused : error := Foreign "connection conn_refused"%go true false false false.
Definition seconds (k : Z) : Z := k * DnsConfig.Second.
(** A minute for four addresses: the first takes its quarter in vain. *)
Definition a_minute : clock := MkClock (seconds 1000) (Some (seconds 1060)) [(seconds 40, inl 1); (seconds 1, inr conn_refused); (seconds 3, inl 3)].
Definition calls_of (out : res Z * (clock * list (serial_event Z))) : res Z * list (option Z * (Z + error)) :=
  (fst out, omap (λ e, match e with Called a => Some (until a, came a) | _ => None end) (snd (snd out))).
Lemma dialSerial_spec_witness :
  calls_of (dialSerial dialer "tcp"%go (Some (seconds 1060)) four (a_minute, [])) =
    (Ok 3, [(Some (seconds 1015), inr errTimeout); (Some (seconds 1030), inr conn_refused); (Some (seconds 1038), inl 3)]) ∧
  serial_result dialer "tcp"%go (Some (seconds 1060)) four None [] (dialSerial dialer "tcp"%go (Some (seconds 1060)) four (a_minute, [])).
Proof.
  split; [vm_compute; reflexivity|]. apply dialSerial_spec; [done|done|]. unfold four. cbn. repeat (apply list.Forall_cons; split; [by left|]). constructor.
Defined.
(** The error of a later address, although the first one's is known. *)
Lemma dialSerial_interrupted : fst (dialSerial dialer "tcp"%go (Some (seconds 1001)) four (MkClock (seconds 1000) (Some (seconds 1001)) [(seconds 1, inr conn_refused)], [])) =
  Err (Foreign "dial tcp 192.0.2.2:80: i/o timeout"%go true true true true).
Proof. vm_compute. reflexivity. Qed.

(** ** The race *)
Section race.
Context {C : Type} (delay : Z).
Implicit Types s : race C.
Definition conns (r : C + error) : list C := match r with inl c => [c] | inr _ => [] end.
(** The connections the racers' dials made. *)
Definition produced (l : list (race_event C)) : list C := concat (map (λ e, match e with Finish _ r => conns r | _ => [] end) l).
Definition offered (st : racer_state C) : list C := match st with Offers r => conns r | _ => [] end.
Definition second (f : option (racer_state C)) : list (bool * racer_state C) := match f with Some f => [(false, f)] | None => [] end.
Definition conns_back (r : option (C + error)) : list C := match r with Some r => conns r | None => [] end.
(** What the steps [l] lead to, the main racer being [p] and the other [f]. *)
Record race_inv (l : list (race_event C)) (p : racer_state C) (f : option (racer_state C)) s : Prop := {
  inv_racers : racers s = (true, p) :: second f;
  inv_conns : produced l ≡ₚ offered p ++ match f with Some f => offered f | None => [] end ++ closed s ++ conns_back (returned s);
  inv_offer : ∀ r, p = Offers r → Finish 0 r ∈ l;
  inv_offer' : ∀ r, f = Some (Offers r) → Finish 1 r ∈ l;
  inv_primary : ∀ e, primary s = Some e → p = Gone ∧ Finish 0 (inr e) ∈ l;
  inv_fallback : ∀ e, fallback s = Some e → f = Some Gone ∧ Finish 1 (inr e) ∈ l;
  inv_open : returned s = None → closed s = [];
  inv_took : returned s = None → p = Gone → primary s ≠ None;
  inv_took' : returned s = None → f = Some Gone → fallback s ≠ None;
  inv_once : returned s = None → primary s = None ∨ fallback s = None;
  inv_armed : returned s = None → fallbackTimer s ≠ Spent → f = None;
  inv_spent : returned s = None → f = None → fallbackTimer s ≠ Spent;
  inv_timer : ∀ d, fallbackTimer s = Running d → d = delay ∧ primary s = None ∨ d = 0 ∧ primary s ≠ None;
  inv_over : returned s ≠ None → fallbackTimer s = Spent;
  inv_error : ∀ e, returned s = Some (inr e) → primary s = Some e ∧ fallback s ≠ None ∧ closed s = [];
}.
Lemma race_start_inv : race_inv [] Dials None (dialParallel_start delay).
Proof.
  split; cbn; try done.
  - by left.
  - intros d [= ->]. by left.
Qed.
Lemma produced_snoc l e : produced (l ++ [e]) = produced l ++ match e with Finish _ r => conns r | _ => [] end.
Proof. unfold produced. rewrite map_app, concat_app. cbn [map concat]. by rewrite app_nil_r. Qed.
Lemma run_race_snoc l e s : run_race (l ++ [e]) s = s ← run_race l s; race_step e s.
Proof.
  revert s. induction l as [|x l IH]; intros s; cbn [run_race app]; unfold mbind, option_bind in *; [by destruct (race_step e s)|]. destruct (race_step x s); [apply IH|done].
Qed.
(** A racer by its number. *)
Lemma racer_at l p f s i q st : race_inv l p f s → racers s !! i = Some (q, st) → i = 0%nat ∧ q = true ∧ p = st ∨ i = 1%nat ∧ q = false ∧ f = Some st.
Proof.
  intros Hi E. rewrite (inv_racers _ _ _ _ Hi) in E. destruct i as [|[|i]]; cbn in E; [injection E as <- <-; by left| |]; destruct f as [f|]; cbn in E; [injection E as <- <-; by right| | |]; by discriminate.
Qed.
Lemma in_before {A} (x : A) l e : x ∈ l → x ∈ l ++ [e].
Proof. intros Hx. apply elem_of_app. by left. Qed.
Lemma in_last {A} (x : A) l : x ∈ l ++ [x].
Proof. apply elem_of_app. right. by left. Qed.
Local Hint Resolve in_before in_last : core.
(** What is left of each clause, the state being explicit. *)
Ltac racing := cbn [racers fallbackTimer primary fallback returned closed set_racer set_timer start_racer set_done return_ close_conn on_result offered conns conns_back second] in *.
Ltac facts := repeat match goal with
  | B : ?x = Some ?e, I : (∀ e, ?x = Some e → _) |- _ => destruct (I e B); clear I
  | B : ?x = Some (inr ?e), I : (∀ e, ?x = Some (inr e) → _) |- _ => destruct (I e B) as (?&?&?); clear I
  | I : ?P → _, B : ?P |- _ => match type of P with Prop => specialize (I B) end
  end.
Ltac race_clauses := split; racing; subst; intros; facts; try done; simplify_eq; auto.
Lemma finish_inv l p f s i r s' : race_inv l p f s → race_step (Finish i r) s = Some s' → ∃ p' f', race_inv (l ++ [Finish i r]) p' f' s'.
Proof.
  intros Hi. cbn [race_step]. destruct (racers s !! i) as [[q [|r'|]]|] eqn:E; try done. intros [= <-]. destruct (racer_at _ _ _ _ _ _ _ Hi E) as [(->&->&->)|(->&->&->)].
  - exists (Offers r), f. destruct Hi, s. race_clauses.
    rewrite produced_snoc, inv_conns0. cbn [offered]. rewrite app_nil_l. apply Permutation_app_comm.
  - exists p, (Some (Offers r)). destruct Hi, s. race_clauses.
    rewrite produced_snoc, inv_conns0. cbn [offered]. rewrite !app_nil_l, <- app_assoc. apply Permutation_app_head, Permutation_app_comm.
Qed.
Lemma silent (e : race_event C) l k : produced l ≡ₚ k → match e with Finish _ _ => False | _ => True end → produced (l ++ [e]) ≡ₚ k.
Proof. intros Hk He. rewrite produced_snoc. destruct e; [done|..]; by rewrite app_nil_r. Qed.
Lemma expire_inv l p f s s' : race_inv l p f s → race_step Expire s = Some s' → ∃ p' f', race_inv (l ++ [Expire]) p' f' s'.
Proof.
  intros Hi. cbn [race_step]. destruct (fallbackTimer s) eqn:E; try done. intros [= <-]. exists p, f. destruct Hi, s. race_clauses. by apply silent.
Qed.
Lemma take_timer_inv l p f s s' : race_inv l p f s → race_step TakeTimer s = Some s' → ∃ p' f', race_inv (l ++ [TakeTimer]) p' f' s'.
Proof.
  intros Hi. cbn [race_step]. destruct (returned s) eqn:Er; [done|]. destruct (fallbackTimer s) eqn:E; try done. intros [= <-].
  assert (Hf : f = None) by (apply (inv_armed _ _ _ _ Hi); [done|by rewrite E]). subst f. exists p, (Some Dials). destruct Hi, s. race_clauses. by apply silent.
Qed.
Lemma take_result_inv l p f s i s' : race_inv l p f s → race_step (TakeResult i) s = Some s' → ∃ p' f', race_inv (l ++ [TakeResult i]) p' f' s'.
Proof.
  intros Hi. cbn [race_step]. destruct (returned s) eqn:Er; [done|]. destruct (racers s !! i) as [[q [|r|]]|] eqn:E; try done. intros [= <-].
  destruct (racer_at _ _ _ _ _ _ _ Hi E) as [(->&->&->)|(->&->&->)]; destruct r as [c|e].
  - exists Gone, f. destruct Hi, s. race_clauses. apply silent; [|done]. rewrite inv_conns0. solve_Permutation.
  - assert (Hp : primary s = None) by (destruct (primary s) eqn:Ep; [by destruct (inv_primary _ _ _ _ Hi _ Ep)|done]).
    exists Gone, f. destruct Hi, s. racing. subst. destruct fallback as [e2|]; [|destruct fallbackTimer]; race_clauses; by apply silent.
  - exists p, (Some Gone). destruct Hi, s. race_clauses. apply silent; [|done]. rewrite inv_conns0. solve_Permutation.
  - assert (Hp : fallback s = None) by (destruct (fallback s) eqn:Ep; [by destruct (inv_fallback _ _ _ _ Hi _ Ep)|done]).
    exists p, (Some Gone). destruct Hi, s. racing. subst. destruct primary as [e2|]; [|destruct fallbackTimer]; race_clauses; by apply silent.
Qed.
Lemma leave_inv l p f s i s' : race_inv l p f s → race_step (Leave i) s = Some s' → ∃ p' f', race_inv (l ++ [Leave i]) p' f' s'.
Proof.
  intros Hi. cbn [race_step]. destruct (returned s) eqn:Er; [|done]. destruct (racers s !! i) as [[q [|r'|]]|] eqn:E; try done. intros [= <-].
  destruct (racer_at _ _ _ _ _ _ _ Hi E) as [(->&->&->)|(->&->&->)]; destruct r' as [c|e].
  - exists Gone, f. destruct Hi, s. race_clauses. apply silent; [|done]. rewrite inv_conns0. solve_Permutation.
  - exists Gone, f. destruct Hi, s. race_clauses. by apply silent.
  - exists p, (Some Gone). destruct Hi, s. race_clauses; [apply silent; [|done]; rewrite inv_conns0; solve_Permutation|].
    destruct fallback; [by destruct (inv_fallback0 _ eq_refl)|done].
  - exists p, (Some Gone). destruct Hi, s. race_clauses. by apply silent.
Qed.
Lemma race_step_inv l p f s e s' : race_inv l p f s → race_step e s = Some s' → ∃ p' f', race_inv (l ++ [e]) p' f' s'.
Proof. destruct e; [apply finish_inv|apply expire_inv|apply take_timer_inv|apply take_result_inv|apply leave_inv]. Qed.
Lemma run_race_inv l s : run_race l (dialParallel_start delay) = Some s → ∃ p f, race_inv l p f s.
Proof.
  revert s. induction l as [|e l IH] using rev_ind; intros s.
  - intros [= <-]. eexists _, _. apply race_start_inv.
  - rewrite run_race_snoc. destruct (run_race l _) as [s1|] eqn:E; [|done]. cbn. intros Hs. destruct (IH _ eq_refl) as (p&f&Hi). by apply (race_step_inv l p f s1).
Qed.
(** Every step brings the race nearer its end. *)
Definition racer_weight (r : bool * racer_state C) : nat := match r.2 with Dials => 2 | Offers _ => 1 | Gone => 0 end.
Definition race_weight s : nat := sum_list_with racer_weight (racers s) + match fallbackTimer s with Running _ => 4 | Expired => 3 | Spent => 0 end.
Lemma set_racer_weight i q st st' (l : list (bool * racer_state C)) : l !! i = Some (q, st) →
  (sum_list_with racer_weight (alter (λ r, (r.1, st')) i l) + racer_weight (q, st) = sum_list_with racer_weight l + racer_weight (q, st'))%nat.
Proof. revert i. induction l as [|x l IH]; intros [|i]; cbn; [done|done|intros [= ->]; cbn; lia|intros E; pose proof (IH _ E); cbn in *; lia]. Qed.
Lemma race_step_weight e s s' : race_step e s = Some s' → (race_weight s' < race_weight s)%nat.
Proof.
  unfold race_weight. destruct e as [i r| | |i|i]; cbn [race_step].
  - destruct (racers s !! i) as [[q [|r'|]]|] eqn:E; try done. intros [= <-]. racing. pose proof (set_racer_weight _ _ _ (Offers r) _ E) as Hw. cbn in Hw. lia.
  - destruct (fallbackTimer s); try done. intros [= <-]. racing. lia.
  - destruct (returned s); [done|]. destruct (fallbackTimer s) eqn:E; try done. intros [= <-]. racing. rewrite sum_list_with_app. cbn. lia.
  - destruct (returned s); [done|]. destruct (racers s !! i) as [[q [|r|]]|] eqn:E; try done. intros [= <-]. pose proof (set_racer_weight _ _ _ Gone _ E) as Hw. cbn in Hw.
    unfold on_result. destruct r as [c|e]; [racing; destruct (fallbackTimer s); lia|]. destruct q; racing; [destruct (fallback s)|destruct (primary s)]; racing; destruct (fallbackTimer s); racing; lia.
  - destruct (returned s); [|done]. destruct (racers s !! i) as [[q [|r|]]|] eqn:E; try done. intros [= <-]. pose proof (set_racer_weight _ _ _ Gone _ E) as Hw. cbn in Hw. destruct r; racing; lia.
Qed.
Lemma race_length l : ∀ s s', run_race l s = Some s' → (length l + race_weight s' <= race_weight s)%nat.
Proof.
  induction l as [|e l IH]; intros s s'; cbn [run_race]; [by intros [= ->]|]. unfold mbind, option_bind. destruct (race_step e s) as [s1|] eqn:E; [|done]. intros Hs. apply IH in Hs. apply race_step_weight in E. cbn. lia.
Qed.
(** A race that has not returned goes on. *)
Lemma race_progress l p f s : race_inv l p f s → (∀ e, race_step e s = None) → ∃ r, returned s = Some r ∧ p = Gone ∧ (f = None ∨ f = Some Gone).
Proof.
  intros Hi Hstuck. assert (Hr : ∀ i q st, racers s !! i = Some (q, st) → st = Gone).
  { intros i q [|r|] E; [|destruct (returned s) eqn:Er|done].
    - specialize (Hstuck (Finish i (inr (New [])))). cbn [race_step] in Hstuck. by rewrite E in Hstuck.
    - specialize (Hstuck (Leave i)). cbn [race_step] in Hstuck. by rewrite Er, E in Hstuck.
    - specialize (Hstuck (TakeResult i)). cbn [race_step] in Hstuck. by rewrite Er, E in Hstuck. }
  assert (Hp : p = Gone) by (apply (Hr 0%nat true); by rewrite (inv_racers _ _ _ _ Hi)).
  assert (Hf : f = None ∨ f = Some Gone) by (destruct f as [st|]; [right; f_equal; apply (Hr 1%nat false); by rewrite (inv_racers _ _ _ _ Hi)|by left]).
  destruct (returned s) as [r|] eqn:Er; [by exists r|]. exfalso. pose proof (inv_took _ _ _ _ Hi Er Hp). destruct Hf as [Hf|Hf].
  - pose proof (inv_spent _ _ _ _ Hi Er Hf). pose proof (Hstuck Expire) as He. pose proof (Hstuck TakeTimer) as Ht. cbn [race_step] in He, Ht. rewrite Er in Ht. by destruct (fallbackTimer s).
  - pose proof (inv_took' _ _ _ _ Hi Er Hf). by destruct (inv_once _ _ _ _ Hi Er).
Qed.
(** C15: the race of the two dials ends, after six steps at most whatever their
    order, and never waits for nothing: where no step is left, a result has been
    returned and of the connections made each is closed but the one returned.  A
    connection is returned when one was made before both dials failed; an error is
    the main dial's, when both failed.  The other dial starts after the delay, or
    at once when the main one has failed. *)
Theorem race_spec l s : run_race l (dialParallel_start delay) = Some s →
  (length l <= 6)%nat ∧
  ((∀ e, race_step e s = None) → ∃ r, returned s = Some r ∧ produced l ≡ₚ conns r ++ closed s) ∧
  (∀ c, returned s = Some (inl c) → c ∈ produced l ∧ (NoDup (produced l) → c ∉ closed s)) ∧
  (∀ e, returned s = Some (inr e) → produced l = [] ∧ Finish 0 (inr e) ∈ l ∧ ∃ e', Finish 1 (inr e') ∈ l) ∧
  (returned s = None → closed s = []) ∧
  (∀ d, fallbackTimer s = Running d → d = delay ∨ d = 0 ∧ ∃ e, Finish 0 (inr e) ∈ l).
Proof.
  intros Hrun. destruct (run_race_inv _ _ Hrun) as (p&f&Hi). pose proof (inv_conns _ _ _ _ Hi) as Hc. split; [|split; [|split; [|split; [|split]]]].
  - apply race_length in Hrun. unfold race_weight in Hrun at 2. cbn in Hrun. lia.
  - intros Hstuck. destruct (race_progress _ _ _ _ Hi Hstuck) as (r&Er&->&Hf). exists r. split; [done|]. rewrite Hc, Er. cbn. destruct Hf as [->| ->]; cbn; solve_Permutation.
  - intros c Er. rewrite Er in Hc. cbn [conns_back conns] in Hc. split; [rewrite Hc, !elem_of_app; do 3 right; by left|]. rewrite Hc. intros Hnd Hin.
    apply list.NoDup_app in Hnd as (_&_&Hnd). apply list.NoDup_app in Hnd as (_&_&Hnd). apply list.NoDup_app in Hnd as (_&Hnd&_). apply (Hnd c Hin). by left.
  - intros e Er. rewrite Er in Hc. destruct (inv_error _ _ _ _ Hi _ Er) as (Hp&Hf&Hcl). destruct (inv_primary _ _ _ _ Hi _ Hp) as [-> Hin]. destruct (fallback s) as [e'|] eqn:Ef; [|done].
    destruct (inv_fallback _ _ _ _ Hi _ Ef) as [-> Hin']. rewrite Hcl in Hc. split; [by apply Permutation_nil_r|]. split; [done|by exists e'].
  - apply (inv_open _ _ _ _ Hi).
  - intros d Ed. destruct (inv_timer _ _ _ _ Hi _ Ed) as [[-> _]|[-> Hp]]; [by left|right]. split; [done|]. destruct (primary s) as [e|] eqn:Ep; [|done]. exists e. apply (inv_primary _ _ _ _ Hi _ Ep).
Qed.
End race.
(** The other dial, started after the delay, is faster; the main one's connection is closed. *)
Definition fallback_wins : list (race_event Z) := [Expire; TakeTimer; Finish 1 (inl 6); TakeResult 1; Finish 0 (inl 4); Leave 0].
(** The main dial fails, and the other one starts at once. *)
Definition both_fail : list (race_event Z) := [Finish 0 (inr errTimeout); TakeResult 0; Expire; TakeTimer; Finish 1 (inr errCanceled); TakeResult 1].
Lemma race_spec_witness :
  (∃ s, run_race fallback_wins (dialParallel_start 300) = Some s ∧ returned s = Some (inl 6) ∧ closed s = [4]) ∧
  ∃ s, run_race both_fail (dialParallel_start 300) = Some s ∧ returned s = Some (inr errTimeout) ∧ produced both_fail = [] ∧ Finish 0 (inr errTimeout) ∈ both_fail.
Proof.
  split; [eexists; split; [reflexivity|by split]|]. eexists. split; [reflexivity|]. split; [reflexivity|].
  destruct (race_spec 300 both_fail _ eq_refl) as (_&_&_&He&_). destruct (He errTimeout eq_refl) as (Hp&Hin&_). by split.
Defined.

(** ** What is dialed *)
Section dial.
Context {W R : Type} `{NetLaws W} `{HostLaws W R} `{!Cgo W} (strictErrors : bool) (systemConf : conf).
Context (etc_services etc_protocols : R + error) (fuel : nat) (cgoLookupPort : bytes → bytes → Z + error).
Context (services_fuel : (length (file_text etc_services) < fuel)%nat) (protocols_fuel : (length (file_text etc_protocols) < fuel)%nat).
(** The addresses dialSerial is given: those resolved, of which there is one at
    least; for "tcp" those of the family of the first before the others. *)
Definition to_dial (d : Dialer) (network address : bytes) s (r : addrList * addrList) : Prop :=
  ∃ addrs, addrs ≠ [] ∧ address_list strictErrors systemConf etc_services etc_protocols fuel cgoLookupPort "dial"%go network address (LocalAddr d) s addrs ∧ Forall printable addrs ∧
    r = if dualStack d && beq network "tcp"%go then Resolve.partition isIPv4 addrs else (addrs, []).
Lemma address_list_printable op network address hint s addrs :
  address_list strictErrors systemConf etc_services etc_protocols fuel cgoLookupPort op network address hint s addrs → Forall printable addrs.
Proof.
  intros (afnet&s1&_&Hl). destruct (one_of unix_nets afnet); [destruct Hl as [-> _]; by apply list.Forall_singleton; right|]. destruct Hl as (l&Hli%listed_endpoints&Hl).
  assert (Hp : Forall printable l) by (eapply list.Forall_impl; [exact Hli|]; intros a [_ Ha]; by left).
  destruct hint as [h|]; [|by subst]. destruct (decide _); [|by subst]. destruct Hl as [-> _]. apply list.Forall_forall. intros a [_ Ha]%list_elem_of_filter. rewrite list.Forall_forall in Hp. by apply Hp.
Qed.
Lemma dial_addrs_resolves d network address s : resolving_ok etc_services etc_protocols s → is_bytes address → (∀ h, LocalAddr d = Some h → good_hint h) →
  resolves etc_services etc_protocols (dial_addrs (R := R) strictErrors systemConf etc_services etc_protocols fuel cgoLookupPort d network address) s (to_dial d network address s).
Proof.
  intros Hok Hb Hh. unfold dial_addrs. eapply (resolves_bind _ _ _ _ _ (λ r, match r with inl addrs => addrs ≠ [] ∧ address_list strictErrors systemConf etc_services etc_protocols fuel cgoLookupPort "dial"%go network address (LocalAddr d) s addrs | inr _ => True end)).
  { apply runs_attempt. eapply runs_mono; [by apply (resolveAddrList_resolves strictErrors systemConf etc_services etc_protocols fuel cgoLookupPort services_fuel protocols_fuel)|].
    intros [addrs|] s1 [Hs1 Hr]; done. }
  intros [addrs|err] s1 Hs1 Hr.
  - assert (Hd : to_dial d network address s (if dualStack d && beq network "tcp"%go then Resolve.partition isIPv4 addrs else (addrs, []))).
    { destruct Hr as [Hne Hsu]. exists addrs. split; [done|]. split; [done|]. split; [by eapply address_list_printable|done]. }
    by destruct (_ && _); apply resolves_ret.
  - destruct (OpError_made network None None err I I) as (e&E). eapply (resolves_bind _ _ _ _ _ (λ _, True)); [apply resolves_lift; [done|by rewrite E]|]. intros e' s2 Hs2 _. by apply resolves_fail.
Qed.
(** Both lists may be given to dialSerial, and the main one is not empty. *)
Lemma to_dial_parts d network address s primaries fallbacks : to_dial d network address s (primaries, fallbacks) →
  primaries ≠ [] ∧ Forall printable primaries ∧ Forall printable fallbacks ∧ (fallbacks ≠ [] → network = "tcp"%go ∧ dualStack d = true).
Proof.
  intros (addrs&Hne&_&Hp&E). destruct (dualStack d && beq network "tcp"%go) eqn:Ed.
  - destruct addrs as [|a addrs]; [done|]. rewrite partition_run in E. injection E as -> ->. split; [cbn; by rewrite Bool.eqb_reflx|]. 
    assert (Hf : ∀ P, Forall printable (List.filter P (a :: addrs))) by (intros P; rewrite list.Forall_forall in *; intros x Hx; apply Hp, list_elem_of_In; apply list_elem_of_In, filter_In in Hx; apply Hx).
    split; [exact (Hf (λ b, Bool.eqb (isIPv4 b) (isIPv4 a)))|]. split; [exact (Hf (λ b, negb (Bool.eqb (isIPv4 b) (isIPv4 a))))|]. intros _. apply andb_true_iff in Ed as [Hd Hn]. by apply beq_eq in Hn.
  - injection E as -> ->. done.
Qed.
End dial.
