(* ===== verification/Sockaddr.v ===== *)
(** * package net: addresses for the kernel (sockaddr_posix.go and its fellows, interface.go, syscall)

    From the address of an endpoint to the structure the kernel reads and back:
    the family of a socket, the values of package syscall, their bytes on
    linux/amd64, and the cache of the names of interfaces. *)
From stdpp Require Import gmap.
From S2P Require Import Prelude Stateful Strconv NetipAddr NetipPrefix NetipText NetHost NetIP AddrSelect DnsConfig DnsExchange Ports Resolve.

Definition AF_UNIX : Z := 1.
Definition AF_INET : Z := 2.
Definition AF_INET6 : Z := 10.
Definition AF_NETLINK : Z := 0x10.
Definition AF_PACKET : Z := 0x11.
Definition EINVAL_ : error := Foreign "invalid argument"%go true false false false.
Definition EAFNOSUPPORT : error := Foreign "address family not supported by protocol"%go true false false false.
Inductive Sockaddr : Set :=
| SockaddrInet4 (Port : Z) (Addr : bytes)
| SockaddrInet6 (Port ZoneId : Z) (Addr : bytes)
| SockaddrUnix (Name : bytes)
| SockaddrLinklayer (Protocol Ifindex Hatype Pkttype Halen : Z) (Addr : bytes)
| SockaddrNetlink (Family Pad Pid Groups : Z).

(** ** The kernel's structures *)
(** Integers in memory, the low byte first. *)
Definition le32 (v : Z) : bytes := [u8 v; u8 (Z.shiftr v 8); u8 (Z.shiftr v 16); u8 (Z.shiftr v 24)].
Definition get16 (b : bytes) (i : nat) : Z := nth i b 0 + 256 * nth (i + 1) b 0.
Definition get32 (b : bytes) (i : nat) : Z := get16 b i + 65536 * get16 b (i + 2).
Definition path_len : nat := 108.
Definition port_bytes (p : Z) : bytes := [u8 (Z.shiftr p 8); u8 p].
Definition bad_port (p : Z) : bool := (p <? 0) || (p >? 0xffff).
(** The bytes handed to the kernel, of a value whose [raw] has not been used. *)
Definition sockaddr_bytes (sa : Sockaddr) : res bytes :=
  match sa with
  | SockaddrInet4 port a => if bad_port port then Err EINVAL_ else Ok (lePutUint16 AF_INET ++ port_bytes port ++ a ++ replicate 8 0)
  | SockaddrInet6 port zoneId a =>
      if bad_port port then Err EINVAL_ else Ok (lePutUint16 AF_INET6 ++ port_bytes port ++ le32 0 ++ a ++ le32 zoneId)
  | SockaddrUnix name =>
      let n := len name in
      if n >? Z.of_nat path_len then Err EINVAL_
      else if (n =? Z.of_nat path_len) && negb (byte_ name 0 =? "@"%byte) then Err EINVAL_
      else
        let path := name ++ replicate (path_len - length name) 0 in
        let sl := if n >? 0 then 2 + (n + 1) else 2 in
        if (byte_ path 0 =? "@"%byte) || ((byte_ path 0 =? 0) && (sl >? 3))
        then Ok (take (Z.to_nat (sl - 1)) (lePutUint16 AF_UNIX ++ <[0%nat := 0]> path))
        else Ok (take (Z.to_nat sl) (lePutUint16 AF_UNIX ++ path))
  | SockaddrLinklayer protocol ifindex hatype pkttype halen a =>
      if (ifindex <? 0) || (ifindex >? 0x7fffffff) then Err EINVAL_
      else Ok (lePutUint16 AF_PACKET ++ lePutUint16 protocol ++ le32 ifindex ++ lePutUint16 hatype ++ [pkttype; halen] ++ a)
  | SockaddrNetlink _ pad pid groups => Ok (lePutUint16 AF_NETLINK ++ lePutUint16 pad ++ le32 pid ++ le32 groups)
  end.
(** Up to the first NUL. *)
Fixpoint until_NUL (path : bytes) : bytes :=
  match path with [] => [] | c :: path => if c =? 0 then [] else c :: until_NUL path end.
(** Of the 112 bytes of a RawSockaddrAny. *)
Definition get_port (rsa : bytes) : Z := Z.shiftl (byte_ rsa 2) 8 + byte_ rsa 3.
Definition anyToSockaddr (rsa : bytes) : res Sockaddr :=
  let family := get16 rsa 0 in
  if family =? AF_NETLINK then Ok (SockaddrNetlink family (get16 rsa 2) (get32 rsa 4) (get32 rsa 8))
  else if family =? AF_PACKET then
    Ok (SockaddrLinklayer (get16 rsa 2) (i32 (get32 rsa 4)) (get16 rsa 8) (byte_ rsa 10) (byte_ rsa 11) (take 8 (drop 12 rsa)))
  else if family =? AF_UNIX then
    let path := take path_len (drop 2 rsa) in
    let path := if byte_ path 0 =? 0 then <[0%nat := "@"%byte]> path else path in
    Ok (SockaddrUnix (until_NUL path))
  else if family =? AF_INET then Ok (SockaddrInet4 (get_port rsa) (take 4 (drop 4 rsa)))
  else if family =? AF_INET6 then Ok (SockaddrInet6 (get_port rsa) (get32 rsa 24) (take 16 (drop 8 rsa)))
  else Err EAFNOSUPPORT.

(** ** The names of interfaces *)
Record ipv6ZoneCache : Set := MkZoneCache { zc_lastFetched : Z; toIndex : gmap bytes Z; toName : gmap Z bytes }.
Definition zoneCache_init : ipv6ZoneCache := MkZoneCache 0 ∅ ∅.
(** The clock, and the interfaces there are with their names and indexes. *)
Class Interfaces (W : Type) : Type := {
  if_Now : W → Z * W;
  interfaceTable : W → (list (bytes * Z) + error) * W;
}.
Definition toIndex_of (ift : list (bytes * Z)) : gmap bytes Z := foldl (λ m '(n, i), <[n := i]> m) ∅ ift.
Definition toName_of (ift : list (bytes * Z)) : gmap Z bytes :=
  foldl (λ m '(n, i), match m !! i with Some _ => m | None => <[i := n]> m end) ∅ ift.
Section zones.
Context {W : Type} `{!Interfaces W}.
Definition zoning (A : Type) : Type := stateful (W * ipv6ZoneCache) A.
Definition from_host {A} (f : W → A * W) : zoning A := λ '(w, zc), let '(a, w) := f w in (Ok a, (w, zc)).
Definition update (ift : list (bytes * Z)) (force : bool) : zoning bool :=
  now ← from_host if_Now;
  '(w, zc) ← get;
  if negb force && (zc_lastFetched zc >? now - 60 * DnsConfig.Second) then mret false
  else
    _ ← modify (λ '(w, zc), (w, MkZoneCache now (toIndex zc) (toName zc)));
    ift ← (if len ift =? 0 then from_host interfaceTable else mret (inl ift));
    match ift with
    | inr _ => mret false
    | inl ift => _ ← modify (λ '(w, zc), (w, MkZoneCache (zc_lastFetched zc) (toIndex_of ift) (toName_of ift))); mret true
    end.
(** A lookup in the cache, after refreshing it once more if need be. *)
Definition cached {A} (look : ipv6ZoneCache → option A) : zoning (option A) :=
  updated ← update [] false;
  '(w, zc) ← get;
  match look zc with
  | Some a => mret (Some a)
  | None =>
      if negb (updated : bool) then
        _ ← update [] true;
        '(w, zc) ← get;
        mret (look zc)
      else mret None
  end.
Definition zone_name (index : Z) : zoning bytes :=
  if index =? 0 then mret []
  else
    name ← cached (λ zc, toName zc !! index);
    match name with Some name => mret name | None => lift (Uitoa (u64 index)) end.
Definition zone_index (name : bytes) : zoning Z :=
  if beq name [] then mret 0
  else
    index ← cached (λ zc, toIndex zc !! name);
    match index with Some index => mret index | None => let '(index, _, _) := dtoi name in mret index end.

(** ** From addresses and back *)
Definition ipToSockaddrInet4 (ip : bytes) (port : Z) : res Sockaddr :=
  let ip := if len ip =? 0 then IPv4zero else ip in
  let ip4 := IP_To4 ip in
  if is_nil ip4 then Err (AddrError "non-IPv4 address"%go (IP_String ip)) else Ok (SockaddrInet4 port ip4).
Definition ipToSockaddrInet6 (ip : bytes) (port : Z) (zone : bytes) : zoning Sockaddr :=
  let ip := if (len ip =? 0) || IP_Equal ip IPv4zero then IPv6unspecified else ip in
  let ip6 := IP_To16 ip in
  if is_nil ip6 then fail (AddrError "non-IPv6 address"%go (IP_String ip))
  else i ← zone_index zone; mret (SockaddrInet6 port (u32 i) ip6).
Definition ipToSockaddr (family : Z) (ip : bytes) (port : Z) (zone : bytes) : zoning Sockaddr :=
  if family =? AF_INET then lift (ipToSockaddrInet4 ip port)
  else if family =? AF_INET6 then ipToSockaddrInet6 ip port zone
  else fail (AddrError "invalid address family"%go (IP_String ip)).
Definition addrPortToSockaddrInet4 (ap : AddrPort) : res Sockaddr :=
  let addr := ap_ip ap in
  if negb (Addr_Is4 addr) then Err (AddrError "non-IPv4 address"%go (Addr_String addr))
  else a ← As4 addr; Ok (SockaddrInet4 (ap_port ap) a).
Definition addrPortToSockaddrInet6 (ap : AddrPort) : zoning Sockaddr :=
  let addr := ap_ip ap in
  if negb (Addr_IsValid addr) then fail (AddrError "non-IPv6 address"%go (Addr_String addr))
  else i ← zone_index (Addr_Zone addr); mret (SockaddrInet6 (ap_port ap) (u32 i) (As16 addr)).
(** The family of an address, [nil] being none. *)
Definition family_of (a : option net_Addr) : Z :=
  match a with
  | None => AF_INET
  | Some (UnixAddr _ _) => AF_UNIX
  | Some a => if len (the_IP a) <=? IPv4len then AF_INET else if negb (is_nil (IP_To4 (the_IP a))) then AF_INET else AF_INET6
  end.
Definition sockaddr (family : Z) (a : net_Addr) : zoning Sockaddr :=
  match a with
  | TCPAddr ip port zone | UDPAddr ip port zone => ipToSockaddr family ip port zone
  | AnIPAddr (MkIPAddr ip zone) => ipToSockaddr family ip 0 zone
  | UnixAddr name _ => mret (SockaddrUnix name)
  end.
Definition toLocal (net : bytes) (a : net_Addr) : res net_Addr :=
  match a with
  | TCPAddr _ port zone => ip ← loopbackIP net; Ok (TCPAddr ip port zone)
  | UDPAddr _ port zone => ip ← loopbackIP net; Ok (UDPAddr ip port zone)
  | AnIPAddr (MkIPAddr _ zone) => ip ← loopbackIP net; Ok (AnIPAddr (MkIPAddr ip zone))
  | UnixAddr _ _ => Ok a
  end.
(** sockaddrToTCP, sockaddrToUDP and sockaddrToIP, by [make]. *)
Definition sockaddrTo (make : bytes → Z → bytes → net_Addr) (sa : Sockaddr) : zoning (option net_Addr) :=
  match sa with
  | SockaddrInet4 port a => mret (Some (make a port []))
  | SockaddrInet6 port zoneId a => zone ← zone_name zoneId; mret (Some (make a port zone))
  | _ => mret None
  end.
Definition sockaddrToTCP : Sockaddr → zoning (option net_Addr) := sockaddrTo TCPAddr.
Definition sockaddrToUDP : Sockaddr → zoning (option net_Addr) := sockaddrTo UDPAddr.
Definition sockaddrToIP : Sockaddr → zoning (option net_Addr) := sockaddrTo (λ ip _ zone, AnIPAddr (MkIPAddr ip zone)).
Definition sockaddrToUnix (net : bytes) (sa : Sockaddr) : option net_Addr :=
  match sa with SockaddrUnix name => Some (UnixAddr name net) | _ => None end.
End zones.

(** ** The family of a socket *)
Definition isWildcard_ (a : net_Addr) : bool :=
  match a with UnixAddr name _ => beq name [] | _ => isWildcard (the_IP a) end.
Definition favoriteAddrFamily (ipv4 ipv4map : bool) (network : bytes) (laddr raddr : option net_Addr) (mode : bytes) : res (Z * bool) :=
  c ← at_ network (len network - 1);
  if c =? "4"%byte then Ok (AF_INET, false)
  else if c =? "6"%byte then Ok (AF_INET6, true)
  else if beq mode "listen"%go && match laddr with Some a => isWildcard_ a | None => true end then
    if ipv4map || negb ipv4 then Ok (AF_INET6, false) else Ok (family_of laddr, false)
  else if (family_of laddr =? AF_INET) && (family_of raddr =? AF_INET) then Ok (AF_INET, false)
  else Ok (AF_INET6, false).

(** ** The pairs of net/netip *)
Definition AddrPort_of (ip : bytes) (port : Z) (zone : bytes) : AddrPort :=
  let '(na, _) := AddrFromSlice ip in AddrPortFrom (Addr_WithZone na zone) (u16 port).
Definition FromAddrPort (make : bytes → Z → bytes → net_Addr) (ap : AddrPort) : net_Addr :=
  make (AsSlice (ap_ip ap)) (ap_port ap) (Addr_Zone (ap_ip ap)).

(** The header before what a raw IPv4 socket reads; the copy moves the rest of
    the buffer. *)
Definition stripIPv4Header (n : Z) (b : bytes) : Z * bytes :=
  if len b <? 20 then (n, b)
  else
    let l := Z.shiftl (Z.land (byte_ b 0) 0x0f) 2 in
    if (20 >? l) || (l >? len b) then (n, b)
    else if negb (Z.shiftr (byte_ b 0) 4 =? 4) then (n, b)
    else (n - l, drop (Z.to_nat l) b ++ drop (length b - Z.to_nat l) b).
