(* ===== verification/SockaddrProps.v ===== *)
(** * package net: addresses for the kernel, properties

    What is handed to the kernel reads back as the address it was made from. *)
From stdpp Require Import gmap.
From S2P Require Import Prelude Stateful Strconv Uint128 NetipAddr NetipPrefix NetipText NetipProps NetHost NetHostProps NetIP NetIPProps AddrSelect DnsConfig DnsExchange Ports PortsProps Resolve ResolveProps Sockaddr.

(** ** The kernel's structures *)
Lemma byte_of v k : 0 <= k → u8 (Z.shiftr v k) = v / 2 ^ k mod 256.
Proof. intros Hk. unfold u8. by rewrite Z.shiftr_div_pow2. Qed.
Lemma u16_bytes v : is_u16 v → v mod 256 + 256 * (v / 256 mod 256) = v.
Proof.
  unfold is_u16. intros Hv. rewrite (Z.mod_small (v / 256)) by (split; [apply Z.div_pos; lia|apply Z.div_lt_upper_bound; lia]). pose proof (Z.div_mod v 256). lia.
Qed.
Lemma u32_bytes v : is_u32 v → v mod 256 + 256 * (v / 256 mod 256) + 65536 * (v / 65536 mod 256 + 256 * (v / 16777216 mod 256)) = v.
Proof.
  unfold is_u32. intros Hv. assert (Hlo : is_u16 (v mod 65536)) by (unfold is_u16; apply Z.mod_pos_bound; lia). assert (Hhi : is_u16 (v / 65536)) by (unfold is_u16; split; [apply Z.div_pos; lia|apply Z.div_lt_upper_bound; lia]).
  pose proof (u16_bytes _ Hlo) as E1. pose proof (u16_bytes _ Hhi) as E2. rewrite Z.div_div in E2 by lia. change (65536 * 256) with 16777216 in E2.
  assert (E3 : (v mod 65536) mod 256 = v mod 256) by (apply Z.mod_mod_divide; by exists 256).
  assert (E4 : v mod 65536 / 256 mod 256 = v / 256 mod 256).
  { rewrite (Z.div_mod v 65536) at 2 by lia. replace (65536 * (v / 65536)) with (256 * (v / 65536) * 256) by lia. rewrite Z.div_add_l by lia. rewrite Z.add_comm, (Z.mul_comm 256), Z.mod_add by lia. done. }
  rewrite E3, E4 in E1. pose proof (Z.div_mod v 65536). lia.
Qed.
Lemma port_back p : is_port p = true → Z.shiftl (u8 (Z.shiftr p 8)) 8 + u8 p = p.
Proof.
  unfold is_port. intros [H1%Z.leb_le H2%Z.leb_le]%andb_true_iff. rewrite byte_of, Z.shiftl_mul_pow2 by lia. unfold u8. change (2 ^ 8) with 256. pose proof (u16_bytes p ltac:(unfold is_u16; lia)). lia.
Qed.
Lemma is_port_bad p : is_port p = negb (bad_port p).
Proof. unfold is_port, bad_port. destruct (Z.ltb_spec p 0), (Z.leb_spec 0 p), (Z.gtb_spec p 0xffff), (Z.leb_spec p 65535); try done; lia. Qed.
(** The values package net makes and their like. *)
Definition sa_ok (sa : Sockaddr) : Prop :=
  match sa with
  | SockaddrInet4 _ a => length a = 4%nat
  | SockaddrInet6 _ zoneId a => length a = 16%nat ∧ is_u32 zoneId
  | SockaddrUnix name => name ≠ [] ∧ 0 ∉ name
  | SockaddrLinklayer protocol _ hatype _ _ a => is_u16 protocol ∧ is_u16 hatype ∧ length a = 8%nat
  | SockaddrNetlink family pad pid groups => family = AF_NETLINK ∧ is_u16 pad ∧ is_u32 pid ∧ is_u32 groups
  end.
(** The kernel's structure in the 112 bytes it is read from. *)
Definition padded (b : bytes) : bytes := b ++ replicate (112 - length b) 0.
Lemma until_NUL_app name k : 0 ∉ name → until_NUL (name ++ replicate k 0) = name.
Proof.
  intros Hn. induction name as [|c name IH]; cbn; [by destruct k|]. apply not_elem_of_cons in Hn as [Hc Hn]. destruct (Z.eqb_spec c 0) as [->|_]; [done|]. by rewrite IH.
Qed.
Lemma le16_back v : is_u16 v → u8 v + 256 * u8 (Z.shiftr v 8) = v.
Proof. intros Hv. rewrite byte_of by lia. unfold u8. change (2 ^ 8) with 256. by apply u16_bytes. Qed.
Lemma le32_back v : is_u32 v → u8 v + 256 * u8 (Z.shiftr v 8) + 65536 * (u8 (Z.shiftr v 16) + 256 * u8 (Z.shiftr v 24)) = v.
Proof. intros Hv. rewrite !byte_of by lia. unfold u8. change (2 ^ 8) with 256. change (2 ^ 16) with 65536. change (2 ^ 24) with 16777216. by apply u32_bytes. Qed.
Lemma any_inet4 r : anyToSockaddr (2 :: 0 :: r) = Ok (SockaddrInet4 (Z.shiftl (byte_ r 0) 8 + byte_ r 1) (take 4 (drop 2 r))).
Proof. reflexivity. Qed.
Lemma any_inet6 r : anyToSockaddr (10 :: 0 :: r) = Ok (SockaddrInet6 (Z.shiftl (byte_ r 0) 8 + byte_ r 1) (get32 r 22) (take 16 (drop 6 r))).
Proof. reflexivity. Qed.
Lemma any_packet r : anyToSockaddr (17 :: 0 :: r) = Ok (SockaddrLinklayer (get16 r 0) (i32 (get32 r 2)) (get16 r 6) (byte_ r 8) (byte_ r 9) (take 8 (drop 10 r))).
Proof. reflexivity. Qed.
Lemma any_netlink r : anyToSockaddr (16 :: 0 :: r) = Ok (SockaddrNetlink AF_NETLINK (get16 r 0) (get32 r 2) (get32 r 6)).
Proof. reflexivity. Qed.
Lemma any_unix r : anyToSockaddr (1 :: 0 :: r) = let path := take path_len r in Ok (SockaddrUnix (until_NUL (if byte_ path 0 =? 0 then <[0%nat := "@"%byte]> path else path))).
Proof. reflexivity. Qed.
(** A path of [p] and zeros. *)
Lemma unix_read (p : bytes) k : (length p + k <= 108)%nat → (length ([1; 0] ++ p ++ replicate k 0)%Z <= 112)%nat ∧
  anyToSockaddr (padded ([1; 0] ++ p ++ replicate k 0)) =
    let path := p ++ replicate (108 - length p) 0 in Ok (SockaddrUnix (until_NUL (if byte_ path 0 =? 0 then <[0%nat := "@"%byte]> path else path))).
Proof.
  intros Hk. split; [cbn; rewrite length_app, length_replicate; lia|].
  assert (E : take path_len ((p ++ replicate k 0) ++ replicate (112 - length ([1; 0] ++ p ++ replicate k 0)%Z) 0) = p ++ replicate (108 - length p) 0).
  { rewrite <- (app_assoc p), <- replicate_add, take_app_ge by (unfold path_len; lia). f_equal. rewrite take_replicate. f_equal. cbn. rewrite length_app, length_replicate. unfold path_len. lia. }
  unfold padded. rewrite <- (app_assoc [1; 0]). cbn [app]. rewrite any_unix. cbn [app] in E. by rewrite E.
Qed.
Lemma unix_back name b : name ≠ [] → 0 ∉ name → len name <= Z.of_nat path_len → (len name =? Z.of_nat path_len) && negb (byte_ name 0 =? "@"%byte) = false →
  (let path := name ++ replicate (path_len - length name) 0 in
   let sl := if len name >? 0 then 2 + (len name + 1) else 2 in
   if (byte_ path 0 =? "@"%byte) || ((byte_ path 0 =? 0) && (sl >? 3))
   then Ok (take (Z.to_nat (sl - 1)) (lePutUint16 AF_UNIX ++ <[0%nat := 0]> path))
   else Ok (take (Z.to_nat sl) (lePutUint16 AF_UNIX ++ path))) = Ok b →
  (length b <= 112)%nat ∧ anyToSockaddr (padded b) = Ok (SockaddrUnix name).
Proof.
  intros Hne Hz Hl Hfull. destruct name as [|c name]; [done|]. apply not_elem_of_cons in Hz as [Hc Hz]. change (lePutUint16 AF_UNIX) with [1; 0]. unfold path_len in *.
  assert (Hn : len (c :: name) = Z.of_nat (S (length name))) by (unfold len; done). rewrite Hn in *. cbn [byte_ nth app] in *. cbn zeta.
  replace (c =? 0) with false by (symmetry; by apply Z.eqb_neq). cbn [andb orb]. rewrite orb_false_r, (proj2 (Z.gtb_lt _ _)) by lia. destruct (Z.eqb_spec c "@"%byte) as [->|Hat].
  - intros [= <-]. replace (Z.to_nat (2 + (Z.of_nat (S (length name)) + 1) - 1)) with (2 + (1 + length name))%nat by lia. cbn [list_insert insert app take Nat.add]. rewrite (take_app_length name).
    destruct (unix_read (0 :: name) 0) as [Hlen Hread]; [cbn; lia|]. rewrite app_nil_r in Hlen, Hread. split; [exact Hlen|]. cbn [app] in Hread. rewrite Hread. cbn -[replicate until_NUL Nat.sub].
    replace (("@"%byte : Z) :: name ++ replicate (108 - S (length name)) 0) with (("@"%byte :: name) ++ replicate (108 - S (length name)) 0) by done. rewrite until_NUL_app; [done|by apply not_elem_of_cons].
  - rewrite andb_true_r in Hfull. apply Z.eqb_neq in Hfull. intros [= <-]. replace (Z.to_nat (2 + (Z.of_nat (S (length name)) + 1))) with (2 + (S (length name) + 1))%nat by lia.
    assert (E : take (2 + (S (length name) + 1)) (1 :: 0 :: c :: name ++ replicate (107 - length name) 0) = [1; 0] ++ (c :: name) ++ replicate 1 0).
    { change (1 :: 0 :: take (S (length name) + 1) ((c :: name) ++ replicate (107 - length name) 0) = [1; 0] ++ (c :: name) ++ replicate 1 0).
      rewrite (take_app_add' (c :: name)) by done. rewrite take_replicate, Nat.min_l by lia. done. }
    rewrite E. destruct (unix_read (c :: name) 1) as [Hlen Hread]; [cbn; lia|]. split; [exact Hlen|]. rewrite Hread.
    cbn -[replicate until_NUL Nat.sub]. rewrite (proj2 (Z.eqb_neq c 0)) by done. rewrite app_comm_cons, until_NUL_app; [done|by apply not_elem_of_cons].
Qed.
Ltac reading := cbn -[u8 Z.shiftr Z.shiftl Z.mul Z.add i32 anyToSockaddr]; first [rewrite any_inet4|rewrite any_inet6|rewrite any_packet|rewrite any_netlink]; unfold get32, get16; cbn -[u8 Z.shiftr Z.shiftl Z.mul Z.add i32].
Lemma sockaddr_bytes_back sa b : sa_ok sa → sockaddr_bytes sa = Ok b → (length b <= 112)%nat ∧ anyToSockaddr (padded b) = Ok sa.
Proof.
  intros Hok. destruct sa as [port a|port zoneId a|name|protocol ifindex hatype pkttype halen a|family pad pid groups]; cbn [sa_ok sockaddr_bytes] in *.
  - destruct (bad_port port) eqn:Ep; [done|]. intros [= <-]. destruct a as [|a0 [|a1 [|a2 [|a3 [|]]]]]; try done. change (lePutUint16 AF_INET) with [2; 0]. split; [cbn; lia|].
    reading. rewrite port_back; [done|]. by rewrite is_port_bad, Ep.
  - destruct (bad_port port) eqn:Ep; [done|]. intros [= <-]. destruct Hok as [Ha Hz]. do 17 (destruct a as [|? a]; try done). change (lePutUint16 AF_INET6) with [10; 0]. split; [cbn; lia|].
    reading. rewrite port_back by by rewrite is_port_bad, Ep. by rewrite le32_back.
  - destruct Hok as [Hne Hz]. destruct (Z.gtb_spec (len name) (Z.of_nat path_len)) as [|Hl]; [done|]. destruct ((len name =? _) && _) eqn:Efull; [done|].
    by apply unix_back.
  - destruct (_ || _) eqn:Ei; [done|]. intros [= <-]. destruct Hok as (Hp&Hh&Ha). do 9 (destruct a as [|? a]; try done). change (lePutUint16 AF_PACKET) with [17; 0]. split; [cbn; lia|]. rewrite Z.gtb_ltb in Ei. apply orb_false_iff in Ei as [Ei1%Z.ltb_ge Ei2%Z.ltb_ge].
    reading. rewrite le16_back, le32_back by (done || unfold is_u32; lia). unfold i32. rewrite Z.mod_small by lia. by rewrite Z.add_simpl_r, le16_back.
  - intros [= <-]. destruct Hok as (->&Hp&Hi&Hg). change (lePutUint16 AF_NETLINK) with [16; 0]. split; [cbn; lia|]. reading. by rewrite le16_back, !le32_back.
Qed.

(** ** The names of interfaces *)
Lemma toIndex_of_snoc l n i : toIndex_of (l ++ [(n, i)]) = <[n := i]> (toIndex_of l).
Proof. unfold toIndex_of. by rewrite foldl_app. Qed.
Lemma toName_of_snoc l n i : toName_of (l ++ [(n, i)]) = match toName_of l !! i with Some _ => toName_of l | None => <[i := n]> (toName_of l) end.
Proof. unfold toName_of. by rewrite foldl_app. Qed.
Lemma toIndex_of_run ift n i : NoDup ift.*1 → (n, i) ∈ ift → toIndex_of ift !! n = Some i.
Proof.
  induction ift as [|[m j] ift IH] using rev_ind; intros Hnd Hin; [by apply not_elem_of_nil in Hin|]. rewrite toIndex_of_snoc. rewrite fmap_app in Hnd. apply list.NoDup_app in Hnd as (Hnd&Hm&_).
  apply elem_of_app in Hin as [Hin|Hin%list_elem_of_singleton].
  - rewrite lookup_insert_ne; [by apply IH|]. intros ->. apply (Hm n); [apply list_elem_of_fmap; by exists (n, i)|by left].
  - injection Hin as -> ->. by rewrite lookup_insert_eq.
Qed.
Lemma toName_of_in ift i n : toName_of ift !! i = Some n → (n, i) ∈ ift.
Proof.
  induction ift as [|[m j] ift IH] using rev_ind; [done|]. rewrite toName_of_snoc. intros E. apply elem_of_app. destruct (toName_of ift !! j) eqn:Ej; [left; by apply IH|].
  apply lookup_insert_Some in E as [[-> ->]|[_ E]]; [right; by left|left; by apply IH].
Qed.
Lemma toName_of_has ift i n : (n, i) ∈ ift → is_Some (toName_of ift !! i).
Proof.
  induction ift as [|[m j] ift IH] using rev_ind; intros Hin; [by apply not_elem_of_nil in Hin|]. rewrite toName_of_snoc. apply elem_of_app in Hin as [Hin|Hin%list_elem_of_singleton].
  - destruct (toName_of ift !! j) eqn:Ej; [by apply IH|]. destruct (decide (i = j)) as [->|Hij]; [by rewrite lookup_insert_eq|]. rewrite lookup_insert_ne by done. by apply IH.
  - injection Hin as -> ->. destruct (toName_of ift !! j) eqn:Ej; [done|by rewrite lookup_insert_eq].
Qed.
Lemma toName_of_run ift n i : NoDup ift.*2 → (n, i) ∈ ift → toName_of ift !! i = Some n.
Proof.
  intros Hnd Hin. destruct (toName_of_has _ _ _ Hin) as [m Em]. rewrite Em. f_equal. apply toName_of_in in Em. apply list_elem_of_lookup in Hin as [a Ha]. apply list_elem_of_lookup in Em as [b Hb].
  assert (a = b) as -> by (apply (NoDup_lookup _ a b i Hnd); rewrite list_lookup_fmap; [by rewrite Ha|by rewrite Hb]). rewrite Ha in Hb. by injection Hb.
Qed.
(** A host whose interfaces do not change. *)
Class SteadyInterfaces (W : Type) `{!Interfaces W} (ift : list (bytes * Z)) : Prop := table_is : ∀ w, fst (interfaceTable w) = inl ift.
Section zones.
Context {W : Type} (ift : list (bytes * Z)) `{SteadyInterfaces W ift}.
(** The cache is new, or has the host's interfaces. *)
Definition zones_ok (s : W * ipv6ZoneCache) : Prop :=
  let zc := snd s in (toIndex zc = ∅ ∧ toName zc = ∅) ∨ (toIndex zc = toIndex_of ift ∧ toName zc = toName_of ift).
Lemma update_run force s : zones_ok s → ∃ b s', update [] force s = (Ok b, s') ∧ zones_ok s' ∧ (force = true → b = true) ∧
  (b = true → toIndex (snd s') = toIndex_of ift ∧ toName (snd s') = toName_of ift).
Proof.
  destruct s as [w zc]. intros Hok. unfold update, from_host, get, modify, mbind, stateful_bind. destruct (if_Now w) as [now w1]. destruct (negb force && _) eqn:E; [exists false, (w1, zc); by destruct force|].
  change (len (@nil (bytes * Z)) =? 0) with true. cbn. pose proof (table_is w1) as Ht. destruct (interfaceTable w1) as [t w2]. cbn in Ht. subst t. eexists true, _. split; [reflexivity|]. split; [by right|]. by split.
Qed.
(** What is looked up is found among the host's interfaces. *)
Lemma cached_run {A} (f : gmap bytes Z → gmap Z bytes → option A) s : zones_ok s → f ∅ ∅ = None →
  ∃ s', cached (λ zc, f (toIndex zc) (toName zc)) s = (Ok (f (toIndex_of ift) (toName_of ift)), s') ∧ zones_ok s'.
Proof.
  intros Hok Hf. unfold cached, get, mbind, stateful_bind. destruct (update_run false s Hok) as (b&s1&->&Hok1&_&Hb). destruct s1 as [w1 zc1]. cbn [snd] in *.
  destruct (f (toIndex zc1) (toName zc1)) as [a|] eqn:E.
  - exists (w1, zc1). destruct Hok1 as [[E1 E2]|[E1 E2]]; cbn [snd] in E1, E2; rewrite E1, E2 in E; [by rewrite Hf in E|]. rewrite E. split; [done|]. by right.
  - destruct b; cbn [negb].
    + destruct (Hb eq_refl) as [E1 E2]. rewrite E1, E2 in E. rewrite E. by exists (w1, zc1).
    + destruct (update_run true (w1, zc1) Hok1) as (b'&[w2 zc2]&->&Hok2&Ht&Hb'). destruct (Hb' (Ht eq_refl)) as [E1 E2]. cbn [snd] in E1, E2. exists (w2, zc2). by rewrite E1, E2.
Qed.
(** The index of a zone: an interface's, or a number's own. *)
Definition zone_is (zone : bytes) (i : Z) : Prop := (zone = [] ∧ i = 0) ∨ ((zone, i) ∈ ift ∧ zone ≠ [] ∧ 0 < i < 2 ^ 32).
Lemma zone_index_run zone i s : NoDup ift.*1 → zone_is zone i → zones_ok s → ∃ s', zone_index zone s = (Ok i, s') ∧ zones_ok s'.
Proof.
  intros Hnd Hz Hok. unfold zone_index. destruct Hz as [[-> ->]|(Hin&Hne&Hi)]; [by exists s|]. destruct (beq zone []) eqn:Ez; [by apply beq_eq in Ez|].
  destruct (cached_run (λ m _, m !! zone) s Hok ltac:(done)) as (s'&E&Hok'). unfold mbind, stateful_bind. rewrite E, (toIndex_of_run _ _ _ Hnd Hin). by exists s'.
Qed.
Lemma zone_name_run zone i s : NoDup ift.*2 → zone_is zone i → zones_ok s → ∃ s', zone_name i s = (Ok zone, s') ∧ zones_ok s'.
Proof.
  intros Hnd Hz Hok. unfold zone_name. destruct Hz as [[-> ->]|(Hin&Hne&Hi)]; [by exists s|]. rewrite (proj2 (Z.eqb_neq i 0)) by lia.
  destruct (cached_run (λ _ m, m !! i) s Hok ltac:(done)) as (s'&E&Hok'). unfold mbind, stateful_bind. rewrite E, (toName_of_run _ _ _ Hnd Hin). by exists s'.
Qed.
End zones.

(** ** The pairs of net/netip *)
Lemma AsSlice_v4 a0 a1 a2 a3 : is_bytes [a0; a1; a2; a3] → AsSlice (MkAddr (U128 0 (v4_lo a0 a1 a2 a3)) z4) = [a0; a1; a2; a3].
Proof.
  intros Ha. unfold AsSlice. cbn [z addr lo]. unfold is_bytes in Ha. rewrite !list.Forall_cons in Ha. destruct Ha as (H0&H1&H2&H3&_).
  unfold bePutUint32. rewrite !Z.shiftr_div_pow2 by lia. unfold v4_lo. repeat f_equal; zwlia.
Qed.
Lemma AsSlice_forms a : wf_addr a → z a ≠ z0 → (length (AsSlice a) = 4%nat ∨ length (AsSlice a) = 16%nat) ∧ IP_To16 (AsSlice a) = As16 a ∧ fst (AddrFromSlice (AsSlice a)) = withoutZone a.
Proof.
  intros Hwf Hv. destruct (decide (z a = z4)) as [E|E].
  - destruct (z4_AddrFrom4 a Hwf E) as (a0&a1&a2&a3&Hb&E1&E2). rewrite E1, As16_v4_lo, AsSlice_v4 by done. split; [by left|]. split; [done|].
    change (fst (AddrFromSlice [a0; a1; a2; a3])) with (AddrFrom4 [a0; a1; a2; a3]). by rewrite <- E2, E1.
  - assert (Es : AsSlice a = As16 a) by (unfold AsSlice, As16; by destruct (z a)). rewrite Es. split; [by right|]. split; [done|]. change (fst (AddrFromSlice (As16 a))) with (AddrFrom16 (As16 a)).
    rewrite AddrFrom16_As16 by apply Hwf. unfold withoutZone. by rewrite (proj2 (Addr_Is6_spec a)).
Qed.
(** A valid pair is converted as the address of its parts, but for 0.0.0.0, which
    net takes for "::" in the family of IPv6, and the IPv4-mapped addresses, which
    net takes for IPv4 in its family. *)
Lemma addrPort_same ap {W} `{!Interfaces W} (s : W * ipv6ZoneCache) : wf_addr (ap_ip ap) → z (ap_ip ap) ≠ z0 → let ip := AsSlice (ap_ip ap) in
  (IP_Equal ip IPv4zero = false → addrPortToSockaddrInet6 ap s = ipToSockaddrInet6 ip (ap_port ap) (Addr_Zone (ap_ip ap)) s) ∧
  (Addr_Is4 (ap_ip ap) = true → addrPortToSockaddrInet4 ap = ipToSockaddrInet4 ip (ap_port ap)).
Proof.
  intros Hwf Hv ip. destruct (AsSlice_forms _ Hwf Hv) as (Hl&E16&_). fold ip in Hl, E16. split.
  - intros Hz. unfold addrPortToSockaddrInet6, ipToSockaddrInet6, Addr_IsValid. rewrite bool_decide_eq_false_2 by done. cbn [negb]. rewrite Hz, orb_false_r.
    assert (E0 : (len ip =? 0) = false) by (apply Z.eqb_neq; unfold len; lia). rewrite E0, E16. change (is_nil (As16 (ap_ip ap))) with false. done.
  - intros H4. unfold addrPortToSockaddrInet4, ipToSockaddrInet4. rewrite H4. cbn [negb]. unfold Addr_Is4 in H4. apply bool_decide_eq_true in H4. unfold As4. rewrite bool_decide_eq_true_2 by done. cbn [orb mbind res_bind].
    assert (E0 : (len ip =? 0) = false) by (apply Z.eqb_neq; unfold len; lia). rewrite E0. subst ip. unfold AsSlice. rewrite H4. done.
Qed.
(** A pair is the one of the address made from it. *)
Lemma AddrPort_back ap : wf_addrport ap → z (ap_ip ap) ≠ z0 → AddrPort_of (AsSlice (ap_ip ap)) (ap_port ap) (Addr_Zone (ap_ip ap)) = ap.
Proof.
  intros [Hwf Hp] Hv. destruct (AsSlice_forms _ Hwf Hv) as (_&_&E). unfold AddrPort_of. destruct (AddrFromSlice _) as [na ok]. cbn [fst] in E. subst na. rewrite u16_id by done. destruct ap as [[a zz] p]. cbn [ap_ip ap_port z] in *.
  unfold AddrPortFrom. f_equal. unfold withoutZone, Addr_WithZone, Addr_Is6, Addr_Zone. destruct zz as [| | |s]; cbn; try done. destruct Hwf as [_ Hne]. cbn in Hne. by destruct s.
Qed.
(** What is left of a packet is its payload, in a buffer as long. *)
Lemma stripIPv4Header_run n b : n <= len b → let l := Z.shiftl (Z.land (byte_ b 0) 0x0f) 2 in
  20 <= l <= n → Z.shiftr (byte_ b 0) 4 = 4 →
  fst (stripIPv4Header n b) = n - l ∧ len (snd (stripIPv4Header n b)) = len b ∧ take (Z.to_nat (n - l)) (snd (stripIPv4Header n b)) = take (Z.to_nat (n - l)) (drop (Z.to_nat l) b).
Proof.
  intros Hn l Hl Hv. unfold stripIPv4Header. rewrite (proj2 (Z.ltb_ge _ _)) by lia. fold l. rewrite !Z.gtb_ltb, (proj2 (Z.ltb_ge l 20)), (proj2 (Z.ltb_ge (len b) l)) by lia. cbn [orb]. rewrite Hv. cbn.
  unfold len in *. split; [done|]. split; [rewrite length_app, !length_drop; lia|]. apply take_app_le. rewrite length_drop. lia.
Qed.

(** ** There and back *)
Definition zone_of (a : net_Addr) : bytes :=
  match a with TCPAddr _ _ zone | UDPAddr _ _ zone | AnIPAddr (MkIPAddr _ zone) => zone | UnixAddr _ _ => [] end.
Definition port_of_addr (a : net_Addr) : Z := match a with TCPAddr _ p _ | UDPAddr _ p _ => p | _ => 0 end.
Definition like (a : net_Addr) (ip : bytes) (port : Z) (zone : bytes) : net_Addr :=
  match a with TCPAddr _ _ _ => TCPAddr ip port zone | UDPAddr _ _ _ => UDPAddr ip port zone | AnIPAddr _ => AnIPAddr (MkIPAddr ip zone) | UnixAddr _ _ => a end.
(** An address package net can make: of an IP of either length, or none. *)
Definition inet_ok (a : net_Addr) : Prop := has_port a ∧ (length (the_IP a) = 0 ∨ length (the_IP a) = 4 ∨ length (the_IP a) = 16)%nat.
Lemma sockaddr_inet family a : inet_ok a → ∀ W `{!Interfaces W} (s : W * ipv6ZoneCache), sockaddr family a s = ipToSockaddr family (the_IP a) (port_of_addr a) (zone_of a) s.
Proof. intros [Hp _] W HW s. by destruct a as [ip port zone|ip port zone|[ip zone]|nm nt]. Qed.
(** Which of the families an IP has an address in. *)
Definition fits (family : Z) (ip : bytes) : Prop := family = AF_INET6 ∨ family = AF_INET ∧ (ip = [] ∨ IP_To4 ip ≠ []).
(** The IP in the form of a family: of its length, the same address; the nil IP and
    0.0.0.0 are the unspecified address of the family. *)
Definition same_ip (family : Z) (ip ip' : bytes) : Prop :=
  let width := if family =? AF_INET then 4%nat else 16%nat in
  ((ip = [] ∨ IP_Equal ip IPv4zero = true) → ip' = replicate width 0) ∧
  (ip ≠ [] → IP_Equal ip IPv4zero = false → length ip' = width ∧ IP_Equal ip' ip = true).
Lemma To4_zero ip : length ip = 4%nat ∨ length ip = 16%nat → IP_To4 ip ≠ [] → IP_Equal ip IPv4zero = true → IP_To4 ip = replicate 4 0.
Proof.
  intros [Hl|Hl] Hn He.
  - destruct ip as [|a0 [|a1 [|a2 [|a3 [|]]]]]; try done. by apply beq_eq in He as [= -> -> -> ->].
  - destruct (To4_mapped ip Hl Hn) as (a0&a1&a2&a3&->). rewrite To4_IPv4. by apply beq_eq in He as [= -> -> -> ->].
Qed.
Lemma To4_same ip : length ip = 4%nat ∨ length ip = 16%nat → IP_To4 ip ≠ [] → length (IP_To4 ip) = 4%nat ∧ IP_Equal (IP_To4 ip) ip = true.
Proof.
  intros [Hl|Hl] Hn.
  - assert (E : IP_To4 ip = ip) by (unfold IP_To4, len; by rewrite Hl). rewrite E. split; [done|]. unfold IP_Equal. by rewrite Z.eqb_refl, beq_refl.
  - destruct (To4_mapped ip Hl Hn) as (a0&a1&a2&a3&->). rewrite To4_IPv4. split; [done|]. exact (beq_refl [a0; a1; a2; a3]).
Qed.
Lemma To16_same ip : length ip = 4%nat ∨ length ip = 16%nat → length (IP_To16 ip) = 16%nat ∧ IP_Equal (IP_To16 ip) ip = true.
Proof.
  intros [Hl|Hl].
  - destruct ip as [|a0 [|a1 [|a2 [|a3 [|]]]]]; try done. split; [done|]. exact (beq_refl [a0; a1; a2; a3]).
  - assert (E : IP_To16 ip = ip) by (unfold IP_To16, len; by rewrite Hl). rewrite E. split; [done|]. unfold IP_Equal. by rewrite Z.eqb_refl, beq_refl.
Qed.
Section back.
Context {W : Type} (ift : list (bytes * Z)) `{SteadyInterfaces W ift} (names_differ : NoDup ift.*1) (indexes_differ : NoDup ift.*2).
(** What is handed to the kernel, and read back. *)
Lemma ipToSockaddr_run family ip port zone i s : (length ip = 0 ∨ length ip = 4 ∨ length ip = 16)%nat → fits family ip → zone_is ift zone i → zones_ok ift s →
  ∃ sa s1, ipToSockaddr family ip port zone s = (Ok sa, s1) ∧ zones_ok ift s1 ∧ sa_ok sa ∧ ∃ ip', same_ip family ip ip' ∧
    (family = AF_INET ∧ sa = SockaddrInet4 port ip' ∨ family = AF_INET6 ∧ sa = SockaddrInet6 port i ip').
Proof.
  intros Hl Hf Hz Hok. unfold ipToSockaddr. destruct Hf as [->|[-> Hf]].
  - cbn. unfold ipToSockaddrInet6. set (ip6 := if (len ip =? 0) || IP_Equal ip IPv4zero then IPv6unspecified else ip).
    assert (H6 : length (IP_To16 ip6) = 16%nat ∧ same_ip AF_INET6 ip (IP_To16 ip6)).
    { subst ip6. destruct ((len ip =? 0) || _) eqn:E; [split; [done|]; split; [done|]; intros Hne E0; rewrite E0, orb_false_r in E; apply Z.eqb_eq in E; by destruct ip|].
      apply orb_false_iff in E as [E1 E0]. destruct Hl as [Hl|Hl]; [by destruct ip|]. destruct (To16_same ip Hl) as [Hlen Heq]. split; [done|]. split; [|done]. intros [->|E2]; [done|by rewrite E0 in E2]. }
    destruct H6 as [H6 Hsame]. destruct (is_nil (IP_To16 ip6)) eqn:En; [by destruct (IP_To16 ip6)|].
    destruct (zone_index_run ift zone i s names_differ Hz Hok) as (s1&E&Hok1). unfold mbind, stateful_bind. rewrite E.
    assert (Hi : is_u32 i) by (unfold is_u32; destruct Hz as [[_ ->]|(_&_&Hi)]; lia). rewrite u32_id by done. eexists _, s1. split; [reflexivity|]. split; [done|]. split; [done|]. exists (IP_To16 ip6). split; [done|by right].
  - cbn. unfold ipToSockaddrInet4. set (ip4 := if len ip =? 0 then IPv4zero else ip).
    assert (H4 : length (IP_To4 ip4) = 4%nat ∧ same_ip AF_INET ip (IP_To4 ip4)).
    { subst ip4. destruct ip as [|c ip]; [by split|]. destruct (Z.eqb_spec (len (c :: ip)) 0) as [E|_]; [rewrite len_cons in E; pose proof (len_nonneg ip); lia|]. destruct Hl as [Hl|Hl]; [done|].
      destruct Hf as [Hf|Hf]; [done|]. destruct (To4_same _ Hl Hf) as [Hlen Heq]. split; [done|]. split; [|done]. intros [?|E0]; [done|]. by apply To4_zero. }
    destruct H4 as [H4 Hsame]. destruct (is_nil (IP_To4 ip4)) eqn:En; [by destruct (IP_To4 ip4)|]. eexists _, s. split; [reflexivity|]. split; [done|]. split; [done|]. exists (IP_To4 ip4). split; [done|by left].
Qed.
(** The address that comes back. *)
Definition comes_back (family : Z) (a a' : net_Addr) : Prop :=
  ∃ ip' zone', a' = like a ip' (port_of_addr a) zone' ∧ same_ip family (the_IP a) ip' ∧ zone' = if family =? AF_INET then [] else zone_of a.
Lemma sockaddr_back family a i s : inet_ok a → fits family (the_IP a) → zone_is ift (zone_of a) i → zones_ok ift s →
  ∃ sa s1 b, sockaddr family a s = (Ok sa, s1) ∧ sockaddr_bytes sa = Ok b ∧ anyToSockaddr (padded b) = Ok sa ∧
    ∃ a' s2, sockaddrTo (like a) sa s1 = (Ok (Some a'), s2) ∧ zones_ok ift s2 ∧ comes_back family a a'.
Proof.
  intros Ha Hf Hz Hok. pose proof Ha as [Hp Hl]. rewrite sockaddr_inet by done.
  destruct (ipToSockaddr_run family (the_IP a) (port_of_addr a) (zone_of a) i s Hl Hf Hz Hok) as (sa&s1&E&Hok1&Hsa&ip'&Hsame&Hcase).
  assert (Hport : bad_port (port_of_addr a) = false) by (apply negb_true_iff; rewrite <- is_port_bad; by destruct a).
  assert (Hb : ∃ b, sockaddr_bytes sa = Ok b) by (destruct Hcase as [[_ ->]|[_ ->]]; cbn; rewrite Hport; by eexists). destruct Hb as [b Hb].
  destruct (sockaddr_bytes_back sa b Hsa Hb) as [_ Hback]. exists sa, s1, b. split; [done|]. split; [done|]. split; [done|]. destruct Hcase as [[-> ->]|[-> ->]]; cbn [sockaddrTo].
  - eexists _, s1. split; [reflexivity|]. split; [done|]. by exists ip', [].
  - destruct (zone_name_run ift (zone_of a) i s1 indexes_differ Hz Hok1) as (s2&E2&Hok2). unfold mbind, stateful_bind. rewrite E2. eexists _, s2. split; [reflexivity|]. split; [done|]. by exists ip', (zone_of a).
Qed.
End back.

(** ** The family of a socket *)
Lemma family_of_fits a : inet_ok a → family_of (Some a) = AF_INET → the_IP a = [] ∨ IP_To4 (the_IP a) ≠ [].
Proof.
  intros [Hp Hl] Hf. assert (E : (if len (the_IP a) <=? IPv4len then AF_INET else if negb (is_nil (IP_To4 (the_IP a))) then AF_INET else AF_INET6) = AF_INET) by (by destruct a).
  destruct (Z.leb_spec (len (the_IP a)) IPv4len) as [Hle|_]; [|right; intros E4; by rewrite E4 in E]. destruct Hl as [Hl|[Hl|Hl]]; [left; by destruct (the_IP a)| |unfold len, IPv4len in Hle; lia].
  right. unfold IP_To4, len. rewrite Hl. change (Z.of_nat 4 =? IPv4len) with true. cbn iota. intros E0. by rewrite E0 in Hl.
Qed.
(** Whatever is supported, both addresses have a form in the family chosen. *)
Lemma favoriteAddrFamily_fits ipv4 ipv4map net laddr raddr mode : net ≠ [] → (mode = "listen"%go → raddr = None) →
  (∀ a, laddr = Some a ∨ raddr = Some a → inet_ok a ∧ (list.last net = Some "4"%byte → the_IP a = [] ∨ IP_To4 (the_IP a) ≠ [])) →
  ∃ fam only, favoriteAddrFamily ipv4 ipv4map net laddr raddr mode = Ok (fam, only) ∧ ∀ a, laddr = Some a ∨ raddr = Some a → fits fam (the_IP a).
Proof.
  intros Hne Hmode Hok. unfold favoriteAddrFamily. destruct net as [|d t _] using rev_ind; [done|]. rewrite at_last. cbn [mbind res_bind].
  destruct (Z.eqb_spec d "4"%byte) as [->|_]; [eexists _, _; split; [reflexivity|]; intros a Ha; right; split; [done|]; apply (Hok a Ha); by rewrite last_snoc|].
  destruct (d =? "6"%byte); [eexists _, _; split; [reflexivity|]; by left|].
  assert (Hfits : ∀ a o, o = Some a → inet_ok a → family_of o = AF_INET → fits AF_INET (the_IP a)) by (intros a o -> Ha Hf; right; split; [done|]; by apply family_of_fits).
  destruct (beq mode "listen"%go && _) eqn:El.
  - apply andb_true_iff in El as [Hm _]. apply beq_eq in Hm. specialize (Hmode Hm). subst raddr. destruct (ipv4map || negb ipv4); [eexists _, _; split; [reflexivity|]; by left|]. eexists _, _. split; [reflexivity|].
    intros a [->|[=]]. destruct (Hok a (or_introl eq_refl)) as [Ha _]. pose proof Ha as [Hp _]. destruct (decide (family_of (Some a) = AF_INET)) as [E|E]; [rewrite E; by apply (Hfits a (Some a))|].
    left. unfold family_of in *. destruct a as [ip ? ?|ip ? ?|[ip ?]|? ?]; [| | |done]; (destruct (_ <=? IPv4len); [done|]; destruct (negb _); done).
  - destruct ((family_of laddr =? AF_INET) && (family_of raddr =? AF_INET)) eqn:Ef; [|eexists _, _; split; [reflexivity|]; by left].
    apply andb_true_iff in Ef as [Hl%Z.eqb_eq Hr%Z.eqb_eq]. eexists _, _. split; [reflexivity|]. intros a Ha. destruct (Hok a Ha) as [Hin _]. destruct Ha as [->| ->]; by eapply Hfits.
Qed.
Section kernel.
Context {W : Type} (ift : list (bytes * Z)) `{SteadyInterfaces W ift} (names_differ : NoDup ift.*1) (indexes_differ : NoDup ift.*2).
(** C18: the family favoriteAddrFamily chooses has a form of the local and of the
    remote address, to dial or to listen: each is converted without an error, the
    kernel's bytes of it are read back as the same structure, and that makes an
    address of the same kind and port, whose IP is the same one in the family's
    form (4 bytes in AF_INET, 16 in AF_INET6; the nil IP and 0.0.0.0 become the
    family's unspecified address), with the same zone in AF_INET6 and none in
    AF_INET.  The IPs are nil or of 4 or 16 bytes, IPv4 ones or nil on a network
    for IPv4 only; the zones are empty or names of interfaces that exist; and the
    interfaces have distinct names and indexes, which do not change. *)
Theorem kernel_addr_spec ipv4 ipv4map net laddr raddr mode : net ≠ [] → (mode = "listen"%go → raddr = None) →
  (∀ a, laddr = Some a ∨ raddr = Some a → inet_ok a ∧ (∃ i, zone_is ift (zone_of a) i) ∧ (list.last net = Some "4"%byte → the_IP a = [] ∨ IP_To4 (the_IP a) ≠ [])) →
  ∃ fam only, favoriteAddrFamily ipv4 ipv4map net laddr raddr mode = Ok (fam, only) ∧
    ∀ a s, laddr = Some a ∨ raddr = Some a → zones_ok ift s →
    ∃ sa s1 b, sockaddr fam a s = (Ok sa, s1) ∧ sockaddr_bytes sa = Ok b ∧ anyToSockaddr (padded b) = Ok sa ∧
      ∃ a' s2, sockaddrTo (like a) sa s1 = (Ok (Some a'), s2) ∧ zones_ok ift s2 ∧ comes_back fam a a'.
Proof.
  intros Hne Hmode Hok. destruct (favoriteAddrFamily_fits ipv4 ipv4map net laddr raddr mode Hne Hmode) as (fam&only&E&Hfits); [intros a Ha; by destruct (Hok a Ha) as (?&_&?)|].
  exists fam, only. split; [done|]. intros a s Ha Hs. destruct (Hok a Ha) as (Hin&(i&Hz)&_). by apply (sockaddr_back ift names_differ indexes_differ fam a i s Hin (Hfits a Ha)).
Qed.
End kernel.
(** A host with a loopback and an Ethernet interface; its clock stands still. *)
Definition lan : list (bytes * Z) := [("lo"%go, 1); ("eth0"%go, 2)].
#[global] Instance lan_Interfaces : Interfaces unit := { if_Now w := (10 ^ 12, w); interfaceTable w := (inl lan, w) }.
#[global] Instance lan_steady : SteadyInterfaces unit lan.
Proof. done. Qed.
Definition link_local : net_Addr := TCPAddr ([0xfe; 0x80] ++ replicate 13 0 ++ [1]) 8080 "eth0"%go.
Definition there_and_back (fam : Z) (a : net_Addr) : res (bytes * option net_Addr) :=
  match sockaddr fam a (tt, zoneCache_init) with
  | (Ok sa, s) => b ← sockaddr_bytes sa; sa' ← anyToSockaddr (padded b); a' ← fst (sockaddrTo (like a) sa' s); Ok (b, a')
  | (Err e, _) => Err e
  | (Panic m, _) => Panic m
  end.
Lemma kernel_addr_spec_witness :
  (there_and_back AF_INET6 link_local = Ok ([10; 0; 31; 144; 0; 0; 0; 0; 0xfe; 0x80] ++ replicate 13 0 ++ [1; 2; 0; 0; 0], Some link_local) ∧
   there_and_back AF_INET6 (TCPAddr (IPv4 10 0 0 1) 80 []) = Ok ([10; 0; 0; 80; 0; 0; 0; 0] ++ IPv4 10 0 0 1 ++ [0; 0; 0; 0], Some (TCPAddr (IPv4 10 0 0 1) 80 [])) ∧
   there_and_back AF_INET (TCPAddr [] 80 []) = Ok ([2; 0; 0; 80] ++ replicate 12 0, Some (TCPAddr [0; 0; 0; 0] 80 []))) ∧
  ∃ fam only, favoriteAddrFamily true true "tcp"%go None (Some link_local) "dial"%go = Ok (fam, only) ∧
    ∀ a s, None = Some a ∨ Some link_local = Some a → zones_ok lan s →
    ∃ sa s1 b, sockaddr fam a s = (Ok sa, s1) ∧ sockaddr_bytes sa = Ok b ∧ anyToSockaddr (padded b) = Ok sa ∧
      ∃ a' s2, sockaddrTo (like a) sa s1 = (Ok (Some a'), s2) ∧ zones_ok lan s2 ∧ comes_back fam a a'.
Proof.
  split; [vm_compute; by repeat split|]. apply (kernel_addr_spec (W := unit) lan); [apply (bool_decide_unpack _); by vm_compute|apply (bool_decide_unpack _); by vm_compute|done|done|].
  intros a [[=]|[= <-]]. split; [split; [done|by right; right]|]. split; [exists 2; right; split; [right; left|done]|]. intros [=].
Defined.
